(* ===== verification/_CoqProject ===== *)
-Q . S2P
Prelude.v
Libraries.v
ByteOrder.v
Protocol.v
Intercept.v
NetBuffer.v
NetPush.v
NetDecode.v
NetFormat.v
NetMessages.v
NetSamples.v
NetSafety.v
NetStream.v
NetLiveness.v
NetRoundTrip.v
ExportBuffer.v
IpReassembly.v
TcpReassembly.v
Publish.v
SeqTracker.v
Forwarder.v
Pipeline.v
JenkinsHash.v
AccessSession.v
Radius.v
RadiusSession.v
RadiusParse.v
Ipiri.v
RadiusIri.v
RadiusProps.v
Gtp.v
GtpParse.v
GtpProps.v
GtpOrder.v
HashTable.v
IpSession.v
TimedIntercept.v
CoreServer.v
ThreadTables.v
PacketContents.v
PacketProcess.v
ThreadProps.v
ThreadFaults.v
PacketProps.v
SyncSessions.v
SyncProps.v
SyncThreads.v
SyncIntercepts.v
GtpSync.v
SyncProvisioner.v
SyncProvProps.v
SyncConfig.v
SyncRefine.v
SyncClaims.v
Provisioner.v
ProvReload.v
ProvAuth.v
ProvProps.v
ProvHi1.v
ProvFaults.v
ProvReloadProps.v
ProvAuthProps.v
MedHandover.v
MedAgency.v
MedMain.v
MedCollector.v
MedCollectorProps.v
MedOutlet.v
MedDelivery.v
MedAgencyProps.v
