(* ===== verification/Prelude.v ===== *)
(** * OpenLI: a verification library for the provisioner, the collector and the mediator

    OpenLI is a lawful-intercept system of three kinds of programs.  A
    provisioner holds the configuration (agencies, intercepts, core servers,
    mediators) and announces it; collectors receive the announcements, watch
    traffic, encode what is intercepted and forward it; mediators receive the
    encoded records and hand them over to the agencies.  This library models what the
    provisioner tells its clients, the protocol all of them use, the way of IP traffic
    through a collector, from the login of a user to the connection with the mediator, and
    the way of the records through the mediator, and proves what makes these parts correct.

    ** The parts and where they are modelled

    - The internal protocol (src/src/netcomms.c and netcomms.h).  Every message
      is a 16-byte header followed by type-length-value fields, written to and
      read from a growable buffer.
      ByteOrder: src/src/byteswap.c.  Protocol: message and field numbers, the
      header.  Intercept: the structures that are exchanged (intercept.h,
      agency.h, coreserver.h) and the core server key (coreserver.c).
      NetBuffer: [net_buffer_t], its growth, the pushing of headers and fields,
      [transmit_net_buffer], [parse_received_message], [receive_net_buffer],
      [receive_RMQ_buffer].  NetPush: the [push_*] functions.  NetDecode: the
      [decode_*] functions.
    - The export buffer (src/src/export_buffer.c): the byte queue between the
      encoder and an unreliable connection.  ExportBuffer.
    - Reassembly (src/src/collector/reassembler.c): IP fragments (IpReassembly,
      with the code of src/src/collector/collector.c that uses them) and SIP
      messages in TCP segments (TcpReassembly).
    - The export path of the collector.  Publish: the messages between its threads
      (src/src/collector/collector_publish.h, collector_base.h).  SeqTracker: the
      thread that numbers records (collector_seqtracker.c).  Forwarder: the thread
      that puts records in order and sends them to the mediators
      (collector_forwarder.c).  Pipeline: the batching of the encoder workers in
      between (encoder_worker.c), with the ASN.1 encoding as a parameter.
    - Access sessions: who is using which address.  AccessSession: the sessions and
      their addresses (src/src/collector/internetaccess.c).  Radius: the RADIUS plugin
      (collector/accessplugins/radius.c), its tables in a heap, parsing, users, saved
      requests and orphaned responses; RadiusSession: its state machine and
      [radius_update_session_state]; RadiusIri: what it reports; Ipiri: the parameters
      of the records (ipiri.c).  SyncSessions: [update_user_sessions] of
      collector_sync.c with everything it calls, for any plugin; the plugin interface
      is the record [access_plugin]; RADIUS is an instance in SyncProps and GTP is one in
      Gtp (collector/accessplugins/gtp.c: messages of both versions, sessions, the state
      machine, records).  IpSession: what is sent to the packet threads (intercept.c).
    - The rest of the IP synchronisation thread (collector_sync.c).  SyncIntercepts: the
      handlers for intercepts, ranges, servers and default users.  SyncProvisioner: the
      loss and return of the provisioner, the dispatch of its messages and the main loop.
      TimedIntercept: the start and end times of intercepts (timed_intercept.c).
    - Packet processing.  ThreadTables: the tables of a packet thread and every message
      that changes them (collector_push_messaging.c), with the class [Patricia] for the
      trees of address ranges.  HashTable: uthash tables as association lists in the
      order of insertion.  CoreServer: matching packets to servers (coreserver.c and
      collector.c).  PacketContents: content of communication (ipcc.c, ipmmcc.c).
      PacketProcess: [process_packet] of collector.c with the vendor mirrors
      (alushim_parser.c, jmirror_parser.c).  JenkinsHash: the hash that assigns
      connections to email workers (jenkinshash.c).
    - The provisioner (src/src/provisioner).  Provisioner: connections, what clients are
      told about changes and HI1 notifications (clientupdates.c, provisioner_client.c,
      intercept_timers.c).  ProvReload: the comparison of two configurations
      (hup_reload.c).  ProvAuth: what a client is told when it connects, and the addresses
      of mediators (provisioner.c).
    - The mediator (src/src/mediator).  MedCollector: the thread that puts the records of a
      collector into the queues of the local broker (coll_recv_thread.c, mediator_rmq.c).
      MedHandover: a handover, its timers, keepalives, queues and records (handover.c,
      med_epoll.c, liidmapping.c, mediator_rmq.c).  MedAgency: the thread of an agency with
      its two handovers (lea_send_thread.c).  MedMain: the table of these threads and what
      the provisioner's messages do to it (mediator.c).  Every operation gives what it did
      to the outside as a list of events; the answers of the kernel and the broker come with
      the event that is handled ([med_env], [coll_env]).
    - Prelude: outcomes of C code, machine integers, memory as lists of bytes,
      C strings.  Libraries: what the code relies on of uthash and Judy, as type
      classes with an instance each.

    ** How code becomes definitions

    A C function that cannot fail is a function; one that can trip an assertion
    or leave its memory returns an [outcome] ([Ok], [Abort], [Undef]).  State is
    passed explicitly.  Integers are [Z], reduced with [u16], [u32], [u64] and
    [i32] where the C type is narrower than what is computed.  A [char *] is an
    optional list of bytes without its NUL.  [realloc] is an argument that says
    which sizes are granted; what a socket, OpenSSL, RabbitMQ or libtrace
    answers is an argument of the function that asks.  Log calls are left out.
    Little-endian machines with 8-byte pointers are assumed, as the sources do.
    Where the sources share a structure between tables or threads (pre-encoded
    fields, descriptors of mediators), it has an address in an explicit heap and
    using an address that was freed is [Undef].

    ** What is proved

    - NetFormat states the interface of a kind of message ([wire_format]): how it
      is pushed, what is on the wire, how it is decoded.  NetMessages implements
      it for eighteen kinds.  NetStream proves against the interface alone that
      any mixture of messages pushed on one side is decoded on the other, in
      order, whatever the kernel does to the stream ([messages_end_to_end]), and
      the underlying theorems on framing ([receive_stream]) and sending; it also
      treats arbitrary input and RabbitMQ bodies.
      NetRoundTrip has the round trips of the single functions, what a failed
      push leaves behind, and the limits of the encoding.  NetSafety shows how
      far the decoders can read on arbitrary input.
    - ExportBuffer proves that the buffer refines a byte queue with a batch in
      flight ([export_refines_queue]), that it is FIFO over any sequence of calls
      ([export_fifo]), and describes what happens when memory runs out and which
      record offsets are saved.
    - IpReassembly proves that any datagram is reassembled from any arrival order
      of its fragments ([ip_reassembly_correct]), that the stream table never
      hands out a purged stream, and what hostile fragments do.
    - TcpReassembly proves the sequence arithmetic and the search for message
      ends, the delivery of several messages in one segment, and the loss of
      messages that span segments.

    - SeqTracker proves that the records of every stream are numbered consecutively
      in the order of publication ([tracker_numbers_records]) and that the
      pre-encoded fields given to the encoders stay allocated long enough
      ([preencoded_grace]).  Forwarder proves that results are queued in the order
      of their numbers whatever their order of arrival ([reorder_correct]), and
      what happens when mediators change, move or are dropped.  Pipeline combines
      both with the workers ([collector_pipeline]).
    - NetLiveness proves that a send buffer is emptied if the kernel keeps accepting
      something ([transmit_drains]).
    - AccessSession proves that the table of addresses of a session keeps its invariant
      ([add_new_session_ip_safe]).  RadiusParse proves that
      any packet is parsed without leaving its memory ([radius_parse_packet_total]) and
      that encoded attributes are found again ([radius_attributes_round_trip]).
      RadiusProps has the tables of requests and responses
      ([request_response_round_trip]) and the packets that stop the plugin.  RadiusIri
      proves that the records of a session are a legal stream ([session_iri_stream]) and that [radius_update_session_state] refines the
      machine that theorem is about ([update_follows_machine]).  Ipiri proves that a
      record names every address ([ipiri_reports_all_addresses]).
    - GtpParse proves that well-formed messages are parsed into their elements
      ([gtp_messages_parsed]), GtpProps that a session is reported as a legal sequence as
      long as no two exchanges are taken for one ([gtp_session_lifecycle]), GtpOrder that a request and its response may come in
      either order ([create_order_independent]); GtpSync runs the plugin in the
      synchronisation thread.
    - ThreadProps proves that the content a packet thread publishes is a function of the
      messages it received ([content_follows_messages]) and that IPv6 sessions are never
      found ([ipv6_sessions_missed]); ThreadFaults has two sequences of messages that
      use freed keys; PacketProps treats servers and packets that are too short
      ([short_packet_undefined]).  JenkinsHash proves that the variants of the hash
      agree ([hashlittle_placement]).
    - SyncProps proves that the end of a session takes back what its start did
      ([session_start_stop_balanced]) and leaves no pointer behind
      ([over_leaves_no_pointer]), and runs whole sessions with the RADIUS plugin.
      SyncThreads composes both threads: the traffic of a session is intercepted from
      its start to its end ([session_traffic_intercepted]).
    - SyncConfig says what the messages of the provisioner mean: a specification of the
      configuration they describe.  SyncProvProps and SyncRefine prove the handlers against
      it, SyncClaims that any sequence of
      messages and disconnections in which known intercepts keep their users (with another
      one the source uses a freed string) leaves exactly the configuration described
      ([provisioner_config_refined]) and that a reconnection keeps
      exactly what was announced again ([reconnection_keeps_announced]).  TimedIntercept
      proves that no start or end of an intercept is missed ([intercept_events_fire]).
    - ProvProps sums up the loops over clients: an operation [says] given bytes to every
      collector and to every mediator.  ProvHi1 proves that the notifications about an
      intercept are a legal stream ([hi1_stream_legal]) except when it changes its agency
      ([agency_change_hides_activation]).  ProvReloadProps joins the provisioner to
      SyncConfig: a reload in which the intercepts that
      stay keep their users takes every collector from the old intercepts to the new ones
      ([ip_reload_reaches_collectors]).  ProvAuthProps does the same for a collector that
      connects again after its synchronisation thread lost the connection: what it is sent
      confirms what is still configured and makes it remove the rest
      ([auth_restores_collector]).  ProvFaults shows that withdrawing an intercept by a
      reload frees memory twice ([withdrawn_targets_freed_twice]).
    - MedCollectorProps proves that the records of a collector are published once and in
      order ([collector_records_queued]).  MedOutlet specifies a handover as an outlet, a
      queue of items with a batch that is being sent, and says what its runs do to the
      outside.  MedDelivery proves, with a calculus of weakest preconditions over ghost
      states ([gwp]), that every operation on a handover is a run of its outlet, and
      MedAgencyProps that a thread is one of both: connections carry whole items, and
      nothing is acknowledged that was not sent ([acknowledged_records_sent]).

    NetSamples and the Examples part of each file apply the theorems to concrete
    objects.

    ** Bounds and fuel

    Loops over lists are structural.  [make_room] gets fuel 2: one extension
    gives the at most 65551 bytes a push may need ([make_room_spec]).
    [decode_message] gets one unit per byte, and every round consumes four
    ([decode_fields_safe]).  [make_space] gets 200 units: each extension adds 50
    MiB and a request is below 2^33 bytes ([make_space_spec]).  [update_tcp] gets
    one unit per byte of the segment; running out stands for the unbounded
    recursion of the source.  [receive_all] and [drain] are the callers' loops;
    the theorems give the fuel that suffices.  [release_pending] gets one unit per
    record that waits, and each round takes one ([release_spec]).  [print_u] gets
    the ten digits of 32 bits ([decimal_digits_value]).  [parse_attributes] and
    [hash_blocks] get one unit per byte and consume several per round
    ([parse_attributes_ok], [hash_blocks_ref]).  [add_mappings] gets 256, more than the
    8-bit count of addresses.  [ipiri_jobs_from_packet] gets 2, as a packet has at most
    two actions, and [export_raw] 256 pieces of a packet; [strip_headers] gets one unit
    per byte of the packet, and so do the loops over the elements of a GTP message.
    [due_events] gets one unit per time in the table, [recv_loop] is the caller's loop over
    the messages that have arrived.  [receive_collector] gets one unit per message and read
    ([collector_records_queued]), [receive_loop] one per byte: a message is not empty.

    ** What is not modelled

    The ASN.1 encoders (libwandder is a parameter); the e-mail protocols, SIP parsing and
    the VoIP and email threads, which rest on libosip and on their own sessions; the pcap
    files of the mediator, its connections with OpenSSL and how it joins RabbitMQ; the
    REST interface and the parsers of configuration files (libmicrohttpd, json-c,
    libyaml), whose results are arguments; the epoll loops, TLS and logging. The Patricia
    tree is the class [Patricia]. Apart from the structures in a heap and the strings
    whose double release is shown, memory that is freed is not represented, nor is the
    order of elements in a hash table where the code does not depend on it. Allocation is
    assumed to succeed in the collector's session and packet code and in the provisioner,
    except for the growth of network buffers. *)

From Stdlib Require Export ZArith Lia.
From stdpp Require Export base numbers list option sorting strings.

#[export] Set Default Goal Selector "!".

Declare Scope openli_scope.
Delimit Scope openli_scope with openli.
#[global] Open Scope Z_scope.

(** ** Outcomes of C code

    [Ok] is a normal return, [Abort] a failed [assert] (the process stops) and
    [Undef] an execution the C standard gives no meaning to: a read past the
    end of an object, [strlen(NULL)], a signed overflow. *)

Inductive outcome (A : Type) : Type :=
  | Ok (a : A)
  | Abort
  | Undef.
Arguments Ok {A} a.
Arguments Abort {A}.
Arguments Undef {A}.

#[global] Instance outcome_ret : MRet outcome := λ A a, Ok a.
#[global] Instance outcome_bind : MBind outcome := λ A B f m,
  match m with Ok a => f a | Abort => Abort | Undef => Undef end.
#[global] Instance outcome_fmap : FMap outcome := λ A B f m,
  match m with Ok a => Ok (f a) | Abort => Abort | Undef => Undef end.

(** Run the binds on known outcomes, and nothing else. *)
Ltac run_outcome := cbn [mbind outcome_bind fmap outcome_fmap mret outcome_ret].

(** [assert(b)] of <assert.h>. *)
Definition c_assert (b : bool) : outcome unit := if b then Ok tt else Abort.

Lemma bind_Ok {A B} (m : outcome A) (f : A → outcome B) (b : B) :
  (m ≫= f) = Ok b ↔ ∃ a, m = Ok a ∧ f a = Ok b.
Proof. split; [destruct m; simpl; eauto; done|by intros (a & -> & ?)]. Qed.

(** ** Machine integers *)

Definition INT_MAX : Z := 2147483647.

Definition u8 (z : Z) : Z := z mod 2^8.
Definition u16 (z : Z) : Z := z mod 2^16.
Definition u32 (z : Z) : Z := z mod 2^32.
Definition u64 (z : Z) : Z := z mod 2^64.

(** Conversion of a value to [int32_t] as every supported compiler does it. *)
Definition i32 (z : Z) : Z := (z + 2^31) mod 2^32 - 2^31.

Lemma u16_id z : 0 ≤ z < 65536 → u16 z = z.
Proof. intros. unfold u16. apply Z.mod_small. lia. Qed.

Lemma u32_id z : 0 ≤ z < 2^32 → u32 z = z.
Proof. intros. unfold u32. by apply Z.mod_small. Qed.

Lemma u32_add_l a b : u32 (u32 a + b) = u32 (a + b).
Proof. unfold u32. apply Z.add_mod_idemp_l. lia. Qed.

Lemma u64_id z : 0 ≤ z < 2^64 → u64 z = z.
Proof. intros. unfold u64. by apply Z.mod_small. Qed.

Lemma i32_id z : - 2^31 ≤ z < 2^31 → i32 z = z.
Proof. intros. unfold i32. rewrite Z.mod_small; lia. Qed.

Lemma u16_range z : 0 ≤ u16 z < 65536.
Proof. unfold u16. apply (Z.mod_pos_bound z 65536). lia. Qed.

(** ** Bytes and memory

    A byte is a [Z] in [0, 255]; a block of memory is the list of its bytes. *)

Abbreviation bytes := (list Z).

Definition is_byte (z : Z) : Prop := 0 ≤ z < 256.
Definition all_bytes (bs : bytes) : Prop := Forall is_byte bs.

(** The length of a block as a C size. *)
Definition zlen {A} (l : list A) : Z := Z.of_nat (length l).
Definition ztake {A} (n : Z) (l : list A) : list A := take (Z.to_nat n) l.
Definition zdrop {A} (n : Z) (l : list A) : list A := drop (Z.to_nat n) l.

Lemma zlen_nonneg {A} (l : list A) : 0 ≤ zlen l.
Proof. unfold zlen. lia. Qed.
Lemma zlen_nil {A} : zlen (@nil A) = 0.
Proof. done. Qed.
Lemma zlen_cons {A} (x : A) l : zlen (x :: l) = 1 + zlen l.
Proof. unfold zlen. simpl. lia. Qed.
Lemma zlen_app {A} (l k : list A) : zlen (l ++ k) = zlen l + zlen k.
Proof. unfold zlen. rewrite length_app. lia. Qed.
Lemma zlen_ztake {A} n (l : list A) : 0 ≤ n ≤ zlen l → zlen (ztake n l) = n.
Proof. unfold zlen, ztake. rewrite length_take. lia. Qed.
Lemma zlen_zdrop {A} n (l : list A) : 0 ≤ n ≤ zlen l → zlen (zdrop n l) = zlen l - n.
Proof. unfold zlen, zdrop. rewrite length_drop. lia. Qed.
Lemma zlen_map {A B} (f : A → B) (l : list A) : zlen (f <$> l) = zlen l.
Proof. unfold zlen. by rewrite length_fmap. Qed.
Lemma zlen_0 {A} (l : list A) : zlen l = 0 → l = [].
Proof. destruct l; [done|]. rewrite zlen_cons. pose proof (zlen_nonneg l). lia. Qed.

Lemma ztake_app {A} n (l k : list A) : n = zlen l → ztake n (l ++ k) = l.
Proof. intros ->. unfold ztake, zlen. rewrite Nat2Z.id. apply take_app_length. Qed.
Lemma zdrop_app {A} n (l k : list A) : n = zlen l → zdrop n (l ++ k) = k.
Proof. intros ->. unfold zdrop, zlen. rewrite Nat2Z.id. apply drop_app_length. Qed.
Lemma zdrop_app_le {A} n (l k : list A) :
  n ≤ zlen l → zdrop n (l ++ k) = zdrop n l ++ k.
Proof. intros. unfold zdrop, zlen in *. apply drop_app_le. lia. Qed.
Lemma zdrop_zdrop {A} n m (l : list A) :
  0 ≤ n → 0 ≤ m → zdrop n (zdrop m l) = zdrop (m + n) l.
Proof. intros. unfold zdrop. rewrite drop_drop. f_equal. lia. Qed.
Lemma zdrop_0 {A} (l : list A) : zdrop 0 l = l.
Proof. done. Qed.
Lemma ztake_zdrop {A} n (l : list A) : ztake n l ++ zdrop n l = l.
Proof. apply take_drop. Qed.
Lemma zdrop_all {A} (l : list A) : zdrop (zlen l) l = [].
Proof. unfold zdrop, zlen. rewrite Nat2Z.id. apply drop_all. Qed.

Create HintDb zlen discriminated.
#[warnings="-implicit-create-rewrite-hint-db"]
#[export] Hint Rewrite @zlen_nil @zlen_cons @zlen_app @zlen_map : zlen.

(** Normalise lengths, record that they are not negative, and call [lia]. *)
Ltac zlen_pose :=
  repeat match goal with
  | |- context [zlen ?l] =>
      lazymatch goal with H : 0 ≤ zlen l |- _ => fail | _ => pose proof (zlen_nonneg l) end
  | _ : context [zlen ?l] |- _ =>
      lazymatch goal with H : 0 ≤ zlen l |- _ => fail | _ => pose proof (zlen_nonneg l) end
  end.
Ltac zlia := autorewrite with zlen in *; zlen_pose; lia.

(** ** Little-endian representation of integers in memory *)

Fixpoint le_bytes (n : nat) (v : Z) : bytes :=
  match n with
  | O => []
  | S n => v mod 256 :: le_bytes n (v / 256)
  end.

Fixpoint le_val (bs : bytes) : Z :=
  match bs with
  | [] => 0
  | b :: bs => b + 256 * le_val bs
  end.

Lemma length_le_bytes n v : length (le_bytes n v) = n.
Proof. revert v. induction n; intros; simpl; auto. Qed.
Lemma zlen_le_bytes n v : zlen (le_bytes n v) = Z.of_nat n.
Proof. unfold zlen. by rewrite length_le_bytes. Qed.
#[export] Hint Rewrite zlen_le_bytes : zlen.

Lemma le_bytes_all n v : all_bytes (le_bytes n v).
Proof.
  revert v. induction n; intros; constructor; [|by apply IHn].
  apply Z.mod_pos_bound. lia.
Qed.

Lemma le_val_le_bytes n v : 0 ≤ v < 256 ^ Z.of_nat n → le_val (le_bytes n v) = v.
Proof.
  revert v. induction n as [|n IH]; intros v Hv; simpl.
  - change (256 ^ Z.of_nat 0) with 1 in Hv. lia.
  - rewrite Nat2Z.inj_succ, Z.pow_succ_r in Hv by lia.
    rewrite IH.
    + pose proof (Z.div_mod v 256). lia.
    + split; [apply Z.div_pos; lia|apply Z.div_lt_upper_bound; lia].
Qed.

Lemma le_bytes_le_val bs : all_bytes bs → le_bytes (length bs) (le_val bs) = bs.
Proof.
  induction 1 as [|b bs Hb Hbs IH]; simpl; [done|].
  unfold is_byte in Hb.
  rewrite (Z.mul_comm 256), Z.mod_add, Z.div_add, Z.mod_small, Z.div_small by lia.
  by rewrite Z.add_0_l, IH.
Qed.

Lemma le_val_range bs : all_bytes bs → 0 ≤ le_val bs < 256 ^ zlen bs.
Proof.
  induction 1 as [|b bs Hb Hbs IH]; [done|].
  pose proof (zlen_nonneg bs). unfold is_byte in Hb. simpl le_val.
  rewrite zlen_cons, Z.pow_add_r by lia. change (256 ^ 1) with 256. lia.
Qed.

(** [*((uintN_t * )p)]: an unaligned read of [n] bytes at the start of [mem]. *)
Definition read_le (n : nat) (mem : bytes) : outcome Z :=
  if decide (n ≤ length mem)%nat then Ok (le_val (take n mem)) else Undef.

(** [memcpy(dst, mem, n)]: the bytes copied. *)
Definition read_bytes (n : Z) (mem : bytes) : outcome bytes :=
  if decide (n ≤ zlen mem) then Ok (ztake n mem) else Undef.

Lemma read_le_app n (bs mem : bytes) :
  length bs = n → read_le n (bs ++ mem) = Ok (le_val bs).
Proof.
  intros <-. unfold read_le. rewrite decide_True by (rewrite length_app; lia).
  by rewrite take_app_length.
Qed.

Lemma read_le_bytes n v mem :
  0 ≤ v < 256 ^ Z.of_nat n → read_le n (le_bytes n v ++ mem) = Ok v.
Proof.
  intros. rewrite read_le_app by apply length_le_bytes. by rewrite le_val_le_bytes.
Qed.

Lemma read_le_Ok n mem : Z.of_nat n ≤ zlen mem → ∃ v, read_le n mem = Ok v.
Proof. unfold read_le, zlen. intros. rewrite decide_True by lia. eauto. Qed.

Lemma read_le_1 x k : read_le 1 (x :: k) = Ok x.
Proof. unfold read_le. rewrite decide_True by (simpl; lia). simpl. f_equal. lia. Qed.

Lemma read_bytes_app n (bs mem : bytes) : n = zlen bs → read_bytes n (bs ++ mem) = Ok bs.
Proof.
  intros ->. unfold read_bytes. rewrite decide_True by zlia. by rewrite ztake_app.
Qed.

Lemma read_bytes_Ok n mem : n ≤ zlen mem → read_bytes n mem = Ok (ztake n mem).
Proof. intros. unfold read_bytes. by rewrite decide_True. Qed.

(** ** C strings

    A non-NULL [char *] is the block it points at without the final NUL. *)

Definition cstring := option bytes.

(** The characters before the first NUL. *)
Fixpoint until_nul (bs : bytes) : bytes :=
  match bs with
  | [] => []
  | b :: bs => if decide (b = 0) then [] else b :: until_nul bs
  end.

Definition strlen (s : cstring) : outcome Z :=
  match s with Some bs => Ok (zlen (until_nul bs)) | None => Undef end.

(** A well-formed C string has no NUL of its own. *)
Definition cstr_ok (bs : bytes) : Prop := Forall (λ b, 0 < b < 256) bs.

Lemma until_nul_ok bs : cstr_ok bs → until_nul bs = bs.
Proof.
  induction 1 as [|b bs Hb _ IH]; [done|]. simpl.
  rewrite decide_False by lia. by rewrite IH.
Qed.

Lemma strlen_ok bs : cstr_ok bs → strlen (Some bs) = Ok (zlen bs).
Proof. intros. simpl. by rewrite until_nul_ok. Qed.

(** Reading [n] bytes through a [char *]; the terminating NUL is part of the
    object. *)
Definition str_read (n : Z) (s : cstring) : outcome bytes :=
  match s with
  | Some bs => read_bytes n (bs ++ [0])
  | None => if decide (n = 0) then Ok [] else Undef
  end.

Lemma str_read_ok bs : str_read (zlen bs) (Some bs) = Ok bs.
Proof. by apply read_bytes_app. Qed.

(** The bytes of a string literal. *)
Fixpoint of_string (s : string) : bytes :=
  match s with
  | EmptyString => []
  | String a s => Z.of_N (Ascii.N_of_ascii a) :: of_string s
  end.
