(* ===== verification/Libraries.v ===== *)
(** * Interfaces of the libraries the code calls

    What the sources rely on of uthash and Judy, as type classes: the components
    are verified against the documented behaviour, and one instance of each class
    shows that it can be implemented and lets examples run.  uthash tables are
    otherwise lists of their elements in insertion order, and Judy1 arrays sets of
    numbers. *)

From stdpp Require Import gmap fin_sets.
From S2P Require Import Prelude.

(** [HASH_SORT(head, cmp)] of uthash, where [R a b] is [cmp(a, b) <= 0]: a
    stable merge sort of the elements in insertion order. *)
Class HashSort : Type := {
  hash_sort : ∀ {A} (R : relation A) `{!∀ x y, Decision (R x y)}, list A → list A;
  hash_sort_perm : ∀ {A} (R : relation A) `{!∀ x y, Decision (R x y)} (l : list A),
    hash_sort R l ≡ₚ l;
  hash_sort_sorted : ∀ {A} (R : relation A) `{!∀ x y, Decision (R x y)} (l : list A),
    Transitive R → Total R → StronglySorted R (hash_sort R l);
  hash_sort_stable : ∀ {A} (R : relation A) `{!∀ x y, Decision (R x y)} (l : list A),
    StronglySorted R l → hash_sort R l = l;
}.

(** [J1P(rc, array, index)] of Judy1: the greatest member below [index]. *)
Class Judy1 : Type := {
  J1P : gset Z → Z → option Z;
  J1P_spec : ∀ s index,
    match J1P s index with
    | Some o => o ∈ s ∧ o < index ∧ ∀ x, x ∈ s → x < index → x ≤ o
    | None => ∀ x, x ∈ s → index ≤ x
    end;
}.

(** ** An instance of [HashSort]: insertion sort *)

Section insertion.
Context {A : Type} (R : relation A) `{!∀ x y, Decision (R x y)}.

Fixpoint insert_sorted (x : A) (l : list A) : list A :=
  match l with
  | [] => [x]
  | y :: l => if decide (R x y) then x :: y :: l else y :: insert_sorted x l
  end.

Definition insertion_sort (l : list A) : list A := foldr insert_sorted [] l.

Lemma insert_sorted_perm x l : insert_sorted x l ≡ₚ x :: l.
Proof.
  induction l as [|y l IH]; simpl; [done|]. destruct (decide _); [done|].
  rewrite IH. apply Permutation_swap.
Qed.

Lemma insertion_sort_perm l : insertion_sort l ≡ₚ l.
Proof. induction l as [|x l IH]; simpl; [done|]. by rewrite insert_sorted_perm, IH. Qed.

Lemma insert_sorted_sorted `{!Transitive R, !Total R} x l :
  StronglySorted R l → StronglySorted R (insert_sorted x l).
Proof.
  induction 1 as [|y l Hs IH Hy]; simpl; [by repeat constructor|].
  destruct (decide (R x y)) as [Hxy|Hxy].
  - constructor; [by constructor|]. constructor; [done|].
    eapply Forall_impl; [exact Hy|]. intros z Hyz. by trans y.
  - constructor; [done|]. rewrite insert_sorted_perm. constructor; [|done].
    by destruct (total R x y).
Qed.

Lemma insertion_sort_sorted `{!Transitive R, !Total R} l : StronglySorted R (insertion_sort l).
Proof. induction l; simpl; [constructor|by apply insert_sorted_sorted]. Qed.

Lemma insertion_sort_stable l : StronglySorted R l → insertion_sort l = l.
Proof.
  induction 1 as [|x l Hs IH Hx]; simpl; [done|]. rewrite IH.
  destruct Hx as [|y l Hxy]; simpl; [done|]. by rewrite decide_True.
Qed.
End insertion.

Definition insertion_hash_sort : HashSort := {|
  hash_sort A R H := @insertion_sort A R H;
  hash_sort_perm A R H := @insertion_sort_perm A R H;
  hash_sort_sorted A R H l H1 H2 := @insertion_sort_sorted A R H H1 H2 l;
  hash_sort_stable A R H := @insertion_sort_stable A R H;
|}.

(** ** An instance of [Judy1]: search in a finite set *)

Definition set_prev (s : gset Z) (index : Z) : option Z :=
  foldr (λ x acc, match acc with Some m => Some (Z.max x m) | None => Some x end) None
    (elements (filter (λ x, x < index) s)).

Lemma set_prev_spec s index :
  match set_prev s index with
  | Some o => o ∈ s ∧ o < index ∧ ∀ x, x ∈ s → x < index → x ≤ o
  | None => ∀ x, x ∈ s → index ≤ x
  end.
Proof.
  unfold set_prev. set (l := elements (filter (λ x, x < index) s)).
  assert (∀ x, x ∈ l ↔ x ∈ s ∧ x < index) as Hl
    by (intros x; unfold l; rewrite elem_of_elements, elem_of_filter; tauto).
  clearbody l.
  assert (match foldr (λ x acc, match acc with Some m => Some (Z.max x m) | None => Some x end) None l with
          | Some o => o ∈ l ∧ ∀ x, x ∈ l → x ≤ o
          | None => l = [] end) as H.
  { clear Hl. induction l as [|y l IH]; [done|]. simpl.
    destruct (foldr _ None l) as [m|].
    - destruct IH as [Hm Hmax]. split.
      + destruct (Z.max_spec y m) as [[_ ->]|[_ ->]]; [by right|left].
      + intros x [->|Hx]%elem_of_cons; [lia|]. specialize (Hmax x Hx). lia.
    - subst l. split; [left|]. intros x Hx. apply list_elem_of_singleton in Hx. lia. }
  destruct (foldr _ None l) as [o|].
  - destruct H as [Ho Hmax]. apply Hl in Ho as [? ?]. split_and!; [done..|].
    intros x ? ?. apply Hmax, Hl. done.
  - subst l. intros x Hx. destruct (decide (x < index)); [|lia].
    destruct (not_elem_of_nil x). by apply Hl.
Qed.

Definition set_judy1 : Judy1 := {| J1P := set_prev; J1P_spec := set_prev_spec |}.
