(* ===== verification/ByteOrder.v ===== *)
(** * Byte order (src/src/byteswap.c, src/src/byteswap.h)

    The byte-swapping functions and, for the little-endian hosts OpenLI runs
    on, the host/network conversions the protocol code uses.  The theorems
    relate each swap to the bytes the value has in memory: storing a swapped
    value is storing the reversed bytes, and swapping twice is the identity. *)

From S2P Require Import Prelude.

(** [byteswap16] *)
Definition byteswap16 (num : Z) : Z :=
  Z.lor (Z.land (u32 (Z.shiftl num 8)) 0xFF00) (Z.land (Z.shiftr num 8) 0x00FF).

(** [byteswap32] *)
Definition byteswap32 (num : Z) : Z :=
  Z.lor (Z.lor (Z.lor
    (u32 (Z.shiftl (Z.land num 0x000000FF) 24))
    (u32 (Z.shiftl (Z.land num 0x0000FF00) 8)))
    (Z.shiftr (Z.land num 0x00FF0000) 8))
    (Z.shiftr (Z.land num 0xFF000000) 24).

(** [byteswap64] *)
Definition byteswap64 (num : Z) : Z :=
  Z.lor (byteswap32 (u32 (Z.shiftr (Z.land num 0xFFFFFFFF00000000) 32)))
        (u64 (Z.shiftl (byteswap32 (u32 (Z.land num 0x00000000FFFFFFFF))) 32)).

(** [htons], [htonl] and [bswap_host_to_be64] on a little-endian host. *)
Definition htons (num : Z) : Z := byteswap16 num.
Definition ntohs (num : Z) : Z := byteswap16 num.
Definition htonl (num : Z) : Z := byteswap32 num.
Definition ntohl (num : Z) : Z := byteswap32 num.
Definition bswap_host_to_be64 (num : Z) : Z := byteswap64 num.
Definition bswap_be_to_host64 (num : Z) : Z := byteswap64 num.

(** ** The swaps on values given by their bytes *)

Lemma land_byte_shifted v k :
  0 ≤ k → Z.land v (Z.shiftl 255 k) = Z.shiftl (Z.shiftr v k mod 256) k.
Proof.
  intros Hk. change 255 with (Z.ones 8). change 256 with (2 ^ 8).
  rewrite <- Z.land_ones by lia.
  apply Z.bits_inj'. intros i Hi.
  rewrite Z.land_spec, !Z.shiftl_spec by lia.
  destruct (decide (i < k)).
  - rewrite !(Z.testbit_neg_r _ (i - k)) by lia. apply andb_false_r.
  - rewrite Z.land_spec, Z.shiftr_spec by lia. by rewrite Z.sub_add.
Qed.

Lemma testbit_above a k i : 0 ≤ a < 2 ^ k → 0 ≤ k ≤ i → Z.testbit a i = false.
Proof.
  intros Ha Hi. rewrite <- (Z.mod_small a (2 ^ k)) by lia.
  apply Z.mod_pow2_bits_high. lia.
Qed.

Lemma lor_add a b k : 0 ≤ k → 0 ≤ a < 2 ^ k → Z.lor a (b * 2 ^ k) = a + b * 2 ^ k.
Proof.
  intros Hk Ha. rewrite <- Z.shiftl_mul_pow2 by lia.
  assert (Z.land a (Z.shiftl b k) = 0) as Hdisj.
  { apply Z.bits_inj'. intros i Hi. rewrite Z.land_spec, Z.shiftl_spec, Z.bits_0 by lia.
    destruct (decide (i < k)).
    - rewrite (Z.testbit_neg_r _ (i - k)) by lia. apply andb_false_r.
    - by rewrite (testbit_above a k) by lia. }
  rewrite Z.add_nocarry_lxor by done. by rewrite <- (Z.lxor_lor _ _ Hdisj).
Qed.

(** The [k]-th byte of [v], in place. *)
Lemma land_byte v k m :
  0 ≤ k → m = Z.shiftl 255 k → Z.land v m = (v / 2 ^ k) mod 256 * 2 ^ k.
Proof.
  intros Hk ->. rewrite land_byte_shifted, Z.shiftl_mul_pow2, Z.shiftr_div_pow2 by lia. done.
Qed.

Lemma byteswap16_val b0 b1 :
  is_byte b0 → is_byte b1 → byteswap16 (le_val [b0; b1]) = le_val [b1; b0].
Proof.
  unfold is_byte, byteswap16, u32, le_val. intros H0 H1.
  rewrite (land_byte _ 8), (land_byte _ 0) by (done || lia).
  rewrite Z.shiftl_mul_pow2, Z.shiftr_div_pow2 by lia.
  replace ((b0 + 256 * (b1 + 256 * 0)) / 2 ^ 8) with b1 by (Z.to_euclidean_division_equations; lia).
  replace (((b0 + 256 * (b1 + 256 * 0)) * 2 ^ 8) mod 2 ^ 32 / 2 ^ 8 mod 256) with b0
    by (Z.to_euclidean_division_equations; lia).
  replace (b1 / 2 ^ 0 mod 256 * 2 ^ 0) with b1 by (Z.to_euclidean_division_equations; lia).
  rewrite Z.lor_comm, lor_add by lia. lia.
Qed.

Lemma byteswap32_val b0 b1 b2 b3 :
  is_byte b0 → is_byte b1 → is_byte b2 → is_byte b3 →
  byteswap32 (le_val [b0; b1; b2; b3]) = le_val [b3; b2; b1; b0].
Proof.
  unfold is_byte, byteswap32, u32. intros H0 H1 H2 H3.
  set (v := le_val [b0; b1; b2; b3]).
  assert (v = b0 + 2^8 * b1 + 2^16 * b2 + 2^24 * b3) as Hv by (unfold v; simpl; lia).
  rewrite (land_byte v 0), (land_byte v 8), (land_byte v 16), (land_byte v 24) by (done || lia).
  replace (v / 2 ^ 0 mod 256) with b0 by (Z.to_euclidean_division_equations; lia).
  replace (v / 2 ^ 8 mod 256) with b1 by (Z.to_euclidean_division_equations; lia).
  replace (v / 2 ^ 16 mod 256) with b2 by (Z.to_euclidean_division_equations; lia).
  replace (v / 2 ^ 24 mod 256) with b3 by (Z.to_euclidean_division_equations; lia).
  rewrite !Z.shiftl_mul_pow2, !Z.shiftr_div_pow2 by lia.
  replace (b0 * 2 ^ 0 * 2 ^ 24 mod 2 ^ 32) with (b0 * 2 ^ 24) by (rewrite Z.mod_small; lia).
  replace (b1 * 2 ^ 8 * 2 ^ 8 mod 2 ^ 32) with (b1 * 2 ^ 16) by (rewrite Z.mod_small; lia).
  replace (b2 * 2 ^ 16 / 2 ^ 8) with (b2 * 2 ^ 8) by (Z.to_euclidean_division_equations; lia).
  rewrite Z.div_mul by lia.
  rewrite (Z.lor_comm _ b3), (Z.lor_comm _ (b2 * 2 ^ 8)), (Z.lor_comm (b0 * 2 ^ 24)).
  rewrite !Z.lor_assoc, (lor_add b3 b2), (lor_add _ b1), (lor_add _ b0) by lia. simpl. lia.
Qed.

Lemma byteswap64_val b0 b1 b2 b3 b4 b5 b6 b7 :
  all_bytes [b0; b1; b2; b3; b4; b5; b6; b7] →
  byteswap64 (le_val [b0; b1; b2; b3; b4; b5; b6; b7])
  = le_val [b7; b6; b5; b4; b3; b2; b1; b0].
Proof.
  intros Hb. unfold all_bytes in Hb. rewrite ?Forall_cons in Hb. destruct_and!.
  set (lo := le_val [b0; b1; b2; b3]). set (hi := le_val [b4; b5; b6; b7]).
  set (lo' := le_val [b3; b2; b1; b0]). set (hi' := le_val [b7; b6; b5; b4]).
  assert (le_val [b0; b1; b2; b3; b4; b5; b6; b7] = lo + hi * 2 ^ 32) as ->
    by (unfold lo, hi; simpl; lia).
  assert (0 ≤ lo < 2 ^ 32 ∧ 0 ≤ hi < 2 ^ 32 ∧ 0 ≤ lo' < 2 ^ 32 ∧ 0 ≤ hi' < 2 ^ 32)
    as (?&?&?&?) by (unfold lo, hi, lo', hi', is_byte in *; simpl; lia).
  unfold byteswap64.
  replace (Z.land (lo + hi * 2 ^ 32) 0x00000000FFFFFFFF) with lo.
  2: { change 0x00000000FFFFFFFF with (Z.ones 32). rewrite Z.land_ones by lia.
       rewrite Z.mod_add, Z.mod_small; lia. }
  replace (Z.shiftr (Z.land (lo + hi * 2 ^ 32) 0xFFFFFFFF00000000) 32) with hi.
  2: { rewrite Z.shiftr_land. change (Z.shiftr 0xFFFFFFFF00000000 32) with (Z.ones 32).
       rewrite Z.land_ones, Z.shiftr_div_pow2, Z.div_add, Z.div_small by lia.
       rewrite Z.add_0_l, Z.mod_small; lia. }
  rewrite !u32_id by lia. unfold lo, hi. rewrite !byteswap32_val by done. fold lo' hi'.
  rewrite Z.shiftl_mul_pow2, u64_id by lia. rewrite lor_add by lia.
  unfold lo', hi'. simpl. lia.
Qed.

(** ** Swapping and memory *)

(** Take an integer apart into its [n] bytes. *)
Lemma le_decompose n v :
  0 ≤ v < 256 ^ Z.of_nat n →
  ∃ bs, v = le_val bs ∧ all_bytes bs ∧ length bs = n.
Proof.
  intros Hv. exists (le_bytes n v).
  by rewrite le_val_le_bytes, length_le_bytes by done; auto using le_bytes_all.
Qed.

Lemma le_bytes_val n bs : length bs = n → all_bytes bs → le_bytes n (le_val bs) = bs.
Proof. intros <-. apply le_bytes_le_val. Qed.

Lemma byteswap_le_val bs :
  all_bytes bs →
  (length bs = 2%nat → byteswap16 (le_val bs) = le_val (reverse bs)) ∧
  (length bs = 4%nat → byteswap32 (le_val bs) = le_val (reverse bs)) ∧
  (length bs = 8%nat → byteswap64 (le_val bs) = le_val (reverse bs)).
Proof.
  intros Hb; split_and!; intros Hl;
    repeat (destruct bs as [|? bs]; try discriminate Hl).
  - unfold all_bytes in Hb. rewrite ?Forall_cons in Hb. destruct_and!. by apply byteswap16_val.
  - unfold all_bytes in Hb. rewrite ?Forall_cons in Hb. destruct_and!. by apply byteswap32_val.
  - by apply byteswap64_val.
Qed.


Lemma all_bytes_reverse bs : all_bytes bs → all_bytes (reverse bs).
Proof. apply Forall_reverse. Qed.

(** One lemma for all three widths: [swap] reverses the [n] bytes of a value. *)
Definition reverses (n : nat) (swap : Z → Z) : Prop :=
  ∀ v, 0 ≤ v < 256 ^ Z.of_nat n →
    le_bytes n (swap v) = reverse (le_bytes n v) ∧
    swap (swap v) = v ∧ 0 ≤ swap v < 256 ^ Z.of_nat n.

Lemma reverses_intro n swap :
  (∀ bs, all_bytes bs → length bs = n → swap (le_val bs) = le_val (reverse bs)) →
  reverses n swap.
Proof.
  intros Hs v Hv. destruct (le_decompose n v Hv) as (bs & -> & Hb & Hl).
  assert (length (reverse bs) = n) by by rewrite length_reverse.
  rewrite Hs, le_bytes_val, le_bytes_val, Hs, reverse_involutive
    by auto using all_bytes_reverse.
  split_and!; [done|done|apply le_val_range|];
    [by apply all_bytes_reverse|].
  pose proof (le_val_range (reverse bs) (all_bytes_reverse _ Hb)) as [_ Hu].
  unfold zlen in Hu. by rewrite H in Hu.
Qed.

Lemma htons_reverses : reverses 2 htons.
Proof. apply reverses_intro. intros bs Hb. apply (byteswap_le_val bs Hb). Qed.
Lemma htonl_reverses : reverses 4 htonl.
Proof. apply reverses_intro. intros bs Hb. apply (byteswap_le_val bs Hb). Qed.
Lemma bswap64_reverses : reverses 8 bswap_host_to_be64.
Proof. apply reverses_intro. intros bs Hb. apply (byteswap_le_val bs Hb). Qed.

(** Storing a byte-swapped 16, 32 or 64-bit value stores the bytes of the
    value in the opposite order, and swapping twice gives the value back. *)
Theorem byteswap_memory :
  reverses 2 byteswap16 ∧ reverses 4 byteswap32 ∧ reverses 8 byteswap64.
Proof.
  split_and!; [apply htons_reverses|apply htonl_reverses|apply bswap64_reverses].
Qed.

(** The header fields as the wire carries them: most significant byte first. *)
Definition be_bytes (n : nat) (v : Z) : bytes := reverse (le_bytes n v).

Lemma zlen_be_bytes n v : zlen (be_bytes n v) = Z.of_nat n.
Proof. unfold be_bytes, zlen. by rewrite length_reverse, length_le_bytes. Qed.
#[export] Hint Rewrite zlen_be_bytes : zlen.

(** Reading a big-endian field with a little-endian load and swapping it. *)
Lemma read_swapped n swap v mem :
  reverses n swap → 0 ≤ v < 256 ^ Z.of_nat n →
  ∃ w, read_le n (be_bytes n v ++ mem) = Ok w ∧ swap w = v.
Proof.
  intros Hs Hv. destruct (Hs v Hv) as (Hb & Hi & Hr).
  exists (swap v). split; [|done].
  unfold be_bytes. rewrite <- Hb. by apply read_le_bytes.
Qed.
