(* ===== verification/Protocol.v ===== *)
(** * The internal protocol (src/src/netcomms.h, src/src/netcomms.c)

    The message and field types, and the fixed header every message starts
    with.  The components send 16-bit type codes, so a received code is any
    16-bit number; the enumerations are injected in [Z] by [msgtype_code] and
    [field_code], declared as coercions. *)

From S2P Require Import Prelude ByteOrder.

(** [openli_proto_msgtype_t] *)
Inductive openli_proto_msgtype_t : Type :=
  | OPENLI_PROTO_SEND_ERROR
  | OPENLI_PROTO_INVALID_MESSAGE
  | OPENLI_PROTO_RECV_ERROR
  | OPENLI_PROTO_PEER_DISCONNECTED
  | OPENLI_PROTO_BUFFER_TOO_FULL
  | OPENLI_PROTO_WRONG_BUFFER_TYPE
  | OPENLI_PROTO_NULL_BUFFER
  | OPENLI_PROTO_DISCONNECT
  | OPENLI_PROTO_NO_MESSAGE
  | OPENLI_PROTO_START_IPINTERCEPT
  | OPENLI_PROTO_HALT_IPINTERCEPT
  | OPENLI_PROTO_START_VOIPINTERCEPT
  | OPENLI_PROTO_HALT_VOIPINTERCEPT
  | OPENLI_PROTO_ANNOUNCE_MEDIATOR
  | OPENLI_PROTO_WITHDRAW_MEDIATOR
  | OPENLI_PROTO_ANNOUNCE_LEA
  | OPENLI_PROTO_WITHDRAW_LEA
  | OPENLI_PROTO_MEDIATE_INTERCEPT
  | OPENLI_PROTO_CEASE_MEDIATION
  | OPENLI_PROTO_COLLECTOR_AUTH
  | OPENLI_PROTO_MEDIATOR_AUTH
  | OPENLI_PROTO_DISCONNECT_MEDIATORS
  | OPENLI_PROTO_NOMORE_INTERCEPTS
  | OPENLI_PROTO_ETSI_CC
  | OPENLI_PROTO_ETSI_IRI
  | OPENLI_PROTO_ANNOUNCE_CORESERVER
  | OPENLI_PROTO_WITHDRAW_CORESERVER
  | OPENLI_PROTO_ANNOUNCE_SIP_TARGET
  | OPENLI_PROTO_WITHDRAW_SIP_TARGET
  | OPENLI_PROTO_ADD_STATICIPS
  | OPENLI_PROTO_REMOVE_STATICIPS
  | OPENLI_PROTO_MODIFY_VOIPINTERCEPT
  | OPENLI_PROTO_CONFIG_RELOADED
  | OPENLI_PROTO_MODIFY_IPINTERCEPT
  | OPENLI_PROTO_MODIFY_STATICIPS
  | OPENLI_PROTO_RAWIP_SYNC
  | OPENLI_PROTO_ANNOUNCE_DEFAULT_RADIUS
  | OPENLI_PROTO_WITHDRAW_DEFAULT_RADIUS
  | OPENLI_PROTO_HEARTBEAT
  | OPENLI_PROTO_SSL_REQUIRED
  | OPENLI_PROTO_HI1_NOTIFICATION
  | OPENLI_PROTO_START_EMAILINTERCEPT
  | OPENLI_PROTO_HALT_EMAILINTERCEPT
  | OPENLI_PROTO_MODIFY_EMAILINTERCEPT
  | OPENLI_PROTO_ANNOUNCE_EMAIL_TARGET
  | OPENLI_PROTO_WITHDRAW_EMAIL_TARGET
  | OPENLI_PROTO_ANNOUNCE_DEFAULT_EMAIL_COMPRESSION.

Definition msgtype_code (t : openli_proto_msgtype_t) : Z :=
  match t with
  | OPENLI_PROTO_SEND_ERROR => -7
  | OPENLI_PROTO_INVALID_MESSAGE => -6
  | OPENLI_PROTO_RECV_ERROR => -5
  | OPENLI_PROTO_PEER_DISCONNECTED => -4
  | OPENLI_PROTO_BUFFER_TOO_FULL => -3
  | OPENLI_PROTO_WRONG_BUFFER_TYPE => -2
  | OPENLI_PROTO_NULL_BUFFER => -1
  | OPENLI_PROTO_DISCONNECT => 0
  | OPENLI_PROTO_NO_MESSAGE => 1
  | OPENLI_PROTO_START_IPINTERCEPT => 2
  | OPENLI_PROTO_HALT_IPINTERCEPT => 3
  | OPENLI_PROTO_START_VOIPINTERCEPT => 4
  | OPENLI_PROTO_HALT_VOIPINTERCEPT => 5
  | OPENLI_PROTO_ANNOUNCE_MEDIATOR => 6
  | OPENLI_PROTO_WITHDRAW_MEDIATOR => 7
  | OPENLI_PROTO_ANNOUNCE_LEA => 8
  | OPENLI_PROTO_WITHDRAW_LEA => 9
  | OPENLI_PROTO_MEDIATE_INTERCEPT => 10
  | OPENLI_PROTO_CEASE_MEDIATION => 11
  | OPENLI_PROTO_COLLECTOR_AUTH => 12
  | OPENLI_PROTO_MEDIATOR_AUTH => 13
  | OPENLI_PROTO_DISCONNECT_MEDIATORS => 14
  | OPENLI_PROTO_NOMORE_INTERCEPTS => 15
  | OPENLI_PROTO_ETSI_CC => 16
  | OPENLI_PROTO_ETSI_IRI => 17
  | OPENLI_PROTO_ANNOUNCE_CORESERVER => 18
  | OPENLI_PROTO_WITHDRAW_CORESERVER => 19
  | OPENLI_PROTO_ANNOUNCE_SIP_TARGET => 20
  | OPENLI_PROTO_WITHDRAW_SIP_TARGET => 21
  | OPENLI_PROTO_ADD_STATICIPS => 22
  | OPENLI_PROTO_REMOVE_STATICIPS => 23
  | OPENLI_PROTO_MODIFY_VOIPINTERCEPT => 24
  | OPENLI_PROTO_CONFIG_RELOADED => 25
  | OPENLI_PROTO_MODIFY_IPINTERCEPT => 26
  | OPENLI_PROTO_MODIFY_STATICIPS => 27
  | OPENLI_PROTO_RAWIP_SYNC => 28
  | OPENLI_PROTO_ANNOUNCE_DEFAULT_RADIUS => 29
  | OPENLI_PROTO_WITHDRAW_DEFAULT_RADIUS => 30
  | OPENLI_PROTO_HEARTBEAT => 31
  | OPENLI_PROTO_SSL_REQUIRED => 32
  | OPENLI_PROTO_HI1_NOTIFICATION => 33
  | OPENLI_PROTO_START_EMAILINTERCEPT => 34
  | OPENLI_PROTO_HALT_EMAILINTERCEPT => 35
  | OPENLI_PROTO_MODIFY_EMAILINTERCEPT => 36
  | OPENLI_PROTO_ANNOUNCE_EMAIL_TARGET => 37
  | OPENLI_PROTO_WITHDRAW_EMAIL_TARGET => 38
  | OPENLI_PROTO_ANNOUNCE_DEFAULT_EMAIL_COMPRESSION => 39
  end.
Coercion msgtype_code : openli_proto_msgtype_t >-> Z.

(** [openli_proto_fieldtype_t] *)
Inductive openli_proto_fieldtype_t : Type :=
  | OPENLI_PROTO_FIELD_MEDIATORID
  | OPENLI_PROTO_FIELD_MEDIATORIP
  | OPENLI_PROTO_FIELD_MEDIATORPORT
  | OPENLI_PROTO_FIELD_USERNAME
  | OPENLI_PROTO_FIELD_SIPURI
  | OPENLI_PROTO_FIELD_LIID
  | OPENLI_PROTO_FIELD_AUTHCC
  | OPENLI_PROTO_FIELD_DELIVCC
  | OPENLI_PROTO_FIELD_INTERCEPTID
  | OPENLI_PROTO_FIELD_LEAID
  | OPENLI_PROTO_FIELD_HI2IP
  | OPENLI_PROTO_FIELD_HI2PORT
  | OPENLI_PROTO_FIELD_HI3IP
  | OPENLI_PROTO_FIELD_HI3PORT
  | OPENLI_PROTO_FIELD_CORESERVER_TYPE
  | OPENLI_PROTO_FIELD_CORESERVER_IP
  | OPENLI_PROTO_FIELD_CORESERVER_PORT
  | OPENLI_PROTO_FIELD_VENDMIRRORID
  | OPENLI_PROTO_FIELD_KAFREQ
  | OPENLI_PROTO_FIELD_KAWAIT
  | OPENLI_PROTO_FIELD_ACCESSTYPE
  | OPENLI_PROTO_FIELD_SIP_USER
  | OPENLI_PROTO_FIELD_SIP_REALM
  | OPENLI_PROTO_FIELD_STATICIP_RANGE
  | OPENLI_PROTO_FIELD_CIN
  | OPENLI_PROTO_FIELD_INTOPTIONS
  | OPENLI_PROTO_FIELD_HI1_NOTIFY_TYPE
  | OPENLI_PROTO_FIELD_SEQNO
  | OPENLI_PROTO_FIELD_TS_SEC
  | OPENLI_PROTO_FIELD_TS_USEC
  | OPENLI_PROTO_FIELD_INTERCEPT_START_TIME
  | OPENLI_PROTO_FIELD_INTERCEPT_END_TIME
  | OPENLI_PROTO_FIELD_EMAIL_TARGET
  | OPENLI_PROTO_FIELD_TOMEDIATE
  | OPENLI_PROTO_FIELD_PAYLOAD_ENCRYPTION
  | OPENLI_PROTO_FIELD_ENCRYPTION_KEY
  | OPENLI_PROTO_FIELD_DELIVER_COMPRESSED.

Definition field_code (f : openli_proto_fieldtype_t) : Z :=
  match f with
  | OPENLI_PROTO_FIELD_MEDIATORID => 0
  | OPENLI_PROTO_FIELD_MEDIATORIP => 1
  | OPENLI_PROTO_FIELD_MEDIATORPORT => 2
  | OPENLI_PROTO_FIELD_USERNAME => 3
  | OPENLI_PROTO_FIELD_SIPURI => 4
  | OPENLI_PROTO_FIELD_LIID => 5
  | OPENLI_PROTO_FIELD_AUTHCC => 6
  | OPENLI_PROTO_FIELD_DELIVCC => 7
  | OPENLI_PROTO_FIELD_INTERCEPTID => 8
  | OPENLI_PROTO_FIELD_LEAID => 9
  | OPENLI_PROTO_FIELD_HI2IP => 10
  | OPENLI_PROTO_FIELD_HI2PORT => 11
  | OPENLI_PROTO_FIELD_HI3IP => 12
  | OPENLI_PROTO_FIELD_HI3PORT => 13
  | OPENLI_PROTO_FIELD_CORESERVER_TYPE => 14
  | OPENLI_PROTO_FIELD_CORESERVER_IP => 15
  | OPENLI_PROTO_FIELD_CORESERVER_PORT => 16
  | OPENLI_PROTO_FIELD_VENDMIRRORID => 17
  | OPENLI_PROTO_FIELD_KAFREQ => 18
  | OPENLI_PROTO_FIELD_KAWAIT => 19
  | OPENLI_PROTO_FIELD_ACCESSTYPE => 20
  | OPENLI_PROTO_FIELD_SIP_USER => 21
  | OPENLI_PROTO_FIELD_SIP_REALM => 22
  | OPENLI_PROTO_FIELD_STATICIP_RANGE => 23
  | OPENLI_PROTO_FIELD_CIN => 24
  | OPENLI_PROTO_FIELD_INTOPTIONS => 25
  | OPENLI_PROTO_FIELD_HI1_NOTIFY_TYPE => 26
  | OPENLI_PROTO_FIELD_SEQNO => 27
  | OPENLI_PROTO_FIELD_TS_SEC => 28
  | OPENLI_PROTO_FIELD_TS_USEC => 29
  | OPENLI_PROTO_FIELD_INTERCEPT_START_TIME => 30
  | OPENLI_PROTO_FIELD_INTERCEPT_END_TIME => 31
  | OPENLI_PROTO_FIELD_EMAIL_TARGET => 32
  | OPENLI_PROTO_FIELD_TOMEDIATE => 33
  | OPENLI_PROTO_FIELD_PAYLOAD_ENCRYPTION => 34
  | OPENLI_PROTO_FIELD_ENCRYPTION_KEY => 35
  | OPENLI_PROTO_FIELD_DELIVER_COMPRESSED => 36
  end.
Coercion field_code : openli_proto_fieldtype_t >-> Z.

#[global] Instance msgtype_eq_dec : EqDecision openli_proto_msgtype_t.
Proof. solve_decision. Defined.
#[global] Instance field_eq_dec : EqDecision openli_proto_fieldtype_t.
Proof. solve_decision. Defined.

Lemma field_code_range f : 0 ≤ field_code f < 65536.
Proof. destruct f; simpl; lia. Qed.

Definition OPENLI_PROTO_MAGIC : Z := 0x5c4c6c5c.
Definition OPENLI_COLLECTOR_MAGIC : Z := 0x00180014202042a8.
Definition OPENLI_MEDIATOR_MAGIC : Z := 0x01153200d6f12905.

(** ** The message header *)

(** [ii_header_t]: a packed structure whose members hold network-order
    values. *)
Record ii_header_t : Type := Mkii_header_t {
  hdr_magic : Z;
  hdr_bodylen : Z;
  hdr_intercepttype : Z;
  hdr_internalid : Z;
}.

Definition sizeof_ii_header_t : Z := 16.

(** The object as the little-endian host stores it. *)
Definition header_memory (h : ii_header_t) : bytes :=
  le_bytes 4 h.(hdr_magic) ++ le_bytes 2 h.(hdr_bodylen)
    ++ le_bytes 2 h.(hdr_intercepttype) ++ le_bytes 8 h.(hdr_internalid).

(** [populate_header]; [len] is a [uint16_t] parameter and [intid] a
    [uint64_t] one. *)
Definition populate_header (msgtype : Z) (len : Z) (intid : Z) : ii_header_t :=
  {| hdr_magic := htonl OPENLI_PROTO_MAGIC;
     hdr_bodylen := htons (u16 len);
     hdr_intercepttype := htons (u16 msgtype);
     hdr_internalid := bswap_host_to_be64 (u64 intid) |}.

(** [construct_netcomm_protocol_header]: the return code and the header it
    wrote, if it wrote one. *)
Definition construct_netcomm_protocol_header (contentlen msgtype internalid : Z)
    : Z * option (ii_header_t * Z) :=
  if 65535 <? contentlen then (-1, None)
  else (0, Some (populate_header msgtype (u16 contentlen) internalid, sizeof_ii_header_t)).

(** ** The wire format of a header *)

Definition wire_header (msgtype len intid : Z) : bytes :=
  be_bytes 4 OPENLI_PROTO_MAGIC ++ be_bytes 2 len ++ be_bytes 2 msgtype ++ be_bytes 8 intid.

Lemma zlen_wire_header t l i : zlen (wire_header t l i) = 16.
Proof. unfold wire_header. zlia. Qed.
#[export] Hint Rewrite zlen_wire_header : zlen.

Lemma header_memory_wire t l i :
  0 ≤ t < 65536 → 0 ≤ l < 65536 → 0 ≤ i < 2 ^ 64 →
  header_memory (populate_header t l i) = wire_header t l i.
Proof.
  intros Ht Hl Hi. unfold header_memory, wire_header, be_bytes, populate_header.
  cbn [hdr_magic hdr_bodylen hdr_intercepttype hdr_internalid].
  rewrite !u16_id, u64_id by done.
  rewrite (proj1 (htonl_reverses OPENLI_PROTO_MAGIC ltac:(done))).
  rewrite (proj1 (htons_reverses l Hl)), (proj1 (htons_reverses t Ht)).
  by rewrite (proj1 (bswap64_reverses i Hi)).
Qed.
