(* ===== verification/Intercept.v ===== *)
(** * Intercepts and the other objects the components exchange

    The structures of src/src/intercept.h, src/src/agency.h,
    src/src/coreserver.h and the mediator description of src/src/netcomms.h,
    with the key construction of src/src/coreserver.c.

    Integers are [Z] values of their C width; a [char *] is a [cstring]
    ([None] is NULL).  A uthash table is the list of its entries in
    iteration order.  The hash handles themselves, the [local] pointer of
    [intercept_common_t] and the per-call tables of [voipintercept_t], which
    the decoders only reset to NULL, are not represented. *)

From S2P Require Import Prelude.

Record intercept_common_t : Type := Mkintercept_common_t {
  ic_liid : cstring;
  ic_authcc : cstring;
  ic_delivcc : cstring;
  ic_liid_len : Z;
  ic_authcc_len : Z;
  ic_delivcc_len : Z;
  ic_destid : Z;
  ic_targetagency : cstring;
  ic_seqtrackerid : Z;
  ic_hi1_seqno : Z;
  ic_tostart_time : Z;
  ic_toend_time : Z;
  ic_tomediate : Z;
  ic_encrypt : Z;
  ic_encryptkey : cstring;
}.

Record static_ipranges_t : Type := Mkstatic_ipranges_t {
  sr_rangestr : cstring;
  sr_liid : cstring;
  sr_cin : Z;
  sr_awaitingconfirm : Z;
}.

Record hi1_notify_data_t : Type := Mkhi1_notify_data_t {
  nd_notify_type : Z;
  nd_liid : cstring;
  nd_authcc : cstring;
  nd_delivcc : cstring;
  nd_agencyid : cstring;
  nd_seqno : Z;
  nd_ts_sec : Z;
  nd_ts_usec : Z;
  nd_target_info : cstring;
}.

Record ipintercept_t : Type := Mkipintercept_t {
  ip_common : intercept_common_t;
  ip_username : cstring;
  ip_username_len : Z;
  ip_accesstype : Z;
  ip_vendmirrorid : Z;
  ip_statics : list static_ipranges_t;
  ip_awaitingconfirm : Z;
  ip_options : Z;
}.

Record email_target_t : Type := Mkemail_target_t {
  et_address : cstring;
  et_awaitingconfirm : Z;
}.

Record emailintercept_t : Type := Mkemailintercept_t {
  em_common : intercept_common_t;
  em_targets : list email_target_t;
  em_awaitingconfirm : Z;
  em_delivercompressed : Z;
}.

Record openli_sip_identity_t : Type := Mkopenli_sip_identity_t {
  si_username : cstring;
  si_username_len : Z;
  si_realm : cstring;
  si_realm_len : Z;
  si_awaitingconfirm : Z;
  si_active : Z;
}.

Record voipintercept_t : Type := Mkvoipintercept_t {
  vi_internalid : Z;
  vi_common : intercept_common_t;
  vi_targets : list openli_sip_identity_t;
  vi_options : Z;
  vi_awaitingconfirm : Z;
  vi_active : Z;
}.

Record default_radius_user_t : Type := Mkdefault_radius_user_t {
  dr_name : cstring;
  dr_namelen : Z;
  dr_awaitingconfirm : Z;
}.

Record liagency_t : Type := Mkliagency_t {
  lea_hi2_ipstr : cstring;
  lea_hi2_portstr : cstring;
  lea_hi3_ipstr : cstring;
  lea_hi3_portstr : cstring;
  lea_agencyid : cstring;
  lea_keepalivefreq : Z;
  lea_keepalivewait : Z;
}.

Record openli_mediator_t : Type := Mkopenli_mediator_t {
  med_mediatorid : Z;
  med_ipstr : cstring;
  med_portstr : cstring;
}.

Record coreserver_t : Type := Mkcoreserver_t {
  cs_serverkey : cstring;
  cs_servertype : Z;
  cs_ipstr : cstring;
  cs_portstr : cstring;
  cs_info : option unit;
  cs_portswapped : Z;
  cs_awaitingconfirm : Z;
}.

(** ** Field assignment *)

Definition set_ic_liid (v : cstring) (x : intercept_common_t) : intercept_common_t :=
    Mkintercept_common_t v (x.(ic_authcc)) (x.(ic_delivcc)) (x.(ic_liid_len))
    (x.(ic_authcc_len)) (x.(ic_delivcc_len)) (x.(ic_destid)) (x.(ic_targetagency))
    (x.(ic_seqtrackerid)) (x.(ic_hi1_seqno)) (x.(ic_tostart_time)) (x.(ic_toend_time))
    (x.(ic_tomediate)) (x.(ic_encrypt)) (x.(ic_encryptkey)).
Definition set_ic_authcc (v : cstring) (x : intercept_common_t) : intercept_common_t :=
    Mkintercept_common_t (x.(ic_liid)) v (x.(ic_delivcc)) (x.(ic_liid_len))
    (x.(ic_authcc_len)) (x.(ic_delivcc_len)) (x.(ic_destid)) (x.(ic_targetagency))
    (x.(ic_seqtrackerid)) (x.(ic_hi1_seqno)) (x.(ic_tostart_time)) (x.(ic_toend_time))
    (x.(ic_tomediate)) (x.(ic_encrypt)) (x.(ic_encryptkey)).
Definition set_ic_delivcc (v : cstring) (x : intercept_common_t) : intercept_common_t :=
    Mkintercept_common_t (x.(ic_liid)) (x.(ic_authcc)) v (x.(ic_liid_len)) (x.(ic_authcc_len))
    (x.(ic_delivcc_len)) (x.(ic_destid)) (x.(ic_targetagency)) (x.(ic_seqtrackerid))
    (x.(ic_hi1_seqno)) (x.(ic_tostart_time)) (x.(ic_toend_time)) (x.(ic_tomediate))
    (x.(ic_encrypt)) (x.(ic_encryptkey)).
Definition set_ic_liid_len (v : Z) (x : intercept_common_t) : intercept_common_t :=
    Mkintercept_common_t (x.(ic_liid)) (x.(ic_authcc)) (x.(ic_delivcc)) v (x.(ic_authcc_len))
    (x.(ic_delivcc_len)) (x.(ic_destid)) (x.(ic_targetagency)) (x.(ic_seqtrackerid))
    (x.(ic_hi1_seqno)) (x.(ic_tostart_time)) (x.(ic_toend_time)) (x.(ic_tomediate))
    (x.(ic_encrypt)) (x.(ic_encryptkey)).
Definition set_ic_authcc_len (v : Z) (x : intercept_common_t) : intercept_common_t :=
    Mkintercept_common_t (x.(ic_liid)) (x.(ic_authcc)) (x.(ic_delivcc)) (x.(ic_liid_len)) v
    (x.(ic_delivcc_len)) (x.(ic_destid)) (x.(ic_targetagency)) (x.(ic_seqtrackerid))
    (x.(ic_hi1_seqno)) (x.(ic_tostart_time)) (x.(ic_toend_time)) (x.(ic_tomediate))
    (x.(ic_encrypt)) (x.(ic_encryptkey)).
Definition set_ic_delivcc_len (v : Z) (x : intercept_common_t) : intercept_common_t :=
    Mkintercept_common_t (x.(ic_liid)) (x.(ic_authcc)) (x.(ic_delivcc)) (x.(ic_liid_len))
    (x.(ic_authcc_len)) v (x.(ic_destid)) (x.(ic_targetagency)) (x.(ic_seqtrackerid))
    (x.(ic_hi1_seqno)) (x.(ic_tostart_time)) (x.(ic_toend_time)) (x.(ic_tomediate))
    (x.(ic_encrypt)) (x.(ic_encryptkey)).
Definition set_ic_destid (v : Z) (x : intercept_common_t) : intercept_common_t :=
    Mkintercept_common_t (x.(ic_liid)) (x.(ic_authcc)) (x.(ic_delivcc)) (x.(ic_liid_len))
    (x.(ic_authcc_len)) (x.(ic_delivcc_len)) v (x.(ic_targetagency)) (x.(ic_seqtrackerid))
    (x.(ic_hi1_seqno)) (x.(ic_tostart_time)) (x.(ic_toend_time)) (x.(ic_tomediate))
    (x.(ic_encrypt)) (x.(ic_encryptkey)).
Definition set_ic_targetagency (v : cstring) (x : intercept_common_t) : intercept_common_t :=
    Mkintercept_common_t (x.(ic_liid)) (x.(ic_authcc)) (x.(ic_delivcc)) (x.(ic_liid_len))
    (x.(ic_authcc_len)) (x.(ic_delivcc_len)) (x.(ic_destid)) v (x.(ic_seqtrackerid))
    (x.(ic_hi1_seqno)) (x.(ic_tostart_time)) (x.(ic_toend_time)) (x.(ic_tomediate))
    (x.(ic_encrypt)) (x.(ic_encryptkey)).
Definition set_ic_seqtrackerid (v : Z) (x : intercept_common_t) : intercept_common_t :=
    Mkintercept_common_t (x.(ic_liid)) (x.(ic_authcc)) (x.(ic_delivcc)) (x.(ic_liid_len))
    (x.(ic_authcc_len)) (x.(ic_delivcc_len)) (x.(ic_destid)) (x.(ic_targetagency)) v
    (x.(ic_hi1_seqno)) (x.(ic_tostart_time)) (x.(ic_toend_time)) (x.(ic_tomediate))
    (x.(ic_encrypt)) (x.(ic_encryptkey)).
Definition set_ic_hi1_seqno (v : Z) (x : intercept_common_t) : intercept_common_t :=
    Mkintercept_common_t (x.(ic_liid)) (x.(ic_authcc)) (x.(ic_delivcc)) (x.(ic_liid_len))
    (x.(ic_authcc_len)) (x.(ic_delivcc_len)) (x.(ic_destid)) (x.(ic_targetagency))
    (x.(ic_seqtrackerid)) v (x.(ic_tostart_time)) (x.(ic_toend_time)) (x.(ic_tomediate))
    (x.(ic_encrypt)) (x.(ic_encryptkey)).
Definition set_ic_tostart_time (v : Z) (x : intercept_common_t) : intercept_common_t :=
    Mkintercept_common_t (x.(ic_liid)) (x.(ic_authcc)) (x.(ic_delivcc)) (x.(ic_liid_len))
    (x.(ic_authcc_len)) (x.(ic_delivcc_len)) (x.(ic_destid)) (x.(ic_targetagency))
    (x.(ic_seqtrackerid)) (x.(ic_hi1_seqno)) v (x.(ic_toend_time)) (x.(ic_tomediate))
    (x.(ic_encrypt)) (x.(ic_encryptkey)).
Definition set_ic_toend_time (v : Z) (x : intercept_common_t) : intercept_common_t :=
    Mkintercept_common_t (x.(ic_liid)) (x.(ic_authcc)) (x.(ic_delivcc)) (x.(ic_liid_len))
    (x.(ic_authcc_len)) (x.(ic_delivcc_len)) (x.(ic_destid)) (x.(ic_targetagency))
    (x.(ic_seqtrackerid)) (x.(ic_hi1_seqno)) (x.(ic_tostart_time)) v (x.(ic_tomediate))
    (x.(ic_encrypt)) (x.(ic_encryptkey)).
Definition set_ic_tomediate (v : Z) (x : intercept_common_t) : intercept_common_t :=
    Mkintercept_common_t (x.(ic_liid)) (x.(ic_authcc)) (x.(ic_delivcc)) (x.(ic_liid_len))
    (x.(ic_authcc_len)) (x.(ic_delivcc_len)) (x.(ic_destid)) (x.(ic_targetagency))
    (x.(ic_seqtrackerid)) (x.(ic_hi1_seqno)) (x.(ic_tostart_time)) (x.(ic_toend_time)) v
    (x.(ic_encrypt)) (x.(ic_encryptkey)).
Definition set_ic_encrypt (v : Z) (x : intercept_common_t) : intercept_common_t :=
    Mkintercept_common_t (x.(ic_liid)) (x.(ic_authcc)) (x.(ic_delivcc)) (x.(ic_liid_len))
    (x.(ic_authcc_len)) (x.(ic_delivcc_len)) (x.(ic_destid)) (x.(ic_targetagency))
    (x.(ic_seqtrackerid)) (x.(ic_hi1_seqno)) (x.(ic_tostart_time)) (x.(ic_toend_time))
    (x.(ic_tomediate)) v (x.(ic_encryptkey)).
Definition set_ic_encryptkey (v : cstring) (x : intercept_common_t) : intercept_common_t :=
    Mkintercept_common_t (x.(ic_liid)) (x.(ic_authcc)) (x.(ic_delivcc)) (x.(ic_liid_len))
    (x.(ic_authcc_len)) (x.(ic_delivcc_len)) (x.(ic_destid)) (x.(ic_targetagency))
    (x.(ic_seqtrackerid)) (x.(ic_hi1_seqno)) (x.(ic_tostart_time)) (x.(ic_toend_time))
    (x.(ic_tomediate)) (x.(ic_encrypt)) v.

Definition set_sr_rangestr (v : cstring) (x : static_ipranges_t) : static_ipranges_t :=
  Mkstatic_ipranges_t v (x.(sr_liid)) (x.(sr_cin)) (x.(sr_awaitingconfirm)).
Definition set_sr_liid (v : cstring) (x : static_ipranges_t) : static_ipranges_t :=
  Mkstatic_ipranges_t (x.(sr_rangestr)) v (x.(sr_cin)) (x.(sr_awaitingconfirm)).
Definition set_sr_cin (v : Z) (x : static_ipranges_t) : static_ipranges_t :=
  Mkstatic_ipranges_t (x.(sr_rangestr)) (x.(sr_liid)) v (x.(sr_awaitingconfirm)).
Definition set_sr_awaitingconfirm (v : Z) (x : static_ipranges_t) : static_ipranges_t :=
  Mkstatic_ipranges_t (x.(sr_rangestr)) (x.(sr_liid)) (x.(sr_cin)) v.

Definition set_nd_notify_type (v : Z) (x : hi1_notify_data_t) : hi1_notify_data_t :=
    Mkhi1_notify_data_t v (x.(nd_liid)) (x.(nd_authcc)) (x.(nd_delivcc)) (x.(nd_agencyid))
    (x.(nd_seqno)) (x.(nd_ts_sec)) (x.(nd_ts_usec)) (x.(nd_target_info)).
Definition set_nd_liid (v : cstring) (x : hi1_notify_data_t) : hi1_notify_data_t :=
    Mkhi1_notify_data_t (x.(nd_notify_type)) v (x.(nd_authcc)) (x.(nd_delivcc))
    (x.(nd_agencyid)) (x.(nd_seqno)) (x.(nd_ts_sec)) (x.(nd_ts_usec)) (x.(nd_target_info)).
Definition set_nd_authcc (v : cstring) (x : hi1_notify_data_t) : hi1_notify_data_t :=
    Mkhi1_notify_data_t (x.(nd_notify_type)) (x.(nd_liid)) v (x.(nd_delivcc))
    (x.(nd_agencyid)) (x.(nd_seqno)) (x.(nd_ts_sec)) (x.(nd_ts_usec)) (x.(nd_target_info)).
Definition set_nd_delivcc (v : cstring) (x : hi1_notify_data_t) : hi1_notify_data_t :=
    Mkhi1_notify_data_t (x.(nd_notify_type)) (x.(nd_liid)) (x.(nd_authcc)) v (x.(nd_agencyid))
    (x.(nd_seqno)) (x.(nd_ts_sec)) (x.(nd_ts_usec)) (x.(nd_target_info)).
Definition set_nd_agencyid (v : cstring) (x : hi1_notify_data_t) : hi1_notify_data_t :=
    Mkhi1_notify_data_t (x.(nd_notify_type)) (x.(nd_liid)) (x.(nd_authcc)) (x.(nd_delivcc)) v
    (x.(nd_seqno)) (x.(nd_ts_sec)) (x.(nd_ts_usec)) (x.(nd_target_info)).
Definition set_nd_seqno (v : Z) (x : hi1_notify_data_t) : hi1_notify_data_t :=
    Mkhi1_notify_data_t (x.(nd_notify_type)) (x.(nd_liid)) (x.(nd_authcc)) (x.(nd_delivcc))
    (x.(nd_agencyid)) v (x.(nd_ts_sec)) (x.(nd_ts_usec)) (x.(nd_target_info)).
Definition set_nd_ts_sec (v : Z) (x : hi1_notify_data_t) : hi1_notify_data_t :=
    Mkhi1_notify_data_t (x.(nd_notify_type)) (x.(nd_liid)) (x.(nd_authcc)) (x.(nd_delivcc))
    (x.(nd_agencyid)) (x.(nd_seqno)) v (x.(nd_ts_usec)) (x.(nd_target_info)).
Definition set_nd_ts_usec (v : Z) (x : hi1_notify_data_t) : hi1_notify_data_t :=
    Mkhi1_notify_data_t (x.(nd_notify_type)) (x.(nd_liid)) (x.(nd_authcc)) (x.(nd_delivcc))
    (x.(nd_agencyid)) (x.(nd_seqno)) (x.(nd_ts_sec)) v (x.(nd_target_info)).
Definition set_nd_target_info (v : cstring) (x : hi1_notify_data_t) : hi1_notify_data_t :=
    Mkhi1_notify_data_t (x.(nd_notify_type)) (x.(nd_liid)) (x.(nd_authcc)) (x.(nd_delivcc))
    (x.(nd_agencyid)) (x.(nd_seqno)) (x.(nd_ts_sec)) (x.(nd_ts_usec)) v.

Definition set_ip_common (v : intercept_common_t) (x : ipintercept_t) : ipintercept_t :=
    Mkipintercept_t v (x.(ip_username)) (x.(ip_username_len)) (x.(ip_accesstype))
    (x.(ip_vendmirrorid)) (x.(ip_statics)) (x.(ip_awaitingconfirm)) (x.(ip_options)).
Definition set_ip_username (v : cstring) (x : ipintercept_t) : ipintercept_t :=
    Mkipintercept_t (x.(ip_common)) v (x.(ip_username_len)) (x.(ip_accesstype))
    (x.(ip_vendmirrorid)) (x.(ip_statics)) (x.(ip_awaitingconfirm)) (x.(ip_options)).
Definition set_ip_username_len (v : Z) (x : ipintercept_t) : ipintercept_t :=
    Mkipintercept_t (x.(ip_common)) (x.(ip_username)) v (x.(ip_accesstype))
    (x.(ip_vendmirrorid)) (x.(ip_statics)) (x.(ip_awaitingconfirm)) (x.(ip_options)).
Definition set_ip_accesstype (v : Z) (x : ipintercept_t) : ipintercept_t :=
    Mkipintercept_t (x.(ip_common)) (x.(ip_username)) (x.(ip_username_len)) v
    (x.(ip_vendmirrorid)) (x.(ip_statics)) (x.(ip_awaitingconfirm)) (x.(ip_options)).
Definition set_ip_vendmirrorid (v : Z) (x : ipintercept_t) : ipintercept_t :=
    Mkipintercept_t (x.(ip_common)) (x.(ip_username)) (x.(ip_username_len))
    (x.(ip_accesstype)) v (x.(ip_statics)) (x.(ip_awaitingconfirm)) (x.(ip_options)).
Definition set_ip_statics (v : list static_ipranges_t) (x : ipintercept_t) : ipintercept_t :=
    Mkipintercept_t (x.(ip_common)) (x.(ip_username)) (x.(ip_username_len))
    (x.(ip_accesstype)) (x.(ip_vendmirrorid)) v (x.(ip_awaitingconfirm)) (x.(ip_options)).
Definition set_ip_awaitingconfirm (v : Z) (x : ipintercept_t) : ipintercept_t :=
    Mkipintercept_t (x.(ip_common)) (x.(ip_username)) (x.(ip_username_len))
    (x.(ip_accesstype)) (x.(ip_vendmirrorid)) (x.(ip_statics)) v (x.(ip_options)).
Definition set_ip_options (v : Z) (x : ipintercept_t) : ipintercept_t :=
    Mkipintercept_t (x.(ip_common)) (x.(ip_username)) (x.(ip_username_len))
    (x.(ip_accesstype)) (x.(ip_vendmirrorid)) (x.(ip_statics)) (x.(ip_awaitingconfirm)) v.

Definition set_et_address (v : cstring) (x : email_target_t) : email_target_t :=
  Mkemail_target_t v (x.(et_awaitingconfirm)).
Definition set_et_awaitingconfirm (v : Z) (x : email_target_t) : email_target_t :=
  Mkemail_target_t (x.(et_address)) v.

Definition set_em_common (v : intercept_common_t) (x : emailintercept_t) : emailintercept_t :=
  Mkemailintercept_t v (x.(em_targets)) (x.(em_awaitingconfirm)) (x.(em_delivercompressed)).
Definition set_em_targets (v : list email_target_t) (x : emailintercept_t) : emailintercept_t :=
  Mkemailintercept_t (x.(em_common)) v (x.(em_awaitingconfirm)) (x.(em_delivercompressed)).
Definition set_em_awaitingconfirm (v : Z) (x : emailintercept_t) : emailintercept_t :=
  Mkemailintercept_t (x.(em_common)) (x.(em_targets)) v (x.(em_delivercompressed)).
Definition set_em_delivercompressed (v : Z) (x : emailintercept_t) : emailintercept_t :=
  Mkemailintercept_t (x.(em_common)) (x.(em_targets)) (x.(em_awaitingconfirm)) v.

Definition set_si_username (v : cstring) (x : openli_sip_identity_t) : openli_sip_identity_t :=
    Mkopenli_sip_identity_t v (x.(si_username_len)) (x.(si_realm)) (x.(si_realm_len))
    (x.(si_awaitingconfirm)) (x.(si_active)).
Definition set_si_username_len (v : Z) (x : openli_sip_identity_t) : openli_sip_identity_t :=
    Mkopenli_sip_identity_t (x.(si_username)) v (x.(si_realm)) (x.(si_realm_len))
    (x.(si_awaitingconfirm)) (x.(si_active)).
Definition set_si_realm (v : cstring) (x : openli_sip_identity_t) : openli_sip_identity_t :=
    Mkopenli_sip_identity_t (x.(si_username)) (x.(si_username_len)) v (x.(si_realm_len))
    (x.(si_awaitingconfirm)) (x.(si_active)).
Definition set_si_realm_len (v : Z) (x : openli_sip_identity_t) : openli_sip_identity_t :=
    Mkopenli_sip_identity_t (x.(si_username)) (x.(si_username_len)) (x.(si_realm)) v
    (x.(si_awaitingconfirm)) (x.(si_active)).
Definition set_si_awaitingconfirm (v : Z) (x : openli_sip_identity_t) : openli_sip_identity_t :=
    Mkopenli_sip_identity_t (x.(si_username)) (x.(si_username_len)) (x.(si_realm))
    (x.(si_realm_len)) v (x.(si_active)).
Definition set_si_active (v : Z) (x : openli_sip_identity_t) : openli_sip_identity_t :=
    Mkopenli_sip_identity_t (x.(si_username)) (x.(si_username_len)) (x.(si_realm))
    (x.(si_realm_len)) (x.(si_awaitingconfirm)) v.

Definition set_vi_internalid (v : Z) (x : voipintercept_t) : voipintercept_t :=
    Mkvoipintercept_t v (x.(vi_common)) (x.(vi_targets)) (x.(vi_options))
    (x.(vi_awaitingconfirm)) (x.(vi_active)).
Definition set_vi_common (v : intercept_common_t) (x : voipintercept_t) : voipintercept_t :=
    Mkvoipintercept_t (x.(vi_internalid)) v (x.(vi_targets)) (x.(vi_options))
    (x.(vi_awaitingconfirm)) (x.(vi_active)).
Definition set_vi_targets (v : list openli_sip_identity_t) (x : voipintercept_t) : voipintercept_t :=
    Mkvoipintercept_t (x.(vi_internalid)) (x.(vi_common)) v (x.(vi_options))
    (x.(vi_awaitingconfirm)) (x.(vi_active)).
Definition set_vi_options (v : Z) (x : voipintercept_t) : voipintercept_t :=
    Mkvoipintercept_t (x.(vi_internalid)) (x.(vi_common)) (x.(vi_targets)) v
    (x.(vi_awaitingconfirm)) (x.(vi_active)).
Definition set_vi_awaitingconfirm (v : Z) (x : voipintercept_t) : voipintercept_t :=
    Mkvoipintercept_t (x.(vi_internalid)) (x.(vi_common)) (x.(vi_targets)) (x.(vi_options)) v
    (x.(vi_active)).
Definition set_vi_active (v : Z) (x : voipintercept_t) : voipintercept_t :=
    Mkvoipintercept_t (x.(vi_internalid)) (x.(vi_common)) (x.(vi_targets)) (x.(vi_options))
    (x.(vi_awaitingconfirm)) v.

Definition set_dr_name (v : cstring) (x : default_radius_user_t) : default_radius_user_t :=
  Mkdefault_radius_user_t v (x.(dr_namelen)) (x.(dr_awaitingconfirm)).
Definition set_dr_namelen (v : Z) (x : default_radius_user_t) : default_radius_user_t :=
  Mkdefault_radius_user_t (x.(dr_name)) v (x.(dr_awaitingconfirm)).
Definition set_dr_awaitingconfirm (v : Z) (x : default_radius_user_t) : default_radius_user_t :=
  Mkdefault_radius_user_t (x.(dr_name)) (x.(dr_namelen)) v.

Definition set_lea_hi2_ipstr (v : cstring) (x : liagency_t) : liagency_t :=
    Mkliagency_t v (x.(lea_hi2_portstr)) (x.(lea_hi3_ipstr)) (x.(lea_hi3_portstr))
    (x.(lea_agencyid)) (x.(lea_keepalivefreq)) (x.(lea_keepalivewait)).
Definition set_lea_hi2_portstr (v : cstring) (x : liagency_t) : liagency_t :=
    Mkliagency_t (x.(lea_hi2_ipstr)) v (x.(lea_hi3_ipstr)) (x.(lea_hi3_portstr))
    (x.(lea_agencyid)) (x.(lea_keepalivefreq)) (x.(lea_keepalivewait)).
Definition set_lea_hi3_ipstr (v : cstring) (x : liagency_t) : liagency_t :=
    Mkliagency_t (x.(lea_hi2_ipstr)) (x.(lea_hi2_portstr)) v (x.(lea_hi3_portstr))
    (x.(lea_agencyid)) (x.(lea_keepalivefreq)) (x.(lea_keepalivewait)).
Definition set_lea_hi3_portstr (v : cstring) (x : liagency_t) : liagency_t :=
    Mkliagency_t (x.(lea_hi2_ipstr)) (x.(lea_hi2_portstr)) (x.(lea_hi3_ipstr)) v
    (x.(lea_agencyid)) (x.(lea_keepalivefreq)) (x.(lea_keepalivewait)).
Definition set_lea_agencyid (v : cstring) (x : liagency_t) : liagency_t :=
    Mkliagency_t (x.(lea_hi2_ipstr)) (x.(lea_hi2_portstr)) (x.(lea_hi3_ipstr))
    (x.(lea_hi3_portstr)) v (x.(lea_keepalivefreq)) (x.(lea_keepalivewait)).
Definition set_lea_keepalivefreq (v : Z) (x : liagency_t) : liagency_t :=
    Mkliagency_t (x.(lea_hi2_ipstr)) (x.(lea_hi2_portstr)) (x.(lea_hi3_ipstr))
    (x.(lea_hi3_portstr)) (x.(lea_agencyid)) v (x.(lea_keepalivewait)).
Definition set_lea_keepalivewait (v : Z) (x : liagency_t) : liagency_t :=
    Mkliagency_t (x.(lea_hi2_ipstr)) (x.(lea_hi2_portstr)) (x.(lea_hi3_ipstr))
    (x.(lea_hi3_portstr)) (x.(lea_agencyid)) (x.(lea_keepalivefreq)) v.

Definition set_med_mediatorid (v : Z) (x : openli_mediator_t) : openli_mediator_t :=
  Mkopenli_mediator_t v (x.(med_ipstr)) (x.(med_portstr)).
Definition set_med_ipstr (v : cstring) (x : openli_mediator_t) : openli_mediator_t :=
  Mkopenli_mediator_t (x.(med_mediatorid)) v (x.(med_portstr)).
Definition set_med_portstr (v : cstring) (x : openli_mediator_t) : openli_mediator_t :=
  Mkopenli_mediator_t (x.(med_mediatorid)) (x.(med_ipstr)) v.

Definition set_cs_serverkey (v : cstring) (x : coreserver_t) : coreserver_t :=
    Mkcoreserver_t v (x.(cs_servertype)) (x.(cs_ipstr)) (x.(cs_portstr)) (x.(cs_info))
    (x.(cs_portswapped)) (x.(cs_awaitingconfirm)).
Definition set_cs_servertype (v : Z) (x : coreserver_t) : coreserver_t :=
    Mkcoreserver_t (x.(cs_serverkey)) v (x.(cs_ipstr)) (x.(cs_portstr)) (x.(cs_info))
    (x.(cs_portswapped)) (x.(cs_awaitingconfirm)).
Definition set_cs_ipstr (v : cstring) (x : coreserver_t) : coreserver_t :=
    Mkcoreserver_t (x.(cs_serverkey)) (x.(cs_servertype)) v (x.(cs_portstr)) (x.(cs_info))
    (x.(cs_portswapped)) (x.(cs_awaitingconfirm)).
Definition set_cs_portstr (v : cstring) (x : coreserver_t) : coreserver_t :=
    Mkcoreserver_t (x.(cs_serverkey)) (x.(cs_servertype)) (x.(cs_ipstr)) v (x.(cs_info))
    (x.(cs_portswapped)) (x.(cs_awaitingconfirm)).
Definition set_cs_info (v : option unit) (x : coreserver_t) : coreserver_t :=
    Mkcoreserver_t (x.(cs_serverkey)) (x.(cs_servertype)) (x.(cs_ipstr)) (x.(cs_portstr)) v
    (x.(cs_portswapped)) (x.(cs_awaitingconfirm)).
Definition set_cs_portswapped (v : Z) (x : coreserver_t) : coreserver_t :=
    Mkcoreserver_t (x.(cs_serverkey)) (x.(cs_servertype)) (x.(cs_ipstr)) (x.(cs_portstr))
    (x.(cs_info)) v (x.(cs_awaitingconfirm)).
Definition set_cs_awaitingconfirm (v : Z) (x : coreserver_t) : coreserver_t :=
    Mkcoreserver_t (x.(cs_serverkey)) (x.(cs_servertype)) (x.(cs_ipstr)) (x.(cs_portstr))
    (x.(cs_info)) (x.(cs_portswapped)) v.

(** ** Constants *)

Definition OPENLI_VENDOR_MIRROR_NONE : Z := 0xffffffff.
Definition INTERNET_ACCESS_TYPE_UNDEFINED : Z := 0.
Definition OPENLI_EMAILINT_DELIVER_COMPRESSED_DEFAULT : Z := 255.

(** The server types of coreserver.h. *)
Inductive core_server_type : Type :=
  | OPENLI_CORE_SERVER_UNKNOWN
  | OPENLI_CORE_SERVER_RADIUS
  | OPENLI_CORE_SERVER_DHCP
  | OPENLI_CORE_SERVER_SIP
  | OPENLI_CORE_SERVER_ALUMIRROR
  | OPENLI_CORE_SERVER_GTP
  | OPENLI_CORE_SERVER_SMTP
  | OPENLI_CORE_SERVER_IMAP
  | OPENLI_CORE_SERVER_POP3.

Definition core_server_code (t : core_server_type) : Z :=
  match t with
  | OPENLI_CORE_SERVER_UNKNOWN => 0
  | OPENLI_CORE_SERVER_RADIUS => 1
  | OPENLI_CORE_SERVER_DHCP => 2
  | OPENLI_CORE_SERVER_SIP => 3
  | OPENLI_CORE_SERVER_ALUMIRROR => 4
  | OPENLI_CORE_SERVER_GTP => 5
  | OPENLI_CORE_SERVER_SMTP => 6
  | OPENLI_CORE_SERVER_IMAP => 7
  | OPENLI_CORE_SERVER_POP3 => 8
  end.
Coercion core_server_code : core_server_type >-> Z.

(** [coreserver_type_to_string] *)
Definition coreserver_type_to_string (cstype : Z) : bytes :=
  if cstype =? OPENLI_CORE_SERVER_RADIUS then of_string "RADIUS"
  else if cstype =? OPENLI_CORE_SERVER_DHCP then of_string "DHCP"
  else if cstype =? OPENLI_CORE_SERVER_SIP then of_string "SIP"
  else if cstype =? OPENLI_CORE_SERVER_SMTP then of_string "SMTP"
  else if cstype =? OPENLI_CORE_SERVER_IMAP then of_string "IMAP"
  else if cstype =? OPENLI_CORE_SERVER_POP3 then of_string "POP3"
  else if cstype =? OPENLI_CORE_SERVER_GTP then of_string "GTP"
  else if cstype =? OPENLI_CORE_SERVER_ALUMIRROR then of_string "ALU-Mirror"
  else of_string "Unknown".

(** [snprintf(buf, size, ...)] keeps at most [size - 1] characters. *)
Definition snprintf (size : Z) (text : bytes) : bytes := ztake (size - 1) text.

(** [construct_coreserver_key]: the object with its [serverkey] set when it
    has an address. *)
Definition construct_coreserver_key (cs : coreserver_t) : coreserver_t :=
  match cs.(cs_ipstr) with
  | None => cs
  | Some ip =>
      let key :=
        match cs.(cs_portstr) with
        | None => until_nul ip ++ of_string "-default-"
                    ++ coreserver_type_to_string cs.(cs_servertype)
        | Some port => until_nul ip ++ of_string "-" ++ until_nul port ++ of_string "-"
                    ++ coreserver_type_to_string cs.(cs_servertype)
        end in
      set_cs_serverkey (Some (snprintf 256 key)) cs
  end.
