(* ===== verification/NetBuffer.v ===== *)
(** * Network buffers (src/src/netcomms.c, first part and receive side)

    A [net_buffer_t] is a growable block with a read position ([actptr]) and
    a write position ([appendptr]).  [nb_data] holds the bytes from the start
    of the block to [appendptr] and [nb_act] the offset of [actptr]; the
    pending content is what lies between the two.  [realloc] and the socket
    calls are arguments: [realloc_ok n] says whether a request for [n] bytes
    is granted, and a [recv_result] or [send_result] is the answer of the
    kernel (or of OpenSSL) to one call. *)

From S2P Require Import Prelude ByteOrder Protocol.

Definition NETBUF_ALLOC_SIZE : Z := 10 * 1024 * 1024.

Inductive net_buffer_type_t : Type := NETBUF_RECV | NETBUF_SEND.

#[global] Instance net_buffer_type_eq_dec : EqDecision net_buffer_type_t.
Proof. solve_decision. Defined.

Record net_buffer_t : Type := Mknet_buffer_t {
  nb_fd : Z;
  nb_data : bytes;
  nb_act : Z;
  nb_alloced : Z;
  nb_buftype : net_buffer_type_t;
  nb_ssl : bool;
}.

Definition NETBUF_SPACE_REM (nb : net_buffer_t) : Z := nb.(nb_alloced) - zlen nb.(nb_data).
Definition NETBUF_FRONT_FREE (nb : net_buffer_t) : Z := nb.(nb_act).
Definition NETBUF_CONTENT_SIZE (nb : net_buffer_t) : Z := zlen nb.(nb_data) - nb.(nb_act).

(** The bytes from [actptr] to [appendptr]. *)
Definition nb_content (nb : net_buffer_t) : bytes := zdrop nb.(nb_act) nb.(nb_data).

Definition set_nb_alloced (a : Z) (nb : net_buffer_t) : net_buffer_t :=
  Mknet_buffer_t nb.(nb_fd) nb.(nb_data) nb.(nb_act) a nb.(nb_buftype) nb.(nb_ssl).
Definition set_nb_act (a : Z) (nb : net_buffer_t) : net_buffer_t :=
  Mknet_buffer_t nb.(nb_fd) nb.(nb_data) a nb.(nb_alloced) nb.(nb_buftype) nb.(nb_ssl).

(** [memcpy(nb->appendptr, bs, n); nb->appendptr += n] *)
Definition nb_append (bs : bytes) (nb : net_buffer_t) : net_buffer_t :=
  Mknet_buffer_t nb.(nb_fd) (nb.(nb_data) ++ bs) nb.(nb_act) nb.(nb_alloced)
    nb.(nb_buftype) nb.(nb_ssl).

(** [memmove(nb->buf, nb->actptr, contsize)] with both pointers reset. *)
Definition nb_compact (nb : net_buffer_t) : net_buffer_t :=
  Mknet_buffer_t nb.(nb_fd) (nb_content nb) 0 nb.(nb_alloced) nb.(nb_buftype) nb.(nb_ssl).

(** [create_net_buffer] *)
Definition create_net_buffer (buftype : net_buffer_type_t) (fd : Z) (ssl : bool)
    : net_buffer_t :=
  Mknet_buffer_t fd [] 0 NETBUF_ALLOC_SIZE buftype ssl.

(** ** Writing *)

Section allocator.
Context (realloc_ok : Z → bool).

(** [extend_net_buffer].  The comparison with [0.75 * nb->alloced] is exact in
    a double.  [nb->alloced + NETBUF_ALLOC_SIZE] is an [int] addition. *)
Definition extend_net_buffer (nb : net_buffer_t) (musthave : Z)
    : outcome (Z * net_buffer_t) :=
  let compacted := 3 * nb.(nb_alloced) <=? 4 * NETBUF_FRONT_FREE nb in
  let nb1 := if compacted then nb_compact nb else nb in
  if compacted && (musthave <=? NETBUF_SPACE_REM nb1) then Ok (0, nb1)
  else if INT_MAX <? nb1.(nb_alloced) + NETBUF_ALLOC_SIZE then Undef
  else if realloc_ok (nb1.(nb_alloced) + NETBUF_ALLOC_SIZE)
  then Ok (0, set_nb_alloced (nb1.(nb_alloced) + NETBUF_ALLOC_SIZE) nb1)
  else Ok (-1, nb1).

(** The loop [while (NETBUF_SPACE_REM(nb) < len) extend_net_buffer(nb, len)].
    [None] is running out of fuel. *)
Fixpoint make_room (fuel : nat) (nb : net_buffer_t) (len : Z)
    : outcome (option (Z * net_buffer_t)) :=
  if len <=? NETBUF_SPACE_REM nb then Ok (Some (0, nb))
  else match fuel with
  | O => Ok None
  | S fuel =>
      '(r, nb') ← extend_net_buffer nb len;
      if r =? -1 then Ok (Some (-1, nb')) else make_room fuel nb' len
  end.

(** [push_generic_onto_net_buffer].  One extension is always enough
    ([make_room_spec] below), so the fuel is never exhausted. *)
Definition push_generic_onto_net_buffer (nb : net_buffer_t) (data : bytes) (len : Z)
    : outcome (Z * net_buffer_t) :=
  if len =? 0 then Ok (0, nb)
  else
    room ← make_room 2 nb len;
    match room with
    | None => Undef
    | Some (r, nb') =>
        if r =? -1 then Ok (-1, nb')
        else bs ← read_bytes len data; Ok (len, nb_append bs nb')
    end.

(** A piece of code that writes to a buffer and returns an [int]. *)
Definition pusher : Type := net_buffer_t → outcome (Z * net_buffer_t).

(** [if (m == -1) return -1; k] *)
Definition push_then (m k : pusher) : pusher := λ nb,
  '(r, nb') ← m nb; if r =? -1 then Ok (-1, nb') else k nb'.

(** [return r] *)
Definition push_return (r : Z) : pusher := λ nb, Ok (r, nb).

Definition push_header (msgtype len intid : Z) : pusher := λ nb,
  push_generic_onto_net_buffer nb
    (header_memory (populate_header msgtype len intid)) sizeof_ii_header_t.

(** [push_tlv]; [vallen] is a [uint16_t] parameter. *)
Definition push_tlv (type : Z) (value : cstring) (vallen0 : Z) : pusher := λ nb,
  let vallen := u16 vallen0 in
  if 4096 - 4 <? vallen then Ok (-1, nb)
  else
    v ← str_read vallen value;
    push_generic_onto_net_buffer nb
      (le_bytes 2 (htons (u16 type)) ++ le_bytes 2 (htons vallen) ++ v) (vallen + 4).

End allocator.

Notation "m ;;? k" := (push_then m k) (at level 60, right associativity) : openli_scope.

(** ** Sending *)

Inductive send_result : Type :=
  | Sent (n : Z)          (* the number of bytes accepted *)
  | SendWouldBlock        (* -1 with EAGAIN or EWOULDBLOCK *)
  | SendError.            (* -1 with another errno *)

(** [transmit_net_buffer]: the return value, the error code written through
    [err], the buffer and the bytes that left it. *)
Definition transmit_net_buffer (onb : option net_buffer_t) (res : send_result)
    : Z * option openli_proto_msgtype_t * option net_buffer_t * bytes :=
  match onb with
  | None => (-1, Some OPENLI_PROTO_NULL_BUFFER, None, [])
  | Some nb =>
      if decide (nb.(nb_buftype) ≠ NETBUF_SEND)
      then (-1, Some OPENLI_PROTO_WRONG_BUFFER_TYPE, Some nb, [])
      else if NETBUF_CONTENT_SIZE nb =? 0 then (0, None, Some nb, [])
      else match res with
      | SendWouldBlock => (1, None, Some nb, [])
      | SendError => (-1, Some OPENLI_PROTO_SEND_ERROR, Some nb, [])
      | Sent ret =>
          let nb1 := set_nb_act (nb.(nb_act) + ret) nb in
          let nb2 := if NETBUF_ALLOC_SIZE <? NETBUF_FRONT_FREE nb1
                     then nb_compact nb1 else nb1 in
          (NETBUF_CONTENT_SIZE nb2, None, Some nb2, ztake ret (nb_content nb))
      end
  end.

(** ** Receiving *)

(** What a complete message gives the caller: the readable memory from
    [msgbody] to [appendptr], [msglen] and [intid]. *)
Record received_t : Type := Mkreceived_t {
  rm_mem : bytes;
  rm_len : Z;
  rm_intid : Z;
}.

(** [parse_received_message] *)
Definition parse_received_message (nb : net_buffer_t)
    : outcome (Z * option received_t * net_buffer_t) :=
  if NETBUF_CONTENT_SIZE nb <? sizeof_ii_header_t
  then Ok (msgtype_code OPENLI_PROTO_NO_MESSAGE, None, nb)
  else
    let hdr := nb_content nb in
    magic ← read_le 4 hdr;
    if negb (ntohl magic =? OPENLI_PROTO_MAGIC)
    then Ok (msgtype_code OPENLI_PROTO_INVALID_MESSAGE, None, nb)
    else
      bodylen ← read_le 2 (zdrop 4 hdr);
      if NETBUF_CONTENT_SIZE nb <? sizeof_ii_header_t + ntohs bodylen
      then Ok (msgtype_code OPENLI_PROTO_NO_MESSAGE, None, nb)
      else
        intercepttype ← read_le 2 (zdrop 6 hdr);
        internalid ← read_le 8 (zdrop 8 hdr);
        let msglen := ntohs bodylen in
        Ok (ntohs intercepttype,
            Some {| rm_mem := zdrop sizeof_ii_header_t hdr;
                    rm_len := msglen;
                    rm_intid := bswap_be_to_host64 internalid |},
            set_nb_act (nb.(nb_act) + (msglen + sizeof_ii_header_t)) nb).

Inductive recv_result : Type :=
  | Received (bs : bytes)   (* at least one byte *)
  | RecvClosed              (* 0 *)
  | RecvWouldBlock          (* -1 with EAGAIN or EWOULDBLOCK *)
  | RecvError.              (* -1 with another errno *)

(** [receive_net_buffer].  [res] is the answer of the socket if the code asks
    it; the last component tells whether it did.  A kernel that returned more
    bytes than were asked for would have written outside the block. *)
Definition receive_net_buffer (realloc_ok : Z → bool) (onb : option net_buffer_t)
    (res : recv_result)
    : outcome (Z * option received_t * option net_buffer_t * bool) :=
  match onb with
  | None => Ok (msgtype_code OPENLI_PROTO_NULL_BUFFER, None, None, false)
  | Some nb =>
    if decide (nb.(nb_buftype) ≠ NETBUF_RECV)
    then Ok (msgtype_code OPENLI_PROTO_WRONG_BUFFER_TYPE, None, Some nb, false)
    else
      '(rettype, msg, nb1) ← parse_received_message nb;
      if negb (rettype =? OPENLI_PROTO_NO_MESSAGE) then Ok (rettype, msg, Some nb1, false)
      else
        '(r, nb2) ←
          (if NETBUF_SPACE_REM nb1 <? NETBUF_ALLOC_SIZE
           then extend_net_buffer realloc_ok nb1 NETBUF_ALLOC_SIZE else Ok (0, nb1));
        if r =? -1 then Ok (msgtype_code OPENLI_PROTO_BUFFER_TOO_FULL, msg, Some nb2, false)
        else match res with
        | RecvWouldBlock => Ok (msgtype_code OPENLI_PROTO_NO_MESSAGE, msg, Some nb2, true)
        | RecvClosed => Ok (msgtype_code OPENLI_PROTO_PEER_DISCONNECTED, msg, Some nb2, true)
        | RecvError => Ok (msgtype_code OPENLI_PROTO_RECV_ERROR, msg, Some nb2, true)
        | Received bs =>
            if NETBUF_SPACE_REM nb2 <? zlen bs then Undef
            else
              '(rettype, msg, nb3) ← parse_received_message (nb_append bs nb2);
              Ok (rettype, msg, Some nb3, true)
        end
  end.

(** The frame read after [AMQP_STATUS_UNEXPECTED_STATE]. *)
Inductive rmq_frame : Type :=
  | FrameWaitFailed
  | FrameNotMethod
  | FrameBasicAck
  | FrameBasicReturn (read_ok : bool)
  | FrameChannelClose
  | FrameConnectionClose
  | FrameOtherMethod.

(** The answer of [amqp_consume_message]. *)
Inductive rmq_reply : Type :=
  | RmqNormal
  | RmqUnexpectedState (f : rmq_frame)
  | RmqOtherFailure.

(** The returns of the [switch] on the frame; [None] falls out of it. *)
Definition rmq_frame_result (f : rmq_frame) : option openli_proto_msgtype_t :=
  match f with
  | FrameWaitFailed => Some OPENLI_PROTO_NO_MESSAGE
  | FrameNotMethod => None
  | FrameBasicAck => Some OPENLI_PROTO_NO_MESSAGE
  | FrameBasicReturn ok =>
      Some (if ok then OPENLI_PROTO_NO_MESSAGE else OPENLI_PROTO_RECV_ERROR)
  | FrameChannelClose => Some OPENLI_PROTO_RECV_ERROR
  | FrameConnectionClose => Some OPENLI_PROTO_PEER_DISCONNECTED
  | FrameOtherMethod => Some OPENLI_PROTO_RECV_ERROR
  end.

(** [receive_RMQ_buffer]; [body] is [envelope.message.body] after the call of
    [amqp_consume_message]. *)
Definition receive_RMQ_buffer (realloc_ok : Z → bool) (onb : option net_buffer_t)
    (reply : rmq_reply) (body : bytes)
    : outcome (Z * option received_t * option net_buffer_t) :=
  match onb with
  | None => Ok (msgtype_code OPENLI_PROTO_NULL_BUFFER, None, None)
  | Some nb =>
    if decide (nb.(nb_buftype) ≠ NETBUF_RECV)
    then Ok (msgtype_code OPENLI_PROTO_WRONG_BUFFER_TYPE, None, Some nb)
    else
      '(rettype, msg, nb1) ← parse_received_message nb;
      if negb (rettype =? OPENLI_PROTO_NO_MESSAGE) then Ok (rettype, msg, Some nb1)
      else
        let early := match reply with
                     | RmqUnexpectedState f => rmq_frame_result f
                     | _ => None
                     end in
        match early with
        | Some code => Ok (msgtype_code code, msg, Some nb1)
        | None =>
          '(r, nb2) ←
            (if NETBUF_SPACE_REM nb1 <? zlen body
             then extend_net_buffer realloc_ok nb1 (zlen body) else Ok (0, nb1));
          if r =? -1 then Ok (msgtype_code OPENLI_PROTO_BUFFER_TOO_FULL, msg, Some nb2)
          else if NETBUF_SPACE_REM nb2 <? zlen body then Undef
          else
            '(rettype, msg, nb3) ← parse_received_message (nb_append body nb2);
            Ok (rettype, msg, Some nb3)
        end
  end.

(** * Invariant and lemmas *)

(** The pointers are in order and inside the block, whose size fits [int]. *)
Record nb_wf (nb : net_buffer_t) : Prop := Mknb_wf {
  nbw_act : 0 ≤ nb.(nb_act) ≤ zlen nb.(nb_data);
  nbw_alloced : zlen nb.(nb_data) ≤ nb.(nb_alloced) ≤ INT_MAX;
}.

Lemma zlen_content nb : nb_wf nb → zlen (nb_content nb) = NETBUF_CONTENT_SIZE nb.
Proof. intros [Ha _]. unfold nb_content, NETBUF_CONTENT_SIZE. by apply zlen_zdrop. Qed.

Lemma create_net_buffer_wf ty fd ssl : nb_wf (create_net_buffer ty fd ssl).
Proof. split; unfold INT_MAX, create_net_buffer, NETBUF_ALLOC_SIZE; simpl; zlia. Qed.

Lemma nb_compact_wf nb : nb_wf nb → nb_wf (nb_compact nb).
Proof.
  intros Hwf. pose proof (zlen_content nb Hwf) as Hc. destruct Hwf as [Ha Hl].
  unfold NETBUF_CONTENT_SIZE in Hc. split; simpl; lia.
Qed.

Lemma nb_compact_content nb : nb_content (nb_compact nb) = nb_content nb.
Proof. done. Qed.

Lemma nb_append_content bs nb :
  nb_wf nb → nb_content (nb_append bs nb) = nb_content nb ++ bs.
Proof. intros [Ha _]. unfold nb_content. simpl. apply zdrop_app_le. lia. Qed.

Lemma nb_append_wf bs nb :
  nb_wf nb → zlen bs ≤ NETBUF_SPACE_REM nb → nb_wf (nb_append bs nb).
Proof. intros [Ha Hl] Hs. unfold NETBUF_SPACE_REM in Hs. split; simpl; zlia. Qed.

Lemma nb_act_content nb n :
  nb_wf nb → 0 ≤ n ≤ NETBUF_CONTENT_SIZE nb →
  nb_wf (set_nb_act (nb.(nb_act) + n) nb) ∧
  nb_content (set_nb_act (nb.(nb_act) + n) nb) = zdrop n (nb_content nb).
Proof.
  intros [Ha Hl] Hn. unfold NETBUF_CONTENT_SIZE in Hn. split.
  - split; simpl; lia.
  - unfold nb_content. simpl. by rewrite zdrop_zdrop by lia.
Qed.

(** The fields no operation on the content changes. *)
Definition same_conn (nb nb' : net_buffer_t) : Prop :=
  nb'.(nb_fd) = nb.(nb_fd) ∧ nb'.(nb_buftype) = nb.(nb_buftype) ∧ nb'.(nb_ssl) = nb.(nb_ssl).

#[global] Instance same_conn_refl : Reflexive same_conn.
Proof. done. Qed.
#[global] Instance same_conn_trans : Transitive same_conn.
Proof. intros x y z (?&?&?) (?&?&?). split_and!; congruence. Qed.

Section allocator_lemmas.
Context (realloc_ok : Z → bool).

Local Abbreviation extend := (extend_net_buffer realloc_ok).

(** [nb] can take [n] more bytes: they fit, or the one extension they may need
    is granted. *)
Definition can_hold (nb : net_buffer_t) (n : Z) : Prop :=
  n ≤ NETBUF_ALLOC_SIZE ∧
  (n ≤ NETBUF_SPACE_REM nb ∨
   nb.(nb_alloced) + NETBUF_ALLOC_SIZE ≤ INT_MAX ∧
   realloc_ok (nb.(nb_alloced) + NETBUF_ALLOC_SIZE) = true).

(** Everything [extend_net_buffer] may do to a well-formed buffer. *)
Lemma extend_spec nb n r nb' :
  nb_wf nb → extend nb n = Ok (r, nb') →
  nb_wf nb' ∧ nb_content nb' = nb_content nb ∧ same_conn nb nb' ∧
  NETBUF_SPACE_REM nb ≤ NETBUF_SPACE_REM nb' ∧
  (r = 0 ∧ n ≤ NETBUF_SPACE_REM nb' ∧ nb'.(nb_alloced) = nb.(nb_alloced) ∨
   r = 0 ∧ nb'.(nb_alloced) = nb.(nb_alloced) + NETBUF_ALLOC_SIZE ∧
     NETBUF_SPACE_REM nb + NETBUF_ALLOC_SIZE ≤ NETBUF_SPACE_REM nb' ∨
   r = -1 ∧ nb'.(nb_alloced) = nb.(nb_alloced)).
Proof.
  intros Hwf. unfold extend_net_buffer.
  set (c := 3 * nb_alloced nb <=? 4 * NETBUF_FRONT_FREE nb).
  set (nb1 := if c then nb_compact nb else nb).
  assert (nb_wf nb1) as Hwf1 by (destruct c; [by apply nb_compact_wf|done]).
  assert (nb_content nb1 = nb_content nb) as Hc1 by by destruct c.
  assert (nb_alloced nb1 = nb_alloced nb) as Ha1 by by destruct c.
  assert (same_conn nb nb1) as Hs1 by by destruct c.
  assert (NETBUF_SPACE_REM nb ≤ NETBUF_SPACE_REM nb1) as Hr1.
  { pose proof (zlen_content nb Hwf) as Hl. destruct Hwf as [??].
    unfold NETBUF_SPACE_REM, NETBUF_CONTENT_SIZE, nb1 in *. destruct c; simpl; lia. }
  destruct (c && _) eqn:E1; [|destruct (INT_MAX <? _) eqn:E2; [done|destruct (realloc_ok _)]];
    intros [= <- <-].
  - split_and!; try done. left. apply andb_true_iff in E1 as [_ E1%Z.leb_le]. done.
  - apply Z.ltb_ge in E2. destruct Hwf1 as [??].
    unfold NETBUF_SPACE_REM, NETBUF_ALLOC_SIZE in *.
    split_and!; [split; simpl; lia|done|done|simpl; lia|].
    right; left. simpl. lia.
  - split_and!; try done. auto.
Qed.

Lemma extend_success nb n :
  nb.(nb_alloced) + NETBUF_ALLOC_SIZE ≤ INT_MAX →
  realloc_ok (nb.(nb_alloced) + NETBUF_ALLOC_SIZE) = true →
  ∃ nb', extend nb n = Ok (0, nb').
Proof.
  intros Hi Hr. unfold extend_net_buffer.
  set (c := 3 * nb_alloced nb <=? 4 * NETBUF_FRONT_FREE nb).
  set (nb1 := if c then nb_compact nb else nb).
  assert (nb_alloced nb1 = nb_alloced nb) as -> by by destruct c.
  destruct (c && _); [eauto|]. rewrite (proj2 (Z.ltb_ge _ _) Hi), Hr. eauto.
Qed.

(** One extension is enough for any request of at most [NETBUF_ALLOC_SIZE]. *)
Lemma extend_enough nb n nb' :
  nb_wf nb → n ≤ NETBUF_ALLOC_SIZE → extend nb n = Ok (0, nb') → n ≤ NETBUF_SPACE_REM nb'.
Proof.
  intros Hwf Hn He. destruct (extend_spec _ _ _ _ Hwf He) as (_&_&_&_&Hcase).
  destruct Hwf as [Ha Hl]. unfold NETBUF_SPACE_REM in *. lia.
Qed.

Lemma make_room_spec fuel nb len :
  nb_wf nb → len ≤ NETBUF_ALLOC_SIZE → (0 < fuel)%nat →
  make_room realloc_ok fuel nb len =
    if len <=? NETBUF_SPACE_REM nb then Ok (Some (0, nb)) else Some <$> extend nb len.
Proof.
  intros Hwf Hlen Hf. destruct fuel as [|fuel]; [lia|]. simpl.
  destruct (len <=? NETBUF_SPACE_REM nb) eqn:E; [done|].
  destruct (extend nb len) as [[r nb']| |] eqn:He; try done. simpl.
  destruct (extend_spec _ _ _ _ Hwf He) as (_&_&_&_&Hcase).
  destruct (r =? -1) eqn:Er; [apply Z.eqb_eq in Er; by subst|].
  apply Z.eqb_neq in Er. assert (r = 0) as -> by lia.
  pose proof (extend_enough _ _ _ Hwf Hlen He).
  assert ((len <=? NETBUF_SPACE_REM nb') = true) as Hle by by apply Z.leb_le.
  destruct fuel; simpl; by rewrite Hle.
Qed.

Lemma can_hold_le nb n m : can_hold nb n → m ≤ n → can_hold nb m.
Proof. intros [? [?|?]] ?; (split; [lia|]); [left; lia|by right]. Qed.

(** ** What a piece of writing code does

    [appends m bs r]: on a well-formed buffer that can hold them, [m] adds
    exactly the bytes [bs] to the content and returns [r]; whatever the
    allocator answers, when [m] returns it either did that, or it returned -1
    having added a strict prefix of [bs]. *)
Definition appends (m : pusher) (bs : bytes) (r : Z) : Prop :=
  ∀ nb, nb_wf nb →
    (can_hold nb (zlen bs) → ∃ nb', m nb = Ok (r, nb')) ∧
    (∀ r' nb', m nb = Ok (r', nb') →
      nb_wf nb' ∧ same_conn nb nb' ∧
      (r' = r ∧ nb_content nb' = nb_content nb ++ bs ∧
         (∀ n, 0 ≤ n → can_hold nb (zlen bs + n) → can_hold nb' n) ∨
       r' = -1 ∧ ∃ p, p `prefix_of` bs ∧ zlen p < zlen bs ∧
         nb_content nb' = nb_content nb ++ p)).

Lemma appends_return r : appends (push_return r) [] r.
Proof.
  intros nb Hwf. split; [intros; unfold push_return; eauto|].
  intros r' nb' [= <- <-]. split_and!; [done..|]. left.
  split_and!; [done|by rewrite app_nil_r|]. intros n ?. by rewrite zlen_nil, Z.add_0_l.
Qed.

Lemma appends_then m k bs1 bs2 r1 r :
  r1 ≠ -1 → appends m bs1 r1 → appends k bs2 r →
  appends (m ;;? k)%openli (bs1 ++ bs2) r.
Proof.
  intros Hr1 Hm Hk nb Hwf. destruct (Hm nb Hwf) as [Hm1 Hm2]. unfold push_then. split.
  - intros Hc. rewrite zlen_app in Hc.
    destruct Hm1 as [nb1 Hnb1]; [apply (can_hold_le _ _ _ Hc); zlia|].
    rewrite Hnb1. simpl. rewrite (proj2 (Z.eqb_neq r1 (-1)) Hr1).
    destruct (Hm2 _ _ Hnb1) as (Hwf1 & _ & [(_ & _ & Hh)|[? _]]); [|lia].
    apply (Hk nb1 Hwf1), Hh; [zlia|done].
  - intros r' nb' He. destruct (m nb) as [[r0 nb1]| |] eqn:Hnb1; try done. simpl in He.
    destruct (Hm2 _ _ eq_refl) as (Hwf1 & Hs1 & Hcase).
    destruct (r0 =? -1) eqn:E.
    + injection He as <- <-. split_and!; [done..|]. right. split; [done|].
      apply Z.eqb_eq in E as ->.
      destruct Hcase as [[? _]|(_ & p & Hp & Hlt & Hct)]; [lia|].
      exists p. split_and!; [by apply prefix_app_r|zlia|done].
    + apply Z.eqb_neq in E. destruct Hcase as [(-> & Hct1 & Hh1)|[? _]]; [|done].
      destruct (Hk nb1 Hwf1) as [_ Hk2].
      destruct (Hk2 _ _ He) as (Hwf2 & Hs2 & Hcase2).
      split_and!; [done|by etrans|].
      destruct Hcase2 as [(-> & Hct2 & Hh2)|(-> & p & Hp & Hlt & Hct2)].
      * left. split_and!; [done|by rewrite Hct2, Hct1, app_assoc|].
        intros n Hn Hc. rewrite zlen_app, <- Z.add_assoc in Hc.
        apply Hh2; [done|]. apply Hh1; [zlia|done].
      * right. split; [done|]. exists (bs1 ++ p).
        split_and!; [by apply prefix_app|zlia|by rewrite Hct2, Hct1, app_assoc].
Qed.

Lemma appends_generic data len :
  len = zlen data → 0 < len ≤ NETBUF_ALLOC_SIZE →
  appends (λ nb, push_generic_onto_net_buffer realloc_ok nb data len) data len.
Proof.
  intros Hlen Hb nb Hwf. unfold push_generic_onto_net_buffer.
  rewrite (proj2 (Z.eqb_neq len 0)) by lia.
  rewrite make_room_spec by (done || lia). rewrite (read_bytes_Ok len data) by lia.
  assert (ztake len data = data) as ->.
  { rewrite <- (app_nil_r data) at 1. by apply ztake_app. }
  destruct (Z.leb_spec len (NETBUF_SPACE_REM nb)) as [Hle|Hgt].
  - split; [intros; simpl; eauto|]. intros r' nb' [= <- <-].
    split_and!; [apply nb_append_wf; [done|lia]|done|]. left.
    split_and!; [done|by apply nb_append_content|].
    intros n Hn [Hc1 Hc2]. split; [lia|]. unfold NETBUF_SPACE_REM in *.
    destruct Hc2; [left; simpl; zlia|by right].
  - split.
    + intros [_ [?|[Hi Hr]]]; [lia|].
      destruct (extend_success nb len Hi Hr) as [nb' ->]. simpl. eauto.
    + intros r' nb' He. destruct (extend nb len) as [[r0 nb1]| |] eqn:Hnb1; try done.
      simpl in He. destruct (extend_spec _ _ _ _ Hwf Hnb1) as (Hwf1 & Hct1 & Hs1 & Hsp & Hcase).
      destruct (Z.eqb_spec r0 (-1)) as [->|Hr0]; injection He as <- <-.
      * split_and!; [done..|]. right. split; [done|]. exists [].
        split_and!; [apply prefix_nil|zlia|by rewrite app_nil_r].
      * assert (r0 = 0) as -> by lia.
        assert (len ≤ NETBUF_SPACE_REM nb1) by (apply (extend_enough nb len); [done|lia|done]).
        split_and!; [apply nb_append_wf; [done|lia]|done|]. left.
        split_and!; [done|by rewrite nb_append_content, Hct1|].
        intros n Hn [Hc1 Hc2]. split; [lia|].
        destruct Hwf as [_ Hl]. unfold NETBUF_SPACE_REM, NETBUF_ALLOC_SIZE in *.
        destruct Hcase as [(_ & _ & Ha)|[(_ & Ha & Hb2)|[? _]]]; [|left; simpl; zlia|lia].
        right. cbn [nb_append nb_alloced]. rewrite Ha. destruct Hc2; [zlia|done].
Qed.

(** ** Type-length-value fields *)

Definition wire_tlv (t : Z) (v : bytes) : bytes := be_bytes 2 t ++ be_bytes 2 (zlen v) ++ v.

Lemma zlen_wire_tlv t v : zlen (wire_tlv t v) = zlen v + 4.
Proof. unfold wire_tlv. zlia. Qed.

Lemma appends_header t l i :
  0 ≤ t < 65536 → 0 ≤ l < 65536 → 0 ≤ i < 2 ^ 64 →
  appends (push_header realloc_ok t l i) (wire_header t l i) 16.
Proof.
  intros Ht Hl Hi. unfold push_header. rewrite header_memory_wire by done.
  apply appends_generic; [by rewrite zlen_wire_header|]. unfold NETBUF_ALLOC_SIZE. lia.
Qed.

Lemma appends_tlv t s v n :
  0 ≤ t < 65536 → n = zlen v → zlen v ≤ 4092 → str_read n s = Ok v →
  appends (push_tlv realloc_ok t s n) (wire_tlv t v) (zlen v + 4).
Proof.
  intros Ht -> Hv Hs. unfold push_tlv. rewrite (u16_id (zlen v)) by zlia.
  rewrite (proj2 (Z.ltb_ge _ _)) by lia. rewrite Hs. run_outcome.
  rewrite u16_id by done.
  rewrite (proj1 (htons_reverses t Ht)), (proj1 (htons_reverses (zlen v) ltac:(simpl; zlia))).
  apply (appends_generic (wire_tlv t v)); [by rewrite zlen_wire_tlv|].
  unfold NETBUF_ALLOC_SIZE. zlia.
Qed.

End allocator_lemmas.

#[export] Hint Rewrite zlen_wire_tlv : zlen.
