(* ===== verification/NetPush.v ===== *)
(** * Writing the protocol messages (the [push_*] functions of
    src/src/netcomms.c)

    One definition per C function, with the length macros they use.  The
    logging calls are left out.  [sizeof] of an enumeration is 4.

    [_push_intercept_common_fields] has no [return] statement on its normal
    path, so the value its callers compare with -1 is indeterminate there; it
    is the section variable [noret]. *)

From S2P Require Import Prelude ByteOrder Protocol Intercept NetBuffer.
Local Open Scope openli_scope.

(** An integer member of [n] bytes, given to [push_tlv] by address. *)
Definition mem (n : nat) (v : Z) : cstring := Some (le_bytes n v).

Section push.
Context (realloc_ok : Z → bool) (noret : Z).

Local Abbreviation tlv f := (push_tlv realloc_ok (field_code f)).
Local Abbreviation header t := (push_header realloc_ok (msgtype_code t)).

(** [push_tlv(nb, type, (uint8_t * )s, strlen(s))] *)
Definition push_str (f : openli_proto_fieldtype_t) (s : cstring) : pusher := λ nb,
  n ← strlen s; tlv f s n nb.

(** [push_auth_onto_net_buffer] *)
Definition push_auth_onto_net_buffer (msgtype : openli_proto_msgtype_t) : pusher :=
  if decide (msgtype = OPENLI_PROTO_COLLECTOR_AUTH)
  then header msgtype 0 OPENLI_COLLECTOR_MAGIC
  else if decide (msgtype = OPENLI_PROTO_MEDIATOR_AUTH)
  then header msgtype 0 OPENLI_MEDIATOR_MAGIC
  else push_return (-1).

(** [push_disconnect_mediators_onto_net_buffer] *)
Definition push_disconnect_mediators_onto_net_buffer : pusher :=
  header OPENLI_PROTO_DISCONNECT_MEDIATORS 0 0.

Definition LIIDMAP_BODY_LEN (agency liid : cstring) : outcome Z :=
  a ← strlen agency; l ← strlen liid; Ok (a + l + 2 * 4).

(** [push_liid_mapping_onto_net_buffer] *)
Definition push_liid_mapping_onto_net_buffer (agency liid : cstring) : pusher := λ nb,
  len ← LIIDMAP_BODY_LEN agency liid;
  let totallen := u16 len in
  (header OPENLI_PROTO_MEDIATE_INTERCEPT totallen 0 ;;?
   push_str OPENLI_PROTO_FIELD_LEAID agency ;;?
   push_str OPENLI_PROTO_FIELD_LIID liid ;;?
   push_return totallen) nb.

(** [push_cease_mediation_onto_net_buffer] *)
Definition push_cease_mediation_onto_net_buffer (liid : cstring) (liid_len : Z) : pusher :=
  let totallen := u16 (liid_len + 4) in
  header OPENLI_PROTO_CEASE_MEDIATION totallen 0 ;;?
  tlv OPENLI_PROTO_FIELD_LIID liid liid_len ;;?
  push_return totallen.

Definition LEA_BODY_LEN (lea : liagency_t) : outcome Z :=
  a ← strlen lea.(lea_agencyid);
  b ← strlen lea.(lea_hi2_ipstr);
  c ← strlen lea.(lea_hi2_portstr);
  d ← strlen lea.(lea_hi3_ipstr);
  e ← strlen lea.(lea_hi3_portstr);
  Ok (a + b + c + d + e + 4 + 4 + 7 * 4).

(** [push_lea_onto_net_buffer] *)
Definition push_lea_onto_net_buffer (lea : liagency_t) : pusher := λ nb,
  len ← LEA_BODY_LEN lea;
  let totallen := u16 len in
  (header OPENLI_PROTO_ANNOUNCE_LEA totallen 0 ;;?
   push_str OPENLI_PROTO_FIELD_LEAID lea.(lea_agencyid) ;;?
   push_str OPENLI_PROTO_FIELD_HI2IP lea.(lea_hi2_ipstr) ;;?
   push_str OPENLI_PROTO_FIELD_HI2PORT lea.(lea_hi2_portstr) ;;?
   push_str OPENLI_PROTO_FIELD_HI3IP lea.(lea_hi3_ipstr) ;;?
   push_str OPENLI_PROTO_FIELD_HI3PORT lea.(lea_hi3_portstr) ;;?
   tlv OPENLI_PROTO_FIELD_KAFREQ (mem 4 lea.(lea_keepalivefreq)) 4 ;;?
   tlv OPENLI_PROTO_FIELD_KAWAIT (mem 4 lea.(lea_keepalivewait)) 4 ;;?
   push_return totallen) nb.

Definition LEA_WITHDRAW_BODY_LEN (lea : liagency_t) : outcome Z :=
  a ← strlen lea.(lea_agencyid); Ok (a + 1 * 4).

(** [push_lea_withdrawal_onto_net_buffer] *)
Definition push_lea_withdrawal_onto_net_buffer (lea : liagency_t) : pusher := λ nb,
  len ← LEA_WITHDRAW_BODY_LEN lea;
  let totallen := u16 len in
  (header OPENLI_PROTO_WITHDRAW_LEA totallen 0 ;;?
   push_str OPENLI_PROTO_FIELD_LEAID lea.(lea_agencyid) ;;?
   push_return totallen) nb.

(** [INTERCEPT_COMMON_LEN] *)
Definition INTERCEPT_COMMON_LEN (c : intercept_common_t) : outcome Z :=
  a ← strlen c.(ic_targetagency);
  k ← (match c.(ic_encryptkey) with
       | Some _ => n ← strlen c.(ic_encryptkey); Ok (n + 4)
       | None => Ok 0
       end);
  Ok (c.(ic_liid_len) + c.(ic_authcc_len) + 8 + 8 + 4 + a + 4 + 4 + c.(ic_delivcc_len)
        + k + 9 * 4).

(** [_push_intercept_common_fields] *)
Definition push_intercept_common_fields (c : intercept_common_t) : pusher :=
  push_str OPENLI_PROTO_FIELD_LIID c.(ic_liid) ;;?
  push_str OPENLI_PROTO_FIELD_AUTHCC c.(ic_authcc) ;;?
  push_str OPENLI_PROTO_FIELD_DELIVCC c.(ic_delivcc) ;;?
  push_str OPENLI_PROTO_FIELD_LEAID c.(ic_targetagency) ;;?
  tlv OPENLI_PROTO_FIELD_INTERCEPT_START_TIME (mem 8 c.(ic_tostart_time)) 8 ;;?
  tlv OPENLI_PROTO_FIELD_INTERCEPT_END_TIME (mem 8 c.(ic_toend_time)) 8 ;;?
  tlv OPENLI_PROTO_FIELD_MEDIATORID (mem 4 c.(ic_destid)) 4 ;;?
  tlv OPENLI_PROTO_FIELD_TOMEDIATE (mem 4 c.(ic_tomediate)) 4 ;;?
  tlv OPENLI_PROTO_FIELD_PAYLOAD_ENCRYPTION (mem 4 c.(ic_encrypt)) 4 ;;?
  match c.(ic_encryptkey) with
  | Some _ => push_str OPENLI_PROTO_FIELD_ENCRYPTION_KEY c.(ic_encryptkey) ;;? push_return noret
  | None => push_return noret
  end.

Definition VENDMIRROR_IPINTERCEPT_MODIFY_BODY_LEN (i : ipintercept_t) : outcome Z :=
  c ← INTERCEPT_COMMON_LEN i.(ip_common); Ok (c + i.(ip_username_len) + 4 + 4 + 4 + 4 * 4).
Definition IPINTERCEPT_MODIFY_BODY_LEN (i : ipintercept_t) : outcome Z :=
  c ← INTERCEPT_COMMON_LEN i.(ip_common); Ok (c + i.(ip_username_len) + 4 + 4 + 3 * 4).

(** [vendmirrorid != OPENLI_VENDOR_MIRROR_NONE] *)
Definition has_vendmirror (i : ipintercept_t) : bool :=
  negb (i.(ip_vendmirrorid) =? OPENLI_VENDOR_MIRROR_NONE).

(** [_push_ipintercept_modify]; the test of the 16-bit [totallen] against
    65535 is there but cannot succeed. *)
Definition push_ipintercept_modify (i : ipintercept_t) : pusher := λ nb,
  len ← (if has_vendmirror i then VENDMIRROR_IPINTERCEPT_MODIFY_BODY_LEN i
         else IPINTERCEPT_MODIFY_BODY_LEN i);
  let totallen := u16 len in
  if 65535 <? totallen then Ok (-1, nb) else
  (header OPENLI_PROTO_MODIFY_IPINTERCEPT totallen 0 ;;?
   push_intercept_common_fields i.(ip_common) ;;?
   tlv OPENLI_PROTO_FIELD_USERNAME i.(ip_username) i.(ip_username_len) ;;?
   tlv OPENLI_PROTO_FIELD_ACCESSTYPE (mem 4 i.(ip_accesstype)) 4 ;;?
   tlv OPENLI_PROTO_FIELD_INTOPTIONS (mem 4 i.(ip_options)) 4 ;;?
   (if has_vendmirror i
    then tlv OPENLI_PROTO_FIELD_VENDMIRRORID (mem 4 i.(ip_vendmirrorid)) 4 ;;?
         push_return totallen
    else push_return totallen)) nb.

Definition EMAILINTERCEPT_MODIFY_BODY_LEN (em : emailintercept_t) : outcome Z :=
  c ← INTERCEPT_COMMON_LEN em.(em_common); Ok (c + 1 + 1 * 4).

(** [_push_emailintercept_modify] *)
Definition push_emailintercept_modify (em : emailintercept_t) : pusher := λ nb,
  len ← EMAILINTERCEPT_MODIFY_BODY_LEN em;
  let totallen := u16 len in
  if 65535 <? totallen then Ok (-1, nb) else
  (header OPENLI_PROTO_MODIFY_EMAILINTERCEPT totallen 0 ;;?
   push_intercept_common_fields em.(em_common) ;;?
   tlv OPENLI_PROTO_FIELD_DELIVER_COMPRESSED (mem 1 em.(em_delivercompressed)) 1 ;;?
   push_return totallen) nb.

Definition VOIPINTERCEPT_MODIFY_BODY_LEN (vint : voipintercept_t) : outcome Z :=
  c ← INTERCEPT_COMMON_LEN vint.(vi_common); Ok (c + 4 + 1 * 4).

(** [_push_voipintercept_modify] *)
Definition push_voipintercept_modify (vint : voipintercept_t) : pusher := λ nb,
  len ← VOIPINTERCEPT_MODIFY_BODY_LEN vint;
  let totallen := u16 len in
  if 65535 <? totallen then Ok (-1, nb) else
  (header OPENLI_PROTO_MODIFY_VOIPINTERCEPT totallen 0 ;;?
   push_intercept_common_fields vint.(vi_common) ;;?
   tlv OPENLI_PROTO_FIELD_INTOPTIONS (mem 4 vint.(vi_options)) 4 ;;?
   push_return totallen) nb.

(** The [void *data] of the generic entry points. *)
Inductive intercept_data : Type :=
  | DataIp (i : ipintercept_t)
  | DataVoip (v : voipintercept_t)
  | DataEmail (em : emailintercept_t).

(** [push_intercept_modify_onto_net_buffer].  Reading the object at another
    type than it has is undefined. *)
Definition push_intercept_modify_onto_net_buffer (data : intercept_data)
    (modtype : openli_proto_msgtype_t) : pusher := λ nb,
  if decide (modtype = OPENLI_PROTO_MODIFY_VOIPINTERCEPT)
  then match data with DataVoip v => push_voipintercept_modify v nb | _ => Undef end
  else if decide (modtype = OPENLI_PROTO_MODIFY_IPINTERCEPT)
  then match data with DataIp i => push_ipintercept_modify i nb | _ => Undef end
  else if decide (modtype = OPENLI_PROTO_MODIFY_EMAILINTERCEPT)
  then match data with DataEmail em => push_emailintercept_modify em nb | _ => Undef end
  else Ok (-1, nb).

Definition EMAILINTERCEPT_BODY_LEN (em : emailintercept_t) : outcome Z :=
  c ← INTERCEPT_COMMON_LEN em.(em_common); Ok (c + 1 + 1 * 4).

(** [push_emailintercept_onto_net_buffer] *)
Definition push_emailintercept_onto_net_buffer (em : emailintercept_t) : pusher := λ nb,
  len ← EMAILINTERCEPT_BODY_LEN em;
  let totallen := u16 len in
  if 65535 <? totallen then Ok (-1, nb) else
  (header OPENLI_PROTO_START_EMAILINTERCEPT totallen 0 ;;?
   push_intercept_common_fields em.(em_common) ;;?
   tlv OPENLI_PROTO_FIELD_DELIVER_COMPRESSED (mem 1 em.(em_delivercompressed)) 1 ;;?
   push_return totallen) nb.

Definition INTERCEPT_WITHDRAW_BODY_LEN (liid authcc : cstring) : outcome Z :=
  a ← strlen liid; b ← strlen authcc; Ok (a + b + 2 * 4).

(** [push_intercept_withdrawal_onto_net_buffer] *)
Definition push_intercept_withdrawal_onto_net_buffer (data : intercept_data)
    (wdtype : openli_proto_msgtype_t) : pusher := λ nb,
  let common :=
    if decide (wdtype = OPENLI_PROTO_HALT_VOIPINTERCEPT)
    then Some (match data with DataVoip v => Ok v.(vi_common) | _ => Undef end)
    else if decide (wdtype = OPENLI_PROTO_HALT_EMAILINTERCEPT)
    then Some (match data with DataEmail em => Ok em.(em_common) | _ => Undef end)
    else if decide (wdtype = OPENLI_PROTO_HALT_IPINTERCEPT)
    then Some (match data with DataIp i => Ok i.(ip_common) | _ => Undef end)
    else None in
  match common with
  | None => Ok (-1, nb)
  | Some oc =>
      c ← oc;
      len ← INTERCEPT_WITHDRAW_BODY_LEN c.(ic_liid) c.(ic_authcc);
      let totallen := u16 len in
      if 65535 <? totallen then Ok (-1, nb) else
      (header wdtype totallen 0 ;;?
       push_str OPENLI_PROTO_FIELD_LIID c.(ic_liid) ;;?
       push_str OPENLI_PROTO_FIELD_AUTHCC c.(ic_authcc) ;;?
       push_return totallen) nb
  end.

Definition VOIPINTERCEPT_BODY_LEN (vint : voipintercept_t) : outcome Z :=
  c ← INTERCEPT_COMMON_LEN vint.(vi_common); Ok (c + 4 + 1 * 4).

(** [push_voipintercept_onto_net_buffer]; here the full length is tested. *)
Definition push_voipintercept_onto_net_buffer (vint : voipintercept_t) : pusher := λ nb,
  len ← VOIPINTERCEPT_BODY_LEN vint;
  if 65535 <? u64 len then Ok (-1, nb) else
  let totallen := u16 len in
  (header OPENLI_PROTO_START_VOIPINTERCEPT totallen 0 ;;?
   push_intercept_common_fields vint.(vi_common) ;;?
   tlv OPENLI_PROTO_FIELD_INTOPTIONS (mem 4 vint.(vi_options)) 4 ;;?
   push_return totallen) nb.

Definition SIPTARGET_BODY_LEN_NOREALM (s : openli_sip_identity_t) (v : voipintercept_t) : Z :=
  v.(vi_common).(ic_liid_len) + s.(si_username_len) + 2 * 4.
Definition SIPTARGET_BODY_LEN (s : openli_sip_identity_t) (v : voipintercept_t) : Z :=
  v.(vi_common).(ic_liid_len) + s.(si_username_len) + s.(si_realm_len) + 3 * 4.

(** [push_sip_target_onto_net_buffer_generic] *)
Definition push_sip_target_onto_net_buffer_generic (sipid : openli_sip_identity_t)
    (vint : voipintercept_t) (msgtype : openli_proto_msgtype_t) : pusher := λ nb,
  if decide (msgtype ≠ OPENLI_PROTO_ANNOUNCE_SIP_TARGET ∧
             msgtype ≠ OPENLI_PROTO_WITHDRAW_SIP_TARGET) then Ok (-1, nb) else
  let totallen := u16 (match sipid.(si_realm) with
                       | Some _ => SIPTARGET_BODY_LEN sipid vint
                       | None => SIPTARGET_BODY_LEN_NOREALM sipid vint
                       end) in
  if 65535 <? totallen then Ok (-1, nb) else
  (header msgtype totallen 0 ;;?
   tlv OPENLI_PROTO_FIELD_LIID vint.(vi_common).(ic_liid) vint.(vi_common).(ic_liid_len) ;;?
   tlv OPENLI_PROTO_FIELD_SIP_USER sipid.(si_username) sipid.(si_username_len) ;;?
   match sipid.(si_realm) with
   | Some _ => tlv OPENLI_PROTO_FIELD_SIP_REALM sipid.(si_realm) sipid.(si_realm_len) ;;?
               push_return totallen
   | None => push_return totallen
   end) nb.

(** [push_sip_target_onto_net_buffer] and [..._withdrawal_...] *)
Definition push_sip_target_onto_net_buffer sipid vint : pusher :=
  push_sip_target_onto_net_buffer_generic sipid vint OPENLI_PROTO_ANNOUNCE_SIP_TARGET.
Definition push_sip_target_withdrawal_onto_net_buffer sipid vint : pusher :=
  push_sip_target_onto_net_buffer_generic sipid vint OPENLI_PROTO_WITHDRAW_SIP_TARGET.

Definition EMAILTARGET_BODY_LEN (tgt : email_target_t) (em : emailintercept_t) : outcome Z :=
  a ← strlen tgt.(et_address); Ok (em.(em_common).(ic_liid_len) + a + 2 * 4).

(** [push_email_target_onto_net_buffer_generic] *)
Definition push_email_target_onto_net_buffer_generic (tgt : email_target_t)
    (em : emailintercept_t) (msgtype : openli_proto_msgtype_t) : pusher := λ nb,
  if decide (msgtype ≠ OPENLI_PROTO_ANNOUNCE_EMAIL_TARGET ∧
             msgtype ≠ OPENLI_PROTO_WITHDRAW_EMAIL_TARGET) then Ok (-1, nb) else
  len ← EMAILTARGET_BODY_LEN tgt em;
  let totallen := u16 len in
  if 65535 <? totallen then Ok (-1, nb) else
  (header msgtype totallen 0 ;;?
   tlv OPENLI_PROTO_FIELD_LIID em.(em_common).(ic_liid) em.(em_common).(ic_liid_len) ;;?
   push_str OPENLI_PROTO_FIELD_EMAIL_TARGET tgt.(et_address) ;;?
   push_return totallen) nb.

(** [push_email_target_onto_net_buffer] and [..._withdrawal_...] *)
Definition push_email_target_onto_net_buffer tgt em : pusher :=
  push_email_target_onto_net_buffer_generic tgt em OPENLI_PROTO_ANNOUNCE_EMAIL_TARGET.
Definition push_email_target_withdrawal_onto_net_buffer tgt em : pusher :=
  push_email_target_onto_net_buffer_generic tgt em OPENLI_PROTO_WITHDRAW_EMAIL_TARGET.

Definition STATICIP_RANGE_BODY_LEN (i : ipintercept_t) (r : static_ipranges_t) : outcome Z :=
  a ← strlen r.(sr_rangestr); Ok (a + 4 + i.(ip_common).(ic_liid_len) + 3 * 4).

(** [push_static_ipranges_generic]; [totallen] is an [int] here. *)
Definition push_static_ipranges_generic (i : ipintercept_t) (oipr : option static_ipranges_t)
    (msgtype : openli_proto_msgtype_t) : pusher := λ nb,
  match oipr with
  | None => Ok (0, nb)
  | Some ipr =>
      len ← STATICIP_RANGE_BODY_LEN i ipr;
      let totallen := i32 len in
      if 65535 <? totallen then Ok (-1, nb) else
      (header msgtype totallen 0 ;;?
       push_str OPENLI_PROTO_FIELD_STATICIP_RANGE ipr.(sr_rangestr) ;;?
       tlv OPENLI_PROTO_FIELD_LIID i.(ip_common).(ic_liid) i.(ip_common).(ic_liid_len) ;;?
       tlv OPENLI_PROTO_FIELD_CIN (mem 4 ipr.(sr_cin)) 4 ;;?
       push_return 0) nb
  end.

(** [push_static_ipranges_{removal,modify,}_onto_net_buffer] *)
Definition push_static_ipranges_removal_onto_net_buffer i ipr : pusher :=
  push_static_ipranges_generic i ipr OPENLI_PROTO_REMOVE_STATICIPS.
Definition push_static_ipranges_modify_onto_net_buffer i ipr : pusher :=
  push_static_ipranges_generic i ipr OPENLI_PROTO_MODIFY_STATICIPS.
Definition push_static_ipranges_onto_net_buffer i ipr : pusher :=
  push_static_ipranges_generic i ipr OPENLI_PROTO_ADD_STATICIPS.

(** The [HASH_ITER] over [ipint->statics]: [-1] as soon as one push is
    negative, then [return totallen]. *)
Fixpoint push_statics (i : ipintercept_t) (l : list static_ipranges_t) (totallen : Z)
    : pusher := λ nb,
  match l with
  | [] => Ok (totallen, nb)
  | ipr :: l =>
      '(r, nb') ← push_static_ipranges_onto_net_buffer i (Some ipr) nb;
      if r <? 0 then Ok (-1, nb') else push_statics i l totallen nb'
  end.

Definition IPINTERCEPT_BODY_LEN (i : ipintercept_t) : outcome Z :=
  c ← INTERCEPT_COMMON_LEN i.(ip_common); Ok (c + i.(ip_username_len) + 4 + 4 + 3 * 4).
Definition VENDMIRROR_IPINTERCEPT_BODY_LEN (i : ipintercept_t) : outcome Z :=
  c ← INTERCEPT_COMMON_LEN i.(ip_common); Ok (c + i.(ip_username_len) + 4 + 4 + 4 + 4 * 4).

(** [push_ipintercept_onto_net_buffer] *)
Definition push_ipintercept_onto_net_buffer (i : ipintercept_t) : pusher := λ nb,
  len ← (if has_vendmirror i then VENDMIRROR_IPINTERCEPT_BODY_LEN i
         else IPINTERCEPT_BODY_LEN i);
  let totallen := i32 len in
  if 65535 <? totallen then Ok (-1, nb) else
  (header OPENLI_PROTO_START_IPINTERCEPT totallen 0 ;;?
   push_intercept_common_fields i.(ip_common) ;;?
   tlv OPENLI_PROTO_FIELD_USERNAME i.(ip_username) i.(ip_username_len) ;;?
   tlv OPENLI_PROTO_FIELD_ACCESSTYPE (mem 4 i.(ip_accesstype)) 4 ;;?
   tlv OPENLI_PROTO_FIELD_INTOPTIONS (mem 4 i.(ip_options)) 4 ;;?
   (if has_vendmirror i
    then tlv OPENLI_PROTO_FIELD_VENDMIRRORID (mem 4 i.(ip_vendmirrorid)) 4 ;;?
         push_statics i i.(ip_statics) totallen
    else push_statics i i.(ip_statics) totallen)) nb.

Definition MEDIATOR_BODY_LEN (med : openli_mediator_t) : outcome Z :=
  a ← strlen med.(med_ipstr); b ← strlen med.(med_portstr); Ok (4 + a + b + 3 * 4).

(** [push_mediator_msg_onto_net_buffer] *)
Definition push_mediator_msg_onto_net_buffer (med : openli_mediator_t)
    (type : openli_proto_msgtype_t) : pusher := λ nb,
  len ← MEDIATOR_BODY_LEN med;
  if 65535 <? len then Ok (-1, nb) else
  let totallen := u16 len in
  (header type totallen 0 ;;?
   tlv OPENLI_PROTO_FIELD_MEDIATORID (mem 4 med.(med_mediatorid)) 4 ;;?
   push_str OPENLI_PROTO_FIELD_MEDIATORIP med.(med_ipstr) ;;?
   push_str OPENLI_PROTO_FIELD_MEDIATORPORT med.(med_portstr) ;;?
   push_return totallen) nb.

(** [push_mediator_onto_net_buffer] and [..._withdraw_...] *)
Definition push_mediator_onto_net_buffer med : pusher :=
  push_mediator_msg_onto_net_buffer med OPENLI_PROTO_ANNOUNCE_MEDIATOR.
Definition push_mediator_withdraw_onto_net_buffer med : pusher :=
  push_mediator_msg_onto_net_buffer med OPENLI_PROTO_WITHDRAW_MEDIATOR.

Definition HI1_NOTIFY_BODY_LEN (nd : hi1_notify_data_t) (target_info_len field_count : Z)
    : outcome Z :=
  a ← strlen nd.(nd_liid);
  b ← strlen nd.(nd_authcc);
  c ← strlen nd.(nd_delivcc);
  d ← strlen nd.(nd_agencyid);
  Ok (4 + 4 + 8 + 4 + a + b + c + d + target_info_len + field_count * 4).

(** [push_hi1_notification_onto_net_buffer] *)
Definition push_hi1_notification_onto_net_buffer (nd : hi1_notify_data_t) : pusher := λ nb,
  '(field_count, target_info_len) ←
    (match nd.(nd_target_info) with
     | None => Ok (8, 0)
     | Some _ => n ← strlen nd.(nd_target_info); Ok (9, n)
     end);
  len ← HI1_NOTIFY_BODY_LEN nd target_info_len field_count;
  if 65535 <? len then Ok (-1, nb) else
  let totallen := u16 len in
  (header OPENLI_PROTO_HI1_NOTIFICATION totallen 0 ;;?
   tlv OPENLI_PROTO_FIELD_HI1_NOTIFY_TYPE (mem 4 nd.(nd_notify_type)) 4 ;;?
   push_str OPENLI_PROTO_FIELD_LIID nd.(nd_liid) ;;?
   push_str OPENLI_PROTO_FIELD_AUTHCC nd.(nd_authcc) ;;?
   push_str OPENLI_PROTO_FIELD_DELIVCC nd.(nd_delivcc) ;;?
   push_str OPENLI_PROTO_FIELD_LEAID nd.(nd_agencyid) ;;?
   tlv OPENLI_PROTO_FIELD_SEQNO (mem 4 nd.(nd_seqno)) 4 ;;?
   tlv OPENLI_PROTO_FIELD_TS_SEC (mem 8 nd.(nd_ts_sec)) 8 ;;?
   tlv OPENLI_PROTO_FIELD_TS_USEC (mem 4 nd.(nd_ts_usec)) 4 ;;?
   match nd.(nd_target_info) with
   | Some _ => tlv OPENLI_PROTO_FIELD_USERNAME nd.(nd_target_info) target_info_len ;;?
               push_return totallen
   | None => push_return totallen
   end) nb.

Definition DEF_RADIUS_BODY_LEN (def : default_radius_user_t) : Z := def.(dr_namelen) + 1 * 4.

(** [push_default_radius_msg_onto_net_buffer] *)
Definition push_default_radius_msg_onto_net_buffer (defrad : default_radius_user_t)
    (type : openli_proto_msgtype_t) : pusher :=
  if 65535 <? DEF_RADIUS_BODY_LEN defrad then push_return (-1) else
  let totallen := u16 (DEF_RADIUS_BODY_LEN defrad) in
  header type totallen 0 ;;?
  tlv OPENLI_PROTO_FIELD_USERNAME defrad.(dr_name) defrad.(dr_namelen) ;;?
  push_return totallen.

(** [push_default_radius_onto_net_buffer] and [..._withdraw_...] *)
Definition push_default_radius_onto_net_buffer defrad : pusher :=
  push_default_radius_msg_onto_net_buffer defrad OPENLI_PROTO_ANNOUNCE_DEFAULT_RADIUS.
Definition push_default_radius_withdraw_onto_net_buffer defrad : pusher :=
  push_default_radius_msg_onto_net_buffer defrad OPENLI_PROTO_WITHDRAW_DEFAULT_RADIUS.

(** [push_default_email_compression_onto_net_buffer] *)
Definition push_default_email_compression_onto_net_buffer (defaultcompress : Z) : pusher :=
  let totallen := u16 (1 + 1 * 4) in
  header OPENLI_PROTO_ANNOUNCE_DEFAULT_EMAIL_COMPRESSION totallen 0 ;;?
  tlv OPENLI_PROTO_FIELD_DELIVER_COMPRESSED (mem 1 defaultcompress) 1 ;;?
  push_return totallen.

Definition CORESERVER_BODY_LEN (cs : coreserver_t) : outcome Z :=
  a ← strlen cs.(cs_ipstr);
  p ← (match cs.(cs_portstr) with
       | Some _ => n ← strlen cs.(cs_portstr); Ok (n + 3 * 4)
       | None => Ok (2 * 4)
       end);
  Ok (1 + a + p).

(** [push_coreserver_msg_onto_net_buffer] *)
Definition push_coreserver_msg_onto_net_buffer (cs : coreserver_t) (cstype : Z)
    (type : openli_proto_msgtype_t) : pusher := λ nb,
  len ← CORESERVER_BODY_LEN cs;
  let totallen := u16 len in
  if 65535 <? totallen then Ok (-1, nb) else
  (header type totallen 0 ;;?
   tlv OPENLI_PROTO_FIELD_CORESERVER_TYPE (mem 1 cstype) 1 ;;?
   push_str OPENLI_PROTO_FIELD_CORESERVER_IP cs.(cs_ipstr) ;;?
   match cs.(cs_portstr) with
   | Some _ => push_str OPENLI_PROTO_FIELD_CORESERVER_PORT cs.(cs_portstr) ;;?
               push_return totallen
   | None => push_return totallen
   end) nb.

(** [push_coreserver_onto_net_buffer] and [..._withdraw_...] *)
Definition push_coreserver_onto_net_buffer cs cstype : pusher :=
  push_coreserver_msg_onto_net_buffer cs cstype OPENLI_PROTO_ANNOUNCE_CORESERVER.
Definition push_coreserver_withdraw_onto_net_buffer cs cstype : pusher :=
  push_coreserver_msg_onto_net_buffer cs cstype OPENLI_PROTO_WITHDRAW_CORESERVER.

(** [push_nomore_intercepts] and [push_ssl_required] *)
Definition push_nomore_intercepts : pusher := header OPENLI_PROTO_NOMORE_INTERCEPTS 0 0.
Definition push_ssl_required : pusher := header OPENLI_PROTO_SSL_REQUIRED 0 0.

End push.
