(* ===== verification/NetDecode.v ===== *)
(** * Reading the protocol messages (the [decode_*] functions of
    src/src/netcomms.c)

    A decoder gets [mem], the readable memory from [msgbody] on (the message
    and whatever the receive buffer holds after it), and the 16-bit length
    [len] of the message.  Every read is checked against [mem]: a read past
    its end is [Undef].  The decoders write into an object of the caller,
    which is passed in and returned; members they never assign keep the value
    they had. *)

From S2P Require Import Prelude ByteOrder Protocol Intercept NetBuffer.

(** [decode_tlv]: [rem] is [end - start].  [None] is the return value -1. *)
Definition decode_tlv (mem : bytes) (rem : Z) : outcome (option (Z * Z * bytes)) :=
  t16 ← read_le 2 mem;
  if rem <=? 2 then Ok None else
  l16 ← read_le 2 (zdrop 2 mem);
  if rem <=? 4 then Ok None else
  if rem <? 4 + ntohs l16 then Ok None else
  Ok (Some (ntohs t16, ntohs l16, zdrop 4 mem)).

(** The body of a decoding loop for one field: its type, its length, the
    memory at its value and the object so far.  [None] is [return -1]. *)
Definition handler (S : Type) : Type := Z → Z → bytes → S → outcome (option S).

(** [while (msgbody < msgend) { ... msgbody += (vallen + 4); }] with
    [rem = msgend - msgbody]: the return code and the object. *)
Fixpoint decode_fields {S} (h : handler S) (fuel : nat) (mem : bytes) (rem : Z) (s : S)
    : outcome (Z * S) :=
  if rem <=? 0 then Ok (0, s)
  else match fuel with
  | O => Undef
  | S fuel =>
      d ← decode_tlv mem rem;
      match d with
      | None => Ok (-1, s)
      | Some (f, vallen, valptr) =>
          os ← h f vallen valptr s;
          match os with
          | None => Ok (-1, s)
          | Some s' => decode_fields h fuel (zdrop (vallen + 4) mem) (rem - (vallen + 4)) s'
          end
      end
  end.

(** Every field takes at least four bytes, so [len] rounds are enough. *)
Definition decode_message {S} (h : handler S) (mem : bytes) (len : Z) (s : S)
    : outcome (Z * S) :=
  decode_fields h (Z.to_nat len) mem len s.

(** [x = *((uintN_t * )valptr)] *)
Definition store {S} (n : nat) (set : Z → S → S) (valptr : bytes) (s : S)
    : outcome (option S) :=
  v ← read_le n valptr; Ok (Some (set v s)).

(** [DECODE_STRING_FIELD(x, valptr, vallen)] *)
Definition store_str {S} (set : cstring → S → S) (vallen : Z) (valptr : bytes) (s : S)
    : outcome (option S) :=
  v ← read_bytes vallen valptr; Ok (Some (set (Some v) s)).

(** [DECODE_STRING_FIELD] followed by the assignment of a length member. *)
Definition store_str_len {S} (set : cstring → S → S) (set_len : Z → S → S)
    (vallen : Z) (valptr : bytes) (s : S) : outcome (option S) :=
  v ← read_bytes vallen valptr; Ok (Some (set_len vallen (set (Some v) s))).

(** Assignments inside the [common] member. *)
Definition in_ip {A} (set : A → intercept_common_t → intercept_common_t) (a : A)
    (i : ipintercept_t) : ipintercept_t := set_ip_common (set a i.(ip_common)) i.
Definition in_vi {A} (set : A → intercept_common_t → intercept_common_t) (a : A)
    (v : voipintercept_t) : voipintercept_t := set_vi_common (set a v.(vi_common)) v.
Definition in_em {A} (set : A → intercept_common_t → intercept_common_t) (a : A)
    (em : emailintercept_t) : emailintercept_t := set_em_common (set a em.(em_common)) em.

(** The assignments to [common] at the start of the intercept decoders. *)
Definition common_init (c : intercept_common_t) : intercept_common_t :=
  {| ic_liid := None; ic_authcc := None; ic_delivcc := None;
     ic_liid_len := 0; ic_authcc_len := 0; ic_delivcc_len := 0;
     ic_destid := 0; ic_targetagency := None;
     ic_seqtrackerid := c.(ic_seqtrackerid); ic_hi1_seqno := c.(ic_hi1_seqno);
     ic_tostart_time := 0; ic_toend_time := 0;
     ic_tomediate := 0; ic_encrypt := 0; ic_encryptkey := None |}.

(** The fields of [common] that all three intercept decoders know; [None] when
    [f] is another field. *)
Definition common_field {S}
    (sub : ∀ A, (A → intercept_common_t → intercept_common_t) → A → S → S)
    (f vallen : Z) (valptr : bytes) (s : S) : option (outcome (option S)) :=
  if f =? OPENLI_PROTO_FIELD_MEDIATORID
  then Some (store 4 (sub _ set_ic_destid) valptr s)
  else if f =? OPENLI_PROTO_FIELD_LIID
  then Some (store_str_len (sub _ set_ic_liid) (sub _ set_ic_liid_len) vallen valptr s)
  else if f =? OPENLI_PROTO_FIELD_AUTHCC
  then Some (store_str_len (sub _ set_ic_authcc) (sub _ set_ic_authcc_len) vallen valptr s)
  else if f =? OPENLI_PROTO_FIELD_LEAID
  then Some (store_str (sub _ set_ic_targetagency) vallen valptr s)
  else if f =? OPENLI_PROTO_FIELD_DELIVCC
  then Some (store_str_len (sub _ set_ic_delivcc) (sub _ set_ic_delivcc_len) vallen valptr s)
  else if f =? OPENLI_PROTO_FIELD_INTERCEPT_START_TIME
  then Some (store 8 (sub _ set_ic_tostart_time) valptr s)
  else if f =? OPENLI_PROTO_FIELD_INTERCEPT_END_TIME
  then Some (store 8 (sub _ set_ic_toend_time) valptr s)
  else if f =? OPENLI_PROTO_FIELD_TOMEDIATE
  then Some (store 4 (sub _ set_ic_tomediate) valptr s)
  else if f =? OPENLI_PROTO_FIELD_PAYLOAD_ENCRYPTION
  then Some (store 4 (sub _ set_ic_encrypt) valptr s)
  else if f =? OPENLI_PROTO_FIELD_ENCRYPTION_KEY
  then Some (store_str (sub _ set_ic_encryptkey) vallen valptr s)
  else None.

(** [decode_emailintercept_start] *)
Definition emailintercept_field : handler emailintercept_t := λ f vallen valptr em,
  match common_field (@in_em) f vallen valptr em with
  | Some r => r
  | None =>
      if f =? OPENLI_PROTO_FIELD_DELIVER_COMPRESSED
      then store 1 set_em_delivercompressed valptr em
      else Ok None
  end.

Definition emailintercept_init (em : emailintercept_t) : emailintercept_t :=
  {| em_common := common_init em.(em_common); em_targets := [];
     em_awaitingconfirm := 0;
     em_delivercompressed := OPENLI_EMAILINT_DELIVER_COMPRESSED_DEFAULT |}.

Definition decode_emailintercept_start (mem : bytes) (len : Z) (em : emailintercept_t)
    : outcome (Z * emailintercept_t) :=
  decode_message emailintercept_field mem len (emailintercept_init em).
Definition decode_emailintercept_halt := decode_emailintercept_start.
Definition decode_emailintercept_modify := decode_emailintercept_start.

(** [decode_voipintercept_start] *)
Definition voipintercept_field : handler voipintercept_t := λ f vallen valptr v,
  match common_field (@in_vi) f vallen valptr v with
  | Some r => r
  | None =>
      if f =? OPENLI_PROTO_FIELD_INTOPTIONS then store 4 set_vi_options valptr v
      else if f =? OPENLI_PROTO_FIELD_INTERCEPTID then store 8 set_vi_internalid valptr v
      else Ok None
  end.

Definition voipintercept_init (v : voipintercept_t) : voipintercept_t :=
  {| vi_internalid := 0; vi_common := common_init v.(vi_common); vi_targets := [];
     vi_options := 0; vi_awaitingconfirm := 0; vi_active := 1 |}.

Definition decode_voipintercept_start (mem : bytes) (len : Z) (v : voipintercept_t)
    : outcome (Z * voipintercept_t) :=
  decode_message voipintercept_field mem len (voipintercept_init v).
Definition decode_voipintercept_halt := decode_voipintercept_start.
Definition decode_voipintercept_modify := decode_voipintercept_start.

(** [decode_ipintercept_start].  Receiving a LIID also resets the sequence
    tracker, and an empty username is stored as NULL. *)
Definition ipintercept_field : handler ipintercept_t := λ f vallen valptr i,
  if f =? OPENLI_PROTO_FIELD_LIID
  then v ← read_bytes vallen valptr;
       Ok (Some (in_ip set_ic_seqtrackerid 0
                  (in_ip set_ic_liid_len vallen (in_ip set_ic_liid (Some v) i))))
  else match common_field (@in_ip) f vallen valptr i with
  | Some r => r
  | None =>
      if f =? OPENLI_PROTO_FIELD_VENDMIRRORID then store 4 set_ip_vendmirrorid valptr i
      else if f =? OPENLI_PROTO_FIELD_ACCESSTYPE then store 4 set_ip_accesstype valptr i
      else if f =? OPENLI_PROTO_FIELD_INTOPTIONS then store 4 set_ip_options valptr i
      else if f =? OPENLI_PROTO_FIELD_USERNAME
      then v ← read_bytes vallen valptr;
           Ok (Some (set_ip_username_len vallen
                      (set_ip_username (if vallen =? 0 then None else Some v) i)))
      else Ok None
  end.

Definition ipintercept_init (i : ipintercept_t) : ipintercept_t :=
  {| ip_common := common_init i.(ip_common); ip_username := None; ip_username_len := 0;
     ip_accesstype := INTERNET_ACCESS_TYPE_UNDEFINED;
     ip_vendmirrorid := OPENLI_VENDOR_MIRROR_NONE; ip_statics := [];
     ip_awaitingconfirm := 0; ip_options := 0 |}.

Definition decode_ipintercept_start (mem : bytes) (len : Z) (i : ipintercept_t)
    : outcome (Z * ipintercept_t) :=
  decode_message ipintercept_field mem len (ipintercept_init i).
Definition decode_ipintercept_halt := decode_ipintercept_start.
Definition decode_ipintercept_modify := decode_ipintercept_start.

(** [decode_mediator_announcement] *)
Definition mediator_field : handler openli_mediator_t := λ f vallen valptr med,
  if f =? OPENLI_PROTO_FIELD_MEDIATORID then store 4 set_med_mediatorid valptr med
  else if f =? OPENLI_PROTO_FIELD_MEDIATORIP then store_str set_med_ipstr vallen valptr med
  else if f =? OPENLI_PROTO_FIELD_MEDIATORPORT then store_str set_med_portstr vallen valptr med
  else Ok None.

Definition decode_mediator_announcement (mem : bytes) (len : Z) (med : openli_mediator_t)
    : outcome (Z * openli_mediator_t) :=
  decode_message mediator_field mem len
    {| med_mediatorid := 0; med_ipstr := None; med_portstr := None |}.
Definition decode_mediator_withdraw := decode_mediator_announcement.

(** The LIID of a target message, copied by [strncpy] into the [spacelen]
    bytes the caller provides. *)
Definition store_liid {S} (set : cstring → S → S) (spacelen vallen : Z) (valptr : bytes)
    (s : S) : outcome (option S) :=
  if spacelen <=? vallen then Ok None
  else v ← read_bytes vallen valptr; Ok (Some (set (Some (until_nul v)) s)).

(** [decode_email_target_announcement]; the state is [*tgt] and the string in
    [liidspace]. *)
Definition email_target_field (spacelen : Z) : handler (email_target_t * cstring) :=
  λ f vallen valptr s,
  if f =? OPENLI_PROTO_FIELD_EMAIL_TARGET
  then store_str (λ v '(t, l), (set_et_address v t, l)) vallen valptr s
  else if f =? OPENLI_PROTO_FIELD_LIID
  then store_liid (λ v '(t, l), (t, v)) spacelen vallen valptr s
  else Ok None.

Definition decode_email_target_announcement (mem : bytes) (len : Z) (tgt : email_target_t)
    (liidspace : cstring) (spacelen : Z) : outcome (Z * (email_target_t * cstring)) :=
  '(rc, s) ← decode_message (email_target_field spacelen) mem len
               ({| et_address := None; et_awaitingconfirm := 0 |}, liidspace);
  if rc =? -1 then Ok (-1, s)
  else match s.1.(et_address) with None => Ok (-1, s) | Some _ => Ok (0, s) end.
Definition decode_email_target_withdraw := decode_email_target_announcement.

(** [decode_sip_target_announcement] *)
Definition sip_target_field (spacelen : Z) : handler (openli_sip_identity_t * cstring) :=
  λ f vallen valptr s,
  if f =? OPENLI_PROTO_FIELD_SIP_USER
  then v ← read_bytes vallen valptr;
       Ok (Some (set_si_username_len (zlen (until_nul v)) (set_si_username (Some v) s.1), s.2))
  else if f =? OPENLI_PROTO_FIELD_SIP_REALM
  then v ← read_bytes vallen valptr;
       Ok (Some (set_si_realm_len (zlen (until_nul v)) (set_si_realm (Some v) s.1), s.2))
  else if f =? OPENLI_PROTO_FIELD_LIID
  then store_liid (λ v '(t, l), (t, v)) spacelen vallen valptr s
  else Ok None.

Definition decode_sip_target_announcement (mem : bytes) (len : Z)
    (sipid : openli_sip_identity_t) (liidspace : cstring) (spacelen : Z)
    : outcome (Z * (openli_sip_identity_t * cstring)) :=
  '(rc, s) ← decode_message (sip_target_field spacelen) mem len
               ({| si_username := None; si_username_len := 0; si_realm := None;
                   si_realm_len := 0; si_awaitingconfirm := 0;
                   si_active := sipid.(si_active) |}, liidspace);
  if rc =? -1 then Ok (-1, s)
  else match s.1.(si_username) with None => Ok (-1, s) | Some _ => Ok (0, s) end.
Definition decode_sip_target_withdraw := decode_sip_target_announcement.

(** [decode_coreserver_announcement] *)
Definition coreserver_field : handler coreserver_t := λ f vallen valptr cs,
  if f =? OPENLI_PROTO_FIELD_CORESERVER_TYPE then store 1 set_cs_servertype valptr cs
  else if f =? OPENLI_PROTO_FIELD_CORESERVER_IP then store_str set_cs_ipstr vallen valptr cs
  else if f =? OPENLI_PROTO_FIELD_CORESERVER_PORT
  then store_str set_cs_portstr vallen valptr cs
  else Ok None.

Definition decode_coreserver_announcement (mem : bytes) (len : Z) (cs : coreserver_t)
    : outcome (Z * coreserver_t) :=
  '(rc, cs) ← decode_message coreserver_field mem len
      {| cs_serverkey := None; cs_servertype := OPENLI_CORE_SERVER_UNKNOWN;
         cs_ipstr := None; cs_portstr := None; cs_info := None;
         cs_portswapped := cs.(cs_portswapped); cs_awaitingconfirm := 0 |};
  if rc =? -1 then Ok (-1, cs)
  else
    let cs := construct_coreserver_key cs in
    match cs.(cs_serverkey) with None => Ok (-1, cs) | Some _ => Ok (0, cs) end.
Definition decode_coreserver_withdraw := decode_coreserver_announcement.

(** [decode_default_radius_announcement]; other fields are skipped. *)
Definition default_radius_field : handler default_radius_user_t := λ f vallen valptr d,
  if f =? OPENLI_PROTO_FIELD_USERNAME
  then v ← read_bytes vallen valptr;
       Ok (Some (set_dr_namelen (zlen (until_nul v)) (set_dr_name (Some v) d)))
  else Ok (Some d).

Definition decode_default_radius_announcement (mem : bytes) (len : Z)
    (d : default_radius_user_t) : outcome (Z * default_radius_user_t) :=
  '(rc, d) ← decode_message default_radius_field mem len
      {| dr_name := None; dr_namelen := 0; dr_awaitingconfirm := 0 |};
  if rc =? -1 then Ok (-1, d)
  else match d.(dr_name) with None => Ok (-1, d) | Some _ => Ok (0, d) end.
Definition decode_default_radius_withdraw := decode_default_radius_announcement.

(** [decode_staticip_announcement] *)
Definition staticip_field : handler static_ipranges_t := λ f vallen valptr r,
  if f =? OPENLI_PROTO_FIELD_LIID then store_str set_sr_liid vallen valptr r
  else if f =? OPENLI_PROTO_FIELD_STATICIP_RANGE
  then store_str set_sr_rangestr vallen valptr r
  else if f =? OPENLI_PROTO_FIELD_CIN then store 4 set_sr_cin valptr r
  else Ok None.

Definition decode_staticip_announcement (mem : bytes) (len : Z) (r : static_ipranges_t)
    : outcome (Z * static_ipranges_t) :=
  decode_message staticip_field mem len
    {| sr_rangestr := None; sr_liid := None; sr_cin := 1; sr_awaitingconfirm := 0 |}.
Definition decode_staticip_removal := decode_staticip_announcement.
Definition decode_staticip_modify := decode_staticip_announcement.

(** [decode_hi1_notification] *)
Definition hi1_field : handler hi1_notify_data_t := λ f vallen valptr nd,
  if f =? OPENLI_PROTO_FIELD_LEAID then store_str set_nd_agencyid vallen valptr nd
  else if f =? OPENLI_PROTO_FIELD_LIID then store_str set_nd_liid vallen valptr nd
  else if f =? OPENLI_PROTO_FIELD_AUTHCC then store_str set_nd_authcc vallen valptr nd
  else if f =? OPENLI_PROTO_FIELD_DELIVCC then store_str set_nd_delivcc vallen valptr nd
  else if f =? OPENLI_PROTO_FIELD_USERNAME then store_str set_nd_target_info vallen valptr nd
  else if f =? OPENLI_PROTO_FIELD_HI1_NOTIFY_TYPE then store 4 set_nd_notify_type valptr nd
  else if f =? OPENLI_PROTO_FIELD_SEQNO then store 4 set_nd_seqno valptr nd
  else if f =? OPENLI_PROTO_FIELD_TS_SEC then store 8 set_nd_ts_sec valptr nd
  else if f =? OPENLI_PROTO_FIELD_TS_USEC then store 4 set_nd_ts_usec valptr nd
  else Ok None.

Definition hi1_init : hi1_notify_data_t :=
  {| nd_notify_type := 0; nd_liid := None; nd_authcc := None; nd_delivcc := None;
     nd_agencyid := None; nd_seqno := 0; nd_ts_sec := 0; nd_ts_usec := 0;
     nd_target_info := None |}.

Definition decode_hi1_notification (mem : bytes) (len : Z) (nd : hi1_notify_data_t)
    : outcome (Z * hi1_notify_data_t) :=
  decode_message hi1_field mem len hi1_init.

(** [decode_lea_announcement] *)
Definition lea_field : handler liagency_t := λ f vallen valptr lea,
  if f =? OPENLI_PROTO_FIELD_LEAID then store_str set_lea_agencyid vallen valptr lea
  else if f =? OPENLI_PROTO_FIELD_HI2IP then store_str set_lea_hi2_ipstr vallen valptr lea
  else if f =? OPENLI_PROTO_FIELD_HI2PORT then store_str set_lea_hi2_portstr vallen valptr lea
  else if f =? OPENLI_PROTO_FIELD_HI3IP then store_str set_lea_hi3_ipstr vallen valptr lea
  else if f =? OPENLI_PROTO_FIELD_HI3PORT then store_str set_lea_hi3_portstr vallen valptr lea
  else if f =? OPENLI_PROTO_FIELD_KAFREQ then store 4 set_lea_keepalivefreq valptr lea
  else if f =? OPENLI_PROTO_FIELD_KAWAIT then store 4 set_lea_keepalivewait valptr lea
  else Ok None.

Definition decode_lea_announcement (mem : bytes) (len : Z) (lea : liagency_t)
    : outcome (Z * liagency_t) :=
  decode_message lea_field mem len
    {| lea_hi2_ipstr := None; lea_hi2_portstr := None; lea_hi3_ipstr := None;
       lea_hi3_portstr := None; lea_agencyid := None;
       lea_keepalivefreq := 300; lea_keepalivewait := 0 |}.
Definition decode_lea_withdrawal := decode_lea_announcement.

(** [decode_default_email_compression_announcement] *)
Definition email_compression_field : handler Z := λ f vallen valptr r,
  if f =? OPENLI_PROTO_FIELD_DELIVER_COMPRESSED then store 1 (λ v _, v) valptr r
  else Ok (Some r).

Definition decode_default_email_compression_announcement (mem : bytes) (len : Z) (result : Z)
    : outcome (Z * Z) :=
  decode_message email_compression_field mem len result.

(** [decode_liid_mapping]; the state is [( *agency, *liid)]. *)
Definition liid_mapping_field : handler (cstring * cstring) := λ f vallen valptr s,
  if f =? OPENLI_PROTO_FIELD_LIID
  then store_str (λ v '(a, l), (a, v)) vallen valptr s
  else if f =? OPENLI_PROTO_FIELD_LEAID
  then store_str (λ v '(a, l), (v, l)) vallen valptr s
  else Ok None.

Definition decode_liid_mapping (mem : bytes) (len : Z) (agency liid : cstring)
    : outcome (Z * (cstring * cstring)) :=
  decode_message liid_mapping_field mem len (agency, liid).

(** [decode_cease_mediation] *)
Definition cease_mediation_field : handler cstring := λ f vallen valptr s,
  if f =? OPENLI_PROTO_FIELD_LIID then store_str (λ v _, v) vallen valptr s
  else Ok None.

Definition decode_cease_mediation (mem : bytes) (len : Z) (liid : cstring)
    : outcome (Z * cstring) :=
  decode_message cease_mediation_field mem len liid.
