(* ===== verification/NetFormat.v ===== *)
(** * The wire format and the interface between writers and readers

    A message is a header followed by type-length-value fields.  This file
    gives the two generic halves of every round trip: what a sequence of
    pushes appends, and what the decoding loop computes on an encoded list of
    fields.  [wire_format] is the interface the rest of the system relies on:
    a push function, a decoder, and the laws that connect them. *)

From S2P Require Import Prelude ByteOrder Protocol Intercept NetBuffer NetPush NetDecode.

(** ** Encoded fields and frames *)

Definition wire_body (fs : list (Z * bytes)) : bytes :=
  concat ((λ f, wire_tlv f.1 f.2) <$> fs).

Definition wire_frame (t intid : Z) (body : bytes) : bytes :=
  wire_header t (zlen body) intid ++ body.

Lemma wire_body_cons t v fs : wire_body ((t, v) :: fs) = wire_tlv t v ++ wire_body fs.
Proof. done. Qed.
Lemma wire_body_app fs gs : wire_body (fs ++ gs) = wire_body fs ++ wire_body gs.
Proof. unfold wire_body. by rewrite fmap_app, concat_app. Qed.

Fixpoint fields_len (fs : list (Z * bytes)) : Z :=
  match fs with [] => 0 | f :: fs => zlen f.2 + 4 + fields_len fs end.

Lemma zlen_wire_body fs : zlen (wire_body fs) = fields_len fs.
Proof.
  induction fs as [|[t v] fs IH]; [done|].
  rewrite wire_body_cons, zlen_app, zlen_wire_tlv, IH. simpl. lia.
Qed.
#[export] Hint Rewrite zlen_wire_body : zlen.

Lemma fields_len_app fs gs : fields_len (fs ++ gs) = fields_len fs + fields_len gs.
Proof. induction fs; simpl; lia. Qed.

Lemma fields_len_nonneg fs : 0 ≤ fields_len fs.
Proof. rewrite <- zlen_wire_body. apply zlen_nonneg. Qed.

(** ** The decoding loop on encoded fields *)

(** On the value [v] of a field of type [t] the handler updates the object
    with [g], whatever follows the value in memory. *)
Definition acts {S} (h : handler S) (t : Z) (v : bytes) (g : S → S) : Prop :=
  ∀ rest s, h t (zlen v) (v ++ rest) s = Ok (Some (g s)).

(** A list of fields the handler understands.  [decode_tlv] rejects a value
    that starts at the end of the message, so the last one is not empty. *)
Fixpoint understood {S} (h : handler S) (fs : list (Z * bytes)) (gs : list (S → S)) : Prop :=
  match fs, gs with
  | [], [] => True
  | (t, v) :: fs, g :: gs =>
      0 ≤ t < 65536 ∧ zlen v < 65536 ∧ acts h t v g ∧ (fs = [] → v ≠ []) ∧ understood h fs gs
  | _, _ => False
  end.

Lemma decode_tlv_wire t v rest rem :
  0 ≤ t < 65536 → zlen v < 65536 → 0 < zlen v + rem → 0 ≤ rem →
  decode_tlv (wire_tlv t v ++ rest) (zlen v + 4 + rem) = Ok (Some (t, zlen v, v ++ rest)).
Proof.
  intros Ht Hv Hpos Hrem. unfold decode_tlv, wire_tlv. rewrite <- !app_assoc.
  destruct (read_swapped 2 ntohs t (be_bytes 2 (zlen v) ++ v ++ rest) htons_reverses)
    as (w & -> & Hw); [simpl; lia|]. run_outcome.
  rewrite (proj2 (Z.leb_gt _ _)) by zlia.
  rewrite (zdrop_app 2) by zlia.
  destruct (read_swapped 2 ntohs (zlen v) (v ++ rest) htons_reverses)
    as (w' & -> & Hw'); [simpl; zlia|]. run_outcome.
  rewrite (proj2 (Z.leb_gt _ _)) by zlia.
  rewrite Hw, Hw', (proj2 (Z.ltb_ge _ _)) by zlia.
  rewrite app_assoc, zdrop_app by zlia. done.
Qed.

Lemma decode_fields_wire {S} (h : handler S) fs gs fuel tail s :
  understood h fs gs → (length fs ≤ fuel)%nat →
  decode_fields h fuel (wire_body fs ++ tail) (fields_len fs) s
  = Ok (0, foldl (λ s g, g s) s gs).
Proof.
  revert gs fuel s. induction fs as [|[t v] fs IH]; intros [|g gs] fuel s Hu Hf; try done.
  { by destruct fuel. }
  destruct Hu as (Ht & Hv & Ha & Hlast & Hu). destruct fuel as [|fuel]; [simpl in Hf; lia|].
  pose proof (fields_len_nonneg fs).
  assert (0 < zlen v + fields_len fs).
  { destruct fs as [|[t' v'] fs].
    - destruct v; [by destruct Hlast|]. zlia.
    - pose proof (fields_len_nonneg fs). simpl in *. zlia. }
  cbn [decode_fields fields_len snd]. rewrite (proj2 (Z.leb_gt _ _)) by zlia.
  rewrite wire_body_cons, <- app_assoc, decode_tlv_wire by done. run_outcome.
  rewrite Ha. run_outcome.
  rewrite zdrop_app by zlia.
  replace (zlen v + 4 + fields_len fs - (zlen v + 4)) with (fields_len fs) by lia.
  rewrite (IH gs fuel (g s)); [done|done|]. simpl in Hf. lia.
Qed.

Lemma fields_len_length fs : Z.of_nat (length fs) ≤ fields_len fs.
Proof. induction fs as [|f fs IH]; simpl; [lia|]. zlia. Qed.

Lemma decode_message_wire {S} (h : handler S) fs gs tail s :
  understood h fs gs →
  decode_message h (wire_body fs ++ tail) (zlen (wire_body fs)) s
  = Ok (0, foldl (λ s g, g s) s gs).
Proof.
  intros Hu. unfold decode_message. rewrite zlen_wire_body.
  apply decode_fields_wire; [done|]. pose proof (fields_len_length fs). lia.
Qed.

(** ** Objects that can be sent *)

(** A string member that fits a field. *)
Definition good_str (s : cstring) : Prop :=
  ∃ v, s = Some v ∧ cstr_ok v ∧ zlen v ≤ 4092.
Definition str_val (s : cstring) : bytes := default [] s.
Definition str_len (s : cstring) : Z := zlen (str_val s).

Lemma good_str_strlen s : good_str s → strlen s = Ok (str_len s).
Proof. intros (v & -> & Hv & _). by apply strlen_ok. Qed.
Lemma good_str_len s : good_str s → 0 ≤ str_len s ≤ 4092.
Proof. intros (v & -> & _ & Hl). unfold str_len. simpl. zlia. Qed.
Lemma good_str_some s : good_str s → s = Some (str_val s).
Proof. by intros (v & -> & _). Qed.
Lemma good_str_read s : good_str s → str_read (str_len s) s = Ok (str_val s).
Proof. intros (v & -> & _). apply str_read_ok. Qed.
Lemma good_str_until s : good_str s → until_nul (str_val s) = str_val s.
Proof. intros (v & -> & Hv & _). by apply until_nul_ok. Qed.

Lemma str_len_nonneg s : 0 ≤ str_len s.
Proof. apply zlen_nonneg. Qed.

Section appends.
Context (realloc_ok : Z → bool).
Local Abbreviation appends := (appends realloc_ok).

Lemma appends_str f s :
  good_str s → appends (push_str realloc_ok f s) (wire_tlv f (str_val s)) (str_len s + 4).
Proof.
  intros Hs nb Hwf. unfold push_str. rewrite (good_str_strlen s Hs). run_outcome.
  revert nb Hwf. apply appends_tlv; [apply field_code_range|done| |by apply good_str_read].
  by apply good_str_len.
Qed.

Lemma appends_str_len (f : openli_proto_fieldtype_t) s n :
  good_str s → n = str_len s →
  appends (push_tlv realloc_ok f s n) (wire_tlv f (str_val s)) (str_len s + 4).
Proof.
  intros Hs ->. apply appends_tlv; [apply field_code_range|done| |by apply good_str_read].
  by apply good_str_len.
Qed.

Lemma appends_mem (f : openli_proto_fieldtype_t) n v :
  Z.of_nat n ≤ 4092 →
  appends (push_tlv realloc_ok f (mem n v) (Z.of_nat n)) (wire_tlv f (le_bytes n v)) (Z.of_nat n + 4).
Proof.
  intros Hn. replace (Z.of_nat n + 4) with (zlen (le_bytes n v) + 4) by zlia.
  apply appends_tlv; [apply field_code_range|zlia|zlia|].
  unfold mem. simpl. apply read_bytes_app. zlia.
Qed.

(** A push function is a prologue that computes a length, then the writing. *)
Lemma appends_bind {A} (x : outcome A) (a : A) (k : A → pusher) bs r :
  x = Ok a → appends (k a) bs r → appends (λ nb, y ← x; k y nb) bs r.
Proof. intros -> H. exact H. Qed.

Lemma appends_guard (b : bool) (m : pusher) bs r :
  b = false → appends m bs r → appends (λ nb, if b then Ok (-1, nb) else m nb) bs r.
Proof. intros -> H. exact H. Qed.

Lemma appends_decide (P : Prop) `{!Decision P} (m : pusher) bs r :
  ¬ P → appends m bs r → appends (λ nb, if decide P then Ok (-1, nb) else m nb) bs r.
Proof. intros HP H nb. rewrite decide_False by done. apply H. Qed.

Lemma appends_eq m bs bs' r r' : appends m bs r → bs = bs' → r = r' → appends m bs' r'.
Proof. by intros ? -> ->. Qed.

Lemma appends_field m k t v fs r1 r :
  r1 ≠ -1 → appends m (wire_tlv t v) r1 → appends k (wire_body fs) r →
  appends (push_then m k) (wire_body ((t, v) :: fs)) r.
Proof. intros. rewrite wire_body_cons. by eapply appends_then. Qed.

Lemma appends_fields_app m k fs gs r1 r :
  r1 ≠ -1 → appends m (wire_body fs) r1 → appends k (wire_body gs) r →
  appends (push_then m k) (wire_body (fs ++ gs)) r.
Proof. intros. rewrite wire_body_app. by eapply appends_then. Qed.

Lemma appends_frame m (t : openli_proto_msgtype_t) l body r :
  0 ≤ msgtype_code t → l = zlen body → zlen body < 65536 →
  appends m body r →
  appends (push_then (push_header realloc_ok t l 0) m) (wire_frame t 0 body) r.
Proof.
  intros Ht -> Hl Hm. eapply appends_then; [|apply appends_header|done]; try done.
  - destruct t; simpl in *; lia.
  - zlia.
Qed.

End appends.

(** ** The interface *)

(** A kind of message: how it is pushed, how its body is decoded, which
    objects can be sent, the fields they are sent as, and what the receiver
    has of them.  [noret] is the indeterminate value of NetPush. *)
Record wire_format (A B : Type) : Type := Mkwire_format {
  wm_type : Z;
  wm_push : (Z → bool) → Z → A → pusher;
  wm_decode : bytes → Z → B → outcome (Z * B);
  wm_ok : A → Prop;
  wm_fields : A → list (Z * bytes);
  wm_view : A → B → B;
  wm_type_law : 2 ≤ wm_type < 65536;
  wm_body_law : ∀ a, wm_ok a → zlen (wire_body (wm_fields a)) < 65536;
  wm_push_law : ∀ realloc_ok noret a, noret ≠ -1 → wm_ok a →
    ∃ r, r ≠ -1 ∧
      appends realloc_ok (wm_push realloc_ok noret a)
        (wire_frame wm_type 0 (wire_body (wm_fields a))) r;
  wm_decode_law : ∀ a b tail, wm_ok a →
    wm_decode (wire_body (wm_fields a) ++ tail) (zlen (wire_body (wm_fields a))) b
    = Ok (0, wm_view a b);
}.
Arguments wm_type {A B} _.
Arguments wm_push {A B} _.
Arguments wm_decode {A B} _.
Arguments wm_ok {A B} _.
Arguments wm_fields {A B} _.
Arguments wm_view {A B} _.
Arguments wm_type_law {A B} _.
Arguments wm_body_law {A B} _.
Arguments wm_push_law {A B} _.
Arguments wm_decode_law {A B} _.
