(* ===== verification/NetMessages.v ===== *)
(** * Every protocol message implements the wire format

    For each pair of a [push_*] and a [decode_*] function: the fields of the
    message, the objects that can be sent, and the proof that the pair
    implements [wire_format].  [wm_view a b] is the object the receiver ends
    up with when it decodes the message of [a] into [b]. *)

From S2P Require Import Prelude ByteOrder Protocol Intercept NetBuffer NetPush NetDecode NetFormat.

(** ** Automation *)

Create HintDb wire discriminated.
#[export] Hint Resolve good_str_len str_len_nonneg field_code_range : wire.

(** Record the length of every string that is known to be good. *)
Ltac pose_lens :=
  repeat match goal with
  | H : good_str ?s |- _ =>
      lazymatch goal with
      | _ : 0 ≤ str_len s ≤ 4092 |- _ => fail
      | _ => pose proof (good_str_len s H)
      end
  end.

(** Arithmetic on field lengths; [str_val] lengths are [str_len]s. *)
Ltac len_lia :=
  pose_lens; autorewrite with zlen in *; cbn [fields_len snd fst] in *; autorewrite with zlen in *;
  repeat match goal with
  | |- context [zlen (str_val ?s)] => change (zlen (str_val s)) with (str_len s) in *
  | _ : context [zlen (str_val ?s)] |- _ => change (zlen (str_val s)) with (str_len s) in *
  end;
  lia.

(** Step through the pushes of a message body. *)
Ltac push_one :=
  lazymatch goal with
  | |- appends _ (push_str _ _ _) _ _ => apply appends_str; assumption
  | |- appends _ (push_tlv _ _ (mem ?n _) _) _ _ => apply (appends_mem _ _ n); simpl; lia
  | |- appends _ (push_tlv _ _ _ _) _ _ => apply appends_str_len; [assumption|len_lia]
  end.
Ltac push_body :=
  repeat (lazymatch goal with |- appends _ (push_then _ _) _ _ => idtac end;
          eapply appends_field; [|push_one|]; [simpl; len_lia|]);
  try apply appends_return.

Lemma store_liid_acts {S} (set : cstring → S → S) spacelen s rest (x : S) :
  good_str s → str_len s < spacelen →
  store_liid set spacelen (zlen (str_val s)) (str_val s ++ rest) x = Ok (Some (set s x)).
Proof.
  intros Hs Hl. unfold store_liid. rewrite (proj2 (Z.leb_gt _ _)) by done.
  rewrite read_bytes_app by done. run_outcome.
  by rewrite good_str_until, <- good_str_some by done.
Qed.

(** A handler on one field: select the branch, then run it. *)
Ltac head_of t := lazymatch t with ?f _ => head_of f | ?f => f end.
Ltac solve_acts :=
  lazymatch goal with
  | |- acts ?h _ _ _ => let h := head_of h in intros ? ?;
      lazy beta iota delta [h common_field field_code Z.eqb Pos.eqb]
  end;
  cbv [store store_str store_str_len];
  first [ rewrite store_liid_acts by assumption
        | rewrite read_bytes_app by done | rewrite read_le_bytes by (simpl; lia) ];
  run_outcome; reflexivity.
Ltac understand :=
  cbn [understood app]; split_and!;
  lazymatch goal with
  | |- acts _ _ _ _ => solve_acts
  | |- _ = [] → _ => done
  | |- zlen _ < _ => len_lia
  | |- _ => first [done | apply field_code_range]
  end.

(** Put the strings of a sent object back together. *)
Ltac rebuild :=
  repeat match goal with
  | H : good_str ?s |- _ => rewrite <- (good_str_some s H); clear H
  end; reflexivity.

(** The law of a push function: run the prologue, then the pushes. *)
Ltac strlens :=
  repeat match goal with
  | H : good_str ?s |- context [strlen ?s] => rewrite (good_str_strlen s H)
  end; run_outcome.
Ltac in_range := rewrite ?u16_id, ?u64_id, ?i32_id by len_lia.
Ltac push_prologue :=
  try (apply appends_decide; [intros [? ?]; tauto|]);
  try (eapply appends_bind; [strlens; reflexivity|]);
  in_range; try (apply appends_guard; [apply Z.ltb_ge; len_lia|]).
Ltac push_law :=
  eexists; split;
  [|push_prologue; apply appends_frame; [done|len_lia|len_lia|push_body]];
  len_lia.

(** The law of a decoder, given the updates its fields make. *)
Ltac decode_law gs := rewrite (decode_message_wire _ _ gs) by understand.

(** ** Agencies *)

Record lea_ok (lea : liagency_t) : Prop := {
  lea_ok_id : good_str lea.(lea_agencyid);
  lea_ok_hi2ip : good_str lea.(lea_hi2_ipstr);
  lea_ok_hi2port : good_str lea.(lea_hi2_portstr);
  lea_ok_hi3ip : good_str lea.(lea_hi3_ipstr);
  lea_ok_hi3port : good_str lea.(lea_hi3_portstr);
  lea_ok_freq : 0 ≤ lea.(lea_keepalivefreq) < 2 ^ 32;
  lea_ok_wait : 0 ≤ lea.(lea_keepalivewait) < 2 ^ 32;
}.

Definition lea_fields (lea : liagency_t) : list (Z * bytes) :=
  [(field_code OPENLI_PROTO_FIELD_LEAID, str_val lea.(lea_agencyid));
   (field_code OPENLI_PROTO_FIELD_HI2IP, str_val lea.(lea_hi2_ipstr));
   (field_code OPENLI_PROTO_FIELD_HI2PORT, str_val lea.(lea_hi2_portstr));
   (field_code OPENLI_PROTO_FIELD_HI3IP, str_val lea.(lea_hi3_ipstr));
   (field_code OPENLI_PROTO_FIELD_HI3PORT, str_val lea.(lea_hi3_portstr));
   (field_code OPENLI_PROTO_FIELD_KAFREQ, le_bytes 4 lea.(lea_keepalivefreq));
   (field_code OPENLI_PROTO_FIELD_KAWAIT, le_bytes 4 lea.(lea_keepalivewait))].

Program Definition lea_format : wire_format liagency_t liagency_t := {|
  wm_type := OPENLI_PROTO_ANNOUNCE_LEA;
  wm_push ra _ lea := push_lea_onto_net_buffer ra lea;
  wm_decode := decode_lea_announcement;
  wm_ok := lea_ok;
  wm_fields := lea_fields;
  wm_view lea _ := lea;
|}.
Next Obligation. done. Qed.
Next Obligation. intros lea []. unfold lea_fields. len_lia. Qed.
Next Obligation.
  intros ra noret lea _ []. unfold push_lea_onto_net_buffer, LEA_BODY_LEN, lea_fields. push_law.
Qed.
Next Obligation.
  intros lea b tail []. unfold decode_lea_announcement, lea_fields.
  decode_law constr:([set_lea_agencyid (Some (str_val lea.(lea_agencyid)));
    set_lea_hi2_ipstr (Some (str_val lea.(lea_hi2_ipstr)));
    set_lea_hi2_portstr (Some (str_val lea.(lea_hi2_portstr)));
    set_lea_hi3_ipstr (Some (str_val lea.(lea_hi3_ipstr)));
    set_lea_hi3_portstr (Some (str_val lea.(lea_hi3_portstr)));
    set_lea_keepalivefreq lea.(lea_keepalivefreq);
    set_lea_keepalivewait lea.(lea_keepalivewait)]).
  destruct lea; simpl in *. rebuild.
Qed.

Program Definition lea_withdraw_format : wire_format liagency_t liagency_t := {|
  wm_type := OPENLI_PROTO_WITHDRAW_LEA;
  wm_push ra _ lea := push_lea_withdrawal_onto_net_buffer ra lea;
  wm_decode := decode_lea_withdrawal;
  wm_ok lea := good_str lea.(lea_agencyid) ∧ str_val lea.(lea_agencyid) ≠ [];
  wm_fields lea := [(field_code OPENLI_PROTO_FIELD_LEAID, str_val lea.(lea_agencyid))];
  wm_view lea _ := {| lea_hi2_ipstr := None; lea_hi2_portstr := None; lea_hi3_ipstr := None;
    lea_hi3_portstr := None; lea_agencyid := lea.(lea_agencyid);
    lea_keepalivefreq := 300; lea_keepalivewait := 0 |};
|}.
Next Obligation. done. Qed.
Next Obligation. intros lea [? _]. len_lia. Qed.
Next Obligation.
  intros ra noret lea _ [? _].
  unfold push_lea_withdrawal_onto_net_buffer, LEA_WITHDRAW_BODY_LEN. push_law.
Qed.
Next Obligation.
  intros lea b tail [? ?]. unfold decode_lea_withdrawal, decode_lea_announcement.
  decode_law constr:([set_lea_agencyid (Some (str_val lea.(lea_agencyid)))]).
  simpl. rebuild.
Qed.

(** ** LIID mappings *)

Program Definition liid_mapping_format : wire_format (cstring * cstring) (cstring * cstring) := {|
  wm_type := OPENLI_PROTO_MEDIATE_INTERCEPT;
  wm_push ra _ '(agency, liid) := push_liid_mapping_onto_net_buffer ra agency liid;
  wm_decode mem len '(agency, liid) := decode_liid_mapping mem len agency liid;
  wm_ok '(agency, liid) := good_str agency ∧ good_str liid ∧ str_val liid ≠ [];
  wm_fields '(agency, liid) :=
    [(field_code OPENLI_PROTO_FIELD_LEAID, str_val agency);
     (field_code OPENLI_PROTO_FIELD_LIID, str_val liid)];
  wm_view a _ := a;
|}.
Next Obligation. done. Qed.
Next Obligation. intros [agency liid] (?&?&_). len_lia. Qed.
Next Obligation.
  intros ra noret [agency liid] _ (?&?&_).
  unfold push_liid_mapping_onto_net_buffer, LIIDMAP_BODY_LEN. push_law.
Qed.
Next Obligation.
  intros [agency liid] [a l] tail (?&?&?). unfold decode_liid_mapping.
  decode_law constr:([(λ '(a, l), (Some (str_val agency), l));
                      (λ '(a, l), (a, Some (str_val liid)))]
                      : list (cstring * cstring → cstring * cstring)).
  simpl. rebuild.
Qed.

Program Definition cease_mediation_format : wire_format cstring cstring := {|
  wm_type := OPENLI_PROTO_CEASE_MEDIATION;
  wm_push ra _ liid := push_cease_mediation_onto_net_buffer ra liid (str_len liid);
  wm_decode := decode_cease_mediation;
  wm_ok liid := good_str liid ∧ str_val liid ≠ [];
  wm_fields liid := [(field_code OPENLI_PROTO_FIELD_LIID, str_val liid)];
  wm_view a _ := a;
|}.
Next Obligation. done. Qed.
Next Obligation. intros liid [? _]. len_lia. Qed.
Next Obligation.
  intros ra noret liid _ [? _]. unfold push_cease_mediation_onto_net_buffer. push_law.
Qed.
Next Obligation.
  intros liid b tail [? ?]. unfold decode_cease_mediation.
  decode_law constr:([(λ _, Some (str_val liid))] : list (cstring → cstring)).
  simpl. rebuild.
Qed.

(** ** The common part of an intercept *)

Record common_ok (c : intercept_common_t) : Prop := {
  ic_ok_liid : good_str c.(ic_liid);
  ic_ok_authcc : good_str c.(ic_authcc);
  ic_ok_delivcc : good_str c.(ic_delivcc);
  ic_ok_agency : good_str c.(ic_targetagency);
  ic_ok_liid_len : c.(ic_liid_len) = str_len c.(ic_liid);
  ic_ok_authcc_len : c.(ic_authcc_len) = str_len c.(ic_authcc);
  ic_ok_delivcc_len : c.(ic_delivcc_len) = str_len c.(ic_delivcc);
  ic_ok_destid : 0 ≤ c.(ic_destid) < 2 ^ 32;
  ic_ok_start : 0 ≤ c.(ic_tostart_time) < 2 ^ 64;
  ic_ok_end : 0 ≤ c.(ic_toend_time) < 2 ^ 64;
  ic_ok_tomediate : 0 ≤ c.(ic_tomediate) < 2 ^ 32;
  ic_ok_encrypt : 0 ≤ c.(ic_encrypt) < 2 ^ 32;
  ic_ok_key : c.(ic_encryptkey) = None ∨ good_str c.(ic_encryptkey);
}.

Definition key_fields (c : intercept_common_t) : list (Z * bytes) :=
  match c.(ic_encryptkey) with
  | Some _ => [(field_code OPENLI_PROTO_FIELD_ENCRYPTION_KEY, str_val c.(ic_encryptkey))]
  | None => []
  end.

Definition common_fields (c : intercept_common_t) : list (Z * bytes) :=
  [(field_code OPENLI_PROTO_FIELD_LIID, str_val c.(ic_liid));
   (field_code OPENLI_PROTO_FIELD_AUTHCC, str_val c.(ic_authcc));
   (field_code OPENLI_PROTO_FIELD_DELIVCC, str_val c.(ic_delivcc));
   (field_code OPENLI_PROTO_FIELD_LEAID, str_val c.(ic_targetagency));
   (field_code OPENLI_PROTO_FIELD_INTERCEPT_START_TIME, le_bytes 8 c.(ic_tostart_time));
   (field_code OPENLI_PROTO_FIELD_INTERCEPT_END_TIME, le_bytes 8 c.(ic_toend_time));
   (field_code OPENLI_PROTO_FIELD_MEDIATORID, le_bytes 4 c.(ic_destid));
   (field_code OPENLI_PROTO_FIELD_TOMEDIATE, le_bytes 4 c.(ic_tomediate));
   (field_code OPENLI_PROTO_FIELD_PAYLOAD_ENCRYPTION, le_bytes 4 c.(ic_encrypt))]
  ++ key_fields c.

(** The length macro is the length of what is pushed. *)
Lemma common_len c :
  common_ok c →
  INTERCEPT_COMMON_LEN c = Ok (fields_len (common_fields c)) ∧
  0 ≤ fields_len (common_fields c) ≤ 5 * 4092 + 68.
Proof.
  intros []. unfold INTERCEPT_COMMON_LEN, common_fields, key_fields.
  destruct (ic_encryptkey c) as [k|] eqn:E.
  - assert (good_str (Some k)) as Hk by by destruct ic_ok_key0.
    strlens. cbn [app fields_len snd].
    split; [apply f_equal; len_lia|len_lia].
  - strlens. cbn [app fields_len snd]. split; [apply f_equal; len_lia|len_lia].
Qed.

Lemma appends_common ra noret c :
  noret ≠ -1 → common_ok c →
  appends ra (push_intercept_common_fields ra noret c) (wire_body (common_fields c)) noret.
Proof.
  intros Hn []. unfold push_intercept_common_fields, common_fields, key_fields.
  destruct (ic_encryptkey c) as [k|] eqn:E; cbn [app].
  - assert (good_str (Some k)) as Hk by by destruct ic_ok_key0. push_body.
  - push_body.
Qed.

(** What the receiver has of the common part: everything but the two members
    that are not sent. *)
Definition common_view (c b : intercept_common_t) : intercept_common_t :=
  set_ic_seqtrackerid b.(ic_seqtrackerid) (set_ic_hi1_seqno b.(ic_hi1_seqno) c).

Section common_updates.
Context {S : Type} (sub : ∀ A, (A → intercept_common_t → intercept_common_t) → A → S → S).

Definition key_updates (c : intercept_common_t) : list (S → S) :=
  match c.(ic_encryptkey) with
  | Some _ => [sub _ set_ic_encryptkey (Some (str_val c.(ic_encryptkey)))]
  | None => []
  end.

(** The updates of the common fields after the LIID. *)
Definition common_updates (c : intercept_common_t) : list (S → S) :=
  [(λ s, sub _ set_ic_authcc_len (str_len c.(ic_authcc))
          (sub _ set_ic_authcc (Some (str_val c.(ic_authcc))) s));
   (λ s, sub _ set_ic_delivcc_len (str_len c.(ic_delivcc))
          (sub _ set_ic_delivcc (Some (str_val c.(ic_delivcc))) s));
   sub _ set_ic_targetagency (Some (str_val c.(ic_targetagency)));
   sub _ set_ic_tostart_time c.(ic_tostart_time);
   sub _ set_ic_toend_time c.(ic_toend_time);
   sub _ set_ic_destid c.(ic_destid);
   sub _ set_ic_tomediate c.(ic_tomediate);
   sub _ set_ic_encrypt c.(ic_encrypt)]
  ++ key_updates c.

Definition liid_update (c : intercept_common_t) : S → S := λ s,
  sub _ set_ic_liid_len (str_len c.(ic_liid))
    (sub _ set_ic_liid (Some (str_val c.(ic_liid))) s).
End common_updates.

(** ** Email intercepts *)

Record email_ok (em : emailintercept_t) : Prop := {
  em_ok_common : common_ok em.(em_common);
  em_ok_compress : 0 ≤ em.(em_delivercompressed) < 256;
}.

Definition email_fields (em : emailintercept_t) : list (Z * bytes) :=
  common_fields em.(em_common) ++
  [(field_code OPENLI_PROTO_FIELD_DELIVER_COMPRESSED, le_bytes 1 em.(em_delivercompressed))].

Definition email_view (em b : emailintercept_t) : emailintercept_t :=
  {| em_common := common_view em.(em_common) b.(em_common); em_targets := [];
     em_awaitingconfirm := 0; em_delivercompressed := em.(em_delivercompressed) |}.

(** A message that starts with the common part. *)
Ltac push_common_law Hc :=
  eexists; split;
  [|eapply appends_bind; [rewrite (proj1 (common_len _ Hc)); run_outcome; reflexivity|];
    pose proof (proj2 (common_len _ Hc));
    in_range; try (apply appends_guard; [apply Z.ltb_ge; len_lia|]);
    apply appends_frame; [done|rewrite zlen_wire_body, fields_len_app; len_lia
      |rewrite zlen_wire_body, fields_len_app; len_lia|];
    eapply appends_fields_app; [|apply appends_common; assumption|push_body]; assumption];
  pose proof (proj2 (common_len _ Hc)); len_lia.

Ltac understand_common Hc :=
  destruct Hc; unfold common_fields, common_updates, key_fields, key_updates, liid_update;
  match goal with
  | H : ic_encryptkey ?c = None ∨ _ |- _ =>
      destruct (ic_encryptkey c) eqn:?; [destruct H as [|]; [done|]|clear H]
  end; understand.

Lemma email_decode em b tail :
  email_ok em →
  decode_emailintercept_start (wire_body (email_fields em) ++ tail)
    (zlen (wire_body (email_fields em))) b = Ok (0, email_view em b).
Proof.
  intros [Hc ?]. unfold decode_emailintercept_start.
  rewrite (decode_message_wire _ _
    ([liid_update (@in_em) em.(em_common)] ++ common_updates (@in_em) em.(em_common)
       ++ [set_em_delivercompressed em.(em_delivercompressed)])).
  - destruct em as [[] ??]; destruct Hc; simpl in *; subst.
    unfold common_updates, key_updates, liid_update; destruct ic_encryptkey; simpl; rebuild.
  - unfold email_fields. understand_common Hc.
Qed.

(** [false] is the announcement of the intercept, [true] its modification. *)
Program Definition email_format (modify : bool) : wire_format emailintercept_t emailintercept_t := {|
  wm_type := if modify then OPENLI_PROTO_MODIFY_EMAILINTERCEPT
             else OPENLI_PROTO_START_EMAILINTERCEPT;
  wm_push ra noret em := if modify then push_emailintercept_modify ra noret em
                         else push_emailintercept_onto_net_buffer ra noret em;
  wm_decode := if modify then decode_emailintercept_modify else decode_emailintercept_start;
  wm_ok := email_ok;
  wm_fields := email_fields;
  wm_view := email_view;
|}.
Next Obligation. by intros []. Qed.
Next Obligation.
  intros _ em [Hc ?]. pose proof (proj2 (common_len _ Hc)).
  unfold email_fields. rewrite zlen_wire_body, fields_len_app. len_lia.
Qed.
Next Obligation.
  intros modify ra noret em Hn [Hc ?]. unfold email_fields.
  destruct modify; [unfold push_emailintercept_modify, EMAILINTERCEPT_MODIFY_BODY_LEN
                   |unfold push_emailintercept_onto_net_buffer, EMAILINTERCEPT_BODY_LEN];
    push_common_law Hc.
Qed.
Next Obligation. intros [] em b tail ?; by apply email_decode. Qed.

(** ** VoIP intercepts *)

Record voip_ok (v : voipintercept_t) : Prop := {
  vi_ok_common : common_ok v.(vi_common);
  vi_ok_options : 0 ≤ v.(vi_options) < 2 ^ 32;
}.

Definition voip_fields (v : voipintercept_t) : list (Z * bytes) :=
  common_fields v.(vi_common) ++
  [(field_code OPENLI_PROTO_FIELD_INTOPTIONS, le_bytes 4 v.(vi_options))].

Definition voip_view (v b : voipintercept_t) : voipintercept_t :=
  {| vi_internalid := 0; vi_common := common_view v.(vi_common) b.(vi_common);
     vi_targets := []; vi_options := v.(vi_options); vi_awaitingconfirm := 0;
     vi_active := 1 |}.

Lemma voip_decode v b tail :
  voip_ok v →
  decode_voipintercept_start (wire_body (voip_fields v) ++ tail)
    (zlen (wire_body (voip_fields v))) b = Ok (0, voip_view v b).
Proof.
  intros [Hc ?]. unfold decode_voipintercept_start.
  rewrite (decode_message_wire _ _
    ([liid_update (@in_vi) v.(vi_common)] ++ common_updates (@in_vi) v.(vi_common)
       ++ [set_vi_options v.(vi_options)])).
  - destruct v as [? [] ? ? ? ?]; destruct Hc; simpl in *; subst.
    unfold common_updates, key_updates, liid_update; destruct ic_encryptkey; simpl; rebuild.
  - unfold voip_fields. understand_common Hc.
Qed.

Program Definition voip_format (modify : bool) : wire_format voipintercept_t voipintercept_t := {|
  wm_type := if modify then OPENLI_PROTO_MODIFY_VOIPINTERCEPT
             else OPENLI_PROTO_START_VOIPINTERCEPT;
  wm_push ra noret v := if modify then push_voipintercept_modify ra noret v
                        else push_voipintercept_onto_net_buffer ra noret v;
  wm_decode := if modify then decode_voipintercept_modify else decode_voipintercept_start;
  wm_ok := voip_ok;
  wm_fields := voip_fields;
  wm_view := voip_view;
|}.
Next Obligation. by intros []. Qed.
Next Obligation.
  intros _ v [Hc ?]. pose proof (proj2 (common_len _ Hc)).
  unfold voip_fields. rewrite zlen_wire_body, fields_len_app. len_lia.
Qed.
Next Obligation.
  intros modify ra noret v Hn [Hc ?]. unfold voip_fields.
  destruct modify; [unfold push_voipintercept_modify, VOIPINTERCEPT_MODIFY_BODY_LEN
                   |unfold push_voipintercept_onto_net_buffer, VOIPINTERCEPT_BODY_LEN];
    push_common_law Hc.
Qed.
Next Obligation. intros [] v b tail ?; by apply voip_decode. Qed.

(** ** IP intercepts *)

(** The username may be missing, with length 0. *)
Record ip_ok (i : ipintercept_t) : Prop := {
  ip_ok_common : common_ok i.(ip_common);
  ip_ok_user : i.(ip_username) = None ∨ good_str i.(ip_username);
  ip_ok_user_len : i.(ip_username_len) = str_len i.(ip_username);
  ip_ok_access : 0 ≤ i.(ip_accesstype) < 2 ^ 32;
  ip_ok_vendmirror : 0 ≤ i.(ip_vendmirrorid) < 2 ^ 32;
  ip_ok_options : 0 ≤ i.(ip_options) < 2 ^ 32;
}.

Definition vendmirror_fields (i : ipintercept_t) : list (Z * bytes) :=
  if has_vendmirror i
  then [(field_code OPENLI_PROTO_FIELD_VENDMIRRORID, le_bytes 4 i.(ip_vendmirrorid))] else [].

Definition ip_fields (i : ipintercept_t) : list (Z * bytes) :=
  common_fields i.(ip_common) ++
  [(field_code OPENLI_PROTO_FIELD_USERNAME, str_val i.(ip_username));
   (field_code OPENLI_PROTO_FIELD_ACCESSTYPE, le_bytes 4 i.(ip_accesstype));
   (field_code OPENLI_PROTO_FIELD_INTOPTIONS, le_bytes 4 i.(ip_options))] ++
  vendmirror_fields i.

(** An empty username arrives as NULL, and a new intercept starts with
    sequence tracker 0 and no static ranges. *)
Definition ip_view (i b : ipintercept_t) : ipintercept_t :=
  {| ip_common := set_ic_seqtrackerid 0 (common_view i.(ip_common) b.(ip_common));
     ip_username := if i.(ip_username_len) =? 0 then None else i.(ip_username);
     ip_username_len := i.(ip_username_len);
     ip_accesstype := i.(ip_accesstype); ip_vendmirrorid := i.(ip_vendmirrorid);
     ip_statics := []; ip_awaitingconfirm := 0; ip_options := i.(ip_options) |}.

Lemma opt_str_len s : s = None ∨ good_str s → 0 ≤ str_len s ≤ 4092.
Proof. intros [->|?]; [done|]. by apply good_str_len. Qed.

Lemma appends_opt_str ra (f : openli_proto_fieldtype_t) s n :
  s = None ∨ good_str s → n = str_len s →
  appends ra (push_tlv ra f s n) (wire_tlv f (str_val s)) (str_len s + 4).
Proof.
  intros [->|?] ->; [|by apply appends_str_len].
  by apply (appends_tlv ra f None []); [apply field_code_range|..].
Qed.

Lemma ip_fields_len i :
  ip_ok i → fields_len (ip_fields i) =
    fields_len (common_fields i.(ip_common)) + (str_len i.(ip_username) + 20)
      + (if has_vendmirror i then 8 else 0) ∧
  0 ≤ fields_len (ip_fields i) < 65536.
Proof.
  intros [Hc Hu ? ? ? ?]. pose proof (proj2 (common_len _ Hc)). pose proof (opt_str_len _ Hu).
  unfold ip_fields, vendmirror_fields. rewrite !fields_len_app.
  destruct (has_vendmirror i); len_lia.
Qed.

(** The announcement up to the static ranges, and the modification. *)
Lemma appends_ip_fields ra noret i k r :
  noret ≠ -1 → ip_ok i → appends ra k [] r →
  appends ra
   (push_then (push_intercept_common_fields ra noret i.(ip_common))
   (push_then (push_tlv ra OPENLI_PROTO_FIELD_USERNAME i.(ip_username) i.(ip_username_len))
   (push_then (push_tlv ra OPENLI_PROTO_FIELD_ACCESSTYPE (mem 4 i.(ip_accesstype)) 4)
   (push_then (push_tlv ra OPENLI_PROTO_FIELD_INTOPTIONS (mem 4 i.(ip_options)) 4)
   (if has_vendmirror i
    then push_then (push_tlv ra OPENLI_PROTO_FIELD_VENDMIRRORID (mem 4 i.(ip_vendmirrorid)) 4) k
    else k)))))
   (wire_body (ip_fields i)) r.
Proof.
  intros Hn [Hc Hu Hl ? ? ?] Hk. unfold ip_fields, vendmirror_fields.
  eapply appends_fields_app; [done|by apply appends_common|].
  eapply appends_field; [|by apply appends_opt_str|].
  { pose proof (opt_str_len _ Hu). lia. }
  destruct (has_vendmirror i); push_body; apply Hk.
Qed.

Lemma ip_decode i b tail :
  ip_ok i →
  decode_ipintercept_start (wire_body (ip_fields i) ++ tail)
    (zlen (wire_body (ip_fields i))) b = Ok (0, ip_view i b).
Proof.
  intros [Hc Hu Hl ? ? ?]. unfold decode_ipintercept_start.
  set (user := λ s, set_ip_username_len (str_len i.(ip_username))
         (set_ip_username (if str_len i.(ip_username) =? 0 then None
                           else Some (str_val i.(ip_username))) s)).
  rewrite (decode_message_wire _ _
    ([λ s, in_ip set_ic_seqtrackerid 0 (liid_update (@in_ip) i.(ip_common) s)]
      ++ common_updates (@in_ip) i.(ip_common)
      ++ [user; set_ip_accesstype i.(ip_accesstype); set_ip_options i.(ip_options)]
      ++ (if has_vendmirror i then [set_ip_vendmirrorid i.(ip_vendmirrorid)] else []))).
  - destruct i as [[] ? ? ? ? ? ? ?]; destruct Hc; simpl in *; subst.
    unfold ip_view, user, common_updates, key_updates, liid_update, has_vendmirror; simpl.
    destruct (Z.eqb_spec ip_vendmirrorid OPENLI_VENDOR_MIRROR_NONE) as [->|];
      destruct ic_encryptkey; simpl; (destruct Hu as [->|Hu]; rebuild).
  - pose proof (opt_str_len _ Hu). unfold ip_fields, vendmirror_fields, user.
    destruct (has_vendmirror i); understand_common Hc.
Qed.

Program Definition ip_modify_format : wire_format ipintercept_t ipintercept_t := {|
  wm_type := OPENLI_PROTO_MODIFY_IPINTERCEPT;
  wm_push ra noret i := push_ipintercept_modify ra noret i;
  wm_decode := decode_ipintercept_modify;
  wm_ok := ip_ok;
  wm_fields := ip_fields;
  wm_view := ip_view;
|}.
Next Obligation. done. Qed.
Next Obligation. intros i Hi. rewrite zlen_wire_body. by apply ip_fields_len. Qed.
Next Obligation.
  intros ra noret i Hn Hi. destruct (ip_fields_len i Hi) as [Hlen Hb].
  exists (fields_len (ip_fields i)). split; [lia|].
  unfold push_ipintercept_modify. eapply appends_bind.
  { instantiate (1 := fields_len (ip_fields i)). destruct Hi as [Hc ? Hl ? ? ?].
    unfold VENDMIRROR_IPINTERCEPT_MODIFY_BODY_LEN, IPINTERCEPT_MODIFY_BODY_LEN.
    rewrite (proj1 (common_len _ Hc)). run_outcome.
    destruct (has_vendmirror i); apply f_equal; lia. }
  rewrite u16_id by done. apply appends_guard; [apply Z.ltb_ge; lia|].
  apply appends_frame; [done|by rewrite zlen_wire_body|rewrite zlen_wire_body; lia|].
  apply appends_ip_fields; [done|done|]. apply appends_return.
Qed.
Next Obligation. intros i b tail ?. by apply ip_decode. Qed.

(** ** Static address ranges *)

Record static_ok (i : ipintercept_t) (r : static_ipranges_t) : Prop := {
  sr_ok_range : good_str r.(sr_rangestr);
  sr_ok_liid : good_str i.(ip_common).(ic_liid);
  sr_ok_liid_len : i.(ip_common).(ic_liid_len) = str_len i.(ip_common).(ic_liid);
  sr_ok_cin : 0 ≤ r.(sr_cin) < 2 ^ 32;
}.

Definition static_fields (i : ipintercept_t) (r : static_ipranges_t) : list (Z * bytes) :=
  [(field_code OPENLI_PROTO_FIELD_STATICIP_RANGE, str_val r.(sr_rangestr));
   (field_code OPENLI_PROTO_FIELD_LIID, str_val i.(ip_common).(ic_liid));
   (field_code OPENLI_PROTO_FIELD_CIN, le_bytes 4 r.(sr_cin))].

Definition static_frame (t : openli_proto_msgtype_t) (i : ipintercept_t)
    (r : static_ipranges_t) : bytes := wire_frame t 0 (wire_body (static_fields i r)).

Lemma appends_static ra i r (t : openli_proto_msgtype_t) :
  0 ≤ msgtype_code t → static_ok i r →
  appends ra (push_static_ipranges_generic ra i (Some r) t) (static_frame t i r) 0.
Proof.
  intros Ht []. unfold push_static_ipranges_generic, STATICIP_RANGE_BODY_LEN, static_frame, static_fields.
  push_prologue. apply appends_frame; [done|len_lia|len_lia|push_body].
Qed.

Inductive static_op : Type := StaticAdd | StaticModify | StaticRemove.

Program Definition static_format (op : static_op)
    : wire_format (ipintercept_t * static_ipranges_t) static_ipranges_t := {|
  wm_type := match op with
             | StaticAdd => OPENLI_PROTO_ADD_STATICIPS
             | StaticModify => OPENLI_PROTO_MODIFY_STATICIPS
             | StaticRemove => OPENLI_PROTO_REMOVE_STATICIPS end;
  wm_push ra _ '(i, r) := match op with
             | StaticAdd => push_static_ipranges_onto_net_buffer ra i (Some r)
             | StaticModify => push_static_ipranges_modify_onto_net_buffer ra i (Some r)
             | StaticRemove => push_static_ipranges_removal_onto_net_buffer ra i (Some r) end;
  wm_decode := match op with
             | StaticAdd => decode_staticip_announcement
             | StaticModify => decode_staticip_modify
             | StaticRemove => decode_staticip_removal end;
  wm_ok '(i, r) := static_ok i r;
  wm_fields '(i, r) := static_fields i r;
  wm_view '(i, r) _ := {| sr_rangestr := r.(sr_rangestr); sr_liid := i.(ip_common).(ic_liid);
                          sr_cin := r.(sr_cin); sr_awaitingconfirm := 0 |};
|}.
Next Obligation. by intros []. Qed.
Next Obligation. intros _ [i r] []. unfold static_fields. len_lia. Qed.
Next Obligation.
  intros op ra noret [i r] _ Hok. exists 0. split; [done|].
  destruct op; by apply appends_static.
Qed.
Next Obligation.
  intros op [i r] b tail [].
  assert (decode_staticip_announcement (wire_body (static_fields i r) ++ tail)
    (zlen (wire_body (static_fields i r))) b =
    Ok (0, {| sr_rangestr := r.(sr_rangestr); sr_liid := i.(ip_common).(ic_liid);
              sr_cin := r.(sr_cin); sr_awaitingconfirm := 0 |})) as H; [|by destruct op].
  unfold decode_staticip_announcement, static_fields.
  decode_law constr:([set_sr_rangestr (Some (str_val r.(sr_rangestr)));
    set_sr_liid (Some (str_val i.(ip_common).(ic_liid))); set_sr_cin r.(sr_cin)]).
  simpl. rebuild.
Qed.

(** An announced IP intercept is one frame, followed by one frame for each of
    its static ranges. *)
Lemma appends_statics ra i l r :
  r ≠ -1 → Forall (static_ok i) l →
  appends ra (push_statics ra i l r) (concat (static_frame OPENLI_PROTO_ADD_STATICIPS i <$> l)) r.
Proof.
  intros Hr. induction 1 as [|x l Hx Hl IH]; [apply appends_return|].
  intros nb Hwf.
  pose proof (appends_then ra _ _ _ _ 0 r ltac:(done)
    (appends_static ra i x OPENLI_PROTO_ADD_STATICIPS ltac:(done) Hx) IH nb Hwf) as Happ.
  assert (push_statics ra i (x :: l) r nb =
    push_then (push_static_ipranges_generic ra i (Some x) OPENLI_PROTO_ADD_STATICIPS)
      (push_statics ra i l r) nb) as ->; [|exact Happ].
  cbn [push_statics]. unfold push_static_ipranges_onto_net_buffer, push_then.
  destruct (push_static_ipranges_generic _ _ _ _ nb) as [[r0 nb0]| |] eqn:E;
    run_outcome; [|done|done].
  destruct (proj2 (appends_static ra i x OPENLI_PROTO_ADD_STATICIPS ltac:(done) Hx nb Hwf) _ _ E)
    as (_ & _ & [(-> & _)|(-> & _)]); done.
Qed.

Lemma appends_ipintercept ra noret i :
  noret ≠ -1 → ip_ok i → Forall (static_ok i) i.(ip_statics) →
  appends ra (push_ipintercept_onto_net_buffer ra noret i)
    (wire_frame OPENLI_PROTO_START_IPINTERCEPT 0 (wire_body (ip_fields i))
      ++ concat (static_frame OPENLI_PROTO_ADD_STATICIPS i <$> i.(ip_statics)))
    (fields_len (ip_fields i)).
Proof.
  intros Hn Hi Hs. destruct (ip_fields_len i Hi) as [Hlen Hb].
  unfold push_ipintercept_onto_net_buffer. eapply appends_bind.
  { instantiate (1 := fields_len (ip_fields i)). destruct Hi as [Hc ? Hl ? ? ?].
    unfold VENDMIRROR_IPINTERCEPT_BODY_LEN, IPINTERCEPT_BODY_LEN.
    rewrite (proj1 (common_len _ Hc)). run_outcome.
    destruct (has_vendmirror i); apply f_equal; lia. }
  rewrite i32_id by lia. apply appends_guard; [apply Z.ltb_ge; lia|].
  unfold wire_frame. rewrite <- app_assoc.
  rewrite zlen_wire_body. eapply appends_then; [|apply appends_header|]; [done|done|lia|done|].
  pose proof (appends_statics ra i (ip_statics i) (fields_len (ip_fields i)) ltac:(lia) Hs) as Hst.
  destruct Hi as [Hc Hu Hl ? ? ?]. unfold ip_fields, vendmirror_fields.
  rewrite !wire_body_app, <- !app_assoc.
  eapply appends_then; [done|by apply appends_common|].
  rewrite !wire_body_cons, <- !app_assoc.
  eapply appends_then; [|by apply appends_opt_str|].
  { pose proof (opt_str_len _ Hu). lia. }
  do 2 (eapply appends_then; [|push_one|]; [done|]). rewrite app_nil_l.
  unfold ip_fields, vendmirror_fields in Hst.
  destruct (has_vendmirror i); [|exact Hst].
  rewrite wire_body_cons, <- app_assoc. eapply appends_then; [|push_one|exact Hst]. done.
Qed.

(** ** Withdrawal of an intercept *)

Record halt_ok (c : intercept_common_t) : Prop := {
  halt_ok_liid : good_str c.(ic_liid);
  halt_ok_authcc : good_str c.(ic_authcc);
  halt_ok_nonempty : str_val c.(ic_authcc) ≠ [];
}.

Definition halt_fields (c : intercept_common_t) : list (Z * bytes) :=
  [(field_code OPENLI_PROTO_FIELD_LIID, str_val c.(ic_liid));
   (field_code OPENLI_PROTO_FIELD_AUTHCC, str_val c.(ic_authcc))].

(** Only the LIID and the country code are sent. *)
Definition halt_view (c b : intercept_common_t) : intercept_common_t :=
  set_ic_liid c.(ic_liid) (set_ic_liid_len (str_len c.(ic_liid))
    (set_ic_authcc c.(ic_authcc) (set_ic_authcc_len (str_len c.(ic_authcc)) (common_init b)))).

Lemma halt_fields_len c : halt_ok c → zlen (wire_body (halt_fields c)) < 65536.
Proof. intros []. unfold halt_fields. len_lia. Qed.

Lemma halt_push ra c (t : openli_proto_msgtype_t) :
  0 ≤ msgtype_code t → halt_ok c →
  ∃ r, r ≠ -1 ∧ appends ra (λ nb,
     len ← INTERCEPT_WITHDRAW_BODY_LEN c.(ic_liid) c.(ic_authcc);
     if 65535 <? u16 len then Ok (-1, nb) else
     push_then (push_header ra t (u16 len) 0)
       (push_then (push_str ra OPENLI_PROTO_FIELD_LIID c.(ic_liid))
         (push_then (push_str ra OPENLI_PROTO_FIELD_AUTHCC c.(ic_authcc))
           (push_return (u16 len)))) nb)
     (wire_frame t 0 (wire_body (halt_fields c))) r.
Proof.
  intros Ht []. unfold INTERCEPT_WITHDRAW_BODY_LEN, halt_fields. push_law.
Qed.

Program Definition email_halt_format : wire_format emailintercept_t emailintercept_t := {|
  wm_type := OPENLI_PROTO_HALT_EMAILINTERCEPT;
  wm_push ra _ em := push_intercept_withdrawal_onto_net_buffer ra (DataEmail em)
                       OPENLI_PROTO_HALT_EMAILINTERCEPT;
  wm_decode := decode_emailintercept_halt;
  wm_ok em := halt_ok em.(em_common);
  wm_fields em := halt_fields em.(em_common);
  wm_view em b := set_em_common (halt_view em.(em_common) b.(em_common)) (emailintercept_init b);
|}.
Next Obligation. done. Qed.
Next Obligation. intros em. apply halt_fields_len. Qed.
Next Obligation. intros ra noret em _ Hok. by apply (halt_push ra). Qed.
Next Obligation.
  intros em b tail []. unfold decode_emailintercept_halt, decode_emailintercept_start, halt_fields.
  decode_law constr:([liid_update (@in_em) em.(em_common);
    (λ s, in_em set_ic_authcc_len (str_len em.(em_common).(ic_authcc))
          (in_em set_ic_authcc (Some (str_val em.(em_common).(ic_authcc))) s))]).
  simpl. unfold liid_update. rebuild.
Qed.

Program Definition voip_halt_format : wire_format voipintercept_t voipintercept_t := {|
  wm_type := OPENLI_PROTO_HALT_VOIPINTERCEPT;
  wm_push ra _ v := push_intercept_withdrawal_onto_net_buffer ra (DataVoip v)
                      OPENLI_PROTO_HALT_VOIPINTERCEPT;
  wm_decode := decode_voipintercept_halt;
  wm_ok v := halt_ok v.(vi_common);
  wm_fields v := halt_fields v.(vi_common);
  wm_view v b := set_vi_common (halt_view v.(vi_common) b.(vi_common)) (voipintercept_init b);
|}.
Next Obligation. done. Qed.
Next Obligation. intros v. apply halt_fields_len. Qed.
Next Obligation. intros ra noret v _ Hok. by apply (halt_push ra). Qed.
Next Obligation.
  intros v b tail []. unfold decode_voipintercept_halt, decode_voipintercept_start, halt_fields.
  decode_law constr:([liid_update (@in_vi) v.(vi_common);
    (λ s, in_vi set_ic_authcc_len (str_len v.(vi_common).(ic_authcc))
          (in_vi set_ic_authcc (Some (str_val v.(vi_common).(ic_authcc))) s))]).
  simpl. unfold liid_update. rebuild.
Qed.

Program Definition ip_halt_format : wire_format ipintercept_t ipintercept_t := {|
  wm_type := OPENLI_PROTO_HALT_IPINTERCEPT;
  wm_push ra _ i := push_intercept_withdrawal_onto_net_buffer ra (DataIp i)
                      OPENLI_PROTO_HALT_IPINTERCEPT;
  wm_decode := decode_ipintercept_halt;
  wm_ok i := halt_ok i.(ip_common);
  wm_fields i := halt_fields i.(ip_common);
  wm_view i b := set_ip_common
    (set_ic_seqtrackerid 0 (halt_view i.(ip_common) b.(ip_common))) (ipintercept_init b);
|}.
Next Obligation. done. Qed.
Next Obligation. intros i. apply halt_fields_len. Qed.
Next Obligation. intros ra noret i _ Hok. by apply (halt_push ra). Qed.
Next Obligation.
  intros i b tail []. unfold decode_ipintercept_halt, decode_ipintercept_start, halt_fields.
  decode_law constr:([(λ s, in_ip set_ic_seqtrackerid 0 (liid_update (@in_ip) i.(ip_common) s));
    (λ s, in_ip set_ic_authcc_len (str_len i.(ip_common).(ic_authcc))
          (in_ip set_ic_authcc (Some (str_val i.(ip_common).(ic_authcc))) s))]).
  simpl. unfold liid_update. rebuild.
Qed.

(** ** Mediators *)

Record mediator_ok (med : openli_mediator_t) : Prop := {
  med_ok_id : 0 ≤ med.(med_mediatorid) < 2 ^ 32;
  med_ok_ip : good_str med.(med_ipstr);
  med_ok_port : good_str med.(med_portstr);
  med_ok_nonempty : str_val med.(med_portstr) ≠ [];
}.

Definition mediator_fields (med : openli_mediator_t) : list (Z * bytes) :=
  [(field_code OPENLI_PROTO_FIELD_MEDIATORID, le_bytes 4 med.(med_mediatorid));
   (field_code OPENLI_PROTO_FIELD_MEDIATORIP, str_val med.(med_ipstr));
   (field_code OPENLI_PROTO_FIELD_MEDIATORPORT, str_val med.(med_portstr))].

Lemma mediator_push ra med (t : openli_proto_msgtype_t) :
  0 ≤ msgtype_code t → mediator_ok med →
  ∃ r, r ≠ -1 ∧ appends ra (push_mediator_msg_onto_net_buffer ra med t)
    (wire_frame t 0 (wire_body (mediator_fields med))) r.
Proof.
  intros Ht []. unfold push_mediator_msg_onto_net_buffer, MEDIATOR_BODY_LEN, mediator_fields.
  push_law.
Qed.

(** [false] announces the mediator, [true] withdraws it. *)
Program Definition mediator_format (wd : bool)
    : wire_format openli_mediator_t openli_mediator_t := {|
  wm_type := if wd then OPENLI_PROTO_WITHDRAW_MEDIATOR else OPENLI_PROTO_ANNOUNCE_MEDIATOR;
  wm_push ra _ med := if wd then push_mediator_withdraw_onto_net_buffer ra med
                      else push_mediator_onto_net_buffer ra med;
  wm_decode := if wd then decode_mediator_withdraw else decode_mediator_announcement;
  wm_ok := mediator_ok;
  wm_fields := mediator_fields;
  wm_view med _ := med;
|}.
Next Obligation. by intros []. Qed.
Next Obligation. intros _ med []. unfold mediator_fields. len_lia. Qed.
Next Obligation. intros [] ra noret med _ Hok; by apply mediator_push. Qed.
Next Obligation.
  intros wd med b tail [].
  assert (decode_mediator_announcement (wire_body (mediator_fields med) ++ tail)
    (zlen (wire_body (mediator_fields med))) b = Ok (0, med)) as H; [|by destruct wd].
  unfold decode_mediator_announcement, mediator_fields.
  decode_law constr:([set_med_mediatorid med.(med_mediatorid);
    set_med_ipstr (Some (str_val med.(med_ipstr)));
    set_med_portstr (Some (str_val med.(med_portstr)))]).
  destruct med; simpl in *. rebuild.
Qed.

(** ** HI1 notifications *)

Record hi1_ok (nd : hi1_notify_data_t) : Prop := {
  nd_ok_type : 0 ≤ nd.(nd_notify_type) < 2 ^ 32;
  nd_ok_liid : good_str nd.(nd_liid);
  nd_ok_authcc : good_str nd.(nd_authcc);
  nd_ok_delivcc : good_str nd.(nd_delivcc);
  nd_ok_agency : good_str nd.(nd_agencyid);
  nd_ok_seqno : 0 ≤ nd.(nd_seqno) < 2 ^ 32;
  nd_ok_sec : 0 ≤ nd.(nd_ts_sec) < 2 ^ 64;
  nd_ok_usec : 0 ≤ nd.(nd_ts_usec) < 2 ^ 32;
  nd_ok_target : nd.(nd_target_info) = None ∨
                 good_str nd.(nd_target_info) ∧ str_val nd.(nd_target_info) ≠ [];
}.

Definition hi1_fields (nd : hi1_notify_data_t) : list (Z * bytes) :=
  [(field_code OPENLI_PROTO_FIELD_HI1_NOTIFY_TYPE, le_bytes 4 nd.(nd_notify_type));
   (field_code OPENLI_PROTO_FIELD_LIID, str_val nd.(nd_liid));
   (field_code OPENLI_PROTO_FIELD_AUTHCC, str_val nd.(nd_authcc));
   (field_code OPENLI_PROTO_FIELD_DELIVCC, str_val nd.(nd_delivcc));
   (field_code OPENLI_PROTO_FIELD_LEAID, str_val nd.(nd_agencyid));
   (field_code OPENLI_PROTO_FIELD_SEQNO, le_bytes 4 nd.(nd_seqno));
   (field_code OPENLI_PROTO_FIELD_TS_SEC, le_bytes 8 nd.(nd_ts_sec));
   (field_code OPENLI_PROTO_FIELD_TS_USEC, le_bytes 4 nd.(nd_ts_usec))] ++
  match nd.(nd_target_info) with
  | Some _ => [(field_code OPENLI_PROTO_FIELD_USERNAME, str_val nd.(nd_target_info))]
  | None => []
  end.

Program Definition hi1_format : wire_format hi1_notify_data_t hi1_notify_data_t := {|
  wm_type := OPENLI_PROTO_HI1_NOTIFICATION;
  wm_push ra _ nd := push_hi1_notification_onto_net_buffer ra nd;
  wm_decode := decode_hi1_notification;
  wm_ok := hi1_ok;
  wm_fields := hi1_fields;
  wm_view nd _ := nd;
|}.
Next Obligation. done. Qed.
Next Obligation.
  intros nd [? ? ? ? ? ? ? ? Ht]. unfold hi1_fields.
  destruct (nd_target_info nd); [destruct Ht as [|[? _]]; [done|]|]; cbn [app]; len_lia.
Qed.
Next Obligation.
  intros ra noret nd _ [? ? ? ? ? ? ? ? Ht].
  unfold push_hi1_notification_onto_net_buffer, HI1_NOTIFY_BODY_LEN, hi1_fields.
  destruct (nd_target_info nd) as [ti|] eqn:E; cbn [app].
  - destruct Ht as [|[? _]]; [done|].
    rewrite (good_str_strlen (Some ti)) by done. run_outcome. push_law.
  - run_outcome. push_law.
Qed.
Next Obligation.
  intros nd b tail [? ? ? ? ? ? ? ? Ht]. unfold decode_hi1_notification, hi1_fields.
  rewrite (decode_message_wire _ _
    ([set_nd_notify_type nd.(nd_notify_type); set_nd_liid (Some (str_val nd.(nd_liid)));
      set_nd_authcc (Some (str_val nd.(nd_authcc)));
      set_nd_delivcc (Some (str_val nd.(nd_delivcc)));
      set_nd_agencyid (Some (str_val nd.(nd_agencyid))); set_nd_seqno nd.(nd_seqno);
      set_nd_ts_sec nd.(nd_ts_sec); set_nd_ts_usec nd.(nd_ts_usec)] ++
     match nd.(nd_target_info) with
     | Some _ => [set_nd_target_info (Some (str_val nd.(nd_target_info)))]
     | None => [] end)).
  - destruct nd as [? ? ? ? ? ? ? ? []]; simpl in *; rebuild.
  - destruct (nd_target_info nd); [destruct Ht as [|[? ?]]; [done|]|]; understand.
Qed.

(** ** Default RADIUS users and the email compression default *)

Record radius_ok (d : default_radius_user_t) : Prop := {
  dr_ok_name : good_str d.(dr_name);
  dr_ok_len : d.(dr_namelen) = str_len d.(dr_name);
  dr_ok_nonempty : str_val d.(dr_name) ≠ [];
}.

Definition radius_fields (d : default_radius_user_t) : list (Z * bytes) :=
  [(field_code OPENLI_PROTO_FIELD_USERNAME, str_val d.(dr_name))].

Lemma radius_push ra d (t : openli_proto_msgtype_t) :
  0 ≤ msgtype_code t → radius_ok d →
  ∃ r, r ≠ -1 ∧ appends ra (push_default_radius_msg_onto_net_buffer ra d t)
    (wire_frame t 0 (wire_body (radius_fields d))) r.
Proof.
  intros Ht []. unfold push_default_radius_msg_onto_net_buffer, DEF_RADIUS_BODY_LEN, radius_fields.
  rewrite (proj2 (Z.ltb_ge _ _)) by len_lia. push_law.
Qed.

Program Definition radius_format (wd : bool)
    : wire_format default_radius_user_t default_radius_user_t := {|
  wm_type := if wd then OPENLI_PROTO_WITHDRAW_DEFAULT_RADIUS
             else OPENLI_PROTO_ANNOUNCE_DEFAULT_RADIUS;
  wm_push ra _ d := if wd then push_default_radius_withdraw_onto_net_buffer ra d
                    else push_default_radius_onto_net_buffer ra d;
  wm_decode := if wd then decode_default_radius_withdraw
               else decode_default_radius_announcement;
  wm_ok := radius_ok;
  wm_fields := radius_fields;
  wm_view d _ := {| dr_name := d.(dr_name); dr_namelen := d.(dr_namelen);
                    dr_awaitingconfirm := 0 |};
|}.
Next Obligation. by intros []. Qed.
Next Obligation. intros _ d []. unfold radius_fields. len_lia. Qed.
Next Obligation. intros [] ra noret d _ Hok; by apply radius_push. Qed.
Next Obligation.
  intros wd d b tail [Hs Hl Hne].
  assert (decode_default_radius_announcement (wire_body (radius_fields d) ++ tail)
    (zlen (wire_body (radius_fields d))) b = Ok (0, {| dr_name := d.(dr_name);
      dr_namelen := d.(dr_namelen); dr_awaitingconfirm := 0 |})) as H; [|by destruct wd].
  unfold decode_default_radius_announcement, radius_fields.
  decode_law constr:([(λ s, set_dr_namelen (zlen (until_nul (str_val d.(dr_name))))
    (set_dr_name (Some (str_val d.(dr_name))) s))]).
  run_outcome. simpl. rewrite good_str_until, Hl by done. rebuild.
Qed.

Program Definition email_compression_format : wire_format Z Z := {|
  wm_type := OPENLI_PROTO_ANNOUNCE_DEFAULT_EMAIL_COMPRESSION;
  wm_push ra _ c := push_default_email_compression_onto_net_buffer ra c;
  wm_decode := decode_default_email_compression_announcement;
  wm_ok c := 0 ≤ c < 256;
  wm_fields c := [(field_code OPENLI_PROTO_FIELD_DELIVER_COMPRESSED, le_bytes 1 c)];
  wm_view c _ := c;
|}.
Next Obligation. done. Qed.
Next Obligation. intros c Hc. len_lia. Qed.
Next Obligation.
  intros ra noret c _ Hc. unfold push_default_email_compression_onto_net_buffer. push_law.
Qed.
Next Obligation.
  intros c b tail Hc. simpl in Hc. unfold decode_default_email_compression_announcement.
  decode_law constr:([(λ _, c)] : list (Z → Z)). done.
Qed.

(** ** Core servers *)

Record coreserver_ok (cs : coreserver_t) (cstype : Z) : Prop := {
  cs_ok_type : 0 ≤ cstype < 256;
  cs_ok_ip : good_str cs.(cs_ipstr);
  cs_ok_port : cs.(cs_portstr) = None ∧ str_val cs.(cs_ipstr) ≠ [] ∨
               good_str cs.(cs_portstr) ∧ str_val cs.(cs_portstr) ≠ [];
}.

Definition coreserver_fields (cs : coreserver_t) (cstype : Z) : list (Z * bytes) :=
  [(field_code OPENLI_PROTO_FIELD_CORESERVER_TYPE, le_bytes 1 cstype);
   (field_code OPENLI_PROTO_FIELD_CORESERVER_IP, str_val cs.(cs_ipstr))] ++
  match cs.(cs_portstr) with
  | Some _ => [(field_code OPENLI_PROTO_FIELD_CORESERVER_PORT, str_val cs.(cs_portstr))]
  | None => []
  end.

(** The receiver rebuilds the key of the server. *)
Definition coreserver_view (cs : coreserver_t) (cstype : Z) (b : coreserver_t) : coreserver_t :=
  construct_coreserver_key
    {| cs_serverkey := None; cs_servertype := cstype; cs_ipstr := cs.(cs_ipstr);
       cs_portstr := cs.(cs_portstr); cs_info := None;
       cs_portswapped := b.(cs_portswapped); cs_awaitingconfirm := 0 |}.

Lemma coreserver_push ra cs cstype (t : openli_proto_msgtype_t) :
  0 ≤ msgtype_code t → coreserver_ok cs cstype →
  ∃ r, r ≠ -1 ∧ appends ra (push_coreserver_msg_onto_net_buffer ra cs cstype t)
    (wire_frame t 0 (wire_body (coreserver_fields cs cstype))) r.
Proof.
  intros Ht [? ? Hp].
  unfold push_coreserver_msg_onto_net_buffer, CORESERVER_BODY_LEN, coreserver_fields.
  destruct (cs_portstr cs) as [p|] eqn:E; cbn [app].
  - destruct Hp as [[? _]|[? _]]; [done|]. push_law.
  - push_law.
Qed.

Lemma coreserver_decode cs cstype b tail :
  coreserver_ok cs cstype →
  decode_coreserver_announcement (wire_body (coreserver_fields cs cstype) ++ tail)
    (zlen (wire_body (coreserver_fields cs cstype))) b = Ok (0, coreserver_view cs cstype b).
Proof.
  intros [? ? Hp]. unfold decode_coreserver_announcement, coreserver_fields.
  rewrite (decode_message_wire _ _
    ([set_cs_servertype cstype; set_cs_ipstr (Some (str_val cs.(cs_ipstr)))] ++
     match cs.(cs_portstr) with
     | Some _ => [set_cs_portstr (Some (str_val cs.(cs_portstr)))] | None => [] end)).
  - unfold coreserver_view. run_outcome.
    destruct (good_str_some _ cs_ok_ip0).
    destruct (cs_portstr cs) as [p|] eqn:E; simpl; rewrite (good_str_some _ cs_ok_ip0); done.
  - destruct (cs_portstr cs); [destruct Hp as [[? _]|[? ?]]; [done|]|
      destruct Hp as [[_ ?]|[(? & ? & _) ?]]; [|done]]; understand.
Qed.

Program Definition coreserver_format (wd : bool)
    : wire_format (coreserver_t * Z) coreserver_t := {|
  wm_type := if wd then OPENLI_PROTO_WITHDRAW_CORESERVER else OPENLI_PROTO_ANNOUNCE_CORESERVER;
  wm_push ra _ '(cs, cstype) := if wd then push_coreserver_withdraw_onto_net_buffer ra cs cstype
                                else push_coreserver_onto_net_buffer ra cs cstype;
  wm_decode := if wd then decode_coreserver_withdraw else decode_coreserver_announcement;
  wm_ok '(cs, cstype) := coreserver_ok cs cstype;
  wm_fields '(cs, cstype) := coreserver_fields cs cstype;
  wm_view '(cs, cstype) b := coreserver_view cs cstype b;
|}.
Next Obligation. by intros []. Qed.
Next Obligation.
  intros _ [cs cstype] [? ? Hp]. unfold coreserver_fields.
  destruct (cs_portstr cs); [destruct Hp as [[? _]|[? _]]; [done|]|]; cbn [app]; len_lia.
Qed.
Next Obligation. intros [] ra noret [cs cstype] _ Hok; by apply coreserver_push. Qed.
Next Obligation. intros [] [cs cstype] b tail Hok; by apply coreserver_decode. Qed.

(** ** SIP and email targets

    The LIID of the intercept travels with the target; the receiver has
    [spacelen] bytes for it. *)

Record sip_ok (spacelen : Z) (sipid : openli_sip_identity_t) (c : intercept_common_t) : Prop := {
  si_ok_liid : good_str c.(ic_liid);
  si_ok_liid_len : c.(ic_liid_len) = str_len c.(ic_liid);
  si_ok_space : str_len c.(ic_liid) < spacelen;
  si_ok_user : good_str sipid.(si_username);
  si_ok_user_len : sipid.(si_username_len) = str_len sipid.(si_username);
  si_ok_realm : sipid.(si_realm) = None ∧ str_val sipid.(si_username) ≠ [] ∨
                good_str sipid.(si_realm) ∧ str_val sipid.(si_realm) ≠ [];
  si_ok_realm_len : sipid.(si_realm_len) = str_len sipid.(si_realm);
}.

Definition sip_fields (sipid : openli_sip_identity_t) (c : intercept_common_t)
    : list (Z * bytes) :=
  [(field_code OPENLI_PROTO_FIELD_LIID, str_val c.(ic_liid));
   (field_code OPENLI_PROTO_FIELD_SIP_USER, str_val sipid.(si_username))] ++
  match sipid.(si_realm) with
  | Some _ => [(field_code OPENLI_PROTO_FIELD_SIP_REALM, str_val sipid.(si_realm))]
  | None => []
  end.

Definition sip_view (sipid : openli_sip_identity_t) (c : intercept_common_t)
    (b : openli_sip_identity_t) : openli_sip_identity_t * cstring :=
  ({| si_username := sipid.(si_username); si_username_len := sipid.(si_username_len);
      si_realm := sipid.(si_realm); si_realm_len := sipid.(si_realm_len);
      si_awaitingconfirm := 0; si_active := b.(si_active) |}, c.(ic_liid)).

Lemma sip_push ra spacelen sipid v (t : openli_proto_msgtype_t) :
  t = OPENLI_PROTO_ANNOUNCE_SIP_TARGET ∨ t = OPENLI_PROTO_WITHDRAW_SIP_TARGET →
  sip_ok spacelen sipid v.(vi_common) →
  ∃ r, r ≠ -1 ∧ appends ra (push_sip_target_onto_net_buffer_generic ra sipid v t)
    (wire_frame t 0 (wire_body (sip_fields sipid v.(vi_common)))) r.
Proof.
  intros Ht [? ? ? ? ? Hr Hl].
  unfold push_sip_target_onto_net_buffer_generic, SIPTARGET_BODY_LEN,
    SIPTARGET_BODY_LEN_NOREALM, sip_fields.
  assert (0 ≤ msgtype_code t) by (destruct Ht as [->| ->]; done).
  destruct (si_realm sipid) as [rl|] eqn:E; cbn [app].
  - destruct Hr as [[? _]|[? _]]; [done|]. push_law.
  - push_law.
Qed.

Lemma sip_decode spacelen sipid c b l tail :
  sip_ok spacelen sipid c →
  decode_sip_target_announcement (wire_body (sip_fields sipid c) ++ tail)
    (zlen (wire_body (sip_fields sipid c))) b l spacelen = Ok (0, sip_view sipid c b).
Proof.
  intros [Hli ? ? ? Hu Hr Hrl]. unfold decode_sip_target_announcement, sip_fields.
  rewrite (decode_message_wire _ _
    ([(λ '(t, _), (t, c.(ic_liid)));
      (λ s, (set_si_username_len (zlen (until_nul (str_val sipid.(si_username))))
              (set_si_username (Some (str_val sipid.(si_username))) s.1), s.2))] ++
     match sipid.(si_realm) with
     | Some _ => [λ s, (set_si_realm_len (zlen (until_nul (str_val sipid.(si_realm))))
                        (set_si_realm (Some (str_val sipid.(si_realm))) s.1), s.2)]
     | None => [] end)).
  - unfold sip_view. run_outcome. rewrite good_str_until, Hu, Hrl by done.
    rewrite <- (good_str_some (si_username sipid)) by done.
    destruct (good_str_some _ si_ok_user0).
    destruct Hr as [[-> _]|[Hr _]]; simpl.
    + by rewrite (good_str_some _ si_ok_user0).
    + rewrite (good_str_some _ si_ok_user0), (good_str_some _ Hr). simpl.
      by rewrite (good_str_until _ Hr).
  - destruct (si_realm sipid); [destruct Hr as [[? _]|[? ?]]; [done|]|
      destruct Hr as [[_ ?]|[(? & ? & _) ?]]; [|done]]; understand.
Qed.

Program Definition sip_format (spacelen : Z) (wd : bool)
    : wire_format (openli_sip_identity_t * voipintercept_t) (openli_sip_identity_t * cstring) := {|
  wm_type := if wd then OPENLI_PROTO_WITHDRAW_SIP_TARGET else OPENLI_PROTO_ANNOUNCE_SIP_TARGET;
  wm_push ra _ '(s, v) := if wd then push_sip_target_withdrawal_onto_net_buffer ra s v
                          else push_sip_target_onto_net_buffer ra s v;
  wm_decode mem len '(s, l) := if wd then decode_sip_target_withdraw mem len s l spacelen
                               else decode_sip_target_announcement mem len s l spacelen;
  wm_ok '(s, v) := sip_ok spacelen s v.(vi_common);
  wm_fields '(s, v) := sip_fields s v.(vi_common);
  wm_view '(s, v) '(b, _) := sip_view s v.(vi_common) b;
|}.
Next Obligation. by intros _ []. Qed.
Next Obligation.
  intros sp _ [s v] [? ? ? ? ? Hr Hl]. unfold sip_fields.
  destruct (si_realm s); [destruct Hr as [[? _]|[? _]]; [done|]|]; cbn [app]; len_lia.
Qed.
Next Obligation.
  intros sp [] ra noret [s v] _ Hok; apply (sip_push ra sp); auto.
Qed.
Next Obligation. intros sp [] [s v] [b l] tail Hok; by apply sip_decode. Qed.

Record email_target_ok (spacelen : Z) (tgt : email_target_t) (c : intercept_common_t) : Prop := {
  et_ok_liid : good_str c.(ic_liid);
  et_ok_liid_len : c.(ic_liid_len) = str_len c.(ic_liid);
  et_ok_space : str_len c.(ic_liid) < spacelen;
  et_ok_address : good_str tgt.(et_address);
  et_ok_nonempty : str_val tgt.(et_address) ≠ [];
}.

Definition email_target_fields (tgt : email_target_t) (c : intercept_common_t)
    : list (Z * bytes) :=
  [(field_code OPENLI_PROTO_FIELD_LIID, str_val c.(ic_liid));
   (field_code OPENLI_PROTO_FIELD_EMAIL_TARGET, str_val tgt.(et_address))].

Lemma email_target_push ra spacelen tgt em (t : openli_proto_msgtype_t) :
  t = OPENLI_PROTO_ANNOUNCE_EMAIL_TARGET ∨ t = OPENLI_PROTO_WITHDRAW_EMAIL_TARGET →
  email_target_ok spacelen tgt em.(em_common) →
  ∃ r, r ≠ -1 ∧ appends ra (push_email_target_onto_net_buffer_generic ra tgt em t)
    (wire_frame t 0 (wire_body (email_target_fields tgt em.(em_common)))) r.
Proof.
  intros Ht []. unfold push_email_target_onto_net_buffer_generic, EMAILTARGET_BODY_LEN,
    email_target_fields.
  assert (0 ≤ msgtype_code t) by (destruct Ht as [->| ->]; done).
  push_law.
Qed.

Lemma email_target_decode spacelen tgt c b l tail :
  email_target_ok spacelen tgt c →
  decode_email_target_announcement (wire_body (email_target_fields tgt c) ++ tail)
    (zlen (wire_body (email_target_fields tgt c))) b l spacelen
  = Ok (0, ({| et_address := tgt.(et_address); et_awaitingconfirm := 0 |}, c.(ic_liid))).
Proof.
  intros []. unfold decode_email_target_announcement, email_target_fields.
  rewrite (decode_message_wire _ _
    [(λ '(t, _), (t, c.(ic_liid))); (λ '(t, l), (set_et_address (Some (str_val tgt.(et_address))) t, l))]).
  - run_outcome. simpl. by rewrite <- (good_str_some (et_address tgt)) by done.
  - understand.
Qed.

Program Definition email_target_format (spacelen : Z) (wd : bool)
    : wire_format (email_target_t * emailintercept_t) (email_target_t * cstring) := {|
  wm_type := if wd then OPENLI_PROTO_WITHDRAW_EMAIL_TARGET
             else OPENLI_PROTO_ANNOUNCE_EMAIL_TARGET;
  wm_push ra _ '(t, em) := if wd then push_email_target_withdrawal_onto_net_buffer ra t em
                           else push_email_target_onto_net_buffer ra t em;
  wm_decode mem len '(t, l) := if wd then decode_email_target_withdraw mem len t l spacelen
                               else decode_email_target_announcement mem len t l spacelen;
  wm_ok '(t, em) := email_target_ok spacelen t em.(em_common);
  wm_fields '(t, em) := email_target_fields t em.(em_common);
  wm_view '(t, em) _ :=
    ({| et_address := t.(et_address); et_awaitingconfirm := 0 |}, em.(em_common).(ic_liid));
|}.
Next Obligation. by intros _ []. Qed.
Next Obligation. intros sp _ [t em] []. unfold email_target_fields. len_lia. Qed.
Next Obligation.
  intros sp [] ra noret [t em] _ Hok; apply (email_target_push ra sp); auto.
Qed.
Next Obligation. intros sp [] [t em] [b l] tail Hok; by apply email_target_decode. Qed.
