(* ===== verification/NetSamples.v ===== *)
(** * Sample configuration objects

    A small configuration of the kind the provisioner distributes, with the
    proofs that its objects can be sent; the examples of the protocol files use
    it. *)

From S2P Require Import Prelude Protocol Intercept NetFormat NetMessages.

Definition str (s : string) : cstring := Some (of_string s).

Ltac solve_good_str :=
  eexists; split; [reflexivity|split; [apply (bool_decide_unpack _); vm_compute; exact I|by vm_compute]].

Ltac sample_ok :=
  split; first [done | solve_good_str | by vm_compute | right; solve_good_str
               | right; split; [solve_good_str|done]].

Definition sample_lea : liagency_t :=
  {| lea_hi2_ipstr := str "10.0.0.1"; lea_hi2_portstr := str "41002";
     lea_hi3_ipstr := str "10.0.0.1"; lea_hi3_portstr := str "41003";
     lea_agencyid := str "police"; lea_keepalivefreq := 120; lea_keepalivewait := 30 |}.

Lemma sample_lea_ok : lea_ok sample_lea.
Proof. sample_ok. Defined.

Definition sample_common : intercept_common_t :=
  {| ic_liid := str "LIID001"; ic_authcc := str "NZ"; ic_delivcc := str "NZ";
     ic_liid_len := 7; ic_authcc_len := 2; ic_delivcc_len := 2; ic_destid := 6001;
     ic_targetagency := str "police"; ic_seqtrackerid := 0; ic_hi1_seqno := 0;
     ic_tostart_time := 1700000000; ic_toend_time := 1800000000; ic_tomediate := 0;
     ic_encrypt := 1; ic_encryptkey := str "0123456789abcdef" |}.

Lemma sample_common_ok : common_ok sample_common.
Proof. sample_ok. Defined.

Definition sample_static : static_ipranges_t :=
  {| sr_rangestr := str "192.0.2.0/24"; sr_liid := str "LIID001"; sr_cin := 1;
     sr_awaitingconfirm := 0 |}.

Definition sample_ip : ipintercept_t :=
  {| ip_common := sample_common; ip_username := str "alice"; ip_username_len := 5;
     ip_accesstype := 3; ip_vendmirrorid := 77; ip_statics := [sample_static];
     ip_awaitingconfirm := 0; ip_options := 1 |}.

Lemma sample_ip_ok : ip_ok sample_ip.
Proof. split; [apply sample_common_ok|right; solve_good_str|done..]. Defined.

Lemma sample_static_ok : static_ok sample_ip sample_static.
Proof. sample_ok. Defined.

Definition sample_voip : voipintercept_t :=
  {| vi_internalid := 9; vi_common := sample_common; vi_targets := []; vi_options := 1;
     vi_awaitingconfirm := 0; vi_active := 1 |}.

Lemma sample_voip_ok : voip_ok sample_voip.
Proof. split; [apply sample_common_ok|done]. Defined.

Definition sample_email : emailintercept_t :=
  {| em_common := sample_common; em_targets := []; em_awaitingconfirm := 0;
     em_delivercompressed := 1 |}.

Lemma sample_email_ok : email_ok sample_email.
Proof. split; [apply sample_common_ok|done]. Defined.

Lemma sample_halt_ok : halt_ok sample_common.
Proof. sample_ok. Defined.

Definition sample_sip : openli_sip_identity_t :=
  {| si_username := str "bob"; si_username_len := 3; si_realm := str "example.org";
     si_realm_len := 11; si_awaitingconfirm := 0; si_active := 1 |}.

Lemma sample_sip_ok : sip_ok 256 sample_sip sample_common.
Proof. sample_ok. Defined.

Definition sample_target : email_target_t :=
  {| et_address := str "carol@example.org"; et_awaitingconfirm := 0 |}.

Lemma sample_target_ok : email_target_ok 256 sample_target sample_common.
Proof. sample_ok. Defined.

Definition sample_hi1 : hi1_notify_data_t :=
  {| nd_notify_type := 0; nd_liid := str "LIID001"; nd_authcc := str "NZ";
     nd_delivcc := str "NZ"; nd_agencyid := str "police"; nd_seqno := 3;
     nd_ts_sec := 1700000000; nd_ts_usec := 5; nd_target_info := str "alice" |}.

Lemma sample_hi1_ok : hi1_ok sample_hi1.
Proof. sample_ok. Defined.

Definition sample_mediator : openli_mediator_t :=
  {| med_mediatorid := 6001; med_ipstr := str "10.0.0.9"; med_portstr := str "12009" |}.
