(* ===== verification/NetSafety.v ===== *)
(** * The decoders on arbitrary input

    A message comes from the network, so a decoder can be given any bytes.
    Every decoder stops, returns 0 or -1, and reads at most seven bytes past
    the end of the message; it really does read past it on some messages. *)

From S2P Require Import Prelude ByteOrder Protocol Intercept NetBuffer NetDecode.

(** ** One field *)

(** How far past the end of a message a decoder may read: a fixed-width member
    of up to eight bytes is read whatever the length of its field is. *)
Definition overread : Z := 7.

Lemma read_ntohs mem :
  all_bytes mem → 2 ≤ zlen mem → ∃ v, read_le 2 mem = Ok v ∧ 0 ≤ ntohs v < 65536.
Proof.
  intros Hb Hn. destruct mem as [|b0 [|b1 mem]]; [done..|].
  unfold all_bytes in Hb. rewrite !Forall_cons in Hb. destruct Hb as (H0 & H1 & _).
  exists (le_val [b0; b1]). split; [by apply (read_le_app 2 [b0; b1])|].
  unfold ntohs. rewrite byteswap16_val by done.
  apply (le_val_range [b1; b0]). unfold all_bytes. eauto using Forall_cons_2, Forall_nil_2.
Qed.

Lemma all_bytes_zdrop n mem : all_bytes mem → all_bytes (zdrop n mem).
Proof. apply Forall_drop. Qed.

(** [decode_tlv] on any bytes: an error, or a field that lies inside the
    message. *)
Lemma decode_tlv_safe mem rem :
  all_bytes mem → 0 < rem → rem + overread ≤ zlen mem →
  decode_tlv mem rem = Ok None ∨
  ∃ f vallen, decode_tlv mem rem = Ok (Some (f, vallen, zdrop 4 mem)) ∧
    0 ≤ vallen ∧ vallen + 4 ≤ rem ∧ 4 < rem.
Proof.
  unfold overread. intros Hb Hr Hm. unfold decode_tlv.
  destruct (read_ntohs mem Hb) as (t & -> & _); [lia|]. run_outcome.
  destruct (Z.leb_spec rem 2); [by left|].
  destruct (read_ntohs (zdrop 2 mem) (all_bytes_zdrop 2 _ Hb)) as (l & -> & Hl);
    [rewrite zlen_zdrop; lia|]. run_outcome.
  destruct (Z.leb_spec rem 4); [by left|].
  destruct (Z.ltb_spec rem (4 + ntohs l)); [by left|].
  right. eexists _, _. split; [done|lia].
Qed.

(** A loop body that is defined whenever the value and eight bytes are
    readable. *)
Definition safe_handler {S} (h : handler S) : Prop := ∀ f vallen valptr s,
  0 ≤ vallen ≤ zlen valptr → 8 ≤ zlen valptr → ∃ os, h f vallen valptr s = Ok os.

(** A decoder that is defined on any message. *)
Definition safe_decoder {S} (d : bytes → Z → S → outcome (Z * S)) : Prop := ∀ mem len s,
  all_bytes mem → 0 ≤ len < 65536 → len + overread ≤ zlen mem →
  ∃ rc s', d mem len s = Ok (rc, s') ∧ (rc = 0 ∨ rc = -1).

Lemma decode_fields_safe {S} (h : handler S) fuel : ∀ mem rem s,
  safe_handler h → all_bytes mem → 0 ≤ rem ≤ Z.of_nat fuel → rem + overread ≤ zlen mem →
  ∃ rc s', decode_fields h fuel mem rem s = Ok (rc, s') ∧ (rc = 0 ∨ rc = -1).
Proof.
  induction fuel as [|fuel IH]; intros mem rem s Hh Hb Hr Hm; simpl.
  { rewrite (proj2 (Z.leb_le _ _)) by lia. eauto. }
  destruct (Z.leb_spec rem 0); [eauto|].
  destruct (decode_tlv_safe mem rem Hb) as [->|(f & vallen & -> & Hv & Hle & H4)];
    [lia|lia|run_outcome; eauto|]. run_outcome.
  unfold overread in *.
  assert (zlen (zdrop 4 mem) = zlen mem - 4) as Hl by (apply zlen_zdrop; lia).
  destruct (Hh f vallen (zdrop 4 mem) s) as [[s'|] ->]; [lia|lia| |run_outcome; eauto].
  run_outcome. apply IH; [done|by apply all_bytes_zdrop|lia|].
  rewrite zlen_zdrop; lia.
Qed.

Lemma decode_message_safe {S} (h : handler S) : safe_handler h → safe_decoder (decode_message h).
Proof.
  intros Hh mem len s Hb Hl Hm. unfold decode_message.
  apply decode_fields_safe; [done|done|lia|done].
Qed.

(** ** The loop bodies *)

Lemma store_safe {S} n (set : Z → S → S) valptr s :
  Z.of_nat n ≤ 8 → 8 ≤ zlen valptr → ∃ os, store n set valptr s = Ok os.
Proof.
  intros. destruct (read_le_Ok n valptr) as [v Hv]; [lia|].
  unfold store. rewrite Hv. by eexists.
Qed.

(** Reads the value of the field, then whatever the arm does with it. *)
Ltac safe_arm :=
  lazymatch goal with
  | |- ∃ os, store _ _ _ _ = Ok os => apply store_safe; lia
  | |- _ =>
      unfold store_str, store_str_len, store_liid;
      repeat case_match; run_outcome;
      rewrite ?read_bytes_Ok by lia; run_outcome; eauto
  end.

(** Split the chain of comparisons on the field type. *)
Ltac safe_field :=
  intros f vallen valptr s Hv H8;
  repeat match goal with |- context [if ?f =? ?c then _ else _] => destruct (f =? c) end;
  safe_arm.

Lemma common_field_safe {S} sub f vallen valptr (s : S) :
  0 ≤ vallen ≤ zlen valptr → 8 ≤ zlen valptr →
  common_field sub f vallen valptr s = None ∨
  ∃ os, common_field sub f vallen valptr s = Some (Ok os).
Proof.
  intros Hv H8. unfold common_field.
  repeat match goal with |- context [if ?f =? ?c then _ else _] => destruct (f =? c) end;
    try (by left); right;
    lazymatch goal with
    | |- context [store ?n ?set _ _] =>
        destruct (store_safe n set valptr s) as [os ->]; [lia|lia|eauto]
    | |- _ => unfold store_str, store_str_len; rewrite read_bytes_Ok by lia; run_outcome; eauto
    end.
Qed.

Lemma emailintercept_field_safe : safe_handler emailintercept_field.
Proof.
  intros f vallen valptr s Hv H8. unfold emailintercept_field.
  destruct (common_field_safe (@in_em) f vallen valptr s Hv H8) as [->|[os ->]]; [|eauto].
  destruct (f =? _); safe_arm.
Qed.

Lemma voipintercept_field_safe : safe_handler voipintercept_field.
Proof.
  intros f vallen valptr s Hv H8. unfold voipintercept_field.
  destruct (common_field_safe (@in_vi) f vallen valptr s Hv H8) as [->|[os ->]]; [|eauto].
  repeat destruct (f =? _); safe_arm.
Qed.

Lemma ipintercept_field_safe : safe_handler ipintercept_field.
Proof.
  intros f vallen valptr s Hv H8. unfold ipintercept_field.
  destruct (f =? OPENLI_PROTO_FIELD_LIID); [safe_arm|].
  destruct (common_field_safe (@in_ip) f vallen valptr s Hv H8) as [->|[os ->]]; [|eauto].
  repeat match goal with |- context [if f =? ?c then _ else _] => destruct (f =? c) end; safe_arm.
Qed.

Lemma mediator_field_safe : safe_handler mediator_field.
Proof. unfold mediator_field. safe_field. Qed.
Lemma email_target_field_safe spacelen : safe_handler (email_target_field spacelen).
Proof. unfold email_target_field. safe_field. Qed.
Lemma sip_target_field_safe spacelen : safe_handler (sip_target_field spacelen).
Proof. unfold sip_target_field. safe_field. Qed.
Lemma coreserver_field_safe : safe_handler coreserver_field.
Proof. unfold coreserver_field. safe_field. Qed.
Lemma default_radius_field_safe : safe_handler default_radius_field.
Proof. unfold default_radius_field. safe_field. Qed.
Lemma staticip_field_safe : safe_handler staticip_field.
Proof. unfold staticip_field. safe_field. Qed.
Lemma hi1_field_safe : safe_handler hi1_field.
Proof. unfold hi1_field. safe_field. Qed.
Lemma lea_field_safe : safe_handler lea_field.
Proof. unfold lea_field. safe_field. Qed.
Lemma email_compression_field_safe : safe_handler email_compression_field.
Proof. unfold email_compression_field. safe_field. Qed.
Lemma liid_mapping_field_safe : safe_handler liid_mapping_field.
Proof. unfold liid_mapping_field. safe_field. Qed.
Lemma cease_mediation_field_safe : safe_handler cease_mediation_field.
Proof. unfold cease_mediation_field. safe_field. Qed.

(** A decoder that initialises its object, runs the loop and then checks what
    it got. *)
Ltac safe_by H :=
  let mem := fresh in let len := fresh in let s := fresh in
  let Hb := fresh in let Hl := fresh in let Hm := fresh in
  let rc := fresh in let s' := fresh in let Hrc := fresh in
  intros mem len s Hb Hl Hm;
  lazymatch goal with
  | |- context [decode_message ?h mem len ?x] =>
      destruct (decode_message_safe h H mem len x Hb Hl Hm) as (rc & s' & -> & Hrc)
  end;
  run_outcome; repeat case_match; eauto.

(** C26: every decoder, on any bytes of the message and after it, terminates and
    returns 0 or -1, as long as seven bytes after the message are readable. *)
Theorem decoders_safe :
  safe_decoder decode_emailintercept_start ∧
  safe_decoder decode_voipintercept_start ∧
  safe_decoder decode_ipintercept_start ∧
  safe_decoder decode_mediator_announcement ∧
  (∀ liidspace spacelen, safe_decoder (λ mem len '(tgt, _),
     decode_email_target_announcement mem len tgt liidspace spacelen)) ∧
  (∀ liidspace spacelen, safe_decoder (λ mem len '(sipid, _),
     decode_sip_target_announcement mem len sipid liidspace spacelen)) ∧
  safe_decoder decode_coreserver_announcement ∧
  safe_decoder decode_default_radius_announcement ∧
  safe_decoder decode_staticip_announcement ∧
  safe_decoder decode_hi1_notification ∧
  safe_decoder decode_lea_announcement ∧
  safe_decoder decode_default_email_compression_announcement ∧
  safe_decoder (λ mem len '(agency, liid), decode_liid_mapping mem len agency liid) ∧
  safe_decoder decode_cease_mediation.
Proof.
  split_and!.
  - unfold decode_emailintercept_start. safe_by emailintercept_field_safe.
  - unfold decode_voipintercept_start. safe_by voipintercept_field_safe.
  - unfold decode_ipintercept_start. safe_by ipintercept_field_safe.
  - unfold decode_mediator_announcement. safe_by mediator_field_safe.
  - intros liidspace spacelen mem len [tgt x]. revert mem len x.
    unfold decode_email_target_announcement. safe_by (email_target_field_safe spacelen).
  - intros liidspace spacelen mem len [tgt x]. revert mem len x.
    unfold decode_sip_target_announcement. safe_by (sip_target_field_safe spacelen).
  - unfold decode_coreserver_announcement. safe_by coreserver_field_safe.
  - unfold decode_default_radius_announcement. safe_by default_radius_field_safe.
  - unfold decode_staticip_announcement. safe_by staticip_field_safe.
  - unfold decode_hi1_notification. safe_by hi1_field_safe.
  - unfold decode_lea_announcement. safe_by lea_field_safe.
  - unfold decode_default_email_compression_announcement. safe_by email_compression_field_safe.
  - intros mem len [agency liid]. revert mem len liid. unfold decode_liid_mapping.
    safe_by liid_mapping_field_safe.
  - unfold decode_cease_mediation. safe_by cease_mediation_field_safe.
Qed.

(** The seven bytes are needed.  A five-byte message whose one field is an
    intercept start time of length 1 passes the checks of [decode_tlv], and the
    decoder then reads eight bytes for it: with [k] bytes after the message the
    read is defined exactly when [k] is at least 7. *)
Theorem start_time_overread (b : Z) (after : bytes) (i : ipintercept_t) :
  let msg := be_bytes 2 OPENLI_PROTO_FIELD_INTERCEPT_START_TIME ++ be_bytes 2 1 ++ [b] in
  (zlen after < overread → decode_ipintercept_start (msg ++ after) 5 i = Undef) ∧
  (overread ≤ zlen after →
     ∃ i', decode_ipintercept_start (msg ++ after) 5 i = Ok (0, i') ∧
       i'.(ip_common).(ic_tostart_time) = le_val (b :: ztake 7 after)).
Proof.
  unfold overread. split.
  - intros Hlt. unfold zlen in Hlt. do 7 (destruct after as [|? after]; [reflexivity|]).
    simpl in Hlt. lia.
  - intros Hge. unfold zlen in Hge. do 7 (destruct after as [|? after]; [simpl in Hge; lia|]).
    eexists. split; reflexivity.
Qed.

Lemma start_time_overread_witness :
  decode_ipintercept_start
    (be_bytes 2 OPENLI_PROTO_FIELD_INTERCEPT_START_TIME ++ be_bytes 2 1 ++ [7])
    5 {| ip_common := {| ic_liid := None; ic_authcc := None; ic_delivcc := None;
           ic_liid_len := 0; ic_authcc_len := 0; ic_delivcc_len := 0; ic_destid := 0;
           ic_targetagency := None; ic_seqtrackerid := 0; ic_hi1_seqno := 0;
           ic_tostart_time := 0; ic_toend_time := 0; ic_tomediate := 0; ic_encrypt := 0;
           ic_encryptkey := None |};
         ip_username := None; ip_username_len := 0; ip_accesstype := 0; ip_vendmirrorid := 0;
         ip_statics := []; ip_awaitingconfirm := 0; ip_options := 0 |} = Undef.
Proof. apply (start_time_overread 7 []). done. Defined.
