(* ===== verification/NetStream.v ===== *)
(** * The protocol over a byte stream

    What [receive_net_buffer] delivers when the peer's messages arrive cut
    into arbitrary pieces, how large the receive buffer can grow, and the
    end-to-end theorem: messages pushed on one side are decoded on the other. *)

From S2P Require Import Prelude ByteOrder Protocol Intercept NetBuffer NetPush NetDecode.
From S2P Require Import NetFormat NetMessages NetSamples NetSafety.

(** ** Frames *)

Record frame : Type := Mkframe {
  fr_type : Z;
  fr_intid : Z;
  fr_body : bytes;
}.

(** Type 1 is [OPENLI_PROTO_NO_MESSAGE], which no component sends. *)
Record frame_ok (f : frame) : Prop := {
  fr_ok_type : 0 ≤ f.(fr_type) < 65536;
  fr_ok_message : f.(fr_type) ≠ OPENLI_PROTO_NO_MESSAGE;
  fr_ok_intid : 0 ≤ f.(fr_intid) < 2 ^ 64;
  fr_ok_body : zlen f.(fr_body) < 65536;
}.

Definition frame_bytes (f : frame) : bytes := wire_frame f.(fr_type) f.(fr_intid) f.(fr_body).
Definition stream_bytes (fs : list frame) : bytes := concat (frame_bytes <$> fs).

Lemma zlen_frame f : zlen (frame_bytes f) = 16 + zlen f.(fr_body).
Proof. unfold frame_bytes, wire_frame. zlia. Qed.
#[export] Hint Rewrite zlen_frame : zlen.

(** The memory and length a receiver gets for a frame followed by [rest]. *)
Definition frame_message (f : frame) (rest : bytes) : received_t :=
  {| rm_mem := f.(fr_body) ++ rest; rm_len := zlen f.(fr_body); rm_intid := f.(fr_intid) |}.

(** ** Parsing one message *)

(** The header fields of a content that starts with a header. *)
Lemma read_header t l i rest :
  0 ≤ t < 65536 → 0 ≤ l < 65536 → 0 ≤ i < 2 ^ 64 →
  ∃ a b c d,
    read_le 4 (wire_header t l i ++ rest) = Ok a ∧ ntohl a = OPENLI_PROTO_MAGIC ∧
    read_le 2 (zdrop 4 (wire_header t l i ++ rest)) = Ok b ∧ ntohs b = l ∧
    read_le 2 (zdrop 6 (wire_header t l i ++ rest)) = Ok c ∧ ntohs c = t ∧
    read_le 8 (zdrop 8 (wire_header t l i ++ rest)) = Ok d ∧ bswap_be_to_host64 d = i.
Proof.
  intros Ht Hl Hi. unfold wire_header. rewrite <- !app_assoc.
  destruct (read_swapped 4 ntohl OPENLI_PROTO_MAGIC
    (be_bytes 2 l ++ be_bytes 2 t ++ be_bytes 8 i ++ rest) htonl_reverses) as (a & Ha & Ha');
    [done|].
  destruct (read_swapped 2 ntohs l (be_bytes 2 t ++ be_bytes 8 i ++ rest) htons_reverses)
    as (b & Hb & Hb'); [done|].
  destruct (read_swapped 2 ntohs t (be_bytes 8 i ++ rest) htons_reverses)
    as (c & Hc & Hc'); [done|].
  destruct (read_swapped 8 bswap_be_to_host64 i rest bswap64_reverses)
    as (d & Hd & Hd'); [done|].
  by exists a, b, c, d.
Qed.

(** What consuming a message keeps of the buffer. *)
Definition same_block (nb nb' : net_buffer_t) : Prop :=
  same_conn nb nb' ∧ nb'.(nb_alloced) = nb.(nb_alloced).

Lemma parse_frame nb f rest :
  nb_wf nb → frame_ok f → nb_content nb = frame_bytes f ++ rest →
  ∃ nb', parse_received_message nb = Ok (f.(fr_type), Some (frame_message f rest), nb') ∧
    nb_wf nb' ∧ nb_content nb' = rest ∧ same_block nb nb'.
Proof.
  intros Hwf [Ht _ Hi Hb] Hc. pose proof (zlen_content nb Hwf) as Hl. rewrite Hc in Hl.
  autorewrite with zlen in Hl. zlen_pose.
  unfold parse_received_message. rewrite (proj2 (Z.ltb_ge _ _)) by (unfold sizeof_ii_header_t; lia).
  unfold frame_bytes, wire_frame in Hc. rewrite <- app_assoc in Hc. rewrite Hc.
  destruct (read_header (fr_type f) (zlen (fr_body f)) (fr_intid f) (fr_body f ++ rest))
    as (a & b & c & d & -> & Ha & -> & Hb' & -> & Hc' & -> & Hd); [done|lia|done|].
  run_outcome. rewrite Ha, Z.eqb_refl. cbn [negb].
  rewrite Hb', (proj2 (Z.ltb_ge _ _)), Hc', Hd by (unfold sizeof_ii_header_t; lia).
  destruct (nb_act_content nb (zlen (fr_body f) + 16) Hwf) as [Hwf' Hct]; [lia|].
  eexists. split; [|split; [exact Hwf'|split; [|done]]].
  - unfold frame_message, sizeof_ii_header_t. by rewrite zdrop_app by zlia.
  - rewrite Hct, Hc, app_assoc. by apply zdrop_app; zlia.
Qed.

Lemma parse_partial nb f :
  nb_wf nb → frame_ok f → nb_content nb `prefix_of` frame_bytes f →
  zlen (nb_content nb) < zlen (frame_bytes f) →
  parse_received_message nb = Ok (msgtype_code OPENLI_PROTO_NO_MESSAGE, None, nb).
Proof.
  intros Hwf [Ht _ Hi Hb] [q Hq] Hlt. pose proof (zlen_content nb Hwf) as Hl.
  unfold parse_received_message.
  destruct (Z.ltb_spec (NETBUF_CONTENT_SIZE nb) sizeof_ii_header_t) as [|Hge]; [done|].
  unfold frame_bytes, wire_frame, sizeof_ii_header_t in *.
  (* the content holds the whole header *)
  assert (nb_content nb = wire_header f.(fr_type) (zlen f.(fr_body)) f.(fr_intid)
            ++ zdrop 16 (nb_content nb)) as Hc.
  { rewrite <- (ztake_zdrop 16 (nb_content nb)) at 1. f_equal.
    apply (f_equal (ztake 16)) in Hq. rewrite ztake_app in Hq by zlia.
    unfold ztake in *. rewrite take_app_le in Hq by (unfold zlen in *; lia). done. }
  rewrite Hc. zlen_pose.
  destruct (read_header f.(fr_type) (zlen f.(fr_body)) f.(fr_intid) (zdrop 16 (nb_content nb)))
    as (a & b & c & d & -> & Ha & -> & Hb' & _); [done|lia|done|].
  run_outcome. rewrite Ha, Z.eqb_refl. cbn [negb].
  rewrite Hb', (proj2 (Z.ltb_lt _ _)); [done|]. rewrite zlen_app, zlen_wire_header in Hlt. lia.
Qed.

Lemma parse_empty nb :
  nb_wf nb → nb_content nb = [] →
  parse_received_message nb = Ok (msgtype_code OPENLI_PROTO_NO_MESSAGE, None, nb).
Proof.
  intros Hwf Hc. pose proof (zlen_content nb Hwf) as Hl. rewrite Hc, zlen_nil in Hl.
  unfold parse_received_message. by rewrite <- Hl.
Qed.

(** ** Cutting a stream *)

(** A prefix of a stream of frames either holds the first frame or is a strict
    prefix of it. *)
Lemma stream_split p q fs :
  p ++ q = stream_bytes fs →
  (fs = [] ∧ p = [] ∧ q = []) ∨
  (∃ f fs', fs = f :: fs' ∧
     ((∃ p', p = frame_bytes f ++ p' ∧ p' ++ q = stream_bytes fs') ∨
      (p `prefix_of` frame_bytes f ∧ zlen p < zlen (frame_bytes f)))).
Proof.
  intros H. destruct fs as [|f fs']; [left; by apply app_nil in H|].
  right. exists f, fs'. split; [done|].
  change (p ++ q = frame_bytes f ++ stream_bytes fs') in H.
  destruct (decide (zlen (frame_bytes f) ≤ zlen p)) as [Hle|Hgt].
  - left. exists (zdrop (zlen (frame_bytes f)) p).
    assert (ztake (zlen (frame_bytes f)) p = frame_bytes f) as Hp.
    { apply (f_equal (ztake (zlen (frame_bytes f)))) in H. rewrite (ztake_app _ (frame_bytes f)) in H by done.
      unfold ztake in H |- *. rewrite take_app_le in H; [exact H|]. unfold zlen in *. lia. }
    split; [by rewrite <- Hp at 1; rewrite ztake_zdrop|].
    apply (f_equal (zdrop (zlen (frame_bytes f)))) in H.
    rewrite (zdrop_app _ (frame_bytes f)) in H by done. by rewrite zdrop_app_le in H.
  - right. split; [|lia].
    destruct (prefix_weak_total p (frame_bytes f) (frame_bytes f ++ stream_bytes fs')) as [|[k Hk]].
    + rewrite <- H. by apply prefix_app_r.
    + by apply prefix_app_r.
    + done.
    + rewrite Hk in Hgt. exfalso. zlia.
Qed.

(** ** Receiving a stream in pieces *)

(** The loop of the receiving components: call [receive_net_buffer] until the
    socket has nothing more, collecting the messages.  [chunks] are the pieces
    in which the kernel hands over the stream. *)
Fixpoint receive_all (realloc_ok : Z → bool) (fuel : nat) (nb : net_buffer_t)
    (chunks : list bytes) : outcome (list (Z * received_t) * net_buffer_t) :=
  match fuel with
  | O => Ok ([], nb)
  | S fuel =>
      let res := match chunks with [] => RecvWouldBlock | c :: _ => Received c end in
      '(t, msg, onb, asked) ← receive_net_buffer realloc_ok (Some nb) res;
      match onb with
      | None => Undef
      | Some nb' =>
          let chunks' := if (asked : bool) then tail chunks else chunks in
          match msg with
          | Some m =>
              '(l, nb'') ← receive_all realloc_ok fuel nb' chunks'; Ok ((t, m) :: l, nb'')
          | None => match chunks with
                    | [] => Ok ([], nb')
                    | _ => receive_all realloc_ok fuel nb' chunks'
                    end
          end
      end
  end.

(** The size of a receive buffer: one to five allocation units. *)
Definition recv_size (nb : net_buffer_t) : Prop :=
  ∃ k, nb.(nb_alloced) = k * NETBUF_ALLOC_SIZE ∧ 1 ≤ k ≤ 5.

Section stream.
Context (realloc_ok : Z → bool).
Hypothesis realloc_grants : ∀ n, n ≤ 5 * NETBUF_ALLOC_SIZE → realloc_ok n = true.

(** Making room before a read: the content is less than a message, so the
    block never needs more than five units. *)
Lemma extend_recv nb :
  nb_wf nb → recv_size nb → zlen (nb_content nb) < 65552 →
  NETBUF_SPACE_REM nb < NETBUF_ALLOC_SIZE →
  ∃ nb', extend_net_buffer realloc_ok nb NETBUF_ALLOC_SIZE = Ok (0, nb') ∧
    nb_wf nb' ∧ recv_size nb' ∧ nb_content nb' = nb_content nb ∧ same_conn nb nb' ∧
    NETBUF_ALLOC_SIZE ≤ NETBUF_SPACE_REM nb'.
Proof.
  intros Hwf (k & Hk & Hk5) Hlen Hsp. pose proof (zlen_content nb Hwf) as Hl.
  assert (∃ nb', extend_net_buffer realloc_ok nb NETBUF_ALLOC_SIZE = Ok (0, nb') ∧
            recv_size nb') as (nb' & He & Hrs).
  { destruct Hwf as [Ha Hd]. unfold extend_net_buffer, recv_size.
    unfold NETBUF_SPACE_REM, NETBUF_CONTENT_SIZE, NETBUF_FRONT_FREE in *.
    destruct (Z.leb_spec (3 * nb_alloced nb) (4 * nb_act nb)) as [Hle|Hgt]; cbn [andb].
    - destruct (Z.leb_spec NETBUF_ALLOC_SIZE (nb_alloced (nb_compact nb) - zlen (nb_data (nb_compact nb))))
        as [|Hs2]; [eexists; split; [done|]; simpl; eauto|]. simpl in Hs2.
      assert (k = 1) as -> by (unfold NETBUF_ALLOC_SIZE in *; lia).
      cbn [nb_compact nb_alloced]. rewrite Hk, realloc_grants by (unfold NETBUF_ALLOC_SIZE; lia).
      eexists; split; [done|]. exists 2. split; [done|lia].
    - assert (k ≤ 4) by (unfold NETBUF_ALLOC_SIZE in *; lia).
      rewrite Hk, (proj2 (Z.ltb_ge _ _)), realloc_grants by (unfold NETBUF_ALLOC_SIZE, INT_MAX; lia).
      eexists; split; [done|]. exists (k + 1). split; simpl; lia. }
  destruct (extend_spec _ _ _ _ _ Hwf He) as (Hwf' & Hc & Hs & _ & _).
  exists nb'. split_and!; try done.
  by apply (extend_enough realloc_ok nb NETBUF_ALLOC_SIZE).
Qed.

(** A receive buffer holding [p]. *)
Record recv_state (p : bytes) (nb : net_buffer_t) : Prop := {
  rs_wf : nb_wf nb;
  rs_size : recv_size nb;
  rs_type : nb.(nb_buftype) = NETBUF_RECV;
  rs_content : nb_content nb = p;
}.

(** The content holds no complete message. *)
Definition waiting (p : bytes) : Prop :=
  p = [] ∨ ∃ f, frame_ok f ∧ p `prefix_of` frame_bytes f ∧ zlen p < zlen (frame_bytes f).

Lemma waiting_short p : waiting p → zlen p < 65552.
Proof.
  intros [->|(f & [_ _ _ Hb] & _ & Hlt)]; [done|]. rewrite zlen_frame in Hlt. lia.
Qed.

Lemma parse_waiting p nb :
  recv_state p nb → waiting p →
  parse_received_message nb = Ok (msgtype_code OPENLI_PROTO_NO_MESSAGE, None, nb).
Proof.
  intros [Hwf _ _ <-] [Hc|(f & Hf & Hp & Hlt)]; [by apply parse_empty|by eapply parse_partial].
Qed.

Lemma parse_state nb f rest :
  recv_state (frame_bytes f ++ rest) nb → frame_ok f →
  ∃ nb', parse_received_message nb = Ok (f.(fr_type), Some (frame_message f rest), nb') ∧
    recv_state rest nb'.
Proof.
  intros [Hwf [k Hk] Hty Hc] Hf.
  destruct (parse_frame nb f rest Hwf Hf Hc) as (nb' & He & Hwf' & Hc' & (_ & Hb & _) & Ha).
  exists nb'. split; [done|]. split; [done| |congruence|done]. exists k. by rewrite Ha.
Qed.

(** A message that is already in the buffer is delivered without a read. *)
Lemma receive_buffered nb f rest res :
  recv_state (frame_bytes f ++ rest) nb → frame_ok f →
  ∃ nb', receive_net_buffer realloc_ok (Some nb) res
         = Ok (f.(fr_type), Some (frame_message f rest), Some nb', false) ∧
    recv_state rest nb'.
Proof.
  intros Hs Hf. destruct (parse_state nb f rest Hs Hf) as (nb' & He & Hs').
  exists nb'. split; [|done]. unfold receive_net_buffer.
  rewrite decide_False by (destruct Hs; congruence). rewrite He. run_outcome.
  by rewrite (proj2 (Z.eqb_neq _ _) (fr_ok_message f Hf)).
Qed.

(** Otherwise the code reads, into at least one allocation unit of space. *)
Lemma receive_reads p nb res :
  recv_state p nb → waiting p →
  ∃ nb2, recv_state p nb2 ∧ NETBUF_ALLOC_SIZE ≤ NETBUF_SPACE_REM nb2 ∧
    receive_net_buffer realloc_ok (Some nb) res =
      match res with
      | RecvWouldBlock => Ok (msgtype_code OPENLI_PROTO_NO_MESSAGE, None, Some nb2, true)
      | RecvClosed => Ok (msgtype_code OPENLI_PROTO_PEER_DISCONNECTED, None, Some nb2, true)
      | RecvError => Ok (msgtype_code OPENLI_PROTO_RECV_ERROR, None, Some nb2, true)
      | Received bs =>
          if NETBUF_SPACE_REM nb2 <? zlen bs then Undef
          else '(t, m, nb3) ← parse_received_message (nb_append bs nb2);
               Ok (t, m, Some nb3, true)
      end.
Proof.
  intros Hs Hw. pose proof (parse_waiting p nb Hs Hw) as Hp.
  pose proof (waiting_short p Hw) as Hlt. destruct Hs as [Hwf Hrs Hty Hc].
  unfold receive_net_buffer. rewrite decide_False by congruence. rewrite Hp. run_outcome.
  cbn [negb Z.eqb msgtype_code Pos.eqb].
  destruct (Z.ltb_spec (NETBUF_SPACE_REM nb) NETBUF_ALLOC_SIZE) as [Hsp|Hsp].
  - destruct (extend_recv nb) as (nb2 & He & Hwf2 & Hrs2 & Hc2 & (_ & Hb2 & _) & Hsp2);
      [done..|by rewrite Hc|done|].
    exists nb2. rewrite He. split_and!; [split; congruence|done|by destruct res].
  - exists nb. split_and!; [done|done|by destruct res].
Qed.

(** A read of [c] bytes leaves the buffer holding [p ++ c]. *)
Lemma read_state p c nb :
  recv_state p nb → zlen c ≤ NETBUF_SPACE_REM nb → recv_state (p ++ c) (nb_append c nb).
Proof.
  intros [Hwf Hrs Hty Hc] Hsp.
  split; [by apply nb_append_wf|done|done|by rewrite nb_append_content, Hc].
Qed.

(** What is delivered for a list of frames: type, identifier and body of each,
    the body followed by whatever else the buffer held. *)
Definition delivered : list frame → list (Z * received_t) → Prop :=
  Forall2 (λ f tm, ∃ rest, tm = (f.(fr_type), frame_message f rest)).

Definition chunk_ok (c : bytes) : Prop := 0 < zlen c ≤ NETBUF_ALLOC_SIZE.

Lemma receive_all_spec fuel : ∀ fs chunks p nb,
  recv_state p nb → Forall frame_ok fs → Forall chunk_ok chunks →
  p ++ concat chunks = stream_bytes fs → (length chunks + length fs < fuel)%nat →
  ∃ l nb', receive_all realloc_ok fuel nb chunks = Ok (l, nb') ∧
    delivered fs l ∧ recv_state [] nb'.
Proof.
  induction fuel as [|fuel IH]; intros fs chunks p nb Hs Hfs Hcs Heq Hfuel; [lia|].
  cbn [receive_all]. destruct (stream_split _ _ _ Heq) as [(-> & -> & Hq)|(f & fs' & -> & Hcase)].
  - destruct chunks as [|c cs].
    + destruct (receive_reads [] nb RecvWouldBlock Hs) as (nb2 & Hs2 & _ & ->); [by left|].
      run_outcome. exists [], nb2. split; [done|]. by split; [constructor|].
    + exfalso. inversion_clear Hcs as [|? ? [Hc _] _]. simpl in Hq. apply app_nil in Hq as [-> _].
      done.
  - inversion_clear Hfs as [|? ? Hf Hfs'].
    destruct Hcase as [(p' & -> & Hp')|[Hpre Hlt]].
    + edestruct (receive_buffered nb f p') as (nb' & -> & Hs'); [done..|]. run_outcome.
      destruct (IH fs' chunks p' nb') as (l & nb'' & -> & Hl & Hs''); [done..|simpl in *; lia|].
      run_outcome. eexists _, nb''. split; [done|]. split; [constructor; eauto|done].
    + destruct chunks as [|c cs].
      { exfalso. apply (f_equal zlen) in Heq. unfold stream_bytes in Heq. simpl in Heq. zlia. }
      inversion_clear Hcs as [|? ? [Hc0 Hc] Hcs'].
      destruct (receive_reads p nb (Received c) Hs) as (nb2 & Hs2 & Hsp & ->).
      { right. by exists f. }
      rewrite (proj2 (Z.ltb_ge _ _)) by lia.
      pose proof (read_state p c nb2 Hs2 ltac:(lia)) as Hs3.
      simpl in Heq. rewrite app_assoc in Heq.
      destruct (stream_split _ _ _ Heq) as [(? & _)|(g & gs & Hg & Hcase)]; [done|].
      injection Hg as <- <-. destruct Hcase as [(p' & Hp & Hp')|[Hpre' Hlt']].
      * rewrite Hp in Hs3. destruct (parse_state _ f p' Hs3 Hf) as (nb' & -> & Hs').
        run_outcome. cbn [tail].
        destruct (IH fs' cs p' nb') as (l & nb'' & -> & Hl & Hs''); [done..|simpl in *; lia|].
        run_outcome. eexists _, nb''. split; [done|]. split; [constructor; eauto|done].
      * rewrite (parse_waiting _ _ Hs3) by (right; by exists f). run_outcome. cbn [tail].
        apply (IH (f :: fs') cs (p ++ c)); first [done | by constructor | simpl in *; lia].
Qed.

End stream.

(** ** Sending *)

(** The sending loop: one [transmit_net_buffer] per answer of the kernel.
    Returns the bytes that went onto the connection. *)
Fixpoint send_all (nb : net_buffer_t) (rs : list send_result) : bytes * net_buffer_t :=
  match rs with
  | [] => ([], nb)
  | r :: rs =>
      let '(_, _, onb, sent) := transmit_net_buffer (Some nb) r in
      match onb with
      | None => (sent, nb)
      | Some nb' => let '(s, nb'') := send_all nb' rs in (sent ++ s, nb'')
      end
  end.

(** The answers [send] can give: it never accepts more than it was offered. *)
Fixpoint sends_ok (nb : net_buffer_t) (rs : list send_result) : Prop :=
  match rs with
  | [] => True
  | r :: rs =>
      match r with Sent n => 0 ≤ n ≤ NETBUF_CONTENT_SIZE nb | _ => True end ∧
      match transmit_net_buffer (Some nb) r with
      | (_, _, Some nb', _) => sends_ok nb' rs
      | _ => True
      end
  end.

Lemma transmit_step nb r :
  nb_wf nb → match r with Sent n => 0 ≤ n ≤ NETBUF_CONTENT_SIZE nb | _ => True end →
  ∃ rc err nb' sent, transmit_net_buffer (Some nb) r = (rc, err, Some nb', sent) ∧
    nb_wf nb' ∧ same_conn nb nb' ∧ sent ++ nb_content nb' = nb_content nb.
Proof.
  intros Hwf Hr. unfold transmit_net_buffer.
  destruct (decide _) as [|_]; [by eexists _, _, _, _|].
  destruct (_ =? 0); [by eexists _, _, _, _|].
  destruct r as [n| |]; [|by eexists _, _, _, _..].
  destruct (nb_act_content nb n Hwf Hr) as [Hwf' Hc].
  eexists _, _, _, _. split; [done|].
  assert (ztake n (nb_content nb) ++ zdrop n (nb_content nb) = nb_content nb) as Hs
    by apply ztake_zdrop.
  destruct (_ <? _); split_and!; try done.
  - by apply nb_compact_wf.
  - by rewrite nb_compact_content, Hc.
  - by rewrite Hc.
Qed.

Lemma send_all_spec rs : ∀ nb sent nb',
  nb_wf nb → sends_ok nb rs → send_all nb rs = (sent, nb') →
  nb_wf nb' ∧ same_conn nb nb' ∧ sent ++ nb_content nb' = nb_content nb.
Proof.
  induction rs as [|r rs IH]; intros nb sent nb' Hwf Hok He; cbn [send_all sends_ok] in *.
  { by injection He as <- <-. }
  destruct Hok as [Hr Hok].
  destruct (transmit_step nb r Hwf Hr) as (rc & err & nb1 & s1 & Ht & Hwf1 & Hs1 & Hc1).
  rewrite Ht in Hok, He. destruct (send_all nb1 rs) as [s nb2] eqn:E2.
  injection He as <- <-. destruct (IH _ _ _ Hwf1 Hok E2) as (? & ? & Hc2).
  split_and!; [done|by etrans|]. by rewrite <- app_assoc, Hc2, Hc1.
Qed.

(** ** Messages *)

(** A message of some kind, with the object [b] the receiver decodes into. *)
Inductive message : Type :=
  | Message {A B : Type} (F : wire_format A B) (a : A) (b : B).

Definition message_ok (m : message) : Prop := match m with Message F a _ => F.(wm_ok) a end.

Definition message_frame (m : message) : frame :=
  match m with Message F a _ => Mkframe F.(wm_type) 0 (wire_body (F.(wm_fields) a)) end.

Definition push_message (realloc_ok : Z → bool) (noret : Z) (m : message) : pusher :=
  match m with Message F a _ => F.(wm_push) realloc_ok noret a end.

Fixpoint push_messages (realloc_ok : Z → bool) (noret : Z) (ms : list message) : pusher :=
  match ms with
  | [] => push_return 0
  | m :: ms => (push_message realloc_ok noret m ;;? push_messages realloc_ok noret ms)%openli
  end.

(** The receiver has the message: the type, and the decoder of that type
    succeeds and yields the view of the object. *)
Definition received_as (m : message) (tm : Z * received_t) : Prop :=
  match m with
  | Message F a b =>
      fst tm = F.(wm_type) ∧
      F.(wm_decode) (snd tm).(rm_mem) (snd tm).(rm_len) b = Ok (0, F.(wm_view) a b)
  end.

Lemma message_frame_ok m : message_ok m → frame_ok (message_frame m).
Proof.
  destruct m as [A B F a b]. intros Hok. pose proof (F.(wm_type_law)) as Ht.
  split; simpl; [lia|unfold msgtype_code; lia|done|by apply wm_body_law].
Qed.

Lemma appends_messages realloc_ok noret ms :
  noret ≠ -1 → Forall message_ok ms →
  appends realloc_ok (push_messages realloc_ok noret ms)
    (stream_bytes (message_frame <$> ms)) 0.
Proof.
  intros Hn. induction 1 as [|[A B F a b] ms Hm _ IH]; [apply appends_return|].
  destruct (F.(wm_push_law) realloc_ok noret a Hn Hm) as (r & Hr & Ha).
  by eapply appends_then.
Qed.

Lemma delivered_received ms l :
  Forall message_ok ms → delivered (message_frame <$> ms) l → Forall2 received_as ms l.
Proof.
  intros Hok. revert l. induction Hok as [|[A B F a b] ms Hm _ IH]; intros l Hl;
    inversion_clear Hl as [|? ? ? ? [rest ->] Hl']; constructor; [|by apply IH].
  split; [done|]. simpl. by apply wm_decode_law.
Qed.

Lemma create_recv_state fd ssl : recv_state [] (create_net_buffer NETBUF_RECV fd ssl).
Proof. split; [apply create_net_buffer_wf|by exists 1|done|done]. Qed.

(** ** End to end *)

(** C1: any list of well-formed messages (of any mixture of kinds) that fits the
    initial block is pushed successfully onto a fresh send buffer; however the
    kernel splits the sending of that buffer, and however the stream is cut on
    its way, once everything has been sent the receiving loop terminates, reports
    exactly these messages in this order, and each decodes to the object that
    was pushed.  The receive buffer ends empty and at no more than five
    allocation units. *)
Theorem messages_end_to_end (realloc_ok : Z → bool) (noret fd fd' : Z) (ssl ssl' : bool)
    (ms : list message) :
  (∀ n, n ≤ 5 * NETBUF_ALLOC_SIZE → realloc_ok n = true) →
  noret ≠ -1 → Forall message_ok ms →
  zlen (stream_bytes (message_frame <$> ms)) ≤ NETBUF_ALLOC_SIZE →
  ∃ snd, push_messages realloc_ok noret ms (create_net_buffer NETBUF_SEND fd ssl) = Ok (0, snd) ∧
    ∀ rs sent snd', sends_ok snd rs → send_all snd rs = (sent, snd') →
      NETBUF_CONTENT_SIZE snd' = 0 →
    ∀ chunks, Forall chunk_ok chunks → concat chunks = sent →
    ∀ fuel, (length chunks + length ms < fuel)%nat →
    ∃ l rcv, receive_all realloc_ok fuel (create_net_buffer NETBUF_RECV fd' ssl') chunks = Ok (l, rcv) ∧
      Forall2 received_as ms l ∧ nb_content rcv = [] ∧
      rcv.(nb_alloced) ≤ 5 * NETBUF_ALLOC_SIZE.
Proof.
  intros Hra Hn Hok Hlen.
  destruct (appends_messages realloc_ok noret ms Hn Hok (create_net_buffer NETBUF_SEND fd ssl)
    (create_net_buffer_wf _ _ _)) as [Hex Hall].
  destruct Hex as [s Hs]; [split; [done|by left]|]. exists s. split; [done|].
  intros rs sent s' Hrs Hsend Hempty chunks Hch Hcat fuel Hfuel.
  destruct (Hall _ _ Hs) as (Hwf & _ & [(_ & Hc & _)|[? _]]); [|done].
  destruct (send_all_spec rs s sent s' Hwf Hrs Hsend) as (Hwf' & _ & Hfifo).
  rewrite <- (zlen_content s' Hwf') in Hempty. apply zlen_0 in Hempty.
  rewrite Hempty, app_nil_r, Hc in Hfifo. simpl in Hfifo. subst sent.
  destruct (receive_all_spec realloc_ok Hra fuel (message_frame <$> ms) chunks []
    (create_net_buffer NETBUF_RECV fd' ssl')) as (l & rcv & -> & Hl & [_ [k [Hk Hk5]] _ Hc0]).
  - apply create_recv_state.
  - apply Forall_fmap. eapply Forall_impl; [exact Hok|]. apply message_frame_ok.
  - done.
  - done.
  - by rewrite length_fmap.
  - exists l, rcv. split_and!; [done|by apply delivered_received|done|].
    rewrite Hk. unfold NETBUF_ALLOC_SIZE. lia.
Qed.

(** ** Arbitrary input *)

(** A message handed to the caller lies inside the block. *)
Definition message_inside (m : option received_t) : Prop :=
  match m with Some m => 0 ≤ m.(rm_len) < 65536 ∧ m.(rm_len) ≤ zlen m.(rm_mem) | None => True end.

Lemma parse_safe nb :
  nb_wf nb → all_bytes nb.(nb_data) →
  ∃ t m nb', parse_received_message nb = Ok (t, m, nb') ∧
    nb_wf nb' ∧ same_block nb nb' ∧ nb'.(nb_data) = nb.(nb_data) ∧ message_inside m.
Proof.
  intros Hwf Hb. pose proof (zlen_content nb Hwf) as Hl. unfold parse_received_message.
  assert (all_bytes (nb_content nb)) as Hbc by by apply all_bytes_zdrop.
  destruct (Z.ltb_spec (NETBUF_CONTENT_SIZE nb) sizeof_ii_header_t) as [|H16]; [by eexists _, _, _|].
  unfold sizeof_ii_header_t in *.
  destruct (read_le_Ok 4 (nb_content nb)) as [mg ->]; [lia|]. run_outcome.
  destruct (negb _); [by eexists _, _, _|].
  destruct (read_ntohs (zdrop 4 (nb_content nb))) as (bl & -> & Hbl);
    [by apply all_bytes_zdrop|rewrite zlen_zdrop; lia|]. run_outcome.
  destruct (Z.ltb_spec (NETBUF_CONTENT_SIZE nb) (16 + ntohs bl)); [by eexists _, _, _|].
  destruct (read_le_Ok 2 (zdrop 6 (nb_content nb))) as [it ->]; [rewrite zlen_zdrop; lia|].
  destruct (read_le_Ok 8 (zdrop 8 (nb_content nb))) as [id ->]; [rewrite zlen_zdrop; lia|].
  run_outcome. eexists _, _, _. split; [done|].
  split_and!; [by apply (nb_act_content nb); [|lia]|done|done|].
  split; simpl; [lia|rewrite zlen_zdrop; lia].
Qed.

(** One extension of a buffer that may still grow. *)
Lemma extend_safe realloc_ok nb :
  nb_wf nb → all_bytes nb.(nb_data) → nb.(nb_alloced) + NETBUF_ALLOC_SIZE ≤ INT_MAX →
  ∃ r nb', extend_net_buffer realloc_ok nb NETBUF_ALLOC_SIZE = Ok (r, nb') ∧
    nb_wf nb' ∧ all_bytes nb'.(nb_data) ∧ same_conn nb nb' ∧
    (r ≠ -1 → NETBUF_ALLOC_SIZE ≤ NETBUF_SPACE_REM nb').
Proof.
  intros Hwf Hb Hi.
  destruct (extend_net_buffer realloc_ok nb NETBUF_ALLOC_SIZE) as [[r nb']| |] eqn:He.
  - destruct (extend_spec _ _ _ _ _ Hwf He) as (Hwf' & _ & Hs & _ & Hcase).
    exists r, nb'. split; [done|]. split; [done|]. split; [|split; [done|]].
    + revert He. unfold extend_net_buffer.
      repeat case_match; intros [= <- <-]; simpl; by try apply all_bytes_zdrop.
    + intros Hr. assert (r = 0) as -> by lia.
      by apply (extend_enough realloc_ok nb NETBUF_ALLOC_SIZE nb').
  - exfalso. revert He. unfold extend_net_buffer. by repeat case_match.
  - exfalso. revert He. unfold extend_net_buffer.
    destruct (_ <=? _); simpl; [destruct (_ <=? _)|]; simpl; try done;
      rewrite (proj2 (Z.ltb_ge _ _)) by done; by destruct (realloc_ok _).
Qed.

(** whatever the peer sends, [receive_net_buffer] on a well-formed buffer
    that may still grow by one unit returns; the buffer stays well-formed, the
    bytes it has consumed are not changed, and a message it hands out lies
    inside the block. *)
Theorem receive_net_buffer_safe (realloc_ok : Z → bool) (nb : net_buffer_t) (res : recv_result) :
  nb_wf nb → all_bytes nb.(nb_data) → nb.(nb_alloced) + NETBUF_ALLOC_SIZE ≤ INT_MAX →
  (∀ bs, res = Received bs → all_bytes bs ∧ zlen bs ≤ NETBUF_ALLOC_SIZE) →
  ∃ t m nb' asked, receive_net_buffer realloc_ok (Some nb) res = Ok (t, m, Some nb', asked) ∧
    nb_wf nb' ∧ all_bytes nb'.(nb_data) ∧ same_conn nb nb' ∧ message_inside m.
Proof.
  intros Hwf Hb Hi Hres. unfold receive_net_buffer.
  destruct (decide _); [by eexists _, _, _, _|].
  destruct (parse_safe nb Hwf Hb) as (t1 & m1 & nb1 & -> & Hwf1 & [Hs1 Ha1] & Hd1 & Hm1).
  run_outcome. destruct (negb _); [eexists _, _, _, _; rewrite Hd1; by split_and!|].
  assert (∃ r nb2, (if NETBUF_SPACE_REM nb1 <? NETBUF_ALLOC_SIZE
            then extend_net_buffer realloc_ok nb1 NETBUF_ALLOC_SIZE else Ok (0, nb1)) = Ok (r, nb2) ∧
            nb_wf nb2 ∧ all_bytes nb2.(nb_data) ∧ same_conn nb1 nb2 ∧
            (r ≠ -1 → NETBUF_ALLOC_SIZE ≤ NETBUF_SPACE_REM nb2))
    as (r & nb2 & -> & Hwf2 & Hb2 & Hs2 & Hsp).
  { rewrite <- Hd1 in Hb.
    destruct (Z.ltb_spec (NETBUF_SPACE_REM nb1) NETBUF_ALLOC_SIZE) as [Hlt|Hge];
      [|by exists 0, nb1].
    rewrite <- Ha1 in Hi. by apply extend_safe. }
  run_outcome. assert (same_conn nb nb2) as Hs by by etrans.
  destruct (Z.eqb_spec r (-1)) as [|Hr]; [by eexists _, _, _, _|].
  destruct res as [bs| | |]; try by eexists _, _, _, _.
  destruct (Hres bs eq_refl) as [Hbs Hlen]. specialize (Hsp Hr).
  rewrite (proj2 (Z.ltb_ge _ _)) by lia.
  destruct (parse_safe (nb_append bs nb2)) as (t3 & m3 & nb3 & -> & Hwf3 & [Hs3 _] & Hd3 & Hm3).
  - apply nb_append_wf; [done|lia].
  - by apply Forall_app_2.
  - run_outcome. eexists _, _, _, _. rewrite Hd3.
    split_and!; try done; [by apply Forall_app_2|etrans; [exact Hs|exact Hs3]].
Qed.

(** ** RabbitMQ bodies *)

(** a RabbitMQ body is copied into the buffer whole after at most one
    extension by [NETBUF_ALLOC_SIZE].  On a fresh buffer with a generous
    allocator, the copy stays inside the block exactly when the body has at most
    twice that size, and then the call returns a message inside the block or an
    error code; a larger body overruns the block. *)
Theorem receive_RMQ_fresh (fd : Z) (ssl : bool) (body : bytes) :
  all_bytes body →
  let r := receive_RMQ_buffer (λ _, true) (Some (create_net_buffer NETBUF_RECV fd ssl))
             RmqNormal body in
  (2 * NETBUF_ALLOC_SIZE < zlen body → r = Undef) ∧
  (zlen body ≤ 2 * NETBUF_ALLOC_SIZE →
     ∃ t m nb', r = Ok (t, m, Some nb') ∧ nb_wf nb' ∧ message_inside m).
Proof.
  intros Hb. unfold receive_RMQ_buffer. cbv zeta. rewrite decide_False by by intros H.
  rewrite (parse_empty _ (create_net_buffer_wf _ _ _) eq_refl). run_outcome.
  cbn [negb Z.eqb msgtype_code Pos.eqb].
  set (nb := create_net_buffer NETBUF_RECV fd ssl).
  assert (∃ nb2, (if NETBUF_SPACE_REM nb <? zlen body
            then extend_net_buffer (λ _, true) nb (zlen body) else Ok (0, nb)) = Ok (0, nb2) ∧
            nb_wf nb2 ∧ nb2.(nb_data) = [] ∧
            NETBUF_SPACE_REM nb2 = if NETBUF_ALLOC_SIZE <? zlen body
              then 2 * NETBUF_ALLOC_SIZE else NETBUF_ALLOC_SIZE) as (nb2 & -> & Hwf & Hd & Hsp).
  { change (NETBUF_SPACE_REM nb) with NETBUF_ALLOC_SIZE.
    destruct (NETBUF_ALLOC_SIZE <? zlen body); [|eexists; split_and!; [done|apply create_net_buffer_wf|done..]].
    exists (set_nb_alloced (2 * NETBUF_ALLOC_SIZE) nb). split; [reflexivity|].
    split; [|split; done]. split; unfold INT_MAX, NETBUF_ALLOC_SIZE; simpl; zlia. }
  run_outcome. cbn [Z.eqb]. rewrite Hsp.
  destruct (Z.ltb_spec NETBUF_ALLOC_SIZE (zlen body)) as [Hlt|Hge]; split; intros Hlen.
  - by rewrite (proj2 (Z.ltb_lt _ _)).
  - rewrite (proj2 (Z.ltb_ge _ _)) by lia.
    destruct (parse_safe (nb_append body nb2)) as (t & m & nb3 & -> & Hwf3 & _ & _ & Hm);
      [apply nb_append_wf; [done|lia]|simpl; by rewrite Hd|]. by eexists _, _, _.
  - unfold NETBUF_ALLOC_SIZE in *. lia.
  - rewrite (proj2 (Z.ltb_ge _ _)) by lia.
    destruct (parse_safe (nb_append body nb2)) as (t & m & nb3 & -> & Hwf3 & _ & _ & Hm);
      [apply nb_append_wf; [done|lia]|simpl; by rewrite Hd|]. by eexists _, _, _.
Qed.

(** C8: the receiving loop on a stream of frames of any types, identifiers and
    bodies, cut into pieces in any way and starting from any receive buffer whose
    content is the beginning of the stream, terminates and delivers every frame
    exactly once, in order, with its type, identifier and body; the buffer ends
    empty and never grows beyond five allocation units. *)
Theorem receive_stream (realloc_ok : Z → bool) (fs : list frame) (chunks : list bytes)
    (nb : net_buffer_t) (fuel : nat) :
  (∀ n, n ≤ 5 * NETBUF_ALLOC_SIZE → realloc_ok n = true) →
  recv_state (nb_content nb) nb → Forall frame_ok fs → Forall chunk_ok chunks →
  nb_content nb ++ concat chunks = stream_bytes fs →
  (length chunks + length fs < fuel)%nat →
  ∃ l nb', receive_all realloc_ok fuel nb chunks = Ok (l, nb') ∧
    ((λ '(t, m), Mkframe t m.(rm_intid) (ztake m.(rm_len) m.(rm_mem))) <$> l) = fs ∧
    recv_state [] nb'.
Proof.
  intros Hra Hs Hfs Hch Hcat Hfuel.
  destruct (receive_all_spec realloc_ok Hra fuel fs chunks _ nb Hs Hfs Hch Hcat Hfuel)
    as (l & nb' & -> & Hl & Hs').
  exists l, nb'. split_and!; [done| |done..].
  clear -Hl. induction Hl as [|f tm fs l [rest ->] _ IH]; [done|].
  rewrite fmap_cons, IH. f_equal. destruct f as [t i b].
  unfold frame_message. simpl. by rewrite ztake_app.
Qed.

(** However often the kernel accepts nothing, a part or everything, and
    whatever compaction the send buffer goes through, the bytes put on the
    connection followed by the bytes still pending are the bytes that were
    pending before: nothing is lost, repeated or reordered. *)
Theorem transmit_fifo (nb nb' : net_buffer_t) (rs : list send_result) (sent : bytes) :
  nb_wf nb → sends_ok nb rs → send_all nb rs = (sent, nb') →
  nb_wf nb' ∧ same_conn nb nb' ∧ sent ++ nb_content nb' = nb_content nb.
Proof. apply send_all_spec. Qed.

(** * Examples *)

Definition sample_messages : list message :=
  [Message lea_format sample_lea sample_lea;
   Message (voip_format false) sample_voip sample_voip;
   Message cease_mediation_format (str "LIID001") None].

Lemma sample_messages_ok : Forall message_ok sample_messages.
Proof.
  apply Forall_cons. split; [apply sample_lea_ok|].
  apply Forall_cons. split; [apply sample_voip_ok|].
  apply Forall_singleton. split; [solve_good_str|done].
Qed.

(** The sample messages, sent in three uneven pieces with one refusal, and
    received in three other pieces. *)
Definition sample_sends : list send_result := [Sent 3; SendWouldBlock; Sent 70; Sent 163].

Definition sample_wire : bytes := stream_bytes (message_frame <$> sample_messages).
Definition sample_chunks : list bytes :=
  [ztake 10 sample_wire; ztake 100 (zdrop 10 sample_wire); zdrop 110 sample_wire].

Lemma messages_end_to_end_witness :
  ∃ snd snd' l rcv,
    push_messages (λ _, true) 0 sample_messages (create_net_buffer NETBUF_SEND 5 false)
      = Ok (0, snd) ∧
    send_all snd sample_sends = (sample_wire, snd') ∧
    receive_all (λ _, true) 7 (create_net_buffer NETBUF_RECV 6 true) sample_chunks = Ok (l, rcv) ∧
    Forall2 received_as sample_messages l.
Proof.
  destruct (messages_end_to_end (λ _, true) 0 5 6 false true sample_messages)
    as (snd & Hpush & Hrecv); [done|done|apply sample_messages_ok|by vm_compute|].
  exists snd. eexists.
  edestruct (Hrecv sample_sends sample_wire) as (l & rcv & Hl & Hf & _ & _).
  - vm_compute in Hpush. injection Hpush as <-. vm_compute. repeat split; discriminate.
  - vm_compute in Hpush. injection Hpush as <-. vm_compute. reflexivity.
  - by vm_compute.
  - instantiate (1 := sample_chunks). repeat (apply Forall_cons; split; [by vm_compute|]). done.
  - by vm_compute.
  - instantiate (1 := 7%nat). simpl. lia.
  - exists l, rcv. split; [exact Hpush|]. split; [|split; [exact Hl|exact Hf]].
    vm_compute in Hpush. injection Hpush as <-. vm_compute. reflexivity.
Defined.

(** A stream of one heartbeat and one message with a body, in two pieces. *)
Definition sample_frames : list frame :=
  [Mkframe OPENLI_PROTO_HEARTBEAT 0 []; Mkframe OPENLI_PROTO_ETSI_IRI 42 [1; 2; 3]].

Lemma receive_stream_witness :
  ∃ l nb', receive_all (λ _, true) 5 (create_net_buffer NETBUF_RECV 6 false)
      [ztake 20 (stream_bytes sample_frames); zdrop 20 (stream_bytes sample_frames)] = Ok (l, nb') ∧
    ((λ '(t, m), Mkframe t m.(rm_intid) (ztake m.(rm_len) m.(rm_mem))) <$> l) = sample_frames ∧
    recv_state [] nb'.
Proof.
  apply (receive_stream (λ _, true) sample_frames).
  - done.
  - apply create_recv_state.
  - repeat (apply Forall_cons; split; [by split|]). done.
  - repeat (apply Forall_cons; split; [by vm_compute|]). done.
  - by vm_compute.
  - simpl. lia.
Defined.

Lemma receive_net_buffer_safe_witness :
  ∃ t m nb' asked, receive_net_buffer (λ _, false) (Some (create_net_buffer NETBUF_RECV 6 false))
      (Received [92; 76; 108; 92; 0; 0; 0; 0]) = Ok (t, m, Some nb', asked) ∧
    nb_wf nb' ∧ all_bytes nb'.(nb_data) ∧ same_conn (create_net_buffer NETBUF_RECV 6 false) nb' ∧
    message_inside m.
Proof.
  apply receive_net_buffer_safe.
  - apply create_net_buffer_wf.
  - apply Forall_nil_2.
  - by vm_compute.
  - intros bs [= <-]. split; [apply (bool_decide_unpack _); vm_compute; exact I|by vm_compute].
Defined.

Lemma receive_RMQ_fresh_witness :
  ∃ t m nb', receive_RMQ_buffer (λ _, true) (Some (create_net_buffer NETBUF_RECV 6 false))
      RmqNormal (stream_bytes sample_frames) = Ok (t, m, Some nb') ∧ nb_wf nb' ∧ message_inside m.
Proof.
  apply (receive_RMQ_fresh 6 false (stream_bytes sample_frames)); [|by vm_compute].
  apply (bool_decide_unpack _); vm_compute; exact I.
Defined.

Lemma transmit_fifo_witness :
  ∃ nb', send_all (nb_append [1; 2; 3; 4; 5] (create_net_buffer NETBUF_SEND 5 false))
           [Sent 2; SendWouldBlock; Sent 1] = ([1; 2; 3], nb') ∧
    [1; 2; 3] ++ nb_content nb' = [1; 2; 3; 4; 5].
Proof.
  eexists. split; [vm_compute; reflexivity|].
  apply (transmit_fifo (nb_append [1; 2; 3; 4; 5] (create_net_buffer NETBUF_SEND 5 false)) _
    [Sent 2; SendWouldBlock; Sent 1] [1; 2; 3]).
  - apply nb_append_wf; [apply create_net_buffer_wf|by vm_compute].
  - vm_compute. repeat split; discriminate.
  - vm_compute. reflexivity.
Defined.
