(* ===== verification/NetLiveness.v ===== *)
(** * A send buffer is emptied (src/src/netcomms.c, [transmit_net_buffer])

    The loops of the programs call [transmit_net_buffer] whenever the connection is ready.
    The kernel is free to refuse, and to accept as little as it likes; if it keeps
    accepting something from time to time, everything that is pending is sent. *)

From S2P Require Import Prelude NetBuffer NetStream.

(** A kernel that is ready to take [n] bytes; it takes no more than it is offered. *)
Definition kernel_answer (n : Z) (nb : net_buffer_t) : send_result :=
  if n <=? 0 then SendWouldBlock else Sent (Z.min n (NETBUF_CONTENT_SIZE nb)).

(** [count] calls from time [i] on: the bytes on the connection, and the buffer. *)
Fixpoint transmit_run (kernel : nat → Z) (i count : nat) (nb : net_buffer_t) : bytes * net_buffer_t :=
  match count with
  | O => ([], nb)
  | S count =>
      match transmit_net_buffer (Some nb) (kernel_answer (kernel i) nb) with
      | (_, _, Some nb', sent) =>
          let '(rest, nb'') := transmit_run kernel (S i) count nb' in (sent ++ rest, nb'')
      | (_, _, None, sent) => (sent, nb)
      end
  end.

(** The kernel accepts something again and again. *)
Definition fair (kernel : nat → Z) : Prop := ∀ i, ∃ j, (i ≤ j)%nat ∧ 0 < kernel j.

(** A send buffer. *)
Definition sender_ok (nb : net_buffer_t) : Prop := nb_wf nb ∧ nb.(nb_buftype) = NETBUF_SEND.

Lemma transmit_call n nb :
  sender_ok nb →
  ∃ rc err nb' sent, transmit_net_buffer (Some nb) (kernel_answer n nb) = (rc, err, Some nb', sent) ∧
    sender_ok nb' ∧ sent ++ nb_content nb' = nb_content nb ∧
    (0 < n → nb_content nb ≠ [] → sent ≠ []).
Proof.
  intros [Hwf Hty]. pose proof (zlen_content nb Hwf) as Hlen.
  assert (0 ≤ NETBUF_CONTENT_SIZE nb) by (rewrite <- Hlen; unfold zlen; lia).
  destruct (transmit_step nb (kernel_answer n nb) Hwf) as (rc & err & nb' & sent & E & Hwf' & Hs & Hc).
  { unfold kernel_answer. destruct (Z.leb_spec n 0); [done|lia]. }
  exists rc, err, nb', sent. split; [done|]. split; [split; [done|]|split; [done|]].
  - rewrite <- Hty. by destruct Hs as (_ & -> & _).
  - intros Hn Hne. revert E. unfold transmit_net_buffer, kernel_answer.
    rewrite decide_False by tauto. assert (0 < NETBUF_CONTENT_SIZE nb).
    { rewrite <- Hlen. destruct (nb_content nb); [done|]. unfold zlen. cbn. lia. }
    rewrite (proj2 (Z.eqb_neq _ 0)) by lia. rewrite (proj2 (Z.leb_gt n 0)) by lia.
    intros [= _ _ _ <-]. intros Hnil. apply (f_equal zlen) in Hnil.
    rewrite zlen_ztake in Hnil by lia. change (zlen []) with 0 in Hnil. lia.
Qed.

Lemma transmit_run_ok kernel count : ∀ i nb,
  sender_ok nb → let '(sent, nb') := transmit_run kernel i count nb in
  sender_ok nb' ∧ sent ++ nb_content nb' = nb_content nb.
Proof.
  induction count as [|count IH]; intros i nb Hok; [done|]. cbn [transmit_run].
  destruct (transmit_call (kernel i) nb Hok) as (rc & err & nb1 & sent & -> & Hok1 & Hc & _).
  specialize (IH (S i) nb1 Hok1). destruct (transmit_run kernel (S i) count nb1) as [rest nb2].
  destruct IH as [Hok2 Hc2]. split; [done|]. by rewrite <- app_assoc, Hc2.
Qed.

Lemma transmit_run_add kernel n m : ∀ i nb,
  sender_ok nb →
  transmit_run kernel i (n + m) nb =
  let '(s1, nb1) := transmit_run kernel i n nb in
  let '(s2, nb2) := transmit_run kernel (i + n) m nb1 in (s1 ++ s2, nb2).
Proof.
  induction n as [|n IH]; intros i nb Hok; cbn [transmit_run Nat.add].
  - rewrite Nat.add_0_r. by destruct (transmit_run kernel i m nb).
  - destruct (transmit_call (kernel i) nb Hok) as (rc & err & nb1 & sent & -> & Hok1 & _).
    rewrite (IH (S i) nb1 Hok1). destruct (transmit_run kernel (S i) n nb1) as [s1 nb2].
    replace (i + S n)%nat with (S i + n)%nat by lia.
    destruct (transmit_run kernel (S i + n) m nb2) as [s2 nb3]. by rewrite app_assoc.
Qed.

(** Until the kernel accepts something, and then that. *)
Lemma transmit_progress kernel nb i :
  fair kernel → sender_ok nb → nb_content nb ≠ [] →
  ∃ n, let '(sent, nb') := transmit_run kernel i n nb in
    sender_ok nb' ∧ sent ++ nb_content nb' = nb_content nb ∧ sent ≠ [].
Proof.
  intros Hfair Hok Hne. destruct (Hfair i) as (j & Hij & Hj). exists (j - i + 1)%nat.
  rewrite transmit_run_add by done. pose proof (transmit_run_ok kernel (j - i) i nb Hok) as H1.
  destruct (transmit_run kernel i (j - i) nb) as [s1 nb1]. destruct H1 as [Hok1 Hc1].
  replace (i + (j - i))%nat with j by lia. cbn [transmit_run].
  destruct (transmit_call (kernel j) nb1 Hok1) as (rc & err & nb2 & s2 & -> & Hok2 & Hc2 & Hs2).
  rewrite app_nil_r. split; [done|]. split; [by rewrite <- app_assoc, Hc2|].
  intros [-> ->]%app_nil. cbn [app] in Hc1. apply Hs2; [done|congruence|done].
Qed.

(** C31: If the kernel accepts something again and again, a send buffer is emptied after
    finitely many calls of [transmit_net_buffer], and exactly the bytes that were pending
    have been put on the connection, however little is accepted at a time and however
    often the buffer is compacted. *)
Theorem transmit_drains (kernel : nat → Z) (nb : net_buffer_t) (i : nat) :
  fair kernel → sender_ok nb →
  ∃ n nb', transmit_run kernel i n nb = (nb_content nb, nb') ∧
    nb_content nb' = [] ∧ NETBUF_CONTENT_SIZE nb' = 0.
Proof.
  intros Hfair. remember (length (nb_content nb)) as c eqn:Hlen. revert i nb Hlen.
  induction c as [c IH] using lt_wf_ind. intros i nb Hlen Hok.
  destruct (decide (nb_content nb = [])) as [E|Hne].
  - exists 0%nat, nb. rewrite E. split; [done|]. split; [done|].
    rewrite <- (zlen_content nb) by apply Hok. by rewrite E.
  - destruct (transmit_progress kernel nb i Hfair Hok Hne) as [n Hn].
    destruct (transmit_run kernel i n nb) as [sent nb1] eqn:E. destruct Hn as (Hok1 & Hc & Hs).
    assert (length (nb_content nb1) < c)%nat as Hlt.
    { rewrite Hlen, <- Hc, length_app. destruct sent; [done|]. cbn [length]. lia. }
    destruct (IH _ Hlt (i + n)%nat nb1 eq_refl Hok1) as (m & nb2 & E2 & Hend).
    exists (n + m)%nat, nb2. split; [|done]. rewrite transmit_run_add, E, E2 by done. by rewrite Hc.
Qed.

(** A kernel that takes one byte at every third call. *)
Definition slow_kernel (i : nat) : Z := if (i mod 3 =? 2)%nat then 1 else 0.

Lemma slow_kernel_fair : fair slow_kernel.
Proof.
  intros i. exists (3 * i + 2)%nat. split; [lia|]. unfold slow_kernel.
  rewrite (Nat.mul_comm 3), Nat.add_comm, Nat.Div0.mod_add. done.
Qed.

Lemma transmit_drains_witness :
  let nb := nb_append [1; 2; 3; 4; 5] (create_net_buffer NETBUF_SEND 5 false) in
  ∃ n nb', transmit_run slow_kernel 0 n nb = (nb_content nb, nb') ∧
    nb_content nb' = [] ∧ NETBUF_CONTENT_SIZE nb' = 0.
Proof.
  apply (transmit_drains slow_kernel (nb_append [1; 2; 3; 4; 5] (create_net_buffer NETBUF_SEND 5 false)) 0).
  - exact slow_kernel_fair.
  - split; [|reflexivity]. apply nb_append_wf; [apply create_net_buffer_wf|by vm_compute].
Defined.
