(* ===== verification/NetRoundTrip.v ===== *)
(** * Round trips, failures and limits of the protocol functions

    What each pair of [push_*] and [decode_*] does to one message, what a
    failed push leaves behind, and the limits of the encoding. *)

From S2P Require Import Prelude ByteOrder Protocol Intercept NetBuffer NetPush NetDecode.
From S2P Require Import NetFormat NetMessages NetSamples.

(** [push] writes one message of type [t], completely or (returning -1) only a
    strict prefix of it, and succeeds whenever the buffer can hold it; [decode]
    on the body of that message, whatever follows it in memory, returns 0 and
    turns the caller's object [b] into [view b]. *)
Definition round_trip {B} (ra : Z → bool) (push : pusher) (t : openli_proto_msgtype_t)
    (decode : bytes → Z → B → outcome (Z * B)) (view : B → B) : Prop :=
  ∃ body r, zlen body < 65536 ∧ r ≠ -1 ∧
    appends ra push (wire_frame t 0 body) r ∧
    ∀ b tail, decode (body ++ tail) (zlen body) b = Ok (0, view b).

Lemma format_round_trip {A B} (F : wire_format A B) (t : openli_proto_msgtype_t) ra noret a :
  F.(wm_type) = t → noret ≠ -1 → F.(wm_ok) a →
  round_trip ra (F.(wm_push) ra noret a) t F.(wm_decode) (F.(wm_view) a).
Proof.
  intros Ht Hn Hok. destruct (F.(wm_push_law) ra noret a Hn Hok) as (r & Hr & Ha).
  exists (wire_body (F.(wm_fields) a)), r. rewrite <- Ht.
  split_and!; [by apply wm_body_law|done|done|]. intros b tail. by apply wm_decode_law.
Qed.

(** [round_trip] respects pointwise equality of decoder and view. *)
Lemma round_trip_ext {B} ra push t (d d' : bytes → Z → B → outcome (Z * B)) (v v' : B → B) :
  round_trip ra push t d v → (∀ mem len b, d mem len b = d' mem len b) →
  (∀ b, v b = v' b) → round_trip ra push t d' v'.
Proof.
  intros (body & r & Hl & Hr & Ha & Hd) Hdd Hvv. exists body, r. split_and!; [done..|].
  intros b tail. by rewrite <- Hdd, <- Hvv.
Qed.

Section round_trips.
Context (ra : Z → bool).

(** ** Intercepts *)

(** C29: an announced IP intercept is one START_IPINTERCEPT message followed by
    one ADD_STATICIPS message per static range, in order, and nothing else; the
    first decodes to the intercept (an empty username becoming NULL, the static
    list empty) and each of the others to its range with the intercept's LIID. *)
Theorem ipintercept_round_trip (noret : Z) (i : ipintercept_t) :
  noret ≠ -1 → ip_ok i → Forall (static_ok i) i.(ip_statics) →
  ∃ body bodies r, r ≠ -1 ∧
    appends ra (push_ipintercept_onto_net_buffer ra noret i)
      (wire_frame OPENLI_PROTO_START_IPINTERCEPT 0 body ++
       concat (wire_frame OPENLI_PROTO_ADD_STATICIPS 0 <$> bodies)) r ∧
    (∀ b tail, decode_ipintercept_start (body ++ tail) (zlen body) b = Ok (0, ip_view i b)) ∧
    Forall2 (λ s sbody, ∀ b tail,
      decode_staticip_announcement (sbody ++ tail) (zlen sbody) b =
      Ok (0, {| sr_rangestr := s.(sr_rangestr); sr_liid := i.(ip_common).(ic_liid);
                sr_cin := s.(sr_cin); sr_awaitingconfirm := 0 |})) i.(ip_statics) bodies.
Proof.
  intros Hn Hi Hs. destruct (ip_fields_len i Hi) as [_ Hb].
  exists (wire_body (ip_fields i)), ((λ s, wire_body (static_fields i s)) <$> i.(ip_statics)).
  eexists. split_and!; [|rewrite <- list_fmap_compose; by apply appends_ipintercept| |].
  - lia.
  - intros b tail. by apply ip_decode.
  - apply Forall2_fmap_r. eapply Forall_Forall2_diag, Forall_impl; [exact Hs|].
    intros s Hok b tail. exact (wm_decode_law (static_format StaticAdd) (i, s) b tail Hok).
Qed.

(** C30: announcing, modifying and withdrawing: VoIP, email and IP intercepts
    reach the receiver with every member that is sent, and members that are not
    sent get the initial values of the decoder. *)
Theorem intercept_round_trips (noret : Z) :
  noret ≠ -1 →
  (∀ v, voip_ok v →
     round_trip ra (push_voipintercept_onto_net_buffer ra noret v)
       OPENLI_PROTO_START_VOIPINTERCEPT decode_voipintercept_start (voip_view v) ∧
     round_trip ra (push_voipintercept_modify ra noret v)
       OPENLI_PROTO_MODIFY_VOIPINTERCEPT decode_voipintercept_modify (voip_view v)) ∧
  (∀ em, email_ok em →
     round_trip ra (push_emailintercept_onto_net_buffer ra noret em)
       OPENLI_PROTO_START_EMAILINTERCEPT decode_emailintercept_start (email_view em) ∧
     round_trip ra (push_emailintercept_modify ra noret em)
       OPENLI_PROTO_MODIFY_EMAILINTERCEPT decode_emailintercept_modify (email_view em)) ∧
  (∀ i, ip_ok i →
     round_trip ra (push_ipintercept_modify ra noret i)
       OPENLI_PROTO_MODIFY_IPINTERCEPT decode_ipintercept_modify (ip_view i)).
Proof.
  intros Hn. split_and!.
  - intros v Hv. split; [by apply (format_round_trip (voip_format false))
                        |by apply (format_round_trip (voip_format true))].
  - intros em Hem. split; [by apply (format_round_trip (email_format false))
                          |by apply (format_round_trip (email_format true))].
  - intros i Hi. by apply (format_round_trip ip_modify_format).
Qed.

(** [push_intercept_withdrawal_onto_net_buffer] dispatches on the message
    type; for each of its three kinds the receiver gets the LIID and the
    country code of the intercept to stop. *)
Theorem withdrawal_round_trips :
  (∀ i, halt_ok i.(ip_common) →
     round_trip ra (push_intercept_withdrawal_onto_net_buffer ra (DataIp i) OPENLI_PROTO_HALT_IPINTERCEPT)
       OPENLI_PROTO_HALT_IPINTERCEPT decode_ipintercept_halt
       (λ b, set_ip_common (set_ic_seqtrackerid 0 (halt_view i.(ip_common) b.(ip_common)))
               (ipintercept_init b))) ∧
  (∀ v, halt_ok v.(vi_common) →
     round_trip ra (push_intercept_withdrawal_onto_net_buffer ra (DataVoip v) OPENLI_PROTO_HALT_VOIPINTERCEPT)
       OPENLI_PROTO_HALT_VOIPINTERCEPT decode_voipintercept_halt
       (λ b, set_vi_common (halt_view v.(vi_common) b.(vi_common)) (voipintercept_init b))) ∧
  (∀ em, halt_ok em.(em_common) →
     round_trip ra (push_intercept_withdrawal_onto_net_buffer ra (DataEmail em) OPENLI_PROTO_HALT_EMAILINTERCEPT)
       OPENLI_PROTO_HALT_EMAILINTERCEPT decode_emailintercept_halt
       (λ b, set_em_common (halt_view em.(em_common) b.(em_common)) (emailintercept_init b))).
Proof.
  split_and!; intros x Hx;
    [apply (format_round_trip ip_halt_format _ ra 0)|apply (format_round_trip voip_halt_format _ ra 0)
    |apply (format_round_trip email_halt_format _ ra 0)]; done.
Qed.

(** ** Targets, agencies, mediators, servers *)

(** SIP and email targets, announced or withdrawn, reach the receiver with
    the LIID of their intercept, when the receiver's buffer for it is longer
    than the LIID. *)
Theorem target_round_trips (spacelen : Z) :
  (∀ s v, sip_ok spacelen s v.(vi_common) →
     round_trip ra (push_sip_target_onto_net_buffer ra s v) OPENLI_PROTO_ANNOUNCE_SIP_TARGET
       (λ mem len '(b, l), decode_sip_target_announcement mem len b l spacelen)
       (λ '(b, _), sip_view s v.(vi_common) b) ∧
     round_trip ra (push_sip_target_withdrawal_onto_net_buffer ra s v)
       OPENLI_PROTO_WITHDRAW_SIP_TARGET
       (λ mem len '(b, l), decode_sip_target_withdraw mem len b l spacelen)
       (λ '(b, _), sip_view s v.(vi_common) b)) ∧
  (∀ t em, email_target_ok spacelen t em.(em_common) →
     let view := λ _ : email_target_t * cstring,
       ({| et_address := t.(et_address); et_awaitingconfirm := 0 |}, em.(em_common).(ic_liid)) in
     round_trip ra (push_email_target_onto_net_buffer ra t em) OPENLI_PROTO_ANNOUNCE_EMAIL_TARGET
       (λ mem len '(b, l), decode_email_target_announcement mem len b l spacelen) view ∧
     round_trip ra (push_email_target_withdrawal_onto_net_buffer ra t em)
       OPENLI_PROTO_WITHDRAW_EMAIL_TARGET
       (λ mem len '(b, l), decode_email_target_withdraw mem len b l spacelen) view).
Proof.
  split; intros x y Hok; split.
  - eapply round_trip_ext;
      [exact (format_round_trip (sip_format spacelen false) _ ra 0 (x, y) eq_refl ltac:(done) Hok)
      |by intros ? ? []|by intros []].
  - eapply round_trip_ext;
      [exact (format_round_trip (sip_format spacelen true) _ ra 0 (x, y) eq_refl ltac:(done) Hok)
      |by intros ? ? []|by intros []].
  - eapply round_trip_ext;
      [exact (format_round_trip (email_target_format spacelen false) _ ra 0 (x, y) eq_refl ltac:(done) Hok)
      |by intros ? ? []|by intros []].
  - eapply round_trip_ext;
      [exact (format_round_trip (email_target_format spacelen true) _ ra 0 (x, y) eq_refl ltac:(done) Hok)
      |by intros ? ? []|by intros []].
Qed.

(** What the provisioner tells collectors and mediators about agencies,
    LIIDs, mediators, core servers, default RADIUS users and static ranges
    arrives as it was. *)
Theorem registry_round_trips :
  (∀ lea, lea_ok lea →
     round_trip ra (push_lea_onto_net_buffer ra lea) OPENLI_PROTO_ANNOUNCE_LEA
       decode_lea_announcement (λ _, lea)) ∧
  (∀ agency liid, good_str agency → good_str liid → str_val liid ≠ [] →
     round_trip ra (push_liid_mapping_onto_net_buffer ra agency liid)
       OPENLI_PROTO_MEDIATE_INTERCEPT
       (λ mem len '(a, l), decode_liid_mapping mem len a l) (λ _, (agency, liid))) ∧
  (∀ med, mediator_ok med →
     round_trip ra (push_mediator_onto_net_buffer ra med) OPENLI_PROTO_ANNOUNCE_MEDIATOR
       decode_mediator_announcement (λ _, med) ∧
     round_trip ra (push_mediator_withdraw_onto_net_buffer ra med) OPENLI_PROTO_WITHDRAW_MEDIATOR
       decode_mediator_withdraw (λ _, med)) ∧
  (∀ cs cstype, coreserver_ok cs cstype →
     round_trip ra (push_coreserver_onto_net_buffer ra cs cstype)
       OPENLI_PROTO_ANNOUNCE_CORESERVER decode_coreserver_announcement
       (coreserver_view cs cstype)) ∧
  (∀ d, radius_ok d →
     round_trip ra (push_default_radius_onto_net_buffer ra d)
       OPENLI_PROTO_ANNOUNCE_DEFAULT_RADIUS decode_default_radius_announcement
       (λ _, {| dr_name := d.(dr_name); dr_namelen := d.(dr_namelen);
                dr_awaitingconfirm := 0 |})).
Proof.
  split_and!.
  - intros lea Hok. by apply (format_round_trip lea_format _ ra 0).
  - intros agency liid Ha Hl Hne.
    eapply round_trip_ext;
      [apply (format_round_trip liid_mapping_format _ ra 0 (agency, liid)); done
      |by intros ? ? []|by intros []].
  - intros med Hok. split; [by apply (format_round_trip (mediator_format false) _ ra 0)
                           |by apply (format_round_trip (mediator_format true) _ ra 0)].
  - intros cs cstype Hok.
    by apply (format_round_trip (coreserver_format false) _ ra 0 (cs, cstype)).
  - intros d Hok. by apply (format_round_trip (radius_format false) _ ra 0).
Qed.

(** An HI1 notification arrives unchanged. *)
Theorem hi1_round_trip (nd : hi1_notify_data_t) :
  hi1_ok nd →
  round_trip ra (push_hi1_notification_onto_net_buffer ra nd) OPENLI_PROTO_HI1_NOTIFICATION
    decode_hi1_notification (λ _, nd).
Proof. intros Hok. by apply (format_round_trip hi1_format _ ra 0). Qed.

(** ** Messages without a body *)

(** The authentication messages: each of the two roles sends a bare header
    with its own magic number as identifier; any other type is refused and
    nothing is written. *)
Theorem push_auth_cases (t : openli_proto_msgtype_t) :
  match t with
  | OPENLI_PROTO_COLLECTOR_AUTH =>
      appends ra (push_auth_onto_net_buffer ra t) (wire_header t 0 OPENLI_COLLECTOR_MAGIC) 16
  | OPENLI_PROTO_MEDIATOR_AUTH =>
      appends ra (push_auth_onto_net_buffer ra t) (wire_header t 0 OPENLI_MEDIATOR_MAGIC) 16
  | _ => ∀ nb, push_auth_onto_net_buffer ra t nb = Ok (-1, nb)
  end.
Proof. destruct t; try (intros nb; reflexivity); by apply appends_header. Qed.

(** ** Failures and limits *)

(** a push that the allocator makes fail returns -1, but what it had
    already written stays: the content grows by a strict prefix of the message.
    For every kind of message and every buffer, these are the only two
    outcomes. *)
Theorem push_complete_or_torn {A B} (F : wire_format A B) (noret : Z) (a : A)
    (nb : net_buffer_t) (rc : Z) (nb' : net_buffer_t) :
  noret ≠ -1 → F.(wm_ok) a → nb_wf nb →
  F.(wm_push) ra noret a nb = Ok (rc, nb') →
  let frame := wire_frame F.(wm_type) 0 (wire_body (F.(wm_fields) a)) in
  nb_wf nb' ∧ same_conn nb nb' ∧
  (rc ≠ -1 ∧ nb_content nb' = nb_content nb ++ frame ∨
   rc = -1 ∧ ∃ p, p `prefix_of` frame ∧ zlen p < zlen frame ∧
     nb_content nb' = nb_content nb ++ p).
Proof.
  intros Hn Hok Hwf He. destruct (F.(wm_push_law) ra noret a Hn Hok) as (r & Hr & Ha).
  destruct (proj2 (Ha nb Hwf) _ _ He) as (? & ? & [(-> & ? & _)|(-> & p & ?)]);
    split_and!; [done..|by left|done|done|right; eauto].
Qed.

(** A string of more than 4092 bytes cannot be a field.  An agency whose
    identifier is that long is refused with -1 after its header has been
    written: the receiver is left waiting for a body that never comes. *)
Theorem long_field_leaves_header (lea : liagency_t) (nb : net_buffer_t) :
  (∃ s, lea.(lea_agencyid) = Some s ∧ cstr_ok s ∧ 4092 < zlen s < 65536) →
  good_str lea.(lea_hi2_ipstr) → good_str lea.(lea_hi2_portstr) →
  good_str lea.(lea_hi3_ipstr) → good_str lea.(lea_hi3_portstr) →
  nb_wf nb → 16 ≤ NETBUF_SPACE_REM nb →
  ∃ nb' len, push_lea_onto_net_buffer ra lea nb = Ok (-1, nb') ∧ 0 ≤ len < 65536 ∧
    nb_content nb' = nb_content nb ++ wire_header OPENLI_PROTO_ANNOUNCE_LEA len 0.
Proof.
  intros (s & Hs & Hok & Hlen) H2 H2p H3 H3p Hwf Hsp.
  unfold push_lea_onto_net_buffer, LEA_BODY_LEN. rewrite Hs, strlen_ok by done.
  rewrite !good_str_strlen by done. run_outcome.
  set (len := u16 _). assert (0 ≤ len < 65536) as Hu by apply u16_range. clearbody len.
  destruct (appends_header ra OPENLI_PROTO_ANNOUNCE_LEA len 0 ltac:(done) Hu ltac:(done) nb Hwf)
    as [Hex Hall].
  destruct Hex as [nb' He]; [split; [done|left; by rewrite zlen_wire_header]|].
  destruct (Hall _ _ He) as (_ & _ & [(_ & Hc & _)|[? _]]); [|done].
  exists nb', len. split; [|split; [exact Hu|exact Hc]].
  unfold push_then at 1. rewrite He. run_outcome. cbn [Z.eqb].
  unfold push_then at 1, push_str. rewrite strlen_ok by done. run_outcome.
  unfold push_tlv. rewrite (u16_id (zlen s)) by lia. destruct (Z.ltb_spec (4096 - 4) (zlen s)); [done|lia].
Qed.

End round_trips.

(** [decode_tlv] refuses a field with an empty value at the end of a
    message, so an agency withdrawal with an empty identifier is pushed
    normally and rejected by its decoder. *)
Theorem empty_last_field_rejected (ra : Z → bool) (lea b : liagency_t) (tail : bytes) :
  lea.(lea_agencyid) = Some [] →
  let body := wire_tlv OPENLI_PROTO_FIELD_LEAID [] in
  appends ra (push_lea_withdrawal_onto_net_buffer ra lea)
    (wire_frame OPENLI_PROTO_WITHDRAW_LEA 0 body) 4 ∧
  ∃ b', decode_lea_withdrawal (body ++ tail) (zlen body) b = Ok (-1, b').
Proof.
  intros Hid. split.
  - unfold push_lea_withdrawal_onto_net_buffer, LEA_WITHDRAW_BODY_LEN. rewrite Hid.
    eapply appends_bind; [done|].
    apply (appends_frame ra _ OPENLI_PROTO_WITHDRAW_LEA); [done..|].
    rewrite <- (app_nil_r (wire_tlv _ [])).
    eapply appends_then; [|apply (appends_str ra OPENLI_PROTO_FIELD_LEAID (Some []))|apply appends_return]; [done|].
    by exists []; repeat constructor.
  - eexists. reflexivity.
Qed.

(** * Examples *)

Definition grant (n : Z) : bool := true.

Lemma ipintercept_round_trip_witness :
  ∃ body bodies r, r ≠ -1 ∧
    appends grant (push_ipintercept_onto_net_buffer grant 0 sample_ip)
      (wire_frame OPENLI_PROTO_START_IPINTERCEPT 0 body ++
       concat (wire_frame OPENLI_PROTO_ADD_STATICIPS 0 <$> bodies)) r ∧
    (∀ b tail, decode_ipintercept_start (body ++ tail) (zlen body) b = Ok (0, ip_view sample_ip b)) ∧
    Forall2 (λ s sbody, ∀ b tail,
      decode_staticip_announcement (sbody ++ tail) (zlen sbody) b =
      Ok (0, {| sr_rangestr := s.(sr_rangestr); sr_liid := str "LIID001";
                sr_cin := s.(sr_cin); sr_awaitingconfirm := 0 |})) [sample_static] bodies.
Proof.
  apply (ipintercept_round_trip grant 0 sample_ip); [done|apply sample_ip_ok|].
  apply Forall_singleton, sample_static_ok.
Defined.

Lemma intercept_round_trips_witness :
  round_trip grant (push_voipintercept_onto_net_buffer grant 7 sample_voip)
    OPENLI_PROTO_START_VOIPINTERCEPT decode_voipintercept_start (voip_view sample_voip) ∧
  round_trip grant (push_emailintercept_modify grant 7 sample_email)
    OPENLI_PROTO_MODIFY_EMAILINTERCEPT decode_emailintercept_modify (email_view sample_email) ∧
  round_trip grant (push_ipintercept_modify grant 7 sample_ip)
    OPENLI_PROTO_MODIFY_IPINTERCEPT decode_ipintercept_modify (ip_view sample_ip).
Proof.
  destruct (intercept_round_trips grant 7 ltac:(done)) as (Hv & He & Hi).
  split; [apply (Hv sample_voip), sample_voip_ok|].
  split; [apply (He sample_email), sample_email_ok|apply Hi, sample_ip_ok].
Defined.

Lemma withdrawal_round_trips_witness :
  round_trip grant (push_intercept_withdrawal_onto_net_buffer grant (DataVoip sample_voip)
      OPENLI_PROTO_HALT_VOIPINTERCEPT)
    OPENLI_PROTO_HALT_VOIPINTERCEPT decode_voipintercept_halt
    (λ b, set_vi_common (halt_view sample_common b.(vi_common)) (voipintercept_init b)).
Proof.
  apply (proj1 (proj2 (withdrawal_round_trips grant)) sample_voip). apply sample_halt_ok.
Defined.

Lemma target_round_trips_witness :
  round_trip grant (push_sip_target_onto_net_buffer grant sample_sip sample_voip)
    OPENLI_PROTO_ANNOUNCE_SIP_TARGET
    (λ mem len '(b, l), decode_sip_target_announcement mem len b l 256)
    (λ '(b, _), sip_view sample_sip sample_common b).
Proof.
  apply (proj1 (target_round_trips grant 256) sample_sip sample_voip). apply sample_sip_ok.
Defined.

Lemma registry_round_trips_witness :
  round_trip grant (push_lea_onto_net_buffer grant sample_lea) OPENLI_PROTO_ANNOUNCE_LEA
    decode_lea_announcement (λ _, sample_lea).
Proof. apply (proj1 (registry_round_trips grant)), sample_lea_ok. Defined.

Lemma hi1_round_trip_witness :
  round_trip grant (push_hi1_notification_onto_net_buffer grant sample_hi1)
    OPENLI_PROTO_HI1_NOTIFICATION decode_hi1_notification (λ _, sample_hi1).
Proof. apply hi1_round_trip, sample_hi1_ok. Defined.

(** A full send buffer with room for a header and the first field. *)
Definition nearly_full : net_buffer_t := Mknet_buffer_t 5 [] 0 30 NETBUF_SEND false.

Lemma nearly_full_wf : nb_wf nearly_full.
Proof. by split. Qed.

Lemma push_complete_or_torn_witness :
  ∃ nb', lea_format.(wm_push) (λ _, false) 0 sample_lea nearly_full = Ok (-1, nb') ∧
    nb_content nb' ≠ [] ∧
    ∃ p, p `prefix_of` wire_frame OPENLI_PROTO_ANNOUNCE_LEA 0 (wire_body (lea_fields sample_lea)) ∧
      nb_content nb' = p.
Proof.
  eexists. split; [vm_compute; reflexivity|]. split; [vm_compute; discriminate|].
  destruct (push_complete_or_torn (λ _, false) lea_format 0 sample_lea nearly_full (-1)
    (Mknet_buffer_t 5
       (wire_header OPENLI_PROTO_ANNOUNCE_LEA 68 0 ++ wire_tlv OPENLI_PROTO_FIELD_LEAID (of_string "police"))
       0 30 NETBUF_SEND false)) as (_ & _ & [[? _]|(_ & p & Hp & _ & Hc)]).
  - done.
  - apply sample_lea_ok.
  - apply nearly_full_wf.
  - vm_compute. reflexivity.
  - done.
  - exists p. split; [exact Hp|]. vm_compute in Hc |- *. exact Hc.
Defined.

Lemma long_field_leaves_header_witness :
  ∃ nb' len, push_lea_onto_net_buffer grant
      (set_lea_agencyid (Some (replicate 5000 65)) sample_lea)
      (create_net_buffer NETBUF_SEND 5 false) = Ok (-1, nb') ∧ 0 ≤ len < 65536 ∧
    nb_content nb' = wire_header OPENLI_PROTO_ANNOUNCE_LEA len 0.
Proof.
  apply (long_field_leaves_header grant
    (set_lea_agencyid (Some (replicate 5000 65)) sample_lea) (create_net_buffer NETBUF_SEND 5 false)).
  - exists (replicate 5000 65). split; [reflexivity|]. split.
    + apply Forall_replicate. done.
    + unfold zlen. rewrite length_replicate. lia.
  - solve_good_str.
  - solve_good_str.
  - solve_good_str.
  - solve_good_str.
  - apply create_net_buffer_wf.
  - by vm_compute.
Defined.

Lemma empty_last_field_rejected_witness :
  ∃ b', decode_lea_withdrawal (wire_tlv OPENLI_PROTO_FIELD_LEAID []) 4 sample_lea = Ok (-1, b').
Proof.
  destruct (empty_last_field_rejected grant (set_lea_agencyid (Some []) sample_lea) sample_lea [] eq_refl)
    as [_ H]. exact H.
Defined.
