(* ===== verification/ExportBuffer.v ===== *)
(** * Export buffers (src/src/export_buffer.c)

    The byte queue between a producer of records and an unreliable
    connection: the collector's forwarder keeps one per mediator, the mediator
    one per handover.  [eb_data] holds the bytes from [bufhead] to [buftail];
    the first [eb_deadfront] of them have been sent, and of the batch being
    sent now [eb_partialfront] bytes are out and [eb_partialrem] remain.
    [eb_offsets] is the Judy1 set of record offsets.

    [realloc] and the connection are arguments, as in NetBuffer.  The 64-bit
    sizes are not wrapped: they count bytes of one block of memory.  The 32-bit
    members wrap where the code lets them. *)

From stdpp Require Import gmap fin_sets.
From S2P Require Import Prelude Libraries ByteOrder Protocol NetBuffer.

Definition BUFFER_ALLOC_SIZE : Z := 1024 * 1024 * 50.
Definition BUFFER_WARNING_THRESH : Z := 1024 * 1024 * 1024.
Definition BUF_OFFSET_FREQUENCY : Z := 1024 * 256.

Record export_buffer_t : Type := Mkexport_buffer_t {
  eb_data : bytes;
  eb_alloced : Z;
  eb_deadfront : Z;
  eb_partialfront : Z;
  eb_partialrem : Z;
  eb_nextwarn : Z;
  eb_offsets : gset Z;
  eb_since : Z;
}.

(** The members of an [openli_encoded_result_t] that are written to the buffer;
    [er_len] is [msgbody->len]. *)
Record openli_encoded_result_t : Type := Mkopenli_encoded_result_t {
  er_header : ii_header_t;
  er_encoded : bytes;
  er_len : Z;
  er_ipcontents : bytes;
  er_ipclen : Z;
}.

Definition set_eb_data (d : bytes) (b : export_buffer_t) : export_buffer_t :=
  Mkexport_buffer_t d b.(eb_alloced) b.(eb_deadfront) b.(eb_partialfront) b.(eb_partialrem)
    b.(eb_nextwarn) b.(eb_offsets) b.(eb_since).
Definition set_eb_deadfront (z : Z) (b : export_buffer_t) : export_buffer_t :=
  Mkexport_buffer_t b.(eb_data) b.(eb_alloced) z b.(eb_partialfront) b.(eb_partialrem)
    b.(eb_nextwarn) b.(eb_offsets) b.(eb_since).
Definition set_eb_alloced (z : Z) (b : export_buffer_t) : export_buffer_t :=
  Mkexport_buffer_t b.(eb_data) z b.(eb_deadfront) b.(eb_partialfront) b.(eb_partialrem)
    b.(eb_nextwarn) b.(eb_offsets) b.(eb_since).
Definition set_eb_partial (front rem : Z) (b : export_buffer_t) : export_buffer_t :=
  Mkexport_buffer_t b.(eb_data) b.(eb_alloced) b.(eb_deadfront) front rem
    b.(eb_nextwarn) b.(eb_offsets) b.(eb_since).
Definition set_eb_offsets (s : gset Z) (b : export_buffer_t) : export_buffer_t :=
  Mkexport_buffer_t b.(eb_data) b.(eb_alloced) b.(eb_deadfront) b.(eb_partialfront)
    b.(eb_partialrem) b.(eb_nextwarn) s b.(eb_since).
Definition set_eb_since (z : Z) (b : export_buffer_t) : export_buffer_t :=
  Mkexport_buffer_t b.(eb_data) b.(eb_alloced) b.(eb_deadfront) b.(eb_partialfront)
    b.(eb_partialrem) b.(eb_nextwarn) b.(eb_offsets) z.
Definition set_eb_nextwarn (z : Z) (b : export_buffer_t) : export_buffer_t :=
  Mkexport_buffer_t b.(eb_data) b.(eb_alloced) b.(eb_deadfront) b.(eb_partialfront)
    b.(eb_partialrem) z b.(eb_offsets) b.(eb_since).

(** [init_export_buffer] *)
Definition init_export_buffer : export_buffer_t :=
  Mkexport_buffer_t [] 0 0 0 0 BUFFER_WARNING_THRESH ∅ 0.

(** [get_buffered_amount] *)
Definition get_buffered_amount (b : export_buffer_t) : Z :=
  u64 (zlen b.(eb_data) - b.(eb_deadfront)).

(** [get_buffered_head]: the bytes at the pointer it returns, [None] for NULL,
    and the amount written to [*rem]. *)
Definition get_buffered_head (b : export_buffer_t) : option bytes * Z :=
  let rem := get_buffered_amount b in
  if rem =? 0 then (None, rem) else (Some (zdrop b.(eb_deadfront) b.(eb_data)), rem).

(** [reset_export_buffer] *)
Definition reset_export_buffer (b : export_buffer_t) : export_buffer_t := set_eb_partial 0 0 b.

(** [slide_buffer], where [slide = start - bufhead].  [memmove] changes the
    first [amount] bytes and [buftail] stays.  The loop over the offsets takes
    them in increasing order, removes each and puts it back moved down if it is
    not below [slide]; what it puts back is never visited again. *)
Definition slide_buffer (slide amount : Z) (b : export_buffer_t) : export_buffer_t :=
  if amount =? 0 then set_eb_offsets ∅ b
  else
    set_eb_offsets (set_map (λ i, i - slide) (filter (λ i, slide ≤ i) b.(eb_offsets)))
      (set_eb_data (ztake amount (zdrop slide b.(eb_data)) ++ zdrop amount b.(eb_data)) b).

Section export.
Context {J : Judy1} (realloc_ok : Z → bool).

(** [extend_buffer]: the space it returns and the buffer. *)
Definition extend_buffer (b : export_buffer_t) : Z * export_buffer_t :=
  let bufused := zlen b.(eb_data) - b.(eb_deadfront) in
  let b1 := if 0 <? b.(eb_deadfront) then slide_buffer b.(eb_deadfront) bufused b else b in
  if realloc_ok (b1.(eb_alloced) + BUFFER_ALLOC_SIZE) then
    let b2 := set_eb_alloced (b1.(eb_alloced) + BUFFER_ALLOC_SIZE)
                (set_eb_data (ztake bufused b1.(eb_data)) (set_eb_deadfront 0 b1)) in
    let b3 := if (b2.(eb_alloced) - BUFFER_ALLOC_SIZE <? b2.(eb_nextwarn)) &&
                 (b2.(eb_nextwarn) <=? b2.(eb_alloced))
              then set_eb_nextwarn (b2.(eb_nextwarn) + BUFFER_WARNING_THRESH) b2 else b2 in
    (b3.(eb_alloced) - bufused, b3)
  else (0, b1).

(** [while (spaceleft < need) { spaceleft = extend_buffer(buf); if (spaceleft
    == 0) return 0; }]: whether the loop was left normally, and the buffer.
    [None] is running out of fuel. *)
Fixpoint make_space (fuel : nat) (need spaceleft : Z) (b : export_buffer_t)
    : option (bool * export_buffer_t) :=
  if spaceleft <? need then
    match fuel with
    | O => None
    | S fuel =>
        let '(sp, b') := extend_buffer b in
        if sp =? 0 then Some (false, b') else make_space fuel need sp b'
    end
  else Some (true, b).

(** Every extension adds [BUFFER_ALLOC_SIZE], and [need] is below 2^33. *)
Definition space_fuel : nat := 200.

(** The part the two append functions share: [new] is what the [memcpy] calls
    write at [buftail], [need] the space the loop asks for and [added] the
    amount counted towards the next record offset. *)
Definition append_bytes (new : bytes) (need added beensent : Z) (b : export_buffer_t)
    : outcome (Z * export_buffer_t) :=
  let bufused := zlen b.(eb_data) in
  let spaceleft := b.(eb_alloced) - bufused in
  let b0 := if bufused =? 0 then set_eb_partial beensent b.(eb_partialrem) b else b in
  match make_space space_fuel need spaceleft b0 with
  | None => Undef
  | Some (false, b1) => Ok (0, b1)
  | Some (true, b1) =>
      if b1.(eb_alloced) <? zlen b1.(eb_data) + zlen new then Undef
      else
        let b2 := set_eb_data (b1.(eb_data) ++ new) b1 in
        let b3 := if BUF_OFFSET_FREQUENCY <=? u32 (b2.(eb_since) + added)
                  then set_eb_since 0 (set_eb_offsets ({[ bufused ]} ∪ b2.(eb_offsets)) b2)
                  else b2 in
        Ok (zlen b3.(eb_data), set_eb_since (u32 (b3.(eb_since) + added)) b3)
  end.

(** [append_etsipdu_to_buffer] *)
Definition append_etsipdu_to_buffer (pdustart : bytes) (pdulen beensent : Z)
    (b : export_buffer_t) : outcome (Z * export_buffer_t) :=
  pdu ← read_bytes pdulen pdustart;
  append_bytes pdu pdulen pdulen beensent b.

(** [append_message_to_buffer] *)
Definition append_message_to_buffer (res : openli_encoded_result_t) (beensent : Z)
    (b : export_buffer_t) : outcome (Z * export_buffer_t) :=
  let enclen := u32 (res.(er_len) - res.(er_ipclen)) in
  enc ← read_bytes enclen res.(er_encoded);
  ipc ← read_bytes res.(er_ipclen) res.(er_ipcontents);
  append_bytes (header_memory res.(er_header) ++ enc ++ ipc)
    (res.(er_len) + sizeof_ii_header_t)
    (u32 (sizeof_ii_header_t + res.(er_len))) beensent b.

(** [post_transmit].  Shrinking uses the result of [realloc] unchecked, so a
    refusal has no defined continuation. *)
Definition post_transmit (b : export_buffer_t) : outcome export_buffer_t :=
  _ ← c_assert (b.(eb_deadfront) <=? zlen b.(eb_data));
  let rem := zlen b.(eb_data) - b.(eb_deadfront) in
  b' ← (if (rem <? b.(eb_alloced) / 2) && (10 * BUFFER_ALLOC_SIZE <? b.(eb_alloced)) then
          let resize := (rem / BUFFER_ALLOC_SIZE + 1) * BUFFER_ALLOC_SIZE in
          let b1 := slide_buffer b.(eb_deadfront) rem b in
          if realloc_ok resize
          then Ok (set_eb_deadfront 0 (set_eb_alloced resize
                    (set_eb_data (ztake rem b1.(eb_data)) b1)))
          else Undef
        else if (4 * (b.(eb_alloced) - zlen b.(eb_data)) <? b.(eb_alloced)) &&
                (b.(eb_alloced) <=? 4 * b.(eb_deadfront)) then
          let b1 := slide_buffer b.(eb_deadfront) rem b in
          _ ← c_assert (rem <? b1.(eb_alloced));
          Ok (set_eb_deadfront 0 (set_eb_data (ztake rem b1.(eb_data)) b1))
        else Ok b);
  Ok (set_eb_partial 0 0 b').

(** The amount [transmit_buffered_records] decides to send.  [Abort] is the
    failed [assert] when no record offset is low enough. *)
Definition transmit_amount (bytelimit : Z) (b : export_buffer_t)
    : outcome (Z * export_buffer_t) :=
  if 0 <? b.(eb_partialrem) then Ok (b.(eb_partialrem), b)
  else
    let sent := u64 (zlen b.(eb_data) - (b.(eb_deadfront) + b.(eb_partialfront))) in
    sent ← (if bytelimit <? sent then
              match J1P b.(eb_offsets) (bytelimit + 1 + b.(eb_deadfront)) with
              | None => Abort
              | Some index => Ok (u64 (index - b.(eb_deadfront)))
              end
            else Ok sent);
    Ok (sent, set_eb_partial b.(eb_partialfront) (u32 sent) b).

(** [transmit_buffered_records]: the return value, the buffer, and the bytes
    that went out.  [res] is the answer of [send], or the one that ended the
    [SSL_write] loop.  Offering bytes beyond [buftail], or a length that is not
    an [int], is [Undef]. *)
Definition transmit_buffered_records (bytelimit : Z) (res : send_result)
    (b : export_buffer_t) : outcome (Z * export_buffer_t * bytes) :=
  '(sent, b1) ← transmit_amount bytelimit b;
  if sent =? 0 then b2 ← post_transmit b1; Ok (0, b2, [])
  else
    let from := b1.(eb_deadfront) + b1.(eb_partialfront) in
    if (INT_MAX <? sent) || (zlen b1.(eb_data) <? from + sent) then Undef
    else match res with
    | SendError => Ok (-1, b1, [])
    | SendWouldBlock => Ok (0, b1, [])
    | Sent ret =>
        let out := ztake ret (zdrop from b1.(eb_data)) in
        if ret <? sent then
          Ok (ret, set_eb_partial (u32 (b1.(eb_partialfront) + ret))
                     (u32 (b1.(eb_partialrem) - ret)) b1, out)
        else
          b2 ← post_transmit
                 (set_eb_deadfront (u32 (b1.(eb_deadfront) + u32 (ret + b1.(eb_partialfront)))) b1);
          Ok (sent, b2, out)
    end.

(** [transmit_buffered_records_RMQ]; [published] is whether
    [amqp_basic_publish] returned 0. *)
Definition transmit_buffered_records_RMQ (bytelimit : Z) (published : bool)
    (b : export_buffer_t) : outcome (Z * export_buffer_t * bytes) :=
  let avail := u64 (zlen b.(eb_data) - b.(eb_deadfront)) in
  let sent := if bytelimit <? avail then bytelimit else avail in
  let ret := if published then sent else 0 in
  let out := if published then ztake sent (zdrop b.(eb_deadfront) b.(eb_data)) else [] in
  let b1 := if sent =? 0 then b
            else set_eb_deadfront (u32 (b.(eb_deadfront) + u32 ret)) b in
  b2 ← post_transmit b1; Ok (i32 sent, b2, out).

(** [advance_export_buffer_head] *)
Definition advance_export_buffer_head (amount : Z) (b : export_buffer_t)
    : outcome (Z * export_buffer_t) :=
  let rem := get_buffered_amount b in
  let amount := if rem <? amount then rem else amount in
  b' ← post_transmit (set_eb_deadfront (u32 (b.(eb_deadfront) + amount)) b);
  Ok (0, b').

End export.

(** [transmit_heartbeat]: the loop over the answers of the connection, with
    what is left to send.  [None]: still sending when the answers run out. *)
Fixpoint heartbeat_loop (left : bytes) (answers : list send_result) : option Z * bytes :=
  if zlen left =? 0 then (Some sizeof_ii_header_t, [])
  else match answers with
  | [] => (None, [])
  | SendError :: _ => (Some (-1), [])
  | SendWouldBlock :: answers => heartbeat_loop left answers
  | Sent n :: answers =>
      let '(rc, out) := heartbeat_loop (zdrop n left) answers in (rc, ztake n left ++ out)
  end.

Definition heartbeat_header : ii_header_t :=
  {| hdr_magic := htonl OPENLI_PROTO_MAGIC; hdr_bodylen := 0;
     hdr_intercepttype := htons (u16 OPENLI_PROTO_HEARTBEAT); hdr_internalid := 0 |}.

Definition transmit_heartbeat (answers : list send_result) : option Z * bytes :=
  heartbeat_loop (header_memory heartbeat_header) answers.

(** * Invariant and lemmas *)

(** The bytes a [get_buffered_head] caller sees, and those not yet sent. *)
Definition eb_content (b : export_buffer_t) : bytes := zdrop b.(eb_deadfront) b.(eb_data).
Definition eb_unsent (b : export_buffer_t) : bytes :=
  zdrop (b.(eb_deadfront) + b.(eb_partialfront)) b.(eb_data).

(** The pointers are in order and inside the block. *)
Record eb_bounds (b : export_buffer_t) : Prop := {
  ebb_front : 0 ≤ b.(eb_deadfront) ≤ zlen b.(eb_data);
  ebb_alloc : zlen b.(eb_data) ≤ b.(eb_alloced);
}.

Lemma zlen_eb_content b :
  eb_bounds b → zlen (eb_content b) = zlen b.(eb_data) - b.(eb_deadfront).
Proof. intros [H _]. by apply zlen_zdrop. Qed.

(** After a slide the first [amount] bytes are the content. *)
Lemma slide_content b :
  eb_bounds b →
  ztake (zlen b.(eb_data) - b.(eb_deadfront))
    (slide_buffer b.(eb_deadfront) (zlen b.(eb_data) - b.(eb_deadfront)) b).(eb_data)
  = eb_content b.
Proof.
  intros Hb. pose proof (zlen_eb_content b Hb) as Hl. unfold slide_buffer.
  destruct (Z.eqb_spec (zlen b.(eb_data) - b.(eb_deadfront)) 0) as [E|_].
  - rewrite E. rewrite E in Hl. by rewrite (zlen_0 _ Hl).
  - simpl. fold (eb_content b).
    assert (ztake (zlen (eb_data b) - eb_deadfront b) (eb_content b) = eb_content b) as ->.
    { rewrite <- (app_nil_r (eb_content b)) at 1. by apply ztake_app. }
    by apply ztake_app.
Qed.

Lemma slide_members slide amount b :
  (slide_buffer slide amount b).(eb_alloced) = b.(eb_alloced) ∧
  (slide_buffer slide amount b).(eb_deadfront) = b.(eb_deadfront) ∧
  (slide_buffer slide amount b).(eb_partialfront) = b.(eb_partialfront) ∧
  (slide_buffer slide amount b).(eb_partialrem) = b.(eb_partialrem) ∧
  (slide_buffer slide amount b).(eb_since) = b.(eb_since).
Proof. unfold slide_buffer. by destruct (_ =? _). Qed.

Section export_lemmas.
Context {J : Judy1} (realloc_ok : Z → bool).

(** The allocator: a smaller request than one it grants is granted, and it
    never hands out 4 GiB or more. *)
Hypothesis realloc_mono : ∀ m n, m ≤ n → realloc_ok n = true → realloc_ok m = true.
Hypothesis realloc_bound : ∀ n, realloc_ok n = true → n < 2 ^ 32.

Record eb_wf (b : export_buffer_t) : Prop := {
  ebw_bounds : eb_bounds b;
  ebw_alloc : b.(eb_alloced) = 0 ∨ realloc_ok b.(eb_alloced) = true;
  ebw_partial : 0 ≤ b.(eb_partialfront) ∧ 0 ≤ b.(eb_partialrem) ≤ INT_MAX ∧
    b.(eb_deadfront) + b.(eb_partialfront) + b.(eb_partialrem) ≤ zlen b.(eb_data);
  ebw_idle : b.(eb_partialrem) = 0 → b.(eb_partialfront) = 0;
}.

Lemma init_export_buffer_wf : eb_wf init_export_buffer.
Proof. split; [split; done|by left|done|done]. Qed.

Lemma ebw_small b : eb_wf b → b.(eb_alloced) < 2 ^ 32.
Proof. intros [_ [->|H] _ _]; [done|by apply realloc_bound]. Qed.

(** A granted extension: the dead front is gone and there is one more unit. *)
Lemma extend_granted b :
  eb_bounds b → realloc_ok (b.(eb_alloced) + BUFFER_ALLOC_SIZE) = true →
  ∃ b', extend_buffer realloc_ok b
        = (b.(eb_alloced) + BUFFER_ALLOC_SIZE - zlen (eb_content b), b') ∧
    b'.(eb_data) = eb_content b ∧ b'.(eb_deadfront) = 0 ∧
    b'.(eb_alloced) = b.(eb_alloced) + BUFFER_ALLOC_SIZE ∧
    b'.(eb_partialfront) = b.(eb_partialfront) ∧ b'.(eb_partialrem) = b.(eb_partialrem) ∧
    b'.(eb_since) = b.(eb_since).
Proof.
  intros Hb Hr. pose proof (zlen_eb_content b Hb) as Hl. unfold extend_buffer.
  set (used := zlen (eb_data b) - eb_deadfront b) in *.
  set (b1 := if 0 <? eb_deadfront b then slide_buffer (eb_deadfront b) used b else b).
  assert (b1.(eb_alloced) = b.(eb_alloced) ∧ b1.(eb_partialfront) = b.(eb_partialfront) ∧
          b1.(eb_partialrem) = b.(eb_partialrem) ∧ b1.(eb_since) = b.(eb_since) ∧
          ztake used b1.(eb_data) = eb_content b) as (Ha & Hpf & Hpr & Hsi & Hd).
  { unfold b1. destruct (Z.ltb_spec 0 (eb_deadfront b)) as [H0|H0].
    - destruct (slide_members (eb_deadfront b) used b) as (->&_&->&->&->).
      split_and!; try done. by apply slide_content.
    - split_and!; try done. destruct Hb as [Hf _]. assert (eb_deadfront b = 0) as E by lia.
      unfold eb_content. rewrite E, zdrop_0. rewrite <- (app_nil_r (eb_data b)) at 1.
      apply ztake_app. unfold used. lia. }
  rewrite Ha, Hr. destruct (_ && _); eexists; (split; [by rewrite Hl|]); simpl; by rewrite ?Ha.
Qed.

(** The space loop: it ends, and it leaves the queued bytes alone. *)
Lemma make_space_spec fuel : ∀ need b,
  eb_bounds b → b.(eb_alloced) = 0 ∨ realloc_ok b.(eb_alloced) = true →
  need - (b.(eb_alloced) - zlen b.(eb_data)) ≤ Z.of_nat fuel * BUFFER_ALLOC_SIZE →
  realloc_ok (zlen b.(eb_data) + need + BUFFER_ALLOC_SIZE) = true →
  ∃ b', make_space realloc_ok fuel need (b.(eb_alloced) - zlen b.(eb_data)) b = Some (true, b') ∧
    eb_bounds b' ∧ (b'.(eb_alloced) = 0 ∨ realloc_ok b'.(eb_alloced) = true) ∧
    eb_content b' = eb_content b ∧ need ≤ b'.(eb_alloced) - zlen b'.(eb_data) ∧
    b'.(eb_partialfront) = b.(eb_partialfront) ∧ b'.(eb_partialrem) = b.(eb_partialrem) ∧
    zlen b'.(eb_data) ≤ zlen b.(eb_data).
Proof.
  induction fuel as [|fuel IH]; intros need b Hb Hal Hfuel Hr; cbn [make_space].
  { rewrite (proj2 (Z.ltb_ge _ _)) by lia. exists b. split_and!; first [done|lia]. }
  destruct (Z.ltb_spec (b.(eb_alloced) - zlen b.(eb_data)) need) as [Hlt|Hge];
    [|exists b; split_and!; first [done|lia]].
  pose proof (zlen_eb_content b Hb) as Hl. pose proof (ebb_front b Hb) as Hf.
  pose proof (ebb_alloc b Hb) as Ha.
  assert (realloc_ok (b.(eb_alloced) + BUFFER_ALLOC_SIZE) = true) as Hg
    by (eapply realloc_mono; [|exact Hr]; lia).
  destruct (extend_granted b Hb Hg) as (b1 & -> & Hd & Hdf & Hal1 & Hpf & Hpr & Hsi).
  rewrite (proj2 (Z.eqb_neq _ _)) by (unfold BUFFER_ALLOC_SIZE; lia).
  assert (eb_content b1 = eb_content b) as Hc by (unfold eb_content at 1; by rewrite Hdf, Hd).
  rewrite <- Hal1, <- Hd.
  destruct (IH need b1) as (b' & -> & Hb' & Hal' & Hc' & Hn' & Hpf' & Hpr' & Hd').
  - split; [rewrite Hdf; zlia|]. rewrite Hd, Hal1. unfold BUFFER_ALLOC_SIZE. lia.
  - right. by rewrite Hal1.
  - rewrite Hd, Hal1. lia.
  - eapply realloc_mono; [|exact Hr]. rewrite Hd. lia.
  - exists b'. repeat (split; [done|]). rewrite Hc', Hc, Hpf', Hpr'.
    rewrite Hd in Hd'. split_and!; [done..|lia].
Qed.

(** Appending: the new bytes go to the end of the queue and nothing else
    changes in it. *)
Lemma append_bytes_spec new need added b :
  eb_wf b → zlen new = need → need < 2 ^ 33 →
  realloc_ok (zlen b.(eb_data) + need + BUFFER_ALLOC_SIZE) = true →
  ∃ b', append_bytes realloc_ok new need added 0 b = Ok (zlen b'.(eb_data), b') ∧ eb_wf b' ∧
    eb_content b' = eb_content b ++ new ∧
    b'.(eb_partialfront) = b.(eb_partialfront) ∧ b'.(eb_partialrem) = b.(eb_partialrem) ∧
    need ≤ zlen b'.(eb_data) ≤ zlen b.(eb_data) + need.
Proof.
  intros [Hb Hal Hp Hidle] Hnew Hneed Hr. unfold append_bytes.
  pose proof (ebb_front b Hb) as Hf. zlen_pose.
  assert ((if zlen (eb_data b) =? 0 then set_eb_partial 0 (eb_partialrem b) b else b) = b) as ->.
  { destruct (Z.eqb_spec (zlen (eb_data b)) 0) as [E|]; [|done].
    assert (eb_partialfront b = 0) as E2 by lia. destruct b; simpl in *. by rewrite E2. }
  destruct (make_space_spec space_fuel need b) as (b1 & -> & Hb1 & Hal1 & Hc & Hn & Hpf & Hpr & Hd);
    try done.
  { pose proof (ebb_alloc b Hb). unfold space_fuel, BUFFER_ALLOC_SIZE. lia. }
  rewrite (proj2 (Z.ltb_ge _ _)) by lia.
  set (b3 := if _ <=? _ then _ else _).
  assert (b3.(eb_data) = b1.(eb_data) ++ new ∧ b3.(eb_alloced) = b1.(eb_alloced) ∧
          b3.(eb_deadfront) = b1.(eb_deadfront) ∧ b3.(eb_partialfront) = b1.(eb_partialfront) ∧
          b3.(eb_partialrem) = b1.(eb_partialrem)) as (Hd3 & Ha3 & Hf3 & Hpf3 & Hpr3)
    by (unfold b3; by destruct (_ <=? _)).
  pose proof (zlen_eb_content b Hb) as Hlc. pose proof (zlen_eb_content b1 Hb1) as Hlc1.
  rewrite Hc in Hlc1. pose proof (ebb_front b1 Hb1).
  exists (set_eb_since (u32 (b3.(eb_since) + added)) b3). split; [done|]. split_and!.
  - split; [split|..]; simpl; rewrite ?Hd3, ?Ha3, ?Hf3, ?Hpf3, ?Hpr3, ?Hpf, ?Hpr, ?zlen_app;
      try done; lia.
  - unfold eb_content. simpl. rewrite Hd3, Hf3, zdrop_app_le by lia.
    fold (eb_content b1). by rewrite Hc.
  - simpl. by rewrite Hpf3.
  - simpl. by rewrite Hpr3.
  - simpl. rewrite Hd3, zlen_app. zlen_pose. lia.
  - simpl. rewrite Hd3, zlen_app. zlen_pose. lia.
Qed.

(** [post_transmit] reclaims space: no assertion fails, the content stays and
    no batch is in progress. *)
Lemma post_transmit_spec b :
  eb_bounds b → b.(eb_alloced) = 0 ∨ realloc_ok b.(eb_alloced) = true →
  ∃ b', post_transmit realloc_ok b = Ok b' ∧ eb_wf b' ∧ eb_content b' = eb_content b ∧
    b'.(eb_partialfront) = 0 ∧ b'.(eb_alloced) ≤ b.(eb_alloced).
Proof.
  intros Hb Hal. pose proof (zlen_eb_content b Hb) as Hl. pose proof (slide_content b Hb) as Hs.
  destruct (slide_members b.(eb_deadfront) (zlen b.(eb_data) - b.(eb_deadfront)) b)
    as (Has & _).
  destruct (Hb) as [Hf Ha]. unfold post_transmit.
  rewrite (proj2 (Z.leb_le b.(eb_deadfront) _)) by lia. cbn [c_assert]. run_outcome.
  set (rem := zlen b.(eb_data) - b.(eb_deadfront)) in *.
  assert (0 ≤ rem) as H0 by (unfold rem; lia).
  (* a buffer whose data was replaced by the content *)
  assert (∀ x, x.(eb_data) = eb_content b → x.(eb_deadfront) = 0 → rem ≤ x.(eb_alloced) →
            x.(eb_alloced) ≤ b.(eb_alloced) →
            ∃ b', Ok (set_eb_partial 0 0 x) = Ok b' ∧ eb_wf b' ∧ eb_content b' = eb_content b ∧
              b'.(eb_partialfront) = 0 ∧ b'.(eb_alloced) ≤ b.(eb_alloced)) as Hfin.
  { intros x Hd Hdf Hra Hle. eexists. split; [done|]. simpl. split_and!; try done.
    - split; [split|..]; simpl; rewrite ?Hd, ?Hdf, ?Hl; try done; try lia.
      destruct (Z.eq_dec x.(eb_alloced) 0); [by left|right].
      destruct Hal as [E|Hal]; [lia|]. by eapply realloc_mono.
    - unfold eb_content at 1. simpl. by rewrite Hd, Hdf. }
  destruct ((rem <? b.(eb_alloced) / 2) && _) eqn:E1.
  - apply andb_true_iff in E1 as [E1%Z.ltb_lt E2%Z.ltb_lt].
    pose proof (Z.div_mod rem BUFFER_ALLOC_SIZE ltac:(done)) as Hdm.
    pose proof (Z.mod_pos_bound rem BUFFER_ALLOC_SIZE ltac:(done)) as Hmb.
    pose proof (Z.mul_div_le b.(eb_alloced) 2 ltac:(done)).
    assert (realloc_ok ((rem / BUFFER_ALLOC_SIZE + 1) * BUFFER_ALLOC_SIZE) = true) as ->.
    { destruct Hal as [E|Hal]; [unfold BUFFER_ALLOC_SIZE in *; lia|].
      eapply realloc_mono; [|exact Hal]. unfold BUFFER_ALLOC_SIZE in *. lia. }
    run_outcome. apply Hfin; [done|done|simpl; unfold BUFFER_ALLOC_SIZE in *; lia..].
  - clear E1. destruct (_ && _) eqn:E2.
    + apply andb_true_iff in E2 as [E2%Z.ltb_lt E3%Z.leb_le].
      rewrite Has, (proj2 (Z.ltb_lt _ _)) by (unfold rem; lia). cbn [c_assert]. run_outcome.
      apply Hfin; [done|done|simpl; rewrite Has; unfold rem; lia|simpl; lia].
    + run_outcome. eexists. split; [done|]. simpl. split_and!; try done.
      split; [by split|done|simpl; unfold INT_MAX; lia|done].
Qed.

(** ** Sending *)

(** The amount that may be offered: everything, or up to a record offset that
    is not in the dead part. *)
Definition cut_ok (bytelimit : Z) (b : export_buffer_t) : Prop :=
  0 ≤ bytelimit ≤ INT_MAX ∧
  (zlen (eb_unsent b) ≤ bytelimit ∨
   ∃ o, o ∈ b.(eb_offsets) ∧ b.(eb_deadfront) ≤ o ≤ b.(eb_deadfront) + bytelimit).

Lemma zlen_eb_unsent b :
  eb_wf b → zlen (eb_unsent b) = zlen b.(eb_data) - (b.(eb_deadfront) + b.(eb_partialfront)).
Proof. intros [[Hf _] _ Hp _]. apply zlen_zdrop. lia. Qed.

Lemma transmit_amount_spec bytelimit b :
  eb_wf b → cut_ok bytelimit b →
  ∃ sent, 0 ≤ sent ≤ zlen (eb_unsent b) ∧ sent ≤ INT_MAX ∧
    transmit_amount bytelimit b = Ok (sent, set_eb_partial b.(eb_partialfront) sent b).
Proof.
  intros Hwf Hcut. pose proof (zlen_eb_unsent b Hwf) as Hlen. pose proof (ebw_small b Hwf) as Hsm.
  destruct Hwf as [[Hf Ha] _ Hp Hidle], Hcut as [Hlim Hcut]. unfold transmit_amount.
  destruct (Z.ltb_spec 0 b.(eb_partialrem)) as [H0|H0].
  { exists b.(eb_partialrem). split_and!; [lia..|]. by destruct b. }
  assert (b.(eb_partialfront) = 0) as Hpf by (apply Hidle; lia).
  zlen_pose. rewrite <- Hlen, (u64_id (zlen (eb_unsent b))) by lia.
  destruct (Z.ltb_spec bytelimit (zlen (eb_unsent b))) as [Hlt|Hge].
  - destruct Hcut as [?|(o & Ho & Hoi)]; [lia|].
    pose proof (J1P_spec b.(eb_offsets) (bytelimit + 1 + b.(eb_deadfront))) as HJ.
    destruct (J1P _ _) as [i|]; [|specialize (HJ o Ho); lia].
    destruct HJ as (_ & Hi & Hmax). specialize (Hmax o Ho ltac:(lia)).
    exists (i - b.(eb_deadfront)). run_outcome. unfold INT_MAX in *.
    rewrite (u64_id (i - _)), (u32_id (i - _)) by lia. split_and!; [lia..|done].
  - exists (zlen (eb_unsent b)). run_outcome. unfold INT_MAX in *.
    rewrite u32_id by lia. split_and!; [lia..|done].
Qed.

(** What the connection can answer to an offer of [transmit_buffered_records]. *)
Definition answer_ok (bytelimit : Z) (b : export_buffer_t) (res : send_result) : Prop :=
  match res with
  | Sent n => 0 ≤ n ∧ ∀ sent b', transmit_amount bytelimit b = Ok (sent, b') → n ≤ sent
  | _ => True
  end.

Lemma transmit_records_spec bytelimit res b :
  eb_wf b → cut_ok bytelimit b → answer_ok bytelimit b res →
  ∃ rc b' out, transmit_buffered_records realloc_ok bytelimit res b = Ok (rc, b', out) ∧
    eb_wf b' ∧ out ++ eb_unsent b' = eb_unsent b ∧
    (eb_content b' = eb_content b ∨ eb_content b' = eb_unsent b').
Proof.
  intros Hwf Hcut Hres.
  destruct (transmit_amount_spec _ b Hwf Hcut) as (sent & Hs & Hi & Hamt).
  pose proof (zlen_eb_unsent b Hwf) as Hlen. pose proof (ebw_small b Hwf) as Hsm.
  unfold transmit_buffered_records. rewrite Hamt. run_outcome.
  destruct Hwf as [Hb Hal Hp Hidle]. destruct (Hb) as [Hf Ha].
  destruct (Z.eqb_spec sent 0) as [->|Hne].
  { assert (b.(eb_partialrem) = 0) as Hpr.
    { unfold transmit_amount in Hamt. destruct (Z.ltb_spec 0 b.(eb_partialrem)); [|lia].
      injection Hamt as ?; lia. }
    destruct (post_transmit_spec (set_eb_partial b.(eb_partialfront) 0 b))
      as (b' & -> & Hwf' & Hc & Hpf & _); [by split|done|].
    run_outcome. eexists _, _, _. split; [done|]. split; [done|].
    unfold eb_unsent. rewrite Hpf, (Hidle Hpr), !Z.add_0_r. by auto. }
  cbn [eb_deadfront eb_partialfront eb_data set_eb_partial].
  rewrite (proj2 (Z.ltb_ge INT_MAX sent)), (proj2 (Z.ltb_ge _ _)) by lia. cbn [orb].
  (* nothing went out *)
  assert (eb_wf (set_eb_partial b.(eb_partialfront) sent b)) as Hwf1
    by (split; [by split|done|simpl; lia|simpl; lia]).
  destruct res as [ret| |]; [|eexists _, _, _; split; [done|]; auto..].
  destruct Hres as [Hr0 Hr]. specialize (Hr _ _ Hamt).
  assert (ztake ret (eb_unsent b) ++ zdrop ret (eb_unsent b) = eb_unsent b) as Hsplit
    by apply ztake_zdrop.
  unfold eb_unsent in Hsplit at 2. rewrite zdrop_zdrop in Hsplit by lia.
  destruct (Z.ltb_spec ret sent) as [Hlt|Hge].
  - eexists _, _, _. split; [done|]. simpl. unfold INT_MAX in *.
    rewrite !u32_id by lia. split; [split; [by split|done|simpl; unfold INT_MAX; lia|simpl; lia]|].
    split; [|by left]. unfold eb_unsent at 1. simpl. by rewrite Z.add_assoc.
  - assert (ret = sent) as -> by lia.
    rewrite (u32_id (sent + _)) by lia. rewrite u32_id by lia.
    destruct (post_transmit_spec (set_eb_deadfront (b.(eb_deadfront) + (sent + b.(eb_partialfront)))
      (set_eb_partial b.(eb_partialfront) sent b))) as (b' & -> & Hwf' & Hc & Hpf & _).
    { split; simpl; lia. }
    { done. }
    run_outcome. eexists _, _, _. split; [done|]. split; [done|].
    assert (eb_content b' = eb_unsent b') as Hcu
      by (unfold eb_unsent; by rewrite Hpf, Z.add_0_r).
    split; [|by right]. rewrite <- Hcu, Hc. unfold eb_content. simpl.
    replace (eb_deadfront b + (sent + eb_partialfront b))
      with (eb_deadfront b + eb_partialfront b + sent) by lia. done.
Qed.

Lemma transmit_RMQ_spec bytelimit published b :
  eb_wf b → 0 ≤ bytelimit ≤ INT_MAX →
  ∃ rc b' out, transmit_buffered_records_RMQ realloc_ok bytelimit published b = Ok (rc, b', out) ∧
    eb_wf b' ∧ out ++ eb_content b' = eb_content b ∧
    rc = Z.min bytelimit (zlen (eb_content b)) ∧
    out = if published then ztake rc (eb_content b) else [].
Proof.
  intros Hwf Hlim. pose proof (ebw_small b Hwf) as Hsm. destruct Hwf as [Hb Hal Hp Hidle].
  pose proof (zlen_eb_content b Hb) as Hl. destruct (Hb) as [Hf Ha].
  unfold transmit_buffered_records_RMQ. rewrite <- Hl. zlen_pose.
  rewrite (u64_id (zlen (eb_content b))) by lia.
  set (sent := if bytelimit <? zlen (eb_content b) then bytelimit else zlen (eb_content b)).
  assert (sent = Z.min bytelimit (zlen (eb_content b))) as Hs
    by (unfold sent; destruct (Z.ltb_spec bytelimit (zlen (eb_content b))); lia).
  clearbody sent. fold (eb_content b).
  set (ret := if published then sent else 0).
  assert (0 ≤ ret ≤ zlen (eb_content b)) as Hret by (unfold ret; destruct published; lia).
  assert ((if sent =? 0 then b else set_eb_deadfront (u32 (eb_deadfront b + u32 ret)) b)
          = set_eb_deadfront (eb_deadfront b + ret) b) as ->.
  { destruct (Z.eqb_spec sent 0) as [E|E].
    - assert (ret = 0) as -> by (unfold ret; destruct published; lia).
      rewrite Z.add_0_r. by destruct b.
    - rewrite (u32_id ret) by lia. by rewrite u32_id by lia. }
  destruct (post_transmit_spec (set_eb_deadfront (eb_deadfront b + ret) b))
    as (b' & -> & Hwf' & Hc & _ & _); [split; simpl; lia|done|].
  run_outcome. eexists _, _, _. split; [done|]. split; [done|].
  rewrite i32_id by (unfold INT_MAX in *; lia). split; [|split; [done|by rewrite Hs]].
  assert (eb_content (set_eb_deadfront (eb_deadfront b + ret) b) = zdrop ret (eb_content b)) as Hz
    by (unfold eb_content; simpl; by rewrite zdrop_zdrop by lia).
  assert ((if published then ztake sent (eb_content b) else []) = ztake ret (eb_content b)) as ->
    by (unfold ret; by destruct published).
  rewrite Hc, Hz. apply ztake_zdrop.
Qed.

Lemma advance_spec amount b :
  eb_wf b → 0 ≤ amount →
  ∃ b', advance_export_buffer_head realloc_ok amount b = Ok (0, b') ∧ eb_wf b' ∧
    eb_content b' = zdrop (Z.min amount (zlen (eb_content b))) (eb_content b).
Proof.
  intros Hwf H0. pose proof (ebw_small b Hwf) as Hsm. destruct Hwf as [Hb Hal Hp Hidle].
  pose proof (zlen_eb_content b Hb) as Hl. destruct (Hb) as [Hf Ha].
  unfold advance_export_buffer_head, get_buffered_amount. rewrite <- Hl. zlen_pose.
  rewrite u64_id by lia.
  set (am := if _ <? _ then _ else _).
  assert (am = Z.min amount (zlen (eb_content b))) as Ham
    by (unfold am; destruct (Z.ltb_spec (zlen (eb_content b)) amount); lia).
  clearbody am. rewrite u32_id by lia.
  destruct (post_transmit_spec (set_eb_deadfront (eb_deadfront b + am) b))
    as (b' & -> & Hwf' & Hc & _ & _); [split; simpl; lia|done|].
  run_outcome. eexists. split; [done|]. split; [done|].
  rewrite Hc, <- Ham. unfold eb_content. simpl. by rewrite zdrop_zdrop by lia.
Qed.

End export_lemmas.

(** * The queue an export buffer implements *)

(** The specification: the bytes of the current batch that are out but not yet
    accounted for, and the bytes still to be sent. *)
Record queue : Type := Mkqueue { q_flight : bytes; q_pending : bytes }.

(** What a step does: append bytes, send bytes, start the batch again after a
    lost connection, or discard bytes that another thread has consumed. *)
Inductive queue_label : Type :=
  | QAppend (new : bytes)
  | QSend (out : bytes)
  | QRewind
  | QDiscard (n : Z).

Inductive queue_step : queue → queue_label → queue → Prop :=
  | queue_append p q new : queue_step (Mkqueue p q) (QAppend new) (Mkqueue p (q ++ new))
  | queue_partial p k r : queue_step (Mkqueue p (k ++ r)) (QSend k) (Mkqueue (p ++ k) r)
  | queue_complete p k r : queue_step (Mkqueue p (k ++ r)) (QSend k) (Mkqueue [] r)
  | queue_rewind p q : queue_step (Mkqueue p q) QRewind (Mkqueue [] (p ++ q))
  | queue_discard p q n : queue_step (Mkqueue p q) (QDiscard n) (Mkqueue [] (zdrop n (p ++ q))).

Lemma queue_append_pending q new q' :
  queue_step q (QAppend new) q' → q'.(q_pending) = q.(q_pending) ++ new.
Proof. by inversion 1. Qed.
Lemma queue_send_pending q out q' :
  queue_step q (QSend out) q' → out ++ q'.(q_pending) = q.(q_pending).
Proof. by inversion 1. Qed.

Definition eb_queue (b : export_buffer_t) : queue :=
  Mkqueue (ztake b.(eb_partialfront) (eb_content b)) (eb_unsent b).

(** The operations of the interface. *)
Inductive export_op : Type :=
  | OpPdu (pdu : bytes)
  | OpMessage (res : openli_encoded_result_t)
  | OpTransmit (bytelimit : Z) (res : send_result)
  | OpTransmitRMQ (bytelimit : Z) (published : bool)
  | OpAdvance (amount : Z)
  | OpReset.

(** The bytes an encoded result stands for. *)
Definition result_bytes (res : openli_encoded_result_t) : bytes :=
  header_memory res.(er_header) ++ ztake (res.(er_len) - res.(er_ipclen)) res.(er_encoded)
    ++ ztake res.(er_ipclen) res.(er_ipcontents).

Record result_ok (res : openli_encoded_result_t) : Prop := {
  er_ok_len : 0 ≤ res.(er_ipclen) ≤ res.(er_len);
  er_ok_u32 : res.(er_len) < 2 ^ 32;
  er_ok_enc : res.(er_len) - res.(er_ipclen) ≤ zlen res.(er_encoded);
  er_ok_ipc : res.(er_ipclen) ≤ zlen res.(er_ipcontents);
}.

(** One call: what it does to the queue, and the buffer after it. *)
Definition run_op {J : Judy1} (realloc_ok : Z → bool) (op : export_op) (b : export_buffer_t)
    : outcome (queue_label * export_buffer_t) :=
  match op with
  | OpPdu pdu =>
      '(_, b') ← append_etsipdu_to_buffer realloc_ok pdu (zlen pdu) 0 b; Ok (QAppend pdu, b')
  | OpMessage res =>
      '(_, b') ← append_message_to_buffer realloc_ok res 0 b; Ok (QAppend (result_bytes res), b')
  | OpTransmit bytelimit res =>
      '(_, b', out) ← transmit_buffered_records realloc_ok bytelimit res b; Ok (QSend out, b')
  | OpTransmitRMQ bytelimit published =>
      '(_, b', out) ← transmit_buffered_records_RMQ realloc_ok bytelimit published b;
      Ok (QSend out, b')
  | OpAdvance amount =>
      '(_, b') ← advance_export_buffer_head realloc_ok amount b; Ok (QDiscard amount, b')
  | OpReset => Ok (QRewind, reset_export_buffer b)
  end.

(** When a call is legitimate: records of 32-bit size for which memory is
    granted, answers a connection can give, and RabbitMQ publishing only on
    buffers that are not also sent in batches. *)
Definition op_ok {J : Judy1} (realloc_ok : Z → bool) (op : export_op) (b : export_buffer_t) : Prop :=
  match op with
  | OpPdu pdu => zlen pdu < 2 ^ 32 ∧
      realloc_ok (zlen b.(eb_data) + zlen pdu + BUFFER_ALLOC_SIZE) = true
  | OpMessage res => result_ok res ∧
      realloc_ok (zlen b.(eb_data) + zlen (result_bytes res) + BUFFER_ALLOC_SIZE) = true
  | OpTransmit bytelimit res => cut_ok bytelimit b ∧ answer_ok bytelimit b res
  | OpTransmitRMQ bytelimit _ => 0 ≤ bytelimit ≤ INT_MAX ∧ b.(eb_partialfront) = 0
  | OpAdvance amount => 0 ≤ amount
  | OpReset => True
  end.

Lemma zlen_header_memory h : zlen (header_memory h) = 16.
Proof. unfold header_memory. zlia. Qed.

Lemma zlen_result_bytes res : result_ok res → zlen (result_bytes res) = res.(er_len) + 16.
Proof.
  intros [? ? ? ?]. unfold result_bytes.
  rewrite !zlen_app, zlen_header_memory, !zlen_ztake; lia.
Qed.

Lemma zdrop_min {A} n (l : list A) : 0 ≤ n → zdrop (Z.min n (zlen l)) l = zdrop n l.
Proof.
  intros Hn. destruct (Z.min_spec n (zlen l)) as [[_ ->]|[Hle ->]]; [done|].
  rewrite zdrop_all. unfold zdrop. symmetry. apply drop_ge. unfold zlen in Hle. lia.
Qed.

Section refinement.
Context {J : Judy1} (realloc_ok : Z → bool).
Hypothesis realloc_mono : ∀ m n, m ≤ n → realloc_ok n = true → realloc_ok m = true.
Hypothesis realloc_bound : ∀ n, realloc_ok n = true → n < 2 ^ 32.

Lemma eb_unsent_content b :
  eb_wf realloc_ok b → eb_unsent b = zdrop b.(eb_partialfront) (eb_content b).
Proof.
  intros [[Hf _] _ Hp _]. unfold eb_unsent, eb_content. by rewrite zdrop_zdrop by lia.
Qed.

(** A queue with no batch in flight. *)
Lemma eb_queue_idle b : b.(eb_partialfront) = 0 → eb_queue b = Mkqueue [] (eb_content b).
Proof. intros H. unfold eb_queue, eb_unsent. by rewrite H, Z.add_0_r. Qed.

Lemma eb_queue_app b : eb_wf realloc_ok b →
  q_flight (eb_queue b) ++ q_pending (eb_queue b) = eb_content b.
Proof. intros Hwf. simpl. rewrite (eb_unsent_content b Hwf). apply ztake_zdrop. Qed.

Lemma append_refines new need added b :
  eb_wf realloc_ok b → zlen new = need → need < 2 ^ 33 →
  realloc_ok (zlen b.(eb_data) + need + BUFFER_ALLOC_SIZE) = true →
  ∃ rc b', append_bytes realloc_ok new need added 0 b = Ok (rc, b') ∧ eb_wf realloc_ok b' ∧
    queue_step (eb_queue b) (QAppend new) (eb_queue b').
Proof.
  intros Hwf Hn H33 Hr.
  destruct (append_bytes_spec realloc_ok realloc_mono new need added b Hwf Hn H33 Hr)
    as (b' & -> & Hwf' & Hc & Hpf & _).
  eexists _, b'. split; [done|]. split; [done|].
  unfold eb_queue. rewrite !eb_unsent_content by done. rewrite Hpf, Hc.
  destruct Hwf as [Hb _ Hp _]. pose proof (zlen_eb_content b Hb).
  rewrite zdrop_app_le by lia. unfold ztake at 2. rewrite take_app_le by (unfold zlen in *; lia).
  apply queue_append.
Qed.

Lemma append_message_spec res b :
  eb_wf realloc_ok b → result_ok res →
  realloc_ok (zlen b.(eb_data) + zlen (result_bytes res) + BUFFER_ALLOC_SIZE) = true →
  ∃ b', append_message_to_buffer realloc_ok res 0 b = Ok (zlen b'.(eb_data), b') ∧
    eb_wf realloc_ok b' ∧ eb_content b' = eb_content b ++ result_bytes res ∧
    0 < zlen b'.(eb_data) ≤ zlen b.(eb_data) + zlen (result_bytes res).
Proof.
  intros Hwf Hres Hr. pose proof (zlen_result_bytes res Hres) as Hl.
  destruct Hres as [? ? ? ?]. unfold append_message_to_buffer.
  rewrite (u32_id (er_len res - er_ipclen res)), !read_bytes_Ok by lia. run_outcome.
  destruct (append_bytes_spec realloc_ok realloc_mono (result_bytes res)
    (er_len res + sizeof_ii_header_t) (u32 (sizeof_ii_header_t + er_len res)) b)
    as (b' & He & Hwf' & Hc & _ & _ & Hd);
    [done|done|unfold sizeof_ii_header_t; lia|by rewrite Hl in Hr|].
  exists b'. unfold result_bytes in He. rewrite He. unfold sizeof_ii_header_t in Hd.
  split_and!; [done..|lia|lia].
Qed.

Lemma transmit_refines bytelimit res b :
  eb_wf realloc_ok b → cut_ok bytelimit b → answer_ok bytelimit b res →
  ∃ rc b' out, transmit_buffered_records realloc_ok bytelimit res b = Ok (rc, b', out) ∧
    eb_wf realloc_ok b' ∧ queue_step (eb_queue b) (QSend out) (eb_queue b').
Proof.
  intros Hwf Hc Ha.
  destruct (transmit_records_spec realloc_ok realloc_mono realloc_bound bytelimit res b Hwf Hc Ha)
    as (rc & b' & out & -> & Hwf' & Hout & Hcase).
  exists rc, b', out. split; [done|]. split; [done|].
  unfold eb_queue. rewrite <- Hout. destruct Hcase as [Hsame|Hdone].
  - replace (ztake (eb_partialfront b') (eb_content b')) with
      (ztake (eb_partialfront b) (eb_content b) ++ out); [apply queue_partial|].
    pose proof (eb_queue_app b Hwf) as H1. pose proof (eb_queue_app b' Hwf') as H2.
    simpl in H1, H2. apply (app_inv_tail (eb_unsent b')).
    by rewrite H2, Hsame, <- app_assoc, Hout, H1.
  - replace (ztake (eb_partialfront b') (eb_content b')) with (@nil Z); [apply queue_complete|].
    pose proof (eb_queue_app b' Hwf') as H2. simpl in H2.
    apply (app_inv_tail (eb_unsent b')). by rewrite H2, Hdone.
Qed.

Lemma run_op_refines op b :
  eb_wf realloc_ok b → op_ok realloc_ok op b →
  ∃ l b', run_op realloc_ok op b = Ok (l, b') ∧ eb_wf realloc_ok b' ∧
    queue_step (eb_queue b) l (eb_queue b').
Proof.
  intros Hwf Hop. destruct op as [pdu|res|lim res|lim published|amount|]; simpl in Hop |- *.
  - destruct Hop as [Hlen Hr]. unfold append_etsipdu_to_buffer.
    assert (read_bytes (zlen pdu) pdu = Ok pdu) as ->
      by (rewrite <- (app_nil_r pdu) at 2; by apply read_bytes_app).
    run_outcome. destruct (append_refines pdu (zlen pdu) (zlen pdu) b) as (rc & b' & -> & ? & ?);
      [done|done|lia|done|]. run_outcome. eauto.
  - destruct Hop as [Hres Hr]. pose proof (zlen_result_bytes res Hres) as Hl.
    destruct Hres as [? ? ? ?]. unfold append_message_to_buffer.
    rewrite (u32_id (er_len res - er_ipclen res)), !read_bytes_Ok by lia. run_outcome.
    destruct (append_refines (result_bytes res) (er_len res + sizeof_ii_header_t)
      (u32 (sizeof_ii_header_t + er_len res)) b) as (rc & b' & He & ? & ?);
      [done|done|unfold sizeof_ii_header_t; lia|by rewrite Hl in Hr|].
    unfold result_bytes in He. rewrite He. run_outcome. eauto.
  - destruct (transmit_refines lim res b) as (rc & b' & out & -> & ? & ?);
      [done|apply Hop..|]. run_outcome. eauto.
  - destruct Hop as [Hlim Hpf].
    destruct (transmit_RMQ_spec realloc_ok realloc_mono realloc_bound lim published b Hwf Hlim)
      as (rc & b' & out & He & Hwf' & Hout & _ & _).
    assert (b'.(eb_partialfront) = 0) as Hpf'.
    { revert He. unfold transmit_buffered_records_RMQ, post_transmit. rewrite bind_Ok.
      intros (x & Hx & [= _ <- _]). apply bind_Ok in Hx as (_ & _ & Hx).
      by apply bind_Ok in Hx as (? & _ & [= <-]). }
    rewrite He. run_outcome. eexists _, _. split; [done|]. split; [done|].
    rewrite !eb_queue_idle by done. rewrite <- Hout. apply queue_complete.
  - destruct (advance_spec realloc_ok realloc_mono realloc_bound amount b Hwf Hop)
      as (b' & He & Hwf' & Hc).
    assert (b'.(eb_partialfront) = 0) as Hpf'.
    { revert He. unfold advance_export_buffer_head, post_transmit. rewrite bind_Ok.
      intros (x & Hx & [= <-]). apply bind_Ok in Hx as (_ & _ & Hx).
      by apply bind_Ok in Hx as (? & _ & [= <-]). }
    rewrite He. run_outcome. eexists _, _. split; [done|]. split; [done|].
    rewrite (eb_queue_idle b' Hpf'), Hc. pose proof (eb_queue_app b Hwf) as Happ.
    simpl in Happ. rewrite zdrop_min, <- Happ by done. apply queue_discard.
  - eexists _, _. split; [done|]. split.
    + destruct Hwf as [[? ?] ? Hp ?]. split; [by split|done|simpl; unfold INT_MAX; lia|done].
    + rewrite (eb_queue_idle (reset_export_buffer b)) by done.
      unfold eb_content at 1. simpl. fold (eb_content b).
      rewrite <- (eb_queue_app b Hwf). apply queue_rewind.
Qed.

End refinement.

(** * Theorems *)

(** C11: every operation of the interface, on a well-formed buffer and under
    its precondition, returns without failing an assertion or leaving its block,
    keeps the buffer well-formed, and is a step of the byte queue: appending adds
    at the end, sending takes from the front, a lost connection puts the batch in
    flight back in front. *)
Theorem export_refines_queue {J : Judy1} (realloc_ok : Z → bool) (op : export_op) (b : export_buffer_t) :
  (∀ m n, m ≤ n → realloc_ok n = true → realloc_ok m = true) →
  (∀ n, realloc_ok n = true → n < 2 ^ 32) →
  eb_wf realloc_ok b → op_ok realloc_ok op b →
  ∃ l b', run_op realloc_ok op b = Ok (l, b') ∧ eb_wf realloc_ok b' ∧
    queue_step (eb_queue b) l (eb_queue b').
Proof. intros. by apply run_op_refines. Qed.

(** A sequence of calls, with everything that was appended and sent. *)
Fixpoint run_ops {J : Judy1} (realloc_ok : Z → bool) (ops : list export_op) (b : export_buffer_t)
    : outcome (bytes * bytes * export_buffer_t) :=
  match ops with
  | [] => Ok ([], [], b)
  | op :: ops =>
      '(l, b1) ← run_op realloc_ok op b;
      '(new, out, b2) ← run_ops realloc_ok ops b1;
      Ok (match l with QAppend n => n ++ new | _ => new end,
          match l with QSend o => o ++ out | _ => out end, b2)
  end.

(** The calls of a connection that stays up: appending and sending. *)
Definition op_plain (op : export_op) : bool :=
  match op with OpAdvance _ | OpReset => false | _ => true end.

Fixpoint ops_ok {J : Judy1} (realloc_ok : Z → bool) (ops : list export_op) (b : export_buffer_t) : Prop :=
  match ops with
  | [] => True
  | op :: ops =>
      op_plain op = true ∧ op_ok realloc_ok op b ∧
      match run_op realloc_ok op b with Ok (_, b') => ops_ok realloc_ok ops b' | _ => True end
  end.

Lemma run_op_plain {J : Judy1} realloc_ok op b l b' :
  op_plain op = true → run_op realloc_ok op b = Ok (l, b') →
  match l with QAppend _ | QSend _ => True | _ => False end.
Proof.
  destruct op; intros Hp; try done; cbn [run_op]; rewrite bind_Ok; intros (x & _ & He);
    destruct x as [[] ?] || destruct x; by injection He as <- <-.
Qed.

(** C24: while the connection stays up, for every sequence of legitimate append
    and send calls, with any partial or refused sends and any growing, sliding
    and shrinking of the block: what was sent, followed by what is still unsent,
    is what was unsent before, followed by what was appended. *)
Theorem export_fifo {J : Judy1} (realloc_ok : Z → bool) (ops : list export_op) (b : export_buffer_t) :
  (∀ m n, m ≤ n → realloc_ok n = true → realloc_ok m = true) →
  (∀ n, realloc_ok n = true → n < 2 ^ 32) →
  eb_wf realloc_ok b → ops_ok realloc_ok ops b →
  ∃ new out b', run_ops realloc_ok ops b = Ok (new, out, b') ∧ eb_wf realloc_ok b' ∧
    out ++ eb_unsent b' = eb_unsent b ++ new.
Proof.
  intros Hmono Hbound. revert b.
  induction ops as [|op ops IH]; intros b Hwf Hok; cbn [run_ops ops_ok] in *.
  { exists [], [], b. split; [done|]. by rewrite app_nil_r. }
  destruct Hok as (Hplain & Hop & Hrest).
  destruct (run_op_refines realloc_ok Hmono Hbound op b Hwf Hop) as (l & b1 & He & Hwf1 & Hst).
  rewrite He in Hrest |- *. run_outcome.
  pose proof (run_op_plain _ _ _ _ _ Hplain He) as Hl.
  destruct (IH b1 Hwf1 Hrest) as (new & out & b2 & -> & Hwf2 & Hfifo). run_outcome.
  eexists _, _, b2. split; [done|]. split; [done|].
  destruct l as [n|o| |]; try done.
  - apply queue_append_pending in Hst. simpl in Hst. by rewrite Hfifo, Hst, <- app_assoc.
  - apply queue_send_pending in Hst. simpl in Hst.
    by rewrite <- Hst, <- !app_assoc, Hfifo.
Qed.

(** ** When memory runs out, and record offsets *)

(** The space loop ends at once when there is no room and no memory. *)
Lemma make_space_refused realloc_ok b need :
  b.(eb_alloced) - zlen b.(eb_data) < need →
  realloc_ok (b.(eb_alloced) + BUFFER_ALLOC_SIZE) = false → 0 < b.(eb_deadfront) →
  make_space realloc_ok space_fuel need (b.(eb_alloced) - zlen b.(eb_data)) b =
  Some (false, slide_buffer b.(eb_deadfront) (zlen b.(eb_data) - b.(eb_deadfront)) b).
Proof.
  intros Hsp Hr H0. unfold space_fuel. cbn [make_space].
  rewrite (proj2 (Z.ltb_lt _ _)) by lia. unfold extend_buffer.
  rewrite (proj2 (Z.ltb_lt 0 _)) by lia.
  destruct (slide_members b.(eb_deadfront) (zlen b.(eb_data) - b.(eb_deadfront)) b) as (-> & _).
  by rewrite Hr.
Qed.

(** An append that needs memory and does not get it returns 0 and so drops
    its record, but it has already moved the content to the front of the block
    without resetting the dead front: the first [deadfront] bytes that were still
    to be sent are skipped and the last ones are queued twice. *)
Theorem append_refused_damages_queue (realloc_ok : Z → bool) (pdu : bytes) (b : export_buffer_t) :
  eb_bounds b → 0 < b.(eb_deadfront) ≤ zlen (eb_content b) →
  b.(eb_alloced) - zlen b.(eb_data) < zlen pdu →
  realloc_ok (b.(eb_alloced) + BUFFER_ALLOC_SIZE) = false →
  ∃ b', append_etsipdu_to_buffer realloc_ok pdu (zlen pdu) 0 b = Ok (0, b') ∧
    eb_content b' = zdrop b.(eb_deadfront) (eb_content b)
                    ++ zdrop (zlen (eb_content b)) b.(eb_data).
Proof.
  intros Hb Hdf Hsp Hr. pose proof (zlen_eb_content b Hb) as Hl. destruct (Hb) as [Hf Ha].
  unfold append_etsipdu_to_buffer. rewrite read_bytes_Ok by done. run_outcome.
  unfold append_bytes. rewrite (proj2 (Z.eqb_neq _ _)) by lia.
  rewrite make_space_refused by (done || lia). eexists. split; [done|].
  unfold slide_buffer. rewrite (proj2 (Z.eqb_neq _ _)) by lia.
  unfold eb_content at 1. simpl. fold (eb_content b). rewrite <- Hl.
  assert (ztake (zlen (eb_content b)) (eb_content b) = eb_content b) as ->.
  { rewrite <- (app_nil_r (eb_content b)) at 2. by apply ztake_app. }
  apply zdrop_app_le. lia.
Qed.

(** When an append has to extend the block and slides it, the offset it
    saves for its record is the position the record would have had before the
    slide: the record starts [deadfront] bytes earlier. *)
Theorem append_saves_stale_offset (realloc_ok : Z → bool) (pdu : bytes) (b : export_buffer_t) :
  eb_bounds b → 0 < b.(eb_deadfront) → 0 ≤ b.(eb_since) →
  b.(eb_alloced) - zlen b.(eb_data) < zlen pdu ≤ BUFFER_ALLOC_SIZE →
  realloc_ok (b.(eb_alloced) + BUFFER_ALLOC_SIZE) = true →
  BUF_OFFSET_FREQUENCY ≤ b.(eb_since) + zlen pdu < 2 ^ 32 →
  ∃ rc b', append_etsipdu_to_buffer realloc_ok pdu (zlen pdu) 0 b = Ok (rc, b') ∧
    zlen b.(eb_data) ∈ b'.(eb_offsets) ∧
    b'.(eb_data) = eb_content b ++ pdu ∧
    zlen (eb_content b) = zlen b.(eb_data) - b.(eb_deadfront).
Proof.
  intros Hb Hdf Hs0 Hsp Hr Hsi. pose proof (zlen_eb_content b Hb) as Hl. destruct (Hb) as [Hf Ha].
  unfold append_etsipdu_to_buffer. rewrite read_bytes_Ok by done. run_outcome.
  assert (ztake (zlen pdu) pdu = pdu) as ->.
  { rewrite <- (app_nil_r pdu) at 2. by apply ztake_app. }
  unfold append_bytes. rewrite (proj2 (Z.eqb_neq _ _)) by lia.
  unfold space_fuel. cbn [make_space]. rewrite (proj2 (Z.ltb_lt _ _)) by lia.
  destruct (extend_granted realloc_ok b Hb Hr) as (b1 & -> & Hd & _ & Hal & _ & _ & Hsi1).
  unfold BUFFER_ALLOC_SIZE in *.
  rewrite (proj2 (Z.eqb_neq _ _)), (proj2 (Z.ltb_ge _ _)) by lia.
  rewrite Hd, (proj2 (Z.ltb_ge _ _)) by lia.
  cbn [eb_since set_eb_data]. rewrite Hsi1, u32_id by lia.
  rewrite (proj2 (Z.leb_le _ _)) by lia.
  eexists _, _. split; [done|]. split_and!; [|done|done]. simpl. apply elem_of_union_l, elem_of_singleton_2. done.
Qed.

(** Beyond 4 GiB the dead front wraps: advancing over that many bytes makes
    consumed bytes available again. *)
Lemma advance_wraps (realloc_ok : Z → bool) (amount : Z) (b : export_buffer_t) :
  (∀ m n, m ≤ n → realloc_ok n = true → realloc_ok m = true) →
  eb_bounds b → b.(eb_alloced) = 0 ∨ realloc_ok b.(eb_alloced) = true →
  zlen b.(eb_data) < 2 ^ 64 → 0 ≤ amount ≤ zlen (eb_content b) →
  2 ^ 32 ≤ b.(eb_deadfront) + amount < 2 ^ 33 →
  ∃ b', advance_export_buffer_head realloc_ok amount b = Ok (0, b') ∧
    zlen (eb_content b') = zlen (eb_content b) - amount + 2 ^ 32.
Proof.
  intros Hmono Hb Hal H64 Ham Hw. pose proof (zlen_eb_content b Hb) as Hl. destruct (Hb) as [Hf Ha].
  unfold advance_export_buffer_head, get_buffered_amount. rewrite <- Hl, u64_id by zlia.
  rewrite (proj2 (Z.ltb_ge _ _)) by lia.
  assert (u32 (b.(eb_deadfront) + amount) = b.(eb_deadfront) + amount - 2 ^ 32) as ->.
  { unfold u32. rewrite <- (Z.mod_small (b.(eb_deadfront) + amount - 2 ^ 32) (2 ^ 32)) by lia.
    rewrite <- (Z.mod_add (b.(eb_deadfront) + amount - 2 ^ 32) 1) by lia. f_equal. lia. }
  destruct (post_transmit_spec realloc_ok Hmono
    (set_eb_deadfront (b.(eb_deadfront) + amount - 2 ^ 32) b)) as (b' & -> & _ & Hc & _);
    [split; simpl; lia|done|].
  run_outcome. eexists. split; [done|]. rewrite Hc. unfold eb_content at 1. simpl.
  rewrite zlen_zdrop; lia.
Qed.

(** ** Heartbeats *)

(** The answers a connection can give to the heartbeat loop. *)
Fixpoint heartbeat_ok (left : bytes) (answers : list send_result) : Prop :=
  match answers with
  | [] => True
  | Sent n :: answers => 0 ≤ n ≤ zlen left ∧ heartbeat_ok (zdrop n left) answers
  | _ :: answers => heartbeat_ok left answers
  end.

Lemma heartbeat_loop_spec answers : ∀ left,
  heartbeat_ok left answers →
  match heartbeat_loop left answers with
  | (Some rc, out) => rc = sizeof_ii_header_t ∧ out = left ∨
                      rc = -1 ∧ out `prefix_of` left ∧ out ≠ left
  | (None, out) => out `prefix_of` left ∧ out ≠ left
  end.
Proof.
  induction answers as [|a answers IH]; intros left Hok; cbn [heartbeat_loop];
    destruct (Z.eqb_spec (zlen left) 0) as [E|E].
  - left. split; [done|]. by rewrite (zlen_0 _ E).
  - split; [apply prefix_nil|]. by intros <-.
  - left. split; [done|]. by rewrite (zlen_0 _ E).
  - destruct a as [n| |].
    + destruct Hok as [Hn Hok]. specialize (IH _ Hok).
      pose proof (ztake_zdrop n left) as Hs.
      destruct (heartbeat_loop (zdrop n left) answers) as [[rc|] out].
      * destruct IH as [[-> ->]|(-> & Hp & Hne)]; [by left|right; split; [done|]].
        split; [rewrite <- Hs at 2; by apply prefix_app|].
        intros Heq. rewrite <- Hs in Heq at 2. by apply app_inv_head in Heq.
      * destruct IH as [Hp Hne]. split; [rewrite <- Hs at 2; by apply prefix_app|].
        intros Heq. rewrite <- Hs in Heq at 2. by apply app_inv_head in Heq.
    + by apply IH.
    + right. split; [done|]. split; [apply prefix_nil|]. by intros <-.
Qed.

(** [transmit_heartbeat] returns 16 exactly when the whole header of an
    empty OPENLI_PROTO_HEARTBEAT message has been sent, however many pieces that
    took; when it fails with -1, only a strict prefix has been. *)
Theorem heartbeat_all_or_error (answers : list send_result) :
  heartbeat_ok (wire_header OPENLI_PROTO_HEARTBEAT 0 0) answers →
  match transmit_heartbeat answers with
  | (Some rc, out) =>
      rc = 16 ∧ out = wire_header OPENLI_PROTO_HEARTBEAT 0 0 ∨
      rc = -1 ∧ out `prefix_of` wire_header OPENLI_PROTO_HEARTBEAT 0 0 ∧
        out ≠ wire_header OPENLI_PROTO_HEARTBEAT 0 0
  | (None, out) => out `prefix_of` wire_header OPENLI_PROTO_HEARTBEAT 0 0 ∧
        out ≠ wire_header OPENLI_PROTO_HEARTBEAT 0 0
  end.
Proof.
  change (wire_header OPENLI_PROTO_HEARTBEAT 0 0) with (header_memory heartbeat_header).
  apply heartbeat_loop_spec.
Qed.

(** * Examples *)

#[local] Existing Instance set_judy1.

Definition grant_4GiB (n : Z) : bool := n <? 2 ^ 32.

Lemma grant_4GiB_mono m n : m ≤ n → grant_4GiB n = true → grant_4GiB m = true.
Proof. unfold grant_4GiB. rewrite !Z.ltb_lt. lia. Qed.
Lemma grant_4GiB_bound n : grant_4GiB n = true → n < 2 ^ 32.
Proof. apply Z.ltb_lt. Qed.

Lemma export_refines_queue_witness :
  ∃ l b', run_op grant_4GiB (OpPdu [1; 2; 3]) init_export_buffer = Ok (l, b') ∧
    eb_wf grant_4GiB b' ∧ queue_step (eb_queue init_export_buffer) l (eb_queue b').
Proof.
  apply export_refines_queue.
  - apply grant_4GiB_mono.
  - apply grant_4GiB_bound.
  - apply init_export_buffer_wf.
  - split; by vm_compute.
Defined.

(** Two records, a partial send, a third record, and the rest of the batch. *)
Definition sample_ops : list export_op :=
  [OpPdu [1; 2; 3]; OpPdu [4; 5]; OpTransmit 100 (Sent 2); OpPdu [6]; OpTransmit 100 (Sent 3)].

Ltac answer_ok :=
  split; [done|]; intros sent b' Ha; vm_compute in Ha; injection Ha as <- <-; done.

Lemma export_fifo_witness :
  ∃ new out b', run_ops grant_4GiB sample_ops init_export_buffer = Ok (new, out, b') ∧
    eb_wf grant_4GiB b' ∧ out ++ eb_unsent b' = new.
Proof.
  apply (export_fifo grant_4GiB sample_ops init_export_buffer).
  - apply grant_4GiB_mono.
  - apply grant_4GiB_bound.
  - apply init_export_buffer_wf.
  - unfold sample_ops. split; [done|]. split; [by vm_compute|].
    vm_compute run_op. split; [done|]. split; [by vm_compute|].
    vm_compute run_op. split; [done|].
    split; [split; [split; [done|left; by vm_compute]|answer_ok]|].
    vm_compute run_op. split; [done|]. split; [by vm_compute|].
    vm_compute run_op. split; [done|].
    split; [split; [split; [done|left; by vm_compute]|answer_ok]|].
    vm_compute run_op. exact I.
Defined.

Definition sample_export : export_buffer_t :=
  Mkexport_buffer_t [1; 2; 3; 4; 5; 6; 7; 8] 8 2 0 0 BUFFER_WARNING_THRESH ∅ 262140.

Lemma append_refused_damages_queue_witness :
  eb_content sample_export = [3; 4; 5; 6; 7; 8] ∧
  ∃ b', append_etsipdu_to_buffer (λ _, false) [9; 9] 2 0 sample_export = Ok (0, b') ∧
    eb_content b' = [5; 6; 7; 8; 7; 8].
Proof.
  split; [done|].
  apply (append_refused_damages_queue (λ _, false) [9; 9] sample_export); [by split|done|done|done].
Defined.

Lemma append_saves_stale_offset_witness :
  ∃ rc b', append_etsipdu_to_buffer (λ _, true) [9; 9; 9; 9] 4 0 sample_export = Ok (rc, b') ∧
    8 ∈ b'.(eb_offsets) ∧ b'.(eb_data) = [3; 4; 5; 6; 7; 8; 9; 9; 9; 9].
Proof.
  destruct (append_saves_stale_offset (λ _, true) [9; 9; 9; 9] sample_export)
    as (rc & b' & He & Ho & Hd & _); [by split|done|done|done|done|done|].
  exists rc, b'. split; [exact He|split; [exact Ho|exact Hd]].
Defined.

Lemma heartbeat_all_or_error_witness :
  transmit_heartbeat [Sent 5; SendWouldBlock; Sent 11]
  = (Some 16, wire_header OPENLI_PROTO_HEARTBEAT 0 0).
Proof.
  pose proof (heartbeat_all_or_error [Sent 5; SendWouldBlock; Sent 11]) as H.
  destruct (transmit_heartbeat [Sent 5; SendWouldBlock; Sent 11]) as [[rc|] out] eqn:E.
  - destruct H as [[-> ->]|[-> _]]; [vm_compute; repeat split; discriminate|done|by vm_compute in E].
  - by vm_compute in E.
Defined.
