(* ===== verification/IpReassembly.v ===== *)
(** * Reassembly of IP fragments (src/src/collector/reassembler.c, second half)

    A [ip_reassemble_stream_t] collects the fragments of one datagram in a hash
    table keyed by fragment offset; uthash keeps the elements in insertion order
    until [HASH_SORT] sorts them.  The reassembler maps the identity of a
    datagram to its stream.  What libtrace reports of a packet is the record
    [frag_packet]. *)

From stdpp Require Import gmap.
From S2P Require Import Prelude Libraries ByteOrder.

Record ip_streamid_t : Type := Mkip_streamid_t {
  is_srcip : bytes;
  is_destip : bytes;
  is_ipid : Z;
  is_ipfamily : Z;
}.

#[global] Instance ip_streamid_eq_dec : EqDecision ip_streamid_t.
Proof. solve_decision. Defined.
#[global] Instance ip_streamid_countable : Countable ip_streamid_t.
Proof.
  apply (inj_countable' (λ i, (i.(is_srcip), i.(is_destip), i.(is_ipid), i.(is_ipfamily)))
    (λ '(s, d, i, f), Mkip_streamid_t s d i f)).
  by intros [].
Defined.

Record ip_reass_fragment_t : Type := Mkip_reass_fragment_t {
  if_fragoff : Z;
  if_length : Z;
  if_content : bytes;
}.

#[global] Instance ip_reass_fragment_eq_dec : EqDecision ip_reass_fragment_t.
Proof. solve_decision. Defined.

Record ip_reassemble_stream_t : Type := Mkip_reassemble_stream_t {
  ips_streamid : ip_streamid_t;
  ips_lastts : Z;
  ips_nextfrag : Z;
  ips_sorted : bool;
  ips_endfrag : Z;
  ips_subproto : Z;
  ips_fragments : list ip_reass_fragment_t;
}.

Record ipfrag_reassembler_t : Type := Mkipfrag_reassembler_t {
  ipr_knownstreams : gmap ip_streamid_t ip_reassemble_stream_t;
  ipr_nextpurge : Z;
}.

(** What libtrace reports of a packet: the identity from [extract_ip_addresses]
    and [trace_get_ip] ([None] if one of them fails), the time stamp, the result
    of [trace_get_layer3] with the number of bytes [fp_rem] captured from the IP
    header on, the header fields the code uses, and the captured bytes after the
    IP header. *)
Record frag_packet : Type := Mkfrag_packet {
  fp_id : option ip_streamid_t;
  fp_ts : Z;
  fp_layer3 : bool;
  fp_is_ipv6 : bool;
  fp_rem : Z;
  fp_ip_hl : Z;
  fp_ip_len : Z;
  fp_ip_p : Z;
  fp_transport : bytes;
}.

Definition set_ips_lastts (t : Z) (s : ip_reassemble_stream_t) : ip_reassemble_stream_t :=
  Mkip_reassemble_stream_t s.(ips_streamid) t s.(ips_nextfrag) s.(ips_sorted) s.(ips_endfrag)
    s.(ips_subproto) s.(ips_fragments).
Definition set_ips_fragments (fs : list ip_reass_fragment_t) (sorted : bool) (endfrag : Z)
    (s : ip_reassemble_stream_t) : ip_reassemble_stream_t :=
  Mkip_reassemble_stream_t s.(ips_streamid) s.(ips_lastts) s.(ips_nextfrag) sorted endfrag
    s.(ips_subproto) fs.

(** ** The table of streams *)

(** [create_new_ipfrag_reassembler] *)
Definition create_new_ipfrag_reassembler : ipfrag_reassembler_t :=
  Mkipfrag_reassembler_t ∅ 0.

(** [create_new_ipfrag_reassemble_stream] *)
Definition create_new_ipfrag_reassemble_stream (ipid : ip_streamid_t) (proto : Z)
    : ip_reassemble_stream_t :=
  Mkip_reassemble_stream_t ipid 0 0 false 0 proto [].

(** [purge_inactive_ip_streams] *)
Definition purge_inactive_ip_streams (reass : ipfrag_reassembler_t) (ts : Z)
    : ipfrag_reassembler_t :=
  if reass.(ipr_nextpurge) =? 0
  then Mkipfrag_reassembler_t reass.(ipr_knownstreams) (u32 (ts + 300))
  else if ts <? reass.(ipr_nextpurge) then reass
  else Mkipfrag_reassembler_t
         (filter (λ '(_, s), ¬ s.(ips_lastts) < u32 (reass.(ipr_nextpurge) - 300))
            reass.(ipr_knownstreams))
         (u32 (ts + 300)).

(** [get_ipfrag_reassemble_stream]: the key of the stream it returns. *)
Definition get_ipfrag_reassemble_stream (reass : ipfrag_reassembler_t) (pkt : frag_packet)
    : option ip_streamid_t * ipfrag_reassembler_t :=
  match pkt.(fp_id) with
  | None => (None, reass)
  | Some ipid =>
      match reass.(ipr_knownstreams) !! ipid with
      | Some existing =>
          (Some ipid, purge_inactive_ip_streams
             (Mkipfrag_reassembler_t
                (<[ipid := set_ips_lastts pkt.(fp_ts) existing]> reass.(ipr_knownstreams))
                reass.(ipr_nextpurge)) pkt.(fp_ts))
      | None =>
          let existing := create_new_ipfrag_reassemble_stream ipid pkt.(fp_ip_p) in
          let reass := purge_inactive_ip_streams reass pkt.(fp_ts) in
          (Some ipid, Mkipfrag_reassembler_t
             (<[ipid := set_ips_lastts pkt.(fp_ts) existing]> reass.(ipr_knownstreams))
             reass.(ipr_nextpurge))
      end
  end.

(** [remove_ipfrag_reassemble_stream] *)
Definition remove_ipfrag_reassemble_stream (reass : ipfrag_reassembler_t) (id : ip_streamid_t)
    : ipfrag_reassembler_t :=
  Mkipfrag_reassembler_t (delete id reass.(ipr_knownstreams)) reass.(ipr_nextpurge).

(** ** One stream *)

(** [HASH_FIND] on the fragment offset. *)
Definition find_fragment (off : Z) (fs : list ip_reass_fragment_t)
    : option ip_reass_fragment_t :=
  head (filter (λ f, f.(if_fragoff) = off) fs).

(** [ipfrag_sort(a, b) <= 0] *)
Definition ipfrag_le (a b : ip_reass_fragment_t) : Prop := a.(if_fragoff) - b.(if_fragoff) ≤ 0.

#[global] Instance ipfrag_le_dec a b : Decision (ipfrag_le a b).
Proof. unfold ipfrag_le. apply _. Defined.

(** [if (!stream->sorted) { HASH_SORT(...); stream->sorted = 1; }] *)
Definition sort_fragments {HS : HashSort} (s : ip_reassemble_stream_t) : ip_reassemble_stream_t :=
  if s.(ips_sorted) then s
  else set_ips_fragments (hash_sort ipfrag_le s.(ips_fragments)) true s.(ips_endfrag) s.

Definition sizeof_libtrace_ip_t : Z := 20.

(** [update_ipfrag_reassemble_stream].  The [memcpy] of [iprem] bytes reads the
    captured packet: reading more than was captured is [Undef]. *)
Definition update_ipfrag_reassemble_stream (s : ip_reassemble_stream_t) (pkt : frag_packet)
    (fragoff : Z) (moreflag : bool) : outcome (Z * ip_reassemble_stream_t) :=
  if (pkt.(fp_rem) <? sizeof_libtrace_ip_t) || negb pkt.(fp_layer3) then Ok (-1, s)
  else if pkt.(fp_is_ipv6) then Ok (1, s)
  else if negb moreflag && (fragoff =? 0) then Ok (1, s)
  else if pkt.(fp_rem) <=? 4 * pkt.(fp_ip_hl) then Ok (-1, s)
  else
    let iprem := if pkt.(fp_ip_len) =? 0 then u16 (pkt.(fp_rem) - 4 * pkt.(fp_ip_hl))
                 else u16 (pkt.(fp_ip_len) - 4 * pkt.(fp_ip_hl)) in
    '(newfrag, frags) ←
      match find_fragment fragoff s.(ips_fragments) with
      | Some f => Ok (f, s.(ips_fragments))
      | None =>
          c ← read_bytes iprem pkt.(fp_transport);
          let f := Mkip_reass_fragment_t fragoff iprem c in
          Ok (f, s.(ips_fragments) ++ [f])
      end;
    let endfrag := if moreflag then s.(ips_endfrag)
                   else u16 (newfrag.(if_fragoff) + newfrag.(if_length)) in
    Ok (0, set_ips_fragments frags false endfrag s).

(** [get_ipfrag_ports]: the return value, the two ports and the stream.  A
    stream without fragments is a NULL dereference. *)
Definition get_ipfrag_ports {HS : HashSort} (s : ip_reassemble_stream_t)
    : outcome (Z * Z * Z * ip_reassemble_stream_t) :=
  let s := sort_fragments s in
  match s.(ips_fragments) with
  | [] => Undef
  | first :: _ =>
      if 0 <? first.(if_fragoff) then Ok (0, 0, 0, s)
      else if first.(if_length) <? 4 then Ok (0, 0, 0, s)
      else
        src ← read_le 2 first.(if_content);
        dst ← read_le 2 (zdrop 2 first.(if_content));
        Ok (1, ntohs src, ntohs dst, s)
  end.

(** The loop of [is_ip_reassembled]: the final [expfrag], or [None] at a gap. *)
Fixpoint check_fragments (fs : list ip_reass_fragment_t) (expfrag : Z) : outcome (option Z) :=
  match fs with
  | [] => Ok (Some expfrag)
  | f :: fs =>
      _ ← c_assert (expfrag <=? f.(if_fragoff));
      if negb (f.(if_fragoff) =? expfrag) then Ok None
      else check_fragments fs (u16 (expfrag + f.(if_length)))
  end.

(** [is_ip_reassembled] *)
Definition is_ip_reassembled {HS : HashSort} (s : ip_reassemble_stream_t)
    : outcome (Z * ip_reassemble_stream_t) :=
  let s := sort_fragments s in
  e ← check_fragments s.(ips_fragments) 0;
  match e with
  | None => Ok (0, s)
  | Some expfrag =>
      if negb (expfrag =? s.(ips_endfrag)) || (s.(ips_endfrag) =? 0) then Ok (0, s)
      else Ok (1, s)
  end.

(** The loop of [get_next_ip_reassembled]: [content] is the part of [*content]
    written so far ([None] for NULL), [contalloced] its recorded size and [len]
    the value of [*len].  The result is a return value, when the loop returns, or
    the final [expfrag]. *)
Fixpoint join_fragments (realloc_ok : Z → bool) (fs : list ip_reass_fragment_t)
    (expfrag contalloced len : Z) (content : option bytes)
    : outcome ((Z + Z) * Z * option bytes) :=
  match fs with
  | [] => Ok (inr expfrag, len, content)
  | f :: fs =>
      _ ← c_assert (expfrag <=? f.(if_fragoff));
      if negb (f.(if_fragoff) =? expfrag) then Ok (inl 0, 0, content)
      else
        let grow := match content with
                    | None => true
                    | Some _ => contalloced <? expfrag + f.(if_length)
                    end in
        let size := expfrag + f.(if_length) * 2 in
        if grow && negb (realloc_ok size) then Ok (inl (-1), len, None)
        else
          let block := if grow then ztake size (default [] content) else default [] content in
          join_fragments realloc_ok fs (u16 (expfrag + f.(if_length)))
            (if grow then u16 size else contalloced) (u16 (len + f.(if_length)))
            (Some (ztake expfrag block ++ f.(if_content)
                   ++ zdrop (expfrag + f.(if_length)) block))
  end.

(** [get_next_ip_reassembled]: the return value, [*len], [*proto], [*content]
    and the stream. *)
Definition get_next_ip_reassembled {HS : HashSort} (realloc_ok : Z → bool) (s : ip_reassemble_stream_t)
    (content : option bytes)
    : outcome (Z * Z * Z * option bytes * ip_reassemble_stream_t) :=
  let s := sort_fragments s in
  '(r, len, content) ← join_fragments realloc_ok s.(ips_fragments) 0 0 0 content;
  match r with
  | inl rc => Ok (rc, len, 0, content, s)
  | inr expfrag =>
      if negb (expfrag =? s.(ips_endfrag)) || (s.(ips_endfrag) =? 0) then Ok (0, 0, 0, content, s)
      else Ok (1, len, s.(ips_subproto), content, s)
  end.

(** The handling of a fragment in [process_packet] of src/src/collector/collector.c:
    find the stream, add the fragment, take the ports from it, and forget the
    stream when it is complete.  The result is the ports, or [None] where the
    packet is dropped with an error. *)
Definition process_fragment {HS : HashSort} (reass : ipfrag_reassembler_t) (pkt : frag_packet) (fragoff : Z)
    (moreflag : bool) : outcome (option (Z * Z) * ipfrag_reassembler_t) :=
  match get_ipfrag_reassemble_stream reass pkt with
  | (None, reass) => Ok (None, reass)
  | (Some id, reass) =>
      match reass.(ipr_knownstreams) !! id with
      | None => Undef
      | Some s =>
          let store s := Mkipfrag_reassembler_t (<[id := s]> reass.(ipr_knownstreams))
                           reass.(ipr_nextpurge) in
          '(ret, s) ← update_ipfrag_reassemble_stream s pkt fragoff moreflag;
          if ret <? 0 then Ok (None, store s)
          else
            '(_, src, dst, s) ← get_ipfrag_ports s;
            '(done, s) ← is_ip_reassembled s;
            if done =? 0 then Ok (Some (src, dst), store s)
            else Ok (Some (src, dst), remove_ipfrag_reassemble_stream (store s) id)
      end
  end.

(** * Cutting a datagram into fragments *)

(** The fragments of a datagram cut into [ps], starting at offset [o]. *)
Fixpoint frags_of (o : Z) (ps : list bytes) : list ip_reass_fragment_t :=
  match ps with
  | [] => []
  | p :: ps => Mkip_reass_fragment_t o (zlen p) p :: frags_of (o + zlen p) ps
  end.

Lemma frags_of_elem o ps f :
  Forall (λ p, p ≠ []) ps → f ∈ frags_of o ps →
  o ≤ f.(if_fragoff) ∧ 0 < f.(if_length) ∧ f.(if_length) = zlen f.(if_content) ∧
  f.(if_fragoff) + f.(if_length) ≤ o + zlen (concat ps).
Proof.
  intros Hne. revert o. induction Hne as [|p ps Hp Hne IH]; intros o Hf; simpl in Hf.
  { by apply not_elem_of_nil in Hf. }
  assert (0 < zlen p) by (destruct p; [done|zlia]). simpl. rewrite zlen_app. zlen_pose.
  apply elem_of_cons in Hf as [->|Hf]; simpl; [lia|].
  specialize (IH _ Hf). lia.
Qed.

(** Fragments in order of their offsets. *)
Definition in_order : list ip_reass_fragment_t → Prop := StronglySorted ipfrag_le.

Lemma frags_of_sorted o ps : Forall (λ p, p ≠ []) ps → in_order (frags_of o ps).
Proof.
  intros Hne. revert o. induction Hne as [|p ps Hp Hne IH]; intros o; constructor; [apply IH|].
  apply Forall_forall. intros f Hf. apply frags_of_elem in Hf as [Hf _]; [|done].
  unfold ipfrag_le. simpl. zlen_pose. lia.
Qed.

Lemma frags_of_inj o ps f g :
  Forall (λ p, p ≠ []) ps → f ∈ frags_of o ps → g ∈ frags_of o ps →
  f.(if_fragoff) = g.(if_fragoff) → f = g.
Proof.
  intros Hne. revert o. induction Hne as [|p ps Hp Hne IH]; intros o Hf Hg Heq; simpl in *.
  { by apply not_elem_of_nil in Hf. }
  assert (0 < zlen p) by (destruct p; [done|zlia]).
  apply elem_of_cons in Hf, Hg. destruct Hf as [->|Hf], Hg as [->|Hg]; simpl in *; [done|..].
  - apply frags_of_elem in Hg; [lia|done].
  - apply frags_of_elem in Hf; [lia|done].
  - by eapply IH.
Qed.

#[global] Instance ipfrag_le_trans : Transitive ipfrag_le.
Proof. intros x y z. unfold ipfrag_le. lia. Qed.
#[global] Instance ipfrag_le_total : Total ipfrag_le.
Proof. intros x y. unfold ipfrag_le. lia. Qed.

(** The result of walking over some of the fragments, in order: the walk never
    fails the assertion, and it reaches [e] only over the first fragments
    without a gap. *)
Lemma check_some o ps fs :
  Forall (λ p, p ≠ []) ps → 0 ≤ o → o + zlen (concat ps) < 65536 →
  in_order fs → NoDup fs → fs ⊆ frags_of o ps →
  check_fragments fs o = Ok None ∨
  ∃ ps1 ps2, ps = ps1 ++ ps2 ∧ fs = frags_of o ps1 ∧
    check_fragments fs o = Ok (Some (o + zlen (concat ps1))).
Proof.
  intros Hne. revert o fs. induction Hne as [|p ps Hp Hne IH]; intros o fs H0 Htot Hs Hnd Hsub.
  { destruct fs as [|f fs]; [right; exists [], []; split_and!; [done..|simpl; f_equal; f_equal; zlia]|].
    destruct (not_elem_of_nil f). apply Hsub. left. }
  destruct fs as [|f fs]; [right; exists [], (p :: ps); split_and!; [done..|simpl; f_equal; f_equal; zlia]|].
  assert (0 < zlen p) as Hlp by (destruct p; [done|zlia]).
  assert (f ∈ frags_of o (p :: ps)) as Hf by (apply Hsub; left).
  assert (Forall (λ p, p ≠ []) (p :: ps)) as Hne' by by constructor.
  pose proof (frags_of_elem _ _ _ Hne' Hf) as (Hge & _).
  simpl in Htot. rewrite zlen_app in Htot. zlen_pose.
  cbn [check_fragments]. rewrite (proj2 (Z.leb_le _ _)) by lia. cbn [c_assert]. run_outcome.
  destruct (Z.eqb_spec f.(if_fragoff) o) as [Heq|]; [cbn [negb]|by left].
  assert (f = Mkip_reass_fragment_t o (zlen p) p) as ->.
  { eapply frags_of_inj; [exact Hne'|exact Hf|left|done]. }
  cbn [if_length]. rewrite u16_id by lia.
  inversion_clear Hs as [|? ? Hs' Hle]. inversion_clear Hnd as [|? ? Hnin Hnd'].
  destruct (IH (o + zlen p) fs) as [->|(ps1 & ps2 & -> & -> & ->)]; [lia|lia|done|done| |by left|].
  - intros g Hg. assert (g ∈ frags_of o (p :: ps)) as Hg' by (apply Hsub; by right).
    simpl in Hg'. apply elem_of_cons in Hg' as [->|?]; done.
  - right. exists (p :: ps1), ps2. split_and!; [done..|]. simpl. rewrite zlen_app.
    f_equal. f_equal. lia.
Qed.

(** Joining all the fragments yields the datagram. *)
Lemma join_all realloc_ok o ps alloced pre :
  (∀ n, realloc_ok n = true) →
  Forall (λ p, p ≠ []) ps → o = zlen (default [] pre) → o + zlen (concat ps) < 65536 →
  join_fragments realloc_ok (frags_of o ps) o alloced o pre =
  Ok (inr (o + zlen (concat ps)), o + zlen (concat ps),
      match ps with [] => pre | _ => Some (default [] pre ++ concat ps) end).
Proof.
  intros Hra Hne. revert o alloced pre.
  induction Hne as [|p ps Hp Hne IH]; intros o alloced pre Ho Htot.
  { simpl. by rewrite zlen_nil, Z.add_0_r. }
  assert (0 < zlen p) by (destruct p; [done|zlia]).
  simpl in Htot. rewrite zlen_app in Htot. zlen_pose.
  cbn [frags_of join_fragments if_fragoff if_length if_content].
  rewrite Z.leb_refl, Z.eqb_refl, Hra. cbn [c_assert negb]. run_outcome. rewrite andb_false_r.
  set (grow := match pre with None => true | Some _ => _ end).
  assert ((if grow then ztake (o + zlen p * 2) (default [] pre) else default [] pre)
          = default [] pre) as ->.
  { destruct grow; [|done]. unfold ztake. apply take_ge. unfold zlen in *. lia. }
  rewrite (u16_id (o + zlen p)) by lia.
  assert (ztake o (default [] pre) ++ p ++ zdrop (o + zlen p) (default [] pre)
          = default [] pre ++ p) as ->.
  { rewrite Ho. unfold ztake, zdrop. rewrite take_ge, drop_ge by (unfold zlen; lia).
    by rewrite app_nil_r. }
  rewrite IH.
  - rewrite Ho. simpl. rewrite !zlen_app, !Z.add_assoc.
    f_equal. f_equal. destruct ps; simpl; by rewrite ?app_nil_r, <- ?app_assoc.
  - simpl. rewrite zlen_app. lia.
  - lia.
Qed.

Lemma frags_of_NoDup o ps :
  Forall (λ p, p ≠ []) ps → NoDup (frags_of o ps).
Proof.
  intros Hne. revert o. induction Hne as [|p ps Hp Hne IH]; intros o; constructor; [|apply IH].
  intros Hin. apply frags_of_elem in Hin as [Hge _]; [|done]. simpl in Hge.
  destruct p; [done|]. zlia.
Qed.

Lemma last_fragment o ps :
  Forall (λ p, p ≠ []) ps → ps ≠ [] →
  ∃ f, f ∈ frags_of o ps ∧ f.(if_fragoff) + f.(if_length) = o + zlen (concat ps).
Proof.
  intros Hne. revert o. induction Hne as [|p ps Hp Hne IH]; intros o Hn; [done|].
  destruct ps as [|q ps].
  - eexists. split; [left|]. simpl. by rewrite app_nil_r.
  - destruct (IH (o + zlen p)) as (f & Hf & He); [done|]. exists f. split; [by right|].
    rewrite He. simpl. rewrite !zlen_app. lia.
Qed.

(** ** Arrivals *)

(** A packet that carries the fragment [f]: captured completely, with a
    consistent header. *)
Record carries (pkt : frag_packet) (f : ip_reass_fragment_t) : Prop := {
  ca_layer3 : pkt.(fp_layer3) = true;
  ca_ipv4 : pkt.(fp_is_ipv6) = false;
  ca_rem : sizeof_libtrace_ip_t ≤ pkt.(fp_rem) ∧ 4 * pkt.(fp_ip_hl) < pkt.(fp_rem);
  ca_len : pkt.(fp_ip_len) ≠ 0 ∧ pkt.(fp_ip_len) - 4 * pkt.(fp_ip_hl) = f.(if_length);
  ca_data : ∃ pad, pkt.(fp_transport) = f.(if_content) ++ pad;
}.

(** The more-fragments flag of [f] in a datagram of [total] bytes. *)
Definition more_flag (total : Z) (f : ip_reass_fragment_t) : bool :=
  negb (f.(if_fragoff) + f.(if_length) =? total).

(** The arrival of packets, each with the fragment it carries. *)
Fixpoint add_fragments (total : Z) (arr : list (frag_packet * ip_reass_fragment_t))
    (s : ip_reassemble_stream_t) : outcome ip_reassemble_stream_t :=
  match arr with
  | [] => Ok s
  | (pkt, f) :: arr =>
      '(_, s) ← update_ipfrag_reassemble_stream s pkt f.(if_fragoff) (more_flag total f);
      add_fragments total arr s
  end.

Section datagram.
Context (ps : list bytes).
Hypothesis pieces : Forall (λ p, p ≠ []) ps.
Hypothesis several : (2 ≤ length ps)%nat.
Hypothesis fits : zlen (concat ps) < 65536.

Local Abbreviation F := (frags_of 0 ps).
Local Abbreviation total := (zlen (concat ps)).

(** A stream that has seen exactly the fragments in [seen]. *)
Record collected (seen : list ip_reass_fragment_t) (s : ip_reassemble_stream_t) : Prop := {
  co_nodup : NoDup s.(ips_fragments);
  co_seen : ∀ f, f ∈ s.(ips_fragments) ↔ f ∈ seen;
  co_end : s.(ips_endfrag) = total ∧ (∃ f, f ∈ seen ∧ more_flag total f = false) ∨
           s.(ips_endfrag) = 0 ∧ (∀ f, f ∈ seen → more_flag total f = true);
  co_sorted : s.(ips_sorted) = true → in_order s.(ips_fragments);
}.

Lemma total_pos : 0 < total.
Proof.
  destruct pieces as [|p l Hp Hl]; [simpl in several; lia|]. destruct p; [done|]. simpl. zlia.
Qed.

(** Only the whole datagram in one piece would be both first and last. *)
Lemma first_not_last f : f ∈ F → f.(if_fragoff) = 0 → more_flag total f = true.
Proof.
  intros Hf H0. destruct ps as [|p [|q l]]; [simpl in several; lia..|].
  assert (f = Mkip_reass_fragment_t 0 (zlen p) p) as -> by
    (eapply frags_of_inj; [exact pieces|exact Hf|left|done]).
  unfold more_flag. simpl. inversion_clear pieces as [|? ? _ Hq]. inversion_clear Hq.
  assert (0 < zlen q) by (destruct q; [done|zlia]).
  rewrite !zlen_app. zlen_pose. rewrite (proj2 (Z.eqb_neq _ _)) by lia. done.
Qed.

Lemma find_collected seen s f :
  collected seen s → seen ⊆ F → f ∈ F →
  find_fragment f.(if_fragoff) s.(ips_fragments) = if decide (f ∈ s.(ips_fragments)) then Some f else None.
Proof.
  intros [Hnd Hseen _ _] Hsub Hf. unfold find_fragment.
  destruct (filter _ _) as [|g l] eqn:E; simpl.
  - rewrite decide_False; [done|]. intros Hin.
    apply (not_elem_of_nil f). rewrite <- E. by apply list_elem_of_filter.
  - assert (g ∈ filter (λ f0, if_fragoff f0 = if_fragoff f) s.(ips_fragments)) as Hg
      by (rewrite E; left).
    apply list_elem_of_filter in Hg as [Hg1 Hg2].
    assert (g = f) as -> by (eapply frags_of_inj; [exact pieces| |exact Hf|done]; by apply Hsub, Hseen).
    by rewrite decide_True.
Qed.

(** One arrival: the fragment is added unless it is already there. *)
Lemma update_collected seen s pkt f :
  collected seen s → seen ⊆ F → f ∈ F → carries pkt f →
  ∃ s', update_ipfrag_reassemble_stream s pkt f.(if_fragoff) (more_flag total f) = Ok (0, s') ∧
    collected (seen ++ [f]) s' ∧ s'.(ips_subproto) = s.(ips_subproto).
Proof.
  intros Hco Hsub Hf [H3 H4 Hrem [Hl0 Hlen] [pad Hdata]].
  destruct (frags_of_elem _ _ _ pieces Hf) as (Hoff & Hpos & Hfl & Hend).
  unfold update_ipfrag_reassemble_stream. rewrite H3, H4.
  rewrite (proj2 (Z.ltb_ge _ _)) by lia. cbn [orb negb].
  assert (negb (more_flag total f) && (f.(if_fragoff) =? 0) = false) as ->.
  { destruct (Z.eqb_spec f.(if_fragoff) 0) as [E|]; [|by rewrite andb_false_r].
    by rewrite (first_not_last f Hf E). }
  rewrite (proj2 (Z.leb_gt _ _)), (proj2 (Z.eqb_neq _ _)) by lia.
  rewrite Hlen, u16_id by lia. rewrite (find_collected seen s f Hco Hsub Hf).
  assert (∃ frags, (match (if decide (f ∈ ips_fragments s) then Some f else None) with
     | Some f0 => Ok (f0, ips_fragments s)
     | None => c ← read_bytes (if_length f) (fp_transport pkt);
               Ok (Mkip_reass_fragment_t (if_fragoff f) (if_length f) c,
                   ips_fragments s ++ [Mkip_reass_fragment_t (if_fragoff f) (if_length f) c])
     end) = Ok (f, frags) ∧ NoDup frags ∧ ∀ g, g ∈ frags ↔ g ∈ seen ++ [f])
    as (frags & He & Hnd & Hin).
  { destruct Hco as [Hnd Hseen _ _]. destruct (decide (f ∈ ips_fragments s)) as [Hin|Hout].
    - eexists. split; [done|]. split; [done|]. intros g.
      rewrite elem_of_app, list_elem_of_singleton, Hseen. split; [by left|].
      intros [?| ->]; [done|by apply Hseen].
    - rewrite Hdata, read_bytes_app by done. run_outcome.
      assert (Mkip_reass_fragment_t (if_fragoff f) (if_length f) (if_content f) = f) as ->
        by by destruct f.
      eexists. split; [done|]. split.
      + apply NoDup_app. split_and!; [done| |apply NoDup_singleton].
        intros g Hg ->%list_elem_of_singleton. done.
      + intros g. by rewrite !elem_of_app, Hseen. }
  rewrite He. run_outcome. eexists. split; [done|]. split; [|done].
  split; [done|done| |done]. cbn [ips_endfrag set_ips_fragments].
  destruct (co_end _ _ Hco) as [[He1 [g [Hg1 Hg2]]]|[He0 Hall]];
    destruct (more_flag total f) eqn:Em.
  - left. split; [done|]. exists g. split; [apply elem_of_app; by left|done].
  - left. unfold more_flag in Em. apply negb_false_iff, Z.eqb_eq in Em. rewrite Em, u16_id by lia.
    split; [done|]. exists g. split; [apply elem_of_app; by left|done].
  - right. split; [done|]. intros g [Hg| ->%list_elem_of_singleton]%elem_of_app; [by apply Hall|done].
  - left. split.
    + unfold more_flag in Em. apply negb_false_iff, Z.eqb_eq in Em. rewrite Em, u16_id by lia. done.
    + exists f. split; [apply elem_of_app; right; by apply list_elem_of_singleton|done].
Qed.

Lemma sort_collected {HS : HashSort} seen s :
  collected seen s →
  collected seen (sort_fragments s) ∧ in_order (sort_fragments s).(ips_fragments) ∧
  (sort_fragments s).(ips_subproto) = s.(ips_subproto).
Proof.
  intros Hco. pose proof Hco as [Hnd Hseen Hend Hso]. unfold sort_fragments.
  destruct s.(ips_sorted) eqn:E; [by auto|].
  pose proof (hash_sort_perm ipfrag_le s.(ips_fragments)) as Hp.
  assert (in_order (hash_sort ipfrag_le s.(ips_fragments))) as Ho
    by (apply hash_sort_sorted; apply _).
  split; [|done]. split; cbn [ips_fragments set_ips_fragments]; [by rewrite Hp| |done|done].
  intros f. by rewrite Hp.
Qed.

Lemma add_collected arr : ∀ seen s,
  collected seen s → seen ⊆ F → Forall (λ '(pkt, f), f ∈ F ∧ carries pkt f) arr →
  ∃ s', add_fragments total arr s = Ok s' ∧ collected (seen ++ arr.*2) s' ∧
    s'.(ips_subproto) = s.(ips_subproto).
Proof.
  induction arr as [|[pkt f] arr IH]; intros seen s Hco Hsub Harr; cbn [add_fragments].
  { exists s. by rewrite app_nil_r. }
  apply Forall_cons in Harr as [[Hf Hca] Harr'].

  destruct (update_collected seen s pkt f Hco Hsub Hf Hca) as (s1 & -> & Hco1 & Hp1).
  run_outcome. destruct (IH (seen ++ [f]) s1) as (s2 & -> & Hco2 & Hp2); [done| |done|].
  - intros g [Hg| ->%list_elem_of_singleton]%elem_of_app; [by apply Hsub|done].
  - exists s2. rewrite <- app_assoc in Hco2. split_and!; [done|done|by rewrite Hp2].
Qed.

Lemma new_collected id proto : collected [] (create_new_ipfrag_reassemble_stream id proto).
Proof. split; simpl; [constructor|done| |done]. right. split; [done|]. by intros f ?%not_elem_of_nil. Qed.

(** The walk over what has been collected is complete exactly when everything
    has been. *)
Lemma collected_check seen s :
  collected seen s → seen ⊆ F → in_order s.(ips_fragments) →
  (F ⊆ seen → s.(ips_fragments) = F ∧ s.(ips_endfrag) = total) ∧
  (¬ F ⊆ seen → check_fragments s.(ips_fragments) 0 = Ok None ∨
     ∃ e, check_fragments s.(ips_fragments) 0 = Ok (Some e) ∧
       (e ≠ s.(ips_endfrag) ∨ s.(ips_endfrag) = 0)).
Proof.
  intros [Hnd Hseen Hend _] Hsub Hord.
  assert (s.(ips_fragments) ⊆ F) as HsF by (intros f Hf; by apply Hsub, Hseen).
  split.
  - intros Hall.
    assert (s.(ips_fragments) ≡ₚ F) as Hperm.
    { apply NoDup_Permutation; [done| |].
      - apply (frags_of_NoDup 0 ps pieces).
      - intros f. split; [apply HsF|]. intros Hf. by apply Hseen, Hall. }
    split.
    + apply (StronglySorted_unique_strong ipfrag_le); [|done|by apply frags_of_sorted|done].
      intros f g Hf Hg Hle1 Hle2. unfold ipfrag_le in *.
      eapply frags_of_inj; [exact pieces|by apply HsF|done|lia].
    + destruct Hend as [[? _]|[_ Hno]]; [done|].
      destruct (last_fragment 0 ps pieces) as (f & Hf & Hlast); [destruct ps; [simpl in several; lia|done]|].
      specialize (Hno f (Hall f Hf)). unfold more_flag in Hno.
      rewrite Hlast, Z.add_0_l, Z.eqb_refl in Hno. done.
  - intros Hmiss.
    destruct (check_some 0 ps s.(ips_fragments)) as [?|(ps1 & ps2 & Hps & Hfs & ->)];
      [done|done|lia|done|done|done|by left|].
    right. eexists. split; [done|].
    destruct Hend as [[-> _]|[-> _]]; [left|by right].
    intros He. apply Hmiss. intros f Hf. apply Hseen. rewrite Hfs.
    assert (ps2 = []) as ->; [|by rewrite Hps, app_nil_r in Hf].
    rewrite Hps, concat_app, zlen_app in He.
    destruct ps2 as [|p ps2]; [done|]. exfalso.
    assert (p ≠ []) as Hp. { apply (proj1 (Forall_forall _ ps) pieces). rewrite Hps. apply elem_of_app. right. left. }
    destruct p; [done|]. simpl in He. zlia.
Qed.

End datagram.

(** * Theorems *)

(** Joining follows the same walk as the completeness check. *)
Lemma join_check realloc_ok fs : ∀ expfrag alloced len content,
  (∀ n, realloc_ok n = true) →
  match check_fragments fs expfrag with
  | Ok None => ∃ c, join_fragments realloc_ok fs expfrag alloced len content = Ok (inl 0, 0, c)
  | Ok (Some e) => ∃ l c, join_fragments realloc_ok fs expfrag alloced len content = Ok (inr e, l, c)
  | Abort => join_fragments realloc_ok fs expfrag alloced len content = Abort
  | Undef => join_fragments realloc_ok fs expfrag alloced len content = Undef
  end.
Proof.
  induction fs as [|f fs IH]; intros expfrag alloced len content Hra; [simpl; eauto|].
  cbn [check_fragments join_fragments]. destruct (_ <=? _); [|done]. cbn [c_assert]. run_outcome.
  destruct (negb (_ =? _)); [eauto|]. rewrite Hra, andb_false_r. by apply IH.
Qed.

Lemma complete_check ps :
  Forall (λ p, p ≠ []) ps → zlen (concat ps) < 65536 →
  check_fragments (frags_of 0 ps) 0 = Ok (Some (zlen (concat ps))).
Proof.
  intros Hne Hfit.
  pose proof (join_check (λ _, true) (frags_of 0 ps) 0 0 0 None ltac:(done)) as Hj.
  pose proof (join_all (λ _, true) 0 ps 0 None ltac:(done) Hne ltac:(done) Hfit) as Ha.
  rewrite Ha in Hj. destruct (check_fragments _ _) as [[e|]| |]; try done.
  - destruct Hj as (l & c & Hj). injection Hj as He _ _. by rewrite <- He.
  - by destruct Hj.
Qed.

(** C25: a datagram of fewer than 65536 bytes, cut into two or more non-empty
    fragments in any way, is reassembled: whatever the order in which packets
    with its fragments arrive, and however often fragments are repeated, the
    stream is reported complete exactly when every fragment has arrived, and then
    [get_next_ip_reassembled] yields the datagram and its protocol; before that,
    it yields nothing. *)
Theorem ip_reassembly_correct {HS : HashSort} (realloc_ok : Z → bool) (ps : list bytes)
    (arr : list (frag_packet * ip_reass_fragment_t)) (id : ip_streamid_t) (proto : Z) :
  (∀ n, realloc_ok n = true) →
  Forall (λ p, p ≠ []) ps → (2 ≤ length ps)%nat → zlen (concat ps) < 65536 →
  Forall (λ '(pkt, f), f ∈ frags_of 0 ps ∧ carries pkt f) arr →
  ∃ s, add_fragments (zlen (concat ps)) arr (create_new_ipfrag_reassemble_stream id proto) = Ok s ∧
    (frags_of 0 ps ⊆ arr.*2 →
       (∃ s', is_ip_reassembled s = Ok (1, s')) ∧
       (∃ s', get_next_ip_reassembled realloc_ok s None
              = Ok (1, zlen (concat ps), proto, Some (concat ps), s'))) ∧
    (¬ frags_of 0 ps ⊆ arr.*2 →
       (∃ s', is_ip_reassembled s = Ok (0, s')) ∧
       (∃ c s', get_next_ip_reassembled realloc_ok s None = Ok (0, 0, 0, c, s'))).
Proof.
  intros Hra Hne H2 Hfit Harr.
  destruct (add_collected ps Hne H2 Hfit arr [] (create_new_ipfrag_reassemble_stream id proto))
    as (s & He & Hco & Hproto).
  { apply new_collected. }
  { intros f Hf. by apply not_elem_of_nil in Hf. }
  { done. }
  simpl in Hco, Hproto. exists s. split; [done|].
  destruct (sort_collected ps (arr.*2) s Hco) as (Hco' & Hord & Hp').
  assert (arr.*2 ⊆ frags_of 0 ps) as Hsub.
  { intros f Hf. apply list_elem_of_fmap in Hf as ([pkt g] & -> & Hin).
    rewrite Forall_forall in Harr. apply (Harr _ Hin). }
  destruct (collected_check ps Hne H2 Hfit _ _ Hco' Hsub Hord) as [Hall Hmiss].
  pose proof (total_pos ps Hne H2) as Hpos.
  unfold is_ip_reassembled, get_next_ip_reassembled. split.
  - intros Hcov. destruct (Hall Hcov) as [-> ->].
    rewrite complete_check, (join_all realloc_ok 0 ps 0 None) by done. run_outcome.
    rewrite Z.add_0_l, Z.eqb_refl, (proj2 (Z.eqb_neq _ _)), Hp', Hproto by lia. simpl.
    destruct ps; [simpl in H2; lia|]. eauto.
  - intros Hnot. pose proof (join_check realloc_ok
      (ips_fragments (sort_fragments s)) 0 0 0 None Hra) as Hj.
    destruct (Hmiss Hnot) as [Hc|(e & Hc & Hbad)]; rewrite Hc in Hj |- *; run_outcome.
    + destruct Hj as [c ->]. run_outcome. eauto.
    + destruct Hj as (l & c & ->). run_outcome.
      assert (negb (e =? ips_endfrag (sort_fragments s)) || (ips_endfrag (sort_fragments s) =? 0)
              = true) as ->; [|eauto].
      destruct Hbad as [Hb|Hb]; [|by rewrite Hb, orb_true_r].
      by rewrite (proj2 (Z.eqb_neq _ _) Hb).
Qed.

(** The ports of a fragmented datagram: once the first fragment is there
    and has at least four bytes, they are the first two 16-bit numbers of the
    datagram; until then the code reports success without ports, or that it has
    none. *)
Theorem ip_fragment_ports {HS : HashSort} (ps : list bytes) (arr : list (frag_packet * ip_reass_fragment_t))
    (id : ip_streamid_t) (proto b0 b1 b2 b3 : Z) (rest : bytes) :
  Forall (λ p, p ≠ []) ((b0 :: b1 :: b2 :: b3 :: rest) :: ps) → ps ≠ [] →
  all_bytes [b0; b1; b2; b3] →
  zlen (concat ((b0 :: b1 :: b2 :: b3 :: rest) :: ps)) < 65536 → arr ≠ [] →
  Forall (λ '(pkt, f), f ∈ frags_of 0 ((b0 :: b1 :: b2 :: b3 :: rest) :: ps) ∧ carries pkt f) arr →
  ∃ s s', add_fragments (zlen (concat ((b0 :: b1 :: b2 :: b3 :: rest) :: ps))) arr
            (create_new_ipfrag_reassemble_stream id proto) = Ok s ∧
    get_ipfrag_ports s =
      if existsb (λ '(_, f), f.(if_fragoff) =? 0) arr
      then Ok (1, 256 * b0 + b1, 256 * b2 + b3, s') else Ok (0, 0, 0, s').
Proof.
  set (p := b0 :: b1 :: b2 :: b3 :: rest). intros Hne Hps Hb Hfit Harr0 Harr.
  assert (2 ≤ length (p :: ps))%nat as H2 by (destruct ps; [done|simpl; lia]).
  destruct (add_collected (p :: ps) Hne H2 Hfit arr [] (create_new_ipfrag_reassemble_stream id proto))
    as (s & He & Hco & _); [apply new_collected|by intros f ?%not_elem_of_nil|done|].
  exists s, (sort_fragments s). split; [done|].
  destruct (sort_collected (p :: ps) (arr.*2) s Hco) as ([_ Hseen _ _] & Hord & _).
  assert (∀ f, f ∈ arr.*2 → f ∈ frags_of 0 (p :: ps)) as Hsub.
  { intros f Hf. apply list_elem_of_fmap in Hf as ([pkt g] & -> & Hin).
    rewrite Forall_forall in Harr. apply (Harr _ Hin). }
  set (F0 := Mkip_reass_fragment_t 0 (zlen p) p).
  assert (F0 ∈ frags_of 0 (p :: ps)) as HF0 by left.
  unfold get_ipfrag_ports. cbv zeta.
  destruct (ips_fragments (sort_fragments s)) as [|h l] eqn:Efr.
  { exfalso. destruct arr as [|[pkt f] arr]; [done|]. apply (not_elem_of_nil f), Hseen. left. }
  assert (h ∈ arr.*2) as Hh by (apply Hseen; left).
  destruct (frags_of_elem _ _ _ Hne (Hsub h Hh)) as (Hoff & _).
  assert (∀ f, f ∈ arr.*2 → ipfrag_le h f) as Hmin.
  { intros f Hf%Hseen. apply elem_of_cons in Hf as [->|Hf]; [unfold ipfrag_le; lia|].
    inversion_clear Hord as [|? ? _ Hall]. rewrite Forall_forall in Hall. by apply Hall. }
  destruct (existsb _ arr) eqn:Ex.
  - apply existsb_exists in Ex as ([pkt f] & Hin & Hf0%Z.eqb_eq).
    assert (f ∈ arr.*2) as Hf by (apply list_elem_of_fmap; exists (pkt, f); split; [done|by apply list_elem_of_In]).
    specialize (Hmin f Hf). unfold ipfrag_le in Hmin.
    assert (h = F0) as -> by (eapply frags_of_inj; [exact Hne|by apply Hsub|done|simpl; lia]).
    cbn [F0 if_fragoff if_length if_content]. cbn [Z.ltb Z.compare].
    rewrite (proj2 (Z.ltb_ge _ _)) by (unfold p; zlia).
    unfold all_bytes in Hb. rewrite !Forall_cons in Hb. destruct Hb as (?&?&?&?&_).
    change (read_le 2 p) with (read_le 2 ([b0; b1] ++ b2 :: b3 :: rest)).
    rewrite read_le_app by done. run_outcome.
    change (zdrop 2 p) with ([b2; b3] ++ rest). rewrite read_le_app by done. run_outcome.
    unfold ntohs. rewrite !byteswap16_val by done.
    assert (∀ x y, le_val [y; x] = 256 * x + y) as Hv by (intros; cbn [le_val]; lia).
    by rewrite !Hv.
  - rewrite (proj2 (Z.ltb_lt _ _)); [done|].
    destruct (Z.eq_dec h.(if_fragoff) 0) as [E|]; [|lia]. exfalso.
    apply list_elem_of_fmap in Hh as ([pkt g] & -> & Hin).
    assert (existsb (λ '(_, f), if_fragoff f =? 0) arr = true) as Ht; [|by rewrite Ht in Ex].
    apply existsb_exists. exists (pkt, g). split; [by apply list_elem_of_In|by apply Z.eqb_eq].
Qed.

(** ** The table of streams *)

(** The time of the next purge: not set yet, or in the future of some packet. *)
Definition purge_time_ok (reass : ipfrag_reassembler_t) : Prop :=
  reass.(ipr_nextpurge) = 0 ∨ 300 ≤ reass.(ipr_nextpurge) < 2 ^ 32.

Lemma purge_keeps reass ts id s :
  purge_time_ok reass → 0 ≤ ts < 2 ^ 32 - 300 →
  (purge_inactive_ip_streams reass ts).(ipr_knownstreams) !! id = Some s ↔
  reass.(ipr_knownstreams) !! id = Some s ∧
    (reass.(ipr_nextpurge) = 0 ∨ ts < reass.(ipr_nextpurge) ∨
     reass.(ipr_nextpurge) - 300 ≤ s.(ips_lastts)).
Proof.
  intros Hp Hts. unfold purge_inactive_ip_streams.
  destruct (Z.eqb_spec (ipr_nextpurge reass) 0) as [E|E]; simpl; [tauto|].
  destruct (Z.ltb_spec ts (ipr_nextpurge reass)); simpl; [tauto|].
  destruct Hp as [?|Hp]; [done|]. rewrite map_lookup_filter_Some, u32_id by lia. intuition lia.
Qed.

Lemma purge_time_next reass ts :
  purge_time_ok reass → 0 ≤ ts < 2 ^ 32 - 300 → purge_time_ok (purge_inactive_ip_streams reass ts).
Proof.
  intros Hp Hts. unfold purge_inactive_ip_streams, purge_time_ok.
  destruct (_ =? 0); simpl; [rewrite u32_id by lia; lia|].
  destruct (_ <? _); simpl; [done|]. rewrite u32_id by lia. lia.
Qed.

(** The stream handed out, and what the purge does to the others. *)
Lemma get_ipfrag_stream_live_lemma (reass : ipfrag_reassembler_t) (pkt : frag_packet)
    (id : ip_streamid_t) :
  purge_time_ok reass → 0 ≤ pkt.(fp_ts) < 2 ^ 32 - 300 → pkt.(fp_id) = Some id →
  ∃ reass' s, get_ipfrag_reassemble_stream reass pkt = (Some id, reass') ∧
    purge_time_ok reass' ∧
    reass'.(ipr_knownstreams) !! id = Some s ∧ s.(ips_lastts) = pkt.(fp_ts) ∧
    s.(ips_fragments) = from_option ips_fragments [] (reass.(ipr_knownstreams) !! id) ∧
    (∀ id' s', id' ≠ id →
       reass'.(ipr_knownstreams) !! id' = Some s' ↔
       reass.(ipr_knownstreams) !! id' = Some s' ∧
         (reass.(ipr_nextpurge) = 0 ∨ pkt.(fp_ts) < reass.(ipr_nextpurge) ∨
          reass.(ipr_nextpurge) - 300 ≤ s'.(ips_lastts))).
Proof.
  intros Hp Hts Hid. unfold get_ipfrag_reassemble_stream. rewrite Hid.
  destruct (ipr_knownstreams reass !! id) as [s|] eqn:E.
  - eexists _, (set_ips_lastts (fp_ts pkt) s). split; [done|].
    split; [by apply purge_time_next|]. split; [|split; [done|split; [done|]]].
    + apply purge_keeps; [done|done|]. simpl. rewrite lookup_insert_eq. split; [done|].
      destruct Hp; lia.
    + intros id' s' Hne. rewrite purge_keeps by done. simpl. by rewrite lookup_insert_ne.
  - eexists _, _. split; [done|]. split; [by apply (purge_time_next reass)|].
    split; [by apply lookup_insert_eq|split; [done|split; [done|]]].
    intros id' s' Hne. simpl. rewrite lookup_insert_ne by done. by apply purge_keeps.
Qed.

(** The stream [get_ipfrag_reassemble_stream] hands out is in the table
    after the purge it triggers, with its fragments so far and the time of the
    packet, so the pointer is never dangling; every other stream is kept exactly
    when no purge was due or it was active in the last interval. *)
Theorem get_ipfrag_stream_live (reass : ipfrag_reassembler_t) (pkt : frag_packet)
    (id : ip_streamid_t) :
  purge_time_ok reass → 0 ≤ pkt.(fp_ts) < 2 ^ 32 - 300 → pkt.(fp_id) = Some id →
  ∃ reass' s, get_ipfrag_reassemble_stream reass pkt = (Some id, reass') ∧
    purge_time_ok reass' ∧
    reass'.(ipr_knownstreams) !! id = Some s ∧ s.(ips_lastts) = pkt.(fp_ts) ∧
    s.(ips_fragments) = from_option ips_fragments [] (reass.(ipr_knownstreams) !! id) ∧
    (∀ id' s', id' ≠ id →
       reass'.(ipr_knownstreams) !! id' = Some s' ↔
       reass.(ipr_knownstreams) !! id' = Some s' ∧
         (reass.(ipr_nextpurge) = 0 ∨ pkt.(fp_ts) < reass.(ipr_nextpurge) ∨
          reass.(ipr_nextpurge) - 300 ≤ s'.(ips_lastts))).
Proof. apply get_ipfrag_stream_live_lemma. Qed.

(** ** Hostile fragments *)

(** A stream holding one first fragment and one that starts inside it. *)
Lemma overlap_check {HS : HashSort} (f g : ip_reass_fragment_t) :
  f.(if_fragoff) = 0 → 0 < g.(if_fragoff) < f.(if_length) → f.(if_length) < 65536 →
  check_fragments (hash_sort ipfrag_le [f; g]) 0 = Abort.
Proof.
  intros Hf Hg Hl.
  assert (hash_sort ipfrag_le [f; g] = [f; g]) as ->.
  { apply hash_sort_stable. repeat constructor. unfold ipfrag_le. lia. }
  cbn [check_fragments]. rewrite Hf. cbn [Z.leb Z.compare c_assert Z.eqb negb]. run_outcome.
  rewrite Z.add_0_l, u16_id by lia. rewrite (proj2 (Z.leb_gt _ _)) by lia. done.
Qed.

(** A fragment that is not there yet is appended. *)
Lemma update_new s pkt f more :
  carries pkt f → f.(if_length) = zlen f.(if_content) → f.(if_length) < 65536 →
  more = true ∨ f.(if_fragoff) ≠ 0 → find_fragment f.(if_fragoff) s.(ips_fragments) = None →
  update_ipfrag_reassemble_stream s pkt f.(if_fragoff) more =
  Ok (0, set_ips_fragments (s.(ips_fragments) ++ [f]) false
           (if more then s.(ips_endfrag) else u16 (f.(if_fragoff) + f.(if_length))) s).
Proof.
  intros [H3 H4 Hrem [Hl0 Hlen] [pad Hdata]] Hfl Hsm Hmore Hfind.
  unfold update_ipfrag_reassemble_stream. rewrite H3, H4, Hfind.
  rewrite (proj2 (Z.ltb_ge _ _)) by lia. cbn [orb negb].
  assert (negb more && (f.(if_fragoff) =? 0) = false) as ->.
  { destruct more; [done|]. destruct Hmore as [|Hne]; [done|]. by apply Z.eqb_neq. }
  zlen_pose. rewrite (proj2 (Z.leb_gt _ _)), (proj2 (Z.eqb_neq _ _)) by lia.
  rewrite Hlen, u16_id, Hdata, read_bytes_app by (done || lia). run_outcome. by destruct f.
Qed.

(** Asking for the ports of a stream that has a fragment sorts it. *)
Lemma ports_sorts {HS : HashSort} s :
  s.(ips_fragments) ≠ [] →
  (∀ f, f ∈ s.(ips_fragments) → f.(if_length) = zlen f.(if_content)) →
  ∃ rc src dst, get_ipfrag_ports s = Ok (rc, src, dst, sort_fragments s).
Proof.
  intros Hne Hlen. unfold get_ipfrag_ports. cbv zeta.
  assert (ips_fragments (sort_fragments s) ≡ₚ ips_fragments s) as Hp.
  { unfold sort_fragments. destruct (ips_sorted s); [done|]. apply hash_sort_perm. }
  destruct (ips_fragments (sort_fragments s)) as [|h l]; [by apply Permutation_nil in Hp|].
  assert (if_length h = zlen (if_content h)) as Hh by (apply Hlen; rewrite <- Hp; left).
  destruct (_ <? _); [eauto|]. destruct (Z.ltb_spec (if_length h) 4); [eauto|].
  destruct (read_le_Ok 2 (if_content h)) as [v ->]; [lia|].
  destruct (read_le_Ok 2 (zdrop 2 (if_content h))) as [w ->]; [rewrite zlen_zdrop; lia|].
  run_outcome. eauto.
Qed.

(** two overlapping fragments stop the collector.  For any first fragment
    and any second fragment of the same datagram that starts inside the first,
    the handling of the first returns normally and that of the second fails the
    assertion of [is_ip_reassembled]. *)
Theorem overlapping_fragments_abort {HS : HashSort} (id : ip_streamid_t) (pkt1 pkt2 : frag_packet)
    (f g : ip_reass_fragment_t) (more2 : bool) :
  pkt1.(fp_id) = Some id → pkt2.(fp_id) = Some id →
  0 ≤ pkt1.(fp_ts) ≤ pkt2.(fp_ts) → pkt2.(fp_ts) < 2 ^ 32 - 300 →
  carries pkt1 f → carries pkt2 g →
  f.(if_length) = zlen f.(if_content) → g.(if_length) = zlen g.(if_content) →
  f.(if_length) < 65536 → g.(if_length) < 65536 →
  f.(if_fragoff) = 0 → 0 < g.(if_fragoff) < f.(if_length) →
  ∃ ports reass, process_fragment create_new_ipfrag_reassembler pkt1 0 true = Ok (ports, reass) ∧
    process_fragment reass pkt2 g.(if_fragoff) more2 = Abort.
Proof.
  intros Hid1 Hid2 Hts Hts2 Hc1 Hc2 Hfl Hgl Hf16 Hg16 Hf0 Hg.
  unfold process_fragment at 1, get_ipfrag_reassemble_stream. rewrite Hid1.
  cbn [create_new_ipfrag_reassembler ipr_knownstreams]. rewrite lookup_empty.
  unfold purge_inactive_ip_streams. cbn [ipr_nextpurge ipr_knownstreams Z.eqb].
  rewrite lookup_insert_eq.
  set (s0 := set_ips_lastts _ _).
  pose proof (update_new s0 pkt1 f true Hc1 Hfl Hf16 ltac:(by left) eq_refl) as Hu.
  rewrite Hf0 in Hu. rewrite Hu. run_outcome. cbn [Z.ltb Z.compare].
  set (s1 := set_ips_fragments _ _ _ s0).
  destruct (ports_sorts s1) as (rc & src & dst & ->); [done| |].
  { intros x Hx. simpl in Hx. by apply list_elem_of_singleton in Hx as ->. }
  run_outcome.
  assert (sort_fragments s1 = set_ips_fragments [f] true 0 s0) as ->.
  { unfold sort_fragments, s1. cbn [set_ips_fragments ips_sorted ips_fragments].
    by rewrite hash_sort_stable by repeat constructor. }
  set (s2 := set_ips_fragments [f] true 0 s0).
  assert (is_ip_reassembled s2 = Ok (0, s2)) as ->.
  { unfold is_ip_reassembled. cbn [sort_fragments s2 set_ips_fragments ips_sorted ips_fragments check_fragments].
    rewrite Hf0. cbn [Z.leb Z.compare c_assert Z.eqb negb]. run_outcome. cbn [ips_endfrag].
    by rewrite orb_true_r. }
  run_outcome. cbn [Z.eqb]. eexists _, _. split; [done|].
  unfold process_fragment.
  match goal with |- context [get_ipfrag_reassemble_stream ?r pkt2] =>
    destruct (get_ipfrag_stream_live_lemma r pkt2 id) as (reass & s & -> & _ & -> & _ & Hfr & _)
  end; [right; simpl; rewrite u32_id; lia|lia|done|].
  simpl in Hfr. rewrite lookup_insert_eq in Hfr. simpl in Hfr.
  rewrite (update_new s pkt2 g more2 Hc2 Hgl Hg16) by
    (try (right; lia); unfold find_fragment; rewrite Hfr; cbn; by rewrite decide_False by lia).
  run_outcome. cbn [Z.ltb Z.compare].
  set (s3 := set_ips_fragments _ _ _ s).
  destruct (ports_sorts s3) as (rc' & src' & dst' & ->).
  { simpl. by destruct (ips_fragments s). }
  { intros x Hx. simpl in Hx. rewrite Hfr in Hx.
    apply elem_of_cons in Hx as [->|Hx%list_elem_of_singleton]; [done|by subst]. }
  run_outcome. unfold is_ip_reassembled, sort_fragments, s3.
  cbn [ips_sorted ips_fragments set_ips_fragments]. rewrite Hfr. cbn [app].
  rewrite overlap_check by (done || lia). done.
Qed.

(** The length of a new fragment is taken from the IP header, whatever was
    captured: the copy stays inside the packet exactly when the 16-bit
    difference of total length and header length is at most the captured
    payload.  A total length smaller than the header length wraps around to a
    large one. *)
Theorem fragment_copy_bound (s : ip_reassemble_stream_t) (pkt : frag_packet) (fragoff : Z)
    (moreflag : bool) :
  pkt.(fp_layer3) = true → pkt.(fp_is_ipv6) = false →
  sizeof_libtrace_ip_t ≤ pkt.(fp_rem) → 4 * pkt.(fp_ip_hl) < pkt.(fp_rem) →
  zlen pkt.(fp_transport) = pkt.(fp_rem) - 4 * pkt.(fp_ip_hl) →
  pkt.(fp_ip_len) ≠ 0 → moreflag = true ∨ fragoff ≠ 0 →
  find_fragment fragoff s.(ips_fragments) = None →
  let declared := u16 (pkt.(fp_ip_len) - 4 * pkt.(fp_ip_hl)) in
  (declared ≤ zlen pkt.(fp_transport) →
     ∃ s', update_ipfrag_reassemble_stream s pkt fragoff moreflag = Ok (0, s') ∧
       s'.(ips_fragments) = s.(ips_fragments)
         ++ [Mkip_reass_fragment_t fragoff declared (ztake declared pkt.(fp_transport))]) ∧
  (zlen pkt.(fp_transport) < declared →
     update_ipfrag_reassemble_stream s pkt fragoff moreflag = Undef).
Proof.
  intros H3 H4 H20 Hhl Hcap Hl0 Hfrag Hfind. cbv zeta.
  unfold update_ipfrag_reassemble_stream. rewrite H3, H4, Hfind.
  rewrite (proj2 (Z.ltb_ge _ _)) by lia. cbn [orb negb].
  assert (negb moreflag && (fragoff =? 0) = false) as ->.
  { destruct moreflag; [done|]. destruct Hfrag as [|Hne]; [done|]. by apply Z.eqb_neq. }
  rewrite (proj2 (Z.leb_gt _ _)), (proj2 (Z.eqb_neq _ _)) by lia.
  set (declared := u16 _). split; intros Hd.
  - rewrite read_bytes_Ok by done. run_outcome. by eexists.
  - unfold read_bytes. by rewrite decide_False by lia.
Qed.

(** * Examples *)

#[local] Existing Instance insertion_hash_sort.

Definition sample_id : ip_streamid_t := Mkip_streamid_t [10; 0; 0; 1] [10; 0; 0; 2] 4711 2.

(** The datagram [1..9] in three fragments, and packets that carry them. *)
Definition sample_pieces : list bytes := [[1; 2; 3; 4]; [5; 6; 7]; [8; 9]].

Definition sample_packet (ts : Z) (f : ip_reass_fragment_t) : frag_packet :=
  Mkfrag_packet (Some sample_id) ts true false (20 + f.(if_length)) 5 (20 + f.(if_length)) 17
    f.(if_content).

Lemma sample_carries ts f :
  0 < f.(if_length) → carries (sample_packet ts f) f.
Proof.
  intros H. split; simpl; [done|done|unfold sizeof_libtrace_ip_t; lia|lia|].
  exists []. by rewrite app_nil_r.
Qed.

(** The last fragment first, one of them twice. *)
Definition sample_arrivals : list (frag_packet * ip_reass_fragment_t) :=
  (λ f, (sample_packet 1000 f, f)) <$>
    [Mkip_reass_fragment_t 7 2 [8; 9]; Mkip_reass_fragment_t 0 4 [1; 2; 3; 4];
     Mkip_reass_fragment_t 7 2 [8; 9]; Mkip_reass_fragment_t 4 3 [5; 6; 7]].

Ltac arrivals :=
  repeat (apply Forall_cons; split; [split; [apply (bool_decide_unpack _); vm_compute; exact I|
    apply sample_carries; done]|]); apply Forall_nil_2.

Lemma ip_reassembly_correct_witness :
  ∃ s s', add_fragments 9 sample_arrivals (create_new_ipfrag_reassemble_stream sample_id 17) = Ok s ∧
    get_next_ip_reassembled (λ _, true) s None = Ok (1, 9, 17, Some [1; 2; 3; 4; 5; 6; 7; 8; 9], s').
Proof.
  destruct (ip_reassembly_correct (λ _, true) sample_pieces sample_arrivals sample_id 17)
    as (s & Hs & Hall & _).
  - done.
  - apply (bool_decide_unpack _). vm_compute. exact I.
  - simpl. lia.
  - by vm_compute.
  - arrivals.
  - destruct Hall as [_ [s' Hn]].
    + apply (bool_decide_unpack _). vm_compute. exact I.
    + exists s, s'. split; [exact Hs|exact Hn].
Defined.

Lemma ip_fragment_ports_witness :
  ∃ s s', add_fragments 9 sample_arrivals (create_new_ipfrag_reassemble_stream sample_id 17) = Ok s ∧
    get_ipfrag_ports s = Ok (1, 258, 772, s').
Proof.
  apply (ip_fragment_ports [[5; 6; 7]; [8; 9]] sample_arrivals sample_id 17 1 2 3 4 []).
  - apply (bool_decide_unpack _). vm_compute. exact I.
  - done.
  - apply (bool_decide_unpack _). vm_compute. exact I.
  - by vm_compute.
  - done.
  - arrivals.
Defined.

Lemma get_ipfrag_stream_live_witness :
  ∃ reass' s, get_ipfrag_reassemble_stream create_new_ipfrag_reassembler
      (sample_packet 1000 (Mkip_reass_fragment_t 0 4 [1; 2; 3; 4])) = (Some sample_id, reass') ∧
    purge_time_ok reass' ∧ reass'.(ipr_knownstreams) !! sample_id = Some s ∧
    s.(ips_lastts) = 1000.
Proof.
  destruct (get_ipfrag_stream_live create_new_ipfrag_reassembler
    (sample_packet 1000 (Mkip_reass_fragment_t 0 4 [1; 2; 3; 4])) sample_id)
    as (r & s & H1 & H2 & H3 & H4 & _); [by left|done|done|].
  exists r, s. split_and!; done.
Defined.

Lemma overlapping_fragments_abort_witness :
  ∃ ports reass,
    process_fragment create_new_ipfrag_reassembler
      (sample_packet 1000 (Mkip_reass_fragment_t 0 4 [1; 2; 3; 4])) 0 true = Ok (ports, reass) ∧
    process_fragment reass (sample_packet 1001 (Mkip_reass_fragment_t 2 2 [5; 6])) 2 false = Abort.
Proof.
  apply (overlapping_fragments_abort sample_id _ _ (Mkip_reass_fragment_t 0 4 [1; 2; 3; 4])
    (Mkip_reass_fragment_t 2 2 [5; 6]) false); try done; by apply sample_carries.
Defined.

(** A fragment whose header declares 1000 bytes and of which 4 were captured. *)
Lemma fragment_copy_bound_witness :
  update_ipfrag_reassemble_stream (create_new_ipfrag_reassemble_stream sample_id 17)
    (Mkfrag_packet (Some sample_id) 1000 true false 24 5 1020 17 [1; 2; 3; 4]) 0 true = Undef.
Proof.
  apply (fragment_copy_bound (create_new_ipfrag_reassemble_stream sample_id 17)
    (Mkfrag_packet (Some sample_id) 1000 true false 24 5 1020 17 [1; 2; 3; 4]) 0 true);
    first [done | by left | by vm_compute].
Defined.
