(* ===== verification/TcpReassembly.v ===== *)
(** * Reassembly of SIP messages from TCP segments
      (src/src/collector/reassembler.c, first half)

    A [tcp_reassemble_stream_t] keeps the segments of one direction of a TCP
    connection that have not been handed out yet, in a uthash table keyed by
    sequence number.  The code changes the sequence number of a segment in place
    while it is in the table; uthash goes on using the hash of the old key, so
    such a segment is no longer found under either number.  [tsg_key] is the key
    a segment was inserted with. *)

From S2P Require Import Prelude Libraries ByteOrder.

(** ** Sequence numbers *)

(** [seq_cmp] *)
Definition seq_cmp (seq_a seq_b : Z) : Z :=
  if seq_a =? seq_b then 0
  else if seq_b <? seq_a then i32 (u32 (seq_a - seq_b))
  else i32 (u32 (4294967295 - u32 (u32 (seq_b - seq_a) - 1))).

(** ** Finding the end of a SIP message *)

(** [memmem]: the offset of the first occurrence. *)
Fixpoint memmem (hay needle : bytes) : option Z :=
  if decide (needle `prefix_of` hay) then Some 0
  else match hay with
  | [] => None
  | _ :: hay => Z.succ <$> memmem hay needle
  end.

Definition SIP_END_SEQUENCE : bytes := [13; 10; 13; 10].
Definition SIP_CONTENT_LENGTH_FIELD : bytes := of_string "Content-Length: ".
Definition SINGLE_CRLF : bytes := [13; 10].

(** [strtoul(s, NULL, 10)] of <stdlib.h>, for strings too short to overflow:
    white space, an optional sign, digits; a minus sign negates the result in
    [unsigned long]. *)
Definition is_space (b : Z) : bool := (b =? 32) || ((9 <=? b) && (b <=? 13)).
Definition is_digit (b : Z) : bool := (48 <=? b) && (b <=? 57).

Fixpoint strtoul_digits (s : bytes) (acc : Z) : Z :=
  match s with
  | b :: s => if is_digit b then strtoul_digits s (10 * acc + (b - 48)) else acc
  | [] => acc
  end.

Fixpoint skip_space (s : bytes) : bytes :=
  match s with
  | b :: s' => if is_space b then skip_space s' else s
  | [] => []
  end.

Definition strtoul (s : bytes) : Z :=
  match skip_space s with
  | b :: s => if b =? 45 then u64 (- strtoul_digits s 0)
              else if b =? 43 then strtoul_digits s 0
              else strtoul_digits (b :: s) 0
  | [] => 0
  end.

(** A 64-bit value as a signed offset: [p + clenval] wraps around the address
    space. *)
Definition i64 (z : Z) : Z := (z + 2 ^ 63) mod 2 ^ 64 - 2 ^ 63.

(** [find_sip_message_end]: the offset in [content] of the pointer returned,
    [None] for NULL.  [content] holds the [contlen] bytes of the buffer. *)
Definition find_sip_message_end (content : bytes) : outcome (option Z) :=
  match memmem content SIP_END_SEQUENCE with
  | None => Ok None
  | Some c =>
      let crlf := c + zlen SIP_END_SEQUENCE in
      match memmem content SIP_CONTENT_LENGTH_FIELD with
      | None => Ok None
      | Some clengthfield =>
          let clengthstart := clengthfield + zlen SIP_CONTENT_LENGTH_FIELD in
          match memmem (zdrop clengthstart content) SINGLE_CRLF with
          | None => Ok None
          | Some vallen =>
              _ ← c_assert (vallen <? 12);
              let clenval := strtoul (ztake vallen (zdrop clengthstart content)) in
              if zlen content <? crlf + i64 clenval then Ok None
              else Ok (Some (crlf + i64 clenval))
          end
      end
  end.

(** ** Streams *)

Record tcp_streamid_t : Type := Mktcp_streamid_t {
  tid_srcip : bytes;
  tid_destip : bytes;
  tid_srcport : Z;
  tid_destport : Z;
  tid_ipfamily : Z;
}.

(** The 40 bytes of a [tcp_streamid_t] in memory. *)
Definition streamid_memory (id : tcp_streamid_t) : bytes :=
  ztake 16 (id.(tid_srcip) ++ replicate 16 0) ++ ztake 16 (id.(tid_destip) ++ replicate 16 0)
    ++ le_bytes 2 id.(tid_srcport) ++ le_bytes 2 id.(tid_destport) ++ le_bytes 4 id.(tid_ipfamily).

Record tcp_reass_segment_t : Type := Mktcp_reass_segment_t {
  tsg_key : Z;
  tsg_seqno : Z;
  tsg_offset : Z;
  tsg_length : Z;
  tsg_content : bytes;
}.

Inductive tcp_state : Type := TCP_STATE_OPENING | TCP_STATE_ESTAB | TCP_STATE_CLOSING.

#[global] Instance tcp_state_eq_dec : EqDecision tcp_state.
Proof. solve_decision. Defined.

Record tcp_reassemble_stream_t : Type := Mktcp_reassemble_stream_t {
  tcs_streamid : tcp_streamid_t;
  tcs_lastts : Z;
  tcs_expectedseqno : Z;
  tcs_segments : list tcp_reass_segment_t;
  tcs_sorted : bool;
  tcs_established : tcp_state;
}.

Definition set_tcs_segments (segs : list tcp_reass_segment_t) (sorted : bool) (exp : Z)
    (s : tcp_reassemble_stream_t) : tcp_reassemble_stream_t :=
  Mktcp_reassemble_stream_t s.(tcs_streamid) s.(tcs_lastts) exp segs sorted s.(tcs_established).
Definition set_tcs_state (ts : Z) (st : tcp_state) (s : tcp_reassemble_stream_t)
    : tcp_reassemble_stream_t :=
  Mktcp_reassemble_stream_t s.(tcs_streamid) ts s.(tcs_expectedseqno) s.(tcs_segments)
    s.(tcs_sorted) st.

(** [create_new_tcp_reassemble_stream] *)
Definition create_new_tcp_reassemble_stream (streamid : tcp_streamid_t) (synseq : Z)
    : tcp_reassemble_stream_t :=
  Mktcp_reassemble_stream_t streamid 0 (u32 (synseq + 1)) [] false TCP_STATE_OPENING.

(** [HASH_FIND] on a sequence number. *)
Fixpoint find_segment (seqno : Z) (segs : list tcp_reass_segment_t)
    : option tcp_reass_segment_t :=
  match segs with
  | [] => None
  | g :: segs => if (g.(tsg_key) =? seqno) && (g.(tsg_seqno) =? seqno) then Some g
                 else find_segment seqno segs
  end.

(** [update_tcp_reassemble_stream]; [plen = zlen content] is a [uint16_t].  The
    recursion on a longer retransmission drops what is already there; [Undef] is
    a recursion that does not end. *)
Fixpoint update_tcp (fuel : nat) (s : tcp_reassemble_stream_t) (content : bytes) (seqno : Z)
    : outcome (Z * tcp_reassemble_stream_t) :=
  match find_segment seqno s.(tcs_segments) with
  | Some existing =>
      if zlen content =? existing.(tsg_length) then Ok (-1, s)
      else if existing.(tsg_length) <? zlen content then
        match fuel with
        | O => Undef
        | S fuel => update_tcp fuel s (zdrop existing.(tsg_length) content)
                      (u32 (seqno + existing.(tsg_length)))
        end
      else Ok (0, s)
  | None =>
      if seq_cmp seqno s.(tcs_expectedseqno) <? 0 then Ok (-1, s)
      else
        endptr ← find_sip_message_end content;
        if (seq_cmp seqno s.(tcs_expectedseqno) =? 0) &&
           match endptr with Some e => e =? zlen content | None => false end
        then Ok (1, set_tcs_segments s.(tcs_segments) s.(tcs_sorted)
                      (u32 (s.(tcs_expectedseqno) + zlen content)) s)
        else Ok (0, set_tcs_segments
                      (s.(tcs_segments) ++ [Mktcp_reass_segment_t seqno seqno 0 (zlen content) content])
                      false s.(tcs_expectedseqno) s)
  end.

Definition update_tcp_reassemble_stream (s : tcp_reassemble_stream_t) (content : bytes) (seqno : Z)
    : outcome (Z * tcp_reassemble_stream_t) :=
  update_tcp (length content) s content seqno.

(** [tcpseg_sort(a, b) <= 0] *)
Definition tcpseg_le (a b : tcp_reass_segment_t) : Prop :=
  seq_cmp a.(tsg_seqno) b.(tsg_seqno) ≤ 0.

#[global] Instance tcpseg_le_dec a b : Decision (tcpseg_le a b).
Proof. unfold tcpseg_le. apply _. Defined.

(** The state of the loop of [get_next_tcp_reassembled]: [*content] (the bytes
    written so far, [None] for NULL), [*len], [contused], [checked] and
    [expseqno]. *)
Record tcp_loop : Type := Mktcp_loop {
  tl_content : option bytes;
  tl_len : Z;
  tl_contused : Z;
  tl_checked : Z;
  tl_expseqno : Z;
}.

(** How the loop ends: it returns from the function with a return value, or the
    segments run out or leave a gap. *)
Inductive tcp_loop_end : Type :=
  | LoopReturn (rc : Z)
  | LoopExit.

(** [HASH_ITER]: one round per segment; the segments that stay are returned. *)
Fixpoint tcp_collect (realloc_ok : Z → bool) (segs : list tcp_reass_segment_t) (exp : Z)
    (l : tcp_loop)
    : outcome (tcp_loop_end * list tcp_reass_segment_t * Z * tcp_loop) :=
  match segs with
  | [] => Ok (LoopExit, [], exp, l)
  | it :: rest =>
      let c := seq_cmp it.(tsg_seqno) l.(tl_expseqno) in
      if c <? 0 then tcp_collect realloc_ok rest exp l
      else if 0 <? c then Ok (LoopExit, it :: rest, exp, l)
      else
        let size := l.(tl_contused) + it.(tsg_length) * 2 in
        let grow := match l.(tl_content) with
                    | None => true
                    | Some _ => l.(tl_len) <? l.(tl_contused) + it.(tsg_length)
                    end in
        let len := if grow then u16 size else l.(tl_len) in
        if grow && negb (realloc_ok size)
        then Ok (LoopReturn (-1), it :: rest, exp,
                 Mktcp_loop None len l.(tl_contused) l.(tl_checked) l.(tl_expseqno))
        else
          data ← read_bytes it.(tsg_length) (zdrop it.(tsg_offset) it.(tsg_content));
          let old := default [] l.(tl_content) in
          let block := ztake l.(tl_contused) old ++ data
                       ++ zdrop (l.(tl_contused) + it.(tsg_length)) old in
          endfound ← find_sip_message_end
                       (ztake (u16 (l.(tl_contused) - l.(tl_checked) + it.(tsg_length)))
                          (zdrop l.(tl_checked) block));
          match endfound with
          | Some e =>
              (* offsets from contstart *)
              let used := e + l.(tl_checked) - l.(tl_contused) in
              _ ← c_assert (used <=? it.(tsg_length));
              _ ← c_assert (0 <? used);
              if it.(tsg_length) =? used
              then Ok (LoopReturn 1, rest, u32 (exp + used),
                       Mktcp_loop (Some block) (u16 (l.(tl_contused) + it.(tsg_length)))
                         l.(tl_contused) l.(tl_checked) l.(tl_expseqno))
              else Ok (LoopReturn 1,
                       Mktcp_reass_segment_t it.(tsg_key) (u32 (it.(tsg_seqno) + used))
                         (u16 (it.(tsg_offset) + used)) (u16 (it.(tsg_length) - used))
                         it.(tsg_content) :: rest,
                       u32 (exp + used),
                       Mktcp_loop (Some block) (u16 (l.(tl_contused) + used))
                         l.(tl_contused) l.(tl_checked) l.(tl_expseqno))
          | None =>
              let contused := u16 (l.(tl_contused) + it.(tsg_length)) in
              tcp_collect realloc_ok rest exp
                (Mktcp_loop (Some block) len contused contused
                   (u32 (l.(tl_expseqno) + it.(tsg_length))))
          end
  end.

(** [get_next_tcp_reassembled]: the return value, [*content], [*len] and the
    stream. *)
Definition get_next_tcp_reassembled {HS : HashSort} (realloc_ok : Z → bool) (s : tcp_reassemble_stream_t)
    (content : option bytes) (len : Z)
    : outcome (Z * option bytes * Z * tcp_reassemble_stream_t) :=
  let segs := if s.(tcs_sorted) then s.(tcs_segments)
              else hash_sort tcpseg_le s.(tcs_segments) in
  '(r, segs', exp, l) ← tcp_collect realloc_ok segs s.(tcs_expectedseqno)
                          (Mktcp_loop content len 0 0 s.(tcs_expectedseqno));
  let s' := set_tcs_segments segs' true exp s in
  match r with
  | LoopReturn rc => Ok (rc, l.(tl_content), l.(tl_len), s')
  | LoopExit =>
      if (0 <? l.(tl_contused)) || (exp <? l.(tl_expseqno)) then
        '(_, s'') ← update_tcp_reassemble_stream s'
                      (ztake l.(tl_contused) (default [] l.(tl_content))) exp;
        Ok (0, l.(tl_content), 0, s'')
      else Ok (0, l.(tl_content), 0, s')
  end.

(** ** The table of streams *)

Record tcp_reassembler_t : Type := Mktcp_reassembler_t {
  tcr_knownstreams : list (bytes * tcp_reassemble_stream_t);
  tcr_nextpurge : Z;
}.

(** [create_new_tcp_reassembler] *)
Definition create_new_tcp_reassembler : tcp_reassembler_t := Mktcp_reassembler_t [] 0.

(** [HASH_FIND] on a key given by its bytes: lengths and contents must agree. *)
Fixpoint find_stream (key : bytes) (l : list (bytes * tcp_reassemble_stream_t))
    : option tcp_reassemble_stream_t :=
  match l with
  | [] => None
  | (k, s) :: l => if decide (k = key) then Some s else find_stream key l
  end.

(** [purge_inactive_tcp_streams] *)
Definition purge_inactive_tcp_streams (reass : tcp_reassembler_t) (ts : Z) : tcp_reassembler_t :=
  if reass.(tcr_nextpurge) =? 0
  then Mktcp_reassembler_t reass.(tcr_knownstreams) (u32 (ts + 300))
  else if ts <? reass.(tcr_nextpurge) then reass
  else Mktcp_reassembler_t
    (filter (λ '(_, s), ¬ s.(tcs_lastts) <
               (if decide (s.(tcs_established) = TCP_STATE_ESTAB)
                then u32 (reass.(tcr_nextpurge) - 1800) else u32 (reass.(tcr_nextpurge) - 300)))
       reass.(tcr_knownstreams))
    (u32 (ts + 300)).

(** What the code uses of a TCP header; [th_seq] is [ntohl(tcp->seq)]. *)
Record tcp_header : Type := Mktcp_header {
  th_seq : Z;
  th_syn : bool;
  th_fin : bool;
  th_rst : bool;
}.

(** [get_tcp_reassemble_stream].  The lookup is [HASH_FIND(hh, ..., &id,
    sizeof(id), existing)] where [id] is a pointer: its key is the eight bytes of
    the pointer [id_ptr], not the structure it points to.  The result is the
    stream as it is in the table, [None] for NULL. *)
Definition get_tcp_reassemble_stream (reass : tcp_reassembler_t) (id_ptr : Z)
    (id : tcp_streamid_t) (tcp : tcp_header) (ts tcprem : Z)
    : option tcp_reassemble_stream_t * tcp_reassembler_t :=
  match find_stream (le_bytes 8 id_ptr) reass.(tcr_knownstreams) with
  | Some existing =>
      let st1 := if (0 <? tcprem) && negb tcp.(th_syn) &&
                    bool_decide (existing.(tcs_established) = TCP_STATE_OPENING)
                 then TCP_STATE_ESTAB else existing.(tcs_established) in
      let st2 := if bool_decide (st1 = TCP_STATE_ESTAB) && (tcp.(th_fin) || tcp.(th_rst))
                 then TCP_STATE_CLOSING else st1 in
      let existing' := set_tcs_state ts st2 existing in
      (Some existing',
       purge_inactive_tcp_streams
         (Mktcp_reassembler_t
            ((λ '(k, s), if decide (k = le_bytes 8 id_ptr) then (k, existing') else (k, s))
               <$> reass.(tcr_knownstreams)) reass.(tcr_nextpurge)) ts)
  | None =>
      if tcp.(th_rst) then (None, reass)
      else
        let fresh :=
          if tcp.(th_syn) then create_new_tcp_reassemble_stream id tcp.(th_seq)
          else set_tcs_state 0 (if tcp.(th_fin) then TCP_STATE_CLOSING else TCP_STATE_ESTAB)
                 (create_new_tcp_reassemble_stream id (u32 (tcp.(th_seq) - 1))) in
        let fresh := set_tcs_state ts fresh.(tcs_established) fresh in
        let reass := purge_inactive_tcp_streams reass ts in
        (Some fresh,
         Mktcp_reassembler_t (reass.(tcr_knownstreams) ++ [(streamid_memory id, fresh)])
           reass.(tcr_nextpurge))
  end.

(** [remove_tcp_reassemble_stream]: here the key is the structure. *)
Definition remove_tcp_reassemble_stream (reass : tcp_reassembler_t)
    (s : tcp_reassemble_stream_t) : tcp_reassembler_t :=
  let key := streamid_memory s.(tcs_streamid) in
  let fix remove l :=
    match l with
    | [] => []
    | (k, s) :: l => if decide (k = key) then l else (k, s) :: remove l
    end in
  Mktcp_reassembler_t (remove reass.(tcr_knownstreams)) reass.(tcr_nextpurge).

(** * Lemmas *)

(** ** Sequence numbers *)

Lemma i32_add_wrap z : i32 (z + 2 ^ 32) = i32 z.
Proof. unfold i32. replace (z + 2 ^ 32 + 2 ^ 31) with (z + 2 ^ 31 + 1 * 2 ^ 32) by lia. by rewrite Z.mod_add. Qed.

Lemma seq_cmp_signed a b : 0 ≤ a < 2 ^ 32 → 0 ≤ b < 2 ^ 32 → seq_cmp a b = i32 (a - b).
Proof.
  intros Ha Hb. unfold seq_cmp. destruct (Z.eqb_spec a b) as [->|Hne].
  { by rewrite Z.sub_diag. }
  destruct (Z.ltb_spec b a).
  - by rewrite u32_id by lia.
  - rewrite (u32_id (b - a)), (u32_id (b - a - 1)), u32_id by lia.
    rewrite <- (i32_add_wrap (a - b)). f_equal. lia.
Qed.

Lemma seq_cmp_refl a : seq_cmp a a = 0.
Proof. unfold seq_cmp. by rewrite Z.eqb_refl. Qed.

Lemma u32_range z : 0 ≤ u32 z < 2 ^ 32.
Proof. unfold u32. apply Z.mod_pos_bound. lia. Qed.

(** Numbers less than half the space apart compare by their distance, also
    across the wrap. *)
Lemma seq_cmp_ahead e n :
  0 ≤ e < 2 ^ 32 → 0 ≤ n < 2 ^ 31 →
  seq_cmp (u32 (e + n)) e = n ∧ seq_cmp e (u32 (e + n)) = - n.
Proof.
  intros He Hn. pose proof (u32_range (e + n)).
  rewrite !seq_cmp_signed by lia.
  destruct (decide (e + n < 2 ^ 32)).
  - rewrite u32_id by lia. rewrite !i32_id by lia. lia.
  - assert (u32 (e + n) = e + n - 2 ^ 32) as ->.
    { unfold u32. replace (e + n) with (e + n - 2 ^ 32 + 1 * 2 ^ 32) at 1 by lia.
      rewrite Z.mod_add, Z.mod_small; lia. }
    split.
    + rewrite <- i32_add_wrap. rewrite i32_id; lia.
    + replace (e - (e + n - 2 ^ 32)) with (- n + 2 ^ 32) by lia.
      rewrite i32_add_wrap, i32_id; lia.
Qed.

(** ** Searching *)

Lemma memmem_Some h n i :
  memmem h n = Some i → 0 ≤ i ∧ i + zlen n ≤ zlen h ∧ n `prefix_of` zdrop i h.
Proof.
  revert i. induction h as [|x h IH]; intros i; cbn [memmem].
  - destruct (decide _) as [Hp|]; [|done]. intros [= <-]. apply prefix_nil_inv in Hp as ->.
    split; [lia|]. by split; [zlia|].
  - destruct (decide _) as [Hp|].
    + intros [= <-]. split; [lia|]. split; [|done]. destruct Hp as [k ->]. zlia.
    + intros (j & Hj & ->)%fmap_Some. destruct (IH j Hj) as (? & ? & Hp).
      split; [lia|]. split; [zlia|]. unfold zdrop in *. rewrite Z2Nat.inj_succ by lia. done.
Qed.

Lemma memmem_app h r n i : memmem h n = Some i → memmem (h ++ r) n = Some i.
Proof.
  revert i. induction h as [|x h IH]; intros i; cbn [memmem app].
  - destruct (decide _) as [Hp|]; [|done]. intros [= <-]. apply prefix_nil_inv in Hp as ->.
    by destruct r.
  - destruct (decide (n `prefix_of` x :: h)) as [Hp|Hnp].
    + intros [= <-]. rewrite decide_True; [done|]. by apply (prefix_app_r n (x :: h)).
    + intros (j & Hj & ->)%fmap_Some. rewrite decide_False, (IH j Hj); [done|].
      intros Hp. apply Hnp. destruct (memmem_Some _ _ _ Hj) as (? & Hlen & _).
      destruct (prefix_weak_total n (x :: h) (x :: h ++ r)) as [?|[k Hk]]; [done| |done|].
      * by apply (prefix_app_r (x :: h) (x :: h)).
      * assert (k = []) as ->; [|by rewrite Hk, app_nil_r].
        apply zlen_0. apply (f_equal zlen) in Hk. zlia.
Qed.

Lemma memmem_short h p n i :
  memmem h n = Some i → p `prefix_of` h → zlen p < i + zlen n → memmem p n = None.
Proof.
  intros Hh [k ->] Hlt. destruct (memmem p n) as [j|] eqn:E; [|done].
  rewrite (memmem_app _ k _ _ E) in Hh. injection Hh as ->.
  destruct (memmem_Some _ _ _ E) as (_ & ? & _). lia.
Qed.

(** ** SIP messages *)

(** A complete SIP header [h], ending with its empty line, that announces [n]
    bytes of content. *)
Record sip_header (h : bytes) (n : Z) : Prop := {
  sh_end : memmem h SIP_END_SEQUENCE = Some (zlen h - 4);
  sh_length : ∃ f v, memmem h SIP_CONTENT_LENGTH_FIELD = Some f ∧
    memmem (zdrop (f + 16) h) SINGLE_CRLF = Some v ∧ v < 12 ∧
    strtoul (ztake v (zdrop (f + 16) h)) = n;
  sh_range : 0 ≤ n < 2 ^ 63;
}.

Definition sip_message (m : bytes) : Prop := ∃ h n b, m = h ++ b ∧ sip_header h n ∧ zlen b = n.

Lemma find_after_header h n r :
  sip_header h n →
  find_sip_message_end (h ++ r) =
  Ok (if zlen (h ++ r) <? zlen h + n then None else Some (zlen h + n)).
Proof.
  intros [Hend (f & v & Hf & Hv & H12 & Hn) Hr]. unfold find_sip_message_end.
  rewrite (memmem_app _ r _ _ Hend), (memmem_app _ r _ _ Hf).
  change (zlen SIP_CONTENT_LENGTH_FIELD) with 16. change (zlen SIP_END_SEQUENCE) with 4.
  destruct (memmem_Some _ _ _ Hf) as (Hf0 & Hf1 & _).
  change (zlen SIP_CONTENT_LENGTH_FIELD) with 16 in Hf1.
  rewrite zdrop_app_le by lia. rewrite (memmem_app _ r _ _ Hv).
  destruct (memmem_Some _ _ _ Hv) as (Hv0 & Hv1 & _).
  rewrite (proj2 (Z.ltb_lt _ _) H12). cbn [c_assert]. run_outcome.
  assert (ztake v (zdrop (f + 16) h ++ r) = ztake v (zdrop (f + 16) h)) as ->.
  { unfold ztake. apply take_app_le. change (zlen SINGLE_CRLF) with 2 in Hv1.
    unfold zlen in Hv1. lia. }
  assert (i64 n = n) as Hi by (unfold i64; rewrite Z.mod_small; lia).
  rewrite Hn, Hi. replace (zlen h - 4 + 4 + n) with (zlen h + n) by lia.
  by destruct (_ <? _).
Qed.

Lemma find_complete m r : sip_message m → find_sip_message_end (m ++ r) = Ok (Some (zlen m)).
Proof.
  intros (h & n & b & -> & Hh & <-). rewrite <- app_assoc, (find_after_header h _ _ Hh).
  rewrite !zlen_app. zlen_pose. by rewrite (proj2 (Z.ltb_ge _ _)) by lia.
Qed.

Lemma find_incomplete m p :
  sip_message m → p `prefix_of` m → zlen p < zlen m → find_sip_message_end p = Ok None.
Proof.
  intros (h & n & b & -> & Hh & <-) Hp Hlt.
  destruct (decide (zlen p < zlen h)) as [Hs|Hl].
  - unfold find_sip_message_end.
    rewrite (memmem_short h p _ (zlen h - 4)); [done|apply Hh| |by change (zlen SIP_END_SEQUENCE) with 4; lia].
    destruct (prefix_weak_total p h (h ++ b)) as [?|[k Hk]]; [done|by apply prefix_app_r|done|].
    rewrite Hk in Hs. exfalso. zlia.
  - destruct (prefix_weak_total h p (h ++ b)) as [[k ->]|[k Hk]]; [by apply prefix_app_r|done| |].
    + rewrite (find_after_header h _ _ Hh). rewrite zlen_app in Hlt |- *.
      rewrite (proj2 (Z.ltb_lt _ _)); [done|]. rewrite zlen_app in Hlt. lia.
    + assert (k = []) as -> by (apply zlen_0; apply (f_equal zlen) in Hk; zlia).
      rewrite app_nil_r in Hk. subst p. rewrite <- (app_nil_r h), (find_after_header h _ _ Hh).
      rewrite app_nil_r. rewrite zlen_app in Hlt. by rewrite (proj2 (Z.ltb_lt _ _)) by lia.
Qed.

Lemma sip_message_pos m : sip_message m → 0 < zlen m.
Proof.
  intros (h & n & b & -> & [He _ _] & _). destruct (memmem_Some _ _ _ He) as (? & _). zlia.
Qed.

(** ** One segment in order *)

Definition u16_len (bs : bytes) : Prop := zlen bs < 65536.

(** A segment whose unread part is [d]. *)
Definition holds (g : tcp_reass_segment_t) (d : bytes) : Prop :=
  ∃ pre, g.(tsg_content) = pre ++ d ∧ g.(tsg_offset) = zlen pre ∧ g.(tsg_length) = zlen d ∧
    u16_len (pre ++ d).

Lemma holds_read g d :
  holds g d → read_bytes g.(tsg_length) (zdrop g.(tsg_offset) g.(tsg_content)) = Ok d.
Proof.
  intros (pre & -> & -> & -> & _). rewrite zdrop_app by done.
  rewrite <- (app_nil_r d) at 2. by apply read_bytes_app.
Qed.

Lemma ztake_all {A} n (l : list A) : zlen l ≤ n → ztake n l = l.
Proof. intros. unfold ztake. apply take_ge. unfold zlen in *. lia. Qed.

(** What a round of the loop does with the next segment in sequence: the data
    goes behind what was collected, and only the part after [checked], which is
    this segment alone, is searched for the end of a message. *)
Lemma collect_round realloc_ok g d rest exp content len used e :
  (∀ n, realloc_ok n = true) → holds g d → g.(tsg_seqno) = e → used = zlen content →
  0 ≤ used < 65536 →
  ∀ old, ztake used old = content →
  ∀ oc, (oc = Some old ∨ oc = None ∧ old = []) →
  ∃ block len', ztake (used + zlen d) block = content ++ d ∧
  tcp_collect realloc_ok (g :: rest) exp (Mktcp_loop oc len used used e) =
    (endfound ← find_sip_message_end d;
     match endfound with
     | Some k =>
         _ ← c_assert (k <=? zlen d);
         _ ← c_assert (0 <? k);
         if zlen d =? k
         then Ok (LoopReturn 1, rest, u32 (exp + k),
                  Mktcp_loop (Some block) (u16 (used + zlen d)) used used e)
         else Ok (LoopReturn 1,
                  Mktcp_reass_segment_t g.(tsg_key) (u32 (g.(tsg_seqno) + k))
                    (u16 (g.(tsg_offset) + k)) (u16 (zlen d - k)) g.(tsg_content) :: rest,
                  u32 (exp + k), Mktcp_loop (Some block) (u16 (used + k)) used used e)
     | None =>
         tcp_collect realloc_ok rest exp
           (Mktcp_loop (Some block) len' (u16 (used + zlen d)) (u16 (used + zlen d))
              (u32 (e + zlen d)))
     end).
Proof.
  intros Hra Hg He Hused Hu old Hold oc Hoc.
  pose proof (holds_read g d Hg) as Hread. destruct Hg as (pre & Hc & Hoff & Hgl & H16).
  assert (default [] oc = old) as Hoc' by (destruct Hoc as [->|[-> ->]]; done).
  eexists (ztake used old ++ d ++ zdrop (used + zlen d) old), _. split.
  - rewrite Hold, app_assoc. apply ztake_app. rewrite zlen_app. lia.
  - cbn [tcp_collect tl_expseqno tl_contused tl_content tl_len tl_checked].
    rewrite He, seq_cmp_refl. cbn [Z.ltb Z.compare]. rewrite Hra, andb_false_r, Hread.
    run_outcome. rewrite Hoc', Hgl, Z.sub_diag, Z.add_0_l.
    unfold u16_len in H16. rewrite zlen_app in H16. zlen_pose.
    rewrite (u16_id (zlen d)) by lia.
    assert (ztake (zlen d) (zdrop used (ztake used old ++ d ++ zdrop (used + zlen d) old)) = d) as ->.
    { rewrite zdrop_app by (by rewrite Hold). by apply ztake_app. }
    destruct (find_sip_message_end d) as [[k|]| |]; run_outcome; try done.
    replace (k + used - used) with k by lia. done.
Qed.

(** A stream with the single segment [g]. *)
Definition only (g : tcp_reass_segment_t) (s : tcp_reassemble_stream_t) : Prop :=
  s.(tcs_segments) = [g] ∧ g.(tsg_seqno) = s.(tcs_expectedseqno) ∧
  0 ≤ s.(tcs_expectedseqno) < 2 ^ 32.

Lemma only_sorted {HS : HashSort} g s :
  only g s → (if s.(tcs_sorted) then s.(tcs_segments) else hash_sort tcpseg_le s.(tcs_segments)) = [g].
Proof.
  intros (-> & _). destruct (tcs_sorted s); [done|]. apply hash_sort_stable. repeat constructor.
Qed.

(** One message at the front of the only segment is handed out. *)
Lemma next_message {HS : HashSort} realloc_ok s g m rest content len :
  (∀ n, realloc_ok n = true) → only g s → holds g (m ++ rest) → sip_message m →
  ∃ block s', get_next_tcp_reassembled realloc_ok s content len = Ok (1, Some block, zlen m, s') ∧
    ztake (zlen m) block = m ∧
    s'.(tcs_expectedseqno) = u32 (s.(tcs_expectedseqno) + zlen m) ∧
    (rest = [] → s'.(tcs_segments) = []) ∧
    (rest ≠ [] → ∃ g', only g' s' ∧ holds g' rest).
Proof.
  intros Hra Ho Hg Hm. pose proof (sip_message_pos m Hm) as Hpos.
  pose proof (only_sorted g s Ho) as Hsort. destruct Ho as (Hs & Hseq & Hexp).
  unfold get_next_tcp_reassembled. rewrite Hsort.
  destruct (collect_round realloc_ok g (m ++ rest) [] s.(tcs_expectedseqno) [] len 0
    s.(tcs_expectedseqno) Hra Hg Hseq eq_refl ltac:(done) (default [] content) eq_refl
    content) as (block & len' & Hblk & ->).
  { destruct content; [by left|by right]. }
  destruct Hg as (pre & Hc & Hoff & Hgl & H16). unfold u16_len in H16. rewrite !zlen_app in H16.
  rewrite (find_complete m rest Hm). run_outcome. rewrite zlen_app in *. zlen_pose.
  rewrite (proj2 (Z.leb_le _ _)), (proj2 (Z.ltb_lt _ _)) by lia. cbn [c_assert]. run_outcome.
  assert (ztake (zlen m) block = m) as Hm1.
  { pose proof (ztake_zdrop (0 + (zlen m + zlen rest)) block) as Hb. rewrite Hblk in Hb.
    rewrite app_nil_l, <- app_assoc in Hb. rewrite <- Hb. by apply ztake_app. }
  destruct (Z.eqb_spec (zlen m + zlen rest) (zlen m)) as [E|E]; run_outcome.
  - assert (rest = []) as Hr by (apply zlen_0; lia).
    eexists block, _. cbn [tl_content tl_len]. rewrite Z.add_0_l, u16_id, E by lia.
    split; [done|]. split_and!; try done.
  - eexists block, _. cbn [tl_content tl_len]. rewrite Z.add_0_l, u16_id by lia.
    split; [done|]. split_and!; [done|done|intros ->; rewrite zlen_nil in E; lia|].
    intros _. eexists. split.
    + split; [done|]. cbn [tsg_seqno tcs_expectedseqno set_tcs_segments]. rewrite Hseq.
      split; [done|apply u32_range].
    + exists (pre ++ m). cbn [tsg_content tsg_offset tsg_length].
      rewrite Hc, Hoff, !u16_id, zlen_app by lia. unfold u16_len. rewrite !zlen_app, <- app_assoc.
      split_and!; [done|lia|lia|lia].
Qed.

(** The receiving loop: [parse_next_sip_message] until there is no message. *)
Fixpoint drain {HS : HashSort} (realloc_ok : Z → bool) (fuel : nat) (s : tcp_reassemble_stream_t)
    (content : option bytes) (len : Z) : outcome (list bytes * tcp_reassemble_stream_t) :=
  match fuel with
  | O => Ok ([], s)
  | S fuel =>
      '(rc, c, l, s') ← get_next_tcp_reassembled realloc_ok s content len;
      if rc =? 1
      then '(ms, s'') ← drain realloc_ok fuel s' c l; Ok (ztake l (default [] c) :: ms, s'')
      else Ok ([], s')
  end.

Lemma drain_step {HS : HashSort} realloc_ok fuel s content len c l s' :
  get_next_tcp_reassembled realloc_ok s content len = Ok (1, c, l, s') →
  drain realloc_ok (S fuel) s content len =
  ('(ms, s'') ← drain realloc_ok fuel s' c l; Ok (ztake l (default [] c) :: ms, s'')).
Proof. intros H. cbn [drain]. by rewrite H. Qed.

Lemma next_empty {HS : HashSort} realloc_ok s content len :
  s.(tcs_segments) = [] →
  ∃ s', get_next_tcp_reassembled realloc_ok s content len = Ok (0, content, 0, s') ∧
    s'.(tcs_segments) = [] ∧ s'.(tcs_expectedseqno) = s.(tcs_expectedseqno).
Proof.
  intros Hs. unfold get_next_tcp_reassembled. rewrite Hs.
  assert ((if tcs_sorted s then [] else hash_sort tcpseg_le []) = []) as ->
    by (destruct (tcs_sorted s); [done|]; apply hash_sort_stable; constructor).
  cbn [tcp_collect]. run_outcome. cbn [tl_contused tl_expseqno tl_content].
  rewrite !Z.ltb_irrefl. cbn [orb]. eexists. split; [reflexivity|done].
Qed.

Lemma drain_messages {HS : HashSort} realloc_ok ms : ∀ s g content len,
  (∀ n, realloc_ok n = true) → ms ≠ [] → Forall sip_message ms → only g s → holds g (concat ms) →
  ∃ s', drain realloc_ok (S (length ms)) s content len = Ok (ms, s') ∧
    s'.(tcs_segments) = [] ∧
    s'.(tcs_expectedseqno) = u32 (s.(tcs_expectedseqno) + zlen (concat ms)).
Proof.
  induction ms as [|m ms IH]; intros s g content len Hra Hne Hms Ho Hg; [done|].
  apply Forall_cons in Hms as [Hm Hms].
  destruct (next_message realloc_ok s g m (concat ms) content len Hra Ho Hg Hm)
    as (block & s1 & Hnext & Hblk & Hexp & Hempty & Hmore).
  rewrite (drain_step _ _ _ _ _ _ _ _ Hnext).
  change (concat (m :: ms)) with (m ++ concat ms). rewrite zlen_app.
  assert (∃ s2, drain realloc_ok (length (m :: ms)) s1 (Some block) (zlen m) = Ok (ms, s2) ∧
            s2.(tcs_segments) = [] ∧
            s2.(tcs_expectedseqno) = u32 (s1.(tcs_expectedseqno) + zlen (concat ms)))
    as (s2 & -> & Hs2 & He2).
  { destruct ms as [|m2 ms].
    - destruct (next_empty realloc_ok s1 (Some block) (zlen m) (Hempty eq_refl))
        as (s2 & He & Hs2 & He2).
      exists s2. cbn [drain length]. rewrite He. run_outcome. split_and!; [done|done|].
      rewrite He2, Hexp, u32_add_l. f_equal. simpl. rewrite zlen_nil. lia.
    - destruct Hmore as (g' & Ho' & Hg').
      { apply Forall_cons in Hms as [Hm2 _]. pose proof (sip_message_pos _ Hm2). intros E.
        apply (f_equal zlen) in E. change (concat (m2 :: ms)) with (m2 ++ concat ms) in E. zlia. }
      apply (IH s1 g'); done. }
  run_outcome. exists s2. change (default [] (Some block)) with block. rewrite Hblk. split_and!; [done|done|].
  by rewrite He2, Hexp, u32_add_l, <- Z.add_assoc.
Qed.

(** ** A segment that does not end a message *)

(** Storing a segment at or ahead of the expected number, when none is there and
    it is not exactly a message. *)
Lemma update_stores s d n :
  0 ≤ s.(tcs_expectedseqno) < 2 ^ 32 → 0 ≤ n < 2 ^ 31 →
  find_segment (u32 (s.(tcs_expectedseqno) + n)) s.(tcs_segments) = None →
  find_sip_message_end d = Ok None →
  update_tcp_reassemble_stream s d (u32 (s.(tcs_expectedseqno) + n)) =
  Ok (0, set_tcs_segments (s.(tcs_segments) ++
           [Mktcp_reass_segment_t (u32 (s.(tcs_expectedseqno) + n)) (u32 (s.(tcs_expectedseqno) + n))
              0 (zlen d) d]) false s.(tcs_expectedseqno) s).
Proof.
  intros He Hn Hfind Hend. unfold update_tcp_reassemble_stream.
  destruct (seq_cmp_ahead _ _ He Hn) as [Hc _].
  destruct (length d); cbn [update_tcp]; rewrite Hfind, Hc, (proj2 (Z.ltb_ge _ _)) by lia;
    rewrite Hend; run_outcome; by rewrite andb_false_r.
Qed.

(** The fast path: the whole segment is a message in sequence. *)
Lemma update_fast s m :
  0 ≤ s.(tcs_expectedseqno) < 2 ^ 32 → sip_message m →
  find_segment s.(tcs_expectedseqno) s.(tcs_segments) = None →
  update_tcp_reassemble_stream s m s.(tcs_expectedseqno) =
  Ok (1, set_tcs_segments s.(tcs_segments) s.(tcs_sorted)
           (u32 (s.(tcs_expectedseqno) + zlen m)) s).
Proof.
  intros He Hm Hfind. unfold update_tcp_reassemble_stream.
  pose proof (find_complete m [] Hm) as Hf. rewrite app_nil_r in Hf.
  destruct (length m); cbn [update_tcp]; rewrite Hfind, seq_cmp_refl, Hf; cbn [Z.ltb Z.compare];
    run_outcome; cbn [Z.eqb andb]; by rewrite Z.eqb_refl.
Qed.

(** A segment as [update_tcp_reassemble_stream] stores it. *)
Definition stored (seqno : Z) (d : bytes) : tcp_reass_segment_t :=
  Mktcp_reass_segment_t seqno seqno 0 (zlen d) d.

Lemma stored_holds seqno d : u16_len d → holds (stored seqno d) d.
Proof. intros H. by exists []. Qed.

(** A single incomplete segment is taken out and put back. *)
Lemma next_incomplete {HS : HashSort} realloc_ok s d :
  (∀ n, realloc_ok n = true) → 0 ≤ s.(tcs_expectedseqno) < 2 ^ 32 → 0 < zlen d → u16_len d →
  s.(tcs_segments) = [stored s.(tcs_expectedseqno) d] → find_sip_message_end d = Ok None →
  ∃ c s', get_next_tcp_reassembled realloc_ok s None 0 = Ok (0, c, 0, s') ∧
    s'.(tcs_segments) = s.(tcs_segments) ∧ s'.(tcs_expectedseqno) = s.(tcs_expectedseqno).
Proof.
  intros Hra He Hpos H16 Hs Hend. unfold get_next_tcp_reassembled.
  assert ((if tcs_sorted s then tcs_segments s else hash_sort tcpseg_le (tcs_segments s))
          = [stored s.(tcs_expectedseqno) d]) as ->
    by (rewrite Hs; destruct (tcs_sorted s); [done|]; apply hash_sort_stable; repeat constructor).
  destruct (collect_round realloc_ok (stored s.(tcs_expectedseqno) d) d [] s.(tcs_expectedseqno) []
    0 0 s.(tcs_expectedseqno) Hra (stored_holds _ _ H16) eq_refl eq_refl ltac:(done) [] eq_refl
    None ltac:(by right)) as (block & len' & Hblk & ->).
  rewrite Hend. run_outcome. cbn [tcp_collect]. run_outcome.
  cbn [tl_contused tl_content tl_expseqno]. unfold u16_len in H16.
  rewrite Z.add_0_l in Hblk. rewrite Z.add_0_l, u16_id by lia.
  rewrite (proj2 (Z.ltb_lt 0 _)) by lia. cbn [orb].
  change (default [] (Some block)) with block. rewrite Hblk, app_nil_l.
  pose proof (update_stores (set_tcs_segments [] true (tcs_expectedseqno s) s) d 0 He ltac:(done) eq_refl Hend) as Hu.
  cbn [tcs_expectedseqno set_tcs_segments] in Hu. rewrite Z.add_0_r, u32_id in Hu by lia.
  rewrite Hu. run_outcome. eexists _, _. split; [done|]. cbn. by rewrite Hs.
Qed.

(** Two segments that make up a message, the second of which does not look like
    one, are joined, recognised as a message and dropped. *)
Lemma next_drops_split {HS : HashSort} realloc_ok s d1 d2 :
  (∀ n, realloc_ok n = true) → 0 ≤ s.(tcs_expectedseqno) < 2 ^ 32 →
  0 < zlen d1 → 0 < zlen d2 → u16_len (d1 ++ d2) → sip_message (d1 ++ d2) →
  find_sip_message_end d2 = Ok None →
  s.(tcs_segments) = [stored s.(tcs_expectedseqno) d1;
                      stored (u32 (s.(tcs_expectedseqno) + zlen d1)) d2] →
  ∃ c s', get_next_tcp_reassembled realloc_ok s None 0 = Ok (0, c, 0, s') ∧
    s'.(tcs_segments) = [] ∧
    s'.(tcs_expectedseqno) = u32 (s.(tcs_expectedseqno) + zlen (d1 ++ d2)).
Proof.
  intros Hra He Hp1 Hp2 H16 Hm Hend2 Hs.
  assert (find_sip_message_end d1 = Ok None) as Hend1.
  { apply (find_incomplete (d1 ++ d2)); [done|by apply prefix_app_r|rewrite zlen_app; lia]. }
  unfold u16_len in H16. rewrite zlen_app in H16. unfold get_next_tcp_reassembled.
  assert ((if tcs_sorted s then tcs_segments s else hash_sort tcpseg_le (tcs_segments s))
          = tcs_segments s) as ->.
  { rewrite Hs. destruct (tcs_sorted s); [done|]. apply hash_sort_stable.
    repeat constructor. unfold tcpseg_le. simpl.
    rewrite (proj2 (seq_cmp_ahead _ (zlen d1) He ltac:(lia))). lia. }
  rewrite Hs.
  destruct (collect_round realloc_ok (stored s.(tcs_expectedseqno) d1) d1
    [stored (u32 (s.(tcs_expectedseqno) + zlen d1)) d2] s.(tcs_expectedseqno) []
    0 0 s.(tcs_expectedseqno) Hra ltac:(apply stored_holds; unfold u16_len; lia) eq_refl eq_refl
    ltac:(done) [] eq_refl None ltac:(by right)) as (b1 & len1 & Hb1 & ->).
  rewrite Hend1. run_outcome. rewrite !Z.add_0_l in *. rewrite (u16_id (zlen d1)) by lia.
  destruct (collect_round realloc_ok (stored (u32 (s.(tcs_expectedseqno) + zlen d1)) d2) d2 []
    s.(tcs_expectedseqno) d1 len1 (zlen d1) (u32 (s.(tcs_expectedseqno) + zlen d1)) Hra
    ltac:(apply stored_holds; unfold u16_len; lia) eq_refl eq_refl ltac:(lia) b1 Hb1 (Some b1)
    ltac:(by left)) as (b2 & len2 & Hb2 & ->).
  rewrite Hend2. run_outcome. cbn [tcp_collect]. run_outcome.
  cbn [tl_contused tl_content tl_expseqno]. rewrite u16_id by lia.
  rewrite (proj2 (Z.ltb_lt 0 _)) by lia. cbn [orb].
  change (default [] (Some b2)) with b2. rewrite Hb2.
  pose proof (update_fast (set_tcs_segments [] true (tcs_expectedseqno s) s) (d1 ++ d2) He Hm eq_refl) as Hu.
  cbn [tcs_expectedseqno set_tcs_segments] in Hu. rewrite Hu. run_outcome. by eexists _, _.
Qed.

(** * Theorems *)

(** [seq_cmp], written with two unsigned branches, is the signed 32-bit
    difference of the two numbers; so for numbers less than 2^31 apart it gives
    their distance, with its sign, also across the wrap at 2^32. *)
Theorem seq_cmp_correct (a b : Z) :
  0 ≤ a < 2 ^ 32 → 0 ≤ b < 2 ^ 32 →
  seq_cmp a b = i32 (a - b) ∧
  ∀ n, 0 ≤ n < 2 ^ 31 → seq_cmp (u32 (a + n)) a = n ∧ seq_cmp a (u32 (a + n)) = - n.
Proof.
  intros Ha Hb. split; [by apply seq_cmp_signed|]. intros n Hn. by apply seq_cmp_ahead.
Qed.

(** On a SIP message followed by anything, [find_sip_message_end] returns
    the end of the message; on any strict prefix of a message it returns NULL. *)
Theorem sip_message_end_correct (m : bytes) :
  sip_message m →
  (∀ r, find_sip_message_end (m ++ r) = Ok (Some (zlen m))) ∧
  (∀ p, p `prefix_of` m → zlen p < zlen m → find_sip_message_end p = Ok None).
Proof.
  intros Hm. split; [intros r; by apply find_complete|intros p; by apply find_incomplete].
Qed.

(** Several SIP messages in one TCP segment that arrives in sequence are
    handed out one by one, complete and in order, and the expected sequence
    number ends behind the segment. *)
Theorem segment_messages_delivered {HS : HashSort} (realloc_ok : Z → bool) (ms : list bytes)
    (s : tcp_reassemble_stream_t) (content : option bytes) (len : Z) :
  (∀ n, realloc_ok n = true) → (2 ≤ length ms)%nat → Forall sip_message ms →
  zlen (concat ms) < 65536 → s.(tcs_segments) = [] → 0 ≤ s.(tcs_expectedseqno) < 2 ^ 32 →
  ∃ s1 s2, update_tcp_reassemble_stream s (concat ms) s.(tcs_expectedseqno) = Ok (0, s1) ∧
    drain realloc_ok (S (length ms)) s1 content len = Ok (ms, s2) ∧
    s2.(tcs_segments) = [] ∧
    s2.(tcs_expectedseqno) = u32 (s.(tcs_expectedseqno) + zlen (concat ms)).
Proof.
  intros Hra H2 Hms H16 Hs He.
  destruct ms as [|m [|m2 ms]]; [simpl in H2; lia..|].
  assert (update_tcp_reassemble_stream s (concat (m :: m2 :: ms)) s.(tcs_expectedseqno) =
    Ok (0, set_tcs_segments [stored s.(tcs_expectedseqno) (concat (m :: m2 :: ms))] false
             s.(tcs_expectedseqno) s)) as Hu.
  { pose proof Hms as Hms'. apply Forall_cons in Hms' as [Hm Hms'].
    apply Forall_cons in Hms' as [Hm2 _]. pose proof (sip_message_pos _ Hm2).
    change (concat (m :: m2 :: ms)) with (m ++ m2 ++ concat ms).
    unfold update_tcp_reassemble_stream. destruct (length (m ++ m2 ++ concat ms));
      cbn [update_tcp]; rewrite Hs; cbn [find_segment]; rewrite seq_cmp_refl, find_complete by done;
      cbn [Z.ltb Z.compare Z.eqb andb]; run_outcome;
      rewrite (proj2 (Z.eqb_neq (zlen m) _)) by zlia; done. }
  rewrite Hu. eexists _.
  destruct (drain_messages realloc_ok (m :: m2 :: ms)
    (set_tcs_segments [stored s.(tcs_expectedseqno) (concat (m :: m2 :: ms))] false
       s.(tcs_expectedseqno) s) (stored s.(tcs_expectedseqno) (concat (m :: m2 :: ms))) content len)
    as (s2 & Hd & Hs2 & He2); [done|done|done|by split; [|split]|by apply stored_holds|].
  exists s2. split; [done|]. split_and!; done.
Qed.

(** A SIP message that arrives in two TCP segments, in sequence, is lost
    (unless its second part looks like a message of its own): each segment is
    accepted and kept, but once both are there [get_next_tcp_reassembled] reports
    that it has no message, drops the segments and moves the expected sequence
    number behind them. *)
Theorem split_message_lost {HS : HashSort} (realloc_ok : Z → bool) (s : tcp_reassemble_stream_t) (d1 d2 : bytes) :
  (∀ n, realloc_ok n = true) → s.(tcs_segments) = [] → 0 ≤ s.(tcs_expectedseqno) < 2 ^ 32 →
  d1 ≠ [] → d2 ≠ [] → zlen (d1 ++ d2) < 65536 → sip_message (d1 ++ d2) →
  find_sip_message_end d2 = Ok None →
  ∃ s1 c1 s2 s3 c2 s4,
    update_tcp_reassemble_stream s d1 s.(tcs_expectedseqno) = Ok (0, s1) ∧
    get_next_tcp_reassembled realloc_ok s1 None 0 = Ok (0, c1, 0, s2) ∧
    update_tcp_reassemble_stream s2 d2 (u32 (s.(tcs_expectedseqno) + zlen d1)) = Ok (0, s3) ∧
    get_next_tcp_reassembled realloc_ok s3 None 0 = Ok (0, c2, 0, s4) ∧
    s4.(tcs_segments) = [] ∧
    s4.(tcs_expectedseqno) = u32 (s.(tcs_expectedseqno) + zlen (d1 ++ d2)).
Proof.
  intros Hra Hs He Hn1 Hn2 H16 Hm Hend2.
  assert (0 < zlen d1) as Hp1 by (destruct d1; [done|zlia]).
  assert (0 < zlen d2) as Hp2 by (destruct d2; [done|zlia]).
  assert (find_sip_message_end d1 = Ok None) as Hend1.
  { apply (find_incomplete (d1 ++ d2)); [done|by apply prefix_app_r|rewrite zlen_app; lia]. }
  rewrite zlen_app in H16.
  pose proof (update_stores s d1 0 He ltac:(done)) as Hu1.
  rewrite Z.add_0_r, (u32_id (tcs_expectedseqno s)), Hs in Hu1 by lia. rewrite Hu1 by done.
  set (s1 := set_tcs_segments _ false _ s).
  destruct (next_incomplete realloc_ok s1 d1) as (c1 & s2 & Hn & Hs2 & He2);
    [done|done|done|unfold u16_len; lia|done|done|].
  assert (tcs_expectedseqno s2 = tcs_expectedseqno s) as He2' by done.
  pose proof (update_stores s2 d2 (zlen d1)) as Hu2. rewrite He2', Hs2 in Hu2.
  destruct (seq_cmp_ahead _ (zlen d1) He ltac:(lia)) as [Hc _].
  assert (find_segment (u32 (tcs_expectedseqno s + zlen d1)) (tcs_segments s1) = None) as Hf.
  { cbn. rewrite (proj2 (Z.eqb_neq (tcs_expectedseqno s) _)); [done|]. intros E.
    rewrite <- E, seq_cmp_refl in Hc. lia. }
  specialize (Hu2 He ltac:(lia) Hf Hend2).
  set (s3 := set_tcs_segments _ false _ s2) in Hu2.
  destruct (next_drops_split realloc_ok s3 d1 d2) as (c2 & s4 & Hn4 & Hs4 & He4);
    [done|done|done|done|unfold u16_len; rewrite zlen_app; lia|done|done|done|].
  exists s1, c1, s2, s3, c2, s4. split_and!; done.
Qed.

(** Every key in the table is the 40 bytes of a stream identity. *)
Definition keys_ok (reass : tcp_reassembler_t) : Prop :=
  Forall (λ e, zlen (fst e) = 40) reass.(tcr_knownstreams).

Lemma zlen_streamid id : zlen (streamid_memory id) = 40.
Proof.
  assert (∀ l : bytes, zlen (ztake 16 (l ++ replicate 16 0)) = 16) as H.
  { intros l. apply zlen_ztake. rewrite zlen_app.
    change (zlen (replicate 16 0)) with 16. zlen_pose. lia. }
  unfold streamid_memory. by rewrite !zlen_app, !H, !zlen_le_bytes.
Qed.

Lemma find_stream_short key l :
  Forall (λ e : bytes * tcp_reassemble_stream_t, zlen (fst e) = 40) l → zlen key ≠ 40 →
  find_stream key l = None.
Proof.
  intros Hl Hk. induction Hl as [|[k s] l H _ IH]; [done|]. cbn [find_stream].
  rewrite decide_False; [done|]. intros ->. done.
Qed.

Lemma purge_keys reass ts : keys_ok reass → keys_ok (purge_inactive_tcp_streams reass ts).
Proof.
  intros H. unfold purge_inactive_tcp_streams, keys_ok in *.
  destruct (_ =? 0); [done|]. destruct (_ <? _); [done|]. simpl.
  apply Forall_forall. intros e He. apply list_elem_of_filter in He as [_ He].
  rewrite Forall_forall in H. by apply H.
Qed.

(** C40: [get_tcp_reassemble_stream] never finds a stream.  Whatever the table
    holds and wherever the caller's identity structure lies, a packet without RST
    gets a new stream with no segments that expects the packet's own sequence
    number, and the table grows by that stream; so no two packets of a connection
    ever meet in one stream. *)
Theorem tcp_stream_never_found (reass : tcp_reassembler_t) (id_ptr : Z) (id : tcp_streamid_t)
    (tcp : tcp_header) (ts tcprem : Z) :
  keys_ok reass → tcp.(th_rst) = false → 0 ≤ tcp.(th_seq) < 2 ^ 32 →
  ∃ s reass', get_tcp_reassemble_stream reass id_ptr id tcp ts tcprem = (Some s, reass') ∧
    s.(tcs_segments) = [] ∧
    s.(tcs_expectedseqno) = (if tcp.(th_syn) then u32 (tcp.(th_seq) + 1) else tcp.(th_seq)) ∧
    reass'.(tcr_knownstreams) = (purge_inactive_tcp_streams reass ts).(tcr_knownstreams)
                                 ++ [(streamid_memory id, s)] ∧
    keys_ok reass'.
Proof.
  intros Hk Hr Hseq. unfold get_tcp_reassemble_stream.
  rewrite find_stream_short by (done || by rewrite zlen_le_bytes). rewrite Hr.
  assert (∀ s, keys_ok (Mktcp_reassembler_t
    (tcr_knownstreams (purge_inactive_tcp_streams reass ts) ++ [(streamid_memory id, s)])
    (tcr_nextpurge (purge_inactive_tcp_streams reass ts)))) as Hk'.
  { intros s. apply Forall_app. split; [by apply purge_keys|].
    apply Forall_singleton, zlen_streamid. }
  destruct (th_syn tcp); eexists _, _; (split; [done|]); (split; [done|]);
    (split; [|split; [done|by apply Hk']]); [done|].
  cbn. rewrite u32_add_l. replace (th_seq tcp - 1 + 1) with (th_seq tcp) by lia. by apply u32_id.
Qed.

(** A Content-Length value of twelve or more bytes (leading blanks count)
    in a new segment fails an assertion. *)
Theorem long_content_length_aborts (s : tcp_reassemble_stream_t) (content : bytes)
    (seqno c f v : Z) :
  find_segment seqno s.(tcs_segments) = None → 0 ≤ seq_cmp seqno s.(tcs_expectedseqno) →
  memmem content SIP_END_SEQUENCE = Some c → memmem content SIP_CONTENT_LENGTH_FIELD = Some f →
  memmem (zdrop (f + 16) content) SINGLE_CRLF = Some v → 12 ≤ v →
  update_tcp_reassemble_stream s content seqno = Abort.
Proof.
  intros Hfind Hc Hend Hf Hv H12.
  assert (find_sip_message_end content = Abort) as Ha.
  { unfold find_sip_message_end. rewrite Hend, Hf. change (zlen SIP_CONTENT_LENGTH_FIELD) with 16.
    by rewrite Hv, (proj2 (Z.ltb_ge v 12) H12). }
  unfold update_tcp_reassemble_stream.
  destruct (length content); cbn [update_tcp];
    by rewrite Hfind, (proj2 (Z.ltb_ge _ 0) Hc), Ha.
Qed.

(** * Examples *)

#[local] Existing Instance insertion_hash_sort.

Definition crlf (s : string) : bytes := of_string s ++ SINGLE_CRLF.

Definition sample_invite : bytes :=
  crlf "INVITE sip:b SIP/2.0" ++ crlf "Content-Length: 5" ++ SINGLE_CRLF ++ of_string "v=0 o".
Definition sample_bye : bytes :=
  crlf "BYE sip:b SIP/2.0" ++ crlf "Content-Length: 0" ++ SINGLE_CRLF.

Ltac solve_sip_message h n b :=
  exists h, n, b; split; [by vm_compute|]; split; [|by vm_compute];
  split; [by vm_compute| |done]; eexists _, _;
  split; [vm_compute; reflexivity|]; split; [vm_compute; reflexivity|]; split; by vm_compute.

Lemma sample_invite_message : sip_message sample_invite.
Proof. solve_sip_message (take 43 sample_invite) 5 (drop 43 sample_invite). Qed.
Lemma sample_bye_message : sip_message sample_bye.
Proof. solve_sip_message sample_bye 0 (@nil Z). Qed.

Definition sample_tcpid : tcp_streamid_t := Mktcp_streamid_t [10; 0; 0; 1] [10; 0; 0; 2] 5060 5060 2.

(** A stream that expects sequence number 2^32 - 10. *)
Definition sample_stream : tcp_reassemble_stream_t :=
  create_new_tcp_reassemble_stream sample_tcpid 4294967285.

Lemma seq_cmp_correct_witness :
  seq_cmp 5 4294967290 = 11 ∧ seq_cmp 4294967290 5 = -11.
Proof. apply (proj2 (seq_cmp_correct 4294967290 0 ltac:(done) ltac:(done)) 11). done. Defined.

Lemma sip_message_end_correct_witness :
  find_sip_message_end (sample_invite ++ sample_bye) = Ok (Some 48) ∧
  find_sip_message_end (take 47 sample_invite) = Ok None.
Proof.
  destruct (sip_message_end_correct sample_invite sample_invite_message) as [H1 H2].
  split; [apply (H1 sample_bye)|]. apply H2; [|by vm_compute].
  exists (drop 47 sample_invite). by vm_compute.
Defined.

Lemma segment_messages_delivered_witness :
  ∃ s1 s2, update_tcp_reassemble_stream sample_stream (concat [sample_invite; sample_bye; sample_invite])
      sample_stream.(tcs_expectedseqno) = Ok (0, s1) ∧
    drain (λ _, true) 4 s1 None 0 = Ok ([sample_invite; sample_bye; sample_invite], s2) ∧
    s2.(tcs_segments) = [] ∧ s2.(tcs_expectedseqno) = 126.
Proof.
  apply (segment_messages_delivered (λ _, true) [sample_invite; sample_bye; sample_invite] sample_stream None 0);
    [done|simpl; lia| |by vm_compute|done|done].
  apply Forall_cons. split; [apply sample_invite_message|].
  apply Forall_cons. split; [apply sample_bye_message|].
  apply Forall_singleton, sample_invite_message.
Defined.

Lemma split_message_lost_witness :
  ∃ s1 c1 s2 s3 c2 s4,
    update_tcp_reassemble_stream sample_stream (take 30 sample_invite) 4294967286 = Ok (0, s1) ∧
    get_next_tcp_reassembled (λ _, true) s1 None 0 = Ok (0, c1, 0, s2) ∧
    update_tcp_reassemble_stream s2 (drop 30 sample_invite) 20 = Ok (0, s3) ∧
    get_next_tcp_reassembled (λ _, true) s3 None 0 = Ok (0, c2, 0, s4) ∧
    s4.(tcs_segments) = [] ∧ s4.(tcs_expectedseqno) = 38.
Proof.
  apply (split_message_lost (λ _, true) sample_stream (take 30 sample_invite) (drop 30 sample_invite));
    [done|done|done|done|done|by vm_compute| |by vm_compute].
  rewrite take_drop. apply sample_invite_message.
Defined.

Lemma tcp_stream_never_found_witness :
  ∃ s reass', get_tcp_reassemble_stream
      (Mktcp_reassembler_t [(streamid_memory sample_tcpid, sample_stream)] 0) 140737488347136
      sample_tcpid (Mktcp_header 77 false false false) 1000 20 = (Some s, reass') ∧
    s.(tcs_segments) = [] ∧ length reass'.(tcr_knownstreams) = 2%nat.
Proof.
  destruct (tcp_stream_never_found (Mktcp_reassembler_t [(streamid_memory sample_tcpid, sample_stream)] 0)
    140737488347136 sample_tcpid (Mktcp_header 77 false false false) 1000 20)
    as (s & r & H1 & H2 & _ & H4 & _).
  - apply Forall_singleton, zlen_streamid.
  - done.
  - done.
  - exists s, r. split; [exact H1|split; [exact H2|]]. rewrite H4. done.
Defined.

Lemma long_content_length_aborts_witness :
  update_tcp_reassemble_stream sample_stream
    (crlf "BYE sip:b SIP/2.0" ++ crlf "Content-Length:             0" ++ SINGLE_CRLF) 4294967286 = Abort.
Proof.
  eapply long_content_length_aborts;
    [done|done|vm_compute; reflexivity|vm_compute; reflexivity|vm_compute; reflexivity|done].
Defined.
