(* ===== verification/Publish.v ===== *)
(** * Messages between the collector's threads (src/src/collector/collector_publish.h)

    What the capture and synchronisation threads publish to the sequence
    trackers and to the forwarder, and the jobs a tracker hands to the encoder
    workers (src/src/collector/collector_base.h). *)

From S2P Require Import Prelude Intercept.

Inductive openli_export_type : Type :=
  | OPENLI_EXPORT_HALT_WORKER
  | OPENLI_EXPORT_PACKET_FIN
  | OPENLI_EXPORT_MEDIATOR
  | OPENLI_EXPORT_FLAG_MEDIATORS
  | OPENLI_EXPORT_RECONNECT_ALL_MEDIATORS
  | OPENLI_EXPORT_DROP_ALL_MEDIATORS
  | OPENLI_EXPORT_DROP_SINGLE_MEDIATOR
  | OPENLI_EXPORT_IPCC
  | OPENLI_EXPORT_IPMMCC
  | OPENLI_EXPORT_IPIRI
  | OPENLI_EXPORT_IPMMIRI
  | OPENLI_EXPORT_INTERCEPT_DETAILS
  | OPENLI_EXPORT_INTERCEPT_OVER
  | OPENLI_EXPORT_HALT
  | OPENLI_EXPORT_RECONFIGURE_INTERCEPTS
  | OPENLI_EXPORT_UMTSCC
  | OPENLI_EXPORT_UMTSIRI
  | OPENLI_EXPORT_RAW_SYNC
  | OPENLI_EXPORT_INTERCEPT_CHANGED
  | OPENLI_EXPORT_PROVISIONER_MESSAGE
  | OPENLI_EXPORT_EMAILCC
  | OPENLI_EXPORT_EMAILIRI.

#[global] Instance openli_export_type_eq_dec : EqDecision openli_export_type.
Proof. solve_decision. Defined.

(** [published_intercept_msg_t] *)
Record published_intercept_msg_t : Type := Mkpublished_intercept_msg_t {
  pc_liid : cstring;
  pc_authcc : cstring;
  pc_delivcc : cstring;
  pc_seqtrackerid : Z;
  pc_encryptmethod : Z;
  pc_encryptkey : cstring;
}.

(** What the job structures of the union have in common: the LIID, the CIN, and
    the content that is to be encoded. *)
Record job_data : Type := Mkjob_data {
  jd_liid : cstring;
  jd_cin : Z;
  jd_content : bytes;
}.

(** The union of [openli_export_recv_t], by the member that was written. *)
Inductive export_data : Type :=
  | Data_none
  | Data_med (m : openli_mediator_t)
  | Data_cept (m : published_intercept_msg_t)
  | Data_ipcc (j : job_data)
  | Data_ipmmiri (j : job_data)
  | Data_ipiri (j : job_data)
  | Data_mobiri (j : job_data)
  | Data_rawip (j : job_data)
  | Data_emailiri (j : job_data)
  | Data_emailcc (j : job_data).

Record openli_export_recv_t : Type := Mkopenli_export_recv_t {
  ex_type : openli_export_type;
  ex_destid : Z;
  ex_data : export_data;
}.

(** The condition that separates communication content from everything else,
    as the tracker and the forwarder write it. *)
Definition is_cc (t : openli_export_type) : bool :=
  bool_decide (t = OPENLI_EXPORT_IPCC) || bool_decide (t = OPENLI_EXPORT_IPMMCC) ||
  bool_decide (t = OPENLI_EXPORT_UMTSCC) || bool_decide (t = OPENLI_EXPORT_EMAILCC).

(** [openli_encoding_job_t].  [job_preencoded] is the address of the array. *)
Record openli_encoding_job_t : Type := Mkopenli_encoding_job_t {
  job_preencoded : Z;
  job_seqno : Z;
  job_cin : Z;
  job_cinstr : bytes;
  job_origreq : openli_export_recv_t;
  job_liid : bytes;
  job_cept_version : Z;
  job_encryptmethod : Z;
  job_encryptkey : cstring;
}.

(** A [char *] that is read as a string: NULL has no defined meaning. *)
Definition c_str (s : cstring) : outcome bytes :=
  match s with Some bs => Ok (until_nul bs) | None => Undef end.

(** ** Decimal numbers: [%u] *)

Fixpoint decimal_digits (fuel : nat) (n : Z) : bytes :=
  match fuel with
  | O => []
  | S fuel => if n <? 10 then [48 + n] else decimal_digits fuel (n / 10) ++ [48 + n mod 10]
  end.

(** Ten digits are enough for 32 bits. *)
Definition print_u (n : Z) : bytes := decimal_digits 10 n.

Fixpoint decimal_value (acc : Z) (ds : bytes) : Z :=
  match ds with [] => acc | d :: ds => decimal_value (10 * acc + (d - 48)) ds end.

Lemma decimal_value_app acc l d :
  decimal_value acc (l ++ [d]) = 10 * decimal_value acc l + (d - 48).
Proof. revert acc. induction l as [|x l IH]; intros acc; [done|]. simpl. by rewrite IH. Qed.

Lemma decimal_digits_value fuel n :
  0 ≤ n < 10 ^ Z.of_nat fuel → decimal_value 0 (decimal_digits fuel n) = n.
Proof.
  revert n. induction fuel as [|fuel IH]; intros n Hn; cbn [decimal_digits].
  { change (10 ^ Z.of_nat 0) with 1 in Hn. simpl. lia. }
  rewrite Nat2Z.inj_succ, Z.pow_succ_r in Hn by lia.
  destruct (Z.ltb_spec n 10); [simpl; lia|].
  rewrite decimal_value_app, IH.
  - pose proof (Z.div_mod n 10). lia.
  - split; [apply Z.div_pos; lia|apply Z.div_lt_upper_bound; lia].
Qed.

Lemma decimal_digits_range fuel n :
  0 ≤ n → Forall (λ d, 48 ≤ d ≤ 57) (decimal_digits fuel n).
Proof.
  revert n. induction fuel as [|fuel IH]; intros n Hn; cbn [decimal_digits]; [constructor|].
  destruct (Z.ltb_spec n 10); [repeat constructor; lia|].
  apply Forall_app. split; [apply IH, Z.div_pos; lia|].
  pose proof (Z.mod_pos_bound n 10). repeat constructor; lia.
Qed.

Lemma decimal_digits_length fuel n : (length (decimal_digits fuel n) ≤ fuel)%nat.
Proof.
  revert n. induction fuel as [|fuel IH]; intros n; cbn [decimal_digits]; [done|].
  destruct (_ <? _); simpl; [lia|]. rewrite length_app. simpl. specialize (IH (n / 10)). lia.
Qed.

Lemma print_u_inj m n : 0 ≤ m < 2 ^ 32 → 0 ≤ n < 2 ^ 32 → print_u m = print_u n → m = n.
Proof.
  intros Hm Hn E. rewrite <- (decimal_digits_value 10 m), <- (decimal_digits_value 10 n) by lia.
  unfold print_u in E. by rewrite E.
Qed.

(** A text has one cut at its first dash, and one at its last. *)
Lemma first_dash_inj (a b x y : bytes) :
  Forall (λ d, 48 ≤ d ≤ 57) a → Forall (λ d, 48 ≤ d ≤ 57) b →
  a ++ 45 :: x = b ++ 45 :: y → a = b ∧ x = y.
Proof.
  intros Ha. revert b. induction Ha as [|d a Hd _ IH]; intros b Hb E.
  - destruct Hb as [|e b He _]; simplify_eq/=; [done|lia].
  - destruct Hb as [|e b He Hb]; simpl in E; injection E as -> E; [lia|].
    by destruct (IH b Hb E) as [-> ->].
Qed.

Lemma last_dash_inj (l k a b : bytes) :
  Forall (λ d, 48 ≤ d ≤ 57) a → Forall (λ d, 48 ≤ d ≤ 57) b →
  l ++ 45 :: a = k ++ 45 :: b → l = k ∧ a = b.
Proof.
  intros Ha Hb E. apply (f_equal reverse) in E.
  rewrite !reverse_app, !reverse_cons, <- !app_assoc in E. simpl in E.
  apply first_dash_inj in E as [E1 E2]; [|by apply Forall_reverse..].
  by apply (inj reverse) in E1, E2.
Qed.

(** The names of streams: [snprintf(cinstr, 1024, "%s-%u", liid, cin)]. *)
Definition cin_name (liid : bytes) (cin : Z) : bytes :=
  snprintf 1024 (liid ++ 45 :: print_u cin).

(** No two streams share a name while LIIDs are shorter than a thousand
    characters, even if LIIDs contain dashes and digits. *)
Lemma cin_name_inj liid1 liid2 cin1 cin2 :
  zlen liid1 ≤ 1000 → zlen liid2 ≤ 1000 → 0 ≤ cin1 < 2 ^ 32 → 0 ≤ cin2 < 2 ^ 32 →
  cin_name liid1 cin1 = cin_name liid2 cin2 → liid1 = liid2 ∧ cin1 = cin2.
Proof.
  intros Hl1 Hl2 Hc1 Hc2. unfold cin_name, snprintf.
  assert (∀ l c, zlen l ≤ 1000 → ztake (1024 - 1) (l ++ 45 :: print_u c) = l ++ 45 :: print_u c) as Ht.
  { intros l c Hl. unfold ztake. apply take_ge. rewrite length_app. simpl.
    pose proof (decimal_digits_length 10 c). unfold zlen, print_u in *. lia. }
  rewrite !Ht by done. intros [E1 E2]%last_dash_inj; [|apply decimal_digits_range; lia..].
  split; [done|]. by apply print_u_inj.
Qed.
