(* ===== verification/SeqTracker.v ===== *)
(** * Sequence trackers (src/src/collector/collector_seqtracker.c)

    A tracker knows the active intercepts, gives every record that is published
    for them its place in the stream of its LIID and CIN, and hands it to the
    encoder workers together with the pre-encoded fields of the intercept.

    Pre-encoded arrays are shared with the workers, so they have addresses:
    [sq_arrays] maps the addresses of live arrays to the details they were made
    from ([etsili_preencode_static_fields] computes them from nothing else), and
    using an address that is not there is a use after free.  [gettimeofday] is
    read as one value per received message, and what ZeroMQ answers is part of
    the event.  Tables of uthash are lists in insertion order where the code
    iterates over them. *)

From stdpp Require Import gmap.
From S2P Require Import Prelude Intercept Publish.

Record collector_identity_t : Type := Mkcollector_identity_t {
  ci_operatorid : cstring;
  ci_networkelemid : cstring;
  ci_intpointid : cstring;
}.

Record etsili_intercept_details_t : Type := Mketsili_intercept_details_t {
  ed_liid : bytes;
  ed_authcc : bytes;
  ed_delivcc : bytes;
  ed_intpointid : cstring;
  ed_operatorid : cstring;
  ed_networkelemid : cstring;
}.

Record exporter_intercept_msg_t : Type := Mkexporter_intercept_msg_t {
  ei_liid : bytes;
  ei_liid_len : Z;
  ei_authcc : bytes;
  ei_authcc_len : Z;
  ei_delivcc : bytes;
  ei_delivcc_len : Z;
  ei_encryptmethod : Z;
  ei_encryptkey : cstring;
}.

Record cin_seqno_t : Type := Mkcin_seqno_t {
  cq_cin : Z;
  cq_cc_seqno : Z;
  cq_iri_seqno : Z;
  cq_cin_string : bytes;
}.

Record exporter_intercept_state_t : Type := Mkexporter_intercept_state_t {
  is_details : exporter_intercept_msg_t;
  is_cinsequencing : gmap Z cin_seqno_t;
  is_preencoded : Z;
  is_version : Z;
}.

Record removed_intercept_t : Type := Mkremoved_intercept_t {
  ri_preencoded : Z;
  ri_haltedat : Z;
}.

Record seqtracker_thread_data_t : Type := Mkseqtracker_thread_data_t {
  sq_colident : collector_identity_t;
  sq_intercepts : list exporter_intercept_state_t;
  sq_removedints : list removed_intercept_t;
  sq_arrays : gmap Z etsili_intercept_details_t;
  sq_next : Z;   (* no array was ever at this address or above *)
}.

Definition set_sq_intercepts (l : list exporter_intercept_state_t)
    (s : seqtracker_thread_data_t) : seqtracker_thread_data_t :=
  Mkseqtracker_thread_data_t s.(sq_colident) l s.(sq_removedints) s.(sq_arrays) s.(sq_next).

(** [HASH_FIND] on the LIID. *)
Fixpoint find_intercept (liid : bytes) (l : list exporter_intercept_state_t)
    : option exporter_intercept_state_t :=
  match l with
  | [] => None
  | st :: l => if decide (st.(is_details).(ei_liid) = liid) then Some st else find_intercept liid l
  end.

(** Writing through the pointer [HASH_FIND] returned. *)
Fixpoint update_intercept (liid : bytes) (new : exporter_intercept_state_t)
    (l : list exporter_intercept_state_t) : list exporter_intercept_state_t :=
  match l with
  | [] => []
  | st :: l => if decide (st.(is_details).(ei_liid) = liid) then new :: l
               else st :: update_intercept liid new l
  end.

(** [HASH_DELETE] of what [HASH_FIND] returned. *)
Fixpoint delete_intercept (liid : bytes) (l : list exporter_intercept_state_t)
    : list exporter_intercept_state_t :=
  match l with
  | [] => []
  | st :: l => if decide (st.(is_details).(ei_liid) = liid) then l
               else st :: delete_intercept liid l
  end.

(** [extract_liid_from_job]: NULL for other messages.  Reading a member of the
    union that was not written is [Undef]. *)
Definition extract_job (r : openli_export_recv_t) : outcome (option job_data) :=
  match r.(ex_type), r.(ex_data) with
  | (OPENLI_EXPORT_IPMMCC | OPENLI_EXPORT_IPCC | OPENLI_EXPORT_UMTSCC), Data_ipcc j => Ok (Some j)
  | (OPENLI_EXPORT_IPMMCC | OPENLI_EXPORT_IPCC | OPENLI_EXPORT_UMTSCC), _ => Undef
  | OPENLI_EXPORT_IPIRI, Data_ipiri j => Ok (Some j)
  | OPENLI_EXPORT_IPIRI, _ => Undef
  | OPENLI_EXPORT_IPMMIRI, Data_ipmmiri j => Ok (Some j)
  | OPENLI_EXPORT_IPMMIRI, _ => Undef
  | OPENLI_EXPORT_UMTSIRI, Data_mobiri j => Ok (Some j)
  | OPENLI_EXPORT_UMTSIRI, _ => Undef
  | OPENLI_EXPORT_RAW_SYNC, Data_rawip j => Ok (Some j)
  | OPENLI_EXPORT_RAW_SYNC, _ => Undef
  | OPENLI_EXPORT_EMAILIRI, Data_emailiri j => Ok (Some j)
  | OPENLI_EXPORT_EMAILIRI, _ => Undef
  | OPENLI_EXPORT_EMAILCC, Data_emailcc j => Ok (Some j)
  | OPENLI_EXPORT_EMAILCC, _ => Undef
  | _, _ => Ok None
  end.

Definition extract_liid_from_job (r : openli_export_recv_t) : outcome cstring :=
  o ← extract_job r; Ok (match o with Some j => j.(jd_liid) | None => None end).
Definition extract_cin_from_job (r : openli_export_recv_t) : outcome Z :=
  o ← extract_job r; Ok (match o with Some j => j.(jd_cin) | None => 0 end).

(** [purge_removedints]: the list that is kept and the arrays that remain. *)
Fixpoint purge_list (now : Z) (l : list removed_intercept_t)
    (arrays : gmap Z etsili_intercept_details_t)
    : outcome (list removed_intercept_t * gmap Z etsili_intercept_details_t) :=
  match l with
  | [] => Ok ([], arrays)
  | rem :: l =>
      if now - rem.(ri_haltedat) <? 15 then
        '(l, arrays) ← purge_list now l arrays; Ok (rem :: l, arrays)
      else match arrays !! rem.(ri_preencoded) with
        | None => Undef
        | Some _ => purge_list now l (delete rem.(ri_preencoded) arrays)
        end
  end.

Definition purge_removedints (now : Z) (s : seqtracker_thread_data_t)
    : outcome seqtracker_thread_data_t :=
  '(l, arrays) ← purge_list now s.(sq_removedints) s.(sq_arrays);
  Ok (Mkseqtracker_thread_data_t s.(sq_colident) s.(sq_intercepts) l arrays s.(sq_next)).

(** [remove_preencoded] *)
Definition remove_preencoded (now : Z) (st : exporter_intercept_state_t)
    (s : seqtracker_thread_data_t) : seqtracker_thread_data_t :=
  Mkseqtracker_thread_data_t s.(sq_colident) s.(sq_intercepts)
    (Mkremoved_intercept_t st.(is_preencoded) (u32 now) :: s.(sq_removedints))
    s.(sq_arrays) s.(sq_next).

(** The details [preencode_etsi_fields] passes on. *)
Definition intdetails (ci : collector_identity_t) (st : exporter_intercept_state_t)
    : etsili_intercept_details_t :=
  {| ed_liid := st.(is_details).(ei_liid); ed_authcc := st.(is_details).(ei_authcc);
     ed_delivcc := st.(is_details).(ei_delivcc); ed_intpointid := ci.(ci_intpointid);
     ed_operatorid := ci.(ci_operatorid); ed_networkelemid := ci.(ci_networkelemid) |}.

(** [preencode_etsi_fields]: a fresh array; the encoder calls [strlen] on the
    operator id. *)
Definition preencode_etsi_fields (st : exporter_intercept_state_t) (s : seqtracker_thread_data_t)
    : outcome (exporter_intercept_state_t * seqtracker_thread_data_t) :=
  _ ← c_str s.(sq_colident).(ci_operatorid);
  Ok (Mkexporter_intercept_state_t st.(is_details) st.(is_cinsequencing) s.(sq_next) st.(is_version),
      Mkseqtracker_thread_data_t s.(sq_colident) s.(sq_intercepts) s.(sq_removedints)
        (<[s.(sq_next) := intdetails s.(sq_colident) st]> s.(sq_arrays)) (s.(sq_next) + 1)).

(** The details of an intercept after a message about it; the LIID stays. *)
Definition new_details (liid authcc delivcc : bytes) (cept : published_intercept_msg_t)
    : exporter_intercept_msg_t :=
  {| ei_liid := liid; ei_liid_len := zlen liid;
     ei_authcc := authcc; ei_authcc_len := zlen authcc;
     ei_delivcc := delivcc; ei_delivcc_len := zlen delivcc;
     ei_encryptmethod := cept.(pc_encryptmethod); ei_encryptkey := cept.(pc_encryptkey) |}.

(** [track_new_intercept] *)
Definition track_new_intercept (now : Z) (cept : published_intercept_msg_t)
    (s : seqtracker_thread_data_t) : outcome seqtracker_thread_data_t :=
  liid ← c_str cept.(pc_liid);
  authcc ← c_str cept.(pc_authcc);
  delivcc ← c_str cept.(pc_delivcc);
  match find_intercept liid s.(sq_intercepts) with
  | Some st =>
      let st1 := Mkexporter_intercept_state_t (new_details liid authcc delivcc cept)
                   st.(is_cinsequencing) st.(is_preencoded) (u8 (st.(is_version) + 1)) in
      '(st2, s2) ← preencode_etsi_fields st1 (remove_preencoded now st s);
      Ok (set_sq_intercepts (update_intercept liid st2 s2.(sq_intercepts)) s2)
  | None =>
      let st1 := Mkexporter_intercept_state_t (new_details liid authcc delivcc cept) ∅ 0 0 in
      '(st2, s2) ← preencode_etsi_fields st1 s;
      Ok (set_sq_intercepts (s2.(sq_intercepts) ++ [st2]) s2)
  end.

(** [reconfigure_intercepts]: the loop over the table. *)
Fixpoint reconfigure_list (now : Z) (l : list exporter_intercept_state_t)
    (s : seqtracker_thread_data_t)
    : outcome (list exporter_intercept_state_t * seqtracker_thread_data_t) :=
  match l with
  | [] => Ok ([], s)
  | st :: l =>
      '(st1, s1) ← preencode_etsi_fields st (remove_preencoded now st s);
      let st2 := Mkexporter_intercept_state_t st1.(is_details) st1.(is_cinsequencing)
                   st1.(is_preencoded) (u8 (st1.(is_version) + 1)) in
      '(l, s2) ← reconfigure_list now l s1;
      Ok (st2 :: l, s2)
  end.

Definition reconfigure_intercepts (now : Z) (s : seqtracker_thread_data_t)
    : outcome seqtracker_thread_data_t :=
  '(l, s') ← reconfigure_list now s.(sq_intercepts) s; Ok (set_sq_intercepts l s').

(** [modify_tracked_intercept] *)
Definition modify_tracked_intercept (now : Z) (msg : published_intercept_msg_t)
    (s : seqtracker_thread_data_t) : outcome (Z * seqtracker_thread_data_t) :=
  liid ← c_str msg.(pc_liid);
  match find_intercept liid s.(sq_intercepts) with
  | None => Ok (-1, s)
  | Some st =>
      authcc ← c_str msg.(pc_authcc);
      delivcc ← c_str msg.(pc_delivcc);
      let st1 := Mkexporter_intercept_state_t (new_details liid authcc delivcc msg)
                   st.(is_cinsequencing) st.(is_preencoded) st.(is_version) in
      '(st2, s2) ← preencode_etsi_fields st1 (remove_preencoded now st1 s);
      let st3 := Mkexporter_intercept_state_t st2.(is_details) st2.(is_cinsequencing)
                   st2.(is_preencoded) (u8 (st2.(is_version) + 1)) in
      Ok (0, set_sq_intercepts (update_intercept liid st3 s2.(sq_intercepts)) s2)
  end.

(** [remove_tracked_intercept], with [free_intercept_state]. *)
Definition remove_tracked_intercept (now : Z) (msg : published_intercept_msg_t)
    (s : seqtracker_thread_data_t) : outcome (Z * seqtracker_thread_data_t) :=
  liid ← c_str msg.(pc_liid);
  match find_intercept liid s.(sq_intercepts) with
  | None => Ok (-1, s)
  | Some st =>
      Ok (1, remove_preencoded now st
               (set_sq_intercepts (delete_intercept liid s.(sq_intercepts)) s))
  end.

(** The [cin_seqno_t] of a CIN, a new one if there is none. *)
Definition get_cinseq (liid : bytes) (cin : Z) (st : exporter_intercept_state_t) : cin_seqno_t :=
  match st.(is_cinsequencing) !! cin with
  | Some c => c
  | None => Mkcin_seqno_t cin 0 0 (cin_name liid cin)
  end.

Definition set_cinseq (cin : Z) (c : cin_seqno_t) (st : exporter_intercept_state_t)
    : exporter_intercept_state_t :=
  Mkexporter_intercept_state_t st.(is_details) (<[cin := c]> st.(is_cinsequencing))
    st.(is_preencoded) st.(is_version).

(** The counter a record is numbered with, and the structure after it was used. *)
Definition seqno_of (cc : bool) (c : cin_seqno_t) : Z :=
  if cc then c.(cq_cc_seqno) else c.(cq_iri_seqno).

Definition bump_seqno (cc : bool) (c : cin_seqno_t) : cin_seqno_t :=
  if cc
  then Mkcin_seqno_t c.(cq_cin) (u32 (c.(cq_cc_seqno) + 1)) c.(cq_iri_seqno) c.(cq_cin_string)
  else Mkcin_seqno_t c.(cq_cin) c.(cq_cc_seqno) (u32 (c.(cq_iri_seqno) + 1)) c.(cq_cin_string).

(** [run_encoding_job].  [pushed] is whether the [zmq_send] loop ended with the
    job sent; the result is the job, if it was, and the tracker. *)
Definition run_encoding_job (pushed : bool) (recvd : openli_export_recv_t)
    (s : seqtracker_thread_data_t)
    : outcome (option openli_encoding_job_t * seqtracker_thread_data_t) :=
  oliid ← extract_liid_from_job recvd;
  cin ← extract_cin_from_job recvd;
  liid ← c_str oliid;
  match find_intercept liid s.(sq_intercepts) with
  | None => Ok (None, s)
  | Some st =>
      let cinseq := get_cinseq liid cin st in
      let cc := is_cc recvd.(ex_type) in
      let job :=
        {| job_preencoded := st.(is_preencoded); job_seqno := seqno_of cc cinseq; job_cin := cin;
           job_cinstr := cinseq.(cq_cin_string); job_origreq := recvd; job_liid := liid;
           job_cept_version := st.(is_version);
           job_encryptmethod := st.(is_details).(ei_encryptmethod);
           job_encryptkey := st.(is_details).(ei_encryptkey) |} in
      Ok (if pushed then Some job else None,
          set_sq_intercepts (update_intercept liid (set_cinseq cin (bump_seqno cc cinseq) st)
                               s.(sq_intercepts)) s)
  end.

(** What [zmq_recv] answers. *)
Inductive zmq_answer : Type :=
  | ZmqMsg (job : option openli_export_recv_t)   (* None: a NULL pointer *)
  | ZmqInterrupted
  | ZmqError
  | ZmqEmpty.

Record tracker_event : Type := Mktracker_event {
  te_now : Z;
  te_recv : zmq_answer;
  te_pushed : bool;
}.

(** The message a [cept] member is read from. *)
Definition cept_of (r : openli_export_recv_t) : outcome published_intercept_msg_t :=
  match r.(ex_data) with Data_cept m => Ok m | _ => Undef end.

(** The switch of [seqtracker_main]: whether to halt, the jobs that were pushed,
    the counter for purging, and the tracker. *)
Definition seqtracker_switch (ev : tracker_event) (job : openli_export_recv_t) (sincepurge : Z)
    (s : seqtracker_thread_data_t)
    : outcome (bool * list openli_encoding_job_t * Z * seqtracker_thread_data_t) :=
  match job.(ex_type) with
  | OPENLI_EXPORT_HALT => Ok (true, [], sincepurge, s)
  | OPENLI_EXPORT_RECONFIGURE_INTERCEPTS =>
      s' ← reconfigure_intercepts ev.(te_now) s; Ok (false, [], sincepurge, s')
  | OPENLI_EXPORT_INTERCEPT_DETAILS =>
      m ← cept_of job; s' ← track_new_intercept ev.(te_now) m s; Ok (false, [], sincepurge, s')
  | OPENLI_EXPORT_INTERCEPT_OVER =>
      m ← cept_of job; '(_, s') ← remove_tracked_intercept ev.(te_now) m s;
      Ok (false, [], sincepurge, s')
  | OPENLI_EXPORT_INTERCEPT_CHANGED =>
      m ← cept_of job; '(_, s') ← modify_tracked_intercept ev.(te_now) m s;
      Ok (false, [], sincepurge, s')
  | OPENLI_EXPORT_IPMMCC | OPENLI_EXPORT_IPMMIRI | OPENLI_EXPORT_IPIRI | OPENLI_EXPORT_UMTSCC
  | OPENLI_EXPORT_UMTSIRI | OPENLI_EXPORT_EMAILIRI | OPENLI_EXPORT_EMAILCC
  | OPENLI_EXPORT_RAW_SYNC | OPENLI_EXPORT_IPCC =>
      '(oj, s') ← run_encoding_job ev.(te_pushed) job s;
      Ok (false, option_list oj, sincepurge + 1, s')
  | _ => Ok (false, [], sincepurge, s)
  end.

(** [if (sincepurge >= 10000)] *)
Definition purge_if_due (now since : Z) (s : seqtracker_thread_data_t)
    : outcome (Z * seqtracker_thread_data_t) :=
  if 10000 <=? since then s' ← purge_removedints now s; Ok (0, s') else Ok (since, s).

(** What the loop does with one answer of [zmq_recv]. *)
Definition seqtracker_turn (ev : tracker_event) (ojob : option openli_export_recv_t)
    (sincepurge : Z) (s : seqtracker_thread_data_t)
    : outcome (bool * list openli_encoding_job_t * Z * seqtracker_thread_data_t) :=
  '(halted, jobs, since, s1) ←
    match ojob with
    | None => Ok (false, [], sincepurge, s)
    | Some job => seqtracker_switch ev job sincepurge s
    end;
  '(since, s2) ← purge_if_due ev.(te_now) since s1;
  Ok (halted, jobs, since, s2).

(** [seqtracker_main] on a sequence of events: the jobs pushed and the tracker
    when it stops or waits for the next message. *)
Fixpoint seqtracker_main (evs : list tracker_event) (sincepurge : Z)
    (s : seqtracker_thread_data_t)
    : outcome (list openli_encoding_job_t * seqtracker_thread_data_t) :=
  match evs with
  | [] => Ok ([], s)
  | ev :: evs =>
      match ev.(te_recv) with
      | ZmqInterrupted => seqtracker_main evs sincepurge s
      | ZmqError | ZmqEmpty => Ok ([], s)
      | ZmqMsg ojob =>
          '(halted, jobs, since, s2) ← seqtracker_turn ev ojob sincepurge s;
          if halted : bool then Ok (jobs, s2)
          else '(rest, s3) ← seqtracker_main evs since s2; Ok (jobs ++ rest, s3)
      end
  end.

(** * Tables *)

Abbreviation liid_of st := (st.(is_details).(ei_liid)).

Lemma find_intercept_elem liid l st :
  find_intercept liid l = Some st → st ∈ l ∧ liid_of st = liid.
Proof.
  induction l as [|x l IH]; [done|]. simpl. case_decide as Hx; intros E.
  - simplify_eq. split; [left|done].
  - destruct (IH E). split; [by right|done].
Qed.

Lemma find_intercept_app liid l k :
  is_Some (find_intercept liid l) → find_intercept liid (l ++ k) = find_intercept liid l.
Proof.
  induction l as [|x l IH]; intros [st Hf]; [done|]. simpl in *.
  case_decide; [done|]. apply IH. eauto.
Qed.

Lemma find_update_eq liid new l st :
  find_intercept liid l = Some st → liid_of new = liid →
  find_intercept liid (update_intercept liid new l) = Some new.
Proof.
  intros Hf Hn. induction l as [|x l IH]; [done|]. simpl in *.
  case_decide as Hx; simpl; [by rewrite decide_True|]. rewrite decide_False by done. auto.
Qed.

Lemma find_update_ne liid liid' new l :
  liid' ≠ liid → liid_of new = liid →
  find_intercept liid' (update_intercept liid new l) = find_intercept liid' l.
Proof.
  intros Hne Hn. induction l as [|x l IH]; [done|]. simpl.
  case_decide as Hx; simpl; [rewrite !decide_False by congruence; done|]. by rewrite IH.
Qed.

Lemma find_delete_ne liid liid' l :
  liid' ≠ liid → find_intercept liid' (delete_intercept liid l) = find_intercept liid' l.
Proof.
  intros Hne. induction l as [|x l IH]; [done|]. simpl.
  case_decide as Hx; simpl; [by rewrite decide_False by congruence|]. by rewrite IH.
Qed.

(** Up to order, a table is the element that was found and the others. *)
Lemma find_delete_perm liid l st :
  find_intercept liid l = Some st → l ≡ₚ st :: delete_intercept liid l.
Proof.
  induction l as [|x l IH]; [done|]. simpl. case_decide; intros E; simplify_eq; [done|].
  rewrite (IH E) at 1. apply Permutation_swap.
Qed.

Lemma update_delete_perm liid new l st :
  find_intercept liid l = Some st → update_intercept liid new l ≡ₚ new :: delete_intercept liid l.
Proof.
  induction l as [|x l IH]; [done|]. simpl. case_decide; intros E; [done|].
  rewrite (IH E). apply Permutation_swap.
Qed.

(** * The invariant *)

Definition addresses (s : seqtracker_thread_data_t) : list Z :=
  (is_preencoded <$> s.(sq_intercepts)) ++ (ri_preencoded <$> s.(sq_removedints)).

(** No array is referred to twice, all that are referred to are live, and new
    ones get new addresses. *)
Record addr_ok (arrays : gmap Z etsili_intercept_details_t) (next : Z) (l : list Z) : Prop := {
  ao_nodup : NoDup l;
  ao_live : ∀ a, a ∈ l → is_Some (arrays !! a);
  ao_next : ∀ a, is_Some (arrays !! a) → a < next;
}.

Lemma addr_ok_perm arrays next l k : l ≡ₚ k → addr_ok arrays next l → addr_ok arrays next k.
Proof.
  intros E [Hn Hl Ha]. split; [by rewrite <- E| |done]. intros a Hin. apply Hl. by rewrite E.
Qed.

Lemma addr_ok_fresh arrays next l d :
  addr_ok arrays next l → addr_ok (<[next := d]> arrays) (next + 1) (next :: l).
Proof.
  intros [Hn Hl Ha]. split.
  - constructor; [|done]. intros Hin. specialize (Ha next (Hl _ Hin)). lia.
  - intros a [->|Hin]%elem_of_cons; [by rewrite lookup_insert_eq|].
    assert (a ≠ next) by (specialize (Ha a (Hl _ Hin)); lia).
    rewrite lookup_insert_ne by done. auto.
  - intros a. destruct (decide (a = next)) as [->|]; [lia|].
    rewrite lookup_insert_ne by done. intros H. specialize (Ha a H). lia.
Qed.

(** The streams of one intercept: names and counters are right. *)
Definition cin_ok (liid : bytes) (cin : Z) (c : cin_seqno_t) : Prop :=
  c.(cq_cin_string) = cin_name liid cin ∧ ∀ cc, 0 ≤ seqno_of cc c < 2 ^ 32.

Definition cins_ok (st : exporter_intercept_state_t) : Prop :=
  map_Forall (cin_ok (liid_of st)) st.(is_cinsequencing).

Record tracker_wf (s : seqtracker_thread_data_t) : Prop := {
  tw_addr : addr_ok s.(sq_arrays) s.(sq_next) (addresses s);
  tw_cins : Forall cins_ok s.(sq_intercepts);
  tw_oper : is_Some s.(sq_colident).(ci_operatorid);
  tw_match : Forall (λ st, s.(sq_arrays) !! st.(is_preencoded) = Some (intdetails s.(sq_colident) st))
               s.(sq_intercepts);
}.

(** The array at [a] is live, holds [d], and was not given up before [t]. *)
Definition held (t a : Z) (d : etsili_intercept_details_t) (s : seqtracker_thread_data_t) : Prop :=
  s.(sq_arrays) !! a = Some d ∧
  Forall (λ r, r.(ri_preencoded) = a → t ≤ r.(ri_haltedat)) s.(sq_removedints).

(** What every operation does to the arrays: the invariant stays, and arrays
    that were in use a short time ago stay. *)
Definition step_ok (now : Z) (s s' : seqtracker_thread_data_t) : Prop :=
  tracker_wf s' ∧ ∀ t a d, held t a d s → t ≤ now < t + 15 → held t a d s'.

(** The counters of an intercept. *)
Definition cins (liid : bytes) (s : seqtracker_thread_data_t) : option (gmap Z cin_seqno_t) :=
  is_cinsequencing <$> find_intercept liid s.(sq_intercepts).

Lemma step_ok_refl now s : tracker_wf s → step_ok now s s.
Proof. by split. Qed.

Lemma step_ok_trans now s1 s2 s3 : step_ok now s1 s2 → step_ok now s2 s3 → step_ok now s1 s3.
Proof. intros [_ H1] [H2 H3]. split; [done|]. eauto. Qed.

(** ** Replacing and adding arrays *)

Lemma match_fresh (ci : collector_identity_t) arrays next l d k :
  addr_ok arrays next k →
  Forall (λ st, arrays !! st.(is_preencoded) = Some (intdetails ci st)) l →
  Forall (λ st, <[next := d]> arrays !! st.(is_preencoded) = Some (intdetails ci st)) l.
Proof.
  intros Ha Hm. eapply Forall_impl; [exact Hm|]. simpl. intros st Hst.
  rewrite lookup_insert_ne; [done|]. intros E.
  pose proof (ao_next _ _ _ Ha _ (mk_is_Some _ _ Hst)). lia.
Qed.

(** Giving up the array of [st] and making another one, in any table that is
    [st] and [others] up to order; [now] is a 32-bit time. *)
Lemma renew_ok now st st1 s others :
  tracker_wf s → 0 ≤ now < 2 ^ 32 → s.(sq_intercepts) ≡ₚ st :: others →
  liid_of st1 = liid_of st → is_cinsequencing st1 = is_cinsequencing st →
  ∃ st2 s2, preencode_etsi_fields st1 (remove_preencoded now st s) = Ok (st2, s2) ∧
    st2.(is_details) = st1.(is_details) ∧ st2.(is_cinsequencing) = st.(is_cinsequencing) ∧
    s2.(sq_intercepts) = s.(sq_intercepts) ∧
    ∀ l v, l ≡ₚ Mkexporter_intercept_state_t st2.(is_details) st2.(is_cinsequencing)
                  st2.(is_preencoded) v :: others →
      step_ok now s (set_sq_intercepts l s2).
Proof.
  intros [Ha Hc [op Ho] Hm] Hnow Hp Hl Hcin. unfold preencode_etsi_fields. simpl. rewrite Ho. simpl.
  eexists _, _. split; [done|]. simpl. split_and!; [done..|]. intros l v Hpl. split; [split; simpl|].
  - eapply addr_ok_perm; [|apply addr_ok_fresh, Ha]. unfold addresses. simpl.
    rewrite Hpl, Hp. simpl. constructor. by rewrite Permutation_middle.
  - rewrite Hpl. rewrite Hp in Hc. apply Forall_cons in Hc as [Hc1 Hc2]. constructor; [|done].
    unfold cins_ok in *. simpl. by rewrite Hl, Hcin.
  - eauto.
  - rewrite Hpl. rewrite Hp in Hm. apply Forall_cons in Hm as [_ Hm].
    constructor; [by rewrite lookup_insert_eq|]. by eapply match_fresh.
  - intros t a d [Hd Hr] Ht. split; simpl.
    + rewrite lookup_insert_ne; [done|]. intros <-.
      pose proof (ao_next _ _ _ Ha _ (mk_is_Some _ _ Hd)). lia.
    + constructor; [|done]. simpl. intros _. rewrite u32_id; lia.
Qed.

Lemma purge_list_ok now l arrays next pre :
  addr_ok arrays next (pre ++ (ri_preencoded <$> l)) →
  ∃ l' arrays', purge_list now l arrays = Ok (l', arrays') ∧
    addr_ok arrays' next (pre ++ (ri_preencoded <$> l')) ∧ l' ⊆ l ∧
    ∀ a d, arrays !! a = Some d → Forall (λ r, r.(ri_preencoded) = a → now < r.(ri_haltedat) + 15) l →
      arrays' !! a = Some d.
Proof.
  revert arrays pre. induction l as [|r l IH]; intros arrays pre Ha; simpl.
  { eexists _, _. split; [done|]. done. }
  destruct (Z.ltb_spec (now - ri_haltedat r) 15) as [Hlt|Hge].
  - destruct (IH arrays (pre ++ [ri_preencoded r])) as (l' & arrays' & -> & Ha' & Hsub & Hk).
    { by rewrite <- app_assoc. }
    run_outcome. eexists _, _. split; [done|]. split_and!.
    + by rewrite <- app_assoc in Ha'.
    + set_solver.
    + intros a d Hd [_ Hf]%Forall_cons. eauto.
  - destruct (ao_live _ _ _ Ha (ri_preencoded r)) as [d0 Hd0]; [set_solver|]. rewrite Hd0.
    destruct (IH (delete (ri_preencoded r) arrays) pre) as (l' & arrays' & -> & Ha' & Hsub & Hk).
    { apply (addr_ok_perm _ _ _ (ri_preencoded r :: pre ++ (ri_preencoded <$> l))) in Ha;
        [|simpl; by rewrite Permutation_middle].
      destruct Ha as [[Hni Hn]%NoDup_cons Hl Hx]. split; [done| |].
      - intros a Hin. rewrite lookup_delete_ne by (intros <-; done). apply Hl. by right.
      - intros a [d Hd]. apply lookup_delete_Some in Hd as [_ Hd]. eauto. }
    eexists _, _. split; [done|]. split_and!; [done|set_solver|].
    intros a d Hd [H1 Hf]%Forall_cons. apply Hk; [|done].
    rewrite lookup_delete_ne; [done|]. intros <-. specialize (H1 eq_refl). lia.
Qed.

Lemma purge_ok now s :
  tracker_wf s → ∃ s', purge_removedints now s = Ok s' ∧ step_ok now s s' ∧
    s'.(sq_intercepts) = s.(sq_intercepts).
Proof.
  intros [Ha Hc Ho Hm]. unfold purge_removedints.
  destruct (purge_list_ok now s.(sq_removedints) _ _ _ Ha) as (l & arrays & -> & Ha' & Hsub & Hk).
  run_outcome. eexists. split; [done|]. split; [|done]. split.
  { split; [done..|]. simpl. rewrite Forall_forall in *. intros st Hst. apply Hk; [auto|].
    apply Forall_forall. intros r Hr E. pose proof (ao_nodup _ _ _ Ha) as Hn.
    apply NoDup_app in Hn as (_ & Hn & _). destruct (Hn st.(is_preencoded)).
    - apply list_elem_of_fmap. eauto.
    - rewrite <- E. apply list_elem_of_fmap. eauto. }
  intros t a d [Hd Hr] Ht. split; simpl.
  - apply Hk; [done|]. eapply Forall_impl; [exact Hr|]. simpl. intros r H1 H2. specialize (H1 H2). lia.
  - rewrite Forall_forall in *. auto.
Qed.

(** ** The messages about intercepts *)

Definition cept_ok (m : published_intercept_msg_t) : Prop :=
  is_Some m.(pc_liid) ∧ is_Some m.(pc_authcc) ∧ is_Some m.(pc_delivcc).

(** A table in which one intercept was replaced by one with the same counters. *)
Lemma cins_update liid st st2 s s2 :
  find_intercept liid s.(sq_intercepts) = Some st → s2.(sq_intercepts) = s.(sq_intercepts) →
  liid_of st2 = liid → st2.(is_cinsequencing) = st.(is_cinsequencing) →
  ∀ liid', cins liid' (set_sq_intercepts (update_intercept liid st2 s2.(sq_intercepts)) s2)
           = cins liid' s.
Proof.
  intros Hf -> Hl Hc liid'. unfold cins. simpl. destruct (decide (liid' = liid)) as [->|].
  - rewrite (find_update_eq _ _ _ _ Hf Hl), Hf. simpl. by rewrite Hc.
  - by rewrite find_update_ne.
Qed.

Lemma track_ok now m s :
  tracker_wf s → 0 ≤ now < 2 ^ 32 → cept_ok m →
  ∃ s', track_new_intercept now m s = Ok s' ∧ step_ok now s s' ∧
    (∀ liid, is_Some (cins liid s) → cins liid s' = cins liid s) ∧
    ∀ l, m.(pc_liid) = Some l → is_Some (cins (until_nul l) s').
Proof.
  intros Hwf Hnow ([l Hl] & [ac Hac] & [dc Hdc]). unfold track_new_intercept.
  rewrite Hl, Hac, Hdc. simpl. set (liid := until_nul l).
  destruct (find_intercept liid s.(sq_intercepts)) as [st|] eqn:Hf.
  - destruct (find_intercept_elem _ _ _ Hf) as [_ Hst].
    set (st1 := Mkexporter_intercept_state_t _ _ _ _).
    destruct (renew_ok now st st1 s _ Hwf Hnow (find_delete_perm _ _ _ Hf)) as
      (st2 & s2 & -> & Hd & Hc & Hi & Hok); [done..|].
    run_outcome. eexists. split; [done|].
    assert (∀ liid', cins liid' (set_sq_intercepts (update_intercept liid st2 (sq_intercepts s2)) s2)
                     = cins liid' s) as Hcins.
    { eapply cins_update; [done|done| |done]. by rewrite Hd. }
    split_and!; [|by intros|].
    + apply (Hok _ st2.(is_version)). rewrite Hi, (update_delete_perm _ _ _ _ Hf). by destruct st2.
    + intros l' [= ->]. rewrite Hcins. unfold cins. fold liid. rewrite Hf. eauto.
  - destruct Hwf as [Ha Hc [op Ho] Hm]. unfold preencode_etsi_fields. rewrite Ho. simpl.
    eexists. split; [done|]. split_and!; [split; [split; simpl|]| |].
    + eapply addr_ok_perm; [|apply addr_ok_fresh, Ha]. unfold addresses. simpl.
      rewrite fmap_app, <- app_assoc. simpl. by rewrite Permutation_middle.
    + apply Forall_app. split; [done|]. constructor; [|done]. apply map_Forall_empty.
    + eauto.
    + apply Forall_app. split; [by eapply match_fresh|].
      constructor; [by rewrite lookup_insert_eq|done].
    + intros t a d [Hd Hr] Ht. split; [|done]. simpl. rewrite lookup_insert_ne; [done|].
      intros <-. pose proof (ao_next _ _ _ Ha _ (mk_is_Some _ _ Hd)). lia.
    + intros liid' [? Hs]. unfold cins in *. simpl. rewrite find_intercept_app; [done|].
      by destruct (find_intercept liid' _).
    + intros l' [= ->]. unfold cins. simpl. fold liid. clear -Hf.
      induction (sq_intercepts s) as [|x k IH]; simpl in *; [rewrite decide_True by done; eauto|].
      case_decide; [done|]. auto.
Qed.

Lemma modify_ok now m s :
  tracker_wf s → 0 ≤ now < 2 ^ 32 → cept_ok m →
  ∃ rc s', modify_tracked_intercept now m s = Ok (rc, s') ∧ step_ok now s s' ∧
    ∀ liid, cins liid s' = cins liid s.
Proof.
  intros Hwf Hnow ([l Hl] & [ac Hac] & [dc Hdc]). unfold modify_tracked_intercept.
  rewrite Hl, Hac, Hdc. simpl. set (liid := until_nul l).
  destruct (find_intercept liid s.(sq_intercepts)) as [st|] eqn:Hf;
    [|eexists _, _; split; [done|]; split; [by apply step_ok_refl|done]].
  destruct (find_intercept_elem _ _ _ Hf) as [_ Hst].
  set (st1 := Mkexporter_intercept_state_t _ _ _ _).
  assert (remove_preencoded now st1 s = remove_preencoded now st s) as -> by done.
  destruct (renew_ok now st st1 s _ Hwf Hnow (find_delete_perm _ _ _ Hf)) as
    (st2 & s2 & -> & Hd & Hc & Hi & Hok); [done..|].
  run_outcome. eexists _, _. split; [done|]. split.
  - eapply Hok. rewrite Hi. by apply (update_delete_perm _ _ _ _ Hf).
  - eapply cins_update; [done|done| |done]. simpl. by rewrite Hd.
Qed.

Lemma remove_ok now m s :
  tracker_wf s → 0 ≤ now < 2 ^ 32 → is_Some m.(pc_liid) →
  ∃ rc s', remove_tracked_intercept now m s = Ok (rc, s') ∧ step_ok now s s' ∧
    ∀ liid, (∀ l, m.(pc_liid) = Some l → until_nul l ≠ liid) → cins liid s' = cins liid s.
Proof.
  intros Hwf Hnow [l Hl]. unfold remove_tracked_intercept. rewrite Hl. simpl.
  set (liid := until_nul l).
  destruct (find_intercept liid s.(sq_intercepts)) as [st|] eqn:Hf;
    [|eexists _, _; split; [done|]; split; [by apply step_ok_refl|done]].
  eexists _, _. split; [done|]. pose proof (find_delete_perm _ _ _ Hf) as Hp.
  destruct Hwf as [Ha Hc Ho Hm]. split; [split; [split; simpl|]|].
  - eapply addr_ok_perm; [|exact Ha]. unfold addresses. simpl. rewrite Hp at 1. simpl.
    by rewrite Permutation_middle.
  - rewrite Hp in Hc. by apply Forall_cons in Hc as [_ ?].
  - done.
  - rewrite Hp in Hm. by apply Forall_cons in Hm as [_ ?].
  - intros t a d [Hd Hr] Ht. split; [done|]. constructor; [|done]. simpl. intros _.
    rewrite u32_id; lia.
  - intros liid' Hne. unfold cins. simpl. rewrite find_delete_ne; [done|].
    intros ->. by apply (Hne l).
Qed.

(** Intercepts that differ in what reconfiguring changes. *)
Definition same_stream (st st' : exporter_intercept_state_t) : Prop :=
  liid_of st' = liid_of st ∧ st'.(is_cinsequencing) = st.(is_cinsequencing).

Lemma reconfigure_list_ok now l s before :
  0 ≤ now < 2 ^ 32 → tracker_wf (set_sq_intercepts (before ++ l) s) →
  ∃ l' s', reconfigure_list now l s = Ok (l', s') ∧ Forall2 same_stream l l' ∧
    step_ok now (set_sq_intercepts (before ++ l) s) (set_sq_intercepts (before ++ l') s').
Proof.
  intros Hnow. revert s before. induction l as [|st l IH]; intros s before Hwf; cbn [reconfigure_list].
  { eexists _, _. split; [done|]. split; [done|]. by apply step_ok_refl. }
  destruct (renew_ok now st st _ (before ++ l) Hwf Hnow) as (st2 & s2 & He & Hd & Hc & Hi & Hok);
    [simpl; by rewrite Permutation_middle|done..|].
  unfold preencode_etsi_fields in He |- *. simpl in He |- *.
  destruct (ci_operatorid (sq_colident s)); [|done]. simpl in He |- *. injection He as <- <-.
  simpl in Hok. set (s1 := Mkseqtracker_thread_data_t _ _ _ _ _).
  specialize (Hok (before ++ [Mkexporter_intercept_state_t (is_details st) (is_cinsequencing st)
    (sq_next s) (u8 (is_version st + 1))] ++ l) (u8 (is_version st + 1))).
  specialize (Hok ltac:(simpl; by rewrite Permutation_middle)). rewrite app_assoc in Hok.
  destruct (IH s1 _ (proj1 Hok)) as (l' & s' & -> & HF & Hok2). run_outcome.
  eexists _, _. split; [done|]. split; [by constructor|].
  eapply step_ok_trans; [exact Hok|]. by rewrite <- (app_assoc before _ l') in Hok2.
Qed.

Lemma same_stream_find l l' liid :
  Forall2 same_stream l l' →
  is_cinsequencing <$> find_intercept liid l' = is_cinsequencing <$> find_intercept liid l.
Proof.
  induction 1 as [|st st' l l' [Hl Hc] _ IH]; [done|]. simpl. rewrite Hl.
  case_decide; [simpl; by rewrite Hc|done].
Qed.

Lemma reconfigure_ok now s :
  tracker_wf s → 0 ≤ now < 2 ^ 32 →
  ∃ s', reconfigure_intercepts now s = Ok s' ∧ step_ok now s s' ∧ ∀ liid, cins liid s' = cins liid s.
Proof.
  intros Hwf Hnow. unfold reconfigure_intercepts.
  assert (set_sq_intercepts ([] ++ sq_intercepts s) s = s) as Hs by (by destruct s).
  destruct (reconfigure_list_ok now (sq_intercepts s) s [] Hnow) as (l & s' & -> & HF & Hok).
  { by rewrite Hs. }
  rewrite Hs in Hok. run_outcome. eexists. split; [done|]. split; [done|].
  intros liid. by apply same_stream_find.
Qed.

(** * Streams *)

(** The stream a published record belongs to: LIID, CIN, and whether it is
    communication content. *)
Abbreviation stream := (bytes * Z * bool)%type.

Definition stream_of (r : openli_export_recv_t) : option stream :=
  match extract_job r with
  | Ok (Some j) =>
      match j.(jd_liid) with
      | Some l => Some (until_nul l, j.(jd_cin), is_cc r.(ex_type))
      | None => None
      end
  | _ => None
  end.

Definition job_stream (j : openli_encoding_job_t) : stream :=
  (j.(job_liid), j.(job_cin), is_cc j.(job_origreq).(ex_type)).

(** The number the next record of a stream gets. *)
Definition next_seqno (k : stream) (s : seqtracker_thread_data_t) : Z :=
  let '(liid, cin, cc) := k in
  match cins liid s ≫= lookup cin with Some c => seqno_of cc c | None => 0 end.

Definition tracked (liid : bytes) (s : seqtracker_thread_data_t) : Prop := is_Some (cins liid s).

(** A job is what the tracker should have made of a record of stream [k]. *)
Record job_for (k : stream) (seqno : Z) (r : openli_export_recv_t) (j : openli_encoding_job_t)
    : Prop := {
  jf_stream : job_stream j = k;
  jf_origreq : j.(job_origreq) = r;
  jf_seqno : j.(job_seqno) = seqno;
  jf_cinstr : j.(job_cinstr) = cin_name k.1.1 k.1.2;
}.

(** Its pre-encoded fields are there, and are those of its intercept. *)
Definition job_array_ok (now : Z) (s : seqtracker_thread_data_t) (j : openli_encoding_job_t) : Prop :=
  ∃ d, d.(ed_liid) = j.(job_liid) ∧ held now j.(job_preencoded) d s.

Lemma next_seqno_cins k s s' : cins k.1.1 s' = cins k.1.1 s → next_seqno k s' = next_seqno k s.
Proof. destruct k as [[liid cin] cc]. simpl. by intros ->. Qed.

(** What a step does to stream [k], where [here] is the record of [k] it
    processes, if any. *)
Definition stream_step (k : stream) (here : list openli_export_recv_t)
    (jobs : list openli_encoding_job_t) (s s' : seqtracker_thread_data_t) : Prop :=
  tracked k.1.1 s' ∧
  match here with
  | [] => filter (λ j, job_stream j = k) jobs = [] ∧ next_seqno k s' = next_seqno k s
  | r :: _ => ∃ j, jobs = [j] ∧ job_for k (next_seqno k s) r j ∧
                   next_seqno k s' = u32 (next_seqno k s + 1)
  end.

Lemma stream_step_idle k s s' :
  tracked k.1.1 s → cins k.1.1 s' = cins k.1.1 s → stream_step k [] [] s s'.
Proof.
  intros Ht E. split; [unfold tracked; by rewrite E|]. split; [done|]. by apply next_seqno_cins.
Qed.

Lemma get_cinseq_ok liid cin st :
  cins_ok st → liid_of st = liid → cin_ok liid cin (get_cinseq liid cin st).
Proof.
  intros Hc Hl. unfold get_cinseq. destruct (is_cinsequencing st !! cin) eqn:E.
  - rewrite <- Hl. by apply Hc.
  - split; [done|]. by intros [].
Qed.

Lemma bump_ok liid cin cc c : cin_ok liid cin c → cin_ok liid cin (bump_seqno cc c).
Proof.
  intros [Hn Hr]. pose proof (Hr true) as H1. pose proof (Hr false) as H2. simpl in H1, H2.
  split; [by destruct cc|].
  intros cc'. unfold u32, bump_seqno. destruct cc, cc'; simpl; try done;
    apply Z.mod_pos_bound; lia.
Qed.

Lemma seqno_bump cc cc' c :
  seqno_of cc' (bump_seqno cc c) =
  if decide (cc = cc') then u32 (seqno_of cc' c + 1) else seqno_of cc' c.
Proof. by destruct cc, cc'. Qed.

Lemma set_cinseq_step now liid cin c st s :
  tracker_wf s → find_intercept liid s.(sq_intercepts) = Some st → cin_ok liid cin c →
  step_ok now s (set_sq_intercepts (update_intercept liid (set_cinseq cin c st) s.(sq_intercepts)) s).
Proof.
  intros [Ha Hc Ho Hm] Hf Hok. destruct (find_intercept_elem _ _ _ Hf) as [_ Hst].
  pose proof (find_delete_perm _ _ _ Hf) as Hp.
  pose proof (update_delete_perm _ (set_cinseq cin c st) _ _ Hf) as Hp'.
  set (rest := delete_intercept liid (sq_intercepts s)) in *. clearbody rest.
  split; [split; simpl|done].
  - eapply addr_ok_perm; [|exact Ha]. unfold addresses. simpl. by rewrite Hp', Hp.
  - rewrite Hp'. rewrite Hp in Hc. apply Forall_cons in Hc as [Hc1 Hc]. constructor; [|done].
    unfold cins_ok. simpl. apply map_Forall_insert_2; [by rewrite Hst|done].
  - done.
  - rewrite Hp'. rewrite Hp in Hm. apply Forall_cons in Hm as [Hm1 Hm]. by constructor.
Qed.

Lemma next_seqno_found liid cin cc st s :
  find_intercept liid s.(sq_intercepts) = Some st →
  next_seqno (liid, cin, cc) s = seqno_of cc (get_cinseq liid cin st).
Proof.
  intros Hf. unfold next_seqno, cins, get_cinseq. rewrite Hf. simpl.
  destruct (is_cinsequencing st !! cin); [done|by destruct cc].
Qed.

(** The counters after a record of stream [(liid, cin, cc)]. *)
Lemma next_seqno_set liid cin cc st s k :
  find_intercept liid s.(sq_intercepts) = Some st →
  let s' := set_sq_intercepts (update_intercept liid
              (set_cinseq cin (bump_seqno cc (get_cinseq liid cin st)) st) s.(sq_intercepts)) s in
  next_seqno k s' = if decide ((liid, cin, cc) = k) then u32 (next_seqno k s + 1) else next_seqno k s.
Proof.
  intros Hf s'. destruct (find_intercept_elem _ _ _ Hf) as [_ Hst].
  set (st' := set_cinseq _ _ st) in *. destruct k as [[liid' cin'] cc'].
  destruct (decide (liid' = liid)) as [->|Hl].
  2: { rewrite decide_False by congruence. apply next_seqno_cins. unfold cins. simpl.
       by rewrite find_update_ne. }
  assert (find_intercept liid s'.(sq_intercepts) = Some st') as Hf'
    by (by apply (find_update_eq _ _ _ _ Hf)).
  rewrite (next_seqno_found _ _ _ _ _ Hf), (next_seqno_found _ _ _ _ _ Hf').
  unfold get_cinseq at 1. simpl. destruct (decide (cin' = cin)) as [->|Hc].
  - rewrite lookup_insert_eq, seqno_bump. repeat case_decide; congruence.
  - rewrite lookup_insert_ne, decide_False by congruence. done.
Qed.

Lemma run_job_ok now pushed r s k0 :
  tracker_wf s → 0 ≤ now < 2 ^ 32 → stream_of r = Some k0 →
  ∃ oj s', run_encoding_job pushed r s = Ok (oj, s') ∧ step_ok now s s' ∧
    Forall (job_array_ok now s') (option_list oj) ∧
    Forall (λ j, job_stream j = k0 ∧ j.(job_origreq) = r) (option_list oj) ∧
    ∀ k, tracked k.1.1 s → pushed = true →
      stream_step k (if decide (k0 = k) then [r] else []) (option_list oj) s s'.
Proof.
  intros Hwf Hnow Hk0. unfold stream_of in Hk0. unfold run_encoding_job, extract_liid_from_job,
    extract_cin_from_job. destruct (extract_job r) as [[[ol cin content]|]| |]; try done. simpl in *.
  destruct ol as [l|]; [|done]. simpl. injection Hk0 as <-. set (liid := until_nul l).
  destruct (find_intercept liid s.(sq_intercepts)) as [st|] eqn:Hf.
  2: { eexists _, _. split; [done|]. split; [by apply step_ok_refl|]. split; [constructor|].
       split; [constructor|]. intros k Ht _. destruct (decide _) as [<-|_]; [|by apply stream_step_idle].
       simpl in Ht. destruct Ht as [? Ht]. unfold cins in Ht. by rewrite Hf in Ht. }
  destruct (find_intercept_elem _ _ _ Hf) as [Hin Hst].
  pose proof (get_cinseq_ok liid cin st) as Hc.
  specialize (Hc (proj1 (Forall_forall _ _) (tw_cins _ Hwf) _ Hin) Hst).
  eexists _, _. split; [done|].
  split; [by apply set_cinseq_step; [..|apply bump_ok]|]. split_and!.
  - destruct pushed; simpl; [|constructor]. constructor; [|constructor].
    exists (intdetails s.(sq_colident) st). split; [done|].
    split; [by apply (proj1 (Forall_forall _ _) (tw_match _ Hwf) _ Hin)|]. simpl.
    apply Forall_forall. intros rm Hrm E. pose proof (ao_nodup _ _ _ (tw_addr _ Hwf)) as Hn.
    apply NoDup_app in Hn as (_ & Hn & _). destruct (Hn st.(is_preencoded)).
    + apply list_elem_of_fmap. eauto.
    + simpl in E. rewrite <- E. apply list_elem_of_fmap. eauto.
  - destruct pushed; simpl; [|constructor]. by repeat constructor.
  - intros k Ht ->. split.
    { unfold tracked, cins. simpl. destruct (decide (k.1.1 = liid)) as [->|].
      - by rewrite (find_update_eq _ _ _ _ Hf).
      - by rewrite find_update_ne. }
    simpl. rewrite (next_seqno_set _ _ _ _ _ k Hf). destruct (decide _) as [<-|Hne].
    + eexists. split; [done|]. split; [|done]. split; [done..| |apply Hc].
      symmetry. by apply next_seqno_found.
    + split; [|done]. by rewrite filter_cons_False by done.
Qed.

(** ** The main loop *)

(** The messages other threads send: the union member matches the type, and the
    strings that are read are not NULL. *)
Definition msg_ok (r : openli_export_recv_t) : Prop :=
  match r.(ex_type) with
  | OPENLI_EXPORT_INTERCEPT_DETAILS | OPENLI_EXPORT_INTERCEPT_CHANGED =>
      match r.(ex_data) with Data_cept m => cept_ok m | _ => False end
  | OPENLI_EXPORT_INTERCEPT_OVER =>
      match r.(ex_data) with Data_cept m => is_Some m.(pc_liid) | _ => False end
  | OPENLI_EXPORT_IPMMCC | OPENLI_EXPORT_IPMMIRI | OPENLI_EXPORT_IPIRI | OPENLI_EXPORT_UMTSCC
  | OPENLI_EXPORT_UMTSIRI | OPENLI_EXPORT_EMAILIRI | OPENLI_EXPORT_EMAILCC
  | OPENLI_EXPORT_RAW_SYNC | OPENLI_EXPORT_IPCC => is_Some (stream_of r)
  | _ => True
  end.

(** The message ends the intercept. *)
Definition ends (liid : bytes) (r : openli_export_recv_t) : Prop :=
  r.(ex_type) = OPENLI_EXPORT_INTERCEPT_OVER ∧
  ∃ m l, r.(ex_data) = Data_cept m ∧ m.(pc_liid) = Some l ∧ until_nul l = liid.

Definition records_of (k : stream) (rs : list openli_export_recv_t) : list openli_export_recv_t :=
  filter (λ r, stream_of r = Some k) rs.

(** What one turn of the switch may do. *)
Definition switch_spec (ev : tracker_event) (r : openli_export_recv_t)
    (s : seqtracker_thread_data_t)
    (res : outcome (bool * list openli_encoding_job_t * Z * seqtracker_thread_data_t)) : Prop :=
  ∃ jobs since' s',
    res = Ok (bool_decide (r.(ex_type) = OPENLI_EXPORT_HALT), jobs, since', s') ∧
    step_ok ev.(te_now) s s' ∧ Forall (job_array_ok ev.(te_now) s') jobs ∧
    Forall (λ j, stream_of r = Some (job_stream j) ∧ j.(job_origreq) = r) jobs ∧
    ∀ k, tracked k.1.1 s → ¬ ends k.1.1 r → ev.(te_pushed) = true →
      stream_step k (records_of k [r]) jobs s s'.

(** Messages that are no records. *)
Lemma switch_other ev r s s' h since :
  stream_of r = None → step_ok ev.(te_now) s s' →
  (∀ liid, is_Some (cins liid s) → ¬ ends liid r → cins liid s' = cins liid s) →
  h = bool_decide (r.(ex_type) = OPENLI_EXPORT_HALT) →
  switch_spec ev r s (Ok (h, [], since, s')).
Proof.
  intros Hn Hs Hc ->. eexists _, _, _. split; [done|]. split; [done|].
  split; [constructor|]. split; [constructor|]. intros k Ht He _. unfold records_of.
  rewrite filter_cons_False by (by rewrite Hn). apply stream_step_idle; auto.
Qed.

Lemma switch_record ev r s since :
  tracker_wf s → 0 ≤ ev.(te_now) < 2 ^ 32 → is_Some (stream_of r) →
  r.(ex_type) ≠ OPENLI_EXPORT_HALT →
  switch_spec ev r s
    ('(oj, s') ← run_encoding_job ev.(te_pushed) r s; Ok (false, option_list oj, since, s')).
Proof.
  intros Hwf Hnow [k0 Hk0] Hh.
  destruct (run_job_ok (te_now ev) (te_pushed ev) r s k0 Hwf Hnow Hk0)
    as (oj & s' & -> & Hs & Hj & Hstr & Hk). run_outcome.
  eexists _, _, _. rewrite bool_decide_false by done. split_and!; [done..| |].
  { eapply Forall_impl; [exact Hstr|]. simpl. intros j [-> ->]. done. }
  intros k Ht _ Hp. specialize (Hk k Ht Hp). unfold records_of.
  destruct (decide (k0 = k)) as [->|Hne]; [by rewrite filter_cons_True|].
  by rewrite filter_cons_False by congruence.
Qed.

Lemma switch_ok ev r since s :
  tracker_wf s → 0 ≤ ev.(te_now) < 2 ^ 32 → msg_ok r →
  switch_spec ev r s (seqtracker_switch ev r since s).
Proof.
  intros Hwf Hnow Hm. unfold seqtracker_switch, msg_ok in *.
  assert (∀ s' h, extract_job r = Ok None → step_ok ev.(te_now) s s' →
    (∀ liid, is_Some (cins liid s) → ¬ ends liid r → cins liid s' = cins liid s) →
    h = bool_decide (r.(ex_type) = OPENLI_EXPORT_HALT) →
    switch_spec ev r s (Ok (h, [], since, s'))) as Hother
    by (intros s' h E; apply switch_other; unfold stream_of; by rewrite E).
  unfold extract_job in Hother.
  destruct (ex_type r) eqn:Et; try done;
    try (apply Hother; [done|by apply step_ok_refl|done|done]);
    try (apply switch_record; [done..|by rewrite Et]).
  - unfold cept_of. destruct (ex_data r) as [|?|m|?|?|?|?|?|?|?]; try done. run_outcome.
    destruct (track_ok (te_now ev) m s) as (s' & -> & Hs & Hc & _); [done..|]. run_outcome.
    apply Hother; auto.
  - unfold cept_of. destruct (ex_data r) as [|?|m|?|?|?|?|?|?|?] eqn:Ed; try done. run_outcome.
    destruct (remove_ok (te_now ev) m s) as (rc & s' & -> & Hs & Hc); [done..|]. run_outcome.
    apply Hother; [done..| |done]. intros liid _ He. apply Hc. intros l Hl E. apply He. split; eauto.
  - destruct (reconfigure_ok (te_now ev) s Hwf Hnow) as (s' & -> & Hs & Hc). run_outcome.
    apply Hother; auto.
  - unfold cept_of. destruct (ex_data r) as [|?|m|?|?|?|?|?|?|?]; try done. run_outcome.
    destruct (modify_ok (te_now ev) m s) as (rc & s' & -> & Hs & Hc); [done..|]. run_outcome.
    apply Hother; auto.
Qed.

(** The messages the loop takes before it stops. *)
Fixpoint accepted (evs : list tracker_event) : list openli_export_recv_t :=
  match evs with
  | [] => []
  | ev :: evs =>
      match ev.(te_recv) with
      | ZmqInterrupted | ZmqMsg None => accepted evs
      | ZmqError | ZmqEmpty => []
      | ZmqMsg (Some r) =>
          r :: if decide (r.(ex_type) = OPENLI_EXPORT_HALT) then [] else accepted evs
      end
  end.

Definition event_ok (ev : tracker_event) : Prop :=
  0 ≤ ev.(te_now) < 2 ^ 32 ∧
  match ev.(te_recv) with ZmqMsg (Some r) => msg_ok r | _ => True end.

(** [jobs] are the records [rs] of stream [k], in order, numbered from [n]. *)
Fixpoint numbered (k : stream) (n : Z) (rs : list openli_export_recv_t)
    (jobs : list openli_encoding_job_t) : Prop :=
  match rs, jobs with
  | [], [] => True
  | r :: rs, j :: jobs => job_for k n r j ∧ numbered k (u32 (n + 1)) rs jobs
  | _, _ => False
  end.

Definition jobs_of (k : stream) (jobs : list openli_encoding_job_t) : list openli_encoding_job_t :=
  filter (λ j, job_stream j = k) jobs.

Lemma stream_step_numbered k r s s1 jobs rs n jobs' :
  stream_step k (records_of k [r]) jobs s s1 → n = next_seqno k s →
  numbered k (next_seqno k s1) (records_of k rs) (jobs_of k jobs') →
  numbered k n (records_of k (r :: rs)) (jobs_of k (jobs ++ jobs')).
Proof.
  intros [_ Hs] -> Hn. unfold records_of, jobs_of in *. rewrite filter_cons in Hs |- *.
  rewrite filter_app. case_decide as Hr; cbn [filter list_filter] in Hs.
  - destruct Hs as (j & -> & Hj & Hx). rewrite Hx in Hn. rewrite filter_cons_True by apply Hj.
    simpl. done.
  - destruct Hs as [-> Hx]. by rewrite Hx in Hn.
Qed.

Lemma purge_if_due_ok now since s :
  tracker_wf s → ∃ since' s', purge_if_due now since s = Ok (since', s') ∧ step_ok now s s' ∧
    s'.(sq_intercepts) = s.(sq_intercepts).
Proof.
  intros Hwf. unfold purge_if_due. destruct (_ <=? _).
  - destruct (purge_ok now s Hwf) as (s' & -> & Hs & Hi). run_outcome. eauto.
  - eexists _, _. split; [done|]. split; [by apply step_ok_refl|done].
Qed.

(** Purging after the switch changes nothing the specification speaks about. *)
Lemma turn_ok ev r since s :
  tracker_wf s → 0 ≤ ev.(te_now) < 2 ^ 32 → msg_ok r →
  switch_spec ev r s (seqtracker_turn ev (Some r) since s).
Proof.
  intros Hwf Hnow Hm. unfold seqtracker_turn.
  destruct (switch_ok ev r since s Hwf Hnow Hm) as (jobs & since1 & s1 & -> & Hs1 & Ha & Hj & Hk).
  run_outcome.
  destruct (purge_if_due_ok (te_now ev) since1 s1 (proj1 Hs1)) as (since2 & s2 & -> & Hs2 & Hi).
  run_outcome. eexists _, _, _. split; [done|]. split; [by eapply step_ok_trans|]. split_and!.
  - eapply Forall_impl; [exact Ha|]. intros j (d & Hd & Hh). exists d. split; [done|].
    apply Hs2; [done|lia].
  - done.
  - intros k Ht He Hp. specialize (Hk k Ht He Hp). unfold stream_step, tracked in *.
    assert (cins k.1.1 s2 = cins k.1.1 s1) as Hc by (unfold cins; by rewrite Hi).
    by rewrite Hc, (next_seqno_cins k s1 s2).
Qed.

Lemma turn_none ev since s :
  tracker_wf s → ∃ since' s', seqtracker_turn ev None since s = Ok (false, [], since', s') ∧
    step_ok ev.(te_now) s s' ∧ s'.(sq_intercepts) = s.(sq_intercepts).
Proof.
  intros Hwf. unfold seqtracker_turn. run_outcome.
  destruct (purge_if_due_ok (te_now ev) since s Hwf) as (since' & s' & -> & Hs). run_outcome. eauto.
Qed.

(** Everything the loop guarantees, for any sequence of well-formed messages. *)
Lemma main_ok evs since s :
  tracker_wf s → Forall event_ok evs →
  ∃ jobs s', seqtracker_main evs since s = Ok (jobs, s') ∧ tracker_wf s' ∧
    (∀ t a d, held t a d s → Forall (λ ev, t ≤ ev.(te_now) < t + 15) evs → held t a d s') ∧
    Forall (λ j, j.(job_origreq) ∈ accepted evs ∧
                 stream_of j.(job_origreq) = Some (job_stream j)) jobs ∧
    ∀ k, tracked k.1.1 s → Forall (λ r, ¬ ends k.1.1 r) (accepted evs) →
      Forall (λ ev, ev.(te_pushed) = true) evs →
      numbered k (next_seqno k s) (records_of k (accepted evs)) (jobs_of k jobs).
Proof.
  intros Hwf Hev. revert since s Hwf. induction Hev as [|ev evs [Hnow Hm] Hev IH]; intros since s Hwf.
  { eexists _, _. split; [done|]. split_and!; [done..|constructor|done]. }
  cbn [seqtracker_main accepted]. destruct (te_recv ev) as [[r|]| | |];
    try (eexists _, _; split; [done|]; split_and!; [done..|constructor|done]).
  - destruct (turn_ok ev r since s Hwf Hnow Hm) as (jobs & since1 & s1 & -> & Hs1 & _ & Hj1 & Hk1).
    run_outcome.
    assert (∀ rest, Forall (λ j, j.(job_origreq) ∈ r :: rest ∧
      stream_of j.(job_origreq) = Some (job_stream j)) jobs) as Hj1'.
    { intros rest. eapply Forall_impl; [exact Hj1|]. simpl. intros j [? ->]. split; [left|done]. }
    case_bool_decide as Hh; simpl; [rewrite decide_True by done|rewrite decide_False by done].
    + eexists _, _. split; [done|]. split_and!; [apply Hs1| |apply Hj1'|].
      * intros t a d Hd [Ht _]%Forall_cons. by apply Hs1.
      * intros k Ht [He _]%Forall_cons [Hp _]%Forall_cons.
        rewrite <- (app_nil_r jobs). by eapply stream_step_numbered; [apply Hk1|done|].
    + destruct (IH since1 s1 (proj1 Hs1)) as (jobs' & s3 & -> & Hwf3 & Hh3 & Hj3 & Hk3). run_outcome.
      eexists _, _. split; [done|]. split_and!; [done|..].
      * intros t a d Hd [Ht Hts]%Forall_cons. apply Hh3; [|done]. by apply Hs1.
      * apply Forall_app. split; [apply Hj1'|]. eapply Forall_impl; [exact Hj3|].
        intros j [? ?]. split; [by right|done].
      * intros k Ht [He Hes]%Forall_cons [Hp Hps]%Forall_cons. specialize (Hk1 k Ht He Hp).
        eapply stream_step_numbered; [done..|]. apply Hk3; [apply Hk1|done..].
  - destruct (turn_none ev since s Hwf) as (since2 & s2 & -> & Hs2 & Hi). run_outcome. simpl.
    destruct (IH since2 s2 (proj1 Hs2)) as (jobs' & s3 & -> & Hwf3 & Hh3 & Hj3 & Hk3).
    run_outcome. eexists _, _. split; [done|]. split_and!; [done|..|done|].
    + intros t a d Hd [Ht Hts]%Forall_cons. apply Hh3; [|done]. by apply Hs2.
    + intros k Ht Hes [Hp Hps]%Forall_cons.
      assert (cins k.1.1 s2 = cins k.1.1 s) as Hc by (unfold cins; by rewrite Hi).
      rewrite <- (next_seqno_cins k s s2) by done. apply Hk3; [|done..]. unfold tracked. by rewrite Hc.
  - destruct (IH since s Hwf) as (jobs' & s3 & -> & Hwf3 & Hh3 & Hj3 & Hk3).
    eexists _, _. split; [done|]. split_and!; [done|..|done|].
    + intros t a d Hd [Ht Hts]%Forall_cons. auto.
    + intros k Ht Hes [Hp Hps]%Forall_cons. auto.
Qed.

(** The arrays of the jobs one message leads to, when the loop is back at
    [zmq_recv]. *)
Lemma main_jobs_held ev since s jobs s1 :
  tracker_wf s → event_ok ev → seqtracker_main [ev] since s = Ok (jobs, s1) →
  tracker_wf s1 ∧ Forall (job_array_ok ev.(te_now) s1) jobs.
Proof.
  intros Hwf [Hnow Hm] He. cbn [seqtracker_main] in He.
  destruct (te_recv ev) as [[r|]| | |]; try by injection He as <- <-.
  - destruct (turn_ok ev r since s Hwf Hnow Hm) as (js & since1 & s1' & Ht & Hs1 & Ha & _).
    rewrite Ht in He. revert He. run_outcome. rewrite app_nil_r. intros He.
    assert (js = jobs ∧ s1' = s1) as [-> ->] by (case_bool_decide; by injection He).
    split; [apply Hs1|done].
  - destruct (turn_none ev since s Hwf) as (since2 & s2 & Ht & Hs2 & _).
    rewrite Ht in He. revert He. run_outcome. intros [= <- <-]. split; [apply Hs2|constructor].
Qed.

(** * Theorems *)

(** C27: a tracker that knows an intercept gives the records of each of its
    streams consecutive 32-bit numbers, in the order in which they were
    published, whatever other messages (for other streams, other intercepts,
    modifications, reconfigurations, repeated announcements, interrupted calls)
    come in between, until the intercept is ended; every job names its stream. *)
Theorem tracker_numbers_records (evs : list tracker_event) (since : Z)
    (s : seqtracker_thread_data_t) (k : stream) :
  tracker_wf s → Forall event_ok evs → tracked k.1.1 s →
  Forall (λ r, ¬ ends k.1.1 r) (accepted evs) → Forall (λ ev, ev.(te_pushed) = true) evs →
  ∃ jobs s', seqtracker_main evs since s = Ok (jobs, s') ∧ tracker_wf s' ∧
    numbered k (next_seqno k s) (records_of k (accepted evs)) (jobs_of k jobs).
Proof.
  intros Hwf Hev Ht He Hp. destruct (main_ok evs since s Hwf Hev) as (jobs & s' & Hm & Hwf' & _ & _ & Hk).
  eauto 10.
Qed.

(** the array of pre-encoded fields a job refers to holds the details of
    the intercept of the job, and it stays allocated and unchanged for fifteen
    seconds, whatever messages the tracker handles in that time: also when the
    intercept is changed or ended at once. *)
Theorem preencoded_grace (ev : tracker_event) (evs : list tracker_event) (since since' : Z)
    (s s1 : seqtracker_thread_data_t) (jobs : list openli_encoding_job_t)
    (j : openli_encoding_job_t) :
  tracker_wf s → Forall event_ok (ev :: evs) →
  seqtracker_main [ev] since s = Ok (jobs, s1) → j ∈ jobs →
  Forall (λ e, ev.(te_now) ≤ e.(te_now) < ev.(te_now) + 15) evs →
  ∃ jobs' s2 d, seqtracker_main evs since' s1 = Ok (jobs', s2) ∧ d.(ed_liid) = j.(job_liid) ∧
    s1.(sq_arrays) !! j.(job_preencoded) = Some d ∧ s2.(sq_arrays) !! j.(job_preencoded) = Some d.
Proof.
  intros Hwf [Hok Hev]%Forall_cons He Hj Ht.
  destruct (main_jobs_held ev since s jobs s1 Hwf Hok He) as [Hwf1 Ha].
  destruct (proj1 (Forall_forall _ _) Ha j Hj) as (d & Hd & Hheld).
  destruct (main_ok evs since' s1 Hwf1 Hev) as (jobs' & s2 & Hm2 & _ & Hk & _).
  exists jobs', s2, d. split; [done|]. split; [done|]. split; [apply Hheld|].
  by apply (Hk _ _ _ Hheld Ht).
Qed.

(** * Examples *)

Definition sample_identity : collector_identity_t :=
  Mkcollector_identity_t (Some (of_string "OPER")) None (Some (of_string "POINT")).

Definition empty_tracker (ci : collector_identity_t) : seqtracker_thread_data_t :=
  Mkseqtracker_thread_data_t ci [] [] ∅ 0.

Lemma empty_tracker_wf ci : is_Some ci.(ci_operatorid) → tracker_wf (empty_tracker ci).
Proof.
  intros Ho. split; [|constructor|done|constructor]. split; [constructor| |].
  - intros a Ha. by apply not_elem_of_nil in Ha.
  - intros a [d Hd]. simpl in Hd. by rewrite lookup_empty in Hd.
Qed.

Definition sample_cept (liid : string) : published_intercept_msg_t :=
  Mkpublished_intercept_msg_t (Some (of_string liid)) (Some (of_string "NZ"))
    (Some (of_string "NZ")) 0 0 None.

Definition sample_tracker : seqtracker_thread_data_t :=
  match track_new_intercept 1000 (sample_cept "L-1") (empty_tracker sample_identity) with
  | Ok s => s
  | _ => empty_tracker sample_identity
  end.

Lemma sample_cept_ok liid : cept_ok (sample_cept liid).
Proof. split_and!; by eexists. Qed.

Lemma sample_tracker_wf : tracker_wf sample_tracker.
Proof.
  unfold sample_tracker.
  destruct (track_ok 1000 (sample_cept "L-1") (empty_tracker sample_identity)) as (s & -> & Hs & _).
  - apply empty_tracker_wf. by eexists.
  - lia.
  - apply sample_cept_ok.
  - apply Hs.
Qed.

Definition sample_record (cc : bool) (cin : Z) (content : string) : openli_export_recv_t :=
  let j := Mkjob_data (Some (of_string "L-1")) cin (of_string content) in
  if cc then Mkopenli_export_recv_t OPENLI_EXPORT_IPCC 7 (Data_ipcc j)
  else Mkopenli_export_recv_t OPENLI_EXPORT_IPIRI 7 (Data_ipiri j).

Definition sample_event (now : Z) (r : openli_export_recv_t) : tracker_event :=
  Mktracker_event now (ZmqMsg (Some r)) true.

Definition sample_change : openli_export_recv_t :=
  Mkopenli_export_recv_t OPENLI_EXPORT_INTERCEPT_CHANGED 0 (Data_cept (sample_cept "L-1")).

(** Two packets of one session, a report about it, and a change of the intercept
    in between. *)
Definition sample_events : list tracker_event :=
  [sample_event 1001 (sample_record true 5 "one"); sample_event 1002 sample_change;
   sample_event 1003 (sample_record false 5 "begin"); Mktracker_event 1003 ZmqInterrupted true;
   sample_event 1004 (sample_record true 5 "two")].

Lemma sample_record_ok cc cin content : msg_ok (sample_record cc cin content).
Proof. by destruct cc; eexists. Qed.

Lemma sample_events_ok : Forall event_ok sample_events.
Proof.
  repeat (constructor; [split; [simpl; lia|first [apply sample_record_ok|apply sample_cept_ok|done]]|]).
  constructor.
Qed.

Lemma tracker_numbers_records_witness :
  ∃ jobs s', seqtracker_main sample_events 0 sample_tracker = Ok (jobs, s') ∧
    (job_seqno <$> jobs) = [0; 0; 1] ∧
    numbered (of_string "L-1", 5, true) 0
      [sample_record true 5 "one"; sample_record true 5 "two"]
      (jobs_of (of_string "L-1", 5, true) jobs).
Proof.
  destruct (tracker_numbers_records sample_events 0 sample_tracker (of_string "L-1", 5, true))
    as (jobs & s' & He & _ & Hn).
  - apply sample_tracker_wf.
  - apply sample_events_ok.
  - vm_compute. by eexists.
  - repeat constructor; by intros [? _].
  - by repeat constructor.
  - exists jobs, s'. split; [exact He|]. split; [|exact Hn].
    vm_compute in He. by injection He as <- _.
Defined.

(** The intercept ends one second after the packet. *)
Lemma preencoded_grace_witness :
  let over := Mkopenli_export_recv_t OPENLI_EXPORT_INTERCEPT_OVER 0 (Data_cept (sample_cept "L-1")) in
  ∃ j s1 s2 d, seqtracker_main [sample_event 1001 (sample_record true 5 "one")] 9999 sample_tracker
      = Ok ([j], s1) ∧ seqtracker_main [sample_event 1002 over] 9999 s1 = Ok ([], s2) ∧
    s2.(sq_intercepts) = [] ∧ s2.(sq_arrays) !! j.(job_preencoded) = Some d.
Proof.
  intros over.
  destruct (seqtracker_main [sample_event 1001 (sample_record true 5 "one")] 9999 sample_tracker)
    as [[jobs s1]| |] eqn:He; [|vm_compute in He; discriminate..].
  destruct jobs as [|j [|]]; [vm_compute in He; discriminate| |vm_compute in He; discriminate].
  destruct (preencoded_grace (sample_event 1001 (sample_record true 5 "one"))
    [sample_event 1002 over] 9999 9999 sample_tracker s1 [j] j) as (jobs' & s2 & d & Hm & _ & _ & Hd).
  - apply sample_tracker_wf.
  - constructor; [split; [simpl; lia|apply sample_record_ok]|].
    constructor; [split; [simpl; lia|by eexists]|constructor].
  - exact He.
  - left.
  - constructor; [simpl; lia|constructor].
  - exists j, s1, s2, d. split; [done|].
    assert (jobs' = [] ∧ s2.(sq_intercepts) = []) as [-> Hi]; [|by split].
    vm_compute in He. injection He as <- <-. vm_compute in Hm. by injection Hm as <- <-.
Defined.
