(* ===== verification/Forwarder.v ===== *)
(** * The forwarder (src/src/collector/collector_forwarder.c)

    One thread of the collector receives the encoded records of all encoder
    workers, puts the records of every stream back into the order of their
    sequence numbers, and queues them in the export buffer of the mediator they
    are for; it keeps the connections to the mediators and sends from the buffers.

    The descriptors of mediators ([export_dest_t]) are shared between two tables,
    by mediator and by file descriptor, so they live in a heap ([fw_heap]):
    following a pointer to a descriptor that was freed is [Undef].  What ZeroMQ,
    the sockets, OpenSSL and RabbitMQ answer are arguments.  The memory [realloc]
    adds to the poll arrays is taken to be zero. *)

From stdpp Require Import gmap sorting.
From S2P Require Import Prelude Libraries ByteOrder Protocol Intercept NetBuffer ExportBuffer Publish.

Definition BUF_BATCH_SIZE : Z := 100 * 1024 * 1024.
Definition MIN_SEND_AMOUNT : Z := 1 * 1024 * 1024.

Record export_dest_t : Type := Mkexport_dest_t {
  ds_failmsg : Z;
  ds_fd : Z;
  ds_awaitingconfirm : Z;
  ds_halted : Z;
  ds_pollindex : Z;
  ds_mediatorid : Z;
  ds_ipstr : cstring;
  ds_portstr : cstring;
  ds_buffer : export_buffer_t;
  ds_logallowed : Z;
  ds_ssl : bool;                (* not NULL *)
  ds_waitingforhandshake : bool;
  ds_ssllasterror : Z;
  ds_rmq_queueid : cstring;
}.

(** The members of [openli_encoded_result_t] next to those ExportBuffer needs. *)
Record encoded_result : Type := Mkencoded_result {
  fr_body : openli_encoded_result_t;
  fr_seqno : Z;
  fr_destid : Z;
  fr_liid : bytes;
  fr_cinstr : bytes;
  fr_type : openli_export_type;   (* origreq->type *)
}.

Record int_reorderer_t : Type := Mkint_reorderer_t {
  ro_liid : bytes;
  ro_key : bytes;
  ro_expectedseqno : Z;
  ro_pending : gmap Z encoded_result;
}.

(** [zmq_pollitem_t]: the descriptor, whether events are asked for, and whether
    they have happened. *)
Record pollitem : Type := Mkpollitem { pi_fd : Z; pi_events : bool; pi_revents : bool }.

Record forwarding_thread_data_t : Type := Mkforwarding_thread_data_t {
  fw_heap : gmap Z export_dest_t;
  fw_next : Z;                    (* no descriptor was ever here or above *)
  fw_by_id : gmap Z Z;            (* destinations_by_id *)
  fw_by_fd : gmap Z Z;            (* destinations_by_fd *)
  fw_reord_cc : gmap bytes int_reorderer_t;
  fw_reord_iri : gmap bytes int_reorderer_t;
  fw_topoll : list pollitem;
  fw_forcesend : list bool;
  fw_pollsize : Z;
  fw_nextpoll : Z;
  fw_awaitingconfirm : bool;
  fw_flagtimerfd : Z;
  fw_forcesend_rmq : bool;
  fw_rmq : bool;                  (* ampq_conn is not NULL *)
  fw_tls : bool;                  (* ctx is not NULL *)
}.

Definition set_ds_failmsg (v : Z) (d : export_dest_t) : export_dest_t :=
  Mkexport_dest_t v d.(ds_fd) d.(ds_awaitingconfirm) d.(ds_halted) d.(ds_pollindex)
    d.(ds_mediatorid) d.(ds_ipstr) d.(ds_portstr) d.(ds_buffer) d.(ds_logallowed) d.(ds_ssl)
    d.(ds_waitingforhandshake) d.(ds_ssllasterror) d.(ds_rmq_queueid).
Definition set_ds_fd (v : Z) (d : export_dest_t) : export_dest_t :=
  Mkexport_dest_t d.(ds_failmsg) v d.(ds_awaitingconfirm) d.(ds_halted) d.(ds_pollindex)
    d.(ds_mediatorid) d.(ds_ipstr) d.(ds_portstr) d.(ds_buffer) d.(ds_logallowed) d.(ds_ssl)
    d.(ds_waitingforhandshake) d.(ds_ssllasterror) d.(ds_rmq_queueid).
Definition set_ds_awaitingconfirm (v : Z) (d : export_dest_t) : export_dest_t :=
  Mkexport_dest_t d.(ds_failmsg) d.(ds_fd) v d.(ds_halted) d.(ds_pollindex) d.(ds_mediatorid)
    d.(ds_ipstr) d.(ds_portstr) d.(ds_buffer) d.(ds_logallowed) d.(ds_ssl)
    d.(ds_waitingforhandshake) d.(ds_ssllasterror) d.(ds_rmq_queueid).
Definition set_ds_halted (v : Z) (d : export_dest_t) : export_dest_t :=
  Mkexport_dest_t d.(ds_failmsg) d.(ds_fd) d.(ds_awaitingconfirm) v d.(ds_pollindex)
    d.(ds_mediatorid) d.(ds_ipstr) d.(ds_portstr) d.(ds_buffer) d.(ds_logallowed) d.(ds_ssl)
    d.(ds_waitingforhandshake) d.(ds_ssllasterror) d.(ds_rmq_queueid).
Definition set_ds_pollindex (v : Z) (d : export_dest_t) : export_dest_t :=
  Mkexport_dest_t d.(ds_failmsg) d.(ds_fd) d.(ds_awaitingconfirm) d.(ds_halted) v
    d.(ds_mediatorid) d.(ds_ipstr) d.(ds_portstr) d.(ds_buffer) d.(ds_logallowed) d.(ds_ssl)
    d.(ds_waitingforhandshake) d.(ds_ssllasterror) d.(ds_rmq_queueid).
Definition set_ds_mediatorid (v : Z) (d : export_dest_t) : export_dest_t :=
  Mkexport_dest_t d.(ds_failmsg) d.(ds_fd) d.(ds_awaitingconfirm) d.(ds_halted) d.(ds_pollindex)
    v d.(ds_ipstr) d.(ds_portstr) d.(ds_buffer) d.(ds_logallowed) d.(ds_ssl)
    d.(ds_waitingforhandshake) d.(ds_ssllasterror) d.(ds_rmq_queueid).
Definition set_ds_ipstr (v : cstring) (d : export_dest_t) : export_dest_t :=
  Mkexport_dest_t d.(ds_failmsg) d.(ds_fd) d.(ds_awaitingconfirm) d.(ds_halted) d.(ds_pollindex)
    d.(ds_mediatorid) v d.(ds_portstr) d.(ds_buffer) d.(ds_logallowed) d.(ds_ssl)
    d.(ds_waitingforhandshake) d.(ds_ssllasterror) d.(ds_rmq_queueid).
Definition set_ds_portstr (v : cstring) (d : export_dest_t) : export_dest_t :=
  Mkexport_dest_t d.(ds_failmsg) d.(ds_fd) d.(ds_awaitingconfirm) d.(ds_halted) d.(ds_pollindex)
    d.(ds_mediatorid) d.(ds_ipstr) v d.(ds_buffer) d.(ds_logallowed) d.(ds_ssl)
    d.(ds_waitingforhandshake) d.(ds_ssllasterror) d.(ds_rmq_queueid).
Definition set_ds_buffer (v : export_buffer_t) (d : export_dest_t) : export_dest_t :=
  Mkexport_dest_t d.(ds_failmsg) d.(ds_fd) d.(ds_awaitingconfirm) d.(ds_halted) d.(ds_pollindex)
    d.(ds_mediatorid) d.(ds_ipstr) d.(ds_portstr) v d.(ds_logallowed) d.(ds_ssl)
    d.(ds_waitingforhandshake) d.(ds_ssllasterror) d.(ds_rmq_queueid).
Definition set_ds_logallowed (v : Z) (d : export_dest_t) : export_dest_t :=
  Mkexport_dest_t d.(ds_failmsg) d.(ds_fd) d.(ds_awaitingconfirm) d.(ds_halted) d.(ds_pollindex)
    d.(ds_mediatorid) d.(ds_ipstr) d.(ds_portstr) d.(ds_buffer) v d.(ds_ssl)
    d.(ds_waitingforhandshake) d.(ds_ssllasterror) d.(ds_rmq_queueid).
Definition set_ds_ssl (v : bool) (d : export_dest_t) : export_dest_t :=
  Mkexport_dest_t d.(ds_failmsg) d.(ds_fd) d.(ds_awaitingconfirm) d.(ds_halted) d.(ds_pollindex)
    d.(ds_mediatorid) d.(ds_ipstr) d.(ds_portstr) d.(ds_buffer) d.(ds_logallowed) v
    d.(ds_waitingforhandshake) d.(ds_ssllasterror) d.(ds_rmq_queueid).
Definition set_ds_waitingforhandshake (v : bool) (d : export_dest_t) : export_dest_t :=
  Mkexport_dest_t d.(ds_failmsg) d.(ds_fd) d.(ds_awaitingconfirm) d.(ds_halted) d.(ds_pollindex)
    d.(ds_mediatorid) d.(ds_ipstr) d.(ds_portstr) d.(ds_buffer) d.(ds_logallowed) d.(ds_ssl) v
    d.(ds_ssllasterror) d.(ds_rmq_queueid).
Definition set_ds_ssllasterror (v : Z) (d : export_dest_t) : export_dest_t :=
  Mkexport_dest_t d.(ds_failmsg) d.(ds_fd) d.(ds_awaitingconfirm) d.(ds_halted) d.(ds_pollindex)
    d.(ds_mediatorid) d.(ds_ipstr) d.(ds_portstr) d.(ds_buffer) d.(ds_logallowed) d.(ds_ssl)
    d.(ds_waitingforhandshake) v d.(ds_rmq_queueid).
Definition set_ds_rmq_queueid (v : cstring) (d : export_dest_t) : export_dest_t :=
  Mkexport_dest_t d.(ds_failmsg) d.(ds_fd) d.(ds_awaitingconfirm) d.(ds_halted) d.(ds_pollindex)
    d.(ds_mediatorid) d.(ds_ipstr) d.(ds_portstr) d.(ds_buffer) d.(ds_logallowed) d.(ds_ssl)
    d.(ds_waitingforhandshake) d.(ds_ssllasterror) v.

Definition set_fw_heap (v : gmap Z export_dest_t) (f : forwarding_thread_data_t) : forwarding_thread_data_t :=
  Mkforwarding_thread_data_t v f.(fw_next) f.(fw_by_id) f.(fw_by_fd) f.(fw_reord_cc)
    f.(fw_reord_iri) f.(fw_topoll) f.(fw_forcesend) f.(fw_pollsize) f.(fw_nextpoll)
    f.(fw_awaitingconfirm) f.(fw_flagtimerfd) f.(fw_forcesend_rmq) f.(fw_rmq) f.(fw_tls).
Definition set_fw_next (v : Z) (f : forwarding_thread_data_t) : forwarding_thread_data_t :=
  Mkforwarding_thread_data_t f.(fw_heap) v f.(fw_by_id) f.(fw_by_fd) f.(fw_reord_cc)
    f.(fw_reord_iri) f.(fw_topoll) f.(fw_forcesend) f.(fw_pollsize) f.(fw_nextpoll)
    f.(fw_awaitingconfirm) f.(fw_flagtimerfd) f.(fw_forcesend_rmq) f.(fw_rmq) f.(fw_tls).
Definition set_fw_by_id (v : gmap Z Z) (f : forwarding_thread_data_t) : forwarding_thread_data_t :=
  Mkforwarding_thread_data_t f.(fw_heap) f.(fw_next) v f.(fw_by_fd) f.(fw_reord_cc)
    f.(fw_reord_iri) f.(fw_topoll) f.(fw_forcesend) f.(fw_pollsize) f.(fw_nextpoll)
    f.(fw_awaitingconfirm) f.(fw_flagtimerfd) f.(fw_forcesend_rmq) f.(fw_rmq) f.(fw_tls).
Definition set_fw_by_fd (v : gmap Z Z) (f : forwarding_thread_data_t) : forwarding_thread_data_t :=
  Mkforwarding_thread_data_t f.(fw_heap) f.(fw_next) f.(fw_by_id) v f.(fw_reord_cc)
    f.(fw_reord_iri) f.(fw_topoll) f.(fw_forcesend) f.(fw_pollsize) f.(fw_nextpoll)
    f.(fw_awaitingconfirm) f.(fw_flagtimerfd) f.(fw_forcesend_rmq) f.(fw_rmq) f.(fw_tls).
Definition set_fw_reord_cc (v : gmap bytes int_reorderer_t) (f : forwarding_thread_data_t) : forwarding_thread_data_t :=
  Mkforwarding_thread_data_t f.(fw_heap) f.(fw_next) f.(fw_by_id) f.(fw_by_fd) v
    f.(fw_reord_iri) f.(fw_topoll) f.(fw_forcesend) f.(fw_pollsize) f.(fw_nextpoll)
    f.(fw_awaitingconfirm) f.(fw_flagtimerfd) f.(fw_forcesend_rmq) f.(fw_rmq) f.(fw_tls).
Definition set_fw_reord_iri (v : gmap bytes int_reorderer_t) (f : forwarding_thread_data_t) : forwarding_thread_data_t :=
  Mkforwarding_thread_data_t f.(fw_heap) f.(fw_next) f.(fw_by_id) f.(fw_by_fd) f.(fw_reord_cc) v
    f.(fw_topoll) f.(fw_forcesend) f.(fw_pollsize) f.(fw_nextpoll) f.(fw_awaitingconfirm)
    f.(fw_flagtimerfd) f.(fw_forcesend_rmq) f.(fw_rmq) f.(fw_tls).
Definition set_fw_topoll (v : list pollitem) (f : forwarding_thread_data_t) : forwarding_thread_data_t :=
  Mkforwarding_thread_data_t f.(fw_heap) f.(fw_next) f.(fw_by_id) f.(fw_by_fd) f.(fw_reord_cc)
    f.(fw_reord_iri) v f.(fw_forcesend) f.(fw_pollsize) f.(fw_nextpoll) f.(fw_awaitingconfirm)
    f.(fw_flagtimerfd) f.(fw_forcesend_rmq) f.(fw_rmq) f.(fw_tls).
Definition set_fw_forcesend (v : list bool) (f : forwarding_thread_data_t) : forwarding_thread_data_t :=
  Mkforwarding_thread_data_t f.(fw_heap) f.(fw_next) f.(fw_by_id) f.(fw_by_fd) f.(fw_reord_cc)
    f.(fw_reord_iri) f.(fw_topoll) v f.(fw_pollsize) f.(fw_nextpoll) f.(fw_awaitingconfirm)
    f.(fw_flagtimerfd) f.(fw_forcesend_rmq) f.(fw_rmq) f.(fw_tls).
Definition set_fw_pollsize (v : Z) (f : forwarding_thread_data_t) : forwarding_thread_data_t :=
  Mkforwarding_thread_data_t f.(fw_heap) f.(fw_next) f.(fw_by_id) f.(fw_by_fd) f.(fw_reord_cc)
    f.(fw_reord_iri) f.(fw_topoll) f.(fw_forcesend) v f.(fw_nextpoll) f.(fw_awaitingconfirm)
    f.(fw_flagtimerfd) f.(fw_forcesend_rmq) f.(fw_rmq) f.(fw_tls).
Definition set_fw_nextpoll (v : Z) (f : forwarding_thread_data_t) : forwarding_thread_data_t :=
  Mkforwarding_thread_data_t f.(fw_heap) f.(fw_next) f.(fw_by_id) f.(fw_by_fd) f.(fw_reord_cc)
    f.(fw_reord_iri) f.(fw_topoll) f.(fw_forcesend) f.(fw_pollsize) v f.(fw_awaitingconfirm)
    f.(fw_flagtimerfd) f.(fw_forcesend_rmq) f.(fw_rmq) f.(fw_tls).
Definition set_fw_awaitingconfirm (v : bool) (f : forwarding_thread_data_t) : forwarding_thread_data_t :=
  Mkforwarding_thread_data_t f.(fw_heap) f.(fw_next) f.(fw_by_id) f.(fw_by_fd) f.(fw_reord_cc)
    f.(fw_reord_iri) f.(fw_topoll) f.(fw_forcesend) f.(fw_pollsize) f.(fw_nextpoll) v
    f.(fw_flagtimerfd) f.(fw_forcesend_rmq) f.(fw_rmq) f.(fw_tls).
Definition set_fw_flagtimerfd (v : Z) (f : forwarding_thread_data_t) : forwarding_thread_data_t :=
  Mkforwarding_thread_data_t f.(fw_heap) f.(fw_next) f.(fw_by_id) f.(fw_by_fd) f.(fw_reord_cc)
    f.(fw_reord_iri) f.(fw_topoll) f.(fw_forcesend) f.(fw_pollsize) f.(fw_nextpoll)
    f.(fw_awaitingconfirm) v f.(fw_forcesend_rmq) f.(fw_rmq) f.(fw_tls).
Definition set_fw_forcesend_rmq (v : bool) (f : forwarding_thread_data_t) : forwarding_thread_data_t :=
  Mkforwarding_thread_data_t f.(fw_heap) f.(fw_next) f.(fw_by_id) f.(fw_by_fd) f.(fw_reord_cc)
    f.(fw_reord_iri) f.(fw_topoll) f.(fw_forcesend) f.(fw_pollsize) f.(fw_nextpoll)
    f.(fw_awaitingconfirm) f.(fw_flagtimerfd) v f.(fw_rmq) f.(fw_tls).
Definition set_fw_rmq (v : bool) (f : forwarding_thread_data_t) : forwarding_thread_data_t :=
  Mkforwarding_thread_data_t f.(fw_heap) f.(fw_next) f.(fw_by_id) f.(fw_by_fd) f.(fw_reord_cc)
    f.(fw_reord_iri) f.(fw_topoll) f.(fw_forcesend) f.(fw_pollsize) f.(fw_nextpoll)
    f.(fw_awaitingconfirm) f.(fw_flagtimerfd) f.(fw_forcesend_rmq) v f.(fw_tls).
Definition set_fw_tls (v : bool) (f : forwarding_thread_data_t) : forwarding_thread_data_t :=
  Mkforwarding_thread_data_t f.(fw_heap) f.(fw_next) f.(fw_by_id) f.(fw_by_fd) f.(fw_reord_cc)
    f.(fw_reord_iri) f.(fw_topoll) f.(fw_forcesend) f.(fw_pollsize) f.(fw_nextpoll)
    f.(fw_awaitingconfirm) f.(fw_flagtimerfd) f.(fw_forcesend_rmq) f.(fw_rmq) v.

(** ** Memory and tables *)

Definition deref (a : Z) (f : forwarding_thread_data_t) : outcome export_dest_t :=
  match f.(fw_heap) !! a with Some d => Ok d | None => Undef end.
Definition store_dest (a : Z) (d : export_dest_t) (f : forwarding_thread_data_t)
    : forwarding_thread_data_t := set_fw_heap (<[a := d]> f.(fw_heap)) f.

(** Assignments to [a[i]]. *)
Definition write_index {A} (i : Z) (x : A) (l : list A) : outcome (list A) :=
  if decide (0 ≤ i < zlen l) then Ok (<[Z.to_nat i := x]> l) else Undef.
Definition read_index {A} (i : Z) (l : list A) : outcome A :=
  if decide (0 ≤ i) then match l !! Z.to_nat i with Some x => Ok x | None => Undef end else Undef.

(** [JLF] and [JLN] over the descriptors: by increasing mediator id. *)
Definition id_le (p q : Z * Z) : Prop := p.1 ≤ q.1.
#[global] Instance id_le_dec p q : Decision (id_le p q) := decide (p.1 ≤ q.1).
Definition judy_list (m : gmap Z Z) : list (Z * Z) := merge_sort id_le (map_to_list m).

Fixpoint for_each {A S} (step : A → S → outcome S) (l : list A) (s : S) : outcome S :=
  match l with
  | [] => Ok s
  | x :: l => s' ← step x s; for_each step l s'
  end.

(** [snprintf(stringspace, 32, "ID%d", mediatorid)] *)
Definition rmq_queue_name (id : Z) : bytes :=
  let n := i32 id in
  of_string "ID" ++ (if n <? 0 then 45 :: print_u (- n) else print_u n).

(** What [calloc] and the assignments after it make. *)
Definition new_dest (id : Z) (ip port : cstring) (rmq : bool) : export_dest_t :=
  {| ds_failmsg := 0; ds_fd := -1; ds_awaitingconfirm := 0; ds_halted := 0; ds_pollindex := -1;
     ds_mediatorid := id; ds_ipstr := ip; ds_portstr := port; ds_buffer := init_export_buffer;
     ds_logallowed := 1; ds_ssl := false; ds_waitingforhandshake := false; ds_ssllasterror := 0;
     ds_rmq_queueid := if rmq then Some (rmq_queue_name id) else None |}.

(** Allocation of a descriptor, and its entry in [destinations_by_id]. *)
Definition alloc_dest (d : export_dest_t) (f : forwarding_thread_data_t)
    : Z * forwarding_thread_data_t :=
  (f.(fw_next),
   set_fw_by_id (<[d.(ds_mediatorid) := f.(fw_next)]> f.(fw_by_id))
     (set_fw_next (f.(fw_next) + 1) (store_dest f.(fw_next) d f))).

(** ** Mediators come and go *)

(** [disconnect_mediator] *)
Definition disconnect_mediator (a : Z) (f : forwarding_thread_data_t)
    : outcome forwarding_thread_data_t :=
  med ← deref a f;
  topoll ← (if 0 <=? med.(ds_pollindex) then
              item ← read_index med.(ds_pollindex) f.(fw_topoll);
              write_index med.(ds_pollindex) (Mkpollitem 0 false item.(pi_revents)) f.(fw_topoll)
            else Ok f.(fw_topoll));
  Ok (set_fw_topoll topoll
       (store_dest a (set_ds_ssl false (set_ds_logallowed 0 (set_ds_fd (-1) med))) f)).

(** [remove_destination] *)
Definition remove_destination (a : Z) (f : forwarding_thread_data_t)
    : outcome forwarding_thread_data_t :=
  med ← deref a f;
  let f1 := set_fw_by_id (delete med.(ds_mediatorid) f.(fw_by_id)) f in
  f2 ← (if med.(ds_fd) =? -1 then Ok f1
        else disconnect_mediator a (set_fw_by_fd (delete med.(ds_fd) f1.(fw_by_fd)) f1));
  Ok (set_fw_heap (delete a f2.(fw_heap)) f2).

(** [remove_all_destinations] *)
Definition remove_all_destinations (f : forwarding_thread_data_t)
    : outcome forwarding_thread_data_t :=
  for_each (λ p f, remove_destination p.2 f) (judy_list f.(fw_by_id)) f.

(** [disconnect_all_destinations] *)
Definition disconnect_all_destinations (f : forwarding_thread_data_t)
    : outcome forwarding_thread_data_t :=
  for_each (λ p f,
    f1 ← disconnect_mediator p.2 f;
    med ← deref p.2 f1;
    Ok (store_dest p.2 (set_ds_ssllasterror 0 med) f1)) (judy_list f.(fw_by_id)) f.

(** [flag_all_destinations] *)
Definition flag_all_destinations (f : forwarding_thread_data_t)
    : outcome forwarding_thread_data_t :=
  f1 ← for_each (λ p f, med ← deref p.2 f; Ok (store_dest p.2 (set_ds_awaitingconfirm 1 med) f))
         (judy_list f.(fw_by_id)) f;
  Ok (set_fw_flagtimerfd (-1) (set_fw_awaitingconfirm true f1)).

(** [purge_unconfirmed_mediators] *)
Definition purge_unconfirmed_mediators (f : forwarding_thread_data_t)
    : outcome forwarding_thread_data_t :=
  for_each (λ p f,
    med ← deref p.2 f;
    if med.(ds_awaitingconfirm) =? 0 then Ok f else remove_destination p.2 f)
    (judy_list f.(fw_by_id)) f.

(** The branch of [add_new_destination] for a mediator that is in the table. *)
Definition update_destination (a : Z) (m : openli_mediator_t) (f : forwarding_thread_data_t)
    : outcome forwarding_thread_data_t :=
  found ← deref a f;
  match found.(ds_ipstr) with
  | None =>
      Ok (store_dest a (set_ds_logallowed 1 (set_ds_failmsg 0 (set_ds_fd (-1)
            (set_ds_portstr m.(med_portstr) (set_ds_ipstr m.(med_ipstr) found))))) f)
  | Some _ =>
      oldip ← c_str found.(ds_ipstr);
      newip ← c_str m.(med_ipstr);
      moved ← (if decide (oldip = newip) then
                 oldport ← c_str found.(ds_portstr);
                 newport ← c_str m.(med_portstr);
                 Ok (negb (bool_decide (oldport = newport)))
               else Ok true);
      let found1 :=
        if moved : bool
        then set_ds_fd (-1) (set_ds_logallowed 1
               (set_ds_portstr m.(med_portstr) (set_ds_ipstr m.(med_ipstr) found)))
        else found in
      Ok (store_dest a (set_ds_halted 0 (set_ds_awaitingconfirm 0 found1)) f)
  end.

(** [add_new_destination]; [timer] is the answer of [timerfd_create]. *)
Definition add_new_destination (timer : Z) (m : openli_mediator_t) (f : forwarding_thread_data_t)
    : outcome (Z * forwarding_thread_data_t) :=
  f1 ← match f.(fw_by_id) !! m.(med_mediatorid) with
       | None =>
           Ok (alloc_dest (new_dest m.(med_mediatorid) m.(med_ipstr) m.(med_portstr) f.(fw_rmq)) f).2
       | Some a => update_destination a m f
       end;
  if f1.(fw_awaitingconfirm) && (f1.(fw_flagtimerfd) =? -1) then
    let f2 := set_fw_flagtimerfd timer f1 in
    Ok (if timer =? -1 then -1 else 1, f2)
  else Ok (1, f1).

(** [remove_reorderers].  The key of every reorderer is copied to a buffer of
    256 bytes. *)
Definition remove_reorderers (liid : cstring) (m : gmap bytes int_reorderer_t)
    : outcome (gmap bytes int_reorderer_t) :=
  if decide (map_Forall (λ key _, zlen key < 256) m) then
    Ok (match liid with
        | None => ∅
        | Some l => filter (λ p, p.2.(ro_liid) ≠ until_nul l) m
        end)
  else Undef.

(** [handle_ctrl_message]; 0 means that the thread has to stop. *)
Definition handle_ctrl_message (timer : Z) (msg : openli_export_recv_t)
    (f : forwarding_thread_data_t) : outcome (Z * forwarding_thread_data_t) :=
  match msg.(ex_type) with
  | OPENLI_EXPORT_HALT => Ok (0, f)
  | OPENLI_EXPORT_INTERCEPT_OVER =>
      match msg.(ex_data) with
      | Data_cept m =>
          cc ← remove_reorderers m.(pc_liid) f.(fw_reord_cc);
          iri ← remove_reorderers m.(pc_liid) f.(fw_reord_iri);
          Ok (1, set_fw_reord_iri iri (set_fw_reord_cc cc f))
      | _ => Undef
      end
  | OPENLI_EXPORT_MEDIATOR =>
      match msg.(ex_data) with Data_med m => add_new_destination timer m f | _ => Undef end
  | OPENLI_EXPORT_DROP_SINGLE_MEDIATOR =>
      match msg.(ex_data) with
      | Data_med m =>
          match f.(fw_by_id) !! m.(med_mediatorid) with
          | None => Ok (1, f)
          | Some a => f1 ← remove_destination a f; Ok (1, f1)
          end
      | _ => Undef
      end
  | OPENLI_EXPORT_DROP_ALL_MEDIATORS => f1 ← remove_all_destinations f; Ok (1, f1)
  | OPENLI_EXPORT_FLAG_MEDIATORS => f1 ← flag_all_destinations f; Ok (1, f1)
  | OPENLI_EXPORT_RECONNECT_ALL_MEDIATORS => f1 ← disconnect_all_destinations f; Ok (1, f1)
  | _ => Ok (1, f)
  end.

(** ** Records *)

(** The table [enqueue_result] chooses. *)
Definition reorderers (cc : bool) (f : forwarding_thread_data_t) : gmap bytes int_reorderer_t :=
  if cc then f.(fw_reord_cc) else f.(fw_reord_iri).
Definition set_reorderer (cc : bool) (key : bytes) (r : int_reorderer_t)
    (f : forwarding_thread_data_t) : forwarding_thread_data_t :=
  if cc then set_fw_reord_cc (<[key := r]> f.(fw_reord_cc)) f
  else set_fw_reord_iri (<[key := r]> f.(fw_reord_iri)) f.

(** The reorderer of a record, a new one if there is none. *)
Definition get_reorderer (res : encoded_result) (f : forwarding_thread_data_t) : int_reorderer_t :=
  match reorderers (is_cc res.(fr_type)) f !! res.(fr_cinstr) with
  | Some r => r
  | None => Mkint_reorderer_t res.(fr_liid) res.(fr_cinstr) 0 ∅
  end.

Definition set_ro (expected : Z) (pending : gmap Z encoded_result) (r : int_reorderer_t)
    : int_reorderer_t := Mkint_reorderer_t r.(ro_liid) r.(ro_key) expected pending.

Section forwarder.
Context {J : Judy1} (realloc_ok : Z → bool).

(** [append_message_to_buffer(&(med->buffer), res, 0)], and the call of
    [remove_destination] when it returns 0: whether it was appended. *)
Definition append_or_drop (a : Z) (res : encoded_result) (f : forwarding_thread_data_t)
    : outcome (bool * forwarding_thread_data_t) :=
  med ← deref a f;
  '(n, buf) ← append_message_to_buffer realloc_ok res.(fr_body) 0 med.(ds_buffer);
  let f1 := store_dest a (set_ds_buffer buf med) f in
  if n =? 0 then f2 ← remove_destination a f1; Ok (false, f2) else Ok (true, f1).

(** The loop over the records that waited for the one just sent. *)
Fixpoint release_pending (fuel : nat) (a : Z) (reord : int_reorderer_t)
    (f : forwarding_thread_data_t) : outcome (Z * int_reorderer_t * forwarding_thread_data_t) :=
  match reord.(ro_pending) !! reord.(ro_expectedseqno) with
  | None => Ok (1, reord, f)
  | Some stored =>
      match fuel with
      | O => Undef
      | S fuel =>
          let pending := delete reord.(ro_expectedseqno) reord.(ro_pending) in
          '(ok, f1) ← append_or_drop a stored f;
          if negb ok then Ok (-1, set_ro reord.(ro_expectedseqno) pending reord, f1)
          else release_pending fuel a (set_ro (u32 (stored.(fr_seqno) + 1)) pending reord) f1
      end
  end.

(** [enqueue_result] *)
Definition enqueue_result (a : Z) (res : encoded_result) (f : forwarding_thread_data_t)
    : outcome (Z * forwarding_thread_data_t) :=
  let reord := get_reorderer res f in
  let save r f := set_reorderer (is_cc res.(fr_type)) res.(fr_cinstr) r f in
  if negb (res.(fr_seqno) =? reord.(ro_expectedseqno)) then
    Ok (0, save (set_ro reord.(ro_expectedseqno)
                   (<[res.(fr_seqno) := res]> reord.(ro_pending)) reord) f)
  else
    '(ok, f1) ← append_or_drop a res f;
    if negb ok then Ok (1, save reord f1)
    else
      '(rc, reord', f2) ←
        release_pending (size reord.(ro_pending)) a
          (set_ro (u32 (res.(fr_seqno) + 1)) reord.(ro_pending) reord) f1;
      Ok (rc, save reord' f2).

(** [handle_encoded_result] *)
Definition handle_encoded_result (res : encoded_result) (f : forwarding_thread_data_t)
    : outcome (Z * forwarding_thread_data_t) :=
  let '(a, f1) := match f.(fw_by_id) !! res.(fr_destid) with
                  | Some a => (a, f)
                  | None => alloc_dest (new_dest res.(fr_destid) None None f.(fw_rmq)) f
                  end in
  enqueue_result a res f1.

(** What [zmq_recv] gives [receive_incoming_etsi]. *)
Inductive etsi_recv : Type :=
  | EtsiBatch (results : list encoded_result)   (* at least one byte *)
  | EtsiNone                                    (* nothing left, or no bytes *)
  | EtsiOdd                                     (* not a whole number of results *)
  | EtsiError.

Fixpoint handle_batch (results : list encoded_result) (f : forwarding_thread_data_t)
    : outcome (Z * forwarding_thread_data_t) :=
  match results with
  | [] => Ok (1, f)
  | res :: results =>
      '(rc, f1) ← handle_encoded_result res f;
      if rc <? 0 then Ok (-1, f1) else handle_batch results f1
  end.

(** [receive_incoming_etsi]: the return value, the answers that were not asked
    for, and the thread. *)
Fixpoint receive_incoming_etsi (recvs : list etsi_recv) (processed : Z)
    (f : forwarding_thread_data_t) : outcome (Z * list etsi_recv * forwarding_thread_data_t) :=
  match recvs with
  | [] => Ok (1, [], f)
  | EtsiError :: recvs | EtsiOdd :: recvs => Ok (-1, recvs, f)
  | EtsiNone :: recvs => Ok (1, recvs, f)
  | EtsiBatch results :: recvs =>
      '(rc, f1) ← handle_batch results f;
      if rc <? 0 then Ok (-1, recvs, f1)
      else if processed + zlen results <? 100000
           then receive_incoming_etsi recvs (processed + zlen results) f1
           else Ok (1, recvs, f1)
  end.

(** [process_control_message]; [None] is an error of the socket. *)
Fixpoint process_control_message (timer : Z) (msgs : list (option openli_export_recv_t))
    (f : forwarding_thread_data_t) : outcome (Z * forwarding_thread_data_t) :=
  match msgs with
  | [] => Ok (1, f)
  | None :: _ => Ok (-1, f)
  | Some msg :: msgs =>
      '(rc, f1) ← handle_ctrl_message timer msg f;
      if rc <=? 0 then Ok (-1, f1) else process_control_message timer msgs f1
  end.

(** ** Connections *)

(** What [connect_socket] and [SSL_connect] answer. *)
Inductive ssl_answer : Type := SslDone | SslWant | SslFailed.
Inductive connect_answer : Type :=
  | ConnectError                            (* -1 *)
  | ConnectRefused                          (* 0 *)
  | Connected (fd : Z) (hs : ssl_answer).

(** [connect_single_target]: the descriptor it returns and the destination. *)
Definition connect_single_target (ans : connect_answer) (tls : bool) (dest : export_dest_t)
    : Z * export_dest_t :=
  match dest.(ds_ipstr) with
  | None => (-1, dest)
  | Some _ =>
      match ans with
      | ConnectError => (-1, dest)
      | ConnectRefused => (-1, set_ds_failmsg 1 dest)
      | Connected fd hs =>
          if tls && match hs with SslFailed => true | _ => false end
          then (-1, set_ds_ssl false dest)
          else
            let b := dest.(ds_buffer) in
            (fd, set_ds_buffer (set_eb_partial 0 b.(eb_partialrem) b)
                   (set_ds_failmsg 0 (set_ds_ssl tls dest)))
      end
  end.

(** Make room in the poll arrays and take the next place in them. *)
Definition next_pollindex (f : forwarding_thread_data_t) : Z * forwarding_thread_data_t :=
  let f1 := if f.(fw_nextpoll) =? f.(fw_pollsize) - 1
            then set_fw_pollsize (f.(fw_pollsize) + 10)
                   (set_fw_forcesend (f.(fw_forcesend) ++ replicate 10 false)
                     (set_fw_topoll (f.(fw_topoll) ++ replicate 10 (Mkpollitem 0 false false)) f))
            else f in
  (f1.(fw_nextpoll), set_fw_nextpoll (f1.(fw_nextpoll) + 1) f1).

(** One turn of the loop of [connect_export_targets]. *)
Definition connect_export_target (ans : Z → connect_answer) (p : Z * Z)
    (f : forwarding_thread_data_t) : outcome forwarding_thread_data_t :=
  dest ← deref p.2 f;
  if negb (dest.(ds_fd) =? -1) || negb (dest.(ds_halted) =? 0) then Ok f
  else
    let '(fd, dest1) := connect_single_target (ans p.1) f.(fw_tls) dest in
    let dest2 := set_ds_fd fd dest1 in
    if fd =? -1 then Ok (store_dest p.2 dest2 f)
    else
      let '(ind, f1) := if dest2.(ds_pollindex) =? -1 then next_pollindex f
                        else (dest2.(ds_pollindex), f) in
      forcesend ← write_index ind false f1.(fw_forcesend);
      topoll ← write_index ind (Mkpollitem fd true false) f1.(fw_topoll);
      Ok (set_fw_topoll topoll (set_fw_forcesend forcesend
           (set_fw_by_fd (<[fd := p.2]> f1.(fw_by_fd))
             (store_dest p.2 (set_ds_waitingforhandshake dest2.(ds_ssl)
                               (set_ds_pollindex ind dest2)) f1)))).

Definition connect_export_targets (ans : Z → connect_answer) (f : forwarding_thread_data_t)
    : outcome forwarding_thread_data_t :=
  for_each (connect_export_target ans) (judy_list f.(fw_by_id)) f.

(** [rmq_write_buffered]; [hb] and [published] are what the connection and the
    broker answer for a mediator.  The heartbeat blocks until it is sent or fails;
    answers that end before that count as sent. *)
Definition rmq_write_dest (hb : Z → list send_result) (published : Z → bool) (p : Z * Z)
    (f : forwarding_thread_data_t) : outcome forwarding_thread_data_t :=
  dest ← deref p.2 f;
  f1 ← (if negb (dest.(ds_fd) =? -1) && f.(fw_forcesend_rmq) && negb dest.(ds_waitingforhandshake)
        then match (transmit_heartbeat (hb p.1)).1 with
             | Some rc => if rc <? 0 then disconnect_mediator p.2 f else Ok f
             | None => Ok f
             end
        else Ok f);
  dest1 ← deref p.2 f1;
  let availsend := get_buffered_amount dest1.(ds_buffer) in
  if (availsend =? 0) || ((availsend <? MIN_SEND_AMOUNT) && negb f1.(fw_forcesend_rmq)) then Ok f1
  else
    '(_, buf, _) ← transmit_buffered_records_RMQ realloc_ok BUF_BATCH_SIZE (published p.1)
                     dest1.(ds_buffer);
    Ok (store_dest p.2 (set_ds_buffer buf dest1) f1).

Definition rmq_write_buffered (hb : Z → list send_result) (published : Z → bool)
    (f : forwarding_thread_data_t) : outcome forwarding_thread_data_t :=
  for_each (rmq_write_dest hb published) (judy_list f.(fw_by_id)) f.

(** [complete_ssl_handshake] *)
Definition complete_ssl_handshake (hs : ssl_answer) (a : Z) (f : forwarding_thread_data_t)
    : outcome forwarding_thread_data_t :=
  dest ← deref a f;
  match hs with
  | SslWant => Ok f
  | SslFailed =>
      disconnect_mediator a
        (store_dest a (set_ds_ssllasterror 1 (set_ds_waitingforhandshake false dest)) f)
  | SslDone => Ok (store_dest a (set_ds_ssllasterror 0 (set_ds_waitingforhandshake false dest)) f)
  end.

(** The part of a turn of the sending loop for the destination at [a]. *)
Definition send_dest (i a : Z) (hs : ssl_answer) (res : send_result) (f : forwarding_thread_data_t)
    : outcome forwarding_thread_data_t :=
  dest ← deref a f;
  if dest.(ds_waitingforhandshake) then complete_ssl_handshake hs a f
  else if f.(fw_rmq) then Ok f
  else
    let availsend := get_buffered_amount dest.(ds_buffer) in
    force ← read_index i f.(fw_forcesend);
    if (availsend =? 0) || (negb force && (availsend <? MIN_SEND_AMOUNT)) then Ok f
    else
      '(rc, buf, _) ← transmit_buffered_records realloc_ok BUF_BATCH_SIZE res dest.(ds_buffer);
      let f1 := store_dest a (set_ds_buffer buf dest) f in
      f2 ← (if rc <? 0 then disconnect_mediator a f1
            else Ok (store_dest a (set_ds_logallowed 1 (set_ds_buffer buf dest)) f1));
      forcesend ← write_index i false f2.(fw_forcesend);
      Ok (set_fw_forcesend forcesend f2).

(** One turn of the sending loop at the end of [forwarder_main_loop]. *)
Definition send_slot (hs : Z → ssl_answer) (sent : Z → send_result) (i : Z)
    (f : forwarding_thread_data_t) : outcome forwarding_thread_data_t :=
  item ← read_index i f.(fw_topoll);
  if negb item.(pi_revents) then Ok f
  else
    topoll ← write_index i (Mkpollitem item.(pi_fd) item.(pi_events) false) f.(fw_topoll);
    let f1 := set_fw_topoll topoll f in
    if negb item.(pi_events) then Ok f1
    else match f1.(fw_by_fd) !! item.(pi_fd) with
      | None =>
          topoll ← write_index i (Mkpollitem item.(pi_fd) false false) f1.(fw_topoll);
          Ok (set_fw_topoll topoll f1)
      | Some a => send_dest i a (hs i) (sent i) f1
      end.

(** What one turn of the main loop gets to see: [li_poll] is [None] when
    [zmq_poll] fails and otherwise tells which items are ready. *)
Record loop_input : Type := Mkloop_input {
  li_poll : option (list bool);
  li_ctrl : list (option openli_export_recv_t);
  li_timerfd : Z;
  li_connect : Z → connect_answer;
  li_etsi : list etsi_recv;
  li_heartbeat : Z → list send_result;
  li_published : Z → bool;
  li_handshake : Z → ssl_answer;
  li_sent : Z → send_result;
}.

Definition poll_ready (i : Z) (f : forwarding_thread_data_t) : outcome bool :=
  item ← read_index i f.(fw_topoll); Ok item.(pi_revents).
Definition clear_ready (i : Z) (f : forwarding_thread_data_t) : outcome forwarding_thread_data_t :=
  item ← read_index i f.(fw_topoll);
  topoll ← write_index i (Mkpollitem item.(pi_fd) item.(pi_events) false) f.(fw_topoll);
  Ok (set_fw_topoll topoll f).

(** The timer for unconfirmed mediators is polled behind the destinations. *)
Definition poll_flag_timer (f : forwarding_thread_data_t) : bool :=
  f.(fw_awaitingconfirm) && negb (f.(fw_flagtimerfd) =? -1).

(** [forwarder_main_loop]: the return value and the thread. *)
Definition forwarder_main_loop (inp : loop_input) (f : forwarding_thread_data_t)
    : outcome (Z * forwarding_thread_data_t) :=
  topoll ← (if poll_flag_timer f
            then item ← read_index f.(fw_nextpoll) f.(fw_topoll);
                 write_index f.(fw_nextpoll)
                   (Mkpollitem f.(fw_flagtimerfd) true item.(pi_revents)) f.(fw_topoll)
            else Ok f.(fw_topoll));
  let topollc := if poll_flag_timer f then f.(fw_nextpoll) + 1 else f.(fw_nextpoll) in
  match inp.(li_poll) with
  | None => Ok (-1, set_fw_topoll topoll f)
  | Some ready =>
      (* zmq_poll writes the events of the first topollc items *)
      let polled := imap (λ i it,
                      if decide (Z.of_nat i < topollc)
                      then Mkpollitem it.(pi_fd) it.(pi_events)
                             (it.(pi_events) && default false (ready !! i))
                      else it) topoll in
      let f0 := set_fw_topoll polled f in
      ctrl ← poll_ready 0 f0;
      '(rc1, f1) ← (if ctrl : bool then process_control_message inp.(li_timerfd) inp.(li_ctrl) f0
                    else Ok (1, f0));
      if rc1 <? 0 then Ok (0, f1)
      else
        f1' ← (if ctrl : bool then clear_ready 0 f1 else Ok f1);
        timer ← poll_ready 2 f1';
        f2 ← (if timer : bool then
                f2 ← connect_export_targets inp.(li_connect) f1';
                Ok (set_fw_forcesend_rmq true (set_fw_forcesend
                     (imap (λ i b, if decide (3 ≤ Z.of_nat i < f2.(fw_nextpoll)) then true else b)
                       f2.(fw_forcesend)) f2))
              else Ok f1');
        etsi ← poll_ready 1 f2;
        '(rc3, f3) ← (if etsi : bool then
                        '(rc, _, f3) ← receive_incoming_etsi inp.(li_etsi) 0 f2; Ok (rc, f3)
                      else Ok (1, f2));
        if rc3 <? 0 then Ok (0, f3)
        else
          f3' ← (if etsi : bool then clear_ready 1 f3 else Ok f3);
          purge ← (if poll_flag_timer f3' then poll_ready f3'.(fw_nextpoll) f3' else Ok false);
          f4 ← (if purge : bool then
                  f4 ← purge_unconfirmed_mediators f3';
                  Ok (set_fw_flagtimerfd (-1) (set_fw_awaitingconfirm false f4))
                else Ok f3');
          f5 ← (if f4.(fw_rmq) then
                  f5 ← rmq_write_buffered inp.(li_heartbeat) inp.(li_published) f4;
                  Ok (set_fw_forcesend_rmq false f5)
                else Ok f4);
          f6 ← for_each (send_slot inp.(li_handshake) inp.(li_sent))
                 (seqZ 3 (f5.(fw_nextpoll) - 3)) f5;
          Ok (1, f6)
  end.

End forwarder.

(** The state [forwarder_main] sets up; [conntimerfd] is its timer. *)
Definition forwarder_init (conntimerfd : Z) (rmq tls : bool) : forwarding_thread_data_t :=
  {| fw_heap := ∅; fw_next := 0; fw_by_id := ∅; fw_by_fd := ∅; fw_reord_cc := ∅; fw_reord_iri := ∅;
     fw_topoll := [Mkpollitem 0 true false; Mkpollitem 0 true false; Mkpollitem conntimerfd true false]
                  ++ replicate 7 (Mkpollitem 0 false false);
     fw_forcesend := replicate 10 false; fw_pollsize := 10; fw_nextpoll := 3;
     fw_awaitingconfirm := false; fw_flagtimerfd := -1; fw_forcesend_rmq := false;
     fw_rmq := rmq; fw_tls := tls |}.

(** * Reordering *)

(** What [release_pending] does to a reorderer, without the buffers: the number
    it expects next, what still waits, and what it lets go. *)
Fixpoint release (fuel : nat) (e : Z) (p : gmap Z encoded_result)
    : Z * gmap Z encoded_result * list encoded_result :=
  match p !! e, fuel with
  | Some r, S fuel =>
      let '(e', p', out) := release fuel (u32 (r.(fr_seqno) + 1)) (delete e p) in (e', p', r :: out)
  | _, _ => (e, p, [])
  end.

(** The same for [enqueue_result]. *)
Definition reorder (e : Z) (p : gmap Z encoded_result) (r : encoded_result)
    : Z * gmap Z encoded_result * list encoded_result :=
  if negb (r.(fr_seqno) =? e) then (e, <[r.(fr_seqno) := r]> p, [])
  else let '(e', p', out) := release (size p) (u32 (r.(fr_seqno) + 1)) p in (e', p', r :: out).

Definition waiting (p : gmap Z encoded_result) : list encoded_result := (map_to_list p).*2.

(** What waits has its place under its own number, at or after [e]. *)
Definition pending_ok (n e : Z) (p : gmap Z encoded_result) : Prop :=
  0 ≤ e ∧ map_Forall (λ i r, r.(fr_seqno) = i ∧ e ≤ i < n) p.

Lemma waiting_delete p e r : p !! e = Some r → r :: waiting (delete e p) ≡ₚ waiting p.
Proof. intros H. unfold waiting. by rewrite <- (map_to_list_delete p e r H). Qed.

Lemma waiting_elem p r : r ∈ waiting p → ∃ i, p !! i = Some r.
Proof.
  intros ([i r'] & -> & Hin)%list_elem_of_fmap. exists i. by apply elem_of_map_to_list.
Qed.

(** Filtering by a property all elements share, or none has. *)
Lemma filter_uniform {A B} `{EqDecision B} (g : A → B) (b : B) l :
  Forall (λ x, g x = b) l → ∀ b', filter (λ x, g x = b') l = if decide (b' = b) then l else [].
Proof.
  intros Hl b'. induction Hl as [|x l Hx _ IH]; [by case_decide|]. rewrite filter_cons, IH, Hx.
  case_decide as E; case_decide as E'; congruence.
Qed.
Lemma filter_none {A} (P : A → Prop) `{!∀ x, Decision (P x)} l :
  Forall (λ x, ¬ P x) l → filter P l = [].
Proof. induction 1; [done|]. by rewrite filter_cons_False. Qed.
Lemma filter_split_perm {A} (P : A → Prop) `{!∀ x, Decision (P x)} l :
  filter (λ x, ¬ P x) l ++ filter P l ≡ₚ l.
Proof.
  induction l as [|x l IH]; [done|]. rewrite !filter_cons.
  destruct (decide (P x)); [rewrite decide_False by tauto|rewrite decide_True by done].
  - by rewrite <- Permutation_middle, IH.
  - simpl. by rewrite IH.
Qed.

Lemma pending_ok_delete n e p r :
  n < 2 ^ 32 → pending_ok n e p → p !! e = Some r →
  r.(fr_seqno) = e ∧ u32 (r.(fr_seqno) + 1) = e + 1 ∧ pending_ok n (e + 1) (delete e p).
Proof.
  intros Hn [H0 Hp] Hr. destruct (Hp _ _ Hr) as [Hs He].
  split; [done|]. split; [rewrite Hs; apply u32_id; lia|]. split; [lia|].
  intros i x [Hne Hx]%lookup_delete_Some. destruct (Hp _ _ Hx). split; [done|lia].
Qed.

(** Releasing takes the numbers that follow and stops at the first gap. *)
Lemma release_spec n fuel : ∀ e p,
  n < 2 ^ 32 → pending_ok n e p → (size p ≤ fuel)%nat →
  ∃ p' out, release fuel e p = (e + zlen out, p', out) ∧
    fr_seqno <$> out = seqZ e (zlen out) ∧ out ++ waiting p' ≡ₚ waiting p ∧
    pending_ok n (e + zlen out) p' ∧ p' !! (e + zlen out) = None.
Proof.
  induction fuel as [|fuel IH]; intros e p Hn Hp Hsz; cbn [release].
  - apply Nat.le_0_r, map_size_empty_iff in Hsz as ->. rewrite lookup_empty.
    exists ∅, []. rewrite Z.add_0_r. split_and!; [done..|apply lookup_empty].
  - destruct (p !! e) as [r|] eqn:Hr.
    + destruct (pending_ok_delete _ _ _ _ Hn Hp Hr) as (Hs & -> & Hp').
      destruct (IH (e + 1) (delete e p) Hn Hp') as (p' & out & -> & Hseq & Hperm & Hok & Hnone).
      { rewrite map_size_delete_Some by eauto. lia. }
      exists p', (r :: out). rewrite zlen_cons, Z.add_assoc. split_and!; [done| |by rewrite <- (waiting_delete _ _ _ Hr), <- Hperm|done..].
      zlen_pose. rewrite seqZ_cons, fmap_cons, Hs, Hseq by lia. do 2 f_equal; lia.
    + exists p, []. rewrite Z.add_0_r. done.
Qed.

(** One arrival: [out] continues the numbers from [e]. *)
Lemma reorder_spec n e p r :
  n < 2 ^ 32 → pending_ok n e p → p !! e = None → e ≤ r.(fr_seqno) < n →
  p !! r.(fr_seqno) = None →
  ∃ p' out, reorder e p r = (e + zlen out, p', out) ∧
    fr_seqno <$> out = seqZ e (zlen out) ∧ out ++ waiting p' ≡ₚ r :: waiting p ∧
    pending_ok n (e + zlen out) p' ∧ p' !! (e + zlen out) = None.
Proof.
  intros Hn [H0 Hp] Hnone Hr Hfresh. unfold reorder.
  destruct (Z.eqb_spec (fr_seqno r) e) as [He|He]; simpl.
  - rewrite He, u32_id by lia.
    assert (pending_ok n (e + 1) p) as Hp1.
    { split; [lia|]. intros i x Hx. destruct (Hp _ _ Hx). split; [done|].
      assert (i ≠ e) by congruence. lia. }
    destruct (release_spec n (size p) (e + 1) p Hn Hp1) as (p' & out & -> & Hseq & Hperm & Hok & Hno);
      [done|].
    exists p', (r :: out). rewrite zlen_cons, Z.add_assoc. split_and!; [done| |by rewrite <- Hperm|done..].
    zlen_pose. rewrite seqZ_cons, fmap_cons, He, Hseq by lia. do 2 f_equal; lia.
  - exists (<[fr_seqno r := r]> p), []. rewrite Z.add_0_r. split_and!; [done..| |split; [done|]|].
    + unfold waiting. by rewrite map_to_list_insert.
    + apply map_Forall_insert_2; [done|]. done.
    + by rewrite lookup_insert_ne.
Qed.

(** * The descriptors of mediators *)

(** The bytes queued for a mediator, and the bytes its block holds. *)
Definition dest_of (id : Z) (f : forwarding_thread_data_t) : option export_dest_t :=
  f.(fw_by_id) !! id ≫= λ a, f.(fw_heap) !! a.
Definition queued (id : Z) (f : forwarding_thread_data_t) : bytes :=
  match dest_of id f with Some d => eb_content d.(ds_buffer) | None => [] end.
Definition held_bytes (id : Z) (f : forwarding_thread_data_t) : Z :=
  match dest_of id f with Some d => zlen d.(ds_buffer).(eb_data) | None => 0 end.

Definition records_bytes (rs : list encoded_result) : bytes :=
  concat ((λ r, result_bytes r.(fr_body)) <$> rs).

Lemma records_bytes_cons r rs :
  records_bytes (r :: rs) = result_bytes r.(fr_body) ++ records_bytes rs.
Proof. done. Qed.
Lemma records_bytes_one r : records_bytes [r] = result_bytes r.(fr_body).
Proof. apply app_nil_r. Qed.
Lemma records_bytes_app rs rs' : records_bytes (rs ++ rs') = records_bytes rs ++ records_bytes rs'.
Proof. unfold records_bytes. by rewrite fmap_app, concat_app. Qed.
Lemma records_bytes_perm rs rs' : rs ≡ₚ rs' → zlen (records_bytes rs) = zlen (records_bytes rs').
Proof.
  induction 1 as [|x l l' _ IH|x y l|l l' l'' _ IH _ IH']; rewrite ?records_bytes_cons; zlia.
Qed.
Lemma records_bytes_filter P `{!∀ r : encoded_result, Decision (P r)} rs :
  zlen (records_bytes (filter P rs)) ≤ zlen (records_bytes rs).
Proof.
  induction rs as [|r rs IH]; [done|]. rewrite filter_cons, (records_bytes_cons r rs).
  case_decide; rewrite ?records_bytes_cons; zlia.
Qed.
#[local] Hint Rewrite records_bytes_cons records_bytes_app : zlen.

(** The stream of a record: the reorderer it is handled by. *)
Definition stream_key (r : encoded_result) : bool * bytes := (is_cc r.(fr_type), r.(fr_cinstr)).
Abbreviation of_stream k := (filter (λ r, stream_key r = k)).
Abbreviation for_mediator id := (filter (λ r, fr_destid r = id)).

Section forwarder_lemmas.
Context {J : Judy1} (realloc_ok : Z → bool) (G : Z).
Hypothesis realloc_mono : ∀ m n, m ≤ n → realloc_ok n = true → realloc_ok m = true.

(** Blocks of up to [G] bytes are granted. *)
Hypothesis granted : realloc_ok (G + BUFFER_ALLOC_SIZE) = true.

(** Every table entry points at a live descriptor of its mediator. *)
Record fwd_ok (f : forwarding_thread_data_t) : Prop := {
  fo_dest : ∀ id a, f.(fw_by_id) !! id = Some a → ∃ d, f.(fw_heap) !! a = Some d ∧
    d.(ds_mediatorid) = id ∧ eb_wf realloc_ok d.(ds_buffer);
  fo_next : ∀ a, is_Some (f.(fw_heap) !! a) → a < f.(fw_next);
}.

(** [out] was appended to the buffer of mediator [id] and nothing else changed
    that records depend on. *)
Record appended (id : Z) (out : list encoded_result) (f f' : forwarding_thread_data_t) : Prop := {
  ap_ok : fwd_ok f';
  ap_cc : f'.(fw_reord_cc) = f.(fw_reord_cc);
  ap_iri : f'.(fw_reord_iri) = f.(fw_reord_iri);
  ap_queued : ∀ id', queued id' f' = queued id' f ++ if decide (id' = id) then records_bytes out else [];
  ap_held : ∀ id', held_bytes id' f' ≤
    held_bytes id' f + if decide (id' = id) then zlen (records_bytes out) else 0;
}.

Lemma appended_refl id f : fwd_ok f → appended id [] f f.
Proof. intros. split; [done..| |]; intros id'; case_decide; rewrite ?app_nil_r; done || zlia. Qed.

Lemma appended_trans id out1 out2 f1 f2 f3 :
  appended id out1 f1 f2 → appended id out2 f2 f3 → appended id (out1 ++ out2) f1 f3.
Proof.
  intros [_ Hc1 Hi1 Hq1 Hh1] [Hok Hc2 Hi2 Hq2 Hh2]. split; [done|congruence..| |]; intros id'.
  - rewrite Hq2, Hq1. case_decide; [by rewrite records_bytes_app, app_assoc|by rewrite !app_nil_r].
  - specialize (Hh1 id'). specialize (Hh2 id'). case_decide; zlia.
Qed.

(** Different mediators have different descriptors. *)
Lemma by_id_inj f id id' a : fwd_ok f →
  f.(fw_by_id) !! id = Some a → f.(fw_by_id) !! id' = Some a → id = id'.
Proof.
  intros Hok H1 H2. destruct (fo_dest _ Hok _ _ H1) as (d & Hd & <- & _).
  destruct (fo_dest _ Hok _ _ H2) as (d' & Hd' & <- & _). congruence.
Qed.

Lemma append_ok id a r f :
  fwd_ok f → f.(fw_by_id) !! id = Some a → result_ok r.(fr_body) →
  held_bytes id f + zlen (result_bytes r.(fr_body)) ≤ G →
  ∃ f', append_or_drop realloc_ok a r f = Ok (true, f') ∧ f'.(fw_by_id) = f.(fw_by_id) ∧
    appended id [r] f f'.
Proof.
  intros Hok Ha Hr Hg. destruct (fo_dest _ Hok _ _ Ha) as (d & Hd & Hid & Hwf).
  assert (dest_of id f = Some d) as Hdest by (unfold dest_of; rewrite Ha; simpl; done).
  unfold held_bytes in Hg. rewrite Hdest in Hg.
  destruct (append_message_spec realloc_ok realloc_mono (fr_body r) (ds_buffer d))
    as (b' & He & Hwf' & Hc & Hlen); [done|done|by eapply realloc_mono; [|exact granted]; lia|].
  unfold append_or_drop, deref. rewrite Hd. run_outcome. rewrite He. run_outcome.
  rewrite (proj2 (Z.eqb_neq _ _)) by lia. eexists. split; [done|]. split; [done|].
  set (f' := store_dest _ _ _).
  assert (∀ id', dest_of id' f' = if decide (id' = id) then Some (set_ds_buffer b' d) else dest_of id' f)
    as Hdest'.
  { intros id'. unfold dest_of, f'. simpl. case_decide as E.
    - rewrite E, Ha. simpl. by rewrite lookup_insert_eq.
    - destruct (fw_by_id f !! id') as [a'|] eqn:Ha'; [|done]. simpl.
      rewrite lookup_insert_ne; [done|]. intros <-. by apply E, (by_id_inj f _ _ a). }
  split; [split|done|done|..].
  - intros id' a' Ha'. specialize (Hdest' id'). unfold dest_of in Hdest' at 1.
    rewrite Ha' in Hdest'. change (fw_heap f' !! a' = if decide (id' = id)
      then Some (set_ds_buffer b' d) else dest_of id' f) in Hdest'. rewrite Hdest'. case_decide as E.
    + eexists. split; [done|]. simpl. by rewrite E.
    + unfold dest_of. simpl in Ha'. rewrite Ha'. by apply (fo_dest _ Hok).
  - intros a' Ha'. simpl in *. destruct (decide (a' = a)) as [->|];
      [apply (fo_next _ Hok); eauto|]. rewrite lookup_insert_ne in Ha' by done. by apply (fo_next _ Hok).
  - intros id'. unfold queued. rewrite Hdest'. case_decide as E; [|by rewrite app_nil_r].
    rewrite E, Hdest, records_bytes_one. exact Hc.
  - intros id'. unfold held_bytes. rewrite Hdest'. case_decide as E; [|lia].
    rewrite E, Hdest, records_bytes_one. cbn [ds_buffer set_ds_buffer]. lia.
Qed.

Lemma release_pending_ok n id a fuel : ∀ reord f,
  n < 2 ^ 32 → pending_ok n reord.(ro_expectedseqno) reord.(ro_pending) →
  (size reord.(ro_pending) ≤ fuel)%nat → fwd_ok f → f.(fw_by_id) !! id = Some a →
  Forall (λ r, result_ok r.(fr_body)) (waiting reord.(ro_pending)) →
  held_bytes id f + zlen (records_bytes (waiting reord.(ro_pending))) ≤ G →
  ∃ e' p' out f', release fuel reord.(ro_expectedseqno) reord.(ro_pending) = (e', p', out) ∧
    release_pending realloc_ok fuel a reord f = Ok (1, set_ro e' p' reord, f') ∧
    appended id out f f'.
Proof.
  induction fuel as [|fuel IH]; intros reord f Hn Hp Hsz Hok Ha Hr Hg; cbn [release release_pending].
  - apply Nat.le_0_r, map_size_empty_iff in Hsz as Hem. rewrite Hem, lookup_empty.
    eexists _, _, _, f. split; [done|]. split; [destruct reord; simpl in *; by rewrite Hem|].
    by apply appended_refl.
  - destruct (ro_pending reord !! ro_expectedseqno reord) as [r|] eqn:Hx.
    2: { eexists _, _, _, f. split; [done|]. split; [by destruct reord|]. by apply appended_refl. }
    destruct (pending_ok_delete _ _ _ _ Hn Hp Hx) as (Hs & Hu & Hp').
    pose proof (waiting_delete _ _ _ Hx) as Hw. rewrite <- Hw in Hr.
    apply Forall_cons in Hr as [Hr1 Hr2].
    rewrite <- (records_bytes_perm _ _ Hw), records_bytes_cons, zlen_app in Hg.
    pose proof (zlen_nonneg (records_bytes (waiting (delete (ro_expectedseqno reord) (ro_pending reord))))).
    destruct (append_ok id a r f Hok Ha Hr1) as (f1 & -> & Hid1 & Hap); [lia|]. run_outcome. cbn [negb].
    pose proof (ap_held _ _ _ _ Hap id) as Hh. rewrite decide_True, records_bytes_one in Hh by done.
    rewrite Hu.
    destruct (IH (set_ro (ro_expectedseqno reord + 1) (delete (ro_expectedseqno reord)
      (ro_pending reord)) reord) f1) as (e' & p' & out & f' & Hrel & -> & Hap'); simpl; try done.
    + rewrite map_size_delete_Some by eauto. lia.
    + apply Hap.
    + by rewrite Hid1.
    + lia.
    + simpl in Hrel. rewrite Hrel. eexists _, _, _, f'. split; [done|]. split; [done|].
      by apply (appended_trans id [r] out f f1 f').
Qed.

(** ** Streams in the forwarder *)

(** The state of the reorderer of a stream; it is made when it is needed. *)
Definition ro_state (k : bool * bytes) (f : forwarding_thread_data_t) : Z * gmap Z encoded_result :=
  match reorderers k.1 f !! k.2 with
  | Some r => (r.(ro_expectedseqno), r.(ro_pending))
  | None => (0, ∅)
  end.

Lemma get_reorderer_state res f e p :
  ro_state (stream_key res) f = (e, p) →
  (get_reorderer res f).(ro_expectedseqno) = e ∧ (get_reorderer res f).(ro_pending) = p.
Proof.
  unfold ro_state, get_reorderer. simpl. destruct (reorderers _ f !! _); intros [= <- <-]; done.
Qed.

Lemma ro_state_appended k id out f f' : appended id out f f' → ro_state k f' = ro_state k f.
Proof. intros [_ Hc Hi _ _]. unfold ro_state, reorderers. by rewrite Hc, Hi. Qed.

Lemma ro_state_set k cc key r f :
  ro_state k (set_reorderer cc key r f) =
  if decide (k = (cc, key)) then (r.(ro_expectedseqno), r.(ro_pending)) else ro_state k f.
Proof.
  destruct k as [cc' key']. unfold ro_state, reorderers, set_reorderer.
  case_decide as E.
  - injection E as -> ->. destruct cc; simpl; by rewrite lookup_insert_eq.
  - destruct cc, cc'; simpl; first [done|by rewrite lookup_insert_ne by congruence].
Qed.

Lemma appended_set id out cc key r f f' :
  appended id out f f' → fwd_ok (set_reorderer cc key r f') ∧
  (∀ id', queued id' (set_reorderer cc key r f') = queued id' f') ∧
  (∀ id', held_bytes id' (set_reorderer cc key r f') = held_bytes id' f').
Proof. intros [[Hd Hn] _ _ _ _]. by destruct cc. Qed.

(** What handling one result does: the reorderer of its stream makes a step, and
    what it lets go is appended to the buffer of the mediator of this result. *)
Record handled (res : encoded_result) (out : list encoded_result) (e' : Z)
    (p' : gmap Z encoded_result) (f f' : forwarding_thread_data_t) : Prop := {
  hd_ok : fwd_ok f';
  hd_here : ro_state (stream_key res) f' = (e', p');
  hd_others : ∀ k, k ≠ stream_key res → ro_state k f' = ro_state k f;
  hd_queued : ∀ id, queued id f' =
    queued id f ++ if decide (id = res.(fr_destid)) then records_bytes out else [];
  hd_held : ∀ id, held_bytes id f' ≤
    held_bytes id f + if decide (id = res.(fr_destid)) then zlen (records_bytes out) else 0;
}.

Lemma enqueue_ok n a res f e p :
  n < 2 ^ 32 → fwd_ok f → f.(fw_by_id) !! res.(fr_destid) = Some a →
  ro_state (stream_key res) f = (e, p) → pending_ok n e p → p !! e = None →
  e ≤ res.(fr_seqno) < n → Forall (λ r, result_ok r.(fr_body)) (res :: waiting p) →
  held_bytes res.(fr_destid) f + zlen (records_bytes (res :: waiting p)) ≤ G →
  ∃ rc e' p' out f', reorder e p res = (e', p', out) ∧
    enqueue_result realloc_ok a res f = Ok (rc, f') ∧ 0 ≤ rc ∧ handled res out e' p' f f'.
Proof.
  intros Hn Hok Ha Hst Hp Hnone Hs [Hr Hrp]%Forall_cons Hg. unfold enqueue_result, reorder.
  destruct (get_reorderer_state _ _ _ _ Hst) as [He Hpe].
  set (reord := get_reorderer res f) in *. rewrite He, Hpe. clearbody reord.
  (* saving the reorderer after the buffers have changed *)
  assert (∀ out e' p' f1, appended (fr_destid res) out f f1 →
    handled res out e' p' f
      (set_reorderer (is_cc (fr_type res)) (fr_cinstr res) (set_ro e' p' reord) f1)) as Hsave.
  { intros out e' p' f1 Hap. destruct (appended_set _ _ (is_cc (fr_type res)) (fr_cinstr res)
      (set_ro e' p' reord) _ _ Hap) as (Hok1 & Hq & Hh).
    split; [done|..].
    - rewrite ro_state_set. by rewrite decide_True.
    - intros k Hk. rewrite ro_state_set, decide_False by done. by eapply ro_state_appended.
    - intros id. rewrite Hq. apply Hap.
    - intros id. rewrite Hh. apply Hap. }
  rewrite records_bytes_cons, zlen_app in Hg. pose proof (zlen_nonneg (records_bytes (waiting p))).
  destruct (Z.eqb_spec (fr_seqno res) e) as [E|E]; cbn [negb].
  - destruct (append_ok (fr_destid res) a res f Hok Ha Hr) as (f1 & -> & Hid1 & Hap); [lia|].
    run_outcome. cbn [negb].
    pose proof (ap_held _ _ _ _ Hap (fr_destid res)) as Hh.
    rewrite decide_True, records_bytes_one in Hh by done.
    assert (pending_ok n (u32 (fr_seqno res + 1)) p) as Hp1.
    { destruct Hp as [H0 Hp]. rewrite E, u32_id by lia. split; [lia|]. intros i x Hx.
      destruct (Hp _ _ Hx). split; [done|]. assert (i ≠ e) by congruence. lia. }
    destruct (release_pending_ok n (fr_destid res) a (size p)
      (set_ro (u32 (fr_seqno res + 1)) p reord) f1) as (e' & p' & out & f2 & Hrel & -> & Hap2);
      simpl; try done; [apply Hap|by rewrite Hid1|lia|].
    simpl in Hrel. rewrite Hrel. run_outcome. eexists _, _, _, _, _. split; [done|].
    split; [done|]. split; [lia|]. apply Hsave. by apply (appended_trans _ [res] out f f1 f2).
  - eexists _, _, _, _, _. split; [done|]. split; [done|]. split; [lia|].
    apply Hsave. by apply appended_refl.
Qed.

(** A new descriptor with an empty buffer changes no queue. *)
Lemma alloc_dest_ok d f :
  fwd_ok f → f.(fw_by_id) !! d.(ds_mediatorid) = None → d.(ds_buffer) = init_export_buffer →
  let f1 := (alloc_dest d f).2 in
  fwd_ok f1 ∧ ∀ id, queued id f1 = queued id f ∧ held_bytes id f1 = held_bytes id f.
Proof.
  intros Hok Hnew Hb f1.
  assert (∀ id, dest_of id f1 = if decide (id = ds_mediatorid d) then Some d else dest_of id f) as Hdest.
  { intros id. unfold dest_of, f1. simpl. case_decide as E.
    - rewrite E, lookup_insert_eq. simpl. by rewrite lookup_insert_eq.
    - rewrite lookup_insert_ne by done. destruct (fw_by_id f !! id) as [a'|] eqn:Ha'; [|done].
      simpl. rewrite lookup_insert_ne; [done|]. intros <-.
      destruct (fo_dest _ Hok _ _ Ha') as (d' & Hd & _).
      pose proof (fo_next _ Hok _ (mk_is_Some _ _ Hd)). lia. }
  split; [split|].
  - intros id a' Ha'. specialize (Hdest id). unfold dest_of in Hdest at 1. rewrite Ha' in Hdest.
    change (fw_heap f1 !! a' = if decide (id = ds_mediatorid d) then Some d else dest_of id f) in Hdest.
    rewrite Hdest. case_decide as E.
    + eexists. split; [done|]. split; [done|]. rewrite Hb. apply init_export_buffer_wf.
    + unfold f1 in Ha'. simpl in Ha'. rewrite lookup_insert_ne in Ha' by done.
      unfold dest_of. rewrite Ha'. by apply (fo_dest _ Hok).
  - intros a' Ha'. unfold f1 in *. simpl in *. destruct (decide (a' = fw_next f)) as [->|]; [lia|].
    rewrite lookup_insert_ne in Ha' by done. pose proof (fo_next _ Hok _ Ha'). lia.
  - intros id. unfold queued, held_bytes. rewrite Hdest. case_decide as E; [|done].
    unfold dest_of. by rewrite E, Hnew, Hb.
Qed.

(** The destination [handle_encoded_result] finds or makes. *)
Lemma handle_dest res f :
  fwd_ok f →
  ∃ a f1, handle_encoded_result realloc_ok res f = enqueue_result realloc_ok a res f1 ∧ fwd_ok f1 ∧
    f1.(fw_by_id) !! res.(fr_destid) = Some a ∧ (∀ k, ro_state k f1 = ro_state k f) ∧
    ∀ id, queued id f1 = queued id f ∧ held_bytes id f1 = held_bytes id f.
Proof.
  intros Hok. unfold handle_encoded_result.
  destruct (fw_by_id f !! fr_destid res) as [a|] eqn:Ha; [by exists a, f|].
  destruct (alloc_dest_ok (new_dest (fr_destid res) None None (fw_rmq f)) f Hok Ha eq_refl)
    as [Hok1 Hsame].
  destruct (alloc_dest _ f) as [a f1] eqn:Halloc. cbn [snd] in Hok1, Hsame.
  injection Halloc as <- Hf1. exists (fw_next f), f1. split_and!; [done|done| | |done].
  - rewrite <- Hf1. simpl. by rewrite lookup_insert_eq.
  - intros k. by rewrite <- Hf1.
Qed.

Lemma handle_ok n res f e p :
  n < 2 ^ 32 → fwd_ok f → ro_state (stream_key res) f = (e, p) → pending_ok n e p →
  p !! e = None → e ≤ res.(fr_seqno) < n → Forall (λ r, result_ok r.(fr_body)) (res :: waiting p) →
  held_bytes res.(fr_destid) f + zlen (records_bytes (res :: waiting p)) ≤ G →
  ∃ rc e' p' out f', reorder e p res = (e', p', out) ∧
    handle_encoded_result realloc_ok res f = Ok (rc, f') ∧ 0 ≤ rc ∧ handled res out e' p' f f'.
Proof.
  intros Hn Hok Hst Hp Hnone Hs Hr Hg.
  destruct (handle_dest res f Hok) as (a & f1 & -> & Hok1 & Ha & Hro & Hsame).
  destruct (enqueue_ok n a res f1 e p) as (rc & e' & p' & out & f' & He & Hq & Hrc & Hh); try done.
  { by rewrite Hro. }
  { by rewrite (proj2 (Hsame _)). }
  eexists _, _, _, _, _. split; [done|]. split; [done|]. split; [done|].
  destruct Hh as [H1 H2 H3 H4 H5]. split; [done|done| | |].
  - intros k Hk. by rewrite H3, Hro.
  - intros id. by rewrite H4, (proj1 (Hsame _)).
  - intros id. by rewrite <- (proj2 (Hsame _)).
Qed.

(** A record that is not the expected one only waits. *)
Lemma handle_waits res f e p :
  fwd_ok f → ro_state (stream_key res) f = (e, p) → res.(fr_seqno) ≠ e →
  ∃ f', handle_encoded_result realloc_ok res f = Ok (0, f') ∧
    handled res [] e (<[res.(fr_seqno) := res]> p) f f'.
Proof.
  intros Hok Hst Hne. destruct (handle_dest res f Hok) as (a & f1 & -> & Hok1 & Ha & Hro & Hsame).
  rewrite <- Hro in Hst. destruct (get_reorderer_state _ _ _ _ Hst) as [He Hp].
  unfold enqueue_result. rewrite He, Hp, (proj2 (Z.eqb_neq _ _)) by done. cbn [negb].
  eexists. split; [done|].
  destruct (appended_set _ _ (is_cc (fr_type res)) (fr_cinstr res)
    (set_ro e (<[fr_seqno res := res]> p) (get_reorderer res f1)) _ _ (appended_refl 0 f1 Hok1))
    as (Hok2 & Hq & Hh).
  split; [done|by rewrite ro_state_set, decide_True| | |].
  - intros k Hk. by rewrite ro_state_set, decide_False.
  - intros id. rewrite Hq, (proj1 (Hsame _)). case_decide; by rewrite app_nil_r.
  - intros id. rewrite Hh, (proj2 (Hsame _)). case_decide; [|lia].
    change (records_bytes []) with (@nil Z). zlia.
Qed.

(** ** Any order of arrival *)

Section arrivals.
Context (f0 : forwarding_thread_data_t) (rs : list encoded_result) (n : bool * bytes → Z).
Hypothesis numbers : ∀ k, 0 ≤ n k < 2 ^ 32 ∧ fr_seqno <$> of_stream k rs ≡ₚ seqZ 0 (n k).
Hypothesis records : Forall (λ r, result_ok r.(fr_body)) rs.
Hypothesis one_mediator : ∀ r r', r ∈ rs → r' ∈ rs → stream_key r = stream_key r' →
  fr_destid r = fr_destid r'.
Hypothesis memory : ∀ id, held_bytes id f0 + zlen (records_bytes rs) ≤ G.

(** After the arrival of [before]: [log] went to the buffers in this order, and
    [pend] waits. *)
Record arrived (before log pend : list encoded_result) (f : forwarding_thread_data_t) : Prop := {
  ar_ok : fwd_ok f;
  ar_perm : log ++ pend ≡ₚ before;
  ar_log : ∀ k, fr_seqno <$> of_stream k log = seqZ 0 (ro_state k f).1;
  ar_pending : ∀ k, pending_ok (n k) (ro_state k f).1 (ro_state k f).2;
  ar_next : ∀ k, (ro_state k f).2 !! (ro_state k f).1 = None;
  ar_pend : ∀ k, of_stream k pend ≡ₚ waiting (ro_state k f).2;
  ar_queued : ∀ id, queued id f = queued id f0 ++ records_bytes (for_mediator id log);
  ar_held : ∀ id, held_bytes id f ≤ held_bytes id f0 + zlen (records_bytes (for_mediator id log));
}.

(** What [handle_ok] asks for, at the next arrival. *)
Lemma arrived_ready before log pend f r todo :
  arrived before log pend f → rs = before ++ r :: todo →
  let '(e, p) := ro_state (stream_key r) f in
  e ≤ r.(fr_seqno) < n (stream_key r) ∧ p !! r.(fr_seqno) = None ∧
  Forall (λ x, result_ok x.(fr_body)) (r :: waiting p) ∧
  held_bytes r.(fr_destid) f + zlen (records_bytes (r :: waiting p)) ≤ G.
Proof.
  intros Hinv Hrs. set (k := stream_key r). pose proof (ar_log _ _ _ _ Hinv k) as Hlog.
  pose proof (ar_pending _ _ _ _ Hinv k) as [He Hp]. pose proof (ar_pend _ _ _ _ Hinv k) as Hpend.
  pose proof (ar_perm _ _ _ _ Hinv) as Hperm.
  destruct (ro_state k f) as [e p]. cbn [fst snd] in *. destruct (numbers k) as [Hn Hnum].
  assert (of_stream k rs = of_stream k before ++ r :: of_stream k todo) as Hk
    by (rewrite Hrs, filter_app, filter_cons_True by done; done).
  rewrite Hk, fmap_app, fmap_cons in Hnum.
  assert (fr_seqno r ∈ seqZ 0 (n k)) as Hin%elem_of_seqZ 
    by (rewrite <- Hnum; apply elem_of_app; right; left).
  assert (fr_seqno r ∉ fr_seqno <$> of_stream k before) as Hnew.
  { pose proof (NoDup_seqZ 0 (n k)) as Hd. rewrite <- Hnum in Hd.
    apply NoDup_app in Hd as (_ & Hd & _). intros Hx. apply (Hd _ Hx). left. }
  rewrite <- Hperm, filter_app, fmap_app, Hlog, Hpend in Hnew.
  assert (waiting p ⊆ rs) as Hsub.
  { intros x Hx. rewrite Hrs. apply elem_of_app. left. rewrite <- Hperm. apply elem_of_app. right.
    rewrite <- Hpend in Hx. by apply list_elem_of_filter in Hx as [_ ?]. }
  split_and!.
  - destruct (Z.le_gt_cases e (fr_seqno r)); [done|]. destruct Hnew. apply elem_of_app. left.
    apply elem_of_seqZ. lia.
  - lia.
  - destruct (p !! fr_seqno r) as [x|] eqn:Hx; [|done]. destruct Hnew. apply elem_of_app. right.
    destruct (Hp _ _ Hx) as [<- _]. apply list_elem_of_fmap. exists x. split; [done|].
    apply list_elem_of_fmap. exists (fr_seqno x, x). split; [done|].
    destruct (Hp _ _ Hx) as [Hxx _]. apply elem_of_map_to_list. by rewrite Hxx.
  - rewrite Forall_forall in *. intros x [->|Hx]%elem_of_cons; apply records; [|by apply Hsub].
    rewrite Hrs. apply elem_of_app. right. left.
  - pose proof (ar_held _ _ _ _ Hinv (fr_destid r)) as Hh. specialize (memory (fr_destid r)).
    rewrite Hrs, records_bytes_app, records_bytes_cons, !zlen_app, <- (records_bytes_perm _ _ Hperm),
      records_bytes_app, zlen_app in memory.
    rewrite records_bytes_cons, zlen_app, <- (records_bytes_perm _ _ Hpend).
    pose proof (records_bytes_filter (λ r', fr_destid r' = fr_destid r) log).
    pose proof (records_bytes_filter (λ r', stream_key r' = k) pend). zlen_pose. lia.
Qed.

(** What one arrival lets go and leaves waiting, given that the invariant held. *)
Lemma arrived_out before log pend f r todo e p p' out :
  arrived before log pend f → rs = before ++ r :: todo → ro_state (stream_key r) f = (e, p) →
  out ++ waiting p' ≡ₚ r :: waiting p →
  Forall (λ x, stream_key x = stream_key r) (out ++ waiting p') ∧
  Forall (λ x, fr_destid x = fr_destid r) out ∧
  (log ++ out) ++ filter (λ x, ¬ stream_key x = stream_key r) pend ++ waiting p' ≡ₚ before ++ [r].
Proof.
  intros Hinv Hrs Hst Hout. pose proof (ar_pend _ _ _ _ Hinv (stream_key r)) as Hpend.
  rewrite Hst in Hpend. cbn [snd] in Hpend. pose proof (ar_perm _ _ _ _ Hinv) as Hperm.
  assert (r ∈ rs) as Hr by (rewrite Hrs; apply elem_of_app; right; left).
  assert (Forall (λ x, stream_key x = stream_key r ∧ x ∈ rs) (out ++ waiting p')) as Hkey.
  { rewrite Hout, <- Hpend. constructor; [done|].
    apply Forall_forall. intros x [Hx Hin]%list_elem_of_filter. split; [done|].
    rewrite Hrs. apply elem_of_app. left. rewrite <- Hperm. apply elem_of_app. by right. }
  split_and!.
  - eapply Forall_impl; [exact Hkey|]. by intros x [? _].
  - apply Forall_app in Hkey as [Hko _]. eapply Forall_impl; [exact Hko|].
    intros x [Hx Hin]. by apply one_mediator.
  - rewrite <- (app_assoc log), (Permutation_app_comm out), <- (app_assoc (filter _ pend)).
    rewrite (Permutation_app_comm (waiting p')), Hout, <- Hpend, <- Hperm.
    rewrite <- Permutation_middle, filter_split_perm. by rewrite <- !Permutation_middle, app_nil_r.
Qed.

(** The next arrival keeps the invariant. *)
Lemma arrived_step before log pend f r todo :
  arrived before log pend f → rs = before ++ r :: todo →
  ∃ rc log' pend' f', handle_encoded_result realloc_ok r f = Ok (rc, f') ∧ 0 ≤ rc ∧
    arrived (before ++ [r]) log' pend' f'.
Proof.
  intros Hinv Hrs. pose proof (arrived_ready _ _ _ _ _ _ Hinv Hrs) as Hready.
  set (k := stream_key r) in *. pose proof (ar_pending _ _ _ _ Hinv k) as Hp.
  pose proof (ar_next _ _ _ _ Hinv k) as Hnone.
  destruct (ro_state k f) as [e p] eqn:Hst. cbn [fst snd] in *.
  destruct Hready as (Hs & Hfresh & Hok & Hmem). destruct (numbers k) as [Hn _].
  destruct (handle_ok (n k) r f e p ltac:(lia) (ar_ok _ _ _ _ Hinv) Hst Hp Hnone Hs Hok Hmem)
    as (rc & e' & p' & out & f' & He & Hh & Hrc & Hd).
  destruct (reorder_spec (n k) e p r ltac:(lia) Hp Hnone Hs Hfresh)
    as (p1 & out1 & He1 & Hseq & Hout & Hp1 & Hnone1).
  rewrite He in He1. injection He1 as -> <- <-.
  destruct (arrived_out _ _ _ _ _ _ _ _ _ _ Hinv Hrs Hst Hout) as (Hkey & Hdest & Hperm).
  apply Forall_app in Hkey as [Hko Hkp].
  exists rc, (log ++ out), (filter (λ x, ¬ stream_key x = k) pend ++ waiting p'), f'.
  split; [done|]. split; [done|].
  assert (∀ k', ro_state k' f' = if decide (k' = k) then (e + zlen out, p') else ro_state k' f) as Hst'.
  { intros k'. case_decide as E; [subst k'; apply Hd|by apply (hd_others _ _ _ _ _ _ Hd)]. }
  split; [apply Hd|exact Hperm| | | | | |].
  - intros k'. rewrite Hst', filter_app, fmap_app, (filter_uniform _ _ _ Hko), (ar_log _ _ _ _ Hinv k').
    fold k. case_decide as E; [|by rewrite app_nil_r]. subst k'. rewrite Hst. simpl. rewrite Hseq.
    destruct Hp as [H0 _]. zlen_pose. by rewrite seqZ_app by lia.
  - intros k'. rewrite Hst'. case_decide as E; [by subst k'|]. apply Hinv.
  - intros k'. rewrite Hst'. case_decide as E; [done|]. apply Hinv.
  - intros k'. rewrite Hst', filter_app, (filter_uniform _ _ _ Hkp), list_filter_filter. fold k.
    case_decide as E.
    + rewrite filter_none; [done|]. apply Forall_forall. intros x _ []. congruence.
    + rewrite app_nil_r, <- (ar_pend _ _ _ _ Hinv k').
      rewrite (list_filter_iff _ (λ x, stream_key x = k')); [done|].
      intros x. split; [tauto|]. by intros ->.
  - intros id. rewrite (hd_queued _ _ _ _ _ _ Hd), (ar_queued _ _ _ _ Hinv), filter_app,
      records_bytes_app, (filter_uniform _ _ _ Hdest), app_assoc. by case_decide.
  - intros id. pose proof (hd_held _ _ _ _ _ _ Hd id). pose proof (ar_held _ _ _ _ Hinv id).
    rewrite filter_app, records_bytes_app, (filter_uniform _ _ _ Hdest), zlen_app.
    case_decide; [lia|]. change (records_bytes []) with (@nil Z). zlia.
Qed.

Lemma arrived_batch batch : ∀ before log pend f todo,
  arrived before log pend f → rs = before ++ batch ++ todo →
  ∃ log' pend' f', handle_batch realloc_ok batch f = Ok (1, f') ∧
    arrived (before ++ batch) log' pend' f'.
Proof.
  induction batch as [|r batch IH]; intros before log pend f todo Hinv Hrs; cbn [handle_batch].
  { eexists _, _, _. split; [done|]. by rewrite app_nil_r. }
  destruct (arrived_step _ _ _ _ r (batch ++ todo) Hinv Hrs) as (rc & log1 & pend1 & f1 & -> & Hrc & Hinv1).
  run_outcome. rewrite (proj2 (Z.ltb_ge _ _)) by lia.
  destruct (IH _ _ _ _ todo Hinv1) as (log' & pend' & f' & Hb & Hinv').
  { by rewrite <- app_assoc. }
  eexists _, _, _. split; [done|]. by rewrite <- app_assoc in Hinv'.
Qed.

Lemma arrived_all batches : ∀ before log pend f,
  arrived before log pend f → rs = before ++ concat batches → zlen rs < 100000 →
  ∃ log' pend' f', receive_incoming_etsi realloc_ok (EtsiBatch <$> batches) (zlen before) f
      = Ok (1, [], f') ∧ arrived rs log' pend' f'.
Proof.
  induction batches as [|b batches IH]; intros before log pend f Hinv Hrs Hlen;
    cbn [receive_incoming_etsi fmap list_fmap].
  { eexists _, _, _. split; [done|]. rewrite Hrs. simpl. by rewrite app_nil_r. }
  destruct (arrived_batch b _ _ _ _ (concat batches) Hinv Hrs) as (log1 & pend1 & f1 & -> & Hinv1).
  run_outcome. cbn [Z.ltb Z.compare]. simpl in Hrs. rewrite app_assoc in Hrs.
  rewrite (proj2 (Z.ltb_lt _ _)) by (rewrite Hrs, !zlen_app in Hlen; zlen_pose; lia).
  rewrite <- zlen_app. by apply (IH _ log1 pend1).
Qed.

(** When everything has arrived, nothing waits. *)
Lemma arrived_complete log pend f :
  arrived rs log pend f → pend = [] ∧ ∀ k, fr_seqno <$> of_stream k log = seqZ 0 (n k) ∧
    (ro_state k f).2 = ∅.
Proof.
  intros Hinv.
  assert (∀ k, (ro_state k f).2 = ∅ ∧ (ro_state k f).1 = n k) as Hk.
  { intros k. pose proof (ar_log _ _ _ _ Hinv k) as Hlog. pose proof (ar_next _ _ _ _ Hinv k) as Hno.
    pose proof (ar_pending _ _ _ _ Hinv k) as [He Hp]. pose proof (ar_pend _ _ _ _ Hinv k) as Hpend.
    destruct (ro_state k f) as [e p]. cbn [fst snd] in *. destruct (numbers k) as [Hn Hnum].
    rewrite <- (ar_perm _ _ _ _ Hinv), filter_app, fmap_app, Hlog, Hpend in Hnum.
    assert (n k ≤ e) as Hle.
    { destruct (Z.le_gt_cases (n k) e); [done|]. assert (e ∈ seqZ 0 (n k)) as Hin by (apply elem_of_seqZ; lia).
      rewrite <- Hnum in Hin. apply elem_of_app in Hin as [Hin%elem_of_seqZ|Hin]; [lia|].
      apply list_elem_of_fmap in Hin as (x & Hx & (i & Hi)%waiting_elem).
      destruct (Hp _ _ Hi) as [Hxi _]. congruence. }
    assert (p = ∅) as ->.
    { apply map_empty. intros i. destruct (p !! i) as [x|] eqn:Hx; [|done].
      destruct (Hp _ _ Hx). lia. }
    split; [done|]. change (waiting ∅) with (@nil encoded_result) in Hnum.
    rewrite fmap_nil, app_nil_r in Hnum.
    apply Permutation_length in Hnum. rewrite !length_seqZ in Hnum. lia. }
  split.
  - destruct pend as [|x pend]; [done|]. pose proof (ar_pend _ _ _ _ Hinv (stream_key x)) as Hx.
    rewrite (proj1 (Hk _)), filter_cons_True in Hx by done. by apply Permutation_nil_r in Hx.
  - intros k. destruct (Hk k) as [Hp He]. by rewrite <- He, (ar_log _ _ _ _ Hinv k).
Qed.

Lemma forward_all batches :
  fwd_ok f0 → (∀ k, ro_state k f0 = (0, ∅)) → concat batches = rs → zlen rs < 100000 →
  ∃ log f', receive_incoming_etsi realloc_ok (EtsiBatch <$> batches) 0 f0 = Ok (1, [], f') ∧
    log ≡ₚ rs ∧ (∀ k, fr_seqno <$> of_stream k log = seqZ 0 (n k)) ∧
    (∀ id, queued id f' = queued id f0 ++ records_bytes (for_mediator id log)) ∧
    ∀ k, (ro_state k f').2 = ∅.
Proof.
  intros Hok Hfresh Hrs Hlen.
  assert (arrived [] [] [] f0) as Hinv.
  { split; [done|done|..]; intros k; rewrite ?Hfresh; cbn [fst snd].
    - done.
    - split; [done|]. apply map_Forall_empty.
    - apply lookup_empty.
    - done.
    - by rewrite app_nil_r.
    - change (records_bytes _) with (@nil Z). zlia. }
  destruct (arrived_all batches [] [] [] f0 Hinv) as (log & pend & f' & He & Hinv'); [done..|].
  destruct (arrived_complete _ _ _ Hinv') as [-> Hk].
  exists log, f'. split; [done|]. pose proof (ar_perm _ _ _ _ Hinv') as Hp.
  rewrite app_nil_r in Hp. split_and!; [done|apply Hk|apply Hinv'|apply Hk].
Qed.
End arrivals.
End forwarder_lemmas.

(** * Theorems *)


(** A record that waited for the next number of its stream is queued for the
    mediator of the record that released it, not for its own: after the mediator
    of an intercept has changed, records can reach the old or the new one
    wrongly. *)
Theorem stored_record_misdirected {J : Judy1} (realloc_ok : Z → bool) (G e : Z)
    (r stored : encoded_result) (f : forwarding_thread_data_t) :
  (∀ i j, i ≤ j → realloc_ok j = true → realloc_ok i = true) →
  realloc_ok (G + BUFFER_ALLOC_SIZE) = true →
  fwd_ok realloc_ok f → 0 ≤ e < 2 ^ 31 →
  ro_state (stream_key r) f = (e, {[ e + 1 := stored ]}) → stored.(fr_seqno) = e + 1 →
  r.(fr_seqno) = e → r.(fr_destid) ≠ stored.(fr_destid) →
  result_ok r.(fr_body) → result_ok stored.(fr_body) →
  held_bytes r.(fr_destid) f + zlen (records_bytes [r; stored]) ≤ G →
  ∃ rc f', handle_encoded_result realloc_ok r f = Ok (rc, f') ∧
    queued r.(fr_destid) f'
      = queued r.(fr_destid) f ++ result_bytes r.(fr_body) ++ result_bytes stored.(fr_body) ∧
    queued stored.(fr_destid) f' = queued stored.(fr_destid) f.
Proof.
  intros Hmono Hg Hok He Hst Hs Hr Hne Hrb Hsb Hmem.
  assert (waiting {[e + 1 := stored]} = [stored]) as Hw
    by (unfold waiting; by rewrite map_to_list_singleton).
  destruct (handle_ok realloc_ok G Hmono Hg (e + 2) r f e {[e + 1 := stored]})
    as (rc & e' & p' & out & f' & Hre & Hh & _ & Hd); try done.
  - lia.
  - split; [lia|]. apply map_Forall_singleton. lia.
  - apply lookup_singleton_None. lia.
  - lia.
  - rewrite Hw. constructor; [done|]. constructor; [done|constructor].
  - by rewrite Hw.
  - exists rc, f'. split; [done|].
    assert (out = [r; stored]) as ->.
    { revert Hre. unfold reorder. rewrite Hr, Z.eqb_refl, map_size_singleton, u32_id by lia. simpl.
      rewrite lookup_singleton_eq. simpl. by destruct (_ !! _); intros [= _ _ <-]. }
    rewrite !(hd_queued _ _ _ _ _ _ _ Hd). rewrite decide_True, decide_False by done.
    by rewrite app_nil_r, records_bytes_cons, records_bytes_one.
Qed.

(** Records of a stream that are not the expected one only wait. *)
Lemma stalled_batch {J : Judy1} (realloc_ok : Z → bool) (k : bool * bytes) (e : Z) rs : ∀ f p,
  fwd_ok realloc_ok f → ro_state k f = (e, p) →
  Forall (λ r, stream_key r = k ∧ r.(fr_seqno) ≠ e) rs →
  ∃ f' p', handle_batch realloc_ok rs f = Ok (1, f') ∧ ro_state k f' = (e, p') ∧
    ∀ id, queued id f' = queued id f.
Proof.
  induction rs as [|r rs IH]; intros f p Hok Hst Hrs; cbn [handle_batch]; [by exists f, p|].
  apply Forall_cons in Hrs as [[<- Hne] Hrs].
  destruct (handle_waits realloc_ok r f e p Hok Hst Hne) as (f1 & -> & Hd). run_outcome.
  cbn [Z.ltb Z.compare].
  destruct (IH f1 _ (hd_ok _ _ _ _ _ _ _ Hd) (hd_here _ _ _ _ _ _ _ Hd) Hrs) as (f' & p' & Hb & Hst' & Hq').
  exists f', p'. split; [done|]. split; [done|].
  intros id. rewrite Hq', (hd_queued _ _ _ _ _ _ _ Hd). case_decide; by rewrite app_nil_r.
Qed.

(** When the buffer of a mediator that is not connected cannot take a record
    any more, the mediator is dropped and the record is lost, but its stream goes on waiting for it:
    whatever records of the stream follow, for whatever mediator, none of them is
    ever queued. *)
Theorem refused_record_stalls_stream {J : Judy1} (realloc_ok : Z → bool) (a e : Z)
    (r : encoded_result) (rs : list encoded_result) (p : gmap Z encoded_result)
    (d : export_dest_t) (buf : export_buffer_t) (f : forwarding_thread_data_t) :
  fwd_ok realloc_ok f → f.(fw_by_id) !! r.(fr_destid) = Some a → f.(fw_heap) !! a = Some d →
  d.(ds_fd) = -1 → ro_state (stream_key r) f = (e, p) → r.(fr_seqno) = e →
  append_message_to_buffer realloc_ok r.(fr_body) 0 d.(ds_buffer) = Ok (0, buf) →
  Forall (λ r', stream_key r' = stream_key r ∧ r'.(fr_seqno) ≠ e) rs →
  ∃ f1 f2, handle_encoded_result realloc_ok r f = Ok (1, f1) ∧
    f1.(fw_by_id) !! r.(fr_destid) = None ∧
    handle_batch realloc_ok rs f1 = Ok (1, f2) ∧ ∀ id, queued id f2 = queued id f1.
Proof.
  intros Hok Ha Hd Hfd Hst Hseq Happ Hrs.
  destruct (fo_dest _ _ Hok _ _ Ha) as (d' & Hd' & Hid & _). rewrite Hd in Hd'. injection Hd' as <-.
  destruct (get_reorderer_state _ _ _ _ Hst) as [He Hp].
  unfold handle_encoded_result, enqueue_result, append_or_drop, remove_destination, deref.
  rewrite Ha, He, Hseq, Z.eqb_refl, Hd. cbn [negb]. run_outcome. rewrite Happ. run_outcome. simpl.
  rewrite lookup_insert_eq. simpl. rewrite Hfd. simpl.
  set (f0 := set_fw_heap _ _). set (f1 := set_reorderer _ _ _ f0).
  assert (ro_state (stream_key r) f1 = (e, p)) as Hst1
    by (unfold f1; rewrite ro_state_set, decide_True by done; by rewrite He, Hp).
  assert (fwd_ok realloc_ok f1) as Hok1.
  { destruct (appended_set realloc_ok 0 [] (is_cc (fr_type r)) (fr_cinstr r) (get_reorderer r f) f0 f0)
      as (Hok1 & _); [apply appended_refl|exact Hok1]. unfold f0. split; simpl.
    - rewrite Hid. intros id a' [Hne Ha']%lookup_delete_Some. destruct (fo_dest _ _ Hok _ _ Ha') as (x & ?).
      assert (a ≠ a') by (intros <-; by apply Hne, (by_id_inj realloc_ok f _ _ a)).
      exists x. by rewrite lookup_delete_ne, lookup_insert_ne.
    - intros a' [x [Hne Hx]%lookup_delete_Some]. rewrite lookup_insert_ne in Hx by done.
      apply (fo_next _ _ Hok). eauto. }
  destruct (stalled_batch realloc_ok (stream_key r) e rs f1 p Hok1 Hst1 Hrs) as (f2 & p2 & Hb & _ & Hq).
  exists f1, f2. split; [done|]. split; [|done].
  unfold f1, f0, set_reorderer. destruct (is_cc _); simpl; by rewrite Hid, lookup_delete_eq.
Qed.

(** when a connected mediator is announced at another address and then
    withdrawn, its old descriptor number stays in the poll set and in
    [destinations_by_fd] while its structure is freed: as soon as the number is
    reused and is reported ready, the sending loop follows the dangling pointer. *)
Theorem moved_mediator_use_after_free {J : Judy1} (realloc_ok : Z → bool) (timer : Z)
    (m : openli_mediator_t) (a i : Z) (d : export_dest_t) (oldip newip : bytes) (ready : bool)
    (hs : Z → ssl_answer) (sent : Z → send_result) (f : forwarding_thread_data_t) :
  f.(fw_by_id) !! m.(med_mediatorid) = Some a → f.(fw_heap) !! a = Some d →
  d.(ds_mediatorid) = m.(med_mediatorid) → d.(ds_fd) ≠ -1 → f.(fw_by_fd) !! d.(ds_fd) = Some a →
  0 ≤ i → f.(fw_topoll) !! Z.to_nat i = Some (Mkpollitem d.(ds_fd) true ready) →
  d.(ds_ipstr) = Some oldip → m.(med_ipstr) = Some newip → until_nul oldip ≠ until_nul newip →
  f.(fw_awaitingconfirm) = false →
  let announce := Mkopenli_export_recv_t OPENLI_EXPORT_MEDIATOR 0 (Data_med m) in
  let withdraw := Mkopenli_export_recv_t OPENLI_EXPORT_DROP_SINGLE_MEDIATOR 0 (Data_med m) in
  ∃ f', process_control_message timer [Some announce; Some withdraw] f = Ok (1, f') ∧
    f'.(fw_by_id) !! m.(med_mediatorid) = None ∧ f'.(fw_topoll) = f.(fw_topoll) ∧
    send_slot realloc_ok hs sent i
      (set_fw_topoll (<[Z.to_nat i := Mkpollitem d.(ds_fd) true true]> f'.(fw_topoll)) f') = Undef.
Proof.
  intros Hid Hd Hmid Hfd Hbyfd Hi Hpoll Hold Hnew Hne Haw announce withdraw.
  assert (Z.to_nat i < length (fw_topoll f))%nat as Hlt by (by apply lookup_lt_is_Some_1; eauto).
  unfold process_control_message, handle_ctrl_message. simpl.
  unfold add_new_destination, update_destination, deref. rewrite Hid, Hd. simpl.
  rewrite Hold, Hnew. simpl. rewrite decide_False by done. simpl. rewrite Haw. simpl. rewrite Hid. simpl.
  unfold remove_destination, deref. simpl. rewrite lookup_insert_eq. simpl. rewrite Hmid.
  eexists. split; [done|]. simpl. split; [by rewrite lookup_delete_eq|]. split; [done|].
  unfold send_slot, read_index, write_index. rewrite decide_True by lia. simpl.
  rewrite list_lookup_insert_eq by done. simpl.
  rewrite decide_True by (unfold zlen; rewrite length_insert; lia). simpl. rewrite Hbyfd. simpl.
  unfold send_dest, deref. simpl. by rewrite lookup_delete_eq.
Qed.

(** * Examples *)

Lemma forwarder_init_ok {J : Judy1} realloc_ok timer rmq tls :
  fwd_ok realloc_ok (forwarder_init timer rmq tls).
Proof.
  split; simpl.
  - intros id a H. by rewrite lookup_empty in H.
  - intros a [d H]. by rewrite lookup_empty in H.
Qed.

Lemma forwarder_init_fresh k timer rmq tls : ro_state k (forwarder_init timer rmq tls) = (0, ∅).
Proof. destruct k as [[] key]; unfold ro_state; simpl; by rewrite lookup_empty. Qed.

Lemma forwarder_init_empty id timer rmq tls :
  queued id (forwarder_init timer rmq tls) = [] ∧ held_bytes id (forwarder_init timer rmq tls) = 0.
Proof. unfold queued, held_bytes, dest_of. simpl. by rewrite lookup_empty. Qed.

Definition sample_body (content : bytes) : openli_encoded_result_t :=
  {| er_header := Mkii_header_t 1 2 3 4; er_encoded := content; er_len := zlen content;
     er_ipcontents := []; er_ipclen := 0 |}.

Definition sample_result (cc : bool) (key : string) (seqno destid : Z) (content : string)
    : encoded_result :=
  {| fr_body := sample_body (of_string content); fr_seqno := seqno; fr_destid := destid;
     fr_liid := of_string "L-1"; fr_cinstr := of_string key;
     fr_type := if cc then OPENLI_EXPORT_IPCC else OPENLI_EXPORT_IPIRI |}.

Lemma sample_body_ok content : zlen content < 2 ^ 32 → result_ok (sample_body content).
Proof. intros H. split; simpl; zlia. Qed.

#[local] Existing Instance set_judy1.

(** Three records of a session arrive in the order 2, 0, 1, and a report comes in
    between. *)
Definition sample_batches : list (list encoded_result) :=
  [[sample_result true "L-1-5" 2 7 "c"; sample_result true "L-1-5" 0 7 "a"];
   [sample_result false "L-1-5" 0 7 "begin"; sample_result true "L-1-5" 1 7 "b"]].


(** A record for mediator 8 waits; the record before it, for mediator 7, takes it
    along. *)
Definition sample_waiting : forwarding_thread_data_t :=
  match handle_encoded_result grant_4GiB (sample_result true "L-1-5" 1 8 "b")
          (forwarder_init 9 false false) with
  | Ok (_, f) => f
  | _ => forwarder_init 9 false false
  end.

Lemma sample_waiting_ok :
  fwd_ok grant_4GiB sample_waiting ∧
  ro_state (true, of_string "L-1-5") sample_waiting = (0, {[ 1 := sample_result true "L-1-5" 1 8 "b" ]}).
Proof.
  unfold sample_waiting.
  destruct (handle_waits grant_4GiB (sample_result true "L-1-5" 1 8 "b") (forwarder_init 9 false false)
    0 ∅) as (f & -> & Hd); [apply forwarder_init_ok|apply forwarder_init_fresh|done|].
  split; [apply Hd|]. apply (hd_here _ _ _ _ _ _ _ Hd).
Qed.

Lemma stored_record_misdirected_witness :
  ∃ rc f', handle_encoded_result grant_4GiB (sample_result true "L-1-5" 0 7 "a") sample_waiting
      = Ok (rc, f') ∧ zlen (queued 7 f') = 34 ∧ queued 8 f' = [].
Proof.
  destruct (stored_record_misdirected grant_4GiB (2 ^ 30) 0 (sample_result true "L-1-5" 0 7 "a")
    (sample_result true "L-1-5" 1 8 "b") sample_waiting) as (rc & f' & He & Hq7 & Hq8).
  - apply grant_4GiB_mono.
  - reflexivity.
  - apply sample_waiting_ok.
  - lia.
  - apply sample_waiting_ok.
  - reflexivity.
  - reflexivity.
  - discriminate.
  - by apply sample_body_ok.
  - by apply sample_body_ok.
  - by vm_compute.
  - exists rc, f'. split; [exact He|]. simpl in Hq7, Hq8. rewrite Hq7, Hq8. by vm_compute.
Defined.

(** No memory at all. *)
Lemma refused_record_stalls_stream_witness :
  let f := (alloc_dest (new_dest 7 None None false) (forwarder_init 9 false false)).2 in
  ∃ f1 f2, handle_encoded_result (λ _, false) (sample_result true "L-1-5" 0 7 "a") f = Ok (1, f1) ∧
    handle_batch (λ _, false) [sample_result true "L-1-5" 1 7 "b"; sample_result true "L-1-5" 2 7 "c"] f1
      = Ok (1, f2) ∧ queued 7 f2 = queued 7 f1.
Proof.
  intros f.
  destruct (refused_record_stalls_stream (λ _, false) 0 0 (sample_result true "L-1-5" 0 7 "a")
    [sample_result true "L-1-5" 1 7 "b"; sample_result true "L-1-5" 2 7 "c"] ∅
    (new_dest 7 None None false) init_export_buffer f) as (f1 & f2 & H1 & _ & H2 & Hq).
  - apply alloc_dest_ok; [apply forwarder_init_ok|reflexivity..].
  - reflexivity.
  - reflexivity.
  - reflexivity.
  - reflexivity.
  - reflexivity.
  - reflexivity.
  - repeat constructor; discriminate.
  - exists f1, f2. split; [exact H1|]. split; [exact H2|]. apply Hq.
Defined.

Definition sample_mediator (ip : string) : openli_mediator_t :=
  Mkopenli_mediator_t 7 (Some (of_string ip)) (Some (of_string "8890")).

(** A mediator that was announced and connected on descriptor 12. *)
Definition sample_connected : forwarding_thread_data_t :=
  match connect_export_targets (λ _, Connected 12 SslDone)
          (alloc_dest (new_dest 7 (Some (of_string "10.0.0.1")) (Some (of_string "8890")) false)
            (forwarder_init 9 false false)).2 with
  | Ok f => f
  | _ => forwarder_init 9 false false
  end.

Lemma moved_mediator_use_after_free_witness :
  ∃ f', process_control_message (-1)
      [Some (Mkopenli_export_recv_t OPENLI_EXPORT_MEDIATOR 0 (Data_med (sample_mediator "10.0.0.2")));
       Some (Mkopenli_export_recv_t OPENLI_EXPORT_DROP_SINGLE_MEDIATOR 0
               (Data_med (sample_mediator "10.0.0.2")))] sample_connected = Ok (1, f') ∧
    send_slot grant_4GiB (λ _, SslDone) (λ _, SendWouldBlock) 3
      (set_fw_topoll (<[3%nat := Mkpollitem 12 true true]> f'.(fw_topoll)) f') = Undef.
Proof.
  destruct (sample_connected.(fw_heap) !! 0) as [d|] eqn:Hd; [|vm_compute in Hd; discriminate].
  assert (ds_fd d = 12 ∧ ds_mediatorid d = 7 ∧ ds_ipstr d = Some (of_string "10.0.0.1")) as (Hfd & Hid & Hip)
    by (vm_compute in Hd; by injection Hd as <-).
  destruct (moved_mediator_use_after_free grant_4GiB (-1) (sample_mediator "10.0.0.2") 0 3 d
    (of_string "10.0.0.1") (of_string "10.0.0.2") false (λ _, SslDone) (λ _, SendWouldBlock)
    sample_connected) as (f' & He & _ & _ & Hu).
  - reflexivity.
  - exact Hd.
  - exact Hid.
  - rewrite Hfd. discriminate.
  - rewrite Hfd. reflexivity.
  - lia.
  - rewrite Hfd. reflexivity.
  - exact Hip.
  - reflexivity.
  - vm_compute. discriminate.
  - reflexivity.
  - exists f'. split; [exact He|]. rewrite Hfd in Hu. exact Hu.
Defined.
