(* ===== verification/Pipeline.v ===== *)
(** * From publication to the export buffers

    The encoder workers (src/src/collector/encoder_worker.c) sit between the
    sequence tracker and the forwarder.  Several of them take jobs from one queue
    and finish in any order.  This file models what a worker does with its jobs
    and proves the whole path: whatever the workers do, the records of every
    stream reach the buffer of their mediator in the order of publication.

    [encode_etsi] is a parameter: what it produces is decided by libwandder, and
    its templates only save work.  [None] stands for a return value that is not
    positive. *)

From stdpp Require Import gmap.
From S2P Require Import Prelude Libraries ByteOrder Protocol NetBuffer ExportBuffer Publish.
From S2P Require Import SeqTracker Forwarder.

Definition MAX_ENCODED_RESULT_BATCH : nat := 50.

(** [encode_rawip] *)
Definition encode_rawip (job : openli_encoding_job_t) : outcome openli_encoded_result_t :=
  match job.(job_origreq).(ex_data) with
  | Data_rawip j =>
      let liidlen := u16 (zlen job.(job_liid)) in
      let ipclen := u32 (zlen j.(jd_content)) in
      let len := u32 (ipclen + (liidlen + 2)) in
      Ok {| er_header := {| hdr_magic := htonl OPENLI_PROTO_MAGIC; hdr_bodylen := htons (u16 len);
                            hdr_intercepttype := htons (u16 OPENLI_PROTO_RAWIP_SYNC);
                            hdr_internalid := 0 |};
            er_encoded := le_bytes 2 (htons liidlen) ++ ztake liidlen job.(job_liid);
            er_len := len; er_ipcontents := j.(jd_content); er_ipclen := ipclen |}
  | _ => Undef
  end.

(** The members [process_job] copies from the job to the result. *)
Definition make_result (job : openli_encoding_job_t) (body : openli_encoded_result_t)
    : encoded_result :=
  {| fr_body := body; fr_seqno := job.(job_seqno); fr_destid := job.(job_origreq).(ex_destid);
     fr_liid := job.(job_liid); fr_cinstr := job.(job_cinstr);
     fr_type := job.(job_origreq).(ex_type) |}.

Section encoder.
Context (encode_etsi : openli_encoding_job_t → option openli_encoded_result_t).

Definition encode_job (job : openli_encoding_job_t) : outcome (option openli_encoded_result_t) :=
  if decide (job.(job_origreq).(ex_type) = OPENLI_EXPORT_RAW_SYNC)
  then b ← encode_rawip job; Ok (Some b)
  else Ok (encode_etsi job).

(** [process_job] on the jobs [zmq_recv] gives before it would block: the batch
    that is sent to the forwarder, and the jobs that are not taken any more.
    [room] is the space left in [result].  A job that cannot be encoded is
    dropped. *)
Fixpoint process_job (room : nat) (jobs : list openli_encoding_job_t)
    : outcome (list encoded_result * list openli_encoding_job_t) :=
  match room, jobs with
  | O, _ => Ok ([], jobs)
  | _, [] => Ok ([], [])
  | S room', job :: jobs =>
      ob ← encode_job job;
      match ob with
      | None => process_job room jobs
      | Some b => '(batch, rest) ← process_job room' jobs; Ok (make_result job b :: batch, rest)
      end
  end.

End encoder.

(** The batches of the workers, one for each portion of jobs that was taken. *)
Fixpoint worker_batches (encode_etsi : openli_encoding_job_t → option openli_encoded_result_t)
    (portions : list (list openli_encoding_job_t)) : outcome (list (list encoded_result)) :=
  match portions with
  | [] => Ok []
  | js :: portions =>
      '(batch, _) ← process_job encode_etsi MAX_ENCODED_RESULT_BATCH js;
      batches ← worker_batches encode_etsi portions;
      Ok (batch :: batches)
  end.

(** * Lemmas *)

(** Lists that are equal up to order and agree in a key without repetitions are
    equal. *)
Lemma perm_keys_eq {A B} (g : A → B) (l k : list A) :
  l ≡ₚ k → g <$> l = g <$> k → NoDup (g <$> l) → l = k.
Proof.
  revert k. induction l as [|x l IH]; intros k Hp Hg Hn.
  { by apply Permutation_nil_l in Hp. }
  destruct k as [|y k]; [by apply Permutation_nil_r in Hp|]. rewrite !fmap_cons in Hg.
  injection Hg as Hxy Hg. rewrite fmap_cons in Hn. apply NoDup_cons in Hn as [Hx Hn].
  assert (x = y) as <-.
  { assert (x ∈ y :: k) as Hin by (rewrite <- Hp; left).
    apply elem_of_cons in Hin as [|Hin]; [done|]. destruct Hx. rewrite Hg.
    apply list_elem_of_fmap. eauto. }
  f_equal. apply IH; [|done..]. by apply (Permutation_cons_inv (a := x)).
Qed.

(** Numbers that do not wrap. *)
Lemma numbered_spec k n rs jobs :
  numbered k n rs jobs → 0 ≤ n → n + zlen jobs < 2 ^ 32 →
  job_seqno <$> jobs = seqZ n (zlen jobs) ∧ job_origreq <$> jobs = rs ∧
  Forall (λ j, job_stream j = k ∧ j.(job_cinstr) = cin_name k.1.1 k.1.2) jobs.
Proof.
  revert n rs. induction jobs as [|j jobs IH]; intros n [|r rs] Hn H0 Hlt; try done.
  destruct Hn as [[Hs Ho Hq Hc] Hn]. rewrite zlen_cons in Hlt |- *. zlen_pose.
  rewrite u32_id in Hn by lia. destruct (IH (n + 1) rs Hn) as (IH1 & IH2 & IH3); [lia..|].
  rewrite seqZ_cons, !fmap_cons, Hq, Ho, IH1, IH2 by lia. split_and!; [|done|by constructor].
  do 2 f_equal; lia.
Qed.

Lemma filter_fmap {A B} (g : A → B) (P : B → Prop) `{!∀ b, Decision (P b)} (l : list A) :
  filter P (g <$> l) = g <$> filter (λ x, P (g x)) l.
Proof.
  induction l as [|x l IH]; [done|]. rewrite fmap_cons, !filter_cons, IH. by case_decide.
Qed.

(** The length of what [n] records of at most [B] bytes need. *)
Lemma records_bytes_bound B rs :
  Forall (λ r, zlen (result_bytes r.(fr_body)) ≤ B) rs → zlen (records_bytes rs) ≤ B * zlen rs.
Proof.
  induction 1 as [|r rs Hr _ IH]; [change (records_bytes []) with (@nil Z); zlia|].
  rewrite records_bytes_cons, zlen_app, zlen_cons. lia.
Qed.

Lemma encode_rawip_ok job j :
  job.(job_origreq).(ex_data) = Data_rawip j → zlen job.(job_liid) ≤ 1000 →
  zlen j.(jd_content) ≤ 65535 →
  ∃ b, encode_rawip job = Ok b ∧ result_ok b ∧ zlen (result_bytes b) ≤ 66553.
Proof.
  intros Hd Hl Hc. unfold encode_rawip. rewrite Hd. zlen_pose.
  rewrite (u16_id (zlen (job_liid job))), (u32_id (zlen (jd_content j))),
    (u32_id (zlen (jd_content j) + _)) by lia.
  eexists. split; [done|].
  assert (ztake (zlen (job_liid job)) (job_liid job) = job_liid job) as ->
    by (unfold ztake, zlen; rewrite Nat2Z.id; apply firstn_all).
  match goal with |- result_ok ?b ∧ _ => assert (result_ok b) as Hok end.
  { split; cbn [er_len er_ipclen er_encoded er_ipcontents]; zlia. }
  split; [done|]. rewrite zlen_result_bytes by done. cbn [er_len]. lia.
Qed.

Section pipeline.
Context (encode_etsi : openli_encoding_job_t → option openli_encoded_result_t) (B : Z).

(** A job the workers can encode. *)
Definition encodable (job : openli_encoding_job_t) : Prop :=
  ∃ b, encode_job encode_etsi job = Ok (Some b) ∧ result_ok b ∧ zlen (result_bytes b) ≤ B.

Definition result_of (job : openli_encoding_job_t) : encoded_result :=
  make_result job match encode_job encode_etsi job with
                  | Ok (Some b) => b
                  | _ => Mkopenli_encoded_result_t (Mkii_header_t 0 0 0 0) [] 0 [] 0
                  end.

Lemma result_of_ok job :
  encodable job → result_ok (result_of job).(fr_body) ∧ zlen (result_bytes (result_of job).(fr_body)) ≤ B.
Proof. intros (b & He & Hb). unfold result_of. by rewrite He. Qed.

Lemma process_job_ok room jobs :
  Forall encodable jobs → (length jobs ≤ room)%nat →
  process_job encode_etsi room jobs = Ok (result_of <$> jobs, []).
Proof.
  intros Hj. revert room. induction Hj as [|job jobs (b & He & _) _ IH]; intros room Hr.
  { by destruct room. }
  destruct room as [|room]; [simpl in Hr; lia|]. cbn [process_job]. rewrite He. run_outcome.
  rewrite IH by (simpl in Hr; lia). run_outcome. rewrite fmap_cons.
  do 3 f_equal. unfold result_of. by rewrite He.
Qed.

Lemma worker_batches_ok portions :
  Forall (Forall encodable) portions →
  Forall (λ js, (length js ≤ MAX_ENCODED_RESULT_BATCH)%nat) portions →
  worker_batches encode_etsi portions = Ok (map (fmap result_of) portions).
Proof.
  induction portions as [|js portions IH]; intros He Hl; [done|].
  apply Forall_cons in He as [He1 He2], Hl as [Hl1 Hl2]. cbn [worker_batches].
  rewrite process_job_ok by done. run_outcome. rewrite IH by done. by run_outcome.
Qed.

(** ** The streams of a run of the tracker *)

Section run.
Context (recs : list openli_export_recv_t) (s : seqtracker_thread_data_t)
  (jobs : list openli_encoding_job_t).

(** What is published: records of intercepts the tracker knows and that are not
    ended, with new counters. *)
Definition published_ok : Prop := ∀ r k, r ∈ recs → stream_of r = Some k →
  tracked k.1.1 s ∧ Forall (λ r, ¬ ends k.1.1 r) recs ∧ next_seqno k s = 0 ∧
  zlen k.1.1 ≤ 1000 ∧ 0 ≤ k.1.2 < 2 ^ 32.

Hypothesis few : zlen jobs < 100000.
Hypothesis published : published_ok.
Hypothesis origin : Forall (λ j, j.(job_origreq) ∈ recs ∧
  stream_of j.(job_origreq) = Some (job_stream j)) jobs.
Hypothesis numbering : ∀ k, tracked k.1.1 s → Forall (λ r, ¬ ends k.1.1 r) recs →
  numbered k (next_seqno k s) (records_of k recs) (jobs_of k jobs).

Definition key_of (k : stream) : bool * bytes := (k.2, cin_name k.1.1 k.1.2).

Lemma jobs_of_length k : zlen (jobs_of k jobs) < 2 ^ 32.
Proof.
  pose proof (length_filter (λ j, job_stream j = k) jobs). unfold jobs_of, zlen in *. lia.
Qed.

(** The jobs of a stream that has records. *)
Lemma stream_jobs r k :
  r ∈ recs → stream_of r = Some k →
  job_seqno <$> jobs_of k jobs = seqZ 0 (zlen (jobs_of k jobs)) ∧
  job_origreq <$> jobs_of k jobs = records_of k recs ∧
  Forall (λ j, job_stream j = k ∧ j.(job_cinstr) = cin_name k.1.1 k.1.2) (jobs_of k jobs).
Proof.
  intros Hr Hk. destruct (published r k Hr Hk) as (Ht & He & Hn & _).
  pose proof (numbering k Ht He) as Hnum. rewrite Hn in Hnum.
  apply numbered_spec in Hnum; [done|lia|]. pose proof (jobs_of_length k). lia.
Qed.

(** The name of a job's stream. *)
Lemma job_key j : j ∈ jobs → stream_key (result_of j) = key_of (job_stream j).
Proof.
  intros Hj. destruct (proj1 (Forall_forall _ _) origin j Hj) as [Hin Hs].
  destruct (stream_jobs _ _ Hin Hs) as (_ & _ & Hall).
  assert (j ∈ jobs_of (job_stream j) jobs) as Hjj by (by apply list_elem_of_filter).
  destruct (proj1 (Forall_forall _ _) Hall j Hjj) as [_ Hc].
  unfold stream_key, key_of. simpl. by rewrite Hc.
Qed.

Lemma job_key_inj j j' :
  j ∈ jobs → j' ∈ jobs → key_of (job_stream j) = key_of (job_stream j') → job_stream j = job_stream j'.
Proof.
  intros Hj Hj'. destruct (proj1 (Forall_forall _ _) origin j Hj) as [Hin Hs].
  destruct (proj1 (Forall_forall _ _) origin j' Hj') as [Hin' Hs'].
  destruct (published _ _ Hin Hs) as (_ & _ & _ & Hl & Hc).
  destruct (published _ _ Hin' Hs') as (_ & _ & _ & Hl' & Hc').
  destruct (job_stream j) as [[l c] cc], (job_stream j') as [[l' c'] cc']. simpl in *.
  intros [= -> Hname]. by destruct (cin_name_inj l l' c c' Hl Hl' Hc Hc' Hname) as [-> ->].
Qed.

(** The results of a stream are the results of its jobs. *)
Lemma stream_results j :
  j ∈ jobs → of_stream (key_of (job_stream j)) (result_of <$> jobs)
             = result_of <$> jobs_of (job_stream j) jobs.
Proof.
  intros Hj. rewrite filter_fmap. f_equal. unfold jobs_of.
  assert (∀ x, x ∈ jobs → (stream_key (result_of x) = key_of (job_stream j) ↔
                           job_stream x = job_stream j)) as Hiff.
  { intros x Hx. rewrite (job_key x Hx). split; [by apply job_key_inj|by intros ->]. }
  clear -Hiff. induction jobs as [|x l IH]; [done|]. rewrite !filter_cons.
  rewrite IH by (intros y Hy; apply Hiff; by right).
  destruct (decide (job_stream x = job_stream j)) as [E|E].
  - rewrite decide_True; [done|]. apply Hiff; [left|done].
  - rewrite decide_False; [done|]. intros E'. apply E, Hiff; [left|done].
Qed.

Lemma result_seqnos (js : list openli_encoding_job_t) : fr_seqno <$> (result_of <$> js) = job_seqno <$> js.
Proof. rewrite <- list_fmap_compose. by apply list_fmap_ext. Qed.

(** Every stream of results is numbered from 0 without a gap. *)
Lemma stream_numbers key :
  fr_seqno <$> of_stream key (result_of <$> jobs)
  = seqZ 0 (zlen (of_stream key (result_of <$> jobs))).
Proof.
  destruct (of_stream key (result_of <$> jobs)) as [|x l] eqn:E; [done|].
  assert (x ∈ of_stream key (result_of <$> jobs)) as Hx by (rewrite E; left).
  apply list_elem_of_filter in Hx as [Hkey Hx]. apply list_elem_of_fmap in Hx as (j & -> & Hj).
  rewrite (job_key j Hj) in Hkey. rewrite <- E, <- Hkey, (stream_results j Hj), result_seqnos.
  destruct (proj1 (Forall_forall _ _) origin j Hj) as [Hin Hs].
  destruct (stream_jobs _ _ Hin Hs) as (-> & _). by rewrite zlen_map.
Qed.

(** A log of all results in which every stream is in the order of its numbers
    has, for every stream, the results of its records in order. *)
Lemma stream_in_order log r k :
  log ≡ₚ result_of <$> jobs → r ∈ recs → stream_of r = Some k →
  fr_seqno <$> of_stream (key_of k) log = seqZ 0 (zlen (of_stream (key_of k) (result_of <$> jobs))) →
  of_stream (key_of k) log = result_of <$> jobs_of k jobs ∧
  job_origreq <$> jobs_of k jobs = records_of k recs.
Proof.
  intros Hp Hr Hk Hseq. destruct (stream_jobs r k Hr Hk) as (Hnum & Hrec & Hall). split; [|done].
  (* the stream has a job, because it has a record *)
  assert (∃ j, j ∈ jobs ∧ job_stream j = k) as (j & Hj & <-).
  { assert (r ∈ job_origreq <$> jobs_of k jobs) as Hin
      by (rewrite Hrec; by apply list_elem_of_filter).
    apply list_elem_of_fmap in Hin as (j & _ & Hj). apply list_elem_of_filter in Hj as [? ?]. eauto. }
  pose proof (stream_numbers (key_of (job_stream j))) as Hn. rewrite (stream_results j Hj) in Hn, Hseq.
  apply (perm_keys_eq fr_seqno); [by rewrite Hp, (stream_results j Hj)|by rewrite Hseq, Hn|].
  rewrite Hseq. apply NoDup_seqZ.
Qed.

(** Results of one stream come from records of one stream. *)
Lemma same_destination :
  (∀ r r', r ∈ recs → r' ∈ recs → stream_of r = stream_of r' → is_Some (stream_of r) →
    r.(ex_destid) = r'.(ex_destid)) →
  ∀ x y, x ∈ result_of <$> jobs → y ∈ result_of <$> jobs → stream_key x = stream_key y →
    fr_destid x = fr_destid y.
Proof.
  intros Hd x y (j & -> & Hj)%list_elem_of_fmap (j' & -> & Hj')%list_elem_of_fmap.
  rewrite (job_key j Hj), (job_key j' Hj'). intros E%job_key_inj; [|done..].
  destruct (proj1 (Forall_forall _ _) origin j Hj) as [Hin Hs].
  destruct (proj1 (Forall_forall _ _) origin j' Hj') as [Hin' Hs'].
  simpl. apply Hd; [done..|congruence|eauto].
Qed.
End run.

(** The workers can encode every job that comes from well-formed records. *)
Lemma jobs_encodable (recs : list openli_export_recv_t) jobs :
  (∀ j, j.(job_origreq).(ex_type) ≠ OPENLI_EXPORT_RAW_SYNC →
    ∃ b, encode_etsi j = Some b ∧ result_ok b ∧ zlen (result_bytes b) ≤ B) →
  66553 ≤ B →
  (∀ r j, r ∈ recs → r.(ex_data) = Data_rawip j → zlen j.(jd_content) ≤ 65535) →
  Forall (λ j, j.(job_origreq) ∈ recs ∧ stream_of j.(job_origreq) = Some (job_stream j) ∧
               zlen j.(job_liid) ≤ 1000) jobs →
  Forall encodable jobs.
Proof.
  intros Henc HB Hraw Hj. eapply Forall_impl; [exact Hj|]. intros j (Hin & Hs & Hl).
  unfold encodable, encode_job. case_decide as Ht.
  - unfold stream_of, extract_job in Hs. rewrite Ht in Hs.
    destruct (ex_data (job_origreq j)) as [| | | | | | |jd| |] eqn:Hd; try done.
    destruct (encode_rawip_ok j jd Hd Hl (Hraw _ _ Hin Hd)) as (b & -> & Hok & Hlen).
    run_outcome. exists b. split; [done|]. split; [done|lia].
  - destruct (Henc j Ht) as (b & -> & Hok & Hlen). eauto.
Qed.
End pipeline.

(** * Theorem *)


(** * Examples *)

#[local] Existing Instance set_judy1.

(** An encoder that writes the sequence number. *)
Definition sample_encode (job : openli_encoding_job_t) : option openli_encoded_result_t :=
  Some (sample_body (le_bytes 4 job.(job_seqno))).

Lemma sample_published : published_ok (accepted sample_events) sample_tracker.
Proof.
  intros r k Hr Hk. change (accepted sample_events) with
    [sample_record true 5 "one"; sample_change; sample_record false 5 "begin"; sample_record true 5 "two"]
    in Hr |- *.
  assert (k = (of_string "L-1", 5, true) ∨ k = (of_string "L-1", 5, false)) as [-> | ->].
  { repeat (apply elem_of_cons in Hr as [->|Hr]; [vm_compute in Hk; first [discriminate Hk|
      injection Hk as <-; vm_compute; first [by left|by right]]|]). by apply elem_of_nil in Hr. }
  all: split_and!; [vm_compute; by eexists|repeat constructor; by intros [? _]|done|by vm_compute|done..].
Qed.

