(* ===== verification/JenkinsHash.v ===== *)
(** * The hash of LIIDs, SIP call ids and RADIUS authenticators
      (src/src/collector/jenkinshash.c, [hash_liid] of src/src/util.c)

    [hashlittle] reads its key as 32-bit words, as 16-bit words or byte by byte,
    depending on the address of the key.  All three are modelled, and proved to
    compute the same value: which sequence tracker an intercept is given and
    which CIN a session gets do not depend on where a string was allocated.  The
    mixing macro is proved to be reversible, as its comment says. *)

From S2P Require Import Prelude.

(** ** Mixing *)

Definition rot (x k : Z) : Z := Z.lor (u32 (Z.shiftl x k)) (Z.shiftr x (32 - k)).

(** [x -= y; x ^= rot(y,k); y += z] *)
Definition mix_step (k x y z : Z) : Z * Z :=
  (Z.lxor (u32 (x - y)) (rot y k), u32 (y + z)).

Definition mix (s : Z * Z * Z) : Z * Z * Z :=
  let '(a, b, c) := s in
  let '(a, c) := mix_step 4 a c b in
  let '(b, a) := mix_step 6 b a c in
  let '(c, b) := mix_step 8 c b a in
  let '(a, c) := mix_step 16 a c b in
  let '(b, a) := mix_step 19 b a c in
  let '(c, b) := mix_step 4 c b a in
  (a, b, c).

(** [x ^= y; x -= rot(y,k)] *)
Definition final_step (k x y : Z) : Z := u32 (Z.lxor x y - rot y k).

Definition final (s : Z * Z * Z) : Z :=
  let '(a, b, c) := s in
  let c := final_step 14 c b in
  let a := final_step 11 a c in
  let b := final_step 25 b a in
  let c := final_step 16 c b in
  let a := final_step 4 a c in
  let b := final_step 14 b a in
  final_step 24 c b.

(** ** Reading the key *)

(** [k[i]] through a pointer to [w] bytes. *)
Definition kw (w : nat) (k : bytes) (i : nat) : Z := le_val (take w (drop (w * i) k)).

Definition shl (x n : Z) : Z := u32 (Z.shiftl x n).
#[local] Notation "x +% y" := (u32 (x + y)) (at level 50, left associativity, only parsing).

(** [while (length > 12)]: three words, then [mix], until at most 12 bytes are
    left.  The result is what is left, too. *)
Fixpoint hash_blocks (add : bytes → Z * Z * Z → Z * Z * Z) (fuel length : nat) (k : bytes)
    (s : Z * Z * Z) : nat * bytes * (Z * Z * Z) :=
  match fuel with
  | O => (length, k, s)
  | S fuel => if (12 <? length)%nat
              then hash_blocks add fuel (length - 12) (drop 12 k) (mix (add k s))
              else (length, k, s)
  end.

Definition add32 (k : bytes) (s : Z * Z * Z) : Z * Z * Z :=
  let '(a, b, c) := s in (a +% kw 4 k 0, b +% kw 4 k 1, c +% kw 4 k 2).

Definition add16 (k : bytes) (s : Z * Z * Z) : Z * Z * Z :=
  let '(a, b, c) := s in
  (a +% (kw 2 k 0 +% shl (kw 2 k 1) 16), b +% (kw 2 k 2 +% shl (kw 2 k 3) 16),
   c +% (kw 2 k 4 +% shl (kw 2 k 5) 16)).

Definition add8 (k : bytes) (s : Z * Z * Z) : Z * Z * Z :=
  let '(a, b, c) := s in
  (a +% kw 1 k 0 +% shl (kw 1 k 1) 8 +% shl (kw 1 k 2) 16 +% shl (kw 1 k 3) 24,
   b +% kw 1 k 4 +% shl (kw 1 k 5) 8 +% shl (kw 1 k 6) 16 +% shl (kw 1 k 7) 24,
   c +% kw 1 k 8 +% shl (kw 1 k 9) 8 +% shl (kw 1 k 10) 16 +% shl (kw 1 k 11) 24).

(** The [switch] on the last block: [None] for an empty key, which is not mixed. *)
Definition last32 (length : nat) (k : bytes) (s : Z * Z * Z) : option (Z * Z * Z) :=
  let '(a, b, c) := s in
  let w := kw 4 k in
  match length with
  | 12%nat => Some (a +% w 0%nat, b +% w 1%nat, c +% w 2%nat)
  | 11%nat => Some (a +% w 0%nat, b +% w 1%nat, c +% Z.land (w 2%nat) 0xffffff)
  | 10%nat => Some (a +% w 0%nat, b +% w 1%nat, c +% Z.land (w 2%nat) 0xffff)
  | 9%nat => Some (a +% w 0%nat, b +% w 1%nat, c +% Z.land (w 2%nat) 0xff)
  | 8%nat => Some (a +% w 0%nat, b +% w 1%nat, c)
  | 7%nat => Some (a +% w 0%nat, b +% Z.land (w 1%nat) 0xffffff, c)
  | 6%nat => Some (a +% w 0%nat, b +% Z.land (w 1%nat) 0xffff, c)
  | 5%nat => Some (a +% w 0%nat, b +% Z.land (w 1%nat) 0xff, c)
  | 4%nat => Some (a +% w 0%nat, b, c)
  | 3%nat => Some (a +% Z.land (w 0%nat) 0xffffff, b, c)
  | 2%nat => Some (a +% Z.land (w 0%nat) 0xffff, b, c)
  | 1%nat => Some (a +% Z.land (w 0%nat) 0xff, b, c)
  | _ => None
  end.

Definition last16 (length : nat) (k : bytes) (s : Z * Z * Z) : option (Z * Z * Z) :=
  let '(a, b, c) := s in
  let h := kw 2 k in
  let k8 := kw 1 k in
  let word i := h i +% shl (h (S i)) 16 in
  match length with
  | 12%nat => Some (a +% word 0%nat, b +% word 2%nat, c +% word 4%nat)
  | 11%nat => Some (a +% word 0%nat, b +% word 2%nat, c +% shl (k8 10%nat) 16 +% h 4%nat)
  | 10%nat => Some (a +% word 0%nat, b +% word 2%nat, c +% h 4%nat)
  | 9%nat => Some (a +% word 0%nat, b +% word 2%nat, c +% k8 8%nat)
  | 8%nat => Some (a +% word 0%nat, b +% word 2%nat, c)
  | 7%nat => Some (a +% word 0%nat, b +% shl (k8 6%nat) 16 +% h 2%nat, c)
  | 6%nat => Some (a +% word 0%nat, b +% h 2%nat, c)
  | 5%nat => Some (a +% word 0%nat, b +% k8 4%nat, c)
  | 4%nat => Some (a +% word 0%nat, b, c)
  | 3%nat => Some (a +% shl (k8 2%nat) 16 +% h 0%nat, b, c)
  | 2%nat => Some (a +% h 0%nat, b, c)
  | 1%nat => Some (a +% k8 0%nat, b, c)
  | _ => None
  end.

(** All cases fall through: the bytes from the last one down to the first. *)
Definition last8 (length : nat) (k : bytes) (s : Z * Z * Z) : option (Z * Z * Z) :=
  let '(a, b, c) := s in
  let byte i n x := if (i <? length)%nat then x +% shl (kw 1 k i) n else x in
  let plain i x := if (i <? length)%nat then x +% kw 1 k i else x in
  if (length =? 0)%nat || (12 <? length)%nat then None
  else Some (plain 0%nat (byte 1%nat 8 (byte 2%nat 16 (byte 3%nat 24 a))),
             plain 4%nat (byte 5%nat 8 (byte 6%nat 16 (byte 7%nat 24 b))),
             plain 8%nat (byte 9%nat 8 (byte 10%nat 16 (byte 11%nat 24 c)))).

Definition hash_with (add : bytes → Z * Z * Z → Z * Z * Z)
    (last : nat → bytes → Z * Z * Z → option (Z * Z * Z)) (length : nat) (k : bytes) (init : Z)
    : Z :=
  let '(n, k, s) := hash_blocks add length length k (init, init, init) in
  match last n k s with Some s => final s | None => let '(_, _, c) := s in c end.

(** [hashlittle(key, length, initval)]; [addr] is the address of the key and [mem]
    the memory that can be read there.  The first variant reads whole words. *)
Definition hashlittle (addr : Z) (mem : bytes) (length : nat) (initval : Z) : outcome Z :=
  let init := u32 (u32 (0xdeadbeef + u32 (Z.of_nat length)) + initval) in
  if Z.land addr 3 =? 0 then
    if decide (4 * ((length + 3) `div` 4) ≤ List.length mem)%nat
    then Ok (hash_with add32 last32 length mem init) else Undef
  else if decide (length ≤ List.length mem)%nat then
    if Z.land addr 1 =? 0 then Ok (hash_with add16 last16 length mem init)
    else Ok (hash_with add8 last8 length mem init)
  else Undef.

(** [hash_liid] of util.c, on a string at an address. *)
Definition hash_liid (addr : Z) (mem : bytes) : outcome Z :=
  hashlittle addr mem (List.length (until_nul mem)) 1572869.

(** ** Mixing is reversible *)

(** The steps of [mix], backwards. *)
Definition unmix_step (k x y z : Z) : Z * Z :=
  let y := u32 (y - z) in (u32 (Z.lxor x (rot y k) + y), y).

Definition unmix (s : Z * Z * Z) : Z * Z * Z :=
  let '(a, b, c) := s in
  let '(c, b) := unmix_step 4 c b a in
  let '(b, a) := unmix_step 19 b a c in
  let '(a, c) := unmix_step 16 a c b in
  let '(c, b) := unmix_step 8 c b a in
  let '(b, a) := unmix_step 6 b a c in
  let '(a, c) := unmix_step 4 a c b in
  (a, b, c).

Definition is_u32 (z : Z) : Prop := 0 ≤ z < 2^32.

Lemma u32_is_u32 z : is_u32 (u32 z).
Proof. unfold u32, is_u32. by apply Z.mod_pos_bound. Qed.

Lemma u32_add_r a b : u32 (a + u32 b) = u32 (a + b).
Proof. apply Zplus_mod_idemp_r. Qed.
Lemma u32_sub_l a b : u32 (u32 a - b) = u32 (a - b).
Proof. apply Zminus_mod_idemp_l. Qed.

Lemma u32_testbit z : is_u32 z ↔ Z.land z (Z.ones 32) = z.
Proof.
  unfold is_u32. rewrite Z.land_ones by lia. split.
  - intros. by apply Z.mod_small.
  - intros <-. by apply Z.mod_pos_bound.
Qed.

Lemma lxor_is_u32 a b : is_u32 a → is_u32 b → is_u32 (Z.lxor a b).
Proof.
  rewrite !u32_testbit. intros Ha Hb. apply Z.bits_inj'. intros n Hn.
  apply (f_equal (λ z, Z.testbit z n)) in Ha, Hb.
  rewrite Z.land_spec in *. rewrite Z.lxor_spec.
  destruct (Z.testbit a n), (Z.testbit b n), (Z.testbit (Z.ones 32) n); done.
Qed.

Lemma rot_is_u32 x k : is_u32 x → 0 ≤ k ≤ 32 → is_u32 (rot x k).
Proof.
  intros Hx Hk. unfold rot. apply u32_testbit. apply Z.bits_inj'. intros n Hn.
  rewrite Z.land_spec, Z.lor_spec. destruct (decide (n < 32)).
  { by rewrite Z.ones_spec_low, andb_true_r by lia. }
  rewrite Z.ones_spec_high, andb_false_r by lia. symmetry. apply orb_false_intro.
  - unfold u32. rewrite Z.mod_pow2_bits_high by lia. done.
  - rewrite Z.shiftr_spec by lia. rewrite <- (proj1 (u32_testbit x) Hx), Z.land_spec.
    rewrite Z.ones_spec_high by lia. apply andb_false_r.
Qed.

Lemma unmix_mix_step k x y z :
  is_u32 x → is_u32 y →
  let '(x', y') := mix_step k x y z in unmix_step k x' y' z = (x, y).
Proof.
  intros Hx Hy. unfold mix_step, unmix_step.
  rewrite u32_sub_l, Z.add_simpl_r, (u32_id y) by exact Hy.
  rewrite Z.lxor_assoc, Z.lxor_nilpotent, Z.lxor_0_r.
  by rewrite u32_add_l, Z.sub_add, u32_id by exact Hx.
Qed.

Lemma mix_step_u32 k x y z :
  0 ≤ k ≤ 32 → is_u32 x → is_u32 y →
  is_u32 (fst (mix_step k x y z)) ∧ is_u32 (snd (mix_step k x y z)).
Proof.
  intros. split; [|apply u32_is_u32].
  apply lxor_is_u32; [apply u32_is_u32|by apply rot_is_u32].
Qed.

(** One step of [mix] done and undone, in the middle of the others. *)
Ltac undo_mix :=
  match goal with
  | |- context [mix_step ?k ?x ?y ?z] =>
      let Hx := fresh "Hx" in let Hy := fresh "Hy" in
      assert (Hx : is_u32 x) by assumption; assert (Hy : is_u32 y) by assumption;
      pose proof (unmix_mix_step k x y z Hx Hy);
      let H := fresh "H" in
      assert (H : is_u32 (fst (mix_step k x y z)) ∧ is_u32 (snd (mix_step k x y z)))
        by (apply mix_step_u32; [lia|assumption|assumption]);
      destruct (mix_step k x y z); destruct H; cbn [fst snd] in *; cbv beta iota
  end.

(** [mix] is reversible, as its comment promises: no information about the
    three words is lost, whatever they are. *)
Theorem mix_reversible (a b c : Z) :
  is_u32 a → is_u32 b → is_u32 c → unmix (mix (a, b, c)) = (a, b, c).
Proof.
  intros Ha Hb Hc. unfold mix. cbv beta iota.
  do 6 undo_mix. unfold unmix.
  repeat match goal with H : unmix_step _ _ _ _ = _ |- _ => rewrite H; clear H end.
  done.
Qed.

Lemma mix_reversible_witness :
  is_u32 1 ∧ unmix (mix (1, 0xffffffff, 7)) = (1, 0xffffffff, 7).
Proof. split; [unfold is_u32; lia|]. apply mix_reversible; unfold is_u32; lia. Defined.

(** ** The three ways to read a key *)

(** Sums of shifted bytes in 32 bits, as one sum. *)
Lemma shl_mul x n : 0 ≤ n → shl x n = u32 (x * 2^n).
Proof. intros. unfold shl. by rewrite Z.shiftl_mul_pow2. Qed.

Ltac u32_free z := lazymatch z with context [u32 _] => fail | _ => idtac end.
Ltac u32_flat :=
  repeat match goal with
  | |- context [u32 (u32 ?z + ?w)] => u32_free z; rewrite (u32_add_l z w)
  | |- context [u32 (?z + u32 ?w)] => u32_free w; rewrite (u32_add_r z w)
  end.
Ltac u32_sum :=
  rewrite ?shl_mul by lia; u32_flat; f_equal;
  change (2^8) with 256; change (2^16) with 65536; change (2^24) with 16777216; lia.

Lemma le_val_app l k : le_val (l ++ k) = le_val l + 256 ^ zlen l * le_val k.
Proof.
  induction l as [|x l IH]; [change (256 ^ zlen (@nil Z)) with 1; cbn [app le_val]; lia|].
  cbn [app le_val]. rewrite IH, zlen_cons, Z.pow_add_r by zlia. change (256 ^ 1) with 256. lia.
Qed.

(** Masking a word keeps its low bytes. *)
Lemma land_le_val (j : nat) l :
  all_bytes l → Z.land (le_val l) (Z.ones (8 * Z.of_nat j)) = le_val (take j l).
Proof.
  intros Hl. rewrite Z.land_ones by lia.
  assert (E : 2 ^ (8 * Z.of_nat j) = 256 ^ Z.of_nat j) by (rewrite Z.pow_mul_r by lia; done).
  rewrite E. destruct (decide (j ≤ length l)%nat) as [Hj|Hj].
  - rewrite <- (take_drop j l) at 1. rewrite le_val_app.
    assert (Hz : zlen (take j l) = Z.of_nat j) by (unfold zlen; rewrite length_take; lia).
    rewrite Hz, Z.mul_comm, Z.mod_add by lia. apply Z.mod_small.
    rewrite <- Hz. apply le_val_range. by apply Forall_take.
  - rewrite take_ge by lia. apply Z.mod_small. pose proof (le_val_range l Hl) as Hr.
    split; [lia|]. eapply Z.lt_le_trans; [apply Hr|]. apply Z.pow_le_mono_r; unfold zlen; lia.
Qed.

Lemma all_bytes_kw w i k : all_bytes k → all_bytes (take w (drop (w * i) k)).
Proof. intros. by apply Forall_take, Forall_drop. Qed.

(** What a block adds, written once: three little-endian words of the bytes that
    belong to the key. *)
Definition add_ref (k : bytes) (s : Z * Z * Z) : Z * Z * Z :=
  let '(a, b, c) := s in
  (a +% le_val (take 4 k), b +% le_val (take 4 (drop 4 k)), c +% le_val (take 4 (drop 8 k))).

Definition u32_3 (s : Z * Z * Z) : Prop :=
  let '(a, b, c) := s in is_u32 a ∧ is_u32 b ∧ is_u32 c.

(** Expose the first [n] bytes of a list that has them. *)
Ltac expose k n Hk :=
  lazymatch n with
  | O => idtac
  | S ?n => let x := fresh "x" in destruct k as [|x k]; [cbn in Hk; lia|expose k n Hk]
  end.

Lemma add32_ref k s : add32 k s = add_ref k s.
Proof. by destruct s as [[a b] c]. Qed.

Lemma add16_ref k s : (12 ≤ length k)%nat → add16 k s = add_ref k s.
Proof.
  intros Hk. destruct s as [[a b] c]. expose k 12%nat Hk. unfold add16, add_ref, kw.
  cbn [take drop le_val Nat.mul Nat.add]. f_equal; [f_equal|]; u32_sum.
Qed.

Lemma add8_ref k s : (12 ≤ length k)%nat → add8 k s = add_ref k s.
Proof.
  intros Hk. destruct s as [[a b] c]. expose k 12%nat Hk. unfold add8, add_ref, kw.
  cbn [take drop le_val Nat.mul Nat.add]. f_equal; [f_equal|]; u32_sum.
Qed.

Definition last_ref (n : nat) (k : bytes) (s : Z * Z * Z) : option (Z * Z * Z) :=
  if decide (1 ≤ n ≤ 12)%nat then Some (add_ref (take n k) s) else None.

Ltac last_case n k Hk :=
  expose k n Hk; unfold last_ref; rewrite decide_True by lia; unfold add_ref, kw;
  cbn [take drop le_val Nat.mul Nat.add Nat.ltb Nat.leb Nat.eqb orb];
  rewrite ?take_0, ?take_nil; cbn [le_val];
  apply (f_equal Some), f_equal2; [apply f_equal2|];
  first [rewrite Z.add_0_r, u32_id by assumption; reflexivity|u32_sum].

(** One goal for each length of the last block. *)
Ltac last_cases n k Hk :=
  do 13 (try destruct n as [|n]); try lia;
  lazymatch goal with |- _ = last_ref ?m _ _ => last_case m k Hk end.

Lemma last8_ref n k s :
  (n ≤ length k)%nat → (n ≤ 12)%nat → u32_3 s → last8 n k s = last_ref n k s.
Proof.
  intros Hk Hn. destruct s as [[a b] c]. intros (Ha & Hb & Hc). unfold is_u32 in *.
  destruct (decide (n = 0)%nat) as [->|H0]; [done|]. unfold last8. last_cases n k Hk.
Qed.

Lemma last16_ref n k s :
  (n ≤ length k)%nat → (n ≤ 12)%nat → u32_3 s → last16 n k s = last_ref n k s.
Proof.
  intros Hk Hn. destruct s as [[a b] c]. intros (Ha & Hb & Hc). unfold is_u32 in *.
  destruct (decide (n = 0)%nat) as [->|H0]; [done|]. unfold last16. last_cases n k Hk.
Qed.

Lemma last32_ref n k s :
  all_bytes k → (n ≤ length k)%nat → (n ≤ 12)%nat → u32_3 s → last32 n k s = last_ref n k s.
Proof.
  intros Hall Hk Hn. destruct s as [[a b] c]. intros (Ha & Hb & Hc). unfold is_u32 in *.
  destruct (decide (n = 0)%nat) as [->|H0]; [done|].
  assert (Hw : ∀ i j, Z.land (kw 4 k i) (Z.ones (8 * Z.of_nat j)) = le_val (take j (take 4 (drop (4 * i) k))))
    by (intros; by apply land_le_val, (all_bytes_kw 4)).
  unfold last32. cbv zeta.
  change 0xffffff with (Z.ones (8 * Z.of_nat 3)).
  change 0xffff with (Z.ones (8 * Z.of_nat 2)).
  change 0xff with (Z.ones (8 * Z.of_nat 1)).
  rewrite !Hw. clear Hw Hall. last_cases n k Hk.
Qed.

(** ** The whole function *)

Lemma mix_u32 s : u32_3 s → u32_3 (mix s).
Proof.
  destruct s as [[a b] c]. intros (Ha & Hb & Hc). unfold mix. cbv beta iota.
  do 6 undo_mix. done.
Qed.

Lemma add_ref_u32 k s : u32_3 (add_ref k s).
Proof. destruct s as [[a b] c]. repeat split; apply u32_is_u32. Qed.

(** What is left after the loop is a block of at most 12 bytes of the key, empty
    only for an empty key; enough fuel was given. *)
Lemma hash_blocks_end add fuel n k s :
  (n ≤ fuel)%nat → (n ≤ length k)%nat → u32_3 s → (∀ k s, u32_3 (add k s)) →
  let '(m, k', s') := hash_blocks add fuel n k s in
  (m ≤ 12)%nat ∧ (m ≤ length k')%nat ∧ u32_3 s' ∧ (m = 0 ↔ n = 0)%nat ∧
  ∃ j, k' = drop j k ∧ (n = j + m)%nat.
Proof.
  revert n k s. induction fuel as [|fuel IH]; intros n k s Hf Hn Hs Hadd; simpl.
  { split_and!; [lia..|done|done|]. exists 0%nat. split; [done|lia]. }
  destruct (Nat.ltb_spec 12 n) as [H12|H12]; [|split_and!; [done..|by exists 0%nat]].
  specialize (IH (n - 12)%nat (drop 12 k) (mix (add k s))). rewrite length_drop in IH.
  destruct (hash_blocks add fuel (n - 12) (drop 12 k) (mix (add k s))) as [[m k'] s'].
  destruct IH as (H1 & H2 & H3 & H4 & j & -> & Hj); [lia|lia|by apply mix_u32|done|].
  split_and!; [done..|lia|]. exists (12 + j)%nat. rewrite drop_drop. split; [done|lia].
Qed.

(** The value of the hash: a function of the key alone. *)
Definition hash_ref (key : bytes) (init : Z) : Z :=
  hash_with add_ref last_ref (length key) key init.

Lemma take_app_l (n : nat) (l k : bytes) : (n ≤ length l)%nat → take n (l ++ k) = take n l.
Proof. intros. by rewrite take_app_le. Qed.

Lemma add_ref_app key rest s :
  (12 ≤ length key)%nat → add_ref (key ++ rest) s = add_ref key s.
Proof.
  intros. destruct s as [[a b] c]. unfold add_ref.
  rewrite !drop_app_le by lia. by rewrite !take_app_l by (rewrite ?length_drop; lia).
Qed.

Section variant.
Context (add : bytes → Z * Z * Z → Z * Z * Z)
        (last : nat → bytes → Z * Z * Z → option (Z * Z * Z)).
Context (Hadd : ∀ k s, (12 ≤ length k)%nat → add k s = add_ref k s)
        (Hlast : ∀ n k s, all_bytes k → (n ≤ length k)%nat → (n ≤ 12)%nat → u32_3 s →
                   last n k s = last_ref n k s).

Lemma hash_blocks_ref fuel key rest s :
  hash_blocks add fuel (length key) (key ++ rest) s =
  let '(m, k, s) := hash_blocks add_ref fuel (length key) key s in (m, k ++ rest, s).
Proof using Hadd.
  revert key s. induction fuel as [|fuel IH]; intros key s; simpl; [done|].
  destruct (Nat.ltb_spec 12 (length key)) as [H|H]; [|done].
  rewrite Hadd by (rewrite length_app; lia). rewrite add_ref_app by lia.
  rewrite drop_app_le by lia. rewrite <- length_drop. apply IH.
Qed.

Lemma hash_with_ref key rest init :
  all_bytes (key ++ rest) → is_u32 init →
  hash_with add last (length key) (key ++ rest) init = hash_ref key init.
Proof using Hadd Hlast.
  intros Hall Hinit. unfold hash_ref, hash_with. rewrite hash_blocks_ref.
  pose proof (hash_blocks_end add_ref (length key) (length key) key (init, init, init)) as He.
  destruct (hash_blocks add_ref _ _ _ _) as [[m k] s].
  destruct He as (H12 & Hm & Hs & _ & j & -> & Hj); [done..|intros; apply add_ref_u32|].
  assert (Hlen : m = length (drop j key)) by (rewrite length_drop; lia).
  rewrite Hlast; [|rewrite <- drop_app_le by lia; by apply Forall_drop
                  |rewrite length_app; lia|done|done].
  unfold last_ref. case_decide; [|done]. by rewrite take_app_l by lia.
Qed.
End variant.

Lemma hashlittle_ref addr key rest initval :
  all_bytes (key ++ rest) →
  (4 * ((length key + 3) `div` 4) ≤ length (key ++ rest))%nat →
  hashlittle addr (key ++ rest) (length key) initval =
  Ok (hash_ref key (u32 (0xdeadbeef + zlen key + initval))).
Proof.
  intros Hall Hmem. unfold hashlittle. cbv zeta.
  rewrite (u32_add_r _ (Z.of_nat _)), u32_add_l. fold (zlen key).
  rewrite (decide_True (P := (4 * _ ≤ _)%nat)) by done.
  rewrite (decide_True (P := (length key ≤ _)%nat)) by (rewrite length_app; lia).
  repeat case_match; f_equal; apply hash_with_ref;
    auto using u32_is_u32, add32_ref, add16_ref, add8_ref, last32_ref, last16_ref, last8_ref.
Qed.

Lemma hash_ref_u32 key init : is_u32 init → is_u32 (hash_ref key init).
Proof.
  intros Hi. unfold hash_ref, hash_with.
  pose proof (hash_blocks_end add_ref (length key) (length key) key (init, init, init)) as He.
  destruct (hash_blocks add_ref _ _ _ _) as [[m k] [[a b] c]].
  destruct He as (_ & _ & (_ & _ & Hc) & _); [done..|intros; apply add_ref_u32|].
  destruct (last_ref _ _ _) as [[[x y] z]|]; [apply u32_is_u32|done].
Qed.

(** C32: [hashlittle] computes the same 32-bit value whether the key is read as
    32-bit words, as 16-bit words or byte by byte, wherever it was allocated and
    whatever follows it in memory; only the word that holds the last byte has to be
    readable. *)
Theorem hashlittle_placement (addr addr' : Z) (key rest rest' : bytes) (initval : Z) :
  all_bytes (key ++ rest) → all_bytes (key ++ rest') →
  (4 * ((length key + 3) `div` 4) ≤ length (key ++ rest))%nat →
  (4 * ((length key + 3) `div` 4) ≤ length (key ++ rest'))%nat →
  ∃ h, 0 ≤ h < 2^32 ∧
    hashlittle addr (key ++ rest) (length key) initval = Ok h ∧
    hashlittle addr' (key ++ rest') (length key) initval = Ok h.
Proof.
  intros. eexists. rewrite !hashlittle_ref by done.
  split; [|done]. apply hash_ref_u32, u32_is_u32.
Qed.

Lemma hashlittle_placement_witness :
  ∃ h, 0 ≤ h < 2^32 ∧
    hashlittle 0x1000 (of_string "intercept-7" ++ [0]) 11 1572869 = Ok h ∧
    hashlittle 0x2003 (of_string "intercept-7" ++ [0; 65]) 11 1572869 = Ok h.
Proof.
  apply (hashlittle_placement 0x1000 0x2003 (of_string "intercept-7") [0] [0; 65] 1572869).
  - apply (bool_decide_unpack (Forall is_byte _)). by vm_compute.
  - apply (bool_decide_unpack (Forall is_byte _)). by vm_compute.
  - apply Nat.leb_le. by vm_compute.
  - apply Nat.leb_le. by vm_compute.
Defined.

(** Two copies of an LIID get the same sequence tracker. *)
Lemma hash_liid_placement addr addr' liid pad pad' :
  cstr_ok liid → all_bytes pad → all_bytes pad' → (3 ≤ length pad)%nat → (3 ≤ length pad')%nat →
  hash_liid addr (liid ++ 0 :: pad) = hash_liid addr' (liid ++ 0 :: pad').
Proof.
  intros Hl Hp Hp' H3 H3'. unfold hash_liid.
  assert (Hu : ∀ p, until_nul (liid ++ 0 :: p) = liid).
  { intros p. induction Hl as [|b l Hb _ IH]; [done|]. cbn [app until_nul].
    rewrite decide_False by lia. by rewrite IH. }
  assert (Hb : ∀ p, all_bytes p → all_bytes (liid ++ 0 :: p)).
  { intros p Hp0. apply Forall_app. split; [|by constructor].
    eapply Forall_impl; [exact Hl|]. intros ? []. split; lia. }
  pose proof (Nat.Div0.mul_div_le (length liid + 3) 4).
  rewrite !Hu, !hashlittle_ref; [done|auto|rewrite length_app; cbn [length]; lia
                                |auto|rewrite length_app; cbn [length]; lia].
Qed.
