(* ===== verification/AccessSession.v ===== *)
(** * Internet access sessions (src/src/collector/internetaccess.h, internetaccess.c)

    The session of a user, as the access protocols (RADIUS, GTP) create and change
    it: its state, and the table of IP addresses that were assigned to it, a block
    that grows five entries at a time and counts its entries in a byte. *)

From S2P Require Import Prelude.

Definition AF_INET : Z := 2.
Definition AF_INET6 : Z := 10.
Definition SESSION_IP_INCR : Z := 5.

Inductive session_state_t : Type :=
  | SESSION_STATE_NEW | SESSION_STATE_AUTHING | SESSION_STATE_ACTIVE
  | SESSION_STATE_ACTIVE_NO_IP | SESSION_STATE_RENEW | SESSION_STATE_ENDING
  | SESSION_STATE_OVER.

Inductive access_action_t : Type :=
  | ACCESS_ACTION_ATTEMPT | ACCESS_ACTION_FAILED | ACCESS_ACTION_ACCEPT
  | ACCESS_ACTION_REJECT | ACCESS_ACTION_ALREADY_ACTIVE | ACCESS_ACTION_INTERIM_UPDATE
  | ACCESS_ACTION_MODIFIED | ACCESS_ACTION_END | ACCESS_ACTION_END_SUDDEN
  | ACCESS_ACTION_RETRY | ACCESS_ACTION_NONE.

Inductive user_identity_method_t : Type :=
  | USER_IDENT_RADIUS_USERNAME | USER_IDENT_RADIUS_CSID | USER_IDENT_GTP_MSISDN
  | USER_IDENT_GTP_IMSI.
Definition USER_IDENT_MAX : Z := 4.

Inductive session_ipversion_t : Type :=
  | SESSION_IP_VERSION_NONE | SESSION_IP_VERSION_V4 | SESSION_IP_VERSION_V6
  | SESSION_IP_VERSION_DUAL.

#[global] Instance session_state_eq_dec : EqDecision session_state_t.
Proof. solve_decision. Defined.
#[global] Instance access_action_eq_dec : EqDecision access_action_t.
Proof. solve_decision. Defined.
#[global] Instance user_identity_method_eq_dec : EqDecision user_identity_method_t.
Proof. solve_decision. Defined.
#[global] Instance session_ipversion_eq_dec : EqDecision session_ipversion_t.
Proof. solve_decision. Defined.

(** Of [assignedip] the bytes of the address are kept: four or sixteen. *)
Record internetaccess_ip_t : Type := Mkinternetaccess_ip_t {
  ip_family : Z;
  ip_addr : bytes;
  ip_prefixbits : Z;
}.
#[global] Instance internetaccess_ip_eq_dec : EqDecision internetaccess_ip_t.
Proof. solve_decision. Defined.

(** An entry that was allocated and not written. *)
Definition blank_ip : internetaccess_ip_t := Mkinternetaccess_ip_t 0 [] 0.

(** [as_sessionips] is the whole block; [as_sessipcount] of its entries are in use.
    [as_statedata] is the address of the plugin's own record; the start time is in
    microseconds. *)
Record access_session_t : Type := Mkaccess_session_t {
  as_sessionips : list internetaccess_ip_t;
  as_sessipcount : Z;
  as_sessipversion : session_ipversion_t;
  as_sessionid : bytes;
  as_statedata : option Z;
  as_idlength : Z;
  as_cin : Z;
  as_iriseqno : Z;
  as_started : Z;
}.

Record user_identity_t : Type := Mkuser_identity_t {
  ui_method : user_identity_method_t;
  ui_idstr : bytes;
  ui_idlength : Z;
  ui_plugindata : Z;
}.

Definition set_as_ips (ips : list internetaccess_ip_t) (s : access_session_t) : access_session_t :=
  Mkaccess_session_t ips s.(as_sessipcount) s.(as_sessipversion) s.(as_sessionid)
    s.(as_statedata) s.(as_idlength) s.(as_cin) s.(as_iriseqno) s.(as_started).
Definition set_as_statedata (p : option Z) (s : access_session_t) : access_session_t :=
  Mkaccess_session_t s.(as_sessionips) s.(as_sessipcount) s.(as_sessipversion) s.(as_sessionid)
    p s.(as_idlength) s.(as_cin) s.(as_iriseqno) s.(as_started).
Definition set_as_cin (cin : Z) (s : access_session_t) : access_session_t :=
  Mkaccess_session_t s.(as_sessionips) s.(as_sessipcount) s.(as_sessipversion) s.(as_sessionid)
    s.(as_statedata) s.(as_idlength) cin s.(as_iriseqno) s.(as_started).
Definition set_as_started (t : Z) (s : access_session_t) : access_session_t :=
  Mkaccess_session_t s.(as_sessionips) s.(as_sessipcount) s.(as_sessipversion) s.(as_sessionid)
    s.(as_statedata) s.(as_idlength) s.(as_cin) s.(as_iriseqno) t.

(** [create_access_session]: [sessid] is the memory at the pointer; the identifier
    and the byte after it are copied. *)
Definition create_access_session (sessid : bytes) (sessid_len : Z) : outcome access_session_t :=
  copy ← read_bytes (sessid_len + 1) sessid;
  Ok {| as_sessionips := replicate (Z.to_nat SESSION_IP_INCR) blank_ip; as_sessipcount := 0;
        as_sessipversion := SESSION_IP_VERSION_NONE; as_sessionid := copy;
        as_statedata := None; as_idlength := sessid_len; as_cin := 0; as_iriseqno := 0;
        as_started := 0 |}.

(** The version after one more address of a family. *)
Definition add_version (family : Z) (v : session_ipversion_t) : session_ipversion_t :=
  if family =? AF_INET then
    match v with
    | SESSION_IP_VERSION_NONE => SESSION_IP_VERSION_V4
    | SESSION_IP_VERSION_V6 => SESSION_IP_VERSION_DUAL
    | v => v
    end
  else
    match v with
    | SESSION_IP_VERSION_NONE => SESSION_IP_VERSION_V6
    | SESSION_IP_VERSION_V4 => SESSION_IP_VERSION_DUAL
    | v => v
    end.

(** The [realloc] at the start of [add_new_session_ip]. *)
Definition grow_sessionips (s : access_session_t) : access_session_t :=
  if (0 <? s.(as_sessipcount)) && (s.(as_sessipcount) mod SESSION_IP_INCR =? 0)
  then set_as_ips (resize (Z.to_nat (s.(as_sessipcount) + SESSION_IP_INCR)) blank_ip
                     s.(as_sessionips)) s
  else s.

(** Writing entry [sessipcount] and counting it. *)
Definition store_session_ip (ip : internetaccess_ip_t) (s : access_session_t)
    : outcome access_session_t :=
  if decide (s.(as_sessipcount) < zlen s.(as_sessionips)) then
    Ok {| as_sessionips := <[Z.to_nat s.(as_sessipcount) := ip]> s.(as_sessionips);
          as_sessipcount := u8 (s.(as_sessipcount) + 1);
          as_sessipversion := add_version ip.(ip_family) s.(as_sessipversion);
          as_sessionid := s.(as_sessionid); as_statedata := s.(as_statedata);
          as_idlength := s.(as_idlength); as_cin := s.(as_cin); as_iriseqno := s.(as_iriseqno);
          as_started := s.(as_started) |}
  else Undef.

(** [add_new_session_ip]; [att_val] is the memory at the pointer.  The length given
    to [memcpy] is converted to [size_t]: a negative one reads everything. *)
Definition add_new_session_ip (att_val : bytes) (family pfxbits att_len : Z)
    (s : access_session_t) : outcome access_session_t :=
  let s := grow_sessionips s in
  if family =? AF_INET then
    if att_len =? 4 then
      addr ← read_bytes 4 att_val;
      store_session_ip (Mkinternetaccess_ip_t family addr pfxbits) s
    else Ok s
  else if family =? AF_INET6 then
    let tocopy := if att_len <? 16 then att_len else 16 in
    if tocopy <? 0 then Undef
    else
      addr ← read_bytes tocopy att_val;
      store_session_ip (Mkinternetaccess_ip_t family (addr ++ replicate (Z.to_nat (16 - tocopy)) 0)
                          pfxbits) s
  else Ok s.

(** Does an entry hold the address? *)
Definition same_session_ip (sessip ip : internetaccess_ip_t) : bool :=
  (ip.(ip_family) =? sessip.(ip_family)) && (ip.(ip_prefixbits) =? sessip.(ip_prefixbits)) &&
  (((sessip.(ip_family) =? AF_INET) || (sessip.(ip_family) =? AF_INET6)) &&
   bool_decide (ip.(ip_addr) = sessip.(ip_addr))).

(** The loop of [remove_session_ip] over the entries in use: the entries after it,
    and how many of them are null. *)
Fixpoint clear_session_ips (sessip : internetaccess_ip_t) (l : list internetaccess_ip_t)
    : list internetaccess_ip_t * Z :=
  match l with
  | [] => ([], 0)
  | ip :: l =>
      let '(l, nullips) := clear_session_ips sessip l in
      if ip.(ip_family) =? 0 then (ip :: l, nullips + 1)
      else if same_session_ip sessip ip
      then (Mkinternetaccess_ip_t 0 ip.(ip_addr) ip.(ip_prefixbits) :: l, nullips + 1)
      else (ip :: l, nullips)
  end.

(** [remove_session_ip] *)
Definition remove_session_ip (sessip : internetaccess_ip_t) (s : access_session_t)
    : outcome (Z * access_session_t) :=
  if decide (s.(as_sessipcount) ≤ zlen s.(as_sessionips)) then
    let '(l, nullips) := clear_session_ips sessip (ztake s.(as_sessipcount) s.(as_sessionips)) in
    Ok (if nullips =? s.(as_sessipcount) then 1 else 0,
        set_as_ips (l ++ zdrop s.(as_sessipcount) s.(as_sessionips)) s)
  else Undef.

(** The addresses a session has now. *)
Definition session_ips (s : access_session_t) : list internetaccess_ip_t :=
  ztake s.(as_sessipcount) s.(as_sessionips).
Definition live_ips (s : access_session_t) : list internetaccess_ip_t :=
  filter (λ ip, ip.(ip_family) ≠ 0) (session_ips s).

(** ** The invariant of the table

    The block is a positive multiple of five entries and holds every address that
    is counted. *)
Definition session_ok (s : access_session_t) : Prop :=
  0 ≤ s.(as_sessipcount) < 256 ∧ s.(as_sessipcount) ≤ zlen s.(as_sessionips) ∧
  zlen s.(as_sessionips) mod SESSION_IP_INCR = 0 ∧ 0 < zlen s.(as_sessionips).

Lemma zlen_resize {A} n (x : A) l : 0 ≤ n → zlen (resize (Z.to_nat n) x l) = n.
Proof. intros. unfold zlen. rewrite length_resize. lia. Qed.
Lemma zlen_replicate {A} n (x : A) : 0 ≤ n → zlen (replicate (Z.to_nat n) x) = n.
Proof. intros. unfold zlen. rewrite length_replicate. lia. Qed.
Lemma zlen_insert {A} i (x : A) l : zlen (<[i := x]> l) = zlen l.
Proof. unfold zlen. by rewrite length_insert. Qed.
#[export] Hint Rewrite @zlen_insert : zlen.

(** After the [realloc] there is room for one more. *)
Lemma grow_sessionips_ok s :
  session_ok s →
  session_ok (grow_sessionips s) ∧ (grow_sessionips s).(as_sessipcount) = s.(as_sessipcount) ∧
  s.(as_sessipcount) < zlen (grow_sessionips s).(as_sessionips) ∧
  session_ips (grow_sessionips s) = session_ips s ∧
  (grow_sessionips s).(as_sessipversion) = s.(as_sessipversion).
Proof.
  intros (Hc & Hz & Hm & Hp). unfold grow_sessionips, SESSION_IP_INCR in *.
  destruct (_ && _) eqn:E.
  - apply andb_prop in E as [E1%Z.ltb_lt E2%Z.eqb_eq]. unfold session_ips, session_ok.
    cbn [set_as_ips as_sessipcount as_sessionips as_sessipversion].
    rewrite zlen_resize by lia. unfold SESSION_IP_INCR.
    assert (Hmod : (s.(as_sessipcount) + 5) mod 5 = 0).
    { rewrite <- Zplus_mod_idemp_l, E2. done. }
    split_and!; [lia..|done|lia|done|lia| |done].
    unfold ztake, zlen in *. rewrite take_resize_le by lia. by rewrite resize_le by lia.
  - do 2 (split; [done|]). split; [|done].
    apply andb_false_iff in E as [E%Z.ltb_ge|E%Z.eqb_neq]; [lia|].
    destruct (decide (s.(as_sessipcount) = zlen s.(as_sessionips))); [congruence|lia].
Qed.

Lemma store_session_ip_ok ip s :
  session_ok s → s.(as_sessipcount) < zlen s.(as_sessionips) →
  ∃ s', store_session_ip ip s = Ok s' ∧ session_ok s' ∧
    s'.(as_sessipcount) = u8 (s.(as_sessipcount) + 1) ∧
    (s.(as_sessipcount) < 255 → session_ips s' = session_ips s ++ [ip]) ∧
    s'.(as_sessipversion) = add_version ip.(ip_family) s.(as_sessipversion).
Proof.
  intros (Hc & Hz & Hm & Hp) Hlt. unfold store_session_ip. rewrite decide_True by done.
  eexists. split; [done|]. unfold session_ok, session_ips.
  cbn [as_sessipcount as_sessionips as_sessipversion]. rewrite zlen_insert.
  assert (Hu : u8 (s.(as_sessipcount) + 1) = s.(as_sessipcount) + 1 ∨
               s.(as_sessipcount) = 255 ∧ u8 (s.(as_sessipcount) + 1) = 0).
  { unfold u8. destruct (decide (s.(as_sessipcount) = 255)) as [->|]; [by right|left].
    apply Z.mod_small. lia. }
  split_and!; [unfold u8; apply Z.mod_pos_bound; lia|unfold u8; apply Z.mod_pos_bound; lia
              |destruct Hu as [->|[E ->]]; lia|done|done|done| |done].
  intros. destruct Hu as [->|[]]; [|lia]. unfold ztake, zlen in *.
  rewrite Z2Nat.inj_add by lia. rewrite Nat.add_1_r.
  rewrite (take_S_r _ _ ip) by (apply list_lookup_insert_eq; lia).
  by rewrite take_insert_ge by lia.
Qed.

(** The address an attribute stands for, if it is accepted. *)
Definition attr_ip (att_val : bytes) (family pfxbits att_len : Z) : option internetaccess_ip_t :=
  if family =? AF_INET then
    if att_len =? 4 then Some (Mkinternetaccess_ip_t family (ztake 4 att_val) pfxbits) else None
  else if family =? AF_INET6 then
    Some (Mkinternetaccess_ip_t family
            (ztake (att_len `min` 16) att_val ++
             replicate (Z.to_nat (16 - att_len `min` 16)) 0) pfxbits)
  else None.

Lemma add_new_session_ip_cases att_val family pfxbits att_len s :
  0 ≤ att_len ≤ zlen att_val →
  add_new_session_ip att_val family pfxbits att_len s =
  match attr_ip att_val family pfxbits att_len with
  | Some ip => store_session_ip ip (grow_sessionips s)
  | None => Ok (grow_sessionips s)
  end.
Proof.
  intros Hl. unfold add_new_session_ip, attr_ip. cbv zeta.
  destruct (family =? AF_INET).
  { destruct (Z.eqb_spec att_len 4) as [->|]; [|done].
    rewrite read_bytes_Ok by lia. done. }
  destruct (family =? AF_INET6); [|done].
  destruct (Z.ltb_spec att_len 16) as [H16|H16].
  - rewrite (proj2 (Z.ltb_ge _ _)), read_bytes_Ok, Z.min_l by lia. done.
  - rewrite read_bytes_Ok, Z.min_r by lia. done.
Qed.

(** C33: an attribute that lies in its buffer never makes [add_new_session_ip] leave
    the table, however many addresses were added before: the invariant of the table
    is kept.  What is accepted is appended to the addresses of the session, unless
    the counter is about to wrap, and the version field follows. *)
Theorem add_new_session_ip_safe (att_val : bytes) (family pfxbits att_len : Z)
    (s : access_session_t) :
  session_ok s → 0 ≤ att_len ≤ zlen att_val →
  ∃ s', add_new_session_ip att_val family pfxbits att_len s = Ok s' ∧ session_ok s' ∧
    match attr_ip att_val family pfxbits att_len with
    | Some ip => (s.(as_sessipcount) < 255 → session_ips s' = session_ips s ++ [ip]) ∧
                 s'.(as_sessipcount) = u8 (s.(as_sessipcount) + 1) ∧
                 s'.(as_sessipversion) = add_version family s.(as_sessipversion)
    | None => session_ips s' = session_ips s ∧ s'.(as_sessipcount) = s.(as_sessipcount)
    end.
Proof.
  intros Hs Hl. rewrite add_new_session_ip_cases by done.
  destruct (grow_sessionips_ok s Hs) as (Hg & Hc & Hr & Hi & Hv).
  destruct (attr_ip att_val family pfxbits att_len) as [ip|] eqn:E; [|by eauto].
  assert (Hf : ip.(ip_family) = family).
  { unfold attr_ip in E. repeat case_match; by simplify_eq. }
  destruct (store_session_ip_ok ip (grow_sessionips s)) as (s' & H1 & H2 & H3 & H4 & H5);
    [done|by rewrite Hc|].
  rewrite Hc, Hi in *. exists s'. split; [done|]. split; [done|].
  by rewrite H5, Hv, Hf.
Qed.

Definition sample_session : access_session_t :=
  {| as_sessionips := replicate 5 blank_ip; as_sessipcount := 0;
     as_sessipversion := SESSION_IP_VERSION_NONE; as_sessionid := [];
     as_statedata := None; as_idlength := 0; as_cin := 0; as_iriseqno := 0; as_started := 0 |}.

Lemma add_new_session_ip_safe_witness :
  ∃ s', add_new_session_ip [10; 0; 0; 1] AF_INET 32 4 sample_session = Ok s' ∧ session_ok s' ∧
    (0 < 255 → session_ips s' = [Mkinternetaccess_ip_t 2 [10; 0; 0; 1] 32]) ∧
    s'.(as_sessipcount) = u8 1 ∧ s'.(as_sessipversion) = SESSION_IP_VERSION_V4.
Proof.
  apply (add_new_session_ip_safe [10; 0; 0; 1] AF_INET 32 4 sample_session).
  - split_and!; by vm_compute.
  - by vm_compute.
Defined.

(** A prefix attribute that is too short gives a negative length, and [memcpy] is
    called with it as a [size_t]. *)
Lemma add_new_session_ip_negative att_val pfxbits att_len s :
  att_len < 0 → add_new_session_ip att_val AF_INET6 pfxbits att_len s = Undef.
Proof.
  intros. unfold add_new_session_ip. cbv zeta.
  change (AF_INET6 =? AF_INET) with false. change (AF_INET6 =? AF_INET6) with true. cbv iota.
  rewrite (proj2 (Z.ltb_lt att_len 16)) by lia. by rewrite (proj2 (Z.ltb_lt att_len 0)) by lia.
Qed.

(** Adding one IPv4 address [n] times. *)
Fixpoint add_ipv4_times (n : nat) (addr : bytes) (s : access_session_t)
    : outcome access_session_t :=
  match n with
  | O => Ok s
  | S n => s ← add_new_session_ip addr AF_INET 32 4 s; add_ipv4_times n addr s
  end.

(** After 256 addresses the counter, a [uint8_t], is zero again. *)
Lemma sessipcount_wraps :
  as_sessipcount <$> add_ipv4_times 256 [10; 0; 0; 1] sample_session = Ok 0.
Proof. by vm_compute. Qed.

(** ** Removing an address *)

(** What the loop does with one entry. *)
Definition clear_ip (sessip ip : internetaccess_ip_t) : internetaccess_ip_t :=
  if negb (ip.(ip_family) =? 0) && same_session_ip sessip ip
  then Mkinternetaccess_ip_t 0 ip.(ip_addr) ip.(ip_prefixbits) else ip.

Lemma clear_ip_unfold sessip ip :
  clear_ip sessip ip =
  if negb (ip.(ip_family) =? 0) && same_session_ip sessip ip
  then Mkinternetaccess_ip_t 0 ip.(ip_addr) ip.(ip_prefixbits) else ip.
Proof. done. Qed.

Lemma same_session_ip_eq sessip ip :
  sessip.(ip_family) = AF_INET ∨ sessip.(ip_family) = AF_INET6 →
  same_session_ip sessip ip = true ↔ ip = sessip.
Proof.
  intros Hf. unfold same_session_ip.
  rewrite !andb_true_iff, orb_true_iff, !Z.eqb_eq, bool_decide_eq_true.
  split; [|by intros ->]. destruct ip, sessip; simpl. intros ([-> ->] & _ & ->). done.
Qed.

Section clear.
Context (sessip : internetaccess_ip_t).
Context (Hf : sessip.(ip_family) = AF_INET ∨ sessip.(ip_family) = AF_INET6).

Lemma sessip_live : sessip.(ip_family) ≠ 0.
Proof using Hf. by destruct Hf as [-> | ->]. Qed.

Lemma clear_session_ips_spec l :
  clear_session_ips sessip l =
  (clear_ip sessip <$> l, zlen (filter (λ ip, ip.(ip_family) = 0 ∨ ip = sessip) l)).
Proof using Hf.
  induction l as [|ip l IH]; [done|]. cbn [clear_session_ips]. rewrite IH.
  rewrite fmap_cons, filter_cons. rewrite clear_ip_unfold.
  pose proof (same_session_ip_eq sessip ip Hf) as He.
  destruct (Z.eqb_spec ip.(ip_family) 0) as [E|E]; cbn [negb andb].
  - rewrite decide_True by auto. rewrite zlen_cons. f_equal. lia.
  - destruct (same_session_ip sessip ip).
    + rewrite decide_True by (right; by apply (proj1 He)). rewrite zlen_cons. f_equal. lia.
    + rewrite decide_False; [done|]. intros [?|?%He]; done.
Qed.

Lemma live_clear (l : list internetaccess_ip_t) :
  filter (λ ip, ip.(ip_family) ≠ 0) (clear_ip sessip <$> l) =
  filter (λ ip, ip ≠ sessip) (filter (λ ip, ip.(ip_family) ≠ 0) l).
Proof using Hf.
  induction l as [|ip l IH]; [done|]. rewrite fmap_cons, !filter_cons. rewrite clear_ip_unfold.
  pose proof (same_session_ip_eq sessip ip Hf) as He.
  destruct (Z.eqb_spec ip.(ip_family) 0) as [E|E]; cbn [negb andb].
  { by rewrite !(decide_False (P := ip.(ip_family) ≠ 0)) by auto. }
  rewrite (decide_True (P := ip.(ip_family) ≠ 0)) by done. rewrite filter_cons.
  destruct (same_session_ip sessip ip).
  - rewrite decide_False by (simpl; auto). by rewrite decide_False by (intros []; by apply (proj1 He)).
  - rewrite decide_True by done. rewrite decide_True by (intros ?%He; done). by rewrite IH.
Qed.

Lemma all_null (l : list internetaccess_ip_t) :
  zlen (filter (λ ip, ip.(ip_family) = 0 ∨ ip = sessip) l) = zlen l ↔
  filter (λ ip, ip ≠ sessip) (filter (λ ip, ip.(ip_family) ≠ 0) l) = [].
Proof using.
  assert (Hle : ∀ l, zlen (filter (λ ip, ip.(ip_family) = 0 ∨ ip = sessip) l) ≤ zlen l).
  { intros k. unfold zlen. pose proof (length_filter (λ ip, ip.(ip_family) = 0 ∨ ip = sessip) k).
    lia. }
  induction l as [|ip l IH]; [done|]. rewrite !filter_cons, zlen_cons. specialize (Hle l).
  destruct (decide (ip.(ip_family) = 0 ∨ ip = sessip)) as [Hd|Hd].
  - rewrite zlen_cons. case_decide as Hn; [|rewrite <- IH; lia].
    rewrite filter_cons, decide_False by (destruct Hd as [Hd|Hd]; [done|auto]).
    rewrite <- IH. lia.
  - rewrite (decide_True (P := ip.(ip_family) ≠ 0)) by auto.
    rewrite filter_cons, decide_True by auto. split; [lia|done].
Qed.
End clear.

(** [remove_session_ip] takes away every entry for the address and no other, and
    answers 1 exactly when the session is left without any address; it cannot leave
    the table. *)
Theorem remove_session_ip_correct (sessip : internetaccess_ip_t) (s : access_session_t) :
  session_ok s → sessip.(ip_family) = AF_INET ∨ sessip.(ip_family) = AF_INET6 →
  ∃ r s', remove_session_ip sessip s = Ok (r, s') ∧ session_ok s' ∧
    live_ips s' = filter (λ ip, ip ≠ sessip) (live_ips s) ∧
    (r = 1 ↔ live_ips s' = []).
Proof.
  intros (Hc & Hz & Hm & Hp) Hf. unfold remove_session_ip.
  rewrite decide_True by done. rewrite clear_session_ips_spec by done.
  set (l := ztake _ _).
  assert (Hl : zlen l = s.(as_sessipcount)) by (apply zlen_ztake; lia).
  eexists _, _. split; [done|].
  assert (Hlive : live_ips (set_as_ips ((clear_ip sessip <$> l) ++ zdrop s.(as_sessipcount)
                     s.(as_sessionips)) s) = filter (λ ip, ip ≠ sessip) (live_ips s)).
  { unfold live_ips, session_ips. cbn [set_as_ips as_sessipcount as_sessionips].
    rewrite ztake_app by (by rewrite zlen_map). by apply live_clear. }
  split_and!; [|exact Hlive|].
  - unfold session_ok. cbn [set_as_ips as_sessipcount as_sessionips].
    rewrite zlen_app, zlen_map, Hl, zlen_zdrop by lia. rewrite Zplus_minus. auto.
  - rewrite Hlive. unfold live_ips, session_ips. fold l. rewrite <- all_null, Hl.
    destruct (Z.eqb_spec (zlen (filter (λ ip, ip.(ip_family) = 0 ∨ ip = sessip) l))
                s.(as_sessipcount)); [done|split; [done|by intros ?%n]].
Qed.

Definition sample_ip : internetaccess_ip_t := Mkinternetaccess_ip_t 2 [10; 0; 0; 1] 32.

Lemma remove_session_ip_correct_witness :
  let s := Mkaccess_session_t [sample_ip; Mkinternetaccess_ip_t 2 [10; 0; 0; 2] 32; sample_ip;
             blank_ip; blank_ip] 3 SESSION_IP_VERSION_V4 [] None 0 0 0 0 in
  ∃ r s', remove_session_ip sample_ip s = Ok (r, s') ∧ session_ok s' ∧
    live_ips s' = [Mkinternetaccess_ip_t 2 [10; 0; 0; 2] 32] ∧ (r = 1 ↔ live_ips s' = []).
Proof.
  intros s. apply (remove_session_ip_correct sample_ip s).
  - split_and!; by vm_compute.
  - by left.
Defined.
