(* ===== verification/Radius.v ===== *)
(** * The RADIUS plugin: packets, users and requests
      (src/src/collector/accessplugins/radius.c)

    The plugin follows the exchanges between network access servers and a RADIUS
    server.  A packet is parsed into attributes ([radius_parse_packet]); a request
    names users ([process_username_attribute]) and is saved until its response
    arrives, a response is matched with its request ([find_matching_request]) or kept
    as an orphan ([create_orphan]) until the request shows up ([search_orphans]).

    Users, their sessions, saved requests and NAS records point at each other, so
    they have addresses: [rg_users], [rg_sessions], [rg_reqs] and [rg_nases] are the
    live objects, and following an address that is not there is [Undef].  Attributes
    are list nodes that move between the packet, a saved request, an orphan and the
    free list; each keeps its address and its buffer, [att_val], of which the first
    [att_len] bytes belong to the attribute.  NULL is the empty list for them.

    Times are whole microseconds (the code has seconds in a [double]).  What libtrace
    answers about a packet is the record [radius_packet].  Nothing calls
    [radius_uncouple_parsed_data] or [process_nasport_attribute], and they are left
    out: the packet is always the one the plugin owns. *)

From stdpp Require Import gmap.
From S2P Require Import Prelude ByteOrder Publish AccessSession.

Definition ORPHAN_EXPIRY : Z := 1000000.
Definition STANDARD_ATTR_ALLOC : Z := 64.
Definition PREALLOC_ATTRS : Z := 50000.

Definition RADIUS_CODE_ACCESS_REQUEST : Z := 1.
Definition RADIUS_CODE_ACCESS_ACCEPT : Z := 2.
Definition RADIUS_CODE_ACCESS_REJECT : Z := 3.
Definition RADIUS_CODE_ACCOUNT_REQUEST : Z := 4.
Definition RADIUS_CODE_ACCOUNT_RESPONSE : Z := 5.
Definition RADIUS_CODE_ACCESS_CHALLENGE : Z := 11.

Definition RADIUS_ATTR_USERNAME : Z := 1.
Definition RADIUS_ATTR_NASIP : Z := 4.
Definition RADIUS_ATTR_NASPORT : Z := 5.
Definition RADIUS_ATTR_FRAMED_IP_ADDRESS : Z := 8.
Definition RADIUS_ATTR_CALLED_STATION_ID : Z := 30.
Definition RADIUS_ATTR_CALLING_STATION_ID : Z := 31.
Definition RADIUS_ATTR_NASIDENTIFIER : Z := 32.
Definition RADIUS_ATTR_ACCT_STATUS_TYPE : Z := 40.
Definition RADIUS_ATTR_ACCT_INOCTETS : Z := 42.
Definition RADIUS_ATTR_ACCT_OUTOCTETS : Z := 43.
Definition RADIUS_ATTR_ACCT_SESSION_ID : Z := 44.
Definition RADIUS_ATTR_ACCT_TERMINATE_CAUSE : Z := 49.
Definition RADIUS_ATTR_FRAMED_IPV6_PREFIX : Z := 97.
Definition RADIUS_ATTR_DELEGATED_IPV6_PREFIX : Z := 123.
Definition RADIUS_ATTR_FRAMED_IPV6_ADDRESS : Z := 168.

Definition RADIUS_ACCT_START : Z := 1.
Definition RADIUS_ACCT_STOP : Z := 2.
Definition RADIUS_ACCT_INTERIM_UPDATE : Z := 3.

(** ** The state of the plugin *)

Record radius_attribute_t : Type := Mkradius_attribute_t {
  att_addr : Z;
  att_type : Z;
  att_len : Z;
  att_val : bytes;
}.

Record radius_user_session_t : Type := Mkradius_user_session_t {
  us_session_id : Z;
  us_current : session_state_t;
  us_nas_port : Z;
  us_octets_received : Z;
  us_octets_sent : Z;
  us_nasidentifier : cstring;
  us_nas_ip : option bytes;
  us_nas_ip_family : Z;
  us_parent : option Z;
}.

Record radius_user_t : Type := Mkradius_user_t {
  ru_idmethod : user_identity_method_t;
  ru_userid : bytes;
  ru_nasidentifier : cstring;
  ru_nasid_len : Z;
  ru_sessions : gmap Z Z;
  ru_savedrequests : gmap Z Z;
  ru_parent_nas : Z;
}.

Record radius_saved_req_t : Type := Mkradius_saved_req_t {
  rq_reqid : Z;
  rq_statustype : Z;
  rq_acctsess : Z;
  rq_tvsec : Z;
  rq_attrs : list radius_attribute_t;
  rq_targetusers : list (option Z);
  rq_targetuser_count : Z;
  rq_active_targets : Z;
}.

Record radius_orphaned_resp_t : Type := Mkradius_orphaned_resp_t {
  or_addr : Z;
  or_resptype : Z;
  or_key : Z;
  or_tvsec : Z;
  or_savedattrs : list radius_attribute_t;
}.

(** [nas_orphans] is what is reached from the head; [nas_orphans_tail] is the
    address in the other pointer. *)
Record radius_nas_t : Type := Mkradius_nas_t {
  nas_ip : bytes;
  nas_user_map : gmap bytes Z;
  nas_request_map : gmap Z Z;
  nas_orphans : list radius_orphaned_resp_t;
  nas_orphans_tail : option Z;
}.

Record radius_server_t : Type := Mkradius_server_t {
  srv_ip : bytes;
  srv_nas_map : gmap bytes Z;
}.

(** A socket address: its family, 0 when it was not set, and its address. *)
Record sockaddr_t : Type := Mksockaddr_t {
  sa_family : Z;
  sa_addr : bytes;
}.

Record radius_parsed_t : Type := Mkradius_parsed_t {
  rd_tvsec : Z;
  rd_msgtype : Z;
  rd_msgident : Z;
  rd_authptr : Z * bytes;
  rd_accttype : Z;
  rd_acctsess : Z;
  rd_attrs : list radius_attribute_t;
  rd_nasip : sockaddr_t;
  rd_radiusip : sockaddr_t;
  rd_sourceport : Z;
  rd_muser_count : Z;
  rd_matchedusers : list (option Z);
  rd_matchednas : option Z;
  rd_savedreq : option Z;
  rd_savedresp : option radius_orphaned_resp_t;
  rd_firstaction : access_action_t;
  rd_secondaction : access_action_t;
  rd_firstattrs : list radius_attribute_t;
  rd_secondattrs : list radius_attribute_t;
}.

Record radius_global_t : Type := Mkradius_global_t {
  rg_freeattrs : list radius_attribute_t;
  rg_freeaccreqs : list Z;
  rg_parsedpkt : radius_parsed_t;
  rg_server_map : gmap bytes radius_server_t;
  rg_nases : gmap Z radius_nas_t;
  rg_users : gmap Z radius_user_t;
  rg_sessions : gmap Z radius_user_session_t;
  rg_reqs : gmap Z radius_saved_req_t;
  rg_next : Z;
}.

(** What libtrace knows about a packet: the layer 3 header and what follows it, the
    transport header and what follows it, and the payload of a UDP header, with the
    address it is at. *)
Record radius_packet : Type := Mkradius_packet {
  pk_tvsec : Z;
  pk_layer3 : option (Z * bytes);
  pk_transport : option (Z * bytes);
  pk_udp_payload : option (Z * bytes);
}.

Definition set_rd_accttype (v : Z) (x : radius_parsed_t) : radius_parsed_t :=
  Mkradius_parsed_t x.(rd_tvsec) x.(rd_msgtype) x.(rd_msgident) x.(rd_authptr) v x.(rd_acctsess)
    x.(rd_attrs) x.(rd_nasip) x.(rd_radiusip) x.(rd_sourceport) x.(rd_muser_count)
    x.(rd_matchedusers) x.(rd_matchednas) x.(rd_savedreq) x.(rd_savedresp) x.(rd_firstaction)
    x.(rd_secondaction) x.(rd_firstattrs) x.(rd_secondattrs).
Definition set_rd_acctsess (v : Z) (x : radius_parsed_t) : radius_parsed_t :=
  Mkradius_parsed_t x.(rd_tvsec) x.(rd_msgtype) x.(rd_msgident) x.(rd_authptr) x.(rd_accttype) v
    x.(rd_attrs) x.(rd_nasip) x.(rd_radiusip) x.(rd_sourceport) x.(rd_muser_count)
    x.(rd_matchedusers) x.(rd_matchednas) x.(rd_savedreq) x.(rd_savedresp) x.(rd_firstaction)
    x.(rd_secondaction) x.(rd_firstattrs) x.(rd_secondattrs).
Definition set_rd_attrs (v : list radius_attribute_t) (x : radius_parsed_t) : radius_parsed_t :=
  Mkradius_parsed_t x.(rd_tvsec) x.(rd_msgtype) x.(rd_msgident) x.(rd_authptr) x.(rd_accttype)
    x.(rd_acctsess) v x.(rd_nasip) x.(rd_radiusip) x.(rd_sourceport) x.(rd_muser_count)
    x.(rd_matchedusers) x.(rd_matchednas) x.(rd_savedreq) x.(rd_savedresp) x.(rd_firstaction)
    x.(rd_secondaction) x.(rd_firstattrs) x.(rd_secondattrs).
Definition set_rd_muser_count (v : Z) (x : radius_parsed_t) : radius_parsed_t :=
  Mkradius_parsed_t x.(rd_tvsec) x.(rd_msgtype) x.(rd_msgident) x.(rd_authptr) x.(rd_accttype)
    x.(rd_acctsess) x.(rd_attrs) x.(rd_nasip) x.(rd_radiusip) x.(rd_sourceport) v
    x.(rd_matchedusers) x.(rd_matchednas) x.(rd_savedreq) x.(rd_savedresp) x.(rd_firstaction)
    x.(rd_secondaction) x.(rd_firstattrs) x.(rd_secondattrs).
Definition set_rd_matchednas (v : option Z) (x : radius_parsed_t) : radius_parsed_t :=
  Mkradius_parsed_t x.(rd_tvsec) x.(rd_msgtype) x.(rd_msgident) x.(rd_authptr) x.(rd_accttype)
    x.(rd_acctsess) x.(rd_attrs) x.(rd_nasip) x.(rd_radiusip) x.(rd_sourceport) x.(rd_muser_count)
    x.(rd_matchedusers) v x.(rd_savedreq) x.(rd_savedresp) x.(rd_firstaction) x.(rd_secondaction)
    x.(rd_firstattrs) x.(rd_secondattrs).
Definition set_rd_savedreq (v : option Z) (x : radius_parsed_t) : radius_parsed_t :=
  Mkradius_parsed_t x.(rd_tvsec) x.(rd_msgtype) x.(rd_msgident) x.(rd_authptr) x.(rd_accttype)
    x.(rd_acctsess) x.(rd_attrs) x.(rd_nasip) x.(rd_radiusip) x.(rd_sourceport) x.(rd_muser_count)
    x.(rd_matchedusers) x.(rd_matchednas) v x.(rd_savedresp) x.(rd_firstaction)
    x.(rd_secondaction) x.(rd_firstattrs) x.(rd_secondattrs).
Definition set_rd_savedresp (v : option radius_orphaned_resp_t) (x : radius_parsed_t) : radius_parsed_t :=
  Mkradius_parsed_t x.(rd_tvsec) x.(rd_msgtype) x.(rd_msgident) x.(rd_authptr) x.(rd_accttype)
    x.(rd_acctsess) x.(rd_attrs) x.(rd_nasip) x.(rd_radiusip) x.(rd_sourceport) x.(rd_muser_count)
    x.(rd_matchedusers) x.(rd_matchednas) x.(rd_savedreq) v x.(rd_firstaction) x.(rd_secondaction)
    x.(rd_firstattrs) x.(rd_secondattrs).
Definition set_rd_firstaction (v : access_action_t) (x : radius_parsed_t) : radius_parsed_t :=
  Mkradius_parsed_t x.(rd_tvsec) x.(rd_msgtype) x.(rd_msgident) x.(rd_authptr) x.(rd_accttype)
    x.(rd_acctsess) x.(rd_attrs) x.(rd_nasip) x.(rd_radiusip) x.(rd_sourceport) x.(rd_muser_count)
    x.(rd_matchedusers) x.(rd_matchednas) x.(rd_savedreq) x.(rd_savedresp) v x.(rd_secondaction)
    x.(rd_firstattrs) x.(rd_secondattrs).
Definition set_rd_secondaction (v : access_action_t) (x : radius_parsed_t) : radius_parsed_t :=
  Mkradius_parsed_t x.(rd_tvsec) x.(rd_msgtype) x.(rd_msgident) x.(rd_authptr) x.(rd_accttype)
    x.(rd_acctsess) x.(rd_attrs) x.(rd_nasip) x.(rd_radiusip) x.(rd_sourceport) x.(rd_muser_count)
    x.(rd_matchedusers) x.(rd_matchednas) x.(rd_savedreq) x.(rd_savedresp) x.(rd_firstaction) v
    x.(rd_firstattrs) x.(rd_secondattrs).
Definition set_rd_firstattrs (v : list radius_attribute_t) (x : radius_parsed_t) : radius_parsed_t :=
  Mkradius_parsed_t x.(rd_tvsec) x.(rd_msgtype) x.(rd_msgident) x.(rd_authptr) x.(rd_accttype)
    x.(rd_acctsess) x.(rd_attrs) x.(rd_nasip) x.(rd_radiusip) x.(rd_sourceport) x.(rd_muser_count)
    x.(rd_matchedusers) x.(rd_matchednas) x.(rd_savedreq) x.(rd_savedresp) x.(rd_firstaction)
    x.(rd_secondaction) v x.(rd_secondattrs).
Definition set_rd_secondattrs (v : list radius_attribute_t) (x : radius_parsed_t) : radius_parsed_t :=
  Mkradius_parsed_t x.(rd_tvsec) x.(rd_msgtype) x.(rd_msgident) x.(rd_authptr) x.(rd_accttype)
    x.(rd_acctsess) x.(rd_attrs) x.(rd_nasip) x.(rd_radiusip) x.(rd_sourceport) x.(rd_muser_count)
    x.(rd_matchedusers) x.(rd_matchednas) x.(rd_savedreq) x.(rd_savedresp) x.(rd_firstaction)
    x.(rd_secondaction) x.(rd_firstattrs) v.

Definition set_rg_freeattrs (v : list radius_attribute_t) (x : radius_global_t) : radius_global_t :=
  Mkradius_global_t v x.(rg_freeaccreqs) x.(rg_parsedpkt) x.(rg_server_map) x.(rg_nases)
    x.(rg_users) x.(rg_sessions) x.(rg_reqs) x.(rg_next).
Definition set_rg_freeaccreqs (v : list Z) (x : radius_global_t) : radius_global_t :=
  Mkradius_global_t x.(rg_freeattrs) v x.(rg_parsedpkt) x.(rg_server_map) x.(rg_nases)
    x.(rg_users) x.(rg_sessions) x.(rg_reqs) x.(rg_next).
Definition set_rg_parsedpkt (v : radius_parsed_t) (x : radius_global_t) : radius_global_t :=
  Mkradius_global_t x.(rg_freeattrs) x.(rg_freeaccreqs) v x.(rg_server_map) x.(rg_nases)
    x.(rg_users) x.(rg_sessions) x.(rg_reqs) x.(rg_next).
Definition set_rg_server_map (v : gmap bytes radius_server_t) (x : radius_global_t) : radius_global_t :=
  Mkradius_global_t x.(rg_freeattrs) x.(rg_freeaccreqs) x.(rg_parsedpkt) v x.(rg_nases)
    x.(rg_users) x.(rg_sessions) x.(rg_reqs) x.(rg_next).
Definition set_rg_nases (v : gmap Z radius_nas_t) (x : radius_global_t) : radius_global_t :=
  Mkradius_global_t x.(rg_freeattrs) x.(rg_freeaccreqs) x.(rg_parsedpkt) x.(rg_server_map) v
    x.(rg_users) x.(rg_sessions) x.(rg_reqs) x.(rg_next).
Definition set_rg_users (v : gmap Z radius_user_t) (x : radius_global_t) : radius_global_t :=
  Mkradius_global_t x.(rg_freeattrs) x.(rg_freeaccreqs) x.(rg_parsedpkt) x.(rg_server_map)
    x.(rg_nases) v x.(rg_sessions) x.(rg_reqs) x.(rg_next).
Definition set_rg_sessions (v : gmap Z radius_user_session_t) (x : radius_global_t) : radius_global_t :=
  Mkradius_global_t x.(rg_freeattrs) x.(rg_freeaccreqs) x.(rg_parsedpkt) x.(rg_server_map)
    x.(rg_nases) x.(rg_users) v x.(rg_reqs) x.(rg_next).
Definition set_rg_reqs (v : gmap Z radius_saved_req_t) (x : radius_global_t) : radius_global_t :=
  Mkradius_global_t x.(rg_freeattrs) x.(rg_freeaccreqs) x.(rg_parsedpkt) x.(rg_server_map)
    x.(rg_nases) x.(rg_users) x.(rg_sessions) v x.(rg_next).
Definition set_rg_next (v : Z) (x : radius_global_t) : radius_global_t :=
  Mkradius_global_t x.(rg_freeattrs) x.(rg_freeaccreqs) x.(rg_parsedpkt) x.(rg_server_map)
    x.(rg_nases) x.(rg_users) x.(rg_sessions) x.(rg_reqs) v.

Definition zero_sockaddr : sockaddr_t := Mksockaddr_t 0 [].

(** [reset_parsed_packet] *)
Definition reset_parsed_packet : radius_parsed_t :=
  {| rd_tvsec := 0; rd_msgtype := 0; rd_msgident := 0; rd_authptr := (0, []); rd_accttype := 0;
     rd_acctsess := 0; rd_attrs := []; rd_nasip := zero_sockaddr; rd_radiusip := zero_sockaddr;
     rd_sourceport := 0; rd_muser_count := 0;
     rd_matchedusers := replicate (Z.to_nat USER_IDENT_MAX) None; rd_matchednas := None;
     rd_savedreq := None; rd_savedresp := None; rd_firstaction := ACCESS_ACTION_NONE;
     rd_secondaction := ACCESS_ACTION_NONE; rd_firstattrs := []; rd_secondattrs := [] |}.

(** [DERIVE_REQUEST_ID] *)
Definition DERIVE_REQUEST_ID (rad : radius_parsed_t) (reqtype : Z) : Z :=
  u32 (u32 (u32 (Z.shiftl rad.(rd_msgident) 16) + rad.(rd_sourceport)) + u32 (Z.shiftl reqtype 24)).

(** [interesting_attribute]; [radius_init_plugin_data] tabulates it. *)
Definition interesting_attribute (attrnum : Z) : bool :=
  bool_decide (attrnum ∈
    [RADIUS_ATTR_USERNAME; RADIUS_ATTR_ACCT_STATUS_TYPE; RADIUS_ATTR_NASIDENTIFIER;
     RADIUS_ATTR_NASPORT; RADIUS_ATTR_FRAMED_IP_ADDRESS; RADIUS_ATTR_FRAMED_IPV6_ADDRESS;
     RADIUS_ATTR_FRAMED_IPV6_PREFIX; RADIUS_ATTR_ACCT_INOCTETS; RADIUS_ATTR_ACCT_OUTOCTETS;
     RADIUS_ATTR_ACCT_SESSION_ID; RADIUS_ATTR_NASIP; RADIUS_ATTR_CALLED_STATION_ID;
     RADIUS_ATTR_CALLING_STATION_ID; RADIUS_ATTR_ACCT_TERMINATE_CAUSE;
     RADIUS_ATTR_DELEGATED_IPV6_PREFIX]).

(** ** Attributes and their free list *)

(** The buffer of an attribute before the value is copied: a new one, or the one it
    had, which is only changed for a long value.  What [malloc] and [realloc] leave
    in the new part is overwritten by the copy, and shown as zeros. *)
Definition attr_buffer (old : option bytes) (len : Z) : bytes :=
  match old with
  | None => replicate (Z.to_nat (if STANDARD_ATTR_ALLOC <? len then len else STANDARD_ATTR_ALLOC)) 0
  | Some buf => if STANDARD_ATTR_ALLOC <? len then resize (Z.to_nat len) 0 buf else buf
  end.

(** [create_new_attribute]; [valptr] is the memory at the pointer, if it is not NULL. *)
Definition create_new_attribute (type len : Z) (valptr : option bytes) (forcealloc : bool)
    (g : radius_global_t) : outcome (radius_attribute_t * radius_global_t) :=
  let alen := u8 (len - 2) in
  let '(addr, old, g) :=
    match g.(rg_freeattrs), forcealloc with
    | a :: l, false => (a.(att_addr), Some a.(att_val), set_rg_freeattrs l g)
    | _, _ => (g.(rg_next), None, set_rg_next (g.(rg_next) + 1) g)
    end in
  let buf := attr_buffer old alen in
  match valptr with
  | None => Ok (Mkradius_attribute_t addr type alen buf, g)
  | Some mem =>
      v ← read_bytes alen mem;
      if decide (alen ≤ zlen buf)
      then Ok (Mkradius_attribute_t addr type alen (v ++ zdrop alen buf), g)
      else Undef
  end.

(** The loop of [radius_init_plugin_data] that fills the free list. *)
Fixpoint prealloc_attrs (n : nat) (g : radius_global_t) : outcome radius_global_t :=
  match n with
  | O => Ok g
  | S n =>
      '(at_, g) ← create_new_attribute RADIUS_ATTR_NASPORT STANDARD_ATTR_ALLOC None true g;
      prealloc_attrs n (set_rg_freeattrs (at_ :: g.(rg_freeattrs)) g)
  end.

(** [radius_init_plugin_data] *)
Definition radius_init_plugin_data : outcome radius_global_t :=
  prealloc_attrs (Z.to_nat PREALLOC_ATTRS)
    {| rg_freeattrs := []; rg_freeaccreqs := []; rg_parsedpkt := reset_parsed_packet;
       rg_server_map := ∅; rg_nases := ∅; rg_users := ∅; rg_sessions := ∅; rg_reqs := ∅;
       rg_next := 0 |}.

(** [release_attribute_list]: one after the other to the front. *)
Definition release_attribute_list (l freelist : list radius_attribute_t)
    : list radius_attribute_t := reverse l ++ freelist.

Definition release_attrs (l : list radius_attribute_t) (g : radius_global_t) : radius_global_t :=
  set_rg_freeattrs (release_attribute_list l g.(rg_freeattrs)) g.

(** [release_saved_request] *)
Definition release_saved_request (req : Z) (g : radius_global_t) : radius_global_t :=
  set_rg_freeaccreqs (req :: g.(rg_freeaccreqs)) g.

(** ** Following pointers *)

Definition get_user (p : Z) (g : radius_global_t) : outcome radius_user_t :=
  match g.(rg_users) !! p with Some u => Ok u | None => Undef end.
Definition get_req (p : Z) (g : radius_global_t) : outcome radius_saved_req_t :=
  match g.(rg_reqs) !! p with Some r => Ok r | None => Undef end.
Definition get_nas (p : Z) (g : radius_global_t) : outcome radius_nas_t :=
  match g.(rg_nases) !! p with Some n => Ok n | None => Undef end.
Definition get_usess (p : Z) (g : radius_global_t) : outcome radius_user_session_t :=
  match g.(rg_sessions) !! p with Some s => Ok s | None => Undef end.
(** A pointer that may be NULL. *)
Definition deref {A} (p : option A) : outcome A := match p with Some a => Ok a | None => Undef end.

Definition put_user (p : Z) (u : radius_user_t) (g : radius_global_t) : radius_global_t :=
  set_rg_users (<[p := u]> g.(rg_users)) g.
Definition put_nas (p : Z) (n : radius_nas_t) (g : radius_global_t) : radius_global_t :=
  set_rg_nases (<[p := n]> g.(rg_nases)) g.
Definition put_req (p : Z) (r : radius_saved_req_t) (g : radius_global_t) : radius_global_t :=
  set_rg_reqs (<[p := r]> g.(rg_reqs)) g.
Definition put_usess (p : Z) (s : radius_user_session_t) (g : radius_global_t) : radius_global_t :=
  set_rg_sessions (<[p := s]> g.(rg_sessions)) g.

Definition set_ru_savedrequests (m : gmap Z Z) (u : radius_user_t) : radius_user_t :=
  Mkradius_user_t u.(ru_idmethod) u.(ru_userid) u.(ru_nasidentifier) u.(ru_nasid_len)
    u.(ru_sessions) m u.(ru_parent_nas).
Definition set_ru_sessions (m : gmap Z Z) (u : radius_user_t) : radius_user_t :=
  Mkradius_user_t u.(ru_idmethod) u.(ru_userid) u.(ru_nasidentifier) u.(ru_nasid_len)
    m u.(ru_savedrequests) u.(ru_parent_nas).
Definition set_ru_nasidentifier (s : cstring) (len : Z) (u : radius_user_t) : radius_user_t :=
  Mkradius_user_t u.(ru_idmethod) u.(ru_userid) s len u.(ru_sessions) u.(ru_savedrequests)
    u.(ru_parent_nas).
Definition set_nas_request_map (m : gmap Z Z) (n : radius_nas_t) : radius_nas_t :=
  Mkradius_nas_t n.(nas_ip) n.(nas_user_map) m n.(nas_orphans) n.(nas_orphans_tail).
Definition set_nas_user_map (m : gmap bytes Z) (n : radius_nas_t) : radius_nas_t :=
  Mkradius_nas_t n.(nas_ip) m n.(nas_request_map) n.(nas_orphans) n.(nas_orphans_tail).
Definition set_nas_orphans (l : list radius_orphaned_resp_t) (t : option Z) (n : radius_nas_t)
    : radius_nas_t :=
  Mkradius_nas_t n.(nas_ip) n.(nas_user_map) n.(nas_request_map) l t.

(** ** Releasing a packet *)

Definition is_request (msgtype : Z) : bool :=
  (msgtype =? RADIUS_CODE_ACCESS_REQUEST) || (msgtype =? RADIUS_CODE_ACCOUNT_REQUEST).
Definition is_response (msgtype : Z) : bool :=
  (msgtype =? RADIUS_CODE_ACCESS_ACCEPT) || (msgtype =? RADIUS_CODE_ACCESS_REJECT) ||
  (msgtype =? RADIUS_CODE_ACCESS_CHALLENGE) || (msgtype =? RADIUS_CODE_ACCOUNT_RESPONSE).

(** Whether [radius_destroy_parsed_data] gives the attributes of the packet back. *)
Definition releases_attrs (rd : radius_parsed_t) : bool :=
  if is_request rd.(rd_msgtype)
  then bool_decide (is_Some rd.(rd_savedresp)) || (rd.(rd_muser_count) =? 0)
  else if is_response rd.(rd_msgtype) then bool_decide (is_Some rd.(rd_savedreq))
  else true.

(** [radius_destroy_parsed_data] *)
Definition radius_destroy_parsed_data (g : radius_global_t) : outcome radius_global_t :=
  let rd := g.(rg_parsedpkt) in
  let g := if releases_attrs rd then release_attrs rd.(rd_attrs) g else g in
  g ← match rd.(rd_savedreq) with
      | Some p =>
          req ← get_req p g;
          Ok (set_rg_reqs (delete p g.(rg_reqs))
                (release_saved_request p (release_attrs req.(rq_attrs) g)))
      | None => Ok g
      end;
  let g := match rd.(rd_savedresp) with
           | Some resp => release_attrs resp.(or_savedattrs) g
           | None => g
           end in
  Ok (set_rg_parsedpkt reset_parsed_packet g).

(** ** Orphaned responses *)

(** Appending through the tail pointer: the last node of the list is the one the
    tail points at, or the list is not what the pointers say. *)
Definition append_orphan (resp : radius_orphaned_resp_t) (l : list radius_orphaned_resp_t)
    (tail : option Z) : outcome (list radius_orphaned_resp_t * option Z) :=
  match tail with
  | None => Ok ([resp], Some resp.(or_addr))
  | Some t =>
      if decide (or_addr <$> last l = Some t) then Ok (l ++ [resp], Some resp.(or_addr)) else Undef
  end.

(** Peeling expired orphans off the front. *)
Fixpoint peel_expired (now : Z) (l : list radius_orphaned_resp_t) : list radius_orphaned_resp_t :=
  match l with
  | [] => []
  | o :: l' => if now <=? o.(or_tvsec) + ORPHAN_EXPIRY then l else peel_expired now l'
  end.

(** [create_orphan]: nothing is peeled off when the list was empty. *)
Definition create_orphan (nasp reqid : Z) (g : radius_global_t) : outcome radius_global_t :=
  let rd := g.(rg_parsedpkt) in
  nas ← get_nas nasp g;
  let resp := {| or_addr := g.(rg_next); or_resptype := rd.(rd_msgtype); or_key := reqid;
                 or_tvsec := rd.(rd_tvsec); or_savedattrs := rd.(rd_attrs) |} in
  '(l, tail) ← append_orphan resp nas.(nas_orphans) nas.(nas_orphans_tail);
  let l := match nas.(nas_orphans_tail) with Some _ => peel_expired resp.(or_tvsec) l | None => l end in
  Ok (put_nas nasp (set_nas_orphans l tail nas) (set_rg_next (g.(rg_next) + 1) g)).

(** The loop of [search_orphans].  [prev] holds the nodes that were passed, last
    first; while it is empty the current node is the head.  The result is the node
    that was found, the list without it and the tail. *)
Fixpoint search_orphan_list (reqid tvsec : Z) (prev l : list radius_orphaned_resp_t)
    (tail : option Z)
    : option radius_orphaned_resp_t * list radius_orphaned_resp_t * option Z :=
  match l with
  | [] => (None, reverse prev, tail)
  | o :: l' =>
      if bool_decide (prev = []) && (o.(or_tvsec) + ORPHAN_EXPIRY <? tvsec) then
        search_orphan_list reqid tvsec [] l'
          (if decide (tail = Some o.(or_addr)) then None else tail)
      else if o.(or_key) =? reqid then
        (Some o, reverse prev ++ l',
         if decide (tail = Some o.(or_addr)) then or_addr <$> head prev else tail)
      else search_orphan_list reqid tvsec (o :: prev) l' tail
  end.

(** [search_orphans] *)
Definition search_orphans (nasp reqid tvsec : Z) (g : radius_global_t)
    : outcome (option radius_orphaned_resp_t * radius_global_t) :=
  nas ← get_nas nasp g;
  let '(o, l, tail) := search_orphan_list reqid tvsec [] nas.(nas_orphans) nas.(nas_orphans_tail) in
  Ok (o, put_nas nasp (set_nas_orphans l tail nas) g).

(** ** Parsing *)

(** [get_udp_payload] of util.c: the payload and its address, and the ports. *)
Definition get_udp_payload (pkt : radius_packet) : outcome (option (Z * bytes) * Z * Z) :=
  match pkt.(pk_transport) with
  | None => Ok (None, 0, 0)
  | Some (proto, udp) =>
      if zlen udp <? 8 then Ok (None, 0, 0)
      else if negb (proto =? 17) then Ok (None, 0, 0)
      else
        source ← read_le 2 udp;
        dest ← read_le 2 (zdrop 2 udp);
        Ok (pkt.(pk_udp_payload), ntohs source, ntohs dest)
  end.

(** The addresses [grab_nas_details_from_packet] reads: source and destination. *)
Definition ip_addresses (ethertype : Z) (l3 : bytes) : outcome (option (sockaddr_t * sockaddr_t)) :=
  if ethertype =? 0x0800 then
    src ← read_bytes 4 (zdrop 12 l3);
    dst ← read_bytes 4 (zdrop 16 l3);
    Ok (Some (Mksockaddr_t AF_INET src, Mksockaddr_t AF_INET dst))
  else if ethertype =? 0x86DD then
    src ← read_bytes 16 (zdrop 8 l3);
    dst ← read_bytes 16 (zdrop 24 l3);
    Ok (Some (Mksockaddr_t AF_INET6 src, Mksockaddr_t AF_INET6 dst))
  else Ok None.

(** [grab_nas_details_from_packet]: the NAS, the server and the port of the NAS;
    [None] for -1. *)
Definition grab_nas_details_from_packet (pkt : radius_packet) (code sourceport destport : Z)
    : outcome (option (sockaddr_t * sockaddr_t * Z)) :=
  match pkt.(pk_layer3) with
  | None => Ok None
  | Some (ethertype, l3) =>
      if zlen l3 <? 20 then Ok None
      else if is_request code then
        o ← ip_addresses ethertype l3;
        Ok (match o with Some (src, dst) => Some (src, dst, sourceport) | None => None end)
      else if is_response code then
        o ← ip_addresses ethertype l3;
        Ok (match o with Some (src, dst) => Some (dst, src, destport) | None => None end)
      else Ok None
  end.

(** [sockaddr_to_key] of util.c. *)
Definition sockaddr_to_key (sa : sockaddr_t) : option bytes :=
  if (sa.(sa_family) =? AF_INET) || (sa.(sa_family) =? AF_INET6) then Some sa.(sa_addr) else None.

(** The index of a Judy string array: the buffer up to its first zero. *)
Definition server_key (sockkey : bytes) : bytes :=
  until_nul (sockkey ++ replicate (Z.to_nat (20 - zlen sockkey)) 0).

Definition new_nas (key : bytes) : radius_nas_t := Mkradius_nas_t key ∅ ∅ [] None.

(** [update_known_servers]: both tables are indexed with the address of the server. *)
Definition update_known_servers (g : radius_global_t) : radius_global_t :=
  match sockaddr_to_key g.(rg_parsedpkt).(rd_radiusip) with
  | None => g
  | Some sockkey =>
      let hashkey := server_key sockkey in
      let srv := default (Mkradius_server_t sockkey ∅) (g.(rg_server_map) !! hashkey) in
      match srv.(srv_nas_map) !! hashkey with
      | Some p =>
          set_rg_parsedpkt (set_rd_matchednas (Some p) g.(rg_parsedpkt))
            (set_rg_server_map (<[hashkey := srv]> g.(rg_server_map)) g)
      | None =>
          let p := g.(rg_next) in
          let srv := Mkradius_server_t srv.(srv_ip) (<[hashkey := p]> srv.(srv_nas_map)) in
          set_rg_parsedpkt (set_rd_matchednas (Some p) g.(rg_parsedpkt))
            (set_rg_next (p + 1)
              (set_rg_server_map (<[hashkey := srv]> g.(rg_server_map))
                (put_nas p (new_nas sockkey) g)))
      end
  end.

(** [strtoul(s, NULL, 10)]: white space, a sign, digits; too large a number gives
    [ULONG_MAX], a minus sign negates in 64 bits. *)
Definition is_space (c : Z) : bool := (c =? 32) || ((9 <=? c) && (c <=? 13)).
Definition is_digit (c : Z) : bool := (48 <=? c) && (c <=? 57).
Fixpoint skip_space (s : bytes) : bytes :=
  match s with [] => [] | c :: s' => if is_space c then skip_space s' else s end.
Fixpoint digits_value (acc : Z) (s : bytes) : Z :=
  match s with
  | [] => acc
  | c :: s => if is_digit c then digits_value (10 * acc + (c - 48)) s else acc
  end.
Definition strtoul (s : bytes) : Z :=
  let s := skip_space s in
  let '(neg, s) := match s with
                   | 43 :: s => (false, s)
                   | 45 :: s => (true, s)
                   | s => (false, s)
                   end in
  let v := digits_value 0 s in
  if 2^64 - 1 <? v then 2^64 - 1 else if neg : bool then u64 (- v) else v.

(** [sessstr]: at most 23 bytes of the attribute, up to the first zero. *)
Definition session_id_of (att_val : bytes) (att_len : Z) : Z :=
  u32 (strtoul (until_nul (ztake (if 23 <? att_len then 23 else att_len) att_val))).

(** What is remembered about an attribute besides the list. *)
Definition note_attribute (a : radius_attribute_t) (rd : radius_parsed_t)
    : outcome radius_parsed_t :=
  rd ← (if a.(att_type) =? RADIUS_ATTR_ACCT_STATUS_TYPE then
          v ← read_le 4 a.(att_val); Ok (set_rd_accttype (ntohl v) rd)
        else Ok rd);
  if a.(att_type) =? RADIUS_ATTR_ACCT_SESSION_ID
  then Ok (set_rd_acctsess (session_id_of a.(att_val) a.(att_len)) rd)
  else Ok rd.

(** The body of the loop for an interesting attribute. *)
Definition add_attribute (att_type att_len : Z) (ptr : bytes) (g : radius_global_t)
    : outcome radius_global_t :=
  '(newattr, g) ← create_new_attribute att_type att_len (Some ptr) false g;
  rd ← note_attribute newattr (set_rd_attrs (newattr :: g.(rg_parsedpkt).(rd_attrs))
                                 g.(rg_parsedpkt));
  Ok (set_rg_parsedpkt rd g).

(** [while (rem > 2)]; [mem] is the memory at [ptr].  Running out of [fuel] is
    [Undef]. *)
Fixpoint parse_attributes (fuel : nat) (rem : Z) (mem : bytes) (g : radius_global_t)
    : outcome radius_global_t :=
  match fuel with
  | O => Undef
  | S fuel =>
      if rem <=? 2 then Ok g
      else
        att_type ← read_le 1 mem;
        att_len ← read_le 1 (zdrop 1 mem);
        if att_len <=? 2 then Ok g
        else if rem <? att_len then Ok g
        else
          g ← (if interesting_attribute att_type
               then add_attribute att_type att_len (zdrop 2 mem) g else Ok g);
          parse_attributes fuel (rem - att_len) (zdrop att_len mem) g
  end.

(** What [radius_parse_packet] notes about the message and what
    [grab_nas_details_from_packet] adds. *)
Definition set_rd_header (tvsec code ident : Z) (auth : Z * bytes) (rd : radius_parsed_t)
    : radius_parsed_t :=
  Mkradius_parsed_t tvsec code ident auth rd.(rd_accttype) rd.(rd_acctsess) rd.(rd_attrs)
    rd.(rd_nasip) rd.(rd_radiusip) rd.(rd_sourceport) rd.(rd_muser_count) rd.(rd_matchedusers)
    rd.(rd_matchednas) rd.(rd_savedreq) rd.(rd_savedresp) rd.(rd_firstaction)
    rd.(rd_secondaction) rd.(rd_firstattrs) rd.(rd_secondattrs).
Definition set_rd_addresses (nasip radiusip : sockaddr_t) (port : Z) (rd : radius_parsed_t)
    : radius_parsed_t :=
  Mkradius_parsed_t rd.(rd_tvsec) rd.(rd_msgtype) rd.(rd_msgident) rd.(rd_authptr)
    rd.(rd_accttype) rd.(rd_acctsess) rd.(rd_attrs)
    nasip radiusip port rd.(rd_muser_count) rd.(rd_matchedusers)
    rd.(rd_matchednas) rd.(rd_savedreq) rd.(rd_savedresp) rd.(rd_firstaction)
    rd.(rd_secondaction) rd.(rd_firstattrs) rd.(rd_secondattrs).

(** The part of [radius_parse_packet] after the length check. *)
Definition parse_message (pkt : radius_packet) (addr : Z) (radstart : bytes)
    (sourceport destport : Z) (g : radius_global_t) : outcome (option unit * radius_global_t) :=
  code ← read_le 1 radstart;
  ident ← read_le 1 (zdrop 1 radstart);
  let g := set_rg_parsedpkt (set_rd_header pkt.(pk_tvsec) code ident (addr + 4, zdrop 4 radstart)
                               g.(rg_parsedpkt)) g in
  o ← grab_nas_details_from_packet pkt code sourceport destport;
  match o with
  | None => Ok (None, g)
  | Some (nasip, radiusip, port) =>
      let g := update_known_servers
                 (set_rg_parsedpkt (set_rd_addresses nasip radiusip port g.(rg_parsedpkt)) g) in
      g ← parse_attributes (S (length radstart)) (zlen radstart - 20) (zdrop 20 radstart) g;
      Ok (Some tt, g)
  end.

(** [radius_parse_packet]; [None] is NULL, otherwise the packet is in the plugin. *)
Definition radius_parse_packet (pkt : radius_packet) (g : radius_global_t)
    : outcome (option unit * radius_global_t) :=
  g ← (if negb (g.(rg_parsedpkt).(rd_msgtype) =? 0) then radius_destroy_parsed_data g else Ok g);
  '(payload, sourceport, destport) ← get_udp_payload pkt;
  match payload with
  | None => Ok (None, g)
  | Some (addr, radstart) =>
      if zlen radstart <? 20 then Ok (None, g)
      else parse_message pkt addr radstart sourceport destport g
  end.

(** ** Users *)

(** The key of a user: a prefix for the kind of identity and the attribute, as a C
    string. *)
Definition user_prefix (type : Z) : option (bytes * user_identity_method_t) :=
  if type =? RADIUS_ATTR_USERNAME then Some (of_string "raduser-", USER_IDENT_RADIUS_USERNAME)
  else if type =? RADIUS_ATTR_CALLING_STATION_ID
  then Some (of_string "radcsid-", USER_IDENT_RADIUS_CSID)
  else None.

(** Writing [matchedusers[muser_count]] and counting it. *)
Definition match_user (p : Z) (rd : radius_parsed_t) : outcome radius_parsed_t :=
  if decide (rd.(rd_muser_count) < USER_IDENT_MAX) then
    Ok {| rd_tvsec := rd.(rd_tvsec); rd_msgtype := rd.(rd_msgtype);
          rd_msgident := rd.(rd_msgident); rd_authptr := rd.(rd_authptr);
          rd_accttype := rd.(rd_accttype); rd_acctsess := rd.(rd_acctsess);
          rd_attrs := rd.(rd_attrs); rd_nasip := rd.(rd_nasip); rd_radiusip := rd.(rd_radiusip);
          rd_sourceport := rd.(rd_sourceport); rd_muser_count := rd.(rd_muser_count) + 1;
          rd_matchedusers := <[Z.to_nat rd.(rd_muser_count) := Some p]> rd.(rd_matchedusers);
          rd_matchednas := rd.(rd_matchednas); rd_savedreq := rd.(rd_savedreq);
          rd_savedresp := rd.(rd_savedresp); rd_firstaction := rd.(rd_firstaction);
          rd_secondaction := rd.(rd_secondaction); rd_firstattrs := rd.(rd_firstattrs);
          rd_secondattrs := rd.(rd_secondattrs) |}
  else Undef.

(** [add_user_identity]; [None] is a NULL result. *)
Definition add_user_identity (a : radius_attribute_t) (g : radius_global_t)
    : outcome (option Z * radius_global_t) :=
  match user_prefix a.(att_type) with
  | None => Ok (None, g)
  | Some (pfx, method) =>
      _ ← c_assert (a.(att_len) <? 2047 - 8);
      v ← read_bytes a.(att_len) a.(att_val);
      let userkey := until_nul (pfx ++ v) in
      nasp ← deref g.(rg_parsedpkt).(rd_matchednas);
      nas ← get_nas nasp g;
      match nas.(nas_user_map) !! userkey with
      | Some p =>
          rd ← match_user p g.(rg_parsedpkt);
          Ok (Some p, set_rg_parsedpkt rd g)
      | None =>
          let p := g.(rg_next) in
          let user := Mkradius_user_t method userkey None 0 ∅ ∅ nasp in
          rd ← match_user p g.(rg_parsedpkt);
          Ok (Some p,
              set_rg_parsedpkt rd
                (put_nas nasp (set_nas_user_map (<[userkey := p]> nas.(nas_user_map)) nas)
                  (put_user p user (set_rg_next (p + 1) g))))
      end
  end.

(** The loop of [process_username_attribute]. *)
Fixpoint match_usernames (l : list radius_attribute_t) (gotusername : Z) (g : radius_global_t)
    : outcome (Z * radius_global_t) :=
  match l with
  | [] => Ok (gotusername, g)
  | a :: l =>
      if (a.(att_type) =? RADIUS_ATTR_USERNAME) || (a.(att_type) =? RADIUS_ATTR_CALLING_STATION_ID)
      then
        '(raduser, g) ← add_user_identity a g;
        _ ← c_assert (bool_decide (is_Some raduser));
        match_usernames l (if a.(att_type) =? RADIUS_ATTR_USERNAME then 1 else gotusername) g
      else match_usernames l gotusername g
  end.

(** [process_username_attribute] *)
Definition process_username_attribute (g : radius_global_t) : outcome (Z * radius_global_t) :=
  if is_request g.(rg_parsedpkt).(rd_msgtype)
  then match_usernames g.(rg_parsedpkt).(rd_attrs) (-1) g
  else Ok (0, g).

(** [nasid_to_string]: the bytes written before the final NUL. *)
Definition nasid_to_string (a : radius_attribute_t) : outcome bytes :=
  read_bytes (if a.(att_len) <? 256 then a.(att_len) else 255) a.(att_val).

Definition find_attr (type : Z) (l : list radius_attribute_t) : option radius_attribute_t :=
  head (filter (λ a, a.(att_type) = type) l).

(** The loop of [process_nasid_attribute] over the matched users. *)
Fixpoint update_nasids (nasid : bytes) (l : list (option Z)) (g : radius_global_t)
    : outcome radius_global_t :=
  match l with
  | [] => Ok g
  | p :: l =>
      p ← deref p;
      u ← get_user p g;
      let same := match u.(ru_nasidentifier) with
                  | Some old => bool_decide (until_nul nasid = until_nul old)
                  | None => false
                  end in
      update_nasids nasid l
        (if same then g else put_user p (set_ru_nasidentifier (Some nasid) (zlen nasid) u) g)
  end.

(** [process_nasid_attribute] *)
Definition process_nasid_attribute (g : radius_global_t) : outcome radius_global_t :=
  let rd := g.(rg_parsedpkt) in
  if rd.(rd_muser_count) =? 0 then Ok g
  else match find_attr RADIUS_ATTR_NASIDENTIFIER rd.(rd_attrs) with
    | None => Ok g
    | Some a =>
        nasid ← nasid_to_string a;
        update_nasids nasid (ztake rd.(rd_muser_count) rd.(rd_matchedusers)) g
    end.

(** ** Matching responses with requests *)

(** [JLD(rcint, user->savedrequests, reqid)] for the users that are not NULL. *)
Fixpoint forget_request (reqid : Z) (l : list (option Z)) (g : radius_global_t)
    : outcome radius_global_t :=
  match l with
  | [] => Ok g
  | None :: l => forget_request reqid l g
  | Some p :: l =>
      u ← get_user p g;
      forget_request reqid l
        (put_user p (set_ru_savedrequests (delete reqid u.(ru_savedrequests)) u) g)
  end.

(** [HASH_DELETE(hh, request_map, req)] of a request that is in the table. *)
Definition hash_delete_req (nasp p : Z) (req : radius_saved_req_t) (g : radius_global_t)
    : outcome radius_global_t :=
  nas ← get_nas nasp g;
  if decide (nas.(nas_request_map) !! req.(rq_reqid) = Some p) then
    Ok (put_nas nasp (set_nas_request_map (delete req.(rq_reqid) nas.(nas_request_map)) nas) g)
  else Undef.

Definition request_code (msgtype : Z) : Z :=
  if msgtype =? RADIUS_CODE_ACCOUNT_RESPONSE
  then RADIUS_CODE_ACCOUNT_REQUEST else RADIUS_CODE_ACCESS_REQUEST.

(** What the packet takes over from the request it answers. *)
Definition take_request (p : Z) (req : radius_saved_req_t) (rd : radius_parsed_t)
    : radius_parsed_t :=
  {| rd_tvsec := rd.(rd_tvsec); rd_msgtype := rd.(rd_msgtype);
     rd_msgident := rd.(rd_msgident); rd_authptr := rd.(rd_authptr);
     rd_accttype := req.(rq_statustype); rd_acctsess := req.(rq_acctsess);
     rd_attrs := rd.(rd_attrs); rd_nasip := rd.(rd_nasip); rd_radiusip := rd.(rd_radiusip);
     rd_sourceport := rd.(rd_sourceport); rd_muser_count := req.(rq_targetuser_count);
     rd_matchedusers := req.(rq_targetusers);
     rd_matchednas := rd.(rd_matchednas); rd_savedreq := Some p;
     rd_savedresp := rd.(rd_savedresp); rd_firstaction := rd.(rd_firstaction);
     rd_secondaction := rd.(rd_secondaction); rd_firstattrs := rd.(rd_firstattrs);
     rd_secondattrs := rd.(rd_secondattrs) |}.

(** [find_matching_request] *)
Definition find_matching_request (g : radius_global_t) : outcome radius_global_t :=
  let rd := g.(rg_parsedpkt) in
  let reqid := DERIVE_REQUEST_ID rd (request_code rd.(rd_msgtype)) in
  if is_response rd.(rd_msgtype) then
    nasp ← deref rd.(rd_matchednas);
    nas ← get_nas nasp g;
    match nas.(nas_request_map) !! reqid with
    | None => create_orphan nasp reqid g
    | Some p =>
        req ← get_req p g;
        g ← forget_request reqid (ztake req.(rq_targetuser_count) req.(rq_targetusers))
              (set_rg_parsedpkt (take_request p req rd) g);
        hash_delete_req nasp p req g
    end
  else Ok g.

(** [strchr(userid, '-') + 1], or all of it. *)
Fixpoint after_dash (s : bytes) : option bytes :=
  match s with [] => None | c :: s => if c =? 45 then Some s else after_dash s end.
Definition stripped_userid (userid : bytes) : bytes := default userid (after_dash userid).

(** The identities [radius_get_userid] reports.  [idarray] has [muser_count]
    entries. *)
Fixpoint identities_of (room : Z) (l : list (option Z)) (g : radius_global_t)
    : outcome (list user_identity_t) :=
  match l with
  | [] => Ok []
  | None :: l => identities_of room l g
  | Some p :: l =>
      u ← get_user p g;
      if decide (0 < room) then
        let idstr := stripped_userid u.(ru_userid) in
        ids ← identities_of (room - 1) l g;
        Ok (Mkuser_identity_t u.(ru_idmethod) idstr (zlen idstr) p :: ids)
      else Undef
  end.

(** The names of a packet: for a request its own, for a response those of the
    request; [None] for a NULL result. *)
Definition collect_identities (g : radius_global_t)
    : outcome (option (list user_identity_t) * radius_global_t) :=
  if g.(rg_parsedpkt).(rd_muser_count) =? 0 then Ok (None, g)
  else
    g ← process_nasid_attribute g;
    ids ← identities_of g.(rg_parsedpkt).(rd_muser_count) g.(rg_parsedpkt).(rd_matchedusers) g;
    Ok (Some ids, g).

(** [radius_get_userid] *)
Definition radius_get_userid (g : radius_global_t)
    : outcome (option (list user_identity_t) * radius_global_t) :=
  let answer g :=
    if is_request g.(rg_parsedpkt).(rd_msgtype) then collect_identities g
    else g ← find_matching_request g; collect_identities g in
  if g.(rg_parsedpkt).(rd_muser_count) =? 0 then
    match g.(rg_parsedpkt).(rd_matchednas) with
    | None => Ok (None, g)
    | Some _ =>
        '(got, g) ← process_username_attribute g;
        if got =? -1
        then Ok (None, set_rg_parsedpkt (set_rd_muser_count 0 g.(rg_parsedpkt)) g)
        else answer g
    end
  else answer g.

(** ** Destroying users and sessions *)

Fixpoint free_usessions (l : list Z) (g : radius_global_t) : outcome radius_global_t :=
  match l with
  | [] => Ok g
  | p :: l => _ ← get_usess p g; free_usessions l (set_rg_sessions (delete p g.(rg_sessions)) g)
  end.

(** The first pointer to the user in a request is cleared. *)
Fixpoint clear_target (user : Z) (l : list (option Z)) : option (list (option Z)) :=
  match l with
  | [] => None
  | Some p :: l => if p =? user then Some (None :: l) else (Some p ::.) <$> clear_target user l
  | None :: l => (None ::.) <$> clear_target user l
  end.

(** The loop of [destroy_radius_user] over its saved requests. *)
Fixpoint drop_requests (user nasp : Z) (l : list Z) (g : radius_global_t)
    : outcome radius_global_t :=
  match l with
  | [] => Ok g
  | p :: l =>
      req ← get_req p g;
      let n := Z.to_nat req.(rq_targetuser_count) in
      let '(targets, active) :=
        match clear_target user (take n req.(rq_targetusers)) with
        | Some ts => (ts ++ drop n req.(rq_targetusers), req.(rq_active_targets) - 1)
        | None => (req.(rq_targetusers), req.(rq_active_targets))
        end in
      let req := Mkradius_saved_req_t req.(rq_reqid) req.(rq_statustype) req.(rq_acctsess)
                   req.(rq_tvsec) req.(rq_attrs) targets req.(rq_targetuser_count) active in
      g ← (if active <=? 0 then
             g ← hash_delete_req nasp p req g; Ok (set_rg_reqs (delete p g.(rg_reqs)) g)
           else Ok (put_req p req g));
      drop_requests user nasp l g
  end.

(** [destroy_radius_user] *)
Definition destroy_radius_user (user : Z) (userind : bytes) (g : radius_global_t)
    : outcome radius_global_t :=
  u ← get_user user g;
  nas ← get_nas u.(ru_parent_nas) g;
  let g := put_nas u.(ru_parent_nas)
             (set_nas_user_map (delete userind nas.(nas_user_map)) nas) g in
  g ← free_usessions (snd <$> map_to_list u.(ru_sessions)) g;
  g ← drop_requests user u.(ru_parent_nas) (snd <$> map_to_list u.(ru_savedrequests)) g;
  Ok (set_rg_users (delete user g.(rg_users)) g).

(** [radius_destroy_session_data] *)
Definition radius_destroy_session_data (sess : access_session_t) (g : radius_global_t)
    : outcome radius_global_t :=
  match sess.(as_statedata) with
  | None => Ok g
  | Some sp =>
      usess ← get_usess sp g;
      g ← match usess.(us_parent) with
          | None => Ok g
          | Some user =>
              u ← get_user user g;
              let m := delete usess.(us_session_id) u.(ru_sessions) in
              let g := put_user user (set_ru_sessions m u) g in
              if bool_decide (m = ∅) then destroy_radius_user user u.(ru_userid) g else Ok g
          end;
      Ok (set_rg_sessions (delete sp g.(rg_sessions)) g)
  end.
