(* ===== verification/RadiusSession.v ===== *)
(** * The RADIUS plugin: sessions and their states
      (src/src/collector/accessplugins/radius.c)

    [radius_update_session_state] takes a packet and one of its users, finds or
    creates the session, saves the request or pairs it with an orphaned response,
    and drives the state machine [apply_fsm_logic]; the actions it decides on become
    IRIs ([RadiusIri]).

    The sessions of the callers (src/src/collector/internetaccess.h) have addresses:
    [ss_heap] holds the live ones, and a user of the synchronisation thread keeps a
    list of them. *)

From stdpp Require Import gmap.
From S2P Require Import Prelude ByteOrder Publish JenkinsHash AccessSession Radius.

(** The sessions that were allocated by [create_access_session]. *)
Record session_store : Type := Mksession_store {
  ss_heap : gmap Z access_session_t;
  ss_next : Z;
}.

Definition get_session (p : Z) (ss : session_store) : outcome access_session_t :=
  match ss.(ss_heap) !! p with Some s => Ok s | None => Undef end.
Definition put_session (p : Z) (s : access_session_t) (ss : session_store) : session_store :=
  Mksession_store (<[p := s]> ss.(ss_heap)) ss.(ss_next).
Definition free_session_at (p : Z) (ss : session_store) : session_store :=
  Mksession_store (delete p ss.(ss_heap)) ss.(ss_next).

(** ** Session ids and CINs *)

(** [assign_cin]; [now] is what [gettimeofday] would give. *)
Definition assign_cin (now : Z) (rd : radius_parsed_t) : outcome Z :=
  match find_attr RADIUS_ATTR_ACCT_SESSION_ID rd.(rd_attrs) with
  | Some _ => Ok (rd.(rd_acctsess) mod 2^31)
  | None =>
      if rd.(rd_msgtype) =? RADIUS_CODE_ACCESS_REQUEST then
        h ← hashlittle rd.(rd_authptr).1 rd.(rd_authptr).2 16 0xfacebeef;
        Ok (h mod 2^31)
      else Ok (u32 (Z.rem now (2^31)))
  end.

(** [quickcat] on the text written so far and the room left. *)
Definition quickcat (toadd : bytes) (towrite : Z) (st : bytes * Z) : outcome (bytes * Z) :=
  let '(text, rem) := st in
  if rem <=? 1 then Ok (text, rem)
  else if towrite <? rem - 1 then
    w ← read_bytes towrite toadd; Ok (text ++ w, rem - towrite)
  else
    w ← read_bytes (rem - 1) toadd; Ok (text ++ w, 1).

(** The session id: user, NAS and accounting session.  An unset NAS identifier
    trips [assert(0)]. *)
Definition session_key (acctsess : Z) (u : radius_user_t) : outcome (bytes * Z) :=
  match u.(ru_nasidentifier) with
  | None => Abort
  | Some nasid =>
      st ← quickcat (u.(ru_userid) ++ [0]) (zlen (until_nul u.(ru_userid))) ([], 5000);
      st ← quickcat [45; 0] 1 st;
      st ← quickcat (nasid ++ [0]) u.(ru_nasid_len) st;
      st ← quickcat [45; 0] 1 st;
      quickcat (print_u acctsess ++ [0]) (zlen (print_u acctsess)) st
  end.

(** [HASH_FIND] on the session ids of a user. *)
Fixpoint find_session (key : bytes) (l : list Z) (ss : session_store) : outcome (option Z) :=
  match l with
  | [] => Ok None
  | p :: l =>
      s ← get_session p ss;
      if decide (until_nul s.(as_sessionid) = key) then Ok (Some p) else find_session key l ss
  end.

(** The session of the packet, created if there is none. *)
Definition find_or_create_session (now : Z) (u : radius_user_t) (rd : radius_parsed_t)
    (sesslist : list Z) (ss : session_store) : outcome (Z * list Z * session_store) :=
  '(sessionid, rem) ← session_key rd.(rd_acctsess) u;
  found ← find_session (until_nul sessionid) sesslist ss;
  match found with
  | Some p => Ok (p, sesslist, ss)
  | None =>
      s ← create_access_session (sessionid ++ [0]) (5000 - rem);
      cin ← assign_cin now rd;
      let p := ss.(ss_next) in
      Ok (p, sesslist ++ [p],
          Mksession_store (<[p := set_as_cin cin s]> ss.(ss_heap)) (p + 1))
  end.

(** ** Saving a request *)

(** [JLI(pval, user->savedrequests, reqid)] for every matched user. *)
Fixpoint remember_request (reqid reqp : Z) (l : list (option Z)) (g : radius_global_t)
    : outcome radius_global_t :=
  match l with
  | [] => Ok g
  | p :: l =>
      p ← deref p;
      u ← get_user p g;
      remember_request reqid reqp l
        (put_user p (set_ru_savedrequests (<[reqid := reqp]> u.(ru_savedrequests)) u) g)
  end.

(** An unanswered request with the same id is given up. *)
Definition replace_request (nasp p : Z) (check : radius_saved_req_t) (reqid : Z)
    (g : radius_global_t) : outcome radius_global_t :=
  g ← forget_request reqid (ztake check.(rq_targetuser_count) check.(rq_targetusers)) g;
  g ← hash_delete_req nasp p check (release_saved_request p (release_attrs check.(rq_attrs) g));
  Ok (set_rg_reqs (delete p g.(rg_reqs)) g).

(** A node for a saved request, from the free list if it is not empty. *)
Definition alloc_request (g : radius_global_t) : Z * radius_global_t :=
  match g.(rg_freeaccreqs) with
  | p :: l => (p, set_rg_freeaccreqs l g)
  | [] => (g.(rg_next), set_rg_next (g.(rg_next) + 1) g)
  end.

Definition request_of (rd : radius_parsed_t) (reqid : Z) : radius_saved_req_t :=
  {| rq_reqid := reqid; rq_statustype := rd.(rd_accttype); rq_acctsess := rd.(rd_acctsess);
     rq_tvsec := rd.(rd_tvsec); rq_attrs := rd.(rd_attrs);
     rq_targetusers := rd.(rd_matchedusers); rq_targetuser_count := rd.(rd_muser_count);
     rq_active_targets := rd.(rd_muser_count) |}.

(** Inserting the request of the packet. *)
Definition insert_request (nasp reqid : Z) (g : radius_global_t) : outcome radius_global_t :=
  let rd := g.(rg_parsedpkt) in
  let '(p, g) := alloc_request g in
  nas ← get_nas nasp g;
  remember_request reqid p (ztake rd.(rd_muser_count) rd.(rd_matchedusers))
    (put_nas nasp (set_nas_request_map (<[reqid := p]> nas.(nas_request_map)) nas)
      (put_req p (request_of rd reqid) g)).

(** The part of [radius_update_session_state] for requests: an orphaned response is
    paired with it, or it is saved unless that was done for another user of the same
    packet. *)
Definition save_request (g : radius_global_t) : outcome radius_global_t :=
  let rd := g.(rg_parsedpkt) in
  let reqid := DERIVE_REQUEST_ID rd rd.(rd_msgtype) in
  nasp ← deref rd.(rd_matchednas);
  '(orphan, g) ← search_orphans nasp reqid rd.(rd_tvsec) g;
  match orphan, rd.(rd_savedresp) with
  | Some o, _ => Ok (set_rg_parsedpkt (set_rd_savedresp (Some o) rd) g)
  | None, Some _ => Ok g
  | None, None =>
      nas ← get_nas nasp g;
      match nas.(nas_request_map) !! reqid with
      | None => insert_request nasp reqid g
      | Some p =>
          check ← get_req p g;
          if (rd.(rd_tvsec) =? check.(rq_tvsec)) && (rd.(rd_acctsess) =? check.(rq_acctsess))
          then Ok g
          else
            g ← replace_request nasp p check reqid g;
            insert_request nasp reqid g
      end
  end.

(** ** The state machine *)

(** [apply_fsm_logic]: the new state of the session and the action. *)
Definition apply_fsm_logic (current : session_state_t) (msgtype accttype : Z)
    : session_state_t * access_action_t :=
  let new_or_over := bool_decide (current = SESSION_STATE_NEW) ||
                     bool_decide (current = SESSION_STATE_OVER) in
  let authing := bool_decide (current = SESSION_STATE_AUTHING) in
  let active := bool_decide (current = SESSION_STATE_ACTIVE) ||
                bool_decide (current = SESSION_STATE_ACTIVE_NO_IP) in
  if new_or_over && ((msgtype =? RADIUS_CODE_ACCESS_REQUEST) ||
                     ((msgtype =? RADIUS_CODE_ACCOUNT_REQUEST) && (accttype =? RADIUS_ACCT_START)))
  then (SESSION_STATE_AUTHING, ACCESS_ACTION_ATTEMPT)
  else if authing && (msgtype =? RADIUS_CODE_ACCESS_REJECT)
  then (SESSION_STATE_OVER, ACCESS_ACTION_REJECT)
  else if authing && (msgtype =? RADIUS_CODE_ACCESS_CHALLENGE)
  then (SESSION_STATE_AUTHING, ACCESS_ACTION_RETRY)
  else if authing && ((msgtype =? RADIUS_CODE_ACCOUNT_REQUEST) && (accttype =? RADIUS_ACCT_STOP))
  then (SESSION_STATE_OVER, ACCESS_ACTION_FAILED)
  else if authing && ((msgtype =? RADIUS_CODE_ACCESS_ACCEPT) ||
                      ((msgtype =? RADIUS_CODE_ACCOUNT_RESPONSE) && (accttype =? RADIUS_ACCT_START)))
  then (SESSION_STATE_ACTIVE, ACCESS_ACTION_ACCEPT)
  else if active && ((msgtype =? RADIUS_CODE_ACCOUNT_RESPONSE) &&
                     ((accttype =? RADIUS_ACCT_START) || (accttype =? RADIUS_ACCT_INTERIM_UPDATE)))
  then (SESSION_STATE_ACTIVE, ACCESS_ACTION_INTERIM_UPDATE)
  else if active && ((msgtype =? RADIUS_CODE_ACCOUNT_RESPONSE) && (accttype =? RADIUS_ACCT_STOP))
  then (SESSION_STATE_OVER, ACCESS_ACTION_END)
  else if new_or_over && ((msgtype =? RADIUS_CODE_ACCOUNT_RESPONSE) &&
                          (accttype =? RADIUS_ACCT_INTERIM_UPDATE))
  then (SESSION_STATE_ACTIVE, ACCESS_ACTION_ALREADY_ACTIVE)
  else (current, ACCESS_ACTION_NONE).

Definition set_us_current (st : session_state_t) (us : radius_user_session_t)
    : radius_user_session_t :=
  Mkradius_user_session_t us.(us_session_id) st us.(us_nas_port) us.(us_octets_received)
    us.(us_octets_sent) us.(us_nasidentifier) us.(us_nas_ip) us.(us_nas_ip_family) us.(us_parent).

(** One attribute in [update_user_session_data]. *)
Definition note_session_attr (us : radius_user_session_t) (a : radius_attribute_t)
    : outcome radius_user_session_t :=
  let t := a.(att_type) in
  if t =? RADIUS_ATTR_NASPORT then
    v ← read_le 4 a.(att_val);
    Ok (Mkradius_user_session_t us.(us_session_id) us.(us_current) (ntohl v)
          us.(us_octets_received) us.(us_octets_sent) us.(us_nasidentifier) us.(us_nas_ip)
          us.(us_nas_ip_family) us.(us_parent))
  else if t =? RADIUS_ATTR_NASIDENTIFIER then
    match us.(us_nasidentifier) with
    | Some _ => Ok us
    | None =>
        nasid ← nasid_to_string a;
        Ok (Mkradius_user_session_t us.(us_session_id) us.(us_current) us.(us_nas_port)
              us.(us_octets_received) us.(us_octets_sent) (Some (until_nul nasid)) us.(us_nas_ip)
              us.(us_nas_ip_family) us.(us_parent))
    end
  else if t =? RADIUS_ATTR_NASIP then
    match us.(us_nas_ip) with
    | Some _ => Ok us
    | None =>
        ip ← read_bytes 4 a.(att_val);
        Ok (Mkradius_user_session_t us.(us_session_id) us.(us_current) us.(us_nas_port)
              us.(us_octets_received) us.(us_octets_sent) us.(us_nasidentifier) (Some ip)
              AF_INET us.(us_parent))
    end
  else if t =? RADIUS_ATTR_ACCT_INOCTETS then
    v ← read_le 4 a.(att_val);
    Ok (Mkradius_user_session_t us.(us_session_id) us.(us_current) us.(us_nas_port)
          (ntohl v) us.(us_octets_sent) us.(us_nasidentifier) us.(us_nas_ip)
          us.(us_nas_ip_family) us.(us_parent))
  else if t =? RADIUS_ATTR_ACCT_OUTOCTETS then
    v ← read_le 4 a.(att_val);
    Ok (Mkradius_user_session_t us.(us_session_id) us.(us_current) us.(us_nas_port)
          us.(us_octets_received) (ntohl v) us.(us_nasidentifier) us.(us_nas_ip)
          us.(us_nas_ip_family) us.(us_parent))
  else Ok us.

(** [update_user_session_data] *)
Fixpoint update_user_session_data (l : list radius_attribute_t) (us : radius_user_session_t)
    : outcome radius_user_session_t :=
  match l with
  | [] => Ok us
  | a :: l => us ← note_session_attr us a; update_user_session_data l us
  end.

(** ** Addresses *)

(** The loop of [extract_assigned_ip_address]; a prefix ends it. *)
Fixpoint extract_ips (l : list radius_attribute_t) (sess : access_session_t)
    : outcome access_session_t :=
  match l with
  | [] => Ok sess
  | a :: l =>
      sess ← (if a.(att_type) =? RADIUS_ATTR_FRAMED_IP_ADDRESS
              then add_new_session_ip a.(att_val) AF_INET 32 a.(att_len) sess else Ok sess);
      sess ← (if a.(att_type) =? RADIUS_ATTR_FRAMED_IPV6_ADDRESS
              then add_new_session_ip a.(att_val) AF_INET6 128 a.(att_len) sess else Ok sess);
      if (a.(att_type) =? RADIUS_ATTR_DELEGATED_IPV6_PREFIX) ||
         (a.(att_type) =? RADIUS_ATTR_FRAMED_IPV6_PREFIX) then
        preflength ← read_le 1 (zdrop 1 a.(att_val));
        add_new_session_ip (zdrop 2 a.(att_val)) AF_INET6 preflength (a.(att_len) - 2) sess
      else extract_ips l sess
  end.

(** [extract_assigned_ip_address] *)
Definition extract_assigned_ip_address (rd : radius_parsed_t) (attrlist : list radius_attribute_t)
    (sess : access_session_t) : outcome access_session_t :=
  if rd.(rd_muser_count) =? 0 then Ok sess else extract_ips attrlist sess.

(** [update_first_action] *)
Definition update_first_action (g : radius_global_t) (rd : radius_parsed_t)
    (sess : access_session_t) : outcome (radius_parsed_t * access_session_t) :=
  match rd.(rd_firstaction) with
  | ACCESS_ACTION_ACCEPT =>
      sess ← extract_assigned_ip_address rd rd.(rd_attrs) (set_as_started rd.(rd_tvsec) sess);
      Ok (set_rd_firstattrs rd.(rd_attrs) rd, sess)
  | ACCESS_ACTION_ALREADY_ACTIVE =>
      p ← deref rd.(rd_savedreq);
      req ← get_req p g;
      sess ← extract_assigned_ip_address rd req.(rq_attrs) sess;
      Ok (set_rd_firstattrs req.(rq_attrs) rd, set_as_started req.(rq_tvsec) sess)
  | ACCESS_ACTION_ATTEMPT =>
      sess ← (if rd.(rd_msgtype) =? RADIUS_CODE_ACCOUNT_REQUEST then
                sess ← extract_assigned_ip_address rd rd.(rd_attrs) sess;
                Ok (set_as_started rd.(rd_tvsec) sess)
              else Ok sess);
      Ok (set_rd_firstattrs rd.(rd_attrs) rd, sess)
  | ACCESS_ACTION_INTERIM_UPDATE =>
      p ← deref rd.(rd_savedreq);
      req ← get_req p g;
      sess ← (if (rd.(rd_msgtype) =? RADIUS_CODE_ACCOUNT_RESPONSE) &&
                 (rd.(rd_accttype) =? RADIUS_ACCT_START) && (sess.(as_sessipcount) =? 0)
              then extract_assigned_ip_address rd req.(rq_attrs) sess else Ok sess);
      Ok (set_rd_firstattrs req.(rq_attrs) rd, sess)
  | ACCESS_ACTION_END =>
      p ← deref rd.(rd_savedreq);
      req ← get_req p g;
      Ok (set_rd_firstattrs req.(rq_attrs) rd, sess)
  | _ => Ok (set_rd_firstattrs [] rd, sess)
  end.

(** [update_second_action] *)
Definition update_second_action (rd : radius_parsed_t) (sess : access_session_t)
    : outcome (radius_parsed_t * access_session_t) :=
  match rd.(rd_secondaction) with
  | ACCESS_ACTION_ACCEPT | ACCESS_ACTION_ALREADY_ACTIVE =>
      resp ← deref rd.(rd_savedresp);
      if bool_decide (rd.(rd_secondaction) = ACCESS_ACTION_ACCEPT) &&
         (resp.(or_resptype) =? RADIUS_CODE_ACCESS_ACCEPT) then
        sess ← extract_assigned_ip_address rd resp.(or_savedattrs) sess;
        Ok (set_rd_secondattrs resp.(or_savedattrs) rd, set_as_started resp.(or_tvsec) sess)
      else if resp.(or_resptype) =? RADIUS_CODE_ACCOUNT_RESPONSE then
        sess ← extract_assigned_ip_address rd rd.(rd_attrs) sess;
        Ok (set_rd_secondattrs rd.(rd_attrs) rd, set_as_started resp.(or_tvsec) sess)
      else if bool_decide (rd.(rd_secondaction) = ACCESS_ACTION_ALREADY_ACTIVE)
      then Ok (set_rd_secondattrs rd.(rd_attrs) rd, sess)
      else Ok (set_rd_secondattrs [] rd, sess)
  | ACCESS_ACTION_INTERIM_UPDATE | ACCESS_ACTION_END =>
      Ok (set_rd_secondattrs rd.(rd_attrs) rd, sess)
  | _ => Ok (set_rd_secondattrs [] rd, sess)
  end.

(** ** The whole update *)

(** The plugin's record of the session, created if there is none. *)
Definition find_or_create_usess (raduser : Z) (u : radius_user_t) (acctsess : Z)
    (sess : access_session_t) (g : radius_global_t)
    : outcome (Z * radius_user_session_t * access_session_t * radius_global_t) :=
  match u.(ru_sessions) !! acctsess with
  | Some sp => us ← get_usess sp g; Ok (sp, us, sess, g)
  | None =>
      let sp := g.(rg_next) in
      let us := Mkradius_user_session_t acctsess SESSION_STATE_NEW 0 0 0 None None 0 (Some raduser) in
      Ok (sp, us, set_as_statedata (Some sp) sess,
          put_user raduser (set_ru_sessions (<[acctsess := sp]> u.(ru_sessions)) u)
            (put_usess sp us (set_rg_next (sp + 1) g)))
  end.

(** The two runs of the state machine, for the packet and for an orphaned response
    that was paired with it. *)
Definition run_fsm (rd : radius_parsed_t) (us : radius_user_session_t)
    : radius_parsed_t * radius_user_session_t :=
  let '(st, action) := apply_fsm_logic us.(us_current) rd.(rd_msgtype) rd.(rd_accttype) in
  let rd := set_rd_firstaction action rd in
  match rd.(rd_savedresp) with
  | None => (rd, set_us_current st us)
  | Some resp =>
      let '(st, action) := apply_fsm_logic st resp.(or_resptype) rd.(rd_accttype) in
      (set_rd_secondaction action rd, set_us_current st us)
  end.

(** The action reported to the caller; a second action alone becomes the first. *)
Definition report_action (rd : radius_parsed_t) : access_action_t * radius_parsed_t :=
  if negb (bool_decide (rd.(rd_firstaction) = ACCESS_ACTION_NONE)) then (rd.(rd_firstaction), rd)
  else if negb (bool_decide (rd.(rd_secondaction) = ACCESS_ACTION_NONE)) then
    (rd.(rd_secondaction),
     set_rd_secondattrs [] (set_rd_firstattrs rd.(rd_secondattrs)
       (set_rd_secondaction ACCESS_ACTION_NONE (set_rd_firstaction rd.(rd_secondaction) rd))))
  else (ACCESS_ACTION_NONE, rd).

(** What [radius_update_session_state] answers. *)
Record session_update : Type := Mksession_update {
  su_sess : Z;
  su_oldstate : session_state_t;
  su_newstate : session_state_t;
  su_action : access_action_t;
}.

(** [radius_update_session_state]; [None] is a NULL result. *)
Definition radius_update_session_state (now : Z) (raduser : option Z) (sesslist : list Z)
    (ss : session_store) (g : radius_global_t)
    : outcome (option session_update * list Z * session_store * radius_global_t) :=
  match raduser with
  | None => Ok (None, sesslist, ss, g)
  | Some user =>
      if g.(rg_parsedpkt).(rd_muser_count) =? 0 then Ok (None, sesslist, ss, g)
      else
        u ← get_user user g;
        '(p, sesslist, ss) ← find_or_create_session now u g.(rg_parsedpkt) sesslist ss;
        g ← (if is_request g.(rg_parsedpkt).(rd_msgtype) then save_request g else Ok g);
        u ← get_user user g;
        sess ← get_session p ss;
        '(sp, us, sess, g) ← find_or_create_usess user u g.(rg_parsedpkt).(rd_acctsess) sess g;
        let oldstate := us.(us_current) in
        let '(rd, us) := run_fsm g.(rg_parsedpkt) us in
        us ← update_user_session_data rd.(rd_attrs) us;
        '(rd, sess) ← update_first_action g rd sess;
        '(rd, sess) ← update_second_action rd sess;
        let us := if (sess.(as_sessipcount) =? 0) &&
                     bool_decide (us.(us_current) = SESSION_STATE_ACTIVE)
                  then set_us_current SESSION_STATE_ACTIVE_NO_IP us else us in
        let '(action, rd) := report_action rd in
        Ok (Some (Mksession_update p oldstate us.(us_current) action), sesslist,
            put_session p sess ss, set_rg_parsedpkt rd (put_usess sp us g))
  end.
