(* ===== verification/RadiusParse.v ===== *)
(** * Theorems about parsing RADIUS packets

    Whatever arrives is parsed without leaving the packet or an attribute's buffer,
    and the loop ends; well-formed attributes are all found.  The buffers of
    attributes that are used again are big enough for their new value. *)

From stdpp Require Import gmap.
From S2P Require Import Prelude ByteOrder Publish AccessSession Radius.

(** ** Attributes *)

(** An attribute fits in its buffer, and the buffer has room for any fixed-size
    value. *)
Definition attr_ok (a : radius_attribute_t) : Prop :=
  0 ≤ a.(att_len) < 256 ∧ a.(att_len) ≤ zlen a.(att_val) ∧
  STANDARD_ATTR_ALLOC ≤ zlen a.(att_val) ∧ all_bytes a.(att_val).

(** What the attribute says. *)
Definition attr_view (a : radius_attribute_t) : Z * bytes :=
  (a.(att_type), ztake a.(att_len) a.(att_val)).

Lemma all_bytes_replicate n : all_bytes (replicate n 0).
Proof. apply Forall_replicate. unfold is_byte. lia. Qed.

Lemma attr_buffer_ok old len :
  0 ≤ len < 256 →
  (∀ buf, old = Some buf → STANDARD_ATTR_ALLOC ≤ zlen buf ∧ all_bytes buf) →
  len ≤ zlen (attr_buffer old len) ∧ STANDARD_ATTR_ALLOC ≤ zlen (attr_buffer old len) ∧
  all_bytes (attr_buffer old len).
Proof.
  intros Hlen Hold. unfold attr_buffer, STANDARD_ATTR_ALLOC in *.
  destruct old as [buf|]; destruct (Z.ltb_spec 64 len) as [H|H].
  - rewrite zlen_resize by lia. split_and!; [lia..|].
    apply Forall_resize; [unfold is_byte; lia|]. by apply (Hold buf).
  - destruct (Hold buf) as [H1 H2]; [done|]. split_and!; [lia|done|done].
  - rewrite zlen_replicate by lia. split_and!; [lia..|apply all_bytes_replicate].
  - rewrite zlen_replicate by lia. split_and!; [lia..|apply all_bytes_replicate].
Qed.

(** Two states of the plugin that differ in the packet, the free attributes and the
    next address only. *)
Definition same_tables (g g' : radius_global_t) : Prop :=
  g'.(rg_freeaccreqs) = g.(rg_freeaccreqs) ∧ g'.(rg_server_map) = g.(rg_server_map) ∧
  g'.(rg_nases) = g.(rg_nases) ∧ g'.(rg_users) = g.(rg_users) ∧
  g'.(rg_sessions) = g.(rg_sessions) ∧ g'.(rg_reqs) = g.(rg_reqs).

#[global] Instance same_tables_preorder : PreOrder same_tables.
Proof.
  split.
  - by intros g.
  - intros g1 g2 g3 (? & ? & ? & ? & ? & ?) (? & ? & ? & ? & ? & ?). split_and!; congruence.
Qed.

Lemma create_new_attribute_ok type len mem g :
  2 ≤ len < 256 → all_bytes mem → len - 2 ≤ zlen mem → Forall attr_ok g.(rg_freeattrs) →
  ∃ a g', create_new_attribute type len (Some mem) false g = Ok (a, g') ∧
    attr_ok a ∧ attr_view a = (type, ztake (len - 2) mem) ∧ a.(att_len) = len - 2 ∧
    Forall attr_ok g'.(rg_freeattrs) ∧ g'.(rg_parsedpkt) = g.(rg_parsedpkt) ∧
    same_tables g g'.
Proof.
  intros Hlen Hmem Hz Hfree. unfold create_new_attribute.
  assert (Hu : u8 (len - 2) = len - 2) by (apply Z.mod_small; lia). rewrite Hu.
  assert (Hgen : ∀ addr old g', Forall attr_ok g'.(rg_freeattrs) →
    g'.(rg_parsedpkt) = g.(rg_parsedpkt) → same_tables g g' →
    (∀ buf, old = Some buf → STANDARD_ATTR_ALLOC ≤ zlen buf ∧ all_bytes buf) →
    ∃ a g'', (v ← read_bytes (len - 2) mem;
      if decide (len - 2 ≤ zlen (attr_buffer old (len - 2)))
      then Ok (Mkradius_attribute_t addr type (len - 2)
                 (v ++ zdrop (len - 2) (attr_buffer old (len - 2))), g')
      else Undef) = Ok (a, g'') ∧
    attr_ok a ∧ attr_view a = (type, ztake (len - 2) mem) ∧ a.(att_len) = len - 2 ∧
    Forall attr_ok g''.(rg_freeattrs) ∧ g''.(rg_parsedpkt) = g.(rg_parsedpkt) ∧
    same_tables g g'').
  { intros addr old g' Hf Hp Hs Hold.
    destruct (attr_buffer_ok old (len - 2)) as (Hb1 & Hb2 & Hb3); [lia|done|].
    rewrite read_bytes_Ok by done. run_outcome. rewrite decide_True by done.
    eexists _, _. split; [done|]. unfold attr_ok, attr_view. cbn [att_len att_val att_type].
    rewrite zlen_app, zlen_ztake, zlen_zdrop by lia.
    split_and!; [lia|lia|lia|lia| | |done|done|done|by apply Hs..].
    - apply Forall_app. split; [by apply Forall_take|by apply Forall_drop].
    - rewrite ztake_app by (by rewrite zlen_ztake by lia). done. }
  destruct g.(rg_freeattrs) as [|a l] eqn:El.
  - apply Hgen; [simpl; by rewrite El|done|done|done].
  - inversion Hfree as [|? ? Ha Hl]; subst. apply Hgen; [done|done|done|].
    intros ? [= <-]. by destruct Ha as (_ & _ & ? & ?).
Qed.

Lemma read_le_attr n a : attr_ok a → (n ≤ 64)%nat → ∃ v, read_le n a.(att_val) = Ok v.
Proof.
  intros (_ & _ & H & _) Hn. apply read_le_Ok. unfold STANDARD_ATTR_ALLOC in H. lia.
Qed.

Lemma note_attribute_ok a rd :
  attr_ok a → ∃ rd', note_attribute a rd = Ok rd' ∧ rd'.(rd_attrs) = rd.(rd_attrs) ∧
    rd'.(rd_msgtype) = rd.(rd_msgtype) ∧ rd'.(rd_matchednas) = rd.(rd_matchednas).
Proof.
  intros Ha. unfold note_attribute. destruct (read_le_attr 4 a Ha) as [v Hv]; [lia|].
  rewrite Hv. destruct (att_type a =? RADIUS_ATTR_ACCT_STATUS_TYPE); run_outcome;
    destruct (att_type a =? RADIUS_ATTR_ACCT_SESSION_ID); eauto.
Qed.

Lemma add_attribute_ok type len mem g :
  2 ≤ len < 256 → all_bytes mem → len - 2 ≤ zlen mem → Forall attr_ok g.(rg_freeattrs) →
  ∃ a g', add_attribute type len mem g = Ok g' ∧
    attr_ok a ∧ attr_view a = (type, ztake (len - 2) mem) ∧
    Forall attr_ok g'.(rg_freeattrs) ∧
    g'.(rg_parsedpkt).(rd_attrs) = a :: g.(rg_parsedpkt).(rd_attrs) ∧
    g'.(rg_parsedpkt).(rd_msgtype) = g.(rg_parsedpkt).(rd_msgtype) ∧
    g'.(rg_parsedpkt).(rd_matchednas) = g.(rg_parsedpkt).(rd_matchednas) ∧
    same_tables g g'.
Proof.
  intros Hlen Hmem Hz Hfree.
  destruct (create_new_attribute_ok type len mem g) as (a & g' & E & Ha & Hv & _ & Hf & Hp & Hs);
    [done..|].
  unfold add_attribute. rewrite E. run_outcome. rewrite Hp.
  destruct (note_attribute_ok a (set_rd_attrs (a :: g.(rg_parsedpkt).(rd_attrs))
              g.(rg_parsedpkt)) Ha) as (rd & E2 & H1 & H2 & H3).
  rewrite E2. run_outcome. by eexists a, _.
Qed.

(** ** The loop *)

(** The attributes at the start of a block of bytes, as RFC 2865 lays them out: type,
    length of the whole attribute, value; [None] once the loop stops. *)
Definition next_attribute (mem : bytes) : option (Z * bytes * bytes) :=
  match mem with
  | t :: l :: mem' =>
      if (0 <? zlen mem') && (2 <? l) && (l <=? zlen mem)
      then Some (t, ztake (l - 2) mem', zdrop (l - 2) mem') else None
  | _ => None
  end.

Fixpoint attributes_of (fuel : nat) (mem : bytes) : list (Z * bytes) :=
  match fuel with
  | O => []
  | S fuel => match next_attribute mem with
              | Some (t, v, mem) => (t, v) :: attributes_of fuel mem
              | None => []
              end
  end.

Lemma next_attribute_shorter mem t v mem' :
  next_attribute mem = Some (t, v, mem') → (length mem' < length mem)%nat.
Proof.
  unfold next_attribute. intros H. repeat case_match; simplify_eq.
  unfold zdrop. rewrite length_drop. simpl. lia.
Qed.

(** Enough fuel is enough. *)
Lemma attributes_of_fuel n m mem :
  (length mem < n)%nat → (length mem < m)%nat → attributes_of n mem = attributes_of m mem.
Proof.
  revert m mem. induction n as [|n IH]; intros m mem Hn Hm; [lia|].
  destruct m as [|m]; [lia|]. simpl.
  destruct (next_attribute mem) as [[[t v] mem']|] eqn:E; [|done].
  apply next_attribute_shorter in E. f_equal. apply IH; lia.
Qed.

(** What the parser keeps of them. *)
Definition interesting (l : list (Z * bytes)) : list (Z * bytes) :=
  filter (λ av, interesting_attribute av.1 = true) l.

Lemma parse_attributes_ok fuel mem g :
  (length mem < fuel)%nat → all_bytes mem →
  Forall attr_ok g.(rg_freeattrs) → Forall attr_ok g.(rg_parsedpkt).(rd_attrs) →
  ∃ g', parse_attributes fuel (zlen mem) mem g = Ok g' ∧
    Forall attr_ok g'.(rg_freeattrs) ∧ Forall attr_ok g'.(rg_parsedpkt).(rd_attrs) ∧
    attr_view <$> g'.(rg_parsedpkt).(rd_attrs) =
      reverse (interesting (attributes_of fuel mem)) ++ (attr_view <$> g.(rg_parsedpkt).(rd_attrs)) ∧
    g'.(rg_parsedpkt).(rd_msgtype) = g.(rg_parsedpkt).(rd_msgtype) ∧
    g'.(rg_parsedpkt).(rd_matchednas) = g.(rg_parsedpkt).(rd_matchednas) ∧
    same_tables g g'.
Proof.
  revert mem g. induction fuel as [|fuel IH]; intros mem g Hfuel Hmem Hfree Hattrs; [lia|].
  cbn [parse_attributes attributes_of].
  assert (Hstop : next_attribute mem = None → ∃ g', Ok g = Ok g' ∧
    Forall attr_ok g'.(rg_freeattrs) ∧ Forall attr_ok g'.(rg_parsedpkt).(rd_attrs) ∧
    attr_view <$> g'.(rg_parsedpkt).(rd_attrs) =
      reverse (interesting (match next_attribute mem with
                            | Some (t, v, mem) => (t, v) :: attributes_of fuel mem
                            | None => [] end)) ++ (attr_view <$> g.(rg_parsedpkt).(rd_attrs)) ∧
    g'.(rg_parsedpkt).(rd_msgtype) = g.(rg_parsedpkt).(rd_msgtype) ∧
    g'.(rg_parsedpkt).(rd_matchednas) = g.(rg_parsedpkt).(rd_matchednas) ∧
    same_tables g g') by (intros ->; by exists g).
  destruct (Z.leb_spec (zlen mem) 2) as [H2|H2].
  { apply Hstop. destruct mem as [|t [|l [|x mem]]]; [done..|]. zlia. }
  destruct mem as [|t [|l mem]]; [zlia..|].
  inversion Hmem as [|? ? Ht Hmem1]; subst. inversion Hmem1 as [|? ? Hl Hmem2]; subst.
  unfold is_byte in Ht, Hl. autorewrite with zlen in *.
  change (zdrop 1 (t :: l :: mem)) with (l :: mem).
  change (zdrop 2 (t :: l :: mem)) with mem.
  rewrite !read_le_1. run_outcome. unfold next_attribute in *. autorewrite with zlen in *.
  rewrite (proj2 (Z.ltb_lt 0 (zlen mem))) in * by lia. cbn [andb] in *.
  destruct (Z.leb_spec l 2) as [Hl2|Hl2].
  { apply Hstop. by rewrite (proj2 (Z.ltb_ge 2 l)) by lia. }
  rewrite (proj2 (Z.ltb_lt 2 l)) in * by lia. cbn [andb] in *.
  destruct (Z.ltb_spec (1 + (1 + zlen mem)) l) as [Hlm|Hlm].
  { apply Hstop. by rewrite (proj2 (Z.leb_gt l (1 + (1 + zlen mem)))) by lia. }
  rewrite (proj2 (Z.leb_le l (1 + (1 + zlen mem)))) in * by lia. clear Hstop.
  assert (Hrest : zdrop l (t :: l :: mem) = zdrop (l - 2) mem).
  { unfold zdrop. replace (Z.to_nat l) with (S (S (Z.to_nat (l - 2)))) by lia. done. }
  assert (Hrem : 1 + (1 + zlen mem) - l = zlen (zdrop (l - 2) mem)) by (rewrite zlen_zdrop; lia).
  rewrite Hrest, Hrem. unfold interesting. rewrite filter_cons. cbn [fst].
  assert (Hshort : (length (zdrop (l - 2) mem) < fuel)%nat).
  { unfold zdrop. rewrite length_drop. simpl in Hfuel. lia. }
  destruct (interesting_attribute t) eqn:Ei.
  - destruct (add_attribute_ok t l mem g) as (a & g1 & E & Ha & Hv & Hf & Hat & Hm & Hn & Hs);
      [lia|done|lia|done|].
    rewrite E. run_outcome. rewrite decide_True by done.
    destruct (IH (zdrop (l - 2) mem) g1) as (g2 & E2 & H1 & H3 & H4 & H5 & H6 & H7);
      [done|by apply Forall_drop|done|rewrite Hat; by constructor|].
    exists g2. split; [done|]. do 2 (split; [done|]).
    split_and!; [|by rewrite H5|by rewrite H6|by etrans].
    rewrite H4, Hat, reverse_cons, <- app_assoc. cbn [fmap list_fmap app]. by rewrite Hv.
  - run_outcome. rewrite decide_False by done.
    destruct (IH (zdrop (l - 2) mem) g) as (g2 & E2 & H); [done|by apply Forall_drop|done..|].
    by exists g2.
Qed.

(** ** The whole packet *)

(** Between packets: all buffers are good, and what the last packet holds on to is
    still there. *)
Definition plugin_ok (g : radius_global_t) : Prop :=
  let rd := g.(rg_parsedpkt) in
  Forall attr_ok g.(rg_freeattrs) ∧ Forall attr_ok rd.(rd_attrs) ∧
  (rd.(rd_msgtype) = 0 → rd.(rd_attrs) = []) ∧
  (∀ p, rd.(rd_savedreq) = Some p →
     ∃ r, g.(rg_reqs) !! p = Some r ∧ Forall attr_ok r.(rq_attrs)) ∧
  (∀ o, rd.(rd_savedresp) = Some o → Forall attr_ok o.(or_savedattrs)).

Lemma release_list_ok l k :
  Forall attr_ok l → Forall attr_ok k → Forall attr_ok (release_attribute_list l k).
Proof. intros. apply Forall_app. split; [by apply Forall_reverse|done]. Qed.
#[local] Hint Resolve release_list_ok : core.

Lemma radius_destroy_parsed_data_ok g :
  plugin_ok g →
  ∃ g', radius_destroy_parsed_data g = Ok g' ∧ Forall attr_ok g'.(rg_freeattrs) ∧
    g'.(rg_parsedpkt) = reset_parsed_packet.
Proof.
  intros (Hf & Ha & _ & Hq & Ho). unfold radius_destroy_parsed_data. cbv zeta.
  set (g1 := if releases_attrs _ then _ else g).
  assert (H1 : Forall attr_ok g1.(rg_freeattrs) ∧ g1.(rg_reqs) = g.(rg_reqs)).
  { subst g1. destruct (releases_attrs _); simpl; auto. }
  destruct H1 as [Hf1 Hr1]. unfold get_req. rewrite Hr1.
  destruct (rd_savedreq _) as [p|].
  - destruct (Hq p eq_refl) as (r & E & Hr). rewrite E. run_outcome. eexists. split; [done|].
    destruct (rd_savedresp _) as [o|]; simpl; auto.
  - run_outcome. eexists. split; [done|]. destruct (rd_savedresp _) as [o|]; simpl; auto.
Qed.

(** libtrace only reports a transport header it has seen the whole IP header of. *)
Definition packet_ok (pkt : radius_packet) : Prop :=
  (∀ addr payload, pkt.(pk_udp_payload) = Some (addr, payload) → all_bytes payload) ∧
  (∀ l3, pkt.(pk_layer3) = Some (0x86DD, l3) → 40 ≤ zlen l3).

Lemma get_udp_payload_ok pkt :
  ∃ o s d, get_udp_payload pkt = Ok (o, s, d) ∧ (o = None ∨ o = pkt.(pk_udp_payload)).
Proof.
  unfold get_udp_payload. destruct (pk_transport pkt) as [[proto udp]|]; [|by eauto 10].
  destruct (Z.ltb_spec (zlen udp) 8); [by eauto 10|].
  destruct (negb _); [by eauto 10|].
  destruct (read_le_Ok 2 udp) as [s Es]; [lia|].
  destruct (read_le_Ok 2 (zdrop 2 udp)) as [d Ed]; [rewrite zlen_zdrop; lia|].
  rewrite Es, Ed. run_outcome. by eauto 10.
Qed.

Lemma grab_nas_details_ok pkt code s d :
  packet_ok pkt → ∃ o, grab_nas_details_from_packet pkt code s d = Ok o.
Proof.
  intros [_ Hl3]. unfold grab_nas_details_from_packet, ip_addresses.
  destruct (pk_layer3 pkt) as [[et l3]|]; [|by eauto].
  destruct (Z.ltb_spec (zlen l3) 20); [by eauto|].
  assert (H4 : ∀ n, 12 ≤ n ≤ 16 → read_bytes 4 (zdrop n l3) = Ok (ztake 4 (zdrop n l3))).
  { intros. apply read_bytes_Ok. rewrite zlen_zdrop by lia. lia. }
  destruct (Z.eqb_spec et 0x0800).
  { rewrite !H4 by lia. run_outcome. repeat case_match; eauto. }
  destruct (Z.eqb_spec et 0x86DD) as [->|].
  - specialize (Hl3 l3 eq_refl).
    rewrite !read_bytes_Ok by (rewrite zlen_zdrop by lia; lia).
    run_outcome. repeat case_match; eauto.
  - run_outcome. repeat case_match; eauto.
Qed.

Lemma update_known_servers_pkt g :
  (update_known_servers g).(rg_freeattrs) = g.(rg_freeattrs) ∧
  (update_known_servers g).(rg_parsedpkt).(rd_attrs) = g.(rg_parsedpkt).(rd_attrs) ∧
  (update_known_servers g).(rg_parsedpkt).(rd_msgtype) = g.(rg_parsedpkt).(rd_msgtype).
Proof. unfold update_known_servers. by repeat case_match. Qed.

(** The attributes of a RADIUS message: everything after the 20 bytes of the header. *)
Definition payload_attributes (payload : bytes) : list (Z * bytes) :=
  attributes_of (S (length payload)) (zdrop 20 payload).

(** What a parsed packet looks like. *)
Definition parse_result (payload : bytes) (r : option unit) (g : radius_global_t) : Prop :=
  Forall attr_ok g.(rg_freeattrs) ∧ Forall attr_ok g.(rg_parsedpkt).(rd_attrs) ∧
  (r = Some tt → attr_view <$> g.(rg_parsedpkt).(rd_attrs) =
                 reverse (interesting (payload_attributes payload))).

Lemma parse_message_ok pkt addr radstart s d g :
  packet_ok pkt → all_bytes radstart → 20 ≤ zlen radstart →
  Forall attr_ok g.(rg_freeattrs) → g.(rg_parsedpkt).(rd_attrs) = [] →
  ∃ r g', parse_message pkt addr radstart s d g = Ok (r, g') ∧ parse_result radstart r g' ∧
    (∀ code x, read_le 1 radstart = Ok code →
       grab_nas_details_from_packet pkt code s d = Ok (Some x) → r = Some tt).
Proof.
  intros Hp Hb H20 Hf Ha. unfold parse_message.
  destruct (read_le_Ok 1 radstart) as [code Ec]; [lia|].
  destruct (read_le_Ok 1 (zdrop 1 radstart)) as [ident Ei]; [rewrite zlen_zdrop; lia|].
  rewrite Ec, Ei. run_outcome. cbv zeta.
  destruct (grab_nas_details_ok pkt code s d Hp) as [[[[nasip radiusip] port]|] Eg];
    rewrite Eg; run_outcome.
  - match goal with |- context [update_known_servers ?x] => set (g1 := x) end.
    destruct (update_known_servers_pkt g1) as (K1 & K2 & K3).
    destruct (parse_attributes_ok (S (length radstart)) (zdrop 20 radstart)
                (update_known_servers g1)) as (g2 & E2 & H1 & H2 & H3 & _).
    + unfold zdrop. rewrite length_drop. lia.
    + by apply Forall_drop.
    + by rewrite K1.
    + rewrite K2. simpl. by rewrite Ha.
    + rewrite zlen_zdrop in E2 by lia. rewrite E2. run_outcome.
      exists (Some tt), g2. split; [done|]. split; [|done]. split; [done|]. split; [done|].
      intros _. rewrite H3, K2. simpl. by rewrite Ha, app_nil_r.
  - eexists None, _. split; [done|]. split; [split; [done|split; [simpl; by rewrite Ha|done]]|].
    intros code' x ? ?. congruence.
Qed.

(** The packet left by the last call is given back. *)
Lemma previous_packet_ok g :
  plugin_ok g →
  ∃ g0, (if negb (g.(rg_parsedpkt).(rd_msgtype) =? 0)
         then radius_destroy_parsed_data g else Ok g) = Ok g0 ∧
    Forall attr_ok g0.(rg_freeattrs) ∧ g0.(rg_parsedpkt).(rd_attrs) = [].
Proof.
  intros Hg. destruct (Z.eqb_spec g.(rg_parsedpkt).(rd_msgtype) 0) as [E|E]; cbn [negb].
  - exists g. split; [done|]. split; [apply Hg|]. by apply Hg.
  - destruct (radius_destroy_parsed_data_ok g Hg) as (g0 & E0 & Hf & Hr).
    exists g0. split; [done|]. split; [done|]. by rewrite Hr.
Qed.

(** C22: whatever a packet holds, [radius_parse_packet] returns: the loop over the
    attributes ends after at most one turn per byte, no byte outside the packet or an
    attribute's buffer is touched, and the buffers in the free list stay usable.  When
    it accepts the packet, the attributes it keeps are exactly the known ones among
    those RFC 2865 finds, last one first. *)
Theorem radius_parse_packet_total (pkt : radius_packet) (g : radius_global_t) :
  plugin_ok g → packet_ok pkt →
  ∃ r g', radius_parse_packet pkt g = Ok (r, g') ∧
    Forall attr_ok g'.(rg_freeattrs) ∧ Forall attr_ok g'.(rg_parsedpkt).(rd_attrs) ∧
    (r = Some tt → ∃ addr payload, pkt.(pk_udp_payload) = Some (addr, payload) ∧
      attr_view <$> g'.(rg_parsedpkt).(rd_attrs) =
        reverse (interesting (payload_attributes payload))).
Proof.
  intros Hg Hp. unfold radius_parse_packet.
  destruct (previous_packet_ok g Hg) as (g0 & E0 & Hf0 & Ha0). rewrite E0. run_outcome.
  destruct (get_udp_payload_ok pkt) as (o & s & d & Eu & Ho). rewrite Eu. run_outcome.
  destruct o as [[addr radstart]|]; [destruct Ho as [?|Ho]; [done|]|].
  2: { exists None, g0. split; [done|]. split; [done|]. by rewrite Ha0. }
  destruct (Z.ltb_spec (zlen radstart) 20).
  { exists None, g0. split; [done|]. split; [done|]. by rewrite Ha0. }
  destruct (parse_message_ok pkt addr radstart s d g0) as (r & g' & E & (H1 & H2 & H3) & _);
    [done| |done..|].
  { by apply (proj1 Hp addr). }
  exists r, g'. split; [done|]. do 2 (split; [done|]). intros Hr. exists addr, radstart. auto.
Qed.

(** ** Round trip *)

Definition encode_attributes (l : list (Z * bytes)) : bytes :=
  concat ((λ av, av.1 :: zlen av.2 + 2 :: av.2) <$> l).

Definition encodable (av : Z * bytes) : Prop :=
  is_byte av.1 ∧ 1 ≤ zlen av.2 ≤ 253 ∧ all_bytes av.2.

Lemma attributes_of_encode l fuel :
  Forall encodable l → (length (encode_attributes l) < fuel)%nat →
  attributes_of fuel (encode_attributes l) = l.
Proof.
  intros Hl. revert fuel. induction Hl as [|[t v] l (Ht & Hv & Hb) Hl IH]; intros fuel Hfuel.
  { by destruct fuel. }
  destruct fuel as [|fuel]; [lia|]. unfold encode_attributes in *.
  cbn [fmap list_fmap concat fst snd app] in *. cbn [attributes_of next_attribute].
  autorewrite with zlen in *. zlen_pose.
  rewrite (proj2 (Z.ltb_lt 0 _)), (proj2 (Z.ltb_lt 2 _)), (proj2 (Z.leb_le _ _)) by (cbn in *; lia).
  cbn [andb]. rewrite Z.add_simpl_r, ztake_app, zdrop_app by done.
  f_equal. apply IH. cbn [length] in Hfuel. rewrite length_app in Hfuel. lia.
Qed.

Lemma encode_attributes_bytes l : Forall encodable l → all_bytes (encode_attributes l).
Proof.
  induction 1 as [|[t v] l (Ht & Hv & Hb) Hl IH]; [constructor|].
  unfold encode_attributes. cbn [fmap list_fmap concat fst snd app] in *.
  constructor; [done|]. constructor; [unfold is_byte; cbn in *; lia|]. by apply Forall_app.
Qed.

(** A packet the parser takes: UDP over IPv4, with a code it knows. *)
Definition accepted (pkt : radius_packet) (code : Z) : Prop :=
  (is_request code || is_response code) = true ∧
  (∃ udp, pkt.(pk_transport) = Some (17, udp) ∧ 8 ≤ zlen udp) ∧
  (∃ l3, pkt.(pk_layer3) = Some (0x0800, l3) ∧ 20 ≤ zlen l3).

Lemma accepted_details pkt code s d :
  accepted pkt code → ∃ x, grab_nas_details_from_packet pkt code s d = Ok (Some x).
Proof.
  intros (Hc & _ & l3 & E & H20). unfold grab_nas_details_from_packet, ip_addresses.
  rewrite E. rewrite (proj2 (Z.ltb_ge (zlen l3) 20)) by lia.
  change (0x0800 =? 0x0800) with true. cbv iota.
  rewrite !read_bytes_Ok by (rewrite zlen_zdrop by lia; lia). run_outcome.
  destruct (is_request code); [by eauto|]. cbn [orb] in Hc. rewrite Hc. by eauto.
Qed.

(** attributes that were laid out as RFC 2865 says are found again: a packet with
    a known code, whose payload is a header and the encoding of any list of attributes
    with non-empty values, is accepted, and its attribute list is the known ones among
    them, last one first, whatever the plugin did before. *)
Theorem radius_attributes_round_trip (pkt : radius_packet) (g : radius_global_t)
    (addr code : Z) (header : bytes) (l : list (Z * bytes)) :
  plugin_ok g → all_bytes (code :: header) → zlen header = 19 → Forall encodable l →
  accepted pkt code →
  pkt.(pk_udp_payload) = Some (addr, (code :: header) ++ encode_attributes l) →
  ∃ g', radius_parse_packet pkt g = Ok (Some tt, g') ∧
    attr_view <$> g'.(rg_parsedpkt).(rd_attrs) = reverse (interesting l).
Proof.
  intros Hg Hh H19 Hl Hacc Hpay. unfold radius_parse_packet.
  assert (Hb : all_bytes ((code :: header) ++ encode_attributes l))
    by (apply Forall_app; split; [done|by apply encode_attributes_bytes]).
  assert (Hp : packet_ok pkt).
  { destruct Hacc as (_ & _ & l3 & E & _). split; intros; [congruence|rewrite E in *; done]. }
  destruct (previous_packet_ok g Hg) as (g0 & E0 & Hf0 & Ha0). rewrite E0. run_outcome.
  assert (Hu : ∃ s d, get_udp_payload pkt =
    Ok (Some (addr, (code :: header) ++ encode_attributes l), s, d)).
  { destruct Hacc as (_ & (udp & E & H8) & _). unfold get_udp_payload. rewrite E.
    rewrite (proj2 (Z.ltb_ge (zlen udp) 8)) by lia. change (negb (17 =? 17)) with false. cbv iota.
    destruct (read_le_Ok 2 udp) as [s Es]; [lia|].
    destruct (read_le_Ok 2 (zdrop 2 udp)) as [d Ed]; [rewrite zlen_zdrop; lia|].
    rewrite Es, Ed, Hpay. run_outcome. eauto. }
  destruct Hu as (s & d & Hu). rewrite Hu. run_outcome.
  rewrite (proj2 (Z.ltb_ge _ 20)) by zlia.
  destruct (parse_message_ok pkt addr ((code :: header) ++ encode_attributes l) s d g0)
    as (r & g' & E & (_ & _ & H3) & Hr); [done|done|zlia|done|done|].
  destruct (accepted_details pkt code s d Hacc) as [x Hx].
  rewrite (Hr code x (read_le_1 _ _) Hx) in *. exists g'. split; [done|]. rewrite H3 by done.
  unfold payload_attributes. rewrite zdrop_app by zlia. rewrite attributes_of_encode; [done|done|].
  rewrite length_app. lia.
Qed.

(** ** A message and an empty plugin *)

Definition empty_plugin : radius_global_t :=
  {| rg_freeattrs := []; rg_freeaccreqs := []; rg_parsedpkt := reset_parsed_packet;
     rg_server_map := ∅; rg_nases := ∅; rg_users := ∅; rg_sessions := ∅; rg_reqs := ∅;
     rg_next := 0 |}.

Lemma empty_plugin_ok : plugin_ok empty_plugin.
Proof. by split_and!. Qed.

(** A message from a NAS at 10.0.0.1, port 1557, to a server, or the answer; the
    length field of the header is not looked at. *)
Definition radius_message (server : bytes) (tvsec code ident : Z) (attrs : list (Z * bytes))
    : radius_packet :=
  let payload := (code :: ident :: replicate 18 7) ++ encode_attributes attrs in
  let '(ports, src, dst) :=
    if is_request code then ([6; 21; 7; 20], [10; 0; 0; 1], server)
    else ([7; 20; 6; 21], server, [10; 0; 0; 1]) in
  let udp := ports ++ [0; 0; 0; 0] ++ payload in
  Mkradius_packet tvsec (Some (0x0800, replicate 12 0 ++ src ++ dst ++ udp))
    (Some (17, udp)) (Some (4096, payload)).

Definition sample_attrs : list (Z * bytes) :=
  [(RADIUS_ATTR_USERNAME, of_string "alice"); (RADIUS_ATTR_NASIDENTIFIER, of_string "nas1");
   (26, [1; 2; 3]); (RADIUS_ATTR_ACCT_SESSION_ID, of_string "99")].

Definition sample_message : radius_packet :=
  radius_message [10; 0; 0; 2] 5000000 RADIUS_CODE_ACCESS_REQUEST 7 sample_attrs.

Lemma radius_parse_packet_total_witness :
  ∃ r g', radius_parse_packet sample_message empty_plugin = Ok (r, g') ∧
    Forall attr_ok g'.(rg_freeattrs) ∧ Forall attr_ok g'.(rg_parsedpkt).(rd_attrs) ∧
    (r = Some tt → ∃ addr payload, sample_message.(pk_udp_payload) = Some (addr, payload) ∧
      attr_view <$> g'.(rg_parsedpkt).(rd_attrs) =
        reverse (interesting (payload_attributes payload))).
Proof.
  apply (radius_parse_packet_total sample_message empty_plugin).
  - exact empty_plugin_ok.
  - split.
    + intros addr payload [= <- <-]. apply (bool_decide_unpack (Forall is_byte _)). by vm_compute.
    + intros l3 H. apply (f_equal (fmap fst)) in H. vm_compute in H. discriminate.
Defined.

Lemma radius_attributes_round_trip_witness :
  ∃ g', radius_parse_packet sample_message empty_plugin = Ok (Some tt, g') ∧
    attr_view <$> g'.(rg_parsedpkt).(rd_attrs) = reverse (interesting sample_attrs).
Proof.
  apply (radius_attributes_round_trip sample_message empty_plugin 4096 1 (7 :: replicate 18 7)
           sample_attrs).
  - exact empty_plugin_ok.
  - apply (bool_decide_unpack (Forall is_byte _)). by vm_compute.
  - done.
  - repeat constructor; vm_compute; congruence.
  - split; [done|]. split; eexists; (split; [reflexivity|]); vm_compute; congruence.
  - done.
Defined.

(** The state after a request was parsed and its users were looked up. *)
Definition sample_state : radius_global_t :=
  match ('(_, g) ← radius_parse_packet sample_message empty_plugin;
         '(_, g) ← radius_get_userid g; Ok g) with
  | Ok g => g
  | _ => empty_plugin
  end.
