(* ===== verification/Ipiri.v ===== *)
(** * IRIs about Internet access (src/src/collector/ipiri.c, with the parts of
      src/src/etsili_core.c it fills its records with)

    A job describes an event of a session; [prepare_ipiri_parameters] turns it into
    the parameters of the record that is sent, [ipiri_create_id_printable] makes the
    identifier of a point of presence.  Parameters are kept in a hash table by their
    number; several may have the same number, so the table is a list.  Where a
    parameter holds a structure of C its content is an [iri_value]. *)

From S2P Require Import Prelude ByteOrder AccessSession.

Definition IPIRI_CONTENTS_ACCESS_EVENT_TYPE : Z := 0.
Definition IPIRI_CONTENTS_TARGET_USERNAME : Z := 1.
Definition IPIRI_CONTENTS_INTERNET_ACCESS_TYPE : Z := 2.
Definition IPIRI_CONTENTS_IPVERSION : Z := 3.
Definition IPIRI_CONTENTS_TARGET_IPADDRESS : Z := 4.
Definition IPIRI_CONTENTS_TARGET_NETWORKID : Z := 5.
Definition IPIRI_CONTENTS_POP_PORTNUMBER : Z := 8.
Definition IPIRI_CONTENTS_STARTTIME : Z := 10.
Definition IPIRI_CONTENTS_ENDTIME : Z := 11.
Definition IPIRI_CONTENTS_ENDREASON : Z := 12.
Definition IPIRI_CONTENTS_OCTETS_RECEIVED : Z := 13.
Definition IPIRI_CONTENTS_OCTETS_TRANSMITTED : Z := 14.
Definition IPIRI_CONTENTS_POP_PHONENUMBER : Z := 17.
Definition IPIRI_CONTENTS_POP_IDENTIFIER : Z := 18.
Definition IPIRI_CONTENTS_POP_IPADDRESS : Z := 19.
Definition IPIRI_CONTENTS_ADDITIONAL_IPADDRESS : Z := 21.
Definition IPIRI_CONTENTS_OTHER_TARGET_IDENTIFIERS : Z := 23.

Definition IPIRI_ACCESS_ATTEMPT : Z := 0.
Definition IPIRI_ACCESS_ACCEPT : Z := 1.
Definition IPIRI_ACCESS_REJECT : Z := 2.
Definition IPIRI_ACCESS_FAILED : Z := 3.
Definition IPIRI_INTERIM_UPDATE : Z := 6.
Definition IPIRI_START_WHILE_ACTIVE : Z := 7.
Definition IPIRI_ACCESS_END : Z := 8.
Definition IPIRI_END_WHILE_ACTIVE : Z := 9.

Definition IPIRI_IPVERSION_4 : Z := 1.
Definition IPIRI_IPVERSION_6 : Z := 2.
Definition IPIRI_IPVERSION_4AND6 : Z := 3.

Definition IPIRI_END_REASON_UNDEFINED : Z := 0.
Definition IPIRI_END_REASON_REGULAR : Z := 1.
Definition IPIRI_END_REASON_CONNECTION_LOSS : Z := 2.
Definition IPIRI_END_REASON_CONNECTION_TIMEOUT : Z := 3.

Inductive etsili_iri_type_t : Type :=
  | ETSILI_IRI_NONE | ETSILI_IRI_BEGIN | ETSILI_IRI_END | ETSILI_IRI_CONTINUE | ETSILI_IRI_REPORT.
#[global] Instance etsili_iri_type_eq_dec : EqDecision etsili_iri_type_t.
Proof. solve_decision. Defined.

Inductive ipiri_special : Type :=
  | OPENLI_IPIRI_STANDARD | OPENLI_IPIRI_ENDWHILEACTIVE | OPENLI_IPIRI_STARTWHILEACTIVE
  | OPENLI_IPIRI_SILENTLOGOFF.

Inductive ipiri_ipmethod : Type :=
  | OPENLI_IPIRI_IPMETHOD_STATIC | OPENLI_IPIRI_IPMETHOD_DYNAMIC | OPENLI_IPIRI_IPMETHOD_UNKNOWN.

Definition ETSILI_IPADDRESS_ASSIGNED_STATIC : Z := 1.
Definition ETSILI_IPADDRESS_ASSIGNED_DYNAMIC : Z := 2.
Definition ETSILI_IPADDRESS_ASSIGNED_UNKNOWN : Z := 3.
Definition ETSILI_IPV4_SUBNET_UNKNOWN : Z := 255.

(** [iptype] is 0 for version 4 and 1 for version 6; all values are binary. *)
Record etsili_ipaddress_t : Type := Mketsili_ipaddress_t {
  ea_iptype : Z;
  ea_assignment : Z;
  ea_v4subnetmask : Z;
  ea_v6prefixlen : Z;
  ea_ipvalue : bytes;
}.

Inductive iri_value : Type :=
  | V_int (v : Z)
  | V_bytes (b : bytes)
  | V_time (usec : Z)
  | V_ipaddress (ip : etsili_ipaddress_t)
  | V_id (printable : bytes)
  | V_others (targets : list etsili_ipaddress_t).

Abbreviation etsili_generics := (list (Z * iri_value)).

(** [create_etsili_generic] and [HASH_ADD_KEYPTR]. *)
Definition add_generic (itemnum : Z) (v : iri_value) (params : etsili_generics)
    : etsili_generics := params ++ [(itemnum, v)].

(** [etsili_create_ipaddress_v4]; shifting an [int] by 32 is not defined. *)
Definition etsili_create_ipaddress_v4 (addrnum : bytes) (slashbits assigned : Z)
    : outcome etsili_ipaddress_t :=
  v ← read_bytes 4 addrnum;
  if slashbits <? 32 then
    if slashbits <? 1 then Undef
    else Ok (Mketsili_ipaddress_t 0 assigned
               (htonl (u32 (Z.lnot (Z.shiftl 1 (32 - slashbits) - 1)))) 0 v)
  else Ok (Mketsili_ipaddress_t 0 assigned 0xffffffff 0 v).

(** [etsili_create_ipaddress_v6] *)
Definition etsili_create_ipaddress_v6 (addrnum : bytes) (slashbits assigned : Z)
    : outcome etsili_ipaddress_t :=
  v ← read_bytes 16 addrnum; Ok (Mketsili_ipaddress_t 1 assigned 0 slashbits v).

(** [ipiri_create_id_printable]: [None] for -1, otherwise the string. *)
Definition ipiri_create_id_printable (idstr : bytes) (length : Z) : outcome (option bytes) :=
  if length <=? 0 then Ok None
  else
    v ← read_bytes (if 128 <? length then 128 else length) idstr; Ok (Some (until_nul v)).

(** The job that is published for an event. *)
Record openli_ipiri_job_t : Type := Mkopenli_ipiri_job_t {
  ij_liid : bytes;
  ij_cin : Z;
  ij_username : cstring;
  ij_assignedips : list internetaccess_ip_t;
  ij_ipversioning : session_ipversion_t;
  ij_sessionstartts : Z;
  ij_access_tech : Z;
  ij_special : ipiri_special;
  ij_ipassignmentmethod : ipiri_ipmethod;
  ij_iritype : etsili_iri_type_t;
  ij_customparams : etsili_generics;
}.

(** [finish_ipiri_job]: what it adds to a job before publishing it. *)
Definition finish_ipiri_job (sess : access_session_t) (job : openli_ipiri_job_t)
    : outcome openli_ipiri_job_t :=
  ips ← (if decide (sess.(as_sessipcount) ≤ zlen sess.(as_sessionips))
         then Ok (ztake sess.(as_sessipcount) sess.(as_sessionips)) else Undef);
  Ok {| ij_liid := job.(ij_liid); ij_cin := job.(ij_cin); ij_username := job.(ij_username);
        ij_assignedips := ips; ij_ipversioning := sess.(as_sessipversion);
        ij_sessionstartts := if 0 <? sess.(as_sessipcount) then sess.(as_started) else 0;
        ij_access_tech := job.(ij_access_tech); ij_special := job.(ij_special);
        ij_ipassignmentmethod := OPENLI_IPIRI_IPMETHOD_DYNAMIC;
        ij_iritype := job.(ij_iritype); ij_customparams := job.(ij_customparams) |}.

(** The event and the type of the special jobs. *)
Definition special_event (sp : ipiri_special) : option (Z * etsili_iri_type_t) :=
  match sp with
  | OPENLI_IPIRI_ENDWHILEACTIVE => Some (IPIRI_END_WHILE_ACTIVE, ETSILI_IRI_REPORT)
  | OPENLI_IPIRI_STARTWHILEACTIVE => Some (IPIRI_START_WHILE_ACTIVE, ETSILI_IRI_BEGIN)
  | OPENLI_IPIRI_SILENTLOGOFF => Some (IPIRI_ACCESS_END, ETSILI_IRI_END)
  | OPENLI_IPIRI_STANDARD => None
  end.

Definition etsi_ipmethod (m : ipiri_ipmethod) : Z :=
  match m with
  | OPENLI_IPIRI_IPMETHOD_UNKNOWN => ETSILI_IPADDRESS_ASSIGNED_UNKNOWN
  | OPENLI_IPIRI_IPMETHOD_STATIC => ETSILI_IPADDRESS_ASSIGNED_STATIC
  | OPENLI_IPIRI_IPMETHOD_DYNAMIC => ETSILI_IPADDRESS_ASSIGNED_DYNAMIC
  end.

Definition etsi_ipversion (v : session_ipversion_t) : Z :=
  match v with
  | SESSION_IP_VERSION_V4 => IPIRI_IPVERSION_4
  | SESSION_IP_VERSION_V6 => IPIRI_IPVERSION_6
  | SESSION_IP_VERSION_DUAL => IPIRI_IPVERSION_4AND6
  | SESSION_IP_VERSION_NONE => 0
  end.

(** The loop over the addresses: the parameters, whether a target address of each
    version was reported, and the others ([add_another_target_identifier], whose
    array always grows before it is full). *)
Fixpoint report_addresses (ipversion method : Z) (donev4 donev6 : bool)
    (l : list internetaccess_ip_t) (others : list etsili_ipaddress_t) (params : etsili_generics)
    : outcome (list etsili_ipaddress_t * etsili_generics) :=
  match l with
  | [] => Ok (others, params)
  | ip :: l =>
      if ip.(ip_family) =? AF_INET then
        targetip ← etsili_create_ipaddress_v4 ip.(ip_addr) ip.(ip_prefixbits) method;
        if donev4
        then report_addresses ipversion method true donev6 l (others ++ [targetip]) params
        else report_addresses ipversion method true donev6 l others
               (add_generic IPIRI_CONTENTS_TARGET_IPADDRESS (V_ipaddress targetip) params)
      else if ip.(ip_family) =? AF_INET6 then
        targetip ← etsili_create_ipaddress_v6 ip.(ip_addr) ip.(ip_prefixbits) method;
        if (ipversion =? IPIRI_IPVERSION_6) && negb donev6
        then report_addresses ipversion method donev4 true l others
               (add_generic IPIRI_CONTENTS_TARGET_IPADDRESS (V_ipaddress targetip) params)
        else if (ipversion =? IPIRI_IPVERSION_4AND6) && negb donev6
        then report_addresses ipversion method donev4 true l others
               (add_generic IPIRI_CONTENTS_ADDITIONAL_IPADDRESS (V_ipaddress targetip) params)
        else report_addresses ipversion method donev4 donev6 l (others ++ [targetip]) params
      else report_addresses ipversion method donev4 donev6 l others params
  end.

(** The part of [prepare_ipiri_parameters] for [job->ipcount > 0]. *)
Definition address_params (job : openli_ipiri_job_t) (params : etsili_generics)
    : outcome etsili_generics :=
  if 0 <? zlen job.(ij_assignedips) then
    let ipversion := etsi_ipversion job.(ij_ipversioning) in
    let params := if ipversion =? 0 then params
                  else add_generic IPIRI_CONTENTS_IPVERSION (V_int ipversion) params in
    '(others, params) ← report_addresses ipversion (etsi_ipmethod job.(ij_ipassignmentmethod))
                          false false job.(ij_assignedips) [] params;
    Ok (match others with
        | [] => params
        | _ => add_generic IPIRI_CONTENTS_OTHER_TARGET_IDENTIFIERS (V_others others) params
        end)
  else Ok params.

(** [prepare_ipiri_parameters] *)
Definition prepare_ipiri_parameters (job : openli_ipiri_job_t)
    : outcome (etsili_iri_type_t * etsili_generics) :=
  let '(iritype, params) :=
    match special_event job.(ij_special) with
    | Some (evtype, iritype) =>
        (iritype, add_generic IPIRI_CONTENTS_ACCESS_EVENT_TYPE (V_int evtype) job.(ij_customparams))
    | None => (job.(ij_iritype), job.(ij_customparams))
    end in
  let params := add_generic IPIRI_CONTENTS_INTERNET_ACCESS_TYPE (V_int job.(ij_access_tech)) params in
  let params := match job.(ij_username) with
                | Some u => add_generic IPIRI_CONTENTS_TARGET_USERNAME (V_bytes (until_nul u)) params
                | None => params
                end in
  params ← address_params job params;
  let params := if 0 <? job.(ij_sessionstartts) / 1000000
                then add_generic IPIRI_CONTENTS_STARTTIME (V_time job.(ij_sessionstartts)) params
                else params in
  Ok (iritype, params).

(** ** Every address is reported *)

(** The addresses in a parameter. *)
Definition value_ips (v : iri_value) : list etsili_ipaddress_t :=
  match v with V_ipaddress ip => [ip] | V_others l => l | _ => [] end.
Definition reported_ips (params : etsili_generics) : list etsili_ipaddress_t :=
  params ≫= λ p, value_ips p.2.

(** An address as the record shows it; an entry that was cleared has none. *)
Definition etsi_address (method : Z) (ip : internetaccess_ip_t) : option etsili_ipaddress_t :=
  if ip.(ip_family) =? AF_INET then
    Some (Mketsili_ipaddress_t 0 method
            (if ip.(ip_prefixbits) <? 32
             then htonl (u32 (Z.lnot (Z.shiftl 1 (32 - ip.(ip_prefixbits)) - 1)))
             else 0xffffffff) 0 (ztake 4 ip.(ip_addr)))
  else if ip.(ip_family) =? AF_INET6 then
    Some (Mketsili_ipaddress_t 1 method 0 ip.(ip_prefixbits) (ztake 16 ip.(ip_addr)))
  else None.

(** Addresses as sessions have them. *)
Definition ip_ok (ip : internetaccess_ip_t) : Prop :=
  (ip.(ip_family) = AF_INET → 4 ≤ zlen ip.(ip_addr) ∧ 1 ≤ ip.(ip_prefixbits)) ∧
  (ip.(ip_family) = AF_INET6 → 16 ≤ zlen ip.(ip_addr)).

Lemma reported_ips_app p q : reported_ips (p ++ q) = reported_ips p ++ reported_ips q.
Proof. unfold reported_ips. by rewrite bind_app. Qed.

Lemma reported_ips_add n v p : reported_ips (add_generic n v p) = reported_ips p ++ value_ips v.
Proof. unfold add_generic. rewrite reported_ips_app. unfold reported_ips. simpl. by rewrite app_nil_r. Qed.

Lemma create_v4_ok ip method :
  ip_ok ip → ip.(ip_family) = AF_INET →
  ∃ e, etsili_create_ipaddress_v4 ip.(ip_addr) ip.(ip_prefixbits) method = Ok e ∧
    etsi_address method ip = Some e.
Proof.
  intros [H4 _] Hf. destruct (H4 Hf) as [Hz Hp]. unfold etsili_create_ipaddress_v4, etsi_address.
  rewrite read_bytes_Ok, Hf by lia. run_outcome. change (AF_INET =? AF_INET) with true. cbv iota.
  rewrite (proj2 (Z.ltb_ge ip.(ip_prefixbits) 1)) by lia.
  destruct (ip_prefixbits ip <? 32); eauto.
Qed.

Lemma create_v6_ok ip method :
  ip_ok ip → ip.(ip_family) = AF_INET6 →
  ∃ e, etsili_create_ipaddress_v6 ip.(ip_addr) ip.(ip_prefixbits) method = Ok e ∧
    etsi_address method ip = Some e.
Proof.
  intros [_ H6] Hf. specialize (H6 Hf). unfold etsili_create_ipaddress_v6, etsi_address.
  rewrite read_bytes_Ok, Hf by lia. run_outcome. by eauto.
Qed.

(** The loop loses nothing: what was reported before, the addresses of the list and
    the others come out. *)
Lemma report_addresses_ok ipversion method donev4 donev6 l others params :
  Forall ip_ok l →
  ∃ others' params',
    report_addresses ipversion method donev4 donev6 l others params = Ok (others', params') ∧
    reported_ips params' ++ others' ≡ₚ
      reported_ips params ++ others ++ omap (etsi_address method) l.
Proof.
  intros Hl. revert donev4 donev6 others params.
  induction Hl as [|ip l Hip Hl IH]; intros donev4 donev6 others params.
  { eexists _, _. split; [done|]. by rewrite app_nil_r. }
  cbn [report_addresses].
  (* the address goes to the others, or to a parameter of its own *)
  assert (Hothers : ∀ d4 d6 e, etsi_address method ip = Some e → ∃ others' params',
    report_addresses ipversion method d4 d6 l (others ++ [e]) params = Ok (others', params') ∧
    reported_ips params' ++ others' ≡ₚ
      reported_ips params ++ others ++ omap (etsi_address method) (ip :: l)).
  { intros d4 d6 e He. destruct (IH d4 d6 (others ++ [e]) params) as (o & q & E & Hq).
    exists o, q. split; [done|]. rewrite Hq. simpl. rewrite He. by rewrite <- app_assoc. }
  assert (Hparam : ∀ d4 d6 n e, etsi_address method ip = Some e → ∃ others' params',
    report_addresses ipversion method d4 d6 l others (add_generic n (V_ipaddress e) params) =
      Ok (others', params') ∧
    reported_ips params' ++ others' ≡ₚ
      reported_ips params ++ others ++ omap (etsi_address method) (ip :: l)).
  { intros d4 d6 n e He.
    destruct (IH d4 d6 others (add_generic n (V_ipaddress e) params)) as (o & q & E & Hq).
    exists o, q. split; [done|]. rewrite Hq, reported_ips_add. simpl. rewrite He.
    rewrite <- app_assoc. simpl. by rewrite Permutation_middle. }
  destruct (Z.eqb_spec ip.(ip_family) AF_INET) as [Hf|Hf].
  { destruct (create_v4_ok ip method Hip Hf) as (e & -> & He). run_outcome. destruct donev4; auto. }
  destruct (Z.eqb_spec ip.(ip_family) AF_INET6) as [Hf6|Hf6].
  { destruct (create_v6_ok ip method Hip Hf6) as (e & -> & He). run_outcome.
    repeat case_match; auto. }
  destruct (IH donev4 donev6 others params) as (o & q & E & Hq). exists o, q. split; [done|].
  rewrite Hq. simpl. unfold etsi_address at 2. by rewrite !(proj2 (Z.eqb_neq _ _)) by done.
Qed.

(** C34: the record made from a job names every address of the session, and only
    those: over all its parameters the addresses are, up to order, those of the job
    that were not cleared, with their prefixes and the way they were assigned. *)
Theorem ipiri_reports_all_addresses (job : openli_ipiri_job_t) :
  Forall ip_ok job.(ij_assignedips) →
  ∃ iritype params, prepare_ipiri_parameters job = Ok (iritype, params) ∧
    reported_ips params ≡ₚ
      reported_ips job.(ij_customparams) ++
      omap (etsi_address (etsi_ipmethod job.(ij_ipassignmentmethod))) job.(ij_assignedips).
Proof.
  intros Hips. unfold prepare_ipiri_parameters.
  assert (Haddr : ∀ params, ∃ params', address_params job params = Ok params' ∧
    reported_ips params' ≡ₚ reported_ips params ++
      omap (etsi_address (etsi_ipmethod job.(ij_ipassignmentmethod))) job.(ij_assignedips)).
  { intros params. unfold address_params.
    destruct (Z.ltb_spec 0 (zlen job.(ij_assignedips))) as [H|H].
    2: { rewrite (zlen_0 job.(ij_assignedips)) by zlia. exists params. simpl.
         by rewrite app_nil_r. }
    set (p0 := if _ =? 0 then params else _).
    assert (Hp0 : reported_ips p0 = reported_ips params).
    { subst p0. case_match; [done|]. rewrite reported_ips_add. apply app_nil_r. }
    destruct (report_addresses_ok (etsi_ipversion job.(ij_ipversioning))
                (etsi_ipmethod job.(ij_ipassignmentmethod)) false false _ [] p0 Hips)
      as (o & q & E & Hq).
    rewrite E. run_outcome. eexists. split; [done|]. rewrite <- Hp0, <- Hq.
    destruct o; [by rewrite app_nil_r|]. by rewrite reported_ips_add. }
  destruct (special_event _) as [[ev it]|];
    (match goal with |- context [address_params job ?x] =>
       destruct (Haddr x) as (params' & E & Hp) end); rewrite E; run_outcome;
    eexists _, _; (split; [done|]);
    (match goal with |- context [0 <? ?x] => destruct (0 <? x) end);
    rewrite ?reported_ips_add, ?app_nil_r, Hp; destruct (ij_username job);
    rewrite ?reported_ips_add; simpl; by rewrite ?app_nil_r.
Qed.

Definition sample_job : openli_ipiri_job_t :=
  {| ij_liid := of_string "L1"; ij_cin := 99; ij_username := Some (of_string "alice");
     ij_assignedips := [Mkinternetaccess_ip_t AF_INET [10; 0; 0; 1] 32;
                        Mkinternetaccess_ip_t AF_INET6 (replicate 16 32) 64;
                        Mkinternetaccess_ip_t AF_INET [10; 0; 0; 2] 32];
     ij_ipversioning := SESSION_IP_VERSION_DUAL; ij_sessionstartts := 5000000;
     ij_access_tech := 6; ij_special := OPENLI_IPIRI_STANDARD;
     ij_ipassignmentmethod := OPENLI_IPIRI_IPMETHOD_DYNAMIC; ij_iritype := ETSILI_IRI_BEGIN;
     ij_customparams := [] |}.

Lemma ipiri_reports_all_addresses_witness :
  ∃ iritype params, prepare_ipiri_parameters sample_job = Ok (iritype, params) ∧
    reported_ips params ≡ₚ
      omap (etsi_address ETSILI_IPADDRESS_ASSIGNED_DYNAMIC) sample_job.(ij_assignedips).
Proof.
  apply (ipiri_reports_all_addresses sample_job).
  repeat constructor; by vm_compute.
Defined.
