(* ===== verification/RadiusIri.v ===== *)
(** * The RADIUS plugin: IRIs (src/src/collector/accessplugins/radius.c)

    The actions the state machine decided on become records: their type, the event
    and what the attributes say.  The main theorem is about the stream of records of
    one session: whatever messages arrive, it is a sequence of reports and of
    sessions that are begun, continued and ended in this order. *)

From stdpp Require Import gmap.
From S2P Require Import Prelude ByteOrder Publish AccessSession Radius RadiusSession Ipiri.
From S2P Require Import RadiusParse.

(** [translate_term_cause] on the number in the attribute. *)
Definition translate_term_cause (tcause : Z) : Z :=
  if tcause =? 1 then IPIRI_END_REASON_REGULAR
  else if (tcause =? 4) || (tcause =? 5) then IPIRI_END_REASON_CONNECTION_TIMEOUT
  else if ((2 <=? tcause) && (tcause <=? 3)) || ((6 <=? tcause) && (tcause <=? 18))
  then IPIRI_END_REASON_CONNECTION_LOSS
  else IPIRI_END_REASON_UNDEFINED.

(** The parameter an attribute becomes, in [generate_iri]. *)
Definition attr_param (a : radius_attribute_t) : outcome (option (Z * iri_value)) :=
  let t := a.(att_type) in
  if t =? RADIUS_ATTR_NASPORT then
    v ← read_le 4 a.(att_val); Ok (Some (IPIRI_CONTENTS_POP_PORTNUMBER, V_int (ntohl v)))
  else if t =? RADIUS_ATTR_NASIP then
    ip ← etsili_create_ipaddress_v4 a.(att_val) ETSILI_IPV4_SUBNET_UNKNOWN
           ETSILI_IPADDRESS_ASSIGNED_UNKNOWN;
    Ok (Some (IPIRI_CONTENTS_POP_IPADDRESS, V_ipaddress ip))
  else if t =? RADIUS_ATTR_NASIDENTIFIER then
    o ← ipiri_create_id_printable a.(att_val) a.(att_len);
    match o with
    | Some id => Ok (Some (IPIRI_CONTENTS_POP_IDENTIFIER, V_id id))
    | None =>
        v ← read_bytes a.(att_len) a.(att_val);
        Ok (Some (IPIRI_CONTENTS_POP_IDENTIFIER, V_bytes v))
    end
  else if t =? RADIUS_ATTR_CALLED_STATION_ID then
    v ← read_bytes a.(att_len) a.(att_val); Ok (Some (IPIRI_CONTENTS_POP_PHONENUMBER, V_bytes v))
  else if t =? RADIUS_ATTR_CALLING_STATION_ID then
    v ← read_bytes a.(att_len) a.(att_val); Ok (Some (IPIRI_CONTENTS_TARGET_NETWORKID, V_bytes v))
  else if t =? RADIUS_ATTR_ACCT_TERMINATE_CAUSE then
    v ← read_le 4 a.(att_val);
    Ok (Some (IPIRI_CONTENTS_ENDREASON, V_int (translate_term_cause (ntohl v))))
  else if t =? RADIUS_ATTR_ACCT_INOCTETS then
    v ← read_le 4 a.(att_val); Ok (Some (IPIRI_CONTENTS_OCTETS_RECEIVED, V_int (ntohl v)))
  else if t =? RADIUS_ATTR_ACCT_OUTOCTETS then
    v ← read_le 4 a.(att_val); Ok (Some (IPIRI_CONTENTS_OCTETS_TRANSMITTED, V_int (ntohl v)))
  else Ok None.

(** The loop of [generate_iri]. *)
Fixpoint attr_params (l : list radius_attribute_t) (params : etsili_generics)
    : outcome etsili_generics :=
  match l with
  | [] => Ok params
  | a :: l =>
      o ← attr_param a;
      attr_params l (match o with Some (n, v) => add_generic n v params | None => params end)
  end.

(** [generate_iri] *)
Definition generate_iri (attrs : list radius_attribute_t) (tv eventtype : Z)
    (iritype : etsili_iri_type_t) (params : etsili_generics) : outcome etsili_generics :=
  let params := add_generic IPIRI_CONTENTS_ACCESS_EVENT_TYPE (V_int eventtype) params in
  let params := if decide (iritype = ETSILI_IRI_END)
                then add_generic IPIRI_CONTENTS_ENDTIME (V_time tv) params else params in
  attr_params attrs params.

(** The event and the type of the record for an action: the seven functions
    [radius_generate_*_iri] and the switch of [action_to_iri]. *)
Definition action_event (action : access_action_t) : option (Z * etsili_iri_type_t) :=
  match action with
  | ACCESS_ACTION_ATTEMPT => Some (IPIRI_ACCESS_ATTEMPT, ETSILI_IRI_REPORT)
  | ACCESS_ACTION_ACCEPT => Some (IPIRI_ACCESS_ACCEPT, ETSILI_IRI_BEGIN)
  | ACCESS_ACTION_END => Some (IPIRI_ACCESS_END, ETSILI_IRI_END)
  | ACCESS_ACTION_INTERIM_UPDATE => Some (IPIRI_INTERIM_UPDATE, ETSILI_IRI_CONTINUE)
  | ACCESS_ACTION_REJECT => Some (IPIRI_ACCESS_REJECT, ETSILI_IRI_REPORT)
  | ACCESS_ACTION_FAILED => Some (IPIRI_ACCESS_FAILED, ETSILI_IRI_REPORT)
  | ACCESS_ACTION_ALREADY_ACTIVE => Some (IPIRI_START_WHILE_ACTIVE, ETSILI_IRI_BEGIN)
  | _ => None
  end.

(** [action_to_iri]: [None] for -1. *)
Definition action_to_iri (tv : Z) (action : access_action_t) (attrs : list radius_attribute_t)
    (params : etsili_generics) : outcome (option (etsili_iri_type_t * etsili_generics)) :=
  match action_event action with
  | None => Ok None
  | Some (eventtype, iritype) =>
      params ← generate_iri attrs tv eventtype iritype params; Ok (Some (iritype, params))
  end.

(** [radius_generate_iri_data]: the answer, and the record unless it is -1. *)
Definition radius_generate_iri_data (rd : radius_parsed_t) (iteration : Z)
    : outcome (Z * option (etsili_iri_type_t * etsili_generics)) :=
  let none := bool_decide (rd.(rd_secondaction) = ACCESS_ACTION_NONE) in
  if iteration =? 0 then
    if decide (rd.(rd_firstaction) = ACCESS_ACTION_NONE) then Ok (-1, None)
    else
      r ← action_to_iri rd.(rd_tvsec) rd.(rd_firstaction) rd.(rd_firstattrs) [];
      match r with
      | None => Ok (-1, None)
      | Some iri => Ok (if none then 0 else 1, Some iri)
      end
  else if (iteration =? 1) && negb none then
    r ← action_to_iri rd.(rd_tvsec) rd.(rd_secondaction) rd.(rd_secondattrs) [];
    match r with None => Ok (-1, None) | Some iri => Ok (0, Some iri) end
  else Ok (-1, None).

(** [radius_generate_iri_from_session]; the type stays what it was for a standard
    trigger.  An empty NAS identifier leaves the id that is sent unset. *)
Definition radius_generate_iri_from_session (sess : access_session_t) (trigger : ipiri_special)
    (iritype : etsili_iri_type_t) (g : radius_global_t)
    : outcome (Z * etsili_iri_type_t * etsili_generics) :=
  sp ← deref sess.(as_statedata);
  us ← get_usess sp g;
  let params := if us.(us_nas_port) =? 0 then []
                else add_generic IPIRI_CONTENTS_POP_PORTNUMBER (V_int us.(us_nas_port)) [] in
  params ← match us.(us_nasidentifier) with
           | None => Ok params
           | Some nasid =>
               o ← ipiri_create_id_printable (nasid ++ [0]) (zlen (until_nul nasid));
               match o with
               | Some id => Ok (add_generic IPIRI_CONTENTS_POP_IDENTIFIER (V_id id) params)
               | None => Undef
               end
           end;
  params ← (if us.(us_nas_ip_family) =? 0 then Ok params
            else
              nasip ← deref us.(us_nas_ip);
              ip ← etsili_create_ipaddress_v4 nasip ETSILI_IPV4_SUBNET_UNKNOWN
                     ETSILI_IPADDRESS_ASSIGNED_UNKNOWN;
              Ok (add_generic IPIRI_CONTENTS_POP_IPADDRESS (V_ipaddress ip) params));
  let params := add_generic IPIRI_CONTENTS_OCTETS_RECEIVED (V_int us.(us_octets_received)) params in
  let params := add_generic IPIRI_CONTENTS_OCTETS_TRANSMITTED (V_int us.(us_octets_sent)) params in
  let iritype := match trigger with
                 | OPENLI_IPIRI_STARTWHILEACTIVE => ETSILI_IRI_BEGIN
                 | OPENLI_IPIRI_ENDWHILEACTIVE => ETSILI_IRI_REPORT
                 | OPENLI_IPIRI_SILENTLOGOFF => ETSILI_IRI_END
                 | OPENLI_IPIRI_STANDARD => iritype
                 end in
  Ok (1, iritype, params).

(** ** The stream of records of a session *)

(** A message as the state machine sees it: its code, its accounting type, and
    whether the session has no address after it. *)
Record fsm_input : Type := Mkfsm_input { fi_msgtype : Z; fi_accttype : Z; fi_noip : bool }.

(** One message: the state the session is left in and the type of the record that is
    generated for it. *)
Definition session_step (st : session_state_t) (i : fsm_input)
    : session_state_t * option etsili_iri_type_t :=
  let '(st', action) := apply_fsm_logic st i.(fi_msgtype) i.(fi_accttype) in
  (if i.(fi_noip) && bool_decide (st' = SESSION_STATE_ACTIVE) then SESSION_STATE_ACTIVE_NO_IP
   else st', snd <$> action_event action).

Fixpoint session_run (st : session_state_t) (l : list fsm_input)
    : session_state_t * list etsili_iri_type_t :=
  match l with
  | [] => (st, [])
  | i :: l =>
      let '(st, iri) := session_step st i in
      let '(st, iris) := session_run st l in
      (st, option_list iri ++ iris)
  end.

(** What a mediator may receive: [iri_stream open l] holds of a list of record types
    that is legal when a session is (not) open; the index after the list is whether
    one is open at its end. *)
Inductive iri_stream : bool → list etsili_iri_type_t → bool → Prop :=
  | stream_nil b : iri_stream b [] b
  | stream_report l b : iri_stream false l b → iri_stream false (ETSILI_IRI_REPORT :: l) b
  | stream_begin l b : iri_stream true l b → iri_stream false (ETSILI_IRI_BEGIN :: l) b
  | stream_continue l b : iri_stream true l b → iri_stream true (ETSILI_IRI_CONTINUE :: l) b
  | stream_end l b : iri_stream false l b → iri_stream true (ETSILI_IRI_END :: l) b.
#[local] Hint Constructors iri_stream : core.

Definition is_active (st : session_state_t) : bool :=
  bool_decide (st = SESSION_STATE_ACTIVE) || bool_decide (st = SESSION_STATE_ACTIVE_NO_IP).

(** The states the plugin uses. *)
Definition radius_state (st : session_state_t) : Prop :=
  st ≠ SESSION_STATE_RENEW ∧ st ≠ SESSION_STATE_ENDING.

(** Case analysis on the state machine: one goal for each transition. *)
Ltac fsm_cases :=
  repeat match goal with |- context [if ?b then _ else _] => destruct b end.

(** What one transition can do to a session. *)
Lemma apply_fsm_logic_cases st m a :
  radius_state st →
  let '(st', action) := apply_fsm_logic st m a in
  radius_state st' ∧
  match snd <$> action_event action with
  | Some ETSILI_IRI_REPORT => is_active st = false ∧ is_active st' = false
  | Some ETSILI_IRI_BEGIN => is_active st = false ∧ is_active st' = true
  | Some ETSILI_IRI_CONTINUE => is_active st = true ∧ is_active st' = true
  | Some ETSILI_IRI_END => is_active st = true ∧ is_active st' = false
  | Some ETSILI_IRI_NONE => False
  | None => is_active st = is_active st'
  end.
Proof.
  intros [H1 H2]. unfold apply_fsm_logic.
  destruct st; try done; simpl; fsm_cases; done.
Qed.

Lemma session_step_stream st i :
  radius_state st →
  let '(st', iri) := session_step st i in
  radius_state st' ∧
  ∀ l b, iri_stream (is_active st') l b → iri_stream (is_active st) (option_list iri ++ l) b.
Proof.
  intros Hst. pose proof (apply_fsm_logic_cases st i.(fi_msgtype) i.(fi_accttype) Hst) as Hc.
  unfold session_step. destruct (apply_fsm_logic _ _ _) as [st' action]. destruct Hc as [Hr Hc].
  assert (Ha : ∀ b, is_active (if b && bool_decide (st' = SESSION_STATE_ACTIVE)
                               then SESSION_STATE_ACTIVE_NO_IP else st') = is_active st').
  { intros []; [|done]. by destruct st'. }
  split; [destruct (_ && _); [done|exact Hr]|]. intros l b. rewrite Ha.
  destruct (snd <$> action_event action) as [[]|]; simpl;
    [done|destruct Hc as [-> ->]; auto..|by rewrite Hc].
Qed.

(** C18: whatever RADIUS messages a session sees, in whatever order, the records
    generated for it are a legal stream: a session is begun before it is continued or
    ended, it is begun only when none is open, reports only occur outside of one, and
    one is open at the end exactly when the state machine says it is active. *)
Theorem session_iri_stream (l : list fsm_input) :
  let '(st, iris) := session_run SESSION_STATE_NEW l in
  iri_stream false iris (is_active st).
Proof.
  assert (H : ∀ l st, radius_state st →
    let '(st', iris) := session_run st l in iri_stream (is_active st) iris (is_active st')).
  { clear l. induction l as [|i l IH]; intros st Hst; simpl; [constructor|].
    pose proof (session_step_stream st i Hst) as Hs.
    destruct (session_step st i) as [st1 iri]. destruct Hs as [Hr Hs].
    specialize (IH st1 Hr). destruct (session_run st1 l) as [st2 iris]. auto. }
  apply (H l SESSION_STATE_NEW). done.
Qed.

(** ** The plugin follows the machine *)

(** The messages a packet stands for: itself, and the orphaned response it was paired
    with. *)
Definition fsm_inputs (rd : radius_parsed_t) (noip : bool) : list fsm_input :=
  match rd.(rd_savedresp) with
  | None => [Mkfsm_input rd.(rd_msgtype) rd.(rd_accttype) noip]
  | Some resp => [Mkfsm_input rd.(rd_msgtype) rd.(rd_accttype) false;
                  Mkfsm_input resp.(or_resptype) rd.(rd_accttype) noip]
  end.

(** The records [radius_generate_iri_data] makes from a packet. *)
Definition packet_iris (rd : radius_parsed_t) : list etsili_iri_type_t :=
  option_list (snd <$> action_event rd.(rd_firstaction)) ++
  option_list (snd <$> action_event rd.(rd_secondaction)).

(** The fields of a packet the machine depends on and decides. *)
Definition same_fsm (rd rd' : radius_parsed_t) : Prop :=
  rd'.(rd_msgtype) = rd.(rd_msgtype) ∧ rd'.(rd_accttype) = rd.(rd_accttype) ∧
  rd'.(rd_savedresp) = rd.(rd_savedresp) ∧ rd'.(rd_firstaction) = rd.(rd_firstaction) ∧
  rd'.(rd_secondaction) = rd.(rd_secondaction).

#[local] Instance same_fsm_preorder : PreOrder same_fsm.
Proof.
  split; [by intros rd|].
  intros r1 r2 r3 (? & ? & ? & ? & ?) (? & ? & ? & ? & ?). split_and!; congruence.
Qed.

Lemma run_fsm_run rd us rd' us' :
  (rd.(rd_savedresp) = None → rd.(rd_secondaction) = ACCESS_ACTION_NONE) →
  run_fsm rd us = (rd', us') →
  session_run us.(us_current) (fsm_inputs rd' false) = (us'.(us_current), packet_iris rd') ∧
  rd'.(rd_attrs) = rd.(rd_attrs).
Proof.
  intros Hnone. unfold run_fsm, fsm_inputs, packet_iris.
  destruct (apply_fsm_logic us.(us_current) rd.(rd_msgtype) rd.(rd_accttype)) as [st act] eqn:E1.
  destruct rd.(rd_savedresp) as [resp|] eqn:Er; cbn [set_rd_firstaction rd_savedresp];
    rewrite Er.
  - destruct (apply_fsm_logic st resp.(or_resptype) _) as [st2 act2] eqn:E2.
    intros [= <- <-]. split; [|done].
    cbn [set_rd_secondaction set_rd_firstaction rd_savedresp rd_msgtype rd_accttype
         rd_firstaction rd_secondaction set_us_current us_current].
    rewrite Er. cbn [session_run]. unfold session_step. cbn [fi_msgtype fi_accttype fi_noip andb].
    rewrite E1. cbn [set_rd_firstaction rd_accttype] in E2. rewrite E2. by rewrite app_nil_r.
  - intros [= <- <-]. split; [|done].
    cbn [set_rd_firstaction rd_savedresp rd_msgtype rd_accttype rd_firstaction rd_secondaction
         set_us_current us_current].
    rewrite Er. cbn [session_run]. unfold session_step. cbn [fi_msgtype fi_accttype fi_noip andb].
    rewrite E1, Hnone by done. done.
Qed.

Lemma note_session_attr_current us a us' :
  note_session_attr us a = Ok us' → us'.(us_current) = us.(us_current).
Proof.
  unfold note_session_attr. intros H.
  repeat (case_match; simplify_eq; try done);
    repeat (apply bind_Ok in H as (? & ? & H)); by simplify_eq.
Qed.

Lemma update_user_session_data_current l us us' :
  update_user_session_data l us = Ok us' → us'.(us_current) = us.(us_current).
Proof.
  revert us. induction l as [|a l IH]; intros us H; simpl in H; [by simplify_eq|].
  apply bind_Ok in H as (us1 & E & H). rewrite (IH _ H). by eapply note_session_attr_current.
Qed.

Lemma update_first_action_same g rd sess rd' sess' :
  update_first_action g rd sess = Ok (rd', sess') → same_fsm rd rd'.
Proof.
  unfold update_first_action. intros H.
  repeat (case_match; simplify_eq; try done);
    repeat (apply bind_Ok in H as (? & ? & H)); by simplify_eq.
Qed.

Lemma update_second_action_same rd sess rd' sess' :
  update_second_action rd sess = Ok (rd', sess') → same_fsm rd rd'.
Proof.
  unfold update_second_action. intros H.
  case_match; simplify_eq; try done;
    (apply bind_Ok in H as (? & ? & H);
     repeat (case_match; simplify_eq; try done);
     repeat (apply bind_Ok in H as (? & ? & H)); by simplify_eq).
Qed.

(** The tables change, the packet stays. *)
Lemma remember_request_pkt reqid reqp l g g' :
  remember_request reqid reqp l g = Ok g' → g'.(rg_parsedpkt) = g.(rg_parsedpkt).
Proof.
  revert g. induction l as [|o l IH]; intros g H; simpl in H; [by simplify_eq|].
  apply bind_Ok in H as (p & _ & H). apply bind_Ok in H as (u & _ & H). by rewrite (IH _ H).
Qed.

Lemma forget_request_pkt reqid l g g' :
  forget_request reqid l g = Ok g' → g'.(rg_parsedpkt) = g.(rg_parsedpkt).
Proof.
  revert g. induction l as [|[p|] l IH]; intros g H; simpl in H; [by simplify_eq| |by apply IH].
  apply bind_Ok in H as (u & _ & H). by rewrite (IH _ H).
Qed.

Lemma hash_delete_req_pkt nasp p req g g' :
  hash_delete_req nasp p req g = Ok g' → g'.(rg_parsedpkt) = g.(rg_parsedpkt).
Proof.
  unfold hash_delete_req. intros (nas & _ & H)%bind_Ok. case_decide; by simplify_eq.
Qed.

Lemma insert_request_pkt nasp reqid g g' :
  insert_request nasp reqid g = Ok g' → g'.(rg_parsedpkt) = g.(rg_parsedpkt).
Proof.
  unfold insert_request. destruct (alloc_request g) as [p g0] eqn:Ea.
  intros (nas & _ & H)%bind_Ok. apply remember_request_pkt in H. rewrite H.
  unfold alloc_request in Ea. case_match; by simplify_eq.
Qed.

Lemma replace_request_pkt nasp p check reqid g g' :
  replace_request nasp p check reqid g = Ok g' → g'.(rg_parsedpkt) = g.(rg_parsedpkt).
Proof.
  unfold replace_request. intros (g1 & E1 & H)%bind_Ok.
  apply bind_Ok in H as (g2 & E2 & H). simplify_eq. cbn [set_rg_reqs rg_parsedpkt].
  rewrite (hash_delete_req_pkt _ _ _ _ _ E2). exact (forget_request_pkt _ _ _ _ E1).
Qed.

Lemma save_request_pkt g g' :
  save_request g = Ok g' →
  g'.(rg_parsedpkt) = g.(rg_parsedpkt) ∨
  ∃ o, g'.(rg_parsedpkt) = set_rd_savedresp (Some o) g.(rg_parsedpkt).
Proof.
  unfold save_request. intros (nasp & _ & H)%bind_Ok.
  apply bind_Ok in H as ([orphan g1] & E1 & H).
  assert (Hg1 : g1.(rg_parsedpkt) = g.(rg_parsedpkt)).
  { unfold search_orphans in E1. apply bind_Ok in E1 as (nas & _ & E1).
    destruct (search_orphan_list _ _ _ _ _) as [[o l] t]. by simplify_eq. }
  destruct orphan as [o|]; [right; exists o; by simplify_eq|left].
  destruct (rd_savedresp _); [by simplify_eq|].
  apply bind_Ok in H as (nas & _ & H). destruct (nas_request_map nas !! _) as [p|].
  - apply bind_Ok in H as (check & _ & H). case_match; [by simplify_eq|].
    apply bind_Ok in H as (g2 & E2 & H).
    by rewrite (insert_request_pkt _ _ _ _ H), (replace_request_pkt _ _ _ _ _ _ E2).
  - by rewrite (insert_request_pkt _ _ _ _ H).
Qed.

Lemma find_or_create_usess_pkt user u acct sess g sp us sess' g' :
  find_or_create_usess user u acct sess g = Ok (sp, us, sess', g') →
  g'.(rg_parsedpkt) = g.(rg_parsedpkt).
Proof.
  unfold find_or_create_usess. destruct (ru_sessions u !! acct); [|by intros [= <- <- <- <-]].
  intros (us' & _ & H)%bind_Ok. by simplify_eq.
Qed.

Lemma report_action_iris rd action rd' :
  report_action rd = (action, rd') →
  packet_iris rd' = packet_iris rd ∧ rd'.(rd_savedresp) = rd.(rd_savedresp) ∧
  rd'.(rd_msgtype) = rd.(rd_msgtype) ∧ rd'.(rd_accttype) = rd.(rd_accttype).
Proof.
  unfold report_action, packet_iris. intros H.
  destruct (bool_decide_reflect (rd.(rd_firstaction) = ACCESS_ACTION_NONE)) as [E|E];
    cbn [negb] in H; [|by simplify_eq].
  destruct (bool_decide_reflect (rd.(rd_secondaction) = ACCESS_ACTION_NONE)) as [E2|E2];
    cbn [negb] in H; simplify_eq; [done|].
  cbn [set_rd_secondattrs set_rd_firstattrs set_rd_secondaction set_rd_firstaction
       rd_firstaction rd_secondaction rd_savedresp rd_msgtype rd_accttype].
  rewrite E. simpl. by rewrite app_nil_r.
Qed.

(** A run that ends in an active session ends in one without an address, if the last
    message is so marked. *)
Lemma session_run_noip st rd noip st' iris :
  session_run st (fsm_inputs rd false) = (st', iris) →
  session_run st (fsm_inputs rd noip) =
  (if noip && bool_decide (st' = SESSION_STATE_ACTIVE) then SESSION_STATE_ACTIVE_NO_IP else st', iris).
Proof.
  unfold fsm_inputs. destruct (rd_savedresp rd); cbn [session_run]; unfold session_step;
    cbn [fi_msgtype fi_accttype fi_noip andb];
    repeat (destruct (apply_fsm_logic _ _ _)); intros [= <- <-]; done.
Qed.

(** C17: [radius_update_session_state] does to a session what the machine does with the
    packet, and with the orphaned response if there is one: from the state it reports as
    old it reaches the state it reports as new, and the records that will be made from
    the packet are those of the machine, in its order. *)
Theorem update_follows_machine (now user : Z) (l l' : list Z) (ss ss' : session_store)
    (g g' : radius_global_t) (su : session_update) :
  (g.(rg_parsedpkt).(rd_savedresp) = None →
   g.(rg_parsedpkt).(rd_secondaction) = ACCESS_ACTION_NONE) →
  radius_update_session_state now (Some user) l ss g = Ok (Some su, l', ss', g') →
  ∃ noip, session_run su.(su_oldstate) (fsm_inputs g'.(rg_parsedpkt) noip) =
          (su.(su_newstate), packet_iris g'.(rg_parsedpkt)).
Proof.
  intros Hnone H. unfold radius_update_session_state in H. case_match; [by simplify_eq|].
  apply bind_Ok in H as (u & _ & H). apply bind_Ok in H as ([[p l1] ss1] & _ & H).
  apply bind_Ok in H as (g1 & E1 & H). apply bind_Ok in H as (u1 & _ & H).
  apply bind_Ok in H as (sess & _ & H). apply bind_Ok in H as ([[[sp us] sess1] g2] & E2 & H).
  assert (Hn2 : g2.(rg_parsedpkt).(rd_savedresp) = None →
                g2.(rg_parsedpkt).(rd_secondaction) = ACCESS_ACTION_NONE).
  { rewrite (find_or_create_usess_pkt _ _ _ _ _ _ _ _ _ E2).
    destruct (is_request _); [|by simplify_eq].
    destruct (save_request_pkt _ _ E1) as [-> | [o ->]]; [done|]. by cbn. }
  destruct (run_fsm g2.(rg_parsedpkt) us) as [rd us1] eqn:Ef.
  apply bind_Ok in H as (us2 & E3 & H). apply bind_Ok in H as ([rd1 sess2] & E4 & H).
  apply bind_Ok in H as ([rd2 sess3] & E5 & H).
  destruct (report_action rd2) as [action rd3] eqn:Ea. simplify_eq.
  destruct (run_fsm_run _ _ _ _ Hn2 Ef) as [Hrun _].
  pose proof (update_first_action_same _ _ _ _ _ E4) as H4.
  pose proof (update_second_action_same _ _ _ _ E5) as H5.
  assert (Hs : same_fsm rd rd2) by (by etrans). destruct Hs as (S1 & S2 & S3 & S4 & S5).
  destruct (report_action_iris _ _ _ Ea) as (R1 & R2 & R3 & R4).
  cbn [su_oldstate su_newstate set_rg_parsedpkt rg_parsedpkt]. rewrite R1.
  assert (Hp : packet_iris rd2 = packet_iris rd) by (unfold packet_iris; by rewrite S4, S5).
  assert (Hi : ∀ b, fsm_inputs rd3 b = fsm_inputs rd b)
    by (intros b; unfold fsm_inputs; by rewrite R2, R3, R4, S1, S2, S3).
  exists (as_sessipcount sess3 =? 0). rewrite Hi, Hp.
  rewrite (session_run_noip _ _ _ _ _ Hrun), <- (update_user_session_data_current _ _ _ E3).
  by destruct (_ && _).
Qed.

Definition sample_update
    : outcome (option session_update * list Z * session_store * radius_global_t) :=
  radius_update_session_state 1700000000 (Some 4) [] (Mksession_store ∅ 0) sample_state.

Lemma update_follows_machine_witness :
  match sample_update with
  | Ok (Some su, _, _, g') =>
      ∃ noip, session_run su.(su_oldstate) (fsm_inputs g'.(rg_parsedpkt) noip) =
              (su.(su_newstate), packet_iris g'.(rg_parsedpkt))
  | _ => False
  end.
Proof.
  destruct sample_update as [[[[[su|] l'] ss'] g']| |] eqn:E;
    [|apply (f_equal (λ o, match o with Ok (None, _, _, _) => false | Ok _ => true | _ => false end)) in E;
      vm_compute in E; discriminate..].
  apply (update_follows_machine 1700000000 4 [] l' (Mksession_store ∅ 0) ss' sample_state g' su).
  - by vm_compute.
  - exact E.
Defined.
