(* ===== verification/RadiusProps.v ===== *)
(** * Theorems about requests, responses and sessions of the RADIUS plugin

    A request that was saved is found by its response, orphaned responses are kept in
    a list whose two pointers agree, request ids do not clash, CINs have 31 bits; and
    what happens to packets the plugin is not prepared for. *)

From stdpp Require Import gmap.
From S2P Require Import Prelude ByteOrder Publish JenkinsHash AccessSession Radius RadiusSession.
From S2P Require Import RadiusParse.

(** ** Request ids *)

(** The id of a request determines its identifier, the port of the NAS and the
    kind of request: the three fields do not overlap in the 32 bits. *)
Theorem request_id_injective (rad rad' : radius_parsed_t) (t t' : Z) :
  0 ≤ rad.(rd_msgident) < 256 → 0 ≤ rad'.(rd_msgident) < 256 →
  0 ≤ rad.(rd_sourceport) < 65536 → 0 ≤ rad'.(rd_sourceport) < 65536 →
  0 ≤ t < 256 → 0 ≤ t' < 256 →
  DERIVE_REQUEST_ID rad t = DERIVE_REQUEST_ID rad' t' →
  rad.(rd_msgident) = rad'.(rd_msgident) ∧ rad.(rd_sourceport) = rad'.(rd_sourceport) ∧ t = t'.
Proof.
  intros ? ? ? ? ? ? Heq. unfold DERIVE_REQUEST_ID in Heq.
  rewrite !Z.shiftl_mul_pow2 in Heq by lia.
  change (2^16) with 65536 in Heq. change (2^24) with 16777216 in Heq.
  rewrite (u32_id (t * _)), (u32_id (t' * _)), (u32_id (_.(rd_msgident) * _)) in Heq by lia.
  rewrite (u32_id (rd_msgident rad' * _)) in Heq by lia.
  rewrite (u32_id (_ + rd_sourceport rad)), (u32_id (_ + rd_sourceport rad')) in Heq by lia.
  rewrite !u32_id in Heq by lia. lia.
Qed.

Definition with_ident (ident port : Z) : radius_parsed_t :=
  set_rd_addresses zero_sockaddr zero_sockaddr port
    (set_rd_header 0 RADIUS_CODE_ACCESS_REQUEST ident (0, []) reset_parsed_packet).

Lemma request_id_injective_witness : 7 = 7 ∧ 1812 = 1812 ∧ 4 = 4.
Proof.
  apply (request_id_injective (with_ident 7 1812) (with_ident 7 1812) 4 4); by vm_compute.
Defined.

(** ** CINs *)

(** A CIN never has its 32nd bit set, whichever way it is chosen, and choosing it
    from the authenticator does not read past the packet. *)
Theorem assign_cin_range (now : Z) (rd : radius_parsed_t) :
  0 ≤ now → 16 ≤ zlen rd.(rd_authptr).2 → all_bytes rd.(rd_authptr).2 →
  ∃ cin, assign_cin now rd = Ok cin ∧ 0 ≤ cin < 2^31.
Proof.
  intros Hnow Hauth Hb. unfold assign_cin.
  destruct (find_attr _ _); [eexists; split; [done|]; apply Z.mod_pos_bound; lia|].
  case_match.
  - destruct rd.(rd_authptr) as [addr auth]. simpl in *.
    assert (H16 : length (take 16 auth) = 16%nat)
      by (rewrite length_take; unfold zlen in *; lia).
    pose proof (hashlittle_ref addr (take 16 auth) (drop 16 auth) 0xfacebeef) as Hh.
    rewrite take_drop, H16 in Hh. rewrite Hh; [|done|].
    + run_outcome. eexists. split; [done|]. apply Z.mod_pos_bound. lia.
    + apply Nat.leb_le. unfold zlen in Hauth. apply Nat.leb_le. simpl. lia.
  - eexists. split; [done|]. rewrite Z.rem_mod_nonneg by lia.
    pose proof (Z.mod_pos_bound now (2^31)) as Hm. rewrite u32_id by lia. lia.
Qed.

Lemma assign_cin_range_witness :
  ∃ cin, assign_cin 1700000000
           (set_rd_header 0 RADIUS_CODE_ACCESS_REQUEST 7 (4100, replicate 16 0xaa)
              reset_parsed_packet) = Ok cin ∧ 0 ≤ cin < 2^31.
Proof.
  apply (assign_cin_range 1700000000 (set_rd_header 0 RADIUS_CODE_ACCESS_REQUEST 7
           (4100, replicate 16 0xaa) reset_parsed_packet)).
  - lia.
  - by vm_compute.
  - apply (bool_decide_unpack (Forall is_byte _)). by vm_compute.
Defined.

(** ** Orphaned responses *)

(** The pointers agree: the tail points at the last node the head leads to. *)
Definition orphans_ok (l : list radius_orphaned_resp_t) (tail : option Z) : Prop :=
  NoDup (or_addr <$> l) ∧ tail = or_addr <$> last l.

Definition expired (tvsec : Z) (o : radius_orphaned_resp_t) : bool :=
  o.(or_tvsec) + ORPHAN_EXPIRY <? tvsec.

(** The orphans a request at [tvsec] can be paired with: those after the first one
    that has not expired, it included. *)
Fixpoint fresh_orphans (tvsec : Z) (l : list radius_orphaned_resp_t)
    : list radius_orphaned_resp_t :=
  match l with
  | [] => []
  | o :: l' => if expired tvsec o then fresh_orphans tvsec l' else l
  end.

(** Taking the first orphan with a key out of a list. *)
Fixpoint take_orphan (reqid : Z) (l : list radius_orphaned_resp_t)
    : option radius_orphaned_resp_t * list radius_orphaned_resp_t :=
  match l with
  | [] => (None, [])
  | o :: l => if o.(or_key) =? reqid then (Some o, l)
              else let '(r, l) := take_orphan reqid l in (r, o :: l)
  end.

Lemma peel_fresh now l : peel_expired now l = fresh_orphans now l.
Proof.
  induction l as [|o l IH]; [done|]. simpl. unfold expired. rewrite IH.
  destruct (Z.leb_spec now (o.(or_tvsec) + ORPHAN_EXPIRY)), (Z.ltb_spec (o.(or_tvsec) + ORPHAN_EXPIRY) now);
    [lia|done|done|lia].
Qed.

Lemma fresh_orphans_suffix tvsec l : ∃ k, l = k ++ fresh_orphans tvsec l.
Proof.
  induction l as [|o l [k IH]]; [by exists []|]. simpl. destruct (expired tvsec o).
  - exists (o :: k). simpl. by rewrite <- IH.
  - by exists [].
Qed.

Lemma orphans_ok_suffix k l tail :
  orphans_ok (k ++ l) tail → l ≠ [] → orphans_ok l tail.
Proof.
  intros [Hnd ->] Hl. rewrite fmap_app in Hnd. apply NoDup_app in Hnd as (_ & _ & Hnd).
  split; [done|]. rewrite last_app. destruct l; [done|]. by destruct (last (r :: l)) eqn:E;
    [|apply last_None in E].
Qed.

(** The second half of the loop: no node is expired any more once one was passed. *)
Lemma search_passed reqid tvsec prev l tail :
  prev ≠ [] → orphans_ok (reverse prev ++ l) tail →
  search_orphan_list reqid tvsec prev l tail =
  let '(o, k) := take_orphan reqid l in
  (o, reverse prev ++ k, or_addr <$> last (reverse prev ++ k)).
Proof.
  revert prev. induction l as [|o l IH]; intros prev Hp Hok; simpl.
  { destruct Hok as [_ ->]. by rewrite app_nil_r. }
  rewrite bool_decide_eq_false_2 by done. cbn [andb].
  destruct (Z.eqb_spec o.(or_key) reqid) as [Hk|Hk].
  - f_equal. destruct Hok as [Hnd ->]. rewrite !last_app. destruct l as [|x l].
    + rewrite decide_True by done. by rewrite last_reverse.
    + change (last (o :: x :: l)) with (last (x :: l)).
      destruct (last (x :: l)) as [y|] eqn:El; [|by apply last_None in El].
      rewrite decide_False; [done|]. simpl. intros [= Heq].
      rewrite fmap_app in Hnd. apply NoDup_app in Hnd as (_ & _ & Hnd).
      inversion Hnd as [|? ? Hnin _]; subst. apply Hnin. rewrite <- Heq.
      apply (list_elem_of_fmap_2 or_addr (x :: l)), (last_Some_elem_of _ _ El).
  - rewrite IH; [|done|by rewrite reverse_cons, <- app_assoc].
    destruct (take_orphan reqid l) as [r k]. by rewrite reverse_cons, <- app_assoc.
Qed.

Lemma take_orphan_sub reqid l o k :
  take_orphan reqid l = (o, k) → option_list o ++ k ≡ₚ l ∧ (o = None → k = l) ∧
  (∀ x, o = Some x → x.(or_key) = reqid).
Proof.
  revert o k. induction l as [|x l IH]; intros o k; simpl; [by intros [= <- <-]|].
  destruct (Z.eqb_spec x.(or_key) reqid) as [Hk|Hk].
  - intros [= <- <-]. split; [done|]. split; [done|]. by intros ? [= <-].
  - destruct (take_orphan reqid l) as [r k'] eqn:E. intros [= <- <-].
    destruct (IH r k' eq_refl) as (Hp & Hn & Hx). split_and!; [|intros Hr; by rewrite Hn|done].
    rewrite <- Hp. destruct r; simpl; [apply Permutation_swap|done].
Qed.

(** [search_orphans] on a list whose pointers agree finds the first response with
    the key among those that have not expired, takes it out, drops the expired ones in
    front, and leaves a list whose pointers agree. *)
Theorem search_orphans_correct (reqid tvsec : Z) (l : list radius_orphaned_resp_t)
    (tail : option Z) :
  orphans_ok l tail →
  ∃ o k tail', search_orphan_list reqid tvsec [] l tail = (o, k, tail') ∧
    take_orphan reqid (fresh_orphans tvsec l) = (o, k) ∧ orphans_ok k tail'.
Proof.
  revert tail. induction l as [|x l IH]; intros tail Hok.
  { destruct Hok as [_ ->]. exists None, [], None. do 2 (split; [done|]). split; [constructor|done]. }
  cbn [search_orphan_list fresh_orphans]. rewrite bool_decide_eq_true_2 by done. cbn [andb].
  fold (expired tvsec x). destruct (expired tvsec x) eqn:Ee.
  - apply IH. destruct l as [|y l].
    + destruct Hok as [_ ->]. rewrite decide_True by done. split; [constructor|done].
    + destruct Hok as [Hnd ->]. change (last (x :: y :: l)) with (last (y :: l)).
      inversion Hnd as [|? ? Hnin Hnd']; subst. split; [done|].
      destruct (last (y :: l)) as [z|] eqn:El; [|by apply last_None in El].
      rewrite decide_False; [done|]. simpl. intros [= Heq]. apply Hnin. rewrite <- Heq.
      apply (list_elem_of_fmap_2 or_addr (y :: l)), (last_Some_elem_of _ _ El).
  - cbn [take_orphan]. destruct (Z.eqb_spec x.(or_key) reqid) as [Hk|Hk].
    + eexists _, _, _. split; [done|]. split; [done|].
      destruct Hok as [Hnd ->]. inversion Hnd as [|? ? Hnin Hnd']; subst. split; [done|].
      destruct l as [|y l]; [by rewrite decide_True|].
      change (reverse [] ++ y :: l) with (y :: l).
      change (last (x :: y :: l)) with (last (y :: l)).
      destruct (last (y :: l)) as [z|] eqn:El; [|by apply last_None in El].
      rewrite decide_False; [done|]. simpl. intros [= Heq]. apply Hnin. rewrite <- Heq.
      apply (list_elem_of_fmap_2 or_addr (y :: l)), (last_Some_elem_of _ _ El).
    + rewrite search_passed by first [done|exact Hok]. destruct (take_orphan reqid l) as [o k] eqn:Et.
      eexists _, _, _. split; [done|]. split; [done|]. cbn [reverse rev_append app].
      destruct (take_orphan_sub _ _ _ _ Et) as (Hp & _ & _).
      split; [|done]. destruct Hok as [Hnd _].
      assert (Hsub : x :: l ≡ₚ option_list o ++ x :: k)
        by (rewrite <- Hp, Permutation_middle; done).
      rewrite Hsub, fmap_app in Hnd. by apply NoDup_app in Hnd as (_ & _ & Hnd).
Qed.

Definition sample_orphans : list radius_orphaned_resp_t :=
  [Mkradius_orphaned_resp_t 1 2 70 1000000 []; Mkradius_orphaned_resp_t 2 2 71 3000000 [];
   Mkradius_orphaned_resp_t 3 2 72 3000001 []].

Lemma search_orphans_correct_witness :
  ∃ o k tail', search_orphan_list 72 3500000 [] sample_orphans (Some 3) = (o, k, tail') ∧
    take_orphan 72 (fresh_orphans 3500000 sample_orphans) = (o, k) ∧ orphans_ok k tail'.
Proof.
  apply (search_orphans_correct 72 3500000 sample_orphans (Some 3)).
  split; [|done]. apply (bool_decide_unpack (NoDup _)). by vm_compute.
Defined.

(** A new orphan goes to the end, and expired ones leave at the front. *)
Lemma create_orphan_ok nasp reqid g nas :
  g.(rg_nases) !! nasp = Some nas → orphans_ok nas.(nas_orphans) nas.(nas_orphans_tail) →
  (∀ o, o ∈ nas.(nas_orphans) → o.(or_addr) < g.(rg_next)) →
  ∃ g' nas' o, create_orphan nasp reqid g = Ok g' ∧ g'.(rg_nases) !! nasp = Some nas' ∧
    orphans_ok nas'.(nas_orphans) nas'.(nas_orphans_tail) ∧
    o.(or_key) = reqid ∧ o.(or_savedattrs) = g.(rg_parsedpkt).(rd_attrs) ∧
    nas'.(nas_orphans) = fresh_orphans g.(rg_parsedpkt).(rd_tvsec) nas.(nas_orphans) ++ [o].
Proof.
  intros Hn Hok Hlt. unfold create_orphan, get_nas. rewrite Hn. run_outcome.
  set (o := Mkradius_orphaned_resp_t _ _ _ _ _).
  assert (Hfresh : ∀ l, fresh_orphans o.(or_tvsec) (l ++ [o]) = fresh_orphans o.(or_tvsec) l ++ [o]).
  { assert (E : expired o.(or_tvsec) o = false)
      by (unfold expired, ORPHAN_EXPIRY; apply Z.ltb_ge; lia).
    induction l as [|x l IH]; cbn [fresh_orphans app]; [by rewrite E|].
    rewrite IH. by destruct (expired _ x). }
  unfold append_orphan. destruct Hok as [Hnd Ht]. rewrite Ht.
  destruct (last nas.(nas_orphans)) as [z|] eqn:El; cbn [fmap option_fmap option_map].
  - rewrite decide_True by done. run_outcome.
    eexists _, _, o. split; [done|]. split; [apply lookup_insert_eq|].
    cbn [nas_orphans nas_orphans_tail set_nas_orphans]. rewrite peel_fresh, Hfresh.
    split; [|done]. split; [|by rewrite last_snoc].
    destruct (fresh_orphans_suffix o.(or_tvsec) nas.(nas_orphans)) as [k Hk].
    rewrite Hk, fmap_app in Hnd. apply NoDup_app in Hnd as (_ & _ & Hnd).
    rewrite fmap_app. apply NoDup_app. split_and!; [done| |by apply NoDup_singleton].
    intros a (x & -> & Hx)%list_elem_of_fmap Ha. apply list_elem_of_singleton in Ha.
    assert (x.(or_addr) < g.(rg_next)); [|simpl in Ha; lia].
    apply Hlt. rewrite Hk. apply elem_of_app. by right.
  - apply last_None in El. rewrite El in *. run_outcome.
    eexists _, _, o. split; [done|]. split; [apply lookup_insert_eq|].
    cbn [nas_orphans nas_orphans_tail set_nas_orphans].
    split; [|done]. split; [apply NoDup_singleton|done].
Qed.

(** ** A request and its response *)

(** What changes in the tables when the requests of users are edited: nothing but the
    users, and no user comes or goes. *)
Definition users_edited (g g' : radius_global_t) : Prop :=
  g'.(rg_nases) = g.(rg_nases) ∧ g'.(rg_reqs) = g.(rg_reqs) ∧
  g'.(rg_parsedpkt) = g.(rg_parsedpkt) ∧ g'.(rg_next) = g.(rg_next) ∧
  g'.(rg_freeaccreqs) = g.(rg_freeaccreqs) ∧ g'.(rg_freeattrs) = g.(rg_freeattrs) ∧
  dom g'.(rg_users) = dom g.(rg_users).

#[global] Instance users_edited_preorder : PreOrder users_edited.
Proof.
  split.
  - by intros g.
  - intros g1 g2 g3 (A1 & A2 & A3 & A4 & A5 & A6 & A7) (B1 & B2 & B3 & B4 & B5 & B6 & B7).
    split_and!; congruence.
Qed.

(** Editing the saved requests of live users, one after the other. *)
Definition edit_user (f : gmap Z Z → gmap Z Z) (g : radius_global_t) (p : Z) : radius_global_t :=
  match g.(rg_users) !! p with
  | Some u => put_user p (set_ru_savedrequests (f u.(ru_savedrequests)) u) g
  | None => g
  end.

(** The request a user has saved under an id. *)
Definition saved_at (g : radius_global_t) (p reqid : Z) : option Z :=
  match g.(rg_users) !! p with Some u => u.(ru_savedrequests) !! reqid | None => None end.

Lemma edit_user_edited f g p : users_edited g (edit_user f g p).
Proof.
  unfold edit_user. destruct (g.(rg_users) !! p) as [u|] eqn:E; [|done].
  split_and!; [done..|]. cbn [put_user set_rg_users rg_users].
  apply dom_insert_lookup_L. eauto.
Qed.

Lemma edit_users_edited f ps g : users_edited g (foldl (edit_user f) g ps).
Proof.
  revert g. induction ps as [|p ps IH]; intros g; [done|]. simpl.
  etrans; [apply edit_user_edited|apply IH].
Qed.

(** If the edit always leaves [r] at the id, that is what the users have. *)
Lemma saved_at_edit_users f reqid r ps g q :
  (∀ m, f m !! reqid = r) → q ∈ dom g.(rg_users) →
  saved_at (foldl (edit_user f) g ps) q reqid =
  if decide (q ∈ ps) then r else saved_at g q reqid.
Proof.
  intros Hf. revert g. induction ps as [|p ps IH]; intros g Hq; [done|]. simpl.
  destruct (edit_user_edited f g p) as (_ & _ & _ & _ & _ & _ & Hd).
  rewrite IH by (by rewrite Hd).
  assert (Hs : saved_at (edit_user f g p) q reqid = if decide (q = p) then r else saved_at g q reqid).
  { unfold saved_at, edit_user. destruct (decide (q = p)) as [->|Hne].
    - apply elem_of_dom in Hq as [u Hu]. rewrite Hu. cbn [put_user set_rg_users rg_users].
      rewrite lookup_insert_eq. apply Hf.
    - destruct (rg_users g !! p); [|done]. cbn [put_user set_rg_users rg_users].
      by rewrite lookup_insert_ne by done. }
  rewrite Hs. destruct (decide (q ∈ ps)); [rewrite decide_True by (by right); done|].
  destruct (decide (q = p)) as [->|]; [by rewrite decide_True by (left)|].
  rewrite decide_False; [done|]. by rewrite not_elem_of_cons.
Qed.

Lemma remember_request_edit reqid reqp ps g :
  Forall (λ p, p ∈ dom g.(rg_users)) ps →
  remember_request reqid reqp (Some <$> ps) g = Ok (foldl (edit_user <[reqid := reqp]>) g ps).
Proof.
  revert g. induction ps as [|p ps IH]; intros g Hl; [done|].
  inversion Hl as [|? ? Hp Hl']; subst. cbn [fmap list_fmap remember_request deref foldl].
  unfold get_user. run_outcome. unfold edit_user at 2.
  apply elem_of_dom in Hp as [u Hu]. rewrite Hu. run_outcome. apply IH.
  eapply Forall_impl; [exact Hl'|]. intros q Hq. cbn [put_user set_rg_users rg_users].
  rewrite dom_insert_L. apply elem_of_union. by right.
Qed.

Lemma forget_request_edit reqid ps g :
  Forall (λ p, p ∈ dom g.(rg_users)) ps →
  forget_request reqid (Some <$> ps) g = Ok (foldl (edit_user (delete reqid)) g ps).
Proof.
  revert g. induction ps as [|p ps IH]; intros g Hl; [done|].
  inversion Hl as [|? ? Hp Hl']; subst. cbn [fmap list_fmap forget_request foldl].
  unfold get_user. unfold edit_user at 2.
  apply elem_of_dom in Hp as [u Hu]. rewrite Hu. run_outcome. apply IH.
  eapply Forall_impl; [exact Hl'|]. intros q Hq. cbn [put_user set_rg_users rg_users].
  rewrite dom_insert_L. apply elem_of_union. by right.
Qed.

(** A request whose users are known, and a response to it. *)
Definition answers (rd' rd : radius_parsed_t) : Prop :=
  is_response rd'.(rd_msgtype) = true ∧ request_code rd'.(rd_msgtype) = rd.(rd_msgtype) ∧
  rd'.(rd_msgident) = rd.(rd_msgident) ∧ rd'.(rd_sourceport) = rd.(rd_sourceport) ∧
  rd'.(rd_matchednas) = rd.(rd_matchednas).

Lemma answers_id rd' rd :
  answers rd' rd →
  DERIVE_REQUEST_ID rd' (request_code rd'.(rd_msgtype)) = DERIVE_REQUEST_ID rd rd.(rd_msgtype).
Proof. intros (_ & H1 & H2 & H3 & _). unfold DERIVE_REQUEST_ID. by rewrite H1, H2, H3. Qed.

Lemma insert_request_ok g nasp nas reqid ps :
  g.(rg_nases) !! nasp = Some nas →
  ztake g.(rg_parsedpkt).(rd_muser_count) g.(rg_parsedpkt).(rd_matchedusers) = Some <$> ps →
  Forall (λ p, p ∈ dom g.(rg_users)) ps →
  ∃ reqp g1, insert_request nasp reqid g = Ok g1 ∧
    g1.(rg_nases) =
      <[nasp := set_nas_request_map (<[reqid := reqp]> nas.(nas_request_map)) nas]> g.(rg_nases) ∧
    g1.(rg_reqs) !! reqp = Some (request_of g.(rg_parsedpkt) reqid) ∧
    dom g1.(rg_users) = dom g.(rg_users) ∧
    (∀ p, p ∈ ps → saved_at g1 p reqid = Some reqp).
Proof.
  intros Hn Hps Hlive. unfold insert_request. destruct (alloc_request g) as [reqp g0] eqn:Ea.
  assert (H0 : g0.(rg_nases) = g.(rg_nases) ∧ g0.(rg_users) = g.(rg_users))
    by (unfold alloc_request in Ea; case_match; by simplify_eq).
  destruct H0 as [Hn0 Hu0]. unfold get_nas. rewrite Hn0, Hn. run_outcome. rewrite Hps.
  match goal with |- context [remember_request reqid reqp _ ?x] => set (ga := x) end.
  assert (Hu : ga.(rg_users) = g.(rg_users)) by exact Hu0.
  rewrite remember_request_edit by (by rewrite Hu).
  destruct (edit_users_edited <[reqid := reqp]> ps ga) as (E1 & E2 & _ & _ & _ & _ & E7).
  eexists reqp, _. split; [done|]. rewrite E1, E2, E7, Hu.
  split_and!; [unfold ga, put_nas; cbn [set_rg_nases rg_nases]; by rewrite <- Hn0
              |apply lookup_insert_eq|done|].
  intros p Hp. rewrite (saved_at_edit_users _ reqid (Some reqp)).
  - by rewrite decide_True.
  - intros. apply lookup_insert_eq.
  - rewrite Hu. by apply (proj1 (Forall_forall _ _) Hlive).
Qed.

Lemma find_matching_request_ok g reqid nasp nas reqp req ps :
  let rd := g.(rg_parsedpkt) in
  is_response rd.(rd_msgtype) = true →
  DERIVE_REQUEST_ID rd (request_code rd.(rd_msgtype)) = reqid →
  rd.(rd_matchednas) = Some nasp → g.(rg_nases) !! nasp = Some nas →
  nas.(nas_request_map) !! reqid = Some reqp → g.(rg_reqs) !! reqp = Some req →
  req.(rq_reqid) = reqid →
  ztake req.(rq_targetuser_count) req.(rq_targetusers) = Some <$> ps →
  Forall (λ p, p ∈ dom g.(rg_users)) ps →
  ∃ g2, find_matching_request g = Ok g2 ∧
    g2.(rg_parsedpkt) = take_request reqp req rd ∧ g2.(rg_reqs) = g.(rg_reqs) ∧
    g2.(rg_nases) =
      <[nasp := set_nas_request_map (delete reqid nas.(nas_request_map)) nas]> g.(rg_nases) ∧
    dom g2.(rg_users) = dom g.(rg_users) ∧
    (∀ p, p ∈ ps → saved_at g2 p reqid = None).
Proof.
  intros rd Hr Hid Hm Hn Hq Hreq Hrid Hps Hlive.
  unfold find_matching_request. fold rd. rewrite Hr, Hid, Hm. cbn [deref]. run_outcome.
  unfold get_nas. rewrite Hn. run_outcome. rewrite Hq. unfold get_req. rewrite Hreq. run_outcome.
  rewrite Hps. rewrite forget_request_edit by done.
  set (ga := set_rg_parsedpkt _ g).
  destruct (edit_users_edited (delete reqid) ps ga) as (E1 & E2 & E3 & _ & _ & _ & E7).
  run_outcome. unfold hash_delete_req, get_nas. rewrite E1.
  change (rg_nases ga) with (rg_nases g). rewrite Hn. run_outcome. rewrite Hrid.
  rewrite decide_True by done. eexists. split; [done|].
  cbn [put_nas set_rg_nases rg_parsedpkt rg_reqs rg_nases rg_users]. rewrite E1, E2, E3, E7.
  split_and!; [done..|]. intros p Hp.
  change (saved_at (foldl (edit_user (delete reqid)) ga ps) p reqid = None).
  rewrite (saved_at_edit_users _ reqid None).
  - by rewrite decide_True.
  - intros. apply lookup_delete_eq.
  - by apply (proj1 (Forall_forall _ _) Hlive).
Qed.

(** C28: a request that was saved is found by its response.  After [insert_request]
    every user of the request has it, and when a packet that answers it arrives, the
    packet takes over the users, the accounting status and the session of the request;
    the request is taken out of the table and of the users' lists again, and the tables
    of NAS records are as they were before. *)
Theorem request_response_round_trip (g : radius_global_t) (rd' : radius_parsed_t)
    (nasp : Z) (nas : radius_nas_t) (ps : list Z) :
  let rd := g.(rg_parsedpkt) in
  let reqid := DERIVE_REQUEST_ID rd rd.(rd_msgtype) in
  rd.(rd_matchednas) = Some nasp → g.(rg_nases) !! nasp = Some nas →
  nas.(nas_request_map) !! reqid = None →
  ztake rd.(rd_muser_count) rd.(rd_matchedusers) = Some <$> ps →
  Forall (λ p, p ∈ dom g.(rg_users)) ps → answers rd' rd →
  ∃ g1 reqp g2,
    insert_request nasp reqid g = Ok g1 ∧
    (∀ p, p ∈ ps → saved_at g1 p reqid = Some reqp) ∧
    find_matching_request (set_rg_parsedpkt rd' g1) = Ok g2 ∧
    g2.(rg_parsedpkt) = take_request reqp (request_of rd reqid) rd' ∧
    g2.(rg_reqs) !! reqp = Some (request_of rd reqid) ∧
    g2.(rg_nases) = g.(rg_nases) ∧ dom g2.(rg_users) = dom g.(rg_users) ∧
    (∀ p, p ∈ ps → saved_at g2 p reqid = None).
Proof.
  intros rd reqid Hm Hn Hno Hps Hlive Hans.
  destruct (insert_request_ok g nasp nas reqid ps Hn Hps Hlive)
    as (reqp & g1 & E1 & Hn1 & Hr1 & Hu1 & Hs1).
  destruct (find_matching_request_ok (set_rg_parsedpkt rd' g1) reqid nasp
    (set_nas_request_map (<[reqid := reqp]> nas.(nas_request_map)) nas) reqp
    (request_of rd reqid) ps) as (g2 & E2 & H1 & H2 & H3 & H4 & H5).
  - by apply Hans.
  - by apply answers_id.
  - destruct Hans as (_ & _ & _ & _ & Hmn). cbn [set_rg_parsedpkt rg_parsedpkt]. by rewrite Hmn.
  - cbn [set_rg_parsedpkt rg_nases]. rewrite Hn1. apply lookup_insert_eq.
  - apply lookup_insert_eq.
  - done.
  - done.
  - done.
  - cbn [set_rg_parsedpkt rg_users]. by rewrite Hu1.
  - exists g1, reqp, g2. split_and!; [done..|by rewrite H2| |by rewrite H4|done].
    rewrite H3. cbn [set_rg_parsedpkt rg_nases set_nas_request_map nas_request_map]. rewrite Hn1.
    rewrite insert_insert_eq, delete_insert_id by done. apply insert_id. rewrite Hn. by destruct nas.
Qed.

(** ** Exchanges *)

(** One packet for its first user, as the synchronisation thread handles it. *)
Definition handle_packet (pkt : radius_packet) (st : list Z * session_store * radius_global_t)
    : outcome (option session_update * (list Z * session_store * radius_global_t)) :=
  let '(l, ss, g) := st in
  '(_, g) ← radius_parse_packet pkt g;
  '(ids, g) ← radius_get_userid g;
  match ids with
  | Some (i :: _) =>
      '(u, l, ss, g) ← radius_update_session_state 1700000000 (Some i.(ui_plugindata)) l ss g;
      g ← radius_destroy_parsed_data g;
      Ok (u, (l, ss, g))
  | _ => g ← radius_destroy_parsed_data g; Ok (None, (l, ss, g))
  end.

Fixpoint handle_packets (pkts : list radius_packet)
    (st : list Z * session_store * radius_global_t)
    : outcome (list Z * session_store * radius_global_t) :=
  match pkts with
  | [] => Ok st
  | pkt :: pkts => '(_, st) ← handle_packet pkt st; handle_packets pkts st
  end.

Definition start_state : list Z * session_store * radius_global_t :=
  ([], Mksession_store ∅ 0, empty_plugin).

(** The addresses of the sessions after a list of packets. *)
Definition ips_after (pkts : list radius_packet) : outcome (list (list internetaccess_ip_t)) :=
  '(l, ss, _) ← handle_packets pkts start_state;
  Ok (map (λ p, from_option session_ips [] (ss.(ss_heap) !! p)) l).

Definition server2 : bytes := [10; 0; 0; 2].
Definition accounting_start : radius_packet :=
  radius_message server2 5000000 RADIUS_CODE_ACCOUNT_REQUEST 7
    (sample_attrs ++ [(RADIUS_ATTR_ACCT_STATUS_TYPE, [0; 0; 0; 1]);
                      (RADIUS_ATTR_FRAMED_IP_ADDRESS, [192; 168; 1; 7])]).
Definition accounting_response : radius_packet :=
  radius_message server2 5000100 RADIUS_CODE_ACCOUNT_RESPONSE 7 [].

(** The address of an accounting start is recorded once when the request is seen
    first, and twice when its response overtook it. *)
Lemma overtaken_start_counts_twice :
  ips_after [accounting_start; accounting_response] =
    Ok [[Mkinternetaccess_ip_t AF_INET [192; 168; 1; 7] 32]] ∧
  ips_after [accounting_response; accounting_start] =
    Ok [[Mkinternetaccess_ip_t AF_INET [192; 168; 1; 7] 32;
         Mkinternetaccess_ip_t AF_INET [192; 168; 1; 7] 32]].
Proof. split; by vm_compute. Qed.

Definition sample_answer : radius_parsed_t :=
  set_rd_matchednas sample_state.(rg_parsedpkt).(rd_matchednas)
    (set_rd_addresses zero_sockaddr zero_sockaddr 1557
      (set_rd_header 5000100 RADIUS_CODE_ACCESS_ACCEPT 7 (0, []) reset_parsed_packet)).

Lemma request_response_round_trip_witness :
  let rd := sample_state.(rg_parsedpkt) in
  let reqid := DERIVE_REQUEST_ID rd rd.(rd_msgtype) in
  ∃ g1 reqp g2,
    insert_request 0 reqid sample_state = Ok g1 ∧
    (∀ p, p ∈ [4] → saved_at g1 p reqid = Some reqp) ∧
    find_matching_request (set_rg_parsedpkt sample_answer g1) = Ok g2 ∧
    g2.(rg_parsedpkt) = take_request reqp (request_of rd reqid) sample_answer ∧
    g2.(rg_reqs) !! reqp = Some (request_of rd reqid) ∧
    g2.(rg_nases) = sample_state.(rg_nases) ∧
    dom g2.(rg_users) = dom sample_state.(rg_users) ∧
    (∀ p, p ∈ [4] → saved_at g2 p reqid = None).
Proof.
  apply (request_response_round_trip sample_state sample_answer 0
           (default (new_nas []) (sample_state.(rg_nases) !! 0)) [4]).
  - by vm_compute.
  - by vm_compute.
  - by vm_compute.
  - by vm_compute.
  - constructor; [|constructor]. apply (bool_decide_unpack (4 ∈ dom _)). by vm_compute.
  - by vm_compute.
Defined.

(** ** Packets the plugin is not prepared for *)

(** a request that names a user for whom no NAS identifier was ever seen stops the
    collector: [radius_update_session_state] runs into [assert(0)], whatever else is
    known. *)
Theorem missing_nasidentifier_aborts (now user : Z) (sesslist : list Z) (ss : session_store)
    (g : radius_global_t) (u : radius_user_t) :
  g.(rg_users) !! user = Some u → u.(ru_nasidentifier) = None →
  g.(rg_parsedpkt).(rd_muser_count) ≠ 0 →
  radius_update_session_state now (Some user) sesslist ss g = Abort.
Proof.
  intros Hu Hn Hm. unfold radius_update_session_state.
  rewrite (proj2 (Z.eqb_neq _ 0)) by done. unfold get_user. rewrite Hu. run_outcome.
  unfold find_or_create_session, session_key. by rewrite Hn.
Qed.

(** The plugin after an Access-Request with a user name and nothing else. *)
Definition anonymous_state : radius_global_t :=
  match ('(_, g) ← radius_parse_packet (radius_message server2 5000000 RADIUS_CODE_ACCESS_REQUEST 7
                       [(RADIUS_ATTR_USERNAME, of_string "alice")]) empty_plugin;
         '(_, g) ← radius_get_userid g; Ok g) with
  | Ok g => g
  | _ => empty_plugin
  end.

Lemma missing_nasidentifier_aborts_witness :
  radius_update_session_state 1700000000 (Some 2) [] (Mksession_store ∅ 0) anonymous_state = Abort.
Proof.
  apply (missing_nasidentifier_aborts 1700000000 2 [] (Mksession_store ∅ 0) anonymous_state
           (default (Mkradius_user_t USER_IDENT_RADIUS_CSID [] None 0 ∅ ∅ 0)
              (anonymous_state.(rg_users) !! 2))); by vm_compute.
Defined.

Definition is_identity (a : radius_attribute_t) : bool :=
  (a.(att_type) =? RADIUS_ATTR_USERNAME) || (a.(att_type) =? RADIUS_ATTR_CALLING_STATION_ID).

(** The number of attributes that name a user. *)
Fixpoint identities_in (l : list radius_attribute_t) : Z :=
  match l with
  | [] => 0
  | a :: l => (if is_identity a then 1 else 0) + identities_in l
  end.

Lemma identities_in_nonneg l : 0 ≤ identities_in l.
Proof. induction l as [|a l IH]; simpl; [lia|]. destruct (is_identity a); lia. Qed.

(** Adding a user either counts one more or is the write behind [matchedusers]. *)
Lemma add_user_identity_cases a g nasp :
  attr_ok a → is_identity a = true → g.(rg_parsedpkt).(rd_matchednas) = Some nasp →
  is_Some (g.(rg_nases) !! nasp) →
  (g.(rg_parsedpkt).(rd_muser_count) < USER_IDENT_MAX ∧
   ∃ p g', add_user_identity a g = Ok (Some p, g') ∧
     g'.(rg_parsedpkt).(rd_muser_count) = g.(rg_parsedpkt).(rd_muser_count) + 1 ∧
     g'.(rg_parsedpkt).(rd_matchednas) = Some nasp ∧ is_Some (g'.(rg_nases) !! nasp)) ∨
  (USER_IDENT_MAX ≤ g.(rg_parsedpkt).(rd_muser_count) ∧ add_user_identity a g = Undef).
Proof.
  intros (Hl & Hz & _) Hi Hm [nas Hn]. unfold add_user_identity.
  assert (Hp : ∃ pfx method, user_prefix a.(att_type) = Some (pfx, method)).
  { unfold user_prefix, is_identity in *. apply orb_true_iff in Hi as [-> | Hi]; [by eauto|].
    rewrite Hi. case_match; eauto. }
  destruct Hp as (pfx & method & ->). rewrite (proj2 (Z.ltb_lt _ _)) by lia.
  cbn [c_assert]. run_outcome. rewrite read_bytes_Ok by done. run_outcome.
  rewrite Hm. cbn [deref]. run_outcome. unfold get_nas. rewrite Hn. run_outcome.
  unfold match_user. destruct (decide (g.(rg_parsedpkt).(rd_muser_count) < USER_IDENT_MAX)) as [Hd|Hd].
  - left. split; [done|]. destruct (nas_user_map nas !! _); run_outcome;
      (eexists _, _; split; [done|]); split; try done; split; try done; cbn; eauto.
    rewrite lookup_insert_eq. eauto.
  - right. split; [lia|]. by destruct (nas_user_map nas !! _).
Qed.

(** C39: a request with more than four user names and calling station ids makes the
    plugin write behind the array of matched users: [process_username_attribute] is
    undefined for every such packet, and defined for every other one. *)
Theorem too_many_identities_undefined (l : list radius_attribute_t) (got nasp : Z)
    (g : radius_global_t) :
  Forall attr_ok l → g.(rg_parsedpkt).(rd_matchednas) = Some nasp →
  is_Some (g.(rg_nases) !! nasp) → g.(rg_parsedpkt).(rd_muser_count) ≤ USER_IDENT_MAX →
  if decide (g.(rg_parsedpkt).(rd_muser_count) + identities_in l ≤ USER_IDENT_MAX)
  then ∃ r g', match_usernames l got g = Ok (r, g') ∧
         g'.(rg_parsedpkt).(rd_muser_count) = g.(rg_parsedpkt).(rd_muser_count) + identities_in l
  else match_usernames l got g = Undef.
Proof.
  revert got g. induction l as [|a l IH]; intros got g Hl Hm Hn Hle.
  { simpl. rewrite decide_True by lia. eexists _, _. split; [done|]. lia. }
  inversion Hl as [|? ? Ha Hl']; subst. cbn [match_usernames identities_in].
  fold (is_identity a). destruct (is_identity a) eqn:Ei; [|by apply IH].
  destruct (add_user_identity_cases a g nasp) as [(Hlt & p & g' & E & Hc & Hm' & Hn')|[Hge E]];
    [done..| |]; rewrite E; run_outcome.
  - rewrite bool_decide_eq_true_2 by eauto. cbn [c_assert]. run_outcome.
    specialize (IH (if att_type a =? RADIUS_ATTR_USERNAME then 1 else got) g' Hl' Hm' Hn').
    rewrite Hc, <- Z.add_assoc in IH. apply IH. lia.
  - pose proof (identities_in_nonneg l). by rewrite decide_False by lia.
Qed.

Definition name_attr : radius_attribute_t :=
  Mkradius_attribute_t 0 RADIUS_ATTR_USERNAME 1 (97 :: replicate 63 0).

Lemma too_many_identities_undefined_witness :
  match_usernames (replicate 5 name_attr) (-1)
    (set_rg_parsedpkt (set_rd_muser_count 0 anonymous_state.(rg_parsedpkt)) anonymous_state) = Undef.
Proof.
  apply (too_many_identities_undefined (replicate 5 name_attr) (-1) 0
    (set_rg_parsedpkt (set_rd_muser_count 0 anonymous_state.(rg_parsedpkt)) anonymous_state)).
  - apply Forall_replicate. split_and!; [by vm_compute..|].
    apply (bool_decide_unpack (Forall is_byte _)). by vm_compute.
  - by vm_compute.
  - apply (bool_decide_unpack (is_Some _)). by vm_compute.
  - by vm_compute.
Defined.

(** A response that carries a NAS identifier, to a request one of whose users is gone,
    follows a NULL pointer. *)
Lemma lost_user_undefined nasid ps l g :
  Forall (λ p, p ∈ dom g.(rg_users)) ps →
  update_nasids nasid ((Some <$> ps) ++ None :: l) g = Undef.
Proof.
  revert g. induction ps as [|p ps IH]; intros g Hl; [done|].
  inversion Hl as [|? ? Hp Hl']; subst. cbn [fmap list_fmap app update_nasids deref].
  unfold get_user. run_outcome. apply elem_of_dom in Hp as [u Hu]. rewrite Hu. run_outcome.
  apply IH. eapply Forall_impl; [exact Hl'|]. intros q Hq. case_match; [done|].
  cbn [put_user set_rg_users rg_users]. rewrite dom_insert_L. apply elem_of_union. by right.
Qed.

(** A prefix attribute of one byte makes the length of the address negative. *)
Lemma short_prefix_undefined a l sess :
  attr_ok a → a.(att_type) = RADIUS_ATTR_DELEGATED_IPV6_PREFIX → a.(att_len) < 2 →
  extract_ips (a :: l) sess = Undef.
Proof.
  intros Ha Ht Hlen. cbn [extract_ips]. rewrite Ht.
  change (RADIUS_ATTR_DELEGATED_IPV6_PREFIX =? RADIUS_ATTR_FRAMED_IP_ADDRESS) with false.
  change (RADIUS_ATTR_DELEGATED_IPV6_PREFIX =? RADIUS_ATTR_FRAMED_IPV6_ADDRESS) with false.
  change (RADIUS_ATTR_DELEGATED_IPV6_PREFIX =? RADIUS_ATTR_DELEGATED_IPV6_PREFIX) with true.
  cbn [orb]. run_outcome. destruct Ha as (_ & _ & H64 & _). unfold STANDARD_ATTR_ALLOC in H64.
  destruct (read_le_Ok 1 (zdrop 1 a.(att_val))) as [v ->]; [rewrite zlen_zdrop; lia|].
  run_outcome. apply add_new_session_ip_negative. lia.
Qed.

(** Servers are told apart by the bytes of their address before the first zero only,
    and all NASes that talk to one server share a record. *)
Lemma server_key_prefix pfx rest : cstr_ok pfx → server_key (pfx ++ 0 :: rest) = pfx.
Proof.
  intros Hp. unfold server_key. rewrite <- app_assoc. cbn [app].
  generalize (rest ++ replicate (Z.to_nat (20 - zlen (pfx ++ 0 :: rest))) 0) as z. intros z.
  induction Hp as [|x pfx Hx _ IH]; [done|]. cbn [app until_nul].
  rewrite decide_False by lia. by rewrite IH.
Qed.
