(* ===== verification/Gtp.v ===== *)
(** * The GTP plugin (src/src/collector/accessplugins/gtp.c)

    The other access protocol: mobile sessions, as the messages between the nodes of a
    packet core create and delete them.  A message is parsed into information elements,
    matched with the session of its tunnel endpoint (TEID) and saved until the other half
    of its exchange arrives; both are then applied to the state of the session.

    The plugin's own sessions are in a heap ([gg_sessions]); [session_map] and
    [alt_session_map] are Judy arrays of strings that point to them.  A pointer into the
    address block of a session of the callers ([gs_pdpaddrs]) is the address of that
    session.  Times are in microseconds.  The packet is what libtrace gives, as for RADIUS;
    memory behind the captured bytes must not be read. *)

From stdpp Require Import gmap.
From S2P Require Import Prelude ByteOrder Publish AccessSession Radius RadiusSession Ipiri.

Definition GTP_FLUSH_OLD_PKT_FREQ : Z := 180 * 1000000.

Definition GTPV1_IE_CAUSE : Z := 1.
Definition GTPV1_IE_IMSI : Z := 2.
Definition GTPV1_IE_TEID_CTRL : Z := 17.
Definition GTPV1_IE_END_USER_ADDRESS : Z := 128.
Definition GTPV1_IE_APNAME : Z := 131.
Definition GTPV1_IE_MSISDN : Z := 134.
Definition GTPV1_IE_ULI : Z := 152.
Definition GTPV1_IE_MEI : Z := 154.

Definition GTPV2_IE_IMSI : Z := 1.
Definition GTPV2_IE_CAUSE : Z := 2.
Definition GTPV2_IE_APNAME : Z := 71.
Definition GTPV2_IE_MEI : Z := 75.
Definition GTPV2_IE_MSISDN : Z := 76.
Definition GTPV2_IE_PDN_ALLOC : Z := 79.
Definition GTPV2_IE_ULI : Z := 86.
Definition GTPV2_IE_FTEID : Z := 87.

Definition GTPV2_CAUSE_REQUEST_ACCEPTED : Z := 16.
Definition GTPV1_CAUSE_REQUEST_ACCEPTED : Z := 128.
Definition SM_CAUSE_REGULAR_DEACTIVATION : Z := 36.

Definition GTPV1_CREATE_PDP_CONTEXT_REQUEST : Z := 16.
Definition GTPV1_CREATE_PDP_CONTEXT_RESPONSE : Z := 17.
Definition GTPV1_UPDATE_PDP_CONTEXT_REQUEST : Z := 18.
Definition GTPV1_UPDATE_PDP_CONTEXT_RESPONSE : Z := 19.
Definition GTPV1_DELETE_PDP_CONTEXT_REQUEST : Z := 20.
Definition GTPV1_DELETE_PDP_CONTEXT_RESPONSE : Z := 21.
Definition GTPV2_CREATE_SESSION_REQUEST : Z := 32.
Definition GTPV2_CREATE_SESSION_RESPONSE : Z := 33.
Definition GTPV2_DELETE_SESSION_REQUEST : Z := 36.
Definition GTPV2_DELETE_SESSION_RESPONSE : Z := 37.

(** ** Data *)

(** [ielength] bytes of content. *)
Record gtp_infoelem_t : Type := Mkgtp_infoelem_t {
  ie_type : Z;
  ie_length : Z;
  ie_flags : Z;
  ie_content : bytes;
}.

(** The parameters of a session: the blocks that are allocated with one zero byte more
    than their length. *)
Record gtp_sess_saved_t : Type := Mkgtp_sess_saved_t {
  gv_imsi : bytes;
  gv_msisdn : bytes;
  gv_apname : bytes;
  gv_imei : bytes;
  gv_location : option bytes;
  gv_loc_version : Z;
}.

Record gtp_session_t : Type := Mkgtp_session_t {
  gs_sessid : bytes;
  gs_imsi : cstring;
  gs_msisdn : cstring;
  gs_saved : gtp_sess_saved_t;
  gs_idstr : bytes;
  gs_idstr_len : Z;
  gs_teid : Z;
  gs_pdpaddrs : option Z;
  gs_pdpaddrcount : Z;
  gs_pdptype : Z;
  gs_cin : Z;
  gs_serverid : bytes;
  gs_serveripfamily : Z;
  gs_current : session_state_t;
}.

Record gtp_saved_pkt_t : Type := Mkgtp_saved_pkt_t {
  sp_reqid : Z;
  sp_version : Z;
  sp_type : Z;
  sp_applied : Z;
  sp_tvsec : Z;
  sp_response_cause : Z;
  sp_ipcontent : option bytes;
  sp_ies : list gtp_infoelem_t;
  sp_matched_session : option Z;
}.

(** [imsi] and [msisdn] are strings in blocks of 16 bytes. *)
Record gtp_parsed_t : Type := Mkgtp_parsed_t {
  gp_origpkt : option radius_packet;
  gp_version : Z;
  gp_msgtype : Z;
  gp_tvsec : Z;
  gp_teid : Z;
  gp_teid_ctl : Z;
  gp_seqno : Z;
  gp_response_cause : Z;
  gp_serveripfamily : Z;
  gp_serverid : bytes;
  gp_imsi : bytes;
  gp_msisdn : bytes;
  gp_request : option gtp_saved_pkt_t;
  gp_response : option gtp_saved_pkt_t;
  gp_ies : list gtp_infoelem_t;
  gp_matched_session : option Z;
  gp_action : access_action_t;
}.

Record gtp_global_t : Type := Mkgtp_global_t {
  gg_parsedpkt : gtp_parsed_t;
  gg_saved_packets : gmap Z gtp_saved_pkt_t;
  gg_session_map : gmap bytes Z;
  gg_alt_session_map : gmap bytes Z;
  gg_lastrefresh : Z;
  gg_sessions : gmap Z gtp_session_t;
  gg_next : Z;
}.

Definition set_gp_header (pkt : radius_packet) (version msgtype teid seqno : Z) (x : gtp_parsed_t)
    : gtp_parsed_t :=
  Mkgtp_parsed_t (Some pkt) version msgtype x.(gp_tvsec) teid x.(gp_teid_ctl) seqno
    x.(gp_response_cause) x.(gp_serveripfamily) x.(gp_serverid) x.(gp_imsi) x.(gp_msisdn)
    x.(gp_request) x.(gp_response) x.(gp_ies) x.(gp_matched_session) x.(gp_action).
Definition set_gp_tvsec (v : Z) (x : gtp_parsed_t) : gtp_parsed_t :=
  Mkgtp_parsed_t x.(gp_origpkt) x.(gp_version) x.(gp_msgtype) v x.(gp_teid) x.(gp_teid_ctl)
    x.(gp_seqno) x.(gp_response_cause) x.(gp_serveripfamily) x.(gp_serverid) x.(gp_imsi) x.(gp_msisdn)
    x.(gp_request) x.(gp_response) x.(gp_ies) x.(gp_matched_session) x.(gp_action).
Definition set_gp_teid (v : Z) (x : gtp_parsed_t) : gtp_parsed_t :=
  Mkgtp_parsed_t x.(gp_origpkt) x.(gp_version) x.(gp_msgtype) x.(gp_tvsec) v x.(gp_teid_ctl)
    x.(gp_seqno) x.(gp_response_cause) x.(gp_serveripfamily) x.(gp_serverid) x.(gp_imsi) x.(gp_msisdn)
    x.(gp_request) x.(gp_response) x.(gp_ies) x.(gp_matched_session) x.(gp_action).
Definition set_gp_teid_ctl (v : Z) (x : gtp_parsed_t) : gtp_parsed_t :=
  Mkgtp_parsed_t x.(gp_origpkt) x.(gp_version) x.(gp_msgtype) x.(gp_tvsec) x.(gp_teid) v
    x.(gp_seqno) x.(gp_response_cause) x.(gp_serveripfamily) x.(gp_serverid) x.(gp_imsi) x.(gp_msisdn)
    x.(gp_request) x.(gp_response) x.(gp_ies) x.(gp_matched_session) x.(gp_action).
Definition set_gp_response_cause (v : Z) (x : gtp_parsed_t) : gtp_parsed_t :=
  Mkgtp_parsed_t x.(gp_origpkt) x.(gp_version) x.(gp_msgtype) x.(gp_tvsec) x.(gp_teid) x.(gp_teid_ctl)
    x.(gp_seqno) v x.(gp_serveripfamily) x.(gp_serverid) x.(gp_imsi) x.(gp_msisdn)
    x.(gp_request) x.(gp_response) x.(gp_ies) x.(gp_matched_session) x.(gp_action).
Definition set_gp_server (family : Z) (id : bytes) (x : gtp_parsed_t) : gtp_parsed_t :=
  Mkgtp_parsed_t x.(gp_origpkt) x.(gp_version) x.(gp_msgtype) x.(gp_tvsec) x.(gp_teid) x.(gp_teid_ctl)
    x.(gp_seqno) x.(gp_response_cause) family id x.(gp_imsi) x.(gp_msisdn)
    x.(gp_request) x.(gp_response) x.(gp_ies) x.(gp_matched_session) x.(gp_action).
Definition set_gp_imsi (v : bytes) (x : gtp_parsed_t) : gtp_parsed_t :=
  Mkgtp_parsed_t x.(gp_origpkt) x.(gp_version) x.(gp_msgtype) x.(gp_tvsec) x.(gp_teid) x.(gp_teid_ctl)
    x.(gp_seqno) x.(gp_response_cause) x.(gp_serveripfamily) x.(gp_serverid) v x.(gp_msisdn)
    x.(gp_request) x.(gp_response) x.(gp_ies) x.(gp_matched_session) x.(gp_action).
Definition set_gp_msisdn (v : bytes) (x : gtp_parsed_t) : gtp_parsed_t :=
  Mkgtp_parsed_t x.(gp_origpkt) x.(gp_version) x.(gp_msgtype) x.(gp_tvsec) x.(gp_teid) x.(gp_teid_ctl)
    x.(gp_seqno) x.(gp_response_cause) x.(gp_serveripfamily) x.(gp_serverid) x.(gp_imsi) v
    x.(gp_request) x.(gp_response) x.(gp_ies) x.(gp_matched_session) x.(gp_action).
Definition set_gp_pair (request response : option gtp_saved_pkt_t) (x : gtp_parsed_t) : gtp_parsed_t :=
  Mkgtp_parsed_t x.(gp_origpkt) x.(gp_version) x.(gp_msgtype) x.(gp_tvsec) x.(gp_teid) x.(gp_teid_ctl)
    x.(gp_seqno) x.(gp_response_cause) x.(gp_serveripfamily) x.(gp_serverid) x.(gp_imsi) x.(gp_msisdn)
    request response x.(gp_ies) x.(gp_matched_session) x.(gp_action).
Definition set_gp_ies (v : list gtp_infoelem_t) (x : gtp_parsed_t) : gtp_parsed_t :=
  Mkgtp_parsed_t x.(gp_origpkt) x.(gp_version) x.(gp_msgtype) x.(gp_tvsec) x.(gp_teid) x.(gp_teid_ctl)
    x.(gp_seqno) x.(gp_response_cause) x.(gp_serveripfamily) x.(gp_serverid) x.(gp_imsi) x.(gp_msisdn)
    x.(gp_request) x.(gp_response) v x.(gp_matched_session) x.(gp_action).
Definition set_gp_matched_session (v : option Z) (x : gtp_parsed_t) : gtp_parsed_t :=
  Mkgtp_parsed_t x.(gp_origpkt) x.(gp_version) x.(gp_msgtype) x.(gp_tvsec) x.(gp_teid) x.(gp_teid_ctl)
    x.(gp_seqno) x.(gp_response_cause) x.(gp_serveripfamily) x.(gp_serverid) x.(gp_imsi) x.(gp_msisdn)
    x.(gp_request) x.(gp_response) x.(gp_ies) v x.(gp_action).
Definition set_gp_action (v : access_action_t) (x : gtp_parsed_t) : gtp_parsed_t :=
  Mkgtp_parsed_t x.(gp_origpkt) x.(gp_version) x.(gp_msgtype) x.(gp_tvsec) x.(gp_teid) x.(gp_teid_ctl)
    x.(gp_seqno) x.(gp_response_cause) x.(gp_serveripfamily) x.(gp_serverid) x.(gp_imsi) x.(gp_msisdn)
    x.(gp_request) x.(gp_response) x.(gp_ies) x.(gp_matched_session) v.

Definition set_gg_parsedpkt (v : gtp_parsed_t) (g : gtp_global_t) : gtp_global_t :=
  Mkgtp_global_t v g.(gg_saved_packets) g.(gg_session_map) g.(gg_alt_session_map) g.(gg_lastrefresh)
    g.(gg_sessions) g.(gg_next).
Definition set_gg_saved (v : gmap Z gtp_saved_pkt_t) (g : gtp_global_t) : gtp_global_t :=
  Mkgtp_global_t g.(gg_parsedpkt) v g.(gg_session_map) g.(gg_alt_session_map) g.(gg_lastrefresh)
    g.(gg_sessions) g.(gg_next).
Definition set_gg_alt (v : gmap bytes Z) (g : gtp_global_t) : gtp_global_t :=
  Mkgtp_global_t g.(gg_parsedpkt) g.(gg_saved_packets) g.(gg_session_map) v g.(gg_lastrefresh)
    g.(gg_sessions) g.(gg_next).
Definition set_gg_lastrefresh (v : Z) (g : gtp_global_t) : gtp_global_t :=
  Mkgtp_global_t g.(gg_parsedpkt) g.(gg_saved_packets) g.(gg_session_map) g.(gg_alt_session_map) v
    g.(gg_sessions) g.(gg_next).
Definition set_gg_sessions (v : gmap Z gtp_session_t) (g : gtp_global_t) : gtp_global_t :=
  Mkgtp_global_t g.(gg_parsedpkt) g.(gg_saved_packets) g.(gg_session_map) g.(gg_alt_session_map)
    g.(gg_lastrefresh) v g.(gg_next).

Definition get_gsess (a : Z) (g : gtp_global_t) : outcome gtp_session_t := deref (g.(gg_sessions) !! a).
Definition put_gsess (a : Z) (gs : gtp_session_t) (g : gtp_global_t) : gtp_global_t :=
  set_gg_sessions (<[a := gs]> g.(gg_sessions)) g.

(** [reset_parsed_pkt] *)
Definition reset_parsed_pkt : gtp_parsed_t :=
  Mkgtp_parsed_t None 0 0 0 0 0 0 0 0 (replicate 16 0) [] [] None None [] None ACCESS_ACTION_NONE.
(** [gtp_init_plugin_data] *)
Definition gtp_init_plugin_data : gtp_global_t := Mkgtp_global_t reset_parsed_pkt ∅ ∅ ∅ 0 ∅ 0.
(** [gtp_destroy_parsed_data]: the message in the plugin is always attached. *)
Definition gtp_destroy_parsed_data (g : gtp_global_t) : gtp_global_t :=
  set_gg_parsedpkt reset_parsed_pkt g.

(** ** Information elements *)

(** [interesting_info_element] *)
Definition interesting_info_element (gtpv ietype : Z) : bool :=
  if gtpv =? 2 then
    (ietype =? GTPV2_IE_IMSI) || (ietype =? GTPV2_IE_FTEID) || (ietype =? GTPV2_IE_MSISDN) ||
    (ietype =? GTPV2_IE_PDN_ALLOC) || (ietype =? GTPV2_IE_CAUSE) || (ietype =? GTPV2_IE_MEI) ||
    (ietype =? GTPV2_IE_APNAME) || (ietype =? GTPV2_IE_ULI)
  else if gtpv =? 1 then
    (ietype =? GTPV1_IE_CAUSE) || (ietype =? GTPV1_IE_IMSI) || (ietype =? GTPV1_IE_TEID_CTRL) ||
    (ietype =? GTPV1_IE_END_USER_ADDRESS) || (ietype =? GTPV1_IE_APNAME) ||
    (ietype =? GTPV1_IE_MSISDN) || (ietype =? GTPV1_IE_ULI) || (ietype =? GTPV1_IE_MEI)
  else false.

(** [create_new_gtpv2_infoel], [create_new_gtpv1_infoel]: [ieptr] is the memory at the
    element. *)
Definition create_new_gtpv2_infoel (ietype ielen : Z) (ieptr : bytes) : outcome gtp_infoelem_t :=
  flags ← read_le 1 (zdrop 3 ieptr);
  content ← read_bytes ielen (zdrop 4 ieptr);
  Ok (Mkgtp_infoelem_t ietype ielen flags content).
Definition create_new_gtpv1_infoel (ietype ielen : Z) (ieptr : bytes) : outcome gtp_infoelem_t :=
  content ← read_bytes ielen (zdrop (if Z.testbit ietype 7 then 3 else 1) ieptr);
  Ok (Mkgtp_infoelem_t ietype ielen 0 content).

(** [get_teid_from_teidctl], [get_teid_from_fteid], [get_cause_from_ie] *)
Definition get_teid_from_teidctl (gtpel : gtp_infoelem_t) : outcome Z :=
  v ← read_le 4 gtpel.(ie_content); Ok (ntohl v).
Definition get_teid_from_fteid (gtpel : gtp_infoelem_t) : outcome Z :=
  v ← read_le 4 (zdrop 1 gtpel.(ie_content)); Ok (ntohl v).
Definition get_cause_from_ie (gtpel : gtp_infoelem_t) : outcome Z := read_le 1 gtpel.(ie_content).

(** The loop of [get_gtpnum_from_ie]: two digits in a byte, up to a filler. *)
Fixpoint gtpnum_digits (l : bytes) : bytes :=
  match l with
  | [] => []
  | num :: l =>
      (48 + Z.land num 0x0f) ::
      (if Z.land num 0xf0 =? 0xf0 then [] else (48 + Z.shiftr (Z.land num 0xf0) 4) :: gtpnum_digits l)
  end.
(** [get_gtpnum_from_ie] into a field of 16 bytes; nothing keeps the loop inside of it. *)
Definition get_gtpnum_from_ie (gtpel : gtp_infoelem_t) (skipfront : Z) : outcome bytes :=
  let digits := gtpnum_digits (zdrop skipfront gtpel.(ie_content)) in
  if zlen digits <? 16 then Ok digits else Undef.

(** [gtpv1_lookup_ielen] *)
Definition gtpv1_lookup_ielen (ietype : Z) : Z :=
  default 0
    (snd <$> list_find (λ e, e.1 = ietype)
       [(1, 1); (2, 8); (3, 6); (4, 4); (5, 4); (8, 1); (9, 28); (11, 1); (12, 3); (13, 1); (14, 1);
        (15, 1); (16, 4); (17, 4); (18, 5); (19, 1); (20, 1); (21, 1); (22, 9); (23, 1); (24, 1);
        (25, 2); (26, 2); (27, 2); (28, 2); (29, 1); (127, 4)] ≫= λ r, Some r.2).

(** An assignment that depends on a type. *)
Definition if_type (b : bool) (m : outcome gtp_parsed_t) (p : gtp_parsed_t) : outcome gtp_parsed_t :=
  if b then m else Ok p.

(** What [walk_gtpv1_ies] does with an interesting element. *)
Definition note_gtpv1_ie (el : gtp_infoelem_t) (p : gtp_parsed_t) : outcome gtp_parsed_t :=
  let t := el.(ie_type) in
  let create := p.(gp_msgtype) =? GTPV1_CREATE_PDP_CONTEXT_REQUEST in
  let p := set_gp_ies (el :: p.(gp_ies)) p in
  p ← if_type (create && (t =? GTPV1_IE_TEID_CTRL)) (v ← get_teid_from_teidctl el; Ok (set_gp_teid v p)) p;
  p ← if_type (create && (t =? GTPV1_IE_IMSI)) (v ← get_gtpnum_from_ie el 0; Ok (set_gp_imsi v p)) p;
  p ← if_type (create && (t =? GTPV1_IE_MSISDN)) (v ← get_gtpnum_from_ie el 1; Ok (set_gp_msisdn v p)) p;
  p ← if_type (t =? GTPV1_IE_TEID_CTRL) (v ← get_teid_from_teidctl el; Ok (set_gp_teid_ctl v p)) p;
  if_type (t =? GTPV1_IE_CAUSE) (v ← get_cause_from_ie el; Ok (set_gp_response_cause v p)) p.

(** [walk_gtpv1_ies]: [ptr] is the memory at the pointer.  Every round moves it on, so one
    round for each of its bytes is enough. *)
Fixpoint walk_gtpv1_ies (fuel : nat) (ptr : bytes) (rem used gtplen : Z) (p : gtp_parsed_t)
    : outcome (Z * gtp_parsed_t) :=
  if (2 <? rem) && (used <? gtplen) then
    match fuel with
    | O => Undef
    | S fuel =>
        ietype ← read_le 1 ptr;
        ielen ← (if Z.testbit ietype 7 then v ← read_le 2 (zdrop 1 ptr); Ok (ntohs v)
                 else Ok (gtpv1_lookup_ielen ietype));
        if ielen =? 0 then Ok (-1, p)
        else
          p ← (if interesting_info_element p.(gp_version) ietype
               then el ← create_new_gtpv1_infoel ietype ielen ptr; note_gtpv1_ie el p else Ok p);
          let n := ielen + (if Z.testbit ietype 7 then 3 else 1) in
          walk_gtpv1_ies fuel (zdrop n ptr) (u32 (rem - n)) (u16 (used + n)) gtplen p
    end
  else Ok (0, p).

(** What [walk_gtpv2_ies] does with an interesting element. *)
Definition note_gtpv2_ie (el : gtp_infoelem_t) (p : gtp_parsed_t) : outcome gtp_parsed_t :=
  let t := el.(ie_type) in
  let create := p.(gp_msgtype) =? GTPV2_CREATE_SESSION_REQUEST in
  let delete := p.(gp_msgtype) =? GTPV2_DELETE_SESSION_REQUEST in
  let p := set_gp_ies (el :: p.(gp_ies)) p in
  p ← if_type ((create || delete) && (t =? GTPV2_IE_FTEID)) (v ← get_teid_from_fteid el; Ok (set_gp_teid v p)) p;
  p ← if_type (create && (t =? GTPV2_IE_IMSI)) (v ← get_gtpnum_from_ie el 0; Ok (set_gp_imsi v p)) p;
  p ← if_type (create && (t =? GTPV2_IE_MSISDN)) (v ← get_gtpnum_from_ie el 0; Ok (set_gp_msisdn v p)) p;
  if_type (t =? GTPV2_IE_CAUSE) (v ← get_cause_from_ie el; Ok (set_gp_response_cause v p)) p.

(** [walk_gtpv2_ies] *)
Fixpoint walk_gtpv2_ies (fuel : nat) (ptr : bytes) (rem used gtplen : Z) (p : gtp_parsed_t)
    : outcome gtp_parsed_t :=
  if (4 <? rem) && (used <? gtplen) then
    match fuel with
    | O => Undef
    | S fuel =>
        ietype ← read_le 1 ptr;
        v ← read_le 2 (zdrop 1 ptr);
        let ielen := ntohs v in
        p ← (if interesting_info_element p.(gp_version) ietype
             then el ← create_new_gtpv2_infoel ietype ielen ptr; note_gtpv2_ie el p else Ok p);
        let n := ielen + 4 in
        walk_gtpv2_ies fuel (zdrop n ptr) (u32 (rem - n)) (u16 (used + n)) gtplen p
    end
  else Ok p.

(** ** Messages *)

(** [flush_old_gtp_packets] *)
Definition flush_old_gtp_packets (ts : Z) (g : gtp_global_t) : gtp_global_t :=
  set_gg_saved (filter (λ e, ¬ ts > e.2.(sp_tvsec) + GTP_FLUSH_OLD_PKT_FREQ) g.(gg_saved_packets)) g.

(** [gtp_parse_v2_teid], [gtp_parse_v1_teid]: [gtpstart] is the payload. *)
Definition gtp_parse_v2_teid (pkt : radius_packet) (gtpstart : bytes) (g : gtp_global_t)
    : outcome (Z * gtp_global_t) :=
  let rem := zlen gtpstart in
  if rem <? 12 then Ok (-1, g)
  else
    msgtype ← read_le 1 (zdrop 1 gtpstart);
    len ← read_le 2 (zdrop 2 gtpstart);
    teid ← read_le 4 (zdrop 4 gtpstart);
    seqno ← read_le 4 (zdrop 8 gtpstart);
    let p := set_gp_header pkt 2 msgtype (ntohl teid) (ntohl seqno) g.(gg_parsedpkt) in
    p ← walk_gtpv2_ies (length gtpstart) (zdrop 12 gtpstart) (u32 (rem - 12)) 0 (u16 (ntohs len - 8)) p;
    Ok (0, set_gg_parsedpkt p g).
Definition gtp_parse_v1_teid (pkt : radius_packet) (gtpstart : bytes) (g : gtp_global_t)
    : outcome (Z * gtp_global_t) :=
  let rem := zlen gtpstart in
  if rem <? 12 then Ok (-1, g)
  else
    msgtype ← read_le 1 (zdrop 1 gtpstart);
    len ← read_le 2 (zdrop 2 gtpstart);
    teid ← read_le 4 (zdrop 4 gtpstart);
    seqno ← read_le 2 (zdrop 8 gtpstart);
    let p := set_gp_header pkt 1 msgtype (ntohl teid) (ntohs seqno) g.(gg_parsedpkt) in
    '(r, p) ← walk_gtpv1_ies (length gtpstart) (zdrop 12 gtpstart) (u32 (rem - 12)) 0 (u16 (ntohs len - 4)) p;
    Ok (r, set_gg_parsedpkt p g).

(** A message to the server, or from it. *)
Definition gtp_is_request (msgtype : Z) : bool :=
  (msgtype =? GTPV2_CREATE_SESSION_REQUEST) || (msgtype =? GTPV2_DELETE_SESSION_REQUEST) ||
  (msgtype =? GTPV1_CREATE_PDP_CONTEXT_REQUEST) || (msgtype =? GTPV1_UPDATE_PDP_CONTEXT_REQUEST) ||
  (msgtype =? GTPV1_DELETE_PDP_CONTEXT_REQUEST).
Definition gtp_is_response (msgtype : Z) : bool :=
  (msgtype =? GTPV2_CREATE_SESSION_RESPONSE) || (msgtype =? GTPV2_DELETE_SESSION_RESPONSE) ||
  (msgtype =? GTPV1_CREATE_PDP_CONTEXT_RESPONSE) || (msgtype =? GTPV1_UPDATE_PDP_CONTEXT_RESPONSE) ||
  (msgtype =? GTPV1_DELETE_PDP_CONTEXT_RESPONSE).

(** The address of the server, at one of two places of the IP header. *)
Definition server_address (family n dst src : Z) (l3 : bytes) (p : gtp_parsed_t) : outcome gtp_parsed_t :=
  if gtp_is_request p.(gp_msgtype) then
    a ← read_bytes n (zdrop dst l3); Ok (set_gp_server family (a ++ zdrop n p.(gp_serverid)) p)
  else if gtp_is_response p.(gp_msgtype) then
    a ← read_bytes n (zdrop src l3); Ok (set_gp_server family (a ++ zdrop n p.(gp_serverid)) p)
  else Ok (set_gp_server 0 p.(gp_serverid) p).
Definition note_server (ethertype : Z) (l3 : bytes) (p : gtp_parsed_t) : outcome gtp_parsed_t :=
  if ethertype =? 0x0800 then server_address 4 4 16 12 l3 p
  else if ethertype =? 0x86DD then server_address 6 16 24 8 l3 p
  else Ok p.

(** The rest of [gtp_parse_packet], once the elements were read. *)
Definition gtp_finish_packet (tv ethertype : Z) (l3 : bytes) (g : gtp_global_t)
    : outcome (option unit * gtp_global_t) :=
  p ← note_server ethertype l3 g.(gg_parsedpkt);
  let g := set_gg_parsedpkt (set_gp_tvsec tv p) g in
  let seconds := u32 (tv / 1000000) * 1000000 in
  let g := if g.(gg_lastrefresh) =? 0 then set_gg_lastrefresh seconds g else g in
  Ok (Some tt,
      if GTP_FLUSH_OLD_PKT_FREQ <? tv - g.(gg_lastrefresh)
      then set_gg_lastrefresh seconds (flush_old_gtp_packets tv g) else g).

(** [gtp_parse_packet]; [None] is NULL. *)
Definition gtp_parse_packet (pkt : radius_packet) (g : gtp_global_t)
    : outcome (option unit * gtp_global_t) :=
  let g := if negb (g.(gg_parsedpkt).(gp_msgtype) =? 0) then gtp_destroy_parsed_data g else g in
  match pkt.(pk_layer3) with
  | None => Ok (None, g)
  | Some (ethertype, l3) =>
      '(payload, _, _) ← get_udp_payload pkt;
      match payload with
      | None => Ok (None, g)
      | Some (_, gtpstart) =>
          octet1 ← read_le 1 gtpstart;
          '(r, g) ← (if Z.land octet1 0xe8 =? 0x48 then gtp_parse_v2_teid pkt gtpstart g
                     else if Z.land octet1 0xe0 =? 0x20 then gtp_parse_v1_teid pkt gtpstart g
                     else Ok (0, g));
          if r <? 0 then Ok (None, g) else gtp_finish_packet pkt.(pk_tvsec) ethertype l3 g
      end
  end.

(** ** Users *)

(** [GEN_SESSID] *)
Definition GEN_SESSID (p : gtp_parsed_t) (teid : Z) : outcome bytes :=
  if p.(gp_serveripfamily) =? 4 then
    a ← read_le 4 p.(gp_serverid); Ok (print_u a ++ [45] ++ print_u teid)
  else
    a ← read_le 8 p.(gp_serverid);
    b ← read_le 8 (zdrop 8 p.(gp_serverid));
    Ok (decimal_digits 20 a ++ [45] ++ decimal_digits 20 b ++ [45] ++ print_u teid).

(** [openli_copy_ipcontent] of util.c *)
Definition openli_copy_ipcontent (pkt : radius_packet) : option bytes :=
  match pkt.(pk_layer3) with
  | Some (_, l3) => if zlen l3 =? 0 then None else Some l3
  | None => None
  end.

(** The message as it is saved; its elements go with it. *)
Definition save_packet (p : gtp_parsed_t) (matched : option Z) : outcome gtp_saved_pkt_t :=
  pkt ← deref p.(gp_origpkt);
  Ok (Mkgtp_saved_pkt_t (Z.lor (Z.shiftl p.(gp_teid) 32) p.(gp_seqno)) p.(gp_version) p.(gp_msgtype) 0
        p.(gp_tvsec) p.(gp_response_cause) (openli_copy_ipcontent pkt) p.(gp_ies) matched).

Definition gtp_uid (gs : gtp_session_t) : option (list user_identity_t) :=
  if gs.(gs_idstr_len) =? 0 then None
  else Some [Mkuser_identity_t USER_IDENT_GTP_MSISDN gs.(gs_idstr) gs.(gs_idstr_len) 0].

Definition set_gs_user (msisdn : bytes) (gs : gtp_session_t) : gtp_session_t :=
  Mkgtp_session_t gs.(gs_sessid) gs.(gs_imsi) (Some msisdn) gs.(gs_saved) msisdn (zlen msisdn)
    gs.(gs_teid) gs.(gs_pdpaddrs) gs.(gs_pdpaddrcount) gs.(gs_pdptype) gs.(gs_cin) gs.(gs_serverid)
    gs.(gs_serveripfamily) gs.(gs_current).
Definition set_gs_cin (v : Z) (gs : gtp_session_t) : gtp_session_t :=
  Mkgtp_session_t gs.(gs_sessid) gs.(gs_imsi) gs.(gs_msisdn) gs.(gs_saved) gs.(gs_idstr)
    gs.(gs_idstr_len) gs.(gs_teid) gs.(gs_pdpaddrs) gs.(gs_pdpaddrcount) gs.(gs_pdptype) v
    gs.(gs_serverid) gs.(gs_serveripfamily) gs.(gs_current).
Definition set_gs_saved (v : gtp_sess_saved_t) (gs : gtp_session_t) : gtp_session_t :=
  Mkgtp_session_t gs.(gs_sessid) gs.(gs_imsi) gs.(gs_msisdn) v gs.(gs_idstr)
    gs.(gs_idstr_len) gs.(gs_teid) gs.(gs_pdpaddrs) gs.(gs_pdpaddrcount) gs.(gs_pdptype) gs.(gs_cin)
    gs.(gs_serverid) gs.(gs_serveripfamily) gs.(gs_current).
Definition set_gs_current (v : session_state_t) (gs : gtp_session_t) : gtp_session_t :=
  Mkgtp_session_t gs.(gs_sessid) gs.(gs_imsi) gs.(gs_msisdn) gs.(gs_saved) gs.(gs_idstr)
    gs.(gs_idstr_len) gs.(gs_teid) gs.(gs_pdpaddrs) gs.(gs_pdpaddrcount) gs.(gs_pdptype) gs.(gs_cin)
    gs.(gs_serverid) gs.(gs_serveripfamily) v.
Definition set_gs_pdp (addrs : option Z) (count type : Z) (gs : gtp_session_t) : gtp_session_t :=
  Mkgtp_session_t gs.(gs_sessid) gs.(gs_imsi) gs.(gs_msisdn) gs.(gs_saved) gs.(gs_idstr)
    gs.(gs_idstr_len) gs.(gs_teid) addrs count type gs.(gs_cin)
    gs.(gs_serverid) gs.(gs_serveripfamily) gs.(gs_current).

Definition no_saved : gtp_sess_saved_t := Mkgtp_sess_saved_t [] [] [] [] None 0.
(** A session for the first message of an exchange that creates one. *)
Definition new_gtp_session (p : gtp_parsed_t) (sessid : bytes) : gtp_session_t :=
  let str s := if decide (s = []) then None else Some s in
  Mkgtp_session_t sessid (str p.(gp_imsi)) (str p.(gp_msisdn)) no_saved p.(gp_msisdn)
    (zlen p.(gp_msisdn)) p.(gp_teid) None 0 0 0 p.(gp_serverid) p.(gp_serveripfamily) SESSION_STATE_NEW.

(** A message that belongs to a session that is known. *)
Definition gtp_found_session (a : Z) (p : gtp_parsed_t) (g : gtp_global_t)
    : outcome (option (list user_identity_t) * gtp_global_t) :=
  let p := set_gp_matched_session (Some a) p in
  gs ← get_gsess a g;
  let gs := if (gs.(gs_idstr_len) =? 0) && negb (bool_decide (p.(gp_msisdn) = []))
            then set_gs_user p.(gp_msisdn) gs else gs in
  let p := if p.(gp_msgtype) =? GTPV1_DELETE_PDP_CONTEXT_REQUEST then set_gp_teid gs.(gs_teid) p else p in
  let g := put_gsess a gs (set_gg_parsedpkt p g) in
  g ← (if p.(gp_msgtype) =? GTPV1_CREATE_PDP_CONTEXT_RESPONSE then
         alt_sessid ← GEN_SESSID p p.(gp_teid_ctl);
         Ok (match g.(gg_alt_session_map) !! alt_sessid with
             | Some _ => g
             | None => set_gg_alt (<[alt_sessid := a]> g.(gg_alt_session_map)) g
             end)
       else Ok g);
  Ok (gtp_uid gs, g).

(** A message of an unknown session waits, unless another one waits under its number. *)
Definition gtp_save_unmatched (p : gtp_parsed_t) (g : gtp_global_t) : outcome gtp_global_t :=
  saved ← save_packet p None;
  Ok (match g.(gg_saved_packets) !! saved.(sp_reqid) with
      | None => set_gg_parsedpkt (set_gp_ies [] p)
                  (set_gg_saved (<[saved.(sp_reqid) := saved]> g.(gg_saved_packets)) g)
      | Some _ => g
      end).

(** A new session. *)
Definition gtp_create_session (p : gtp_parsed_t) (sessid : bytes) (g : gtp_global_t) : gtp_global_t :=
  let a := g.(gg_next) in
  Mkgtp_global_t (set_gp_matched_session (Some a) p) g.(gg_saved_packets)
    (<[sessid := a]> g.(gg_session_map)) g.(gg_alt_session_map) g.(gg_lastrefresh)
    (<[a := new_gtp_session p sessid]> g.(gg_sessions)) (a + 1).

(** [gtp_get_userid]; [None] is NULL. *)
Definition gtp_get_userid (g : gtp_global_t)
    : outcome (option (list user_identity_t) * gtp_global_t) :=
  let p := g.(gg_parsedpkt) in
  if negb ((p.(gp_serveripfamily) =? 4) || (p.(gp_serveripfamily) =? 6)) then Ok (None, g)
  else
    match p.(gp_matched_session) with
    | Some a =>
        gs ← get_gsess a g;
        Ok (Some [Mkuser_identity_t USER_IDENT_GTP_MSISDN gs.(gs_idstr) gs.(gs_idstr_len) 0], g)
    | None =>
        sessid ← GEN_SESSID p p.(gp_teid);
        let search := if p.(gp_msgtype) =? GTPV1_DELETE_PDP_CONTEXT_REQUEST
                      then g.(gg_alt_session_map) else g.(gg_session_map) in
        match search !! sessid with
        | Some a => gtp_found_session a p g
        | None =>
            if negb (p.(gp_msgtype) =? GTPV2_CREATE_SESSION_REQUEST) &&
               negb (p.(gp_msgtype) =? GTPV1_CREATE_PDP_CONTEXT_REQUEST)
            then g ← gtp_save_unmatched p g; Ok (None, g)
            else Ok (gtp_uid (new_gtp_session p sessid), gtp_create_session p sessid g)
        end
    end.

(** ** The state of a session *)

(** [extract_gtp_assigned_ip_address]: [sp] is the address of the session. *)
Definition gtp_pdp (sp : Z) (sess : access_session_t) (type : Z) (gs : gtp_session_t) : gtp_session_t :=
  set_gs_pdp (Some sp) sess.(as_sessipcount) type gs.
Fixpoint extract_gtp_assigned_ip_address (version : Z) (ies : list gtp_infoelem_t) (sp : Z)
    (sess : access_session_t) (gs : gtp_session_t) : outcome (access_session_t * gtp_session_t) :=
  match ies with
  | [] => Ok (sess, gs)
  | ie :: ies =>
      if (version =? 2) && (ie.(ie_type) =? GTPV2_IE_PDN_ALLOC) then
        t ← read_le 1 ie.(ie_content);
        let add family bits := add_new_session_ip (zdrop 1 ie.(ie_content)) family bits (ie.(ie_length) - 1) sess in
        if t =? 1 then sess ← add AF_INET 32; Ok (sess, gtp_pdp sp sess (htons 0x0121) gs)
        else if t =? 2 then sess ← add AF_INET6 128; Ok (sess, gtp_pdp sp sess (htons 0x0157) gs)
        else if t =? 3 then sess ← add AF_INET6 128; Ok (sess, gtp_pdp sp sess (htons 0x018d) gs)
        else Ok (sess, gs)
      else if (version =? 1) && (ie.(ie_type) =? GTPV1_IE_END_USER_ADDRESS) then
        v ← read_le 2 ie.(ie_content);
        let pdptype := Z.land (ntohs v) 0x0fff in
        let add family bits := add_new_session_ip (zdrop 2 ie.(ie_content)) family bits (ie.(ie_length) - 2) sess in
        if (pdptype =? 0x0121) && (6 <=? ie.(ie_length))
        then sess ← add AF_INET 32; Ok (sess, gtp_pdp sp sess (htons 0x0121) gs)
        else if (pdptype =? 0x0157) && (18 <=? ie.(ie_length))
        then sess ← add AF_INET6 128; Ok (sess, gtp_pdp sp sess (htons 0x0157) gs)
        else Ok (sess, gtp_pdp sp sess gs.(gs_pdptype) gs)
      else extract_gtp_assigned_ip_address version ies sp sess gs
  end.

(** [assign_gtp_cin] *)
Definition assign_gtp_cin (now teid : Z) : Z :=
  if negb (teid =? 0) then teid mod 2^31 else u32 (Z.rem now (2^31)).

(** One element in [copy_session_params_v1] and [copy_session_params_v2]. *)
Definition copy_param_v1 (sv : gtp_sess_saved_t) (el : gtp_infoelem_t) : gtp_sess_saved_t :=
  let t := el.(ie_type) in
  let c := el.(ie_content) in
  let '(Mkgtp_sess_saved_t imsi msisdn apname imei location v) := sv in
  if t =? GTPV1_IE_IMSI then Mkgtp_sess_saved_t c msisdn apname imei location v
  else if t =? GTPV1_IE_MSISDN then Mkgtp_sess_saved_t imsi (zdrop 1 c) apname imei location v
  else if t =? GTPV1_IE_MEI then Mkgtp_sess_saved_t imsi msisdn apname c location v
  else if t =? GTPV1_IE_APNAME then Mkgtp_sess_saved_t imsi msisdn c imei location v
  else if t =? GTPV1_IE_ULI then Mkgtp_sess_saved_t imsi msisdn apname imei (Some c) 1
  else sv.
Definition copy_param_v2 (sv : gtp_sess_saved_t) (el : gtp_infoelem_t) : gtp_sess_saved_t :=
  let t := el.(ie_type) in
  let c := el.(ie_content) in
  let '(Mkgtp_sess_saved_t imsi msisdn apname imei location v) := sv in
  if t =? GTPV2_IE_IMSI then Mkgtp_sess_saved_t c msisdn apname imei location v
  else if t =? GTPV2_IE_MSISDN then Mkgtp_sess_saved_t imsi c apname imei location v
  else if t =? GTPV2_IE_MEI then Mkgtp_sess_saved_t imsi msisdn apname c location v
  else if t =? GTPV2_IE_APNAME then Mkgtp_sess_saved_t imsi msisdn c imei location v
  else if t =? GTPV2_IE_ULI then Mkgtp_sess_saved_t imsi msisdn apname imei (Some c) 2
  else sv.
Definition copy_session_params (gpkt : gtp_saved_pkt_t) (sv : gtp_sess_saved_t) : gtp_sess_saved_t :=
  foldl (if gpkt.(sp_version) =? 1 then copy_param_v1 else copy_param_v2) sv gpkt.(sp_ies).

(** The chain of conditions of [apply_gtp_fsm_logic]: the new state, the action if it is
    set, and whether the address of the session is taken from the message. *)
Definition gtp_transition (current : session_state_t) (type cause : Z)
    : session_state_t * option access_action_t * bool :=
  match current with
  | SESSION_STATE_NEW =>
      if (type =? GTPV2_CREATE_SESSION_REQUEST) || (type =? GTPV1_CREATE_PDP_CONTEXT_REQUEST)
      then (SESSION_STATE_AUTHING, Some ACCESS_ACTION_NONE, false) else (current, None, false)
  | SESSION_STATE_AUTHING =>
      if type =? GTPV2_CREATE_SESSION_RESPONSE then
        if cause =? 0x10 then (SESSION_STATE_ACTIVE, Some ACCESS_ACTION_ACCEPT, true)
        else if (64 <=? cause) && (cause <=? 239)
        then (SESSION_STATE_OVER, Some ACCESS_ACTION_REJECT, false) else (current, None, false)
      else if type =? GTPV1_CREATE_PDP_CONTEXT_RESPONSE then
        if cause =? 128 then (SESSION_STATE_ACTIVE, Some ACCESS_ACTION_ACCEPT, true)
        else if (192 <=? cause) && (cause <=? 255)
        then (SESSION_STATE_OVER, Some ACCESS_ACTION_REJECT, false) else (current, None, false)
      else (current, None, false)
  | SESSION_STATE_ACTIVE =>
      if (type =? GTPV2_DELETE_SESSION_REQUEST) || (type =? GTPV1_DELETE_PDP_CONTEXT_REQUEST)
      then (SESSION_STATE_ENDING, Some ACCESS_ACTION_NONE, false)
      else if type =? GTPV1_UPDATE_PDP_CONTEXT_RESPONSE
      then (current, Some ACCESS_ACTION_INTERIM_UPDATE, false) else (current, None, false)
  | SESSION_STATE_ENDING =>
      if (type =? GTPV2_DELETE_SESSION_RESPONSE) || (type =? GTPV1_DELETE_PDP_CONTEXT_RESPONSE)
      then (SESSION_STATE_OVER, Some ACCESS_ACTION_END, false) else (current, None, false)
  | _ => (current, None, false)
  end.

(** [apply_gtp_fsm_logic] on the plugin's session, the action and the caller's session,
    which is at [sp]. *)
Definition apply_gtp_fsm_logic (gpkt : gtp_saved_pkt_t) (sp : Z) (gs : gtp_session_t)
    (action : access_action_t) (sess : access_session_t)
    : outcome (gtp_session_t * access_action_t * access_session_t) :=
  let gs := set_gs_saved (copy_session_params gpkt gs.(gs_saved)) gs in
  let '(current, o, addr) := gtp_transition gs.(gs_current) gpkt.(sp_type) gpkt.(sp_response_cause) in
  '(sess, gs) ← (if addr : bool then extract_gtp_assigned_ip_address gpkt.(sp_version) gpkt.(sp_ies) sp sess gs
                 else Ok (sess, gs));
  Ok (set_gs_current current gs, default action o, sess).

(** The same on the plugin and the caller's store. *)
Definition apply_gtp (gpkt : gtp_saved_pkt_t) (a sp : Z) (ss : session_store) (g : gtp_global_t)
    : outcome (session_store * gtp_global_t) :=
  gs ← get_gsess a g;
  sess ← get_session sp ss;
  '(gs, action, sess) ← apply_gtp_fsm_logic gpkt sp gs g.(gg_parsedpkt).(gp_action) sess;
  Ok (put_session sp sess ss, put_gsess a gs (set_gg_parsedpkt (set_gp_action action g.(gg_parsedpkt)) g)).

(** [find_matched_session] *)
Definition find_matched_session (now a teid : Z) (sesslist : list Z) (ss : session_store) (g : gtp_global_t)
    : outcome (Z * list Z * session_store * gtp_global_t) :=
  gs ← get_gsess a g;
  found ← find_session gs.(gs_sessid) sesslist ss;
  match found with
  | Some sp => Ok (sp, sesslist, ss, g)
  | None =>
      s ← create_access_session (gs.(gs_sessid) ++ [0]) (zlen gs.(gs_sessid));
      let sp := ss.(ss_next) in
      let cin := assign_gtp_cin now teid in
      Ok (sp, sesslist ++ [sp], Mksession_store (<[sp := set_as_cin cin s]> ss.(ss_heap)) (sp + 1),
          put_gsess a (set_gs_cin cin gs) g)
  end.

(** Which of two saved messages is the request; [None] if they are of the same type. *)
Definition gtp_response_to (request : Z) : option Z :=
  if request =? GTPV2_CREATE_SESSION_REQUEST then Some GTPV2_CREATE_SESSION_RESPONSE
  else if request =? GTPV2_DELETE_SESSION_REQUEST then Some GTPV2_DELETE_SESSION_RESPONSE
  else if request =? GTPV1_CREATE_PDP_CONTEXT_REQUEST then Some GTPV1_CREATE_PDP_CONTEXT_RESPONSE
  else if request =? GTPV1_DELETE_PDP_CONTEXT_REQUEST then Some GTPV1_DELETE_PDP_CONTEXT_RESPONSE
  else if request =? GTPV1_UPDATE_PDP_CONTEXT_REQUEST then Some GTPV1_UPDATE_PDP_CONTEXT_RESPONSE
  else None.
Definition gtp_pair (saved check : gtp_saved_pkt_t) : option (gtp_saved_pkt_t * gtp_saved_pkt_t) :=
  if decide (gtp_response_to saved.(sp_type) = Some check.(sp_type)) then Some (saved, check)
  else if decide (gtp_response_to check.(sp_type) = Some saved.(sp_type)) then Some (check, saved)
  else if saved.(sp_type) =? check.(sp_type) then None
  else Some (check, saved).

(** A first message of an exchange: a request is applied at once. *)
Definition gtp_first_half (now : Z) (saved : gtp_saved_pkt_t) (sesslist : list Z) (ss : session_store)
    (g : gtp_global_t) : outcome (option session_update * list Z * session_store * gtp_global_t) :=
  let t := saved.(sp_type) in
  let keep v g := set_gg_saved (<[saved.(sp_reqid) := v]> g.(gg_saved_packets)) g in
  let g := keep saved g in
  if (t =? GTPV2_CREATE_SESSION_REQUEST) || (t =? GTPV2_DELETE_SESSION_REQUEST) ||
     (t =? GTPV1_CREATE_PDP_CONTEXT_REQUEST) || (t =? GTPV1_DELETE_PDP_CONTEXT_REQUEST) then
    match saved.(sp_matched_session) with
    | None => Ok (None, sesslist, ss, g)
    | Some a =>
        '(sp, sesslist, ss, g) ← find_matched_session now a g.(gg_parsedpkt).(gp_teid) sesslist ss g;
        old ← get_gsess a g;
        '(ss, g) ← apply_gtp saved a sp ss g;
        new ← get_gsess a g;
        let g := keep (Mkgtp_saved_pkt_t saved.(sp_reqid) saved.(sp_version) t 1 saved.(sp_tvsec)
                         saved.(sp_response_cause) saved.(sp_ipcontent) saved.(sp_ies) (Some a)) g in
        Ok (Some (Mksession_update sp old.(gs_current) new.(gs_current) g.(gg_parsedpkt).(gp_action)),
            sesslist, ss, g)
    end
  else Ok (None, sesslist, ss, g).

(** Both halves are there. *)
Definition gtp_both_halves (now : Z) (request response : gtp_saved_pkt_t) (sesslist : list Z)
    (ss : session_store) (g : gtp_global_t)
    : outcome (option session_update * list Z * session_store * gtp_global_t) :=
  let p := set_gp_pair (Some request) (Some response) g.(gg_parsedpkt) in
  match (match request.(sp_matched_session) with Some a => Some a | None => response.(sp_matched_session) end) with
  | Some a =>
      let g := set_gg_parsedpkt p g in
      '(sp, sesslist, ss, g) ← find_matched_session now a p.(gp_teid) sesslist ss g;
      old ← get_gsess a g;
      let g := set_gg_parsedpkt (set_gp_matched_session (Some a) g.(gg_parsedpkt)) g in
      '(ss, g) ← (if request.(sp_applied) =? 0 then apply_gtp request a sp ss g else Ok (ss, g));
      '(ss, g) ← (if response.(sp_applied) =? 0 then apply_gtp response a sp ss g else Ok (ss, g));
      new ← get_gsess a g;
      Ok (Some (Mksession_update sp old.(gs_current) new.(gs_current) g.(gg_parsedpkt).(gp_action)),
          sesslist, ss, g)
  | None =>
      a ← deref p.(gp_matched_session);
      _ ← get_gsess a g;
      Ok (None, sesslist, ss, set_gg_parsedpkt p g)
  end.

(** [gtp_update_session_state]; [None] is a NULL result. *)
Definition gtp_update_session_state (now : Z) (user : option Z) (sesslist : list Z) (ss : session_store)
    (g : gtp_global_t) : outcome (option session_update * list Z * session_store * gtp_global_t) :=
  saved ← save_packet g.(gg_parsedpkt) g.(gg_parsedpkt).(gp_matched_session);
  let g := set_gg_parsedpkt (set_gp_ies [] g.(gg_parsedpkt)) g in
  match g.(gg_saved_packets) !! saved.(sp_reqid) with
  | None => gtp_first_half now saved sesslist ss g
  | Some check =>
      match gtp_pair saved check with
      | None => Ok (None, sesslist, ss,
                    set_gg_saved (<[saved.(sp_reqid) := saved]> g.(gg_saved_packets)) g)
      | Some (request, response) =>
          gtp_both_halves now request response sesslist ss
            (set_gg_saved (delete check.(sp_reqid) g.(gg_saved_packets)) g)
      end
  end.

(** ** Records *)

Definition UMTSIRI_CONTENTS_IMSI : Z := 1.
Definition UMTSIRI_CONTENTS_MSISDN : Z := 2.
Definition UMTSIRI_CONTENTS_IMEI : Z := 3.
Definition UMTSIRI_CONTENTS_APNAME : Z := 4.
Definition UMTSIRI_CONTENTS_TAI : Z := 5.
Definition UMTSIRI_CONTENTS_ECGI : Z := 6.
Definition UMTSIRI_CONTENTS_PDP_ADDRESS : Z := 7.
Definition UMTSIRI_CONTENTS_EVENT_TYPE : Z := 8.
Definition UMTSIRI_CONTENTS_EVENT_TIME : Z := 9.
Definition UMTSIRI_CONTENTS_LOCATION_TIME : Z := 10.
Definition UMTSIRI_CONTENTS_GPRS_CORRELATION : Z := 11.
Definition UMTSIRI_CONTENTS_GPRS_ERROR_CODE : Z := 13.
Definition UMTSIRI_CONTENTS_GGSN_IPADDRESS : Z := 14.
Definition UMTSIRI_CONTENTS_INITIATOR : Z := 15.
Definition UMTSIRI_CONTENTS_PDPTYPE : Z := 17.
Definition UMTSIRI_CONTENTS_CGI : Z := 18.
Definition UMTSIRI_CONTENTS_SAI : Z := 19.
Definition UMTSIRI_EVENT_TYPE_PDPCONTEXT_ACTIVATION : Z := 1.
Definition UMTSIRI_EVENT_TYPE_START_WITH_PDPCONTEXT_ACTIVE : Z := 2.
Definition UMTSIRI_EVENT_TYPE_PDPCONTEXT_DEACTIVATION : Z := 4.
Definition UMTSIRI_EVENT_TYPE_PDPCONTEXT_MODIFICATION : Z := 13.
Definition ETSILI_IPV6_SUBNET_UNKNOWN : Z := 128.

(** [parse_uli_v1] and [parse_uli_v2] on the memory of the location. *)
Definition parse_uli_v1 (locinfo : bytes) (params : etsili_generics) : outcome etsili_generics :=
  uliflags ← read_le 1 locinfo;
  if uliflags =? 0 then
    v ← read_bytes 7 (zdrop 1 locinfo); Ok (add_generic UMTSIRI_CONTENTS_CGI (V_bytes v) params)
  else if uliflags =? 1 then
    v ← read_bytes 7 (zdrop 1 locinfo); Ok (add_generic UMTSIRI_CONTENTS_SAI (V_bytes v) params)
  else Ok params.
Definition parse_uli_v2 (locinfo : bytes) (params : etsili_generics) : outcome etsili_generics :=
  uliflags ← read_le 1 locinfo;
  let bit i n := if Z.testbit uliflags i then n else 0 in
  let tai := 1 + bit 0 7 + bit 1 7 + bit 2 7 in
  params ← (if Z.testbit uliflags 3 then
              v ← read_bytes 5 (zdrop tai locinfo);
              Ok (add_generic UMTSIRI_CONTENTS_TAI (V_bytes (5 :: v)) params)
            else Ok params);
  if Z.testbit uliflags 4 then
    v ← read_bytes 7 (zdrop (tai + bit 3 5) locinfo);
    Ok (add_generic UMTSIRI_CONTENTS_ECGI (V_bytes (7 :: v)) params)
  else Ok params.

(** The sixteen bytes of an address structure where an IPv6 address is; behind an IPv4
    address the first entry of a session has zeroes there. *)
Definition sin6_addr (ip : internetaccess_ip_t) : bytes :=
  if zlen ip.(ip_addr) =? 16 then ip.(ip_addr) else replicate 16 0.

(** The address of the session, through the pointer into its block; without one the
    address of the server is still in the variable. *)
Definition pdp_address (ss : session_store) (gs : gtp_session_t) (server : etsili_ipaddress_t)
    : outcome etsili_ipaddress_t :=
  if 0 <? gs.(gs_pdpaddrcount) then
    sp ← deref gs.(gs_pdpaddrs);
    sess ← get_session sp ss;
    ip ← deref (head sess.(as_sessionips));
    if ip.(ip_family) =? AF_INET
    then etsili_create_ipaddress_v4 ip.(ip_addr) ETSILI_IPV4_SUBNET_UNKNOWN ETSILI_IPADDRESS_ASSIGNED_DYNAMIC
    else etsili_create_ipaddress_v6 (sin6_addr ip) ETSILI_IPV6_SUBNET_UNKNOWN ETSILI_IPADDRESS_ASSIGNED_DYNAMIC
  else Ok server.

(** [gtp_create_pdp_generic_iri]; [times] are those of the response and the request, or
    twice the time of day. *)
Definition gtp_create_pdp_generic_iri (ss : session_store) (times : Z * Z) (gs : gtp_session_t)
    (evtype : Z) (params : etsili_generics) : outcome etsili_generics :=
  server ← (if gs.(gs_serveripfamily) =? 4
            then etsili_create_ipaddress_v4 gs.(gs_serverid) ETSILI_IPV4_SUBNET_UNKNOWN ETSILI_IPADDRESS_ASSIGNED_UNKNOWN
            else etsili_create_ipaddress_v6 gs.(gs_serverid) ETSILI_IPV6_SUBNET_UNKNOWN ETSILI_IPADDRESS_ASSIGNED_UNKNOWN);
  let params := add_generic UMTSIRI_CONTENTS_GGSN_IPADDRESS (V_ipaddress server) params in
  let params := add_generic UMTSIRI_CONTENTS_IMSI (V_bytes gs.(gs_saved).(gv_imsi)) params in
  let params := add_generic UMTSIRI_CONTENTS_IMEI (V_bytes gs.(gs_saved).(gv_imei)) params in
  let params := add_generic UMTSIRI_CONTENTS_MSISDN (V_bytes gs.(gs_saved).(gv_msisdn)) params in
  let params := add_generic UMTSIRI_CONTENTS_APNAME (V_bytes gs.(gs_saved).(gv_apname)) params in
  ipaddr ← pdp_address ss gs server;
  let params := add_generic UMTSIRI_CONTENTS_PDP_ADDRESS (V_ipaddress ipaddr) params in
  let params := add_generic UMTSIRI_CONTENTS_PDPTYPE (V_int gs.(gs_pdptype)) params in
  let params := add_generic UMTSIRI_CONTENTS_EVENT_TYPE (V_int evtype) params in
  let params := add_generic UMTSIRI_CONTENTS_INITIATOR (V_int 1) params in
  let params := add_generic UMTSIRI_CONTENTS_EVENT_TIME (V_time times.1) params in
  let params := add_generic UMTSIRI_CONTENTS_LOCATION_TIME (V_time times.2) params in
  params ← match gs.(gs_saved).(gv_location) with
           | Some loc =>
               if gs.(gs_saved).(gv_loc_version) =? 1 then parse_uli_v1 (loc ++ [0]) params
               else if gs.(gs_saved).(gv_loc_version) =? 2 then parse_uli_v2 (loc ++ [0]) params
               else Ok params
           | None => Ok params
           end;
  Ok (add_generic UMTSIRI_CONTENTS_GPRS_CORRELATION (V_int gs.(gs_cin)) params).

(** [gtpv2_cause_to_sm], [gtpv1_cause_to_sm] *)
Definition gtpv2_cause_to_sm (cause : Z) : Z :=
  if cause =? GTPV2_CAUSE_REQUEST_ACCEPTED then SM_CAUSE_REGULAR_DEACTIVATION else 0.
Definition gtpv1_cause_to_sm (cause : Z) : Z :=
  if cause =? GTPV1_CAUSE_REQUEST_ACCEPTED then SM_CAUSE_REGULAR_DEACTIVATION else 0.

(** The loop of [gtp_create_context_deactivation_iri]. *)
Fixpoint gtp_error_codes (ies : list gtp_infoelem_t) (params : etsili_generics) : outcome etsili_generics :=
  match ies with
  | [] => Ok params
  | el :: ies =>
      code ← (if el.(ie_type) =? GTPV2_IE_CAUSE then c ← read_le 1 el.(ie_content); Ok (gtpv2_cause_to_sm c)
              else if el.(ie_type) =? GTPV1_IE_CAUSE then c ← read_le 1 el.(ie_content); Ok (gtpv1_cause_to_sm c)
              else Ok 0);
      gtp_error_codes ies
        (if code =? 0 then params else add_generic UMTSIRI_CONTENTS_GPRS_ERROR_CODE (V_int code) params)
  end.

(** The record about the message in the plugin. *)
Definition gtp_packet_iri (ss : session_store) (evtype : Z) (g : gtp_global_t) : outcome etsili_generics :=
  let p := g.(gg_parsedpkt) in
  a ← deref p.(gp_matched_session);
  gs ← get_gsess a g;
  response ← deref p.(gp_response);
  request ← deref p.(gp_request);
  gtp_create_pdp_generic_iri ss (response.(sp_tvsec), request.(sp_tvsec)) gs evtype [].
(** [gtp_create_context_deactivation_iri] *)
Definition gtp_create_context_deactivation_iri (ss : session_store) (g : gtp_global_t)
    : outcome etsili_generics :=
  params ← gtp_packet_iri ss UMTSIRI_EVENT_TYPE_PDPCONTEXT_DEACTIVATION g;
  response ← deref g.(gg_parsedpkt).(gp_response);
  gtp_error_codes response.(sp_ies) params.

(** [gtp_generate_iri_data]: the answer, and the record unless it is -1. *)
Definition gtp_generate_iri_data (ss : session_store) (iteration : Z) (g : gtp_global_t)
    : outcome (Z * option (etsili_iri_type_t * etsili_generics)) :=
  match g.(gg_parsedpkt).(gp_action) with
  | ACCESS_ACTION_ACCEPT =>
      params ← gtp_packet_iri ss UMTSIRI_EVENT_TYPE_PDPCONTEXT_ACTIVATION g;
      Ok (0, Some (ETSILI_IRI_BEGIN, params))
  | ACCESS_ACTION_REJECT => Ok (-1, None)
  | ACCESS_ACTION_INTERIM_UPDATE =>
      params ← gtp_packet_iri ss UMTSIRI_EVENT_TYPE_PDPCONTEXT_MODIFICATION g;
      Ok (0, Some (ETSILI_IRI_CONTINUE, params))
  | ACCESS_ACTION_END =>
      params ← gtp_create_context_deactivation_iri ss g; Ok (0, Some (ETSILI_IRI_END, params))
  | _ => Ok (0, Some (ETSILI_IRI_NONE, []))
  end.

(** [gtp_generate_iri_from_session]; [iritype] stays unless the intercept starts. *)
Definition gtp_generate_iri_from_session (ss : session_store) (now : Z) (session : access_session_t)
    (trigger : ipiri_special) (iritype : etsili_iri_type_t) (g : gtp_global_t)
    : outcome (Z * etsili_iri_type_t * etsili_generics) :=
  match g.(gg_session_map) !! until_nul session.(as_sessionid) with
  | None => Ok (-1, iritype, [])
  | Some a =>
      gs ← get_gsess a g;
      match trigger with
      | OPENLI_IPIRI_STARTWHILEACTIVE =>
          params ← gtp_create_pdp_generic_iri ss (now, now) gs UMTSIRI_EVENT_TYPE_START_WITH_PDPCONTEXT_ACTIVE [];
          Ok (0, ETSILI_IRI_BEGIN, params)
      | _ => Ok (0, iritype, [])
      end
  end.

(** [gtp_get_ip_contents]: the packet is handed over, and gone. *)
Definition take_content (sp : gtp_saved_pkt_t) : gtp_saved_pkt_t :=
  Mkgtp_saved_pkt_t sp.(sp_reqid) sp.(sp_version) sp.(sp_type) sp.(sp_applied) sp.(sp_tvsec)
    sp.(sp_response_cause) None sp.(sp_ies) sp.(sp_matched_session).
Definition content_of (o : option gtp_saved_pkt_t) : option bytes := o ≫= sp_ipcontent.
Definition gtp_get_ip_contents (iteration : Z) (g : gtp_global_t) : outcome (option bytes * gtp_global_t) :=
  let p := g.(gg_parsedpkt) in
  match (if iteration =? 0 then content_of p.(gp_request) else None) with
  | Some c => Ok (Some c, set_gg_parsedpkt (set_gp_pair (take_content <$> p.(gp_request)) p.(gp_response) p) g)
  | None =>
      match (if (iteration =? 0) || (iteration =? 1) then content_of p.(gp_response) else None) with
      | Some c => Ok (Some c, set_gg_parsedpkt (set_gp_pair p.(gp_request) (take_content <$> p.(gp_response)) p) g)
      | None => Ok (None, g)
      end
  end.

(** [gtp_get_packet_sequence] *)
Definition gtp_get_packet_sequence (g : gtp_global_t) : Z :=
  Z.lor g.(gg_parsedpkt).(gp_seqno) g.(gg_parsedpkt).(gp_msgtype).
