(* ===== verification/GtpParse.v ===== *)
(** * The GTP plugin: parsing

    What the loops over the information elements make of encoded messages, and of the
    numbers in them. *)

From stdpp Require Import gmap.
From S2P Require Import Prelude ByteOrder AccessSession Radius RadiusSession Ipiri Gtp.

(** ** Encoded elements *)

Record wire_ie : Type := Mkwire_ie {
  wi_type : Z;
  wi_flags : Z;
  wi_content : bytes;
}.
Definition wire_ie_v2 (w : wire_ie) : bytes :=
  wi_type w :: be_bytes 2 (zlen w.(wi_content)) ++ w.(wi_flags) :: w.(wi_content).
(** A TLV, or a TV whose length is in the table. *)
Definition wire_ie_v1 (w : wire_ie) : bytes :=
  wi_type w :: (if Z.testbit w.(wi_type) 7 then be_bytes 2 (zlen w.(wi_content)) else []) ++ w.(wi_content).

Definition wire_ie_ok (w : wire_ie) : Prop :=
  is_byte w.(wi_type) ∧ zlen w.(wi_content) < 65536 ∧ w.(wi_content) ≠ [].
Definition wire_ie_ok_v1 (w : wire_ie) : Prop :=
  wire_ie_ok w ∧
  (Z.testbit w.(wi_type) 7 = false → zlen w.(wi_content) = gtpv1_lookup_ielen w.(wi_type)).

Definition element (version : Z) (w : wire_ie) : gtp_infoelem_t :=
  Mkgtp_infoelem_t w.(wi_type) (zlen w.(wi_content)) (if version =? 2 then w.(wi_flags) else 0) w.(wi_content).
(** The elements that are kept. *)
Definition elements_of (version : Z) (l : list wire_ie) : list gtp_infoelem_t :=
  element version <$> filter (λ w, interesting_info_element version w.(wi_type) = true) l.

(** One after the other. *)
Fixpoint note_all (note : gtp_infoelem_t → gtp_parsed_t → outcome gtp_parsed_t) (l : list gtp_infoelem_t)
    (p : gtp_parsed_t) : outcome gtp_parsed_t :=
  match l with [] => Ok p | el :: l => p ← note el p; note_all note l p end.

Lemma read_be16 n mem : 0 ≤ n < 65536 → (v ← read_le 2 (be_bytes 2 n ++ mem); Ok (ntohs v)) = Ok n.
Proof. intros Hn. destruct (read_swapped 2 ntohs n mem) as (w & -> & E); [apply htons_reverses|done|]. cbn. by rewrite E. Qed.

(** Noting an element leaves the version alone, and what is not an element. *)
Definition same_message (p p' : gtp_parsed_t) : Prop :=
  p'.(gp_version) = p.(gp_version) ∧ p'.(gp_msgtype) = p.(gp_msgtype) ∧
  p'.(gp_action) = p.(gp_action) ∧ p'.(gp_matched_session) = p.(gp_matched_session).
Lemma if_type_keeps (P : gtp_parsed_t → Prop) b m p p' :
  P p → (∀ q, m = Ok q → P q) → if_type b m p = Ok p' → P p'.
Proof. unfold if_type. destruct b; [eauto|by intros ? _ [= <-]]. Qed.
Lemma bind_keeps {A} (P : gtp_parsed_t → Prop) (m : outcome A) (f : A → gtp_parsed_t) p' :
  (∀ a, P (f a)) → (a ← m; Ok (f a)) = Ok p' → P p'.
Proof. intros Hf. destruct m; cbn; [intros [= <-]; apply Hf|done|done]. Qed.

Ltac note_step P :=
  match goal with
  | |- (_ ← if_type ?b ?m ?p; _) = Ok _ → _ =>
      let E := fresh "E" in let q := fresh "q" in
      destruct (if_type b m p) as [q| |] eqn:E; [|done|done]; cbn [mbind outcome_bind];
      apply (if_type_keeps P) in E; [|done|by intros ?; apply (bind_keeps P)]
  end.

Lemma note_v2_same el p p' : note_gtpv2_ie el p = Ok p' → same_message p p'.
Proof.
  unfold note_gtpv2_ie. do 3 note_step (same_message p).
  apply if_type_keeps; [done|]. intros ?. by apply bind_keeps.
Qed.
Lemma note_v1_same el p p' : note_gtpv1_ie el p = Ok p' → same_message p p'.
Proof.
  unfold note_gtpv1_ie. do 4 note_step (same_message p).
  apply if_type_keeps; [done|]. intros ?. by apply bind_keeps.
Qed.

Definition wire_ies (enc : wire_ie → bytes) (l : list wire_ie) : bytes := concat (enc <$> l).
Lemma wire_ies_cons enc w l : wire_ies enc (w :: l) = enc w ++ wire_ies enc l.
Proof. done. Qed.

Lemma wi_content_len w : wire_ie_ok w → 0 < zlen w.(wi_content) < 65536.
Proof. intros (_ & Hc & Hn). destruct w.(wi_content); [done|]. zlia. Qed.

(** The four bytes before the content of an element, or the one or three. *)
Lemma wire_v2_parts w m :
  wire_ie_ok w →
  read_le 1 (wire_ie_v2 w ++ m) = Ok w.(wi_type) ∧
  (v ← read_le 2 (zdrop 1 (wire_ie_v2 w ++ m)); Ok (ntohs v)) = Ok (zlen w.(wi_content)) ∧
  create_new_gtpv2_infoel w.(wi_type) (zlen w.(wi_content)) (wire_ie_v2 w ++ m) = Ok (element 2 w) ∧
  zdrop (zlen w.(wi_content) + 4) (wire_ie_v2 w ++ m) = m ∧
  zlen (wire_ie_v2 w) = zlen w.(wi_content) + 4.
Proof.
  intros Hw. pose proof (wi_content_len w Hw). unfold wire_ie_v2.
  set (b := be_bytes 2 (zlen w.(wi_content))). assert (Hb : zlen b = 2) by apply zlen_be_bytes.
  assert (Hd : ∀ n, 0 ≤ n → zdrop (n + 3) ((wi_type w :: b ++ wi_flags w :: wi_content w) ++ m) =
                            zdrop n (wi_flags w :: wi_content w ++ m)).
  { intros n Hn. rewrite Z.add_comm, <- zdrop_zdrop by lia. done. }
  split; [apply read_le_1|]. split.
  { cbn [app]. rewrite <- app_assoc. change (zdrop 1 (wi_type w :: ?x)) with x. apply read_be16. lia. }
  split; [|split].
  - unfold create_new_gtpv2_infoel. change 3 with (0 + 3) at 1. rewrite Hd, zdrop_0, read_le_1 by lia. run_outcome.
    change 4 with (1 + 3). rewrite Hd by lia. change (zdrop 1 (wi_flags w :: ?x)) with x.
    by rewrite read_bytes_app.
  - replace (zlen w.(wi_content) + 4) with (1 + zlen w.(wi_content) + 3) by lia. rewrite Hd by lia.
    rewrite <- zdrop_zdrop by lia. change (zdrop 1 (wi_flags w :: ?x)) with x. by apply zdrop_app.
  - rewrite !zlen_cons, zlen_app, zlen_cons, Hb. lia.
Qed.
Definition v1_header (w : wire_ie) : Z := if Z.testbit w.(wi_type) 7 then 3 else 1.
Lemma wire_v1_parts w m :
  wire_ie_ok_v1 w →
  read_le 1 (wire_ie_v1 w ++ m) = Ok w.(wi_type) ∧
  (if Z.testbit w.(wi_type) 7 then v ← read_le 2 (zdrop 1 (wire_ie_v1 w ++ m)); Ok (ntohs v)
   else Ok (gtpv1_lookup_ielen w.(wi_type))) = Ok (zlen w.(wi_content)) ∧
  create_new_gtpv1_infoel w.(wi_type) (zlen w.(wi_content)) (wire_ie_v1 w ++ m) = Ok (element 1 w) ∧
  zdrop (zlen w.(wi_content) + v1_header w) (wire_ie_v1 w ++ m) = m ∧
  zlen (wire_ie_v1 w) = zlen w.(wi_content) + v1_header w.
Proof.
  intros [Hw Htv]. pose proof (wi_content_len w Hw). unfold wire_ie_v1, v1_header, create_new_gtpv1_infoel.
  destruct (Z.testbit (wi_type w) 7) eqn:Et.
  - set (b := be_bytes 2 (zlen w.(wi_content))). assert (Hb : zlen b = 2) by apply zlen_be_bytes.
    assert (Hd : zdrop 3 ((wi_type w :: b ++ wi_content w) ++ m) = wi_content w ++ m) by done.
    split; [apply read_le_1|]. split.
    { cbn [app]. rewrite <- app_assoc. change (zdrop 1 (wi_type w :: ?x)) with x. apply read_be16. lia. }
    rewrite Hd, read_bytes_app by done. split; [done|]. split.
    + rewrite Z.add_comm, <- zdrop_zdrop, Hd by lia. by apply zdrop_app.
    + rewrite !zlen_cons, zlen_app, Hb. lia.
  - split; [apply read_le_1|]. split; [by rewrite Htv|]. cbn [app].
    change (zdrop 1 (wi_type w :: ?x)) with x. rewrite read_bytes_app by done. split; [done|]. split.
    + rewrite Z.add_comm, <- zdrop_zdrop by lia. change (zdrop 1 (wi_type w :: ?x)) with x. by apply zdrop_app.
    + rewrite zlen_cons. lia.
Qed.

Lemma elements_cons version w l (f : gtp_infoelem_t → gtp_parsed_t → outcome gtp_parsed_t) p :
  note_all f (elements_of version (w :: l)) p =
  (p ← (if interesting_info_element version w.(wi_type) then f (element version w) p else Ok p);
   note_all f (elements_of version l) p).
Proof.
  unfold elements_of. rewrite filter_cons. destruct (decide _) as [E|E]; [by rewrite E|].
  by rewrite (not_true_is_false _ E).
Qed.

(** The loops find the encoded elements, whatever comes behind them, and note those that
    are interesting. *)
Lemma walk_v2_elements l tail : ∀ fuel used p,
  Forall wire_ie_ok l → p.(gp_version) = 2 → (length l ≤ fuel)%nat →
  let len := zlen (wire_ies wire_ie_v2 l) in
  0 ≤ used → used + len < 65536 → len + zlen tail < 2 ^ 32 →
  walk_gtpv2_ies fuel (wire_ies wire_ie_v2 l ++ tail) (len + zlen tail) used (used + len) p =
  note_all note_gtpv2_ie (elements_of 2 l) p.
Proof.
  induction l as [|w l IH]; intros fuel used p Hl Hv Hf; cbv zeta; intros Hu Hlen Htail.
  { change (wire_ies wire_ie_v2 []) with (@nil Z). rewrite zlen_nil.
    destruct fuel; cbn [walk_gtpv2_ies]; by rewrite (proj2 (Z.ltb_ge used (used + 0))), andb_false_r by lia. }
  inversion_clear Hl as [|? ? Hw Hl']. destruct fuel as [|fuel]; [simpl in Hf; lia|].
  pose proof (wi_content_len w Hw) as Hc. rewrite wire_ies_cons in *. set (rest := wire_ies wire_ie_v2 l) in *.
  rewrite <- app_assoc. destruct (wire_v2_parts w (rest ++ tail) Hw) as (E1 & E2 & E3 & E4 & E5).
  rewrite zlen_app, E5 in *. pose proof (zlen_nonneg rest). pose proof (zlen_nonneg tail).
  cbn [walk_gtpv2_ies]. rewrite (proj2 (Z.ltb_lt 4 _)), (proj2 (Z.ltb_lt used _)) by lia. cbn [andb].
  rewrite E1. run_outcome. revert E2. destruct (read_le 2 _) as [v| |]; [|done|done]. run_outcome. intros [= ->]. rewrite E3, E4, Hv, elements_cons. run_outcome.
  replace (u32 _) with (zlen rest + zlen tail) by (unfold u32; rewrite Z.mod_small by lia; lia).
  replace (u16 _) with (used + (zlen (wi_content w) + 4)) by (unfold u16; by rewrite Z.mod_small by lia).
  replace (used + (zlen (wi_content w) + 4 + zlen rest)) with (used + (zlen (wi_content w) + 4) + zlen rest) by lia.
  destruct (interesting_info_element 2 (wi_type w)); run_outcome; [|apply IH; try done; simpl in Hf; lia].
  destruct (note_gtpv2_ie (element 2 w) p) as [p'| |] eqn:En; run_outcome; [|done|done].
  apply note_v2_same in En as [En _]. apply IH; try done; [by rewrite En|simpl in Hf; lia|lia|lia|lia].
Qed.

(** The loop for version 1 stops at two bytes, so a last element must be longer. *)
Lemma walk_v1_elements l tail : ∀ fuel used p,
  Forall wire_ie_ok_v1 l → p.(gp_version) = 1 → (length l ≤ fuel)%nat →
  let len := zlen (wire_ies wire_ie_v1 l) in
  0 ≤ used → used + len < 65536 → len + zlen tail < 2 ^ 32 →
  (∀ w, last l = Some w → 2 < zlen (wire_ie_v1 w) + zlen tail) →
  walk_gtpv1_ies fuel (wire_ies wire_ie_v1 l ++ tail) (len + zlen tail) used (used + len) p =
  (p ← note_all note_gtpv1_ie (elements_of 1 l) p; Ok (0, p)).
Proof.
  induction l as [|w l IH]; intros fuel used p Hl Hv Hf; cbv zeta; intros Hu Hlen Htail Hlast.
  { change (wire_ies wire_ie_v1 []) with (@nil Z). rewrite zlen_nil.
    destruct fuel; cbn [walk_gtpv1_ies]; by rewrite (proj2 (Z.ltb_ge used (used + 0))), andb_false_r by lia. }
  inversion_clear Hl as [|? ? Hw Hl']. destruct fuel as [|fuel]; [simpl in Hf; lia|].
  pose proof (wi_content_len w (proj1 Hw)) as Hc. rewrite wire_ies_cons in *. set (rest := wire_ies wire_ie_v1 l) in *.
  rewrite <- app_assoc. destruct (wire_v1_parts w (rest ++ tail) Hw) as (E1 & E2 & E3 & E4 & E5).
  rewrite zlen_app, E5 in *. pose proof (zlen_nonneg rest). pose proof (zlen_nonneg tail).
  assert (Hh : 1 ≤ v1_header w ≤ 3) by (unfold v1_header; destruct (Z.testbit _ _); lia).
  assert (Hmore : 2 < zlen (wi_content w) + v1_header w + zlen rest + zlen tail).
  { destruct l as [|w' l']; [specialize (Hlast w eq_refl); rewrite E5 in Hlast; lia|].
    inversion_clear Hl'. destruct (wire_v1_parts w' [] H1) as (_ & _ & _ & _ & E5').
    pose proof (wi_content_len w' (proj1 H1)). unfold rest. rewrite wire_ies_cons, zlen_app, E5'.
    unfold v1_header in *. destruct (Z.testbit (wi_type w') 7); zlia. }
  cbn [walk_gtpv1_ies]. rewrite (proj2 (Z.ltb_lt 2 _)), (proj2 (Z.ltb_lt used _)) by lia. cbn [andb].
  rewrite E1. run_outcome. rewrite E2. run_outcome. rewrite (proj2 (Z.eqb_neq _ 0)) by lia.
  rewrite E3, Hv, elements_cons. run_outcome. fold (v1_header w). rewrite E4.
  replace (u32 _) with (zlen rest + zlen tail) by (unfold u32; rewrite Z.mod_small by lia; lia).
  replace (u16 _) with (used + (zlen (wi_content w) + v1_header w)) by (unfold u16; by rewrite Z.mod_small by lia).
  replace (used + (zlen (wi_content w) + v1_header w + zlen rest))
    with (used + (zlen (wi_content w) + v1_header w) + zlen rest) by lia.
  assert (Hlast' : ∀ x, last l = Some x → 2 < zlen (wire_ie_v1 x) + zlen tail).
  { intros x Hx. apply Hlast. by destruct l. }
  destruct (interesting_info_element 1 (wi_type w)); run_outcome; [|apply IH; try done; simpl in Hf; lia].
  destruct (note_gtpv1_ie (element 1 w) p) as [p'| |] eqn:En; run_outcome; [|done|done].
  apply note_v1_same in En as [En _]. apply IH; try done; [by rewrite En|simpl in Hf; lia|lia|lia|lia].
Qed.

(** ** Numbers *)

(** Decimal digits, two in a byte, the first in the low half; 15 fills the last byte. *)
Fixpoint tbcd (ds : list Z) : bytes :=
  match ds with
  | [] => []
  | [d] => [d + 0xf0]
  | d :: e :: ds => (d + 16 * e) :: tbcd ds
  end.

Lemma halves_of_byte d e :
  0 ≤ d < 16 → 0 ≤ e < 16 →
  Z.land (d + 16 * e) 0x0f = d ∧ Z.land (d + 16 * e) 0xf0 = 16 * e ∧ Z.shiftr (16 * e) 4 = e.
Proof.
  intros Hd He.
  assert (H : Forall (λ d, Forall (λ e, Z.land (d + 16 * e) 0x0f = d ∧ Z.land (d + 16 * e) 0xf0 = 16 * e ∧
                                        Z.shiftr (16 * e) 4 = e) (seqZ 0 16)) (seqZ 0 16))
    by (apply (bool_decide_unpack _); by vm_compute).
  rewrite Forall_forall in H. specialize (H d ltac:(apply elem_of_seqZ; lia)).
  rewrite Forall_forall in H. apply (H e). apply elem_of_seqZ. lia.
Qed.

Lemma gtpnum_tbcd ds : Forall (λ d, 0 ≤ d ≤ 9) ds → gtpnum_digits (tbcd ds) = (λ d, 48 + d) <$> ds.
Proof.
  assert (∀ n ds, (length ds ≤ n)%nat → Forall (λ d, 0 ≤ d ≤ 9) ds →
                  gtpnum_digits (tbcd ds) = (λ d, 48 + d) <$> ds) as H; [|by eapply H].
  clear ds. induction n as [|n IH]; intros ds Hn Hds; [by destruct ds; [|simpl in Hn; lia]|].
  destruct ds as [|d [|e ds]]; [done| |]; inversion_clear Hds as [|? ? Hd Hds'].
  - cbn [tbcd gtpnum_digits]. replace (d + 0xf0) with (d + 16 * 15) by lia.
    destruct (halves_of_byte d 15) as (E1 & E2 & _); [lia|lia|]. by rewrite E1, E2.
  - inversion_clear Hds' as [|? ? He Hds]. cbn [tbcd gtpnum_digits].
    destruct (halves_of_byte d e) as (E1 & E2 & E3); [lia|lia|]. rewrite E1, E2, E3.
    rewrite (proj2 (Z.eqb_neq (16 * e) 0xf0)) by lia. rewrite IH by (simpl in Hn; lia || done). done.
Qed.

(** A number of decimal digits is decoded as it was encoded if it has at most 15
    digits; a longer one, which a message may contain, is written behind the 16 bytes of
    its field. *)
Theorem gtp_number_decoded front ds t n fl :
  Forall (λ d, 0 ≤ d ≤ 9) ds →
  get_gtpnum_from_ie (Mkgtp_infoelem_t t n fl (front ++ tbcd ds)) (zlen front) =
  if decide (zlen ds ≤ 15) then Ok ((λ d, 48 + d) <$> ds) else Undef.
Proof.
  intros Hds. unfold get_gtpnum_from_ie. cbn [ie_content]. rewrite zdrop_app, gtpnum_tbcd, zlen_map by done.
  destruct (decide _); destruct (Z.ltb_spec (zlen ds) 16); first [done|lia].
Qed.
Lemma gtp_number_decoded_witness :
  get_gtpnum_from_ie (Mkgtp_infoelem_t GTPV1_IE_MSISDN 3 0 ([0x91] ++ tbcd [6; 4; 2; 1])) 1 = Ok (of_string "6421").
Proof. apply (gtp_number_decoded [0x91] [6; 4; 2; 1]). repeat constructor; done. Defined.

(** ** Messages *)

Definition wire_ie_of (version : Z) : wire_ie → bytes := if version =? 2 then wire_ie_v2 else wire_ie_v1.
Definition note_of (version : Z) : gtp_infoelem_t → gtp_parsed_t → outcome gtp_parsed_t :=
  if version =? 2 then note_gtpv2_ie else note_gtpv1_ie.
(** A message of version 1, with a sequence number, or of version 2, with a TEID. *)
Definition gtp_wire (version msgtype teid seqno : Z) (l : list wire_ie) : bytes :=
  let body := wire_ies (wire_ie_of version) l in
  if version =? 2
  then 0x48 :: msgtype :: be_bytes 2 (zlen body + 8) ++ be_bytes 4 teid ++ be_bytes 4 seqno ++ body
  else 0x32 :: msgtype :: be_bytes 2 (zlen body + 4) ++ be_bytes 4 teid ++ be_bytes 2 seqno ++ [0; 0] ++ body.

Record message_ok (version msgtype teid seqno : Z) (l : list wire_ie) (tail : bytes) : Prop := {
  mo_version : version = 1 ∨ version = 2;
  mo_teid : 0 ≤ teid < 2 ^ 32;
  mo_seqno : 0 ≤ seqno < (if version =? 2 then 2 ^ 32 else 2 ^ 16);
  mo_elements : if version =? 2 then Forall wire_ie_ok l else Forall wire_ie_ok_v1 l;
  mo_length : zlen (wire_ies (wire_ie_of version) l) < 65500;
  mo_tail : zlen tail < 2 ^ 31;
  mo_last : version = 1 → ∀ w, last l = Some w → 2 < zlen (wire_ie_v1 w) + zlen tail;
}.

Lemma ies_length (P : wire_ie → Prop) enc l :
  (∀ w, P w → 1 ≤ zlen (enc w)) → Forall P l → Z.of_nat (length l) ≤ zlen (wire_ies enc l).
Proof.
  intros HP. induction 1 as [|w l Hw _ IH]; [done|]. rewrite wire_ies_cons, zlen_app.
  specialize (HP w Hw). simpl length. lia.
Qed.

Lemma read_be32 n mem : 0 ≤ n < 2 ^ 32 → ∃ w, read_le 4 (be_bytes 4 n ++ mem) = Ok w ∧ ntohl w = n.
Proof. intros Hn. apply (read_swapped 4 ntohl); [apply htonl_reverses|done]. Qed.

(** The fields of a header of twelve bytes. *)
Lemma header_fields b t len teid (rest : bytes) :
  let mem := [b; t] ++ be_bytes 2 len ++ be_bytes 4 teid ++ rest in
  zdrop 1 mem = t :: be_bytes 2 len ++ be_bytes 4 teid ++ rest ∧
  zdrop 2 mem = be_bytes 2 len ++ be_bytes 4 teid ++ rest ∧
  zdrop 4 mem = be_bytes 4 teid ++ rest ∧ zdrop 8 mem = rest.
Proof. split_and!; done. Qed.

Lemma parse_v2_wire pkt msgtype teid seqno l tail g :
  message_ok 2 msgtype teid seqno l tail →
  gtp_parse_v2_teid pkt (gtp_wire 2 msgtype teid seqno l ++ tail) g =
  (p ← note_all note_gtpv2_ie (elements_of 2 l) (set_gp_header pkt 2 msgtype teid seqno g.(gg_parsedpkt));
   Ok (0, set_gg_parsedpkt p g)).
Proof.
  intros [_ Ht Hs He Hl Htl _]. cbn in Hs, He, Hl. unfold gtp_parse_v2_teid, gtp_wire. cbn [Z.eqb Pos.eqb].
  change (wire_ie_of 2) with wire_ie_v2 in *. set (body := wire_ies wire_ie_v2 l) in *.
  pose proof (zlen_nonneg body). pose proof (zlen_nonneg tail).
  assert (Hbody : Z.of_nat (length l) ≤ zlen body).
  { apply (ies_length wire_ie_ok); [|done]. intros w Hw. destruct (wire_v2_parts w [] Hw) as (_ & _ & _ & _ & ->).
    pose proof (wi_content_len w Hw). lia. }
  set (rest := be_bytes 4 seqno ++ body ++ tail).
  replace (_ ++ tail) with ([72; msgtype] ++ be_bytes 2 (zlen body + 8) ++ be_bytes 4 teid ++ rest)
    by (unfold rest; cbn [app]; by rewrite <- !app_assoc).
  destruct (header_fields 72 msgtype (zlen body + 8) teid rest) as (E1 & E2 & E4 & E8).
  set (mem := [72; msgtype] ++ _) in *.
  assert (Hlen : zlen mem = 12 + zlen body + zlen tail) by (unfold mem, rest; zlia).
  rewrite (proj2 (Z.ltb_ge (zlen mem) 12)) by lia. rewrite E1, E2, E4, E8, read_le_1. run_outcome.
  destruct (read_swapped 2 ntohs (zlen body + 8) (be_bytes 4 teid ++ rest)) as (w2 & -> & Ew2); [apply htons_reverses|lia|].
  destruct (read_be32 teid rest Ht) as (w4 & -> & Ew4). unfold rest at 1.
  destruct (read_be32 seqno (body ++ tail) Hs) as (w8 & -> & Ew8). run_outcome. rewrite Ew2, Ew4, Ew8.
  replace (zdrop 12 mem) with (body ++ tail) by done.
  replace (u32 (zlen mem - 12)) with (zlen body + zlen tail) by (unfold u32; rewrite Z.mod_small by lia; lia).
  replace (u16 _) with (0 + zlen body) by (unfold u16; rewrite Z.mod_small by lia; lia).
  unfold body. rewrite walk_v2_elements; [by destruct (note_all _ _ _)|done|done| |lia|unfold body in *; lia|unfold body in *; lia].
  unfold zlen in Hlen at 1. lia.
Qed.
Lemma parse_v1_wire pkt msgtype teid seqno l tail g :
  message_ok 1 msgtype teid seqno l tail →
  gtp_parse_v1_teid pkt (gtp_wire 1 msgtype teid seqno l ++ tail) g =
  (p ← note_all note_gtpv1_ie (elements_of 1 l) (set_gp_header pkt 1 msgtype teid seqno g.(gg_parsedpkt));
   Ok (0, set_gg_parsedpkt p g)).
Proof.
  intros [_ Ht Hs He Hl Htl Hlast]. cbn in Hs, He, Hl. unfold gtp_parse_v1_teid, gtp_wire. cbn [Z.eqb Pos.eqb].
  change (wire_ie_of 1) with wire_ie_v1 in *. set (body := wire_ies wire_ie_v1 l) in *.
  pose proof (zlen_nonneg body). pose proof (zlen_nonneg tail).
  assert (Hbody : Z.of_nat (length l) ≤ zlen body).
  { apply (ies_length wire_ie_ok_v1); [|done]. intros w Hw. destruct (wire_v1_parts w [] Hw) as (_ & _ & _ & _ & ->).
    pose proof (wi_content_len w (proj1 Hw)). unfold v1_header. destruct (Z.testbit _ _); lia. }
  set (rest := be_bytes 2 seqno ++ [0; 0] ++ body ++ tail).
  replace (_ ++ tail) with ([50; msgtype] ++ be_bytes 2 (zlen body + 4) ++ be_bytes 4 teid ++ rest)
    by (unfold rest; cbn [app]; by rewrite <- !app_assoc).
  destruct (header_fields 50 msgtype (zlen body + 4) teid rest) as (E1 & E2 & E4 & E8).
  set (mem := [50; msgtype] ++ _) in *.
  assert (Hlen : zlen mem = 12 + zlen body + zlen tail) by (unfold mem, rest; zlia).
  rewrite (proj2 (Z.ltb_ge (zlen mem) 12)) by lia. rewrite E1, E2, E4, E8, read_le_1. run_outcome.
  destruct (read_swapped 2 ntohs (zlen body + 4) (be_bytes 4 teid ++ rest)) as (w2 & -> & Ew2); [apply htons_reverses|lia|].
  destruct (read_be32 teid rest Ht) as (w4 & -> & Ew4). unfold rest at 1.
  destruct (read_swapped 2 ntohs seqno ([0; 0] ++ body ++ tail)) as (w8 & -> & Ew8); [apply htons_reverses|done|].
  run_outcome. rewrite Ew2, Ew4, Ew8.
  replace (zdrop 12 mem) with (body ++ tail) by done.
  replace (u32 (zlen mem - 12)) with (zlen body + zlen tail) by (unfold u32; rewrite Z.mod_small by lia; lia).
  replace (u16 _) with (0 + zlen body) by (unfold u16; rewrite Z.mod_small by lia; lia).
  unfold body. rewrite walk_v1_elements;
    [by destruct (note_all _ _ _)|done|done| |lia|unfold body in *; lia|unfold body in *; lia|by apply Hlast].
  unfold zlen in Hlen at 1. lia.
Qed.

Lemma if_type_keeps_ies b m p p' :
  (∀ q, m = Ok q → q.(gp_ies) = p.(gp_ies)) → if_type b m p = Ok p' → p'.(gp_ies) = p.(gp_ies).
Proof. unfold if_type. destruct b; [eauto|by intros _ [= <-]]. Qed.
Lemma note_ies version el p p' : note_of version el p = Ok p' → p'.(gp_ies) = el :: p.(gp_ies).
Proof.
  unfold note_of. destruct (version =? 2).
  - unfold note_gtpv2_ie. do 3 note_step (λ q : gtp_parsed_t, q.(gp_ies) = el :: p.(gp_ies)).
    apply (if_type_keeps (λ q, q.(gp_ies) = el :: p.(gp_ies))); [done|]. intros ?.
    by apply (bind_keeps (λ q, q.(gp_ies) = el :: p.(gp_ies))).
  - unfold note_gtpv1_ie. do 4 note_step (λ q : gtp_parsed_t, q.(gp_ies) = el :: p.(gp_ies)).
    apply (if_type_keeps (λ q, q.(gp_ies) = el :: p.(gp_ies))); [done|]. intros ?.
    by apply (bind_keeps (λ q, q.(gp_ies) = el :: p.(gp_ies))).
Qed.
Lemma note_all_ies version l p p' :
  note_all (note_of version) l p = Ok p' → p'.(gp_ies) = rev l ++ p.(gp_ies).
Proof.
  revert p. induction l as [|el l IH]; intros p; cbn [note_all]; [by intros [= <-]|].
  destruct (note_of version el p) as [q| |] eqn:E; cbn; [|done|done]. intros H.
  rewrite (IH q H), (note_ies _ _ _ _ E). simpl. by rewrite <- app_assoc.
Qed.

(** C21: A message of either version whose elements are encoded as the specification of
    the protocol says is parsed into exactly its interesting elements, with their contents,
    whatever bytes come behind it in the packet - for version 1 provided that the last
    element and what comes behind it are more than two bytes ([mo_last]): the loop of the
    source stops when two are left, and misses a lone cause ([lone_cause_missed]). *)
Theorem gtp_messages_parsed version msgtype teid seqno l tail pkt ethertype l3 addr sport dport g :
  message_ok version msgtype teid seqno l tail →
  pkt.(pk_layer3) = Some (ethertype, l3) →
  get_udp_payload pkt = Ok (Some (addr, gtp_wire version msgtype teid seqno l ++ tail), sport, dport) →
  let g0 := if negb (g.(gg_parsedpkt).(gp_msgtype) =? 0) then gtp_destroy_parsed_data g else g in
  let p0 := set_gp_header pkt version msgtype teid seqno g0.(gg_parsedpkt) in
  gtp_parse_packet pkt g =
    (p ← note_all (note_of version) (elements_of version l) p0;
     gtp_finish_packet pkt.(pk_tvsec) ethertype l3 (set_gg_parsedpkt p g0)) ∧
  ∀ p, note_all (note_of version) (elements_of version l) p0 = Ok p →
    p.(gp_ies) = rev (elements_of version l) ++ p0.(gp_ies).
Proof.
  intros Hok Hl3 Hudp g0 p0. split; [|intros p; apply note_all_ies].
  unfold gtp_parse_packet. rewrite Hl3, Hudp. run_outcome. fold g0.
  assert (Hfirst : read_le 1 (gtp_wire version msgtype teid seqno l ++ tail) = Ok (if version =? 2 then 72 else 50)).
  { unfold gtp_wire. destruct (version =? 2); apply read_le_1. }
  rewrite Hfirst. run_outcome. destruct (mo_version _ _ _ _ _ _ Hok) as [-> | ->].
  - change (Z.land (if 1 =? 2 then 72 else 50) 0xe8 =? 0x48) with false.
    change (Z.land (if 1 =? 2 then 72 else 50) 0xe0 =? 0x20) with true. cbv iota. rewrite parse_v1_wire by done. change (note_of 1) with note_gtpv1_ie. by destruct (note_all _ _ _).
  - change (Z.land (if 2 =? 2 then 72 else 50) 0xe8 =? 0x48) with true. cbv iota. rewrite parse_v2_wire by done. change (note_of 2) with note_gtpv2_ie. by destruct (note_all _ _ _).
Qed.

(** A message of version 1 whose only element is a cause has two bytes behind its header,
    and the loop does not look at them. *)
Lemma lone_cause_missed cause pkt msgtype teid seqno g :
  0 ≤ teid < 2 ^ 32 → 0 ≤ seqno < 2 ^ 16 →
  gtp_parse_v1_teid pkt (gtp_wire 1 msgtype teid seqno [Mkwire_ie GTPV1_IE_CAUSE 0 [cause]]) g =
  Ok (0, set_gg_parsedpkt (set_gp_header pkt 1 msgtype teid seqno g.(gg_parsedpkt)) g).
Proof.
  intros Ht Hs. unfold gtp_parse_v1_teid.
  change (gtp_wire 1 msgtype teid seqno _) with
    ([50; msgtype] ++ be_bytes 2 6 ++ be_bytes 4 teid ++ be_bytes 2 seqno ++ [0; 0; 1; cause]).
  destruct (header_fields 50 msgtype 6 teid (be_bytes 2 seqno ++ [0; 0; 1; cause])) as (E1 & E2 & E4 & E8).
  rewrite E1, E2, E4, E8. replace (zlen _ <? 12) with false by done. rewrite read_le_1. run_outcome.
  destruct (read_swapped 2 ntohs 6 (be_bytes 4 teid ++ be_bytes 2 seqno ++ [0; 0; 1; cause])) as (w2 & -> & _); [apply htons_reverses|done|].
  destruct (read_be32 teid (be_bytes 2 seqno ++ [0; 0; 1; cause]) Ht) as (w4 & -> & E4').
  destruct (read_swapped 2 ntohs seqno [0; 0; 1; cause]) as (w8 & -> & E8'); [apply htons_reverses|done|].
  run_outcome. by rewrite E4', E8'.
Qed.

(** A request of version 2 with a number and a tunnel endpoint, and an element between them
    that is not looked at. *)
Definition sample_ies : list wire_ie :=
  [Mkwire_ie GTPV2_IE_MSISDN 0 (tbcd [6; 4; 2; 1; 5; 5; 5]); Mkwire_ie 80 0 [1; 2; 3];
   Mkwire_ie GTPV2_IE_FTEID 0 [0x86; 0; 0; 0; 77; 10; 0; 0; 1]].
Definition sample_gtp (tail : bytes) : radius_packet :=
  let payload := gtp_wire 2 GTPV2_CREATE_SESSION_REQUEST 0 0x100 sample_ies ++ tail in
  let udp := [8; 75; 8; 75; 0; 0; 0; 0] ++ payload in
  Mkradius_packet 5000000 (Some (0x0800, replicate 12 0 ++ [10; 0; 0; 1; 10; 0; 0; 9] ++ udp))
    (Some (17, udp)) (Some (4096, payload)).
Lemma gtp_messages_parsed_witness :
  match gtp_parse_packet (sample_gtp [9; 9; 9; 9; 9; 9]) gtp_init_plugin_data with
  | Ok (r, g) =>
      r = Some tt ∧ g.(gg_parsedpkt).(gp_teid) = 77 ∧ g.(gg_parsedpkt).(gp_seqno) = 0x100 ∧
      g.(gg_parsedpkt).(gp_msisdn) = of_string "6421555" ∧
      map ie_type g.(gg_parsedpkt).(gp_ies) = [GTPV2_IE_FTEID; GTPV2_IE_MSISDN]
  | _ => False
  end.
Proof.
  assert (Hok : message_ok 2 GTPV2_CREATE_SESSION_REQUEST 0 0x100 sample_ies [9; 9; 9; 9; 9; 9])
    by (split; first [by right|done|repeat constructor; done]).
  destruct (gtp_messages_parsed 2 GTPV2_CREATE_SESSION_REQUEST 0 0x100 sample_ies [9; 9; 9; 9; 9; 9]
              (sample_gtp [9; 9; 9; 9; 9; 9]) 0x0800 _ 4096 2123 2123 gtp_init_plugin_data Hok eq_refl eq_refl) as [-> _].
  vm_compute. split_and!; reflexivity.
Defined.
