(* ===== verification/GtpProps.v ===== *)
(** * The GTP plugin: the life of a session

    Whatever packets arrive, the state of a session only moves forward and the records that
    are reported for it are a beginning, continuations and an end; a session that is over
    stays over, also when its TEID is used again. *)

From stdpp Require Import gmap.
From S2P Require Import Prelude ByteOrder AccessSession Radius RadiusSession Ipiri Gtp GtpParse.

(** ** A packet *)

(** The plugin's part in [update_user_sessions]: the packet is parsed, matched with a
    session and applied to it. *)
Definition gtp_handle (now : Z) (sesslist : list Z) (ss : session_store) (g : gtp_global_t)
    : outcome (option session_update * list Z * session_store * gtp_global_t) :=
  '(ids, g) ← gtp_get_userid g;
  match ids with
  | None => Ok (None, sesslist, ss, g)
  | Some _ => gtp_update_session_state now None sesslist ss g
  end.

(** What an action and the states around it can be. *)
Definition gtp_moves (s : session_state_t) (a : access_action_t) (s' : session_state_t) : Prop :=
  match a with
  | ACCESS_ACTION_NONE =>
      s' = s ∨ (s = SESSION_STATE_NEW ∧ s' = SESSION_STATE_AUTHING) ∨
      (s = SESSION_STATE_ACTIVE ∧ s' = SESSION_STATE_ENDING)
  | ACCESS_ACTION_ACCEPT =>
      (s = SESSION_STATE_NEW ∨ s = SESSION_STATE_AUTHING) ∧ s' = SESSION_STATE_ACTIVE
  | ACCESS_ACTION_REJECT =>
      (s = SESSION_STATE_NEW ∨ s = SESSION_STATE_AUTHING) ∧ s' = SESSION_STATE_OVER
  | ACCESS_ACTION_INTERIM_UPDATE => s = SESSION_STATE_ACTIVE ∧ s' = SESSION_STATE_ACTIVE
  | ACCESS_ACTION_END =>
      (s = SESSION_STATE_ACTIVE ∨ s = SESSION_STATE_ENDING) ∧ s' = SESSION_STATE_OVER
  | _ => False
  end.

(** The transitions of the two halves of an exchange, of which either may be done. *)
Definition after_half (applied : bool) (type cause : Z) (st : session_state_t * access_action_t)
    : session_state_t * access_action_t :=
  if applied then st
  else let '(s, o, _) := gtp_transition st.1 type cause in (s, default st.2 o).
Lemma exchange_moves s request response c1 c2 a1 a2 :
  gtp_response_to request = Some response →
  let st := after_half a2 response c2 (after_half a1 request c1 (s, ACCESS_ACTION_NONE)) in
  gtp_moves s st.2 st.1.
Proof.
  unfold gtp_response_to.
  repeat match goal with
  | |- (if ?x =? ?y then _ else _) = Some _ → _ => destruct (Z.eqb_spec x y) as [->|_]; [intros [= <-]|]
  end; try done;
    destruct s, a1, a2; cbn; try tauto;
    repeat match goal with |- context [if ?b then _ else _] => destruct b; cbn end; tauto.
Qed.
Lemma request_moves s type cause :
  let st := after_half false type cause (s, ACCESS_ACTION_NONE) in
  gtp_is_request type = true → gtp_moves s st.2 st.1.
Proof.
  intros st H. unfold gtp_is_request in H. rewrite !orb_true_iff, !Z.eqb_eq in H.
  unfold st. destruct H as [[[[-> | ->] | ->] | ->] | ->]; destruct s; cbn; tauto.
Qed.

(** ** What parsing leaves alone *)

Definition same_tables (g g' : gtp_global_t) : Prop :=
  g'.(gg_sessions) = g.(gg_sessions) ∧ g'.(gg_session_map) = g.(gg_session_map) ∧
  g'.(gg_alt_session_map) = g.(gg_alt_session_map) ∧ g'.(gg_next) = g.(gg_next).
(** A message that no session was matched with, and no action was taken for. *)
Definition unmatched (p : gtp_parsed_t) : Prop :=
  p.(gp_action) = ACCESS_ACTION_NONE ∧ p.(gp_matched_session) = None.

Lemma same_message_unmatched p p' : same_message p p' → unmatched p → unmatched p'.
Proof. intros (_ & _ & Ha & Hm). unfold unmatched. by rewrite Ha, Hm. Qed.

Lemma walk_v2_same fuel : ∀ ptr rem used gtplen p p',
  walk_gtpv2_ies fuel ptr rem used gtplen p = Ok p' → same_message p p'.
Proof.
  induction fuel as [|fuel IH]; intros ptr rem used gtplen p p'; cbn [walk_gtpv2_ies];
    (destruct (_ && _); [|by intros [= <-]]); [done|].
  destruct (read_le 1 ptr) as [t| |]; run_outcome; try done.
  destruct (read_le 2 _) as [v| |]; run_outcome; try done.
  destruct (interesting_info_element _ _); run_outcome; [|apply IH].
  destruct (create_new_gtpv2_infoel _ _ _) as [el| |]; run_outcome; try done.
  destruct (note_gtpv2_ie el p) as [q| |] eqn:E; run_outcome; try done.
  intros H%IH. apply note_v2_same in E. unfold same_message in *. intuition congruence.
Qed.
Lemma walk_v1_same fuel : ∀ ptr rem used gtplen p r p',
  walk_gtpv1_ies fuel ptr rem used gtplen p = Ok (r, p') → same_message p p'.
Proof.
  induction fuel as [|fuel IH]; intros ptr rem used gtplen p r p'; cbn [walk_gtpv1_ies];
    (destruct (_ && _); [|by intros [= _ <-]]); [done|].
  destruct (read_le 1 ptr) as [t| |]; run_outcome; try done.
  match goal with |- context [@mbind outcome _ Z _ _ ?m] => destruct m as [ielen| |] end; run_outcome; try done.
  destruct (ielen =? 0); [by intros [= _ <-]|].
  destruct (interesting_info_element _ _); run_outcome; [|apply IH].
  destruct (create_new_gtpv1_infoel _ _ _) as [el| |]; run_outcome; try done.
  destruct (note_gtpv1_ie el p) as [q| |] eqn:E; run_outcome; try done.
  intros H%IH. apply note_v1_same in E. unfold same_message in *. intuition congruence.
Qed.

Lemma parse_header_same v pkt start g r g' :
  (if v =? 2 then gtp_parse_v2_teid else gtp_parse_v1_teid) pkt start g = Ok (r, g') →
  unmatched g.(gg_parsedpkt) → same_tables g g' ∧ unmatched g'.(gg_parsedpkt).
Proof.
  intros H Hu. revert H. destruct (v =? 2); unfold gtp_parse_v2_teid, gtp_parse_v1_teid;
    (destruct (_ <? 12); [by intros [= _ <-]|]);
    do 4 (destruct (read_le _ _); run_outcome; try done).
  - destruct (walk_gtpv2_ies _ _ _ _ _ _) as [p| |] eqn:E; run_outcome; try done. intros [= _ <-].
    split; [done|]. apply walk_v2_same in E. by eapply same_message_unmatched.
  - destruct (walk_gtpv1_ies _ _ _ _ _ _) as [[? p]| |] eqn:E; run_outcome; try done. intros [= _ <-].
    split; [done|]. apply walk_v1_same in E. by eapply same_message_unmatched.
Qed.

Lemma finish_same tv et l3 g r g' :
  gtp_finish_packet tv et l3 g = Ok (r, g') → unmatched g.(gg_parsedpkt) →
  same_tables g g' ∧ unmatched g'.(gg_parsedpkt).
Proof.
  intros H Hu. revert H. unfold gtp_finish_packet.
  assert (Hs : ∀ p, note_server et l3 g.(gg_parsedpkt) = Ok p → unmatched p).
  { intros p. unfold note_server, server_address.
    repeat match goal with |- (if ?b then _ else _) = _ → _ => destruct b end;
      try (destruct (read_bytes _ _); run_outcome); try done; by intros [= <-]. }
  destruct (note_server et l3 _) as [p| |]; run_outcome; try done. specialize (Hs p eq_refl).
  intros [= _ <-]. cbn. repeat match goal with |- context [if ?b then _ else _] => destruct b end; by split_and!.
Qed.

(** At the start of a packet. *)
Definition gtp_idle (g : gtp_global_t) : Prop :=
  g.(gg_parsedpkt).(gp_msgtype) = 0 → unmatched g.(gg_parsedpkt).
Lemma parse_same pkt g r g' :
  gtp_parse_packet pkt g = Ok (r, g') → gtp_idle g → same_tables g g' ∧ unmatched g'.(gg_parsedpkt).
Proof.
  intros H Hi. revert H. unfold gtp_parse_packet.
  set (g0 := if negb _ then _ else g).
  assert (H0 : same_tables g g0 ∧ unmatched g0.(gg_parsedpkt)).
  { unfold g0. destruct (Z.eqb_spec (gp_msgtype (gg_parsedpkt g)) 0) as [E|]; cbn; [by split; [|apply Hi]|by split_and!]. }
  clearbody g0. destruct H0 as [Ht Hu]. destruct (pk_layer3 pkt) as [[et l3]|]; [|by intros [= _ <-]].
  destruct (get_udp_payload pkt) as [[[payload ?] ?]| |]; run_outcome; try done.
  destruct payload as [[? start]|]; [|by intros [= _ <-]].
  destruct (read_le 1 start); run_outcome; try done.
  destruct (if Z.land _ _ =? 0x48 then _ else _) as [[q g1]| |] eqn:E; run_outcome; try done.
  assert (H1 : same_tables g g1 ∧ unmatched g1.(gg_parsedpkt)).
  { destruct (_ =? 0x48); [|destruct (_ =? 0x20); [|by injection E as _ <-]].
    - apply (parse_header_same 2) in E as [H1 ?]; [|done]. split; [|done]. unfold same_tables in *. intuition congruence.
    - apply (parse_header_same 1) in E as [H1 ?]; [|done]. split; [|done]. unfold same_tables in *. intuition congruence. }
  destruct (q <? 0); [by intros [= _ <-]|]. intros H. destruct H1 as [Ht1 Hu1].
  apply finish_same in H as [H2 ?]; [|done]. split; [|done]. unfold same_tables in *. intuition congruence.
Qed.

(** ** What a packet does to the sessions *)

(** The state of a session; one that is not there yet will be new. *)
Definition gtp_state (g : gtp_global_t) (a : Z) : session_state_t :=
  match g.(gg_sessions) !! a with Some gs => gs.(gs_current) | None => SESSION_STATE_NEW end.
Definition gtp_fresh (g : gtp_global_t) : Prop := ∀ a, is_Some (g.(gg_sessions) !! a) → a < g.(gg_next).
(** No state is changed, no session is forgotten. *)
Definition states_kept (g g' : gtp_global_t) : Prop :=
  (∀ a, gtp_state g' a = gtp_state g a) ∧
  g.(gg_session_map) ⊆ g'.(gg_session_map) ∧ (gtp_fresh g → gtp_fresh g').

Lemma states_kept_trans g g' g'' : states_kept g g' → states_kept g' g'' → states_kept g g''.
Proof.
  intros (H1 & H2 & H3) (H1' & H2' & H3'). split; [intros a; by rewrite H1', H1|].
  split; [by etrans|eauto].
Qed.
Lemma same_tables_kept g g' : same_tables g g' → states_kept g g'.
Proof.
  intros (E1 & E2 & _ & E4). unfold states_kept, gtp_state, gtp_fresh. rewrite E1, E2, E4. by split_and!.
Qed.
Lemma put_gsess_kept a gs gs' g :
  g.(gg_sessions) !! a = Some gs → gs'.(gs_current) = gs.(gs_current) → states_kept g (put_gsess a gs' g).
Proof.
  intros Ha Hc. unfold states_kept, gtp_state, gtp_fresh. cbn. split; [|split; [done|]].
  - intros b. destruct (decide (b = a)) as [->|]; [by rewrite lookup_insert_eq, Ha|by rewrite lookup_insert_ne].
  - intros Hf b Hb. destruct (decide (b = a)) as [->|]; [by apply Hf; rewrite Ha|].
    rewrite lookup_insert_ne in Hb by done. by apply Hf.
Qed.

Lemma get_gsess_ok a g gs : get_gsess a g = Ok gs → g.(gg_sessions) !! a = Some gs.
Proof. unfold get_gsess. by destruct (gg_sessions g !! a); [intros [= ->]|]. Qed.

Lemma userid_kept g ids g' :
  gtp_get_userid g = Ok (ids, g') → gtp_fresh g → unmatched g.(gg_parsedpkt) →
  states_kept g g' ∧ (is_Some ids → g'.(gg_parsedpkt).(gp_action) = ACCESS_ACTION_NONE ∧
                                    is_Some g'.(gg_parsedpkt).(gp_matched_session)).
Proof.
  intros H Hf [Ha Hm]. revert H. unfold gtp_get_userid. destruct (negb _); [by intros [= <- <-]; split; [|intros [? ?]]|].
  rewrite Hm. destruct (GEN_SESSID _ _) as [sessid| |]; run_outcome; try done.
  match goal with |- context [if _ =? GTPV1_DELETE_PDP_CONTEXT_REQUEST then gg_alt_session_map g else _] =>
    destruct ((if gp_msgtype (gg_parsedpkt g) =? GTPV1_DELETE_PDP_CONTEXT_REQUEST
               then gg_alt_session_map g else gg_session_map g) !! sessid) as [a|] eqn:El end.
  - unfold gtp_found_session. destruct (get_gsess a g) as [gs| |] eqn:Eg; run_outcome; try done.
    apply get_gsess_ok in Eg.
    set (p := if _ =? GTPV1_DELETE_PDP_CONTEXT_REQUEST then set_gp_teid _ _ else _).
    set (gs' := if _ && _ then set_gs_user _ gs else gs).
    assert (Hp : gp_action p = ACCESS_ACTION_NONE ∧ is_Some (gp_matched_session p)).
    { unfold p. destruct (_ =? _); by split. }
    assert (Hgs : gs_current gs' = gs_current gs) by (unfold gs'; by destruct (_ && _)). clearbody p gs'.
    assert (Hk : ∀ m, states_kept g (set_gg_alt m (put_gsess a gs' (set_gg_parsedpkt p g))) ∧
                      states_kept g (put_gsess a gs' (set_gg_parsedpkt p g))).
    { intros m. split.
      - eapply states_kept_trans; [|by apply same_tables_kept]. eapply (states_kept_trans _ (set_gg_parsedpkt p g)); [by apply same_tables_kept|by eapply put_gsess_kept].
      - eapply (states_kept_trans _ (set_gg_parsedpkt p g)); [by apply same_tables_kept|by eapply put_gsess_kept]. }
    destruct (_ =? GTPV1_CREATE_PDP_CONTEXT_RESPONSE); run_outcome; [|by intros [= <- <-]; split; [apply (Hk ∅)|]].
    destruct (GEN_SESSID p _) as [alt| |]; run_outcome; try done. cbn [gg_alt_session_map put_gsess set_gg_sessions set_gg_parsedpkt].
    destruct (gg_alt_session_map g !! alt); intros [= <- <-]; by (split; [apply (Hk (<[alt := a]> (gg_alt_session_map g)))|]).
  - destruct (negb (gp_msgtype _ =? GTPV2_CREATE_SESSION_REQUEST) && _) eqn:Et.
    + unfold gtp_save_unmatched. destruct (save_packet _ _) as [saved| |]; run_outcome; try done.
      intros [= <- <-]. split; [|by intros [? ?]]. by destruct (gg_saved_packets g !! _); apply same_tables_kept.
    + intros [= <- <-]. split; [|by split]. unfold states_kept, gtp_state, gtp_fresh. cbn. split; [|split].
      * intros b. destruct (decide (b = gg_next g)) as [->|]; [|by rewrite lookup_insert_ne].
        rewrite lookup_insert_eq. destruct (gg_sessions g !! gg_next g) eqn:E; [|done].
        specialize (Hf (gg_next g)). rewrite E in Hf. specialize (Hf (mk_is_Some _ _ eq_refl)). lia.
      * apply insert_subseteq. destruct (Z.eqb_spec (gp_msgtype (gg_parsedpkt g)) GTPV1_DELETE_PDP_CONTEXT_REQUEST) as [E|]; [|done].
        by rewrite E in Et.
      * intros _ b Hb. destruct (decide (b = gg_next g)) as [->|]; [lia|]. rewrite lookup_insert_ne in Hb by done.
        specialize (Hf b Hb). lia.
Qed.

(** What an update reports is what it did to the session of the message, and it did nothing
    to the others. *)
Definition reports (g g' : gtp_global_t) (o : option session_update) : Prop :=
  match o with
  | None => ∀ a, gtp_state g' a = gtp_state g a
  | Some su => ∃ b, g'.(gg_parsedpkt).(gp_matched_session) = Some b ∧
      su.(su_oldstate) = gtp_state g b ∧ su.(su_newstate) = gtp_state g' b ∧
      gtp_moves su.(su_oldstate) su.(su_action) su.(su_newstate) ∧
      ∀ a, a ≠ b → gtp_state g' a = gtp_state g a
  end.
(** A message that waits under the number of another is of the same exchange, or the same
    message again. *)
Definition exchange_ok (g : gtp_global_t) : Prop :=
  ∀ saved check, save_packet g.(gg_parsedpkt) g.(gg_parsedpkt).(gp_matched_session) = Ok saved →
    g.(gg_saved_packets) !! saved.(sp_reqid) = Some check →
    gtp_response_to saved.(sp_type) = Some check.(sp_type) ∨
    gtp_response_to check.(sp_type) = Some saved.(sp_type) ∨ saved.(sp_type) = check.(sp_type).

Lemma find_matched_kept now a teid l ss g sp l' ss' g' :
  find_matched_session now a teid l ss g = Ok (sp, l', ss', g') →
  states_kept g g' ∧ g'.(gg_parsedpkt) = g.(gg_parsedpkt).
Proof.
  unfold find_matched_session. destruct (get_gsess a g) as [gs| |] eqn:Eg; run_outcome; try done.
  apply get_gsess_ok in Eg. destruct (find_session _ _ _) as [[x|]| |]; run_outcome; try done.
  { intros [= <- <- <- <-]. by split; [apply same_tables_kept|]. }
  destruct (create_access_session _ _) as [s| |]; run_outcome; try done.
  intros [= <- <- <- <-]. split; [|done]. by eapply put_gsess_kept.
Qed.

(** One half of an exchange, applied to the session of the message. *)
Lemma apply_gtp_state gpkt a sp ss g ss' g' :
  apply_gtp gpkt a sp ss g = Ok (ss', g') →
  g'.(gg_session_map) = g.(gg_session_map) ∧ (gtp_fresh g → gtp_fresh g') ∧
  (gtp_state g' a, g'.(gg_parsedpkt).(gp_action)) =
    after_half false gpkt.(sp_type) gpkt.(sp_response_cause) (gtp_state g a, g.(gg_parsedpkt).(gp_action)) ∧
  g'.(gg_parsedpkt).(gp_matched_session) = g.(gg_parsedpkt).(gp_matched_session) ∧
  ∀ b, b ≠ a → gtp_state g' b = gtp_state g b.
Proof.
  unfold apply_gtp. destruct (get_gsess a g) as [gs| |] eqn:Eg; run_outcome; try done. apply get_gsess_ok in Eg.
  destruct (get_session sp ss) as [sess| |]; run_outcome; try done. unfold apply_gtp_fsm_logic.
  set (gs1 := set_gs_saved _ gs). assert (Hc : gs_current gs1 = gs_current gs) by done. clearbody gs1.
  destruct (gtp_transition (gs_current gs1) _ _) as [[cur o] addr] eqn:Et.
  destruct (if addr then _ else _) as [[sess' gs2]| |]; run_outcome; try done. intros [= <- <-]. cbn.
  split; [done|]. split.
  { intros Hf b Hb. destruct (decide (b = a)) as [->|]; [by apply Hf; rewrite Eg|].
    cbn in Hb. rewrite lookup_insert_ne in Hb by done. by apply Hf. }
  unfold gtp_state. cbn. rewrite lookup_insert_eq, Eg. split; [|split; [done|]].
  - unfold after_half. cbn. by rewrite <- Hc, Et.
  - intros b Hb. by rewrite lookup_insert_ne.
Qed.

(** How far an update got: tables that only grew. *)
Definition grown (g g' : gtp_global_t) : Prop :=
  g.(gg_session_map) ⊆ g'.(gg_session_map) ∧ (gtp_fresh g → gtp_fresh g').
Lemma kept_grown g g' : states_kept g g' → grown g g'.
Proof. by intros (_ & ? & ?). Qed.
Lemma grown_trans g g' g'' : grown g g' → grown g' g'' → grown g g''.
Proof. intros [? ?] [? ?]. split; [by etrans|eauto]. Qed.

(** An update without an application. *)
Lemma reports_none g g' : same_tables g g' → grown g g' ∧ reports g g' None.
Proof. intros H%same_tables_kept. split; [by apply kept_grown|]. by destruct H. Qed.

Lemma first_half_reports now saved l ss g o l' ss' g' :
  gtp_first_half now saved l ss g = Ok (o, l', ss', g') →
  g.(gg_parsedpkt).(gp_action) = ACCESS_ACTION_NONE →
  g.(gg_parsedpkt).(gp_matched_session) = saved.(sp_matched_session) → saved.(sp_applied) = 0 →
  grown g g' ∧ reports g g' o.
Proof.
  intros H Ha Hm Happ. revert H. unfold gtp_first_half.
  set (g0 := set_gg_saved _ g). assert (H0 : same_tables g g0 ∧ g0.(gg_parsedpkt) = g.(gg_parsedpkt)) by done.
  destruct (_ || _) eqn:Et.
  2:{ intros [= <- <- <- <-]. apply reports_none, H0. }
  destruct (sp_matched_session saved) as [a|].
  2:{ intros [= <- <- <- <-]. apply reports_none, H0. }
  clearbody g0. destruct H0 as [H0 Ep].
  destruct (find_matched_session _ _ _ _ _ _) as [[[[sp l1] ss1] g1]| |] eqn:Ef; run_outcome; try done.
  apply find_matched_kept in Ef as [Hk1 Ep1].
  destruct (get_gsess a g1) as [old| |] eqn:Eo; run_outcome; try done. apply get_gsess_ok in Eo.
  destruct (apply_gtp _ _ _ _ _) as [[ss2 g2]| |] eqn:Eapp; run_outcome; try done.
  apply apply_gtp_state in Eapp as (Hmap & Hfr & Hst & Hm2 & Hoth).
  destruct (get_gsess a g2) as [new| |] eqn:En; run_outcome; try done. apply get_gsess_ok in En.
  intros [= <- <- <- <-]. pose proof (states_kept_trans _ _ _ (same_tables_kept _ _ H0) Hk1) as (Hs & Hmap1 & Hfr1).
  assert (Est : ∀ b, gtp_state (set_gg_saved (<[sp_reqid saved := Mkgtp_saved_pkt_t (sp_reqid saved) (sp_version saved)
    (sp_type saved) 1 (sp_tvsec saved) (sp_response_cause saved) (sp_ipcontent saved) (sp_ies saved) (Some a)]>
    (gg_saved_packets g2)) g2) b = gtp_state g2 b) by done.
  split; [split; [cbn; by rewrite Hmap|exact (λ H, Hfr (Hfr1 H))]|].
  assert (Eold : gs_current old = gtp_state g a) by (rewrite <- Hs; unfold gtp_state; by rewrite Eo).
  assert (Enew : gs_current new = gtp_state g2 a) by (unfold gtp_state; by rewrite En).
  exists a. cbn [set_gg_saved gg_parsedpkt su_oldstate su_newstate su_action].
  split; [by rewrite Hm2, Ep1, Ep, Hm|]. split; [done|]. split; [by rewrite Est|]. split.
  - rewrite Hs, Ep1, Ep, Ha in Hst. rewrite Eold, Enew.
    pose proof (request_moves (gtp_state g a) (sp_type saved) (sp_response_cause saved)) as Hmv. cbv zeta in Hmv.
    rewrite <- Hst in Hmv. cbn in Hmv. apply Hmv. unfold gtp_is_request.
    destruct (_ =? GTPV2_CREATE_SESSION_REQUEST), (_ =? GTPV2_DELETE_SESSION_REQUEST),
      (_ =? GTPV1_CREATE_PDP_CONTEXT_REQUEST), (_ =? GTPV1_DELETE_PDP_CONTEXT_REQUEST); try done; by rewrite orb_true_r.
  - intros b Hb. rewrite Est, Hoth by done. apply Hs.
Qed.

Lemma both_halves_reports now request response l ss g o l' ss' g' :
  gtp_both_halves now request response l ss g = Ok (o, l', ss', g') →
  g.(gg_parsedpkt).(gp_action) = ACCESS_ACTION_NONE →
  gtp_response_to request.(sp_type) = Some response.(sp_type) →
  grown g g' ∧ reports g g' o.
Proof.
  intros H Ha Hpair. revert H. unfold gtp_both_halves.
  destruct (match sp_matched_session request with Some a => _ | None => _ end) as [a|].
  2:{ destruct (deref _) as [a| |]; run_outcome; try done. destruct (get_gsess a g); run_outcome; try done.
      intros [= <- <- <- <-]. by apply reports_none. }
  set (g0 := set_gg_parsedpkt _ g). assert (H0 : same_tables g g0 ∧ gp_action g0.(gg_parsedpkt) = ACCESS_ACTION_NONE) by done.
  clearbody g0. destruct H0 as [H0 Ha0].
  destruct (find_matched_session _ _ _ _ _ _) as [[[[sp l1] ss1] g1]| |] eqn:Ef; run_outcome; try done.
  apply find_matched_kept in Ef as [Hk1 Ep1].
  destruct (get_gsess a g1) as [old| |] eqn:Eo; run_outcome; try done. apply get_gsess_ok in Eo.
  set (g1' := set_gg_parsedpkt _ g1).
  assert (H1 : states_kept g g1' ∧ gp_action g1'.(gg_parsedpkt) = ACCESS_ACTION_NONE ∧
               gp_matched_session g1'.(gg_parsedpkt) = Some a).
  { split; [|by split; [cbn; rewrite Ep1|]]. eapply states_kept_trans; [apply same_tables_kept, H0|].
    eapply states_kept_trans; [exact Hk1|by apply same_tables_kept]. }
  assert (Eold : gs_current old = gtp_state g a).
  { destruct H1 as [[H1 _] _]. rewrite <- H1. unfold gtp_state, g1'. cbn. by rewrite Eo. }
  clearbody g1'. destruct H1 as ((Hs & Hmap1 & Hfr1) & Ha1 & Hm1).
  assert (Hhalf : ∀ gpkt ss g ss' g', (if sp_applied gpkt =? 0 then apply_gtp gpkt a sp ss g else Ok (ss, g)) = Ok (ss', g') →
    g'.(gg_session_map) = g.(gg_session_map) ∧ (gtp_fresh g → gtp_fresh g') ∧
    (gtp_state g' a, g'.(gg_parsedpkt).(gp_action)) =
      after_half (negb (sp_applied gpkt =? 0)) gpkt.(sp_type) gpkt.(sp_response_cause) (gtp_state g a, g.(gg_parsedpkt).(gp_action)) ∧
    g'.(gg_parsedpkt).(gp_matched_session) = g.(gg_parsedpkt).(gp_matched_session) ∧
    ∀ b, b ≠ a → gtp_state g' b = gtp_state g b).
  { intros gpkt x h x' h'. destruct (_ =? 0); [by apply apply_gtp_state|]. intros [= <- <-]. by split_and!. }
  match goal with |- context [if sp_applied request =? 0 then ?m else ?n] =>
    destruct (if sp_applied request =? 0 then m else n) as [[ss2 g2]| |] eqn:E2 end; run_outcome; try done.
  apply Hhalf in E2 as (Hmap2 & Hfr2 & Hst2 & Hm2 & Hoth2).
  match goal with |- context [if sp_applied response =? 0 then ?m else ?n] =>
    destruct (if sp_applied response =? 0 then m else n) as [[ss3 g3]| |] eqn:E3 end; run_outcome; try done.
  apply Hhalf in E3 as (Hmap3 & Hfr3 & Hst3 & Hm3 & Hoth3).
  destruct (get_gsess a g3) as [new| |] eqn:En; run_outcome; try done. apply get_gsess_ok in En.
  intros [= <- <- <- <-]. split; [split; [by rewrite Hmap3, Hmap2|auto]|]. 
  assert (Enew : gs_current new = gtp_state g3 a) by (unfold gtp_state; by rewrite En).
  exists a. split; [by rewrite Hm3, Hm2|]. split; [done|]. split; [done|]. split.
  - rewrite Hs, Ha1 in Hst2. rewrite Hst2 in Hst3. cbn [su_oldstate su_newstate su_action]. rewrite Eold, Enew.
    pose proof (exchange_moves (gtp_state g a) _ _ (sp_response_cause request) (sp_response_cause response)
                  (negb (sp_applied request =? 0)) (negb (sp_applied response =? 0)) Hpair) as Hmv.
    cbv zeta in Hmv. by rewrite <- Hst3 in Hmv.
  - intros b Hb. rewrite Hoth3, Hoth2 by done. apply Hs.
Qed.

Lemma update_reports now l ss g o l' ss' g' :
  gtp_update_session_state now None l ss g = Ok (o, l', ss', g') →
  g.(gg_parsedpkt).(gp_action) = ACCESS_ACTION_NONE → exchange_ok g →
  grown g g' ∧ reports g g' o.
Proof.
  intros H Ha Hex. revert H. unfold gtp_update_session_state.
  destruct (save_packet _ _) as [saved| |] eqn:Es; run_outcome; try done. specialize (Hex saved).
  assert (Hsv : saved.(sp_matched_session) = g.(gg_parsedpkt).(gp_matched_session) ∧ saved.(sp_applied) = 0).
  { revert Es. unfold save_packet. destruct (deref _); run_outcome; try done. by intros [= <-]. }
  destruct Hsv as [Hmatch Happ].
  cbn [set_gg_parsedpkt gg_saved_packets]. destruct (gg_saved_packets g !! sp_reqid saved) as [check|] eqn:Ec.
  - specialize (Hex check Es eq_refl). unfold gtp_pair. destruct (decide _) as [E|E1]; [|destruct (decide _) as [E|E2]].
    + intros H. by apply both_halves_reports in H.
    + intros H. by apply both_halves_reports in H.
    + destruct Hex as [?|[?| ->]]; [done|done|]. rewrite Z.eqb_refl. intros [= <- <- <- <-]. by apply reports_none.
  - intros H. by apply first_half_reports in H.
Qed.

(** ** Runs *)

(** Packets one after the other, with whatever sessions the callers keep; the reports. *)
Inductive gtp_run : gtp_global_t → list (Z * session_update) → gtp_global_t → Prop :=
  | run_done g : gtp_run g [] g
  | run_unparsed g pkt g1 l g' :
      gtp_parse_packet pkt g = Ok (None, g1) → gtp_run g1 l g' → gtp_run g l g'
  | run_unknown g pkt g1 g2 l g' :
      gtp_parse_packet pkt g = Ok (Some tt, g1) → gtp_get_userid g1 = Ok (None, g2) →
      gtp_run (gtp_destroy_parsed_data g2) l g' → gtp_run g l g'
  | run_update g pkt g1 ids g2 now sesslist ss o sesslist' ss' g3 l g' :
      gtp_parse_packet pkt g = Ok (Some tt, g1) → gtp_get_userid g1 = Ok (Some ids, g2) →
      exchange_ok g2 →
      gtp_update_session_state now None sesslist ss g2 = Ok (o, sesslist', ss', g3) →
      gtp_run (gtp_destroy_parsed_data g3) l g' →
      gtp_run g (match o, g3.(gg_parsedpkt).(gp_matched_session) with
                 | Some su, Some a => (a, su) :: l | _, _ => l end) g'.

(** The actions that were reported for a session. *)
Definition actions_of (a : Z) (l : list (Z * session_update)) : list access_action_t :=
  filter (λ x, x ≠ ACCESS_ACTION_NONE) (map (λ e, e.2.(su_action)) (filter (λ e, e.1 = a) l)).
(** What can still be reported for a session in a state. *)
Definition gtp_stream (s : session_state_t) (l : list access_action_t) : Prop :=
  let active l := ∃ n e, l = replicate n ACCESS_ACTION_INTERIM_UPDATE ++ e ∧ (e = [] ∨ e = [ACCESS_ACTION_END]) in
  match s with
  | SESSION_STATE_NEW | SESSION_STATE_AUTHING =>
      l = [] ∨ l = [ACCESS_ACTION_REJECT] ∨ ∃ k, l = ACCESS_ACTION_ACCEPT :: k ∧ active k
  | SESSION_STATE_ACTIVE => active l
  | SESSION_STATE_ENDING => l = [] ∨ l = [ACCESS_ACTION_END]
  | _ => l = []
  end.

Lemma stream_none s : gtp_stream s [].
Proof. destruct s; cbn; auto; exists 0%nat, []; auto. Qed.
Lemma stream_move s a s' l :
  gtp_moves s a s' → gtp_stream s' l →
  gtp_stream s (if decide (a = ACCESS_ACTION_NONE) then l else a :: l).
Proof.
  destruct (decide _) as [->|Ha].
  - intros [->|[[-> ->]|[-> ->]]]; [done|done|]. cbn. intros [-> | ->].
    + exists 0%nat, []. auto.
    + exists 0%nat, [ACCESS_ACTION_END]. auto.
  - destruct a; try done; cbn.
    + intros [[-> | ->] ->] (n & e & -> & He); right; right;
        (exists (replicate n ACCESS_ACTION_INTERIM_UPDATE ++ e); split; [done|by exists n, e]).
    + intros [[-> | ->] ->] ->; right; by left.
    + intros [-> ->] (n & e & -> & He). by exists (S n), e.
    + intros [[-> | ->] ->] ->.
      * exists 0%nat, [ACCESS_ACTION_END]. by split; [|right].
      * by right.
Qed.

Lemma actions_cons a b su l :
  actions_of a ((b, su) :: l) =
  if decide (b = a) then (if decide (su.(su_action) = ACCESS_ACTION_NONE) then actions_of a l
                          else su.(su_action) :: actions_of a l) else actions_of a l.
Proof.
  unfold actions_of. rewrite filter_cons. cbn [fst]. destruct (decide (b = a)); [|done].
  cbn [map snd]. rewrite filter_cons.
  destruct (decide (su_action su = ACCESS_ACTION_NONE)); case_decide; tauto.
Qed.

Lemma run_reports g l g' :
  gtp_run g l g' → gtp_fresh g → gtp_idle g →
  g.(gg_session_map) ⊆ g'.(gg_session_map) ∧
  ∀ a, gtp_stream (gtp_state g a) (actions_of a l) ∧
       (gtp_state g a = SESSION_STATE_OVER → gtp_state g' a = SESSION_STATE_OVER ∧
          Forall (λ e, e.1 = a → e.2.(su_oldstate) = SESSION_STATE_OVER ∧
                                 e.2.(su_newstate) = SESSION_STATE_OVER ∧ e.2.(su_action) = ACCESS_ACTION_NONE) l).
Proof.
  induction 1 as [g|g pkt g1 l g' Hp Hrun IH|g pkt g1 g2 l g' Hp Hu Hrun IH
                 |g pkt g1 ids g2 now sl ss o sl' ss' g3 l g' Hp Hu Hex Hupd Hrun IH]; intros Hf Hi.
  - split; [done|]. intros a. split; [apply stream_none|]. intros ->. by split; [|constructor].
  - apply parse_same in Hp as [Ht Hun]; [|done]. destruct (same_tables_kept _ _ Ht) as (Hs & Hm & Hfr).
    destruct IH as [Hm' IH]; [by apply Hfr|by intros _|]. split; [by etrans|]. intros a. rewrite <- Hs. apply IH.
  - apply parse_same in Hp as [Ht Hun]; [|done].
    destruct (same_tables_kept _ _ Ht) as (Hs & Hm & Hfr).
    apply userid_kept in Hu as [(Hs2 & Hm2 & Hfr2) _]; [|by apply Hfr|done].
    destruct IH as [Hm' IH]; [exact (Hfr2 (Hfr Hf))|done|]. split; [exact (transitivity Hm (transitivity Hm2 Hm'))|].
    intros a. rewrite <- Hs, <- Hs2. apply (IH a).
  - apply parse_same in Hp as [Ht Hun]; [|done].
    destruct (same_tables_kept _ _ Ht) as (Hs & Hm & Hfr).
    apply userid_kept in Hu as [(Hs2 & Hm2 & Hfr2) Hact]; [|by apply Hfr|done].
    destruct (Hact (mk_is_Some _ _ eq_refl)) as [Hnone _].
    apply update_reports in Hupd as [[Hm3 Hfr3] Hr]; [|done|done].
    destruct IH as [Hm' IH]; [exact (Hfr3 (Hfr2 (Hfr Hf)))|done|]. split; [exact (transitivity Hm (transitivity Hm2 (transitivity Hm3 Hm')))|].
    intros a. rewrite <- Hs, <- Hs2. specialize (IH a).
    change (gtp_state (gtp_destroy_parsed_data g3) a) with (gtp_state g3 a) in IH.
    destruct o as [su|]; [|rewrite <- (Hr a); exact IH].
    destruct Hr as (b & -> & Eo & En & Hmv & Hoth). rewrite actions_cons. destruct (decide (b = a)) as [->|Hb].
    + rewrite Eo, En in Hmv. split; [apply (stream_move _ _ (gtp_state g3 a)); [exact Hmv|apply IH]|]. intros Eover. rewrite Eover in Hmv.
      assert (E : gtp_state g3 a = SESSION_STATE_OVER ∧ su_action su = ACCESS_ACTION_NONE).
      { destruct (su_action su); cbn in Hmv; intuition congruence. }
      destruct E as [E3 Ea]. destruct IH as [_ IH]. destruct (IH E3). split; [done|]. constructor; [|done].
      cbn. by rewrite Eo, En, E3.
    + rewrite <- (Hoth a) by done. destruct IH as [IH1 IH2]. split; [done|]. intros E. destruct (IH2 E).
      split; [done|]. by constructor.
Qed.

Lemma run_invariant g l g' : gtp_run g l g' → gtp_fresh g → gtp_idle g → gtp_fresh g' ∧ gtp_idle g'.
Proof.
  induction 1 as [g|g pkt g1 l g' Hp Hrun IH|g pkt g1 g2 l g' Hp Hu Hrun IH
                 |g pkt g1 ids g2 now sl ss o sl' ss' g3 l g' Hp Hu Hex Hupd Hrun IH]; intros Hf Hi; [done|..];
    apply parse_same in Hp as [Ht Hun]; try done; destruct (same_tables_kept _ _ Ht) as (_ & _ & Hfr).
  - apply IH; [by apply Hfr|by intros _].
  - apply userid_kept in Hu as [(_ & _ & Hfr2) _]; [|by apply Hfr|done].
    apply IH; [exact (Hfr2 (Hfr Hf))|done].
  - apply userid_kept in Hu as [(_ & _ & Hfr2) Hact]; [|by apply Hfr|done].
    destruct (Hact (mk_is_Some _ _ eq_refl)) as [Hnone _].
    apply update_reports in Hupd as [[_ Hfr3] _]; [|done|done].
    apply IH; [exact (Hfr3 (Hfr2 (Hfr Hf)))|done].
Qed.

(** The runs of the plugin for one user, as a function; [None] where a run has stopped. *)
Definition exchange_okb (g : gtp_global_t) : bool :=
  match save_packet g.(gg_parsedpkt) g.(gg_parsedpkt).(gp_matched_session) with
  | Ok saved =>
      match g.(gg_saved_packets) !! saved.(sp_reqid) with
      | Some check =>
          bool_decide (gtp_response_to saved.(sp_type) = Some check.(sp_type)) ||
          bool_decide (gtp_response_to check.(sp_type) = Some saved.(sp_type)) ||
          (saved.(sp_type) =? check.(sp_type))
      | None => true
      end
  | _ => true
  end.
Lemma exchange_okb_ok g : exchange_okb g = true → exchange_ok g.
Proof.
  unfold exchange_okb. intros H saved check Hs Hc. revert H. rewrite Hs, Hc.
  rewrite !orb_true_iff, !bool_decide_eq_true, Z.eqb_eq. tauto.
Qed.
Fixpoint gtp_exec (now : Z) (l : list radius_packet) (sesslist : list Z) (ss : session_store) (g : gtp_global_t)
    : option (list (Z * session_update) * list Z * session_store * gtp_global_t) :=
  match l with
  | [] => Some ([], sesslist, ss, g)
  | pkt :: l =>
      match gtp_parse_packet pkt g with
      | Ok (None, g) => gtp_exec now l sesslist ss g
      | Ok (Some tt, g) =>
          match gtp_get_userid g with
          | Ok (None, g) => gtp_exec now l sesslist ss (gtp_destroy_parsed_data g)
          | Ok (Some _, g) =>
              if exchange_okb g then
                match gtp_update_session_state now None sesslist ss g with
                | Ok (o, sesslist, ss, g) =>
                    '(es, sesslist, ss, g') ← gtp_exec now l sesslist ss (gtp_destroy_parsed_data g);
                    Some (match o, g.(gg_parsedpkt).(gp_matched_session) with
                          | Some su, Some a => (a, su) :: es | _, _ => es end, sesslist, ss, g')
                | _ => None
                end
              else None
          | _ => None
          end
      | _ => None
      end
  end.
Lemma gtp_exec_run now l : ∀ sesslist ss g es sesslist' ss' g',
  gtp_exec now l sesslist ss g = Some (es, sesslist', ss', g') → gtp_run g es g'.
Proof.
  induction l as [|pkt l IH]; intros sesslist ss g es sesslist' ss' g'; cbn [gtp_exec].
  { intros [= <- _ _ <-]. apply run_done. }
  destruct (gtp_parse_packet pkt g) as [[[[]|] g1]| |] eqn:Ep; try done.
  2:{ intros H%IH. by eapply run_unparsed. }
  destruct (gtp_get_userid g1) as [[[ids|] g2]| |] eqn:Eu; try done.
  2:{ intros H%IH. by eapply run_unknown. }
  destruct (exchange_okb g2) eqn:Ex; [|done].
  destruct (gtp_update_session_state now None sesslist ss g2) as [[[[o sl2] ss2] g3]| |] eqn:Es; try done.
  destruct (gtp_exec now l sl2 ss2 _) as [[[[es1 sl3] ss3] g4]|] eqn:Er; [|done]. intros [= <- _ _ <-].
  eapply run_update; [done|done|by apply exchange_okb_ok|done|by eapply IH].
Qed.

(** C19: As long as a message that waits for the other half of its exchange meets that half or
    the same message again under its number ([exchange_ok]; otherwise the source takes both
    for an unexpected pair, and a session may be ended whose acceptance was never reported),
    the packets may be what they like and come in any order: what the plugin reports for a
    session is nothing, a rejection, or an acceptance followed by updates and at most one
    end; from then on the session stays in the table under its identifier and every further
    report about it says that nothing happened, so that a new session that is given the same
    TEID is not seen. *)
Theorem gtp_session_lifecycle l1 g1 l2 g2 :
  gtp_run gtp_init_plugin_data l1 g1 → gtp_run g1 l2 g2 →
  (∀ a, gtp_stream SESSION_STATE_NEW (actions_of a l1) ∧ gtp_stream (gtp_state g1 a) (actions_of a l2)) ∧
  ∀ sessid a, g1.(gg_session_map) !! sessid = Some a → gtp_state g1 a = SESSION_STATE_OVER →
    g2.(gg_session_map) !! sessid = Some a ∧ gtp_state g2 a = SESSION_STATE_OVER ∧
    Forall (λ e, e.1 = a → e.2.(su_oldstate) = SESSION_STATE_OVER ∧
                           e.2.(su_newstate) = SESSION_STATE_OVER ∧ e.2.(su_action) = ACCESS_ACTION_NONE) l2.
Proof.
  intros H1 H2. assert (H0 : gtp_fresh gtp_init_plugin_data ∧ gtp_idle gtp_init_plugin_data).
  { split; [intros a [? ?]; done|by intros _]. }
  destruct H0 as [Hf Hi]. destruct (run_invariant _ _ _ H1 Hf Hi) as [Hf1 Hi1].
  destruct (run_reports _ _ _ H1 Hf Hi) as [_ Hr1]. destruct (run_reports _ _ _ H2 Hf1 Hi1) as [Hm Hr2].
  split; [intros a; split; [apply Hr1|apply Hr2]|]. intros sessid a Ha Hover.
  destruct (Hr2 a) as [_ [Hs Hall]]; [done|]. split; [by eapply lookup_weaken|done].
Qed.

(** *** A session, and another one with the same TEID *)

(** A message of version 2 to or from the server at 10.0.0.9. *)
Definition gtp_message (version msgtype teid seqno : Z) (l : list wire_ie) : radius_packet :=
  let payload := gtp_wire version msgtype teid seqno l in
  let udp := [8; 75; 8; 75; 0; 0; 0; 0] ++ payload in
  let '(src, dst) := if gtp_is_request msgtype then ([10; 0; 0; 1], [10; 0; 0; 9])
                     else ([10; 0; 0; 9], [10; 0; 0; 1]) in
  Mkradius_packet 5000000 (Some (0x0800, replicate 12 0 ++ src ++ dst ++ udp))
    (Some (17, udp)) (Some (4096, payload)).
Definition fteid (teid : Z) : wire_ie := Mkwire_ie GTPV2_IE_FTEID 0 (0x86 :: be_bytes 4 teid ++ [10; 0; 0; 1]).
Definition create_request : radius_packet :=
  gtp_message 2 GTPV2_CREATE_SESSION_REQUEST 0 0x100
    [Mkwire_ie GTPV2_IE_IMSI 0 (tbcd [5; 3; 0; 0; 1; 1; 2; 3; 4; 5]);
     Mkwire_ie GTPV2_IE_MSISDN 0 (tbcd [6; 4; 2; 1; 5; 5; 5]); fteid 77].
Definition create_response : radius_packet :=
  gtp_message 2 GTPV2_CREATE_SESSION_RESPONSE 77 0x100
    [Mkwire_ie GTPV2_IE_CAUSE 0 [16; 0]; Mkwire_ie GTPV2_IE_PDN_ALLOC 0 [1; 192; 168; 1; 7]].
Definition delete_request : radius_packet :=
  gtp_message 2 GTPV2_DELETE_SESSION_REQUEST 5 0x200 [fteid 77].
Definition delete_response : radius_packet :=
  gtp_message 2 GTPV2_DELETE_SESSION_RESPONSE 77 0x200 [Mkwire_ie GTPV2_IE_CAUSE 0 [16; 0]].
Definition one_session : list radius_packet := [create_request; create_response; delete_request; delete_response].

(** What was reported, and the plugin afterwards. *)
Definition gtp_after (l : list radius_packet) : list (Z * session_update) * gtp_global_t :=
  match gtp_exec 6000000 l [] (Mksession_store ∅ 0) gtp_init_plugin_data with
  | Some (es, _, _, g) => (es, g) | None => ([], gtp_init_plugin_data) end.
Lemma gtp_after_run l : gtp_run gtp_init_plugin_data (gtp_after l).1 (gtp_after l).2.
Proof.
  unfold gtp_after. destruct (gtp_exec 6000000 l _ _ _) as [[[[es ?] ?] g]|] eqn:E; [|apply run_done].
  by eapply gtp_exec_run.
Qed.

Lemma one_session_reported :
  actions_of 0 (gtp_after one_session).1 = [ACCESS_ACTION_ACCEPT; ACCESS_ACTION_END].
Proof. by vm_compute. Qed.

Lemma gtp_session_lifecycle_witness :
  (gtp_after one_session).2.(gg_session_map) !! of_string "150994954-77" = Some 0 ∧
  gtp_state (gtp_after one_session).2 0 = SESSION_STATE_OVER ∧
  actions_of 0 (gtp_after one_session).1 = [ACCESS_ACTION_ACCEPT; ACCESS_ACTION_END] ∧
  ∃ g2 l2, gtp_run (gtp_after one_session).2 l2 g2 ∧ length l2 = 4%nat ∧
    g2.(gg_session_map) !! of_string "150994954-77" = Some 0 ∧ gtp_state g2 0 = SESSION_STATE_OVER ∧
    Forall (λ e, e.1 = 0 → e.2.(su_oldstate) = SESSION_STATE_OVER ∧
                           e.2.(su_newstate) = SESSION_STATE_OVER ∧ e.2.(su_action) = ACCESS_ACTION_NONE) l2.
Proof.
  split; [vm_compute; reflexivity|]. split; [vm_compute; reflexivity|]. split; [vm_compute; reflexivity|].
  set (again := gtp_exec 6000000 one_session [] (Mksession_store ∅ 0) (gtp_after one_session).2).
  assert (H2 : match again with Some (l2, _, _, _) => length l2 = 4%nat | None => False end) by (vm_compute; reflexivity).
  destruct again as [[[[l2 sl2] ss2] g2]|] eqn:E; [|destruct H2].
  apply gtp_exec_run in E.
  destruct (gtp_session_lifecycle _ _ l2 g2 (gtp_after_run one_session) E) as [_ H].
  exists g2, l2. split; [exact E|]. split; [exact H2|].
  apply (H (of_string "150994954-77") 0); vm_compute; reflexivity.
Defined.
