(* ===== verification/GtpOrder.v ===== *)
(** * The GTP plugin: the order of an exchange

    The request that creates a session and its response may reach the collector in either
    order; the session that comes out is the same, but the table that finds the messages
    that delete it is not. *)

From stdpp Require Import gmap.
From S2P Require Import Prelude ByteOrder Publish AccessSession Radius RadiusSession Ipiri Gtp GtpParse GtpProps.

(** ** Identifiers of sessions *)

Lemma read_le_nonneg n mem v : all_bytes mem → read_le n mem = Ok v → 0 ≤ v.
Proof.
  intros Hm. unfold read_le. case_decide; [|done]. intros [= <-].
  apply (le_val_range (take n mem)). by apply Forall_take.
Qed.
Lemma digits_cstr fuel n : 0 ≤ n → cstr_ok (decimal_digits fuel n).
Proof. intros Hn. eapply Forall_impl; [by apply decimal_digits_range|]. cbn. lia. Qed.
Lemma dashed_cstr l k : cstr_ok l → cstr_ok k → cstr_ok (l ++ [45] ++ k).
Proof. intros Hl Hk. apply Forall_app. split; [done|]. apply Forall_app. split; [|done]. repeat constructor. Qed.
Lemma Ok_inj {A} (x y : A) : Ok x = Ok y → x = y.
Proof. by intros [=]. Qed.
Lemma GEN_SESSID_ok p teid sessid :
  all_bytes p.(gp_serverid) → 0 ≤ teid → GEN_SESSID p teid = Ok sessid → cstr_ok sessid.
Proof.
  intros Hs Ht. unfold GEN_SESSID. destruct (_ =? 4).
  - destruct (read_le 4 _) as [v| |] eqn:E; run_outcome; try done. apply read_le_nonneg in E; [|done].
    intros <-%Ok_inj. by apply (dashed_cstr (print_u v)); apply digits_cstr.
  - destruct (read_le 8 (gp_serverid p)) as [v| |] eqn:E; run_outcome; try done. apply read_le_nonneg in E; [|done].
    destruct (read_le 8 (zdrop 8 _)) as [w| |] eqn:E2; run_outcome; try done.
    apply read_le_nonneg in E2; [|by apply Forall_drop].
    intros <-%Ok_inj. apply (dashed_cstr (decimal_digits 20 v)); [by apply digits_cstr|].
    apply (dashed_cstr (decimal_digits 20 w)); by apply digits_cstr.
Qed.

(** ** The caller's sessions *)

Lemma until_nul_end bs : cstr_ok bs → until_nul (bs ++ [0]) = bs.
Proof.
  induction 1 as [|b bs Hb _ IH]; [done|]. cbn [app until_nul]. rewrite decide_False by lia. by rewrite IH.
Qed.
Lemma find_session_live key l ss sp : find_session key l ss = Ok (Some sp) → ∃ s, ss.(ss_heap) !! sp = Some s.
Proof.
  induction l as [|p l IH]; cbn [find_session]; [done|]. unfold get_session.
  destruct (ss_heap ss !! p) as [s|] eqn:E; run_outcome; [|done].
  case_decide; [by intros [= <-]; eauto|apply IH].
Qed.
Lemma find_session_added key l ss (s : access_session_t) :
  ss.(ss_heap) !! ss.(ss_next) = None → until_nul s.(as_sessionid) = key →
  find_session key l ss = Ok None →
  find_session key (l ++ [ss.(ss_next)]) (Mksession_store (<[ss.(ss_next) := s]> ss.(ss_heap)) (ss.(ss_next) + 1)) =
  Ok (Some ss.(ss_next)).
Proof.
  intros Hn Hk. induction l as [|p l IH]; cbn [find_session app]; unfold get_session; cbn [ss_heap].
  - intros _. rewrite lookup_insert_eq. run_outcome. by rewrite decide_True.
  - destruct (ss_heap ss !! p) as [x|] eqn:E; run_outcome; [|done].
    rewrite lookup_insert_ne by congruence. rewrite E. run_outcome. case_decide; [done|apply IH].
Qed.
Lemma put_session_same sp s ss : ss.(ss_heap) !! sp = Some s → put_session sp s ss = ss.
Proof. intros H. unfold put_session. rewrite insert_id by done. by destruct ss. Qed.

(** ** An exchange that creates a session *)

(** The messages as they were parsed, at a state in which nothing is known of them. *)
Record create_exchange (g : gtp_global_t) (q r : gtp_parsed_t) : Prop := {
  ce_types : (q.(gp_msgtype) = GTPV2_CREATE_SESSION_REQUEST ∧ r.(gp_msgtype) = GTPV2_CREATE_SESSION_RESPONSE) ∨
             (q.(gp_msgtype) = GTPV1_CREATE_PDP_CONTEXT_REQUEST ∧ r.(gp_msgtype) = GTPV1_CREATE_PDP_CONTEXT_RESPONSE);
  ce_packets : is_Some q.(gp_origpkt) ∧ is_Some r.(gp_origpkt);
  ce_fresh : unmatched q ∧ unmatched r;
  ce_same : r.(gp_teid) = q.(gp_teid) ∧ r.(gp_seqno) = q.(gp_seqno) ∧
            r.(gp_serveripfamily) = q.(gp_serveripfamily) ∧ r.(gp_serverid) = q.(gp_serverid);
  ce_server : (q.(gp_serveripfamily) = 4 ∨ q.(gp_serveripfamily) = 6) ∧
              all_bytes q.(gp_serverid) ∧ zlen q.(gp_serverid) = 16;
  ce_teid : 0 ≤ q.(gp_teid) ∧ 0 ≤ r.(gp_teid_ctl);
  ce_user : q.(gp_msisdn) ≠ [] ∧ r.(gp_msisdn) = [];
  ce_unknown : ∀ sessid, GEN_SESSID q q.(gp_teid) = Ok sessid → g.(gg_session_map) !! sessid = None;
  ce_unsaved : g.(gg_saved_packets) !! Z.lor (Z.shiftl q.(gp_teid) 32) q.(gp_seqno) = None;
}.

(** What is left of the messages: the report of the second one, the sessions of the caller
    and of the plugin, and the messages that wait. *)
Definition create_result : Type :=
  option (Z * session_state_t * access_action_t) * list Z * session_store *
  (gmap Z gtp_session_t * gmap bytes Z * gmap Z gtp_saved_pkt_t).
Definition result_of (o : option session_update) (l : list Z) (ss : session_store) (g : gtp_global_t) : create_result :=
  ((λ su, (su.(su_sess), su.(su_newstate), su.(su_action))) <$> o, l, ss,
   (g.(gg_sessions), g.(gg_session_map), g.(gg_saved_packets))).
Definition two_messages (now : Z) (p1 p2 : gtp_parsed_t) (l : list Z) (ss : session_store) (g : gtp_global_t)
    : outcome (create_result * gmap bytes Z) :=
  '(_, l, ss, g) ← gtp_handle now l ss (set_gg_parsedpkt p1 g);
  '(o, l, ss, g) ← gtp_handle now l ss (set_gg_parsedpkt p2 g);
  Ok (result_of o l ss g, g.(gg_alt_session_map)).

(** The session the request makes in the caller's store, or the one that is there. *)
Definition caller_session (now teid : Z) (sessid : bytes) (l : list Z) (ss : session_store)
    : outcome (Z * list Z * session_store * bool) :=
  found ← find_session sessid l ss;
  match found with
  | Some sp => Ok (sp, l, ss, false)
  | None =>
      s ← create_access_session (sessid ++ [0]) (zlen sessid);
      Ok (ss.(ss_next), l ++ [ss.(ss_next)],
          Mksession_store (<[ss.(ss_next) := set_as_cin (assign_gtp_cin now teid) s]> ss.(ss_heap)) (ss.(ss_next) + 1),
          true)
  end.
Definition with_cin (new : bool) (now teid : Z) (gs : gtp_session_t) : gtp_session_t :=
  if new then set_gs_cin (assign_gtp_cin now teid) gs else gs.
Lemma find_matched_alt now a teid l ss g gs :
  g.(gg_sessions) !! a = Some gs →
  find_matched_session now a teid l ss g =
  ('(sp, l, ss, new) ← caller_session now teid gs.(gs_sessid) l ss;
   Ok (sp, l, ss, put_gsess a (with_cin new now teid gs) g)).
Proof.
  intros Ha. unfold find_matched_session, get_gsess, caller_session. rewrite Ha. cbn [deref]. run_outcome.
  destruct (find_session _ _ _) as [[sp|]| |]; run_outcome; try done.
  - unfold put_gsess, with_cin. rewrite insert_id by done. by destruct g.
  - by destruct (create_access_session _ _).
Qed.
Lemma caller_session_again now teid sessid l ss sp l' ss' new :
  cstr_ok sessid → ss.(ss_heap) !! ss.(ss_next) = None →
  caller_session now teid sessid l ss = Ok (sp, l', ss', new) →
  caller_session now teid sessid l' ss' = Ok (sp, l', ss', false) ∧ is_Some (ss'.(ss_heap) !! sp).
Proof.
  intros Hk Hn. unfold caller_session. destruct (find_session sessid l ss) as [[p|]| |] eqn:Ef; run_outcome; try done.
  - intros [= <- <- <- <-]. rewrite Ef. run_outcome. destruct (find_session_live _ _ _ _ Ef). eauto.
  - destruct (create_access_session _ _) as [s| |] eqn:Ec; run_outcome; try done. intros [= <- <- <- <-].
    assert (Hid : until_nul s.(as_sessionid) = sessid).
    { revert Ec. unfold create_access_session. rewrite read_bytes_Ok by zlia. run_outcome. intros [= <-]. cbn.
      unfold ztake. rewrite take_ge by (rewrite length_app; unfold zlen; simpl; lia). by apply until_nul_end. }
    rewrite find_session_added; [|done|done|done]. run_outcome. split; [done|]. cbn. by rewrite lookup_insert_eq.
Qed.

(** The request changes a new session, and nothing in the caller's. *)
Definition after_request (q : gtp_saved_pkt_t) (gs : gtp_session_t) : gtp_session_t :=
  set_gs_current SESSION_STATE_AUTHING (set_gs_saved (copy_session_params q gs.(gs_saved)) gs).
Lemma apply_request q a sp ss g gs :
  q.(sp_type) = GTPV2_CREATE_SESSION_REQUEST ∨ q.(sp_type) = GTPV1_CREATE_PDP_CONTEXT_REQUEST →
  g.(gg_sessions) !! a = Some gs → gs.(gs_current) = SESSION_STATE_NEW → is_Some (ss.(ss_heap) !! sp) →
  apply_gtp q a sp ss g =
    Ok (ss, put_gsess a (after_request q gs) (set_gg_parsedpkt (set_gp_action ACCESS_ACTION_NONE g.(gg_parsedpkt)) g)).
Proof.
  intros Ht Ha Hc [s Hs]. unfold apply_gtp, get_gsess, get_session, apply_gtp_fsm_logic. rewrite Ha, Hs. cbn [deref].
  run_outcome. unfold set_gs_saved at 1. cbn [gs_current]. rewrite Hc.
  assert (E : gtp_transition SESSION_STATE_NEW (sp_type q) (sp_response_cause q) =
              (SESSION_STATE_AUTHING, Some ACCESS_ACTION_NONE, false)) by (by destruct Ht as [-> | ->]).
  rewrite E. cbv iota. run_outcome. by rewrite put_session_same.
Qed.
Lemma get_put_gsess a gs g : get_gsess a (put_gsess a gs g) = Ok gs.
Proof. unfold get_gsess. cbn. by rewrite lookup_insert_eq. Qed.
(** A message is applied to two plugins that have the same session in the same way. *)
Lemma apply_gtp_on q a sp ss g gs :
  g.(gg_sessions) !! a = Some gs →
  apply_gtp q a sp ss g =
  (sess ← get_session sp ss;
   '(gs, action, sess) ← apply_gtp_fsm_logic q sp gs g.(gg_parsedpkt).(gp_action) sess;
   Ok (put_session sp sess ss, put_gsess a gs (set_gg_parsedpkt (set_gp_action action g.(gg_parsedpkt)) g))).
Proof. intros Ha. unfold apply_gtp, get_gsess. by rewrite Ha. Qed.

(** An update, without the message that is left in the plugin. *)
Definition seen (m : outcome (option session_update * list Z * session_store * gtp_global_t))
    : outcome (create_result * gmap bytes Z) :=
  '(o, l, ss, g) ← m; Ok (result_of o l ss g, g.(gg_alt_session_map)).

(** Both halves of an exchange, of a session [gs] at [a]: the response alone, or after
    the request. *)
Definition halves_of (now a : Z) (rs : gtp_saved_pkt_t) (upd : gtp_session_t → gtp_session_t) (gs : gtp_session_t)
    (action : access_action_t) (l : list Z) (ss : session_store) (h : gtp_global_t)
    : outcome (create_result * gmap bytes Z) :=
  let teid := h.(gg_parsedpkt).(gp_teid) in
  '(sp, l, ss, new) ← caller_session now teid gs.(gs_sessid) l ss;
  sess ← get_session sp ss;
  '(gs, action, sess) ← apply_gtp_fsm_logic rs sp (upd (with_cin new now teid gs)) action sess;
  Ok ((Some (sp, gs.(gs_current), action), l, put_session sp sess ss,
       (<[a := gs]> h.(gg_sessions), h.(gg_session_map), h.(gg_saved_packets))), h.(gg_alt_session_map)).

Section halves.
Context (now a : Z) (rq rs : gtp_saved_pkt_t) (gs : gtp_session_t) (l : list Z) (ss : session_store) (h : gtp_global_t).
Context (Ha : h.(gg_sessions) !! a = Some gs) (Hrs : rs.(sp_applied) = 0) (Hm : rq.(sp_matched_session) = Some a).

Lemma both_second :
  rq.(sp_applied) = 1 →
  seen (gtp_both_halves now rq rs l ss h) =
  halves_of now a rs (λ gs, gs) gs h.(gg_parsedpkt).(gp_action) l ss h.
Proof.
  intros Hrq. unfold gtp_both_halves. rewrite Hm, Hrq, Hrs.
  rewrite (find_matched_alt _ _ _ _ _ (set_gg_parsedpkt _ h) gs) by done. unfold seen, halves_of.
  cbn [set_gp_pair gp_teid]. destruct (caller_session _ _ _ _ _) as [[[[sp l'] ss'] new]| |]; run_outcome; [|done|done].
  rewrite get_put_gsess. run_outcome. change (1 =? 0) with false. change (0 =? 0) with true. cbv iota. run_outcome.
  erewrite apply_gtp_on by (apply lookup_insert_eq).
  destruct (get_session sp ss') as [sess| |]; run_outcome; [|done|done].
  cbn [put_gsess set_gg_sessions set_gg_parsedpkt gg_parsedpkt set_gp_matched_session set_gp_pair gp_action].
  destruct (apply_gtp_fsm_logic _ _ _ _ _) as [[[gs2 act] sess']| |]; run_outcome; [|done|done].
  rewrite get_put_gsess. run_outcome. unfold result_of. cbn. by rewrite insert_insert_eq.
Qed.
Lemma both_first :
  rq.(sp_applied) = 0 →
  rq.(sp_type) = GTPV2_CREATE_SESSION_REQUEST ∨ rq.(sp_type) = GTPV1_CREATE_PDP_CONTEXT_REQUEST →
  gs.(gs_current) = SESSION_STATE_NEW → cstr_ok gs.(gs_sessid) → ss.(ss_heap) !! ss.(ss_next) = None →
  seen (gtp_both_halves now rq rs l ss h) =
  halves_of now a rs (after_request rq) gs ACCESS_ACTION_NONE l ss h.
Proof.
  intros Hrq Ht Hc Hk Hss. unfold gtp_both_halves. rewrite Hm, Hrq, Hrs.
  rewrite (find_matched_alt _ _ _ _ _ (set_gg_parsedpkt _ h) gs) by done. unfold seen, halves_of.
  cbn [set_gp_pair gp_teid]. destruct (caller_session _ _ _ _ _) as [[[[sp l'] ss'] new]| |] eqn:Ec; run_outcome; [|done|done].
  destruct (caller_session_again _ _ _ _ _ _ _ _ _ Hk Hss Ec) as [_ Hsp].
  rewrite get_put_gsess. run_outcome. change (0 =? 0) with true. cbv iota.
  erewrite apply_request; [|done|apply lookup_insert_eq|by destruct new|done]. run_outcome.
  erewrite apply_gtp_on by (apply lookup_insert_eq).
  destruct (get_session sp ss') as [sess| |]; run_outcome; [|done|done].
  cbn [put_gsess set_gg_sessions set_gg_parsedpkt gg_parsedpkt set_gp_action gp_action].
  destruct (apply_gtp_fsm_logic _ _ _ _ _) as [[[gs2 act] sess']| |]; run_outcome; [|done|done].
  rewrite get_put_gsess. run_outcome. unfold result_of. cbn. by rewrite !insert_insert_eq.
Qed.
End halves.

Section exchange.
Context (now : Z) (g : gtp_global_t) (q r : gtp_parsed_t) (Hex : create_exchange g q r).
Context (l : list Z) (ss : session_store) (Hss : ss.(ss_heap) !! ss.(ss_next) = None).

Lemma sessid_exists : ∃ sessid, GEN_SESSID q q.(gp_teid) = Ok sessid ∧ GEN_SESSID r q.(gp_teid) = Ok sessid ∧
  cstr_ok sessid ∧ g.(gg_session_map) !! sessid = None.
Proof.
  destruct (ce_server _ _ _ Hex) as (_ & Hb & Hl). destruct (ce_same _ _ _ Hex) as (_ & _ & Ef & Es).
  assert (∃ sessid, GEN_SESSID q q.(gp_teid) = Ok sessid) as [sessid E].
  { unfold GEN_SESSID. destruct (_ =? 4).
    - destruct (read_le_Ok 4 (gp_serverid q)) as [v ->]; [lia|]. run_outcome. eauto.
    - destruct (read_le_Ok 8 (gp_serverid q)) as [v ->]; [lia|]. run_outcome.
      destruct (read_le_Ok 8 (zdrop 8 (gp_serverid q))) as [w ->]; [rewrite zlen_zdrop; lia|]. run_outcome. eauto. }
  exists sessid. split; [done|]. split; [unfold GEN_SESSID in *; by rewrite Ef, Es|].
  split; [eapply GEN_SESSID_ok; [done| |done]; apply Hex|by eapply ce_unknown].
Qed.

Definition reqid_of (p : gtp_parsed_t) : Z := Z.lor (Z.shiftl p.(gp_teid) 32) p.(gp_seqno).
Lemma reqid_same : reqid_of r = reqid_of q.
Proof. destruct (ce_same _ _ _ Hex) as (E1 & E2 & _). unfold reqid_of. by rewrite E1, E2. Qed.

Lemma request_type : q.(gp_msgtype) = GTPV2_CREATE_SESSION_REQUEST ∨ q.(gp_msgtype) = GTPV1_CREATE_PDP_CONTEXT_REQUEST.
Proof. destruct (ce_types _ _ _ Hex) as [[? _]|[? _]]; auto. Qed.

(** The request comes while nothing is known of the session. *)
Lemma request_creates h sessid :
  GEN_SESSID q q.(gp_teid) = Ok sessid → h.(gg_session_map) !! sessid = None →
  ∃ ids, gtp_get_userid (set_gg_parsedpkt q h) = Ok (Some ids, gtp_create_session q sessid (set_gg_parsedpkt q h)).
Proof.
  intros E Hm. unfold gtp_get_userid. cbn [set_gg_parsedpkt gg_parsedpkt gg_session_map gg_alt_session_map].
  destruct (ce_server _ _ _ Hex) as (Hf & _). replace (negb _) with false by (by destruct Hf as [-> | ->]).
  destruct (ce_fresh _ _ _ Hex) as [[_ ->] _]. rewrite E. run_outcome.
  destruct (ce_user _ _ _ Hex) as [Hu _].
  assert (Hid : ∃ ids, gtp_uid (new_gtp_session q sessid) = Some ids).
  { unfold gtp_uid. cbn. destruct (Z.eqb_spec (zlen (gp_msisdn q)) 0) as [Z0|]; [by apply zlen_0 in Z0|eauto]. }
  destruct Hid as [ids Hid]. exists ids. by destruct request_type as [-> | ->]; cbn; rewrite Hm, Hid.
Qed.
(** The response comes first, and waits. *)
Lemma response_waits h sessid :
  GEN_SESSID r q.(gp_teid) = Ok sessid → h.(gg_session_map) !! sessid = None →
  h.(gg_saved_packets) !! reqid_of q = None →
  ∃ saved, save_packet r None = Ok saved ∧
    gtp_get_userid (set_gg_parsedpkt r h) =
      Ok (None, set_gg_parsedpkt (set_gp_ies [] r) (set_gg_saved (<[reqid_of q := saved]> h.(gg_saved_packets)) h)).
Proof.
  intros E Hm Hs. rewrite <- reqid_same in *. destruct (ce_packets _ _ _ Hex) as [_ [pkt Hp]].
  unfold save_packet, gtp_get_userid, gtp_save_unmatched. cbn [set_gg_parsedpkt gg_parsedpkt gg_session_map gg_alt_session_map].
  destruct (ce_server _ _ _ Hex) as (Hf & _). destruct (ce_same _ _ _ Hex) as (-> & _ & -> & _).
  replace (negb _) with false by (by destruct Hf as [-> | ->]). destruct (ce_fresh _ _ _ Hex) as [_ [_ ->]].
  rewrite E, Hp. cbn [deref]. run_outcome. eexists. split; [done|].
  unfold save_packet. rewrite Hp. cbn [deref]. run_outcome. unfold reqid_of in Hs |- *.
  destruct (ce_types _ _ _ Hex) as [[_ ->]|[_ ->]]; cbn;
    rewrite Hm; cbn; destruct (ce_same _ _ _ Hex) as (Et & _); rewrite Et in *; by rewrite Hs.
Qed.

(** *** The three ways to reach the state of the session *)

Definition saved_as (p : gtp_parsed_t) (pkt : radius_packet) (m : option Z) (applied : Z) : gtp_saved_pkt_t :=
  Mkgtp_saved_pkt_t (reqid_of p) p.(gp_version) p.(gp_msgtype) applied p.(gp_tvsec) p.(gp_response_cause)
    (openli_copy_ipcontent pkt) p.(gp_ies) m.
Lemma saved_as_matched x p pkt m i : saved_as (set_gp_matched_session x p) pkt m i = saved_as p pkt m i.
Proof. done. Qed.
Lemma save_packet_as p pkt m : p.(gp_origpkt) = Some pkt → save_packet p m = Ok (saved_as p pkt m 0).
Proof. intros H. unfold save_packet. by rewrite H. Qed.

Lemma fsm_as p pkt m i sp gs a sess :
  apply_gtp_fsm_logic (saved_as p pkt m i) sp gs a sess = apply_gtp_fsm_logic (saved_as p pkt None 0) sp gs a sess.
Proof. done. Qed.
Lemma after_request_as p pkt m i gs : after_request (saved_as p pkt m i) gs = after_request (saved_as p pkt None 0) gs.
Proof. done. Qed.

(** The session of the exchange after its request. *)
Definition requested (sessid : bytes) (pkt : radius_packet) (new : bool) : gtp_session_t :=
  after_request (saved_as q pkt None 0) (with_cin new now q.(gp_teid) (new_gtp_session q sessid)).
(** The tables when the request was applied. *)
Record request_done (sessid : bytes) (pkt : radius_packet) (new : bool) (h : gtp_global_t) : Prop := {
  rd_sessions : h.(gg_sessions) = <[g.(gg_next) := requested sessid pkt new]> g.(gg_sessions);
  rd_map : h.(gg_session_map) = <[sessid := g.(gg_next)]> g.(gg_session_map);
  rd_alt : h.(gg_alt_session_map) = g.(gg_alt_session_map);
}.

Lemma request_first sessid pkt :
  GEN_SESSID q q.(gp_teid) = Ok sessid → g.(gg_session_map) !! sessid = None → q.(gp_origpkt) = Some pkt →
  match caller_session now q.(gp_teid) sessid l ss with
  | Ok (sp, l', ss', new) => cstr_ok sessid →
      ∃ o h, gtp_handle now l ss (set_gg_parsedpkt q g) = Ok (o, l', ss', h) ∧ request_done sessid pkt new h ∧
             h.(gg_saved_packets) = <[reqid_of q := saved_as q pkt (Some g.(gg_next)) 1]> g.(gg_saved_packets)
  | Abort => gtp_handle now l ss (set_gg_parsedpkt q g) = Abort
  | Undef => gtp_handle now l ss (set_gg_parsedpkt q g) = Undef
  end.
Proof.
  intros E Hm Hp. destruct (request_creates g sessid E Hm) as [ids Hids]. unfold gtp_handle. rewrite Hids. run_outcome.
  unfold gtp_update_session_state. erewrite save_packet_as by exact Hp. run_outcome.
  cbn [set_gg_parsedpkt gtp_create_session gg_saved_packets gg_parsedpkt set_gp_matched_session gp_matched_session].
  change (sp_reqid (saved_as _ _ _ _)) with (reqid_of q). rewrite (ce_unsaved _ _ _ Hex : g.(gg_saved_packets) !! reqid_of q = None).
  unfold gtp_first_half. cbn [saved_as sp_type sp_matched_session gp_msgtype set_gp_matched_session].
  replace (_ || _) with true by (by destruct request_type as [-> | ->]).
  erewrite find_matched_alt by (cbn; apply lookup_insert_eq). cbn [gp_teid set_gg_saved set_gg_parsedpkt set_gp_ies gg_parsedpkt new_gtp_session gs_sessid].
  destruct (caller_session _ _ _ _ _) as [[[[sp l'] ss'] new]| |] eqn:Ec; run_outcome; [|done|done]. intros Hk.
  destruct (caller_session_again _ _ _ _ _ _ _ _ _ Hk Hss Ec) as [_ Hsp].
  rewrite get_put_gsess. run_outcome.
  erewrite apply_request; [|cbn; apply request_type|apply lookup_insert_eq|by destruct new|done]. run_outcome.
  rewrite get_put_gsess. run_outcome.
  do 2 eexists. split; [done|]. split; [split|].
  - cbn. by rewrite !insert_insert_eq.
  - done.
  - done.
  - cbn. by rewrite insert_insert_eq.
Qed.

(** The control TEID of a response of version 1 is noted for a session that was found. *)
Definition alt_noted : gmap bytes Z :=
  if r.(gp_msgtype) =? GTPV1_CREATE_PDP_CONTEXT_RESPONSE then
    match GEN_SESSID r r.(gp_teid_ctl) with
    | Ok alt => match g.(gg_alt_session_map) !! alt with
                | Some _ => g.(gg_alt_session_map)
                | None => <[alt := g.(gg_next)]> g.(gg_alt_session_map)
                end
    | _ => g.(gg_alt_session_map)
    end
  else g.(gg_alt_session_map).

Lemma control_sessid : ∃ alt, GEN_SESSID r r.(gp_teid_ctl) = Ok alt.
Proof.
  destruct (ce_server _ _ _ Hex) as (_ & Hb & Hl). destruct (ce_same _ _ _ Hex) as (_ & _ & _ & Es).
  rewrite <- Es in Hl. unfold GEN_SESSID. destruct (_ =? 4).
  - destruct (read_le_Ok 4 (gp_serverid r)) as [v ->]; [lia|]. run_outcome. eauto.
  - destruct (read_le_Ok 8 (gp_serverid r)) as [v ->]; [lia|]. run_outcome.
    destruct (read_le_Ok 8 (zdrop 8 (gp_serverid r))) as [w ->]; [rewrite zlen_zdrop; lia|]. run_outcome. eauto.
Qed.

Lemma response_finds h sessid pkt new :
  GEN_SESSID r q.(gp_teid) = Ok sessid → request_done sessid pkt new h →
  ∃ ids, gtp_get_userid (set_gg_parsedpkt r h) =
    Ok (Some ids, set_gg_alt alt_noted
          (set_gg_parsedpkt (set_gp_matched_session (Some g.(gg_next)) r) h)).
Proof.
  intros E [Es Em Ea]. unfold gtp_get_userid. cbn [set_gg_parsedpkt gg_parsedpkt gg_session_map gg_alt_session_map].
  destruct (ce_server _ _ _ Hex) as (Hf & _). destruct (ce_same _ _ _ Hex) as (Et & _ & Efam & _). rewrite Efam, Et.
  replace (negb _) with false by (by destruct Hf as [-> | ->]). destruct (ce_fresh _ _ _ Hex) as [_ [_ ->]]. rewrite E.
  run_outcome. replace (gp_msgtype r =? GTPV1_DELETE_PDP_CONTEXT_REQUEST) with false
    by (by destruct (ce_types _ _ _ Hex) as [[_ ->]|[_ ->]]).
  rewrite Em, lookup_insert_eq. unfold gtp_found_session, get_gsess. cbn [set_gg_parsedpkt gg_sessions].
  rewrite Es, lookup_insert_eq. cbn [deref]. run_outcome.
  destruct (ce_user _ _ _ Hex) as [Hu Hr].
  change (gp_msisdn (set_gp_matched_session _ r)) with (gp_msisdn r). rewrite Hr, bool_decide_true, andb_false_r by done.
  assert (Hid : ∃ ids, gtp_uid (requested sessid pkt new) = Some ids).
  { unfold gtp_uid. destruct new; cbn; (destruct (Z.eqb_spec (zlen (gp_msisdn q)) 0) as [Z0|]; [by apply zlen_0 in Z0|eauto]). }
  destruct Hid as [ids Hid]. exists ids.
  replace (gp_msgtype (set_gp_matched_session _ r) =? GTPV1_DELETE_PDP_CONTEXT_REQUEST) with false
    by (by destruct (ce_types _ _ _ Hex) as [[_ X]|[_ X]]; cbn; rewrite X).
  unfold alt_noted. rewrite <- Ea. cbn [set_gp_matched_session gp_msgtype gp_teid_ctl gg_alt_session_map put_gsess set_gg_parsedpkt set_gg_sessions].
  assert (Hput : <[gg_next g := requested sessid pkt new]> (gg_sessions h) = gg_sessions h)
    by (rewrite Es; apply insert_insert_eq).
  unfold put_gsess. cbn [set_gg_parsedpkt gg_sessions]. rewrite Hput. 
  destruct (gp_msgtype r =? GTPV1_CREATE_PDP_CONTEXT_RESPONSE); run_outcome.
  - destruct control_sessid as [alt Ealt]. change (GEN_SESSID (set_gp_matched_session ?x r)) with (GEN_SESSID r).
    rewrite Ealt. run_outcome. rewrite Hid. cbn [gg_alt_session_map]. destruct (_ !! alt); by destruct h.
  - rewrite Hid. by destruct h.
Qed.

(** The rest: the response is applied to the session. *)
Definition respond (sessid : bytes) (pktq pktr : radius_packet) (new : bool) (sp : Z) (l : list Z)
    (ss : session_store) : outcome create_result :=
  sess ← get_session sp ss;
  '(gs, action, sess) ← apply_gtp_fsm_logic (saved_as r pktr None 0) sp (requested sessid pktq new) ACCESS_ACTION_NONE sess;
  Ok (Some (sp, gs.(gs_current), action), l, put_session sp sess ss,
      (<[g.(gg_next) := gs]> g.(gg_sessions), <[sessid := g.(gg_next)]> g.(gg_session_map), g.(gg_saved_packets))).

Lemma pair_of_exchange p1 p2 m1 m2 i j :
  let x := saved_as q p1 m1 i in let y := saved_as r p2 m2 j in
  gtp_pair x y = Some (x, y) ∧ gtp_pair y x = Some (x, y).
Proof.
  cbv zeta. unfold gtp_pair. cbn [saved_as sp_type].
  by destruct (ce_types _ _ _ Hex) as [[-> ->]|[-> ->]].
Qed.

Lemma response_second sessid pktq pktr new sp l' ss' h :
  GEN_SESSID r q.(gp_teid) = Ok sessid → r.(gp_origpkt) = Some pktr → cstr_ok sessid →
  caller_session now q.(gp_teid) sessid l ss = Ok (sp, l', ss', new) →
  request_done sessid pktq new h →
  h.(gg_saved_packets) = <[reqid_of q := saved_as q pktq (Some g.(gg_next)) 1]> g.(gg_saved_packets) →
  seen (gtp_handle now l' ss' (set_gg_parsedpkt r h)) =
  (x ← respond sessid pktq pktr new sp l' ss'; Ok (x, alt_noted)).
Proof.
  intros E Hp Hk Hc Hd Hs. destruct (response_finds h sessid pktq new E Hd) as [ids Hids].
  unfold gtp_handle. rewrite Hids. run_outcome. unfold gtp_update_session_state.
  cbn [set_gg_alt set_gg_parsedpkt gg_parsedpkt].
  erewrite save_packet_as by exact Hp. run_outcome. destruct Hd as [Es Em Ea]. rewrite saved_as_matched.
  destruct (caller_session_again _ _ _ _ _ _ _ _ _ Hk Hss Hc) as [Hagain _].
  pose proof (ce_unsaved _ _ _ Hex : g.(gg_saved_packets) !! reqid_of q = None) as Hun.
  change (sp_reqid (saved_as _ pktr _ _)) with (reqid_of r). rewrite reqid_same.
  cbn [set_gg_parsedpkt set_gg_alt gg_saved_packets gg_parsedpkt set_gp_matched_session gp_matched_session].
  rewrite Hs, lookup_insert_eq. 
  destruct (pair_of_exchange pktq pktr (Some g.(gg_next)) (Some g.(gg_next)) 1 0) as [_ Hpair]. cbv zeta in Hpair. rewrite Hpair.
  rewrite (both_second _ g.(gg_next) _ _ (requested sessid pktq new)) by (cbn; try rewrite Es; (done || apply lookup_insert_eq)).
  unfold halves_of, respond. destruct (ce_same _ _ _ Hex) as (Et & _). destruct (ce_fresh _ _ _ Hex) as [_ [Har _]].
  cbn [set_gg_saved set_gg_parsedpkt set_gp_ies gg_parsedpkt gp_teid gp_action set_gp_matched_session].
  rewrite Et, Har. change (gs_sessid (requested sessid pktq new)) with (gs_sessid (with_cin new now (gp_teid q) (new_gtp_session q sessid))).
  replace (gs_sessid _) with sessid by (by destruct new). rewrite Hagain. run_outcome. cbn [with_cin].
  destruct (get_session sp ss') as [sess| |]; run_outcome; [|done|done]. rewrite fsm_as.
  destruct (apply_gtp_fsm_logic _ _ _ _ _) as [[[gs act] sess']| |]; run_outcome; [|done|done].
  cbn. by rewrite Es, Em, !insert_insert_eq, delete_insert_id.
Qed.

Lemma request_second sessid pktq pktr h :
  GEN_SESSID q q.(gp_teid) = Ok sessid → q.(gp_origpkt) = Some pktq → cstr_ok sessid →
  g.(gg_session_map) !! sessid = None →
  same_tables g h → h.(gg_saved_packets) = <[reqid_of q := saved_as r pktr None 0]> g.(gg_saved_packets) →
  seen (gtp_handle now l ss (set_gg_parsedpkt q h)) =
  ('(sp, l', ss', new) ← caller_session now q.(gp_teid) sessid l ss;
   x ← respond sessid pktq pktr new sp l' ss'; Ok (x, g.(gg_alt_session_map))).
Proof.
  intros E Hp Hk Hm (Es & Em & Ea & En) Hs. rewrite <- Em in Hm.
  destruct (request_creates h sessid E Hm) as [ids Hids].
  pose proof (ce_unsaved _ _ _ Hex : g.(gg_saved_packets) !! reqid_of q = None) as Hun.
  unfold gtp_handle. rewrite Hids. run_outcome. unfold gtp_update_session_state.
  cbn [gtp_create_session set_gg_parsedpkt gg_parsedpkt]. erewrite save_packet_as by exact Hp. run_outcome.
  rewrite saved_as_matched. change (sp_reqid (saved_as q _ _ _)) with (reqid_of q).
  cbn [gtp_create_session set_gg_parsedpkt gg_saved_packets set_gp_matched_session gp_matched_session gg_next gg_sessions gg_session_map gg_alt_session_map].
  rewrite Hs, lookup_insert_eq.
  destruct (pair_of_exchange pktq pktr (Some h.(gg_next)) None 0 0) as [Hpair _]. cbv zeta in Hpair. rewrite Hpair.
  rewrite (both_first _ h.(gg_next) _ _ (new_gtp_session q sessid))
    by first [done|apply lookup_insert_eq|apply request_type].
  unfold halves_of, respond.
  cbn [set_gg_saved set_gg_parsedpkt set_gp_ies gg_parsedpkt gp_teid new_gtp_session gs_sessid set_gp_matched_session].
  destruct (caller_session now (gp_teid q) sessid l ss) as [[[[sp l'] ss'] new]| |]; run_outcome; [|done|done].
  destruct (get_session sp ss') as [sess| |]; run_outcome; [|done|done].
  rewrite after_request_as. fold (requested sessid pktq new).
  destruct (apply_gtp_fsm_logic _ _ _ _ _) as [[[gs act] sess']| |]; run_outcome; [|done|done].
  cbn [sp_reqid saved_as]. cbn. rewrite Es, Em, Ea, En, !insert_insert_eq. by rewrite reqid_same, delete_insert_id.
Qed.
End exchange.

(** C20: The request that creates a session and its response may be seen in either order:
    the reports end in the same state and action, and the sessions of the caller and of the
    plugin and the waiting messages are the same.  Only the table that finds the delete
    request of a version 1 session by its control TEID is left without an entry when the
    response is seen first. *)
Theorem create_order_independent now g q r l ss :
  create_exchange g q r → ss.(ss_heap) !! ss.(ss_next) = None →
  match two_messages now q r l ss g, two_messages now r q l ss g with
  | Ok (x, alt), Ok (x', alt') => x = x' ∧ alt = alt_noted g r ∧ alt' = g.(gg_alt_session_map)
  | Abort, Abort | Undef, Undef => True
  | _, _ => False
  end.
Proof.
  intros Hex Hss. destruct (sessid_exists g q r Hex) as (sessid & Eq & Er & Hk & Hm).
  destruct (ce_packets _ _ _ Hex) as [[pktq Hpq] [pktr Hpr]].
  assert (E2 : two_messages now r q l ss g =
    ('(sp, l', ss', new) ← caller_session now q.(gp_teid) sessid l ss;
     x ← respond now g q r sessid pktq pktr new sp l' ss'; Ok (x, g.(gg_alt_session_map)))).
  { destruct (response_waits g q r Hex g sessid Er Hm (ce_unsaved _ _ _ Hex)) as (saved & Hsv & Hw).
    erewrite save_packet_as in Hsv by exact Hpr. injection Hsv as <-.
    assert (Hfirst : gtp_handle now l ss (set_gg_parsedpkt r g) = Ok (None, l, ss,
      set_gg_parsedpkt (set_gp_ies [] r) (set_gg_saved (<[reqid_of q := saved_as r pktr None 0]> g.(gg_saved_packets)) g)))
      by (unfold gtp_handle; by rewrite Hw).
    unfold two_messages. rewrite Hfirst. run_outcome.
    by apply (request_second now g q r Hex l ss Hss sessid pktq pktr). }
  assert (E1 : two_messages now q r l ss g =
    ('(sp, l', ss', new) ← caller_session now q.(gp_teid) sessid l ss;
     x ← respond now g q r sessid pktq pktr new sp l' ss'; Ok (x, alt_noted g r))).
  { pose proof (request_first now g q r Hex l ss Hss sessid pktq Eq Hm Hpq) as H1. unfold two_messages.
    destruct (caller_session _ _ _ _ _) as [[[[sp l'] ss'] new]| |] eqn:Hc; [|by rewrite H1|by rewrite H1].
    destruct (H1 Hk) as (o & h & -> & Hd & Hs). run_outcome.
    by apply (response_second now g q r Hex l ss Hss sessid pktq pktr new sp). }
  rewrite E1, E2. destruct (caller_session _ _ _ _ _) as [[[[sp l'] ss'] new]| |]; run_outcome; [|done|done].
  by destruct (respond _ _ _ _ _ _ _ _ _ _ _).
Qed.

(** *** An exchange of version 1 *)

Definition parsed (pkt : radius_packet) : gtp_parsed_t :=
  match gtp_parse_packet pkt gtp_init_plugin_data with
  | Ok (_, g) => g.(gg_parsedpkt) | _ => reset_parsed_pkt
  end.
Definition create_request_v1 : radius_packet :=
  gtp_message 1 GTPV1_CREATE_PDP_CONTEXT_REQUEST 0 0x100
    [Mkwire_ie GTPV1_IE_IMSI 0 (tbcd [5; 3; 0; 0; 1; 1; 2; 3; 4; 5; 6; 7; 8; 9; 0]);
     Mkwire_ie GTPV1_IE_TEID_CTRL 0 (be_bytes 4 77);
     Mkwire_ie GTPV1_IE_MSISDN 0 (0x91 :: tbcd [6; 4; 2; 1; 5; 5; 5])].
Definition create_response_v1 : radius_packet :=
  gtp_message 1 GTPV1_CREATE_PDP_CONTEXT_RESPONSE 77 0x100
    [Mkwire_ie GTPV1_IE_CAUSE 0 [128]; Mkwire_ie GTPV1_IE_TEID_CTRL 0 (be_bytes 4 99);
     Mkwire_ie GTPV1_IE_END_USER_ADDRESS 0 [0xf1; 0x21; 192; 168; 1; 7]].
Definition request_v1 : gtp_parsed_t := Eval vm_compute in parsed create_request_v1.
Definition response_v1 : gtp_parsed_t := Eval vm_compute in parsed create_response_v1.

Lemma exchange_v1 : create_exchange gtp_init_plugin_data request_v1 response_v1.
Proof.
  split; try done.
  - by right.
  - split_and!; [by left| |done]. unfold all_bytes, request_v1. cbn. repeat constructor; lia.
Qed.
Definition order_v1 (p1 p2 : gtp_parsed_t) : outcome (create_result * gmap bytes Z) :=
  two_messages 6000000 p1 p2 [] (Mksession_store ∅ 0) gtp_init_plugin_data.
(** The report, and what the delete request with the control TEID 99 would find. *)
Definition order_summary (m : outcome (create_result * gmap bytes Z)) :=
  match m with Ok (x, alt) => Some (x.1.1.1, alt !! of_string "150994954-99") | _ => None end.
Lemma create_order_independent_witness :
  order_summary (order_v1 request_v1 response_v1) =
    Some (Some (0, SESSION_STATE_ACTIVE, ACCESS_ACTION_ACCEPT), Some 0) ∧
  order_summary (order_v1 response_v1 request_v1) =
    Some (Some (0, SESSION_STATE_ACTIVE, ACCESS_ACTION_ACCEPT), None) ∧
  match order_v1 request_v1 response_v1, order_v1 response_v1 request_v1 with
  | Ok (x, alt), Ok (x', alt') =>
      x = x' ∧ alt = alt_noted gtp_init_plugin_data response_v1 ∧ alt' = gtp_init_plugin_data.(gg_alt_session_map)
  | Abort, Abort | Undef, Undef => True
  | _, _ => False
  end.
Proof.
  split; [vm_compute; reflexivity|]. split; [vm_compute; reflexivity|].
  exact (create_order_independent 6000000 _ _ _ [] (Mksession_store ∅ 0) exchange_v1 eq_refl).
Defined.
