(* ===== verification/HashTable.v ===== *)
(** * Hash tables

    The tables of uthash ([HASH_ADD_KEYPTR], [HASH_FIND], [HASH_DELETE], [HASH_ITER]) as
    the source uses them: entries in the order in which they were added, which is the
    order of [HASH_ITER].  A table whose keys are distinct is a finite map
    ([table_map]), and its operations are those of the map. *)

From stdpp Require Import gmap.
From S2P Require Import Prelude.

Lemma Forall_filter {A} (P Q : A → Prop) `{∀ x, Decision (Q x)} l :
  Forall P l → Forall P (filter Q l).
Proof.
  rewrite !Forall_forall. intros Hl x [_ Hx]%list_elem_of_filter. by apply Hl.
Qed.

(** Two tests that agree on the elements of a list. *)
Lemma filter_agree {A} (P Q : A → Prop) `{∀ x, Decision (P x), ∀ x, Decision (Q x)} (l : list A) :
  (∀ x, x ∈ l → P x ↔ Q x) → filter P l = filter Q l.
Proof.
  induction l as [|x l IH]; intros Hl; [done|].
  assert (Hx : P x ↔ Q x) by apply Hl, list_elem_of_here.
  rewrite !filter_cons, IH by (intros; by apply Hl, list_elem_of_further).
  destruct (decide (P x)), (decide (Q x)); tauto.
Qed.

Section table.
Context {K V : Type} `{Countable K}.
Implicit Types (t : list (K * V)) (k : K) (v : V).

Fixpoint hash_find k t : option V :=
  match t with
  | [] => None
  | (k', v) :: t => if decide (k = k') then Some v else hash_find k t
  end.
Definition hash_add k v t : list (K * V) := t ++ [(k, v)].
Definition hash_delete k t : list (K * V) := filter (λ e, e.1 ≠ k) t.
(** A write through the pointer that [HASH_FIND] gave. *)
Definition hash_update k v t : list (K * V) :=
  map (λ e, if decide (e.1 = k) then (k, v) else e) t.

Definition table_ok t : Prop := NoDup t.*1.
Definition table_map t : gmap K V := list_to_map t.

Lemma hash_find_map k t : hash_find k t = table_map t !! k.
Proof.
  unfold table_map. induction t as [|[k' v] t IH]; [done|]. simpl. destruct (decide (k = k')) as [<-|].
  - by rewrite lookup_insert_eq.
  - by rewrite lookup_insert_ne.
Qed.
Lemma hash_find_None k t : hash_find k t = None ↔ k ∉ t.*1.
Proof. rewrite hash_find_map. symmetry. apply not_elem_of_list_to_map. Qed.
Lemma hash_find_In k v t : hash_find k t = Some v → (k, v) ∈ t.
Proof. rewrite hash_find_map. apply elem_of_list_to_map_2. Qed.
Lemma In_hash_find k v t : table_ok t → (k, v) ∈ t → hash_find k t = Some v.
Proof. intros. rewrite hash_find_map. by apply elem_of_list_to_map_1. Qed.

Lemma table_ok_nil : table_ok [].
Proof. constructor. Qed.
Lemma hash_add_ok k v t : table_ok t → hash_find k t = None → table_ok (hash_add k v t).
Proof.
  unfold table_ok, hash_add. intros Ht Hk%hash_find_None. rewrite fmap_app. simpl.
  apply NoDup_app. split; [done|]. split; [|apply NoDup_singleton].
  intros x Hx ->%list_elem_of_singleton. done.
Qed.
Lemma hash_add_map k v t :
  hash_find k t = None → table_map (hash_add k v t) = <[k := v]> (table_map t).
Proof.
  intros Hk%hash_find_None. unfold table_map, hash_add. rewrite list_to_map_app. simpl.
  rewrite insert_empty. apply map_eq. intros i. destruct (decide (i = k)) as [->|Hi].
  - rewrite lookup_insert_eq. apply lookup_union_Some_raw. right. split.
    + by apply not_elem_of_list_to_map.
    + by rewrite lookup_singleton_eq.
  - rewrite lookup_insert_ne by done. rewrite lookup_union_l; [done|]. by rewrite lookup_singleton_ne.
Qed.

Lemma hash_delete_keys k t : (hash_delete k t).*1 = filter (λ x, x ≠ k) t.*1.
Proof.
  unfold hash_delete. induction t as [|[k' v] t IH]; [done|]. cbn [fmap list_fmap fst].
  rewrite !filter_cons. cbn [fst].
  destruct (decide (k' ≠ k)); cbn [fmap list_fmap fst]; [by f_equal|exact IH].
Qed.
Lemma hash_delete_ok k t : table_ok t → table_ok (hash_delete k t).
Proof. unfold table_ok. rewrite hash_delete_keys. apply NoDup_filter. Qed.
Lemma hash_delete_map k t : table_map (hash_delete k t) = delete k (table_map t).
Proof.
  unfold table_map, hash_delete. induction t as [|[k' v] t IH]; [done|]. rewrite filter_cons.
  cbn [list_to_map fst]. destruct (decide (k' ≠ k)) as [Hk|Hk]; simpl.
  - by rewrite IH, delete_insert_ne by done.
  - assert (k' = k) as -> by (by destruct (decide (k' = k))). by rewrite IH, delete_insert_eq.
Qed.
Lemma hash_delete_absent k t : hash_find k t = None → hash_delete k t = t.
Proof.
  unfold hash_delete. induction t as [|[k' v] t IH]; [done|]. simpl.
  destruct (decide (k = k')); [done|]. intros Hk. rewrite filter_cons_True by (simpl; congruence).
  f_equal. by apply IH.
Qed.
Lemma hash_delete_add k v t :
  hash_find k t = None → hash_delete k (hash_add k v t) = t.
Proof.
  intros Hk. unfold hash_delete, hash_add. rewrite filter_app, filter_cons_False by (simpl; tauto).
  rewrite filter_nil, app_nil_r. exact (hash_delete_absent k t Hk).
Qed.

Lemma hash_update_keys k v t : (hash_update k v t).*1 = t.*1.
Proof.
  unfold hash_update. induction t as [|[k' v'] t IH]; [done|]. cbn [map fmap list_fmap fst].
  f_equal; [by destruct (decide (k' = k)) as [->|]|exact IH].
Qed.
Lemma hash_update_ok k v t : table_ok t → table_ok (hash_update k v t).
Proof. unfold table_ok. by rewrite hash_update_keys. Qed.
Lemma hash_find_update k k' v v' t :
  hash_find k t = Some v' →
  hash_find k' (hash_update k v t) = if decide (k' = k) then Some v else hash_find k' t.
Proof.
  intros Hk.
  assert (hash_find k' (hash_update k v t) =
          if decide (k' = k) then (λ _, v) <$> hash_find k t else hash_find k' t) as ->.
  { clear Hk. induction t as [|[k0 w] t IH]; [by destruct (decide _)|].
    unfold hash_update. cbn [map fst hash_find]. fold (hash_update k v t).
    destruct (decide (k0 = k)) as [->|Hne]; cbn [hash_find]; rewrite IH.
    - by destruct (decide (k' = k)), (decide (k = k)).
    - rewrite (decide_False (P := k = k0)) by congruence.
      destruct (decide (k' = k0)) as [->|]; [by rewrite decide_False|done]. }
  by rewrite Hk.
Qed.
Lemma hash_update_map k v v' t :
  hash_find k t = Some v' → table_map (hash_update k v t) = <[k := v]> (table_map t).
Proof.
  intros Hk. apply map_eq. intros i. rewrite <- hash_find_map, (hash_find_update _ _ _ v') by done.
  destruct (decide (i = k)) as [->|]; [by rewrite lookup_insert_eq|].
  by rewrite lookup_insert_ne, hash_find_map.
Qed.
Lemma hash_find_add k k' v t :
  hash_find k t = None →
  hash_find k' (hash_add k v t) = if decide (k' = k) then Some v else hash_find k' t.
Proof.
  intros Hk. rewrite !hash_find_map, hash_add_map by done.
  destruct (decide (k' = k)) as [->|]; [by rewrite lookup_insert_eq|by rewrite lookup_insert_ne].
Qed.
Lemma hash_find_delete k k' t :
  hash_find k' (hash_delete k t) = if decide (k' = k) then None else hash_find k' t.
Proof.
  rewrite !hash_find_map, hash_delete_map.
  destruct (decide (k' = k)) as [->|]; [by rewrite lookup_delete_eq|by rewrite lookup_delete_ne].
Qed.
End table.

#[export] Hint Resolve table_ok_nil hash_add_ok hash_delete_ok hash_update_ok : core.
