(* ===== verification/IpSession.v ===== *)
(** * What the packet processing threads are told
      (src/src/intercept.c, src/src/intercept.h, src/src/collector/collector.h)

    The synchronisation threads send every packet processing thread copies of the
    intercepts that concern it: an address of a session ([ipsession_t]), a static range
    ([staticipsession_t]), an id used by a vendor's mirror ([vendmirror_intercept_t]), a
    media stream ([rtpstreaminf_t]) or a server.  The copies belong to the thread. *)

From S2P Require Import Prelude Intercept Publish AccessSession.

Definition OPENLI_INTERCEPT_OUTPUTS_IRIONLY : Z := 1.
Definition OPENLI_INTERCEPT_OUTPUTS_CCONLY : Z := 2.
Definition INTERNET_ACCESS_TYPE_MOBILE : Z := 32.

(** A string that is copied if there is one. *)
Definition dup_opt (s : cstring) : cstring := until_nul <$> s.

(** [copy_intercept_common].  [seqtrackerid] is not copied: the field of the copy is
    not set and the threads do not use it. *)
Definition copy_intercept_common (src : intercept_common_t) : outcome intercept_common_t :=
  liid ← c_str src.(ic_liid);
  authcc ← c_str src.(ic_authcc);
  delivcc ← c_str src.(ic_delivcc);
  Ok {| ic_liid := Some liid; ic_authcc := Some authcc; ic_delivcc := Some delivcc;
        ic_liid_len := src.(ic_liid_len); ic_authcc_len := src.(ic_authcc_len);
        ic_delivcc_len := src.(ic_delivcc_len); ic_destid := src.(ic_destid);
        ic_targetagency := dup_opt src.(ic_targetagency); ic_seqtrackerid := 0;
        ic_hi1_seqno := src.(ic_hi1_seqno); ic_tostart_time := src.(ic_tostart_time);
        ic_toend_time := src.(ic_toend_time); ic_tomediate := src.(ic_tomediate);
        ic_encrypt := src.(ic_encrypt); ic_encryptkey := dup_opt src.(ic_encryptkey) |}.

(** The key [liid, liid_len]. *)
Definition liid_key (common : intercept_common_t) : outcome bytes :=
  liid ← c_str common.(ic_liid); read_bytes common.(ic_liid_len) (liid ++ [0]).

(** [ipsession_t]; of [targetip] the bytes of the address. *)
Record ipsession_t : Type := Mkipsession_t {
  ps_streamkey : bytes;
  ps_cin : Z;
  ps_ai_family : Z;
  ps_targetip : option bytes;
  ps_prefixlen : Z;
  ps_nextseqno : Z;
  ps_accesstype : Z;
  ps_common : intercept_common_t;
}.

(** ["%s-%u"] in a buffer. *)
Definition stream_name (size : Z) (liid : bytes) (cin : Z) : bytes :=
  snprintf size (liid ++ 45 :: print_u cin).

(** [create_ipsession] *)
Definition create_ipsession (ipint : ipintercept_t) (cin : Z) (ip : internetaccess_ip_t)
    : outcome ipsession_t :=
  common ← copy_intercept_common ipint.(ip_common);
  liid ← c_str ipint.(ip_common).(ic_liid);
  Ok {| ps_streamkey := stream_name 256 liid cin; ps_cin := cin; ps_ai_family := ip.(ip_family);
        ps_targetip := Some ip.(ip_addr); ps_prefixlen := ip.(ip_prefixbits); ps_nextseqno := 0;
        ps_accesstype := ipint.(ip_accesstype); ps_common := common |}.

(** [staticipsession_t] *)
Record staticipsession_t : Type := Mkstaticipsession_t {
  si_key : bytes;
  si_rangestr : bytes;
  si_common : intercept_common_t;
  si_cin : Z;
  si_nextseqno : Z;
  si_references : Z;
}.
Definition set_si_references (n : Z) (s : staticipsession_t) : staticipsession_t :=
  Mkstaticipsession_t s.(si_key) s.(si_rangestr) s.(si_common) s.(si_cin) s.(si_nextseqno) n.
Definition set_si_common (c : intercept_common_t) (s : staticipsession_t) : staticipsession_t :=
  Mkstaticipsession_t s.(si_key) s.(si_rangestr) c s.(si_cin) s.(si_nextseqno) s.(si_references).

(** [create_staticipsession]: without a range the pointer is set to NULL and then
    used. *)
Definition create_staticipsession (ipint : ipintercept_t) (rangestr : cstring) (cin : Z)
    : outcome staticipsession_t :=
  range ← c_str rangestr;
  common ← copy_intercept_common ipint.(ip_common);
  liid ← c_str ipint.(ip_common).(ic_liid);
  Ok {| si_key := stream_name 127 liid cin; si_rangestr := range; si_common := common;
        si_cin := cin; si_nextseqno := 0; si_references := 0 |}.

(** [vendmirror_intercept_t]; [vm_addr] is the address of the structure. *)
Record vendmirror_intercept_t : Type := Mkvendmirror_intercept_t {
  vm_addr : Z;
  vm_sessionid : Z;
  vm_common : intercept_common_t;
}.

(** [create_vendmirror_intercept] *)
Definition create_vendmirror_intercept (addr : Z) (ipint : ipintercept_t)
    : outcome vendmirror_intercept_t :=
  common ← copy_intercept_common ipint.(ip_common);
  Ok (Mkvendmirror_intercept_t addr ipint.(ip_vendmirrorid) common).

(** [struct sipmediastream], without the name of its type. *)
Record sipmediastream : Type := Mksipmediastream {
  sm_targetport : Z;
  sm_otherport : Z;
}.

(** Of [rtpstreaminf_t] what the packet processing threads read. *)
Record rtpstreaminf_t : Type := Mkrtpstreaminf_t {
  rt_streamkey : cstring;
  rt_cin : Z;
  rt_ai_family : Z;
  rt_targetaddr : option bytes;
  rt_otheraddr : option bytes;
  rt_mediastreams : list sipmediastream;
  rt_active : Z;
  rt_skip_comfort : Z;
  rt_common : intercept_common_t;
}.
Definition set_rt_common (c : intercept_common_t) (r : rtpstreaminf_t) : rtpstreaminf_t :=
  Mkrtpstreaminf_t r.(rt_streamkey) r.(rt_cin) r.(rt_ai_family) r.(rt_targetaddr)
    r.(rt_otheraddr) r.(rt_mediastreams) r.(rt_active) r.(rt_skip_comfort) c.

(** [openli_pushed_t], by its type. *)
Inductive openli_pushed_t : Type :=
  | OPENLI_PUSH_IPINTERCEPT (ipsess : ipsession_t)
  | OPENLI_PUSH_HALT_IPINTERCEPT (ipsess : ipsession_t)
  | OPENLI_PUSH_IPMMINTERCEPT (ipmmint : rtpstreaminf_t)
  | OPENLI_PUSH_HALT_IPMMINTERCEPT (rtpstreamkey : bytes)
  | OPENLI_PUSH_CORESERVER (coreserver : coreserver_t)
  | OPENLI_PUSH_REMOVE_CORESERVER (coreserver : coreserver_t)
  | OPENLI_PUSH_VENDMIRROR_INTERCEPT (mirror : vendmirror_intercept_t)
  | OPENLI_PUSH_HALT_VENDMIRROR_INTERCEPT (mirror : vendmirror_intercept_t)
  | OPENLI_PUSH_IPRANGE (iprange : staticipsession_t)
  | OPENLI_PUSH_REMOVE_IPRANGE (iprange : staticipsession_t)
  | OPENLI_PUSH_MODIFY_IPRANGE (iprange : staticipsession_t)
  | OPENLI_PUSH_UPDATE_VOIPINTERCEPT (ipmmint : rtpstreaminf_t)
  | OPENLI_PUSH_UPDATE_IPINTERCEPT (ipsess : ipsession_t)
  | OPENLI_PUSH_UPDATE_VENDMIRROR_INTERCEPT (mirror : vendmirror_intercept_t)
  | OPENLI_PUSH_UPDATE_IPRANGE_INTERCEPT (iprange : staticipsession_t).

(** ** Names of streams *)

Lemma stream_name_whole size liid cin :
  zlen liid + 12 ≤ size → stream_name size liid cin = liid ++ 45 :: print_u cin.
Proof.
  intros H. unfold stream_name, snprintf, ztake. apply take_ge. rewrite length_app. simpl.
  pose proof (decimal_digits_length 10 cin). unfold zlen, print_u in *. lia.
Qed.

(** Names of streams are distinct while LIIDs fit the buffer. *)
Lemma stream_name_inj size liid1 liid2 cin1 cin2 :
  zlen liid1 + 12 ≤ size → zlen liid2 + 12 ≤ size →
  0 ≤ cin1 < 2 ^ 32 → 0 ≤ cin2 < 2 ^ 32 →
  stream_name size liid1 cin1 = stream_name size liid2 cin2 → liid1 = liid2 ∧ cin1 = cin2.
Proof.
  intros H1 H2 Hc1 Hc2. rewrite !stream_name_whole by done.
  intros [E1 E2]%last_dash_inj; [|apply decimal_digits_range; lia..].
  split; [done|]. by apply print_u_inj.
Qed.
