(* ===== verification/TimedIntercept.v ===== *)
(** * Upcoming starts and ends of intercepts (src/src/collector/timed_intercept.c)

    Intercepts may have a start and an end time.  The synchronisation threads keep a
    table of the times that lie ahead, a JudyL array of hash tables, and ask every second
    which intercepts have started or ended.  The entries hold pointers to intercepts;
    that no entry outlives its intercept is the invariant [events_sound].

    [gettimeofday] is the argument [now]; an intercept is known by its address. *)

From stdpp Require Import gmap.
From S2P Require Import Prelude Intercept Publish IpSession HashTable.

Inductive event_type : Type :=
  | OPENLI_UPCOMING_INTERCEPT_EVENT_START
  | OPENLI_UPCOMING_INTERCEPT_EVENT_END.
#[global] Instance event_type_eq_dec : EqDecision event_type.
Proof. solve_decision. Defined.

(** [struct upcoming_intercept_event], entered under its LIID. *)
Record upcoming_intercept_event : Type := Mkupcoming_intercept_event {
  ue_event_type : event_type;
  ue_intercept : Z;
}.

(** [upcoming_intercept_time_t] by timestamp. *)
Abbreviation time_table := (list (bytes * upcoming_intercept_event)).
Abbreviation time_events := (gmap Z time_table).

(** [remove_time_event] *)
Definition remove_time_event (common : intercept_common_t) (evtime : Z) (evtype : event_type)
    (timeevents : time_events) : outcome time_events :=
  match timeevents !! evtime with
  | None => Ok timeevents
  | Some events =>
      k ← liid_key common;
      match hash_find k events with
      | None => Ok timeevents
      | Some found =>
          if decide (found.(ue_event_type) ≠ evtype) then Ok timeevents
          else
            let events := hash_delete k events in
            Ok (if decide (length events = 0%nat) then delete evtime timeevents
                else <[evtime := events]> timeevents)
      end
  end.

(** [add_time_event]: an event of the same LIID at this time is replaced. *)
Definition add_time_event (intercept : Z) (common : intercept_common_t) (evtype : event_type)
    (evtime : Z) (timeevents : time_events) : outcome time_events :=
  k ← liid_key common;
  let events := default [] (timeevents !! evtime) in
  Ok (<[evtime := hash_add k (Mkupcoming_intercept_event evtype intercept)
                    (hash_delete k events)]> timeevents).

(** The end of an intercept that starts at the same time is put off by a second. *)
Definition bump_end (common : intercept_common_t) : intercept_common_t :=
  if common.(ic_toend_time) =? common.(ic_tostart_time)
  then set_ic_toend_time (u64 (common.(ic_toend_time) + 1)) common else common.

(** [add_new_intercept_time_event]; [common] may be changed. *)
Definition add_new_intercept_time_event (now intercept : Z) (common : intercept_common_t)
    (timeevents : time_events) : outcome (intercept_common_t * time_events) :=
  ev ← (if now <=? common.(ic_tostart_time)
        then add_time_event intercept common OPENLI_UPCOMING_INTERCEPT_EVENT_START
               common.(ic_tostart_time) timeevents
        else Ok timeevents);
  if now <=? common.(ic_toend_time) then
    let common := bump_end common in
    ev ← add_time_event intercept common OPENLI_UPCOMING_INTERCEPT_EVENT_END
           common.(ic_toend_time) ev;
    Ok (common, ev)
  else Ok (common, ev).

(** [remove_intercept_time_event] *)
Definition remove_intercept_time_event (common : intercept_common_t) (timeevents : time_events)
    : outcome time_events :=
  ev ← (if negb (common.(ic_tostart_time) =? 0)
        then remove_time_event common common.(ic_tostart_time)
               OPENLI_UPCOMING_INTERCEPT_EVENT_START timeevents
        else Ok timeevents);
  if negb (common.(ic_toend_time) =? 0)
  then remove_time_event common common.(ic_toend_time) OPENLI_UPCOMING_INTERCEPT_EVENT_END ev
  else Ok ev.

(** [update_intercept_time_event]; [newcommon] may be changed. *)
Definition update_start_event (now intercept : Z) (prevcommon newcommon : intercept_common_t)
    (timeevents : time_events) : outcome time_events :=
  if prevcommon.(ic_tostart_time) =? newcommon.(ic_tostart_time) then Ok timeevents
  else
    ev ← (if negb (prevcommon.(ic_tostart_time) =? 0)
          then remove_time_event prevcommon prevcommon.(ic_tostart_time)
                 OPENLI_UPCOMING_INTERCEPT_EVENT_START timeevents
          else Ok timeevents);
    if now <=? newcommon.(ic_tostart_time)
    then add_time_event intercept newcommon OPENLI_UPCOMING_INTERCEPT_EVENT_START
           newcommon.(ic_tostart_time) ev
    else Ok ev.
Definition update_end_event (now intercept : Z) (prevcommon newcommon : intercept_common_t)
    (timeevents : time_events) : outcome (intercept_common_t * time_events) :=
  if prevcommon.(ic_toend_time) =? newcommon.(ic_toend_time) then Ok (newcommon, timeevents)
  else
    ev ← (if negb (prevcommon.(ic_toend_time) =? 0)
          then remove_time_event prevcommon prevcommon.(ic_toend_time)
                 OPENLI_UPCOMING_INTERCEPT_EVENT_END timeevents
          else Ok timeevents);
    if now <=? newcommon.(ic_toend_time) then
      let newcommon := bump_end newcommon in
      ev ← add_time_event intercept newcommon OPENLI_UPCOMING_INTERCEPT_EVENT_END
             newcommon.(ic_toend_time) ev;
      Ok (newcommon, ev)
    else Ok (newcommon, ev).
Definition update_intercept_time_event (now intercept : Z)
    (prevcommon newcommon : intercept_common_t) (timeevents : time_events)
    : outcome (intercept_common_t * time_events) :=
  ev ← update_start_event now intercept prevcommon newcommon timeevents;
  update_end_event now intercept prevcommon newcommon ev.

(** [JLF]: the entry with the smallest index. *)
Definition first_time (timeevents : time_events) : option Z :=
  foldr (λ t acc, match acc with Some m => Some (Z.min t m) | None => Some t end) None
    (map_to_list timeevents).*1.

(** [check_intercept_time_event]: the next intercept whose time has come. *)
Definition check_intercept_time_event (currtime : Z) (timeevents : time_events)
    : outcome (option upcoming_intercept_event * time_events) :=
  match first_time timeevents with
  | None => Ok (None, timeevents)
  | Some t =>
      if currtime <? t then Ok (None, timeevents)
      else
        match timeevents !! t with
        | Some ((_, ev) :: rest) =>
            Ok (Some ev, if decide (length rest = 0%nat) then delete t timeevents
                         else <[t := rest]> timeevents)
        | _ => Undef
        end
  end.

(** [clear_intercept_time_events] *)
Definition clear_intercept_time_events (timeevents : time_events) : time_events := ∅.

(** The loop of [sync_thread_main] that asks until nothing is due; running out of
    [fuel] is [Undef]. *)
Fixpoint due_events (fuel : nat) (currtime : Z) (timeevents : time_events)
    : outcome (list upcoming_intercept_event * time_events) :=
  match fuel with
  | O => Undef
  | S fuel =>
      '(o, ev) ← check_intercept_time_event currtime timeevents;
      match o with
      | None => Ok ([], ev)
      | Some e => '(l, ev) ← due_events fuel currtime ev; Ok (e :: l, ev)
      end
  end.

(** ** The table as a map of events *)

Definition event_at (ev : time_events) (t : Z) (k : bytes) : option upcoming_intercept_event :=
  ev !! t ≫= hash_find k.
Definition tables_ok (ev : time_events) : Prop := map_Forall (λ _ l, table_ok l ∧ l ≠ []) ev.

Lemma tables_ok_delete t ev : tables_ok ev → tables_ok (delete t ev).
Proof. apply map_Forall_delete. Qed.
Lemma tables_ok_insert t l ev :
  tables_ok ev → table_ok l → l ≠ [] → tables_ok (<[t := l]> ev).
Proof. intros. by apply map_Forall_insert_2. Qed.

Lemma event_at_insert ev t l t' k :
  event_at (<[t := l]> ev) t' k = if decide (t' = t) then hash_find k l else event_at ev t' k.
Proof.
  unfold event_at. destruct (decide (t' = t)) as [->|].
  - by rewrite lookup_insert_eq.
  - by rewrite lookup_insert_ne.
Qed.
Lemma event_at_delete ev t t' k :
  event_at (delete t ev) t' k = if decide (t' = t) then None else event_at ev t' k.
Proof.
  unfold event_at. destruct (decide (t' = t)) as [->|].
  - by rewrite lookup_delete_eq.
  - by rewrite lookup_delete_ne.
Qed.

(** What is left of a table whose entry was taken away. *)
Lemma shrink_table ev t l :
  tables_ok ev → table_ok l →
  let ev' := if decide (length l = 0%nat) then delete t ev else <[t := l]> ev in
  tables_ok ev' ∧ ∀ t' k, event_at ev' t' k = if decide (t' = t) then hash_find k l else event_at ev t' k.
Proof.
  intros Hev Hl ev'. unfold ev'. destruct (decide (length l = 0%nat)) as [Hn|Hn].
  - apply nil_length_inv in Hn as ->. split; [by apply tables_ok_delete|]. apply event_at_delete.
  - split; [|apply event_at_insert]. apply tables_ok_insert; [done..|]. by intros ->.
Qed.

(** An entry of a LIID at a time. *)
Abbreviation here t k t' k' := (t' = t ∧ k' = k).

Lemma remove_time_event_ok c k t ty ev :
  liid_key c = Ok k → tables_ok ev →
  ∃ ev', remove_time_event c t ty ev = Ok ev' ∧ tables_ok ev' ∧
    ∀ t' k', event_at ev' t' k' =
      if decide (here t k t' k' ∧ (ue_event_type <$> event_at ev t k) = Some ty) then None
      else event_at ev t' k'.
Proof.
  intros Hk Hev. unfold remove_time_event.
  destruct (ev !! t) as [l|] eqn:El.
  2:{ exists ev. split_and!; [done..|]. intros t' k'. destruct (decide _) as [[_ Ht]|]; [|done].
      unfold event_at in Ht. by rewrite El in Ht. }
  rewrite Hk. cbn [mbind outcome_bind]. assert (He : event_at ev t k = hash_find k l)
    by (unfold event_at; by rewrite El). rewrite He.
  destruct (hash_find k l) as [e|] eqn:Ef; simpl.
  2:{ exists ev. split_and!; [done..|]. intros t' k'. by destruct (decide _) as [[_ ?]|]. }
  destruct (decide (ue_event_type e ≠ ty)) as [Hty|Hty].
  - exists ev. split_and!; [done..|]. intros t' k'. destruct (decide _) as [[_ [=]]|]; [congruence|done].
  - assert (ue_event_type e = ty) as <- by (by destruct (decide (ue_event_type e = ty))).
    destruct (Hev t l El) as [Hl _].
    destruct (shrink_table ev t (hash_delete k l) Hev (hash_delete_ok k l Hl)) as [Ht Hat].
    eexists. split; [reflexivity|]. split; [exact Ht|]. intros t' k'. rewrite Hat.
    destruct (decide (t' = t)) as [->|]; [|rewrite decide_False; [done|tauto]].
    rewrite hash_find_delete. unfold event_at. rewrite El. simpl.
    destruct (decide (k' = k)) as [->|]; [by rewrite decide_True|by rewrite decide_False by tauto].
Qed.

Lemma add_time_event_ok a c k t ty ev :
  liid_key c = Ok k → tables_ok ev →
  ∃ ev', add_time_event a c ty t ev = Ok ev' ∧ tables_ok ev' ∧
    ∀ t' k', event_at ev' t' k' =
      if decide (here t k t' k') then Some (Mkupcoming_intercept_event ty a) else event_at ev t' k'.
Proof.
  intros Hk Hev. unfold add_time_event. rewrite Hk. cbn [mbind outcome_bind].
  set (l := default [] (ev !! t)).
  assert (Hl : table_ok l).
  { unfold l. destruct (ev !! t) as [l'|] eqn:E; [by destruct (Hev t l' E)|apply table_ok_nil]. }
  assert (Hat : event_at ev t = λ k', hash_find k' l).
  { unfold event_at, l. by destruct (ev !! t). }
  assert (Hfind : hash_find k (hash_delete k l) = None)
    by (by rewrite hash_find_delete, decide_True).
  eexists. split; [reflexivity|]. split.
  - apply tables_ok_insert; [done| |by destruct (hash_delete k l)].
    by apply hash_add_ok; [apply hash_delete_ok|].
  - intros t' k'. rewrite event_at_insert. destruct (decide (t' = t)) as [->|].
    + rewrite hash_find_add by done. rewrite Hat, hash_find_delete.
      destruct (decide (k' = k)) as [->|]; [by rewrite decide_True|by rewrite decide_False by tauto].
    + by rewrite decide_False by tauto.
Qed.

(** ** The invariant

    [owners] are the intercepts that exist, by LIID, with their addresses and times. *)
Abbreviation owners := (gmap bytes (Z * intercept_common_t)).

(** When an event of an intercept is due. *)
Definition event_time (ty : event_type) (c : intercept_common_t) : Z :=
  match ty with
  | OPENLI_UPCOMING_INTERCEPT_EVENT_START => c.(ic_tostart_time)
  | OPENLI_UPCOMING_INTERCEPT_EVENT_END => c.(ic_toend_time)
  end.

(** Times that the provisioner may send: 64 bits, and an end that is not the start. *)
Definition times_ok (c : intercept_common_t) : Prop :=
  0 ≤ c.(ic_tostart_time) ∧ 0 ≤ c.(ic_toend_time) ∧
  (c.(ic_tostart_time) = c.(ic_toend_time) → c.(ic_tostart_time) = 0).

(** At time [now] every entry belongs to an intercept that exists and is at its time, and
    every start and end that lies ahead has an entry. *)
Record events_inv (now : Z) (o : owners) (ev : time_events) : Prop := {
  ei_tables : tables_ok ev;
  ei_sound : ∀ t k e, event_at ev t k = Some e →
    0 < t ∧ ∃ c, o !! k = Some (e.(ue_intercept), c) ∧ t = event_time e.(ue_event_type) c;
  ei_complete : ∀ ty k a c, o !! k = Some (a, c) → now < event_time ty c →
    event_at ev (event_time ty c) k = Some (Mkupcoming_intercept_event ty a);
  ei_times : map_Forall (λ _ ac, times_ok ac.2) o;
}.

Lemma events_inv_later (now now' : Z) (o : owners) (ev : time_events) : now ≤ now' → events_inv now o ev → events_inv now' o ev.
Proof. intros ? []. split; [done..| |done]. intros. apply ei_complete0; [done|lia]. Qed.

(** The events of an intercept, put in or taken out: [want] says what is at each time of
    the LIID afterwards, the others stay. *)
Lemma events_inv_owner (now : Z) (o o' : owners) (ev ev' : time_events) (k : bytes) :
  events_inv now o ev → tables_ok ev' →
  (∀ k', k' ≠ k → o' !! k' = o !! k') →
  (∀ t k', k' ≠ k → event_at ev' t k' = event_at ev t k') →
  (∀ ac, o' !! k = Some ac → times_ok ac.2) →
  (∀ t e, event_at ev' t k = Some e →
     0 < t ∧ ∃ c, o' !! k = Some (e.(ue_intercept), c) ∧ t = event_time e.(ue_event_type) c) →
  (∀ ty a c, o' !! k = Some (a, c) → now < event_time ty c →
     event_at ev' (event_time ty c) k = Some (Mkupcoming_intercept_event ty a)) →
  events_inv now o' ev'.
Proof.
  intros [Ht Hs Hc Hok] Ht' Ho Hat Htm Hs' Hc'. split; [done|..].
  - intros t k' e. destruct (decide (k' = k)) as [->|Hk]; [by apply Hs'|].
    rewrite Hat, Ho by done. apply Hs.
  - intros ty k' a c. destruct (decide (k' = k)) as [->|Hk]; [by apply Hc'|].
    rewrite Hat, Ho by done. apply Hc.
  - intros k' ac. destruct (decide (k' = k)) as [->|Hk]; [by apply Htm|].
    rewrite Ho by done. apply Hok.
Qed.

(** Adding an event only if it is not in the past, which it is not for long. *)
Lemma add_if_ahead now a c k ty ev :
  liid_key c = Ok k → tables_ok ev →
  ∃ ev', (if now <=? event_time ty c then add_time_event a c ty (event_time ty c) ev else Ok ev) = Ok ev' ∧
    tables_ok ev' ∧
    ∀ t' k', event_at ev' t' k' =
      if decide (here (event_time ty c) k t' k' ∧ now ≤ event_time ty c)
      then Some (Mkupcoming_intercept_event ty a) else event_at ev t' k'.
Proof.
  intros Hk Hev. destruct (Z.leb_spec now (event_time ty c)) as [Hn|Hn].
  - destruct (add_time_event_ok a c k (event_time ty c) ty ev Hk Hev) as (ev' & -> & ? & Hat).
    eexists. split_and!; [done..|]. intros t' k'. rewrite Hat.
    destruct (decide (here _ _ _ _)); [rewrite decide_True|rewrite decide_False]; tauto.
  - eexists. split_and!; [done..|]. intros t' k'. rewrite decide_False; [done|lia].
Qed.

(** Removing an event unless its time is 0, where there is none. *)
Lemma remove_if_set c k ty ev :
  liid_key c = Ok k → tables_ok ev → event_at ev 0 k = None →
  ∃ ev', (if negb (event_time ty c =? 0) then remove_time_event c (event_time ty c) ty ev else Ok ev) = Ok ev' ∧
    tables_ok ev' ∧
    ∀ t' k', event_at ev' t' k' =
      if decide (here (event_time ty c) k t' k' ∧
                 (ue_event_type <$> event_at ev (event_time ty c) k) = Some ty) then None
      else event_at ev t' k'.
Proof.
  intros Hk Hev H0. destruct (Z.eqb_spec (event_time ty c) 0) as [Hz|Hz]; simpl.
  - eexists. split_and!; [done..|]. intros t' k'. rewrite decide_False; [done|].
    rewrite Hz, H0. by intros [_ ?].
  - by apply remove_time_event_ok.
Qed.

Lemma no_event_at_0 (now : Z) (o : owners) (ev : time_events) (k : bytes) : events_inv now o ev → event_at ev 0 k = None.
Proof.
  intros [_ Hs _ _]. destruct (event_at ev 0 k) as [e|] eqn:E; [|done].
  destruct (Hs _ _ _ E). lia.
Qed.

(** Only the times of an intercept have entries. *)
Lemma no_other_event (now : Z) (o : owners) (ev : time_events) (k : bytes) (t : Z) :
  events_inv now o ev → (∀ a c ty, o !! k = Some (a, c) → t ≠ event_time ty c) →
  event_at ev t k = None.
Proof.
  intros [_ Hs _ _] Hne. destruct (event_at ev t k) as [e|] eqn:E; [|done].
  destruct (Hs _ _ _ E) as (_ & c & Ho & ->). by edestruct Hne.
Qed.

Lemma bump_end_id now c : times_ok c → 0 < now ≤ c.(ic_toend_time) → bump_end c = c.
Proof.
  intros (_ & _ & He) Hn. unfold bump_end. destruct (Z.eqb_spec (ic_toend_time c) (ic_tostart_time c)); [lia|done].
Qed.

(** ** The operations keep the invariant *)

Lemma add_new_ok (now a : Z) (o : owners) (ev : time_events) (k : bytes) (c : intercept_common_t) :
  events_inv now o ev → 0 < now → o !! k = None → liid_key c = Ok k → times_ok c →
  ∃ ev', add_new_intercept_time_event now a c ev = Ok (c, ev') ∧
    events_inv now (<[k := (a, c)]> o) ev'.
Proof.
  intros Hi Hn Ho Hk Hc.
  assert (Hnone : ∀ t, event_at ev t k = None)
    by (intros t; apply (no_other_event now o); [done|by rewrite Ho]).
  destruct (add_if_ahead now a c k OPENLI_UPCOMING_INTERCEPT_EVENT_START ev Hk (ei_tables _ _ _ Hi))
    as (ev1 & E1 & Ht1 & Hat1).
  destruct (add_if_ahead now a c k OPENLI_UPCOMING_INTERCEPT_EVENT_END ev1 Hk Ht1)
    as (ev2 & E2 & Ht2 & Hat2).
  exists ev2. split.
  { unfold add_new_intercept_time_event. cbn [event_time] in E1, E2. rewrite E1. run_outcome.
    destruct (Z.leb_spec now (ic_toend_time c)) as [He|He]; [|congruence].
    rewrite (bump_end_id now) by (done || lia). by rewrite E2. }
  cbn [event_time] in Hat1, Hat2. destruct Hc as (Hs0 & He0 & Hse).
  apply (events_inv_owner now o _ ev _ k); [done..| | | | |].
  - intros k' Hne. by rewrite lookup_insert_ne.
  - intros t k' Hne. rewrite Hat2, Hat1. by rewrite !decide_False by tauto.
  - intros ac. rewrite lookup_insert_eq. by intros [= <-].
  - intros t e. rewrite Hat2, Hat1, Hnone, lookup_insert_eq.
    destruct (decide _) as [[[-> _] ?]|]; [intros [= <-]; split; [lia|]; by exists c|].
    destruct (decide _) as [[[-> _] ?]|]; [intros [= <-]; split; [lia|]; by exists c|done].
  - intros ty a' c'. rewrite lookup_insert_eq. intros [= <- <-] Hty. rewrite Hat2, Hat1.
    destruct ty; cbn [event_time] in *.
    + rewrite decide_False by lia. by rewrite decide_True by (split; [done|lia]).
    + by rewrite decide_True by (split; [done|lia]).
Qed.

Lemma remove_ok_events (now a : Z) (o : owners) (ev : time_events) (k : bytes) (c : intercept_common_t) :
  events_inv now o ev → o !! k = Some (a, c) → liid_key c = Ok k →
  ∃ ev', remove_intercept_time_event c ev = Ok ev' ∧ events_inv now (delete k o) ev'.
Proof.
  intros Hi Ho Hk. pose proof (no_event_at_0 now o ev k Hi) as H0.
  destruct (remove_if_set c k OPENLI_UPCOMING_INTERCEPT_EVENT_START ev Hk (ei_tables _ _ _ Hi) H0)
    as (ev1 & E1 & Ht1 & Hat1).
  destruct (remove_if_set c k OPENLI_UPCOMING_INTERCEPT_EVENT_END ev1 Hk Ht1)
    as (ev2 & E2 & Ht2 & Hat2).
  { rewrite Hat1, H0. by destruct (decide _). }
  exists ev2. split.
  { unfold remove_intercept_time_event. cbn [event_time] in E1, E2. rewrite E1. run_outcome. exact E2. }
  assert (Hnone : ∀ t, event_at ev2 t k = None).
  { intros t. rewrite Hat2. destruct (decide _) as [|Hd2]; [done|].
    rewrite Hat1. rewrite Hat1 in Hd2. destruct (decide (here _ k t k ∧ _)) as [|Hd1]; [done|].
    destruct (event_at ev t k) as [e|] eqn:E; [|done].
    destruct (ei_sound _ _ _ Hi _ _ _ E) as (_ & c' & Ho' & ->).
    rewrite Ho in Ho'. injection Ho' as _ <-. destruct (ue_event_type e) eqn:Ety; simpl in *.
    - destruct Hd1. by rewrite E, <- Ety.
    - destruct Hd2. split; [done|]. rewrite decide_False; [cbn [event_time]; rewrite E; simpl; by rewrite Ety|].
      intros [[Heq _] Hst]. cbn [event_time] in *. rewrite <- Heq, E in Hst. simpl in Hst. congruence. }
  apply (events_inv_owner now o _ ev _ k); [done..| | | | |].
  - intros k' Hne. by rewrite lookup_delete_ne.
  - intros t k' Hne. rewrite Hat2, decide_False by tauto. by rewrite Hat1, decide_False by tauto.
  - intros ac. by rewrite lookup_delete_eq.
  - intros t e. by rewrite Hnone.
  - intros ty a' c'. by rewrite lookup_delete_eq.
Qed.

(** One of the two times of an intercept changes. *)
Definition update_event (ty : event_type) (now a : Z) (c c' : intercept_common_t) (ev : time_events)
    : outcome time_events :=
  if event_time ty c =? event_time ty c' then Ok ev
  else
    ev ← (if negb (event_time ty c =? 0) then remove_time_event c (event_time ty c) ty ev else Ok ev);
    if now <=? event_time ty c' then add_time_event a c' ty (event_time ty c') ev else Ok ev.

Lemma update_event_ok ty now a c c' k ev :
  liid_key c = Ok k → liid_key c' = Ok k → tables_ok ev → event_at ev 0 k = None → 0 < now →
  let T := event_time ty c in let T' := event_time ty c' in
  ∃ ev', update_event ty now a c c' ev = Ok ev' ∧ tables_ok ev' ∧ event_at ev' 0 k = None ∧
    (∀ t k', k' ≠ k → event_at ev' t k' = event_at ev t k') ∧
    (∀ t, event_at ev' t k =
       if decide (T ≠ T' ∧ t = T' ∧ now ≤ T') then Some (Mkupcoming_intercept_event ty a)
       else if decide (T ≠ T' ∧ t = T ∧ (ue_event_type <$> event_at ev t k) = Some ty) then None
       else event_at ev t k).
Proof.
  intros Hk Hk' Hev H0 Hn T T'. unfold update_event. fold T T'.
  destruct (Z.eqb_spec T T') as [HT|HT].
  { exists ev. split_and!; [done..|]. intros t. by rewrite !decide_False by tauto. }
  destruct (remove_if_set c k ty ev Hk Hev H0) as (ev1 & E1 & Ht1 & Hat1). fold T in E1, Hat1.
  destruct (add_if_ahead now a c' k ty ev1 Hk' Ht1) as (ev2 & E2 & Ht2 & Hat2). fold T' in E2, Hat2.
  rewrite E1. run_outcome. exists ev2. split_and!; [done..| | |].
  - rewrite Hat2, decide_False by lia. rewrite Hat1, H0. by destruct (decide _).
  - intros t k' Hne. rewrite Hat2, decide_False by tauto. by rewrite Hat1, decide_False by tauto.
  - intros t. rewrite Hat2. destruct (decide (T ≠ T' ∧ _)) as [(_ & -> & ?)|Hd].
    { by rewrite decide_True. }
    rewrite decide_False by tauto. rewrite Hat1.
    destruct (decide (T ≠ T' ∧ t = T ∧ _)) as [(_ & -> & Hty)|Hd2]; [by rewrite decide_True|].
    rewrite decide_False; [done|]. intros [[-> _] ?]. tauto.
Qed.

Lemma update_time_event_unfold now a c c' ev :
  times_ok c' → 0 < now →
  update_intercept_time_event now a c c' ev =
    (ev ← update_event OPENLI_UPCOMING_INTERCEPT_EVENT_START now a c c' ev;
     ev ← update_event OPENLI_UPCOMING_INTERCEPT_EVENT_END now a c c' ev; Ok (c', ev)).
Proof.
  intros Hc Hn. unfold update_intercept_time_event, update_start_event, update_end_event, update_event.
  cbn [event_time].
  destruct (if _ =? _ then Ok ev else _) as [ev1| |]; run_outcome; [|done..].
  destruct (_ =? _); run_outcome; [done|].
  destruct (if negb _ then _ else Ok ev1) as [ev2| |]; run_outcome; [|done..].
  destruct (Z.leb_spec now (ic_toend_time c')); [|done].
  by rewrite (bump_end_id now) by (done || lia).
Qed.

Lemma update_ok_events (now a : Z) (o : owners) (ev : time_events) (k : bytes)
    (c c' : intercept_common_t) :
  events_inv now o ev → 0 < now → o !! k = Some (a, c) → liid_key c = Ok k → liid_key c' = Ok k →
  times_ok c' →
  ∃ ev', update_intercept_time_event now a c c' ev = Ok (c', ev') ∧
    events_inv now (<[k := (a, c')]> o) ev'.
Proof.
  intros Hi Hn Ho Hk Hk' Hc'. rewrite update_time_event_unfold by done.
  pose proof (ei_times _ _ _ Hi _ _ Ho) as (_ & _ & Hse). cbn [snd] in Hse.
  pose proof Hc' as (_ & _ & Hse').
  destruct (update_event_ok OPENLI_UPCOMING_INTERCEPT_EVENT_START now a c c' k ev Hk Hk'
              (ei_tables _ _ _ Hi) (no_event_at_0 _ _ _ _ Hi) Hn)
    as (ev1 & -> & Ht1 & H01 & Hother1 & Hat1).
  destruct (update_event_ok OPENLI_UPCOMING_INTERCEPT_EVENT_END now a c c' k ev1 Hk Hk' Ht1 H01 Hn)
    as (ev2 & E2 & Ht2 & _ & Hother2 & Hat2).
  run_outcome. rewrite E2. exists ev2. split; [done|]. clear E2. cbn [event_time] in Hat1, Hat2.
  apply (events_inv_owner now o _ ev _ k); [done..| | | | |].
  - intros k' Hne. by rewrite lookup_insert_ne.
  - intros t k' Hne. by rewrite Hother2, Hother1.
  - intros ac. rewrite lookup_insert_eq. by intros [= <-].
  - intros t e. rewrite lookup_insert_eq, Hat2.
    destruct (decide _) as [(? & -> & ?)|_]; [intros [= <-]; split; [lia|by exists c']|].
    destruct (decide _) as [|Hr2]; [done|]. intros He. rewrite He in Hr2. revert He. rewrite Hat1.
    destruct (decide _) as [(? & -> & ?)|_]; [intros [= <-]; split; [lia|by exists c']|].
    destruct (decide _) as [|Hr1]; [done|]. intros He. rewrite He in Hr1.
    destruct (ei_sound _ _ _ Hi _ _ _ He) as (Ht & c0 & Hc0 & Htime).
    rewrite Ho in Hc0. injection Hc0 as -> <-. split; [done|]. exists c'. split; [done|].
    destruct (ue_event_type e) eqn:Ety; cbn [event_time] in *; simpl in Hr1, Hr2; rewrite Ety in Hr1, Hr2.
    + destruct (decide (ic_tostart_time c = ic_tostart_time c')); [congruence|tauto].
    + destruct (decide (ic_toend_time c = ic_toend_time c')); [congruence|tauto].
  - intros ty a' x. rewrite lookup_insert_eq. intros [= <- <-] Hty.
    pose proof (ei_complete _ _ _ Hi ty k a c Ho) as Hc. rewrite Hat2.
    destruct ty; cbn [event_time] in *.
    + rewrite decide_False by lia.
      assert (E1 : event_at ev1 (ic_tostart_time c') k =
                   Some (Mkupcoming_intercept_event OPENLI_UPCOMING_INTERCEPT_EVENT_START a)).
      { rewrite Hat1. destruct (decide (ic_tostart_time c = ic_tostart_time c')) as [He|He].
        - rewrite !decide_False by tauto. rewrite <- He in *. auto.
        - by rewrite decide_True by (split_and!; [done..|lia]). }
      rewrite E1. simpl. rewrite decide_False; [done|]. by intros (_ & _ & [=]).
    + destruct (decide (ic_toend_time c = ic_toend_time c')) as [He|He].
      * rewrite !decide_False by tauto. rewrite Hat1.
        rewrite decide_False by lia. rewrite <- He in *. rewrite Hc by done. simpl.
        rewrite decide_False; [done|]. by intros (_ & _ & [=]).
      * by rewrite decide_True by (split_and!; [done..|lia]).
Qed.

(** ** The next event *)

Definition table_size (ev : time_events) : nat := map_fold (λ _ l n, (length l + n)%nat) 0%nat ev.

Lemma table_size_delete ev t l :
  ev !! t = Some l → table_size ev = (length l + table_size (delete t ev))%nat.
Proof.
  intros Hl. unfold table_size. rewrite (map_fold_delete_L _ _ t l); [done| |done].
  intros. lia.
Qed.
Lemma table_size_shrink ev t x l :
  ev !! t = Some (x :: l) →
  table_size ev = S (table_size (if decide (length l = 0%nat) then delete t ev else <[t := l]> ev)).
Proof.
  intros Hl. rewrite (table_size_delete _ _ _ Hl). destruct (decide _) as [Hn|Hn]; simpl; [lia|].
  rewrite (table_size_delete (<[t := l]> ev) t l) by apply lookup_insert_eq.
  by rewrite delete_insert_eq.
Qed.

Lemma first_time_spec (ev : time_events) :
  match first_time ev with
  | None => ev = ∅
  | Some t => is_Some (ev !! t) ∧ ∀ t', is_Some (ev !! t') → t ≤ t'
  end.
Proof.
  assert (Hmin : ∀ l : list Z,
    match foldr (λ t acc, match acc with Some m => Some (Z.min t m) | None => Some t end) None l with
    | None => l = []
    | Some t => t ∈ l ∧ ∀ t', t' ∈ l → t ≤ t'
    end).
  { induction l as [|x l IH]; [done|]. simpl. destruct (foldr _ None l) as [m|].
    - destruct IH as [Hm Hle]. split; [destruct (Z.min_spec x m) as [[_ ->]|[_ ->]]; set_solver|].
      intros t' [->|Ht]%elem_of_cons; [lia|]. specialize (Hle _ Ht). lia.
    - subst l. split; [set_solver|]. intros t' ->%list_elem_of_singleton. lia. }
  assert (Hin : ∀ t, t ∈ (map_to_list ev).*1 ↔ is_Some (ev !! t)).
  { intros t. rewrite list_elem_of_fmap. split.
    - intros ([? l] & -> & ?%elem_of_map_to_list). by exists l.
    - intros [l ?]. exists (t, l). by rewrite elem_of_map_to_list. }
  specialize (Hmin (map_to_list ev).*1). unfold first_time. destruct (foldr _ None _) as [m|].
  - setoid_rewrite Hin in Hmin. exact Hmin.
  - by apply fmap_nil_inv, map_to_list_empty_iff in Hmin.
Qed.

Lemma check_intercept_time_event_ok (now : Z) (ev : time_events) :
  tables_ok ev →
  ∃ o ev', check_intercept_time_event now ev = Ok (o, ev') ∧ tables_ok ev' ∧
    match o with
    | None => ev' = ev ∧ ∀ t k, t ≤ now → event_at ev t k = None
    | Some e => ∃ t k, t ≤ now ∧ event_at ev t k = Some e ∧
        table_size ev = S (table_size ev') ∧
        (∀ t' k', event_at ev' t' k' = if decide (here t k t' k') then None else event_at ev t' k') ∧
        (∀ t' k', is_Some (event_at ev t' k') → t ≤ t')
    end.
Proof.
  intros Hev. unfold check_intercept_time_event. pose proof (first_time_spec ev) as Hf.
  destruct (first_time ev) as [t|]; [|by subst ev; exists None, ∅; split_and!].
  destruct Hf as [[l Hl] Hmin].
  assert (Hle : ∀ t' k', is_Some (event_at ev t' k') → t ≤ t').
  { intros t' k' [e He]. apply Hmin. unfold event_at in He. by destruct (ev !! t'). }
  destruct (Z.ltb_spec now t) as [Hn|Hn].
  { exists None, ev. split_and!; [done..|]. intros t' k' Ht. apply eq_None_not_Some.
    intros ?%Hle. lia. }
  rewrite Hl. destruct (Hev t l Hl) as [Hok Hne]. destruct l as [|[k e] l]; [done|].
  apply NoDup_cons in Hok as [Hk Hok].
  destruct (shrink_table ev t l Hev Hok) as [Hev' Hat]. eexists _, _. split; [reflexivity|].
  split; [exact Hev'|]. exists t, k. split_and!; [done| |by eapply table_size_shrink| |done].
  - unfold event_at. rewrite Hl. simpl. by rewrite decide_True.
  - intros t' k'. rewrite Hat. destruct (decide (t' = t)) as [->|]; [|by rewrite decide_False by tauto].
    destruct (decide (k' = k)) as [->|Hk'].
    + rewrite decide_True by done. by apply hash_find_None.
    + rewrite decide_False by tauto. unfold event_at. rewrite Hl. simpl. by rewrite decide_False.
Qed.

(** What is fired, with its time and LIID. *)
Abbreviation firing := (Z * bytes * upcoming_intercept_event)%type.

(** The loop returns, with every event that is due, once and in the order of the times. *)
Lemma due_events_ok (now : Z) (fuel : nat) (ev : time_events) :
  tables_ok ev → (table_size ev < fuel)%nat →
  ∃ (fs : list firing) ev', due_events fuel now ev = Ok (fs.*2, ev') ∧ tables_ok ev' ∧
    NoDup fs.*1 ∧ StronglySorted (λ f g, f.1.1 ≤ g.1.1) fs ∧
    (∀ t k e, (t, k, e) ∈ fs ↔ t ≤ now ∧ event_at ev t k = Some e) ∧
    (∀ t k, event_at ev' t k = if decide (t ≤ now) then None else event_at ev t k).
Proof.
  revert ev. induction fuel as [|fuel IH]; intros ev Hev Hf; [lia|]. cbn [due_events].
  destruct (check_intercept_time_event_ok now ev Hev) as ([e|] & ev1 & -> & Hev1 & Ho); run_outcome.
  2:{ destruct Ho as [-> Hnone]. exists [], ev. split_and!; [done|done|by constructor..| |].
      - intros t k e. split; [by intros ?%not_elem_of_nil|]. intros [Ht He]. by rewrite Hnone in He.
      - intros t k. destruct (decide _); [by apply Hnone|done]. }
  destruct Ho as (t & k & Ht & He & Hsize & Hat & Hmin).
  destruct (IH ev1 Hev1) as (fs & ev2 & -> & Hev2 & Hnd & Hso & Hin & Hrest); [lia|]. run_outcome.
  assert (Hnot : (t, k) ∉ fs.*1).
  { intros ([[t' k'] e'] & [= <- <-] & [_ Hx]%Hin)%list_elem_of_fmap. rewrite Hat in Hx.
    by rewrite decide_True in Hx. }
  exists ((t, k, e) :: fs), ev2. split_and!; [done|done| | | |].
  - by apply NoDup_cons.
  - constructor; [done|]. apply Forall_forall. intros [[t' k'] e'] [_ Hx]%Hin. rewrite Hat in Hx.
    destruct (decide _); [done|]. simpl. eapply Hmin. by eexists.
  - intros t' k' e'. rewrite elem_of_cons, Hin, Hat. destruct (decide (here t k t' k')) as [[-> ->]|Hd].
    + rewrite He. naive_solver.
    + naive_solver.
  - intros t' k'. rewrite Hrest, Hat. destruct (decide (t' ≤ now)); [done|].
    rewrite decide_False; [done|]. intros [-> _]. lia.
Qed.

Lemma due_events_inv (now now' : Z) (o : owners) (ev : time_events) (fuel : nat) :
  events_inv now o ev → now ≤ now' → (table_size ev < fuel)%nat →
  ∃ fs ev', due_events fuel now' ev = Ok (fs.*2, ev') ∧
    NoDup fs.*1 ∧ StronglySorted (λ f g : firing, f.1.1 ≤ g.1.1) fs ∧
    (∀ t k e, (t, k, e) ∈ fs → t ≤ now' ∧
       ∃ c, o !! k = Some (e.(ue_intercept), c) ∧ t = event_time e.(ue_event_type) c) ∧
    (∀ ty k a c, o !! k = Some (a, c) → now < event_time ty c ≤ now' →
       (event_time ty c, k, Mkupcoming_intercept_event ty a) ∈ fs) ∧
    (∀ t k e, (t, k, e) ∈ fs ↔ t ≤ now' ∧ event_at ev t k = Some e) ∧
    (∀ t k, event_at ev' t k = if decide (t ≤ now') then None else event_at ev t k) ∧
    events_inv now' o ev'.
Proof.
  intros [Ht Hs Hc Hok] Hn Hf.
  destruct (due_events_ok now' fuel ev Ht Hf) as (fs & ev' & E & Ht' & Hnd & Hso & Hin & Hrest).
  exists fs, ev'. split_and!; [done..| | |exact Hin|exact Hrest|].
  - intros t k e [? He]%Hin. split; [done|]. by destruct (Hs _ _ _ He).
  - intros ty k a c Ho [? ?]. apply Hin. split; [done|]. by apply Hc.
  - split; [done| | |done].
    + intros t k e. rewrite Hrest. destruct (decide _); [done|]. apply Hs.
    + intros ty k a c Ho Hlt. rewrite Hrest, decide_False by lia. apply Hc; [done|lia].
Qed.

(** A synchronisation thread at work: intercepts come, change and go, and time passes. *)
Inductive timed_reach : Z → owners → time_events → Prop :=
  | timed_init now : 0 < now → timed_reach now ∅ ∅
  | timed_wait now now' o ev : timed_reach now o ev → now ≤ now' → timed_reach now' o ev
  | timed_new now o ev a k c c' ev' :
      timed_reach now o ev → o !! k = None → liid_key c = Ok k → times_ok c →
      add_new_intercept_time_event now a c ev = Ok (c', ev') →
      timed_reach now (<[k := (a, c')]> o) ev'
  | timed_change now o ev a k c d d' ev' :
      timed_reach now o ev → o !! k = Some (a, c) → liid_key c = Ok k → liid_key d = Ok k →
      times_ok d → update_intercept_time_event now a c d ev = Ok (d', ev') →
      timed_reach now (<[k := (a, d')]> o) ev'
  | timed_gone now o ev a k c ev' :
      timed_reach now o ev → o !! k = Some (a, c) → liid_key c = Ok k →
      remove_intercept_time_event c ev = Ok ev' → timed_reach now (delete k o) ev'
  | timed_fire now o ev fuel l ev' :
      timed_reach now o ev → (table_size ev < fuel)%nat →
      due_events fuel now ev = Ok (l, ev') → timed_reach now o ev'.

Lemma timed_reach_inv now o ev : timed_reach now o ev → 0 < now ∧ events_inv now o ev.
Proof.
  induction 1 as [now Hn|now now' o ev _ [? ?]|now o ev a k c c' ev' _ [? IH] ? ? ? E
    |now o ev a k c d d' ev' _ [? IH] ? ? ? ? E|now o ev a k c ev' _ [? IH] ? ? E
    |now o ev fuel l ev' _ [? IH] ? E].
  - split; [done|]. split; [done| |done..]. by intros t k e ?.
  - split; [lia|]. by eapply events_inv_later.
  - destruct (add_new_ok now a o ev k c) as (ev2 & E2 & ?); [done..|].
    rewrite E in E2. by injection E2 as -> ->.
  - destruct (update_ok_events now a o ev k c d) as (ev2 & E2 & ?); [done..|].
    rewrite E in E2. by injection E2 as -> ->.
  - destruct (remove_ok_events now a o ev k c) as (ev2 & E2 & ?); [done..|].
    rewrite E in E2. by injection E2 as ->.
  - destruct (due_events_inv now now o ev fuel) as (fs & ev2 & E2 & _ & _ & _ & _ & _ & _ & ?); [done|lia|done|].
    rewrite E in E2. by injection E2 as -> ->.
Qed.


Definition sample_timed (liid : string) (start end_ : Z) : intercept_common_t :=
  Mkintercept_common_t (Some (of_string liid)) (Some (of_string "NZ"))
    (Some (of_string "NZ")) (Z.of_nat (String.length liid)) 2 2 1001
    (Some (of_string "agency")) 0 0 start end_ 0 0 None.


(** An intercept whose start is moved onto its end loses the end: [add_time_event]
    replaces the entry of the other type, and the end has not changed. *)
Lemma start_onto_end_loses_end :
  let c := sample_timed "one" 110 200 in let d := sample_timed "one" 200 200 in
  (∃ ev, add_new_intercept_time_event 100 1 c ∅ = Ok (c, ev) ∧
     (ue_event_type <$> event_at ev 200 (of_string "one")) =
       Some OPENLI_UPCOMING_INTERCEPT_EVENT_END ∧
     ∃ ev', update_intercept_time_event 100 1 c d ev = Ok (d, ev') ∧ table_size ev' = 1%nat ∧
       (ue_event_type <$> event_at ev' 200 (of_string "one")) =
         Some OPENLI_UPCOMING_INTERCEPT_EVENT_START).
Proof.
  eexists. split; [vm_compute; reflexivity|]. split; [by vm_compute|].
  eexists. split; [vm_compute; reflexivity|]. split; by vm_compute.
Qed.
