(* ===== verification/CoreServer.v ===== *)
(** * Servers and packets (src/src/coreserver.c, src/src/collector/collector.c)

    The collector knows the addresses of servers and of vendor mirrors, and compares
    every packet with them.  The address of a server is looked up when the first packet
    is compared with it; [getaddrinfo] is the parameter [populate_addrinfo], which gives
    the family, the address and the port.

    A server that cannot be looked up is deleted from the list, through a copy of the
    pointer to the list.  The pointer that is kept still refers to the first entry of the
    list: if that one was deleted, the pointer is left at an entry that is in no table,
    and the table is freed with its last entry.  Such a list is [None]; what using it does
    is not modelled ([Undef]). *)

From S2P Require Import Prelude Intercept Publish AccessSession JenkinsHash HashTable.

(** What [getaddrinfo] answers: family, address, port. *)
Record addrinfo : Type := Mkaddrinfo {
  ai_family : Z;
  ai_addr : bytes;
  ai_port : Z;
}.

(** A server in a list, with its [info] and, once it is known, [portswapped]. *)
Record server_entry : Type := Mkserver_entry {
  sv_server : coreserver_t;
  sv_info : option addrinfo;
}.
Abbreviation server_table := (list (bytes * server_entry)).
Abbreviation server_list := (option server_table).

Definition use_list (l : server_list) : outcome server_table :=
  match l with Some t => Ok t | None => Undef end.

(** [packet_info_t]; of the addresses their bytes, of the time the seconds. *)
Record packet_info_t : Type := Mkpacket_info_t {
  pi_family : Z;
  pi_srcip : bytes;
  pi_destip : bytes;
  pi_srcport : Z;
  pi_destport : Z;
  pi_tv : Z;
}.

Section servers.
Context (populate_addrinfo : cstring → cstring → option addrinfo).

(** The server with its address, if there is one. *)
Definition resolve (e : server_entry) : option (coreserver_t * addrinfo) :=
  match e.(sv_info) with
  | Some ai => Some (e.(sv_server), ai)
  | None =>
      ai ← populate_addrinfo e.(sv_server).(cs_ipstr) e.(sv_server).(cs_portstr);
      Some (if (ai.(ai_family) =? AF_INET) || (ai.(ai_family) =? AF_INET6)
            then set_cs_portswapped ai.(ai_port) e.(sv_server) else e.(sv_server), ai)
  end.

(** The loop over a list: up to the first server that passes a test.  Servers are
    looked up on the way, and deleted if that fails. *)
Fixpoint scan_servers (test : coreserver_t → addrinfo → outcome bool) (l : server_table)
    : outcome (option coreserver_t * server_table) :=
  match l with
  | [] => Ok (None, [])
  | (k, e) :: l =>
      match resolve e with
      | None => scan_servers test l
      | Some (cs, ai) =>
          let entry := (k, Mkserver_entry cs (Some ai)) in
          hit ← test cs ai;
          if hit : bool then Ok (Some cs, entry :: l)
          else '(r, l) ← scan_servers test l; Ok (r, entry :: l)
      end
  end.

(** The pointer to the list after the loop. *)
Definition list_after (old new : server_table) : server_list :=
  match old with
  | (_, e) :: _ => match resolve e with None => None | Some _ => Some new end
  | [] => Some new
  end.
Definition iterate_servers (test : coreserver_t → addrinfo → outcome bool) (l : server_list)
    : outcome (option coreserver_t * server_list) :=
  t ← use_list l;
  '(r, t') ← scan_servers test t;
  Ok (r, list_after t t').

(** [CORESERVER_MATCH_V4] on a server of either family: the four bytes of an IPv6
    address structure at this place are zero. *)
Definition coreserver_match_v4 (cs : coreserver_t) (ai : addrinfo) (addr : bytes) (port : Z) : bool :=
  (port =? cs.(cs_portswapped)) &&
  bool_decide (addr = (if ai.(ai_family) =? AF_INET then ai.(ai_addr) else [0; 0; 0; 0])).

(** [CORESERVER_MATCH_V6]: the address structure of an IPv4 server is too short. *)
Definition coreserver_match_v6 (cs : coreserver_t) (ai : addrinfo) (addr : bytes) (port : Z)
    : outcome bool :=
  if port =? cs.(cs_portswapped) then
    if ai.(ai_family) =? AF_INET6 then Ok (bool_decide (addr = ai.(ai_addr))) else Undef
  else Ok false.

(** [match_packet_to_coreserver].  An address of the other family is compared with
    bytes of [destip] that were never written. *)
Definition match_packet_to_coreserver (serverlist : server_list) (pinfo : packet_info_t)
    : outcome (option coreserver_t * server_list) :=
  if pinfo.(pi_destport) =? 0 then Ok (None, serverlist)
  else
    iterate_servers (λ cs ai,
      if (ai.(ai_family) =? AF_INET) || (ai.(ai_family) =? AF_INET6) then
        if pinfo.(pi_destport) =? cs.(cs_portswapped) then
          if pinfo.(pi_family) =? ai.(ai_family)
          then Ok (bool_decide (pinfo.(pi_destip) = ai.(ai_addr))) else Undef
        else Ok false
      else Ok false) serverlist.

(** The test of [is_core_server_packet]: the packet comes from the server or goes to
    it. *)
Definition server_test (pinfo : packet_info_t) (rad : coreserver_t) (ai : addrinfo) : outcome bool :=
  if pinfo.(pi_family) =? AF_INET then
    Ok (coreserver_match_v4 rad ai pinfo.(pi_srcip) pinfo.(pi_srcport) ||
        coreserver_match_v4 rad ai pinfo.(pi_destip) pinfo.(pi_destport))
  else if pinfo.(pi_family) =? AF_INET6 then
    src ← coreserver_match_v6 rad ai pinfo.(pi_srcip) pinfo.(pi_srcport);
    if src : bool then Ok true
    else coreserver_match_v6 rad ai pinfo.(pi_destip) pinfo.(pi_destport)
  else Ok false.

(** [is_core_server_packet]: 0, or a number for the server: the hash of its key, which
    does not depend on where the string is ([hash_liid_placement]). *)
Definition is_core_server_packet (pinfo : packet_info_t) (servers : server_list)
    : outcome (Z * server_list) :=
  if (pinfo.(pi_srcport) =? 0) || (pinfo.(pi_destport) =? 0) then Ok (0, servers)
  else
    '(found, servers) ← iterate_servers (server_test pinfo) servers;
    match found with
    | None => Ok (0, servers)
    | Some cs =>
        k ← c_str cs.(cs_serverkey);
        hashval ← hash_liid 0 (k ++ [0; 0; 0; 0]);
        Ok (if hashval =? 0 then 1 else hashval, servers)
    end.
End servers.
