(* ===== verification/ThreadTables.v ===== *)
(** * The intercepts of a packet processing thread
      (src/src/collector/collector_push_messaging.c, collector.c)

    A packet processing thread keeps what it intercepts in tables that only it uses, and
    changes them by the messages it finds in its queue
    ([process_incoming_messages]).

    Ranges of addresses are found in patricia trees.  The trees are a library's:
    [Patricia] says what the code relies on, for a type of trees.  [ascii2prefix] is the
    library's as well, and [inet_ntop] belongs to the operating system: both are
    parameters.

    Two tables have keys that belong to something else.  The key of an entry of
    [activestaticintercepts] may be the [key] string of a [liid_set_t]; the live
    strings are [cl_keys].  The key of an entry of [activemirrorintercepts] is a field of
    the intercept that created the entry.  [HASH_FIND] compares keys, and reading one
    that was freed is [Undef]. *)

From stdpp Require Import gmap.
From S2P Require Import Prelude Intercept Publish AccessSession HashTable IpSession CoreServer.

(** ** Patricia trees *)

(** [prefix_t] *)
Record prefix_t : Type := Mkprefix_t {
  pf_family : Z;
  pf_bitlen : Z;
  pf_add : bytes;
}.
#[global] Instance prefix_eq_dec : EqDecision prefix_t.
Proof. solve_decision. Defined.

(** The first bits of an address. *)
Fixpoint byte_bits (n : nat) (b : Z) : list bool :=
  match n with O => [] | S n => Z.testbit b (Z.of_nat n) :: byte_bits n b end.
Definition address_bits (a : bytes) : list bool := a ≫= byte_bits 8.

(** A prefix that covers another. *)
Definition covers (p q : prefix_t) : Prop :=
  p.(pf_family) = q.(pf_family) ∧ p.(pf_bitlen) ≤ q.(pf_bitlen) ∧
  ztake p.(pf_bitlen) (address_bits p.(pf_add)) = ztake p.(pf_bitlen) (address_bits q.(pf_add)).
#[global] Instance covers_dec p q : Decision (covers p q).
Proof. unfold covers. apply _. Defined.

(** Trees with data [D]: [pt_get] is [patricia_search_exact], [pt_put] is
    [patricia_lookup], which makes the node if there is none, with the write of its data,
    [pt_path] gives the data of the node that [patricia_search_best2] finds and of its
    parents. *)
Class Patricia (T D : Type) : Type := {
  pt_empty : T;
  pt_get : prefix_t → T → option D;
  pt_put : prefix_t → D → T → option T;
  pt_remove : prefix_t → T → T;
  pt_path : prefix_t → T → list D;
  pt_get_empty p : pt_get p pt_empty = None;
  pt_get_put p q d t t' :
    pt_put p d t = Some t' → pt_get q t' = if decide (q = p) then Some d else pt_get q t;
  pt_put_known p d d' t : pt_get p t = Some d → is_Some (pt_put p d' t);
  pt_get_remove p q t : pt_get q (pt_remove p t) = if decide (q = p) then None else pt_get q t;
  pt_path_spec q t d : d ∈ pt_path q t ↔ ∃ p, covers p q ∧ pt_get p t = Some d;
}.

(** ** The state of a thread *)

(** [liid_set_t]; [ls_keyaddr] is the address of the string [key]. *)
Record liid_set_t : Type := Mkliid_set_t {
  ls_liid : bytes;
  ls_cin : Z;
  ls_key : bytes;
  ls_keyaddr : Z;
}.
Abbreviation liid_table := (list (bytes * liid_set_t)).

(** An entry of [activestaticintercepts]: where its key is, if it is not in the
    session. *)
Record static_entry : Type := Mkstatic_entry {
  se_keyaddr : option Z;
  se_session : staticipsession_t;
}.

(** [ipv6_target_t] *)
Record ipv6_target_t : Type := Mkipv6_target_t {
  t6_address : bytes;
  t6_prefixlen : Z;
  t6_intercepts : list (bytes * ipsession_t);
}.

(** [vendmirror_intercept_list_t]; [vl_keyaddr] is the intercept that has the key. *)
Record vendmirror_intercept_list_t : Type := Mkvendmirror_intercept_list_t {
  vl_keyaddr : Z;
  vl_intercepts : list (bytes * vendmirror_intercept_t);
}.

(** [colthread_local_t]; the lists of servers by the type of the servers. *)
Record colthread_local_t (T : Type) : Type := Mkcolthread_local_t {
  cl_v4 : list (bytes * list (bytes * ipsession_t));
  cl_v6 : list (bytes * ipv6_target_t);
  cl_rtp : list (bytes * rtpstreaminf_t);
  cl_mirror : list (Z * vendmirror_intercept_list_t);
  cl_static : list (bytes * static_entry);
  cl_servers : Z → server_list;
  cl_staticv4ranges : T;
  cl_staticv6ranges : T;
  cl_dynamicv6ranges : T;
  cl_keys : gset Z;
  cl_next : Z;
}.
Arguments Mkcolthread_local_t {T}.
Arguments cl_v4 {T}.
Arguments cl_v6 {T}.
Arguments cl_rtp {T}.
Arguments cl_mirror {T}.
Arguments cl_static {T}.
Arguments cl_servers {T}.
Arguments cl_staticv4ranges {T}.
Arguments cl_staticv6ranges {T}.
Arguments cl_dynamicv6ranges {T}.
Arguments cl_keys {T}.
Arguments cl_next {T}.

Section setters.
Context {T : Type}.
Abbreviation loc := (colthread_local_t T).
Definition set_cl_v4 v (l : loc) : loc :=
  Mkcolthread_local_t v l.(cl_v6) l.(cl_rtp) l.(cl_mirror) l.(cl_static) l.(cl_servers)
    l.(cl_staticv4ranges) l.(cl_staticv6ranges) l.(cl_dynamicv6ranges) l.(cl_keys) l.(cl_next).
Definition set_cl_v6 v (l : loc) : loc :=
  Mkcolthread_local_t l.(cl_v4) v l.(cl_rtp) l.(cl_mirror) l.(cl_static) l.(cl_servers)
    l.(cl_staticv4ranges) l.(cl_staticv6ranges) l.(cl_dynamicv6ranges) l.(cl_keys) l.(cl_next).
Definition set_cl_rtp v (l : loc) : loc :=
  Mkcolthread_local_t l.(cl_v4) l.(cl_v6) v l.(cl_mirror) l.(cl_static) l.(cl_servers)
    l.(cl_staticv4ranges) l.(cl_staticv6ranges) l.(cl_dynamicv6ranges) l.(cl_keys) l.(cl_next).
Definition set_cl_mirror v (l : loc) : loc :=
  Mkcolthread_local_t l.(cl_v4) l.(cl_v6) l.(cl_rtp) v l.(cl_static) l.(cl_servers)
    l.(cl_staticv4ranges) l.(cl_staticv6ranges) l.(cl_dynamicv6ranges) l.(cl_keys) l.(cl_next).
Definition set_cl_static v (l : loc) : loc :=
  Mkcolthread_local_t l.(cl_v4) l.(cl_v6) l.(cl_rtp) l.(cl_mirror) v l.(cl_servers)
    l.(cl_staticv4ranges) l.(cl_staticv6ranges) l.(cl_dynamicv6ranges) l.(cl_keys) l.(cl_next).
Definition set_cl_servers v (l : loc) : loc :=
  Mkcolthread_local_t l.(cl_v4) l.(cl_v6) l.(cl_rtp) l.(cl_mirror) l.(cl_static) v
    l.(cl_staticv4ranges) l.(cl_staticv6ranges) l.(cl_dynamicv6ranges) l.(cl_keys) l.(cl_next).
Definition set_cl_keys k n (l : loc) : loc :=
  Mkcolthread_local_t l.(cl_v4) l.(cl_v6) l.(cl_rtp) l.(cl_mirror) l.(cl_static)
    l.(cl_servers) l.(cl_staticv4ranges) l.(cl_staticv6ranges) l.(cl_dynamicv6ranges) k n.
End setters.

(** The three trees. *)
Inductive tree_name : Type := Staticv4 | Staticv6 | Dynamicv6.
#[global] Instance tree_name_eq_dec : EqDecision tree_name.
Proof. solve_decision. Defined.
Definition get_tree {T} (w : tree_name) (l : colthread_local_t T) : T :=
  match w with
  | Staticv4 => l.(cl_staticv4ranges)
  | Staticv6 => l.(cl_staticv6ranges)
  | Dynamicv6 => l.(cl_dynamicv6ranges)
  end.
Definition set_tree {T} (w : tree_name) (t : T) (l : colthread_local_t T) : colthread_local_t T :=
  Mkcolthread_local_t l.(cl_v4) l.(cl_v6) l.(cl_rtp) l.(cl_mirror) l.(cl_static) l.(cl_servers)
    (if decide (w = Staticv4) then t else l.(cl_staticv4ranges))
    (if decide (w = Staticv6) then t else l.(cl_staticv6ranges))
    (if decide (w = Dynamicv6) then t else l.(cl_dynamicv6ranges)) l.(cl_keys) l.(cl_next).

(** ** Changing what is known about an intercept *)

(** [update_intercept_common]: the copy that is thrown away gets the old strings. *)
Definition update_intercept_common (found replace : intercept_common_t) : intercept_common_t :=
  {| ic_liid := found.(ic_liid); ic_authcc := replace.(ic_authcc);
     ic_delivcc := replace.(ic_delivcc); ic_liid_len := found.(ic_liid_len);
     ic_authcc_len := replace.(ic_authcc_len); ic_delivcc_len := replace.(ic_delivcc_len);
     ic_destid := found.(ic_destid); ic_targetagency := found.(ic_targetagency);
     ic_seqtrackerid := found.(ic_seqtrackerid); ic_hi1_seqno := found.(ic_hi1_seqno);
     ic_tostart_time := replace.(ic_tostart_time); ic_toend_time := replace.(ic_toend_time);
     ic_tomediate := replace.(ic_tomediate); ic_encrypt := replace.(ic_encrypt);
     ic_encryptkey := replace.(ic_encryptkey) |}.

Definition set_ps_common (c : intercept_common_t) (s : ipsession_t) : ipsession_t :=
  Mkipsession_t s.(ps_streamkey) s.(ps_cin) s.(ps_ai_family) s.(ps_targetip) s.(ps_prefixlen)
    s.(ps_nextseqno) s.(ps_accesstype) c.
Definition set_vm_common (c : intercept_common_t) (v : vendmirror_intercept_t)
    : vendmirror_intercept_t := Mkvendmirror_intercept_t v.(vm_addr) v.(vm_sessionid) c.
Definition set_vl_intercepts x (v : vendmirror_intercept_list_t) : vendmirror_intercept_list_t :=
  Mkvendmirror_intercept_list_t v.(vl_keyaddr) x.
Definition set_t6_intercepts x (t : ipv6_target_t) : ipv6_target_t :=
  Mkipv6_target_t t.(t6_address) t.(t6_prefixlen) x.

(** A session replaces one that has its name. *)
Definition replace_session (sess : ipsession_t) (l : list (bytes * ipsession_t))
    : list (bytes * ipsession_t) :=
  hash_add sess.(ps_streamkey) sess (hash_delete sess.(ps_streamkey) l).

Section push.
Context {T : Type} `{!Patricia T liid_table}.
Context (ascii2prefix : bytes → option prefix_t) (inet_ntop6 : bytes → bytes).
Abbreviation loc := (colthread_local_t T).

(** ** Ranges *)

(** [add_iprange_to_patricia] *)
Definition add_iprange_to_patricia (w : tree_name) (iprangestr : bytes)
    (common : intercept_common_t) (cin : Z) (l : loc) : outcome (Z * loc) :=
  match ascii2prefix iprangestr with
  | None => Ok (-1, l)
  | Some prefix =>
      let all := default [] (pt_get prefix (get_tree w l)) in
      k ← liid_key common;
      match hash_find k all with
      | Some _ => Ok (0, l)
      | None =>
          liid ← c_str common.(ic_liid);
          let found := Mkliid_set_t liid cin (stream_name 127 liid cin) l.(cl_next) in
          match pt_put prefix (hash_add liid found all) (get_tree w l) with
          | None => Ok (-1, l)
          | Some t =>
              Ok (1, set_tree w t
                       (set_cl_keys ({[l.(cl_next)]} ∪ l.(cl_keys)) (l.(cl_next) + 1) l))
          end
      end
  end.

(** [remove_iprange_from_patricia] *)
Definition remove_iprange_from_patricia (w : tree_name) (iprangestr : bytes)
    (common : intercept_common_t) (l : loc) : outcome loc :=
  match ascii2prefix iprangestr with
  | None => Ok l
  | Some prefix =>
      match pt_get prefix (get_tree w l) with
      | None => Ok l
      | Some all =>
          k ← liid_key common;
          match hash_find k all with
          | None => Ok l
          | Some found =>
              let all := hash_delete k all in
              let t := if decide (all = []) then Some (pt_remove prefix (get_tree w l))
                       else pt_put prefix all (get_tree w l) in
              Ok (set_tree w (default (get_tree w l) t)
                    (set_cl_keys (l.(cl_keys) ∖ {[found.(ls_keyaddr)]}) l.(cl_next) l))
          end
      end
  end.

(** ** Addresses of sessions *)

(** [add_ipv4_intercept]: the answer is 0 or -1. *)
Definition add_ipv4_intercept (sess : ipsession_t) (l : loc) : Z * loc :=
  match sess.(ps_targetip) with
  | None => (-1, l)
  | Some v4addr =>
      match hash_find v4addr l.(cl_v4) with
      | None => (0, set_cl_v4 (hash_add v4addr (replace_session sess []) l.(cl_v4)) l)
      | Some tgt => (0, set_cl_v4 (hash_update v4addr (replace_session sess tgt) l.(cl_v4)) l)
      end
  end.

(** The text of an IPv6 prefix. *)
Definition prefix_string (addr : bytes) (prefixlen : Z) : bytes :=
  snprintf 100 (inet_ntop6 addr ++ 47 :: print_u prefixlen).

(** [add_ipv6_intercept] *)
Definition add_ipv6_intercept (sess : ipsession_t) (l : loc) : outcome (Z * loc) :=
  match sess.(ps_targetip) with
  | None => Ok (-1, l)
  | Some addr =>
      let prefixstr := prefix_string addr sess.(ps_prefixlen) in
      '(r, l) ← add_iprange_to_patricia Dynamicv6 prefixstr sess.(ps_common) sess.(ps_cin) l;
      if r <? 0 then Ok (-1, l)
      else
        match hash_find prefixstr l.(cl_v6) with
        | None =>
            let tgt := Mkipv6_target_t addr sess.(ps_prefixlen) (replace_session sess []) in
            Ok (0, set_cl_v6 (hash_add prefixstr tgt l.(cl_v6)) l)
        | Some tgt =>
            let tgt := set_t6_intercepts (replace_session sess tgt.(t6_intercepts)) tgt in
            Ok (0, set_cl_v6 (hash_update prefixstr tgt l.(cl_v6)) l)
        end
  end.

(** [find_ipv4_intercept]: the address, the sessions there, and the session. *)
Definition find_ipv4_intercept (tofind : ipsession_t) (l : loc)
    : option (bytes * list (bytes * ipsession_t) * ipsession_t) :=
  v4addr ← tofind.(ps_targetip);
  v4 ← hash_find v4addr l.(cl_v4);
  found ← hash_find tofind.(ps_streamkey) v4;
  Some (v4addr, v4, found).

(** [update_ipv4_intercept] *)
Definition update_ipv4_intercept (toup : ipsession_t) (l : loc) : Z * loc :=
  match find_ipv4_intercept toup l with
  | None => (0, l)
  | Some (v4addr, v4, found) =>
      let found := set_ps_common (update_intercept_common found.(ps_common) toup.(ps_common)) found in
      (1, set_cl_v4 (hash_update v4addr (hash_update toup.(ps_streamkey) found v4) l.(cl_v4)) l)
  end.

(** [remove_ipv4_intercept] *)
Definition remove_ipv4_intercept (torem : ipsession_t) (l : loc) : Z * loc :=
  match find_ipv4_intercept torem l with
  | None => (0, l)
  | Some (v4addr, v4, _) =>
      let v4 := hash_delete torem.(ps_streamkey) v4 in
      (1, set_cl_v4 (if decide (v4 = []) then hash_delete v4addr l.(cl_v4)
                     else hash_update v4addr v4 l.(cl_v4)) l)
  end.

(** [find_ipv6_intercept] *)
Definition find_ipv6_intercept (tofind : ipsession_t) (l : loc)
    : option (bytes * ipv6_target_t * ipsession_t) :=
  addr ← tofind.(ps_targetip);
  let prefixstr := prefix_string addr tofind.(ps_prefixlen) in
  v6 ← hash_find prefixstr l.(cl_v6);
  found ← hash_find tofind.(ps_streamkey) v6.(t6_intercepts);
  Some (prefixstr, v6, found).

(** [update_ipv6_intercept] *)
Definition update_ipv6_intercept (toup : ipsession_t) (l : loc) : Z * loc :=
  match find_ipv6_intercept toup l with
  | None => (0, l)
  | Some (prefixstr, v6, found) =>
      let found := set_ps_common (update_intercept_common found.(ps_common) toup.(ps_common)) found in
      let v6 := set_t6_intercepts (hash_update toup.(ps_streamkey) found v6.(t6_intercepts)) v6 in
      (1, set_cl_v6 (hash_update prefixstr v6 l.(cl_v6)) l)
  end.

(** [remove_ipv6_intercept] *)
Definition remove_ipv6_intercept (torem : ipsession_t) (l : loc) : outcome (Z * loc) :=
  match find_ipv6_intercept torem l with
  | None => Ok (0, l)
  | Some (prefixstr, v6, found) =>
      l ← remove_iprange_from_patricia Dynamicv6 prefixstr found.(ps_common) l;
      let rest := hash_delete torem.(ps_streamkey) v6.(t6_intercepts) in
      Ok (1, set_cl_v6 (if decide (rest = []) then hash_delete prefixstr l.(cl_v6)
                        else hash_update prefixstr (set_t6_intercepts rest v6) l.(cl_v6)) l)
  end.

(** [handle_push_ipintercept] *)
Definition handle_push_ipintercept (sess : ipsession_t) (l : loc) : outcome loc :=
  if sess.(ps_ai_family) =? AF_INET then Ok (add_ipv4_intercept sess l).2
  else if sess.(ps_ai_family) =? AF_INET6 then r ← add_ipv6_intercept sess l; Ok r.2
  else Ok l.

(** [handle_halt_ipintercept] *)
Definition handle_halt_ipintercept (sess : ipsession_t) (l : loc) : outcome loc :=
  if sess.(ps_ai_family) =? AF_INET then Ok (remove_ipv4_intercept sess l).2
  else if sess.(ps_ai_family) =? AF_INET6 then r ← remove_ipv6_intercept sess l; Ok r.2
  else Ok l.

(** [handle_change_ipint_intercept] *)
Definition handle_change_ipint_intercept (sess : ipsession_t) (l : loc) : loc :=
  if sess.(ps_ai_family) =? AF_INET then (update_ipv4_intercept sess l).2
  else if sess.(ps_ai_family) =? AF_INET6 then (update_ipv6_intercept sess l).2
  else l.

(** ** Vendor mirrors *)

(** [HASH_FIND] on [activemirrorintercepts]: the key is in an intercept of the list. *)
Definition find_mirror (sessionid : Z) (l : loc) : outcome (option vendmirror_intercept_list_t) :=
  match hash_find sessionid l.(cl_mirror) with
  | None => Ok None
  | Some v =>
      if decide (v.(vl_keyaddr) ∈ (λ e, e.2.(vm_addr)) <$> v.(vl_intercepts)) then Ok (Some v)
      else Undef
  end.

(** [handle_push_mirror_intercept] *)
Definition handle_push_mirror_intercept (vmi : vendmirror_intercept_t) (l : loc) : outcome loc :=
  found ← find_mirror vmi.(vm_sessionid) l;
  k ← liid_key vmi.(vm_common);
  match found with
  | None =>
      Ok (set_cl_mirror (hash_add vmi.(vm_sessionid)
                           (Mkvendmirror_intercept_list_t vmi.(vm_addr) [(k, vmi)]) l.(cl_mirror)) l)
  | Some vmilist =>
      match hash_find k vmilist.(vl_intercepts) with
      | Some _ => Ok l
      | None =>
          let vmilist := set_vl_intercepts (hash_add k vmi vmilist.(vl_intercepts)) vmilist in
          Ok (set_cl_mirror (hash_update vmi.(vm_sessionid) vmilist l.(cl_mirror)) l)
      end
  end.

(** [handle_halt_mirror_intercept] *)
Definition handle_halt_mirror_intercept (vmi : vendmirror_intercept_t) (l : loc) : outcome loc :=
  found ← find_mirror vmi.(vm_sessionid) l;
  match found with
  | None => Ok l
  | Some parent =>
      k ← liid_key vmi.(vm_common);
      match hash_find k parent.(vl_intercepts) with
      | None => Ok l
      | Some _ =>
          let rest := hash_delete k parent.(vl_intercepts) in
          Ok (set_cl_mirror
                (if decide (rest = []) then hash_delete vmi.(vm_sessionid) l.(cl_mirror)
                 else hash_update vmi.(vm_sessionid) (set_vl_intercepts rest parent) l.(cl_mirror)) l)
      end
  end.

(** [handle_change_vendmirror_intercept] *)
Definition handle_change_vendmirror_intercept (vend : vendmirror_intercept_t) (l : loc)
    : outcome loc :=
  found ← find_mirror vend.(vm_sessionid) l;
  match found with
  | None => Ok l
  | Some parent =>
      k ← liid_key vend.(vm_common);
      match hash_find k parent.(vl_intercepts) with
      | None => Ok l
      | Some found =>
          let found := set_vm_common (update_intercept_common found.(vm_common) vend.(vm_common)) found in
          let parent := set_vl_intercepts (hash_update k found parent.(vl_intercepts)) parent in
          Ok (set_cl_mirror (hash_update vend.(vm_sessionid) parent l.(cl_mirror)) l)
      end
  end.

(** ** Media streams *)

(** [remove_rtp_stream] *)
Definition remove_rtp_stream (rtpstreamkey : bytes) (l : loc) : Z * loc :=
  match hash_find rtpstreamkey l.(cl_rtp) with
  | None => (0, l)
  | Some _ => (1, set_cl_rtp (hash_delete rtpstreamkey l.(cl_rtp)) l)
  end.

(** [handle_push_ipmmintercept] *)
Definition handle_push_ipmmintercept (rtp : rtpstreaminf_t) (l : loc) : outcome loc :=
  k ← c_str rtp.(rt_streamkey);
  let l := (remove_rtp_stream k l).2 in
  Ok (set_cl_rtp (hash_add k rtp l.(cl_rtp)) l).

(** [handle_halt_ipmmintercept] *)
Definition handle_halt_ipmmintercept (streamkey : bytes) (l : loc) : loc :=
  (remove_rtp_stream streamkey l).2.

(** [handle_change_voip_intercept] *)
Definition handle_change_voip_intercept (tochange : rtpstreaminf_t) (l : loc) : loc :=
  match tochange.(rt_streamkey) with
  | None => l
  | Some s =>
      match hash_find (until_nul s) l.(cl_rtp) with
      | None => l
      | Some rtp =>
          let rtp := set_rt_common (update_intercept_common rtp.(rt_common) tochange.(rt_common)) rtp in
          set_cl_rtp (hash_update (until_nul s) rtp l.(cl_rtp)) l
      end
  end.

(** ** Servers *)

(** The types that have a list. *)
Definition has_server_list (servertype : Z) : bool :=
  existsb (λ t, servertype =? core_server_code t)
    [OPENLI_CORE_SERVER_RADIUS; OPENLI_CORE_SERVER_SIP; OPENLI_CORE_SERVER_SMTP;
     OPENLI_CORE_SERVER_IMAP; OPENLI_CORE_SERVER_POP3; OPENLI_CORE_SERVER_GTP].
Definition set_server_list (servertype : Z) (v : server_list) (l : loc) : loc :=
  set_cl_servers (λ t, if decide (t = servertype) then v else l.(cl_servers) t) l.

(** [handle_push_coreserver] *)
Definition handle_push_coreserver (cs : coreserver_t) (l : loc) : outcome loc :=
  let type := cs.(cs_servertype) in
  if has_server_list type then
    k ← c_str cs.(cs_serverkey);
    servlist ← use_list (l.(cl_servers) type);
    match hash_find k servlist with
    | None => Ok (set_server_list type (Some (hash_add k (Mkserver_entry cs None) servlist)) l)
    | Some _ => Ok l
    end
  else Ok l.

(** [handle_remove_coreserver] *)
Definition handle_remove_coreserver (cs : coreserver_t) (l : loc) : outcome loc :=
  let type := cs.(cs_servertype) in
  if has_server_list type then
    k ← c_str cs.(cs_serverkey);
    servlist ← use_list (l.(cl_servers) type);
    Ok (set_server_list type (Some (hash_delete k servlist)) l)
  else Ok l.

(** ** Static ranges *)

(** [HASH_FIND] on [activestaticintercepts]. *)
Definition find_static (k : bytes) (l : loc) : outcome (option static_entry) :=
  match hash_find k l.(cl_static) with
  | None => Ok None
  | Some e =>
      match e.(se_keyaddr) with
      | Some a => if decide (a ∈ l.(cl_keys)) then Ok (Some e) else Undef
      | None => Ok (Some e)
      end
  end.

(** A range has a colon if it is an IPv6 range. *)
Definition range_tree (rangestr : bytes) : tree_name :=
  if decide (58 ∈ rangestr) then Staticv6 else Staticv4.

(** One reference more to a session, which is added if it is not there. *)
Definition reference_static (keyaddr : option Z) (k : bytes) (ipr : staticipsession_t) (l : loc)
    : outcome loc :=
  found ← find_static k l;
  Ok match found with
     | None =>
         set_cl_static (hash_add k (Mkstatic_entry keyaddr (set_si_references 1 ipr)) l.(cl_static)) l
     | Some e =>
         let s := set_si_references (u32 (e.(se_session).(si_references) + 1)) e.(se_session) in
         set_cl_static (hash_update k (Mkstatic_entry e.(se_keyaddr) s) l.(cl_static)) l
     end.

(** One reference less. *)
Definition release_static (k : bytes) (l : loc) : outcome loc :=
  found ← find_static k l;
  Ok match found with
     | None => l
     | Some e =>
         let n := u32 (e.(se_session).(si_references) - 1) in
         if n =? 0 then set_cl_static (hash_delete k l.(cl_static)) l
         else set_cl_static (hash_update k (Mkstatic_entry e.(se_keyaddr)
                                              (set_si_references n e.(se_session))) l.(cl_static)) l
     end.

(** [handle_iprange] *)
Definition handle_iprange (ipr : staticipsession_t) (l : loc) : outcome loc :=
  '(r, l) ← add_iprange_to_patricia (range_tree ipr.(si_rangestr)) ipr.(si_rangestr)
              ipr.(si_common) ipr.(si_cin) l;
  if r <=? 0 then Ok l else reference_static None ipr.(si_key) ipr l.

(** The tree of a prefix, in [handle_modify_iprange]. *)
Definition prefix_tree (p : prefix_t) : option tree_name :=
  if p.(pf_family) =? AF_INET then Some Staticv4
  else if p.(pf_family) =? AF_INET6 then Some Staticv6
  else None.

(** [handle_modify_iprange]: the range of a LIID gets another CIN. *)
Definition handle_modify_iprange (ipr : staticipsession_t) (l : loc) : outcome loc :=
  match ascii2prefix ipr.(si_rangestr) with
  | None => Ok l
  | Some prefix =>
      match prefix_tree prefix with
      | None => Ok l
      | Some w =>
          match pt_get prefix (get_tree w l) with
          | None => Ok l
          | Some all =>
              k ← liid_key ipr.(si_common);
              match hash_find k all with
              | None => Ok l
              | Some found =>
                  l ← release_static found.(ls_key) l;
                  let key := stream_name 127 found.(ls_liid) ipr.(si_cin) in
                  let a := l.(cl_next) in
                  let found' := Mkliid_set_t found.(ls_liid) ipr.(si_cin) key a in
                  let keys := {[a]} ∪ (l.(cl_keys) ∖ {[found.(ls_keyaddr)]}) in
                  let t := default (get_tree w l)
                             (pt_put prefix (hash_update k found' all) (get_tree w l)) in
                  reference_static (Some a) key ipr
                    (set_tree w t (set_cl_keys keys (a + 1) l))
              end
          end
      end
  end.

(** [handle_remove_iprange] *)
Definition handle_remove_iprange (ipr : staticipsession_t) (l : loc) : outcome loc :=
  l ← remove_iprange_from_patricia (range_tree ipr.(si_rangestr)) ipr.(si_rangestr)
        ipr.(si_common) l;
  release_static ipr.(si_key) l.

(** [handle_change_iprange_intercept] *)
Definition handle_change_iprange_intercept (ipr : staticipsession_t) (l : loc) : outcome loc :=
  found ← find_static ipr.(si_key) l;
  Ok match found with
     | None => l
     | Some e =>
         let s := set_si_common (update_intercept_common e.(se_session).(si_common) ipr.(si_common))
                    e.(se_session) in
         set_cl_static (hash_update ipr.(si_key) (Mkstatic_entry e.(se_keyaddr) s) l.(cl_static)) l
     end.

(** ** A message *)

(** [process_incoming_messages] *)
Definition process_incoming_messages (syncpush : openli_pushed_t) (l : loc) : outcome loc :=
  match syncpush with
  | OPENLI_PUSH_IPINTERCEPT s => handle_push_ipintercept s l
  | OPENLI_PUSH_HALT_IPINTERCEPT s => handle_halt_ipintercept s l
  | OPENLI_PUSH_IPMMINTERCEPT r => handle_push_ipmmintercept r l
  | OPENLI_PUSH_HALT_IPMMINTERCEPT k => Ok (handle_halt_ipmmintercept k l)
  | OPENLI_PUSH_CORESERVER c => handle_push_coreserver c l
  | OPENLI_PUSH_REMOVE_CORESERVER c => handle_remove_coreserver c l
  | OPENLI_PUSH_VENDMIRROR_INTERCEPT v => handle_push_mirror_intercept v l
  | OPENLI_PUSH_HALT_VENDMIRROR_INTERCEPT v => handle_halt_mirror_intercept v l
  | OPENLI_PUSH_IPRANGE r => handle_iprange r l
  | OPENLI_PUSH_REMOVE_IPRANGE r => handle_remove_iprange r l
  | OPENLI_PUSH_MODIFY_IPRANGE r => handle_modify_iprange r l
  | OPENLI_PUSH_UPDATE_VOIPINTERCEPT r => Ok (handle_change_voip_intercept r l)
  | OPENLI_PUSH_UPDATE_IPINTERCEPT s => Ok (handle_change_ipint_intercept s l)
  | OPENLI_PUSH_UPDATE_VENDMIRROR_INTERCEPT v => handle_change_vendmirror_intercept v l
  | OPENLI_PUSH_UPDATE_IPRANGE_INTERCEPT r => handle_change_iprange_intercept r l
  end.

(** The messages of a queue, in order. *)
Fixpoint process_queue (q : list openli_pushed_t) (l : loc) : outcome loc :=
  match q with
  | [] => Ok l
  | m :: q => l ← process_incoming_messages m l; process_queue q l
  end.
End push.
