(* ===== verification/PacketContents.v ===== *)
(** * Packets and intercepts
      (src/src/collector/ipcc.c, ipmmcc.c, collector_publish.c, src/src/coreserver.c, util.c)

    Every packet is compared with the tables of the thread; one job is published for
    every intercept it belongs to.  A packet is what libtrace says about it: the bytes
    from the IP header on, the protocol and the bytes of the transport header, the payload
    of a UDP packet. *)

From stdpp Require Import gmap.
From S2P Require Import Prelude Intercept Publish AccessSession HashTable IpSession CoreServer ThreadTables.

Definition TRACE_IPPROTO_UDP : Z := 17.
Definition ETSI_DIR_FROM_TARGET : Z := 0.
Definition ETSI_DIR_TO_TARGET : Z := 1.
Definition sizeof_libtrace_ip_t : Z := 20.
Definition sizeof_libtrace_ip6_t : Z := 40.

Record libtrace_packet_t : Type := Mklibtrace_packet_t {
  lp_layer3 : bytes;
  lp_timeval : Z;
  lp_transport : option (Z * bytes);
  lp_udp_payload : option bytes;
}.

(** A job with communication content: [openli_export_recv_t] with its [ipcc] member. *)
Record ipcc_job : Type := Mkipcc_job {
  cj_type : openli_export_type;
  cj_destid : Z;
  cj_liid : bytes;
  cj_cin : Z;
  cj_dir : Z;
  cj_ipcontent : bytes;
}.
Definition set_cj_type (t : openli_export_type) (j : ipcc_job) : ipcc_job :=
  Mkipcc_job t j.(cj_destid) j.(cj_liid) j.(cj_cin) j.(cj_dir) j.(cj_ipcontent).

(** [create_ipcc_job]: no job without content. *)
Definition create_ipcc_job (cin : Z) (liid : cstring) (destid : Z) (pkt : libtrace_packet_t)
    (dir : Z) : outcome (option ipcc_job) :=
  liid ← c_str liid;
  Ok (if zlen pkt.(lp_layer3) =? 0 then None
      else Some (Mkipcc_job OPENLI_EXPORT_IPCC destid liid cin dir pkt.(lp_layer3))).

(** The conditions for content at the time of a packet. *)
Definition cc_wanted (common : intercept_common_t) (tv : Z) : bool :=
  negb (common.(ic_tomediate) =? OPENLI_INTERCEPT_OUTPUTS_IRIONLY) &&
  negb (tv <? common.(ic_tostart_time)) &&
  negb ((0 <? common.(ic_toend_time)) && (common.(ic_toend_time) <=? tv)).

(** The loop over the sessions of an address: how many matched, and the jobs. *)
Fixpoint session_contents (l : list (bytes * ipsession_t)) (tv : Z) (pkt : libtrace_packet_t)
    (dir : Z) : outcome (Z * list ipcc_job) :=
  match l with
  | [] => Ok (0, [])
  | (_, sess) :: l =>
      if cc_wanted sess.(ps_common) tv then
        job ← create_ipcc_job sess.(ps_cin) sess.(ps_common).(ic_liid) sess.(ps_common).(ic_destid)
                pkt dir;
        let job := if sess.(ps_accesstype) =? INTERNET_ACCESS_TYPE_MOBILE
                   then set_cj_type OPENLI_EXPORT_UMTSCC <$> job else job in
        '(n, jobs) ← session_contents l tv pkt dir;
        Ok (1 + n, option_list job ++ jobs)
      else session_contents l tv pkt dir
  end.

(** [sockaddr_match]; the second test is for [AF_INET] again. *)
Definition sockaddr_match (family : Z) (a b : bytes) : bool :=
  if family =? AF_INET then bool_decide (ztake 4 a = ztake 4 b) else false.

Section contents.
Context {T : Type} `{!Patricia T liid_table}.
Abbreviation loc := (colthread_local_t T).

(** ** Internet access *)

(** The intercepts of one prefix in [lookup_static_ranges]. *)
Fixpoint static_contents (all : liid_table) (tv : Z) (pkt : libtrace_packet_t) (dir : Z)
    (l : loc) : outcome (Z * list ipcc_job) :=
  match all with
  | [] => Ok (0, [])
  | (_, sliid) :: all =>
      found ← find_static sliid.(ls_key) l;
      '(n, jobs) ←
        match found with
        | None => Ok (0, [])
        | Some e =>
            let matchsess := e.(se_session) in
            if cc_wanted matchsess.(si_common) tv then
              job ← create_ipcc_job matchsess.(si_cin) matchsess.(si_common).(ic_liid)
                      matchsess.(si_common).(ic_destid) pkt dir;
              match job with Some j => Ok (1, [j]) | None => Undef end
            else Ok (0, [])
        end;
      '(n', jobs') ← static_contents all tv pkt dir l;
      Ok (n + n', jobs ++ jobs')
  end.

(** The loop over the node and its parents. *)
Fixpoint along_path (f : liid_table → outcome (Z * list ipcc_job)) (path : list liid_table)
    : outcome (Z * list ipcc_job) :=
  match path with
  | [] => Ok (0, [])
  | all :: path =>
      '(n, jobs) ← f all;
      '(n', jobs') ← along_path f path;
      Ok (n + n', jobs ++ jobs')
  end.

(** The prefix of one address. *)
Definition host_prefix (family : Z) (addr : bytes) : prefix_t :=
  Mkprefix_t family (if family =? AF_INET then 32 else 128) addr.

(** [lookup_static_ranges] *)
Definition lookup_static_ranges (addr : bytes) (family : Z) (pkt : libtrace_packet_t)
    (dir : Z) (l : loc) (tv : Z) : outcome (Z * list ipcc_job) :=
  let tree := if family =? AF_INET then l.(cl_staticv4ranges) else l.(cl_staticv6ranges) in
  along_path (λ all, static_contents all tv pkt dir l) (pt_path (host_prefix family addr) tree).

(** The intercepts of one prefix in [singlev6_conn_contents]: the key of the intercept
    is looked up in [activeipv6intercepts]. *)
Fixpoint dynamic_contents (all : liid_table) (tv : Z) (pkt : libtrace_packet_t) (l : loc)
    : outcome (Z * list ipcc_job) :=
  match all with
  | [] => Ok (0, [])
  | (_, sliid) :: all =>
      '(n, jobs) ← match hash_find sliid.(ls_key) l.(cl_v6) with
                   | None => Ok (0, [])
                   | Some tgt => session_contents tgt.(t6_intercepts) tv pkt 0
                   end;
      '(n', jobs') ← dynamic_contents all tv pkt l;
      Ok (n + n', jobs ++ jobs')
  end.

(** [singlev6_conn_contents] *)
Definition singlev6_conn_contents (addr : bytes) (l : loc) (pkt : libtrace_packet_t) (tv : Z)
    : outcome (Z * list ipcc_job) :=
  along_path (λ all, dynamic_contents all tv pkt l)
    (pt_path (host_prefix AF_INET6 addr) l.(cl_dynamicv6ranges)).

(** Four searches, one after the other. *)
Definition all_contents (a b c d : outcome (Z * list ipcc_job)) : outcome (Z * list ipcc_job) :=
  '(n1, j1) ← a; '(n2, j2) ← b; '(n3, j3) ← c; '(n4, j4) ← d;
  Ok (n1 + n2 + n3 + n4, j1 ++ j2 ++ j3 ++ j4).

(** [ipv6_comm_contents] *)
Definition ipv6_comm_contents (pkt : libtrace_packet_t) (pinfo : packet_info_t) (l : loc)
    : outcome (Z * list ipcc_job) :=
  if zlen pkt.(lp_layer3) <? sizeof_libtrace_ip6_t then Ok (0, [])
  else
    all_contents
      (singlev6_conn_contents pinfo.(pi_srcip) l pkt pinfo.(pi_tv))
      (singlev6_conn_contents pinfo.(pi_destip) l pkt pinfo.(pi_tv))
      (lookup_static_ranges pinfo.(pi_srcip) AF_INET6 pkt 0 l pinfo.(pi_tv))
      (lookup_static_ranges pinfo.(pi_destip) AF_INET6 pkt 1 l pinfo.(pi_tv)).

(** The sessions of an IPv4 address. *)
Definition v4_contents (addr : bytes) (dir : Z) (pkt : libtrace_packet_t) (tv : Z) (l : loc)
    : outcome (Z * list ipcc_job) :=
  match hash_find addr l.(cl_v4) with
  | None => Ok (0, [])
  | Some tgt => session_contents tgt tv pkt dir
  end.

(** [ipv4_comm_contents] *)
Definition ipv4_comm_contents (pkt : libtrace_packet_t) (pinfo : packet_info_t) (l : loc)
    : outcome (Z * list ipcc_job) :=
  if zlen pkt.(lp_layer3) <? sizeof_libtrace_ip_t then Ok (0, [])
  else
    all_contents
      (v4_contents pinfo.(pi_srcip) 0 pkt pinfo.(pi_tv) l)
      (v4_contents pinfo.(pi_destip) 1 pkt pinfo.(pi_tv) l)
      (lookup_static_ranges pinfo.(pi_srcip) AF_INET pkt 0 l pinfo.(pi_tv))
      (lookup_static_ranges pinfo.(pi_destip) AF_INET pkt 1 l pinfo.(pi_tv)).

(** ** Media streams *)

(** [is_rtp_comfort_noise] *)
Definition is_rtp_comfort_noise (pkt : libtrace_packet_t) : Z :=
  match pkt.(lp_transport), pkt.(lp_udp_payload) with
  | Some (proto, _), Some pl =>
      if negb (proto =? TRACE_IPPROTO_UDP) || (zlen pl <? 12) then 0
      else if bool_decide (pl !! 1%nat = Some 0x0d) then 1 else 0
  | _, _ => 0
  end.

(** [match_rtp_stream]: whether a stream matches, and what is known about comfort
    noise. *)
Fixpoint match_rtp_stream (rtp : rtpstreaminf_t) (tgt other : bytes) (ms : list sipmediastream)
    (porta portb : Z) (ipa ipb : bytes) (is_comfort : Z) (pkt : libtrace_packet_t) : bool * Z :=
  match ms with
  | [] => (false, is_comfort)
  | m :: ms =>
      if (((m.(sm_targetport) =? porta) && (m.(sm_otherport) =? portb)) ||
          ((m.(sm_targetport) + 1 =? porta) && (m.(sm_otherport) + 1 =? portb))) &&
         (sockaddr_match rtp.(rt_ai_family) ipa tgt && sockaddr_match rtp.(rt_ai_family) ipb other)
      then
        if rtp.(rt_skip_comfort) =? 0 then (true, is_comfort)
        else
          let is_comfort := if is_comfort =? 255 then is_rtp_comfort_noise pkt else is_comfort in
          (negb (is_comfort =? 1), is_comfort)
      else match_rtp_stream rtp tgt other ms porta portb ipa ipb is_comfort pkt
  end.

(** A job for a media stream: [msg->type] is written without a test for NULL. *)
Definition ipmmcc_job (rtp : rtpstreaminf_t) (pkt : libtrace_packet_t) (dir : Z)
    : outcome ipcc_job :=
  job ← create_ipcc_job rtp.(rt_cin) rtp.(rt_common).(ic_liid) rtp.(rt_common).(ic_destid) pkt dir;
  match job with Some j => Ok (set_cj_type OPENLI_EXPORT_IPMMCC j) | None => Undef end.

(** The loop of [generic_mm_comm_contents]. *)
Fixpoint mm_contents (rtps : list (bytes * rtpstreaminf_t)) (pkt : libtrace_packet_t)
    (pinfo : packet_info_t) (is_comfort : Z) : outcome (Z * list ipcc_job) :=
  match rtps with
  | [] => Ok (0, [])
  | (_, rtp) :: rtps =>
      match rtp.(rt_targetaddr), rtp.(rt_otheraddr) with
      | Some tgt, Some other =>
          if negb (rtp.(rt_active) =? 0) && (pinfo.(pi_family) =? rtp.(rt_ai_family)) &&
             cc_wanted rtp.(rt_common) pkt.(lp_timeval)
          then
            let '(from, is_comfort) :=
              match_rtp_stream rtp tgt other rtp.(rt_mediastreams) pinfo.(pi_srcport)
                pinfo.(pi_destport) pinfo.(pi_srcip) pinfo.(pi_destip) is_comfort pkt in
            if from : bool then
              j ← ipmmcc_job rtp pkt ETSI_DIR_FROM_TARGET;
              '(n, jobs) ← mm_contents rtps pkt pinfo is_comfort;
              Ok (1 + n, j :: jobs)
            else
              let '(to, is_comfort) :=
                match_rtp_stream rtp tgt other rtp.(rt_mediastreams) pinfo.(pi_destport)
                  pinfo.(pi_srcport) pinfo.(pi_destip) pinfo.(pi_srcip) is_comfort pkt in
              if to : bool then
                j ← ipmmcc_job rtp pkt ETSI_DIR_TO_TARGET;
                '(n, jobs) ← mm_contents rtps pkt pinfo is_comfort;
                Ok (1 + n, j :: jobs)
              else mm_contents rtps pkt pinfo is_comfort
          else mm_contents rtps pkt pinfo is_comfort
      | _, _ => mm_contents rtps pkt pinfo is_comfort
      end
  end.

(** [ip4mm_comm_contents] and [ip6mm_comm_contents], by the size of the header and
    the protocol the header names. *)
Definition mm_comm_contents (headersize ip_p : Z) (pkt : libtrace_packet_t)
    (pinfo : packet_info_t) (l : loc) : outcome (Z * list ipcc_job) :=
  if (zlen pkt.(lp_layer3) <? headersize) || negb (ip_p =? TRACE_IPPROTO_UDP) ||
     (pinfo.(pi_srcport) =? 0) || (pinfo.(pi_destport) =? 0)
  then Ok (0, [])
  else mm_contents l.(cl_rtp) pkt pinfo 255.
Definition ip4mm_comm_contents := mm_comm_contents sizeof_libtrace_ip_t.
Definition ip6mm_comm_contents := mm_comm_contents sizeof_libtrace_ip6_t.
End contents.
