(* ===== verification/PacketProcess.v ===== *)
(** * The path of a packet through a processing thread
      (src/src/collector/collector.c, alushim_parser.c, jmirror_parser.c)

    [process_packet] is called by libtrace for every packet.  It handles the messages
    that wait in the queues of the thread, finds addresses and ports (of fragments with
    the help of the reassembler), sends the packets of known servers to the
    synchronisation threads and the email workers, unwraps the packets of vendor mirrors,
    and publishes a job for every intercept that the packet belongs to.

    What leaves the thread is a list of [packet_effect]s.  The functions of libtrace that
    take the headers in front of a mirrored packet apart are parameters. *)

From stdpp Require Import gmap.
From S2P Require Import Prelude Libraries ByteOrder Intercept Publish AccessSession JenkinsHash HashTable.
From S2P Require Import IpReassembly IpSession CoreServer ThreadTables PacketContents.

Definition TRACE_ETHERTYPE_IP : Z := 0x0800.
Definition TRACE_ETHERTYPE_IPV6 : Z := 0x86DD.
Definition TRACE_ETHERTYPE_8021Q : Z := 0x8100.
Definition TRACE_ETHERTYPE_MPLS : Z := 0x8847.
Definition TRACE_ETHERTYPE_PPP_SES : Z := 0x8864.
Definition TRACE_ETHERTYPE_ARP : Z := 0x0806.
Definition TRACE_IPPROTO_TCP : Z := 6.
Definition ETSI_DIR_INDETERMINATE : Z := 2.

(** What libtrace says about a packet, for [process_packet]; no layer 3 header is an
    empty one. *)
Record captured : Type := Mkcaptured {
  cp_packet : libtrace_packet_t;
  cp_ethertype : Z;
  cp_fragoff : Z;
  cp_moreflag : bool;
  cp_fragment : frag_packet;
  cp_ip6_payload : option bytes;
  cp_payload_length : Z;
}.

Inductive sync_queue : Type := Tosync_ip | Tosync_voip | Email_worker (n : Z).
Inductive update_type : Type :=
  | OPENLI_UPDATE_RADIUS | OPENLI_UPDATE_SIP | OPENLI_UPDATE_GTP | OPENLI_UPDATE_SMTP
  | OPENLI_UPDATE_IMAP | OPENLI_UPDATE_POP3.
Inductive counter : Type :=
  | Ipcc_created | Ipmmcc_created | Packets_sync_email | Packets_sync_ip | Packets_sync_voip
  | Packets_intercepted.

Inductive packet_effect : Type :=
  | Published (j : ipcc_job)
  | Sent (q : sync_queue) (t : update_type)
  | Counted (c : counter) (n : Z).

(** ** Vendor mirrors *)

Definition be32 (b : bytes) : outcome Z := v ← read_le 4 b; Ok (ntohl v).

(** [alushim_get_interceptid] *)
Definition alushim_get_interceptid (intid : Z) : Z :=
  if Z.land intid 0xc0000000 =? 0 then Z.land intid 0x3fffffff
  else if Z.land intid 0xc0000000 =? 0x40000000 then Z.land intid 0x1fffffff
  else Z.land intid 0x3fffffff.

(** [alushim_get_direction] *)
Definition alushim_get_direction (intid : Z) : Z :=
  if Z.land intid 0xc0000000 =? 0 then 2
  else if Z.land intid 0xe0000000 =? 0x40000000 then 0
  else if Z.land intid 0xe0000000 =? 0x60000000 then 1
  else 2.

(** [jmirror_get_interceptid] *)
Definition jmirror_get_interceptid (intid : Z) : Z := Z.land intid 0x3fffffff.

(** When a mirrored packet is exported. *)
Definition mirror_wanted (common : intercept_common_t) (tv : Z) : bool :=
  negb (tv <? common.(ic_tostart_time)) &&
  negb ((0 <? common.(ic_toend_time)) && (common.(ic_toend_time) <? tv)).

(** The loop over the intercepts of a mirror's id, with [push_alu_ipcc_job] or
    [push_jmirror_ipcc_job]. *)
Fixpoint mirror_jobs (l : list (bytes * vendmirror_intercept_t)) (tv cin dir : Z) (content : bytes)
    : outcome (list ipcc_job) :=
  match l with
  | [] => Ok []
  | (_, cept) :: l =>
      if mirror_wanted cept.(vm_common) tv then
        liid ← c_str cept.(vm_common).(ic_liid);
        jobs ← mirror_jobs l tv cin dir content;
        Ok (Mkipcc_job OPENLI_EXPORT_IPCC cept.(vm_common).(ic_destid) liid cin dir content :: jobs)
      else mirror_jobs l tv cin dir content
  end.

(** [get_udp_payload] of util.c, without the ports. *)
Definition udp_payload (pkt : libtrace_packet_t) : option bytes :=
  match pkt.(lp_transport) with
  | Some (proto, transport) =>
      if (zlen transport <? 8) || negb (proto =? TRACE_IPPROTO_UDP) then None
      else pkt.(lp_udp_payload)
  | None => None
  end.

Section process.
Context {T : Type} `{!Patricia T liid_table} {HS : HashSort}.
Context (ascii2prefix : bytes → option prefix_t) (inet_ntop6 : bytes → bytes).
Context (populate_addrinfo : cstring → cstring → option addrinfo).
(** What follows a header: its type and the bytes. *)
Context (payload_from_layer2 payload_from_vlan payload_from_mpls payload_from_pppoe :
           bytes → option (Z * bytes)).
Abbreviation loc := (colthread_local_t T).

(** The loop of [check_alu_intercept] that looks for an IP header: [None] is the
    [return 0].  Every header takes a byte at least; running out of [fuel] is [Undef]. *)
Fixpoint strip_headers (fuel : nat) (l3 : option (Z * bytes)) : outcome (option (option bytes)) :=
  match fuel with
  | O => Undef
  | S fuel =>
      match l3 with
      | None => Ok (Some None)
      | Some (ethertype, b) =>
          if zlen b =? 0 then Ok (Some None)
          else if ethertype =? TRACE_ETHERTYPE_8021Q then strip_headers fuel (payload_from_vlan b)
          else if ethertype =? TRACE_ETHERTYPE_MPLS then
            match payload_from_mpls b with
            | Some (0, b) => strip_headers fuel (payload_from_layer2 b)
            | r => strip_headers fuel r
            end
          else if ethertype =? TRACE_ETHERTYPE_PPP_SES then strip_headers fuel (payload_from_pppoe b)
          else if (ethertype =? TRACE_ETHERTYPE_IP) || (ethertype =? TRACE_ETHERTYPE_IPV6)
          then Ok (Some (Some b))
          else Ok None
      end
  end.

(** [check_alu_intercept]: the answer, the jobs and the list of mirrors. *)
Definition check_alu_intercept (pkt : libtrace_packet_t) (pinfo : packet_info_t)
    (alusources : server_list) (l : loc) : outcome (Z * list ipcc_job * server_list) :=
  '(cs, alusources) ← match_packet_to_coreserver populate_addrinfo alusources pinfo;
  match cs, udp_payload pkt with
  | Some _, Some payload =>
      if zlen payload <? 8 then Ok (0, [], alusources)
      else
        intid ← be32 payload;
        vmilist ← find_mirror (alushim_get_interceptid intid) l;
        match vmilist with
        | None => Ok (0, [], alusources)
        | Some v =>
            inner ← strip_headers (S (length payload)) (payload_from_layer2 (zdrop 8 payload));
            match inner with
            | None => Ok (0, [], alusources)
            | Some None => Ok (-1, [], alusources)
            | Some (Some content) =>
                cin ← be32 (zdrop 4 payload);
                jobs ← mirror_jobs v.(vl_intercepts) pinfo.(pi_tv) cin
                         (alushim_get_direction intid) content;
                Ok (1, jobs, alusources)
            end
        end
  | _, _ => Ok (0, [], alusources)
  end.

(** [check_jmirror_intercept] *)
Definition check_jmirror_intercept (pkt : libtrace_packet_t) (pinfo : packet_info_t)
    (jmirror_sources : server_list) (l : loc) : outcome (Z * list ipcc_job * server_list) :=
  '(cs, jmirror_sources) ← match_packet_to_coreserver populate_addrinfo jmirror_sources pinfo;
  match cs, udp_payload pkt with
  | Some _, Some payload =>
      if zlen payload <? 8 then Ok (0, [], jmirror_sources)
      else
        intid ← be32 payload;
        vmilist ← find_mirror (jmirror_get_interceptid intid) l;
        match vmilist with
        | None => Ok (0, [], jmirror_sources)
        | Some v =>
            let content := zdrop 8 payload in
            if zlen content =? 0 then Ok (0, [], jmirror_sources)
            else
              cin ← be32 (zdrop 4 payload);
              jobs ← mirror_jobs v.(vl_intercepts) pinfo.(pi_tv) cin ETSI_DIR_INDETERMINATE content;
              Ok (1, jobs, jmirror_sources)
        end
  | _, _ => Ok (0, [], jmirror_sources)
  end.

(** ** SIP or STUN *)

(** [check_for_invalid_sip] *)
Definition check_for_invalid_sip (p : captured) : outcome bool :=
  if 0 <? p.(cp_fragoff) then Ok false
  else
    match p.(cp_packet).(lp_transport) with
    | None => Ok true
    | Some (proto, transport) =>
        if zlen transport =? 0 then Ok true
        else if proto =? TRACE_IPPROTO_UDP then
          match p.(cp_packet).(lp_udp_payload) with
          | None => Ok true
          | Some payload =>
              if zlen payload =? 0 then Ok true
              else
                fourbytes ← be32 payload;
                Ok ((Z.land fourbytes 0xffff =? u32 (p.(cp_payload_length) - 20)) &&
                    existsb (λ m, Z.land fourbytes 0xffff0000 =? m)
                      [0x00010000; 0x01010000; 0x01110000; 0x00030000; 0x01030000; 0x01130000])
          end
        else Ok false
    end.

(** ** Headers *)

(** The state of a thread, with the lists of mirrors, which all threads share. *)
Record thread_state : Type := Mkthread_state {
  ts_loc : loc;
  ts_fragreass : ipfrag_reassembler_t;
  ts_alumirrors : server_list;
  ts_jmirrors : server_list;
}.
Definition set_ts_loc (l : loc) (s : thread_state) : thread_state :=
  Mkthread_state l s.(ts_fragreass) s.(ts_alumirrors) s.(ts_jmirrors).
Definition set_ts_fragreass (r : ipfrag_reassembler_t) (s : thread_state) : thread_state :=
  Mkthread_state s.(ts_loc) r s.(ts_alumirrors) s.(ts_jmirrors).
Definition set_ts_alumirrors (m : server_list) (s : thread_state) : thread_state :=
  Mkthread_state s.(ts_loc) s.(ts_fragreass) m s.(ts_jmirrors).
Definition set_ts_jmirrors (m : server_list) (s : thread_state) : thread_state :=
  Mkthread_state s.(ts_loc) s.(ts_fragreass) s.(ts_alumirrors) m.

(** Two bytes in network order. *)
Definition be16 (b : bytes) : outcome Z := v ← read_le 2 b; Ok (ntohs v).

(** The two ports at the start of a transport header. *)
Definition read_ports (b : bytes) : outcome (Z * Z) :=
  s ← be16 b; d ← be16 (zdrop 2 b); Ok (s, d).

(** What [process_packet] takes from the headers: addresses, ports and the protocol,
    or [None] where it returns at once. *)
Definition ipv4_info (p : captured) (s : thread_state)
    : outcome (option (packet_info_t * Z) * thread_state) :=
  let l3 := p.(cp_packet).(lp_layer3) in
  b0 ← read_le 1 l3;
  let ip_hl := Z.land b0 0xf in
  if zlen l3 <? 4 * ip_hl then Ok (None, s)
  else
    src ← read_bytes 4 (zdrop 12 l3);
    dst ← read_bytes 4 (zdrop 16 l3);
    ip_p ← read_le 1 (zdrop 9 l3);
    let info ports := Mkpacket_info_t AF_INET src dst ports.1 ports.2 p.(cp_packet).(lp_timeval) in
    if p.(cp_moreflag) || (0 <? p.(cp_fragoff)) then
      '(r, reass) ← process_fragment s.(ts_fragreass) p.(cp_fragment) p.(cp_fragoff) p.(cp_moreflag);
      let s := set_ts_fragreass reass s in
      Ok (match r with
          | None => None
          | Some ports => Some (info ports, if zlen l3 <=? 4 * ip_hl then 0 else ip_p)
          end, s)
    else
      ports ← read_ports (zdrop (4 * ip_hl) l3);
      Ok (Some (info ports, ip_p), s).

Definition ipv6_info (p : captured) : outcome (packet_info_t * Z) :=
  let l3 := p.(cp_packet).(lp_layer3) in
  match p.(cp_ip6_payload) with
  | None => Undef
  | Some postip6 =>
      ports ← read_ports postip6;
      nxt ← read_le 1 (zdrop 6 l3);
      src ← read_bytes 16 (zdrop 8 l3);
      dst ← read_bytes 16 (zdrop 24 l3);
      Ok (Mkpacket_info_t AF_INET6 src dst ports.1 ports.2 p.(cp_packet).(lp_timeval), nxt)
  end.

Definition packet_info (p : captured) (s : thread_state)
    : outcome (option (packet_info_t * Z) * thread_state) :=
  if p.(cp_ethertype) =? TRACE_ETHERTYPE_IP then ipv4_info p s
  else if p.(cp_ethertype) =? TRACE_ETHERTYPE_IPV6 then i ← ipv6_info p; Ok (Some i, s)
  else Ok (Some (Mkpacket_info_t 0 [] [] 0 0 p.(cp_packet).(lp_timeval), 0), s).

(** ** Servers and mirrors *)

(** Is it a packet of a server of some type? *)
Definition server_packet (type : core_server_type) (pinfo : packet_info_t) (s : thread_state)
    : outcome (Z * thread_state) :=
  '(h, servers) ← is_core_server_packet populate_addrinfo pinfo (s.(ts_loc).(cl_servers) type);
  Ok (h, set_ts_loc (set_server_list type servers s.(ts_loc)) s).

(** A mirrored packet is counted once, whatever was published. *)
Definition mirrored (jobs : list ipcc_job) : list packet_effect :=
  map Published jobs ++ [Counted Ipcc_created 1; Counted Packets_intercepted 1].

(** The checks for UDP packets: the effects, and whether the packet is done. *)
Definition udp_checks (p : captured) (pinfo : packet_info_t) (s : thread_state)
    : outcome (list packet_effect * list packet_effect * bool * thread_state) :=
  '(r, jobs, m) ← check_alu_intercept p.(cp_packet) pinfo s.(ts_alumirrors) s.(ts_loc);
  let s := set_ts_alumirrors m s in
  if negb (r =? 0) then Ok (mirrored jobs, [], true, s)
  else
    '(r, jobs, m) ← check_jmirror_intercept p.(cp_packet) pinfo s.(ts_jmirrors) s.(ts_loc);
    let s := set_ts_jmirrors m s in
    if negb (r =? 0) then Ok (mirrored jobs, [], true, s)
    else
      '(h, s) ← server_packet OPENLI_CORE_SERVER_RADIUS pinfo s;
      if negb (h =? 0)
      then Ok ([Sent Tosync_ip OPENLI_UPDATE_RADIUS], [Counted Packets_sync_ip 1], true, s)
      else
        '(h, s) ← server_packet OPENLI_CORE_SERVER_GTP pinfo s;
        if negb (h =? 0)
        then Ok ([Sent Tosync_ip OPENLI_UPDATE_GTP], [Counted Packets_sync_ip 1], true, s)
        else
          '(h, s) ← server_packet OPENLI_CORE_SERVER_SIP pinfo s;
          if negb (h =? 0) then
            invalid ← check_for_invalid_sip p;
            if invalid : bool then Ok ([], [], false, s)
            else Ok ([Sent Tosync_voip OPENLI_UPDATE_SIP], [Counted Packets_sync_voip 1], false, s)
          else Ok ([], [], false, s).

(** [send_packet_to_emailworker]: the worker of a server. *)
Definition email_worker (hashval qcount : Z) : outcome sync_queue :=
  if qcount =? 0 then Undef else Ok (Email_worker ((hashval - 1) mod qcount)).

Fixpoint email_checks (email_threads : Z) (l : list (core_server_type * update_type))
    (pinfo : packet_info_t) (s : thread_state)
    : outcome (list packet_effect * list packet_effect * thread_state) :=
  match l with
  | [] => Ok ([], [], s)
  | (type, update) :: l =>
      '(h, s) ← server_packet type pinfo s;
      if negb (h =? 0) then
        q ← email_worker h email_threads;
        Ok ([Sent q update], [Counted Packets_sync_email 1], s)
      else email_checks email_threads l pinfo s
  end.

(** The checks for TCP packets. *)
Definition tcp_checks (email_threads : Z) (pinfo : packet_info_t) (s : thread_state)
    : outcome (list packet_effect * list packet_effect * thread_state) :=
  '(h, s) ← server_packet OPENLI_CORE_SERVER_SIP pinfo s;
  if negb (h =? 0)
  then Ok ([Sent Tosync_voip OPENLI_UPDATE_SIP], [Counted Packets_sync_voip 1], s)
  else email_checks email_threads
         [(OPENLI_CORE_SERVER_SMTP, OPENLI_UPDATE_SMTP); (OPENLI_CORE_SERVER_IMAP, OPENLI_UPDATE_IMAP);
          (OPENLI_CORE_SERVER_POP3, OPENLI_UPDATE_POP3)] pinfo s.

(** ** Contents *)

Definition counted (c : counter) (r : Z * list ipcc_job) : list packet_effect :=
  map Published r.2 ++ if r.1 =? 0 then [] else [Counted c r.1].

Definition packet_contents (p : captured) (pinfo : packet_info_t) (proto : Z) (l : loc)
    : outcome (list packet_effect * Z) :=
  let l3 := p.(cp_packet).(lp_layer3) in
  if p.(cp_ethertype) =? TRACE_ETHERTYPE_IP then
    cc ← ipv4_comm_contents p.(cp_packet) pinfo l;
    ip_p ← read_le 1 (zdrop 9 l3);
    mm ← (if proto =? TRACE_IPPROTO_UDP then ip4mm_comm_contents ip_p p.(cp_packet) pinfo l
          else Ok (0, []));
    Ok (counted Ipcc_created cc ++ counted Ipmmcc_created mm, cc.1 + mm.1)
  else if p.(cp_ethertype) =? TRACE_ETHERTYPE_IPV6 then
    cc ← ipv6_comm_contents p.(cp_packet) pinfo l;
    nxt ← read_le 1 (zdrop 6 l3);
    mm ← (if proto =? TRACE_IPPROTO_UDP then ip6mm_comm_contents nxt p.(cp_packet) pinfo l
          else Ok (0, []));
    Ok (counted Ipcc_created cc ++ counted Ipmmcc_created mm, cc.1 + mm.1)
  else Ok ([], 0).

(** ** A packet *)

Definition handle_packet_body (email_threads : Z) (p : captured) (s : thread_state)
    : outcome (list packet_effect * thread_state) :=
  if zlen p.(cp_packet).(lp_layer3) =? 0 then Ok ([], s)
  else
    '(i, s) ← packet_info p s;
    match i with
    | None => Ok ([], s)
    | Some (pinfo, proto) =>
        '(effects, counts, finished, s) ←
          (if proto =? TRACE_IPPROTO_UDP then udp_checks p pinfo s
           else if proto =? TRACE_IPPROTO_TCP then
             '(e, c, s) ← tcp_checks email_threads pinfo s; Ok (e, c, false, s)
           else Ok ([], [], false, s));
        if finished : bool then Ok (effects ++ counts, s)
        else
          '(contents, n) ← packet_contents p pinfo proto s.(ts_loc);
          Ok (effects ++ contents ++ counts ++
              (if n =? 0 then [] else [Counted Packets_intercepted 1]), s)
    end.

(** [process_packet]: the messages of the two queues, then the packet. *)
Definition process_packet (email_threads : Z) (fromsyncq_ip fromsyncq_voip : list openli_pushed_t)
    (p : captured) (s : thread_state) : outcome (list packet_effect * thread_state) :=
  l ← process_queue ascii2prefix inet_ntop6 fromsyncq_ip s.(ts_loc);
  l ← process_queue ascii2prefix inet_ntop6 fromsyncq_voip l;
  handle_packet_body email_threads p (set_ts_loc l s).
End process.
