(* ===== verification/ThreadProps.v ===== *)
(** * What a packet processing thread intercepts

    The tables of the thread refine a finite map from addresses and streams to sessions
    that is changed by the messages, and the content that is published for a packet is
    that of the sessions in the map.  Intercepts of IPv6 addresses are in the tables but
    are not found there. *)

From stdpp Require Import gmap.
From S2P Require Import Prelude Intercept Publish AccessSession HashTable IpSession CoreServer ThreadTables PacketContents.

(** ** The abstract state: what is intercepted, by address and stream *)

Abbreviation active_map := (gmap (bytes * bytes) ipsession_t).

(** A change at the IPv4 address and the stream of a session. *)
Definition at_v4 (a : active_map) (s : ipsession_t) (f : bytes * bytes → active_map) : active_map :=
  match s.(ps_targetip) with
  | Some addr => if s.(ps_ai_family) =? AF_INET then f (addr, s.(ps_streamkey)) else a
  | None => a
  end.

(** What a message changes. *)
Definition active_step (a : active_map) (m : openli_pushed_t) : active_map :=
  match m with
  | OPENLI_PUSH_IPINTERCEPT s => at_v4 a s (λ k, <[k := s]> a)
  | OPENLI_PUSH_HALT_IPINTERCEPT s => at_v4 a s (λ k, delete k a)
  | OPENLI_PUSH_UPDATE_IPINTERCEPT s =>
      at_v4 a s (λ k, alter (λ x, set_ps_common (update_intercept_common x.(ps_common) s.(ps_common)) x) k a)
  | _ => a
  end.

Section v4.
Context {T : Type}.
Abbreviation loc := (colthread_local_t T).
Abbreviation v4_table := (list (bytes * list (bytes * ipsession_t))).

(** The session of a stream at an address. *)
Definition v4_lookup (t : v4_table) (addr key : bytes) : option ipsession_t :=
  sessions ← hash_find addr t; hash_find key sessions.

(** The two levels have distinct keys, sessions are entered under their names, and no
    address is without sessions. *)
Record v4_ok (t : v4_table) : Prop := {
  vo_keys : table_ok t;
  vo_sessions addr ss : hash_find addr t = Some ss → table_ok ss ∧ ss ≠ [];
}.

(** A table that says what the abstract state says. *)
Record v4_refines (t : v4_table) (a : active_map) : Prop := {
  vr_ok : v4_ok t;
  vr_lookup addr key : v4_lookup t addr key = a !! (addr, key);
}.

Lemma replace_session_ok s ss : table_ok ss → table_ok (replace_session s ss).
Proof.
  intros H. unfold replace_session. apply hash_add_ok; [by apply hash_delete_ok|].
  rewrite hash_find_delete. by rewrite decide_True.
Qed.
Lemma replace_session_find s ss key :
  hash_find key (replace_session s ss) =
  if decide (key = s.(ps_streamkey)) then Some s else hash_find key ss.
Proof.
  unfold replace_session. rewrite hash_find_add.
  - rewrite hash_find_delete. by destruct (decide _).
  - rewrite hash_find_delete. by rewrite decide_True.
Qed.
Lemma replace_session_nonempty s ss : replace_session s ss ≠ [].
Proof. unfold replace_session, hash_add. by destruct (hash_delete _ _). Qed.

(** Changing the sessions of one address. *)
Lemma v4_refines_put t a addr ss' a' old :
  v4_refines t a → hash_find addr t = old → table_ok ss' → ss' ≠ [] →
  (∀ key, hash_find key ss' = a' !! (addr, key)) →
  (∀ addr' key, addr' ≠ addr → a' !! (addr', key) = a !! (addr', key)) →
  v4_refines (match old with None => hash_add addr ss' t | Some _ => hash_update addr ss' t end) a'.
Proof.
  intros [[Hk Hs] Hl] Ho Hss Hne Hput Hother.
  set (t' := match old with None => _ | Some _ => _ end).
  assert (Hfind : ∀ addr', hash_find addr' t' = if decide (addr' = addr) then Some ss' else hash_find addr' t).
  { intros addr'. unfold t'. destruct old as [o|]; [by apply (hash_find_update _ _ _ o)|by apply hash_find_add]. }
  split; [split|].
  - unfold t'. destruct old; [by apply hash_update_ok|by apply hash_add_ok].
  - intros addr' ss. rewrite Hfind. destruct (decide _); [by intros [= <-]|apply Hs].
  - intros addr' key. unfold v4_lookup. rewrite Hfind. destruct (decide (addr' = addr)) as [->|Hne'].
    + apply Hput.
    + rewrite Hother by done. apply Hl.
Qed.
Lemma v4_refines_drop t a addr a' :
  v4_refines t a → (∀ key, a' !! (addr, key) = None) →
  (∀ addr' key, addr' ≠ addr → a' !! (addr', key) = a !! (addr', key)) →
  v4_refines (hash_delete addr t) a'.
Proof.
  intros [[Hk Hs] Hl] Hnone Hother. split; [split|].
  - by apply hash_delete_ok.
  - intros addr' ss. rewrite hash_find_delete. destruct (decide _); [done|apply Hs].
  - intros addr' key. unfold v4_lookup. rewrite hash_find_delete.
    destruct (decide (addr' = addr)) as [->|]; [symmetry; apply Hnone|]. rewrite Hother by done. apply Hl.
Qed.

Lemma add_ipv4_refines sess (l : loc) a :
  v4_refines l.(cl_v4) a → sess.(ps_ai_family) = AF_INET →
  v4_refines (add_ipv4_intercept sess l).2.(cl_v4) (active_step a (OPENLI_PUSH_IPINTERCEPT sess)).
Proof.
  intros Hr Hf. unfold add_ipv4_intercept, active_step, at_v4. rewrite Hf.
  destruct sess.(ps_targetip) as [addr|]; [|done]. rewrite Z.eqb_refl.
  set (ss := default [] (hash_find addr l.(cl_v4))).
  assert (table_ok ss) as Hss.
  { unfold ss. destruct (hash_find addr _) eqn:E; simpl; [by eapply vo_sessions, E; apply Hr|auto]. }
  pose proof (v4_refines_put l.(cl_v4) a addr (replace_session sess ss)
                (<[(addr, sess.(ps_streamkey)) := sess]> a) _ Hr eq_refl) as Hput.
  assert (v4_refines (match hash_find addr l.(cl_v4) with
                      | None => hash_add addr (replace_session sess ss) l.(cl_v4)
                      | Some _ => hash_update addr (replace_session sess ss) l.(cl_v4) end)
            (<[(addr, sess.(ps_streamkey)) := sess]> a)) as H.
  { apply Hput; [by apply replace_session_ok|apply replace_session_nonempty| |].
    - intros key. rewrite replace_session_find. destruct (decide _) as [->|Hne].
      + by rewrite lookup_insert_eq.
      + rewrite lookup_insert_ne by congruence. rewrite <- (vr_lookup _ _ Hr). unfold v4_lookup, ss.
        by destruct (hash_find addr _).
    - intros addr' key Hne. by rewrite lookup_insert_ne by congruence. }
  unfold ss in H. by destruct (hash_find addr l.(cl_v4)).
Qed.

Lemma find_ipv4_spec s (l : loc) a :
  v4_refines l.(cl_v4) a →
  match find_ipv4_intercept s l with
  | Some (addr, ss, found) =>
      s.(ps_targetip) = Some addr ∧ hash_find addr l.(cl_v4) = Some ss ∧
      hash_find s.(ps_streamkey) ss = Some found ∧ a !! (addr, s.(ps_streamkey)) = Some found
  | None => ∀ addr, s.(ps_targetip) = Some addr → a !! (addr, s.(ps_streamkey)) = None
  end.
Proof.
  intros Hr. unfold find_ipv4_intercept. destruct s.(ps_targetip) as [addr|]; [|done].
  cbn [mbind option_bind]. pose proof (vr_lookup _ _ Hr addr s.(ps_streamkey)) as Hl. unfold v4_lookup in Hl.
  destruct (hash_find addr l.(cl_v4)) as [ss|] eqn:Hss; cbn [mbind option_bind] in *.
  - destruct (hash_find s.(ps_streamkey) ss) as [found|] eqn:Hf; cbn; [by rewrite <- Hl|].
    intros ? [= <-]. by rewrite <- Hl.
  - intros ? [= <-]. by rewrite <- Hl.
Qed.

Lemma remove_ipv4_refines sess (l : loc) a :
  v4_refines l.(cl_v4) a → sess.(ps_ai_family) = AF_INET →
  v4_refines (remove_ipv4_intercept sess l).2.(cl_v4) (active_step a (OPENLI_PUSH_HALT_IPINTERCEPT sess)).
Proof.
  intros Hr Hf. pose proof (find_ipv4_spec sess l a Hr) as Hfind.
  unfold remove_ipv4_intercept, active_step, at_v4. rewrite Hf.
  destruct (find_ipv4_intercept sess l) as [[[addr ss] found]|].
  - destruct Hfind as (-> & Hss & Hfound & Ha). rewrite Z.eqb_refl.
    destruct (vo_sessions _ (vr_ok _ _ Hr) addr ss Hss) as [Hok _].
    assert (Hkeys : ∀ key, hash_find key (hash_delete sess.(ps_streamkey) ss) =
                           delete (addr, sess.(ps_streamkey)) a !! (addr, key)).
    { intros key. rewrite hash_find_delete. destruct (decide _) as [->|Hne].
      - by rewrite lookup_delete_eq.
      - rewrite lookup_delete_ne by congruence. rewrite <- (vr_lookup _ _ Hr). unfold v4_lookup.
        by rewrite Hss. }
    cbn [snd set_cl_v4 cl_v4]. destruct (decide (hash_delete _ ss = [])) as [E|Hne].
    + apply (v4_refines_drop _ a); [done| |].
      * intros key. rewrite <- Hkeys, E. done.
      * intros addr' key Hne. by rewrite lookup_delete_ne by congruence.
    + apply (v4_refines_put l.(cl_v4) a addr _ _ (Some ss)); auto.
      intros addr' key Hne'. by rewrite lookup_delete_ne by congruence.
  - destruct sess.(ps_targetip) as [addr|]; [|done]. rewrite Z.eqb_refl.
    rewrite delete_id by by apply Hfind. done.
Qed.

Lemma update_ipv4_refines sess (l : loc) a :
  v4_refines l.(cl_v4) a → sess.(ps_ai_family) = AF_INET →
  v4_refines (update_ipv4_intercept sess l).2.(cl_v4)
    (active_step a (OPENLI_PUSH_UPDATE_IPINTERCEPT sess)).
Proof.
  intros Hr Hf. pose proof (find_ipv4_spec sess l a Hr) as Hfind.
  unfold update_ipv4_intercept, active_step, at_v4. rewrite Hf.
  destruct (find_ipv4_intercept sess l) as [[[addr ss] found]|].
  - destruct Hfind as (-> & Hss & Hfound & Ha). rewrite Z.eqb_refl.
    destruct (vo_sessions _ (vr_ok _ _ Hr) addr ss Hss) as [Hok Hne].
    cbn [snd set_cl_v4 cl_v4].
    apply (v4_refines_put l.(cl_v4) a addr _ _ (Some ss)); auto.
    + unfold hash_update. by destruct ss.
    + intros key. rewrite (hash_find_update _ _ _ found) by done. destruct (decide _) as [->|Hnek].
      * by rewrite lookup_alter_eq, Ha.
      * rewrite lookup_alter_ne by congruence. rewrite <- (vr_lookup _ _ Hr). unfold v4_lookup. by rewrite Hss.
    + intros addr' key Hne'. by rewrite lookup_alter_ne by congruence.
  - destruct sess.(ps_targetip) as [addr|]; [|done]. rewrite Z.eqb_refl.
    rewrite alter_id; [done|]. intros x Hx. by rewrite Hfind in Hx.
Qed.
End v4.

(** ** Messages *)

Section messages.
Context {T : Type} `{!Patricia T liid_table}.
Context (ascii2prefix : bytes → option prefix_t) (inet_ntop6 : bytes → bytes).
Abbreviation loc := (colthread_local_t T).
Abbreviation process := (process_incoming_messages ascii2prefix inet_ntop6).

(** What belongs to the addresses of sessions. *)
Definition same_sessions (l l' : loc) : Prop :=
  l'.(cl_v4) = l.(cl_v4) ∧ l'.(cl_v6) = l.(cl_v6) ∧
  l'.(cl_dynamicv6ranges) = l.(cl_dynamicv6ranges).

Ltac frame :=
  repeat match goal with
    | H : (_ ≫= _) = Ok _ |- _ => apply bind_Ok in H as (? & ? & H)
    | H : (match ?x with _ => _ end) = Ok _ |- _ => destruct x eqn:?
    | H : (if ?x then _ else _) = Ok _ |- _ => destruct x eqn:?
    | H : Ok _ = Ok _ |- _ => injection H as H; subst
    | H : (_, _) = (_, _) |- _ => injection H as ? ?; subst
    end; try discriminate; try (by unfold same_sessions).

Lemma add_iprange_same w range common cin (l l' : loc) r :
  add_iprange_to_patricia ascii2prefix w range common cin l = Ok (r, l') → w ≠ Dynamicv6 →
  same_sessions l l'.
Proof. unfold add_iprange_to_patricia. intros H Hw. frame. by destruct w. Qed.
Lemma remove_iprange_same w range common (l l' : loc) :
  remove_iprange_from_patricia ascii2prefix w range common l = Ok l' → w ≠ Dynamicv6 →
  same_sessions l l'.
Proof. unfold remove_iprange_from_patricia. intros H Hw. frame; by destruct w. Qed.
Lemma reference_static_same a k ipr (l l' : loc) :
  reference_static a k ipr l = Ok l' → same_sessions l l'.
Proof. unfold reference_static. intros H. frame. by case_match. Qed.
Lemma release_static_same k (l l' : loc) : release_static k l = Ok l' → same_sessions l l'.
Proof. unfold release_static. intros H. frame. case_match; [case_match|]; done. Qed.
Lemma same_sessions_trans (l1 l2 l3 : loc) :
  same_sessions l1 l2 → same_sessions l2 l3 → same_sessions l1 l3.
Proof. intros (E1 & E2 & E3) (F1 & F2 & F3). split_and!; congruence. Qed.
Lemma range_tree_static range : range_tree range ≠ Dynamicv6.
Proof. unfold range_tree. by destruct (decide _). Qed.
Hint Resolve range_tree_static : core.

Definition is_session_message (m : openli_pushed_t) : bool :=
  match m with
  | OPENLI_PUSH_IPINTERCEPT _ | OPENLI_PUSH_HALT_IPINTERCEPT _ | OPENLI_PUSH_UPDATE_IPINTERCEPT _ => true
  | _ => false
  end.

(** The other messages leave the sessions alone. *)
Lemma other_message_same m (l l' : loc) :
  is_session_message m = false → process m l = Ok l' → same_sessions l l'.
Proof.
  destruct m; try done; intros _; cbn [process_incoming_messages].
  - unfold handle_push_ipmmintercept, remove_rtp_stream. intros H. frame. by case_match.
  - unfold handle_halt_ipmmintercept, remove_rtp_stream. intros [= <-]. by case_match.
  - unfold handle_push_coreserver. intros H. frame.
  - unfold handle_remove_coreserver. intros H. frame.
  - unfold handle_push_mirror_intercept. intros H. frame.
  - unfold handle_halt_mirror_intercept. intros H. frame.
  - unfold handle_iprange. intros ([r l1] & Ha & H)%bind_Ok.
    apply add_iprange_same in Ha; [|done]. destruct (r <=? 0); [by injection H as <-|].
    eapply same_sessions_trans; [exact Ha|by eapply reference_static_same].
  - unfold handle_remove_iprange. intros (l1 & Ha & H)%bind_Ok.
    apply remove_iprange_same in Ha; [|done].
    eapply same_sessions_trans; [exact Ha|by eapply release_static_same].
  - unfold handle_modify_iprange. destruct (ascii2prefix _) as [pr|]; [|by intros [= <-]].
    destruct (prefix_tree pr) as [w|] eqn:Hw; [|by intros [= <-]].
    assert (w ≠ Dynamicv6) as Hd by (unfold prefix_tree in Hw; by repeat case_match; simplify_eq).
    destruct (pt_get pr _) as [all|]; [|by intros [= <-]].
    intros (k & _ & H)%bind_Ok. destruct (hash_find k _); [|by injection H as <-].
    apply bind_Ok in H as (l1 & Hr & H). apply release_static_same in Hr.
    eapply same_sessions_trans; [exact Hr|].
    apply reference_static_same in H. eapply same_sessions_trans; [|exact H]. by destruct w.
  - unfold handle_change_voip_intercept. intros [= <-]. by repeat case_match.
  - unfold handle_change_vendmirror_intercept. intros H. frame.
  - unfold handle_change_iprange_intercept. intros H. frame. by case_match.
Qed.

(** Every message does to the table of IPv4 addresses what it does to the abstract
    state. *)
Lemma process_refines m (l l' : loc) a :
  v4_refines l.(cl_v4) a → process m l = Ok l' → v4_refines l'.(cl_v4) (active_step a m).
Proof.
  intros Hr H. destruct (is_session_message m) eqn:Hm.
  - assert (Hother : ∀ s f, s.(ps_ai_family) ≠ AF_INET → at_v4 a s f = a).
    { intros s f Hs. unfold at_v4. rewrite (proj2 (Z.eqb_neq _ _)) by done. by destruct s.(ps_targetip). }
    destruct m as [s|s| | | | | | | | | | |s| |]; try done; cbn [process_incoming_messages] in H.
    + unfold handle_push_ipintercept in H. destruct (Z.eqb_spec s.(ps_ai_family) AF_INET) as [E|E].
      * injection H as <-. by apply add_ipv4_refines.
      * unfold active_step. rewrite Hother by done. destruct (_ =? _); [|by injection H as <-].
        apply bind_Ok in H as ([r l1] & Ha & [= <-]). unfold add_ipv6_intercept in Ha.
        destruct s.(ps_targetip); [|by frame].
        apply bind_Ok in Ha as ([r1 l2] & Hp & Ha).
        assert (l2.(cl_v4) = l.(cl_v4)) as E2.
        { unfold add_iprange_to_patricia in Hp. frame. }
        cbn [snd]. destruct (r1 <? 0); [by frame; rewrite E2|].
        destruct (hash_find _ _); injection Ha as _ <-; cbn; by rewrite E2.
    + unfold handle_halt_ipintercept in H. destruct (Z.eqb_spec s.(ps_ai_family) AF_INET) as [E|E].
      * injection H as <-. by apply remove_ipv4_refines.
      * unfold active_step. rewrite Hother by done. destruct (_ =? _); [|by injection H as <-].
        apply bind_Ok in H as ([r l1] & Ha & [= <-]). unfold remove_ipv6_intercept in Ha.
        destruct (find_ipv6_intercept _ _ _) as [[[? ?] ?]|]; [|by frame].
        apply bind_Ok in Ha as (l2 & Hp & Ha).
        assert (l2.(cl_v4) = l.(cl_v4)) as E2.
        { unfold remove_iprange_from_patricia in Hp. frame. }
        injection Ha as _ <-. cbn. by rewrite E2.
    + injection H as <-. unfold handle_change_ipint_intercept.
      destruct (Z.eqb_spec s.(ps_ai_family) AF_INET) as [E|E]; [by apply update_ipv4_refines|].
      unfold active_step. rewrite Hother by done. destruct (_ =? _); [|done].
      unfold update_ipv6_intercept. destruct (find_ipv6_intercept _ _ _) as [[[? ?] ?]|]; done.
  - apply other_message_same in H as (Hv4 & _); [|done]. rewrite Hv4. by destruct m.
Qed.

Lemma process_queue_refines q (l l' : loc) a :
  v4_refines l.(cl_v4) a → process_queue ascii2prefix inet_ntop6 q l = Ok l' →
  v4_refines l'.(cl_v4) (foldl active_step a q).
Proof.
  revert l a. induction q as [|m q IH]; intros l a Hr H; cbn [process_queue] in H; [by injection H as <-|].
  apply bind_Ok in H as (l1 & Hm & H). cbn [foldl]. eapply IH; [|exact H]. by eapply process_refines.
Qed.
End messages.

(** ** Contents *)

(** The job of a session for a packet. *)
Definition session_job (sess : ipsession_t) (pkt : libtrace_packet_t) (dir : Z) : ipcc_job :=
  Mkipcc_job (if sess.(ps_accesstype) =? INTERNET_ACCESS_TYPE_MOBILE
              then OPENLI_EXPORT_UMTSCC else OPENLI_EXPORT_IPCC)
    sess.(ps_common).(ic_destid) (until_nul (default [] sess.(ps_common).(ic_liid))) sess.(ps_cin) dir
    pkt.(lp_layer3).

Definition has_liid (sess : ipsession_t) : Prop := is_Some sess.(ps_common).(ic_liid).
Definition message_ok (m : openli_pushed_t) : Prop :=
  match m with OPENLI_PUSH_IPINTERCEPT s => has_liid s | _ => True end.

Lemma session_contents_ok ss tv pkt dir :
  Forall (λ e, has_liid e.2) ss → 0 < zlen pkt.(lp_layer3) →
  let jobs := map (λ e, session_job e.2 pkt dir) (filter (λ e, cc_wanted e.2.(ps_common) tv = true) ss) in
  session_contents ss tv pkt dir = Ok (zlen jobs, jobs).
Proof.
  intros Hs Hp. induction Hs as [|[k s] ss [liid Hl] _ IH]; [done|]. cbn [session_contents snd] in *.
  rewrite filter_cons. destruct (cc_wanted s.(ps_common) tv) eqn:Hw; cbn [snd].
  - rewrite Hw, decide_True by done. unfold create_ipcc_job. rewrite Hl. run_outcome. cbn [c_str].
    rewrite (proj2 (Z.eqb_neq _ 0)) by lia. rewrite IH. run_outcome. cbn [map snd]. f_equal. f_equal.
    + unfold zlen. cbn [length]. lia.
    + unfold session_job. rewrite Hl. by destruct (_ =? _).
  - rewrite Hw, decide_False by done. exact IH.
Qed.

(** Every session that is intercepted has an LIID. *)
Lemma active_step_liid a m :
  map_Forall (λ _, has_liid) a → message_ok m → map_Forall (λ _, has_liid) (active_step a m).
Proof.
  intros Ha Hm. destruct m as [s|s| | | | | | | | | | |s| |]; try done; unfold active_step, at_v4;
    destruct s.(ps_targetip) as [addr|]; try done; destruct (_ =? _); try done.
  - by apply map_Forall_insert_2.
  - by apply map_Forall_delete.
  - intros k x Hx. apply lookup_alter_Some in Hx as [(_ & y & Hy & ->)|[_ Hy]]; [|by eapply Ha].
    exact (Ha _ _ Hy).
Qed.
Lemma active_liid q a :
  map_Forall (λ _, has_liid) a → Forall message_ok q → map_Forall (λ _, has_liid) (foldl active_step a q).
Proof.
  intros Ha Hq. revert a Ha. induction Hq as [|m q Hm _ IH]; intros a Ha; [done|].
  cbn [foldl]. by apply IH, active_step_liid.
Qed.

Lemma v4_contents_ok {T} (l : colthread_local_t T) a addr dir pkt tv :
  v4_refines l.(cl_v4) a → map_Forall (λ _, has_liid) a → 0 < zlen pkt.(lp_layer3) →
  ∃ jobs, v4_contents addr dir pkt tv l = Ok (zlen jobs, jobs) ∧
    ∀ j, j ∈ jobs ↔ ∃ key sess, a !! (addr, key) = Some sess ∧
      cc_wanted sess.(ps_common) tv = true ∧ j = session_job sess pkt dir.
Proof.
  intros [[_ Hs] Hl] Ha Hp. unfold v4_contents.
  assert (Hkey : ∀ key, v4_lookup l.(cl_v4) addr key = a !! (addr, key)) by (intros; apply Hl).
  unfold v4_lookup in Hkey. destruct (hash_find addr l.(cl_v4)) as [ss|] eqn:Hss.
  - destruct (Hs addr ss Hss) as [Hok _]. cbn [mbind option_bind] in Hkey.
    rewrite session_contents_ok; [|apply Forall_forall; intros [k s] Hin|done].
    + eexists. split; [done|]. intros j. rewrite list_elem_of_fmap. split.
      * intros ([k s] & -> & [Hw Hin]%list_elem_of_filter). exists k, s.
        rewrite <- Hkey. split; [by apply In_hash_find|done].
      * intros (k & s & Hk & Hw & ->). exists (k, s). split; [done|]. apply list_elem_of_filter.
        split; [done|]. apply hash_find_In. by rewrite Hkey.
    + apply In_hash_find in Hin; [|done]. rewrite Hkey in Hin. exact (Ha _ _ Hin).
  - exists []. split; [done|]. intros j. split; [by intros ?%not_elem_of_nil|].
    intros (k & s & Hk & _). by rewrite <- Hkey in Hk.
Qed.

(** ** IPv4 *)

Section follows.
Context {T : Type} `{!Patricia T liid_table}.
Context (ascii2prefix : bytes → option prefix_t) (inet_ntop6 : bytes → bytes).

(** C7: The content published for an IPv4 address is decided by the messages the thread
    has received and by nothing else: whatever messages came, for every packet with
    this address there is exactly a job for every stream that was pushed for the address
    and not halted, with the times and the kind of mediation of its last update, and only
    while the intercept is active and wants content. *)
Theorem content_follows_messages (q : list openli_pushed_t) (l0 l : colthread_local_t T)
    (addr : bytes) (dir tv : Z) (pkt : libtrace_packet_t) :
  l0.(cl_v4) = [] → process_queue ascii2prefix inet_ntop6 q l0 = Ok l →
  Forall message_ok q → 0 < zlen pkt.(lp_layer3) →
  ∃ jobs, v4_contents addr dir pkt tv l = Ok (zlen jobs, jobs) ∧
    ∀ j, j ∈ jobs ↔ ∃ key sess, foldl active_step ∅ q !! (addr, key) = Some sess ∧
      cc_wanted sess.(ps_common) tv = true ∧ j = session_job sess pkt dir.
Proof.
  intros H0 Hq Hok Hp. apply v4_contents_ok; [|apply active_liid; [apply map_Forall_empty|done]|done].
  eapply process_queue_refines; [|exact Hq]. rewrite H0. split; [split|].
  - apply table_ok_nil.
  - done.
  - intros. by rewrite lookup_empty.
Qed.
End follows.

(** ** IPv6 *)

Section v6.
Context {T : Type} `{!Patricia T liid_table}.
Context (ascii2prefix : bytes → option prefix_t) (inet_ntop6 : bytes → bytes).
Context (inet_ntop6_chars : ∀ a, 45 ∉ inet_ntop6 a).
Abbreviation loc := (colthread_local_t T).

(** The keys of the targets have no dash, the keys of the intercepts have one. *)
Record v6_apart (l : loc) : Prop := {
  va_targets : Forall (λ k, 45 ∉ k) l.(cl_v6).*1;
  va_keys p d : pt_get p l.(cl_dynamicv6ranges) = Some d → Forall (λ e, 45 ∈ e.2.(ls_key)) d;
}.

(** The LIID leaves room for the dash, and the length of the prefix is a number
    without a sign. *)
Definition short_liid (m : openli_pushed_t) : Prop :=
  match m with
  | OPENLI_PUSH_IPINTERCEPT s =>
      0 ≤ s.(ps_prefixlen) ∧
      ∀ liid, s.(ps_common).(ic_liid) = Some liid → zlen (until_nul liid) ≤ 115
  | _ => True
  end.

Lemma prefix_string_chars a n : 0 ≤ n → 45 ∉ prefix_string inet_ntop6 a n.
Proof.
  intros Hn Hin. unfold prefix_string, snprintf, ztake in Hin.
  apply subseteq_take in Hin.
  apply elem_of_app in Hin as [Hin|[|Hin]%elem_of_cons]; [by apply inet_ntop6_chars in Hin|done|].
  pose proof (decimal_digits_range 10 n Hn) as Hd. rewrite Forall_forall in Hd.
  specialize (Hd _ Hin). lia.
Qed.
Lemma stream_name_dash liid cin : zlen liid ≤ 115 → 45 ∈ stream_name 127 liid cin.
Proof.
  intros. rewrite stream_name_whole by lia. apply elem_of_app. right. apply list_elem_of_here.
Qed.

Lemma v6_apart_same (l l' : loc) : same_sessions l l' → v6_apart l → v6_apart l'.
Proof. intros (_ & E6 & Ed) [Ht Hk]. split; rewrite ?E6, ?Ed; done. Qed.

Lemma add_iprange_apart range common cin (l l' : loc) r :
  (∀ liid, common.(ic_liid) = Some liid → zlen (until_nul liid) ≤ 115) →
  v6_apart l → add_iprange_to_patricia ascii2prefix Dynamicv6 range common cin l = Ok (r, l') →
  v6_apart l' ∧ l'.(cl_v6) = l.(cl_v6).
Proof.
  intros Hl [Ht Hk] H. unfold add_iprange_to_patricia in H. cbn [get_tree] in H.
  destruct (ascii2prefix range) as [pr|]; [|by injection H as <- <-].
  apply bind_Ok in H as (k & _ & H). destruct (hash_find k _); [by injection H as <- <-|].
  apply bind_Ok in H as (liid & Hc & H). destruct (pt_put pr _ _) as [t|] eqn:Hput;
    [|by injection H as <- <-].
  injection H as <- <-. split; [|done]. split; [done|]. intros p d. cbn.
  rewrite (pt_get_put _ _ _ _ _ Hput). destruct (decide (p = pr)) as [->|]; [|apply Hk].
  intros [= <-]. unfold hash_add. apply Forall_app. split.
  - destruct (pt_get pr _) eqn:E; [by apply Hk in E|constructor].
  - constructor; [|constructor]. cbn. destruct common.(ic_liid) as [x|]; [|done].
    injection Hc as <-. by apply stream_name_dash, Hl.
Qed.

Lemma remove_iprange_apart range common (l l' : loc) :
  v6_apart l → remove_iprange_from_patricia ascii2prefix Dynamicv6 range common l = Ok l' →
  v6_apart l' ∧ l'.(cl_v6) = l.(cl_v6).
Proof.
  intros [Ht Hk] H. unfold remove_iprange_from_patricia in H. cbn [get_tree] in H.
  destruct (ascii2prefix range) as [pr|]; [|by injection H as <-].
  destruct (pt_get pr _) as [all|] eqn:Hall; [|by injection H as <-].
  apply bind_Ok in H as (k & _ & H). destruct (hash_find k all) as [found|]; [|by injection H as <-].
  injection H as <-. split; [|done]. split; [done|]. intros p d. cbn.
  destruct (decide (hash_delete k all = [])) as [E|E].
  - unfold id. cbn. rewrite decide_True by done. rewrite pt_get_remove. destruct (decide _); [done|apply Hk].
  - destruct (pt_put_known pr all (hash_delete k all) _ Hall) as [t Hput]. rewrite Hput. unfold id. cbn. rewrite decide_True by done.
    rewrite (pt_get_put _ _ _ _ _ Hput). destruct (decide (p = pr)) as [->|]; [|apply Hk].
    intros [= <-]. unfold hash_delete. apply Forall_filter. exact (Hk _ _ Hall).
Qed.

Lemma process_apart m (l l' : loc) :
  v6_apart l → short_liid m → process_incoming_messages ascii2prefix inet_ntop6 m l = Ok l' →
  v6_apart l'.
Proof.
  intros Ha Hm H. destruct (is_session_message m) eqn:Hs; [|by eapply v6_apart_same; [eapply other_message_same|]].
  destruct m as [s|s| | | | | | | | | | |s| |]; try done; cbn [process_incoming_messages] in H.
  - unfold handle_push_ipintercept in H. destruct (_ =? AF_INET).
    { injection H as <-. unfold add_ipv4_intercept. destruct s.(ps_targetip) as [addr|]; [|done].
      destruct (hash_find addr _); by destruct Ha. }
    destruct (_ =? AF_INET6); [|by injection H as <-].
    apply bind_Ok in H as ([r l1] & H & [= <-]). unfold add_ipv6_intercept in H.
    destruct s.(ps_targetip) as [addr|]; [|by injection H as _ <-].
    apply bind_Ok in H as ([r1 l2] & Hadd & H). destruct Hm as [Hp Hl].
    destruct (add_iprange_apart _ _ _ _ _ _ Hl Ha Hadd) as [[Ht Hk] _]. cbn [snd].
    destruct (r1 <? 0); [by injection H as _ <-|].
    destruct (hash_find _ l2.(cl_v6)) as [tgt|]; injection H as _ <-; split; cbn; try done.
    + by rewrite hash_update_keys.
    + unfold hash_add. rewrite fmap_app. apply Forall_app. split; [done|].
      constructor; [|constructor]. by apply prefix_string_chars.
  - unfold handle_halt_ipintercept in H. destruct (_ =? AF_INET).
    { injection H as <-. unfold remove_ipv4_intercept.
      destruct (find_ipv4_intercept _ _) as [[[? ?] ?]|]; by destruct Ha. }
    destruct (_ =? AF_INET6); [|by injection H as <-].
    apply bind_Ok in H as ([r l1] & H & [= <-]). unfold remove_ipv6_intercept in H.
    destruct (find_ipv6_intercept _ _ _) as [[[pfx v6] found]|]; [|by injection H as _ <-].
    apply bind_Ok in H as (l2 & Hrem & H).
    destruct (remove_iprange_apart _ _ _ _ Ha Hrem) as [[Ht Hk] _].
    injection H as _ <-. split; cbn; [|done]. destruct (decide _).
    + rewrite hash_delete_keys. by apply Forall_filter.
    + by rewrite hash_update_keys.
  - injection H as <-. unfold handle_change_ipint_intercept. destruct (_ =? AF_INET).
    { unfold update_ipv4_intercept. destruct (find_ipv4_intercept _ _) as [[[? ?] ?]|]; by destruct Ha. }
    destruct (_ =? AF_INET6); [|done]. unfold update_ipv6_intercept.
    destruct (find_ipv6_intercept _ _ _) as [[[pfx v6] found]|]; [|done].
    destruct Ha as [Ht Hk]. split; cbn; [by rewrite hash_update_keys|done].
Qed.

Lemma process_queue_apart q (l l' : loc) :
  v6_apart l → Forall short_liid q → process_queue ascii2prefix inet_ntop6 q l = Ok l' → v6_apart l'.
Proof.
  intros Ha Hq. revert l Ha. induction Hq as [|m q Hm _ IH]; intros l Ha H; cbn [process_queue] in H.
  - by injection H as <-.
  - apply bind_Ok in H as (l1 & H1 & H). eapply IH; [|exact H]. by eapply process_apart.
Qed.

Lemma along_path_nothing f path :
  (∀ all, all ∈ path → f all = Ok (0, [])) → along_path f path = Ok (0, []).
Proof.
  induction path as [|all path IH]; intros Hf; [done|]. cbn [along_path].
  rewrite Hf by apply list_elem_of_here. run_outcome.
  rewrite IH by (intros; apply Hf; by apply list_elem_of_further). done.
Qed.
Lemma dynamic_nothing all tv pkt (l : loc) :
  v6_apart l → Forall (λ e, 45 ∈ e.2.(ls_key)) all → dynamic_contents all tv pkt l = Ok (0, []).
Proof.
  intros [Ht _] Hall. induction Hall as [|[k ls] all Hk _ IH]; [done|]. cbn [dynamic_contents].
  rewrite (proj2 (hash_find_None ls.(ls_key) l.(cl_v6))).
  - run_outcome. by rewrite IH.
  - intros Hin. rewrite Forall_forall in Ht. by apply (Ht _ Hin).
Qed.

Lemma match_rtp_v6 rtp tgt other ms porta portb ipa ipb c pkt :
  rtp.(rt_ai_family) = AF_INET6 →
  match_rtp_stream rtp tgt other ms porta portb ipa ipb c pkt = (false, c).
Proof.
  intros Hf. induction ms as [|m ms IH]; [done|]. cbn [match_rtp_stream]. unfold sockaddr_match.
  rewrite Hf. cbn [AF_INET AF_INET6 Z.eqb Pos.eqb andb]. by rewrite andb_false_r.
Qed.
Lemma mm_contents_v6 rtps pkt pinfo c :
  pinfo.(pi_family) = AF_INET6 → mm_contents rtps pkt pinfo c = Ok (0, []).
Proof.
  intros Hf. revert c. induction rtps as [|[k rtp] rtps IH]; intros c; [done|]. cbn [mm_contents].
  destruct rtp.(rt_targetaddr) as [tgt|]; [|apply IH]. destruct rtp.(rt_otheraddr) as [other|]; [|apply IH].
  rewrite Hf. destruct (_ && _) eqn:E; [|apply IH].
  apply andb_prop in E as [[_ E%Z.eqb_eq]%andb_prop _].
  rewrite match_rtp_v6 by done. rewrite match_rtp_v6 by done. apply IH.
Qed.

(** C37: No content of IPv6 traffic is ever intercepted for a session or a call.
    Whatever sessions were pushed to the thread, the targets are entered under the text
    of their prefix and looked up under the name of a stream, and texts of prefixes have
    no dash; and [sockaddr_match] never finds two IPv6 addresses equal, so that no packet
    belongs to a media stream.  Only static ranges are found. *)
Theorem ipv6_sessions_missed (q : list openli_pushed_t) (l0 l : loc) (pkt : libtrace_packet_t)
    (pinfo : packet_info_t) (nxt : Z) :
  l0.(cl_v6) = [] → l0.(cl_dynamicv6ranges) = pt_empty → Forall short_liid q →
  process_queue ascii2prefix inet_ntop6 q l0 = Ok l → pinfo.(pi_family) = AF_INET6 →
  (∀ addr tv, singlev6_conn_contents addr l pkt tv = Ok (0, [])) ∧
  ip6mm_comm_contents nxt pkt pinfo l = Ok (0, []).
Proof.
  intros H6 Hd Hq H Hf. assert (v6_apart l) as Ha.
  { eapply process_queue_apart; [|exact Hq|exact H].
    split; [by rewrite H6|]. intros p d. by rewrite Hd, pt_get_empty. }
  split.
  - intros addr tv. unfold singlev6_conn_contents. apply along_path_nothing. intros all Hall.
    apply pt_path_spec in Hall as (p & _ & Hp). apply dynamic_nothing; [done|]. by eapply va_keys.
  - unfold ip6mm_comm_contents, mm_comm_contents. destruct (_ || _); [done|]. by apply mm_contents_v6.
Qed.
End v6.
