(* ===== verification/ThreadFaults.v ===== *)
(** * Keys that outlive their owners

    Two tables of a packet processing thread have keys that are stored in something
    else.  These theorems show which sequences of messages leave such a key behind in
    freed memory.  The file also has trees for evaluation, and runs of the thread. *)

From stdpp Require Import gmap.
From S2P Require Import Prelude Intercept Publish AccessSession HashTable IpSession CoreServer ThreadTables PacketContents ThreadProps.

(** ** Trees as finite maps *)

#[global] Instance prefix_countable : Countable prefix_t.
Proof.
  apply (inj_countable' (λ p, (p.(pf_family), p.(pf_bitlen), p.(pf_add)))
           (λ '(f, b, a), Mkprefix_t f b a)).
  by intros [].
Defined.

#[global] Instance map_patricia {D : Type} : Patricia (gmap prefix_t D) D.
Proof.
  refine {| pt_empty := ∅; pt_get := λ p t, t !! p; pt_put := λ p d t, Some (<[p := d]> t);
            pt_remove := λ p t, delete p t;
            pt_path := λ q t, snd <$> filter (λ e, covers e.1 q) (map_to_list t) |}.
  - intros. apply lookup_empty.
  - intros p q d t t' [= <-]. destruct (decide (q = p)) as [->|];
      [by rewrite lookup_insert_eq|by rewrite lookup_insert_ne].
  - by eexists.
  - intros p q t. destruct (decide (q = p)) as [->|];
      [by rewrite lookup_delete_eq|by rewrite lookup_delete_ne].
  - intros q t d. rewrite list_elem_of_fmap. split.
    + intros ([p x] & -> & [Hc Hin%elem_of_map_to_list]%list_elem_of_filter). eauto.
    + intros (p & Hc & Hp). exists (p, d). split; [done|]. apply list_elem_of_filter.
      split; [done|]. by apply elem_of_map_to_list.
Defined.

Section faults.
Context {T : Type} `{!Patricia T liid_table}.
Context (ascii2prefix : bytes → option prefix_t) (inet_ntop6 : bytes → bytes).
Abbreviation loc := (colthread_local_t T).
Abbreviation run := (process_queue ascii2prefix inet_ntop6).

(** ** Static ranges *)

(** A message about the range of a LIID, as [create_staticipsession] makes it. *)
Record range_message (range liid : bytes) (cin : Z) (ipr : staticipsession_t) : Prop := {
  rm_range : ipr.(si_rangestr) = range;
  rm_cin : ipr.(si_cin) = cin;
  rm_key : ipr.(si_key) = stream_name 127 liid cin;
  rm_liid : c_str ipr.(si_common).(ic_liid) = Ok liid;
  rm_liid_key : liid_key ipr.(si_common) = Ok liid;
}.

Lemma handle_iprange_fresh range liid cin ipr pr (l : loc) :
  range_message range liid cin ipr → ascii2prefix range = Some pr →
  pt_get pr (get_tree (range_tree range) l) = None → l.(cl_static) = [] →
  (∀ d, is_Some (pt_put pr d (get_tree (range_tree range) l))) →
  ∃ l', handle_iprange ascii2prefix ipr l = Ok l' ∧
    l'.(cl_static) = [(stream_name 127 liid cin, Mkstatic_entry None (set_si_references 1 ipr))] ∧
    pt_get pr (get_tree (range_tree range) l') =
      Some [(liid, Mkliid_set_t liid cin (stream_name 127 liid cin) l.(cl_next))].
Proof.
  intros [Hr Hc Hk Hl Hlk] Hp Hget Hs Hput. unfold handle_iprange, add_iprange_to_patricia.
  rewrite Hr, Hp, Hget, Hlk. run_outcome. cbn [default hash_find]. rewrite Hl. run_outcome.
  rewrite Hc. destruct (Hput (hash_add liid (Mkliid_set_t liid cin (stream_name 127 liid cin) l.(cl_next)) []))
    as [t Ht]. unfold id. rewrite Ht. run_outcome. cbn [Z.leb Z.compare].
  unfold reference_static, find_static. cbn [cl_static set_tree set_cl_keys]. rewrite Hs. cbn [hash_find].
  run_outcome. eexists. split; [reflexivity|]. cbn [set_cl_static cl_static]. rewrite Hk. split; [done|].
  assert (∀ w (x : loc), get_tree w (set_cl_static [(stream_name 127 liid cin,
            Mkstatic_entry None (set_si_references 1 ipr))] (set_tree w t x)) = t) as E.
  { intros w x. by destruct w. }
  unfold hash_add. cbn [app]. rewrite E. rewrite (pt_get_put _ _ _ _ _ Ht). by rewrite decide_True.
Qed.

Lemma handle_modify_moves range liid cin cin' ipr' pr a (l : loc) e :
  range_message range liid cin' ipr' → ascii2prefix range = Some pr →
  prefix_tree pr = Some (range_tree range) →
  pt_get pr (get_tree (range_tree range) l) =
    Some [(liid, Mkliid_set_t liid cin (stream_name 127 liid cin) a)] →
  l.(cl_static) = [(stream_name 127 liid cin, Mkstatic_entry None (set_si_references 1 e))] →
  ∃ l', handle_modify_iprange ascii2prefix ipr' l = Ok l' ∧
    l'.(cl_static) = [(stream_name 127 liid cin',
                       Mkstatic_entry (Some l.(cl_next)) (set_si_references 1 ipr'))] ∧
    pt_get pr (get_tree (range_tree range) l') =
      Some [(liid, Mkliid_set_t liid cin' (stream_name 127 liid cin') l.(cl_next))].
Proof.
  intros [Hr Hc Hk Hl Hlk] Hp Hfam Hget Hs. unfold handle_modify_iprange.
  rewrite Hr, Hp, Hfam, Hget, Hlk. run_outcome. cbn [hash_find]. rewrite decide_True by done.
  unfold release_static at 1, find_static at 1. cbn [ls_key]. rewrite Hs. cbn [hash_find].
  rewrite decide_True by done. cbn [se_keyaddr]. run_outcome.
  cbn [se_session set_si_references si_references].
  change (u32 (1 - 1) =? 0) with true. cbv iota. rewrite Hc. cbn [ls_liid ls_keyaddr].
  set (l1 := set_cl_static _ l).
  assert (get_tree (range_tree range) l1 = get_tree (range_tree range) l) as Et by by destruct (range_tree range).
  rewrite Et. set (all := hash_update liid _ _).
  destruct (pt_put_known pr _ all _ Hget) as [t Ht]. rewrite Ht. cbn [default]. unfold id.
  assert (cl_static l1 = []) as E1.
  { unfold l1. cbn [set_cl_static cl_static]. unfold hash_delete.
    by rewrite filter_cons_False by (cbn; tauto). }
  unfold reference_static, find_static. cbn [cl_static set_tree set_cl_keys]. rewrite E1. cbn [hash_find].
  run_outcome. eexists. split; [reflexivity|]. split; [done|].
  assert (∀ w (x : loc) v, get_tree w (set_cl_static v (set_tree w t x)) = t) as E by (intros [] ? ?; done).
  rewrite E. rewrite (pt_get_put _ _ _ _ _ Ht), decide_True by done. unfold all, hash_update. cbn.
  by rewrite decide_True.
Qed.

(** After the CIN of a static range was modified, removing the range is undefined:
    the session was entered under the key string of the range's LIID, the string is
    freed with the LIID, and the session is looked up after that. *)
Theorem modified_range_remove_undefined (range liid : bytes) (cin cin' : Z)
    (added modified removed : staticipsession_t) (pr : prefix_t) (l : loc) :
  range_message range liid cin added → range_message range liid cin' modified →
  range_message range liid cin' removed →
  ascii2prefix range = Some pr → prefix_tree pr = Some (range_tree range) →
  pt_get pr (get_tree (range_tree range) l) = None → l.(cl_static) = [] →
  (∀ d, is_Some (pt_put pr d (get_tree (range_tree range) l))) →
  run [OPENLI_PUSH_IPRANGE added; OPENLI_PUSH_MODIFY_IPRANGE modified] l ≠ Undef ∧
  run [OPENLI_PUSH_IPRANGE added; OPENLI_PUSH_MODIFY_IPRANGE modified;
       OPENLI_PUSH_REMOVE_IPRANGE removed] l = Undef.
Proof.
  intros Ha Hm Hr Hp Hfam Hget Hs Hput. cbn [process_queue process_incoming_messages].
  destruct (handle_iprange_fresh _ _ _ _ _ _ Ha Hp Hget Hs Hput) as (l1 & -> & Hs1 & Hg1). run_outcome.
  destruct (handle_modify_moves _ _ _ _ _ _ _ _ _ Hm Hp Hfam Hg1 Hs1) as (l2 & -> & Hs2 & Hg2). run_outcome.
  split; [done|]. destruct Hr as [Hrr Hrc Hrk Hrl Hrlk].
  unfold handle_remove_iprange, remove_iprange_from_patricia.
  rewrite Hrr, Hp, Hg2, Hrlk. run_outcome. cbn [hash_find]. rewrite decide_True by done.
  run_outcome. cbn [ls_keyaddr]. set (l3 := set_tree _ _ _).
  assert (cl_static l3 = cl_static l2 ∧ cl_keys l3 = cl_keys l2 ∖ {[cl_next l1]}) as [E3 Ek] by done.
  unfold release_static, find_static. rewrite E3, Ek, Hs2, Hrk. cbn [hash_find].
  rewrite decide_True by done. cbn [se_keyaddr]. rewrite decide_False; [done|].
  by intros [_ []%not_elem_of_singleton]%elem_of_difference.
Qed.

(** ** Vendor mirrors *)

(** The key of a mirror's id is a field of the intercept that was pushed first.
    When two intercepts use the id and the first one is halted, whatever comes next for
    the id, a message or a mirrored packet, compares a key in freed memory. *)
Theorem mirror_halt_undefined (first second halt : vendmirror_intercept_t) (liid liid' : bytes)
    (l : loc) :
  second.(vm_sessionid) = first.(vm_sessionid) → halt.(vm_sessionid) = first.(vm_sessionid) →
  liid_key first.(vm_common) = Ok liid → liid_key halt.(vm_common) = Ok liid →
  liid_key second.(vm_common) = Ok liid' → liid ≠ liid' → first.(vm_addr) ≠ second.(vm_addr) →
  hash_find first.(vm_sessionid) l.(cl_mirror) = None →
  ∃ l', run [OPENLI_PUSH_VENDMIRROR_INTERCEPT first; OPENLI_PUSH_VENDMIRROR_INTERCEPT second;
             OPENLI_PUSH_HALT_VENDMIRROR_INTERCEPT halt] l = Ok l' ∧
    find_mirror first.(vm_sessionid) l' = Undef.
Proof.
  intros Hs2 Hsh Hk1 Hkh Hk2 Hne Haddr Hnone. set (sid := first.(vm_sessionid)) in *.
  assert (∀ t (x : loc), cl_mirror (set_cl_mirror t x) = t) as Hset by done.
  set (v1 := Mkvendmirror_intercept_list_t first.(vm_addr) [(liid, first)]).
  set (l1 := set_cl_mirror (hash_add sid v1 l.(cl_mirror)) l).
  assert (handle_push_mirror_intercept first l = Ok l1) as E1.
  { unfold handle_push_mirror_intercept, find_mirror. fold sid. rewrite Hnone. run_outcome.
    by rewrite Hk1. }
  assert (find_mirror sid l1 = Ok (Some v1)) as F1.
  { unfold find_mirror, l1. rewrite Hset, hash_find_add, decide_True by done. cbn.
    by rewrite decide_True by apply list_elem_of_here. }
  set (v2 := Mkvendmirror_intercept_list_t first.(vm_addr) [(liid, first); (liid', second)]).
  set (l2 := set_cl_mirror (hash_update sid v2 l1.(cl_mirror)) l1).
  assert (handle_push_mirror_intercept second l1 = Ok l2) as E2.
  { unfold handle_push_mirror_intercept. rewrite Hs2, F1. run_outcome. rewrite Hk2. run_outcome.
    cbn [hash_find v1 vl_intercepts]. by rewrite decide_False by done. }
  assert (hash_find sid l1.(cl_mirror) = Some v1) as G1.
  { unfold l1. by rewrite Hset, hash_find_add, decide_True. }
  assert (hash_find sid l2.(cl_mirror) = Some v2) as G2.
  { unfold l2. by rewrite Hset, (hash_find_update _ _ _ v1), decide_True. }
  assert (find_mirror sid l2 = Ok (Some v2)) as F2.
  { unfold find_mirror. rewrite G2. cbn. by rewrite decide_True by apply list_elem_of_here. }
  set (v3 := Mkvendmirror_intercept_list_t first.(vm_addr) [(liid', second)]).
  set (l3 := set_cl_mirror (hash_update sid v3 l2.(cl_mirror)) l2).
  assert (handle_halt_mirror_intercept halt l2 = Ok l3) as E3.
  { unfold handle_halt_mirror_intercept. rewrite Hsh, F2. run_outcome. rewrite Hkh. run_outcome.
    cbn [v2 vl_intercepts hash_find]. rewrite decide_True by done. unfold hash_delete.
    rewrite filter_cons_False by (cbn; tauto). rewrite filter_cons_True by (cbn; congruence).
    by rewrite filter_nil, decide_False by done. }
  exists l3. cbn [process_queue process_incoming_messages]. rewrite E1. run_outcome. rewrite E2. run_outcome.
  rewrite E3. split; [done|]. unfold find_mirror, l3.
  rewrite Hset, (hash_find_update _ _ _ v2), decide_True by done. cbn.
  rewrite decide_False; [done|]. by intros ?%list_elem_of_singleton.
Qed.
End faults.

(** ** Runs *)

Abbreviation trees := (gmap prefix_t liid_table).

(** A thread that has just started. *)
Definition new_thread : colthread_local_t trees :=
  Mkcolthread_local_t [] [] [] [] [] (λ _, Some []) ∅ ∅ ∅ ∅ 0.

(** Ranges and addresses in a text of our own: family, length of the prefix, four bytes; an
    IPv6 address is written out with a colon after every byte. *)
Definition sample_prefix (s : bytes) : option prefix_t :=
  match s with f :: n :: a => Some (Mkprefix_t f n (take 4 a)) | _ => None end.
Definition sample_ntop (a : bytes) : bytes := a ≫= λ b, [65 + (b / 16) mod 16; 65 + b mod 16; 58].

Definition sample_common (liid : bytes) : intercept_common_t :=
  {| ic_liid := Some liid; ic_authcc := Some []; ic_delivcc := Some []; ic_liid_len := zlen liid;
     ic_authcc_len := 0; ic_delivcc_len := 0; ic_destid := 5; ic_targetagency := None;
     ic_seqtrackerid := 0; ic_hi1_seqno := 0; ic_tostart_time := 100; ic_toend_time := 200;
     ic_tomediate := 0; ic_encrypt := 0; ic_encryptkey := None |}.
Definition sample_session (family : Z) (addr liid : bytes) (cin : Z) : ipsession_t :=
  Mkipsession_t (stream_name 256 liid cin) cin family (Some addr) 32 0 0 (sample_common liid).
Definition sample_range (range liid : bytes) (cin : Z) : staticipsession_t :=
  Mkstaticipsession_t (stream_name 127 liid cin) range (sample_common liid) cin 0 0.
Definition sample_mirror (addr sid : Z) (liid : bytes) : vendmirror_intercept_t :=
  Mkvendmirror_intercept_t addr sid (sample_common liid).
Definition sample_content : libtrace_packet_t := Mklibtrace_packet_t (replicate 40 7) 150 None None.

Definition v4_messages : list openli_pushed_t :=
  [OPENLI_PUSH_IPINTERCEPT (sample_session AF_INET [10; 0; 0; 9] (of_string "L1") 1);
   OPENLI_PUSH_IPINTERCEPT (sample_session AF_INET [10; 0; 0; 9] (of_string "L2") 1);
   OPENLI_PUSH_HALT_IPINTERCEPT (sample_session AF_INET [10; 0; 0; 9] (of_string "L1") 1)].
Definition run_sample (q : list openli_pushed_t) : outcome (colthread_local_t trees) :=
  process_queue sample_prefix sample_ntop q new_thread.

(** Only the stream that was not halted is exported. *)
Lemma v4_run :
  (l ← run_sample v4_messages; v4_contents [10; 0; 0; 9] 0 sample_content 150 l) =
  Ok (1, [Mkipcc_job OPENLI_EXPORT_IPCC 5 (of_string "L2") 1 0 (replicate 40 7)]).
Proof. by vm_compute. Qed.

Definition v4_thread : colthread_local_t trees :=
  match run_sample v4_messages with Ok l => l | _ => new_thread end.
Lemma v4_thread_run : run_sample v4_messages = Ok v4_thread.
Proof. by vm_compute. Qed.

Lemma content_follows_messages_witness :
  ∃ jobs, v4_contents [10; 0; 0; 9] 0 sample_content 150 v4_thread = Ok (zlen jobs, jobs) ∧
    ∀ j, j ∈ jobs ↔ ∃ key sess, foldl active_step ∅ v4_messages !! ([10; 0; 0; 9], key) = Some sess ∧
      cc_wanted sess.(ps_common) 150 = true ∧ j = session_job sess sample_content 0.
Proof.
  apply (content_follows_messages sample_prefix sample_ntop v4_messages new_thread).
  - reflexivity.
  - exact v4_thread_run.
  - repeat constructor; by eexists.
  - reflexivity.
Defined.

Definition v6_messages : list openli_pushed_t :=
  [OPENLI_PUSH_IPINTERCEPT (sample_session AF_INET6 (replicate 16 32) (of_string "L1") 1)].

Definition v6_thread : colthread_local_t trees :=
  match run_sample v6_messages with Ok l => l | _ => new_thread end.

(** The session is in the table. *)
Lemma v6_run : run_sample v6_messages = Ok v6_thread ∧ length v6_thread.(cl_v6) = 1%nat.
Proof.
  assert (Hok : (l ← run_sample v6_messages; Ok (length l.(cl_v6))) = Ok 1%nat) by by vm_compute.
  unfold v6_thread. destruct (run_sample v6_messages); try done. by injection Hok.
Qed.

Lemma sample_ntop_chars a : 45 ∉ sample_ntop a.
Proof.
  unfold sample_ntop. rewrite list_elem_of_bind. intros (b & Hb & Ha).
  pose proof (Z.mod_pos_bound b 16). pose proof (Z.mod_pos_bound (b / 16) 16).
  repeat (apply elem_of_cons in Hb as [Hb|Hb]; [lia|]). by apply not_elem_of_nil in Hb.
Qed.

Lemma ipv6_sessions_missed_witness :
  (∀ addr tv, singlev6_conn_contents addr v6_thread sample_content tv = Ok (0, [])) ∧
  ip6mm_comm_contents 17 sample_content
    (Mkpacket_info_t AF_INET6 (replicate 16 32) (replicate 16 1) 7 8 150) v6_thread = Ok (0, []).
Proof.
  apply (ipv6_sessions_missed sample_prefix sample_ntop sample_ntop_chars v6_messages new_thread).
  - reflexivity.
  - reflexivity.
  - constructor; [|constructor]. split; [apply Z.leb_le; reflexivity|].
    intros liid E. injection E as <-. apply Z.leb_le. vm_compute. reflexivity.
  - exact (proj1 v6_run).
  - reflexivity.
Defined.

Definition range1 : bytes := [AF_INET; 24; 10; 0; 0; 0].

Lemma modified_range_remove_undefined_witness :
  run_sample [OPENLI_PUSH_IPRANGE (sample_range range1 (of_string "L1") 1);
              OPENLI_PUSH_MODIFY_IPRANGE (sample_range range1 (of_string "L1") 2)] ≠ Undef ∧
  run_sample [OPENLI_PUSH_IPRANGE (sample_range range1 (of_string "L1") 1);
              OPENLI_PUSH_MODIFY_IPRANGE (sample_range range1 (of_string "L1") 2);
              OPENLI_PUSH_REMOVE_IPRANGE (sample_range range1 (of_string "L1") 2)] = Undef.
Proof.
  apply (modified_range_remove_undefined sample_prefix sample_ntop range1 (of_string "L1") 1 2 _ _ _
           (Mkprefix_t AF_INET 24 [10; 0; 0; 0]) new_thread).
  - by split.
  - by split.
  - by split.
  - done.
  - done.
  - done.
  - done.
  - intros d. by eexists.
Defined.

Lemma mirror_halt_undefined_witness :
  ∃ l, run_sample [OPENLI_PUSH_VENDMIRROR_INTERCEPT (sample_mirror 1 77 (of_string "L1"));
                   OPENLI_PUSH_VENDMIRROR_INTERCEPT (sample_mirror 2 77 (of_string "L2"));
                   OPENLI_PUSH_HALT_VENDMIRROR_INTERCEPT (sample_mirror 3 77 (of_string "L1"))] = Ok l ∧
    find_mirror 77 l = Undef.
Proof.
  apply (mirror_halt_undefined sample_prefix sample_ntop (sample_mirror 1 77 (of_string "L1"))
           (sample_mirror 2 77 (of_string "L2")) (sample_mirror 3 77 (of_string "L1"))
           (of_string "L1") (of_string "L2") new_thread); done.
Defined.
