(* ===== verification/PacketProps.v ===== *)
(** * Properties of the path of a packet *)

From stdpp Require Import gmap.
From S2P Require Import Prelude Libraries ByteOrder Intercept Publish AccessSession JenkinsHash HashTable.
From S2P Require Import IpReassembly IpSession CoreServer ThreadTables PacketContents PacketProcess ThreadFaults.

(** ** Servers *)

Section servers.
Context (populate_addrinfo : cstring → cstring → option addrinfo).
Abbreviation resolve := (resolve populate_addrinfo).

(** The server has this address and this port, once it is looked up. *)
Definition server_is (e : server_entry) (family : Z) (addr : bytes) (port : Z) : Prop :=
  ∃ cs ai, resolve e = Some (cs, ai) ∧ ai.(ai_family) = family ∧ ai.(ai_addr) = addr ∧
           cs.(cs_portswapped) = port.

(** A list in which every server has an address of one family and a key. *)
Definition servers_ok (family : Z) (t : server_table) : Prop :=
  Forall (λ e, ∃ cs ai, resolve e.2 = Some (cs, ai) ∧ ai.(ai_family) = family ∧
                 is_Some cs.(cs_serverkey)) t.

Lemma scan_servers_ok test t :
  Forall (λ e, ∃ cs ai b, resolve e.2 = Some (cs, ai) ∧ test cs ai = Ok b) t →
  ∃ r t', scan_servers populate_addrinfo test t = Ok (r, t') ∧
    (t = [] ↔ t' = []) ∧
    match r with
    | Some cs => ∃ e ai, e ∈ t.*2 ∧ resolve e = Some (cs, ai) ∧ test cs ai = Ok true
    | None => ∀ e cs ai, e ∈ t.*2 → resolve e = Some (cs, ai) → test cs ai = Ok false
    end.
Proof.
  induction 1 as [|[k e] t (cs & ai & b & Hr & Ht) _ IH]; cbn [scan_servers].
  { exists None, []. split; [done|]. split; [done|]. by intros ? ? ? ?%not_elem_of_nil. }
  cbn [snd] in Hr. rewrite Hr, Ht. run_outcome. destruct b.
  - do 2 eexists. split; [reflexivity|]. split; [done|]. exists e, ai. split; [apply list_elem_of_here|done].
  - destruct IH as (r & t' & -> & _ & Hres). run_outcome. do 2 eexists. split; [reflexivity|]. split; [done|].
    destruct r as [cs'|].
    + destruct Hres as (e' & ai' & Hin & He). exists e', ai'. split; [by apply list_elem_of_further|done].
    + intros e' cs' ai' [->|Hin]%elem_of_cons; [|by apply Hres].
      cbn [snd]. rewrite Hr. by intros [= <- <-].
Qed.

Lemma list_after_ok t t' :
  Forall (λ e, is_Some (resolve e.2)) t → list_after populate_addrinfo t t' = Some t'.
Proof. destruct 1 as [|[k e] t [x Hx] _]; [done|]. cbn in *. by rewrite Hx. Qed.

Lemma hash_liid_ok k : ∃ h, hash_liid 0 (k ++ [0; 0; 0; 0]) = Ok h.
Proof.
  unfold hash_liid, hashlittle. cbn [Z.land Z.eqb].
  assert ((length (until_nul (k ++ [0; 0; 0; 0]%Z)) ≤ length k)%nat) as Hk.
  { induction k as [|b k IH]; [done|]. cbn [app until_nul]. destruct (decide (b = 0)); simpl; lia. }
  rewrite decide_True; [by eexists|]. rewrite length_app. cbn [length].
  pose proof (Nat.Div0.mul_div_le (length (until_nul (k ++ [0; 0; 0; 0])) + 3) 4). lia.
Qed.

Lemma coreserver_match_v4_true cs ai addr port :
  ai.(ai_family) = AF_INET →
  coreserver_match_v4 cs ai addr port = true ↔ port = cs.(cs_portswapped) ∧ addr = ai.(ai_addr).
Proof.
  intros Hf. unfold coreserver_match_v4. rewrite Hf. cbn [AF_INET Z.eqb Pos.eqb].
  rewrite andb_true_iff, Z.eqb_eq, bool_decide_eq_true. tauto.
Qed.

(** A packet between two IPv4 hosts is taken for a packet of a server exactly if its
    source or its destination is the address and the port of a server in the list, and
    the number that stands for the server is never 0. *)
Theorem is_core_server_packet_correct (pinfo : packet_info_t) (t : server_table) :
  pinfo.(pi_family) = AF_INET → pinfo.(pi_srcport) ≠ 0 → pinfo.(pi_destport) ≠ 0 →
  servers_ok AF_INET t →
  ∃ h l, is_core_server_packet populate_addrinfo pinfo (Some t) = Ok (h, Some l) ∧
    (h ≠ 0 ↔ ∃ e, e ∈ t.*2 ∧
       (server_is e AF_INET pinfo.(pi_srcip) pinfo.(pi_srcport) ∨
        server_is e AF_INET pinfo.(pi_destip) pinfo.(pi_destport))).
Proof.
  intros Hf Hs Hd Hok. unfold is_core_server_packet, iterate_servers.
  rewrite !(proj2 (Z.eqb_neq _ 0)) by done. cbn [orb use_list]. run_outcome.
  assert (Hall : ∀ e, e ∈ t.*2 → ∃ cs ai, resolve e = Some (cs, ai) ∧ ai.(ai_family) = AF_INET ∧
            is_Some cs.(cs_serverkey)).
  { intros e ([k e'] & -> & Hin)%list_elem_of_fmap. unfold servers_ok in Hok. rewrite Forall_forall in Hok.
    exact (Hok _ Hin). }
  destruct (scan_servers_ok (server_test pinfo) t) as (r & t' & -> & _ & Hres).
  { eapply Forall_impl; [exact Hok|]. intros e (cs & ai & Hr & _). unfold server_test. rewrite Hf.
    by do 3 eexists. }
  run_outcome. rewrite list_after_ok by (eapply Forall_impl; [exact Hok|]; intros e (? & ? & -> & _); by eexists).
  destruct r as [cs|].
  - destruct Hres as (e & ai & Hin & Hr & Ht). destruct (Hall e Hin) as (cs' & ai' & Hr' & Hfam & [k Hk]).
    rewrite Hr in Hr'. injection Hr' as <- <-. rewrite Hk. cbn [c_str]. run_outcome.
    destruct (hash_liid_ok (until_nul k)) as [h ->]. run_outcome. do 2 eexists. split; [reflexivity|]. split.
    + intros _. exists e. split; [done|]. unfold server_test in Ht. rewrite Hf in Ht.
      injection Ht as [Ht|Ht]%orb_true_iff;
        apply coreserver_match_v4_true in Ht as [Hport Haddr]; try done; [left|right]; by exists cs, ai.
    + intros _. destruct (Z.eqb_spec h 0); lia.
  - do 2 eexists. split; [reflexivity|]. split; [done|].
    intros (e & Hin & Hor). exfalso. destruct (Hall e Hin) as (cs & ai & Hr & Hfam & _).
    specialize (Hres e cs ai Hin Hr). unfold server_test in Hres. rewrite Hf in Hres.
    injection Hres as [H1 H2]%orb_false_iff.
    destruct Hor as [(cs' & ai' & Hr' & _ & Ha & Hp)|(cs' & ai' & Hr' & _ & Ha & Hp)];
      rewrite Hr in Hr'; injection Hr' as <- <-.
    + rewrite (proj2 (coreserver_match_v4_true cs ai _ _ Hfam)) in H1; [done|by split].
    + rewrite (proj2 (coreserver_match_v4_true cs ai _ _ Hfam)) in H2; [done|by split].
Qed.
End servers.

Definition sample_server (addr : bytes) (port : Z) : bytes * server_entry :=
  (of_string "key", Mkserver_entry
     {| cs_serverkey := Some (of_string "key"); cs_servertype := 1; cs_ipstr := None; cs_portstr := None;
        cs_info := None; cs_portswapped := port; cs_awaitingconfirm := 0 |}
     (Some (Mkaddrinfo AF_INET addr port))).

Lemma is_core_server_packet_correct_witness :
  ∃ h l, is_core_server_packet (λ _ _, None)
           (Mkpacket_info_t AF_INET [10; 0; 0; 1] [10; 0; 0; 2] 1812 9000 150)
           (Some [sample_server [10; 0; 0; 1] 1812]) = Ok (h, Some l) ∧
    (h ≠ 0 ↔ ∃ e, e ∈ [sample_server [10; 0; 0; 1] 1812].*2 ∧
       (server_is (λ _ _, None) e AF_INET [10; 0; 0; 1] 1812 ∨
        server_is (λ _ _, None) e AF_INET [10; 0; 0; 2] 9000)).
Proof.
  apply (is_core_server_packet_correct (λ _ _, None)
           (Mkpacket_info_t AF_INET [10; 0; 0; 1] [10; 0; 0; 2] 1812 9000 150)
           [sample_server [10; 0; 0; 1] 1812]); try done.
  repeat constructor. by do 2 eexists.
Defined.

(** ** Packets that are too short *)

Section short.
Context {T : Type} `{!Patricia T liid_table} {HS : HashSort}.
Context (populate_addrinfo : cstring → cstring → option addrinfo).
Context (layer2 vlan mpls pppoe : bytes → option (Z * bytes)).
Abbreviation body := (handle_packet_body populate_addrinfo layer2 vlan mpls pppoe).

(** The ports are not in the packet: an IPv4 packet that is no fragment and ends less
    than four bytes after its header, or an IPv6 packet in which libtrace finds no
    payload, or less than four bytes of it. *)
Definition ports_missing (pkt : captured) : Prop :=
  let l3 := pkt.(cp_packet).(lp_layer3) in
  (pkt.(cp_ethertype) = TRACE_ETHERTYPE_IP ∧ pkt.(cp_moreflag) = false ∧ pkt.(cp_fragoff) = 0 ∧
   ∃ b0 rest, l3 = b0 :: rest ∧ 20 ≤ zlen l3 ∧ 4 * Z.land b0 0xf ≤ zlen l3 < 4 * Z.land b0 0xf + 4) ∨
  (pkt.(cp_ethertype) = TRACE_ETHERTYPE_IPV6 ∧ l3 ≠ [] ∧
   (pkt.(cp_ip6_payload) = None ∨ ∃ b, pkt.(cp_ip6_payload) = Some b ∧ zlen b < 4)).

Lemma read_ports_short b : zlen b < 4 → read_ports b = Undef.
Proof.
  intros Hb. unfold read_ports, be16.
  assert (read_le 2 (zdrop 2 b) = Undef) as ->.
  { unfold read_le. rewrite decide_False; [done|]. unfold zlen, zdrop in *. rewrite length_drop. lia. }
  unfold read_le. by destruct (decide (2 ≤ length b)%nat).
Qed.

(** C38: [process_packet] reads the ports of every packet without asking whether they
    were captured: a packet that ends before its ports is undefined behaviour, whatever
    its protocol, and an IPv6 packet without payload dereferences NULL. *)
Theorem short_packet_undefined (email_threads : Z) (pkt : captured) (s : thread_state (T := T)) :
  ports_missing pkt → body email_threads pkt s = Undef.
Proof.
  unfold handle_packet_body, packet_info.
  intros [(Ht & Hm & Hf & b0 & rest & Hl & Hlen & Hhl)|(Ht & Hne & Hp)]; rewrite Ht.
  - rewrite (proj2 (Z.eqb_neq _ 0)) by lia. cbn [TRACE_ETHERTYPE_IP Z.eqb Pos.eqb].
    unfold ipv4_info. rewrite Hm, Hf. set (l3 := lp_layer3 _) in *.
    assert (read_le 1 l3 = Ok b0) as ->.
    { rewrite Hl. apply read_le_1. }
    run_outcome. rewrite (proj2 (Z.ltb_ge _ _)) by lia.
    assert (∀ n k, k + n ≤ 20 → 0 ≤ k → ∃ v, read_bytes n (zdrop k l3) = Ok v) as Hread.
    { intros n k Hn Hk. eexists. apply read_bytes_Ok. unfold zlen, zdrop in *. rewrite length_drop. lia. }
    destruct (Hread 4 12) as [src ->]; [lia..|]. run_outcome.
    destruct (Hread 4 16) as [dst ->]; [lia..|]. run_outcome.
    destruct (read_le_Ok 1 (zdrop 9 l3)) as [pr ->];
      [unfold zlen, zdrop in *; rewrite length_drop; lia|]. run_outcome. cbn [orb Z.ltb Z.compare].
    rewrite read_ports_short; [done|]. unfold zlen, zdrop in *. rewrite length_drop. lia.
  - rewrite (proj2 (Z.eqb_neq _ 0)) by (destruct (lp_layer3 _); [done|]; unfold zlen; cbn [length]; lia).
    cbn [TRACE_ETHERTYPE_IP TRACE_ETHERTYPE_IPV6 Z.eqb Pos.eqb]. unfold ipv6_info.
    destruct Hp as [->|(b & -> & Hb)]; [done|]. by rewrite read_ports_short.
Qed.
End short.

(** ** Runs *)

Definition no_header (b : bytes) : option (Z * bytes) := None.
Definition empty_state : thread_state (T := trees) :=
  Mkthread_state new_thread create_new_ipfrag_reassembler (Some []) (Some []).

(** An IPv4 packet of a protocol with a source, a destination and what follows. *)
Definition ipv4_packet (ip_p : Z) (src dst rest : bytes) : captured :=
  let l3 := [69; 0; 0; 0; 0; 0; 0; 0; 64; ip_p; 0; 0] ++ src ++ dst ++ rest in
  Mkcaptured (Mklibtrace_packet_t l3 150 (Some (ip_p, rest)) (Some (zdrop 8 rest))) TRACE_ETHERTYPE_IP
    0 false (Mkfrag_packet None 0 true false 0 5 0 ip_p rest) None 0.

Definition process_sample (q : list openli_pushed_t) (p : captured)
    : outcome (list packet_effect) :=
  r ← process_packet (HS := insertion_hash_sort) sample_prefix sample_ntop (λ _ _, None) no_header
        no_header no_header no_header 2 q [] p empty_state;
  Ok r.1.

(** A packet of an intercepted address is published and counted; the packets of a RADIUS
    server go to the synchronisation thread and are not looked at any further. *)
Lemma packet_runs :
  process_sample v4_messages (ipv4_packet 6 [10; 0; 0; 9] [10; 0; 0; 2] [0; 80; 0; 81]) =
    Ok [Published (Mkipcc_job OPENLI_EXPORT_IPCC 5 (of_string "L2") 1 0
                     (ipv4_packet 6 [10; 0; 0; 9] [10; 0; 0; 2] [0; 80; 0; 81]).(cp_packet).(lp_layer3));
        Counted Ipcc_created 1; Counted Packets_intercepted 1] ∧
  (r ← handle_packet_body (HS := insertion_hash_sort) (λ _ _, None) no_header no_header no_header no_header 2
         (ipv4_packet 17 [10; 0; 0; 9] [10; 0; 0; 2] [0; 80; 7; 20; 0; 8; 0; 0])
         (set_ts_loc (set_server_list OPENLI_CORE_SERVER_RADIUS (Some [sample_server [10; 0; 0; 2] 1812])
                        v4_thread) empty_state);
   Ok r.1) = Ok [Sent Tosync_ip OPENLI_UPDATE_RADIUS; Counted Packets_sync_ip 1].
Proof. split; by vm_compute. Qed.

(** An IPv4 packet with nothing after its header, and an IPv6 packet without payload. *)
Definition bare_packet : captured := ipv4_packet 1 [10; 0; 0; 9] [10; 0; 0; 2] [].

Lemma short_packet_undefined_witness :
  handle_packet_body (HS := insertion_hash_sort) (λ _ _, None) no_header no_header no_header no_header 2
    bare_packet empty_state = Undef.
Proof.
  apply (short_packet_undefined (HS := insertion_hash_sort) (λ _ _, None) no_header no_header no_header
           no_header 2 bare_packet empty_state).
  left. split; [reflexivity|]. split; [reflexivity|]. split; [reflexivity|].
  eexists _, _. split; [reflexivity|]. vm_compute. repeat split; congruence.
Defined.
