(* ===== verification/SyncSessions.v ===== *)
(** * Access sessions in the synchronisation thread
      (src/src/collector/collector_sync.c, umtsiri.c, ipiri.c, internetaccess.c)

    [update_user_sessions] is called for every RADIUS or GTP packet.  It asks the plugin
    of the protocol for the users and the sessions of the packet, keeps the table of the
    addresses that are in use, tells the packet processing threads which addresses to
    intercept, and publishes IRIs.

    The plugin is the record [access_plugin] of its functions, as in
    internetaccess.h; nothing else about it is used here.  Sessions have addresses
    ([session_store]); users of the thread are never freed and are named by their id.
    What leaves the thread is collected in [sy_out]: messages to the queues of the
    packet processing threads, published jobs and messages, messages to the other
    threads, and the statistics of intercepts, sessions and bad
    packets; the counters of IRIs are left out.  [gettimeofday]
    is the argument [now].

    The tables that follow the provisioner's messages ([prov_tables], worked on in
    SyncIntercepts) hold pointers to intercepts, so intercepts have addresses too. *)

From stdpp Require Import gmap.
From S2P Require Import Prelude Intercept NetBuffer Publish AccessSession Radius RadiusSession Ipiri HashTable IpSession TimedIntercept.

(** ** State and effects *)

Definition ST (S A : Type) : Type := S → outcome (A * S).
#[global] Instance ST_ret S : MRet (ST S) := λ A a s, Ok (a, s).
#[global] Instance ST_bind S : MBind (ST S) := λ A B f m s,
  match m s with Ok (a, s) => f a s | Abort => Abort | Undef => Undef end.

Definition lift {S A} (m : outcome A) : ST S A := λ s,
  match m with Ok a => Ok (a, s) | Abort => Abort | Undef => Undef end.

(** A loop over a list. *)
Fixpoint for_each {S A} (l : list A) (f : A → ST S unit) : ST S unit :=
  match l with
  | [] => mret tt
  | a :: l => _ ← f a; for_each l f
  end.

(** The functions of [struct access_plugin]; the packet being handled is part of the
    plugin's state [G].  A plugin may keep pointers into sessions, so the functions that
    make records get the store too, and the time of day. *)
Record access_plugin (G Pkt : Type) : Type := Mkaccess_plugin {
  ap_process_packet : Pkt → ST G (option unit);
  ap_destroy_parsed_data : ST G unit;
  ap_get_userid : ST G (option (list user_identity_t));
  ap_update_session_state : Z → option Z → list Z → session_store →
    G → outcome (option session_update * list Z * session_store * G);
  ap_generate_iri_data : session_store → Z → G → outcome (Z * option (etsili_iri_type_t * etsili_generics));
  ap_generate_iri_from_session : session_store → Z → access_session_t → ipiri_special →
    etsili_iri_type_t → G → outcome (Z * etsili_iri_type_t * etsili_generics);
  ap_destroy_session_data : access_session_t → ST G unit;
  ap_get_packet_sequence : G → Z;
  ap_get_ip_contents : Z → ST G (option bytes);
}.
Arguments ap_process_packet {G Pkt}.
Arguments ap_destroy_parsed_data {G Pkt}.
Arguments ap_get_userid {G Pkt}.
Arguments ap_update_session_state {G Pkt}.
Arguments ap_generate_iri_data {G Pkt}.
Arguments ap_generate_iri_from_session {G Pkt}.
Arguments ap_destroy_session_data {G Pkt}.
Arguments ap_get_packet_sequence {G Pkt}.
Arguments ap_get_ip_contents {G Pkt}.

Record internet_user_t : Type := Mkinternet_user_t {
  iu_userid : bytes;
  iu_sessions : list Z;
}.

(** Who is using an address: the two arrays have one length. *)
Record ip_to_session_t : Type := Mkip_to_session_t {
  im_ip : internetaccess_ip_t;
  im_session : list (option Z);
  im_owner : list (option bytes);
  im_cin : Z;
}.

Record openli_mobiri_job_t : Type := Mkopenli_mobiri_job_t {
  mj_liid : bytes;
  mj_cin : Z;
  mj_iritype : etsili_iri_type_t;
  mj_customparams : etsili_generics;
}.

Inductive sync_output : Type :=
  | Out_push (queue : Z) (msg : openli_pushed_t)
  | Out_ipiri (seqtrackerid destid : Z) (job : openli_ipiri_job_t)
  | Out_mobiri (seqtrackerid destid : Z) (job : openli_mobiri_job_t)
  | Out_rawip (seqtrackerid destid : Z) (liid : bytes) (content : bytes) (seqno cin : Z)
  | Out_session_added
  | Out_session_ended
  | Out_bad_packet
  | Out_publish (seqtrackerid : Z) (msg : openli_export_recv_t)
  | Out_fwdctrl (thread : Z) (msg : openli_export_recv_t)
  | Out_voipsync (msgtype : Z) (body : bytes)
  | Out_email (thread msgtype : Z) (body : bytes)
  | Out_cept_added
  | Out_cept_ended.

(** Intercepts, by address; [pv_stale] are those whose [username] points to memory that
    was freed.  [pv_ipintercepts] has the intercepts by LIID, [pv_userintercepts] by user
    and LIID. *)
Record prov_tables : Type := Mkprov_tables {
  pv_cepts : gmap Z ipintercept_t;
  pv_stale : list Z;
  pv_next : Z;
  pv_ipintercepts : list (bytes * Z);
  pv_userintercepts : list (bytes * list (bytes * Z));
  pv_coreservers : list (bytes * coreserver_t);
  pv_defaultradius : list (bytes * default_radius_user_t);
  pv_events : time_events;
}.

(** The connection with the provisioner, and the number of threads of each kind. *)
Record prov_conn : Type := Mkprov_conn {
  pn_pubsockcount : Z;
  pn_forwardcount : Z;
  pn_emailcount : Z;
  pn_colthreads : Z;
  pn_instruct_fd : Z;
  pn_instruct_fail : Z;
  pn_instruct_log : Z;
  pn_pollout : bool;
  pn_outgoing : option net_buffer_t;
  pn_incoming : option net_buffer_t;
  pn_hellosreceived : Z;
}.

Record collector_sync_t (G : Type) : Type := Mkcollector_sync_t {
  sy_plugin : G;
  sy_store : session_store;
  sy_allusers : list internet_user_t;
  sy_activeips : list ip_to_session_t;
  sy_prov : prov_tables;
  sy_conn : prov_conn;
  sy_queues : list Z;
  sy_out : list sync_output;
}.
Arguments Mkcollector_sync_t {G}.
Arguments sy_plugin {G}.
Arguments sy_store {G}.
Arguments sy_allusers {G}.
Arguments sy_activeips {G}.
Arguments sy_prov {G}.
Arguments sy_conn {G}.
Arguments sy_queues {G}.
Arguments sy_out {G}.

(** ** Tables *)

(** [HASH_FIND] on the users. *)
Definition find_user (id : bytes) (l : list internet_user_t) : option internet_user_t :=
  head (filter (λ u, u.(iu_userid) = id) l).
Definition update_user (u : internet_user_t) (l : list internet_user_t) : list internet_user_t :=
  map (λ x, if decide (x.(iu_userid) = u.(iu_userid)) then u else x) l.

Definition find_mapping (ip : internetaccess_ip_t) (l : list ip_to_session_t)
    : option ip_to_session_t := head (filter (λ m, m.(im_ip) = ip) l).
Definition update_mapping (m : ip_to_session_t) (l : list ip_to_session_t) : list ip_to_session_t :=
  map (λ x, if decide (x.(im_ip) = m.(im_ip)) then m else x) l.
Definition delete_mapping (ip : internetaccess_ip_t) (l : list ip_to_session_t)
    : list ip_to_session_t := filter (λ m, m.(im_ip) ≠ ip) l.

(** The intercepts that a table points to. *)
Fixpoint load_cepts (pv : prov_tables) (l : list (bytes * Z)) : outcome (list ipintercept_t) :=
  match l with
  | [] => Ok []
  | (_, a) :: l =>
      i ← deref (pv.(pv_cepts) !! a);
      l ← load_cepts pv l;
      Ok (i :: l)
  end.
(** The intercepts of a user, if there is a list of them. *)
Definition find_userint (id : bytes) (pv : prov_tables) : outcome (option (list ipintercept_t)) :=
  match hash_find id pv.(pv_userintercepts) with
  | None => Ok None
  | Some l => l ← load_cepts pv l; Ok (Some l)
  end.

Section sync.
Context {G Pkt : Type} (p : access_plugin G Pkt).
Abbreviation sync := (collector_sync_t G).
Abbreviation M := (ST sync).

Definition set_sy_plugin (v : G) (s : sync) : sync :=
  Mkcollector_sync_t v s.(sy_store) s.(sy_allusers) s.(sy_activeips) s.(sy_prov)
    s.(sy_conn) s.(sy_queues) s.(sy_out).
Definition set_sy_store (v : session_store) (s : sync) : sync :=
  Mkcollector_sync_t s.(sy_plugin) v s.(sy_allusers) s.(sy_activeips) s.(sy_prov)
    s.(sy_conn) s.(sy_queues) s.(sy_out).
Definition set_sy_allusers (v : list internet_user_t) (s : sync) : sync :=
  Mkcollector_sync_t s.(sy_plugin) s.(sy_store) v s.(sy_activeips) s.(sy_prov)
    s.(sy_conn) s.(sy_queues) s.(sy_out).
Definition set_sy_activeips (v : list ip_to_session_t) (s : sync) : sync :=
  Mkcollector_sync_t s.(sy_plugin) s.(sy_store) s.(sy_allusers) v s.(sy_prov)
    s.(sy_conn) s.(sy_queues) s.(sy_out).
Definition set_sy_prov (v : prov_tables) (s : sync) : sync :=
  Mkcollector_sync_t s.(sy_plugin) s.(sy_store) s.(sy_allusers) s.(sy_activeips) v
    s.(sy_conn) s.(sy_queues) s.(sy_out).
Definition set_sy_conn (v : prov_conn) (s : sync) : sync :=
  Mkcollector_sync_t s.(sy_plugin) s.(sy_store) s.(sy_allusers) s.(sy_activeips) s.(sy_prov)
    v s.(sy_queues) s.(sy_out).
Definition emit (o : list sync_output) : M unit := λ s,
  Ok (tt, Mkcollector_sync_t s.(sy_plugin) s.(sy_store) s.(sy_allusers) s.(sy_activeips)
            s.(sy_prov) s.(sy_conn) s.(sy_queues) (s.(sy_out) ++ o)).
Definition get : M sync := λ s, Ok (s, s).
Definition modify (f : sync → sync) : M unit := λ s, Ok (tt, f s).
(** A function of the plugin. *)
Definition call {A} (m : ST G A) : M A := λ s,
  match m s.(sy_plugin) with
  | Ok (a, g) => Ok (a, set_sy_plugin g s)
  | Abort => Abort
  | Undef => Undef
  end.
Definition load_session (sp : Z) : M access_session_t :=
  s ← get; lift (get_session sp s.(sy_store)).
Definition store_session (sp : Z) (sess : access_session_t) : M unit :=
  modify (λ s, set_sy_store (put_session sp sess s.(sy_store)) s).

(** ** Telling the packet processing threads *)

(** A copy for every address. *)
Fixpoint create_ipsessions (ipint : ipintercept_t) (cin : Z) (ips : list internetaccess_ip_t)
    : outcome (list ipsession_t) :=
  match ips with
  | [] => Ok []
  | ip :: ips =>
      ipsess ← create_ipsession ipint cin ip;
      l ← create_ipsessions ipint cin ips;
      Ok (ipsess :: l)
  end.

(** [push_single_ipintercept] *)
Definition push_single_ipintercept (q : Z) (ipint : ipintercept_t) (sess : access_session_t)
    : M unit :=
  l ← lift (create_ipsessions ipint sess.(as_cin) (session_ips sess));
  emit (map (λ ipsess, Out_push q (OPENLI_PUSH_IPINTERCEPT ipsess)) l).

(** [push_session_update_to_threads]: every thread gets its own copy. *)
Definition push_session_to_threads (updatetype : ipsession_t → openli_pushed_t)
    (sess : access_session_t) (ipint : ipintercept_t) : M unit :=
  s ← get;
  if decide (s.(sy_queues) = []) then mret tt
  else
    l ← lift (create_ipsessions ipint sess.(as_cin) (session_ips sess));
    emit (sessdup ← l; map (λ q, Out_push q (updatetype sessdup)) s.(sy_queues)).
(** With a halt. *)
Definition push_session_update_to_threads := push_session_to_threads OPENLI_PUSH_HALT_IPINTERCEPT.

(** ** IRIs *)

(** [INTERCEPT_IS_ACTIVE] *)
Definition intercept_is_active (ipint : ipintercept_t) (now : Z) : bool :=
  (ipint.(ip_common).(ic_tostart_time) <=? now) &&
  ((ipint.(ip_common).(ic_toend_time) =? 0) || (now <? ipint.(ip_common).(ic_toend_time))).

(** [_create_ipiri_job_basic]; the record type and the parameters are filled in later. *)
Definition create_ipiri_job_basic (ipint : ipintercept_t) (username : cstring)
    (special : ipiri_special) (cin : Z)
    : outcome (etsili_iri_type_t → etsili_generics → openli_ipiri_job_t) :=
  liid ← c_str ipint.(ip_common).(ic_liid);
  username ← c_str username;
  Ok (λ iritype params,
     {| ij_liid := liid; ij_cin := cin; ij_username := Some username; ij_assignedips := [];
        ij_ipversioning := SESSION_IP_VERSION_NONE; ij_sessionstartts := 0;
        ij_access_tech := ipint.(ip_accesstype); ij_special := special;
        ij_ipassignmentmethod := OPENLI_IPIRI_IPMETHOD_UNKNOWN; ij_iritype := iritype;
        ij_customparams := params |}).

Definition publish_ipiri (ipint : ipintercept_t) (sess : access_session_t)
    (job : openli_ipiri_job_t) : M unit :=
  job ← lift (finish_ipiri_job sess job);
  emit [Out_ipiri ipint.(ip_common).(ic_seqtrackerid) ipint.(ip_common).(ic_destid) job].

(** The loop of [create_ipiri_job_from_packet]: again while the plugin answers with a
    positive number.  It has one record or two; running out of [fuel] is [Undef]. *)
Fixpoint ipiri_jobs_from_packet (fuel : nat) (iter : Z) (sess : access_session_t)
    (ipint : ipintercept_t) : M Z :=
  match fuel with
  | O => lift Undef
  | S fuel =>
      job ← lift (create_ipiri_job_basic ipint ipint.(ip_username) OPENLI_IPIRI_STANDARD
                    sess.(as_cin));
      s ← get;
      '(ret, o) ← lift (p.(ap_generate_iri_data) s.(sy_store) iter s.(sy_plugin));
      match o with
      | None => mret (-1)
      | Some (iritype, params) =>
          _ ← publish_ipiri ipint sess (job iritype params);
          if 0 <? ret then ipiri_jobs_from_packet fuel (iter + 1) sess ipint else mret 0
      end
  end.

(** [create_ipiri_job_from_session] *)
Definition create_ipiri_job_from_session (now : Z) (sess : access_session_t) (ipint : ipintercept_t)
    (special : ipiri_special) : M Z :=
  job ← lift (create_ipiri_job_basic ipint ipint.(ip_username) special sess.(as_cin));
  s ← get;
  '(ret, iritype, params) ←
    lift (p.(ap_generate_iri_from_session) s.(sy_store) now sess special ETSILI_IRI_REPORT s.(sy_plugin));
  if ret <=? 0 then mret ret
  else _ ← publish_ipiri ipint sess (job iritype params); mret 0.

Definition publish_mobiri (ipint : ipintercept_t) (sess : access_session_t) (liid : bytes)
    (iritype : etsili_iri_type_t) (params : etsili_generics) : M Z :=
  if decide (iritype = ETSILI_IRI_NONE) then mret 0
  else
    _ ← emit [Out_mobiri ipint.(ip_common).(ic_seqtrackerid) ipint.(ip_common).(ic_destid)
                (Mkopenli_mobiri_job_t liid sess.(as_cin) iritype params)];
    mret 1.

(** [create_mobiri_job_from_packet] *)
Definition create_mobiri_job_from_packet (sess : access_session_t) (ipint : ipintercept_t)
    : M Z :=
  liid ← lift (c_str ipint.(ip_common).(ic_liid));
  s ← get;
  '(_, o) ← lift (p.(ap_generate_iri_data) s.(sy_store) 0 s.(sy_plugin));
  match o with
  | None => mret (-1)
  | Some (iritype, params) => publish_mobiri ipint sess liid iritype params
  end.

(** [create_mobiri_job_from_session] *)
Definition create_mobiri_job_from_session (now : Z) (sess : access_session_t) (ipint : ipintercept_t)
    (special : ipiri_special) : M Z :=
  liid ← lift (c_str ipint.(ip_common).(ic_liid));
  s ← get;
  '(ret, iritype, params) ←
    lift (p.(ap_generate_iri_from_session) s.(sy_store) now sess special ETSILI_IRI_NONE s.(sy_plugin));
  if ret =? -1 then mret (-1) else publish_mobiri ipint sess liid iritype params.

(** Whether an IRI is wanted at all. *)
Definition iri_wanted (now : Z) (ipint : ipintercept_t) : bool :=
  negb (ipint.(ip_common).(ic_tomediate) =? OPENLI_INTERCEPT_OUTPUTS_CCONLY) && intercept_is_active ipint now.
Definition is_mobile (ipint : ipintercept_t) : bool := ipint.(ip_accesstype) =? INTERNET_ACCESS_TYPE_MOBILE.

(** [create_iri_from_packet_event] *)
Definition create_iri_from_packet_event (now : Z) (sess : access_session_t)
    (ipint : ipintercept_t) : M Z :=
  if iri_wanted now ipint then
    if is_mobile ipint then create_mobiri_job_from_packet sess ipint
    else ipiri_jobs_from_packet 2 0 sess ipint
  else mret 0.

(** [create_iri_from_session] *)
Definition create_iri_from_session (now : Z) (sess : access_session_t) (ipint : ipintercept_t)
    (special : ipiri_special) : M Z :=
  if iri_wanted now ipint then
    if is_mobile ipint then create_mobiri_job_from_session now sess ipint special
    else create_ipiri_job_from_session now sess ipint special
  else mret 0.

(** [export_raw_sync_packet_content]: the pieces of the packet until the plugin has no
    more; how many there were. *)
Fixpoint export_raw (fuel : nat) (iteration : Z) (ipint : ipintercept_t) (liid : bytes)
    (seqno cin : Z) : M Z :=
  match fuel with
  | O => lift Undef
  | S fuel =>
      content ← call (p.(ap_get_ip_contents) iteration);
      match content with
      | None => mret iteration
      | Some content =>
          _ ← emit [Out_rawip ipint.(ip_common).(ic_seqtrackerid) ipint.(ip_common).(ic_destid)
                      liid content seqno cin];
          export_raw fuel (iteration + 1) ipint liid seqno cin
      end
  end.

(** ** The addresses in use *)

(** [free_single_session] of internetaccess.c, with [free_session]. *)
Definition free_single_session (user : bytes) (sp : Z) : M unit :=
  s ← get;
  match find_user user s.(sy_allusers) with
  | None => lift Undef
  | Some u =>
      if decide (sp ∈ u.(iu_sessions)) then
        sess ← load_session sp;
        _ ← modify (λ s, set_sy_allusers
                           (update_user (Mkinternet_user_t u.(iu_userid)
                                           (filter (λ x, x ≠ sp) u.(iu_sessions)))
                              s.(sy_allusers)) s);
        _ ← call (p.(ap_destroy_session_data) sess);
        modify (λ s, set_sy_store (free_session_at sp s.(sy_store)) s)
      else lift Undef
  end.

(** The pointers to a session in a mapping, cleared. *)
Definition clear_session (sp : Z) (m : ip_to_session_t) : ip_to_session_t :=
  Mkip_to_session_t m.(im_ip)
    (map (λ o, if decide (o = Some sp) then None else o) m.(im_session))
    (zip_with (λ o owner, if decide (o = Some sp) then None else owner) m.(im_session) m.(im_owner))
    m.(im_cin).

(** One address in [remove_ip_to_session_mapping]: whether there was no mapping. *)
Definition remove_mapping (sp : Z) (ip : internetaccess_ip_t) : M Z :=
  if ip.(ip_family) =? 0 then mret 0
  else
    s ← get;
    match find_mapping ip s.(sy_activeips) with
    | None => mret 1
    | Some m =>
        let m := clear_session sp m in
        _ ← modify (set_sy_activeips
                      (if forallb (λ o, bool_decide (o = None)) m.(im_session)
                       then delete_mapping ip s.(sy_activeips)
                       else update_mapping m s.(sy_activeips)));
        mret 0
    end.

(** [remove_ip_to_session_mapping] *)
Fixpoint remove_mappings (sp : Z) (ips : list internetaccess_ip_t) : M Z :=
  match ips with
  | [] => mret 0
  | ip :: ips => e ← remove_mapping sp ip; n ← remove_mappings sp ips; mret (e + n)
  end.
Definition remove_ip_to_session_mapping (sp : Z) : M Z :=
  sess ← load_session sp;
  errs ← remove_mappings sp (session_ips sess);
  mret (if errs =? 0 then 0 else -1).

(** One user of an address that changed hands, in [report_silent_logoffs]. *)
Definition silent_logoff (now : Z) (ip : internetaccess_ip_t) (owner : option bytes)
    (session : option Z) : M unit :=
  match owner, session with
  | Some user, Some sp =>
      sess ← load_session sp;
      s ← get;
      userint ← lift (find_userint (until_nul user) s.(sy_prov));
      _ ← for_each (default [] userint) (λ ipint,
            _ ← create_iri_from_session now sess ipint OPENLI_IPIRI_SILENTLOGOFF;
            push_session_update_to_threads sess ipint);
      '(r, sess) ← lift (remove_session_ip ip sess);
      _ ← store_session sp sess;
      if r =? 1 then free_single_session user sp else mret tt
  | _, _ => mret tt
  end.

(** [report_silent_logoffs] *)
Definition report_silent_logoffs (now : Z) (prev : ip_to_session_t) : M unit :=
  _ ← for_each (zip prev.(im_owner) prev.(im_session))
        (λ os, silent_logoff now prev.(im_ip) os.1 os.2);
  modify (λ s, set_sy_activeips (delete_mapping prev.(im_ip) s.(sy_activeips)) s).

(** One address of a session in [add_ip_to_session_mapping]: how many owners were
    replaced. *)
Definition add_mapping (now : Z) (sp : Z) (user : bytes) (cin : Z) (ip : internetaccess_ip_t)
    : M Z :=
  s ← get;
  let fresh := Mkip_to_session_t ip [Some sp] [Some user] cin in
  match find_mapping ip s.(sy_activeips) with
  | None =>
      _ ← modify (λ s, set_sy_activeips (s.(sy_activeips) ++ [fresh]) s); mret 0
  | Some prev =>
      if prev.(im_cin) =? cin then
        _ ← modify (λ s, set_sy_activeips
                           (update_mapping
                              (Mkip_to_session_t ip (prev.(im_session) ++ [Some sp])
                                 (prev.(im_owner) ++ [Some user]) cin) s.(sy_activeips)) s);
        mret 0
      else
        _ ← report_silent_logoffs now prev;
        _ ← modify (λ s, set_sy_activeips (s.(sy_activeips) ++ [fresh]) s);
        mret 1
  end.

(** [add_ip_to_session_mapping]; the session is read again for every address. *)
Fixpoint add_mappings (now : Z) (fuel : nat) (i : Z) (sp : Z) (user : bytes) : M Z :=
  match fuel with
  | O => mret 0
  | S fuel =>
      sess ← load_session sp;
      if i <? sess.(as_sessipcount) then
        ip ← lift (deref (sess.(as_sessionips) !! Z.to_nat i));
        r ← add_mapping now sp user sess.(as_cin) ip;
        n ← add_mappings now fuel (i + 1) sp user;
        mret (r + n)
      else mret 0
  end.
Definition add_ip_to_session_mapping (now : Z) (sp : Z) (user : bytes) : M Z :=
  sess ← load_session sp;
  if sess.(as_sessipcount) =? 0 then mret (-1) else add_mappings now 256 0 sp user.

(** ** A packet *)

(** [identity_match_intercept] *)
Definition identity_match_intercept (ipint : ipintercept_t) (uid : user_identity_t) : bool :=
  match uid.(ui_method) with
  | USER_IDENT_RADIUS_USERNAME => Z.testbit ipint.(ip_options) 1
  | USER_IDENT_RADIUS_CSID => Z.testbit ipint.(ip_options) 0
  | _ => true
  end.

(** [is_default_radius_username] *)
Definition is_default_radius_username (s : sync) (uid : user_identity_t) : bool :=
  match uid.(ui_method) with
  | USER_IDENT_RADIUS_USERNAME => bool_decide (is_Some (hash_find uid.(ui_idstr) s.(sy_prov).(pv_defaultradius)))
  | _ => false
  end.

(** [lookup_userid] *)
Definition lookup_userid (uid : user_identity_t) : M internet_user_t :=
  s ← get;
  match find_user uid.(ui_idstr) s.(sy_allusers) with
  | Some u => mret u
  | None =>
      let u := Mkinternet_user_t uid.(ui_idstr) [] in
      _ ← modify (λ s, set_sy_allusers (s.(sy_allusers) ++ [u]) s); mret u
  end.

(** The intercepts of a user that may use the identity. *)
Definition matching (userint : option (list ipintercept_t)) (uid : user_identity_t)
    : list ipintercept_t :=
  filter (λ i, identity_match_intercept i uid = true) (default [] userint).

(** [newly_active_session] *)
Definition newly_active_session (now : Z) (userint : option (list ipintercept_t))
    (user : bytes) (sp : Z) (uid : user_identity_t) : M Z :=
  sess ← load_session sp;
  mapret ← (if 0 <? sess.(as_sessipcount) then add_ip_to_session_mapping now sp user else mret 0);
  if mapret <? 0 then mret (-1)
  else
    match userint with
    | None => mret 0
    | Some _ =>
        s ← get;
        sess ← load_session sp;
        _ ← for_each (matching userint uid) (λ ipint,
              for_each s.(sy_queues) (λ q, push_single_ipintercept q ipint sess));
        _ ← emit [Out_session_added];
        mret 0
    end.

(** A session that is over: the threads are told, its addresses are free. *)
Definition session_over (userint : option (list ipintercept_t)) (sp : Z)
    (uid : user_identity_t) : M unit :=
  sess ← load_session sp;
  _ ← match userint with
      | None => mret tt
      | Some _ =>
          _ ← for_each (matching userint uid) (push_session_update_to_threads sess);
          emit [Out_session_ended]
      end;
  _ ← remove_ip_to_session_mapping sp;
  mret tt.

(** Exporting the packet to the intercepts of the user: how many. *)
Fixpoint export_packet (now : Z) (action : access_action_t) (sess : access_session_t)
    (l : list ipintercept_t) : M Z :=
  match l with
  | [] => mret 0
  | ipint :: l =>
      n ← (if match ipint.(ip_common).(ic_targetagency) with
              | None => true
              | Some a => bool_decide (until_nul a = of_string "pcapdisk")
              end
           then
             s ← get;
             liid ← lift (c_str ipint.(ip_common).(ic_liid));
             k ← export_raw 256 0 ipint liid (p.(ap_get_packet_sequence) s.(sy_plugin)) sess.(as_cin);
             mret (if 0 <? k then 1 else 0)
           else if decide (action = ACCESS_ACTION_NONE) then mret 0
           else _ ← create_iri_from_packet_event now sess ipint; mret 1);
      k ← export_packet now action sess l;
      mret (n + k)
  end.

(** One identity in the loop of [update_user_sessions]: the result so far, whether to
    leave the loop, and the number of exports. *)
Definition update_identity (now : Z) (uid : user_identity_t) : M (Z * bool * Z) :=
  s ← get;
  if is_default_radius_username s uid then mret (0, false, 0)
  else
    iuser ← lookup_userid uid;
    s ← get;
    '(o, l, ss, g) ← lift (p.(ap_update_session_state) now (Some uid.(ui_plugindata))
                             iuser.(iu_sessions) s.(sy_store) s.(sy_plugin));
    _ ← modify (λ s, set_sy_plugin g (set_sy_store ss
                       (set_sy_allusers (update_user (Mkinternet_user_t iuser.(iu_userid) l)
                                           s.(sy_allusers)) s)));
    match o with
    | None => mret (0, false, 0)
    | Some su =>
        let sp := su.(su_sess) in
        let changed := negb (bool_decide (su.(su_oldstate) = su.(su_newstate))) in
        userint ← lift (find_userint iuser.(iu_userid) s.(sy_prov));
        ret ← (if changed && bool_decide (su.(su_newstate) = SESSION_STATE_ACTIVE)
               then newly_active_session now userint iuser.(iu_userid) sp uid else mret 0);
        if ret <? 0 then mret (ret, true, 0)
        else
          _ ← (if changed && bool_decide (su.(su_newstate) = SESSION_STATE_OVER)
               then session_over userint sp uid else mret tt);
          sess ← load_session sp;
          n ← export_packet now su.(su_action) sess (matching userint uid);
          _ ← (if changed && bool_decide (su.(su_newstate) = SESSION_STATE_OVER)
               then free_single_session iuser.(iu_userid) sp else mret tt);
          mret (ret, false, n)
    end.

Fixpoint update_identities (now : Z) (l : list user_identity_t) : M (Z * Z) :=
  match l with
  | [] => mret (0, 0)
  | uid :: l =>
      '(ret, stop, n) ← update_identity now uid;
      if stop : bool then mret (ret, n)
      else '(ret, k) ← update_identities now l; mret (ret, n + k)
  end.

(** [update_user_sessions] for the plugin of the packet's protocol. *)
Definition update_user_sessions (now : Z) (pkt : Pkt) : M Z :=
  parsed ← call (p.(ap_process_packet) pkt);
  match parsed with
  | None => _ ← emit [Out_bad_packet]; mret (-1)
  | Some _ =>
      identities ← call p.(ap_get_userid);
      '(ret, expcount) ← match identities with
                         | None => mret (0, 0)
                         | Some ids => update_identities now ids
                         end;
      _ ← call p.(ap_destroy_parsed_data);
      mret (if ret <? 0 then -1 else if expcount =? 0 then 0 else 1)
  end.
End sync.
