(* ===== verification/SyncProps.v ===== *)
(** * What the synchronisation thread tells the packet processing threads

    Properties of SyncSessions: interception of a session's addresses starts and stops
    together, and the table of the addresses in use has no pointer to a session that
    is over. *)

From stdpp Require Import gmap.
From S2P Require Import Prelude Intercept Publish AccessSession Radius RadiusSession RadiusParse Ipiri RadiusIri IpSession SyncSessions.

(** Running the first step of a sequence. *)
Lemma ST_bind_ok {S A B} (m : ST S A) (k : A → ST S B) s a s' :
  m s = Ok (a, s') → (m ≫= k) s = k a s'.
Proof. intros E. unfold mbind, ST_bind. by rewrite E. Qed.

Section props.
Context {G Pkt : Type} (p : access_plugin G Pkt).
Abbreviation sync := (collector_sync_t G).
Implicit Types (s : sync) (ip : internetaccess_ip_t).

(** ** States *)

Definition with_out (o : list sync_output) s : sync :=
  Mkcollector_sync_t s.(sy_plugin) s.(sy_store) s.(sy_allusers) s.(sy_activeips)
    s.(sy_prov) s.(sy_conn) s.(sy_queues) (s.(sy_out) ++ o).

Lemma with_out_nil s : with_out [] s = s.
Proof. destruct s. unfold with_out. simpl. by rewrite app_nil_r. Qed.
Lemma with_out_app o o' s : with_out o' (with_out o s) = with_out (o ++ o') s.
Proof. unfold with_out. simpl. by rewrite app_assoc. Qed.

Lemma load_session_ok sp sess s :
  s.(sy_store).(ss_heap) !! sp = Some sess → load_session sp s = Ok (sess, s).
Proof. intros E. unfold load_session, get, mbind, ST_bind, lift, get_session. by rewrite E. Qed.
Lemma emit_ok o s : emit o s = Ok (tt, with_out o s).
Proof. done. Qed.

(** A loop whose steps only emit. *)
Lemma for_each_emit {A} (f : A → ST sync unit) (out : A → list sync_output) l s :
  (∀ a o, a ∈ l → f a (with_out o s) = Ok (tt, with_out (o ++ out a) s)) →
  for_each l f s = Ok (tt, with_out (l ≫= out) s).
Proof.
  intros Hf.
  assert (∀ o, for_each l f (with_out o s) = Ok (tt, with_out (o ++ l ≫= out) s)) as H.
  { induction l as [|a l IH]; intros o.
    - simpl. by rewrite app_nil_r.
    - cbn [for_each]. unfold mbind at 1, ST_bind. rewrite Hf by apply list_elem_of_here.
      rewrite IH by (intros; apply Hf; by apply list_elem_of_further). cbn [mbind list_bind]. by rewrite app_assoc. }
  specialize (H []). by rewrite with_out_nil in H.
Qed.

(** ** The copies that are sent *)

(** An intercept whose strings are there. *)
Definition intercept_ok (i : ipintercept_t) : Prop :=
  is_Some i.(ip_common).(ic_liid) ∧ is_Some i.(ip_common).(ic_authcc) ∧
  is_Some i.(ip_common).(ic_delivcc).

(** The copy for an address. *)
Definition ipsession_of (i : ipintercept_t) (cin : Z) ip : ipsession_t :=
  match create_ipsession i cin ip with
  | Ok x => x
  | _ => Mkipsession_t [] cin 0 None 0 0 0 i.(ip_common)
  end.

Lemma create_ipsession_ok i cin ip :
  intercept_ok i → create_ipsession i cin ip = Ok (ipsession_of i cin ip).
Proof.
  intros ([l Hl] & [a Ha] & [d Hd]). unfold ipsession_of, create_ipsession, copy_intercept_common.
  by rewrite Hl, Ha, Hd.
Qed.
Lemma create_ipsessions_ok i cin ips :
  intercept_ok i → create_ipsessions i cin ips = Ok (map (ipsession_of i cin) ips).
Proof.
  intros Hi. induction ips as [|ip ips IH]; [done|]. cbn [create_ipsessions].
  rewrite create_ipsession_ok by done. cbn [mbind outcome_bind]. by rewrite IH.
Qed.

(** The messages of a session for a list of intercepts. *)
Definition starts (queues : list Z) (l : list ipintercept_t) (sess : access_session_t)
    : list sync_output :=
  i ← l; q ← queues;
  map (λ ip, Out_push q (OPENLI_PUSH_IPINTERCEPT (ipsession_of i sess.(as_cin) ip))) (session_ips sess).
Definition halts (queues : list Z) (l : list ipintercept_t) (sess : access_session_t)
    : list sync_output :=
  i ← l; ip ← session_ips sess;
  map (λ q, Out_push q (OPENLI_PUSH_HALT_IPINTERCEPT (ipsession_of i sess.(as_cin) ip))) queues.

Lemma starts_In queues l sess o :
  o ∈ starts queues l sess ↔ ∃ i q ip, i ∈ l ∧ q ∈ queues ∧ ip ∈ session_ips sess ∧
    o = Out_push q (OPENLI_PUSH_IPINTERCEPT (ipsession_of i sess.(as_cin) ip)).
Proof.
  unfold starts. rewrite list_elem_of_bind. split.
  - intros (i & (q & Ho & Hq)%list_elem_of_bind & Hi).
    apply list_elem_of_fmap in Ho as (ip & -> & Hip). by exists i, q, ip.
  - intros (i & q & ip & Hi & Hq & Hip & ->). exists i. split; [|done].
    apply list_elem_of_bind. exists q. split; [|done]. apply list_elem_of_fmap. by exists ip.
Qed.
Lemma halts_In queues l sess o :
  o ∈ halts queues l sess ↔ ∃ i q ip, i ∈ l ∧ q ∈ queues ∧ ip ∈ session_ips sess ∧
    o = Out_push q (OPENLI_PUSH_HALT_IPINTERCEPT (ipsession_of i sess.(as_cin) ip)).
Proof.
  unfold halts. rewrite list_elem_of_bind. split.
  - intros (i & (ip & Ho & Hip)%list_elem_of_bind & Hi).
    apply list_elem_of_fmap in Ho as (q & -> & Hq). by exists i, q, ip.
  - intros (i & q & ip & Hi & Hq & Hip & ->). exists i. split; [|done].
    apply list_elem_of_bind. exists ip. split; [|done]. apply list_elem_of_fmap. by exists q.
Qed.

Lemma push_single_ok q i sess s :
  intercept_ok i →
  push_single_ipintercept q i sess s =
  Ok (tt, with_out (map (λ ip, Out_push q (OPENLI_PUSH_IPINTERCEPT (ipsession_of i sess.(as_cin) ip)))
                      (session_ips sess)) s).
Proof.
  intros Hi. unfold push_single_ipintercept. rewrite create_ipsessions_ok by done.
  unfold mbind, ST_bind, lift, emit, with_out. by rewrite map_map.
Qed.

Lemma push_starts_ok l sess s :
  Forall intercept_ok l →
  for_each l (λ i, for_each s.(sy_queues) (λ q, push_single_ipintercept q i sess)) s =
  Ok (tt, with_out (starts s.(sy_queues) l sess) s).
Proof.
  intros Hl. rewrite Forall_forall in Hl. unfold starts. apply for_each_emit. intros i o Hi.
  rewrite (for_each_emit _ (λ q, map (λ ip, Out_push q (OPENLI_PUSH_IPINTERCEPT
             (ipsession_of i sess.(as_cin) ip))) (session_ips sess))).
  - by rewrite with_out_app.
  - intros q o' _. rewrite push_single_ok by auto. by rewrite !with_out_app.
Qed.

Lemma push_halts_ok l sess s :
  Forall intercept_ok l →
  for_each l (push_session_update_to_threads sess) s =
  Ok (tt, with_out (halts s.(sy_queues) l sess) s).
Proof.
  intros Hl. rewrite Forall_forall in Hl. unfold halts. apply for_each_emit. intros i o Hi.
  unfold push_session_update_to_threads, push_session_to_threads, mbind at 1, ST_bind at 1, get.
  cbn [with_out sy_queues]. destruct (decide _) as [E|_].
  - rewrite E. replace (ip ← session_ips sess; map _ []) with ([] : list sync_output).
    + by rewrite app_nil_r.
    + by induction (session_ips sess).
  - rewrite create_ipsessions_ok by auto. unfold mbind at 1, ST_bind, lift, emit.
    unfold with_out. cbn [sy_plugin sy_store sy_allusers sy_activeips sy_prov
      sy_conn sy_queues sy_out]. rewrite <- app_assoc. repeat f_equal.
    induction (session_ips sess) as [|ip l' IH]; [done|]. cbn [map mbind list_bind]. by f_equal.
Qed.

(** ** The addresses of a session *)

Definition fresh_mapping (sp : Z) (user : bytes) (cin : Z) ip : ip_to_session_t :=
  Mkip_to_session_t ip [Some sp] [Some user] cin.

Lemma find_mapping_None ip l : ip ∉ map im_ip l → find_mapping ip l = None.
Proof.
  unfold find_mapping. induction l as [|m l IH]; [done|]. cbn [map].
  intros [Hm Hl]%not_elem_of_cons. rewrite filter_cons_False by congruence. by apply IH.
Qed.
Lemma find_mapping_app ip m l l' :
  ip ∉ map im_ip l → m.(im_ip) = ip → find_mapping ip (l ++ m :: l') = Some m.
Proof.
  intros Hl Hm. unfold find_mapping. rewrite filter_app.
  assert (filter (λ x, x.(im_ip) = ip) l = []) as ->.
  { induction l as [|x l IH]; [done|]. cbn [map] in Hl. apply not_elem_of_cons in Hl as [Hx Hl].
    rewrite filter_cons_False by congruence. by apply IH. }
  by rewrite filter_cons_True.
Qed.
Lemma delete_mapping_absent ip l : ip ∉ map im_ip l → delete_mapping ip l = l.
Proof.
  unfold delete_mapping. induction l as [|x l IH]; [done|]. cbn [map].
  intros [Hx Hl]%not_elem_of_cons. rewrite filter_cons_True by congruence. f_equal. by apply IH.
Qed.
Lemma delete_mapping_app ip m l l' :
  ip ∉ map im_ip (l ++ l') → m.(im_ip) = ip → delete_mapping ip (l ++ m :: l') = l ++ l'.
Proof.
  intros Hl Hm. rewrite <- (delete_mapping_absent ip (l ++ l') Hl). unfold delete_mapping.
  by rewrite !filter_app, filter_cons_False by tauto.
Qed.

Lemma set_activeips_twice v w s : set_sy_activeips v (set_sy_activeips w s) = set_sy_activeips v s.
Proof. done. Qed.
Lemma set_activeips_same s : set_sy_activeips s.(sy_activeips) s = s.
Proof. by destruct s. Qed.

Lemma map_fresh_ips sp user cin l : map im_ip (map (fresh_mapping sp user cin) l) = l.
Proof. rewrite map_map. apply map_id. Qed.

(** Addresses that nobody uses are all entered. *)
Lemma add_mappings_fresh now sp user sess todo before fuel s :
  s.(sy_store).(ss_heap) !! sp = Some sess → session_ips sess = before ++ todo →
  as_sessipcount sess = zlen (session_ips sess) → NoDup (session_ips sess) →
  (∀ ip, ip ∈ session_ips sess → ip ∉ map im_ip s.(sy_activeips)) →
  (length todo < fuel)%nat →
  add_mappings p now fuel (zlen before) sp user
    (set_sy_activeips (s.(sy_activeips) ++ map (fresh_mapping sp user sess.(as_cin)) before) s) =
  Ok (0, set_sy_activeips
           (s.(sy_activeips) ++ map (fresh_mapping sp user sess.(as_cin)) (session_ips sess)) s).
Proof.
  intros Hsp Hsplit Hcount Hnd Hfree. revert before fuel Hsplit.
  induction todo as [|ip todo IH]; intros before fuel Hsplit Hfuel;
    (destruct fuel as [|fuel]; [simpl in Hfuel; lia|]); cbn [add_mappings];
    unfold load_session, get, mbind, ST_bind, lift, get_session;
    cbn [set_sy_activeips sy_store]; rewrite Hsp.
  - rewrite app_nil_r in Hsplit. rewrite Hcount, Hsplit, Z.ltb_irrefl. done.
  - destruct (Z.ltb_spec (zlen before) sess.(as_sessipcount)) as [_|Hlt];
      [|rewrite Hcount, Hsplit in Hlt; unfold zlen in Hlt; rewrite length_app in Hlt; simpl in Hlt; lia].
    assert (sess.(as_sessionips) !! Z.to_nat (zlen before) = Some ip) as ->.
    { apply (lookup_take_Some _ (Z.to_nat sess.(as_sessipcount))).
      change (take _ _) with (session_ips sess). rewrite Hsplit. unfold zlen. rewrite Nat2Z.id.
      rewrite lookup_app_r, Nat.sub_diag by done. done. }
    cbn [deref]. unfold add_mapping, get, modify, mbind, ST_bind.
    rewrite Hsplit in Hnd. apply NoDup_app in Hnd as (_ & Hdisj & [Hip _]%NoDup_cons).
    rewrite find_mapping_None.
    2:{ cbn [set_sy_activeips sy_activeips]. rewrite map_app, map_fresh_ips, elem_of_app.
        intros [Hin|Hin].
        - apply (Hfree ip); [|done]. rewrite Hsplit, elem_of_app. right. apply list_elem_of_here.
        - apply (Hdisj ip); [done|]. apply list_elem_of_here. }
    cbn [sy_activeips set_sy_activeips]. rewrite <- app_assoc.
    specialize (IH (before ++ [ip]) fuel).
    rewrite map_app, <- app_assoc in IH. cbn [map app] in IH.
    replace (zlen (before ++ [ip])) with (zlen before + 1) in IH by (unfold zlen; rewrite length_app; simpl; lia).
    simpl in Hfuel.
    unfold mret at 1, ST_ret. rewrite set_activeips_twice. fold (fresh_mapping sp user sess.(as_cin) ip).
    rewrite IH; [done|done|lia].
Qed.

(** And all removed. *)
Lemma remove_mappings_fresh sp user cin A todo s :
  NoDup todo → (∀ ip, ip ∈ todo → (ip ∉ map im_ip A) ∧ ip.(ip_family) ≠ 0) →
  s.(sy_activeips) = A ++ map (fresh_mapping sp user cin) todo →
  remove_mappings sp todo s = Ok (0, set_sy_activeips A s).
Proof.
  revert s. induction todo as [|ip todo IH]; intros s Hnd Hfree Hs; cbn [remove_mappings].
  - rewrite app_nil_r in Hs. rewrite <- Hs. by rewrite set_activeips_same.
  - apply NoDup_cons in Hnd as [Hip Hnd]. destruct (Hfree ip) as [HA Hfam]; [apply list_elem_of_here|].
    unfold remove_mapping, get, modify, mbind, ST_bind. rewrite (proj2 (Z.eqb_neq _ _)) by done.
    rewrite Hs. cbn [map]. rewrite (find_mapping_app ip (fresh_mapping sp user cin ip)) by done.
    unfold clear_session at 1. cbn [im_session fresh_mapping map forallb].
    rewrite decide_True by done. cbn.
    rewrite (delete_mapping_app ip (fresh_mapping sp user cin ip));
      [|rewrite map_app, map_fresh_ips, elem_of_app; tauto|done].
    rewrite IH; [by rewrite set_activeips_twice|done|intros; apply Hfree; by apply list_elem_of_further|done].
Qed.

(** A session that has addresses nobody else uses. *)
Record session_free (sp : Z) (sess : access_session_t) s : Prop := {
  sf_here : s.(sy_store).(ss_heap) !! sp = Some sess;
  sf_count : 0 < sess.(as_sessipcount) < 256;
  sf_ips : sess.(as_sessipcount) = zlen (session_ips sess);
  sf_nodup : NoDup (session_ips sess);
  sf_family : Forall (λ ip, ip.(ip_family) ≠ 0) (session_ips sess);
  sf_free : Forall (λ ip, ip ∉ map im_ip s.(sy_activeips)) (session_ips sess);
}.

Lemma newly_active_ok now l user sp uid sess s :
  session_free sp sess s → Forall intercept_ok (matching (Some l) uid) →
  newly_active_session p now (Some l) user sp uid s =
  Ok (0, with_out (starts s.(sy_queues) (matching (Some l) uid) sess ++ [Out_session_added])
           (set_sy_activeips (s.(sy_activeips) ++
              map (fresh_mapping sp user sess.(as_cin)) (session_ips sess)) s)).
Proof.
  intros [Hsp Hc Hips Hnd _ Hfree] Hl. rewrite Forall_forall in Hfree.
  unfold newly_active_session. rewrite (ST_bind_ok _ _ _ _ _ (load_session_ok _ _ _ Hsp)).
  rewrite (proj2 (Z.ltb_lt _ _)) by lia.
  set (s1 := set_sy_activeips _ s).
  assert (add_ip_to_session_mapping p now sp user s = Ok (0, s1)) as Hadd.
  { unfold add_ip_to_session_mapping. rewrite (ST_bind_ok _ _ _ _ _ (load_session_ok _ _ _ Hsp)).
    rewrite (proj2 (Z.eqb_neq _ 0)) by lia.
    pose proof (add_mappings_fresh now sp user sess (session_ips sess) [] 256 s Hsp eq_refl Hips Hnd
                  Hfree) as Hadd.
    cbn [map app] in Hadd. rewrite app_nil_r, set_activeips_same in Hadd. apply Hadd.
    unfold zlen in *. lia. }
  rewrite (ST_bind_ok _ _ _ _ _ Hadd). cbn [Z.ltb Z.compare].
  assert (get s1 = Ok (s1, s1)) as Hget by done. rewrite (ST_bind_ok _ _ _ _ _ Hget).
  assert (load_session sp s1 = Ok (sess, s1)) as Hload by by apply load_session_ok.
  rewrite (ST_bind_ok _ _ _ _ _ Hload).
  rewrite (ST_bind_ok _ _ _ _ _ (push_starts_ok _ _ _ Hl)).
  rewrite (ST_bind_ok _ _ _ _ _ (emit_ok _ _)). by rewrite with_out_app.
Qed.

Lemma session_over_ok l user sp uid sess A s :
  s.(sy_store).(ss_heap) !! sp = Some sess → NoDup (session_ips sess) →
  Forall (λ ip, ip.(ip_family) ≠ 0) (session_ips sess) →
  Forall (λ ip, ip ∉ map im_ip A) (session_ips sess) →
  s.(sy_activeips) = A ++ map (fresh_mapping sp user sess.(as_cin)) (session_ips sess) →
  Forall intercept_ok (matching (Some l) uid) →
  session_over (Some l) sp uid s =
  Ok (tt, with_out (halts s.(sy_queues) (matching (Some l) uid) sess ++ [Out_session_ended])
            (set_sy_activeips A s)).
Proof.
  intros Hsp Hnd Hfam Hfree Hs Hl. rewrite Forall_forall in Hfam, Hfree.
  unfold session_over. rewrite (ST_bind_ok _ _ _ _ _ (load_session_ok _ _ _ Hsp)).
  set (s1 := with_out (halts s.(sy_queues) (matching (Some l) uid) sess) s).
  assert ((_ ← for_each (matching (Some l) uid) (push_session_update_to_threads sess);
           emit [Out_session_ended]) s = Ok (tt, with_out [Out_session_ended] s1)) as Hout.
  { by rewrite (ST_bind_ok _ _ _ _ _ (push_halts_ok _ _ _ Hl)). }
  rewrite (ST_bind_ok _ _ _ _ _ Hout).
  assert (remove_ip_to_session_mapping sp (with_out [Out_session_ended] s1) =
          Ok (0, set_sy_activeips A (with_out [Out_session_ended] s1))) as Hrem.
  { unfold remove_ip_to_session_mapping.
    assert (load_session sp (with_out [Out_session_ended] s1) =
            Ok (sess, with_out [Out_session_ended] s1)) as Hload by by apply load_session_ok.
    rewrite (ST_bind_ok _ _ _ _ _ Hload). unfold mbind, ST_bind.
    rewrite (remove_mappings_fresh sp user sess.(as_cin) A); [done|done|by auto|exact Hs]. }
  rewrite (ST_bind_ok _ _ _ _ _ Hrem). unfold s1. rewrite with_out_app. done.
Qed.

(** Turning a start into the halt of the same interception. *)
Definition halt_of (o : sync_output) : sync_output :=
  match o with
  | Out_push q (OPENLI_PUSH_IPINTERCEPT x) => Out_push q (OPENLI_PUSH_HALT_IPINTERCEPT x)
  | o => o
  end.

Lemma bind_swap {A B C} (f : A → B → C) (l : list A) (k : list B) :
  (a ← l; map (f a) k) ≡ₚ (b ← k; map (λ a, f a b) l).
Proof.
  induction l as [|a l IH]; cbn [mbind list_bind].
  - induction k; [done|]. by cbn [mbind list_bind].
  - rewrite IH. clear IH. induction k as [|b k IH]; [done|].
    cbn [map mbind list_bind app]. rewrite <- IH. apply perm_skip.
    rewrite !app_assoc. apply Permutation_app_tail, Permutation_app_comm.
Qed.

(** Every start has its halt. *)
Lemma halts_starts queues l sess : halts queues l sess ≡ₚ map halt_of (starts queues l sess).
Proof.
  unfold halts, starts. induction l as [|i l IH]; [done|]. cbn [mbind list_bind].
  rewrite map_app. apply Permutation_app; [|exact IH].
  rewrite (bind_swap (λ ip q, Out_push q (OPENLI_PUSH_HALT_IPINTERCEPT
                                (ipsession_of i sess.(as_cin) ip)))).
  clear IH. induction queues as [|q k IH]; [done|]. cbn [mbind list_bind].
  rewrite map_app, map_map. by apply Permutation_app.
Qed.

(** C12: When a session becomes active every packet processing thread is told to start
    intercepting every address of the session, once for every intercept of the user
    that may use this identity; when the session is over the same threads are told to
    stop, for the same addresses and intercepts, and the table of the addresses in use
    is what it was before. *)
Theorem session_start_stop_balanced (now : Z) (l : list ipintercept_t) (user : bytes) (sp : Z)
    (uid : user_identity_t) (sess : access_session_t) (s : sync) :
  session_free sp sess s → Forall intercept_ok (matching (Some l) uid) →
  ∃ s1 s2 on off,
    newly_active_session p now (Some l) user sp uid s = Ok (0, s1) ∧
    s1.(sy_out) = s.(sy_out) ++ on ++ [Out_session_added] ∧
    (∀ o, o ∈ on ↔ ∃ i q ip, i ∈ l ∧ identity_match_intercept i uid = true ∧
       q ∈ s.(sy_queues) ∧ ip ∈ session_ips sess ∧
       ∃ x, create_ipsession i sess.(as_cin) ip = Ok x ∧ o = Out_push q (OPENLI_PUSH_IPINTERCEPT x)) ∧
    session_over (Some l) sp uid s1 = Ok (tt, s2) ∧
    s2.(sy_out) = s1.(sy_out) ++ off ++ [Out_session_ended] ∧
    off ≡ₚ map halt_of on ∧
    s2.(sy_activeips) = s.(sy_activeips) ∧ s2.(sy_store) = s.(sy_store).
Proof.
  intros Hf Hl. do 2 eexists. exists (starts s.(sy_queues) (matching (Some l) uid) sess),
    (halts s.(sy_queues) (matching (Some l) uid) sess).
  split; [by apply newly_active_ok|]. split; [done|]. split; [|split; [|split; [|split]]].
  - intros o. rewrite Forall_forall in Hl. rewrite starts_In. split.
    + intros (i & q & ip & Hi & Hq & Hip & ->).
      pose proof (create_ipsession_ok i sess.(as_cin) ip (Hl i Hi)).
      apply list_elem_of_filter in Hi as [Hm Hi]. by eauto 15.
    + intros (i & q & ip & Hi & Hm & Hq & Hip & x & Hx & ->). exists i, q, ip.
      split; [apply list_elem_of_filter; auto|]. split; [done|]. split; [done|].
      unfold ipsession_of. by rewrite Hx.
  - destruct Hf as [Hsp _ _ Hnd Hfam Hfree].
    apply (session_over_ok l user sp uid sess s.(sy_activeips)); done.
  - done.
  - apply halts_starts.
  - done.
Qed.

(** ** Pointers to sessions *)

(** A mapping of an address points to a session. *)
Definition refers (l : list ip_to_session_t) ip (sp : Z) : Prop :=
  ∃ m, m ∈ l ∧ m.(im_ip) = ip ∧ Some sp ∈ m.(im_session).

Lemma find_mapping_In ip l m : find_mapping ip l = Some m → m ∈ l ∧ m.(im_ip) = ip.
Proof.
  unfold find_mapping. intros H%head_Some_elem_of. apply list_elem_of_filter in H. tauto.
Qed.
Lemma find_mapping_None_inv ip l : find_mapping ip l = None → ip ∉ map im_ip l.
Proof.
  unfold find_mapping. intros H%head_None Hin. apply list_elem_of_fmap in Hin as (m & -> & Hm).
  apply (filter_nil_not_elem_of _ _ m H); done.
Qed.
Lemma nodup_mapping l m m' :
  NoDup (map im_ip l) → m ∈ l → m' ∈ l → m.(im_ip) = m'.(im_ip) → m = m'.
Proof.
  induction l as [|x l IH]; cbn [map]; [by intros _ ?%not_elem_of_nil|].
  intros [Hx Hnd]%NoDup_cons [->|Hm]%elem_of_cons [->|Hm']%elem_of_cons E; try done.
  - destruct Hx. rewrite E. by apply list_elem_of_fmap_2.
  - destruct Hx. rewrite <- E. by apply list_elem_of_fmap_2.
  - by apply IH.
Qed.
Lemma clear_session_refs sp sp' m :
  Some sp' ∈ (clear_session sp m).(im_session) ↔ Some sp' ∈ m.(im_session) ∧ sp' ≠ sp.
Proof.
  unfold clear_session. cbn [im_session]. rewrite list_elem_of_fmap. split.
  - intros (o & Ho & Hin). destruct (decide (o = Some sp)) as [->|Hne]; [done|]. subst o.
    split; [done|congruence].
  - intros [Hin Hne]. exists (Some sp'). split; [|done]. rewrite decide_False; congruence.
Qed.
Lemma update_mapping_keys m l : map im_ip (update_mapping m l) = map im_ip l.
Proof.
  unfold update_mapping. rewrite map_map. apply map_ext. intros x. by destruct (decide _).
Qed.
Lemma delete_mapping_In ip l m : m ∈ delete_mapping ip l ↔ m ∈ l ∧ m.(im_ip) ≠ ip.
Proof. unfold delete_mapping. rewrite list_elem_of_filter. tauto. Qed.
Lemma delete_mapping_keys ip l :
  map im_ip (delete_mapping ip l) = filter (λ x, x ≠ ip) (map im_ip l).
Proof.
  unfold delete_mapping. induction l as [|x l IH]; [done|]. rewrite filter_cons. cbn [map].
  rewrite filter_cons. destruct (decide _); cbn [map]; by rewrite IH.
Qed.
Lemma update_mapping_In m l x :
  x ∈ update_mapping m l ↔
  (x ∈ l ∧ x.(im_ip) ≠ m.(im_ip)) ∨ (x = m ∧ m.(im_ip) ∈ map im_ip l).
Proof.
  unfold update_mapping. rewrite list_elem_of_fmap. split.
  - intros (y & -> & Hy). destruct (decide _) as [E|]; [right|by left].
    split; [done|]. rewrite <- E. by apply list_elem_of_fmap_2.
  - intros [[Hx Hne]|[-> Hin]].
    + exists x. by rewrite decide_False.
    + apply list_elem_of_fmap in Hin as (y & E & Hy). exists y. by rewrite decide_True.
Qed.

Lemma remove_mapping_refs sp ip s :
  NoDup (map im_ip s.(sy_activeips)) → ip.(ip_family) ≠ 0 →
  ∃ e l, remove_mapping sp ip s = Ok (e, set_sy_activeips l s) ∧ NoDup (map im_ip l) ∧
    ∀ ip' sp', refers l ip' sp' ↔ refers s.(sy_activeips) ip' sp' ∧ ¬ (ip' = ip ∧ sp' = sp).
Proof.
  intros Hnd Hfam. unfold remove_mapping, get, modify, mbind, ST_bind.
  rewrite (proj2 (Z.eqb_neq _ _)) by done.
  destruct (find_mapping ip s.(sy_activeips)) as [m|] eqn:Hm.
  - apply find_mapping_In in Hm as [Hm Hip].
    assert (Hkey : (clear_session sp m).(im_ip) = ip) by done.
    destruct (forallb _ _) eqn:Hnull; do 2 eexists; (split; [reflexivity|]).
    + split; [rewrite delete_mapping_keys; by apply NoDup_filter|]. intros ip' sp'. split.
      * intros (x & [Hx Hne]%delete_mapping_In & <- & Hs). split; [by exists x|tauto].
      * intros [(x & Hx & <- & Hs) Hnot]. exists x. split_and!; [|done..].
        apply delete_mapping_In. split; [done|]. intros E. apply Hnot. split; [done|].
        assert (x = m) as -> by (apply (nodup_mapping s.(sy_activeips)); congruence).
        destruct (decide (sp' = sp)) as [|Hne]; [done|]. exfalso.
        assert (Some sp' ∈ (clear_session sp m).(im_session)) as Hin by by apply clear_session_refs.
        apply Is_true_true, forallb_True in Hnull. rewrite Forall_forall in Hnull.
        specialize (Hnull _ Hin). by apply bool_decide_unpack in Hnull.
    + split; [by rewrite update_mapping_keys|]. intros ip' sp'. split.
      * intros (x & [[Hx Hne]|[-> _]]%update_mapping_In & <- & Hs).
        -- split; [by exists x|]. rewrite Hkey in Hne. tauto.
        -- apply clear_session_refs in Hs as [Hs Hne]. split; [by exists m|tauto].
      * intros [(x & Hx & <- & Hs) Hnot]. destruct (decide (x.(im_ip) = ip)) as [E|Hne].
        -- assert (x = m) as -> by (apply (nodup_mapping s.(sy_activeips)); congruence).
           exists (clear_session sp m). split_and!; [|done|apply clear_session_refs; split; [done|intros ->; by apply Hnot]].
           apply update_mapping_In. right. split; [done|]. by apply (list_elem_of_fmap_2 im_ip _ m).
        -- exists x. split_and!; [|done..]. apply update_mapping_In. left. by rewrite Hkey.
  - exists 1, s.(sy_activeips). rewrite set_activeips_same. split; [done|]. split; [done|].
    intros ip' sp'. split; [|tauto]. intros Hr. split; [done|]. intros [-> ->].
    destruct Hr as (x & Hx & Hxip & _). apply (find_mapping_None_inv _ _ Hm).
    rewrite <- Hxip. by apply list_elem_of_fmap_2.
Qed.

Lemma remove_mappings_refs sp ips s :
  NoDup (map im_ip s.(sy_activeips)) → Forall (λ ip, ip.(ip_family) ≠ 0) ips →
  ∃ e l, remove_mappings sp ips s = Ok (e, set_sy_activeips l s) ∧ NoDup (map im_ip l) ∧
    ∀ ip' sp', refers l ip' sp' ↔ refers s.(sy_activeips) ip' sp' ∧ ¬ (ip' ∈ ips ∧ sp' = sp).
Proof.
  intros Hnd Hfam. revert s Hnd. induction Hfam as [|ip ips Hip _ IH]; intros s Hnd.
  - exists 0, s.(sy_activeips). rewrite set_activeips_same. split; [done|]. split; [done|].
    intros. rewrite elem_of_nil. tauto.
  - destruct (remove_mapping_refs sp ip s Hnd Hip) as (e & l & E & Hl & Hr).
    destruct (IH (set_sy_activeips l s) Hl) as (e' & l' & E' & Hl' & Hr').
    exists (e + e'), l'. split; [|split; [done|]].
    + cbn [remove_mappings]. rewrite (ST_bind_ok _ _ _ _ _ E), (ST_bind_ok _ _ _ _ _ E'). done.
    + intros ip' sp'. rewrite Hr'. cbn [set_sy_activeips sy_activeips]. rewrite Hr, elem_of_cons. tauto.
Qed.

(** Every pointer in the table leads to a session that has the address. *)
Record mappings_sound s : Prop := {
  ms_keys : NoDup (map im_ip s.(sy_activeips));
  ms_refs ip sp : refers s.(sy_activeips) ip sp →
    ∃ sess, s.(sy_store).(ss_heap) !! sp = Some sess ∧ ip ∈ session_ips sess;
}.

(** C23: When a session is over, [remove_ip_to_session_mapping] removes every pointer to
    it from the table of addresses and no other one, so that the table still leads to
    live sessions only after the session has been freed. *)
Theorem over_leaves_no_pointer (sp : Z) (sess : access_session_t) (s : sync) :
  mappings_sound s → s.(sy_store).(ss_heap) !! sp = Some sess →
  Forall (λ ip, ip.(ip_family) ≠ 0) (session_ips sess) →
  ∃ r s', remove_ip_to_session_mapping sp s = Ok (r, s') ∧
    (∀ ip sp', refers s'.(sy_activeips) ip sp' ↔ refers s.(sy_activeips) ip sp' ∧ sp' ≠ sp) ∧
    mappings_sound s' ∧ mappings_sound (set_sy_store (free_session_at sp s'.(sy_store)) s').
Proof.
  intros [Hnd Hrefs] Hsp Hfam. unfold remove_ip_to_session_mapping.
  rewrite (ST_bind_ok _ _ _ _ _ (load_session_ok _ _ _ Hsp)).
  destruct (remove_mappings_refs sp (session_ips sess) s Hnd Hfam) as (e & l & E & Hl & Hr).
  rewrite (ST_bind_ok _ _ _ _ _ E). do 2 eexists. split; [reflexivity|].
  cbn [set_sy_activeips sy_activeips sy_store set_sy_store].
  assert (Hr' : ∀ ip sp', refers l ip sp' ↔ refers s.(sy_activeips) ip sp' ∧ sp' ≠ sp).
  { intros ip sp'. rewrite Hr. split; [|tauto]. intros [H Hnot]. split; [done|]. intros ->.
    apply Hnot. destruct (Hrefs _ _ H) as (sess' & Hs' & Hip). by simplify_eq. }
  split; [done|]. split; split; cbn [sy_activeips sy_store]; try done; intros ip sp' H;
    apply Hr' in H as [H Hne]; destruct (Hrefs _ _ H) as (sess' & Hs' & Hip); exists sess'.
  - done.
  - split; [|done]. unfold free_session_at. cbn. by rewrite lookup_delete_ne.
Qed.
End props.

(** ** RADIUS *)

(** [radiusplugin] of radius.c. *)
Definition radius_plugin : access_plugin radius_global_t radius_packet :=
  {| ap_process_packet := radius_parse_packet;
     ap_destroy_parsed_data := λ g, g ← radius_destroy_parsed_data g; Ok (tt, g);
     ap_get_userid := radius_get_userid;
     ap_update_session_state := radius_update_session_state;
     ap_generate_iri_data := λ _ i g, radius_generate_iri_data g.(rg_parsedpkt) i;
     ap_generate_iri_from_session := λ _ _, radius_generate_iri_from_session;
     ap_destroy_session_data := λ sess g, g ← radius_destroy_session_data sess g; Ok (tt, g);
     ap_get_packet_sequence := λ g, DERIVE_REQUEST_ID g.(rg_parsedpkt) g.(rg_parsedpkt).(rd_msgtype);
     ap_get_ip_contents := λ _ g, Ok (None, g) |}.

(** ** A run *)

Definition sample_common : intercept_common_t :=
  {| ic_liid := Some (of_string "LI1"); ic_authcc := Some (of_string "NZ");
     ic_delivcc := Some (of_string "NZ"); ic_liid_len := 3; ic_authcc_len := 2; ic_delivcc_len := 2;
     ic_destid := 5; ic_targetagency := Some (of_string "agency"); ic_seqtrackerid := 0;
     ic_hi1_seqno := 0; ic_tostart_time := 0; ic_toend_time := 0; ic_tomediate := 0;
     ic_encrypt := 0; ic_encryptkey := None |}.
Definition sample_intercept : ipintercept_t :=
  {| ip_common := sample_common; ip_username := Some (of_string "alice"); ip_username_len := 5;
     ip_accesstype := 0; ip_vendmirrorid := 0; ip_statics := []; ip_awaitingconfirm := 0;
     ip_options := 3 |}.

(** Two threads, and one intercept, for alice. *)
Definition sample_prov : prov_tables :=
  Mkprov_tables {[0 := sample_intercept]} [] 1 [(of_string "LI1", 0)]
    [(of_string "alice", [(of_string "LI1", 0)])] [] [] ∅.
Definition sample_conn : prov_conn := Mkprov_conn 1 1 1 2 (-1) 0 1 true None None 0.
Definition sample_sync : collector_sync_t radius_global_t :=
  Mkcollector_sync_t empty_plugin (Mksession_store ∅ 0) [] [] sample_prov sample_conn [1; 2] [].

Definition acct_message (user : string) (sessid : string) (code ident : Z) (status : Z) : radius_packet :=
  radius_message [10; 0; 0; 2] 5000000 code ident
    (if is_request code then
       [(RADIUS_ATTR_USERNAME, of_string user); (RADIUS_ATTR_NASIDENTIFIER, of_string "nas1");
        (RADIUS_ATTR_ACCT_SESSION_ID, of_string sessid);
        (RADIUS_ATTR_ACCT_STATUS_TYPE, [0; 0; 0; status]);
        (RADIUS_ATTR_FRAMED_IP_ADDRESS, [192; 168; 1; 7])]
     else []).
Definition alice_start := acct_message "alice" "99" RADIUS_CODE_ACCOUNT_REQUEST 7 1.
Definition alice_stop := acct_message "alice" "99" RADIUS_CODE_ACCOUNT_REQUEST 8 2.
Definition bob_start := acct_message "bob" "55" RADIUS_CODE_ACCOUNT_REQUEST 9 1.
Definition answer (ident : Z) := acct_message "" "" RADIUS_CODE_ACCOUNT_RESPONSE ident 0.

Fixpoint run_packets (now : Z) (l : list radius_packet) (s : collector_sync_t radius_global_t)
    : outcome (list Z * collector_sync_t radius_global_t) :=
  match l with
  | [] => Ok ([], s)
  | pkt :: l =>
      '(r, s) ← update_user_sessions radius_plugin now pkt s;
      '(rs, s) ← run_packets now l s;
      Ok (r :: rs, s)
  end.
(** The state after some packets. *)
Definition state_after (l : list radius_packet) : collector_sync_t radius_global_t :=
  match run_packets 6000000 l sample_sync with Ok (_, s) => s | _ => sample_sync end.

(** What a run made of the address, and the types of the IRIs it published. *)
Definition address_users (s : collector_sync_t radius_global_t) : list (list (option bytes)) :=
  map im_owner s.(sy_activeips).
Definition iris_sent (s : collector_sync_t radius_global_t) : list etsili_iri_type_t :=
  s.(sy_out) ≫= λ o, match o with Out_ipiri _ _ j => [j.(ij_iritype)] | _ => [] end.

Abbreviation after_run l f := (rs ← run_packets 6000000 l sample_sync; Ok (f rs.2)).

(** A session that starts and stops is reported with BEGIN and END; a user that takes
    over the address of a session ends it, with an END for its intercept. *)
Lemma session_runs :
  after_run [alice_start; answer 7; alice_stop; answer 8]
    (λ s, (iris_sent s, address_users s)) =
    Ok ([ETSILI_IRI_REPORT; ETSILI_IRI_BEGIN; ETSILI_IRI_END], []) ∧
  after_run [alice_start; answer 7; bob_start; answer 9]
    (λ s, (iris_sent s, address_users s)) =
    Ok ([ETSILI_IRI_REPORT; ETSILI_IRI_BEGIN; ETSILI_IRI_END], [[Some (of_string "bob")]]).
Proof. split; by vm_compute. Qed.

(** If the answer to the start was seen before the start, the address is in the session
    twice ([overtaken_start_counts_twice]) and so is the session in the mapping of the
    address; when the address goes to another user the session is freed at its first
    place in the mapping and used at its second. *)
Lemma overtaken_start_use_after_free :
  after_run [answer 7; alice_start] address_users =
    Ok [[Some (of_string "alice"); Some (of_string "alice")]] ∧
  after_run [answer 7; alice_start; bob_start; answer 9] address_users = Undef.
Proof. split; by vm_compute. Qed.

Definition alice_session : access_session_t :=
  default (Mkaccess_session_t [] 0 SESSION_IP_VERSION_NONE [] None 0 0 0 0)
    ((state_after [alice_start; answer 7]).(sy_store).(ss_heap) !! 0).
Definition alice_id : user_identity_t :=
  Mkuser_identity_t USER_IDENT_RADIUS_USERNAME (of_string "alice") 5 0.

(** Before the session had become active. *)
Definition before_active : collector_sync_t radius_global_t :=
  set_sy_activeips [] (state_after [alice_start; answer 7]).

Lemma session_start_stop_balanced_witness :
  ∃ s1 s2 on off,
    newly_active_session radius_plugin 6000000 (Some [sample_intercept]) (of_string "alice") 0
      alice_id before_active = Ok (0, s1) ∧
    s1.(sy_out) = before_active.(sy_out) ++ on ++ [Out_session_added] ∧
    (∀ o, o ∈ on ↔ ∃ i q ip, i ∈ [sample_intercept] ∧ identity_match_intercept i alice_id = true ∧
       q ∈ before_active.(sy_queues) ∧ ip ∈ session_ips alice_session ∧
       ∃ x, create_ipsession i alice_session.(as_cin) ip = Ok x ∧
            o = Out_push q (OPENLI_PUSH_IPINTERCEPT x)) ∧
    session_over (Some [sample_intercept]) 0 alice_id s1 = Ok (tt, s2) ∧
    s2.(sy_out) = s1.(sy_out) ++ off ++ [Out_session_ended] ∧
    off ≡ₚ map halt_of on ∧
    s2.(sy_activeips) = before_active.(sy_activeips) ∧ s2.(sy_store) = before_active.(sy_store).
Proof.
  apply (session_start_stop_balanced radius_plugin 6000000 [sample_intercept] (of_string "alice") 0
           alice_id alice_session before_active).
  - split; [by vm_compute|by vm_compute|by vm_compute| | |].
    + apply (bool_decide_unpack (NoDup _)). by vm_compute.
    + apply (bool_decide_unpack (Forall (λ ip, ip.(ip_family) ≠ 0) _)). by vm_compute.
    + apply Forall_forall. intros ip _. apply not_elem_of_nil.
  - apply Forall_forall. intros i [_ ->%list_elem_of_singleton]%list_elem_of_filter. by repeat eexists.
Defined.

Lemma over_leaves_no_pointer_witness :
  ∃ r s', remove_ip_to_session_mapping 0 (state_after [alice_start; answer 7]) = Ok (r, s') ∧
    (∀ ip sp', refers s'.(sy_activeips) ip sp' ↔
       refers (state_after [alice_start; answer 7]).(sy_activeips) ip sp' ∧ sp' ≠ 0) ∧
    mappings_sound s' ∧ mappings_sound (set_sy_store (free_session_at 0 s'.(sy_store)) s').
Proof.
  apply (over_leaves_no_pointer 0 alice_session (state_after [alice_start; answer 7])).
  - split; [apply (bool_decide_unpack (NoDup _)); by vm_compute|].
    intros ip sp (m & Hm & <- & Hs).
    assert ((state_after [alice_start; answer 7]).(sy_activeips) =
            [fresh_mapping 0 (of_string "alice") 99 (Mkinternetaccess_ip_t 2 [192; 168; 1; 7] 32)])
      as E by by vm_compute.
    rewrite E in Hm. apply list_elem_of_singleton in Hm as ->.
    apply list_elem_of_singleton in Hs as [= ->]. exists alice_session. split; [by vm_compute|].
    assert (session_ips alice_session = [Mkinternetaccess_ip_t 2 [192; 168; 1; 7] 32]) as -> by by vm_compute.
    apply list_elem_of_here.
  - by vm_compute.
  - apply (bool_decide_unpack (Forall (λ ip, ip.(ip_family) ≠ 0) _)). by vm_compute.
Defined.
