(* ===== verification/SyncThreads.v ===== *)
(** * From a session to the packets of its addresses

    The synchronisation thread and a packet processing thread together: the messages
    that one sends when a session becomes active and when it is over, handled by the
    other. *)

From stdpp Require Import gmap.
From S2P Require Import Prelude Intercept Publish AccessSession Radius RadiusSession RadiusParse Ipiri RadiusIri.
From S2P Require Import HashTable IpSession CoreServer ThreadTables PacketContents ThreadProps ThreadFaults SyncSessions SyncProps.

(** What a thread finds in its queue. *)
Definition messages_for (q : Z) (out : list sync_output) : list openli_pushed_t :=
  out ≫= λ o, match o with Out_push q' m => if decide (q' = q) then [m] else [] | _ => [] end.

Lemma messages_for_In q out m : m ∈ messages_for q out ↔ Out_push q m ∈ out.
Proof.
  unfold messages_for. rewrite list_elem_of_bind. split.
  - intros (o & Hm & Ho). destruct o; try by apply not_elem_of_nil in Hm.
    destruct (decide _) as [->|]; [|by apply not_elem_of_nil in Hm].
    apply list_elem_of_singleton in Hm as ->. done.
  - intros Ho. eexists. split; [|exact Ho]. cbn. rewrite decide_True by done. apply list_elem_of_here.
Qed.

(** ** Lists of starts and of halts *)

Definition v4_session (x : ipsession_t) : Prop := x.(ps_ai_family) = AF_INET ∧ is_Some x.(ps_targetip).
Definition session_at (x : ipsession_t) : bytes * bytes := (default [] x.(ps_targetip), x.(ps_streamkey)).

Lemma at_v4_ok a x f : v4_session x → at_v4 a x f = f (session_at x).
Proof. intros [Hf [addr Ha]]. unfold at_v4, session_at. by rewrite Ha, Hf. Qed.

(** Sessions that are started are intercepted, nothing else changes. *)
Lemma foldl_starts (a : active_map) (ms : list openli_pushed_t) :
  Forall (λ m, ∃ x, m = OPENLI_PUSH_IPINTERCEPT x ∧ v4_session x) ms →
  (∀ k, (∃ x, OPENLI_PUSH_IPINTERCEPT x ∈ ms ∧ session_at x = k ∧ foldl active_step a ms !! k = Some x) ∨
        ((∀ x, OPENLI_PUSH_IPINTERCEPT x ∈ ms → session_at x ≠ k) ∧ foldl active_step a ms !! k = a !! k)).
Proof.
  intros Hms. revert a. induction Hms as [|m ms (x & -> & Hx) _ IH]; intros a k.
  - right. split; [|done]. by intros x ?%not_elem_of_nil.
  - cbn [foldl]. change (active_step a (OPENLI_PUSH_IPINTERCEPT x)) with
      (at_v4 a x (λ k, <[k := x]> a)). rewrite at_v4_ok by done.
    destruct (IH (<[session_at x := x]> a) k) as [(y & Hy & Hk & Hl)|[Hnot Hl]].
    + left. exists y. split; [by apply list_elem_of_further|done].
    + destruct (decide (session_at x = k)) as [Hk|Hk].
      * left. exists x. split; [apply list_elem_of_here|]. split; [done|]. rewrite Hl, <- Hk.
        by rewrite lookup_insert_eq.
      * right. rewrite Hl, lookup_insert_ne by done. split; [|done].
        intros y [[= ->]|Hy]%elem_of_cons; [done|by apply Hnot].
Qed.

(** Sessions that are halted are not intercepted, nothing else changes. *)
Lemma foldl_halts (a : active_map) (ms : list openli_pushed_t) :
  Forall (λ m, ∃ x, m = OPENLI_PUSH_HALT_IPINTERCEPT x ∧ v4_session x) ms →
  (∀ k, ((∃ x, OPENLI_PUSH_HALT_IPINTERCEPT x ∈ ms ∧ session_at x = k) ∧
           foldl active_step a ms !! k = None) ∨
        ((∀ x, OPENLI_PUSH_HALT_IPINTERCEPT x ∈ ms → session_at x ≠ k) ∧
           foldl active_step a ms !! k = a !! k)).
Proof.
  intros Hms. revert a. induction Hms as [|m ms (x & -> & Hx) _ IH]; intros a k.
  - right. split; [|done]. by intros x ?%not_elem_of_nil.
  - cbn [foldl]. change (active_step a (OPENLI_PUSH_HALT_IPINTERCEPT x)) with
      (at_v4 a x (λ k, delete k a)). rewrite at_v4_ok by done.
    destruct (IH (delete (session_at x) a) k) as [[(y & Hy & Hk) Hl]|[Hnot Hl]].
    + left. split; [|done]. exists y. split; [by apply list_elem_of_further|done].
    + destruct (decide (session_at x = k)) as [Hk|Hk].
      * left. split; [exists x; split; [apply list_elem_of_here|done]|]. rewrite Hl, <- Hk.
        by rewrite lookup_delete_eq.
      * right. rewrite Hl, lookup_delete_ne by done. split; [|done].
        intros y [[= ->]|Hy]%elem_of_cons; [done|by apply Hnot].
Qed.

Section composed.
Context {G Pkt : Type} (p : access_plugin G Pkt).
Context {T : Type} `{!Patricia T liid_table}.
Context (ascii2prefix : bytes → option prefix_t) (inet_ntop6 : bytes → bytes).
Abbreviation run := (process_queue ascii2prefix inet_ntop6).
Abbreviation loc := (colthread_local_t T).

(** Messages about IPv4 sessions are always handled. *)
Lemma run_v4_total (ms : list openli_pushed_t) (l : loc) :
  Forall (λ m, ∃ x, (m = OPENLI_PUSH_IPINTERCEPT x ∨ m = OPENLI_PUSH_HALT_IPINTERCEPT x) ∧ v4_session x) ms →
  ∃ l', run ms l = Ok l'.
Proof.
  intros Hms. revert l. induction Hms as [|m ms (x & Hm & [Hf _]) _ IH]; intros l; [by eexists|].
  cbn [process_queue].
  destruct Hm as [->| ->]; cbn [process_incoming_messages];
    unfold handle_push_ipintercept, handle_halt_ipintercept; rewrite Hf; run_outcome; apply IH.
Qed.

(** What a thread does with a packet is a matter of the abstract state. *)
Lemma v4_contents_same (l l' : loc) a addr dir pkt tv :
  v4_refines l.(cl_v4) a → v4_refines l'.(cl_v4) a → map_Forall (λ _, has_liid) a →
  0 < zlen pkt.(lp_layer3) →
  ∃ jobs jobs', v4_contents addr dir pkt tv l = Ok (zlen jobs, jobs) ∧
    v4_contents addr dir pkt tv l' = Ok (zlen jobs', jobs') ∧ ∀ j, j ∈ jobs ↔ j ∈ jobs'.
Proof.
  intros Hl Hl' Ha Hp.
  destruct (v4_contents_ok l a addr dir pkt tv Hl Ha Hp) as (jobs & E & Hj).
  destruct (v4_contents_ok l' a addr dir pkt tv Hl' Ha Hp) as (jobs' & E' & Hj').
  exists jobs, jobs'. split; [done|]. split; [done|]. intros j. by rewrite Hj, Hj'.
Qed.

(** The LIID of an intercept. *)
Definition liid_of (i : ipintercept_t) : bytes := until_nul (default [] i.(ip_common).(ic_liid)).

Lemma ipsession_of_fields i cin ip :
  intercept_ok i →
  let x := ipsession_of i cin ip in
  x.(ps_ai_family) = ip.(ip_family) ∧ x.(ps_targetip) = Some ip.(ip_addr) ∧
  x.(ps_streamkey) = stream_name 256 (liid_of i) cin ∧ x.(ps_cin) = cin ∧
  x.(ps_accesstype) = i.(ip_accesstype) ∧ copy_intercept_common i.(ip_common) = Ok x.(ps_common).
Proof.
  intros Hi x. pose proof (create_ipsession_ok i cin ip Hi) as E. fold x in E.
  unfold create_ipsession in E. apply bind_Ok in E as (c & Hc & E).
  apply bind_Ok in E as (liid & Hl & [= <-]). cbn. unfold liid_of.
  destruct Hi as ([y Hy] & _). rewrite Hy in Hl |- *. by injection Hl as <-.
Qed.
Lemma ipsession_of_liid i cin ip : intercept_ok i → has_liid (ipsession_of i cin ip).
Proof.
  intros Hi. destruct (ipsession_of_fields i cin ip Hi) as (_ & _ & _ & _ & _ & Hc).
  unfold copy_intercept_common in Hc. unfold has_liid.
  apply bind_Ok in Hc as (? & _ & Hc). apply bind_Ok in Hc as (? & _ & Hc).
  apply bind_Ok in Hc as (? & _ & [= <-]). by eexists.
Qed.

Lemma cc_wanted_copy c c' tv : copy_intercept_common c = Ok c' → cc_wanted c' tv = cc_wanted c tv.
Proof.
  unfold copy_intercept_common. intros (? & _ & Hc)%bind_Ok. apply bind_Ok in Hc as (? & _ & Hc).
  by apply bind_Ok in Hc as (? & _ & [= <-]).
Qed.
Lemma copy_fields c c' : copy_intercept_common c = Ok c' →
  c'.(ic_destid) = c.(ic_destid) ∧ c'.(ic_liid) = Some (until_nul (default [] c.(ic_liid))).
Proof.
  unfold copy_intercept_common. intros (? & Hl & Hc)%bind_Ok. apply bind_Ok in Hc as (? & _ & Hc).
  apply bind_Ok in Hc as (? & _ & [= <-]). split; [done|]. cbn.
  destruct c.(ic_liid); [|done]. by injection Hl as <-.
Qed.
Lemma until_nul_twice x : until_nul (until_nul x) = until_nul x.
Proof. induction x as [|b x IH]; [done|]. cbn. destruct (decide (b = 0)) eqn:E; [done|]. cbn. rewrite E. by f_equal. Qed.

(** The job for a packet of a session, by its intercept. *)
Definition intercept_job (i : ipintercept_t) (cin : Z) (pkt : libtrace_packet_t) (dir : Z) : ipcc_job :=
  Mkipcc_job (if i.(ip_accesstype) =? INTERNET_ACCESS_TYPE_MOBILE
              then OPENLI_EXPORT_UMTSCC else OPENLI_EXPORT_IPCC)
    i.(ip_common).(ic_destid) (liid_of i) cin dir pkt.(lp_layer3).

Lemma session_job_of i cin ip pkt dir :
  intercept_ok i → session_job (ipsession_of i cin ip) pkt dir = intercept_job i cin pkt dir.
Proof.
  intros Hi. destruct (ipsession_of_fields i cin ip Hi) as (_ & _ & _ & Hc & Ha & Hcopy).
  apply copy_fields in Hcopy as [Hd Hl]. unfold session_job, intercept_job.
  rewrite Hc, Ha, Hd, Hl. cbn [default]. unfold id, liid_of. by rewrite until_nul_twice.
Qed.

(** The streams of a session: an address and the name of the stream. *)
Definition stream_at (i : ipintercept_t) (cin : Z) (ip : internetaccess_ip_t) : bytes * bytes :=
  (ip.(ip_addr), stream_name 256 (liid_of i) cin).

Lemma session_at_of i cin ip : intercept_ok i → session_at (ipsession_of i cin ip) = stream_at i cin ip.
Proof.
  intros Hi. destruct (ipsession_of_fields i cin ip Hi) as (_ & Ht & Hk & _).
  unfold session_at, stream_at. by rewrite Ht, Hk.
Qed.

Section threads.
Context (L : list ipintercept_t) (sess : access_session_t) (queues : list Z) (q : Z).
Context (HL : Forall intercept_ok L) (Hq : q ∈ queues).
Context (Hfam : Forall (λ ip, ip.(ip_family) = AF_INET) (session_ips sess)).
Context (Hdist : ∀ i j, i ∈ L → j ∈ L → liid_of i = liid_of j → i = j).
Context (Hshort : Forall (λ i, zlen (liid_of i) ≤ 240) L) (Hcin : 0 ≤ sess.(as_cin) < 2 ^ 32).
Abbreviation cin := sess.(as_cin).

Lemma start_messages m :
  m ∈ messages_for q (starts queues L sess ++ [Out_session_added]) ↔
  ∃ i ip, i ∈ L ∧ ip ∈ session_ips sess ∧ m = OPENLI_PUSH_IPINTERCEPT (ipsession_of i cin ip).
Proof.
  rewrite messages_for_In, elem_of_app, starts_In. split.
  - intros [(i & q' & ip & Hi & _ & Hip & [= <- ->])|?%list_elem_of_singleton]; [|done].
    by exists i, ip.
  - intros (i & ip & Hi & Hip & ->). left. by exists i, q, ip.
Qed.
Lemma halt_messages m :
  m ∈ messages_for q (halts queues L sess ++ [Out_session_ended]) ↔
  ∃ i ip, i ∈ L ∧ ip ∈ session_ips sess ∧ m = OPENLI_PUSH_HALT_IPINTERCEPT (ipsession_of i cin ip).
Proof.
  rewrite messages_for_In, elem_of_app, halts_In. split.
  - intros [(i & q' & ip & Hi & _ & Hip & [= <- ->])|?%list_elem_of_singleton]; [|done].
    by exists i, ip.
  - intros (i & ip & Hi & Hip & ->). left. by exists i, q, ip.
Qed.

Lemma ipsession_of_v4 i ip :
  i ∈ L → ip ∈ session_ips sess → v4_session (ipsession_of i cin ip).
Proof.
  pose proof (proj1 (Forall_forall _ _) HL) as HL'.
  pose proof (proj1 (Forall_forall _ _) Hfam) as Hfam'. intros Hi Hip.
  destruct (ipsession_of_fields i cin ip (HL' i Hi)) as (Hf & Ht & _).
  split; [rewrite Hf; by apply Hfam'|by rewrite Ht].
Qed.

(** After the starts every stream of the session is intercepted, in the name of its
    intercept. *)
Lemma started a i ip :
  i ∈ L → ip ∈ session_ips sess →
  ∃ ip', foldl active_step a (messages_for q (starts queues L sess ++ [Out_session_added]))
           !! stream_at i cin ip = Some (ipsession_of i cin ip').
Proof.
  intros Hi Hip. pose proof HL as HL'. rewrite Forall_forall in HL'.
  destruct (foldl_starts a (messages_for q (starts queues L sess ++ [Out_session_added])))
    with (k := stream_at i cin ip) as [(x & Hx & Hk & Hl)|[Hnot _]].
  - apply Forall_forall. intros m (j & jp & Hj & Hjp & ->)%start_messages.
    eexists. split; [done|by apply ipsession_of_v4].
  - apply start_messages in Hx as (j & jp & Hj & _ & [= ->]).
    rewrite session_at_of in Hk by auto. injection Hk as _ Hk.
    pose proof (proj1 (Forall_forall _ _) Hshort) as Hs.
    pose proof (Hs i Hi : zlen (liid_of i) ≤ 240). pose proof (Hs j Hj : zlen (liid_of j) ≤ 240).
    apply stream_name_inj in Hk as [Hk _]; [|lia..].
    assert (j = i) as -> by by apply Hdist. by exists jp.
  - exfalso. apply (Hnot (ipsession_of i cin ip)).
    + apply start_messages. by exists i, ip.
    + by apply session_at_of, HL'.
Qed.

(** Starts and halts cancel out. *)
Lemma started_halted a :
  (∀ i ip, i ∈ L → ip ∈ session_ips sess → a !! stream_at i cin ip = None) →
  foldl active_step
    (foldl active_step a (messages_for q (starts queues L sess ++ [Out_session_added])))
    (messages_for q (halts queues L sess ++ [Out_session_ended])) = a.
Proof.
  intros Hnone. apply map_eq. intros k. pose proof HL as HL'. rewrite Forall_forall in HL'.
  set (a1 := foldl active_step a _).
  destruct (foldl_halts a1 (messages_for q (halts queues L sess ++ [Out_session_ended])))
    with (k := k) as [[(x & Hx & Hk) ->]|[Hnot ->]].
  - apply Forall_forall. intros m (j & jp & Hj & Hjp & ->)%halt_messages.
    eexists. split; [done|by apply ipsession_of_v4].
  - apply halt_messages in Hx as (j & jp & Hj & Hjp & [= ->]).
    rewrite session_at_of in Hk by auto. subst k. symmetry. by apply Hnone.
  - destruct (foldl_starts a (messages_for q (starts queues L sess ++ [Out_session_added])))
      with (k := k) as [(x & Hx & Hk & _)|[_ Hl]].
    + apply Forall_forall. intros m (j & jp & Hj & Hjp & ->)%start_messages.
      eexists. split; [done|by apply ipsession_of_v4].
    + apply start_messages in Hx as (j & jp & Hj & Hjp & [= ->]). exfalso.
      apply (Hnot (ipsession_of j cin jp)); [|done]. apply halt_messages. by exists j, jp.
    + exact Hl.
Qed.

Lemma start_messages_ok :
  Forall message_ok (messages_for q (starts queues L sess ++ [Out_session_added])).
Proof.
  apply Forall_forall. intros m (j & jp & Hj & Hjp & ->)%start_messages.
  apply ipsession_of_liid. by apply (proj1 (Forall_forall _ _) HL).
Qed.
End threads.

(** C2: A session of a target is intercepted from its start to its end.  When the
    session becomes active and a processing thread has handled the messages that were
    sent to it, every packet to or from an address of the session is published for every
    intercept of the user that wants content at that time, with the intercept's LIID and
    destination and the session's CIN; when the session is over and the thread has
    handled the messages sent then, it publishes what it published before the session. *)
Theorem session_traffic_intercepted (now : Z) (l : list ipintercept_t) (user : bytes) (sp : Z)
    (uid : user_identity_t) (sess : access_session_t) (s : collector_sync_t G) (q : Z)
    (thr : loc) (a : active_map) :
  session_free sp sess s → Forall intercept_ok (matching (Some l) uid) → q ∈ s.(sy_queues) →
  Forall (λ ip, ip.(ip_family) = AF_INET) (session_ips sess) → 0 ≤ sess.(as_cin) < 2 ^ 32 →
  (∀ i j, i ∈ matching (Some l) uid → j ∈ matching (Some l) uid → liid_of i = liid_of j → i = j) →
  Forall (λ i, zlen (liid_of i) ≤ 240) (matching (Some l) uid) →
  v4_refines thr.(cl_v4) a → map_Forall (λ _, has_liid) a →
  (∀ i ip, i ∈ matching (Some l) uid → ip ∈ session_ips sess → a !! stream_at i sess.(as_cin) ip = None) →
  ∃ s1 s2 on off thr1 thr2,
    newly_active_session p now (Some l) user sp uid s = Ok (0, s1) ∧
    s1.(sy_out) = s.(sy_out) ++ on ∧ run (messages_for q on) thr = Ok thr1 ∧
    session_over (Some l) sp uid s1 = Ok (tt, s2) ∧
    s2.(sy_out) = s1.(sy_out) ++ off ∧ run (messages_for q off) thr1 = Ok thr2 ∧
    ∀ ip pkt tv dir, ip ∈ session_ips sess → 0 < zlen pkt.(lp_layer3) →
      (∃ jobs, v4_contents ip.(ip_addr) dir pkt tv thr1 = Ok (zlen jobs, jobs) ∧
         ∀ i, i ∈ l → identity_match_intercept i uid = true → cc_wanted i.(ip_common) tv = true →
              intercept_job i sess.(as_cin) pkt dir ∈ jobs) ∧
      (∃ jobs jobs', v4_contents ip.(ip_addr) dir pkt tv thr = Ok (zlen jobs, jobs) ∧
         v4_contents ip.(ip_addr) dir pkt tv thr2 = Ok (zlen jobs', jobs') ∧ ∀ j, j ∈ jobs ↔ j ∈ jobs').
Proof.
  intros Hfree HL Hq Hfam Hcin Hdist Hshort Hr Ha Hnone. set (L := matching (Some l) uid) in *.
  set (on := starts s.(sy_queues) L sess ++ [Out_session_added]).
  set (off := halts s.(sy_queues) L sess ++ [Out_session_ended]).
  destruct (run_v4_total (messages_for q on) thr) as [thr1 Hrun1].
  { apply Forall_forall. intros m (j & jp & Hj & Hjp & ->)%start_messages; [|done].
    eexists. split; [by left|by eapply ipsession_of_v4]. }
  destruct (run_v4_total (messages_for q off) thr1) as [thr2 Hrun2].
  { apply Forall_forall. intros m (j & jp & Hj & Hjp & ->)%halt_messages; [|done].
    eexists. split; [by right|by eapply ipsession_of_v4]. }
  pose proof (process_queue_refines _ _ _ _ _ _ Hr Hrun1) as Hr1.
  pose proof (process_queue_refines _ _ _ _ _ _ Hr1 Hrun2) as Hr2.
  unfold on, off in Hr2. rewrite started_halted in Hr2 by done.
  assert (Ha1 := active_liid _ _ Ha (start_messages_ok L sess s.(sy_queues) q HL Hq)).
  do 2 eexists. exists on, off, thr1, thr2.
  split; [by apply newly_active_ok|]. split; [done|]. split; [done|].
  split.
  { destruct Hfree as [Hsp _ _ Hnd Hf0 Hf]. apply (session_over_ok l user sp uid sess s.(sy_activeips)); done. }
  split; [done|]. split; [done|]. intros ip pkt tv dir Hip Hp. split; [|by eapply v4_contents_same].
  destruct (v4_contents_ok thr1 _ ip.(ip_addr) dir pkt tv Hr1 Ha1 Hp) as (jobs & E & Hj).
  exists jobs. split; [done|]. intros i Hi Hm Hw. apply Hj.
  assert (i ∈ L) as HiL by by apply list_elem_of_filter.
  destruct (started L sess s.(sy_queues) q HL Hq Hfam Hdist Hshort Hcin a i ip HiL Hip) as [ip' Hl'].
  rewrite Forall_forall in HL. specialize (HL i HiL).
  exists (stream_name 256 (liid_of i) sess.(as_cin)), (ipsession_of i sess.(as_cin) ip').
  split; [exact Hl'|]. split; [|by rewrite session_job_of].
  destruct (ipsession_of_fields i sess.(as_cin) ip' HL) as (_ & _ & _ & _ & _ & Hc).
  by rewrite (cc_wanted_copy _ _ tv Hc).
Qed.
End composed.

(** ** A run, from RADIUS packets to content *)

(** The content that the first thread publishes for packets of 192.168.1.7 after some
    RADIUS packets. *)
Definition published_after (pkts : list radius_packet) : outcome (list (bytes * Z)) :=
  rs ← run_packets 6000000 pkts sample_sync;
  l ← process_queue sample_prefix sample_ntop (messages_for 1 rs.2.(sy_out)) new_thread;
  '(_, jobs) ← v4_contents [192; 168; 1; 7] 0 sample_content 6000000 l;
  Ok (map (λ j, (j.(cj_liid), j.(cj_cin))) jobs).

Lemma content_run :
  published_after [alice_start] = Ok [] ∧
  published_after [alice_start; answer 7] = Ok [(of_string "LI1", 99)] ∧
  published_after [alice_start; answer 7; alice_stop; answer 8] = Ok [] ∧
  published_after [alice_start; answer 7; bob_start; answer 9] = Ok [].
Proof. split_and!; by vm_compute. Qed.

Lemma session_traffic_intercepted_witness :
  ∃ s1 s2 on off thr1 thr2,
    newly_active_session radius_plugin 6000000 (Some [sample_intercept]) (of_string "alice") 0
      alice_id before_active = Ok (0, s1) ∧
    s1.(sy_out) = before_active.(sy_out) ++ on ∧
    process_queue sample_prefix sample_ntop (messages_for 1 on) new_thread = Ok thr1 ∧
    session_over (Some [sample_intercept]) 0 alice_id s1 = Ok (tt, s2) ∧
    s2.(sy_out) = s1.(sy_out) ++ off ∧
    process_queue sample_prefix sample_ntop (messages_for 1 off) thr1 = Ok thr2 ∧
    ∀ ip pkt tv dir, ip ∈ session_ips alice_session → 0 < zlen pkt.(lp_layer3) →
      (∃ jobs, v4_contents ip.(ip_addr) dir pkt tv thr1 = Ok (zlen jobs, jobs) ∧
         ∀ i, i ∈ [sample_intercept] → identity_match_intercept i alice_id = true →
              cc_wanted i.(ip_common) tv = true →
              intercept_job i alice_session.(as_cin) pkt dir ∈ jobs) ∧
      (∃ jobs jobs', v4_contents ip.(ip_addr) dir pkt tv new_thread = Ok (zlen jobs, jobs) ∧
         v4_contents ip.(ip_addr) dir pkt tv thr2 = Ok (zlen jobs', jobs') ∧ ∀ j, j ∈ jobs ↔ j ∈ jobs').
Proof.
  apply (session_traffic_intercepted radius_plugin sample_prefix sample_ntop 6000000 [sample_intercept]
           (of_string "alice") 0 alice_id alice_session before_active 1 new_thread ∅).
  - split; [by vm_compute|by vm_compute|by vm_compute| | |].
    + apply (bool_decide_unpack (NoDup _)). by vm_compute.
    + apply (bool_decide_unpack (Forall (λ ip, ip.(ip_family) ≠ 0) _)). by vm_compute.
    + apply Forall_forall. intros ip _. apply not_elem_of_nil.
  - apply Forall_forall. intros i [_ ->%list_elem_of_singleton]%list_elem_of_filter. by repeat eexists.
  - apply (bool_decide_unpack (1 ∈ _)). by vm_compute.
  - apply (bool_decide_unpack (Forall (λ ip, ip.(ip_family) = AF_INET) _)). by vm_compute.
  - by vm_compute.
  - intros i j [_ ->%list_elem_of_singleton]%list_elem_of_filter
      [_ ->%list_elem_of_singleton]%list_elem_of_filter _. reflexivity.
  - apply (bool_decide_unpack (Forall (λ i, zlen (liid_of i) ≤ 240) _)). by vm_compute.
  - split; [split|].
    + apply table_ok_nil.
    + intros addr ss E. discriminate E.
    + intros addr key. by rewrite lookup_empty.
  - apply map_Forall_empty.
  - intros. apply lookup_empty.
Defined.
