(* ===== verification/SyncIntercepts.v ===== *)
(** * IP intercepts in the synchronisation thread
      (src/src/collector/collector_sync.c; the lists of a user's intercepts of
      src/src/intercept.c, [create_ipiri_job_from_iprange] of src/src/collector/ipiri.c)

    The provisioner announces, changes and withdraws intercepts, the static address ranges
    that belong to them, core servers and default RADIUS user names.  The synchronisation
    thread keeps them in tables, tells the packet processing threads what to intercept and
    the sequence trackers which intercepts there are, and publishes IRIs for sessions that
    are already active.

    Intercepts have addresses, since two tables, the time events and the lists of users
    point to them.  [update_modified_intercept] takes the user name of the message and then
    frees the message with it: such an intercept is in [pv_stale], and any use of its
    user name is undefined.

    [ascii2prefix] of libpatricia is a parameter.  Log messages and the pointers passed to
    [printf] are left out. *)

From stdpp Require Import gmap.
From S2P Require Import Prelude Intercept NetBuffer Publish AccessSession Radius RadiusSession Ipiri JenkinsHash HashTable IpSession TimedIntercept CoreServer ThreadTables SyncSessions.

Definition set_pv_cepts (v : gmap Z ipintercept_t) (t : prov_tables) : prov_tables :=
  Mkprov_tables v t.(pv_stale) t.(pv_next) t.(pv_ipintercepts) t.(pv_userintercepts)
    t.(pv_coreservers) t.(pv_defaultradius) t.(pv_events).
Definition set_pv_stale (v : list Z) (t : prov_tables) : prov_tables :=
  Mkprov_tables t.(pv_cepts) v t.(pv_next) t.(pv_ipintercepts) t.(pv_userintercepts)
    t.(pv_coreservers) t.(pv_defaultradius) t.(pv_events).
Definition set_pv_next (v : Z) (t : prov_tables) : prov_tables :=
  Mkprov_tables t.(pv_cepts) t.(pv_stale) v t.(pv_ipintercepts) t.(pv_userintercepts)
    t.(pv_coreservers) t.(pv_defaultradius) t.(pv_events).
Definition set_pv_ipintercepts (v : list (bytes * Z)) (t : prov_tables) : prov_tables :=
  Mkprov_tables t.(pv_cepts) t.(pv_stale) t.(pv_next) v t.(pv_userintercepts)
    t.(pv_coreservers) t.(pv_defaultradius) t.(pv_events).
Definition set_pv_userintercepts (v : list (bytes * list (bytes * Z))) (t : prov_tables)
    : prov_tables :=
  Mkprov_tables t.(pv_cepts) t.(pv_stale) t.(pv_next) t.(pv_ipintercepts) v
    t.(pv_coreservers) t.(pv_defaultradius) t.(pv_events).
Definition set_pv_coreservers (v : list (bytes * coreserver_t)) (t : prov_tables) : prov_tables :=
  Mkprov_tables t.(pv_cepts) t.(pv_stale) t.(pv_next) t.(pv_ipintercepts) t.(pv_userintercepts)
    v t.(pv_defaultradius) t.(pv_events).
Definition set_pv_defaultradius (v : list (bytes * default_radius_user_t)) (t : prov_tables)
    : prov_tables :=
  Mkprov_tables t.(pv_cepts) t.(pv_stale) t.(pv_next) t.(pv_ipintercepts) t.(pv_userintercepts)
    t.(pv_coreservers) v t.(pv_events).
Definition set_pv_events (v : time_events) (t : prov_tables) : prov_tables :=
  Mkprov_tables t.(pv_cepts) t.(pv_stale) t.(pv_next) t.(pv_ipintercepts) t.(pv_userintercepts)
    t.(pv_coreservers) t.(pv_defaultradius) v.

(** A key of [len] bytes at a string that was made with a NUL after it. *)
Definition string_key (s : cstring) (len : Z) : outcome bytes :=
  if len =? 0 then Ok [] else v ← deref s; read_bytes len (v ++ [0]).
(** The key [liid, liid_len] of a table of intercepts. *)
Definition cept_key (i : ipintercept_t) : outcome bytes :=
  string_key i.(ip_common).(ic_liid) i.(ip_common).(ic_liid_len).

(** [HASH_FIND] on the ranges of an intercept. *)
Definition find_static (range : bytes) (i : ipintercept_t) : option static_ipranges_t :=
  head (filter (λ r, until_nul <$> r.(sr_rangestr) = Some range) i.(ip_statics)).
(** A write to a range that was found. *)
Definition update_static (range : bytes) (f : static_ipranges_t → static_ipranges_t)
    (i : ipintercept_t) : ipintercept_t :=
  set_ip_statics (map (λ r, if decide (until_nul <$> r.(sr_rangestr) = Some range) then f r else r)
                    i.(ip_statics)) i.
Definition delete_static (range : bytes) (i : ipintercept_t) : ipintercept_t :=
  set_ip_statics (filter (λ r, until_nul <$> r.(sr_rangestr) ≠ Some range) i.(ip_statics)) i.

(** [create_intercept_details_msg]; the type may be changed by the caller. *)
Definition create_intercept_details_msg (type : openli_export_type) (common : intercept_common_t)
    : outcome openli_export_recv_t :=
  liid ← c_str common.(ic_liid);
  authcc ← c_str common.(ic_authcc);
  delivcc ← c_str common.(ic_delivcc);
  Ok (Mkopenli_export_recv_t type 0
        (Data_cept (Mkpublished_intercept_msg_t (Some liid) (Some authcc) (Some delivcc)
                      common.(ic_seqtrackerid) common.(ic_encrypt)
                      (until_nul <$> common.(ic_encryptkey))))).
(** The message of an intercept that is over. *)
Definition intercept_over_msg (common : intercept_common_t) : outcome openli_export_recv_t :=
  liid ← c_str common.(ic_liid);
  authcc ← c_str common.(ic_authcc);
  delivcc ← c_str common.(ic_delivcc);
  Ok (Mkopenli_export_recv_t OPENLI_EXPORT_INTERCEPT_OVER 0
        (Data_cept (Mkpublished_intercept_msg_t (Some liid) (Some authcc) (Some delivcc)
                      common.(ic_seqtrackerid) 0 None))).

(** [deep_copy_coreserver] *)
Definition deep_copy_coreserver (cs : coreserver_t) : outcome coreserver_t :=
  key ← c_str cs.(cs_serverkey);
  ip ← c_str cs.(cs_ipstr);
  Ok (Mkcoreserver_t (Some key) cs.(cs_servertype) (Some ip) (until_nul <$> cs.(cs_portstr)) None
        cs.(cs_portswapped) 0).

Section intercepts.
Context {G Pkt : Type} (p : access_plugin G Pkt).
Context (ascii2prefix : bytes → option prefix_t).
Abbreviation sync := (collector_sync_t G).
Abbreviation M := (ST sync).

(** ** Access to the tables *)

Definition get_prov : M prov_tables := s ← get; mret s.(sy_prov).
Definition put_prov (f : prov_tables → prov_tables) : M unit :=
  modify (λ s, set_sy_prov (f s.(sy_prov)) s).
Definition get_conn : M prov_conn := s ← get; mret s.(sy_conn).
Definition load_cept (a : Z) : M ipintercept_t :=
  t ← get_prov; lift (deref (t.(pv_cepts) !! a)).
Definition store_cept (a : Z) (i : ipintercept_t) : M unit :=
  put_prov (λ t, set_pv_cepts (<[a := i]> t.(pv_cepts)) t).
(** A block that no pointer refers to. *)
Definition alloc : M Z :=
  t ← get_prov; _ ← put_prov (set_pv_next (t.(pv_next) + 1)); mret t.(pv_next).

(** The user name of the intercept at an address. *)
Definition username_of (a : Z) (i : ipintercept_t) : M cstring :=
  t ← get_prov;
  if decide (a ∈ t.(pv_stale)) then lift Undef else mret i.(ip_username).
(** The key [username, username_len]. *)
Definition target_key (a : Z) (i : ipintercept_t) : M bytes :=
  u ← username_of a i; lift (string_key u i.(ip_username_len)).

Definition to_queues (f : Z → M unit) : M unit := s ← get; for_each s.(sy_queues) f.

(** ** The intercepts of a user *)

(** [add_intercept_to_user_intercept_list] *)
Definition add_intercept_to_user_intercept_list (a : Z) : M Z :=
  i ← load_cept a;
  u ← username_of a i;
  match u with
  | None => mret (-1)
  | Some _ =>
      k ← target_key a i;
      liid ← lift (cept_key i);
      t ← get_prov;
      users ← match hash_find k t.(pv_userintercepts) with
              | Some _ => mret t.(pv_userintercepts)
              | None =>
                  copy ← lift (c_str u);
                  k ← lift (string_key (Some copy) i.(ip_username_len));
                  mret (hash_add k [] t.(pv_userintercepts))
              end;
      let intlist := default [] (hash_find k users) in
      match hash_find liid intlist with
      | Some _ => _ ← put_prov (set_pv_userintercepts users); mret (-1)
      | None =>
          _ ← put_prov (set_pv_userintercepts (hash_update k (hash_add liid a intlist) users));
          mret 0
      end
  end.

(** [remove_intercept_from_user_intercept_list] *)
Definition remove_intercept_from_user_intercept_list (a : Z) : M Z :=
  i ← load_cept a;
  u ← username_of a i;
  match u with
  | None => mret (-1)
  | Some _ =>
      k ← target_key a i;
      t ← get_prov;
      let users := t.(pv_userintercepts) in
      match hash_find k users with
      | None => mret 0
      | Some intlist =>
          liid ← lift (cept_key i);
          match hash_find liid intlist with
          | None => mret 0
          | Some _ =>
              let intlist := hash_delete liid intlist in
              _ ← put_prov (set_pv_userintercepts
                              (if decide (length intlist = 0%nat) then hash_delete k users
                               else hash_update k intlist users));
              mret 0
          end
      end
  end.

(** The sessions of the user of an intercept. *)
Definition target_sessions (a : Z) (i : ipintercept_t) : M (list Z) :=
  k ← target_key a i;
  s ← get;
  mret (match find_user k s.(sy_allusers) with None => [] | Some u => u.(iu_sessions) end).

(** ** Messages to the packet processing threads *)

(** A static range, under one of the types of message. *)
Definition push_iprange (msgtype : staticipsession_t → openli_pushed_t) (q : Z)
    (ipint : ipintercept_t) (ipr : static_ipranges_t) : M unit :=
  match ipr.(sr_liid), ipr.(sr_rangestr) with
  | Some _, Some _ =>
      staticsess ← lift (create_staticipsession ipint ipr.(sr_rangestr) ipr.(sr_cin));
      emit [Out_push q (msgtype staticsess)]
  | _, _ => mret tt
  end.
Definition push_static_iprange_to_collectors := push_iprange OPENLI_PUSH_IPRANGE.
Definition push_static_iprange_modify_to_collectors := push_iprange OPENLI_PUSH_MODIFY_IPRANGE.
Definition push_static_iprange_remove_to_collectors := push_iprange OPENLI_PUSH_REMOVE_IPRANGE.

(** A copy of the mirror of an intercept for one thread. *)
Definition push_mirror (msgtype : vendmirror_intercept_t → openli_pushed_t) (ipint : ipintercept_t)
    (q : Z) : M unit :=
  addr ← alloc;
  jm ← lift (create_vendmirror_intercept addr ipint);
  emit [Out_push q (msgtype jm)].

(** [push_single_vendmirrorid] *)
Definition push_single_vendmirrorid (msgtype : vendmirror_intercept_t → openli_pushed_t)
    (ipint : ipintercept_t) (q : Z) : M unit :=
  if ipint.(ip_vendmirrorid) =? OPENLI_VENDOR_MIRROR_NONE then mret tt
  else push_mirror msgtype ipint q.

(** [push_coreserver_msg] *)
Definition push_coreserver_msg (msgtype : coreserver_t → openli_pushed_t) (cs : coreserver_t)
    : M unit :=
  to_queues (λ q, copy ← lift (deep_copy_coreserver cs); emit [Out_push q (msgtype copy)]).

(** [push_all_coreservers] *)
Definition push_all_coreservers (q : Z) : M unit :=
  t ← get_prov;
  for_each t.(pv_coreservers) (λ e,
    copy ← lift (deep_copy_coreserver e.2); emit [Out_push q (OPENLI_PUSH_CORESERVER copy)]).

(** ** IRIs *)

(** [create_ipiri_job_from_iprange] *)
Definition create_ipiri_job_from_iprange (staticsess : static_ipranges_t) (a : Z)
    (ipint : ipintercept_t) (special : ipiri_special) : M Z :=
  range ← lift (c_str staticsess.(sr_rangestr));
  match ascii2prefix range with
  | None => mret (-1)
  | Some prefix =>
      u ← username_of a ipint;
      let uname := match u with None => Some (of_string "unknownuser") | Some _ => u end in
      job ← lift (create_ipiri_job_basic ipint uname special staticsess.(sr_cin));
      let j := job ETSILI_IRI_REPORT [] in
      let ip := Mkinternetaccess_ip_t prefix.(pf_family) prefix.(pf_add) prefix.(pf_bitlen) in
      _ ← emit [Out_ipiri ipint.(ip_common).(ic_seqtrackerid) ipint.(ip_common).(ic_destid)
                  {| ij_liid := j.(ij_liid); ij_cin := j.(ij_cin); ij_username := j.(ij_username);
                     ij_assignedips := [ip];
                     ij_ipversioning := if prefix.(pf_family) =? AF_INET then SESSION_IP_VERSION_V4
                                        else if prefix.(pf_family) =? AF_INET6
                                        then SESSION_IP_VERSION_V6 else SESSION_IP_VERSION_NONE;
                     ij_sessionstartts := 0; ij_access_tech := j.(ij_access_tech);
                     ij_special := special; ij_ipassignmentmethod := OPENLI_IPIRI_IPMETHOD_STATIC;
                     ij_iritype := j.(ij_iritype); ij_customparams := j.(ij_customparams) |}];
      mret 0
  end.

(** [generate_startend_ipiris]: the IRIs of an intercept whose start or end has come. *)
Definition generate_startend_ipiris (now : Z) (a : Z) (tstamp : Z) : M unit :=
  ipint ← load_cept a;
  let c := ipint.(ip_common) in
  let irirequired :=
    if (c.(ic_toend_time) <=? tstamp) && negb (c.(ic_toend_time) =? 0)
    then Some OPENLI_IPIRI_ENDWHILEACTIVE
    else if (c.(ic_tostart_time) <=? tstamp) && negb (c.(ic_tostart_time) =? 0)
    then Some OPENLI_IPIRI_STARTWHILEACTIVE else None in
  match irirequired with
  | None => mret tt
  | Some special =>
      _ ← for_each ipint.(ip_statics) (λ ipr,
            _ ← create_ipiri_job_from_iprange ipr a ipint special; mret tt);
      sessions ← target_sessions a ipint;
      for_each sessions (λ sp,
        sess ← load_session sp;
        _ ← create_iri_from_session p now sess ipint special; mret tt)
  end.

(** ** Static ranges *)

(** The intercept with a LIID. *)
Definition find_cept (liid : bytes) : M (option Z) :=
  t ← get_prov; mret (hash_find liid t.(pv_ipintercepts)).

(** [new_staticiprange], after the message was decoded. *)
Definition new_staticiprange (now : Z) (ipr : static_ipranges_t) : M Z :=
  liid ← lift (c_str ipr.(sr_liid));
  x ← find_cept liid;
  match x with
  | None => mret (-1)
  | Some a =>
      ipint ← load_cept a;
      range ← lift (c_str ipr.(sr_rangestr));
      match find_static range ipint with
      | Some _ =>
          _ ← store_cept a (update_static range (set_sr_awaitingconfirm 0) ipint); mret 1
      | None =>
          _ ← emit [Out_session_added];
          _ ← store_cept a (set_ip_statics (ipint.(ip_statics) ++ [ipr]) ipint);
          _ ← (if iri_wanted now ipint
               then _ ← create_ipiri_job_from_iprange ipr a ipint OPENLI_IPIRI_STARTWHILEACTIVE; mret tt
               else mret tt);
          _ ← to_queues (λ q, push_static_iprange_to_collectors q ipint ipr);
          mret 1
      end
  end.

(** [modify_staticiprange] *)
Definition modify_staticiprange (ipr : static_ipranges_t) : M Z :=
  liid ← lift (c_str ipr.(sr_liid));
  x ← find_cept liid;
  match x with
  | None => mret (-1)
  | Some a =>
      ipint ← load_cept a;
      range ← lift (c_str ipr.(sr_rangestr));
      match find_static range ipint with
      | None => mret 1
      | Some found =>
          _ ← store_cept a (update_static range (set_sr_cin ipr.(sr_cin)) ipint);
          _ ← to_queues (λ q, push_static_iprange_modify_to_collectors q ipint
                                (set_sr_cin ipr.(sr_cin) found));
          mret 1
      end
  end.

(** [update_staticiprange] *)
Definition update_staticiprange (a : Z) (ipr : static_ipranges_t) (irirequired : option ipiri_special)
    : M unit :=
  ipint ← load_cept a;
  range ← lift (c_str ipr.(sr_rangestr));
  match find_static range ipint with
  | None => mret tt
  | Some found =>
      _ ← match irirequired with
          | None => mret tt
          | Some special => _ ← create_ipiri_job_from_iprange found a ipint special; mret tt
          end;
      to_queues (λ q,
        x ← lift (create_staticipsession ipint found.(sr_rangestr) found.(sr_cin));
        emit [Out_push q (OPENLI_PUSH_UPDATE_IPRANGE_INTERCEPT x)])
  end.

(** [remove_staticiprange] *)
Definition remove_staticiprange (ipr : static_ipranges_t) : M Z :=
  liid ← lift (c_str ipr.(sr_liid));
  x ← find_cept liid;
  match x with
  | None => mret (-1)
  | Some a =>
      ipint ← load_cept a;
      range ← lift (c_str ipr.(sr_rangestr));
      match find_static range ipint with
      | None => mret 1
      | Some found =>
          _ ← create_ipiri_job_from_iprange found a ipint OPENLI_IPIRI_ENDWHILEACTIVE;
          _ ← to_queues (λ q, push_static_iprange_remove_to_collectors q ipint ipr);
          _ ← emit [Out_session_ended];
          _ ← store_cept a (delete_static range ipint);
          mret 1
      end
  end.
(** Called with a range that is in the table of its intercept: if the intercept was not
    found the range would be freed where it is. *)
Definition remove_own_range (ipr : static_ipranges_t) : M unit :=
  r ← remove_staticiprange ipr; if r =? -1 then lift Undef else mret tt.

(** ** Intercepts *)

(** [update_vendmirror_intercept] *)
Definition update_vendmirror_intercept (ipint : ipintercept_t) : M unit :=
  to_queues (push_mirror OPENLI_PUSH_UPDATE_VENDMIRROR_INTERCEPT ipint).

(** [announce_vendormirror_id] and [remove_vendormirror_id] *)
Definition announce_vendormirror_id (ipint : ipintercept_t) : M unit :=
  _ ← to_queues (push_single_vendmirrorid OPENLI_PUSH_VENDMIRROR_INTERCEPT ipint);
  emit [Out_session_added].
Definition remove_vendormirror_id (ipint : ipintercept_t) : M unit :=
  _ ← to_queues (push_single_vendmirrorid OPENLI_PUSH_HALT_VENDMIRROR_INTERCEPT ipint);
  emit [Out_session_ended].

(** [push_ipintercept_halt_to_threads] *)
Definition push_ipintercept_halt_to_threads (now : Z) (a : Z) : M unit :=
  ipint ← load_cept a;
  _ ← for_each ipint.(ip_statics) remove_own_range;
  ipint ← load_cept a;
  sessions ← target_sessions a ipint;
  for_each sessions (λ sp,
    sess ← load_session sp;
    _ ← create_iri_from_session p now sess ipint OPENLI_IPIRI_ENDWHILEACTIVE;
    push_session_update_to_threads sess ipint).

(** The IRI that a change of the times calls for. *)
Definition times_iri (now : Z) (c m : intercept_common_t) : option ipiri_special :=
  if (now <? c.(ic_toend_time)) &&
     ((0 <? m.(ic_toend_time)) && (m.(ic_toend_time) <=? now)) && (c.(ic_tostart_time) <? now)
  then Some OPENLI_IPIRI_ENDWHILEACTIVE
  else if (now <=? c.(ic_tostart_time)) && (m.(ic_tostart_time) <? now) &&
          ((m.(ic_toend_time) =? 0) || (now <? m.(ic_toend_time)))
  then Some OPENLI_IPIRI_STARTWHILEACTIVE
  else if (m.(ic_tostart_time) <? now) && (c.(ic_tostart_time) <? now) &&
          negb (c.(ic_toend_time) =? 0) && (c.(ic_toend_time) <=? now) &&
          ((m.(ic_toend_time) =? 0) || (now <? m.(ic_toend_time)))
  then Some OPENLI_IPIRI_STARTWHILEACTIVE
  else None.

(** What [push_ipintercept_update_to_threads] takes over from the message. *)
Definition updated_common (c m : intercept_common_t) : intercept_common_t :=
  set_ic_encrypt m.(ic_encrypt) (set_ic_tomediate m.(ic_tomediate)
    (set_ic_toend_time m.(ic_toend_time) (set_ic_tostart_time m.(ic_tostart_time)
    (set_ic_encryptkey m.(ic_encryptkey)
    (set_ic_delivcc_len m.(ic_delivcc_len) (set_ic_delivcc m.(ic_delivcc)
    (set_ic_authcc_len m.(ic_authcc_len) (set_ic_authcc m.(ic_authcc) c)))))))).

(** [push_ipintercept_update_to_threads] *)
Definition push_ipintercept_update_to_threads (now : Z) (a : Z) (modified : ipintercept_t) : M unit :=
  ipint ← load_cept a;
  let irirequired := times_iri now ipint.(ip_common) modified.(ip_common) in
  let ipint := set_ip_common (updated_common ipint.(ip_common) modified.(ip_common)) ipint in
  _ ← store_cept a ipint;
  _ ← for_each ipint.(ip_statics) (λ ipr, update_staticiprange a ipr irirequired);
  _ ← (if (ipint.(ip_vendmirrorid) =? modified.(ip_vendmirrorid)) &&
          negb (ipint.(ip_vendmirrorid) =? OPENLI_VENDOR_MIRROR_NONE)
       then update_vendmirror_intercept ipint else mret tt);
  sessions ← target_sessions a ipint;
  for_each sessions (λ sp,
    sess ← load_session sp;
    _ ← match irirequired with
        | None => mret tt
        | Some special => _ ← create_iri_from_session p now sess ipint special; mret tt
        end;
    push_session_to_threads OPENLI_PUSH_UPDATE_IPINTERCEPT sess ipint).

(** [push_existing_user_sessions] *)
Definition push_existing_user_sessions (now : Z) (a : Z) : M unit :=
  cept ← load_cept a;
  sessions ← target_sessions a cept;
  for_each sessions (λ sp,
    sess ← load_session sp;
    _ ← to_queues (λ q, push_single_ipintercept q cept sess);
    _ ← create_iri_from_session p now sess cept OPENLI_IPIRI_STARTWHILEACTIVE;
    mret tt).

(** The tracker of an intercept. *)
Definition tracker_of (pubsockcount : Z) (common : intercept_common_t) : outcome Z :=
  if pubsockcount <=? 1 then Ok 0
  else liid ← c_str common.(ic_liid); h ← hash_liid 0 (liid ++ [0; 0; 0; 0]); Ok (h mod pubsockcount).

(** [insert_new_ipintercept] *)
Definition insert_new_ipintercept (now : Z) (cept : ipintercept_t) : M Z :=
  a ← alloc;
  _ ← (if negb (cept.(ip_vendmirrorid) =? OPENLI_VENDOR_MIRROR_NONE)
       then announce_vendormirror_id cept else mret tt);
  conn ← get_conn;
  tracker ← lift (tracker_of conn.(pn_pubsockcount) cept.(ip_common));
  let common := set_ic_seqtrackerid tracker cept.(ip_common) in
  k ← lift (cept_key cept);
  t ← get_prov;
  '(common, ev) ← lift (add_new_intercept_time_event now a common t.(pv_events));
  let cept := set_ip_common common cept in
  _ ← store_cept a cept;
  _ ← put_prov (λ t, set_pv_events ev (set_pv_ipintercepts (hash_add k a t.(pv_ipintercepts)) t));
  _ ← emit [Out_cept_added];
  msg ← lift (create_intercept_details_msg OPENLI_EXPORT_INTERCEPT_DETAILS common);
  _ ← emit [Out_publish tracker msg];
  match cept.(ip_username) with
  | None => mret 1
  | Some _ =>
      _ ← push_existing_user_sessions now a;
      _ ← add_intercept_to_user_intercept_list a;
      mret 1
  end.

(** [remove_ip_intercept] *)
Definition remove_ip_intercept (now : Z) (a : Z) : M unit :=
  _ ← push_ipintercept_halt_to_threads now a;
  ipint ← load_cept a;
  let common := ipint.(ip_common) in
  _ ← put_prov (λ t, set_pv_ipintercepts (filter (λ e, e.2 ≠ a) t.(pv_ipintercepts)) t);
  u ← username_of a ipint;
  _ ← match u with
      | None => mret tt
      | Some _ => _ ← remove_intercept_from_user_intercept_list a; mret tt
      end;
  t ← get_prov;
  ev ← lift (remove_intercept_time_event common t.(pv_events));
  _ ← put_prov (set_pv_events ev);
  expmsg ← lift (intercept_over_msg common);
  _ ← emit [Out_cept_ended];
  _ ← (if negb (ipint.(ip_vendmirrorid) =? OPENLI_VENDOR_MIRROR_NONE)
       then remove_vendormirror_id ipint else mret tt);
  _ ← emit [Out_publish common.(ic_seqtrackerid) expmsg];
  put_prov (λ t, set_pv_cepts (delete a t.(pv_cepts)) t).

(** [strcmp(x, y) != 0] *)
Definition strings_differ (x y : cstring) : outcome bool :=
  x ← c_str x; y ← c_str y; Ok (negb (bool_decide (x = y))).

(** Whether the encoders have to know about a change. *)
Definition encoding_changed (c m : intercept_common_t) : outcome bool :=
  if negb (c.(ic_encrypt) =? m.(ic_encrypt)) then Ok true
  else
    d ← match c.(ic_encryptkey), m.(ic_encryptkey) with
        | Some _, Some _ => strings_differ c.(ic_encryptkey) m.(ic_encryptkey)
        | None, None => Ok false
        | _, _ => Ok true
        end;
    if d : bool then Ok true
    else
      d ← strings_differ c.(ic_delivcc) m.(ic_delivcc);
      if d : bool then Ok true else strings_differ c.(ic_authcc) m.(ic_authcc).

(** A new target: the old user's sessions are no longer intercepted, the new user's are. *)
Definition change_target (now : Z) (a : Z) (username : cstring) : M unit :=
  _ ← push_ipintercept_halt_to_threads now a;
  _ ← remove_intercept_from_user_intercept_list a;
  ipint ← load_cept a;
  _ ← store_cept a (set_ip_username username ipint);
  _ ← add_intercept_to_user_intercept_list a;
  push_existing_user_sessions now a.

(** A new mirror. *)
Definition change_mirror (a : Z) (vendmirrorid : Z) : M unit :=
  ipint ← load_cept a;
  if ipint.(ip_vendmirrorid) =? vendmirrorid then mret tt
  else
    _ ← (if negb (ipint.(ip_vendmirrorid) =? OPENLI_VENDOR_MIRROR_NONE)
         then remove_vendormirror_id ipint else mret tt);
    let ipint := set_ip_vendmirrorid vendmirrorid ipint in
    _ ← store_cept a ipint;
    if negb (vendmirrorid =? OPENLI_VENDOR_MIRROR_NONE)
    then announce_vendormirror_id ipint else mret tt.

(** [update_modified_intercept] *)
Definition update_modified_intercept (now : Z) (a : Z) (modified : ipintercept_t) : M Z :=
  ipint ← load_cept a;
  u ← username_of a ipint;
  retarget ← lift (strings_differ u modified.(ip_username));
  _ ← (if retarget : bool then change_target now a modified.(ip_username) else mret tt);
  _ ← change_mirror a modified.(ip_vendmirrorid);
  ipint ← load_cept a;
  let c := ipint.(ip_common) in let m := modified.(ip_common) in
  let times := negb (c.(ic_tostart_time) =? m.(ic_tostart_time)) ||
               negb (c.(ic_toend_time) =? m.(ic_toend_time)) in
  m ← (if times then
         t ← get_prov;
         '(m, ev) ← lift (update_intercept_time_event now a c m t.(pv_events));
         _ ← put_prov (set_pv_events ev);
         mret m
       else mret m);
  encodingchanged ← lift (encoding_changed c m);
  let changed := times || negb (c.(ic_tomediate) =? m.(ic_tomediate)) || encodingchanged in
  _ ← (if encodingchanged : bool then
         expmsg ← lift (create_intercept_details_msg OPENLI_EXPORT_INTERCEPT_CHANGED m);
         emit [Out_publish c.(ic_seqtrackerid) expmsg]
       else mret tt);
  _ ← (if changed then push_ipintercept_update_to_threads now a (set_ip_common m modified)
       else mret tt);
  (* the message is freed, and with it the string that a new target shares *)
  _ ← (if retarget : bool then
         ipint ← load_cept a;
         _ ← store_cept a (set_ip_username None ipint);
         put_prov (λ t, set_pv_stale (a :: t.(pv_stale)) t)
       else mret tt);
  mret 0.
End intercepts.
