(* ===== verification/GtpSync.v ===== *)
(** * The GTP plugin in the synchronisation thread

    The plugin as a [struct access_plugin], and runs of [update_user_sessions] with it: the
    records of a session, and the session that is left behind when a message of a session
    that is over is seen again. *)

From stdpp Require Import gmap.
From S2P Require Import Prelude ByteOrder AccessSession Radius RadiusSession Ipiri Publish Protocol Intercept IpSession Libraries Gtp GtpParse GtpProps SyncSessions SyncProps SyncIntercepts.

(** [gtpplugin] of gtp.c; [gtp_destroy_session_data] frees nothing of the plugin's. *)
Definition gtp_plugin : access_plugin gtp_global_t radius_packet :=
  {| ap_process_packet := gtp_parse_packet;
     ap_destroy_parsed_data := λ g, Ok (tt, gtp_destroy_parsed_data g);
     ap_get_userid := gtp_get_userid;
     ap_update_session_state := gtp_update_session_state;
     ap_generate_iri_data := gtp_generate_iri_data;
     ap_generate_iri_from_session := gtp_generate_iri_from_session;
     ap_destroy_session_data := λ _ g, Ok (tt, g);
     ap_get_packet_sequence := gtp_get_packet_sequence;
     ap_get_ip_contents := gtp_get_ip_contents |}.

(** An intercept for the number of the sample messages. *)
Definition mobile_intercept : ipintercept_t :=
  {| ip_common := sample_common; ip_username := Some (of_string "6421555"); ip_username_len := 7;
     ip_accesstype := INTERNET_ACCESS_TYPE_MOBILE; ip_vendmirrorid := 0; ip_statics := []; ip_awaitingconfirm := 0;
     ip_options := 0 |}.
Definition mobile_prov : prov_tables :=
  Mkprov_tables {[0 := mobile_intercept]} [] 1 [(of_string "LI1", 0)]
    [(of_string "6421555", [(of_string "LI1", 0)])] [] [] ∅.
Definition mobile_sync : collector_sync_t gtp_global_t :=
  Mkcollector_sync_t gtp_init_plugin_data (Mksession_store ∅ 0) [] [] mobile_prov sample_conn [1; 2] [].

Fixpoint run_gtp (l : list radius_packet) (s : collector_sync_t gtp_global_t)
    : outcome (collector_sync_t gtp_global_t) :=
  match l with
  | [] => Ok s
  | pkt :: l => '(_, s) ← update_user_sessions gtp_plugin 6000000 pkt s; run_gtp l s
  end.
(** The types of the records, the users of addresses, and the sessions in memory. *)
Definition gtp_summary (s : collector_sync_t gtp_global_t) :=
  (s.(sy_out) ≫= λ o, match o with Out_mobiri _ _ j => [mj_iritype j] | _ => [] end,
   map im_owner s.(sy_activeips), map fst (map_to_list s.(sy_store).(ss_heap))).

(** A session is reported with BEGIN and END and is freed at its end.  When its TEID is
    used again, or a message of it is seen again, a session appears in the caller's store
    that no message will end, and nothing is reported. *)
Lemma gtp_runs :
  (s ← run_gtp one_session mobile_sync; Ok (gtp_summary s)) =
    Ok ([ETSILI_IRI_BEGIN; ETSILI_IRI_END], [], []) ∧
  (s ← run_gtp (one_session ++ [create_request; create_response]) mobile_sync; Ok (gtp_summary s)) =
    Ok ([ETSILI_IRI_BEGIN; ETSILI_IRI_END], [], [1]) ∧
  (s ← run_gtp (one_session ++ [delete_request]) mobile_sync; Ok (gtp_summary s)) =
    Ok ([ETSILI_IRI_BEGIN; ETSILI_IRI_END], [], [1]).
Proof. split_and!; by vm_compute. Qed.

(** An intercept that is announced while the session is active gets a BEGIN of its own;
    for the session that is left behind, the address is read through the pointer into the
    session that was freed. *)
Lemma announced_after_the_end :
  (s ← run_gtp [create_request; create_response] mobile_sync;
   '(_, s) ← push_existing_user_sessions gtp_plugin 7000000 0 s; Ok (gtp_summary s)) =
    Ok ([ETSILI_IRI_BEGIN; ETSILI_IRI_BEGIN], [[Some (of_string "6421555")]], [0]) ∧
  (s ← run_gtp (one_session ++ [delete_request]) mobile_sync;
   '(_, s) ← push_existing_user_sessions gtp_plugin 7000000 0 s; Ok (gtp_summary s)) = Undef.
Proof. split; by vm_compute. Qed.
