(* ===== verification/SyncProvisioner.v ===== *)
(** * The synchronisation thread and the provisioner
      (src/src/collector/collector_sync.c)

    The messages of the provisioner, from the bytes of the connection to the operations of
    SyncIntercepts; what happens when the connection is lost and made again; the messages
    of the packet processing threads; the main loop.

    The answers of the sockets are arguments ([recv_result], [send_result]), as in
    NetBuffer, and so are the results of [connect_socket] and of the TLS handshake.
    Sending to the queues and sockets of other threads always succeeds. *)

From stdpp Require Import gmap.
From S2P Require Import Prelude Protocol Intercept NetBuffer NetPush NetDecode Publish AccessSession Radius RadiusSession Ipiri HashTable IpSession TimedIntercept CoreServer ThreadTables SyncSessions SyncIntercepts.

(** What a decoder gets: memory that it overwrites. *)
Definition no_common : intercept_common_t :=
  Mkintercept_common_t None None None 0 0 0 0 None 0 0 0 0 0 0 None.
Definition no_intercept : ipintercept_t := Mkipintercept_t no_common None 0 0 0 [] 0 0.
Definition no_static : static_ipranges_t := Mkstatic_ipranges_t None None 0 0.
Definition no_coreserver : coreserver_t := Mkcoreserver_t None 0 None None None 0 0.
Definition no_mediator : openli_mediator_t := Mkopenli_mediator_t 0 None None.
Definition no_default_radius : default_radius_user_t := Mkdefault_radius_user_t None 0 0.

(** A message from the packet processing threads. *)
Inductive state_update (Pkt : Type) : Type :=
  | OPENLI_UPDATE_HELLO (replyq : Z)
  | OPENLI_UPDATE_PACKET (pkt : Pkt)
  | OPENLI_UPDATE_OTHER.
Arguments OPENLI_UPDATE_HELLO {Pkt}.
Arguments OPENLI_UPDATE_PACKET {Pkt}.
Arguments OPENLI_UPDATE_OTHER {Pkt}.

(** What [zmq_poll] reports and what the sockets then answer; [pe_updates] ends with
    EAGAIN, or with an error if [pe_error] is set. *)
Record poll_events (Pkt : Type) : Type := Mkpoll_events {
  pe_failed : bool;
  pe_timer : bool;
  pe_out : option send_result;
  pe_in : option (list recv_result);
  pe_updates : option (list (state_update Pkt));
  pe_error : bool;
}.
Arguments pe_failed {Pkt}.
Arguments pe_timer {Pkt}.
Arguments pe_out {Pkt}.
Arguments pe_in {Pkt}.
Arguments pe_updates {Pkt}.
Arguments pe_error {Pkt}.

Definition set_pn_state (fd fail log : Z) (pollout : bool) (out inc : option net_buffer_t)
    (c : prov_conn) : prov_conn :=
  Mkprov_conn c.(pn_pubsockcount) c.(pn_forwardcount) c.(pn_emailcount) c.(pn_colthreads)
    fd fail log pollout out inc c.(pn_hellosreceived).
Definition set_pn_fail (v : Z) (c : prov_conn) : prov_conn :=
  set_pn_state c.(pn_instruct_fd) v c.(pn_instruct_log) c.(pn_pollout) c.(pn_outgoing) c.(pn_incoming) c.
Definition set_pn_log (v : Z) (c : prov_conn) : prov_conn :=
  set_pn_state c.(pn_instruct_fd) c.(pn_instruct_fail) v c.(pn_pollout) c.(pn_outgoing) c.(pn_incoming) c.
Definition set_pn_incoming (v : option net_buffer_t) (c : prov_conn) : prov_conn :=
  set_pn_state c.(pn_instruct_fd) c.(pn_instruct_fail) c.(pn_instruct_log) c.(pn_pollout) c.(pn_outgoing) v c.
Definition set_pn_hellos (v : Z) (c : prov_conn) : prov_conn :=
  Mkprov_conn c.(pn_pubsockcount) c.(pn_forwardcount) c.(pn_emailcount) c.(pn_colthreads)
    c.(pn_instruct_fd) c.(pn_instruct_fail) c.(pn_instruct_log) c.(pn_pollout) c.(pn_outgoing)
    c.(pn_incoming) v.

(** [touch_all_coreservers], [touch_all_defaultradius], [touch_all_intercepts] *)
Definition touch_all_coreservers (l : list (bytes * coreserver_t)) : list (bytes * coreserver_t) :=
  prod_map id (set_cs_awaitingconfirm 1) <$> l.
Definition touch_all_defaultradius (l : list (bytes * default_radius_user_t))
    : list (bytes * default_radius_user_t) := prod_map id (set_dr_awaitingconfirm 1) <$> l.
Definition touch_intercept (i : ipintercept_t) : ipintercept_t :=
  set_ip_statics (set_sr_awaitingconfirm 1 <$> i.(ip_statics)) (set_ip_awaitingconfirm 1 i).

Section provisioner.
Context {G Pkt : Type} (p : access_plugin G Pkt).
Context (ascii2prefix : bytes → option prefix_t) (realloc_ok : Z → bool).
Abbreviation sync := (collector_sync_t G).
Abbreviation M := (ST sync).

Definition put_conn (f : prov_conn → prov_conn) : M unit :=
  modify (λ s, set_sy_conn (f s.(sy_conn)) s).

(** ** Messages to other threads *)

(** A message to every forwarding thread. *)
Definition to_forwarders (type : openli_export_type) (data : export_data) : M unit :=
  c ← get_conn;
  emit (map (λ i, Out_fwdctrl i (Mkopenli_export_recv_t type 0 data)) (seqZ 0 c.(pn_forwardcount))).

(** [forward_provmsg_to_email_workers] *)
Definition forward_provmsg_to_email_workers (mem : bytes) (msglen : Z) (msgtype : Z) : M Z :=
  c ← get_conn;
  body ← lift (read_bytes msglen mem);
  _ ← emit (map (λ i, Out_email i msgtype body) (seqZ 0 c.(pn_emailcount)));
  mret 1.

(** [forward_provmsg_to_voipsync] *)
Definition forward_provmsg_to_voipsync (mem : bytes) (msglen : Z) (msgtype : Z) : M Z :=
  body ← lift (read_bytes msglen mem);
  _ ← emit [Out_voipsync msgtype body];
  mret 1.

(** [sync_thread_publish_reload] *)
Definition sync_thread_publish_reload : M unit :=
  c ← get_conn;
  _ ← emit (map (λ i, Out_publish i (Mkopenli_export_recv_t OPENLI_EXPORT_RECONFIGURE_INTERCEPTS 0 Data_none))
              (seqZ 0 c.(pn_pubsockcount)));
  _ ← forward_provmsg_to_voipsync [] 0 OPENLI_PROTO_CONFIG_RELOADED;
  mret tt.

(** [sync_drop_all_mediators], [sync_reconnect_all_mediators] *)
Definition sync_drop_all_mediators : M unit := to_forwarders OPENLI_EXPORT_DROP_ALL_MEDIATORS Data_none.
Definition sync_reconnect_all_mediators : M unit :=
  to_forwarders OPENLI_EXPORT_RECONNECT_ALL_MEDIATORS Data_none.

(** [new_mediator], [remove_mediator] *)
Definition new_mediator (mem : bytes) (msglen : Z) : M Z :=
  '(rc, med) ← lift (decode_mediator_announcement mem msglen no_mediator);
  if rc =? -1 then mret (-1)
  else _ ← to_forwarders OPENLI_EXPORT_MEDIATOR (Data_med med); mret 1.
Definition remove_mediator (mem : bytes) (msglen : Z) : M Z :=
  '(rc, med) ← lift (decode_mediator_withdraw mem msglen no_mediator);
  if rc =? -1 then mret (-1)
  else
    _ ← to_forwarders OPENLI_EXPORT_DROP_SINGLE_MEDIATOR
          (Data_med (Mkopenli_mediator_t med.(med_mediatorid) None None));
    mret 1.

(** ** Core servers and default RADIUS user names *)

(** [forward_new_coreserver] *)
Definition forward_new_coreserver (mem : bytes) (msglen : Z) : M Z :=
  '(rc, cs) ← lift (decode_coreserver_announcement mem msglen no_coreserver);
  if rc =? -1 then mret (-1)
  else
    key ← lift (c_str cs.(cs_serverkey));
    t ← get_prov;
    match hash_find key t.(pv_coreservers) with
    | Some found =>
        _ ← put_prov (set_pv_coreservers
                        (hash_update key (set_cs_awaitingconfirm 0 found) t.(pv_coreservers)));
        mret 1
    | None =>
        _ ← put_prov (set_pv_coreservers (hash_add key cs t.(pv_coreservers)));
        _ ← push_coreserver_msg OPENLI_PUSH_CORESERVER cs;
        mret 1
    end.

(** [forward_remove_coreserver] *)
Definition forward_remove_coreserver (mem : bytes) (msglen : Z) : M Z :=
  '(rc, cs) ← lift (decode_coreserver_withdraw mem msglen no_coreserver);
  if rc =? -1 then mret (-1)
  else
    key ← lift (c_str cs.(cs_serverkey));
    t ← get_prov;
    match hash_find key t.(pv_coreservers) with
    | None => mret 1
    | Some _ =>
        _ ← push_coreserver_msg OPENLI_PUSH_REMOVE_CORESERVER cs;
        _ ← put_prov (λ t, set_pv_coreservers (hash_delete key t.(pv_coreservers)) t);
        mret 1
    end.

(** [new_default_radius] *)
Definition new_default_radius (mem : bytes) (msglen : Z) : M Z :=
  '(rc, d) ← lift (decode_default_radius_announcement mem msglen no_default_radius);
  if rc =? -1 then mret (-1)
  else
    key ← lift (string_key d.(dr_name) d.(dr_namelen));
    t ← get_prov;
    match hash_find key t.(pv_defaultradius) with
    | Some found =>
        _ ← put_prov (set_pv_defaultradius
                        (hash_update key (set_dr_awaitingconfirm 0 found) t.(pv_defaultradius)));
        mret 0
    | None => _ ← put_prov (set_pv_defaultradius (hash_add key d t.(pv_defaultradius))); mret 1
    end.

(** [withdraw_default_radius], with [remove_default_radius] *)
Definition withdraw_default_radius (mem : bytes) (msglen : Z) : M Z :=
  '(rc, d) ← lift (decode_default_radius_announcement mem msglen no_default_radius);
  if rc =? -1 then mret (-1)
  else
    key ← lift (string_key d.(dr_name) d.(dr_namelen));
    _ ← put_prov (λ t, set_pv_defaultradius (hash_delete key t.(pv_defaultradius)) t);
    mret 1.

(** ** Intercepts *)

(** [new_ipintercept] *)
Definition new_ipintercept (now : Z) (mem : bytes) (msglen : Z) : M Z :=
  '(rc, cept) ← lift (decode_ipintercept_start mem msglen no_intercept);
  if rc =? -1 then mret (-1)
  else
    k ← lift (cept_key cept);
    x ← find_cept k;
    match x with
    | None => insert_new_ipintercept p now cept
    | Some a =>
        i ← load_cept a;
        _ ← store_cept a (set_ip_awaitingconfirm 0 (set_ip_accesstype cept.(ip_accesstype) i));
        update_modified_intercept p ascii2prefix now a cept
    end.

(** [modify_ipintercept] *)
Definition modify_ipintercept (now : Z) (mem : bytes) (msglen : Z) : M Z :=
  '(rc, modified) ← lift (decode_ipintercept_modify mem msglen no_intercept);
  if rc =? -1 then mret (-1)
  else
    k ← lift (cept_key modified);
    x ← find_cept k;
    match x with
    | None => insert_new_ipintercept p now modified
    | Some a => update_modified_intercept p ascii2prefix now a modified
    end.

(** [halt_ipintercept] *)
Definition halt_ipintercept (now : Z) (mem : bytes) (msglen : Z) : M Z :=
  '(rc, torem) ← lift (decode_ipintercept_halt mem msglen no_intercept);
  if rc =? -1 then mret (-1)
  else
    k ← lift (cept_key torem);
    x ← find_cept k;
    match x with
    | None => mret (-1)
    | Some a => _ ← remove_ip_intercept p ascii2prefix now a; mret 1
    end.

(** The static ranges: a message, decoded, and what is done with it. *)
Definition with_staticips (f : static_ipranges_t → M Z) (mem : bytes) (msglen : Z) : M Z :=
  '(rc, ipr) ← lift (decode_staticip_announcement mem msglen no_static);
  if rc =? -1 then mret (-1) else f ipr.

(** [disable_unconfirmed_intercepts] *)
Definition disable_unconfirmed_intercept (now : Z) (a : Z) : M unit :=
  ipint ← load_cept a;
  if negb (ipint.(ip_awaitingconfirm) =? 0) then remove_ip_intercept p ascii2prefix now a
  else
    for_each ipint.(ip_statics) (λ ipr,
      if negb (ipr.(sr_awaitingconfirm) =? 0) then remove_own_range ascii2prefix ipr else mret tt).
Definition disable_unconfirmed_intercepts (now : Z) : M unit :=
  t ← get_prov;
  _ ← for_each t.(pv_ipintercepts) (λ e, disable_unconfirmed_intercept now e.2);
  t ← get_prov;
  _ ← for_each t.(pv_coreservers) (λ e,
        if negb (e.2.(cs_awaitingconfirm) =? 0) then
          _ ← push_coreserver_msg OPENLI_PUSH_REMOVE_CORESERVER e.2;
          put_prov (λ t, set_pv_coreservers (hash_delete e.1 t.(pv_coreservers)) t)
        else mret tt);
  put_prov (λ t, set_pv_defaultradius
                   (filter (λ e, e.2.(dr_awaitingconfirm) = 0) t.(pv_defaultradius)) t).

(** ** Receiving *)

(** A message that goes on to the VoIP thread, or to the email workers. *)
Definition voip_message (t : Z) : bool :=
  (t =? OPENLI_PROTO_START_VOIPINTERCEPT) || (t =? OPENLI_PROTO_HALT_VOIPINTERCEPT) ||
  (t =? OPENLI_PROTO_MODIFY_VOIPINTERCEPT) || (t =? OPENLI_PROTO_ANNOUNCE_SIP_TARGET) ||
  (t =? OPENLI_PROTO_WITHDRAW_SIP_TARGET).
Definition email_message (t : Z) : bool :=
  (t =? OPENLI_PROTO_START_EMAILINTERCEPT) || (t =? OPENLI_PROTO_HALT_EMAILINTERCEPT) ||
  (t =? OPENLI_PROTO_MODIFY_EMAILINTERCEPT) || (t =? OPENLI_PROTO_ANNOUNCE_EMAIL_TARGET) ||
  (t =? OPENLI_PROTO_WITHDRAW_EMAIL_TARGET) ||
  (t =? OPENLI_PROTO_ANNOUNCE_DEFAULT_EMAIL_COMPRESSION).

(** The operation of a message, for the types that have one. *)
Definition provmsg_handler (now t : Z) (mem : bytes) (msglen : Z) : option (M Z) :=
  if t =? OPENLI_PROTO_DISCONNECT_MEDIATORS then Some (_ ← sync_drop_all_mediators; mret 1)
  else if t =? OPENLI_PROTO_ANNOUNCE_MEDIATOR then Some (new_mediator mem msglen)
  else if t =? OPENLI_PROTO_WITHDRAW_MEDIATOR then Some (remove_mediator mem msglen)
  else if t =? OPENLI_PROTO_START_IPINTERCEPT then Some (new_ipintercept now mem msglen)
  else if t =? OPENLI_PROTO_ADD_STATICIPS
  then Some (with_staticips (new_staticiprange ascii2prefix now) mem msglen)
  else if t =? OPENLI_PROTO_MODIFY_STATICIPS
  then Some (with_staticips modify_staticiprange mem msglen)
  else if t =? OPENLI_PROTO_REMOVE_STATICIPS
  then Some (with_staticips (remove_staticiprange ascii2prefix) mem msglen)
  else if t =? OPENLI_PROTO_HALT_IPINTERCEPT then Some (halt_ipintercept now mem msglen)
  else if t =? OPENLI_PROTO_ANNOUNCE_DEFAULT_RADIUS then Some (new_default_radius mem msglen)
  else if t =? OPENLI_PROTO_WITHDRAW_DEFAULT_RADIUS then Some (withdraw_default_radius mem msglen)
  else if t =? OPENLI_PROTO_ANNOUNCE_CORESERVER then Some (forward_new_coreserver mem msglen)
  else if t =? OPENLI_PROTO_WITHDRAW_CORESERVER then Some (forward_remove_coreserver mem msglen)
  else if t =? OPENLI_PROTO_MODIFY_IPINTERCEPT then Some (modify_ipintercept now mem msglen)
  else if voip_message t then Some (forward_provmsg_to_voipsync mem msglen t)
  else if t =? OPENLI_PROTO_NOMORE_INTERCEPTS then
    Some (_ ← disable_unconfirmed_intercepts now;
          _ ← forward_provmsg_to_voipsync mem msglen t;
          forward_provmsg_to_email_workers mem msglen t)
  else if email_message t then Some (forward_provmsg_to_email_workers mem msglen t)
  else None.

(** A message: [inl] is the value that [recv_from_provisioner] returns, [inr] the new value
    of [ret]. *)
Definition handle_provmsg (now t : Z) (msg : option received_t) (ret : Z) : M (Z + Z) :=
  if t <? 0 then mret (inl (-1))
  else if t =? OPENLI_PROTO_DISCONNECT then mret (inl (-1))
  else if t =? OPENLI_PROTO_NO_MESSAGE then mret (inr ret)
  else if t =? OPENLI_PROTO_SSL_REQUIRED then mret (inl (-2))
  else
    let m := default (Mkreceived_t [] 0 0) msg in
    match provmsg_handler now t m.(rm_mem) m.(rm_len) with
    | Some f => ret ← f; mret (if ret =? -1 then inl (-1) else inr ret)
    | None => c ← get_conn; mret (if c.(pn_instruct_log) =? 0 then inr ret else inl (-1))
    end.

(** The loop of [recv_from_provisioner].  [results] are the answers of the socket;
    when they are used up it has nothing more.  Running out of [fuel] is [Undef]. *)
Fixpoint recv_loop (now : Z) (fuel : nat) (results : list recv_result) (ret : Z) : M (Z + Z) :=
  match fuel with
  | O => lift Undef
  | S fuel =>
      c ← get_conn;
      '(t, msg, nb, asked) ←
        lift (receive_net_buffer realloc_ok c.(pn_incoming) (default RecvWouldBlock (head results)));
      _ ← put_conn (set_pn_incoming nb);
      r ← handle_provmsg now t msg ret;
      match r with
      | inl rc => mret (inl rc)
      | inr ret =>
          if t =? OPENLI_PROTO_NO_MESSAGE then mret (inr ret)
          else recv_loop now fuel (if asked : bool then tail results else results) ret
      end
  end.

(** [recv_from_provisioner] *)
Definition recv_from_provisioner (now : Z) (fuel : nat) (results : list recv_result) : M Z :=
  r ← recv_loop now fuel results 0;
  match r with
  | inl rc => mret rc
  | inr ret =>
      _ ← (if ret =? 1 then
             _ ← put_conn (λ c, if c.(pn_instruct_log) =? 0 then set_pn_log 1 c else c);
             put_conn (set_pn_fail 0)
           else mret tt);
      mret 1
  end.

(** ** The connection *)

(** [send_to_provisioner] *)
Definition send_to_provisioner (res : send_result) : M Z :=
  c ← get_conn;
  let '(ret, _, nb, _) := transmit_net_buffer c.(pn_outgoing) res in
  _ ← put_conn (λ c, set_pn_state c.(pn_instruct_fd) c.(pn_instruct_fail) c.(pn_instruct_log)
                       (if ret =? 0 then false else c.(pn_pollout)) nb c.(pn_incoming) c);
  mret (if ret =? -1 then -1 else 1).

(** [sync_disconnect_provisioner] *)
Definition sync_disconnect_provisioner (dropmeds : bool) : M unit :=
  _ ← put_conn (λ c,
        if c.(pn_instruct_fd) =? -1
        then set_pn_state (-1) c.(pn_instruct_fail) c.(pn_instruct_log) c.(pn_pollout) None None c
        else set_pn_state (-1) c.(pn_instruct_fail) 0 c.(pn_pollout) None None c);
  t ← get_prov;
  _ ← for_each t.(pv_ipintercepts) (λ e, i ← load_cept e.2; store_cept e.2 (touch_intercept i));
  _ ← put_prov (λ t, set_pv_defaultradius (touch_all_defaultradius t.(pv_defaultradius))
                       (set_pv_coreservers (touch_all_coreservers t.(pv_coreservers)) t));
  _ ← forward_provmsg_to_voipsync [] 0 OPENLI_PROTO_DISCONNECT;
  _ ← forward_provmsg_to_email_workers [] 0 OPENLI_PROTO_DISCONNECT;
  if dropmeds then sync_reconnect_all_mediators
  else to_forwarders OPENLI_EXPORT_FLAG_MEDIATORS Data_none.

(** [sync_connect_provisioner]: [sockfd] is the answer of [connect_socket], [handshake]
    that of [SSL_do_handshake] if there is a TLS context. *)
Definition sync_connect_provisioner (sockfd : Z) (handshake : option Z) : M Z :=
  if sockfd =? -1 then _ ← put_conn (set_pn_log 0); mret 0
  else if sockfd =? 0 then _ ← put_conn (set_pn_fail 1); mret 0
  else if match handshake with Some r => r <=? 0 | None => false end
  then _ ← put_conn (set_pn_fail 1); mret (-1)
  else
    c ← get_conn;
    match c.(pn_outgoing), c.(pn_incoming) with
    | None, None =>
        let ssl := match handshake with Some _ => true | None => false end in
        let inc := create_net_buffer NETBUF_RECV sockfd ssl in
        '(r, out) ← lift (push_auth_onto_net_buffer realloc_ok OPENLI_PROTO_COLLECTOR_AUTH
                            (create_net_buffer NETBUF_SEND sockfd ssl));
        _ ← put_conn (λ c, set_pn_state sockfd c.(pn_instruct_fail) c.(pn_instruct_log) c.(pn_pollout)
                             (Some out) (Some inc) c);
        if r <? 0 then
          _ ← put_conn (set_pn_fail 1);
          _ ← sync_disconnect_provisioner false;
          mret 0
        else
          _ ← put_conn (λ c, set_pn_state c.(pn_instruct_fd) c.(pn_instruct_fail) c.(pn_instruct_log)
                               true c.(pn_outgoing) c.(pn_incoming) c);
          mret 1
    | _, _ => lift Abort
    end.

(** ** The packet processing threads *)

(** [push_all_active_intercepts] *)
Definition push_all_active_intercepts (q : Z) : M unit :=
  t ← get_prov;
  for_each t.(pv_ipintercepts) (λ e,
    orig ← load_cept e.2;
    u ← username_of e.2 orig;
    _ ← match u with
        | None => mret tt
        | Some _ =>
            sessions ← target_sessions e.2 orig;
            for_each sessions (λ sp, sess ← load_session sp; push_single_ipintercept q orig sess)
        end;
    _ ← push_single_vendmirrorid OPENLI_PUSH_VENDMIRROR_INTERCEPT orig q;
    for_each orig.(ip_statics) (push_static_iprange_to_collectors q orig)).

(** One message of a packet processing thread. *)
Definition handle_update (now : Z) (m : state_update Pkt) : M unit :=
  match m with
  | OPENLI_UPDATE_HELLO q =>
      _ ← push_all_active_intercepts q;
      _ ← push_all_coreservers q;
      put_conn (λ c, set_pn_hellos (u8 (c.(pn_hellosreceived) + 1)) c)
  | OPENLI_UPDATE_PACKET pkt => _ ← update_user_sessions p now pkt; mret tt
  | OPENLI_UPDATE_OTHER => mret tt
  end.

(** ** The main loop *)

(** The intercepts whose start or end has come. *)
Fixpoint fire_events (now : Z) (fuel : nat) : M unit :=
  match fuel with
  | O => lift Undef
  | S fuel =>
      t ← get_prov;
      '(e, ev) ← lift (check_intercept_time_event now t.(pv_events));
      _ ← put_prov (set_pv_events ev);
      match e with
      | None => mret tt
      | Some e =>
          _ ← generate_startend_ipiris p ascii2prefix now e.(ue_intercept) now;
          fire_events now fuel
      end
  end.

(** The updates that are waiting. *)
Definition handle_updates (now : Z) (ev : poll_events Pkt) : M Z :=
  match ev.(pe_updates) with
  | None => mret 0
  | Some l => _ ← for_each l (handle_update now); mret (if ev.(pe_error) then -1 else 0)
  end.

(** [sync_thread_main] *)
Definition sync_thread_main (now : Z) (fuel : nat) (ev : poll_events Pkt) : M Z :=
  if ev.(pe_failed) then mret (-1)
  else
    _ ← (if ev.(pe_timer) then fire_events now fuel else mret tt);
    sent ← match ev.(pe_out) with None => mret 1 | Some res => send_to_provisioner res end;
    if sent <=? 0 then _ ← sync_disconnect_provisioner false; mret 0
    else
      c ← get_conn;
      rc ← match ev.(pe_in) with
           | Some results =>
               if c.(pn_colthreads) <=? c.(pn_hellosreceived)
               then recv_from_provisioner now fuel results else mret 1
           | None => mret 1
           end;
      if rc <=? 0 then
        _ ← sync_disconnect_provisioner false;
        mret (if (rc =? 0) || (rc =? -1) then 0 else -1)
      else handle_updates now ev.
End provisioner.
