(* ===== verification/SyncProvProps.v ===== *)
(** * What the provisioner's messages do to the synchronisation thread

    The tables of SyncIntercepts refine a map from LIIDs to intercepts.  Every operation
    that a message of the provisioner calls returns, keeps the tables consistent with each
    other - the table of intercepts, the lists of users, the time events - and changes the
    map as the message says.  Changing the target of an intercept is left out: it leaves
    the intercept with a string that was freed ([pv_stale]). *)

From stdpp Require Import gmap.
From S2P Require Import Prelude Protocol Intercept NetBuffer NetPush NetDecode Publish AccessSession Radius RadiusSession Ipiri JenkinsHash HashTable IpSession TimedIntercept CoreServer ThreadTables PacketProps SyncSessions SyncProps SyncIntercepts SyncProvisioner.

(** Outputs that are not about the set of intercepts. *)
Definition about_cepts (o : sync_output) : bool :=
  match o with Out_publish _ _ | Out_cept_added | Out_cept_ended => true | _ => false end.
Definition cept_outputs (l : list sync_output) : list sync_output := filter (λ o, about_cepts o = true) l.

Lemma cept_outputs_app l l' : cept_outputs (l ++ l') = cept_outputs l ++ cept_outputs l'.
Proof. apply filter_app. Qed.
Lemma cept_outputs_map {A} (f : A → sync_output) l :
  (∀ x, about_cepts (f x) = false) → cept_outputs (map f l) = [].
Proof.
  intros Hf. induction l as [|x l IH]; [done|]. cbn [map]. unfold cept_outputs.
  rewrite filter_cons_False; [exact IH|]. by rewrite Hf.
Qed.

(** Tables without the counter of addresses. *)
Definition erase (t : prov_tables) : prov_tables := set_pv_next 0 t.

Ltac cbn_pv := cbn [erase set_pv_cepts set_pv_stale set_pv_next set_pv_ipintercepts set_pv_userintercepts
  set_pv_coreservers set_pv_defaultradius set_pv_events pv_cepts pv_stale pv_next pv_ipintercepts
  pv_userintercepts pv_coreservers pv_defaultradius pv_events set_sy_prov sy_prov] in *.

(** Running the steps of a sequence that are known. *)
Ltac run_st := cbv [mbind ST_bind mret ST_ret lift get get_prov put_prov modify get_conn outcome_bind].

(** The tables that intercepts have nothing to do with. *)
Definition same_lists (t t' : prov_tables) : Prop :=
  t.(pv_coreservers) = t'.(pv_coreservers) ∧ t.(pv_defaultradius) = t'.(pv_defaultradius).
Lemma same_lists_erase t t' : erase t = erase t' → same_lists t t'.
Proof. unfold erase, set_pv_next. intros E. injection E. done. Qed.

Section quiet.
Context {G Pkt : Type} (p : access_plugin G Pkt).
Context (ascii2prefix : bytes → option prefix_t).
Abbreviation sync := (collector_sync_t G).
Abbreviation M := (ST sync).
Implicit Types (s : sync) (t : prov_tables).

(** [s'] is [s] with the tables [t], after the outputs [l] about intercepts and others
    about something else. *)
Record after (s : sync) (t : prov_tables) (l : list sync_output) (s' : sync) : Prop := {
  af_plugin : s'.(sy_plugin) = s.(sy_plugin);
  af_store : s'.(sy_store) = s.(sy_store);
  af_users : s'.(sy_allusers) = s.(sy_allusers);
  af_ips : s'.(sy_activeips) = s.(sy_activeips);
  af_conn : s'.(sy_conn) = s.(sy_conn);
  af_queues : s'.(sy_queues) = s.(sy_queues);
  af_prov : erase s'.(sy_prov) = erase t;
  af_lists : same_lists t s.(sy_prov);
  af_next : s.(sy_prov).(pv_next) ≤ s'.(sy_prov).(pv_next);
  af_out : cept_outputs s'.(sy_out) = cept_outputs s.(sy_out) ++ l;
}.

Lemma after_refl s : after s s.(sy_prov) [] s.
Proof. split; try done. by rewrite app_nil_r. Qed.
Lemma after_trans s t1 l1 s1 t2 l2 s2 :
  after s t1 l1 s1 → after s1 t2 l2 s2 → after s t2 (l1 ++ l2) s2.
Proof.
  intros [] []. split; try congruence; [|lia|by rewrite af_out1, af_out0, app_assoc].
  apply same_lists_erase in af_prov0. destruct af_lists0, af_lists1, af_prov0. split; congruence.
Qed.
Lemma after_erase s t t' l s' : erase t = erase t' → after s t l s' → after s t' l s'.
Proof.
  intros E []. split; try done; [congruence|]. apply same_lists_erase in E. destruct af_lists0, E. split; congruence.
Qed.
Lemma after_prov (f : prov_tables → prov_tables) s :
  s.(sy_prov).(pv_next) ≤ (f s.(sy_prov)).(pv_next) → same_lists (f s.(sy_prov)) s.(sy_prov) →
  after s (f s.(sy_prov)) [] (set_sy_prov (f s.(sy_prov)) s).
Proof. intros. split; try done. by rewrite app_nil_r. Qed.
Lemma after_out o s : after s s.(sy_prov) (cept_outputs o) (with_out o s).
Proof. split; try done. apply cept_outputs_app. Qed.

(** [m] returns and does nothing but tell others. *)
Definition quiet {A} (m : M A) (s : sync) : Prop :=
  ∃ a s', m s = Ok (a, s') ∧ after s s.(sy_prov) [] s'.

Lemma quiet_ret {A} (a : A) s : quiet (mret a) s.
Proof. exists a, s. split; [done|apply after_refl]. Qed.
Lemma quiet_bind {A B} (m : M A) (k : A → M B) s :
  quiet m s → (∀ a s', m s = Ok (a, s') → after s s.(sy_prov) [] s' → quiet (k a) s') → quiet (m ≫= k) s.
Proof.
  intros (a & s1 & E & H1) Hk. destruct (Hk a s1 E H1) as (b & s2 & E2 & H2).
  exists b, s2. rewrite (ST_bind_ok _ _ _ _ _ E). split; [done|].
  eapply after_trans in H2; [|exact H1]. eapply after_erase; [|exact H2]. by apply af_prov in H1.
Qed.
Lemma quiet_ok {A B} (m : M A) (k : A → M B) s a :
  m s = Ok (a, s) → quiet (k a) s → quiet (m ≫= k) s.
Proof. intros E Hk. unfold quiet. by rewrite (ST_bind_ok _ _ _ _ _ E). Qed.
Lemma quiet_emit o s : cept_outputs o = [] → quiet (emit o) s.
Proof. intros E. exists tt, (with_out o s). split; [done|]. rewrite <- E. apply after_out. Qed.
Lemma quiet_for_each {A} (f : A → M unit) l s :
  (∀ x s', x ∈ l → after s s.(sy_prov) [] s' → quiet (f x) s') → quiet (for_each l f) s.
Proof.
  revert s. induction l as [|x l IH]; intros s Hf; [apply quiet_ret|]. cbn [for_each].
  apply quiet_bind; [apply Hf; [apply list_elem_of_here|apply after_refl]|].
  intros a s1 _ H1. apply IH. intros y s2 Hy H2. apply Hf; [by apply list_elem_of_further|].
  eapply after_trans in H2; [|exact H1]. eapply after_erase; [|exact H2]. by apply af_prov in H1.
Qed.
Lemma quiet_to_queues (f : Z → M unit) s :
  (∀ q s', after s s.(sy_prov) [] s' → quiet (f q) s') → quiet (to_queues f) s.
Proof.
  intros Hf. unfold to_queues. apply (quiet_ok _ _ _ s); [done|]. apply quiet_for_each. auto.
Qed.

(** Reading the tables. *)
Lemma after_fields s l s' t :
  after s t l s' →
  s'.(sy_prov).(pv_cepts) = t.(pv_cepts) ∧ s'.(sy_prov).(pv_stale) = t.(pv_stale) ∧
  s'.(sy_prov).(pv_ipintercepts) = t.(pv_ipintercepts) ∧
  s'.(sy_prov).(pv_userintercepts) = t.(pv_userintercepts) ∧
  s'.(sy_prov).(pv_events) = t.(pv_events).
Proof. intros [_ _ _ _ _ _ E _ _ _]. unfold erase, set_pv_next in E. injection E as -> -> -> -> _ _ ->. done. Qed.

Lemma load_cept_ok a i s : s.(sy_prov).(pv_cepts) !! a = Some i → load_cept a s = Ok (i, s).
Proof. intros E. unfold load_cept, get_prov, get, mbind, ST_bind, mret, ST_ret, lift. by rewrite E. Qed.
Lemma username_of_ok a i s : a ∉ s.(sy_prov).(pv_stale) → username_of a i s = Ok (i.(ip_username), s).
Proof.
  intros E. unfold username_of, get_prov, get, mbind, ST_bind, mret, ST_ret.
  by rewrite decide_False.
Qed.
Lemma quiet_alloc s : quiet alloc s.
Proof.
  eexists _, _. split; [reflexivity|].
  eapply after_erase; [|apply (after_prov (set_pv_next (s.(sy_prov).(pv_next) + 1)))]; [done|simpl; lia|done].
Qed.
End quiet.

Arguments quiet {G A} _ _.
Arguments after {G} _ _ _ _.

(** ** Intercepts as the provisioner sends them *)

(** A string without a NUL. *)
Definition plain (b : bytes) : Prop := until_nul b = b ∧ b ≠ [].
#[global] Instance plain_dec b : Decision (plain b).
Proof. unfold plain. apply _. Defined.

(** A range of the intercept with LIID [k]. *)
Definition range_ok (k : bytes) (r : static_ipranges_t) : Prop :=
  r.(sr_liid) = Some k ∧ is_Some r.(sr_rangestr).
Definition range_key (r : static_ipranges_t) : option bytes := until_nul <$> r.(sr_rangestr).

(** A string with its length. *)
Definition cstr_ok (s : cstring) (len : Z) : Prop :=
  match s with Some v => until_nul v = v ∧ len = zlen v | None => False end.
Lemma cstr_is_Some s len : cstr_ok s len → is_Some s.
Proof. by destruct s. Qed.
Lemma cstr_ok_eq s len s' len' : cstr_ok s len → cstr_ok s' len' → until_nul <$> s = until_nul <$> s' → s = s' ∧ len = len'.
Proof. destruct s, s'; try done. intros [E ->] [E' ->] [= H]. rewrite E, E' in H. by subst. Qed.

Record cept_ok (k : bytes) (i : ipintercept_t) : Prop := {
  co_plain : plain k;
  co_liid : i.(ip_common).(ic_liid) = Some k;
  co_liid_len : i.(ip_common).(ic_liid_len) = zlen k;
  co_authcc : cstr_ok i.(ip_common).(ic_authcc) i.(ip_common).(ic_authcc_len);
  co_delivcc : cstr_ok i.(ip_common).(ic_delivcc) i.(ip_common).(ic_delivcc_len);
  co_encryptkey : match i.(ip_common).(ic_encryptkey) with Some v => until_nul v = v | None => True end;
  co_user : match i.(ip_username) with
            | None => i.(ip_username_len) = 0
            | Some u => plain u ∧ i.(ip_username_len) = zlen u
            end;
  co_times : times_ok i.(ip_common);
  co_ranges : Forall (range_ok k) i.(ip_statics);
  co_distinct : NoDup (map range_key i.(ip_statics));
}.

Lemma string_key_ok v : plain v → string_key (Some v) (zlen v) = Ok v.
Proof.
  intros [_ Hv]. unfold string_key. destruct (Z.eqb_spec (zlen v) 0) as [E|_].
  { destruct v; [done|]. unfold zlen in E. simpl in E. lia. }
  cbn [deref mbind outcome_bind]. by rewrite read_bytes_app.
Qed.
Lemma cept_key_ok k i : cept_ok k i → cept_key i = Ok k.
Proof. intros []. unfold cept_key. rewrite co_liid0, co_liid_len0. by apply string_key_ok. Qed.
Lemma liid_key_ok k i : cept_ok k i → liid_key i.(ip_common) = Ok k.
Proof.
  intros []. unfold liid_key. rewrite co_liid0, co_liid_len0. destruct co_plain0 as [E _].
  cbn [c_str mbind outcome_bind]. rewrite E. by rewrite read_bytes_app.
Qed.
Lemma cept_intercept_ok k i : cept_ok k i → intercept_ok i.
Proof. intros []. by split_and!; [rewrite co_liid0|eapply cstr_is_Some..]. Qed.

Definition user_of (i : ipintercept_t) : bytes := default [] i.(ip_username).
Lemma user_key_ok k i : cept_ok k i → string_key i.(ip_username) i.(ip_username_len) = Ok (user_of i).
Proof.
  intros []. unfold user_of. destruct (ip_username i) as [u|].
  - destruct co_user0 as [Hu ->]. by apply string_key_ok.
  - by rewrite co_user0.
Qed.

Lemma create_staticipsession_ok k i r cin : cept_ok k i → is_Some r →
  ∃ x, create_staticipsession i r cin = Ok x.
Proof.
  intros (Hl & Ha & Hd)%cept_intercept_ok [r' ->]. unfold create_staticipsession, copy_intercept_common.
  destruct Hl as [l ->], Ha as [a ->], Hd as [d ->]. by eexists.
Qed.
Lemma create_vendmirror_ok k i a : cept_ok k i → ∃ x, create_vendmirror_intercept a i = Ok x.
Proof.
  intros (Hl & Ha & Hd)%cept_intercept_ok. unfold create_vendmirror_intercept, copy_intercept_common.
  destruct Hl as [l ->], Ha as [x ->], Hd as [d ->]. by eexists.
Qed.

(** ** Operations that only tell others *)

Section telling.
Context {G Pkt : Type} (p : access_plugin G Pkt).
Context (ascii2prefix : bytes → option prefix_t).
Abbreviation sync := (collector_sync_t G).
Implicit Types (s : sync).

(** The plugin has an answer for every session of a user. *)
Definition session_ready (s : sync) (sp : Z) : Prop :=
  ∃ sess, s.(sy_store).(ss_heap) !! sp = Some sess ∧
    as_sessipcount sess ≤ zlen (as_sessionips sess) ∧
    ∀ now special t0, ∃ r, p.(ap_generate_iri_from_session) s.(sy_store) now sess special t0 s.(sy_plugin) = Ok r.
Definition sessions_ready (s : sync) : Prop :=
  ∀ u, u ∈ s.(sy_allusers) → u.(iu_userid) ≠ [] ∧ ∀ sp, sp ∈ u.(iu_sessions) → session_ready s sp.

Lemma ready_after s t l s' : sessions_ready s → after s t l s' → sessions_ready s'.
Proof. intros Hr [Hp Hs Hu _ _ _ _ _ _ _] u. rewrite Hu. unfold session_ready. rewrite Hp, Hs. apply Hr. Qed.

Lemma lift_ok {S A} (m : outcome A) a (s : S) : m = Ok a → lift m s = Ok (a, s).
Proof. by intros ->. Qed.

Lemma quiet_push_iprange msgtype q k i r s :
  cept_ok k i → quiet (push_iprange msgtype q i r) s.
Proof.
  intros Hi. unfold push_iprange. destruct (sr_liid r), (sr_rangestr r) as [rs|] eqn:E; try apply quiet_ret.
  destruct (create_staticipsession_ok k i (Some rs) (sr_cin r) Hi) as [x Hx]; [done|].
  eapply quiet_ok; [by apply lift_ok|]. by apply quiet_emit.
Qed.
Lemma quiet_push_mirror msgtype k i q s : cept_ok k i → quiet (push_mirror msgtype i q) s.
Proof.
  intros Hi. unfold push_mirror. apply quiet_bind; [apply quiet_alloc|]. intros a s1 _ _.
  destruct (create_vendmirror_ok k i a Hi) as [x Hx].
  eapply quiet_ok; [by apply lift_ok|]. by apply quiet_emit.
Qed.
Lemma quiet_vendmirrorid msgtype k i q s : cept_ok k i → quiet (push_single_vendmirrorid msgtype i q) s.
Proof.
  intros Hi. unfold push_single_vendmirrorid. destruct (_ =? _); [apply quiet_ret|by eapply quiet_push_mirror].
Qed.
Lemma quiet_announce_vendor k i s : cept_ok k i → quiet (announce_vendormirror_id i) s.
Proof.
  intros Hi. unfold announce_vendormirror_id. apply quiet_bind.
  - apply quiet_to_queues. intros. by eapply quiet_vendmirrorid.
  - intros. by apply quiet_emit.
Qed.
Lemma quiet_remove_vendor k i s : cept_ok k i → quiet (remove_vendormirror_id i) s.
Proof.
  intros Hi. unfold remove_vendormirror_id. apply quiet_bind.
  - apply quiet_to_queues. intros. by eapply quiet_vendmirrorid.
  - intros. by apply quiet_emit.
Qed.

Lemma quiet_basic_iri k i (uname : cstring) special cin s :
  cept_ok k i → is_Some uname →
  ∃ f, lift (create_ipiri_job_basic i uname special cin) s = Ok (f, s).
Proof.
  intros Hi [u ->]. unfold create_ipiri_job_basic. rewrite (co_liid k i Hi). by eexists.
Qed.

Lemma quiet_iprange_iri k i a r special s :
  cept_ok k i → is_Some r.(sr_rangestr) → a ∉ s.(sy_prov).(pv_stale) →
  quiet (create_ipiri_job_from_iprange ascii2prefix r a i special) s.
Proof.
  intros Hi [rs Hr] Ha. unfold create_ipiri_job_from_iprange. rewrite Hr.
  eapply quiet_ok; [by apply lift_ok|]. destruct (ascii2prefix _) as [pf|]; [|apply quiet_ret].
  eapply quiet_ok; [by apply username_of_ok|].
  destruct (quiet_basic_iri k i
    (match ip_username i with Some _ => ip_username i | None => Some (of_string "unknownuser") end)
    special (sr_cin r) s Hi) as [f Hf]; [by destruct (ip_username i)|].
  eapply quiet_ok; [exact Hf|]. apply quiet_bind; [by apply quiet_emit|]. intros. apply quiet_ret.
Qed.

Lemma quiet_publish_mobiri i sess liid ty params s : quiet (publish_mobiri i sess liid ty params) s.
Proof.
  unfold publish_mobiri. destruct (decide _); [apply quiet_ret|].
  apply quiet_bind; [by apply quiet_emit|]. intros. apply quiet_ret.
Qed.

Lemma quiet_session_iri now k i sess special s :
  cept_ok k i → is_Some i.(ip_username) → as_sessipcount sess ≤ zlen (as_sessionips sess) →
  (∀ now special t0, ∃ r, p.(ap_generate_iri_from_session) s.(sy_store) now sess special t0 s.(sy_plugin) = Ok r) →
  quiet (create_iri_from_session p now sess i special) s.
Proof.
  intros Hi Hu Hn Hp. unfold create_iri_from_session.
  destruct (iri_wanted now i); [|apply quiet_ret]. destruct (is_mobile i).
  - unfold create_mobiri_job_from_session. rewrite (co_liid k i Hi).
    eapply quiet_ok; [by apply lift_ok|]. eapply quiet_ok; [done|].
    destruct (Hp now special ETSILI_IRI_NONE) as [[[ret ty] params] Hr].
    eapply quiet_ok; [by apply lift_ok|]. cbn. destruct (ret =? -1); [apply quiet_ret|].
    apply quiet_publish_mobiri.
  - unfold create_ipiri_job_from_session.
    destruct (quiet_basic_iri k i (ip_username i) special (as_cin sess) s Hi Hu) as [f Hf].
    eapply quiet_ok; [exact Hf|]. eapply quiet_ok; [done|].
    destruct (Hp now special ETSILI_IRI_REPORT) as [[[ret ty] params] Hr].
    eapply quiet_ok; [by apply lift_ok|]. cbn. destruct (ret <=? 0); [apply quiet_ret|].
    apply quiet_bind; [|intros; apply quiet_ret]. unfold publish_ipiri, finish_ipiri_job.
    eapply quiet_ok; [apply lift_ok; by rewrite decide_True|]. by apply quiet_emit.
Qed.

Lemma quiet_session_push msgtype k i sess s :
  cept_ok k i → quiet (push_session_to_threads msgtype sess i) s.
Proof.
  intros Hi. unfold push_session_to_threads. eapply quiet_ok; [done|].
  destruct (decide _); [apply quiet_ret|].
  eapply quiet_ok; [apply lift_ok, create_ipsessions_ok; by eapply cept_intercept_ok|].
  apply quiet_emit. generalize (session_ips sess). intros ips. induction ips as [|ip ips IH]; [done|].
  cbn [map mbind list_bind]. rewrite cept_outputs_app. etrans; [|exact IH].
  by rewrite cept_outputs_map.
Qed.
Lemma quiet_push_single k i sess q s :
  cept_ok k i → quiet (push_single_ipintercept q i sess) s.
Proof.
  intros Hi. eexists _, _. split; [apply push_single_ok; by eapply cept_intercept_ok|].
  replace [] with (cept_outputs (map (λ ip, Out_push q (OPENLI_PUSH_IPINTERCEPT (ipsession_of i (as_cin sess) ip)))
                      (session_ips sess))); [apply after_out|]. by apply cept_outputs_map.
Qed.
End telling.

(** ** The lists of users *)

Abbreviation user_lists := (list (bytes * list (bytes * Z))).
Definition user_cept (users : user_lists) (u k : bytes) : option Z := hash_find u users ≫= hash_find k.
Record users_wf (users : user_lists) : Prop := {
  uw_table : table_ok users;
  uw_lists : ∀ u l, hash_find u users = Some l → table_ok l ∧ l ≠ [];
}.

(** A list that takes the place of another, or is new. *)
Lemma users_put users users1 u l :
  users_wf users → table_ok users1 → is_Some (hash_find u users1) →
  (∀ u', u' ≠ u → hash_find u' users1 = hash_find u' users) → table_ok l → l ≠ [] →
  users_wf (hash_update u l users1) ∧
  ∀ u' k, user_cept (hash_update u l users1) u' k = if decide (u' = u) then hash_find k l else user_cept users u' k.
Proof.
  intros [Ht Hl] Ht1 [l1 Hu] Hother Hok Hne. split.
  - split; [by apply hash_update_ok|]. intros u' l'. rewrite (hash_find_update _ _ _ l1) by done.
    destruct (decide (u' = u)); [by intros [= <-]|]. rewrite Hother by done. apply Hl.
  - intros u' k. unfold user_cept. rewrite (hash_find_update _ _ _ l1) by done.
    destruct (decide (u' = u)); [done|]. by rewrite Hother.
Qed.

Definition users_add (u k : bytes) (a : Z) (users : user_lists) : user_lists :=
  let users := match hash_find u users with None => hash_add u [] users | Some _ => users end in
  hash_update u (hash_add k a (default [] (hash_find u users))) users.
Definition users_remove (u k : bytes) (users : user_lists) : user_lists :=
  match hash_find u users with
  | None => users
  | Some l =>
      let l := hash_delete k l in
      if decide (length l = 0%nat) then hash_delete u users else hash_update u l users
  end.

Lemma users_add_ok users u k a :
  users_wf users → user_cept users u k = None →
  users_wf (users_add u k a users) ∧
  ∀ u' k', user_cept (users_add u k a users) u' k' =
    if decide (u' = u ∧ k' = k) then Some a else user_cept users u' k'.
Proof.
  intros Hw Hnone. unfold users_add.
  set (users1 := match hash_find u users with None => _ | _ => _ end).
  assert (H1 : table_ok users1 ∧ hash_find u users1 = Some (default [] (hash_find u users)) ∧
               ∀ u', u' ≠ u → hash_find u' users1 = hash_find u' users).
  { destruct Hw as [Ht _]. unfold users1. destruct (hash_find u users) as [l|] eqn:E; [done|].
    split; [by apply hash_add_ok|]. split; [by rewrite hash_find_add, decide_True|].
    intros u' Hne. by rewrite hash_find_add, decide_False. }
  destruct H1 as (Ht1 & Hu1 & Hother). rewrite Hu1. cbn [default]. unfold id.
  set (l := default [] (hash_find u users)) in *.
  assert (Hl : table_ok l ∧ hash_find k l = None).
  { unfold l, user_cept in *. destruct (hash_find u users) as [l0|] eqn:E; [|by split; [apply table_ok_nil|]].
    split; [|exact Hnone]. by destruct (uw_lists _ Hw u l0 E). }
  destruct Hl as [Hl Hk]. destruct (users_put users users1 u (hash_add k a l)) as [Hw' Hv]; try done.
  { by apply hash_add_ok. } { by destruct l. }
  split; [done|]. intros u' k'. rewrite Hv. destruct (decide (u' = u)) as [->|].
  - rewrite hash_find_add by done. destruct (decide (k' = k)) as [->|].
    + by rewrite decide_True.
    + rewrite decide_False by tauto. unfold user_cept, l. by destruct (hash_find u users).
  - by rewrite decide_False by tauto.
Qed.

Lemma users_remove_ok users u k :
  users_wf users →
  users_wf (users_remove u k users) ∧
  ∀ u' k', user_cept (users_remove u k users) u' k' =
    if decide (u' = u ∧ k' = k) then None else user_cept users u' k'.
Proof.
  intros Hw. unfold users_remove. destruct (hash_find u users) as [l|] eqn:E.
  2:{ split; [done|]. intros u' k'. destruct (decide _) as [[-> _]|]; [|done]. unfold user_cept. by rewrite E. }
  destruct (uw_lists _ Hw u l E) as [Hl _].
  assert (Hd : ∀ u' k', (if decide (u' = u) then hash_find k' (hash_delete k l) else user_cept users u' k') =
            if decide (u' = u ∧ k' = k) then None else user_cept users u' k').
  { intros u' k'. destruct (decide (u' = u)) as [->|]; [|by rewrite decide_False by tauto].
    rewrite hash_find_delete. unfold user_cept. rewrite E.
    destruct (decide (k' = k)); [by rewrite decide_True|by rewrite decide_False by tauto]. }
  destruct (decide (length (hash_delete k l) = 0%nat)) as [Hn|Hn].
  - apply nil_length_inv in Hn. split.
    + destruct Hw as [Ht Hls]. split; [by apply hash_delete_ok|]. intros u' l'.
      rewrite hash_find_delete. destruct (decide _); [done|]. apply Hls.
    + intros u' k'. specialize (Hd u' k'). rewrite Hn in Hd. rewrite <- Hd. unfold user_cept at 1.
      rewrite (hash_find_delete u u'). by destruct (decide (u' = u)).
  - destruct (users_put users users u (hash_delete k l)) as [Hw' Hv]; try done.
    { by destruct Hw. } { by apply hash_delete_ok. } { intros Hz. by rewrite Hz in Hn. }
    split; [done|]. intros u' k'. by rewrite Hv, Hd.
Qed.

(** ** The tables and the map *)

Abbreviation config := (gmap bytes (Z * ipintercept_t)).
Definition owners_of (A : config) : owners := prod_map id ip_common <$> A.

Record prov_inv (now : Z) (t : prov_tables) (A : config) : Prop := {
  pi_table : table_ok t.(pv_ipintercepts);
  pi_find : ∀ k, hash_find k t.(pv_ipintercepts) = fst <$> A !! k;
  pi_heap : ∀ a i, t.(pv_cepts) !! a = Some i ↔ ∃ k, A !! k = Some (a, i);
  pi_addr : ∀ k k' a i i', A !! k = Some (a, i) → A !! k' = Some (a, i') → k = k';
  pi_fresh : ∀ k a i, A !! k = Some (a, i) → a < t.(pv_next);
  pi_ok : ∀ k a i, A !! k = Some (a, i) → cept_ok k i;
  pi_stale : t.(pv_stale) = [];
  pi_wf : users_wf t.(pv_userintercepts);
  pi_users : ∀ u k a, user_cept t.(pv_userintercepts) u k = Some a ↔
               ∃ i, A !! k = Some (a, i) ∧ i.(ip_username) = Some u;
  pi_events : events_inv now (owners_of A) t.(pv_events);
}.

Lemma prov_inv_erase now t t' A :
  erase t = erase t' → t.(pv_next) ≤ t'.(pv_next) → prov_inv now t A → prov_inv now t' A.
Proof.
  intros E Hn []. unfold erase, set_pv_next in E. injection E as E1 E2 E3 E4 _ _ E5.
  split; try (rewrite <- ?E1, <- ?E2, <- ?E3, <- ?E4, <- ?E5; done).
  intros k a i Hk. specialize (pi_fresh0 k a i Hk). lia.
Qed.
Lemma prov_inv_later now now' t A : now ≤ now' → prov_inv now t A → prov_inv now' t A.
Proof. intros ? []. split; try done. by eapply events_inv_later. Qed.

Lemma no_user_cept now t A u k : prov_inv now t A → A !! k = None → user_cept t.(pv_userintercepts) u k = None.
Proof. intros [] Hk. apply eq_None_not_Some. intros [a (i & Hi & _)%pi_users0]. by rewrite Hk in Hi. Qed.

(** The intercept stays where it is. *)
Lemma prov_inv_update now t A k a i i' ev :
  prov_inv now t A → A !! k = Some (a, i) → cept_ok k i' → i'.(ip_username) = i.(ip_username) →
  events_inv now (<[k := (a, i'.(ip_common))]> (owners_of A)) ev →
  prov_inv now (set_pv_events ev (set_pv_cepts (<[a := i']> t.(pv_cepts)) t)) (<[k := (a, i')]> A).
Proof.
  intros [] Hk Hok Hu Hev. split; cbn_pv; try done.
  - intros k'. rewrite pi_find0. destruct (decide (k' = k)) as [->|].
    + by rewrite lookup_insert_eq, Hk.
    + by rewrite lookup_insert_ne.
  - intros b j. destruct (decide (b = a)) as [->|Hb].
    + rewrite lookup_insert_eq. split.
      * intros [= <-]. exists k. by rewrite lookup_insert_eq.
      * intros [k' Hk']. destruct (decide (k' = k)) as [->|]; [by rewrite lookup_insert_eq in Hk'; simplify_eq|].
        rewrite lookup_insert_ne in Hk' by done. by edestruct (pi_addr0 k k').
    + rewrite lookup_insert_ne, pi_heap0 by done. split; intros [k' Hk'];
        (destruct (decide (k' = k)) as [->|]; [try (rewrite lookup_insert_eq in Hk'); simplify_eq|]).
      * exists k'. by rewrite lookup_insert_ne.
      * exists k'. by rewrite lookup_insert_ne in Hk'.
  - assert (Hold : ∀ k' b j, <[k := (a, i')]> A !! k' = Some (b, j) → ∃ j', A !! k' = Some (b, j')).
    { intros k' b j. destruct (decide (k' = k)) as [->|]; [rewrite lookup_insert_eq|rewrite lookup_insert_ne by done; eauto].
      intros [= <- <-]. eauto. }
    intros k1 k2 b j1 j2 [? ?]%Hold [? ?]%Hold. by eapply pi_addr0.
  - intros k' b j. destruct (decide (k' = k)) as [->|].
    + rewrite lookup_insert_eq. intros [= <- <-]. by eapply pi_fresh0.
    + rewrite lookup_insert_ne by done. apply pi_fresh0.
  - intros k' b j. destruct (decide (k' = k)) as [->|].
    + rewrite lookup_insert_eq. by intros [= <- <-].
    + rewrite lookup_insert_ne by done. apply pi_ok0.
  - intros u k' b. rewrite pi_users0. destruct (decide (k' = k)) as [->|].
    + rewrite lookup_insert_eq. split; intros (j & Hj & Hju); simplify_eq.
      * exists i'. by rewrite Hu.
      * exists i. by rewrite <- Hu.
    + by rewrite lookup_insert_ne.
  - unfold owners_of. by rewrite fmap_insert.
Qed.

(** A new intercept, at an address that is not in use. *)
Definition users_with (k : bytes) (a : Z) (i : ipintercept_t) (users : user_lists) : user_lists :=
  match i.(ip_username) with None => users | Some u => users_add u k a users end.
Definition users_without (k : bytes) (i : ipintercept_t) (users : user_lists) : user_lists :=
  match i.(ip_username) with None => users | Some u => users_remove u k users end.

Lemma prov_inv_insert now t t' A k a i :
  prov_inv now t A → A !! k = None → cept_ok k i → t.(pv_next) ≤ a < t'.(pv_next) →
  t'.(pv_ipintercepts) = hash_add k a t.(pv_ipintercepts) →
  t'.(pv_cepts) = <[a := i]> t.(pv_cepts) → t'.(pv_stale) = [] →
  t'.(pv_userintercepts) = users_with k a i t.(pv_userintercepts) →
  events_inv now (<[k := (a, i.(ip_common))]> (owners_of A)) t'.(pv_events) →
  prov_inv now t' (<[k := (a, i)]> A).
Proof.
  intros [] Hk Hok Ha Et Ec Est Eu Hev.
  assert (Hnew : ∀ k' j, A !! k' ≠ Some (a, j)) by (intros k' j Hj; apply pi_fresh0 in Hj; lia).
  assert (Hfind : hash_find k (pv_ipintercepts t) = None) by by rewrite pi_find0, Hk.
  assert (Hnone : ∀ u, user_cept (pv_userintercepts t) u k = None).
  { intros u. apply eq_None_not_Some. intros [b (j & Hj & _)%pi_users0]. by rewrite Hk in Hj. }
  assert (Hu : users_wf (pv_userintercepts t') ∧
    ∀ u k', user_cept (pv_userintercepts t') u k' =
      if decide (ip_username i = Some u ∧ k' = k) then Some a else user_cept (pv_userintercepts t) u k').
  { rewrite Eu. unfold users_with. destruct (ip_username i) as [v|].
    - destruct (users_add_ok (pv_userintercepts t) v k a pi_wf0 (Hnone v)) as [Hw Hv]. split; [done|].
      intros u k'. rewrite Hv. destruct (decide (u = v ∧ k' = k)) as [[-> ->]|Hd].
      + by rewrite decide_True. + rewrite decide_False; [done|]. intros [[= <-] ->]. tauto.
    - split; [done|]. intros u k'. rewrite decide_False; [done|]. by intros [? _]. }
  destruct Hu as [Hwf Hu]. split; try done.
  - rewrite Et. by apply hash_add_ok.
  - intros k'. rewrite Et, hash_find_add by done. destruct (decide (k' = k)) as [->|].
    + by rewrite lookup_insert_eq. + by rewrite lookup_insert_ne.
  - intros b j. rewrite Ec. destruct (decide (b = a)) as [->|Hb].
    + rewrite lookup_insert_eq. split.
      * intros [= <-]. exists k. by rewrite lookup_insert_eq.
      * intros [k' Hk']. destruct (decide (k' = k)) as [->|]; [by rewrite lookup_insert_eq in Hk'; simplify_eq|].
        rewrite lookup_insert_ne in Hk' by done. by apply Hnew in Hk'.
    + rewrite lookup_insert_ne, pi_heap0 by done. split; intros [k' Hk'];
        (destruct (decide (k' = k)) as [->|]; [try (rewrite lookup_insert_eq in Hk'); simplify_eq|]).
      * exists k'. by rewrite lookup_insert_ne.
      * exists k'. by rewrite lookup_insert_ne in Hk'.
  - intros k1 k2 b j1 j2. destruct (decide (k1 = k)) as [->|], (decide (k2 = k)) as [->|]; [done|..];
      rewrite ?lookup_insert_eq, ?lookup_insert_ne by done.
    + intros [= <- <-] H2. by apply Hnew in H2.
    + intros H1 [= <- <-]. by apply Hnew in H1.
    + apply pi_addr0.
  - intros k' b j. destruct (decide (k' = k)) as [->|].
    + rewrite lookup_insert_eq. intros [= <- <-]. lia.
    + rewrite lookup_insert_ne by done. intros ?%pi_fresh0. lia.
  - intros k' b j. destruct (decide (k' = k)) as [->|].
    + rewrite lookup_insert_eq. by intros [= <- <-].
    + rewrite lookup_insert_ne by done. apply pi_ok0.
  - intros u k' b. rewrite Hu. destruct (decide (k' = k)) as [->|].
    + rewrite lookup_insert_eq, Hnone. destruct (decide _) as [[Hd _]|Hd]; split.
      * intros [= <-]. by exists i. * by intros (j & [= <- <-] & _). * done.
      * intros (j & [= <- <-] & ?). tauto.
    + rewrite lookup_insert_ne by done. rewrite decide_False by tauto. apply pi_users0.
  - unfold owners_of. by rewrite fmap_insert.
Qed.

(** An intercept that goes. *)
Lemma prov_inv_delete now t t' A k a i :
  prov_inv now t A → A !! k = Some (a, i) → t.(pv_next) ≤ t'.(pv_next) →
  t'.(pv_ipintercepts) = filter (λ e, e.2 ≠ a) t.(pv_ipintercepts) →
  t'.(pv_cepts) = delete a t.(pv_cepts) → t'.(pv_stale) = [] →
  t'.(pv_userintercepts) = users_without k i t.(pv_userintercepts) →
  events_inv now (delete k (owners_of A)) t'.(pv_events) →
  prov_inv now t' (delete k A).
Proof.
  intros [] Hk Hn Et Ec Est Eu Hev.
  assert (Hfilter : filter (λ e, e.2 ≠ a) (pv_ipintercepts t) = hash_delete k (pv_ipintercepts t)).
  { unfold hash_delete. apply filter_agree. intros [k' b] Hin.
    apply In_hash_find in Hin; [|done]. rewrite pi_find0 in Hin. cbn.
    destruct (A !! k') as [[b' j]|] eqn:E; [|done]. injection Hin as ->. split.
    - intros Hb ->. rewrite Hk in E. by injection E as -> ->.
    - intros Hk' ->. by edestruct (pi_addr0 k k'). }
  assert (Hu : users_wf (pv_userintercepts t') ∧
    ∀ u k', user_cept (pv_userintercepts t') u k' =
      if decide (ip_username i = Some u ∧ k' = k) then None else user_cept (pv_userintercepts t) u k').
  { rewrite Eu. unfold users_without. destruct (ip_username i) as [v|].
    - destruct (users_remove_ok (pv_userintercepts t) v k pi_wf0) as [Hw Hv]. split; [done|].
      intros u k'. rewrite Hv. destruct (decide (u = v ∧ k' = k)) as [[-> ->]|Hd].
      + by rewrite decide_True. + rewrite decide_False; [done|]. intros [[= <-] ->]. tauto.
    - split; [done|]. intros u k'. rewrite decide_False; [done|]. by intros [? _]. }
  destruct Hu as [Hwf Hu]. split; try done.
  - rewrite Et, Hfilter. by apply hash_delete_ok.
  - intros k'. rewrite Et, Hfilter, hash_find_delete. destruct (decide (k' = k)) as [->|].
    + by rewrite lookup_delete_eq. + by rewrite lookup_delete_ne.
  - intros b j. rewrite Ec. destruct (decide (b = a)) as [->|Hb].
    + rewrite lookup_delete_eq. split; [done|]. intros [k' [Hne Hk']%lookup_delete_Some].
      by edestruct (pi_addr0 k k').
    + rewrite lookup_delete_ne, pi_heap0 by done. split; intros [k' Hk']; exists k'.
      * apply lookup_delete_Some. split; [|done]. intros <-. rewrite Hk in Hk'. by injection Hk' as -> ->.
      * by apply lookup_delete_Some in Hk' as [_ ?].
  - intros k1 k2 b j1 j2 [_ H1]%lookup_delete_Some [_ H2]%lookup_delete_Some. by eapply pi_addr0.
  - intros k' b j [_ Hj]%lookup_delete_Some. apply pi_fresh0 in Hj. lia.
  - intros k' b j [_ Hj]%lookup_delete_Some. by eapply pi_ok0.
  - intros u k' b. rewrite Hu. destruct (decide (k' = k)) as [->|].
    + rewrite lookup_delete_eq. destruct (decide _) as [|Hd]; (split; [|by intros (? & ? & _)]); [done|].
      intros (j & Hj & Hju)%pi_users0. rewrite Hk in Hj. injection Hj as <- <-. tauto.
    + rewrite lookup_delete_ne by done. rewrite decide_False by tauto. apply pi_users0.
  - unfold owners_of. by rewrite fmap_delete.
Qed.

(** ** Operations on one intercept *)

(** The message about an intercept. *)
Definition cept_msg (type : openli_export_type) (c : intercept_common_t) : openli_export_recv_t :=
  Mkopenli_export_recv_t type 0
    (Data_cept (Mkpublished_intercept_msg_t (until_nul <$> c.(ic_liid)) (until_nul <$> c.(ic_authcc))
       (until_nul <$> c.(ic_delivcc)) c.(ic_seqtrackerid) c.(ic_encrypt) (until_nul <$> c.(ic_encryptkey)))).
Definition over_msg (c : intercept_common_t) : openli_export_recv_t :=
  cept_msg OPENLI_EXPORT_INTERCEPT_OVER (set_ic_encrypt 0 (set_ic_encryptkey None c)).

Lemma details_msg_ok ty k i : cept_ok k i → create_intercept_details_msg ty i.(ip_common) = Ok (cept_msg ty i.(ip_common)).
Proof.
  intros ([l Hl] & [a Ha] & [d Hd])%cept_intercept_ok. unfold create_intercept_details_msg, cept_msg.
  by rewrite Hl, Ha, Hd.
Qed.
Lemma over_msg_ok k i : cept_ok k i → intercept_over_msg i.(ip_common) = Ok (over_msg i.(ip_common)).
Proof.
  intros ([l Hl] & [a Ha] & [d Hd])%cept_intercept_ok. unfold intercept_over_msg, over_msg, cept_msg.
  cbn. by rewrite Hl, Ha, Hd.
Qed.

Section handlers.
Context {G Pkt : Type} (p : access_plugin G Pkt).
Context (ascii2prefix : bytes → option prefix_t).
Abbreviation sync := (collector_sync_t G).
Implicit Types (s : sync).

Definition user_sessions (s : sync) (u : bytes) : list Z :=
  match find_user u s.(sy_allusers) with None => [] | Some u => u.(iu_sessions) end.

Lemma target_sessions_ok k a i s :
  cept_ok k i → a ∉ s.(sy_prov).(pv_stale) →
  target_sessions a i s = Ok (user_sessions s (user_of i), s).
Proof.
  intros Hi Ha. unfold target_sessions, target_key.
  rewrite (ST_bind_ok _ _ s (user_of i) s); [done|].
  rewrite (ST_bind_ok _ _ s (ip_username i) s) by by apply username_of_ok.
  by apply lift_ok, (user_key_ok k).
Qed.

(** A loop over the sessions of the target of an intercept. *)
Lemma quiet_sessions k i (f : access_session_t → ST sync unit) s :
  cept_ok k i → sessions_ready p s →
  (∀ sess s', is_Some i.(ip_username) → as_sessipcount sess ≤ zlen (as_sessionips sess) →
     (∀ now special t0, ∃ r, p.(ap_generate_iri_from_session) s'.(sy_store) now sess special t0 s'.(sy_plugin) = Ok r) →
     quiet (f sess) s') →
  quiet (for_each (user_sessions s (user_of i)) (λ sp, sess ← load_session sp; f sess)) s.
Proof.
  intros Hi Hr Hf. apply quiet_for_each. intros sp s' Hsp Haf.
  assert (Hu : is_Some (ip_username i) ∧ session_ready p s sp).
  { unfold user_sessions, find_user in Hsp. destruct (head _) as [u|] eqn:E; [|by apply not_elem_of_nil in Hsp].
    apply head_Some_elem_of, list_elem_of_filter in E as [Huid Hu].
    destruct (Hr u Hu) as [Hne Hready]. split; [|by apply Hready].
    unfold user_of in Huid. destruct (ip_username i); [done|]. by rewrite Huid in Hne. }
  destruct Hu as [Hu (sess & Hl & Hn & Hp)].
  eapply quiet_ok; [apply load_session_ok; rewrite (af_store _ _ _ _ Haf); exact Hl|].
  apply Hf; [done..|]. rewrite (af_plugin _ _ _ _ Haf), (af_store _ _ _ _ Haf). exact Hp.
Qed.

Lemma quiet_existing_sessions now k a i s :
  cept_ok k i → sessions_ready p s → s.(sy_prov).(pv_cepts) !! a = Some i →
  a ∉ s.(sy_prov).(pv_stale) → quiet (push_existing_user_sessions p now a) s.
Proof.
  intros Hi Hr Hl Ha. unfold push_existing_user_sessions.
  eapply quiet_ok; [by apply load_cept_ok|]. eapply quiet_ok; [by eapply target_sessions_ok|].
  eapply quiet_sessions; [done..|]. intros sess s' Hu Hn Hp.
  apply quiet_bind; [apply quiet_to_queues; intros; by eapply quiet_push_single|].
  intros ? s1 _ H1. apply quiet_bind; [|intros; apply quiet_ret].
  eapply quiet_session_iri; [done..|]. rewrite (af_plugin _ _ _ _ H1), (af_store _ _ _ _ H1). exact Hp.
Qed.

Lemma quiet_unless (b : bool) (m : ST sync unit) s :
  quiet m s → quiet (if b then m else mret tt) s.
Proof. intros Hm. destruct b; [done|apply quiet_ret]. Qed.

(** ** A new intercept *)

Lemma tracker_of_ok n k i : cept_ok k i → ∃ tr, tracker_of n i.(ip_common) = Ok tr.
Proof.
  intros Hi. unfold tracker_of. destruct (n <=? 1); [by eexists|]. rewrite (co_liid k i Hi).
  cbn [c_str mbind outcome_bind]. destruct (hash_liid_ok (until_nul k)) as [h ->]. by eexists.
Qed.

Lemma cept_ok_common k i c :
  cept_ok k i → c.(ic_liid) = i.(ip_common).(ic_liid) → c.(ic_liid_len) = i.(ip_common).(ic_liid_len) →
  cstr_ok c.(ic_authcc) c.(ic_authcc_len) → cstr_ok c.(ic_delivcc) c.(ic_delivcc_len) →
  match c.(ic_encryptkey) with Some v => until_nul v = v | None => True end →
  times_ok c → cept_ok k (set_ip_common c i).
Proof. intros [] El En Ha Hd He Ht. split; try done; cbn; by rewrite ?El, ?En. Qed.

(** The intercept as it is entered. *)
Definition entered (tr : Z) (i : ipintercept_t) : ipintercept_t :=
  set_ip_common (set_ic_seqtrackerid tr i.(ip_common)) i.
Lemma entered_ok tr k i : cept_ok k i → cept_ok k (entered tr i).
Proof. intros Hi. pose proof Hi as []. by apply cept_ok_common. Qed.

Lemma add_to_users_ok k a i s :
  cept_ok k i → s.(sy_prov).(pv_cepts) !! a = Some i → a ∉ s.(sy_prov).(pv_stale) →
  is_Some i.(ip_username) → user_cept s.(sy_prov).(pv_userintercepts) (user_of i) k = None →
  add_intercept_to_user_intercept_list a s =
  Ok (0, set_sy_prov (set_pv_userintercepts (users_add (user_of i) k a s.(sy_prov).(pv_userintercepts))
                        s.(sy_prov)) s).
Proof.
  intros Hi Hl Ha [u Hu] Hnone. unfold add_intercept_to_user_intercept_list.
  rewrite (ST_bind_ok _ _ _ _ _ (load_cept_ok a i s Hl)).
  rewrite (ST_bind_ok _ _ _ _ _ (username_of_ok a i s Ha)), Hu.
  rewrite (ST_bind_ok _ _ s (user_of i) s).
  2:{ unfold target_key. rewrite (ST_bind_ok _ _ _ _ _ (username_of_ok a i s Ha)).
      by apply lift_ok, (user_key_ok k). }
  rewrite (ST_bind_ok _ _ s k s) by by apply lift_ok, cept_key_ok.
  pose proof (co_user k i Hi) as Hcu. rewrite Hu in Hcu. destruct Hcu as [Hplain Hlen].
  assert (Huo : user_of i = u) by (unfold user_of; by rewrite Hu). rewrite Huo in *.
  unfold users_add. unfold user_cept in Hnone. run_st.
  destruct (hash_find u _) as [l|] eqn:E; cbn [default mbind option_bind] in Hnone |- *; unfold id in *.
  - rewrite E. cbn. by rewrite Hnone.
  - cbn [c_str]. rewrite (proj1 Hplain), Hlen, string_key_ok by done.
    by rewrite hash_find_add, decide_True by done.
Qed.

(** What is said about the set of intercepts when one is entered. *)
Definition entered_outputs (tr : Z) (i : ipintercept_t) : list sync_output :=
  [Out_cept_added; Out_publish tr (cept_msg OPENLI_EXPORT_INTERCEPT_DETAILS (ip_common (entered tr i)))].

(** The result of an operation: it returns, the rest of the thread's state is as it was,
    the tables stand for the map [A]. *)
Definition to_config {B} (now : Z) (m : ST sync B) (r : B) (s : sync) (A : config)
    (out : list sync_output) : Prop :=
  ∃ s', m s = Ok (r, s') ∧ after s s'.(sy_prov) out s' ∧ prov_inv now s'.(sy_prov) A.

(** The last part: the sessions of the target, and the list of the user. *)
Lemma insert_tell_ok now k a i A s s2 t2 out :
  prov_inv now s.(sy_prov) A → sessions_ready p s → A !! k = None → cept_ok k i →
  after s t2 out s2 → s.(sy_prov).(pv_next) ≤ a < s2.(sy_prov).(pv_next) →
  t2.(pv_ipintercepts) = hash_add k a s.(sy_prov).(pv_ipintercepts) →
  t2.(pv_cepts) = <[a := i]> s.(sy_prov).(pv_cepts) → t2.(pv_stale) = [] →
  t2.(pv_userintercepts) = s.(sy_prov).(pv_userintercepts) →
  events_inv now (<[k := (a, i.(ip_common))]> (owners_of A)) t2.(pv_events) →
  ∃ s', match i.(ip_username) with
        | None => mret 1
        | Some _ =>
            _ ← push_existing_user_sessions p now a;
            _ ← add_intercept_to_user_intercept_list a;
            mret 1
        end s2 = Ok (1, s') ∧ after s s'.(sy_prov) out s' ∧
    prov_inv now s'.(sy_prov) (<[k := (a, i)]> A).
Proof.
  intros Hinv Hr Hk Hi H2 Ha Et Ec Hst Eu Hev.
  destruct (after_fields _ _ _ _ H2) as (Ec2 & Est2 & Et2 & Eu2 & Ee2).
  destruct (ip_username i) as [u|] eqn:Hu.
  - assert (Hl2 : pv_cepts (sy_prov s2) !! a = Some i) by (rewrite Ec2, Ec; apply lookup_insert_eq).
    destruct (quiet_existing_sessions now k a i s2) as ([] & s3 & E3 & H3);
      [done|by eapply ready_after|done|by rewrite Est2, Hst; apply not_elem_of_nil|].
    rewrite (ST_bind_ok _ _ _ _ _ E3). destruct (after_fields _ _ _ _ H3) as (Ec3 & Est3 & Et3 & Eu3 & Ee3).
    pose proof (af_next _ _ _ _ H3) as Hn3.
    rewrite (ST_bind_ok _ _ _ _ _ (add_to_users_ok k a i s3 Hi ltac:(by rewrite Ec3)
      ltac:(by rewrite Est3, Est2, Hst; apply not_elem_of_nil) ltac:(by rewrite Hu)
      ltac:(rewrite Eu3, Eu2, Eu; by apply (no_user_cept now _ A)))).
    eexists. split; [reflexivity|]. split.
    + rewrite <- (app_nil_r out), <- (app_nil_r (out ++ [])).
      eapply after_trans; [exact (after_trans _ _ _ _ _ [] _ H2 H3)|]. by apply after_prov.
    + eapply (prov_inv_insert now (sy_prov s)); [done..|cbn_pv; lia| | | | |]; cbn_pv.
      * by rewrite Et3, Et2. * by rewrite Ec3, Ec2. * by rewrite Est3, Est2.
      * unfold users_with, user_of. by rewrite Hu, Eu3, Eu2, Eu.
      * by rewrite Ee3, Ee2.
  - exists s2. split; [done|]. split; [by eapply after_erase; [|exact H2]; rewrite (af_prov _ _ _ _ H2)|].
    eapply (prov_inv_insert now (sy_prov s)); [done..|lia| | | | |].
    + by rewrite Et2. + by rewrite Ec2. + by rewrite Est2.
    + unfold users_with. by rewrite Hu, Eu2.
    + by rewrite Ee2.
Qed.

Lemma insert_ok now k i A s :
  prov_inv now s.(sy_prov) A → sessions_ready p s → 0 < now → A !! k = None → cept_ok k i →
  ∃ tr, tracker_of s.(sy_conn).(pn_pubsockcount) i.(ip_common) = Ok tr ∧
    to_config now (insert_new_ipintercept p now i) 1 s
      (<[k := (s.(sy_prov).(pv_next), entered tr i)]> A) (entered_outputs tr i).
Proof.
  intros Hinv Hr Hnow Hk Hi. destruct (tracker_of_ok s.(sy_conn).(pn_pubsockcount) k i Hi) as [tr Htr].
  exists tr. split; [done|]. unfold to_config, insert_new_ipintercept. set (a := pv_next (sy_prov s)).
  destruct (quiet_alloc s) as (x & s0 & E0 & H0). rewrite (ST_bind_ok _ _ _ _ _ E0).
  assert (Ha : x = a ∧ a < pv_next (sy_prov s0)) by (injection E0 as <- <-; cbn; unfold a; lia).
  destruct Ha as [-> Ha]. clear E0.
  destruct (quiet_unless (negb (ip_vendmirrorid i =? OPENLI_VENDOR_MIRROR_NONE)) (announce_vendormirror_id i) s0)
    as ([] & s1 & E1 & H1); [by eapply quiet_announce_vendor|].
  rewrite (ST_bind_ok _ _ _ _ _ E1). clear E1.
  assert (H01 : after s s.(sy_prov) [] s1).
  { eapply after_erase; [apply (af_prov _ _ _ _ H0)|]. by eapply (after_trans _ _ []). }
  assert (Hn1 : a < pv_next (sy_prov s1)) by (pose proof (af_next _ _ _ _ H1); lia). clear H0 H1 Ha.
  rewrite (ST_bind_ok _ _ s1 s1.(sy_conn) s1) by done.
  rewrite (ST_bind_ok _ _ s1 tr s1) by (apply lift_ok; by rewrite (af_conn _ _ _ _ H01)).
  rewrite (ST_bind_ok _ _ s1 k s1) by by apply lift_ok, cept_key_ok.
  rewrite (ST_bind_ok _ _ s1 s1.(sy_prov) s1) by done.
  destruct (after_fields _ _ _ _ H01) as (Ec & Est & Et & Eu & Ee).
  pose proof (entered_ok tr k i Hi) as Hi'. set (i' := entered tr i) in *.
  destruct (add_new_ok now a (owners_of A) (pv_events (sy_prov s1)) k (ip_common i')) as (ev & Eev & Hev).
  { rewrite Ee. apply (pi_events _ _ _ Hinv). } { done. }
  { unfold owners_of. by rewrite lookup_fmap, Hk. } { by apply (liid_key_ok k). } { by apply (co_times k). }
  change (set_ic_seqtrackerid tr (ip_common i)) with (ip_common i').
  rewrite (ST_bind_ok _ _ s1 (ip_common i', ev) s1) by by apply lift_ok.
  change (set_ip_common (ip_common i') i) with i'.
  rewrite (ST_bind_ok _ _ _ _ _ (eq_refl : store_cept a i' s1 = Ok (tt, _))).
  set (t2 := set_pv_events ev (set_pv_ipintercepts (hash_add k a (pv_ipintercepts (sy_prov s)))
               (set_pv_cepts (<[a := i']> (pv_cepts (sy_prov s))) (sy_prov s1)))).
  rewrite (ST_bind_ok _ _ _ tt (set_sy_prov t2 s1)).
  2:{ unfold put_prov, modify. cbn_pv. unfold t2. by rewrite Et, Ec. }
  rewrite (ST_bind_ok _ _ _ _ _ (emit_ok _ _)).
  rewrite (ST_bind_ok _ _ _ _ _ (lift_ok _ _ _ (details_msg_ok OPENLI_EXPORT_INTERCEPT_DETAILS k i' Hi'))).
  rewrite (ST_bind_ok _ _ _ _ _ (emit_ok _ _)), with_out_app. cbn [app].
  set (s2 := with_out _ _). assert (H2 : after s t2 (entered_outputs tr i) s2).
  { apply (after_trans _ _ [] _ _ _ _ H01). apply (after_trans _ t2 [] (set_sy_prov t2 s1)).
    - by apply (after_prov (λ _, t2)).
    - exact (after_out (entered_outputs tr i) (set_sy_prov t2 s1)). }
  assert (Hn2 : pv_next (sy_prov s2) = pv_next (sy_prov s1)) by done.
  apply (insert_tell_ok now k a i' A s s2 t2); try done.
  unfold t2. cbn_pv. rewrite Est. apply (pi_stale _ _ _ Hinv).
Qed.

(** ** Static ranges *)

Lemma to_config_ret {B} now (r : B) s A : prov_inv now s.(sy_prov) A → to_config now (mret r) r s A [].
Proof. intros. exists s. split; [done|]. split; [apply after_refl|done]. Qed.
Lemma to_config_bind {B C} now (m : ST sync B) (f : B → ST sync C) r r' s A A' l l' :
  to_config now m r s A l → (∀ s', after s s'.(sy_prov) l s' → prov_inv now s'.(sy_prov) A → to_config now (f r) r' s' A' l') →
  to_config now (m ≫= f) r' s A' (l ++ l').
Proof.
  intros (s1 & E1 & H1 & Hi1) Hf. destruct (Hf s1 H1 Hi1) as (s2 & E2 & H2 & Hi2).
  exists s2. rewrite (ST_bind_ok _ _ _ _ _ E1). split; [done|]. split; [|done]. by eapply after_trans.
Qed.
Lemma to_config_seq {B C} now (m : ST sync B) (f : B → ST sync C) r r' s A A' :
  to_config now m r s A [] → (∀ s', after s s'.(sy_prov) [] s' → prov_inv now s'.(sy_prov) A → to_config now (f r) r' s' A' []) →
  to_config now (m ≫= f) r' s A' [].
Proof. apply (to_config_bind now m f r r' s A A' [] []). Qed.
Lemma to_config_quiet {B C} now (m : ST sync B) (f : B → ST sync C) r s A A' l :
  quiet m s → prov_inv now s.(sy_prov) A →
  (∀ b s', after s s.(sy_prov) [] s' → prov_inv now s'.(sy_prov) A → to_config now (f b) r s' A' l) →
  to_config now (m ≫= f) r s A' l.
Proof.
  intros (b & s1 & E1 & H1) Hi Hf. destruct (Hf b s1 H1) as (s2 & E2 & H2 & Hi2).
  { eapply prov_inv_erase; [symmetry; apply (af_prov _ _ _ _ H1)|apply (af_next _ _ _ _ H1)|done]. }
  exists s2. rewrite (ST_bind_ok _ _ _ _ _ E1). split; [done|]. split; [|done].
  change l with ([] ++ l). by eapply after_trans.
Qed.
Lemma to_config_ok {B C} now (m : ST sync B) (f : B → ST sync C) b r s A' l :
  m s = Ok (b, s) → to_config now (f b) r s A' l → to_config now (m ≫= f) r s A' l.
Proof. intros E (s' & Hs). exists s'. by rewrite (ST_bind_ok _ _ _ _ _ E). Qed.

(** A write to an intercept that keeps its name, its target and its times. *)
Lemma store_ok {C} now (f : unit → ST sync C) r k a i i' s A A' l :
  prov_inv now s.(sy_prov) A → A !! k = Some (a, i) → cept_ok k i' →
  i'.(ip_username) = i.(ip_username) → i'.(ip_common) = i.(ip_common) →
  (∀ s', after s s'.(sy_prov) [] s' → s'.(sy_prov).(pv_cepts) !! a = Some i' →
     prov_inv now s'.(sy_prov) (<[k := (a, i')]> A) → to_config now (f tt) r s' A' l) →
  to_config now (store_cept a i' ≫= f) r s A' l.
Proof.
  intros Hi Hk Hok Hu Hc Hf.
  destruct (Hf (set_sy_prov (set_pv_cepts (<[a := i']> (pv_cepts (sy_prov s))) (sy_prov s)) s)) as (s2 & E2 & H2 & Hi2).
  - by apply after_prov.
  - apply lookup_insert_eq.
  - eapply prov_inv_erase; [| |apply (prov_inv_update now (sy_prov s) A k a i i' (pv_events (sy_prov s)))]; try done.
    rewrite insert_id; [apply (pi_events _ _ _ Hi)|]. unfold owners_of. rewrite lookup_fmap, Hk. cbn. by rewrite Hc.
  - exists s2. split; [exact E2|]. split; [|done]. change l with ([] ++ l). eapply after_trans; [|exact H2].
    by apply after_prov.
Qed.

Lemma find_cept_ok now k s A : prov_inv now s.(sy_prov) A → find_cept k s = Ok (fst <$> (A !! k), s).
Proof. intros Hi. unfold find_cept. run_st. by rewrite (pi_find _ _ _ Hi). Qed.
Lemma inv_load now k a i s A :
  prov_inv now s.(sy_prov) A → A !! k = Some (a, i) →
  load_cept a s = Ok (i, s) ∧ (a ∉ s.(sy_prov).(pv_stale)) ∧ cept_ok k i ∧
    s.(sy_prov).(pv_cepts) !! a = Some i.
Proof.
  intros Hi Hk. assert (Hl : s.(sy_prov).(pv_cepts) !! a = Some i) by (apply (pi_heap _ _ _ Hi); by exists k).
  split; [by apply load_cept_ok|]. split; [|by split; [apply (pi_ok _ _ _ Hi _ _ _ Hk)|]].
  rewrite (pi_stale _ _ _ Hi). apply not_elem_of_nil.
Qed.

Lemma with_statics_ok k i l :
  cept_ok k i → Forall (range_ok k) l → NoDup (map range_key l) → cept_ok k (set_ip_statics l i).
Proof. intros []. by split. Qed.
Lemma NoDup_map_filter {A B} (f : A → B) (P : A → Prop) `{∀ x, Decision (P x)} (l : list A) :
  NoDup (map f l) → NoDup (map f (filter P l)).
Proof.
  induction l as [|x l IH]; [done|]. cbn [map]. intros [Hx Hl]%NoDup_cons. rewrite filter_cons.
  destruct (decide (P x)); [|by apply IH]. cbn [map]. apply NoDup_cons. split; [|by apply IH].
  intros (y & Hy & [_ Hin]%list_elem_of_filter)%list_elem_of_fmap. apply Hx. rewrite Hy.
  apply list_elem_of_fmap. by exists y.
Qed.

(** The intercept without some of its ranges. *)
Definition without_ranges (l : list (option bytes)) (i : ipintercept_t) : ipintercept_t :=
  set_ip_statics (filter (λ r, range_key r ∉ l) i.(ip_statics)) i.
Lemma without_ranges_ok k l i : cept_ok k i → cept_ok k (without_ranges l i).
Proof.
  intros Hi. pose proof Hi as []. apply with_statics_ok; [done|by apply Forall_filter|by apply NoDup_map_filter].
Qed.

Lemma set_statics_same i l : l = i.(ip_statics) → set_ip_statics l i = i.
Proof. intros ->. by destruct i. Qed.
Lemma find_static_key range i r : find_static range i = Some r → r ∈ i.(ip_statics) ∧ range_key r = Some range.
Proof. unfold find_static. intros E%head_Some_elem_of. by apply list_elem_of_filter in E as [? ?]. Qed.
Lemma find_static_None range i : find_static range i = None → without_ranges [Some range] i = i.
Proof.
  unfold find_static, without_ranges. intros E. destruct (filter _ _) eqn:Ef in E; [|done]. clear E.
  apply set_statics_same. induction (ip_statics i) as [|r l IH]; [done|].
  rewrite filter_cons in Ef. rewrite filter_cons. destruct (decide (until_nul <$> _ = _)) as [|Hd]; [done|].
  rewrite decide_True; [f_equal; by apply IH|]. by intros ?%list_elem_of_singleton.
Qed.
Lemma delete_static_eq range i : delete_static range i = without_ranges [Some range] i.
Proof.
  unfold delete_static, without_ranges. f_equal. apply filter_agree. intros r _. unfold range_key.
  by rewrite list_elem_of_singleton.
Qed.

(** A range that is withdrawn. *)
Lemma remove_range_ok now k a i r s A :
  prov_inv now s.(sy_prov) A → A !! k = Some (a, i) → range_ok k r →
  to_config now (remove_staticiprange ascii2prefix r) 1 s
    (<[k := (a, without_ranges [range_key r] i)]> A) [].
Proof.
  intros Hi Hk [Hl [rs Hrs]]. destruct (inv_load _ _ _ _ _ _ Hi Hk) as (Hload & Hst & Hok & Hc).
  destruct (co_plain k i Hok) as [Hnul _]. unfold remove_staticiprange. rewrite Hl, Hrs.
  eapply to_config_ok; [apply lift_ok; cbn; by rewrite Hnul|].
  eapply to_config_ok; [by apply (find_cept_ok now _ s A)|]. rewrite Hk. cbn [fmap option_fmap option_map fst].
  eapply to_config_ok; [exact Hload|]. eapply to_config_ok; [by apply lift_ok|].
  unfold range_key. rewrite Hrs. cbn [fmap option_fmap option_map].
  destruct (find_static (until_nul rs) i) as [found|] eqn:Ef.
  2:{ rewrite find_static_None, insert_id by done. by apply to_config_ret. }
  apply find_static_key in Ef as [Hin Hkey].
  eapply to_config_quiet; [|done|].
  { eapply quiet_iprange_iri; [done| |done]. unfold range_key in Hkey. by destruct (sr_rangestr found). }
  intros _ s1 _ Hi1. eapply to_config_quiet; [|done|].
  { apply quiet_to_queues. intros. by eapply quiet_push_iprange. }
  intros _ s2 _ Hi2. eapply to_config_quiet; [by apply quiet_emit|done|].
  intros _ s3 _ Hi3. rewrite delete_static_eq.
  eapply (store_ok now _ _ k a i); [done..|by apply without_ranges_ok|done|done|].
  intros s4 _ _ Hi4. by apply to_config_ret.
Qed.
Lemma remove_own_range_ok now k a i r s A :
  prov_inv now s.(sy_prov) A → A !! k = Some (a, i) → range_ok k r →
  to_config now (remove_own_range ascii2prefix r) tt s
    (<[k := (a, without_ranges [range_key r] i)]> A) [].
Proof.
  intros Hi Hk Hr. unfold remove_own_range. eapply to_config_seq; [by apply remove_range_ok|]. intros s' _ Hi'. cbn. by apply to_config_ret.
Qed.
Lemma without_ranges_app l l' i : without_ranges l' (without_ranges l i) = without_ranges (l ++ l') i.
Proof.
  unfold without_ranges. destruct i as [c u n at_ v rs aw o]. unfold set_ip_statics. cbn. f_equal.
  rewrite list_filter_filter. apply filter_agree. intros r _. rewrite elem_of_app. tauto.
Qed.
Lemma without_none i : without_ranges [] i = i.
Proof.
  apply set_statics_same. induction (ip_statics i) as [|r rs IH]; [done|].
  rewrite filter_cons_True by apply not_elem_of_nil. by f_equal.
Qed.
Lemma remove_ranges_ok now k a i l s A :
  prov_inv now s.(sy_prov) A → A !! k = Some (a, i) → Forall (range_ok k) l →
  to_config now (for_each l (remove_own_range ascii2prefix)) tt s
    (<[k := (a, without_ranges (map range_key l) i)]> A) [].
Proof.
  intros Hi Hk Hl. revert s A i Hi Hk. induction Hl as [|r l Hr _ IH]; intros s A i Hi Hk.
  - cbn [for_each map]. rewrite without_none, insert_id by done. by apply to_config_ret.
  - cbn [for_each map]. eapply to_config_seq; [by apply remove_own_range_ok|]. intros s' _ Hi'.
    replace (<[k := (a, without_ranges (range_key r :: map range_key l) i)]> A)
      with (<[k := (a, without_ranges (map range_key l) (without_ranges [range_key r] i))]>
              (<[k := (a, without_ranges [range_key r] i)]> A))
      by (rewrite insert_insert_eq; by rewrite without_ranges_app).
    apply IH; [done|apply lookup_insert_eq].
Qed.

(** ** An intercept that ends *)

Definition bare (i : ipintercept_t) : ipintercept_t := set_ip_statics [] i.
Lemma without_all i : without_ranges (map range_key i.(ip_statics)) i = bare i.
Proof.
  unfold without_ranges, bare. f_equal. destruct (filter _ _) as [|r l] eqn:E; [done|].
  assert (Hr : r ∈ filter (λ r, range_key r ∉ map range_key (ip_statics i)) (ip_statics i))
    by (rewrite E; apply list_elem_of_here).
  apply list_elem_of_filter in Hr as [Hn Hr]. destruct Hn. by apply list_elem_of_fmap_2.
Qed.
Lemma bare_ok k i : cept_ok k i → cept_ok k (bare i).
Proof. intros Hi. apply with_statics_ok; [done|constructor..]. Qed.

Lemma halt_threads_ok now k a i s A :
  prov_inv now s.(sy_prov) A → sessions_ready p s → A !! k = Some (a, i) →
  to_config now (push_ipintercept_halt_to_threads p ascii2prefix now a) tt s (<[k := (a, bare i)]> A) [].
Proof.
  intros Hi Hr Hk. destruct (inv_load _ _ _ _ _ _ Hi Hk) as (Hload & _ & Hok & _).
  unfold push_ipintercept_halt_to_threads. eapply to_config_ok; [exact Hload|].
  rewrite <- without_all.
  eapply to_config_seq; [by apply remove_ranges_ok, (co_ranges k i)|]. intros s1 H1 Hi1.
  rewrite without_all in Hi1 |- *.
  destruct (inv_load now k a (bare i) s1 _ Hi1) as (Hload1 & Hst1 & Hok1 & _); [apply lookup_insert_eq|].
  eapply to_config_ok; [exact Hload1|]. eapply to_config_ok; [by eapply target_sessions_ok|].
  eapply ready_after in Hr; [|exact H1].
  destruct (quiet_sessions k (bare i) (λ sess,
    _ ← create_iri_from_session p now sess (bare i) OPENLI_IPIRI_ENDWHILEACTIVE;
    push_session_update_to_threads sess (bare i)) s1) as ([] & s2 & E2 & H2); [done..| |].
  { intros sess s' Hu Hn Hp. apply quiet_bind; [by eapply quiet_session_iri|]. intros.
    by eapply quiet_session_push. }
  exists s2. split; [exact E2|]. split.
  - eapply after_erase; [|exact H2]. by rewrite (af_prov _ _ _ _ H2).
  - eapply prov_inv_erase; [symmetry; apply (af_prov _ _ _ _ H2)|apply (af_next _ _ _ _ H2)|done].
Qed.

Lemma remove_from_users_ok k a i s :
  cept_ok k i → s.(sy_prov).(pv_cepts) !! a = Some i → a ∉ s.(sy_prov).(pv_stale) →
  is_Some i.(ip_username) → is_Some (user_cept s.(sy_prov).(pv_userintercepts) (user_of i) k) →
  remove_intercept_from_user_intercept_list a s =
  Ok (0, set_sy_prov (set_pv_userintercepts (users_remove (user_of i) k s.(sy_prov).(pv_userintercepts))
                        s.(sy_prov)) s).
Proof.
  intros Hi Hl Ha [u Hu] [b Hb]. unfold remove_intercept_from_user_intercept_list.
  rewrite (ST_bind_ok _ _ _ _ _ (load_cept_ok a i s Hl)).
  rewrite (ST_bind_ok _ _ _ _ _ (username_of_ok a i s Ha)), Hu.
  rewrite (ST_bind_ok _ _ s (user_of i) s).
  2:{ unfold target_key. rewrite (ST_bind_ok _ _ _ _ _ (username_of_ok a i s Ha)).
      by apply lift_ok, (user_key_ok k). }
  unfold users_remove. unfold user_cept in Hb. run_st. destruct (hash_find (user_of i) _) as [l|]; [|done].
  rewrite (cept_key_ok k i Hi). cbn in Hb. by rewrite Hb.
Qed.

Definition ended_outputs (i : ipintercept_t) : list sync_output :=
  [Out_cept_ended; Out_publish i.(ip_common).(ic_seqtrackerid) (over_msg i.(ip_common))].

(** The list of the user. *)
Lemma leave_users_ok k a i s :
  cept_ok k i → s.(sy_prov).(pv_cepts) !! a = Some i → s.(sy_prov).(pv_stale) = [] →
  (∀ u, i.(ip_username) = Some u → is_Some (user_cept s.(sy_prov).(pv_userintercepts) u k)) →
  ∃ s', match i.(ip_username) with
        | None => mret tt
        | Some _ => _ ← remove_intercept_from_user_intercept_list a; mret tt
        end s = Ok (tt, s') ∧
    s' = set_sy_prov (set_pv_userintercepts (users_without k i s.(sy_prov).(pv_userintercepts)) s.(sy_prov)) s.
Proof.
  intros Hi Hl Hst Hu. eexists. split; [|reflexivity]. unfold users_without.
  destruct (ip_username i) as [u|] eqn:E.
  - rewrite (ST_bind_ok _ _ _ _ _ (remove_from_users_ok k a i s Hi Hl
      ltac:(by rewrite Hst; apply not_elem_of_nil) ltac:(by rewrite E) ltac:(unfold user_of; rewrite E; auto))).
    unfold user_of. by rewrite E.
  - by destruct s as [? ? ? ? [] ? ? ?].
Qed.

Lemma remove_intercept_ok now k a i s A :
  prov_inv now s.(sy_prov) A → sessions_ready p s → A !! k = Some (a, i) →
  to_config now (remove_ip_intercept p ascii2prefix now a) tt s (delete k A) (ended_outputs i).
Proof.
  intros Hi Hr Hk. unfold remove_ip_intercept. change (ended_outputs i) with ([] ++ ended_outputs (bare i)).
  eapply to_config_bind; [by apply (halt_threads_ok now k a i)|]. intros s1 H1 Hi1.
  rewrite <- (delete_insert_eq A k (a, bare i)). set (A1 := <[k := _]> A) in *.
  assert (Hk1 : A1 !! k = Some (a, bare i)) by apply lookup_insert_eq. clearbody A1. clear Hk Hi H1 Hr.
  destruct (inv_load _ _ _ _ _ _ Hi1 Hk1) as (Hload & Hst & Hok & Hc). set (b := bare i) in *. clearbody b.
  eapply to_config_ok; [exact Hload|].
  destruct (remove_ok_events now a (owners_of A1) (pv_events (sy_prov s1)) k (ip_common b)) as (ev & Eev & Hev).
  { apply (pi_events _ _ _ Hi1). } { unfold owners_of. by rewrite lookup_fmap, Hk1. } { by apply liid_key_ok. }
  unfold to_config.
  rewrite (ST_bind_ok _ _ _ _ _ (eq_refl : put_prov _ s1 = Ok (tt, _))). set (s2 := set_sy_prov _ s1).
  rewrite (ST_bind_ok _ _ _ _ _ (username_of_ok a b s2 Hst)).
  destruct (leave_users_ok k a b s2 Hok Hc) as (s3 & E3 & H3).
  { by rewrite <- (pi_stale _ _ _ Hi1). }
  { intros u Hu. exists a. apply (pi_users _ _ _ Hi1). by exists b. }
  rewrite (ST_bind_ok _ _ _ _ _ E3). clear E3.
  rewrite (ST_bind_ok _ _ s3 s3.(sy_prov) s3) by done.
  rewrite (ST_bind_ok _ _ s3 ev s3) by (apply lift_ok; by rewrite H3).
  rewrite (ST_bind_ok _ _ _ _ _ (eq_refl : put_prov _ s3 = Ok (tt, _))).
  rewrite (ST_bind_ok _ _ _ _ _ (lift_ok _ _ _ (over_msg_ok k b Hok))).
  rewrite (ST_bind_ok _ _ _ _ _ (emit_ok _ _)). set (s4 := with_out _ _).
  destruct (quiet_unless (negb (ip_vendmirrorid b =? OPENLI_VENDOR_MIRROR_NONE)) (remove_vendormirror_id b) s4)
    as ([] & s5 & E5 & H5); [by eapply quiet_remove_vendor|].
  rewrite (ST_bind_ok _ _ _ _ _ E5), (ST_bind_ok _ _ _ _ _ (emit_ok _ _)). clear E5.
  destruct (after_fields _ _ _ _ H5) as (Ec5 & Est5 & Et5 & Eu5 & Ee5). pose proof (af_next _ _ _ _ H5) as Hn5.
  eexists. split; [reflexivity|]. split.
  - subst s3. destruct H5. split; try done; [exact (same_lists_erase _ _ af_prov0)|]. cbn [with_out sy_out set_sy_prov] in *.
    unfold s4 in af_out0. cbn [with_out sy_out set_sy_prov] in af_out0.
    rewrite cept_outputs_app, af_out0, cept_outputs_app. by rewrite app_nil_r, <- app_assoc.
  - subst s3. unfold s4 in *. cbn_pv.
    eapply (prov_inv_delete now s1.(sy_prov) _ A1 k a b); cbn_pv; try done.
    all: cbn [with_out sy_prov]; rewrite ?Ec5, ?Est5, ?Ee5; try done. apply (pi_stale _ _ _ Hi1).
Qed.

(** ** An intercept that changes *)

(** What a message changes of an intercept that is known. *)
Definition merged (i m : ipintercept_t) : ipintercept_t :=
  set_ip_common (updated_common i.(ip_common) m.(ip_common)) (set_ip_vendmirrorid m.(ip_vendmirrorid) i).

Lemma updated_ok k i m : cept_ok k i → cept_ok k m → cept_ok k (set_ip_common (updated_common i.(ip_common) m.(ip_common)) i).
Proof. intros Hi []. by apply cept_ok_common. Qed.
Lemma set_mirror_ok k i v : cept_ok k i → cept_ok k (set_ip_vendmirrorid v i).
Proof. intros []. by split. Qed.

Lemma change_mirror_ok now k a i v s A :
  prov_inv now s.(sy_prov) A → A !! k = Some (a, i) →
  to_config now (change_mirror a v) tt s (<[k := (a, set_ip_vendmirrorid v i)]> A) [].
Proof.
  intros Hi Hk. destruct (inv_load _ _ _ _ _ _ Hi Hk) as (Hload & Hst & Hok & Hc).
  unfold change_mirror. eapply to_config_ok; [exact Hload|].
  destruct (Z.eqb_spec (ip_vendmirrorid i) v) as [<-|].
  { rewrite insert_id; [by apply to_config_ret|]. rewrite Hk. by destruct i. }
  eapply to_config_quiet; [apply quiet_unless; by eapply quiet_remove_vendor|done|]. intros _ s1 _ Hi1.
  eapply (store_ok now _ _ k a i); [done..|by apply set_mirror_ok|done|done|]. intros s2 _ _ Hi2.
  destruct (quiet_unless (negb (v =? OPENLI_VENDOR_MIRROR_NONE))
    (announce_vendormirror_id (set_ip_vendmirrorid v i)) s2) as ([] & s3 & E3 & H3).
  { eapply quiet_announce_vendor. by apply set_mirror_ok. }
  exists s3. split; [exact E3|]. split.
  - eapply after_erase; [|exact H3]. by rewrite (af_prov _ _ _ _ H3).
  - eapply prov_inv_erase; [symmetry; apply (af_prov _ _ _ _ H3)|apply (af_next _ _ _ _ H3)|done].
Qed.

(** Whether the encoders are told. *)
Definition same_encoding (c m : intercept_common_t) : Prop :=
  c.(ic_encrypt) = m.(ic_encrypt) ∧ c.(ic_encryptkey) = m.(ic_encryptkey) ∧
  c.(ic_delivcc) = m.(ic_delivcc) ∧ c.(ic_authcc) = m.(ic_authcc).
#[global] Instance same_encoding_dec c m : Decision (same_encoding c m).
Proof. unfold same_encoding. apply _. Defined.

Lemma strings_differ_ok x y :
  is_Some x → is_Some y → strings_differ x y = Ok (negb (bool_decide (until_nul <$> x = until_nul <$> y))).
Proof.
  intros [x' ->] [y' ->]. unfold strings_differ. cbn. do 2 f_equal. apply bool_decide_ext. split; congruence.
Qed.
Lemma encoding_changed_ok k i m :
  cept_ok k i → cept_ok k m →
  encoding_changed i.(ip_common) m.(ip_common) = Ok (negb (bool_decide (same_encoding i.(ip_common) m.(ip_common)))).
Proof.
  intros Hi Hm. unfold encoding_changed.
  pose proof (cstr_ok_eq _ _ _ _ (co_authcc k i Hi) (co_authcc k m Hm)) as Ha.
  pose proof (cstr_ok_eq _ _ _ _ (co_delivcc k i Hi) (co_delivcc k m Hm)) as Hd.
  destruct (cept_intercept_ok k i Hi) as (_ & Sa & Sd), (cept_intercept_ok k m Hm) as (_ & Sa' & Sd').
  pose proof (co_encryptkey k i Hi) as Hk. pose proof (co_encryptkey k m Hm) as Hk'.
  set (c := ip_common i) in *. set (c' := ip_common m) in *. rewrite !strings_differ_ok by done.
  destruct (Z.eqb_spec (ic_encrypt c) (ic_encrypt c')) as [He|He]; cbn [negb].
  2:{ rewrite bool_decide_eq_false_2; [done|]. by intros [? _]. }
  assert (Hkey : match ic_encryptkey c, ic_encryptkey c' with
                 | Some _, Some _ => strings_differ (ic_encryptkey c) (ic_encryptkey c')
                 | None, None => Ok false | _, _ => Ok true end =
                 Ok (negb (bool_decide (ic_encryptkey c = ic_encryptkey c')))).
  { destruct (ic_encryptkey c), (ic_encryptkey c'); try done. rewrite strings_differ_ok by done.
    do 2 f_equal. apply bool_decide_ext. cbn. by rewrite Hk, Hk'. }
  rewrite Hkey. run_outcome. unfold same_encoding.
  assert (Ed : until_nul <$> ic_delivcc c = until_nul <$> ic_delivcc c' ↔ ic_delivcc c = ic_delivcc c')
    by (split; [apply Hd|by intros ->]).
  assert (Ea : until_nul <$> ic_authcc c = until_nul <$> ic_authcc c' ↔ ic_authcc c = ic_authcc c')
    by (split; [apply Ha|by intros ->]).
  rewrite (bool_decide_ext _ _ Ed), (bool_decide_ext _ _ Ea).
  repeat case_bool_decide; cbn; try done; tauto.
Qed.

Lemma quiet_update_range k a i r iri s :
  s.(sy_prov).(pv_cepts) !! a = Some i → a ∉ s.(sy_prov).(pv_stale) → cept_ok k i → range_ok k r →
  quiet (update_staticiprange ascii2prefix a r iri) s.
Proof.
  intros Hc Hs Hi [_ [rs Hrs]]. unfold update_staticiprange.
  eapply quiet_ok; [by apply load_cept_ok|]. rewrite Hrs.
  eapply quiet_ok; [by apply lift_ok|]. destruct (find_static _ _) as [found|] eqn:Ef; [|apply quiet_ret].
  apply find_static_key in Ef as [_ Hkey]. assert (Hfr : is_Some (sr_rangestr found)).
  { unfold range_key in Hkey. by destruct (sr_rangestr found). }
  apply quiet_bind.
  { destruct iri; [|apply quiet_ret]. apply quiet_bind; [by eapply quiet_iprange_iri|]. intros. apply quiet_ret. }
  intros. apply quiet_to_queues. intros.
  destruct (create_staticipsession_ok k i (sr_rangestr found) (sr_cin found) Hi Hfr) as [x Hx].
  eapply quiet_ok; [by apply lift_ok|]. by apply quiet_emit.
Qed.

(** The threads are told about the change. *)
Lemma push_update_ok now k a i m s :
  s.(sy_prov).(pv_cepts) !! a = Some i → s.(sy_prov).(pv_stale) = [] → sessions_ready p s →
  cept_ok k i → cept_ok k m →
  ∃ s', push_ipintercept_update_to_threads p ascii2prefix now a m s = Ok (tt, s') ∧
    after s (set_pv_cepts (<[a := set_ip_common (updated_common i.(ip_common) m.(ip_common)) i]>
                             s.(sy_prov).(pv_cepts)) s.(sy_prov)) [] s'.
Proof.
  intros Hl Hst Hr Hi Hm. pose proof (updated_ok k i m Hi Hm) as Hi'.
  unfold push_ipintercept_update_to_threads.
  rewrite (ST_bind_ok _ _ _ _ _ (load_cept_ok a i s Hl)). set (iri := times_iri now _ _). clearbody iri.
  set (i' := set_ip_common _ i) in *. clearbody i'.
  rewrite (ST_bind_ok _ _ _ _ _ (eq_refl : store_cept a i' s = Ok (tt, _))). set (s1 := set_sy_prov _ s).
  assert (H1 : after s s1.(sy_prov) [] s1) by by apply after_prov.
  match goal with |- ∃ s', ?m s1 = _ ∧ _ => assert (Hq : quiet m s1) end.
  2:{ destruct Hq as ([] & s2 & E2 & H2). exists s2. split; [exact E2|].
      apply (after_trans _ _ [] _ _ [] _ H1 H2). }
  assert (Hkeep : ∀ s', after s1 s1.(sy_prov) [] s' →
    s'.(sy_prov).(pv_cepts) !! a = Some i' ∧ (a ∉ s'.(sy_prov).(pv_stale)) ∧ sessions_ready p s').
  { intros s' H'. destruct (after_fields _ _ _ _ H') as (-> & -> & _). split; [apply lookup_insert_eq|].
    split; [unfold s1; cbn_pv; rewrite Hst; apply not_elem_of_nil|]. eapply ready_after; [|exact H']. by eapply ready_after. }
  apply quiet_bind.
  { apply quiet_for_each. intros r s' Hin H'. destruct (Hkeep s' H') as (Hc & Hs & _).
    eapply quiet_update_range; [done..|]. by eapply (proj1 (Forall_forall _ _) (co_ranges k i' Hi')). }
  intros _ s2 _ H2. apply quiet_bind.
  { apply quiet_unless, quiet_to_queues. intros. by eapply quiet_push_mirror. }
  intros _ s3 _ H3. assert (H13 : after s1 s1.(sy_prov) [] s3).
  { eapply after_erase; [apply (af_prov _ _ _ _ H2)|]. apply (after_trans _ _ [] _ _ [] _ H2 H3). }
  destruct (Hkeep s3 H13) as (_ & Hs3 & Hr3). eapply quiet_ok; [by eapply target_sessions_ok|].
  eapply quiet_sessions; [done..|]. intros sess s' Hu Hn Hp. apply quiet_bind; [|intros; by eapply quiet_session_push].
  destruct iri; [|apply quiet_ret]. apply quiet_bind; [by eapply quiet_session_iri|]. intros. apply quiet_ret.
Qed.

(** The time events of an intercept are those of its times. *)
Lemma events_inv_times (now : Z) (k : bytes) (a : Z) (c c' : intercept_common_t) (o : owners) (ev : time_events) :
  events_inv now (<[k := (a, c)]> o) ev → (∀ ty, event_time ty c' = event_time ty c) → times_ok c' →
  events_inv now (<[k := (a, c')]> o) ev.
Proof.
  intros Hi Ht Hok. apply (events_inv_owner now (<[k := (a, c)]> o) _ ev _ k); try done.
  - apply (ei_tables _ _ _ Hi).
  - intros k' Hne. by rewrite !lookup_insert_ne.
  - intros ac. rewrite lookup_insert_eq. by intros [= <-].
  - intros t e He. destruct (ei_sound _ _ _ Hi t k e He) as (Hpos & d & Hd & ->). split; [done|].
    rewrite lookup_insert_eq in Hd |- *. injection Hd as -> <-. exists c'. by rewrite Ht.
  - intros ty b d. rewrite lookup_insert_eq. intros [= <- <-]. rewrite Ht.
    apply (ei_complete _ _ _ Hi ty k a c), lookup_insert_eq.
Qed.

Definition changed_outputs (i m : ipintercept_t) : list sync_output :=
  if decide (same_encoding i.(ip_common) m.(ip_common)) then []
  else [Out_publish i.(ip_common).(ic_seqtrackerid) (cept_msg OPENLI_EXPORT_INTERCEPT_CHANGED m.(ip_common))].

(** The events, if the times change. *)
Lemma change_times_ok now k a i m s A :
  prov_inv now s.(sy_prov) A → 0 < now → A !! k = Some (a, i) → cept_ok k m →
  let c := i.(ip_common) in let d := m.(ip_common) in
  ∃ ev, (if negb (c.(ic_tostart_time) =? d.(ic_tostart_time)) || negb (c.(ic_toend_time) =? d.(ic_toend_time))
         then t ← get_prov;
              '(m, ev) ← lift (update_intercept_time_event now a c d t.(pv_events));
              _ ← put_prov (set_pv_events ev); mret m
         else mret d) s = Ok (d, set_sy_prov (set_pv_events ev s.(sy_prov)) s) ∧
    events_inv now (<[k := (a, d)]> (owners_of A)) ev.
Proof.
  intros Hi Hn Hk Hm c d. pose proof (pi_ok _ _ _ Hi _ _ _ Hk) as Hok.
  assert (Ho : owners_of A !! k = Some (a, c)) by (unfold owners_of; by rewrite lookup_fmap, Hk).
  destruct (_ || _) eqn:E.
  - destruct (update_ok_events now a (owners_of A) (pv_events (sy_prov s)) k c d) as (ev & Eev & Hev).
    { apply (pi_events _ _ _ Hi). } { done. } { done. } { by apply liid_key_ok. } { by apply liid_key_ok. }
    { by apply (co_times k). }
    exists ev. split; [|done]. run_st. by rewrite Eev.
  - exists (pv_events (sy_prov s)). split; [by destruct s as [? ? ? ? [] ? ? ?]|].
    apply orb_false_elim in E as [E1%negb_false_iff%Z.eqb_eq E2%negb_false_iff%Z.eqb_eq].
    apply (events_inv_times now k a c); [|by intros []|by apply (co_times k)].
    rewrite insert_id by done. apply (pi_events _ _ _ Hi).
Qed.

(** A change that is none. *)
Lemma merged_same k i m :
  cept_ok k i → cept_ok k m → i.(ip_vendmirrorid) = m.(ip_vendmirrorid) →
  same_encoding i.(ip_common) m.(ip_common) →
  i.(ip_common).(ic_tostart_time) = m.(ip_common).(ic_tostart_time) →
  i.(ip_common).(ic_toend_time) = m.(ip_common).(ic_toend_time) →
  i.(ip_common).(ic_tomediate) = m.(ip_common).(ic_tomediate) →
  set_ip_common (updated_common i.(ip_common) m.(ip_common)) i = i.
Proof.
  intros Hi Hm Ev (Ee & Ek & Ed & Ea) Es Et Eo.
  pose proof (co_authcc k i Hi) as Ca. pose proof (co_delivcc k i Hi) as Cd.
  pose proof (co_authcc k m Hm) as Ca'. pose proof (co_delivcc k m Hm) as Cd'.
  destruct (cstr_ok_eq _ _ _ _ Ca Ca') as [_ La]; [by rewrite Ea|].
  destruct (cstr_ok_eq _ _ _ _ Cd Cd') as [_ Ld]; [by rewrite Ed|].
  unfold updated_common. rewrite <- Ee, <- Ek, <- Ed, <- Ea, <- Es, <- Et, <- Eo, <- La, <- Ld.
  by destruct i as [[] ? ? ? ? ? ? ?].
Qed.

Lemma update_ok now k a i m s A :
  prov_inv now s.(sy_prov) A → sessions_ready p s → 0 < now → A !! k = Some (a, i) → cept_ok k m →
  is_Some i.(ip_username) → m.(ip_username) = i.(ip_username) →
  to_config now (update_modified_intercept p ascii2prefix now a m) 0 s (<[k := (a, merged i m)]> A)
    (changed_outputs i m).
Proof.
  intros Hi Hr Hn Hk Hm [u Hu] Hmu. destruct (inv_load _ _ _ _ _ _ Hi Hk) as (Hload & Hst & Hok & Hc).
  unfold update_modified_intercept. eapply to_config_ok; [exact Hload|].
  eapply to_config_ok; [by apply username_of_ok|]. rewrite Hmu, Hu.
  eapply to_config_ok; [apply lift_ok, strings_differ_ok; done|]. rewrite bool_decide_eq_true_2 by done. cbn [negb].
  eapply to_config_ok; [done|]. change (changed_outputs i m) with ([] ++ changed_outputs i m).
  eapply to_config_bind; [by apply (change_mirror_ok now k a i)|]. intros s1 H1 Hi1.
  assert (Hr1 : sessions_ready p s1) by by eapply ready_after.
  set (i1 := set_ip_vendmirrorid (ip_vendmirrorid m) i) in *.
  set (A1 := <[k := (a, i1)]> A) in *. assert (Hk1 : A1 !! k = Some (a, i1)) by apply lookup_insert_eq.
  replace (<[k := (a, merged i m)]> A) with (<[k := (a, set_ip_common (updated_common (ip_common i1) (ip_common m)) i1)]> A1)
    by (unfold A1; by rewrite insert_insert_eq).
  change (changed_outputs i m) with (changed_outputs i1 m).
  assert (Hv : ip_vendmirrorid i1 = ip_vendmirrorid m) by done.
  clearbody A1 i1. clear Hi Hk Hok Hr H1 Hload Hst Hc. destruct (inv_load _ _ _ _ _ _ Hi1 Hk1) as (Hload & Hst & Hok & Hc).
  eapply to_config_ok; [exact Hload|]. cbv zeta.
  destruct (change_times_ok now k a i1 m s1 A1 Hi1 Hn Hk1 Hm) as (ev & Etimes & Hev). cbv zeta in Etimes.
  set (times := negb _ || negb _) in *. unfold to_config. rewrite (ST_bind_ok _ _ _ _ _ Etimes).
  rewrite (ST_bind_ok _ _ _ _ _ (lift_ok _ _ _ (encoding_changed_ok k i1 m Hok Hm))).
  set (s2 := set_sy_prov _ s1). set (enc := negb (bool_decide _)).
  rewrite (ST_bind_ok _ _ _ tt (with_out (changed_outputs i1 m) s2)).
  2:{ unfold enc, changed_outputs. case_bool_decide as Hd; cbn [negb].
      - by rewrite decide_True, with_out_nil.
      - rewrite decide_False by done. by rewrite (ST_bind_ok _ _ _ _ _ (lift_ok _ _ _ (details_msg_ok _ k m Hm))). }
  set (s3 := with_out _ s2). assert (H3 : after s1 s3.(sy_prov) (changed_outputs i1 m) s3).
  { rewrite <- (app_nil_l (changed_outputs i1 m)). eapply after_trans; [by apply (after_prov (set_pv_events ev))|].
    assert (Eo : cept_outputs (changed_outputs i1 m) = changed_outputs i1 m)
      by (unfold changed_outputs; by destruct (decide _)).
    rewrite <- Eo at 1. exact (after_out (changed_outputs i1 m) s2). }
  replace (set_ip_common (ip_common m) m) with m by by destruct m.
  set (i' := set_ip_common _ i1).
  assert (Hpush : ∃ s4, (if times || negb (ic_tomediate (ip_common i1) =? ic_tomediate (ip_common m)) || enc
    then push_ipintercept_update_to_threads p ascii2prefix now a m else mret tt) s3 = Ok (tt, s4) ∧
    after s3 (set_pv_cepts (<[a := i']> (pv_cepts (sy_prov s3))) (sy_prov s3)) [] s4).
  { destruct (times || _ || _) eqn:E.
    - apply (push_update_ok now k); try done. apply (pi_stale _ _ _ Hi1).
    - apply orb_false_elim in E as [[Et Eo]%orb_false_elim Ee]. unfold times in Et.
      apply orb_false_elim in Et as [Ea%negb_false_iff%Z.eqb_eq Eb%negb_false_iff%Z.eqb_eq].
      apply negb_false_iff, Z.eqb_eq in Eo. apply negb_false_iff, bool_decide_eq_true in Ee.
      exists s3. split; [done|]. unfold i'. rewrite (merged_same k i1 m), insert_id by done.
      eapply after_erase; [|apply after_refl]. by destruct (sy_prov s3). }
  destruct Hpush as (s4 & E4 & H4). rewrite (ST_bind_ok _ _ _ _ _ E4).
  exists s4. split; [done|]. split.
  - rewrite <- (app_nil_r (changed_outputs i1 m)). eapply after_trans; [exact H3|].
    eapply after_erase; [|exact H4]. by rewrite (af_prov _ _ _ _ H4).
  - eapply prov_inv_erase; [symmetry; apply (af_prov _ _ _ _ H4)|apply (af_next _ _ _ _ H4)|].
    apply (prov_inv_update now s1.(sy_prov) A1 k a i1 i' ev); try done; [by apply updated_ok|].
    apply (events_inv_times now k a (ip_common m)); [done|by intros []|by apply (co_times k), updated_ok].
Qed.
End handlers.
