(* ===== verification/SyncConfig.v ===== *)
(** * The configuration that the provisioner describes

    What the synchronisation thread promises the provisioner: a map from LIIDs to
    intercepts, with their static ranges, and the tables of core servers and of default
    RADIUS user names, changed by every message as [spec_step] says.  The thread
    implements it ([inputs_refine]), also over a lost connection, and the sequence trackers
    are told about exactly the intercepts of the map. *)

From stdpp Require Import gmap.
From S2P Require Import Prelude Protocol Intercept NetBuffer NetPush NetDecode Publish AccessSession Radius RadiusSession Ipiri JenkinsHash HashTable IpSession TimedIntercept CoreServer ThreadTables PacketProps SyncSessions SyncProps SyncIntercepts SyncProvisioner SyncProvProps.

(** ** The specification *)

Record prov_spec : Type := Mkprov_spec {
  sp_cepts : gmap bytes ipintercept_t;
  sp_servers : gmap bytes coreserver_t;
  sp_radius : gmap bytes default_radius_user_t;
}.

Inductive prov_op : Type :=
  | P_start (k : bytes) (i : ipintercept_t)
  | P_modify (k : bytes) (i : ipintercept_t)
  | P_halt (k : bytes)
  | P_add_range (k : bytes) (r : static_ipranges_t)
  | P_modify_range (k : bytes) (r : static_ipranges_t)
  | P_remove_range (k : bytes) (r : static_ipranges_t)
  | P_server (key : bytes) (cs : coreserver_t)
  | P_no_server (key : bytes)
  | P_radius (name : bytes) (d : default_radius_user_t)
  | P_no_radius (name : bytes)
  | P_disconnect
  | P_nomore.

Definition range_name (r : static_ipranges_t) : bytes := until_nul (default [] r.(sr_rangestr)).
Definition tracker (n : Z) (i : ipintercept_t) : Z :=
  match tracker_of n i.(ip_common) with Ok tr => tr | _ => 0 end.

Definition confirm_range (r : static_ipranges_t) (i : ipintercept_t) : ipintercept_t :=
  match find_static (range_name r) i with
  | Some _ => update_static (range_name r) (set_sr_awaitingconfirm 0) i
  | None => set_ip_statics (i.(ip_statics) ++ [r]) i
  end.
(** Confirmation by an announcement. *)
Definition confirmed (m i : ipintercept_t) : ipintercept_t :=
  set_ip_awaitingconfirm 0 (set_ip_accesstype m.(ip_accesstype) i).
(** What is left after the announcements are complete. *)
Definition settle (i : ipintercept_t) : option ipintercept_t :=
  if i.(ip_awaitingconfirm) =? 0
  then Some (set_ip_statics (filter (λ r, r.(sr_awaitingconfirm) = 0) i.(ip_statics)) i) else None.

(** The new map of intercepts, and what the handler of the message returns; [n] is the
    number of sequence trackers. *)
Definition spec_cepts (n : Z) (C : gmap bytes ipintercept_t) (op : prov_op)
    : gmap bytes ipintercept_t * Z :=
  let on k f := match C !! k with Some i => (<[k := f i]> C, 1) | None => (C, -1) end in
  match op with
  | P_start k m => match C !! k with
                   | Some i => (<[k := merged (confirmed m i) m]> C, 0)
                   | None => (<[k := entered (tracker n m) m]> C, 1)
                   end
  | P_modify k m => match C !! k with
                    | Some i => (<[k := merged i m]> C, 0)
                    | None => (<[k := entered (tracker n m) m]> C, 1)
                    end
  | P_halt k => match C !! k with Some _ => (delete k C, 1) | None => (C, -1) end
  | P_add_range k r => on k (confirm_range r)
  | P_modify_range k r => on k (update_static (range_name r) (set_sr_cin r.(sr_cin)))
  | P_remove_range k r => on k (delete_static (range_name r))
  | P_disconnect => (touch_intercept <$> C, 0)
  | P_nomore => (omap settle C, 1)
  | _ => (C, 1)
  end.

Definition spec_servers (S : gmap bytes coreserver_t) (op : prov_op) : gmap bytes coreserver_t :=
  match op with
  | P_server k cs => match S !! k with
                     | Some found => <[k := set_cs_awaitingconfirm 0 found]> S
                     | None => <[k := cs]> S
                     end
  | P_no_server k => delete k S
  | P_disconnect => set_cs_awaitingconfirm 1 <$> S
  | P_nomore => filter (λ e, e.2.(cs_awaitingconfirm) = 0) S
  | _ => S
  end.
Definition spec_radius (R : gmap bytes default_radius_user_t) (op : prov_op)
    : gmap bytes default_radius_user_t :=
  match op with
  | P_radius k d => match R !! k with
                    | Some found => <[k := set_dr_awaitingconfirm 0 found]> R
                    | None => <[k := d]> R
                    end
  | P_no_radius k => delete k R
  | P_disconnect => set_dr_awaitingconfirm 1 <$> R
  | P_nomore => filter (λ e, e.2.(dr_awaitingconfirm) = 0) R
  | _ => R
  end.

Definition spec_step (n : Z) (S : prov_spec) (op : prov_op) : prov_spec :=
  Mkprov_spec (spec_cepts n S.(sp_cepts) op).1 (spec_servers S.(sp_servers) op) (spec_radius S.(sp_radius) op).
(** What the handler returns. *)
Definition spec_return (n : Z) (S : prov_spec) (op : prov_op) : Z :=
  match op with
  | P_radius k _ => if decide (is_Some (S.(sp_radius) !! k)) then 0 else 1
  | _ => (spec_cepts n S.(sp_cepts) op).2
  end.

(** ** Ranges *)

Section ranges.
Context {G Pkt : Type} (p : access_plugin G Pkt).
Context (ascii2prefix : bytes → option prefix_t).
Abbreviation sync := (collector_sync_t G).
Implicit Types (s : sync).

Lemma range_name_key k r : range_ok k r → range_key r = Some (range_name r).
Proof. intros [_ [rs E]]. unfold range_key, range_name. by rewrite E. Qed.

(** Ranges that are changed, but not their names. *)
Lemma update_static_ok k range f i :
  cept_ok k i → (∀ r, (f r).(sr_liid) = r.(sr_liid) ∧ (f r).(sr_rangestr) = r.(sr_rangestr)) →
  cept_ok k (update_static range f i).
Proof.
  intros Hi Hf. apply with_statics_ok; [done| |].
  - apply Forall_map. eapply Forall_impl; [exact (co_ranges k i Hi)|]. intros r [Hl Hr].
    cbn. destruct (decide _); [|done]. destruct (Hf r) as [El Er]. by split; rewrite ?El, ?Er.
  - rewrite map_map.
    assert (E : map (λ r, range_key (if decide (until_nul <$> sr_rangestr r = Some range) then f r else r)) (ip_statics i) =
                map range_key (ip_statics i)).
    { apply map_ext. intros r. destruct (decide _); [|done]. unfold range_key. by rewrite (proj2 (Hf r)). }
    rewrite E. apply (co_distinct k i Hi).
Qed.
Lemma confirm_range_ok k r i : cept_ok k i → range_ok k r → cept_ok k (confirm_range r i).
Proof.
  intros Hi Hr. unfold confirm_range. destruct (find_static _ _) eqn:E; [by apply update_static_ok|].
  apply with_statics_ok; [done| |].
  - apply Forall_app. split; [apply (co_ranges k i Hi)|by constructor].
  - rewrite map_app. apply NoDup_app. split; [apply (co_distinct k i Hi)|]. split; [|apply NoDup_singleton].
    intros x (r' & -> & Hin)%list_elem_of_fmap Hx%list_elem_of_singleton.
    apply find_static_None in E. assert (Hin' : r' ∈ (without_ranges [Some (range_name r)] i).(ip_statics)) by by rewrite E.
    apply list_elem_of_filter in Hin' as [Hn _]. destruct Hn. rewrite Hx, (range_name_key k r Hr).
    apply list_elem_of_here.
Qed.

(** The intercept of a range. *)
Lemma range_cept now k r s A (f : Z → ST sync Z) ret A' l :
  prov_inv now s.(sy_prov) A → plain k → range_ok k r →
  (match A !! k with None => ret = -1 ∧ A' = A ∧ l = [] | Some (a, _) => to_config now (f a) ret s A' l end) →
  to_config now (liid ← lift (c_str r.(sr_liid)); x ← find_cept liid;
                 match x with None => mret (-1) | Some a => f a end) ret s A' l.
Proof.
  intros Hi [Hnul _] [Hl _] Hf. rewrite Hl. eapply to_config_ok; [apply lift_ok; cbn; by rewrite Hnul|].
  eapply to_config_ok; [by apply (find_cept_ok now _ s A)|]. destruct (A !! k) as [[a i]|]; [exact Hf|].
  destruct Hf as (-> & -> & ->). by apply to_config_ret.
Qed.

Lemma new_range_ok now k a i r s A :
  prov_inv now s.(sy_prov) A → A !! k = Some (a, i) → range_ok k r →
  to_config now (new_staticiprange ascii2prefix now r) 1 s (<[k := (a, confirm_range r i)]> A) [].
Proof.
  intros Hi Hk Hr. destruct (inv_load _ _ _ _ _ _ Hi Hk) as (Hload & Hst & Hok & _).
  unfold new_staticiprange. eapply (range_cept now k r s A); [done|by apply (co_plain k i)|done|]. rewrite Hk.
  eapply to_config_ok; [exact Hload|]. pose proof (confirm_range_ok k r i Hok Hr) as Hok'.
  pose proof Hr as [_ [rs Hrs]]. unfold confirm_range, range_name in *. rewrite Hrs in Hok' |- *. cbn [default] in *. unfold id in *.
  eapply to_config_ok; [by apply lift_ok|]. destruct (find_static _ _) as [found|] eqn:Ef.
  - eapply (store_ok now _ _ k a i); [done..|]. intros. by apply to_config_ret.
  - eapply to_config_quiet; [by apply quiet_emit|done|]. intros _ s1 H1 Hi1.
    eapply (store_ok now _ _ k a i); [done..|]. intros s2 H2 _ Hi2.
    eapply to_config_quiet; [|done|].
    { apply quiet_unless, quiet_bind; [|intros; apply quiet_ret]. eapply quiet_iprange_iri; [done|by rewrite Hrs|].
      rewrite (pi_stale _ _ _ Hi2). apply not_elem_of_nil. }
    intros _ s3 _ Hi3. eapply to_config_quiet; [|done|].
    { apply quiet_to_queues. intros. by eapply quiet_push_iprange. }
    intros. by apply to_config_ret.
Qed.

Lemma find_static_absent range f i : find_static range i = None → update_static range f i = i.
Proof.
  unfold find_static, update_static. intros E. destruct (filter _ _) eqn:Ef in E; [|done].
  apply set_statics_same. induction (ip_statics i) as [|r l IH]; [done|]. rewrite filter_cons in Ef. cbn.
  destruct (decide _); [done|]. f_equal. by apply IH.
Qed.

Lemma modify_range_ok now k a i r s A :
  prov_inv now s.(sy_prov) A → A !! k = Some (a, i) → range_ok k r →
  to_config now (modify_staticiprange r) 1 s
    (<[k := (a, update_static (range_name r) (set_sr_cin r.(sr_cin)) i)]> A) [].
Proof.
  intros Hi Hk Hr. destruct (inv_load _ _ _ _ _ _ Hi Hk) as (Hload & Hst & Hok & _).
  unfold modify_staticiprange. eapply (range_cept now k r s A); [done|by apply (co_plain k i)|done|]. rewrite Hk.
  eapply to_config_ok; [exact Hload|]. pose proof Hr as [_ [rs Hrs]].
  unfold range_name. rewrite Hrs. cbn [default]. unfold id.
  eapply to_config_ok; [by apply lift_ok|]. destruct (find_static _ _) as [found|] eqn:Ef.
  - eapply (store_ok now _ _ k a i); [done..|by apply update_static_ok|done|done|]. intros s1 _ _ Hi1.
    eapply to_config_quiet; [|done|].
    { apply quiet_to_queues. intros. by eapply quiet_push_iprange. }
    intros. by apply to_config_ret.
  - rewrite find_static_absent, insert_id by done. by apply to_config_ret.
Qed.
End ranges.

(** ** After the announcements *)

Lemma for_each_cond {S A} (b : A → bool) (f : A → ST S unit) l s :
  for_each l (λ x, if b x then f x else mret tt) s = for_each (filter (λ x, b x = true) l) f s.
Proof.
  revert s. induction l as [|x l IH]; intros s; [done|]. rewrite filter_cons. cbn [for_each].
  destruct (b x) eqn:E; [rewrite decide_True by done|rewrite decide_False by done].
  - cbn [for_each]. unfold mbind, ST_bind. destruct (f x s) as [[] | |]; [|done..]. apply IH.
  - unfold mbind, ST_bind, mret, ST_ret. apply IH.
Qed.

Definition unconfirmed (r : static_ipranges_t) : bool := negb (r.(sr_awaitingconfirm) =? 0).
Lemma without_unconfirmed k i :
  cept_ok k i → i.(ip_awaitingconfirm) = 0 →
  Some (without_ranges (map range_key (filter (λ r, unconfirmed r = true) i.(ip_statics))) i) = settle i.
Proof.
  intros Hi Ha. unfold settle, without_ranges. rewrite Ha. cbn. do 2 f_equal. apply filter_agree.
  intros r Hr. unfold unconfirmed. split.
  - intros Hn. destruct (Z.eqb_spec (sr_awaitingconfirm r) 0) as [|Hne]; [done|]. destruct Hn.
    apply list_elem_of_fmap_2, list_elem_of_filter. split; [|done]. by apply negb_true_iff, Z.eqb_neq.
  - intros Hz (r' & Hkey & [Hu Hr']%list_elem_of_filter)%list_elem_of_fmap.
    assert (r = r') as <-; [|by rewrite Hz in Hu].
    pose proof (co_distinct k i Hi) as Hd. clear Hz Hu. revert Hr Hr' Hd.
    induction (ip_statics i) as [|x l IH]; [by intros ?%not_elem_of_nil|]. cbn [map].
    intros [->|Hr]%elem_of_cons [->|Hr']%elem_of_cons [Hx Hd]%NoDup_cons; [done|..|by apply IH].
    + destruct Hx. rewrite Hkey. by apply list_elem_of_fmap_2.
    + destruct Hx. rewrite <- Hkey. by apply list_elem_of_fmap_2.
Qed.

Definition settle_entry (ai : Z * ipintercept_t) : option (Z * ipintercept_t) := pair ai.1 <$> settle ai.2.
Definition settle_output (A : config) (k : bytes) : list sync_output :=
  match A !! k with
  | Some (_, i) => if i.(ip_awaitingconfirm) =? 0 then [] else ended_outputs i
  | None => []
  end.
Definition settle_keys (l : list bytes) (A : config) : config :=
  foldr (λ k A, partial_alter (λ o, o ≫= settle_entry) k A) A l.

Lemma settle_keys_lookup l A k :
  NoDup l → settle_keys l A !! k = if decide (k ∈ l) then A !! k ≫= settle_entry else A !! k.
Proof.
  unfold settle_keys. induction l as [|x l IH]; intros Hd; [done|]. apply NoDup_cons in Hd as [Hx Hd]. cbn.
  destruct (decide (k = x)) as [->|Hne].
  - rewrite lookup_partial_alter_eq, IH, decide_False by done. rewrite decide_True; [done|apply list_elem_of_here].
  - rewrite lookup_partial_alter_ne, IH by done. destruct (decide (k ∈ l)).
    + rewrite decide_True; [done|]. by apply list_elem_of_further.
    + rewrite decide_False; [done|]. by intros [|]%elem_of_cons.
Qed.

Section settling.
Context {G Pkt : Type} (p : access_plugin G Pkt).
Context (ascii2prefix : bytes → option prefix_t).
Abbreviation sync := (collector_sync_t G).
Implicit Types (s : sync).

Lemma disable_one_ok now k a i s A :
  prov_inv now s.(sy_prov) A → sessions_ready p s → A !! k = Some (a, i) →
  to_config now (disable_unconfirmed_intercept p ascii2prefix now a) tt s
    (partial_alter (λ o, o ≫= settle_entry) k A) (settle_output A k).
Proof.
  intros Hi Hr Hk. destruct (inv_load _ _ _ _ _ _ Hi Hk) as (Hload & _ & Hok & _).
  unfold disable_unconfirmed_intercept, settle_output. rewrite Hk. eapply to_config_ok; [exact Hload|].
  destruct (Z.eqb_spec (ip_awaitingconfirm i) 0) as [Ha|Ha]; cbn [negb].
  - assert (Hs : settle i = Some (without_ranges (map range_key (filter (λ r, unconfirmed r = true) (ip_statics i))) i))
      by (symmetry; by apply (without_unconfirmed k)).
    destruct (remove_ranges_ok ascii2prefix now k a i (filter (λ r, unconfirmed r = true) (ip_statics i)) s A Hi Hk)
      as (s' & E' & H' & Hi'); [apply Forall_filter, (co_ranges k i Hok)|].
    exists s'. split; [by rewrite <- E', <- for_each_cond|]. split; [done|].
    replace (partial_alter _ k A) with (<[k := (a, without_ranges (map range_key (filter (λ r, unconfirmed r = true) (ip_statics i))) i)]> A); [done|].
    apply map_eq. intros k'. destruct (decide (k' = k)) as [->|].
    + rewrite lookup_insert_eq, lookup_partial_alter_eq, Hk. cbn. unfold settle_entry. cbn [snd fst]. by rewrite Hs.
    + by rewrite lookup_insert_ne, lookup_partial_alter_ne.
  - replace (partial_alter _ k A) with (delete k A); [by apply remove_intercept_ok|].
    apply map_eq. intros k'. destruct (decide (k' = k)) as [->|].
    + rewrite lookup_delete_eq, lookup_partial_alter_eq, Hk. cbn. unfold settle_entry, settle. cbn [snd fst].
      by rewrite (proj2 (Z.eqb_neq _ _) Ha).
    + by rewrite lookup_delete_ne, lookup_partial_alter_ne.
Qed.

Lemma settle_keys_alter l k A :
  k ∉ l → settle_keys l (partial_alter (λ o, o ≫= settle_entry) k A) =
          partial_alter (λ o, o ≫= settle_entry) k (settle_keys l A).
Proof.
  intros Hk. unfold settle_keys. induction l as [|x l IH]; [done|]. apply not_elem_of_cons in Hk as [Hx Hl]. cbn.
  rewrite IH by done. by apply partial_alter_partial_alter_ne.
Qed.
Lemma settle_output_alter l k A :
  k ∉ l → l ≫= settle_output (partial_alter (λ o, o ≫= settle_entry) k A) = l ≫= settle_output A.
Proof.
  induction l as [|x l IH]; [done|]. intros [Hx Hl]%not_elem_of_cons. cbn. rewrite <- IH by done. f_equal.
  unfold settle_output. by rewrite lookup_partial_alter_ne.
Qed.

Lemma disable_all_ok now l s A :
  prov_inv now s.(sy_prov) A → sessions_ready p s → NoDup l.*1 →
  (∀ k a, (k, a) ∈ l → ∃ i, A !! k = Some (a, i)) →
  to_config now (for_each l (λ e, disable_unconfirmed_intercept p ascii2prefix now e.2)) tt s
    (settle_keys l.*1 A) (l.*1 ≫= settle_output A).
Proof.
  revert s A. induction l as [|[k a] l IH]; intros s A Hi Hr Hd Hl; [by apply to_config_ret|].
  cbn [fmap list_fmap fst] in Hd. apply NoDup_cons in Hd as [Hk Hd].
  destruct (Hl k a) as [i Hki]; [apply list_elem_of_here|].
  cbn [for_each fmap list_fmap fst snd]. change ((k :: l.*1) ≫= settle_output A) with (settle_output A k ++ (l.*1 ≫= settle_output A)).
  eapply to_config_bind; [by eapply disable_one_ok|]. intros s1 H1 Hi1.
  change (settle_keys (k :: l.*1) A) with (partial_alter (λ o, o ≫= settle_entry) k (settle_keys l.*1 A)).
  rewrite <- settle_keys_alter, <- (settle_output_alter l.*1 k A) by done. apply IH; [done|by eapply ready_after|done|].
  intros k' a' Hin. destruct (Hl k' a') as [i' Hi']; [by apply list_elem_of_further|]. exists i'.
  rewrite lookup_partial_alter_ne; [done|]. intros ->. destruct Hk. by apply (list_elem_of_fmap_2 fst) in Hin.
Qed.

(** ** A lost connection *)

Lemma touch_ok k i : cept_ok k i → cept_ok k (touch_intercept i).
Proof.
  intros Hi. apply (with_statics_ok k (set_ip_awaitingconfirm 1 i)); [by destruct Hi|..].
  - apply Forall_fmap. by eapply Forall_impl; [exact (co_ranges k i Hi)|].
  - rewrite map_map. exact (co_distinct k i Hi).
Qed.

Definition touch_keys (l : list bytes) (A : config) : config :=
  foldr (λ k A, alter (prod_map id touch_intercept) k A) A l.
Lemma touch_keys_lookup l A k :
  NoDup l → touch_keys l A !! k = if decide (k ∈ l) then prod_map id touch_intercept <$> A !! k else A !! k.
Proof.
  unfold touch_keys. induction l as [|x l IH]; intros Hd; [done|]. apply NoDup_cons in Hd as [Hx Hd]. cbn.
  destruct (decide (k = x)) as [->|Hne].
  - rewrite lookup_alter_eq, IH, decide_False by done. rewrite decide_True; [done|apply list_elem_of_here].
  - rewrite lookup_alter_ne, IH by done. destruct (decide (k ∈ l)).
    + rewrite decide_True; [done|]. by apply list_elem_of_further.
    + rewrite decide_False; [done|]. by intros [|]%elem_of_cons.
Qed.
Lemma touch_keys_alter l k A :
  k ∉ l → touch_keys l (alter (prod_map id touch_intercept) k A) =
          alter (prod_map id touch_intercept) k (touch_keys l A).
Proof.
  intros Hk. unfold touch_keys. induction l as [|x l IH]; [done|]. apply not_elem_of_cons in Hk as [Hx Hl]. cbn.
  rewrite IH by done. by apply alter_alter_ne.
Qed.

Lemma touch_all_ok now l s A :
  prov_inv now s.(sy_prov) A → NoDup l.*1 → (∀ k a, (k, a) ∈ l → ∃ i, A !! k = Some (a, i)) →
  to_config now (for_each l (λ e, i ← load_cept e.2; store_cept e.2 (touch_intercept i))) tt s (touch_keys l.*1 A) [].
Proof.
  revert s A. induction l as [|[k a] l IH]; intros s A Hi Hd Hl; [by apply to_config_ret|].
  cbn [fmap list_fmap fst] in Hd. apply NoDup_cons in Hd as [Hk Hd].
  destruct (Hl k a) as [i Hki]; [apply list_elem_of_here|].
  destruct (inv_load _ _ _ _ _ _ Hi Hki) as (Hload & _ & Hok & _). cbn [for_each fmap list_fmap fst snd].
  eapply (to_config_seq now _ _ tt tt s (alter (prod_map id touch_intercept) k A)).
  - eapply to_config_ok; [exact Hload|].
    replace (alter _ k A) with (<[k := (a, touch_intercept i)]> A).
    2:{ apply map_eq. intros k'. destruct (decide (k' = k)) as [->|]; [by rewrite lookup_insert_eq, lookup_alter_eq, Hki|].
        by rewrite lookup_insert_ne, lookup_alter_ne. }
    destruct (store_ok now (λ _, mret tt) tt k a i (touch_intercept i) s A (<[k := (a, touch_intercept i)]> A) [])
      as (s' & E & H); try done; [by apply touch_ok|intros; by apply to_config_ret|]. exists s'. split; [|done].
    revert E. unfold mbind, ST_bind. by destruct (store_cept _ _ _) as [[[] ?]| |].
  - intros s1 _ Hi1.
    change (touch_keys (k :: l.*1) A) with (alter (prod_map id touch_intercept) k (touch_keys l.*1 A)).
    rewrite <- touch_keys_alter by done. apply IH; [done..|].
    intros k' a' Hin. destruct (Hl k' a') as [i' Hi']; [by apply list_elem_of_further|]. exists i'.
    rewrite lookup_alter_ne; [done|]. intros ->. destruct Hk. by apply (list_elem_of_fmap_2 fst) in Hin.
Qed.

(** The entries of the table are those of the map. *)
Lemma table_entries now t A k a : prov_inv now t A → (k, a) ∈ t.(pv_ipintercepts) → ∃ i, A !! k = Some (a, i).
Proof.
  intros Hi Hin. apply In_hash_find in Hin; [|apply (pi_table _ _ _ Hi)]. rewrite (pi_find _ _ _ Hi) in Hin.
  destruct (A !! k) as [[b i]|]; [|done]. injection Hin as ->. by exists i.
Qed.
Lemma table_keys now t A k : prov_inv now t A → k ∈ t.(pv_ipintercepts).*1 ↔ is_Some (A !! k).
Proof.
  intros Hi. split.
  - intros Hin. destruct (hash_find k (pv_ipintercepts t)) as [a|] eqn:E; [|by apply hash_find_None in E].
    rewrite (pi_find _ _ _ Hi) in E. by destruct (A !! k).
  - intros [[a i] Hk]. apply dec_stable. intros Hn%hash_find_None. by rewrite (pi_find _ _ _ Hi), Hk in Hn.
Qed.
Lemma settle_all now t A : prov_inv now t A → settle_keys t.(pv_ipintercepts).*1 A = omap settle_entry A.
Proof.
  intros Hi. apply map_eq. intros k. rewrite settle_keys_lookup by apply (pi_table _ _ _ Hi).
  rewrite lookup_omap. destruct (decide _) as [|Hn]; [done|]. rewrite (table_keys _ _ _ _ Hi) in Hn.
  by destruct (A !! k) as [x|]; [destruct Hn; exists x|].
Qed.
Lemma touch_all now t A : prov_inv now t A → touch_keys t.(pv_ipintercepts).*1 A = prod_map id touch_intercept <$> A.
Proof.
  intros Hi. apply map_eq. intros k. rewrite touch_keys_lookup by apply (pi_table _ _ _ Hi).
  rewrite lookup_fmap. destruct (decide _) as [|Hn]; [done|]. rewrite (table_keys _ _ _ _ Hi) in Hn.
  by destruct (A !! k) as [x|]; [destruct Hn; exists x|].
Qed.
End settling.

(** ** What the sequence trackers are told *)

(** The intercepts that a tracker knows after some messages. *)
Definition known_step (tr : Z) (X : gset bytes) (o : sync_output) : gset bytes :=
  match o with
  | Out_publish tr' (Mkopenli_export_recv_t ty _ (Data_cept c)) =>
      if decide (tr' = tr) then
        match ty with
        | OPENLI_EXPORT_INTERCEPT_DETAILS => {[default [] c.(pc_liid)]} ∪ X
        | OPENLI_EXPORT_INTERCEPT_OVER => X ∖ {[default [] c.(pc_liid)]}
        | _ => X
        end
      else X
  | _ => X
  end.
Definition known (tr : Z) (out : list sync_output) : gset bytes := foldl (known_step tr) ∅ out.

Lemma known_quiet tr X out : foldl (known_step tr) X (cept_outputs out) = foldl (known_step tr) X out.
Proof.
  revert X. induction out as [|o out IH]; intros X; [done|]. unfold cept_outputs. rewrite filter_cons. cbn [foldl].
  destruct (decide (about_cepts o = true)) as [_|Ho]; [apply IH|]. rewrite <- IH.
  replace (known_step tr X o) with X; [done|]. by destruct o.
Qed.

Definition trackers_ok (out : list sync_output) (A : config) : Prop :=
  ∀ tr k, k ∈ known tr out ↔ ∃ a i, A !! k = Some (a, i) ∧ i.(ip_common).(ic_seqtrackerid) = tr.

Lemma known_details tr tr' k i X :
  cept_ok k i → known_step tr X (Out_publish tr' (cept_msg OPENLI_EXPORT_INTERCEPT_DETAILS i.(ip_common))) =
    if decide (tr' = tr) then {[k]} ∪ X else X.
Proof. intros Hi. cbn. rewrite (co_liid k i Hi). cbn. by rewrite (proj1 (co_plain k i Hi)). Qed.
Lemma known_over tr tr' k i X :
  cept_ok k i → known_step tr X (Out_publish tr' (over_msg i.(ip_common))) = if decide (tr' = tr) then X ∖ {[k]} else X.
Proof. intros Hi. cbn. rewrite (co_liid k i Hi). cbn. by rewrite (proj1 (co_plain k i Hi)). Qed.

(** How outputs [l] about intercepts follow from those before. *)
Definition tells (A A' : config) (l : list sync_output) : Prop :=
  ∀ out, trackers_ok out A → trackers_ok (out ++ l) A'.

Lemma tells_same A A' :
  (∀ k a' i', A' !! k = Some (a', i') → ∃ a i, A !! k = Some (a, i) ∧ i.(ip_common).(ic_seqtrackerid) = i'.(ip_common).(ic_seqtrackerid)) →
  (∀ k a i, A !! k = Some (a, i) → ∃ a' i', A' !! k = Some (a', i') ∧ i.(ip_common).(ic_seqtrackerid) = i'.(ip_common).(ic_seqtrackerid)) →
  tells A A' [].
Proof.
  intros H1 H2 out Hout tr k. rewrite app_nil_r, (Hout tr k). split.
  - intros (a & i & Hk & Ht). destruct (H2 k a i Hk) as (a' & i' & Hk' & Ht'). exists a', i'. split; congruence.
  - intros (a & i & Hk & Ht). destruct (H1 k a i Hk) as (a' & i' & Hk' & Ht'). exists a', i'. split; congruence.
Qed.
Lemma tells_update A k a i a' i' :
  A !! k = Some (a, i) → i'.(ip_common).(ic_seqtrackerid) = i.(ip_common).(ic_seqtrackerid) →
  tells A (<[k := (a', i')]> A) [].
Proof.
  intros Hk Hs. apply tells_same; intros k' b j.
  - destruct (decide (k' = k)) as [->|]; [rewrite lookup_insert_eq; intros [= <- <-]; by exists a, i|].
    rewrite lookup_insert_ne by done. eauto.
  - intros Hk'. destruct (decide (k' = k)) as [->|]; [|exists b, j; by rewrite lookup_insert_ne].
    rewrite Hk in Hk'. injection Hk' as <- <-. exists a', i'. by rewrite lookup_insert_eq.
Qed.
Lemma tells_changed A k a i i' m :
  A !! k = Some (a, i) → i'.(ip_common).(ic_seqtrackerid) = i.(ip_common).(ic_seqtrackerid) →
  tells A (<[k := (a, i')]> A) (changed_outputs i m).
Proof.
  intros Hk Hs. pose proof (tells_update A k a i a i' Hk Hs) as Ht. unfold changed_outputs.
  destruct (decide _); [done|]. intros out Hout tr k'. rewrite <- (Ht out Hout tr k'), app_nil_r.
  unfold known. rewrite foldl_app. cbn. by destruct (decide _).
Qed.
Lemma tells_entered A k a i tr :
  A !! k = None → cept_ok k i → tells A (<[k := (a, entered tr i)]> A) (entered_outputs tr i).
Proof.
  intros Hk Hi out Hout tr' k'. unfold known. rewrite foldl_app. unfold entered_outputs. cbn [foldl].
  rewrite (known_details tr' tr k) by by apply entered_ok. specialize (Hout tr' k'). unfold known in Hout. cbn [known_step].
  destruct (decide (k' = k)) as [->|Hne].
  - rewrite lookup_insert_eq. split.
    + destruct (decide (tr = tr')) as [->|]; [eauto|]. rewrite Hout, Hk. by intros (? & ? & ? & _).
    + intros (b & j & [= <- <-] & Ht). cbn in Ht. rewrite decide_True by done. set_solver.
  - rewrite lookup_insert_ne by done. rewrite <- Hout. destruct (decide _); set_solver.
Qed.
Lemma tells_ended A k a i :
  A !! k = Some (a, i) → cept_ok k i → tells A (delete k A) (ended_outputs i).
Proof.
  intros Hk Hi out Hout tr k'. unfold known. rewrite foldl_app. unfold ended_outputs. cbn [foldl].
  rewrite (known_over tr _ k) by done. specialize (Hout tr k'). unfold known in Hout. cbn [known_step].
  destruct (decide (k' = k)) as [->|Hne].
  - rewrite lookup_delete_eq. split; [|by intros (? & ? & ? & _)].
    destruct (decide _) as [|Htr]; [set_solver|]. rewrite Hout, Hk. by intros (b & j & [= <- <-] & ?).
  - rewrite lookup_delete_ne by done. rewrite <- Hout. destruct (decide _); set_solver.
Qed.
Lemma tells_trans A A' A'' l l' : tells A A' l → tells A' A'' l' → tells A A'' (l ++ l').
Proof. intros H1 H2 out Hout. rewrite app_assoc. by apply H2, H1. Qed.

Lemma tells_settle (l : list bytes) (A : config) :
  NoDup l → (∀ k a i, A !! k = Some (a, i) → cept_ok k i) → tells A (settle_keys l A) (l ≫= settle_output A).
Proof.
  intros Hd Hok. revert A Hok. induction l as [|k l IH]; intros A Hok.
  { intros out Hout. by rewrite app_nil_r. }
  apply NoDup_cons in Hd as [Hk Hd]. cbn [mbind list_bind].
  change (settle_keys (k :: l) A) with (partial_alter (λ o, o ≫= settle_entry) k (settle_keys l A)).
  rewrite <- settle_keys_alter, <- (settle_output_alter l k A) by done.
  assert (Hone : tells A (partial_alter (λ o, o ≫= settle_entry) k A) (settle_output A k)).
  { unfold settle_output. destruct (A !! k) as [[a i]|] eqn:E.
    - destruct (Z.eqb_spec (ip_awaitingconfirm i) 0) as [Hz|Hz].
      + replace (partial_alter _ k A) with (<[k := (a, set_ip_statics (filter (λ r, sr_awaitingconfirm r = 0) (ip_statics i)) i)]> A);
          [by eapply tells_update|].
        apply map_eq. intros k'. destruct (decide (k' = k)) as [->|]; [|by rewrite lookup_insert_ne, lookup_partial_alter_ne].
        rewrite lookup_insert_eq, lookup_partial_alter_eq, E. cbn. unfold settle_entry, settle. cbn [fst snd]. by rewrite Hz.
      + replace (partial_alter _ k A) with (delete k A); [by eapply tells_ended; [|by eapply Hok]|].
        apply map_eq. intros k'. destruct (decide (k' = k)) as [->|]; [|by rewrite lookup_delete_ne, lookup_partial_alter_ne].
        rewrite lookup_delete_eq, lookup_partial_alter_eq, E. cbn. unfold settle_entry, settle. cbn [fst snd].
        by rewrite (proj2 (Z.eqb_neq _ _) Hz).
    - rewrite (partial_alter_id _ A k); [intros out Hout; by rewrite app_nil_r|]. by rewrite E. }
  eapply tells_trans; [exact Hone|]. apply IH; [done|]. intros k' a i.
  destruct (decide (k' = k)) as [->|]; [|rewrite lookup_partial_alter_ne by done; apply Hok].
  rewrite lookup_partial_alter_eq. destruct (A !! k) as [[b j]|] eqn:E; [|done]. cbn. unfold settle_entry. cbn [fst snd].
  destruct (settle j) as [j'|] eqn:Es; [|done]. intros [= <- <-].
  unfold settle in Es. destruct (_ =? _); [|done]. injection Es as <-.
  apply (with_statics_ok k j); [by eapply Hok|apply Forall_filter, (co_ranges k j); by eapply Hok|].
  apply NoDup_map_filter, (co_distinct k j). by eapply Hok.
Qed.

(** ** Core servers and default RADIUS user names *)

Definition server_ok (k : bytes) (cs : coreserver_t) : Prop :=
  until_nul k = k ∧ cs.(cs_serverkey) = Some k ∧ is_Some cs.(cs_ipstr).

Section lists.
Context {V : Type}.
Implicit Types (l : list (bytes * V)).

(** A table that is written, shrunk or extended, as a map. *)
Lemma table_confirm l k v v' :
  table_ok l → hash_find k l = Some v' → table_ok (hash_update k v l) ∧ table_map (hash_update k v l) = <[k := v]> (table_map l).
Proof. intros Hl Hk. split; [by apply hash_update_ok|by eapply hash_update_map]. Qed.
Lemma table_filter (P : V → Prop) `{∀ v, Decision (P v)} l :
  table_ok l → table_ok (filter (λ e, P e.2) l) ∧
    table_map (filter (λ e, P e.2) l) = filter (λ e, P e.2) (table_map l).
Proof.
  intros Hl. split.
  - apply (NoDup_map_filter fst). exact Hl.
  - apply map_eq. intros k. rewrite map_lookup_filter, <- !hash_find_map.
    destruct (hash_find k (filter (λ e, P e.2) l)) as [v|] eqn:E.
    + apply hash_find_In, list_elem_of_filter in E as [HP Hin]. rewrite (In_hash_find k v l Hl Hin). cbn.
      by rewrite option_guard_True.
    + destruct (hash_find k l) as [v|] eqn:El; [|done]. cbn. rewrite option_guard_False; [done|]. intros HP.
      apply hash_find_None in E. destruct E. apply hash_find_In in El.
      apply list_elem_of_fmap. exists (k, v). split; [done|]. by apply list_elem_of_filter.
Qed.
Lemma table_fmap (f : V → V) l :
  table_ok l → table_ok (prod_map id f <$> l) ∧ table_map (prod_map id f <$> l) = f <$> table_map l.
Proof.
  intros Hl. unfold table_ok, table_map. split.
  - rewrite <- list_fmap_compose. exact Hl.
  - apply (list_to_map_fmap f l).
Qed.
End lists.

Section servers.
Context {G Pkt : Type}.
Abbreviation sync := (collector_sync_t G).
Implicit Types (s : sync) (l : list (bytes * coreserver_t)).

Lemma deep_copy_ok k cs : server_ok k cs → ∃ x, deep_copy_coreserver cs = Ok x.
Proof. intros (_ & Hk & [ip Hip]). unfold deep_copy_coreserver. rewrite Hk, Hip. by eexists. Qed.
Lemma quiet_push_server msgtype k cs s : server_ok k cs → quiet (push_coreserver_msg msgtype cs) s.
Proof.
  intros [x Hx]%deep_copy_ok. apply quiet_to_queues. intros.
  eapply quiet_ok; [by apply lift_ok|]. by apply quiet_emit.
Qed.

(** The state with another table of servers. *)
Definition with_servers l s : sync := set_sy_prov (set_pv_coreservers l s.(sy_prov)) s.
Lemma after_servers l s s' :
  after s s.(sy_prov) [] s' → after (with_servers l s) (with_servers l s).(sy_prov) [] (with_servers l s').
Proof.
  intros [E1 E2 E3 E4 E5 E6 Ep _ En Eo]. split; try done. unfold erase, set_pv_next in Ep. injection Ep as P1 P2 P3 P4 _ P6 P7.
  unfold with_servers, erase, set_pv_next, set_pv_coreservers. cbn. by rewrite P1, P2, P3, P4, P6, P7.
Qed.

Definition stale_server (e : bytes * coreserver_t) : bool := negb (e.2.(cs_awaitingconfirm) =? 0).
Definition drop_servers (dead l : list (bytes * coreserver_t)) : list (bytes * coreserver_t) :=
  filter (λ e, e.1 ∉ (filter (λ e, stale_server e = true) dead).*1) l.

Lemma drop_servers_nil l : drop_servers [] l = l.
Proof.
  unfold drop_servers. induction l as [|x l IH]; [done|]. rewrite filter_cons_True by apply not_elem_of_nil. by f_equal.
Qed.
Lemma drop_servers_cons k cs dead l :
  stale_server (k, cs) = true → drop_servers ((k, cs) :: dead) l = drop_servers dead (hash_delete k l).
Proof.
  intros E. unfold drop_servers, hash_delete. rewrite filter_cons_True by done. rewrite list_filter_filter.
  apply filter_agree. intros e _. cbn. rewrite elem_of_cons. tauto.
Qed.
Lemma drop_servers_self l : table_ok l → drop_servers l l = filter (λ e, e.2.(cs_awaitingconfirm) = 0) l.
Proof.
  intros Hl. apply filter_agree. intros [k cs] Hin. cbn. split.
  - intros Hn. destruct (Z.eqb_spec (cs_awaitingconfirm cs) 0) as [|Hz]; [done|]. destruct Hn.
    apply list_elem_of_fmap. exists (k, cs). split; [done|]. apply list_elem_of_filter. split; [|done].
    unfold stale_server. by apply negb_true_iff, Z.eqb_neq.
  - intros Hz ([k' cs'] & -> & [Hs Hin']%list_elem_of_filter)%list_elem_of_fmap. cbn in *.
    apply In_hash_find in Hin, Hin'; [|done..]. rewrite Hin in Hin'. injection Hin' as ->.
    unfold stale_server in Hs. cbn in Hs. by rewrite Hz in Hs.
Qed.

Lemma disable_servers_ok dead s :
  Forall (λ e, server_ok e.1 e.2) dead →
  ∃ s', for_each dead (λ e,
          if negb (e.2.(cs_awaitingconfirm) =? 0) then
            _ ← push_coreserver_msg OPENLI_PUSH_REMOVE_CORESERVER e.2;
            put_prov (λ t, set_pv_coreservers (hash_delete e.1 t.(pv_coreservers)) t)
          else mret tt) s = Ok (tt, s') ∧
    let s0 := with_servers (drop_servers dead s.(sy_prov).(pv_coreservers)) s in after s0 s0.(sy_prov) [] s'.
Proof.
  intros Hd. revert s. induction Hd as [|[k cs] dead Hk _ IH]; intros s.
  - exists s. split; [done|]. cbv zeta. rewrite drop_servers_nil. replace (with_servers _ s) with s; [apply after_refl|].
    by destruct s as [? ? ? ? [] ? ? ?].
  - cbn [for_each fst snd]. destruct (stale_server (k, cs)) eqn:E; pose proof E as E0;
      unfold stale_server in E0; cbn [snd] in E0; rewrite E0.
    + destruct (quiet_push_server OPENLI_PUSH_REMOVE_CORESERVER k cs s Hk) as ([] & s1 & E1 & H1).
      rewrite (ST_bind_ok _ _ s tt (with_servers (hash_delete k s.(sy_prov).(pv_coreservers)) s1)).
      2:{ rewrite (ST_bind_ok _ _ _ _ _ E1). unfold put_prov, modify, with_servers.
          by destruct (same_lists_erase _ _ (af_prov _ _ _ _ H1)) as [-> _]. }
      destruct (IH (with_servers (hash_delete k s.(sy_prov).(pv_coreservers)) s1)) as (s' & E' & H').
      exists s'. split; [exact E'|]. rewrite (drop_servers_cons k cs dead) by done.
      eapply after_erase; [|exact (after_trans _ _ _ _ _ _ _ (after_servers (drop_servers dead (hash_delete k s.(sy_prov).(pv_coreservers))) _ _ H1) H')].
      apply (af_prov _ _ _ _ (after_servers _ _ _ H1)).
    + destruct (IH s) as (s' & E' & H'). exists s'. split; [exact E'|].
      unfold drop_servers. rewrite filter_cons_False by by rewrite E. exact H'.
Qed.
End servers.
