(* ===== verification/SyncRefine.v ===== *)
(** * The synchronisation thread implements the provisioner's configuration

    Every message of the provisioner, as it arrives, and a lost connection, as steps of
    [spec_step]; sequences of them; what remains after a reconnection. *)

From stdpp Require Import gmap.
From S2P Require Import Prelude Protocol Intercept NetBuffer NetPush NetDecode Publish AccessSession Radius RadiusSession Ipiri JenkinsHash HashTable IpSession TimedIntercept CoreServer ThreadTables PacketProps SyncSessions SyncProps SyncIntercepts SyncProvisioner SyncProvProps SyncConfig.

(** What comes from the provisioner. *)
Inductive prov_input : Type :=
  | In_message (t : openli_proto_msgtype_t) (mem : bytes) (len : Z)
  | In_disconnect (dropmeds : bool).

(** What it means. *)
Inductive means : prov_input → prov_op → Prop :=
  | means_start mem len k i :
      decode_ipintercept_start mem len no_intercept = Ok (0, i) → cept_key i = Ok k →
      means (In_message OPENLI_PROTO_START_IPINTERCEPT mem len) (P_start k i)
  | means_modify mem len k i :
      decode_ipintercept_modify mem len no_intercept = Ok (0, i) → cept_key i = Ok k →
      means (In_message OPENLI_PROTO_MODIFY_IPINTERCEPT mem len) (P_modify k i)
  | means_halt mem len k i :
      decode_ipintercept_halt mem len no_intercept = Ok (0, i) → cept_key i = Ok k →
      means (In_message OPENLI_PROTO_HALT_IPINTERCEPT mem len) (P_halt k)
  | means_add_range mem len k r :
      decode_staticip_announcement mem len no_static = Ok (0, r) → c_str r.(sr_liid) = Ok k →
      means (In_message OPENLI_PROTO_ADD_STATICIPS mem len) (P_add_range k r)
  | means_modify_range mem len k r :
      decode_staticip_modify mem len no_static = Ok (0, r) → c_str r.(sr_liid) = Ok k →
      means (In_message OPENLI_PROTO_MODIFY_STATICIPS mem len) (P_modify_range k r)
  | means_remove_range mem len k r :
      decode_staticip_removal mem len no_static = Ok (0, r) → c_str r.(sr_liid) = Ok k →
      means (In_message OPENLI_PROTO_REMOVE_STATICIPS mem len) (P_remove_range k r)
  | means_server mem len k cs :
      decode_coreserver_announcement mem len no_coreserver = Ok (0, cs) → server_ok k cs →
      means (In_message OPENLI_PROTO_ANNOUNCE_CORESERVER mem len) (P_server k cs)
  | means_no_server mem len k cs :
      decode_coreserver_withdraw mem len no_coreserver = Ok (0, cs) → server_ok k cs →
      means (In_message OPENLI_PROTO_WITHDRAW_CORESERVER mem len) (P_no_server k)
  | means_radius mem len k d :
      decode_default_radius_announcement mem len no_default_radius = Ok (0, d) →
      string_key d.(dr_name) d.(dr_namelen) = Ok k →
      means (In_message OPENLI_PROTO_ANNOUNCE_DEFAULT_RADIUS mem len) (P_radius k d)
  | means_no_radius mem len k d :
      decode_default_radius_announcement mem len no_default_radius = Ok (0, d) →
      string_key d.(dr_name) d.(dr_namelen) = Ok k →
      means (In_message OPENLI_PROTO_WITHDRAW_DEFAULT_RADIUS mem len) (P_no_radius k)
  | means_nomore mem len b :
      read_bytes len mem = Ok b →
      means (In_message OPENLI_PROTO_NOMORE_INTERCEPTS mem len) P_nomore
  | means_disconnect dropmeds : means (In_disconnect dropmeds) P_disconnect.

(** Messages whose strings are strings; an intercept that is known has a target and keeps it. *)
Definition op_ok (S : prov_spec) (op : prov_op) : Prop :=
  match op with
  | P_start k i | P_modify k i =>
      cept_ok k i ∧ ∀ old, S.(sp_cepts) !! k = Some old →
        is_Some old.(ip_username) ∧ i.(ip_username) = old.(ip_username)
  | P_add_range k r | P_modify_range k r | P_remove_range k r => plain k ∧ range_ok k r
  | _ => True
  end.

Ltac cbn_lists := cbn_pv; cbn [spec_step spec_cepts spec_servers spec_radius sp_cepts sp_servers sp_radius] in *.

Section refinement.
Context {G Pkt : Type} (p : access_plugin G Pkt).
Context (ascii2prefix : bytes → option prefix_t).
Abbreviation sync := (collector_sync_t G).
Implicit Types (s : sync) (S : prov_spec).

Definition run_input (now : Z) (inp : prov_input) : ST sync Z :=
  match inp with
  | In_message t mem len =>
      match provmsg_handler p ascii2prefix now t mem len with Some f => f | None => mret 0 end
  | In_disconnect dropmeds => _ ← sync_disconnect_provisioner dropmeds; mret 0
  end.

Definition lists_ok (t : prov_tables) (S : prov_spec) : Prop :=
  table_ok t.(pv_coreservers) ∧ table_map t.(pv_coreservers) = S.(sp_servers) ∧
  map_Forall server_ok S.(sp_servers) ∧
  table_ok t.(pv_defaultradius) ∧ table_map t.(pv_defaultradius) = S.(sp_radius).

(** The thread stands for the configuration, and the trackers have been told about it. *)
Definition refines (now : Z) (s : sync) (S : prov_spec) : Prop :=
  ∃ A, prov_inv now s.(sy_prov) A ∧ S.(sp_cepts) = snd <$> A ∧ trackers_ok s.(sy_out) A ∧
    lists_ok s.(sy_prov) S.

(** What no message changes. *)
Definition same_env s s' : Prop :=
  s'.(sy_plugin) = s.(sy_plugin) ∧ s'.(sy_store) = s.(sy_store) ∧ s'.(sy_allusers) = s.(sy_allusers) ∧
  s'.(sy_queues) = s.(sy_queues) ∧ s'.(sy_conn).(pn_pubsockcount) = s.(sy_conn).(pn_pubsockcount).
Lemma same_env_trans s s' s'' : same_env s s' → same_env s' s'' → same_env s s''.
Proof. unfold same_env. intuition congruence. Qed.
Lemma same_env_ready s s' : same_env s s' → sessions_ready p s → sessions_ready p s'.
Proof. intros (Hp & Hs & Hu & _) Hr u. rewrite Hu. unfold session_ready. rewrite Hp, Hs. apply Hr. Qed.
Lemma after_same s t l s' : after s t l s' → same_env s s'.
Proof. intros []. split_and!; try done. by rewrite af_conn. Qed.

Lemma trackers_after s t l s' A A' :
  after s t l s' → trackers_ok s.(sy_out) A → tells A A' l → trackers_ok s'.(sy_out) A'.
Proof.
  intros Ha Ht Hl tr k. unfold known. rewrite <- known_quiet, (af_out _ _ _ _ Ha).
  assert (Ht' : trackers_ok (cept_outputs (sy_out s)) A).
  { intros tr' k'. unfold known. rewrite known_quiet. apply Ht. }
  apply (Hl _ Ht').
Qed.
Lemma lists_after s t l s' S S' :
  after s t l s' → lists_ok s.(sy_prov) S → sp_servers S' = sp_servers S → sp_radius S' = sp_radius S →
  lists_ok s'.(sy_prov) S'.
Proof.
  intros Ha (H1 & H2 & H3 & H4 & H5) E1 E2. destruct (same_lists_erase _ _ (af_prov _ _ _ _ Ha)) as [L1 L2].
  destruct (af_lists _ _ _ _ Ha) as [L3 L4]. unfold lists_ok. by rewrite E1, E2, L1, L2, L3, L4.
Qed.

(** An operation on intercepts. *)
Lemma refine_cepts now (m : ST sync Z) r s S S' A A' out :
  prov_inv now s.(sy_prov) A → trackers_ok s.(sy_out) A → lists_ok s.(sy_prov) S →
  to_config now m r s A' out → tells A A' out →
  S' = Mkprov_spec (snd <$> A') (sp_servers S) (sp_radius S) →
  ∃ s', m s = Ok (r, s') ∧ refines now s' S' ∧ same_env s s'.
Proof.
  intros Hi Ht Hl (s' & E & Ha & Hi') Htell ->. exists s'. split; [done|]. split; [|by eapply after_same].
  exists A'. split; [done|]. split; [done|]. split; [by eapply trackers_after|by eapply lists_after].
Qed.

Ltac open_handler :=
  cbn [run_input]; unfold provmsg_handler; cbn [msgtype_code Z.eqb Pos.eqb voip_message email_message orb].

Lemma announce_ok now k i s A :
  prov_inv now s.(sy_prov) A → sessions_ready p s → 0 < now → A !! k = None → cept_ok k i →
  to_config now (insert_new_ipintercept p now i) 1 s
    (<[k := (s.(sy_prov).(pv_next), entered (tracker s.(sy_conn).(pn_pubsockcount) i) i)]> A)
    (entered_outputs (tracker s.(sy_conn).(pn_pubsockcount) i) i).
Proof.
  intros Hi Hr Hn Hk Hok. destruct (insert_ok p now k i A s Hi Hr Hn Hk Hok) as (tr & Htr & Hc).
  unfold tracker. by rewrite Htr.
Qed.

(** A message that names an intercept. *)
Lemma decoded_ok now (d : outcome (Z * ipintercept_t)) i k (f : ipintercept_t → option Z → ST sync Z) r s A A' out :
  d = Ok (0, i) → cept_key i = Ok k → prov_inv now s.(sy_prov) A →
  to_config now (f i (fst <$> (A !! k))) r s A' out →
  to_config now ('(rc, c) ← lift d;
                 if rc =? -1 then mret (-1)
                 else k ← lift (cept_key c); x ← find_cept k; f c x) r s A' out.
Proof.
  intros Hd Hk Hi Hf. eapply to_config_ok; [by apply lift_ok|]. cbn [Z.eqb].
  eapply to_config_ok; [by apply lift_ok|]. eapply to_config_ok; [by apply (find_cept_ok now _ s A)|]. done.
Qed.

(** The operations that a message may have, of the handler of its type. *)
Definition step_ok (now : Z) (m : ST sync Z) (op : prov_op) (s : sync) (S : prov_spec) : Prop :=
  let n := s.(sy_conn).(pn_pubsockcount) in
  ∃ s', m s = Ok (spec_return n S op, s') ∧ refines now s' (spec_step n S op) ∧ same_env s s'.

Lemma step_start now mem len k i s S :
  refines now s S → sessions_ready p s → 0 < now → op_ok S (P_start k i) →
  decode_ipintercept_start mem len no_intercept = Ok (0, i) → cept_key i = Ok k →
  step_ok now (new_ipintercept p ascii2prefix now mem len) (P_start k i) s S.
Proof.
  intros (A & Hi & Hc & Ht & Hl) Hr Hn [Hok Hkeep] Hd Hkey. rewrite Hc in Hkeep.
  unfold step_ok, spec_return, spec_step, spec_cepts. rewrite Hc. rewrite lookup_fmap in *.
  unfold new_ipintercept. destruct (A !! k) as [[a old]|] eqn:Hk; cbn [fmap option_fmap option_map snd fst] in *.
  - destruct (Hkeep old eq_refl) as [Hu Hmu]. eapply (refine_cepts now _ _ s S _ A); [done..| | |].
    + eapply (decoded_ok now); [done..|]. rewrite Hk. cbn [fmap option_fmap option_map fst].
      destruct (inv_load _ _ _ _ _ _ Hi Hk) as (Hload & _ & Hok' & _). eapply to_config_ok; [exact Hload|].
      eapply (store_ok now _ _ k a old); [done..|by destruct Hok'|done|done|]. intros s1 H1 _ Hi1.
      change (set_ip_awaitingconfirm 0 (set_ip_accesstype (ip_accesstype i) old)) with (confirmed i old) in *.
      eapply (update_ok p ascii2prefix now k a (confirmed i old)); [done|by eapply ready_after|done|apply lookup_insert_eq|done..].
    + rewrite insert_insert_eq. by eapply (tells_changed _ k a old).
    + rewrite insert_insert_eq, fmap_insert. done.
  - eapply (refine_cepts now _ _ s S _ A); [done..| | |].
    + eapply (decoded_ok now); [done..|]. rewrite Hk. by apply announce_ok.
    + by apply tells_entered.
    + by rewrite fmap_insert.
Qed.

Lemma step_modify now mem len k i s S :
  refines now s S → sessions_ready p s → 0 < now → op_ok S (P_modify k i) →
  decode_ipintercept_modify mem len no_intercept = Ok (0, i) → cept_key i = Ok k →
  step_ok now (modify_ipintercept p ascii2prefix now mem len) (P_modify k i) s S.
Proof.
  intros (A & Hi & Hc & Ht & Hl) Hr Hn [Hok Hkeep] Hd Hkey. rewrite Hc in Hkeep.
  unfold step_ok, spec_return, spec_step, spec_cepts. rewrite Hc. rewrite lookup_fmap in *.
  unfold modify_ipintercept. destruct (A !! k) as [[a old]|] eqn:Hk; cbn [fmap option_fmap option_map snd fst] in *.
  - destruct (Hkeep old eq_refl) as [Hu Hmu]. eapply (refine_cepts now _ _ s S _ A); [done..| | |].
    + eapply (decoded_ok now); [done..|]. rewrite Hk. cbn [fmap option_fmap option_map fst].
      by eapply (update_ok p ascii2prefix now k a old).
    + by eapply (tells_changed _ k a old).
    + by rewrite fmap_insert.
  - eapply (refine_cepts now _ _ s S _ A); [done..| | |].
    + eapply (decoded_ok now); [done..|]. rewrite Hk. by apply announce_ok.
    + by apply tells_entered.
    + by rewrite fmap_insert.
Qed.

Lemma tells_refl A : tells A A [].
Proof. intros out Hout. by rewrite app_nil_r. Qed.

Lemma step_halt now mem len k i s S :
  refines now s S → sessions_ready p s →
  decode_ipintercept_halt mem len no_intercept = Ok (0, i) → cept_key i = Ok k →
  step_ok now (halt_ipintercept p ascii2prefix now mem len) (P_halt k) s S.
Proof.
  intros (A & Hi & Hc & Ht & Hl) Hr Hd Hkey.
  unfold step_ok, spec_return, spec_step, spec_cepts. rewrite Hc. rewrite lookup_fmap.
  unfold halt_ipintercept. destruct (A !! k) as [[a old]|] eqn:Hk; cbn [fmap option_fmap option_map snd fst].
  - eapply (refine_cepts now _ _ s S _ A (delete k A) (ended_outputs old)); [done..| | |].
    + eapply (decoded_ok now); [done..|]. rewrite Hk. cbn [fmap option_fmap option_map fst].
      rewrite <- (app_nil_r (ended_outputs old)). eapply to_config_bind; [by apply (remove_intercept_ok p ascii2prefix now k a old)|].
      intros s1 _ Hi1. by apply to_config_ret.
    + eapply tells_ended; [done|]. by eapply pi_ok.
    + by rewrite fmap_delete.
  - eapply (refine_cepts now _ _ s S _ A); [done..| |apply tells_refl|by destruct S; cbn in *; subst].
    eapply (decoded_ok now); [done..|]. rewrite Hk. by apply to_config_ret.
Qed.

(** The static ranges. *)
Lemma step_range now mem len k r (g : ipintercept_t → ipintercept_t) (f : static_ipranges_t → ST sync Z) op s S :
  refines now s S → plain k → range_ok k r →
  decode_staticip_announcement mem len no_static = Ok (0, r) →
  (∀ A a i, prov_inv now s.(sy_prov) A → A !! k = Some (a, i) → to_config now (f r) 1 s (<[k := (a, g i)]> A) []) →
  (∀ A, prov_inv now s.(sy_prov) A → A !! k = None → to_config now (f r) (-1) s A []) →
  (∀ i, (g i).(ip_common).(ic_seqtrackerid) = i.(ip_common).(ic_seqtrackerid)) →
  (∀ n, spec_step n S op = Mkprov_spec (match S.(sp_cepts) !! k with Some i => <[k := g i]> S.(sp_cepts) | None => S.(sp_cepts) end)
                             S.(sp_servers) S.(sp_radius)) →
  (∀ n, spec_return n S op = match S.(sp_cepts) !! k with Some _ => 1 | None => -1 end) →
  step_ok now (with_staticips f mem len) op s S.
Proof.
  intros (A & Hi & Hc & Ht & Hl) Hp Hr Hd Hsome Hnone Hg Hspec Hret. unfold step_ok. rewrite Hspec, Hret, Hc, lookup_fmap.
  destruct (A !! k) as [[a i]|] eqn:Hk; cbn [fmap option_fmap option_map snd].
  - eapply (refine_cepts now _ _ s S _ A); [done..| | |].
    + unfold with_staticips. eapply to_config_ok; [by apply lift_ok|]. cbn [Z.eqb]. by apply Hsome.
    + by eapply tells_update.
    + by rewrite fmap_insert.
  - eapply (refine_cepts now _ _ s S _ A); [done..| |apply tells_refl|done].
    unfold with_staticips. eapply to_config_ok; [by apply lift_ok|]. cbn [Z.eqb]. by apply Hnone.
Qed.

Lemma step_ranges now mem len k r op s S :
  refines now s S → sessions_ready p s → plain k → range_ok k r →
  decode_staticip_announcement mem len no_static = Ok (0, r) →
  (op = P_add_range k r → step_ok now (with_staticips (new_staticiprange ascii2prefix now) mem len) op s S) ∧
  (op = P_modify_range k r → step_ok now (with_staticips modify_staticiprange mem len) op s S) ∧
  (op = P_remove_range k r → step_ok now (with_staticips (remove_staticiprange ascii2prefix) mem len) op s S).
Proof.
  intros Href Hr Hp Hok Hd.
  assert (Hnone : ∀ A f, prov_inv now s.(sy_prov) A → A !! k = None →
    to_config now (liid ← lift (c_str r.(sr_liid)); x ← find_cept liid;
                   match x with None => mret (-1) | Some a => f a end) (-1) s A []).
  { intros A f Hi Hk. apply (range_cept now k r s A); [done..|]. by rewrite Hk. }
  assert (Hspec : ∀ n g op', spec_cepts n S.(sp_cepts) op' =
      match S.(sp_cepts) !! k with Some i => (<[k := g i]> S.(sp_cepts), 1) | None => (S.(sp_cepts), -1) end →
      (spec_cepts n S.(sp_cepts) op').1 = match S.(sp_cepts) !! k with Some i => <[k := g i]> S.(sp_cepts) | None => S.(sp_cepts) end ∧
      (spec_cepts n S.(sp_cepts) op').2 = match S.(sp_cepts) !! k with Some _ => 1 | None => -1 end).
  { intros n g op' ->. by destruct (_ !! k). }
  split_and!; intros ->.
  - eapply (step_range now mem len k r (confirm_range r)); try done.
    + intros A a i Hi Hk. by apply new_range_ok.
    + intros A Hi Hk. by apply Hnone.
    + intros i. unfold confirm_range. by destruct (find_static _ _).
    + intros n. unfold spec_step. by rewrite (proj1 (Hspec n (confirm_range r) (P_add_range k r) eq_refl)).
    + intros n. apply (Hspec n (confirm_range r) (P_add_range k r) eq_refl).
  - set (g := update_static (range_name r) (set_sr_cin r.(sr_cin))).
    eapply (step_range now mem len k r g); try done.
    + intros A a i Hi Hk. by apply modify_range_ok.
    + intros A Hi Hk. by apply Hnone.
    + intros n. unfold spec_step. by rewrite (proj1 (Hspec n g (P_modify_range k r) eq_refl)).
    + intros n. apply (Hspec n g (P_modify_range k r) eq_refl).
  - set (g := delete_static (range_name r)). eapply (step_range now mem len k r g); try done.
    + intros A a i Hi Hk. unfold g. rewrite delete_static_eq, <- (range_name_key k r Hok). by apply remove_range_ok.
    + intros A Hi Hk. by apply Hnone.
    + intros n. unfold spec_step. by rewrite (proj1 (Hspec n g (P_remove_range k r) eq_refl)).
    + intros n. apply (Hspec n g (P_remove_range k r) eq_refl).
Qed.

(** ** The other tables *)

Lemma prov_inv_lists now t A l l' :
  prov_inv now t A → prov_inv now (set_pv_coreservers l (set_pv_defaultradius l' t)) A.
Proof. intros []. by split. Qed.

(** A step that leaves the intercepts alone: the tables are replaced, and something is said. *)
Lemma refine_lists now (m : ST sync Z) r s S S' s' l l' :
  refines now s S → sp_cepts S' = sp_cepts S →
  m s = Ok (r, s') →
  (let t := set_pv_coreservers l (set_pv_defaultradius l' s.(sy_prov)) in
   after (set_sy_prov t s) t [] s') →
  lists_ok (set_pv_coreservers l (set_pv_defaultradius l' s.(sy_prov))) S' →
  ∃ s', m s = Ok (r, s') ∧ refines now s' S' ∧ same_env s s'.
Proof.
  intros (A & Hi & Hc & Ht & Hl) Hsc E Ha Hlok. exists s'. split; [done|]. split; [|by apply after_same in Ha].
  exists A. split_and!.
  - eapply prov_inv_erase; [symmetry; apply (af_prov _ _ _ _ Ha)|apply (af_next _ _ _ _ Ha)|]. by apply prov_inv_lists.
  - by rewrite Hsc.
  - eapply (trackers_after _ _ _ _ _ _ Ha); [exact Ht|apply tells_refl].
  - destruct (same_lists_erase _ _ (af_prov _ _ _ _ Ha)) as [L1 L2]. unfold lists_ok in *. by rewrite L1, L2.
Qed.
Lemma set_lists_same t : set_pv_coreservers t.(pv_coreservers) (set_pv_defaultradius t.(pv_defaultradius) t) = t.
Proof. by destruct t. Qed.
Lemma set_sy_prov_same s : set_sy_prov s.(sy_prov) s = s.
Proof. by destruct s. Qed.

Lemma step_server now mem len k cs s S :
  refines now s S → decode_coreserver_announcement mem len no_coreserver = Ok (0, cs) → server_ok k cs →
  step_ok now (forward_new_coreserver mem len) (P_server k cs) s S.
Proof.
  intros Href Hd Hok. pose proof Href as (_ & _ & _ & _ & (H1 & H2 & H3 & H4 & H5)). unfold step_ok.
  set (L := s.(sy_prov).(pv_coreservers)) in *. set (R := s.(sy_prov).(pv_defaultradius)).
  assert (E : forward_new_coreserver mem len s =
    match hash_find k L with
    | Some found => Ok (1, set_sy_prov (set_pv_coreservers (hash_update k (set_cs_awaitingconfirm 0 found) L) s.(sy_prov)) s)
    | None => (_ ← push_coreserver_msg OPENLI_PUSH_CORESERVER cs; mret 1)
                (set_sy_prov (set_pv_coreservers (hash_add k cs L) s.(sy_prov)) s)
    end).
  { unfold forward_new_coreserver. destruct Hok as (Hnul & Hsk & _).
    rewrite (ST_bind_ok _ _ _ _ _ (lift_ok _ _ _ Hd)). cbn [Z.eqb]. rewrite Hsk.
    rewrite (ST_bind_ok _ _ _ k s) by (apply lift_ok; cbn; by rewrite Hnul).
    rewrite (ST_bind_ok _ _ s s.(sy_prov) s) by done. fold L. by destruct (hash_find k L). }
  unfold spec_return, spec_step. cbn [spec_cepts spec_servers spec_radius fst snd].
  rewrite <- H2, <- hash_find_map. destruct (hash_find k L) as [found|] eqn:Ef.
  - destruct (table_confirm L k (set_cs_awaitingconfirm 0 found) found H1 Ef) as [Hu Hm].
    eapply (refine_lists now _ _ s S _ _ _ R Href); [done|exact E|apply after_refl|].
    split_and!; cbn_lists; try done. rewrite H2. apply map_Forall_insert_2; [|done].
    rewrite <- H2 in H3. specialize (H3 k found). rewrite <- hash_find_map in H3. destruct (H3 Ef) as (? & ? & ?). by split_and!.
  - destruct (quiet_push_server OPENLI_PUSH_CORESERVER k cs (set_sy_prov (set_pv_coreservers (hash_add k cs L) s.(sy_prov)) s) Hok)
      as ([] & s1 & E1 & H1').
    eapply (refine_lists now _ _ s S _ s1 (hash_add k cs L) R Href); [done| |exact H1'|].
    + rewrite E. by rewrite (ST_bind_ok _ _ _ _ _ E1).
    + split_and!; cbn_lists; try done; [by apply hash_add_ok|by apply hash_add_map|rewrite H2; by apply map_Forall_insert_2].
Qed.

Lemma step_no_server now mem len k cs s S :
  refines now s S → decode_coreserver_withdraw mem len no_coreserver = Ok (0, cs) → server_ok k cs →
  step_ok now (forward_remove_coreserver mem len) (P_no_server k) s S.
Proof.
  intros Href Hd Hok. pose proof Href as (_ & _ & _ & _ & (H1 & H2 & H3 & H4 & H5)). unfold step_ok.
  set (L := s.(sy_prov).(pv_coreservers)) in *. set (R := s.(sy_prov).(pv_defaultradius)) in *.
  destruct (quiet_push_server OPENLI_PUSH_REMOVE_CORESERVER k cs s Hok) as ([] & s1 & E1 & Hs1).
  assert (E : forward_remove_coreserver mem len s =
    match hash_find k L with None => Ok (1, s) | Some _ => Ok (1, with_servers (hash_delete k L) s1) end).
  { unfold forward_remove_coreserver. destruct Hok as (Hnul & Hsk & _).
    rewrite (ST_bind_ok _ _ _ _ _ (lift_ok _ _ _ Hd)). cbn [Z.eqb]. rewrite Hsk.
    rewrite (ST_bind_ok _ _ _ k s) by (apply lift_ok; cbn; by rewrite Hnul).
    rewrite (ST_bind_ok _ _ s s.(sy_prov) s) by done. fold L. destruct (hash_find k L); [|done].
    rewrite (ST_bind_ok _ _ _ _ _ E1). unfold with_servers, L.
    by destruct (same_lists_erase _ _ (af_prov _ _ _ _ Hs1)) as [<- _]. }
  unfold spec_return, spec_step. cbn [spec_cepts spec_servers spec_radius fst snd].
  destruct (hash_find k L) as [found|] eqn:Ef.
  - eapply (refine_lists now _ _ s S _ _ (hash_delete k L) R Href); [done|exact E| |].
    + pose proof (after_servers (hash_delete k L) s s1 Hs1) as Ha. exact Ha.
    + split_and!; cbn_lists; try done; [by apply hash_delete_ok|by rewrite hash_delete_map, H2|by apply map_Forall_delete].
  - eapply (refine_lists now _ _ s S _ _ L R Href); [done|exact E| |].
    + cbv zeta. unfold L, R. rewrite set_lists_same, set_sy_prov_same. apply after_refl.
    + unfold L, R. rewrite set_lists_same. assert (Hd' : delete k (sp_servers S) = sp_servers S).
      { apply delete_id. by rewrite <- H2, <- hash_find_map. }
      rewrite Hd'. by split_and!.
Qed.

Lemma step_radius now mem len k d s S :
  refines now s S → decode_default_radius_announcement mem len no_default_radius = Ok (0, d) →
  string_key d.(dr_name) d.(dr_namelen) = Ok k →
  step_ok now (new_default_radius mem len) (P_radius k d) s S.
Proof.
  intros Href Hd Hkey. pose proof Href as (_ & _ & _ & _ & (H1 & H2 & H3 & H4 & H5)). unfold step_ok.
  set (L := s.(sy_prov).(pv_coreservers)) in *. set (R := s.(sy_prov).(pv_defaultradius)) in *.
  assert (E : new_default_radius mem len s =
    match hash_find k R with
    | Some found => Ok (0, set_sy_prov (set_pv_defaultradius (hash_update k (set_dr_awaitingconfirm 0 found) R) s.(sy_prov)) s)
    | None => Ok (1, set_sy_prov (set_pv_defaultradius (hash_add k d R) s.(sy_prov)) s)
    end).
  { unfold new_default_radius. rewrite (ST_bind_ok _ _ _ _ _ (lift_ok _ _ _ Hd)). cbn [Z.eqb].
    rewrite (ST_bind_ok _ _ _ _ _ (lift_ok _ _ _ Hkey)).
    rewrite (ST_bind_ok _ _ s s.(sy_prov) s) by done. fold R. by destruct (hash_find k R). }
  unfold spec_return, spec_step. cbn [spec_cepts spec_servers spec_radius fst snd].
  rewrite <- H5, <- hash_find_map. destruct (hash_find k R) as [found|] eqn:Ef.
  - destruct (table_confirm R k (set_dr_awaitingconfirm 0 found) found H4 Ef) as [Hu Hm]. rewrite decide_True by done.
    eapply (refine_lists now _ _ s S _ _ L (hash_update k (set_dr_awaitingconfirm 0 found) R) Href); [done|exact E|apply after_refl|].
    by split_and!.
  - rewrite decide_False by by intros [].
    eapply (refine_lists now _ _ s S _ _ L (hash_add k d R) Href); [done|exact E|apply after_refl|].
    split_and!; cbn_lists; try done; [by apply hash_add_ok|by apply hash_add_map].
Qed.
Lemma step_no_radius now mem len k d s S :
  refines now s S → decode_default_radius_announcement mem len no_default_radius = Ok (0, d) →
  string_key d.(dr_name) d.(dr_namelen) = Ok k →
  step_ok now (withdraw_default_radius mem len) (P_no_radius k) s S.
Proof.
  intros Href Hd Hkey. pose proof Href as (_ & _ & _ & _ & (H1 & H2 & H3 & H4 & H5)). unfold step_ok.
  set (R := s.(sy_prov).(pv_defaultradius)) in *.
  eapply (refine_lists now _ _ s S _ _ s.(sy_prov).(pv_coreservers) (hash_delete k R) Href); [done| |apply after_refl|].
  - unfold withdraw_default_radius. rewrite (ST_bind_ok _ _ _ _ _ (lift_ok _ _ _ Hd)). cbn [Z.eqb].
    by rewrite (ST_bind_ok _ _ _ _ _ (lift_ok _ _ _ Hkey)).
  - split_and!; cbn_lists; try done; [by apply hash_delete_ok|by rewrite hash_delete_map, H5].
Qed.

(** ** The end of the announcements, and a lost connection *)

Lemma quiet_voipsync mem len b t s : read_bytes len mem = Ok b → quiet (forward_provmsg_to_voipsync mem len t) s.
Proof.
  intros Hb. unfold forward_provmsg_to_voipsync. eapply quiet_ok; [by apply lift_ok|].
  apply quiet_bind; [by apply quiet_emit|]. intros. apply quiet_ret.
Qed.
Lemma quiet_email mem len b t s : read_bytes len mem = Ok b → quiet (forward_provmsg_to_email_workers mem len t) s.
Proof.
  intros Hb. unfold forward_provmsg_to_email_workers. eapply quiet_ok; [done|]. eapply quiet_ok; [by apply lift_ok|].
  apply quiet_bind; [|intros; apply quiet_ret]. apply quiet_emit. by apply cept_outputs_map.
Qed.
Lemma quiet_forwarders ty d s : quiet (to_forwarders ty d) s.
Proof. unfold to_forwarders. eapply quiet_ok; [done|]. apply quiet_emit. by apply cept_outputs_map. Qed.

Lemma settle_config (A : config) : snd <$> omap settle_entry A = omap settle (snd <$> A).
Proof.
  apply map_eq. intros k. rewrite lookup_fmap, !lookup_omap, lookup_fmap. destruct (A !! k) as [[a i]|]; [|done]. cbn.
  unfold settle_entry. cbn [fst snd]. by destruct (settle i).
Qed.

Lemma step_disable now s S :
  refines now s S → sessions_ready p s →
  let n := s.(sy_conn).(pn_pubsockcount) in
  ∃ s', disable_unconfirmed_intercepts p ascii2prefix now s = Ok (tt, s') ∧
    refines now s' (spec_step n S P_nomore) ∧ same_env s s'.
Proof.
  intros (A & Hi & Hc & Ht & Hl) Hr n. unfold disable_unconfirmed_intercepts.
  rewrite (ST_bind_ok _ _ s s.(sy_prov) s) by done.
  destruct (disable_all_ok p ascii2prefix now s.(sy_prov).(pv_ipintercepts) s A Hi Hr) as (s1 & E1 & Ha1 & Hi1).
  { apply (pi_table _ _ _ Hi). } { intros k a. by apply (table_entries now). }
  rewrite (ST_bind_ok _ _ _ _ _ E1). rewrite (settle_all now _ A Hi) in Hi1.
  assert (Ht1 : trackers_ok s1.(sy_out) (omap settle_entry A)).
  { eapply trackers_after; [exact Ha1|exact Ht|]. rewrite <- (settle_all now _ A Hi).
    apply tells_settle; [apply (pi_table _ _ _ Hi)|]. intros k a i. apply (pi_ok _ _ _ Hi). }
  pose proof (lists_after _ _ _ _ S S Ha1 Hl eq_refl eq_refl) as (H1 & H2 & H3 & H4 & H5).
  rewrite (ST_bind_ok _ _ s1 s1.(sy_prov) s1) by done.
  destruct (disable_servers_ok s1.(sy_prov).(pv_coreservers) s1) as (s2 & E2 & Ha2).
  { apply Forall_forall. intros [k cs] Hin. apply In_hash_find in Hin; [|done]. rewrite hash_find_map, H2 in Hin. by apply H3. }
  rewrite (ST_bind_ok _ _ _ _ _ E2). rewrite drop_servers_self in Ha2 by done. cbv zeta in Ha2.
  eexists. split; [reflexivity|]. split.
  2:{ eapply same_env_trans; [by eapply after_same|]. by apply after_same in Ha2. }
  exists (omap settle_entry A). destruct (same_lists_erase _ _ (af_prov _ _ _ _ Ha2)) as [L1 L2]. cbn in L1, L2. split_and!.
  - apply (prov_inv_erase now (set_pv_coreservers (filter (λ e, e.2.(cs_awaitingconfirm) = 0) s1.(sy_prov).(pv_coreservers))
      (set_pv_defaultradius (filter (λ e, e.2.(dr_awaitingconfirm) = 0) s1.(sy_prov).(pv_defaultradius)) s1.(sy_prov))));
      [|apply (af_next _ _ _ _ Ha2)|by apply prov_inv_lists].
    pose proof (af_prov _ _ _ _ Ha2) as Ep. unfold erase, set_pv_next, with_servers in Ep |- *. cbn in Ep |- *.
    injection Ep as P1 P2 P3 P4 P5 P6 P7. by rewrite P1, P2, P3, P4, P5, P6, P7.
  - unfold spec_step. cbn. by rewrite settle_config, Hc.
  - eapply (trackers_after _ _ _ _ _ _ Ha2); [exact Ht1|apply tells_refl].
  - unfold lists_ok. cbn_lists. rewrite L1, L2.
    destruct (table_filter (λ cs, cs.(cs_awaitingconfirm) = 0) s1.(sy_prov).(pv_coreservers) H1) as [F1 F2].
    destruct (table_filter (λ d, d.(dr_awaitingconfirm) = 0) s1.(sy_prov).(pv_defaultradius) H4) as [F3 F4].
    split_and!; [exact F1|by rewrite F2, H2| |exact F3|by rewrite F4, H5].
    intros k cs [Hk _]%map_lookup_filter_Some. by apply H3.
Qed.

(** Something that is only said. *)
Lemma refines_quiet now s s' S : refines now s S → after s s.(sy_prov) [] s' → refines now s' S.
Proof.
  intros (A & Hi & Hc & Ht & Hl) Ha. exists A. split_and!; [|done| |].
  - eapply prov_inv_erase; [symmetry; apply (af_prov _ _ _ _ Ha)|apply (af_next _ _ _ _ Ha)|done].
  - eapply trackers_after; [done..|apply tells_refl].
  - by eapply lists_after.
Qed.

Lemma step_nomore now mem len b s S :
  refines now s S → sessions_ready p s → read_bytes len mem = Ok b →
  step_ok now (_ ← disable_unconfirmed_intercepts p ascii2prefix now;
               _ ← forward_provmsg_to_voipsync mem len OPENLI_PROTO_NOMORE_INTERCEPTS;
               forward_provmsg_to_email_workers mem len OPENLI_PROTO_NOMORE_INTERCEPTS) P_nomore s S.
Proof.
  intros Href Hr Hb. destruct (step_disable now s S Href Hr) as (s1 & E1 & R1 & Hs1). unfold step_ok.
  rewrite (ST_bind_ok _ _ _ _ _ E1).
  destruct (quiet_voipsync mem len b OPENLI_PROTO_NOMORE_INTERCEPTS s1 Hb) as (r2 & s2 & E2 & H2).
  rewrite (ST_bind_ok _ _ _ _ _ E2).
  destruct (quiet_email mem len b OPENLI_PROTO_NOMORE_INTERCEPTS s2 Hb) as (r3 & s3 & E3 & H3).
  exists s3. split.
  { rewrite E3. f_equal. f_equal. revert E3. unfold forward_provmsg_to_email_workers. run_st. rewrite Hb. by intros [= <- _]. }
  split; [by eapply refines_quiet; [eapply refines_quiet|]|].
  eapply same_env_trans; [exact Hs1|]. eapply same_env_trans; by eapply after_same.
Qed.

Lemma touch_config (A : config) : snd <$> (prod_map id touch_intercept <$> A) = touch_intercept <$> (snd <$> A).
Proof. apply map_eq. intros k. rewrite !lookup_fmap. by destruct (A !! k) as [[? ?]|]. Qed.
Lemma tells_touch (A : config) : tells A (prod_map id touch_intercept <$> A) [].
Proof.
  apply tells_same; intros k a i; rewrite lookup_fmap.
  - destruct (A !! k) as [[b j]|]; [|done]. cbn. intros [= <- <-]. by exists b, j.
  - intros ->. by eexists _, _.
Qed.

Lemma disconnect_ok now dropmeds s S :
  refines now s S →
  ∃ s', sync_disconnect_provisioner dropmeds s = Ok (tt, s') ∧
    refines now s' (spec_step s.(sy_conn).(pn_pubsockcount) S P_disconnect) ∧ same_env s s'.
Proof.
  intros (A & Hi & Hc & Ht & (H1 & H2 & H3 & H4 & H5)). unfold sync_disconnect_provisioner.
  set (f := λ c : prov_conn, if _ =? -1 then _ else _).
  set (s0 := set_sy_conn (f s.(sy_conn)) s : sync). rewrite (ST_bind_ok _ _ _ _ _ (eq_refl : put_conn f s = Ok (tt, s0))).
  assert (Hs0 : same_env s s0) by (split_and!; try done; cbn; unfold f; by destruct (_ =? _)).
  rewrite (ST_bind_ok _ _ s0 s0.(sy_prov) s0) by done.
  destruct (touch_all_ok now s0.(sy_prov).(pv_ipintercepts) s0 A Hi) as (s1 & E1 & Ha1 & Hi1).
  { apply (pi_table _ _ _ Hi). } { intros k a. by apply (table_entries now). }
  rewrite (ST_bind_ok _ _ _ _ _ E1). clear E1. rewrite (touch_all now (sy_prov s0) A Hi) in Hi1.
  pose proof (trackers_after _ _ _ _ _ _ Ha1 Ht (tells_touch A)) as Ht1.
  destruct (af_lists _ _ _ _ Ha1) as [L1 L2]. change (sy_prov s0) with (sy_prov s) in L1, L2.
  set (g := λ t, set_pv_defaultradius _ (set_pv_coreservers _ t)).
  set (s2 := set_sy_prov (g s1.(sy_prov)) s1 : sync). rewrite (ST_bind_ok _ _ _ _ _ (eq_refl : put_prov g s1 = Ok (tt, s2))).
  set (S' := spec_step _ S P_disconnect).
  assert (R2 : refines now s2 S').
  { exists (prod_map id touch_intercept <$> A). split_and!.
    - apply (prov_inv_erase now (set_pv_coreservers (touch_all_coreservers s1.(sy_prov).(pv_coreservers))
        (set_pv_defaultradius (touch_all_defaultradius s1.(sy_prov).(pv_defaultradius)) s1.(sy_prov)))); [done..|by apply prov_inv_lists].
    - unfold S'. cbn_lists. by rewrite touch_config, Hc.
    - exact Ht1.
    - unfold lists_ok, s2, g, S'. cbn_lists. rewrite L1, L2.
      destruct (table_fmap (set_cs_awaitingconfirm 1) _ H1) as [F1 F2].
      destruct (table_fmap (set_dr_awaitingconfirm 1) _ H4) as [F3 F4].
      split_and!; [exact F1|by rewrite <- H2| |exact F3|by rewrite <- H5].
      apply map_Forall_fmap. intros k cs Hk. apply H3 in Hk. exact Hk. }
  destruct (quiet_voipsync [] 0 [] OPENLI_PROTO_DISCONNECT s2 eq_refl) as (r3 & s3 & E3 & Q3).
  rewrite (ST_bind_ok _ _ _ _ _ E3).
  destruct (quiet_email [] 0 [] OPENLI_PROTO_DISCONNECT s3 eq_refl) as (r4 & s4 & E4 & Q4).
  rewrite (ST_bind_ok _ _ _ _ _ E4).
  assert (Q5 : quiet (if dropmeds then sync_reconnect_all_mediators else to_forwarders OPENLI_EXPORT_FLAG_MEDIATORS Data_none) s4)
    by (destruct dropmeds; apply quiet_forwarders).
  destruct Q5 as ([] & s5 & E5 & Q5). exists s5. split; [exact E5|].
  split; [do 3 (eapply refines_quiet; [|done]); exact R2|].
  eapply same_env_trans; [exact Hs0|]. eapply same_env_trans; [by eapply after_same|].
  eapply (same_env_trans _ s3); [by apply after_same in Q3|].
  eapply same_env_trans; by eapply after_same.
Qed.

Lemma step_disconnect now dropmeds s S :
  refines now s S → step_ok now (_ ← sync_disconnect_provisioner dropmeds; mret 0) P_disconnect s S.
Proof.
  intros Href. destruct (disconnect_ok now dropmeds s S Href) as (s' & E & H). unfold step_ok.
  exists s'. by rewrite (ST_bind_ok _ _ _ _ _ E).
Qed.

(** ** Any input *)

Lemma input_ok now inp op s S :
  refines now s S → sessions_ready p s → 0 < now → means inp op → op_ok S op →
  step_ok now (run_input now inp) op s S.
Proof.
  intros Href Hr Hn Hm Hop. destruct Hm; cbn [run_input]; unfold provmsg_handler;
    cbn [msgtype_code Z.eqb Pos.eqb voip_message email_message orb].
  - by apply step_start.
  - by apply step_modify.
  - by eapply step_halt.
  - destruct Hop. by eapply step_ranges.
  - destruct Hop. by eapply step_ranges.
  - destruct Hop. by eapply step_ranges.
  - by apply step_server.
  - by eapply step_no_server.
  - by apply step_radius.
  - by eapply step_no_radius.
  - by eapply step_nomore.
  - by apply step_disconnect.
Qed.

(** ** Sequences *)

(** The inputs with the times at which they arrive. *)
Fixpoint run_inputs (l : list (Z * prov_input)) : ST sync (list Z) :=
  match l with
  | [] => mret []
  | (now, inp) :: l => r ← run_input now inp; rs ← run_inputs l; mret (r :: rs)
  end.
Fixpoint times_from (now : Z) (l : list (Z * prov_input)) : Prop :=
  match l with [] => True | (t, _) :: l => now ≤ t ∧ times_from t l end.
Fixpoint last_time (now : Z) (l : list (Z * prov_input)) : Z :=
  match l with [] => now | (t, _) :: l => last_time t l end.

Definition spec_run (n : Z) (S : prov_spec) (ops : list prov_op) : prov_spec := foldl (spec_step n) S ops.
Fixpoint spec_returns (n : Z) (S : prov_spec) (ops : list prov_op) : list Z :=
  match ops with [] => [] | op :: ops => spec_return n S op :: spec_returns n (spec_step n S op) ops end.
Fixpoint ops_ok (n : Z) (S : prov_spec) (ops : list prov_op) : Prop :=
  match ops with [] => True | op :: ops => op_ok S op ∧ ops_ok n (spec_step n S op) ops end.

Lemma refines_later now now' s S : now ≤ now' → refines now s S → refines now' s S.
Proof. intros Hn (A & Hi & H). exists A. split; [by eapply prov_inv_later|done]. Qed.

Lemma run_inputs_refine now l ops s S :
  let n := s.(sy_conn).(pn_pubsockcount) in
  refines now s S → sessions_ready p s → 0 < now → times_from now l →
  Forall2 means l.*2 ops → ops_ok n S ops →
  ∃ s', run_inputs l s = Ok (spec_returns n S ops, s') ∧
    refines (last_time now l) s' (spec_run n S ops) ∧ same_env s s'.
Proof.
  intros n. subst n. revert now ops s S. induction l as [|[t inp] l IH]; intros now ops s S Href Hr Hn Ht Hm Hok.
  { apply Forall2_nil_inv_l in Hm as ->. exists s. split; [done|]. split; [done|]. by split_and!. }
  cbn [fmap list_fmap snd] in Hm. apply Forall2_cons_inv_l in Hm as (op & ops' & Hop & Hm & ->).
  destruct Ht as [Hle Ht]. destruct Hok as [Hok Hoks].
  destruct (input_ok t inp op s S) as (s1 & E1 & R1 & Hs1); [by eapply refines_later|done|lia|done..|].
  destruct Hs1 as (? & ? & ? & ? & Hnn). cbn [run_inputs].
  destruct (IH t ops' s1 (spec_step s.(sy_conn).(pn_pubsockcount) S op)) as (s2 & E2 & R2 & Hs2); [done| |lia|done..|by rewrite Hnn|].
  { by apply (same_env_ready s). }
  exists s2. rewrite (ST_bind_ok _ _ _ _ _ E1), (ST_bind_ok _ _ _ _ _ E2), Hnn. split; [done|].
  split; [rewrite Hnn in R2; exact R2|].
  eapply (same_env_trans s s1); [by split_and!|done].
Qed.

(** A thread that has heard nothing from the provisioner. *)
Definition no_tables (next : Z) : prov_tables := Mkprov_tables ∅ [] next [] [] [] [] ∅.
Definition fresh_sync s : Prop :=
  s.(sy_prov) = no_tables s.(sy_prov).(pv_next) ∧ cept_outputs s.(sy_out) = [].
Definition no_spec : prov_spec := Mkprov_spec ∅ ∅ ∅.

Lemma fresh_refines now s : fresh_sync s → refines now s no_spec.
Proof.
  intros [Hs Ho]. exists ∅. rewrite Hs. split_and!.
  - split; cbn_pv; try done.
    + intros a i. by split; [|intros [k ?]].
    + intros u k a. by split; [|intros (i & ? & _)].
  - done.
  - intros tr k. unfold known. rewrite <- known_quiet, Ho. cbn. split; [set_solver|by intros (a & i & ? & _)].
  - split_and!; try done; apply table_ok_nil.
Qed.
End refinement.
