(* ===== verification/SyncClaims.v ===== *)
(** * What the collector knows of the provisioner's configuration

    The tables of the synchronisation thread read as a configuration ([tables_view]), the
    refinement of [spec_run] by every sequence of messages, and what a reconnection leaves:
    the intercepts and the static ranges that the provisioner announced again. *)

From stdpp Require Import gmap.
From S2P Require Import Prelude Protocol Intercept NetBuffer NetPush NetDecode NetFormat NetMessages Publish AccessSession Radius RadiusSession Ipiri JenkinsHash HashTable IpSession TimedIntercept RadiusParse CoreServer ThreadTables PacketProps SyncSessions SyncProps SyncIntercepts SyncProvisioner SyncProvProps SyncConfig SyncRefine.

(** ** The tables as a configuration *)

Definition tables_view (t : prov_tables) : prov_spec :=
  Mkprov_spec (omap (λ a, t.(pv_cepts) !! a) (table_map t.(pv_ipintercepts)))
    (table_map t.(pv_coreservers)) (table_map t.(pv_defaultradius)).

Section view.
Context {G Pkt : Type} (p : access_plugin G Pkt).
Context (ascii2prefix : bytes → option prefix_t).
Abbreviation sync := (collector_sync_t G).
Implicit Types (s : sync) (S : prov_spec).

(** The LIIDs under which a user is listed. *)
Definition user_liids (u : bytes) (t : prov_tables) (k : bytes) : Prop :=
  is_Some (user_cept t.(pv_userintercepts) u k).

Lemma refines_view now s S : refines now s S → tables_view s.(sy_prov) = S.
Proof.
  intros (A & Hi & Hc & _ & _ & H2 & _ & _ & H5). destruct S as [C Sv R]. cbn [sp_cepts sp_servers sp_radius] in *.
  subst C Sv R. unfold tables_view. f_equal. apply map_eq. intros k.
  rewrite lookup_omap, lookup_fmap, <- hash_find_map, (pi_find _ _ _ Hi).
  destruct (A !! k) as [[a i]|] eqn:E; cbn; [|done]. apply (pi_heap _ _ _ Hi). by exists k.
Qed.
Lemma refines_known now s S tr k :
  refines now s S → k ∈ known tr s.(sy_out) ↔
    ∃ i, S.(sp_cepts) !! k = Some i ∧ i.(ip_common).(ic_seqtrackerid) = tr.
Proof.
  intros (A & _ & Hc & Ht & _). rewrite (Ht tr k), Hc. setoid_rewrite lookup_fmap. split.
  - intros (a & i & Hk & Htr). exists i. by rewrite Hk.
  - intros (i & Hk & Htr). destruct (A !! k) as [[a j]|]; [|done]. cbn in Hk. injection Hk as ->. by exists a, i.
Qed.
Lemma refines_users now s S u k :
  refines now s S → user_liids u s.(sy_prov) k ↔
    ∃ i, S.(sp_cepts) !! k = Some i ∧ i.(ip_username) = Some u.
Proof.
  intros (A & Hi & Hc & _). rewrite Hc. unfold user_liids. setoid_rewrite lookup_fmap. split.
  - intros [a (i & Hk & Hu)%(pi_users _ _ _ Hi)]. exists i. by rewrite Hk.
  - intros (i & Hk & Hu). destruct (A !! k) as [[a j]|] eqn:E; [|done]. cbn in Hk. injection Hk as ->.
    exists a. apply (pi_users _ _ _ Hi). by exists i.
Qed.

(** C3: The thread is told about IP intercepts, their static ranges, core servers and default
    RADIUS users by messages that can be decoded ([means]), mixed with disconnections.  As
    long as an announcement or modification of an intercept that is known names the user
    that the thread knows for it ([ops_ok]; an intercept without a user, or another user,
    makes the handlers of the source read NULL or a freed string), every handler returns
    what the specification says, without faults; the tables of the
    thread then are the configuration that the messages describe; a user's list names
    exactly the intercepts that target the user; and every sequence tracker has been told
    to track exactly the intercepts of the configuration that are assigned to it. *)
Theorem provisioner_config_refined l ops s :
  let n := s.(sy_conn).(pn_pubsockcount) in
  fresh_sync s → sessions_ready p s → times_from 1 l →
  Forall2 means l.*2 ops → ops_ok n no_spec ops →
  ∃ s', run_inputs p ascii2prefix l s = Ok (spec_returns n no_spec ops, s') ∧
    tables_view s'.(sy_prov) = spec_run n no_spec ops ∧
    (∀ u k, user_liids u s'.(sy_prov) k ↔
       ∃ i, (spec_run n no_spec ops).(sp_cepts) !! k = Some i ∧ i.(ip_username) = Some u) ∧
    (∀ tr k, k ∈ known tr s'.(sy_out) ↔
       ∃ i, (spec_run n no_spec ops).(sp_cepts) !! k = Some i ∧ i.(ip_common).(ic_seqtrackerid) = tr).
Proof.
  intros n Hf Hr Ht Hm Hok.
  destruct (run_inputs_refine p ascii2prefix 1 l ops s no_spec) as (s' & E & Href & _);
    [by apply fresh_refines|done|lia|done..|].
  exists s'. split; [exact E|]. split; [by eapply refines_view|]. split.
  - intros u k. by eapply refines_users.
  - intros tr k. by eapply refines_known.
Qed.
End view.

(** ** What decoding leaves alone *)

Lemma decode_fields_keeps {St} (P : St → Prop) (h : handler St) fuel mem rem s r s' :
  (∀ f vallen valptr s s', P s → h f vallen valptr s = Ok (Some s') → P s') →
  P s → decode_fields h fuel mem rem s = Ok (r, s') → P s'.
Proof.
  intros Hh. revert mem rem s. induction fuel as [|fuel IH]; intros mem rem s Hs; cbn [decode_fields];
    (destruct (rem <=? 0); [by intros [= _ <-]|]); [done|].
  destruct (decode_tlv mem rem) as [[[[f vallen] valptr]|]| |]; cbn; try done; [|by intros [= _ <-]].
  destruct (h f vallen valptr s) as [[s1|]| |] eqn:E; cbn; try done; [|by intros [= _ <-]].
  apply IH. by eapply Hh.
Qed.

Ltac decode_cases :=
  repeat match goal with |- context [if (?f =? ?x) then _ else _] => destruct (f =? x) end;
  unfold store, store_str, store_str_len;
  repeat match goal with
  | |- context [read_le ?n ?v] => destruct (read_le n v); cbn
  | |- context [read_bytes ?n ?v] => destruct (read_bytes n v); cbn
  end; try done; by intros [= <-].

Lemma decoded_confirmed mem len i0 r i :
  decode_ipintercept_start mem len i0 = Ok (r, i) → i.(ip_awaitingconfirm) = 0 ∧ i.(ip_statics) = [].
Proof.
  unfold decode_ipintercept_start, decode_message.
  apply (decode_fields_keeps (λ i, i.(ip_awaitingconfirm) = 0 ∧ i.(ip_statics) = [])); [|done].
  intros f vallen valptr s s' Hs. unfold ipintercept_field, common_field. decode_cases.
Qed.
Lemma decoded_range_confirmed mem len r0 r x :
  decode_staticip_announcement mem len r0 = Ok (r, x) → x.(sr_awaitingconfirm) = 0.
Proof.
  unfold decode_staticip_announcement, decode_message.
  apply (decode_fields_keeps (λ x, x.(sr_awaitingconfirm) = 0)); [|done].
  intros f vallen valptr s s' Hs. unfold staticip_field. decode_cases.
Qed.

(** What the decoders make sure of. *)
Definition decoded_op (op : prov_op) : Prop :=
  match op with
  | P_start k i | P_modify k i => i.(ip_awaitingconfirm) = 0 ∧ i.(ip_statics) = []
  | P_add_range k r => r.(sr_awaitingconfirm) = 0
  | _ => True
  end.
Lemma means_decoded inp op : means inp op → decoded_op op.
Proof. intros []; try exact I; cbn; first [by eapply decoded_confirmed | by eapply decoded_range_confirmed]. Qed.

(** ** Reconnection *)

(** What the provisioner has said since it was connected again: the intercepts that are
    known, those among them that it announced, and the ranges that it announced for
    intercepts that were known. *)
Record announced : Type := Mkannounced {
  an_known : gset bytes;
  an_started : gset bytes;
  an_ranges : gset (bytes * bytes);
}.
Definition announce (x : announced) (op : prov_op) : announced :=
  match op with
  | P_start k _ => Mkannounced ({[k]} ∪ x.(an_known)) ({[k]} ∪ x.(an_started)) x.(an_ranges)
  | P_halt k => Mkannounced (x.(an_known) ∖ {[k]}) (x.(an_started) ∖ {[k]})
                  (filter (λ e, e.1 ≠ k) x.(an_ranges))
  | P_add_range k r =>
      if decide (k ∈ x.(an_known))
      then Mkannounced x.(an_known) x.(an_started) ({[(k, range_name r)]} ∪ x.(an_ranges)) else x
  | P_remove_range k r =>
      Mkannounced x.(an_known) x.(an_started) (x.(an_ranges) ∖ {[(k, range_name r)]})
  | _ => x
  end.
(** The messages of a provisioner that describes its configuration. *)
Definition describes (op : prov_op) : Prop :=
  match op with P_modify _ _ | P_disconnect | P_nomore => False | _ => True end.

(** A range that need not be confirmed any more. *)
Definition range_confirmed (i : ipintercept_t) (name : bytes) : Prop :=
  ∃ r, r ∈ i.(ip_statics) ∧ range_key r = Some name ∧ r.(sr_awaitingconfirm) = 0.
Record announced_inv (C : gmap bytes ipintercept_t) (x : announced) : Prop := {
  ai_known : dom C = x.(an_known);
  ai_sub : x.(an_started) ⊆ x.(an_known);
  ai_ranges : ∀ k name, (k, name) ∈ x.(an_ranges) → k ∈ x.(an_known);
  ai_started : ∀ k i, C !! k = Some i → i.(ip_awaitingconfirm) = 0 ↔ k ∈ x.(an_started);
  ai_confirmed : ∀ k i name, C !! k = Some i → range_confirmed i name ↔ (k, name) ∈ x.(an_ranges);
}.

Lemma confirmed_update i range f name :
  (∀ r, (f r).(sr_rangestr) = r.(sr_rangestr)) → (∀ r, (f r).(sr_awaitingconfirm) = r.(sr_awaitingconfirm)) →
  range_confirmed (update_static range f i) name ↔ range_confirmed i name.
Proof.
  intros Hf Ha. unfold range_confirmed, update_static. cbn. split.
  - intros (r & (r' & -> & Hin)%list_elem_of_fmap & Hk & H0). exists r'. split; [done|].
    unfold range_key in *. destruct (decide _); by rewrite ?Hf, ?Ha in *.
  - intros (r & Hin & Hk & H0). eexists. split; [by apply list_elem_of_fmap_2|].
    unfold range_key in *. cbn. destruct (decide _); by rewrite ?Hf, ?Ha.
Qed.
Lemma confirmed_delete i range name :
  range_confirmed (delete_static range i) name ↔ range_confirmed i name ∧ name ≠ range.
Proof.
  unfold range_confirmed, delete_static, range_key. cbn. setoid_rewrite list_elem_of_filter. split.
  - intros (r & [Hn Hin] & Hk & H0). split; [by exists r|congruence].
  - intros [(r & Hin & Hk & H0) Hn]. exists r. split_and!; try done. congruence.
Qed.
Lemma confirmed_range i k r name :
  range_ok k r → r.(sr_awaitingconfirm) = 0 →
  range_confirmed (confirm_range r i) name ↔ name = range_name r ∨ range_confirmed i name.
Proof.
  intros Hr H0. pose proof (range_name_key k r Hr) as Hkey. unfold confirm_range.
  destruct (find_static (range_name r) i) as [found|] eqn:Ef.
  - apply find_static_key in Ef as [Hin Hk]. unfold range_confirmed, update_static. cbn. split.
    + intros (x & (x' & -> & Hx)%list_elem_of_fmap & Hxk & Hx0).
      destruct (decide (until_nul <$> sr_rangestr x' = Some (range_name r))) as [E|_].
      * left. unfold range_key in Hxk. cbn in Hxk. congruence.
      * right. by exists x'.
    + intros [->|(x & Hx & Hxk & Hx0)].
      * eexists. split; [by apply list_elem_of_fmap_2|]. unfold range_key in *. cbn.
        rewrite decide_True by done. by split.
      * eexists. split; [by apply list_elem_of_fmap_2|]. unfold range_key in *. cbn.
        by destruct (decide _).
  - unfold range_confirmed. cbn. setoid_rewrite elem_of_app. setoid_rewrite list_elem_of_singleton. split.
    + intros (x & [Hx| ->] & Hxk & Hx0); [right; by exists x|left; congruence].
    + intros [->|(x & Hx & Hxk & Hx0)]; [exists r; by split_and!; [right| |]|exists x; by split_and!; [left| |]].
Qed.

(** An intercept that is replaced by one with the same standing. *)
Lemma announced_update C x k i i' :
  announced_inv C x → C !! k = Some i → (i'.(ip_awaitingconfirm) = 0 ↔ i.(ip_awaitingconfirm) = 0) →
  (∀ name, range_confirmed i' name ↔ range_confirmed i name) → announced_inv (<[k := i']> C) x.
Proof.
  intros [] Hk Ha Hr. split; try done.
  - rewrite dom_insert_L. apply elem_of_dom_2 in Hk. set_solver.
  - intros k' j. destruct (decide (k' = k)) as [->|].
    + rewrite lookup_insert_eq. intros [= <-]. rewrite Ha. eauto.
    + rewrite lookup_insert_ne by done. eauto.
  - intros k' j name. destruct (decide (k' = k)) as [->|].
    + rewrite lookup_insert_eq. intros [= <-]. rewrite Hr. eauto.
    + rewrite lookup_insert_ne by done. eauto.
Qed.
Lemma announced_started C x k i :
  announced_inv C x → i.(ip_awaitingconfirm) = 0 →
  (∀ name, range_confirmed i name ↔ (k, name) ∈ x.(an_ranges)) →
  announced_inv (<[k := i]> C) (Mkannounced ({[k]} ∪ x.(an_known)) ({[k]} ∪ x.(an_started)) x.(an_ranges)).
Proof.
  intros [] H0 Hr. split; cbn.
  - by rewrite dom_insert_L, ai_known0.
  - set_solver.
  - set_solver.
  - intros k' j. destruct (decide (k' = k)) as [->|].
    + rewrite lookup_insert_eq. intros [= <-]. set_solver.
    + rewrite lookup_insert_ne by done. intros Hj. rewrite (ai_started0 k' j Hj). set_solver.
  - intros k' j name. destruct (decide (k' = k)) as [->|].
    + rewrite lookup_insert_eq. intros [= <-]. apply Hr.
    + rewrite lookup_insert_ne by done. eauto.
Qed.

Lemma announced_ranges C x k i i' X :
  announced_inv C x → C !! k = Some i → i'.(ip_awaitingconfirm) = i.(ip_awaitingconfirm) →
  (∀ name, range_confirmed i' name ↔ (k, name) ∈ X) →
  (∀ k' name, k' ≠ k → (k', name) ∈ X ↔ (k', name) ∈ x.(an_ranges)) →
  announced_inv (<[k := i']> C) (Mkannounced x.(an_known) x.(an_started) X).
Proof.
  intros [] Hk Ha Hr Hn. split; cbn; try done.
  - rewrite dom_insert_L. apply elem_of_dom_2 in Hk. set_solver.
  - intros k' name Hin. destruct (decide (k' = k)) as [->|]; [rewrite <- ai_known0; by eapply elem_of_dom_2|].
    eapply ai_ranges0. by apply Hn.
  - intros k' j. destruct (decide (k' = k)) as [->|].
    + rewrite lookup_insert_eq. intros [= <-]. rewrite Ha. eauto.
    + rewrite lookup_insert_ne by done. eauto.
  - intros k' j name. destruct (decide (k' = k)) as [->|Hne].
    + rewrite lookup_insert_eq. intros [= <-]. apply Hr.
    + rewrite lookup_insert_ne, (Hn k' name Hne) by done. eauto.
Qed.
Lemma announced_halted C x k :
  announced_inv C x → announced_inv (delete k C) (announce x (P_halt k)).
Proof.
  intros []. split; cbn.
  - by rewrite dom_delete_L, ai_known0.
  - set_solver.
  - intros k' name. rewrite elem_of_filter. cbn. intros [Hne Hin]. apply elem_of_difference.
    split; [by eapply ai_ranges0|set_solver].
  - intros k' j [Hne Hj]%lookup_delete_Some. rewrite (ai_started0 k' j Hj). set_solver.
  - intros k' j name [Hne Hj]%lookup_delete_Some. rewrite (ai_confirmed0 k' j name Hj), elem_of_filter. cbn.
    split; [by split|by intros []].
Qed.

Lemma announced_step n S x op :
  announced_inv S.(sp_cepts) x → describes op → decoded_op op → op_ok S op →
  announced_inv (spec_step n S op).(sp_cepts) (announce x op).
Proof.
  intros Hinv Hd Hdec Hop. pose proof Hinv as []. destruct op; try done; cbn [spec_step sp_cepts spec_cepts announce].
  - destruct Hdec as [H0 Hst]. destruct (sp_cepts S !! k) as [old|] eqn:E; cbn.
    + apply announced_started; [done..|]. intros name. rewrite <- (ai_confirmed0 k old name E). done.
    + apply announced_started; [done..|]. intros name. split.
      * intros (r & Hin & _). cbn in Hin. rewrite Hst in Hin. by apply not_elem_of_nil in Hin.
      * intros Hin%ai_ranges0. rewrite <- ai_known0 in Hin. by apply not_elem_of_dom in E.
  - destruct (sp_cepts S !! k) eqn:E; cbn; [by apply announced_halted|].
    rewrite <- (delete_id (sp_cepts S) k) by done. by apply announced_halted.
  - destruct Hop as [_ Hr]. destruct (sp_cepts S !! k) as [i|] eqn:E; cbn.
    + rewrite decide_True by (rewrite <- ai_known0; by eapply elem_of_dom_2).
      eapply announced_ranges; [done..| | |].
      * unfold confirm_range. by destruct (find_static _ _).
      * intros name. rewrite (confirmed_range i k) by done. rewrite (ai_confirmed0 k i name E). set_solver.
      * set_solver.
    + rewrite decide_False; [done|]. rewrite <- ai_known0. by apply not_elem_of_dom.
  - destruct (sp_cepts S !! k) as [i|] eqn:E; cbn; [|done].
    eapply announced_update; [done..|]. intros name. by apply confirmed_update.
  - destruct (sp_cepts S !! k) as [i|] eqn:E; cbn.
    + eapply announced_ranges; [done..| |].
      * intros name. rewrite confirmed_delete, (ai_confirmed0 k i name E). set_solver.
      * set_solver.
    + split; cbn; try done; [set_solver|]. intros k' j name Hj. rewrite (ai_confirmed0 k' j name Hj).
      assert (k' ≠ k) by congruence. set_solver.
Qed.
Lemma announced_run n ops S x :
  announced_inv S.(sp_cepts) x → Forall describes ops → Forall decoded_op ops → ops_ok n S ops →
  announced_inv (spec_run n S ops).(sp_cepts) (foldl announce x ops).
Proof.
  revert S x. induction ops as [|op ops IH]; intros S x Hx Hd Hdec Hok; [done|].
  inversion_clear Hd. inversion_clear Hdec. destruct Hok. apply IH; [|done..]. by apply announced_step.
Qed.

(** Nothing is confirmed when the connection is lost. *)
Lemma announced_none n S :
  announced_inv (spec_step n S P_disconnect).(sp_cepts) (Mkannounced (dom S.(sp_cepts)) ∅ ∅).
Proof.
  split; cbn.
  - apply dom_fmap_L.
  - set_solver.
  - set_solver.
  - intros k i Hk. rewrite lookup_fmap in Hk. apply fmap_Some in Hk as (j & _ & ->). by split; [|set_solver].
  - intros k i name Hk. rewrite lookup_fmap in Hk. apply fmap_Some in Hk as (j & _ & ->). split; [|set_solver].
    intros (r & Hin & _ & H0). cbn in Hin. apply list_elem_of_fmap in Hin as (r' & -> & _). done.
Qed.
(** What is confirmed stays. *)
Lemma settled n S x :
  announced_inv S.(sp_cepts) x →
  let S' := spec_step n S P_nomore in
  dom S'.(sp_cepts) = x.(an_started) ∧
  (∀ k i name, S'.(sp_cepts) !! k = Some i →
     (∃ r, r ∈ i.(ip_statics) ∧ range_key r = Some name) ↔ (k, name) ∈ x.(an_ranges)).
Proof.
  intros []. cbn. split.
  - apply set_eq. intros k. rewrite elem_of_dom, lookup_omap. unfold settle. split.
    + intros [i (j & Hj & E)%bind_Some]. destruct (Z.eqb_spec j.(ip_awaitingconfirm) 0); [|done].
      by apply (ai_started0 k j).
    + intros Hk. assert (Hk' : k ∈ dom (sp_cepts S)) by set_solver. apply elem_of_dom in Hk' as [j Hj].
      rewrite Hj. cbn. rewrite (proj2 (ai_started0 k j Hj) Hk). by eexists.
  - intros k i name. rewrite lookup_omap. intros (j & Hj & E)%bind_Some. unfold settle in E.
    destruct (_ =? 0); [|done]. injection E as <-. cbn. rewrite <- (ai_confirmed0 k j name Hj).
    unfold range_confirmed. setoid_rewrite list_elem_of_filter. naive_solver.
Qed.

Lemma spec_run_app n S ops ops' : spec_run n S (ops ++ ops') = spec_run n (spec_run n S ops) ops'.
Proof. apply foldl_app. Qed.
Lemma ops_ok_app n S ops ops' : ops_ok n S (ops ++ ops') ↔ ops_ok n S ops ∧ ops_ok n (spec_run n S ops) ops'.
Proof. revert S. induction ops as [|op ops IH]; intros S; cbn; [tauto|]. rewrite IH. unfold spec_run. cbn. tauto. Qed.
Lemma means_all_decoded l ops : Forall2 means l ops → Forall decoded_op ops.
Proof. induction 1; constructor; [by eapply means_decoded|done]. Qed.

Section reconnect.
Context {G Pkt : Type} (p : access_plugin G Pkt).
Context (ascii2prefix : bytes → option prefix_t).

(** C13: When the connection to the provisioner is lost and made again, and the provisioner
    describes its configuration and says that there is no more, then what the thread keeps
    are exactly the intercepts that were announced since (and not halted), each with
    exactly the static ranges that were announced for it since; and those intercepts are
    exactly the ones that the sequence trackers were told to track.  The messages are those
    about IP intercepts, ranges, servers and default RADIUS users ([means]), and an intercept
    that is announced while it is known has a user and keeps it ([ops_ok]): with another
    target the source would read a freed user name. *)
Theorem reconnection_keeps_announced l before ops (s : collector_sync_t G) :
  let n := s.(sy_conn).(pn_pubsockcount) in
  let x := foldl announce (Mkannounced (dom (spec_run n no_spec before).(sp_cepts)) ∅ ∅) ops in
  let all := before ++ P_disconnect :: ops ++ [P_nomore] in
  fresh_sync s → sessions_ready p s → times_from 1 l →
  Forall2 means l.*2 all → ops_ok n no_spec all → Forall describes ops →
  ∃ rs s', run_inputs p ascii2prefix l s = Ok (rs, s') ∧
    dom (tables_view s'.(sy_prov)).(sp_cepts) = x.(an_started) ∧
    (∀ k i name, (tables_view s'.(sy_prov)).(sp_cepts) !! k = Some i →
       (∃ r, r ∈ i.(ip_statics) ∧ range_key r = Some name) ↔ (k, name) ∈ x.(an_ranges)) ∧
    (∀ k, (∃ tr, k ∈ known tr s'.(sy_out)) ↔ k ∈ x.(an_started)).
Proof.
  intros n x all Hf Hr Ht Hm Hok Hd.
  destruct (run_inputs_refine p ascii2prefix 1 l all s no_spec) as (s' & E & Href & _);
    [by apply fresh_refines|done|lia|done..|].
  eexists _, s'. split; [exact E|]. fold n in Href. pose proof (means_all_decoded _ _ Hm) as Hdec.
  unfold all in Hok, Hdec, Href. apply ops_ok_app in Hok as [_ [_ Hok]].
  apply ops_ok_app in Hok as [Hok _]. apply Forall_app in Hdec as [_ [_ Hdec]%Forall_cons].
  apply Forall_app in Hdec as [Hdec _]. rewrite spec_run_app in Href. cbn [spec_run foldl] in Href.
  rewrite foldl_app in Href. cbn [foldl] in Href.
  pose proof (announced_run n ops _ _ (announced_none n (spec_run n no_spec before)) Hd Hdec Hok) as Hx.
  destruct (settled n _ _ Hx) as [Hdom Hranges]. rewrite (refines_view _ _ _ Href).
  split; [exact Hdom|]. split; [exact Hranges|]. intros k. subst x. rewrite <- Hdom, elem_of_dom. split.
  - intros [tr (i & Hk & _)%(refines_known _ _ _ tr k Href)]. by exists i.
  - intros [i Hk]. exists i.(ip_common).(ic_seqtrackerid). apply (refines_known _ _ _ _ k Href). by exists i.
Qed.
End reconnect.

(** ** A provisioner that comes back *)

(** Intercepts for a user, as the provisioner sends them. *)
Definition wire_cept (liid user : string) : ipintercept_t :=
  set_ip_username (Some (of_string user))
    (set_ip_common (set_ic_liid (Some (of_string liid)) sample_common) sample_intercept).
Definition cept_message (i : ipintercept_t) : bytes := wire_body (ip_fields i).
Definition wire_range (range : string) : static_ipranges_t :=
  Mkstatic_ipranges_t (Some (of_string range)) (Some (of_string "LI1")) 7 0.
Definition range_message (range : string) : bytes :=
  wire_body (static_fields (wire_cept "LI1" "alice") (wire_range range)).

(** What the thread makes of them. *)
Definition heard_cept (i : ipintercept_t) : ipintercept_t :=
  match decode_ipintercept_start (cept_message i) (zlen (cept_message i)) no_intercept with
  | Ok (_, j) => j | _ => no_intercept
  end.
Definition heard_range (range : string) : static_ipranges_t :=
  match decode_staticip_announcement (range_message range) (zlen (range_message range)) no_static with
  | Ok (_, r) => r | _ => no_static
  end.

Definition say (now : Z) (t : openli_proto_msgtype_t) (m : bytes) : Z * prov_input :=
  (now, In_message t m (zlen m)).
Definition say_cept now t liid user := say now t (cept_message (wire_cept liid user)).

(** Two intercepts with a range each; the connection is lost; the first intercept and
    another range for it are announced again, and an intercept that is then withdrawn. *)
Definition sample_inputs : list (Z * prov_input) :=
  [say_cept 10 OPENLI_PROTO_START_IPINTERCEPT "LI1" "alice";
   say 10 OPENLI_PROTO_ADD_STATICIPS (range_message "192.0.2.0/24");
   say_cept 10 OPENLI_PROTO_START_IPINTERCEPT "LI2" "brian";
   (20, In_disconnect false);
   say_cept 30 OPENLI_PROTO_START_IPINTERCEPT "LI1" "alice";
   say 30 OPENLI_PROTO_ADD_STATICIPS (range_message "192.0.3.0/24");
   say_cept 31 OPENLI_PROTO_START_IPINTERCEPT "LI3" "clare";
   say_cept 32 OPENLI_PROTO_HALT_IPINTERCEPT "LI3" "clare";
   say 33 OPENLI_PROTO_NOMORE_INTERCEPTS []].
Definition start_op (liid user : string) : prov_op :=
  P_start (of_string liid) (heard_cept (wire_cept liid user)).
Definition sample_before : list prov_op :=
  [start_op "LI1" "alice"; P_add_range (of_string "LI1") (heard_range "192.0.2.0/24"); start_op "LI2" "brian"].
Definition sample_again : list prov_op :=
  [start_op "LI1" "alice"; P_add_range (of_string "LI1") (heard_range "192.0.3.0/24");
   start_op "LI3" "clare"; P_halt (of_string "LI3")].

Definition no_config_sync : collector_sync_t radius_global_t :=
  Mkcollector_sync_t empty_plugin (Mksession_store ∅ 0) [] [] (no_tables 0) sample_conn [1; 2] [].
Definition some_prefix (b : bytes) : option prefix_t := Some (Mkprefix_t 2 24 [192; 0; 2; 0]).

Ltac solve_means :=
  match goal with
  | |- means (In_message _ _ _) (P_start _ _) => eapply means_start
  | |- means (In_message _ _ _) (P_halt _) => apply (means_halt _ _ _ (heard_cept (wire_cept "LI3" "clare")))
  | |- means (In_message _ _ _) (P_add_range _ _) => eapply means_add_range
  | |- means (In_message _ _ _) P_nomore => apply (means_nomore _ _ [])
  | |- means (In_disconnect _) _ => apply means_disconnect
  end; by vm_compute.
Ltac solve_cept_ok :=
  match goal with
  | |- cept_ok _ ?i => let j := eval vm_compute in i in replace i with j by (by vm_compute)
  end;
  split; cbn; first [apply Forall_nil; exact I | apply NoDup_nil; exact I | by vm_compute].
Ltac solve_op_ok :=
  lazymatch goal with
  | |- op_ok _ (P_start _ _) =>
      split; [solve_cept_ok|]; let old := fresh "old" in intros old; vm_compute;
      first [by intros [=] | intros [= <-]; split; [by eexists|done]]
  | |- op_ok _ (P_add_range _ _) => split; [|split; [|eexists]]; by vm_compute
  | |- _ => exact I
  end.

Lemma sample_inputs_mean :
  Forall2 means sample_inputs.*2 (sample_before ++ P_disconnect :: sample_again ++ [P_nomore]).
Proof.
  unfold sample_inputs, sample_before, sample_again, say_cept, say, start_op. cbn [fmap list_fmap snd app].
  repeat (apply Forall2_cons; split); try apply Forall2_nil_2; solve_means.
Defined.
Lemma sample_ops_ok : ops_ok 1 no_spec (sample_before ++ P_disconnect :: sample_again ++ [P_nomore]).
Proof.
  unfold sample_before, sample_again, start_op. cbn [app ops_ok]. split_and!; solve_op_ok.
Defined.
Lemma no_config_ready : sessions_ready radius_plugin no_config_sync.
Proof. by intros u Hu%not_elem_of_nil. Defined.
Lemma no_config_fresh : fresh_sync no_config_sync.
Proof. by split. Defined.

(** The first three messages: both intercepts are entered. *)
Lemma provisioner_config_refined_witness :
  ∃ s', run_inputs radius_plugin some_prefix (take 3 sample_inputs) no_config_sync = Ok ([1; 1; 1], s') ∧
    tables_view s'.(sy_prov) = spec_run 1 no_spec sample_before ∧
    (∀ u k, user_liids u s'.(sy_prov) k ↔
       ∃ i, (spec_run 1 no_spec sample_before).(sp_cepts) !! k = Some i ∧ i.(ip_username) = Some u) ∧
    (∀ tr k, k ∈ known tr s'.(sy_out) ↔
       ∃ i, (spec_run 1 no_spec sample_before).(sp_cepts) !! k = Some i ∧ i.(ip_common).(ic_seqtrackerid) = tr).
Proof.
  apply (provisioner_config_refined radius_plugin some_prefix (take 3 sample_inputs) sample_before no_config_sync).
  - apply no_config_fresh.
  - apply no_config_ready.
  - by vm_compute.
  - apply (Forall2_take _ _ _ 3 sample_inputs_mean).
  - exact (proj1 (proj1 (ops_ok_app 1 no_spec sample_before _) sample_ops_ok)).
Defined.

(** All of them: only the first intercept is left, with the second range. *)
Definition sample_announced : announced :=
  foldl announce (Mkannounced (dom (spec_run 1 no_spec sample_before).(sp_cepts)) ∅ ∅) sample_again.
Lemma sample_announced_value :
  elements sample_announced.(an_started) = [of_string "LI1"] ∧
  elements sample_announced.(an_ranges) = [(of_string "LI1", of_string "192.0.3.0/24")].
Proof. split; by vm_compute. Qed.
Lemma reconnection_keeps_announced_witness :
  ∃ rs s', run_inputs radius_plugin some_prefix sample_inputs no_config_sync = Ok (rs, s') ∧
    dom (tables_view s'.(sy_prov)).(sp_cepts) = sample_announced.(an_started) ∧
    (∀ k i name, (tables_view s'.(sy_prov)).(sp_cepts) !! k = Some i →
       (∃ r, r ∈ i.(ip_statics) ∧ range_key r = Some name) ↔ (k, name) ∈ sample_announced.(an_ranges)) ∧
    (∀ k, (∃ tr, k ∈ known tr s'.(sy_out)) ↔ k ∈ sample_announced.(an_started)).
Proof.
  apply (reconnection_keeps_announced radius_plugin some_prefix sample_inputs sample_before sample_again no_config_sync).
  - apply no_config_fresh.
  - apply no_config_ready.
  - by vm_compute.
  - apply sample_inputs_mean.
  - apply sample_ops_ok.
  - repeat (apply Forall_cons; split; [exact I|]). apply Forall_nil, I.
Defined.
