(* ===== verification/Provisioner.v ===== *)
(** * The provisioner's clients and what they are told
      (src/src/provisioner/clientupdates.c, provisioner_client.c, intercept_timers.c)

    The provisioner keeps a connection to every collector and mediator.  A change of the
    configuration is pushed onto the outgoing buffer of every client that has
    authenticated; a client that cannot be told is disconnected, and asks for everything
    when it comes back.  Agencies are told about intercepts through HI1 notifications of
    their mediators; when an intercept has a start or an end time, timers send them.

    The functions get a pointer to the common part of an intercept; here it is passed in
    with its [local] data and passed back ([hi1_cept]).  The kernel is a number of
    arguments: whether a descriptor can be changed in or removed from the epoll set, and
    the descriptor of a new timer; so is the time of day. *)

From stdpp Require Import gmap.
From S2P Require Import Prelude Protocol Intercept NetBuffer NetPush Publish Radius HashTable SyncSessions SyncIntercepts.

(** ** Clients *)

Inductive prov_role : Type := PROV_EPOLL_COLLECTOR | PROV_EPOLL_MEDIATOR.
#[global] Instance prov_role_eq_dec : EqDecision prov_role.
Proof. solve_decision. Defined.

(** [prov_sock_state_t]; the flags for logging are left out. *)
Record prov_sock_state_t : Type := Mkprov_sock_state_t {
  so_trusted : bool;
  so_halted : bool;
  so_clientrole : prov_role;
  so_incoming : option net_buffer_t;
  so_outgoing : option net_buffer_t;
}.
(** The epoll event of a connection: its descriptor, and whether the TLS handshake is
    still going on ([fdtype]). *)
Record prov_comm_t : Type := Mkprov_comm_t { cm_fd : Z; cm_handshake : bool }.
(** [prov_client_t]; the two timers are there or not. *)
Record prov_client_t : Type := Mkprov_client_t {
  cl_commev : option prov_comm_t;
  cl_authev : bool;
  cl_idletimer : bool;
  cl_ssl : bool;
  cl_state : option prov_sock_state_t;
}.
Record prov_mediator_t : Type := Mkprov_mediator_t {
  pm_client : option prov_client_t;
  pm_details : openli_mediator_t;
}.

Definition set_so_outgoing (nb : option net_buffer_t) (s : prov_sock_state_t) : prov_sock_state_t :=
  Mkprov_sock_state_t s.(so_trusted) s.(so_halted) s.(so_clientrole) s.(so_incoming) nb.
Definition set_cl_state (s : option prov_sock_state_t) (c : prov_client_t) : prov_client_t :=
  Mkprov_client_t c.(cl_commev) c.(cl_authev) c.(cl_idletimer) c.(cl_ssl) s.

(** What becomes of the socket state when the connection is closed. *)
Definition halted_sock (s : prov_sock_state_t) : prov_sock_state_t :=
  Mkprov_sock_state_t false true s.(so_clientrole) None None.

(** [disconnect_provisioner_client] with [halt_provisioner_client_mainfd] and the functions
    for the two timers.  The role is read from the socket state, which must be there. *)
Definition disconnect_provisioner_client (c : prov_client_t) : outcome prov_client_t :=
  s ← deref c.(cl_state);
  Ok (Mkprov_client_t None false
        (if decide (s.(so_clientrole) = PROV_EPOLL_MEDIATOR) then false else true)
        false (Some (halted_sock s))).

(** ** Intercepts as the provisioner has them *)

(** [prov_intercept_data_t]; a timer is the descriptor in its epoll event. *)
Record prov_intercept_data_t : Type := Mkprov_intercept_data_t {
  pd_start_timer : option Z;
  pd_end_timer : option Z;
  pd_start_hi1_sent : bool;
  pd_end_hi1_sent : bool;
}.
#[global] Instance prov_intercept_data_eq_dec : EqDecision prov_intercept_data_t.
Proof. solve_decision. Defined.
(** The common part of an intercept with what its [local] points to. *)
Record hi1_cept : Type := Mkhi1_cept {
  hc_common : intercept_common_t;
  hc_local : option prov_intercept_data_t;
}.

Definition set_pd_start_timer (v : option Z) (d : prov_intercept_data_t) : prov_intercept_data_t :=
  Mkprov_intercept_data_t v d.(pd_end_timer) d.(pd_start_hi1_sent) d.(pd_end_hi1_sent).
Definition set_pd_end_timer (v : option Z) (d : prov_intercept_data_t) : prov_intercept_data_t :=
  Mkprov_intercept_data_t d.(pd_start_timer) v d.(pd_start_hi1_sent) d.(pd_end_hi1_sent).
Definition set_pd_start_hi1_sent (v : bool) (d : prov_intercept_data_t) : prov_intercept_data_t :=
  Mkprov_intercept_data_t d.(pd_start_timer) d.(pd_end_timer) v d.(pd_end_hi1_sent).
Definition set_pd_end_hi1_sent (v : bool) (d : prov_intercept_data_t) : prov_intercept_data_t :=
  Mkprov_intercept_data_t d.(pd_start_timer) d.(pd_end_timer) d.(pd_start_hi1_sent) v.
Definition set_hc_local (v : option prov_intercept_data_t) (h : hi1_cept) : hi1_cept :=
  Mkhi1_cept h.(hc_common) v.
Definition set_hc_common (v : intercept_common_t) (h : hi1_cept) : hi1_cept :=
  Mkhi1_cept v h.(hc_local).

Record prov_agency_t : Type := Mkprov_agency_t {
  pa_ag : liagency_t;
  pa_announcereq : Z;
}.
(** An intercept in a table; [pt_name_freed]: the memory of its user name was freed. *)
Record prov_cept (A : Type) : Type := Mkprov_cept {
  pt_cept : A;
  pt_local : option prov_intercept_data_t;
  pt_name_freed : bool;
}.
Arguments Mkprov_cept {A} _ _ _.
Arguments pt_cept {A} _.
Arguments pt_local {A} _.
Arguments pt_name_freed {A} _.

(** [prov_intercept_conf_t] without the lock; [cf_liid_map] maps LIIDs to agencies. *)
Record prov_intercept_conf_t : Type := Mkprov_intercept_conf_t {
  cf_radiusservers : list (bytes * coreserver_t);
  cf_gtpservers : list (bytes * coreserver_t);
  cf_sipservers : list (bytes * coreserver_t);
  cf_smtpservers : list (bytes * coreserver_t);
  cf_imapservers : list (bytes * coreserver_t);
  cf_pop3servers : list (bytes * coreserver_t);
  cf_voipintercepts : list (bytes * prov_cept voipintercept_t);
  cf_ipintercepts : list (bytes * prov_cept ipintercept_t);
  cf_emailintercepts : list (bytes * prov_cept emailintercept_t);
  cf_leas : list (bytes * prov_agency_t);
  cf_liid_map : list (bytes * bytes);
  cf_defradusers : list (bytes * default_radius_user_t);
  cf_default_email_deliver_compress : Z;
}.
Record provision_state_t : Type := Mkprovision_state_t {
  ps_collectors : list (bytes * option prov_client_t);
  ps_mediators : list (Z * prov_mediator_t);
  ps_interceptconf : prov_intercept_conf_t;
  ps_ignorertpcomfort : Z;
  ps_pendingclients : list (bytes * prov_client_t);
  ps_knownmeds : list (bytes * Z);
}.

Definition set_cf_liid_map (v : list (bytes * bytes)) (c : prov_intercept_conf_t)
    : prov_intercept_conf_t :=
  Mkprov_intercept_conf_t c.(cf_radiusservers) c.(cf_gtpservers) c.(cf_sipservers)
    c.(cf_smtpservers) c.(cf_imapservers) c.(cf_pop3servers) c.(cf_voipintercepts)
    c.(cf_ipintercepts) c.(cf_emailintercepts) c.(cf_leas) v c.(cf_defradusers)
    c.(cf_default_email_deliver_compress).
Definition set_ps_collectors (v : list (bytes * option prov_client_t)) (s : provision_state_t) : provision_state_t :=
  Mkprovision_state_t v s.(ps_mediators) s.(ps_interceptconf) s.(ps_ignorertpcomfort)
    s.(ps_pendingclients) s.(ps_knownmeds).
Definition set_ps_mediators (v : list (Z * prov_mediator_t)) (s : provision_state_t) : provision_state_t :=
  Mkprovision_state_t s.(ps_collectors) v s.(ps_interceptconf) s.(ps_ignorertpcomfort)
    s.(ps_pendingclients) s.(ps_knownmeds).
Definition set_ps_interceptconf (v : prov_intercept_conf_t) (s : provision_state_t) : provision_state_t :=
  Mkprovision_state_t s.(ps_collectors) s.(ps_mediators) v s.(ps_ignorertpcomfort)
    s.(ps_pendingclients) s.(ps_knownmeds).
Definition set_ps_pendingclients (v : list (bytes * prov_client_t)) (s : provision_state_t) : provision_state_t :=
  Mkprovision_state_t s.(ps_collectors) s.(ps_mediators) s.(ps_interceptconf) s.(ps_ignorertpcomfort)
    v s.(ps_knownmeds).
Definition set_ps_knownmeds (v : list (bytes * Z)) (s : provision_state_t) : provision_state_t :=
  Mkprovision_state_t s.(ps_collectors) s.(ps_mediators) s.(ps_interceptconf) s.(ps_ignorertpcomfort)
    s.(ps_pendingclients) v.
Definition set_ps_ignorertpcomfort (v : Z) (s : provision_state_t) : provision_state_t :=
  Mkprovision_state_t s.(ps_collectors) s.(ps_mediators) s.(ps_interceptconf) v
    s.(ps_pendingclients) s.(ps_knownmeds).

(** [strcmp(a, b) != 0] *)
Definition str_differ (a b : cstring) : outcome bool :=
  x ← c_str a; y ← c_str b; Ok (bool_decide (x ≠ y)).

Inductive hi1_notify_t : Type := HI1_LI_ACTIVATED | HI1_LI_DEACTIVATED | HI1_LI_MODIFIED | HI1_ALARM.
#[global] Instance hi1_notify_eq_dec : EqDecision hi1_notify_t.
Proof. solve_decision. Defined.
Definition hi1_code (t : hi1_notify_t) : Z :=
  match t with HI1_LI_ACTIVATED => 1 | HI1_LI_DEACTIVATED => 2 | HI1_LI_MODIFIED => 3 | HI1_ALARM => 4 end.

(** [liid] of "pcapdisk", the agency that needs no definition. *)
Definition pcapdisk : bytes := of_string "pcapdisk".

Section clients.
Context (realloc_ok : Z → bool) (noret : Z).
Context (epoll_mod epoll_del : Z → bool) (epoll_add_timer : Z → Z).
Context (now usec : Z).
Abbreviation M := (ST provision_state_t).

Definition get : M provision_state_t := λ s, Ok (s, s).
Definition modify (f : provision_state_t → provision_state_t) : M unit := λ s, Ok (tt, f s).

(** ** Telling every client *)

(** [enable_epoll_write] *)
Definition enable_epoll_write (fd : Z) : Z :=
  if fd =? -1 then 0 else if epoll_mod fd then 0 else -1.

(** The body of the loops [SEND_ALL_COLLECTORS] and [SEND_ALL_MEDIATORS] for one client.
    [failed] is the test that the particular caller makes on the result of its push. *)
Definition send_client (push : pusher) (failed : Z → bool) (o : option prov_client_t)
    : outcome (option prov_client_t) :=
  match o with
  | None => Ok None
  | Some c =>
      match c.(cl_commev) with
      | None => Ok (Some c)
      | Some ev =>
          sock ← deref c.(cl_state);
          if negb sock.(so_trusted) || sock.(so_halted) then Ok (Some c) else
          nb ← deref sock.(so_outgoing);
          '(r, nb') ← push nb;
          let c' := set_cl_state (Some (set_so_outgoing (Some nb') sock)) c in
          if failed r then Some <$> disconnect_provisioner_client c'
          else if enable_epoll_write ev.(cm_fd) =? -1 then Some <$> disconnect_provisioner_client c'
          else Ok (Some c')
      end
  end.

(** A loop that changes the entries of a table. *)
Fixpoint map_entries {K V} (f : V → outcome V) (l : list (K * V)) : outcome (list (K * V)) :=
  match l with
  | [] => Ok []
  | (k, v) :: l => v' ← f v; l' ← map_entries f l; Ok ((k, v') :: l')
  end.

Definition send_all_collectors (push : pusher) (failed : Z → bool) : M unit := λ s,
  l ← map_entries (send_client push failed) s.(ps_collectors);
  Ok (tt, set_ps_collectors l s).
Definition send_mediator (push : pusher) (failed : Z → bool) (m : prov_mediator_t) : outcome prov_mediator_t :=
  c ← send_client push failed m.(pm_client); Ok (Mkprov_mediator_t c m.(pm_details)).
Definition send_all_mediators (push : pusher) (failed : Z → bool) : M unit := λ s,
  l ← map_entries (send_mediator push failed) s.(ps_mediators);
  Ok (tt, set_ps_mediators l s).

(** The two tests: [== -1] and [< 0]. *)
Definition is_minus_one (r : Z) : bool := r =? -1.
Definition is_negative (r : Z) : bool := r <? 0.

(** ** Announcements *)

Definition announce_lea_to_mediators (lea : prov_agency_t) : M Z :=
  _ ← send_all_mediators (push_lea_onto_net_buffer realloc_ok lea.(pa_ag)) is_minus_one; mret 0.
Definition withdraw_agency_from_mediators (lea : prov_agency_t) : M Z :=
  _ ← send_all_mediators (push_lea_withdrawal_onto_net_buffer realloc_ok lea.(pa_ag)) is_minus_one; mret 0.

Definition announce_default_radius_username (raduser : default_radius_user_t) : M Z :=
  _ ← send_all_collectors (push_default_radius_onto_net_buffer realloc_ok raduser) is_negative; mret 0.
Definition withdraw_default_radius_username (raduser : default_radius_user_t) : M Z :=
  _ ← send_all_collectors (push_default_radius_withdraw_onto_net_buffer realloc_ok raduser) is_negative;
  mret 0.

Definition add_new_staticip_range (ipint : ipintercept_t) (ipr : static_ipranges_t) : M unit :=
  send_all_collectors (push_static_ipranges_onto_net_buffer realloc_ok ipint (Some ipr)) is_negative.
Definition modify_existing_staticip_range (ipint : ipintercept_t) (ipr : static_ipranges_t) : M unit :=
  send_all_collectors (push_static_ipranges_modify_onto_net_buffer realloc_ok ipint (Some ipr)) is_negative.
Definition remove_existing_staticip_range (ipint : ipintercept_t) (ipr : static_ipranges_t) : M unit :=
  send_all_collectors (push_static_ipranges_removal_onto_net_buffer realloc_ok ipint (Some ipr)) is_negative.

Definition halt_existing_intercept (cept : intercept_data) (wdtype : openli_proto_msgtype_t) : M Z :=
  _ ← send_all_collectors (push_intercept_withdrawal_onto_net_buffer realloc_ok cept wdtype) is_minus_one;
  mret 0.
Definition modify_existing_intercept_options (cept : intercept_data)
    (modtype : openli_proto_msgtype_t) : M Z :=
  _ ← send_all_collectors (push_intercept_modify_onto_net_buffer realloc_ok noret cept modtype) is_minus_one;
  mret 0.
Definition disconnect_mediators_from_collectors : M Z :=
  _ ← send_all_collectors (push_disconnect_mediators_onto_net_buffer realloc_ok) is_minus_one; mret 0.

Definition announce_coreserver_change (cs : coreserver_t) (isnew : bool) : M Z :=
  _ ← send_all_collectors
        (if isnew then push_coreserver_onto_net_buffer realloc_ok cs cs.(cs_servertype)
         else push_coreserver_withdraw_onto_net_buffer realloc_ok cs cs.(cs_servertype)) is_minus_one;
  mret 0.
Definition announce_email_target_change (target : email_target_t) (mailint : emailintercept_t)
    (isnew : bool) : M Z :=
  _ ← send_all_collectors
        (if isnew then push_email_target_onto_net_buffer realloc_ok target mailint
         else push_email_target_withdrawal_onto_net_buffer realloc_ok target mailint) is_minus_one;
  mret 0.
Definition announce_sip_target_change (sipid : openli_sip_identity_t) (vint : voipintercept_t)
    (isnew : bool) : M Z :=
  _ ← send_all_collectors
        (if isnew then push_sip_target_onto_net_buffer realloc_ok sipid vint
         else push_sip_target_withdrawal_onto_net_buffer realloc_ok sipid vint) is_minus_one;
  mret 0.

(** [announce_single_intercept]; [sendfunc] with the intercept it is called with. *)
Definition announce_single_intercept (sendfunc : pusher) : M Z :=
  _ ← send_all_collectors sendfunc is_minus_one; mret 0.
Definition announce_latest_default_email_decompress : M Z :=
  s ← get;
  _ ← send_all_collectors (push_default_email_compression_onto_net_buffer realloc_ok
        s.(ps_interceptconf).(cf_default_email_deliver_compress)) is_minus_one;
  mret 0.

(** A loop that changes the elements and a variable, and returns when the body is
    negative. *)
Fixpoint fold_until {A B} (f : A → B → M (Z * A * B)) (l : list A) (b : B) : M (Z * list A * B) :=
  match l with
  | [] => mret (0, [], b)
  | x :: l =>
      '(r, x', b') ← f x b;
      if r <? 0 then mret (r, x' :: l, b') else
      '(r', l', b'') ← fold_until f l b';
      mret (r', x' :: l', b'')
  end.

(** The loops of [announce_all_sip_targets] and the functions like it. *)
Definition each_target {A} (cond : A → bool) (announce : A → M Z) (done : A → A) (l : list A)
    : M (Z * list A) :=
  '(r, l', _) ← fold_until (λ x (_ : unit),
      r ← (if cond x then announce x else mret 0);
      mret (if r <? 0 then (-1, x, tt) else (0, done x, tt))) l tt;
  mret (r, l').

Definition announce_all_sip_targets (vint : voipintercept_t) : M (Z * voipintercept_t) :=
  '(r, l) ← each_target (λ sipid, negb (sipid.(si_awaitingconfirm) =? 0))
              (λ sipid, announce_sip_target_change sipid vint true)
              (set_si_awaitingconfirm 0) vint.(vi_targets);
  mret (r, set_vi_targets l vint).
Definition announce_all_email_targets (mailint : emailintercept_t) : M (Z * emailintercept_t) :=
  '(r, l) ← each_target (λ tgt, negb (tgt.(et_awaitingconfirm) =? 0))
              (λ tgt, announce_email_target_change tgt mailint true)
              (set_et_awaitingconfirm 0) mailint.(em_targets);
  mret (r, set_em_targets l mailint).
Definition remove_all_email_targets (mailint : emailintercept_t) : M Z :=
  '(r, _) ← each_target (λ tgt, tgt.(et_awaitingconfirm) =? 0)
              (λ tgt, announce_email_target_change tgt mailint false) id mailint.(em_targets);
  mret r.
(** The last one announces the targets it should withdraw. *)
Definition remove_all_sip_targets (vint : voipintercept_t) : M Z :=
  '(r, _) ← each_target (λ sipid, sipid.(si_awaitingconfirm) =? 0)
              (λ sipid, announce_sip_target_change sipid vint true) id vint.(vi_targets);
  mret r.

(** ** HI1 notifications *)

(** The decision and the flags of [announce_hi1_notification_to_mediators]: the type that
    is sent, or nothing. *)
Definition hi1_decide (not_type : hi1_notify_t) (start : Z) (d : prov_intercept_data_t)
    : option hi1_notify_t * prov_intercept_data_t :=
  match not_type with
  | HI1_LI_ACTIVATED =>
      if d.(pd_start_hi1_sent) then (None, d)
      else if now <? start then (None, d)
      else (Some HI1_LI_ACTIVATED, set_pd_end_hi1_sent false (set_pd_start_hi1_sent true d))
  | HI1_LI_DEACTIVATED =>
      if d.(pd_end_hi1_sent) then (None, d)
      else if negb d.(pd_start_hi1_sent) then (None, d)
      else (Some HI1_LI_DEACTIVATED, set_pd_start_hi1_sent false (set_pd_end_hi1_sent true d))
  | HI1_LI_MODIFIED =>
      if d.(pd_end_hi1_sent) then (None, d)
      else if d.(pd_start_hi1_sent) then (Some HI1_LI_MODIFIED, d)
      else if now <? start then (None, d)
      else (Some HI1_LI_ACTIVATED, set_pd_start_hi1_sent true d)
  | HI1_ALARM => (Some HI1_ALARM, d)
  end.

Definition hi1_data (t : hi1_notify_t) (c : intercept_common_t) (target_id : cstring) : hi1_notify_data_t :=
  {| nd_notify_type := hi1_code t; nd_liid := c.(ic_liid); nd_authcc := c.(ic_authcc);
     nd_delivcc := c.(ic_delivcc); nd_agencyid := c.(ic_targetagency); nd_seqno := c.(ic_hi1_seqno);
     nd_ts_sec := now; nd_ts_usec := usec; nd_target_info := target_id |}.

(** [announce_hi1_notification_to_mediators]; [hi1_seqno] is 32 bits wide. *)
Definition announce_hi1_notification_to_mediators (h : hi1_cept) (target_id : cstring)
    (not_type : hi1_notify_t) : M (Z * hi1_cept) :=
  let '(sent, local) :=
    match h.(hc_local) with
    | None => (Some not_type, None)
    | Some d => let '(t, d') := hi1_decide not_type h.(hc_common).(ic_tostart_time) d in (t, Some d')
    end in
  match sent with
  | None => mret (0, set_hc_local local h)
  | Some t =>
      _ ← send_all_mediators
            (push_hi1_notification_onto_net_buffer realloc_ok (hi1_data t h.(hc_common) target_id))
            is_minus_one;
      mret (1, Mkhi1_cept (set_ic_hi1_seqno (u32 (h.(hc_common).(ic_hi1_seqno) + 1)) h.(hc_common)) local)
  end.

(** ** The agencies of LIIDs *)

Definition get_liid_map : M (list (bytes * bytes)) :=
  s ← get; mret s.(ps_interceptconf).(cf_liid_map).

(** [remove_liid_mapping] *)
Definition remove_liid_mapping (liid : cstring) (liid_len : Z) (droppedmeds : bool) : M Z :=
  if droppedmeds then mret 0 else
  key ← lift (c_str liid);
  _ ← modify (λ s, set_ps_interceptconf
        (set_cf_liid_map (hash_delete key s.(ps_interceptconf).(cf_liid_map)) s.(ps_interceptconf)) s);
  _ ← send_all_mediators (push_cease_mediation_onto_net_buffer realloc_ok liid liid_len) is_minus_one;
  mret 0.

(** [announce_liidmapping_to_mediators]; the argument is the entry of the map. *)
Definition announce_liidmapping_to_mediators (h : option (bytes * bytes)) : M Z :=
  match h with
  | None => mret 0
  | Some (liid, agency) =>
      _ ← send_all_mediators (push_liid_mapping_onto_net_buffer realloc_ok (Some agency) (Some liid))
            is_minus_one;
      mret 0
  end.

(** [add_liid_mapping]: the entry and the configuration, which is not always the current one. *)
Definition add_liid_mapping (conf : prov_intercept_conf_t) (liid agency : cstring)
    : outcome (option (bytes * bytes) * prov_intercept_conf_t) :=
  a ← c_str agency;
  if bool_decide (a ≠ pcapdisk) && bool_decide (hash_find a conf.(cf_leas) = None) then Ok (None, conf) else
  k ← c_str liid;
  Ok (Some (k, a),
      set_cf_liid_map (match hash_find k conf.(cf_liid_map) with
                       | Some _ => hash_update k a conf.(cf_liid_map)
                       | None => hash_add k a conf.(cf_liid_map)
                       end) conf).

(** ** Timers of intercepts *)

Inductive prov_timer_type : Type := PROV_EPOLL_INTERCEPT_START | PROV_EPOLL_INTERCEPT_HALT.

(** [add_intercept_timer].  The timer exists before [epoll_add_timer] is asked; the
    removal of an old descriptor is tried and its result ignored. *)
Definition add_intercept_timer (tssec : Z) (d : prov_intercept_data_t) (t : prov_timer_type)
    : Z * prov_intercept_data_t :=
  if (tssec =? 0) || (tssec <? now) then (0, d) else
  let set v := match t with
               | PROV_EPOLL_INTERCEPT_START => set_pd_start_timer v d
               | PROV_EPOLL_INTERCEPT_HALT => set_pd_end_timer v d
               end in
  let old := match t with
             | PROV_EPOLL_INTERCEPT_START => d.(pd_start_timer)
             | PROV_EPOLL_INTERCEPT_HALT => d.(pd_end_timer)
             end in
  let fd := epoll_add_timer (u32 (tssec - now)) in
  if fd =? -1 then (-1, set (Some (default (-1) old))) else (1, set (Some fd)).

(** [halt_intercept_timer] *)
Definition halt_intercept_timer (timer : option Z) : option Z :=
  match timer with
  | None => None
  | Some fd => if epoll_del fd then Some (-1) else Some fd
  end.

(** [free_prov_intercept_data] *)
Definition free_prov_intercept_data (h : hi1_cept) : hi1_cept := set_hc_local None h.

(** The part of [add_all_intercept_timers] for one intercept; all three loops have it. *)
Definition add_intercept_timers (h : hi1_cept) : outcome (Z * hi1_cept) :=
  d ← deref h.(hc_local);
  let c := h.(hc_common) in
  let d1 := if c.(ic_tostart_time) <? now then set_pd_start_hi1_sent true d else d in
  let '(r1, d2) := add_intercept_timer c.(ic_tostart_time) d1 PROV_EPOLL_INTERCEPT_START in
  let d3 := if (c.(ic_toend_time) <? now) && negb (c.(ic_toend_time) =? 0)
            then set_pd_start_hi1_sent false (set_pd_end_hi1_sent true d2) else d2 in
  let '(r2, d4) := add_intercept_timer c.(ic_toend_time) d3 PROV_EPOLL_INTERCEPT_HALT in
  Ok ((if (r1 <? 0) || (r2 <? 0) then 1 else 0), set_hc_local (Some d4) h).

(** The notification that [reset_intercept_timers] makes about the end of an intercept. *)
Definition announce_hi1 (h : hi1_cept) (target : cstring) (t : hi1_notify_t) : M hi1_cept :=
  r ← announce_hi1_notification_to_mediators h target t; mret r.2.
Definition with_local (f : prov_intercept_data_t → prov_intercept_data_t) (h : hi1_cept) : hi1_cept :=
  set_hc_local (f <$> h.(hc_local)) h.
Definition timer_on (tssec : Z) (t : prov_timer_type) (h : hi1_cept) : Z * hi1_cept :=
  match h.(hc_local) with
  | None => (0, h)
  | Some d => let '(r, d') := add_intercept_timer tssec d t in (r, set_hc_local (Some d') h)
  end.
Definition flag (f : prov_intercept_data_t → bool) (h : hi1_cept) : bool :=
  match h.(hc_local) with Some d => f d | None => false end.

(** The first half of [reset_intercept_timers], about the start of the intercept. *)
Definition reset_start (target : cstring) (h : hi1_cept) : M (Z * hi1_cept) :=
  let c := h.(hc_common) in
  if (0 <? c.(ic_tostart_time)) && (now <? c.(ic_tostart_time)) then
    h1 ← (if flag pd_start_hi1_sent h && negb (flag pd_end_hi1_sent h)
          then announce_hi1 h target HI1_LI_DEACTIVATED else mret h);
    let '(r, h2) := timer_on c.(ic_tostart_time) PROV_EPOLL_INTERCEPT_START h1 in
    mret (if r <? 0 then -1 else 0, h2)
  else if (0 <=? c.(ic_tostart_time)) && negb (flag pd_start_hi1_sent h) &&
          ((c.(ic_toend_time) =? 0) || (now <? c.(ic_toend_time)))
  then h1 ← announce_hi1 h target HI1_LI_ACTIVATED; mret (0, h1)
  else mret (0, h).

(** The second half, about its end. *)
Definition reset_end (target : cstring) (h : hi1_cept) : M (Z * hi1_cept) :=
  let c := h.(hc_common) in
  if (0 <? c.(ic_toend_time)) && (now <? c.(ic_toend_time)) then
    let '(r, h1) := timer_on c.(ic_toend_time) PROV_EPOLL_INTERCEPT_HALT h in
    if r <? 0 then mret (-1, h1) else
    h2 ← (if flag pd_end_hi1_sent h1 && (c.(ic_tostart_time) <? now)
          then announce_hi1 h1 target HI1_LI_ACTIVATED else mret h1);
    mret (0, with_local (set_pd_end_hi1_sent false) h2)
  else if (0 <? c.(ic_toend_time)) && negb (flag pd_end_hi1_sent h) && flag pd_start_hi1_sent h
  then h1 ← announce_hi1 h target HI1_LI_DEACTIVATED; mret (0, h1)
  else if c.(ic_toend_time) =? 0 then
    h1 ← (if flag pd_end_hi1_sent h && (c.(ic_tostart_time) <? now)
          then announce_hi1 h target HI1_LI_ACTIVATED else mret h);
    mret (0, with_local (set_pd_end_hi1_sent false) h1)
  else mret (0, h).

(** [reset_intercept_timers]; the text of an error is left out. *)
Definition reset_intercept_timers (h : hi1_cept) (target : cstring) : M (Z * hi1_cept) :=
  match h.(hc_local) with
  | None => mret (0, h)
  | Some d =>
      let d1 := set_pd_end_timer (halt_intercept_timer d.(pd_end_timer))
                  (set_pd_start_timer (halt_intercept_timer d.(pd_start_timer)) d) in
      let h1 := set_hc_local (Some d1) h in
      let c := h.(hc_common) in
      if (0 <? c.(ic_tostart_time)) && (0 <? c.(ic_toend_time)) &&
         (c.(ic_toend_time) <=? c.(ic_tostart_time)) then mret (-1, h1) else
      '(r1, h2) ← reset_start target h1;
      if r1 <? 0 then mret (-1, h2) else
      '(r2, h3) ← reset_end target h2;
      mret (if r2 <? 0 then -1 else 1, h3)
  end.

(** [send_intercept_hi1] of provisioner.c: a timer has fired; its descriptor is closed. *)
Definition send_intercept_hi1 (h : hi1_cept) (target : cstring) (t : prov_timer_type)
    : M (Z * hi1_cept) :=
  let h1 := with_local (λ d, match t with
              | PROV_EPOLL_INTERCEPT_START => set_pd_start_timer (Some (-1)) d
              | PROV_EPOLL_INTERCEPT_HALT => set_pd_end_timer (Some (-1)) d
              end) h in
  '(r, h2) ← announce_hi1_notification_to_mediators h1 target
               (match t with PROV_EPOLL_INTERCEPT_START => HI1_LI_ACTIVATED
                | PROV_EPOLL_INTERCEPT_HALT => HI1_LI_DEACTIVATED end);
  mret (if r <? 0 then -1 else 1, h2).

End clients.
