(* ===== verification/ProvReload.v ===== *)
(** * Reloading the provisioner's configuration (src/src/provisioner/hup_reload.c)

    On SIGHUP the provisioner reads its configuration again, compares it with the one it
    has, and tells its clients about the differences.  The parser is not modelled: the
    parsed configuration is an argument.  Also here: the comparison of targets of
    clientupdates.c, the lists of targets of intercept.c, and [map_intercepts_to_leas] and
    [clear_intercept_state] of provisioner.c.

    The tables that are compared are changed while they are read (what was found in the
    new one need not be announced), so the functions return them. *)

From stdpp Require Import gmap.
From S2P Require Import Prelude Protocol Intercept NetBuffer NetPush Publish Radius HashTable SyncSessions SyncIntercepts Provisioner.

(** ** Comparisons *)

(** [if (strcmp(a, b) != 0) return 0; k] *)
Definition same_then (a b : cstring) (k : outcome bool) : outcome bool :=
  d ← str_differ a b; if (d : bool) then Ok false else k.
Definition same_num (a b : Z) (k : outcome bool) : outcome bool := if a =? b then k else Ok false.

(** The macro [agency_equal]. *)
Definition agency_equal (a b : liagency_t) : outcome bool :=
  same_then a.(lea_hi2_ipstr) b.(lea_hi2_ipstr)
  (same_then a.(lea_hi2_portstr) b.(lea_hi2_portstr)
  (same_then a.(lea_hi3_ipstr) b.(lea_hi3_ipstr)
  (same_then a.(lea_hi3_portstr) b.(lea_hi3_portstr)
  (same_then a.(lea_agencyid) b.(lea_agencyid) (Ok true))))).

Definition common_intercept_equal (a b : intercept_common_t) : outcome bool :=
  same_then a.(ic_liid) b.(ic_liid)
  (same_num a.(ic_tostart_time) b.(ic_tostart_time)
  (same_num a.(ic_toend_time) b.(ic_toend_time)
  (same_then a.(ic_authcc) b.(ic_authcc)
  (same_then a.(ic_delivcc) b.(ic_delivcc)
  (same_num a.(ic_encrypt) b.(ic_encrypt)
  (same_num a.(ic_tomediate) b.(ic_tomediate)
  (same_then a.(ic_targetagency) b.(ic_targetagency)
  (match a.(ic_encryptkey), b.(ic_encryptkey) with
   | None, None => Ok true
   | Some _, Some _ => same_then a.(ic_encryptkey) b.(ic_encryptkey) (Ok true)
   | _, _ => Ok false
   end)))))))).

Definition ip_intercept_equal (a b : ipintercept_t) : outcome bool :=
  c ← common_intercept_equal a.(ip_common) b.(ip_common);
  if negb c then Ok false else
  let rest := same_num a.(ip_vendmirrorid) b.(ip_vendmirrorid)
                (same_num a.(ip_accesstype) b.(ip_accesstype) (Ok true)) in
  match a.(ip_username), b.(ip_username) with
  | Some _, Some _ => same_then a.(ip_username) b.(ip_username) rest
  | _, _ => rest
  end.
Definition voip_intercept_equal (a b : voipintercept_t) : outcome bool :=
  c ← common_intercept_equal a.(vi_common) b.(vi_common);
  if negb c then Ok false else same_num a.(vi_options) b.(vi_options) (Ok true).
Definition email_intercept_equal (a b : emailintercept_t) : outcome bool :=
  if negb (a.(em_delivercompressed) =? b.(em_delivercompressed)) then Ok false
  else common_intercept_equal a.(em_common) b.(em_common).

(** [are_sip_identities_same] *)
Definition are_sip_identities_same (a b : openli_sip_identity_t) : outcome bool :=
  same_then a.(si_username) b.(si_username)
  (match a.(si_realm), b.(si_realm) with
   | None, None => Ok true
   | Some _, Some _ => same_then a.(si_realm) b.(si_realm) (Ok true)
   | _, _ => Ok false
   end).

(** ** The text about targets in HI1 notifications *)

(** The loop of [list_email_targets] and [list_sip_targets] over the texts of the targets;
    a target without a name is [None].  [space] is the buffer, once it was allocated. *)
Fixpoint list_targets (maxchars : Z) (l : list (option bytes)) (space : cstring) : cstring :=
  match l with
  | [] => space
  | t :: l =>
      let buf := default [] space in
      match t with
      | None => list_targets maxchars l (Some buf)
      | Some text =>
          let required := zlen text + (if 0 <? zlen buf then 1 else 0) in
          if maxchars - zlen buf <? required then Some buf
          else list_targets maxchars l (Some (buf ++ (if 0 <? zlen buf then of_string "," else []) ++ text))
      end
  end.
Definition list_email_targets (m : emailintercept_t) (maxchars : Z) : cstring :=
  list_targets maxchars ((λ t, until_nul <$> t.(et_address)) <$> m.(em_targets)) None.
Definition sip_text (s : openli_sip_identity_t) : option bytes :=
  match s.(si_username) with
  | None => None
  | Some u => Some (until_nul u ++
                match s.(si_realm) with Some r => of_string "@" ++ until_nul r | None => [] end)
  end.
Definition list_sip_targets (v : voipintercept_t) (maxchars : Z) : cstring :=
  list_targets maxchars (sip_text <$> v.(vi_targets)) None.

(** [free] of a string that somebody else may have freed. *)
Definition free_string (s : cstring) (freed : bool) : outcome unit :=
  match s with Some _ => if freed then Undef else Ok tt | None => Ok tt end.

(** ** LIIDs and agencies of a whole configuration (provisioner.c) *)

(** The sign of [strcmp]. *)
Fixpoint c_strcmp (a b : bytes) : comparison :=
  match a, b with
  | [], [] => Eq
  | [], _ :: _ => Lt
  | _ :: _, [] => Gt
  | x :: a, y :: b => match x ?= y with Eq => c_strcmp a b | c => c end
  end.
(** [liid_hash_sort]; an entry is the LIID and the agency. *)
Definition liid_hash_sort (x y : bytes * bytes) : comparison :=
  match c_strcmp x.2 y.2 with Eq => c_strcmp x.1 y.1 | c => c end.
Definition liid_le (x y : bytes * bytes) : Prop := liid_hash_sort x y ≠ Gt.
#[global] Instance liid_le_dec x y : Decision (liid_le x y) := ltac:(unfold liid_le; apply _).

Fixpoint map_ceptlist (l : list intercept_common_t) (conf : prov_intercept_conf_t)
    : outcome prov_intercept_conf_t :=
  match l with
  | [] => Ok conf
  | c :: l => '(_, conf) ← add_liid_mapping conf c.(ic_liid) c.(ic_targetagency); map_ceptlist l conf
  end.
Definition map_intercepts_to_leas (conf : prov_intercept_conf_t) : outcome prov_intercept_conf_t :=
  conf ← map_ceptlist ((λ e, e.2.(pt_cept).(ip_common)) <$> conf.(cf_ipintercepts)) conf;
  conf ← map_ceptlist ((λ e, e.2.(pt_cept).(vi_common)) <$> conf.(cf_voipintercepts)) conf;
  conf ← map_ceptlist ((λ e, e.2.(pt_cept).(em_common)) <$> conf.(cf_emailintercepts)) conf;
  Ok (set_cf_liid_map (merge_sort liid_le conf.(cf_liid_map)) conf).

(** [clear_intercept_state]: everything is freed, the names of IP intercepts once more if
    they have been freed before. *)
Fixpoint free_all_ipintercepts (l : list (bytes * prov_cept ipintercept_t)) : outcome unit :=
  match l with
  | [] => Ok tt
  | (_, p) :: l => _ ← free_string p.(pt_cept).(ip_username) p.(pt_name_freed); free_all_ipintercepts l
  end.
Definition clear_intercept_state (conf : prov_intercept_conf_t) : outcome unit :=
  free_all_ipintercepts conf.(cf_ipintercepts).

Section reload.
Context (realloc_ok : Z → bool) (noret : Z).
Context (epoll_mod epoll_del : Z → bool) (epoll_add_timer : Z → Z).
Context (now usec : Z).
Abbreviation M := (ST provision_state_t).
Abbreviation to_collectors := (send_all_collectors epoll_mod).
Abbreviation hi1 := (announce_hi1_notification_to_mediators realloc_ok epoll_mod now usec).

(** ** Targets (clientupdates.c) *)

(** [compare_email_targets]: the result and both intercepts. *)
Definition find_email (key : bytes) (l : list email_target_t) : option email_target_t :=
  head (filter (λ t, until_nul <$> t.(et_address) = Some key) l).
Definition confirm_email (key : bytes) (l : list email_target_t) : list email_target_t :=
  (λ t, if decide (until_nul <$> t.(et_address) = Some key) then set_et_awaitingconfirm 0 t else t) <$> l.
Definition compare_email_targets (existing reload : emailintercept_t)
    : M (Z * emailintercept_t * emailintercept_t) :=
  '(r, old, (changes, new)) ← fold_until (λ oldtgt '(changes, new),
      key ← lift (c_str oldtgt.(et_address));
      match find_email key new with
      | Some _ => mret (0, set_et_awaitingconfirm 0 oldtgt, (changes, confirm_email key new))
      | None =>
          let oldtgt := set_et_awaitingconfirm 1 oldtgt in
          r ← announce_email_target_change realloc_ok epoll_mod oldtgt existing false;
          mret (if r <? 0 then (-1, oldtgt, (changes, new)) else (0, oldtgt, (changes + 1, new)))
      end) existing.(em_targets) (0, reload.(em_targets));
  let existing := set_em_targets old existing in
  let reload := set_em_targets new reload in
  if r <? 0 then mret (-1, existing, reload) else
  '(r, _, changes) ← fold_until (λ newtgt changes,
      if newtgt.(et_awaitingconfirm) =? 0 then mret (0, newtgt, changes) else
      r ← announce_email_target_change realloc_ok epoll_mod newtgt existing true;
      mret (if r <? 0 then (-1, newtgt, changes) else (0, newtgt, changes + 1))) new changes;
  mret (if r <? 0 then -1 else changes, existing, reload).

(** The inner loop of [compare_sip_targets]: the first target that is not yet confirmed
    and the same, if there is one, is confirmed. *)
Fixpoint match_sip (oldtgt : openli_sip_identity_t) (new : list openli_sip_identity_t)
    : outcome (bool * list openli_sip_identity_t) :=
  match new with
  | [] => Ok (false, [])
  | newtgt :: rest =>
      same ← (if newtgt.(si_awaitingconfirm) =? 0 then Ok false
              else are_sip_identities_same newtgt oldtgt);
      if (same : bool) then Ok (true, set_si_awaitingconfirm 0 newtgt :: rest)
      else '(b, rest') ← match_sip oldtgt rest; Ok (b, newtgt :: rest')
  end.
Definition compare_sip_targets (existing reload : voipintercept_t)
    : M (Z * voipintercept_t * voipintercept_t) :=
  '(r, old, (changes, new)) ← fold_until (λ oldtgt '(changes, new),
      '(found, new) ← lift (match_sip oldtgt new);
      if (found : bool) then mret (0, set_si_awaitingconfirm 0 oldtgt, (changes, new)) else
      let oldtgt := set_si_awaitingconfirm 1 oldtgt in
      r ← announce_sip_target_change realloc_ok epoll_mod oldtgt existing false;
      mret (if r <? 0 then (-1, oldtgt, (changes, new)) else (0, oldtgt, (changes + 1, new))))
    existing.(vi_targets) (0, reload.(vi_targets));
  let existing := set_vi_targets old existing in
  let reload := set_vi_targets new reload in
  if r <? 0 then mret (-1, existing, reload) else
  '(r, _, changes) ← fold_until (λ newtgt changes,
      if newtgt.(si_awaitingconfirm) =? 0 then mret (0, newtgt, changes) else
      r ← announce_sip_target_change realloc_ok epoll_mod newtgt existing true;
      mret (if r <? 0 then (-1, newtgt, changes) else (0, newtgt, changes + 1))) new changes;
  mret (if r <? 0 then -1 else changes, existing, reload).

(** ** Static ranges *)

(** [reload_staticips]: whether something changed, and the new intercept. *)
Fixpoint withdraw_ranges (ipint : ipintercept_t) (l : list static_ipranges_t) (changed : bool)
    (newequiv : ipintercept_t) : M (bool * ipintercept_t) :=
  match l with
  | [] => mret (changed, newequiv)
  | ipr :: l =>
      key ← lift (c_str ipr.(sr_rangestr));
      match find_static key newequiv with
      | Some found =>
          if found.(sr_cin) =? ipr.(sr_cin)
          then withdraw_ranges ipint l changed (update_static key (set_sr_awaitingconfirm 0) newequiv)
          else _ ← remove_existing_staticip_range realloc_ok epoll_mod ipint ipr;
               withdraw_ranges ipint l true newequiv
      | None =>
          _ ← remove_existing_staticip_range realloc_ok epoll_mod ipint ipr;
          withdraw_ranges ipint l true newequiv
      end
  end.
Fixpoint announce_ranges (ipint : ipintercept_t) (l : list static_ipranges_t) (changed : bool) : M bool :=
  match l with
  | [] => mret changed
  | ipr :: l =>
      if ipr.(sr_awaitingconfirm) =? 0 then announce_ranges ipint l changed else
      _ ← add_new_staticip_range realloc_ok epoll_mod ipint ipr;
      announce_ranges ipint l true
  end.
Definition reload_staticips (ipint newequiv : ipintercept_t) : M (bool * ipintercept_t) :=
  '(changed, newequiv) ← withdraw_ranges ipint ipint.(ip_statics) false newequiv;
  changed ← announce_ranges ipint newequiv.(ip_statics) changed;
  mret (changed, newequiv).

(** ** Agencies, servers and default RADIUS users *)

Definition set_pa_announcereq (v : Z) (a : prov_agency_t) : prov_agency_t :=
  Mkprov_agency_t a.(pa_ag) v.

(** [reload_leas]: the new table. *)
Fixpoint reload_old_leas (curr latest : list (bytes * prov_agency_t)) : M (list (bytes * prov_agency_t)) :=
  match curr with
  | [] => mret latest
  | (_, lea) :: curr =>
      key ← lift (c_str lea.(pa_ag).(lea_agencyid));
      match hash_find key latest with
      | None =>
          _ ← withdraw_agency_from_mediators realloc_ok epoll_mod lea; reload_old_leas curr latest
      | Some newequiv =>
          same ← lift (agency_equal lea.(pa_ag) newequiv.(pa_ag));
          if (same : bool)
          then reload_old_leas curr (hash_update key (set_pa_announcereq 0 newequiv) latest)
          else _ ← withdraw_agency_from_mediators realloc_ok epoll_mod lea;
               reload_old_leas curr (hash_update key (set_pa_announcereq 1 newequiv) latest)
      end
  end.
Fixpoint announce_new_leas (l : list (bytes * prov_agency_t)) : M (list (bytes * prov_agency_t)) :=
  match l with
  | [] => mret []
  | (k, lea) :: l =>
      lea' ← (if lea.(pa_announcereq) =? 0 then mret lea
              else _ ← announce_lea_to_mediators realloc_ok epoll_mod lea; mret (set_pa_announcereq 0 lea));
      l' ← announce_new_leas l;
      mret ((k, lea') :: l')
  end.
Definition reload_leas (curr latest : list (bytes * prov_agency_t)) : M (list (bytes * prov_agency_t)) :=
  latest ← reload_old_leas curr latest; announce_new_leas latest.

(** [reload_default_radius_users] *)
Fixpoint reload_old_radius (curr new : list (bytes * default_radius_user_t))
    : M (list (bytes * default_radius_user_t)) :=
  match curr with
  | [] => mret new
  | (_, dru) :: curr =>
      key ← lift (string_key dru.(dr_name) dru.(dr_namelen));
      match hash_find key new with
      | None =>
          _ ← withdraw_default_radius_username realloc_ok epoll_mod dru; reload_old_radius curr new
      | Some newequiv => reload_old_radius curr (hash_update key (set_dr_awaitingconfirm 0 newequiv) new)
      end
  end.
Definition reload_default_radius_users (curr new : list (bytes * default_radius_user_t))
    : M (list (bytes * default_radius_user_t)) :=
  new ← reload_old_radius curr new;
  _ ← for_each new (λ e,
        if e.2.(dr_awaitingconfirm) =? 0 then mret tt
        else _ ← announce_default_radius_username realloc_ok epoll_mod e.2; mret tt);
  mret new.

(** [reload_coreservers] *)
Fixpoint reload_old_servers (curr new : list (bytes * coreserver_t)) : M (list (bytes * coreserver_t)) :=
  match curr with
  | [] => mret new
  | (_, cs) :: curr =>
      key ← lift (c_str cs.(cs_serverkey));
      match hash_find key new with
      | None =>
          _ ← announce_coreserver_change realloc_ok epoll_mod cs false; reload_old_servers curr new
      | Some newequiv => reload_old_servers curr (hash_update key (set_cs_awaitingconfirm 0 newequiv) new)
      end
  end.
Definition reload_coreservers (curr new : list (bytes * coreserver_t)) : M (list (bytes * coreserver_t)) :=
  new ← reload_old_servers curr new;
  _ ← for_each new (λ e,
        if e.2.(cs_awaitingconfirm) =? 0 then mret tt
        else _ ← announce_coreserver_change realloc_ok epoll_mod e.2 true; mret tt);
  mret new.

(** ** Intercepts *)

(** [remove_withdrawn_intercept]: the intercept, and whether the text about its targets was
    freed. *)
Definition remove_withdrawn_intercept (h : hi1_cept) (target_info : cstring) (droppedmeds : bool)
    : M (hi1_cept * bool) :=
  _ ← remove_liid_mapping realloc_ok epoll_mod h.(hc_common).(ic_liid) h.(hc_common).(ic_liid_len) droppedmeds;
  if droppedmeds then mret (h, false) else
  '(_, h) ← hi1 h target_info HI1_LI_DEACTIVATED;
  mret (h, bool_decide (is_Some target_info)).

(** [enable_new_intercept]; [intconf] is the new configuration. *)
Definition enable_new_intercept (h : hi1_cept) (intconf : prov_intercept_conf_t)
    (target_info : cstring) (droppedmeds : bool) : M (Z * hi1_cept * prov_intercept_conf_t) :=
  let c := h.(hc_common) in
  a ← lift (c_str c.(ic_targetagency));
  if bool_decide (a ≠ pcapdisk) && bool_decide (hash_find a intconf.(cf_leas) = None)
  then mret (0, h, intconf) else
  '(r, h) ← (if (0 <? c.(ic_tostart_time)) || (0 <? c.(ic_toend_time)) then
       let '(r1, h1) := timer_on epoll_add_timer now c.(ic_tostart_time) PROV_EPOLL_INTERCEPT_START h in
       if r1 <? 0 then mret (-1, h1) else
       let '(r2, h2) := timer_on epoll_add_timer now c.(ic_toend_time) PROV_EPOLL_INTERCEPT_HALT h1 in
       mret (if r2 <? 0 then -1 else 0, h2)
     else mret (0, h));
  if r <? 0 then mret (-1, h, intconf) else
  '(m, intconf) ← lift (add_liid_mapping intconf c.(ic_liid) c.(ic_targetagency));
  if droppedmeds then mret (1, h, intconf) else
  '(r, h) ← hi1 h target_info HI1_LI_ACTIVATED;
  if r =? -1 then mret (-1, h, intconf) else
  r ← announce_liidmapping_to_mediators realloc_ok epoll_mod m;
  mret (if r =? -1 then -1 else 1, h, intconf).

(** [update_reconfigured_intercept]: the result, both intercepts and the new configuration. *)
Definition update_reconfigured_intercept (old new : hi1_cept) (intconf : prov_intercept_conf_t)
    (cept_changed agencychanged droppedmeds : bool) (old_targets new_targets : cstring)
    : M (Z * hi1_cept * hi1_cept * prov_intercept_conf_t) :=
  local ← lift (deref new.(hc_local));
  oldlocal ← lift (deref old.(hc_local));
  let new := Mkhi1_cept (set_ic_hi1_seqno old.(hc_common).(ic_hi1_seqno) new.(hc_common))
               (Some (set_pd_end_hi1_sent oldlocal.(pd_end_hi1_sent)
                       (set_pd_start_hi1_sent oldlocal.(pd_start_hi1_sent) local))) in
  '(old, new) ← (if negb droppedmeds && agencychanged then
       '(_, old) ← hi1 old old_targets HI1_LI_DEACTIVATED;
       '(_, new) ← hi1 (set_hc_common (set_ic_hi1_seqno 0 new.(hc_common)) new) new_targets HI1_LI_ACTIVATED;
       mret (old, new)
     else if negb droppedmeds && cept_changed then
       '(_, new) ← hi1 new new_targets HI1_LI_MODIFIED; mret (old, new)
     else mret (old, new));
  let old := free_prov_intercept_data old in
  '(_, new) ← reset_intercept_timers realloc_ok epoll_mod epoll_del epoll_add_timer now usec new new_targets;
  if agencychanged then
    _ ← remove_liid_mapping realloc_ok epoll_mod old.(hc_common).(ic_liid) old.(hc_common).(ic_liid_len)
          droppedmeds;
    '(m, intconf) ← lift (add_liid_mapping intconf new.(hc_common).(ic_liid) new.(hc_common).(ic_targetagency));
    if droppedmeds then mret (0, old, new, intconf) else
    r ← announce_liidmapping_to_mediators realloc_ok epoll_mod m;
    mret (if r =? -1 then -1 else 0, old, new, intconf)
  else mret (0, old, new, intconf).

(** The common part of an intercept of each kind, in its table entry. *)
Definition ip_hc (p : prov_cept ipintercept_t) : hi1_cept := Mkhi1_cept p.(pt_cept).(ip_common) p.(pt_local).
Definition put_ip_hc (h : hi1_cept) (p : prov_cept ipintercept_t) : prov_cept ipintercept_t :=
  Mkprov_cept (set_ip_common h.(hc_common) p.(pt_cept)) h.(hc_local) p.(pt_name_freed).
Definition voip_hc (p : prov_cept voipintercept_t) : hi1_cept := Mkhi1_cept p.(pt_cept).(vi_common) p.(pt_local).
Definition put_voip_hc (h : hi1_cept) (p : prov_cept voipintercept_t) : prov_cept voipintercept_t :=
  Mkprov_cept (set_vi_common h.(hc_common) p.(pt_cept)) h.(hc_local) p.(pt_name_freed).
Definition email_hc (p : prov_cept emailintercept_t) : hi1_cept := Mkhi1_cept p.(pt_cept).(em_common) p.(pt_local).
Definition put_email_hc (h : hi1_cept) (p : prov_cept emailintercept_t) : prov_cept emailintercept_t :=
  Mkprov_cept (set_em_common h.(hc_common) p.(pt_cept)) h.(hc_local) p.(pt_name_freed).
Definition put_cept {A} (x : A) (p : prov_cept A) : prov_cept A :=
  Mkprov_cept x p.(pt_local) p.(pt_name_freed).

Abbreviation table A := (list (bytes * prov_cept A)).
Abbreviation update_reconfigured := update_reconfigured_intercept.

(** *** IP intercepts *)

(** An intercept of the old table. *)
Definition reload_old_ip (droppedcols droppedmeds : bool) (e : bytes * prov_cept ipintercept_t)
    (st : table ipintercept_t * prov_intercept_conf_t)
    : M (Z * (bytes * prov_cept ipintercept_t) * (table ipintercept_t * prov_intercept_conf_t)) :=
  let '(k, p) := e in
  let '(newints, intconf) := st in
  let ipint := p.(pt_cept) in
  key ← lift (cept_key ipint);
  match hash_find key newints with
  | None =>
      _ ← (if droppedcols then mret 0
           else halt_existing_intercept realloc_ok epoll_mod (DataIp ipint) OPENLI_PROTO_HALT_IPINTERCEPT);
      '(h, freed) ← remove_withdrawn_intercept (ip_hc p) ipint.(ip_username) droppedmeds;
      let p' := put_ip_hc h p in
      mret (0, (k, Mkprov_cept p'.(pt_cept) p'.(pt_local) freed), st)
  | Some q =>
      '(staticchanged, newequiv) ← reload_staticips ipint q.(pt_cept);
      intsame ← lift (ip_intercept_equal ipint newequiv);
      agencychanged ← lift (str_differ ipint.(ip_common).(ic_targetagency) newequiv.(ip_common).(ic_targetagency));
      let q := put_cept (set_ip_awaitingconfirm 0 newequiv) q in
      '(r, oldh, newh, intconf) ← update_reconfigured (ip_hc p) (ip_hc q) intconf
           (negb intsame || staticchanged) agencychanged droppedmeds ipint.(ip_username) newequiv.(ip_username);
      let p := put_ip_hc oldh p in
      let q := put_ip_hc newh q in
      let st := (hash_update key q newints, intconf) in
      if r <? 0 then mret (-1, (k, p), st) else
      _ ← (if negb intsame && negb droppedcols
           then modify_existing_intercept_options realloc_ok noret epoll_mod (DataIp q.(pt_cept))
                  OPENLI_PROTO_MODIFY_IPINTERCEPT
           else mret 0);
      mret (0, (k, p), st)
  end.
(** An intercept of the new table. *)
Definition reload_new_ip (droppedcols droppedmeds : bool) (e : bytes * prov_cept ipintercept_t)
    (intconf : prov_intercept_conf_t)
    : M (Z * (bytes * prov_cept ipintercept_t) * prov_intercept_conf_t) :=
  let '(k, p) := e in
  if p.(pt_cept).(ip_awaitingconfirm) =? 0 then mret (0, (k, p), intconf) else
  '(r, h, intconf) ← enable_new_intercept (ip_hc p) intconf p.(pt_cept).(ip_username) droppedmeds;
  let p := put_ip_hc h p in
  if r <? 0 then mret (r, (k, p), intconf) else
  if (r =? 0) || droppedcols then mret (0, (k, p), intconf) else
  r ← announce_single_intercept epoll_mod (push_ipintercept_onto_net_buffer realloc_ok noret p.(pt_cept));
  mret (if r =? -1 then -1 else 0, (k, p), intconf).
(** [reload_ipintercepts]: the result, both tables and the new configuration. *)
Definition reload_ipintercepts (currints newints : table ipintercept_t) (intconf : prov_intercept_conf_t)
    (droppedcols droppedmeds : bool)
    : M (Z * table ipintercept_t * table ipintercept_t * prov_intercept_conf_t) :=
  '(r, currints, (newints, intconf)) ←
     fold_until (reload_old_ip droppedcols droppedmeds) currints (newints, intconf);
  if r <? 0 then mret (-1, currints, newints, intconf) else
  '(r, newints, intconf) ← fold_until (reload_new_ip droppedcols droppedmeds) newints intconf;
  mret (r, currints, newints, intconf).

(** *** Email intercepts *)

Definition reload_old_email (droppedcols droppedmeds : bool) (e : bytes * prov_cept emailintercept_t)
    (st : table emailintercept_t * prov_intercept_conf_t)
    : M (Z * (bytes * prov_cept emailintercept_t) * (table emailintercept_t * prov_intercept_conf_t)) :=
  let '(k, p) := e in
  let '(newemail, intconf) := st in
  let mailint := p.(pt_cept) in
  key ← lift (string_key mailint.(em_common).(ic_liid) mailint.(em_common).(ic_liid_len));
  match hash_find key newemail with
  | None =>
      _ ← (if droppedcols then mret 0
           else halt_existing_intercept realloc_ok epoll_mod (DataEmail mailint) OPENLI_PROTO_HALT_EMAILINTERCEPT);
      let target_info := list_email_targets mailint 256 in
      '(h, freed) ← remove_withdrawn_intercept (email_hc p) target_info droppedmeds;
      _ ← lift (free_string target_info freed);
      mret (0, (k, put_email_hc h p), st)
  | Some q =>
      intsame ← lift (email_intercept_equal mailint q.(pt_cept));
      agencychanged ← lift (str_differ mailint.(em_common).(ic_targetagency) q.(pt_cept).(em_common).(ic_targetagency));
      '(changedtargets, mailint, newequiv) ← compare_email_targets mailint q.(pt_cept);
      let p := put_cept mailint p in
      let q := put_cept (set_em_awaitingconfirm 0 newequiv) q in
      '(r, oldh, newh, intconf) ← update_reconfigured (email_hc p) (email_hc q) intconf
           (negb intsame || negb (changedtargets =? 0)) agencychanged droppedmeds
           (list_email_targets mailint 256) (list_email_targets newequiv 256);
      let p := put_email_hc oldh p in
      let q := put_email_hc newh q in
      let st := (hash_update key q newemail, intconf) in
      if r <? 0 then mret (-1, (k, p), st) else
      _ ← (if negb intsame && negb droppedcols
           then modify_existing_intercept_options realloc_ok noret epoll_mod (DataEmail q.(pt_cept))
                  OPENLI_PROTO_MODIFY_EMAILINTERCEPT
           else mret 0);
      mret (0, (k, p), st)
  end.
Definition reload_new_email (droppedcols droppedmeds : bool) (e : bytes * prov_cept emailintercept_t)
    (intconf : prov_intercept_conf_t)
    : M (Z * (bytes * prov_cept emailintercept_t) * prov_intercept_conf_t) :=
  let '(k, p) := e in
  if p.(pt_cept).(em_awaitingconfirm) =? 0 then mret (0, (k, p), intconf) else
  '(r, h, intconf) ← enable_new_intercept (email_hc p) intconf (list_email_targets p.(pt_cept) 256) droppedmeds;
  let p := put_email_hc h p in
  if r <? 0 then mret (r, (k, p), intconf) else
  if (r =? 0) || droppedcols then mret (0, (k, p), intconf) else
  r ← announce_single_intercept epoll_mod (push_emailintercept_onto_net_buffer realloc_ok noret p.(pt_cept));
  if r =? -1 then mret (-1, (k, p), intconf) else
  '(r, mailint) ← announce_all_email_targets realloc_ok epoll_mod p.(pt_cept);
  mret (if r <? 0 then -1 else 0, (k, put_cept mailint p), intconf).
Definition reload_emailintercepts (curremail newemail : table emailintercept_t)
    (intconf : prov_intercept_conf_t) (droppedcols droppedmeds : bool)
    : M (Z * table emailintercept_t * table emailintercept_t * prov_intercept_conf_t) :=
  '(r, curremail, (newemail, intconf)) ←
     fold_until (reload_old_email droppedcols droppedmeds) curremail (newemail, intconf);
  if r <? 0 then mret (-1, curremail, newemail, intconf) else
  '(r, newemail, intconf) ← fold_until (reload_new_email droppedcols droppedmeds) newemail intconf;
  mret (r, curremail, newemail, intconf).

(** *** VoIP intercepts *)

(** [1 << OPENLI_VOIPINT_OPTION_IGNORE_COMFORT] *)
Definition IGNORE_COMFORT : Z := 1.
Definition with_comfort (ignore : Z) (v : voipintercept_t) : voipintercept_t :=
  if ignore =? 0 then v else set_vi_options (Z.lor v.(vi_options) IGNORE_COMFORT) v.
Definition get_ignorertpcomfort : M Z := λ s, Ok (s.(ps_ignorertpcomfort), s).

Definition reload_old_voip (droppedcols droppedmeds : bool) (e : bytes * prov_cept voipintercept_t)
    (st : table voipintercept_t * prov_intercept_conf_t)
    : M (Z * (bytes * prov_cept voipintercept_t) * (table voipintercept_t * prov_intercept_conf_t)) :=
  let '(k, p) := e in
  let '(newvoip, intconf) := st in
  let voipint := p.(pt_cept) in
  key ← lift (string_key voipint.(vi_common).(ic_liid) voipint.(vi_common).(ic_liid_len));
  ignore ← get_ignorertpcomfort;
  match hash_find key newvoip with
  | None =>
      _ ← (if droppedcols then mret 0
           else halt_existing_intercept realloc_ok epoll_mod (DataVoip voipint) OPENLI_PROTO_HALT_VOIPINTERCEPT);
      let target_info := list_sip_targets voipint 256 in
      '(h, freed) ← remove_withdrawn_intercept (voip_hc p) target_info droppedmeds;
      _ ← lift (free_string target_info freed);
      mret (0, (k, put_voip_hc h p), st)
  | Some q =>
      let newequiv := with_comfort ignore q.(pt_cept) in
      intsame ← lift (voip_intercept_equal voipint newequiv);
      agencychanged ← lift (str_differ voipint.(vi_common).(ic_targetagency) newequiv.(vi_common).(ic_targetagency));
      '(changedtargets, voipint, newequiv) ← compare_sip_targets voipint newequiv;
      let p := put_cept voipint p in
      let q := put_cept (set_vi_awaitingconfirm 0 newequiv) q in
      '(r, oldh, newh, intconf) ← update_reconfigured (voip_hc p) (voip_hc q) intconf
           (negb intsame || negb (changedtargets =? 0)) agencychanged droppedmeds
           (list_sip_targets voipint 256) (list_sip_targets newequiv 256);
      let p := put_voip_hc oldh p in
      let q := put_voip_hc newh q in
      let st := (hash_update key q newvoip, intconf) in
      if r <? 0 then mret (-1, (k, p), st) else
      _ ← (if negb intsame && negb droppedcols
           then modify_existing_intercept_options realloc_ok noret epoll_mod (DataVoip q.(pt_cept))
                  OPENLI_PROTO_MODIFY_VOIPINTERCEPT
           else mret 0);
      mret (0, (k, p), st)
  end.
Definition reload_new_voip (droppedcols droppedmeds : bool) (e : bytes * prov_cept voipintercept_t)
    (intconf : prov_intercept_conf_t)
    : M (Z * (bytes * prov_cept voipintercept_t) * prov_intercept_conf_t) :=
  let '(k, p) := e in
  if p.(pt_cept).(vi_awaitingconfirm) =? 0 then mret (0, (k, p), intconf) else
  ignore ← get_ignorertpcomfort;
  let target_info := list_sip_targets p.(pt_cept) 256 in
  let p := put_cept (with_comfort ignore p.(pt_cept)) p in
  '(r, h, intconf) ← enable_new_intercept (voip_hc p) intconf target_info droppedmeds;
  let p := put_voip_hc h p in
  if r <? 0 then mret (r, (k, p), intconf) else
  if (r =? 0) || droppedcols then mret (0, (k, p), intconf) else
  r ← announce_single_intercept epoll_mod (push_voipintercept_onto_net_buffer realloc_ok noret p.(pt_cept));
  if r =? -1 then mret (-1, (k, p), intconf) else
  '(r, voipint) ← announce_all_sip_targets realloc_ok epoll_mod p.(pt_cept);
  mret (if r <? 0 then -1 else 0, (k, put_cept voipint p), intconf).
Definition reload_voipintercepts (currvoip newvoip : table voipintercept_t)
    (intconf : prov_intercept_conf_t) (droppedcols droppedmeds : bool)
    : M (Z * table voipintercept_t * table voipintercept_t * prov_intercept_conf_t) :=
  '(r, currvoip, (newvoip, intconf)) ←
     fold_until (reload_old_voip droppedcols droppedmeds) currvoip (newvoip, intconf);
  if r <? 0 then mret (-1, currvoip, newvoip, intconf) else
  '(r, newvoip, intconf) ← fold_until (reload_new_voip droppedcols droppedmeds) newvoip intconf;
  mret (r, currvoip, newvoip, intconf).

(** ** The whole configuration *)

Definition set_cf_voipintercepts (v : table voipintercept_t) (c : prov_intercept_conf_t) : prov_intercept_conf_t :=
  Mkprov_intercept_conf_t c.(cf_radiusservers) c.(cf_gtpservers) c.(cf_sipservers)
    c.(cf_smtpservers) c.(cf_imapservers) c.(cf_pop3servers) v c.(cf_ipintercepts)
    c.(cf_emailintercepts) c.(cf_leas) c.(cf_liid_map) c.(cf_defradusers)
    c.(cf_default_email_deliver_compress).
Definition set_cf_ipintercepts (v : table ipintercept_t) (c : prov_intercept_conf_t) : prov_intercept_conf_t :=
  Mkprov_intercept_conf_t c.(cf_radiusservers) c.(cf_gtpservers) c.(cf_sipservers)
    c.(cf_smtpservers) c.(cf_imapservers) c.(cf_pop3servers) c.(cf_voipintercepts) v
    c.(cf_emailintercepts) c.(cf_leas) c.(cf_liid_map) c.(cf_defradusers)
    c.(cf_default_email_deliver_compress).
Definition set_cf_emailintercepts (v : table emailintercept_t) (c : prov_intercept_conf_t) : prov_intercept_conf_t :=
  Mkprov_intercept_conf_t c.(cf_radiusservers) c.(cf_gtpservers) c.(cf_sipservers)
    c.(cf_smtpservers) c.(cf_imapservers) c.(cf_pop3servers) c.(cf_voipintercepts) c.(cf_ipintercepts)
    v c.(cf_leas) c.(cf_liid_map) c.(cf_defradusers) c.(cf_default_email_deliver_compress).
Definition set_cf_leas (v : list (bytes * prov_agency_t)) (c : prov_intercept_conf_t) : prov_intercept_conf_t :=
  Mkprov_intercept_conf_t c.(cf_radiusservers) c.(cf_gtpservers) c.(cf_sipservers)
    c.(cf_smtpservers) c.(cf_imapservers) c.(cf_pop3servers) c.(cf_voipintercepts) c.(cf_ipintercepts)
    c.(cf_emailintercepts) v c.(cf_liid_map) c.(cf_defradusers) c.(cf_default_email_deliver_compress).
(** The tables of servers and of default RADIUS users. *)
Definition set_cf_servers (radius sip smtp imap pop3 gtp : list (bytes * coreserver_t))
    (users : list (bytes * default_radius_user_t)) (c : prov_intercept_conf_t) : prov_intercept_conf_t :=
  Mkprov_intercept_conf_t radius gtp sip smtp imap pop3 c.(cf_voipintercepts) c.(cf_ipintercepts)
    c.(cf_emailintercepts) c.(cf_leas) c.(cf_liid_map) users c.(cf_default_email_deliver_compress).

Definition get_conf : M prov_intercept_conf_t := λ s, Ok (s.(ps_interceptconf), s).
Definition put_conf (f : prov_intercept_conf_t → prov_intercept_conf_t) : M unit := λ s,
  Ok (tt, set_ps_interceptconf (f s.(ps_interceptconf)) s).

(** The part of [reload_intercept_config] for agencies, servers and RADIUS users. *)
Definition reload_tables (mediatorchanged clientchanged : bool) (newconf : prov_intercept_conf_t)
    : M prov_intercept_conf_t :=
  curr ← get_conf;
  newconf ← (if mediatorchanged then mret newconf
             else leas ← reload_leas curr.(cf_leas) newconf.(cf_leas); mret (set_cf_leas leas newconf));
  if clientchanged then mret newconf else
  radius ← reload_coreservers curr.(cf_radiusservers) newconf.(cf_radiusservers);
  sip ← reload_coreservers curr.(cf_sipservers) newconf.(cf_sipservers);
  smtp ← reload_coreservers curr.(cf_smtpservers) newconf.(cf_smtpservers);
  imap ← reload_coreservers curr.(cf_imapservers) newconf.(cf_imapservers);
  pop3 ← reload_coreservers curr.(cf_pop3servers) newconf.(cf_pop3servers);
  gtp ← reload_coreservers curr.(cf_gtpservers) newconf.(cf_gtpservers);
  users ← reload_default_radius_users curr.(cf_defradusers) newconf.(cf_defradusers);
  mret (set_cf_servers radius sip smtp imap pop3 gtp users newconf).

(** [reload_intercept_config]; [parsed] is what [parse_intercept_config] made of the file,
    or nothing if it failed. *)
Definition reload_intercept_config (parsed : option prov_intercept_conf_t)
    (mediatorchanged clientchanged : bool) : M Z :=
  match parsed with
  | None => mret (-1)
  | Some newconf =>
      newconf ← lift (map_intercepts_to_leas newconf);
      newconf ← reload_tables mediatorchanged clientchanged newconf;
      curr ← get_conf;
      '(r, old, new, newconf) ← reload_voipintercepts curr.(cf_voipintercepts)
            newconf.(cf_voipintercepts) newconf clientchanged mediatorchanged;
      _ ← put_conf (set_cf_voipintercepts old);
      if r <? 0 then mret (-1) else
      let newconf := set_cf_voipintercepts new newconf in
      '(r, old, new, newconf) ← reload_emailintercepts curr.(cf_emailintercepts)
            newconf.(cf_emailintercepts) newconf clientchanged mediatorchanged;
      _ ← put_conf (set_cf_emailintercepts old);
      if r <? 0 then mret (-1) else
      let newconf := set_cf_emailintercepts new newconf in
      '(r, old, new, newconf) ← reload_ipintercepts curr.(cf_ipintercepts)
            newconf.(cf_ipintercepts) newconf clientchanged mediatorchanged;
      _ ← put_conf (set_cf_ipintercepts old);
      if r <? 0 then mret (-1) else
      let newconf := set_cf_ipintercepts new newconf in
      curr ← get_conf;
      _ ← lift (clear_intercept_state curr);
      _ ← put_conf (λ _, newconf);
      _ ← announce_latest_default_email_decompress realloc_ok epoll_mod;
      mret 0
  end.

(** The part of [reload_provisioner_config] that follows the reloading of the options for
    sockets and TLS; what those decided are the first three arguments, [newignore] is the
    new value of the option for RTP comfort noise. *)
Definition set_comfort (ignore : Z) (v : voipintercept_t) : voipintercept_t :=
  set_vi_options (if ignore =? 0 then Z.ldiff v.(vi_options) IGNORE_COMFORT
                  else Z.lor v.(vi_options) IGNORE_COMFORT) v.
Fixpoint reload_voip_options (ignore : Z) (l : table voipintercept_t) : M (table voipintercept_t) :=
  match l with
  | [] => mret []
  | (k, p) :: l =>
      let p := put_cept (set_comfort ignore p.(pt_cept)) p in
      _ ← modify_existing_intercept_options realloc_ok noret epoll_mod (DataVoip p.(pt_cept))
            OPENLI_PROTO_MODIFY_VOIPINTERCEPT;
      '(_, h) ← hi1 (voip_hc p) (list_sip_targets p.(pt_cept) 256) HI1_LI_MODIFIED;
      l' ← reload_voip_options ignore l;
      mret ((k, put_voip_hc h p) :: l')
  end.
(** [free_all_mediators] and [stop_all_collectors]. *)
Definition free_all_mediators : M unit := λ s,
  Ok (tt, set_ps_knownmeds [] (set_ps_mediators [] s)).
Definition stop_all_collectors : M unit := λ s, Ok (tt, set_ps_collectors [] s).
Definition reload_after_options (mediatorchanged clientchanged tlschanged : bool) (newignore : Z)
    (parsed : option prov_intercept_conf_t) : M Z :=
  ignore ← get_ignorertpcomfort;
  _ ← (if ignore =? newignore then mret tt else
       _ ← (λ s, Ok (tt, set_ps_ignorertpcomfort newignore s));
       if clientchanged then mret tt else
       curr ← get_conf;
       l ← reload_voip_options newignore curr.(cf_voipintercepts);
       put_conf (set_cf_voipintercepts l));
  _ ← (if tlschanged && negb mediatorchanged then free_all_mediators else mret tt);
  _ ← (if tlschanged && negb clientchanged then stop_all_collectors else mret tt);
  let mediatorchanged := mediatorchanged || tlschanged in
  let clientchanged := clientchanged || tlschanged in
  _ ← (if mediatorchanged && negb clientchanged
       then disconnect_mediators_from_collectors realloc_ok epoll_mod else mret 0);
  _ ← (if clientchanged then mret 0 else announce_latest_default_email_decompress realloc_ok epoll_mod);
  r ← reload_intercept_config parsed mediatorchanged clientchanged;
  mret (if r <? 0 then -1 else 0).

End reload.
