(* ===== verification/ProvAuth.v ===== *)
(** * What clients of the provisioner are told when they connect
      (src/src/provisioner/provisioner.c)

    A collector that has authenticated is sent the whole configuration, ending with
    [OPENLI_PROTO_NOMORE_INTERCEPTS]; a mediator is sent the agencies and which of them
    each LIID belongs to.  Mediators announce their own address, and collectors are told
    about it. *)

From stdpp Require Import gmap.
From S2P Require Import Prelude Protocol Intercept NetBuffer NetPush NetDecode Publish Radius HashTable SyncSessions SyncIntercepts Provisioner ProvReload.

Section auth.
Context (realloc_ok : Z → bool) (noret : Z).
Context (epoll_mod : Z → bool).
Abbreviation M := (ST provision_state_t).

(** ** Everything of one kind *)

(** A loop of pushes that returns -1 when one is negative. *)
Fixpoint push_list {A} (push : A → pusher) (l : list A) : pusher := λ nb,
  match l with
  | [] => Ok (0, nb)
  | x :: l => '(r, nb') ← push x nb; if r <? 0 then Ok (-1, nb') else push_list push l nb'
  end.

Definition push_coreservers (servers : list (bytes * coreserver_t)) (cstype : Z) : pusher :=
  push_list (λ e, push_coreserver_onto_net_buffer realloc_ok e.2 cstype) servers.
Definition push_default_email_compression (defaultcompress : Z) : pusher := λ nb,
  '(r, nb') ← push_default_email_compression_onto_net_buffer realloc_ok defaultcompress nb;
  Ok (if r <? 0 then -1 else 0, nb').
(** Users without a name are left out. *)
Definition push_all_default_radius (users : list (bytes * default_radius_user_t)) : pusher :=
  push_list (λ e, match e.2.(dr_name) with
                  | None => push_return 0
                  | Some _ => push_default_radius_onto_net_buffer realloc_ok e.2
                  end) users.
Definition push_all_mediators (mediators : list (Z * prov_mediator_t)) : pusher :=
  push_list (λ e, push_mediator_onto_net_buffer realloc_ok e.2.(pm_details)) mediators.
Definition push_all_email_targets (targets : list email_target_t) (mailint : emailintercept_t) : pusher :=
  push_list (λ tgt, push_email_target_onto_net_buffer realloc_ok tgt mailint) targets.
Definition push_all_sip_targets (targets : list openli_sip_identity_t) (vint : voipintercept_t) : pusher :=
  push_list (λ sipid, push_sip_target_onto_net_buffer realloc_ok sipid vint) targets.

(** The agency of an intercept is defined, or is the one that needs no definition. *)
Definition agency_known (agencies : list (bytes * prov_agency_t)) (c : intercept_common_t) : outcome bool :=
  a ← c_str c.(ic_targetagency);
  Ok (bool_decide (a = pcapdisk) || bool_decide (is_Some (hash_find a agencies))).

Definition push_all_ipintercepts (l : list (bytes * prov_cept ipintercept_t))
    (agencies : list (bytes * prov_agency_t)) : pusher :=
  push_list (λ e nb,
    known ← agency_known agencies e.2.(pt_cept).(ip_common);
    if negb known then Ok (0, nb)
    else push_ipintercept_onto_net_buffer realloc_ok noret e.2.(pt_cept) nb) l.
Definition push_all_emailintercepts (l : list (bytes * prov_cept emailintercept_t))
    (agencies : list (bytes * prov_agency_t)) : pusher :=
  push_list (λ e nb,
    known ← agency_known agencies e.2.(pt_cept).(em_common);
    if negb known then Ok (0, nb) else
    '(r, nb) ← push_emailintercept_onto_net_buffer realloc_ok noret e.2.(pt_cept) nb;
    if r <? 0 then Ok (-1, nb)
    else push_all_email_targets e.2.(pt_cept).(em_targets) e.2.(pt_cept) nb) l.

(** [push_all_voipintercepts] with the table, in which the options are set anew. *)
Definition auth_options (ignore : Z) (v : voipintercept_t) : voipintercept_t :=
  set_vi_options (if ignore =? 1 then IGNORE_COMFORT else 0) v.
Fixpoint push_all_voipintercepts (ignore : Z) (l : list (bytes * prov_cept voipintercept_t))
    (agencies : list (bytes * prov_agency_t)) (nb : net_buffer_t)
    : outcome (Z * net_buffer_t * list (bytes * prov_cept voipintercept_t)) :=
  match l with
  | [] => Ok (0, nb, [])
  | (k, p) :: rest =>
      known ← (if p.(pt_cept).(vi_active) =? 0 then Ok false
               else agency_known agencies p.(pt_cept).(vi_common));
      if negb known then
        '(r, nb, rest) ← push_all_voipintercepts ignore rest agencies nb; Ok (r, nb, (k, p) :: rest)
      else
        let v := auth_options ignore p.(pt_cept) in
        let p := put_cept v p in
        '(r, nb) ← push_voipintercept_onto_net_buffer realloc_ok noret v nb;
        if r <? 0 then Ok (-1, nb, (k, p) :: rest) else
        '(r, nb) ← push_all_sip_targets v.(vi_targets) v nb;
        if r <? 0 then Ok (-1, nb, (k, p) :: rest) else
        '(r, nb, rest) ← push_all_voipintercepts ignore rest agencies nb; Ok (r, nb, (k, p) :: rest)
  end.

(** ** Authentication *)

(** What [respond_collector_auth] counts before it says anything. *)
Definition nothing_to_say (s : provision_state_t) : bool :=
  let c := s.(ps_interceptconf) in
  zlen s.(ps_mediators) + zlen c.(cf_radiusservers) + zlen c.(cf_gtpservers) + zlen c.(cf_sipservers) +
  zlen c.(cf_imapservers) + zlen c.(cf_pop3servers) + zlen c.(cf_smtpservers) +
  zlen c.(cf_ipintercepts) + zlen c.(cf_emailintercepts) + zlen c.(cf_voipintercepts) =? 0.

(** The pushes before the VoIP intercepts. *)
Definition push_first_half (s : provision_state_t) : pusher :=
  let c := s.(ps_interceptconf) in
  (push_all_mediators s.(ps_mediators) ;;?
   push_all_default_radius c.(cf_defradusers) ;;?
   push_default_email_compression c.(cf_default_email_deliver_compress) ;;?
   push_coreservers c.(cf_radiusservers) (core_server_code OPENLI_CORE_SERVER_RADIUS) ;;?
   push_coreservers c.(cf_gtpservers) (core_server_code OPENLI_CORE_SERVER_GTP) ;;?
   push_coreservers c.(cf_sipservers) (core_server_code OPENLI_CORE_SERVER_SIP) ;;?
   push_coreservers c.(cf_smtpservers) (core_server_code OPENLI_CORE_SERVER_SMTP) ;;?
   push_coreservers c.(cf_imapservers) (core_server_code OPENLI_CORE_SERVER_IMAP) ;;?
   push_coreservers c.(cf_pop3servers) (core_server_code OPENLI_CORE_SERVER_POP3) ;;?
   push_all_ipintercepts c.(cf_ipintercepts) c.(cf_leas))%openli.

(** [respond_collector_auth] for a connection with descriptor [fd]: the result, the buffer
    and the state. *)
Definition respond_collector_auth (fd : Z) (outgoing : net_buffer_t) (s : provision_state_t)
    : outcome (Z * net_buffer_t * provision_state_t) :=
  if nothing_to_say s then Ok (0, outgoing, s) else
  '(r, nb) ← push_first_half s outgoing;
  if r =? -1 then Ok (-1, nb, s) else
  let c := s.(ps_interceptconf) in
  '(r, nb, voip) ← push_all_voipintercepts s.(ps_ignorertpcomfort) c.(cf_voipintercepts) c.(cf_leas) nb;
  let s := set_ps_interceptconf (set_cf_voipintercepts voip c) s in
  if r =? -1 then Ok (-1, nb, s) else
  '(r, nb) ← push_all_emailintercepts c.(cf_emailintercepts) c.(cf_leas) nb;
  if r =? -1 then Ok (-1, nb, s) else
  '(r, nb) ← push_nomore_intercepts realloc_ok nb;
  if r <? 0 then Ok (-1, nb, s)
  else Ok (if enable_epoll_write epoll_mod fd =? -1 then -1 else 0, nb, s).

(** [respond_mediator_auth] *)
Definition respond_mediator_auth (fd : Z) (conf : prov_intercept_conf_t) : pusher := λ nb,
  '(r, nb) ← push_list (λ e nb,
      '(r, nb) ← push_lea_onto_net_buffer realloc_ok e.2.(pa_ag) nb;
      Ok (if r =? -1 then -1 else 0, nb)) conf.(cf_leas) nb;
  if r <? 0 then Ok (-1, nb) else
  '(r, nb) ← push_list (λ e nb,
      '(r, nb) ← push_liid_mapping_onto_net_buffer realloc_ok (Some e.2) (Some e.1) nb;
      Ok (if r =? -1 then -1 else 0, nb)) conf.(cf_liid_map) nb;
  if r <? 0 then Ok (-1, nb) else
  Ok (if enable_epoll_write epoll_mod fd =? -1 then -1 else 0, nb).

(** ** Mediators *)

(** The loops of [announce_mediator] and [announce_mediator_withdraw] over the collectors;
    both stop at the first error. *)
Fixpoint tell_collectors (push : pusher) (l : list (bytes * option prov_client_t))
    : outcome (Z * list (bytes * option prov_client_t)) :=
  match l with
  | [] => Ok (0, [])
  | (k, oc) :: rest =>
      c ← deref oc;
      let skip := '(r, rest) ← tell_collectors push rest; Ok (r, (k, Some c) :: rest) in
      match c.(cl_state), c.(cl_commev) with
      | Some cs, Some ev =>
          if ev.(cm_handshake) || negb (bool_decide (cs.(so_clientrole) = PROV_EPOLL_COLLECTOR)) ||
             (ev.(cm_fd) =? -1) || negb cs.(so_trusted) then skip else
          nb ← deref cs.(so_outgoing);
          '(r, nb) ← push nb;
          let e := (k, Some (set_cl_state (Some (set_so_outgoing (Some nb) cs)) c)) in
          if r <? 0 then Ok (-1, e :: rest) else
          if enable_epoll_write epoll_mod ev.(cm_fd) =? -1 then Ok (-1, e :: rest) else
          '(r, rest) ← tell_collectors push rest; Ok (r, e :: rest)
      | _, _ => skip
      end
  end.
Definition tell_all (push : pusher) : M Z := λ s,
  '(r, l) ← tell_collectors push s.(ps_collectors); Ok (r, set_ps_collectors l s).
(** The details are read when a collector is told; [None] is a mediator whose memory was
    freed. *)
Definition announce_mediator (med : option prov_mediator_t) : M Z :=
  tell_all (λ nb, m ← deref med; push_mediator_onto_net_buffer realloc_ok m.(pm_details) nb).
Definition announce_mediator_withdraw (med : openli_mediator_t) : M Z :=
  tell_all (push_mediator_withdraw_onto_net_buffer realloc_ok med).

(** [snprintf(identifier, 1024, "%s-%s", ...)] *)
Definition mediator_address (med : openli_mediator_t) : outcome bytes :=
  i ← c_str med.(med_ipstr); p ← c_str med.(med_portstr); Ok (ztake 1023 (i ++ of_string "-" ++ p)).

Definition get_state : M provision_state_t := λ s, Ok (s, s).
Definition update_state (f : provision_state_t → provision_state_t) : M unit := λ s, Ok (tt, f s).

(** The second half of [update_mediator_details]: collectors must not connect to the
    address for another mediator any more.  The descriptor of the mediator that is
    announced at the end is the one in the table; if it was removed as the other mediator,
    its memory has been freed. *)
Definition claim_mediator_address (id : Z) (med : openli_mediator_t) : M Z :=
  identifier ← lift (mediator_address med);
  s ← get_state;
  _ ← match hash_find identifier s.(ps_knownmeds) with
      | None => update_state (λ s, set_ps_knownmeds (hash_add identifier id s.(ps_knownmeds)) s)
      | Some medid =>
          _ ← update_state (λ s, set_ps_knownmeds (hash_update identifier id s.(ps_knownmeds)) s);
          match hash_find medid s.(ps_mediators) with
          | None => mret tt
          | Some prevmed =>
              _ ← announce_mediator_withdraw prevmed.(pm_details);
              c ← lift (deref prevmed.(pm_client));
              _ ← lift (disconnect_provisioner_client c);
              update_state (λ s, set_ps_mediators (hash_delete medid s.(ps_mediators)) s)
          end
      end;
  s ← get_state;
  _ ← announce_mediator (hash_find id s.(ps_mediators));
  mret 0.

(** [update_mediator_details] for a message from the client [clientname]. *)
Definition update_mediator_details (medmsg : bytes) (msglen : Z) (med0 : openli_mediator_t)
    (clientname : bytes) : M Z :=
  '(r, med) ← lift (decode_mediator_announcement medmsg msglen med0);
  if r =? -1 then mret (-1) else
  s ← get_state;
  match hash_find clientname s.(ps_pendingclients) with
  | None => mret (-1)
  | Some pending =>
      let id := med.(med_mediatorid) in
      skipannounce ← match hash_find id s.(ps_mediators) with
        | None =>
            _ ← update_state (λ s, set_ps_mediators (hash_add id (Mkprov_mediator_t None med) s.(ps_mediators)) s);
            mret false
        | Some prevmed =>
            same ← lift (same_then prevmed.(pm_details).(med_ipstr) med.(med_ipstr)
                          (same_then prevmed.(pm_details).(med_portstr) med.(med_portstr) (Ok true)));
            _ ← update_state (λ s, set_ps_mediators
                  (hash_update id (Mkprov_mediator_t prevmed.(pm_client) med) s.(ps_mediators)) s);
            _ ← match prevmed.(pm_client) with
                | None => mret tt
                | Some c => _ ← lift (disconnect_provisioner_client c); mret tt
                end;
            mret same
        end;
      _ ← update_state (λ s, set_ps_pendingclients (hash_delete clientname s.(ps_pendingclients))
            (set_ps_mediators (hash_update id (Mkprov_mediator_t (Some pending) med) s.(ps_mediators)) s));
      if (skipannounce : bool) then mret 0 else claim_mediator_address id med
  end.

(** [add_collector_to_hashmap] *)
Definition add_collector_to_hashmap (identifier : bytes) (client : prov_client_t) : M Z :=
  s ← get_state;
  _ ← (match hash_find identifier s.(ps_collectors) with
       | None => update_state (λ s, set_ps_collectors (hash_add identifier (Some client) s.(ps_collectors)) s)
       | Some _ => mret tt
       end);
  _ ← update_state (λ s, set_ps_pendingclients (hash_delete identifier s.(ps_pendingclients)) s);
  mret 0.

End auth.
