(* ===== verification/ProvProps.v ===== *)
(** * What the provisioner's clients hear

    The loops over the clients are summed up by [says]: an operation adds given bytes to
    the buffer of every collector and given bytes to that of every mediator that is
    connected and trusted, or the client is disconnected because the kernel refused;
    everything else stays as it was, apart from the map of LIIDs.  HI1 notifications follow a protocol of
    their own, which is proved for everything that can happen to an intercept. *)

From stdpp Require Import gmap.
From S2P Require Import Prelude ByteOrder Protocol Intercept NetBuffer NetPush NetDecode NetFormat NetMessages Publish Radius HashTable SyncSessions SyncIntercepts Provisioner ProvReload ProvAuth.

(** ** One client *)

(** The descriptor and the buffer of a client that is told about changes. *)
Definition hears (o : option prov_client_t) : option (Z * net_buffer_t) :=
  c ← o; ev ← c.(cl_commev); s ← c.(cl_state);
  if negb s.(so_trusted) || s.(so_halted) then None else nb ← s.(so_outgoing); Some (ev.(cm_fd), nb).

Section told.
Context (realloc_ok : Z → bool) (noret : Z) (Hnoret : noret ≠ -1).
Context (epoll_mod : Z → bool).

(** A client that can take [n] more bytes. *)
Definition client_ok (n : Z) (o : option prov_client_t) : Prop :=
  match o with
  | None => True
  | Some c =>
      match c.(cl_commev) with
      | None => True
      | Some _ => ∃ s, c.(cl_state) = Some s ∧
          (negb s.(so_trusted) || s.(so_halted) = false →
           ∃ nb, s.(so_outgoing) = Some nb ∧ nb_wf nb ∧ can_hold realloc_ok nb n)
      end
  end.

Definition told (bs : bytes) (o o' : option prov_client_t) : Prop :=
  match hears o with
  | None => o' = o
  | Some (fd, nb) =>
      (∃ nb', hears o' = Some (fd, nb') ∧ nb_content nb' = nb_content nb ++ bs) ∨
      (epoll_mod fd = false ∧ hears o' = None)
  end.

Lemma told_nil o : told [] o o.
Proof. unfold told. destruct (hears o) as [[fd nb]|]; [|done]. left. exists nb. by rewrite app_nil_r. Qed.
Lemma told_app bs bs' o1 o2 o3 : told bs o1 o2 → told bs' o2 o3 → told (bs ++ bs') o1 o3.
Proof.
  unfold told. destruct (hears o1) as [[fd nb]|] eqn:E1; [|intros -> H; by rewrite E1 in H].
  intros [(nb2 & E2 & C2)|[Hf E2]]; rewrite E2.
  - intros [(nb3 & E3 & C3)|[Hf E3]]; [|by right]. left. exists nb3. split; [done|]. by rewrite C3, C2, app_assoc.
  - intros ->. by right.
Qed.

Lemma client_ok_le n m o : client_ok n o → m ≤ n → client_ok m o.
Proof.
  destruct o as [c|]; [|done]. unfold client_ok. destruct (cl_commev c); [|done].
  intros (s & Hs & H) Hm. exists s. split; [done|]. intros Ht. destruct (H Ht) as (nb & ? & ? & ?).
  exists nb. split_and!; [done..|]. by eapply can_hold_le.
Qed.

Lemma send_client_told push failed bs r n o :
  appends realloc_ok push bs r → r ≠ -1 → failed r = false → 0 ≤ n → client_ok (zlen bs + n) o →
  ∃ o', send_client epoll_mod push failed o = Ok o' ∧ told bs o o' ∧ client_ok n o'.
Proof.
  intros Hp Hr1 Hr Hn Ho. destruct o as [c|]; [|by exists None]. unfold client_ok in Ho. cbn [send_client].
  destruct (cl_commev c) as [ev|] eqn:Ec.
  2:{ exists (Some c). split; [done|]. split; [unfold told, hears; cbn; by rewrite Ec|].
      unfold client_ok. by rewrite Ec. }
  destruct Ho as (s & Hs & Ho). rewrite Hs. cbn [deref mbind outcome_bind].
  destruct (negb (so_trusted s) || so_halted s) eqn:Et.
  { exists (Some c). split; [done|]. split.
    - unfold told, hears. cbn. rewrite Ec. cbn. rewrite Hs. cbn. by rewrite Et.
    - unfold client_ok. rewrite Ec. exists s. split; [done|]. by rewrite Et. }
  destruct (Ho eq_refl) as (nb & Hnb & Hwf & Hc). rewrite Hnb. cbn [deref mbind outcome_bind].
  assert (Hh : hears (Some c) = Some (ev.(cm_fd), nb)).
  { unfold hears. cbn. rewrite Ec. cbn. rewrite Hs. cbn. by rewrite Et, Hnb. }
  destruct (Hp nb Hwf) as [Hp1 Hp2]. destruct Hp1 as [nb' E]; [eapply can_hold_le; [done|lia]|].
  rewrite E. cbn [mbind outcome_bind]. rewrite Hr.
  destruct (Hp2 _ _ E) as (Hwf' & _ & [(_ & Hcont & Hroom)|(? & _)]); [|done].
  set (c' := set_cl_state (Some (set_so_outgoing (Some nb') s)) c).
  assert (Hev : cl_commev c' = Some ev) by done.
  unfold enable_epoll_write. destruct (cm_fd ev =? -1) eqn:Ef; [|destruct (epoll_mod (cm_fd ev)) eqn:Em].
  3:{ cbn [Z.eqb Pos.eqb]. exists (Some (Mkprov_client_t None false (if decide (so_clientrole s = PROV_EPOLL_MEDIATOR) then false else true) false
        (Some (halted_sock (set_so_outgoing (Some nb') s))))). split; [done|]. split; [|done].
      unfold told. rewrite Hh. by right. }
  all: exists (Some c'); split; [done|]; split.
  all: try (unfold client_ok; rewrite Hev; eexists; split; [done|]; intros _; exists nb'; split_and!; [done..|];
            by apply Hroom).
  all: unfold told; rewrite Hh; left; exists nb'; split; [|done]; unfold hears, c'; cbn; rewrite Ec; cbn; by rewrite Et.
Qed.

(** ** Tables of clients *)

Definition all_told {K V} (get : V → option prov_client_t) (bs : bytes) (l l' : list (K * V)) : Prop :=
  Forall2 (λ e e', e'.1 = e.1 ∧ told bs (get e.2) (get e'.2)) l l'.
Definition all_ok {K V} (get : V → option prov_client_t) (n : Z) (l : list (K * V)) : Prop :=
  Forall (λ e, client_ok n (get e.2)) l.

Lemma all_told_nil {K V} (get : V → option prov_client_t) (l : list (K * V)) : all_told get [] l l.
Proof. apply Forall_Forall2_diag, Forall_forall. intros e _. split; [done|apply told_nil]. Qed.
Lemma all_told_app {K V} (get : V → option prov_client_t) bs bs' (l1 l2 l3 : list (K * V)) :
  all_told get bs l1 l2 → all_told get bs' l2 l3 → all_told get (bs ++ bs') l1 l3.
Proof.
  intros H12 H23. revert l3 H23. induction H12 as [|e1 e2 l1 l2 [K12 T12] _ IH]; intros l3 H23; inversion H23; subst.
  - constructor.
  - constructor; [|by apply IH]. destruct H1 as [K23 T23]. split; [congruence|]. by eapply told_app.
Qed.

Lemma map_entries_told {K V} (get : V → option prov_client_t) (f : V → outcome V) bs n (l : list (K * V)) :
  (∀ v, client_ok (zlen bs + n) (get v) → ∃ v', f v = Ok v' ∧ told bs (get v) (get v') ∧ client_ok n (get v')) →
  all_ok get (zlen bs + n) l →
  ∃ l', map_entries f l = Ok l' ∧ all_told get bs l l' ∧ all_ok get n l'.
Proof.
  intros Hf. induction 1 as [|[k v] l Hv _ (l' & E & T & O)]; [exists []; split_and!; [done|constructor..]|].
  destruct (Hf v Hv) as (v' & Ev & Tv & Ov). exists ((k, v') :: l'). cbn [map_entries]. rewrite Ev, E.
  split; [done|]. split; by constructor.
Qed.

(** Everything about the state but the clients and the map of LIIDs. *)
Definition rest_of (s : provision_state_t) :=
  (set_cf_liid_map [] s.(ps_interceptconf), s.(ps_ignorertpcomfort), s.(ps_pendingclients), s.(ps_knownmeds),
   (λ e, (e.1, e.2.(pm_details))) <$> s.(ps_mediators)).

Definition heard (cols meds : bytes) (s s' : provision_state_t) : Prop :=
  all_told id cols s.(ps_collectors) s'.(ps_collectors) ∧
  all_told pm_client meds s.(ps_mediators) s'.(ps_mediators) ∧
  rest_of s' = rest_of s.
Definition roomy (n m : Z) (s : provision_state_t) : Prop :=
  all_ok id n s.(ps_collectors) ∧ all_ok pm_client m s.(ps_mediators).

(** The operation returns [r] and adds [cols] to what collectors, [meds] to what mediators
    are told, if the buffers have room for it. *)
Definition says {A} (m : ST provision_state_t A) (cols meds : bytes) (r : A) : Prop :=
  ∀ n k s, 0 ≤ n → 0 ≤ k → roomy (zlen cols + n) (zlen meds + k) s →
    ∃ s', m s = Ok (r, s') ∧ heard cols meds s s' ∧ roomy n k s'.

Lemma says_ret {A} (a : A) : says (mret a) [] [] a.
Proof.
  intros n k s _ _ Hs. exists s. split; [done|]. split; [|done]. split_and!; [apply all_told_nil..|done].
Qed.
Lemma says_lift {A} (o : outcome A) a : o = Ok a → says (lift o) [] [] a.
Proof. intros ->. exact (says_ret a). Qed.
Lemma says_bind {A B} (m : ST provision_state_t A) (f : A → ST provision_state_t B) c1 c2 m1 m2 a b :
  says m c1 m1 a → says (f a) c2 m2 b → says (m ≫= f) (c1 ++ c2) (m1 ++ m2) b.
Proof.
  intros Hm Hf n k s Hn Hk Hs. rewrite !zlen_app in Hs.
  pose proof (zlen_nonneg c2). pose proof (zlen_nonneg m2).
  destruct (Hm (zlen c2 + n) (zlen m2 + k) s) as (s1 & E1 & (T1 & U1 & R1) & O1); [lia..|by rewrite !Z.add_assoc|].
  destruct (Hf n k s1 Hn Hk O1) as (s2 & E2 & (T2 & U2 & R2) & O2).
  exists s2. split; [unfold mbind, ST_bind; by rewrite E1|]. split; [|done].
  split_and!; [by eapply all_told_app..|congruence].
Qed.
Lemma says_eq {A} (m : ST provision_state_t A) c m' r c2 m2 r2 :
  says m c m' r → c = c2 → m' = m2 → r = r2 → says m c2 m2 r2.
Proof. by intros ? -> -> ->. Qed.
(** Steps that tell nobody anything. *)
Lemma says_quiet {A B} (m : ST provision_state_t A) (f : A → ST provision_state_t B) a c m' b :
  says m [] [] a → says (f a) c m' b → says (m ≫= f) c m' b.
Proof. intros Hm Hf. exact (says_bind m f [] c [] m' a b Hm Hf). Qed.
Lemma says_then {A B} (m : ST provision_state_t A) (f : A → ST provision_state_t B) c m' a b :
  says m c m' a → says (f a) [] [] b → says (m ≫= f) c m' b.
Proof.
  intros Hm Hf. eapply says_eq; [by eapply says_bind|by rewrite app_nil_r..|done].
Qed.

(** ** The two loops *)

Lemma says_collectors push failed bs r :
  appends realloc_ok push bs r → r ≠ -1 → failed r = false →
  says (send_all_collectors epoll_mod push failed) bs [] tt.
Proof.
  intros Hp Hr Hf n k s Hn Hk [Hc Hm]. unfold send_all_collectors.
  destruct (map_entries_told id (send_client epoll_mod push failed) bs n (ps_collectors s)) as (l & E & T & O); [|done|].
  { intros v Hv. by eapply send_client_told. }
  rewrite E. cbn [mbind outcome_bind]. exists (set_ps_collectors l s). split; [done|]. split; [|done].
  split_and!; [done|apply all_told_nil|done].
Qed.
Lemma map_entries_details f (l l' : list (Z * prov_mediator_t)) :
  (∀ v v', f v = Ok v' → v'.(pm_details) = v.(pm_details)) → map_entries f l = Ok l' →
  (λ e, (e.1, e.2.(pm_details))) <$> l' = (λ e, (e.1, e.2.(pm_details))) <$> l.
Proof.
  intros Hf. revert l'. induction l as [|[k v] l IH]; intros l'; [by intros [= <-]|]. cbn [map_entries].
  destruct (f v) as [v'| |] eqn:Ev; cbn [mbind outcome_bind]; [|done..].
  destruct (map_entries f l) as [l1| |] eqn:El; cbn [mbind outcome_bind]; [|done..]. intros [= <-].
  cbn. f_equal; [by rewrite (Hf _ _ Ev)|by apply IH].
Qed.
Lemma says_mediators push failed bs r :
  appends realloc_ok push bs r → r ≠ -1 → failed r = false →
  says (send_all_mediators epoll_mod push failed) [] bs tt.
Proof.
  intros Hp Hr Hf n k s Hn Hk [Hc Hm]. unfold send_all_mediators.
  destruct (map_entries_told pm_client (send_mediator epoll_mod push failed) bs k (ps_mediators s)) as (l & E & T & O); [|done|].
  { intros v Hv. destruct (send_client_told push failed bs r k (pm_client v)) as (o & Eo & To & Oo); [done..|].
    exists (Mkprov_mediator_t o (pm_details v)). unfold send_mediator. by rewrite Eo. }
  rewrite E. cbn [mbind outcome_bind]. exists (set_ps_mediators l s). split; [done|]. split; [|done].
  split_and!; [apply all_told_nil|done|]. unfold rest_of. cbn. f_equal.
  eapply map_entries_details; [|done]. intros v v'. unfold send_mediator.
  destruct (send_client _ _ _ _); cbn [mbind outcome_bind]; [by intros [= <-]|done..].
Qed.

(** An object of a wire format is told to everybody. *)
Lemma says_format_mediators {A B} (F : wire_format A B) a failed :
  F.(wm_ok) a → failed = is_minus_one →
  says (send_all_mediators epoll_mod (F.(wm_push) realloc_ok noret a) failed)
    [] (wire_frame F.(wm_type) 0 (wire_body (F.(wm_fields) a))) tt.
Proof.
  intros Ha ->. destruct (F.(wm_push_law) realloc_ok noret a Hnoret Ha) as (r & Hr & Hp).
  eapply says_mediators; [done|done|]. by apply Z.eqb_neq.
Qed.
Lemma says_format_collectors {A B} (F : wire_format A B) a failed :
  F.(wm_ok) a → failed = is_minus_one →
  says (send_all_collectors epoll_mod (F.(wm_push) realloc_ok noret a) failed)
    (wire_frame F.(wm_type) 0 (wire_body (F.(wm_fields) a))) [] tt.
Proof.
  intros Ha ->. destruct (F.(wm_push_law) realloc_ok noret a Hnoret Ha) as (r & Hr & Hp).
  eapply says_collectors; [done|done|]. by apply Z.eqb_neq.
Qed.
End told.
