(* ===== verification/ProvHi1.v ===== *)
(** * HI1 notifications of an intercept

    Mediators tell agencies when an intercept starts, changes and ends.  The provisioner
    sends them notifications from many places: when an intercept is added, changed or
    withdrawn, when the configuration is reloaded, and when a timer fires.  Two flags in the
    intercept decide which are sent.  Here it is proved that, whatever the order of these
    events, what an agency sees is a legal and numbered stream ([hi1_stream]); and that a
    change of the agency by a reload breaks it. *)

From stdpp Require Import gmap.
From S2P Require Import Prelude ByteOrder Protocol Intercept NetBuffer NetPush NetDecode NetFormat NetMessages Publish Radius HashTable SyncSessions SyncIntercepts Provisioner ProvReload ProvAuth ProvProps NetSamples.

(** ** Legal streams *)

(** From a state (active or not, number of the next notification) to another. *)
Inductive hi1_stream : bool → Z → list hi1_notify_data_t → bool → Z → Prop :=
  | hs_end a n : hi1_stream a n [] a n
  | hs_activated n nd l b m :
      nd.(nd_notify_type) = hi1_code HI1_LI_ACTIVATED → nd.(nd_seqno) = n →
      hi1_stream true (u32 (n + 1)) l b m → hi1_stream false n (nd :: l) b m
  | hs_modified n nd l b m :
      nd.(nd_notify_type) = hi1_code HI1_LI_MODIFIED → nd.(nd_seqno) = n →
      hi1_stream true (u32 (n + 1)) l b m → hi1_stream true n (nd :: l) b m
  | hs_deactivated n nd l b m :
      nd.(nd_notify_type) = hi1_code HI1_LI_DEACTIVATED → nd.(nd_seqno) = n →
      hi1_stream false (u32 (n + 1)) l b m → hi1_stream true n (nd :: l) b m.

Lemma hi1_stream_app a n l b m l' c k :
  hi1_stream a n l b m → hi1_stream b m l' c k → hi1_stream a n (l ++ l') c k.
Proof.
  induction 1; intros H'; [done|apply hs_activated|apply hs_modified|apply hs_deactivated]; auto.
Qed.

Definition notes_wire (l : list hi1_notify_data_t) : bytes :=
  concat ((λ nd, wire_frame OPENLI_PROTO_HI1_NOTIFICATION 0 (wire_body (hi1_fields nd))) <$> l).
Lemma notes_wire_app l l' : notes_wire (l ++ l') = notes_wire l ++ notes_wire l'.
Proof. unfold notes_wire. by rewrite fmap_app, concat_app. Qed.

(** ** Intercepts that can be sent *)

Record hi1_common_ok (c : intercept_common_t) : Prop := {
  hco_liid : good_str c.(ic_liid);
  hco_authcc : good_str c.(ic_authcc);
  hco_delivcc : good_str c.(ic_delivcc);
  hco_agency : good_str c.(ic_targetagency);
  hco_seqno : 0 ≤ c.(ic_hi1_seqno) < 2 ^ 32;
}.
Definition target_ok (t : cstring) : Prop := t = None ∨ good_str t ∧ str_val t ≠ [].

Definition hi1_active (h : hi1_cept) : bool := flag pd_start_hi1_sent h.
Definition hi1_next (h : hi1_cept) : Z := h.(hc_common).(ic_hi1_seqno).

(** The flags are never both set. *)
Definition hi1_wf (h : hi1_cept) : Prop :=
  hi1_common_ok h.(hc_common) ∧
  ∃ d, h.(hc_local) = Some d ∧ d.(pd_start_hi1_sent) && d.(pd_end_hi1_sent) = false.

(** [h] becomes [h'] while [notes] are sent. *)
Definition hi1_moves (h : hi1_cept) (notes : list hi1_notify_data_t) (h' : hi1_cept) : Prop :=
  hi1_stream (hi1_active h) (hi1_next h) notes (hi1_active h') (hi1_next h') ∧ hi1_wf h' ∧
  h'.(hc_common) = set_ic_hi1_seqno (hi1_next h') h.(hc_common).

Lemma set_seqno_same c : set_ic_hi1_seqno c.(ic_hi1_seqno) c = c.
Proof. by destruct c. Qed.
Lemma seqno_ok n c : hi1_common_ok c → 0 ≤ n < 2 ^ 32 → hi1_common_ok (set_ic_hi1_seqno n c).
Proof. intros [] ?. by split. Qed.
Lemma hi1_moves_trans h l h' l' h'' : hi1_moves h l h' → hi1_moves h' l' h'' → hi1_moves h (l ++ l') h''.
Proof.
  intros (S1 & W1 & C1) (S2 & W2 & C2). split; [by eapply hi1_stream_app|]. split; [done|]. by rewrite C2, C1.
Qed.
(** Timers, and the flag about the end of an intercept, may change freely. *)
Lemma hi1_moves_quiet h f :
  hi1_wf h → (∀ d, (f d).(pd_start_hi1_sent) = d.(pd_start_hi1_sent) ∧
                   ((f d).(pd_end_hi1_sent) = d.(pd_end_hi1_sent) ∨ (f d).(pd_end_hi1_sent) = false)) →
  hi1_moves h [] (with_local f h).
Proof.
  intros (Hc & d & Hd & Hf) H. destruct (H d) as [E1 E2]. unfold with_local. rewrite Hd. cbn. split; [|split].
  - unfold hi1_active, hi1_next, flag. cbn. rewrite Hd, E1. constructor.
  - split; [done|]. eexists. split; [done|]. rewrite E1. destruct E2 as [-> | ->]; [done|by rewrite andb_false_r].
  - unfold hi1_next. cbn. by rewrite set_seqno_same.
Qed.
Lemma hi1_moves_refl h : hi1_wf h → hi1_moves h [] h.
Proof. intros Hh. split; [constructor|]. split; [done|]. unfold hi1_next. by rewrite set_seqno_same. Qed.

Section hi1.
Context (realloc_ok : Z → bool) (noret : Z) (Hnoret : noret ≠ -1).
Context (epoll_mod epoll_del : Z → bool) (epoll_add_timer : Z → Z).
Abbreviation says := (says realloc_ok epoll_mod).

(** [m] sends some notifications that take [h] to its result. *)
Definition moves {A} (m : ST provision_state_t A) (h : hi1_cept) (a : A) (h' : hi1_cept) : Prop :=
  ∃ notes, says m [] (notes_wire notes) a ∧ hi1_moves h notes h'.

Lemma moves_ret {A} (a : A) h : hi1_wf h → moves (mret a) h a h.
Proof. intros. exists []. split; [apply says_ret|by apply hi1_moves_refl]. Qed.
Lemma moves_bind {A B} (m : ST provision_state_t A) (f : A → ST provision_state_t B) h a h1 b h2 :
  moves m h a h1 → moves (f a) h1 b h2 → moves (m ≫= f) h b h2.
Proof.
  intros (l & S1 & M1) (l' & S2 & M2). exists (l ++ l'). rewrite notes_wire_app. split; [|by eapply hi1_moves_trans].
  exact (says_bind realloc_ok epoll_mod m f [] [] _ _ a b S1 S2).
Qed.
(** Steps before that tell nothing. *)
Lemma moves_after {A} (m : ST provision_state_t A) h h1 a h2 : hi1_moves h [] h1 → moves m h1 a h2 → moves m h a h2.
Proof. intros H (l & S & M). exists l. split; [done|]. exact (hi1_moves_trans h [] h1 l h2 H M). Qed.
Lemma moves_wf {A} (m : ST provision_state_t A) h a h' : moves m h a h' → hi1_wf h'.
Proof. by intros (l & _ & _ & ? & _). Qed.
Lemma moves_common {A} (m : ST provision_state_t A) h a h' :
  moves m h a h' → ∃ n, h'.(hc_common) = set_ic_hi1_seqno n h.(hc_common).
Proof. intros (l & _ & _ & _ & ?). by eexists. Qed.

Section now.
Context (now usec : Z) (Hnow : 0 ≤ now < 2 ^ 64) (Husec : 0 ≤ usec < 2 ^ 32).
Abbreviation announce := (announce_hi1_notification_to_mediators realloc_ok epoll_mod now usec).

Lemma hi1_data_ok t c target : hi1_common_ok c → target_ok target → hi1_ok (hi1_data now usec t c target).
Proof. intros [] Ht. split; try done. destruct t; cbn; lia. Qed.

Lemma says_note t c target :
  hi1_common_ok c → target_ok target →
  says (send_all_mediators epoll_mod (push_hi1_notification_onto_net_buffer realloc_ok (hi1_data now usec t c target)) is_minus_one)
    [] (notes_wire [hi1_data now usec t c target]) tt.
Proof.
  intros Hc Ht. unfold notes_wire. cbn [fmap list_fmap concat]. rewrite app_nil_r.
  apply (says_format_mediators realloc_ok noret Hnoret epoll_mod hi1_format); [by apply hi1_data_ok|done].
Qed.

(** What the flags decide is legal. *)
Lemma hi1_decide_legal t start d c target sent d' :
  t ≠ HI1_ALARM → d.(pd_start_hi1_sent) && d.(pd_end_hi1_sent) = false → hi1_decide now t start d = (sent, d') →
  d'.(pd_start_hi1_sent) && d'.(pd_end_hi1_sent) = false ∧
  match sent with
  | None => d' = d
  | Some t' => hi1_stream d.(pd_start_hi1_sent) c.(ic_hi1_seqno) [hi1_data now usec t' c target]
                 d'.(pd_start_hi1_sent) (u32 (c.(ic_hi1_seqno) + 1))
  end.
Proof.
  intros Ht Hf. unfold hi1_decide. destruct d as [ts te [] []]; cbn in Hf; [done|..];
    destruct t; try done; cbn; try destruct (now <? start);
    intros [= <- <-]; (split; [done|]); try done; by do 2 econstructor.
Qed.

Lemma announce_moves h target t :
  hi1_wf h → target_ok target → t ≠ HI1_ALARM →
  ∃ r h', 0 ≤ r ∧ moves (announce h target t) h (r, h') h'.
Proof.
  intros (Hc & d & Hd & Hf) Htg Ht. unfold announce_hi1_notification_to_mediators. rewrite Hd.
  destruct (hi1_decide now t _ d) as [sent d'] eqn:E.
  destruct (hi1_decide_legal t _ d h.(hc_common) target sent d' Ht Hf E) as [Hf' Hs].
  destruct sent as [t'|].
  - eexists 1, _. split; [done|]. exists [hi1_data now usec t' h.(hc_common) target]. split.
    + eapply (says_then realloc_ok epoll_mod); [by apply says_note|]. apply says_ret.
    + split; [|split].
      * unfold hi1_active, hi1_next, flag. cbn. by rewrite Hd.
      * split; [|by exists d']. cbn. apply seqno_ok; [done|]. unfold u32. apply Z.mod_pos_bound. lia.
      * done.
  - subst d'. eexists 0, _. split; [done|]. replace (set_hc_local (Some d) h) with h by (destruct h; cbn in *; by subst).
    apply moves_ret. split; [done|]. by exists d.
Qed.
Lemma announce_hi1_moves h target t :
  hi1_wf h → target_ok target → t ≠ HI1_ALARM →
  ∃ h', moves (announce_hi1 realloc_ok epoll_mod now usec h target t) h h' h'.
Proof.
  intros Hh Htg Ht. destruct (announce_moves h target t Hh Htg Ht) as (r & h' & _ & M). exists h'.
  unfold announce_hi1. eapply moves_bind; [exact M|]. apply moves_ret. by eapply moves_wf.
Qed.

Lemma add_timer_flags tssec d t r d' :
  add_intercept_timer epoll_add_timer now tssec d t = (r, d') →
  d'.(pd_start_hi1_sent) = d.(pd_start_hi1_sent) ∧ d'.(pd_end_hi1_sent) = d.(pd_end_hi1_sent).
Proof.
  unfold add_intercept_timer. destruct (_ || _); [by intros [= <- <-]|].
  destruct (_ =? -1); destruct t; by intros [= <- <-].
Qed.
Lemma timer_on_moves tssec t h r h' :
  hi1_wf h → timer_on epoll_add_timer now tssec t h = (r, h') → hi1_moves h [] h'.
Proof.
  intros Hh. unfold timer_on. pose proof Hh as (_ & d & Hd & _). rewrite Hd.
  destruct (add_intercept_timer _ _ _ d t) as [r1 d1] eqn:E. intros [= <- <-].
  replace (set_hc_local (Some d1) h) with (with_local (λ d0, if decide (d0 = d) then d1 else d0) h).
  2:{ unfold with_local. rewrite Hd. cbn. by rewrite decide_True. }
  apply hi1_moves_quiet; [done|]. intros d0. destruct (add_timer_flags _ _ _ _ _ E).
  destruct (decide (d0 = d)) as [->|]; auto.
Qed.

Lemma when_announce_moves (b : bool) h target t :
  hi1_wf h → target_ok target → t ≠ HI1_ALARM →
  ∃ h', moves (if b then announce_hi1 realloc_ok epoll_mod now usec h target t else mret h) h h' h'.
Proof.
  intros Hh Htg Ht. destruct b; [by apply announce_hi1_moves|]. exists h. by apply moves_ret.
Qed.
Lemma end_flag_moves h : hi1_wf h → hi1_moves h [] (with_local (set_pd_end_hi1_sent false) h).
Proof. intros. apply hi1_moves_quiet; [done|]. intros d. split; [done|by right]. Qed.

Lemma reset_start_moves target h :
  hi1_wf h → target_ok target →
  ∃ r h', moves (reset_start realloc_ok epoll_mod epoll_add_timer now usec target h) h (r, h') h'.
Proof.
  intros Hh Htg. unfold reset_start. cbv zeta. destruct (_ && _).
  - edestruct (when_announce_moves (flag pd_start_hi1_sent h && negb (flag pd_end_hi1_sent h)) h target HI1_LI_DEACTIVATED)
      as (h1 & M1); [done..|].
    destruct (timer_on epoll_add_timer now (ic_tostart_time (hc_common h)) PROV_EPOLL_INTERCEPT_START h1) as [r h2] eqn:E.
    pose proof (timer_on_moves _ _ _ _ _ (moves_wf _ _ _ _ M1) E) as M2. eexists _, h2.
    eapply moves_bind; [exact M1|]. rewrite E. eapply moves_after; [exact M2|]. apply moves_ret. apply M2.
  - destruct (_ && _); [|eexists _, h; by apply moves_ret].
    destruct (announce_hi1_moves h target HI1_LI_ACTIVATED) as (h1 & M1); [done..|]. eexists _, h1.
    eapply moves_bind; [exact M1|]. apply moves_ret. by eapply moves_wf.
Qed.
Lemma reset_end_moves target h :
  hi1_wf h → target_ok target →
  ∃ r h', moves (reset_end realloc_ok epoll_mod epoll_add_timer now usec target h) h (r, h') h'.
Proof.
  intros Hh Htg. unfold reset_end. cbv zeta. destruct (_ && _); [|destruct (_ && _); [|destruct (_ =? _)]].
  - destruct (timer_on epoll_add_timer now (ic_toend_time (hc_common h)) PROV_EPOLL_INTERCEPT_HALT h) as [r h1] eqn:E.
    pose proof (timer_on_moves _ _ _ _ _ Hh E) as M1. pose proof (proj1 (proj2 M1)) as W1.
    destruct (r <? 0); [eexists _, h1; eapply moves_after; [exact M1|by apply moves_ret]|].
    edestruct (when_announce_moves (flag pd_end_hi1_sent h1 && (ic_tostart_time (hc_common h) <? now)) h1 target HI1_LI_ACTIVATED)
      as (h2 & M2); [done..|]. pose proof (end_flag_moves h2 (moves_wf _ _ _ _ M2)) as M3.
    eexists _, _. eapply moves_after; [exact M1|]. eapply moves_bind; [exact M2|].
    eapply moves_after; [exact M3|]. apply moves_ret. apply M3.
  - destruct (announce_hi1_moves h target HI1_LI_DEACTIVATED) as (h1 & M1); [done..|]. eexists _, h1.
    eapply moves_bind; [exact M1|]. apply moves_ret. by eapply moves_wf.
  - edestruct (when_announce_moves (flag pd_end_hi1_sent h && (ic_tostart_time (hc_common h) <? now)) h target HI1_LI_ACTIVATED)
      as (h2 & M2); [done..|]. pose proof (end_flag_moves h2 (moves_wf _ _ _ _ M2)) as M3.
    eexists _, _. eapply moves_bind; [exact M2|]. eapply moves_after; [exact M3|]. apply moves_ret. apply M3.
  - eexists _, h. by apply moves_ret.
Qed.

Lemma reset_moves target h :
  hi1_wf h → target_ok target →
  ∃ r h', moves (reset_intercept_timers realloc_ok epoll_mod epoll_del epoll_add_timer now usec h target) h (r, h') h'.
Proof.
  intros Hh Htg. unfold reset_intercept_timers. pose proof Hh as (_ & d & Hd & _). rewrite Hd.
  set (f d := set_pd_end_timer (halt_intercept_timer epoll_del d.(pd_end_timer))
                (set_pd_start_timer (halt_intercept_timer epoll_del d.(pd_start_timer)) d)).
  assert (M0 : hi1_moves h [] (with_local f h)) by (apply hi1_moves_quiet; [done|]; intros d0; split; [done|by left]).
  unfold with_local in M0. rewrite Hd in M0. cbn in M0. change (set_pd_end_timer _ _) with (f d). cbv zeta.
  set (h1 := set_hc_local (Some (f d)) h) in *. pose proof (proj1 (proj2 M0)) as W1.
  destruct (_ && _); [eexists _, h1; eapply moves_after; [exact M0|by apply moves_ret]|].
  destruct (reset_start_moves target h1) as (r1 & h2 & M1); [done..|]. pose proof (moves_wf _ _ _ _ M1) as W2.
  destruct (r1 <? 0) eqn:E1.
  { eexists _, h2. eapply moves_after; [exact M0|]. eapply moves_bind; [exact M1|]. cbn beta iota. rewrite E1. by apply moves_ret. }
  destruct (reset_end_moves target h2) as (r2 & h3 & M2); [done..|]. eexists _, h3.
  eapply moves_after; [exact M0|]. eapply moves_bind; [exact M1|]. cbn beta iota. rewrite E1.
  eapply moves_bind; [exact M2|]. cbn beta iota. apply moves_ret. by eapply moves_wf.
Qed.

(** An intercept that takes over the notifications of another one. *)
Definition continues (old new : hi1_cept) : hi1_cept :=
  Mkhi1_cept (set_ic_hi1_seqno (hi1_next old) new.(hc_common))
    ((λ d, set_pd_end_hi1_sent (flag pd_end_hi1_sent old)
             (set_pd_start_hi1_sent (flag pd_start_hi1_sent old) d)) <$> new.(hc_local)).
Lemma continues_wf old new :
  hi1_wf old → hi1_common_ok new.(hc_common) → is_Some new.(hc_local) → hi1_wf (continues old new).
Proof.
  intros (Ho & d & Hd & Hf) Hn [d' Hd']. unfold continues, flag. rewrite Hd, Hd'. cbn. split; [|by eexists].
  cbn. apply seqno_ok; [done|]. apply Ho.
Qed.
Lemma continues_state old new :
  is_Some new.(hc_local) → hi1_active (continues old new) = hi1_active old ∧ hi1_next (continues old new) = hi1_next old.
Proof. intros [d Hd]. unfold hi1_active, hi1_next, continues, flag at 1. by rewrite Hd. Qed.

Lemma update_reconfigured_moves old new intconf changed dropped old_targets new_targets :
  hi1_wf old → hi1_common_ok new.(hc_common) → is_Some new.(hc_local) → target_ok new_targets →
  ∃ h', moves (update_reconfigured_intercept realloc_ok epoll_mod epoll_del epoll_add_timer now usec
                 old new intconf changed false dropped old_targets new_targets)
          (continues old new) (0, free_prov_intercept_data old, h', intconf) h'.
Proof.
  intros Ho Hn [d Hd] Htg. pose proof Ho as (_ & do & Hdo & _). unfold update_reconfigured_intercept.
  pose proof (continues_wf old new Ho Hn) as W. unfold continues in *. rewrite Hd in *.
  unfold flag in *. rewrite Hdo in *. cbn [fmap option_fmap option_map] in *.
  specialize (W (mk_is_Some _ _ eq_refl)). unfold hi1_next in *.
  set (c := Mkhi1_cept (set_ic_hi1_seqno _ _) _) in *.
  assert (∃ h1, moves (if negb dropped && changed then '(_, new0) ← announce_hi1_notification_to_mediators realloc_ok epoll_mod now usec c new_targets HI1_LI_MODIFIED; mret (old, new0) else mret (old, c)) c (old, h1) h1) as (h1 & M1).
  { destruct (_ && _); [|exists c; by apply moves_ret].
    destruct (announce_moves c new_targets HI1_LI_MODIFIED) as (r & h1 & _ & M1); [done..|].
    exists h1. eapply moves_bind; [exact M1|]. apply moves_ret. by eapply moves_wf. }
  destruct (reset_moves new_targets h1) as (r & h2 & M2); [by eapply moves_wf|done|]. exists h2.
  eapply (moves_bind (lift (deref (Some d)))); [by apply moves_ret|]. cbn beta.
  eapply (moves_bind (lift (deref (Some do)))); [by apply moves_ret|]. cbn beta zeta.
  change (Mkhi1_cept _ _) with c. rewrite andb_false_r.
  eapply moves_bind; [exact M1|]. cbn beta iota. eapply moves_bind; [exact M2|]. cbn beta iota.
  apply moves_ret. by eapply moves_wf.
Qed.
End now.

(** ** Everything that can happen to an intercept *)

Inductive hi1_event : Type :=
  | Hi1_timer (t : prov_timer_type)
  | Hi1_added
  | Hi1_modified
  | Hi1_withdrawn
  | Hi1_changed (c : intercept_common_t)
  | Hi1_reloaded (new : hi1_cept) (conf : prov_intercept_conf_t) (changed droppedmeds : bool).

(** An event at a time; [target] is the text about the targets.  A change keeps the number
    of the next notification. *)
Record hi1_step : Type := Mkhi1_step {
  st_now : Z;
  st_usec : Z;
  st_target : cstring;
  st_event : hi1_event;
}.
Definition run_hi1_step (e : hi1_step) (h : hi1_cept) : ST provision_state_t hi1_cept :=
  let announce := announce_hi1 realloc_ok epoll_mod e.(st_now) e.(st_usec) in
  match e.(st_event) with
  | Hi1_timer t => '(_, h) ← send_intercept_hi1 realloc_ok epoll_mod e.(st_now) e.(st_usec) h e.(st_target) t; mret h
  | Hi1_added => announce h e.(st_target) HI1_LI_ACTIVATED
  | Hi1_modified => announce h e.(st_target) HI1_LI_MODIFIED
  | Hi1_withdrawn => announce h e.(st_target) HI1_LI_DEACTIVATED
  | Hi1_changed c =>
      '(_, h) ← reset_intercept_timers realloc_ok epoll_mod epoll_del epoll_add_timer e.(st_now) e.(st_usec)
                  (set_hc_common (set_ic_hi1_seqno (hi1_next h) c) h) e.(st_target);
      mret h
  | Hi1_reloaded new conf changed dropped =>
      '(_, _, h, _) ← update_reconfigured_intercept realloc_ok epoll_mod epoll_del epoll_add_timer
                        e.(st_now) e.(st_usec) h new conf changed false dropped e.(st_target) e.(st_target);
      mret h
  end.
Fixpoint run_hi1 (es : list hi1_step) (h : hi1_cept) : ST provision_state_t hi1_cept :=
  match es with
  | [] => mret h
  | e :: es => h ← run_hi1_step e h; run_hi1 es h
  end.

Definition step_ok (e : hi1_step) : Prop :=
  0 ≤ e.(st_now) < 2 ^ 64 ∧ 0 ≤ e.(st_usec) < 2 ^ 32 ∧ target_ok e.(st_target) ∧
  match e.(st_event) with
  | Hi1_changed c => hi1_common_ok c
  | Hi1_reloaded new _ _ _ => hi1_common_ok new.(hc_common) ∧ is_Some new.(hc_local)
  | _ => True
  end.

(** [moves] without what it says about the common part. *)
Definition goes {A} (m : ST provision_state_t A) (h : hi1_cept) (a : A) (h' : hi1_cept) : Prop :=
  ∃ notes, says m [] (notes_wire notes) a ∧
    hi1_stream (hi1_active h) (hi1_next h) notes (hi1_active h') (hi1_next h') ∧ hi1_wf h'.
Lemma moves_goes {A} (m : ST provision_state_t A) h0 h a h' :
  moves m h a h' → hi1_active h = hi1_active h0 → hi1_next h = hi1_next h0 → goes m h0 a h'.
Proof. intros (l & S & M & W & _) E1 E2. exists l. by rewrite <- E1, <- E2. Qed.
Lemma goes_bind {A B} (m : ST provision_state_t A) (f : A → ST provision_state_t B) h a h1 b h2 :
  goes m h a h1 → goes (f a) h1 b h2 → goes (m ≫= f) h b h2.
Proof.
  intros (l & S1 & M1 & _) (l' & S2 & M2 & W2). exists (l ++ l'). rewrite notes_wire_app.
  split; [exact (says_bind realloc_ok epoll_mod m f [] [] _ _ a b S1 S2)|]. split; [by eapply hi1_stream_app|done].
Qed.
Lemma goes_wf {A} (m : ST provision_state_t A) h a h' : goes m h a h' → hi1_wf h'.
Proof. by intros (l & _ & _ & ?). Qed.
Lemma goes_ret {A} (a : A) h : hi1_wf h → goes (mret a) h a h.
Proof. intros. eapply moves_goes; [by apply moves_ret|done..]. Qed.

Lemma timer_fired_moves h (t : prov_timer_type) :
  hi1_wf h → hi1_moves h [] (with_local (λ d, match t with
      | PROV_EPOLL_INTERCEPT_START => set_pd_start_timer (Some (-1)) d
      | PROV_EPOLL_INTERCEPT_HALT => set_pd_end_timer (Some (-1)) d end) h).
Proof. intros. apply hi1_moves_quiet; [done|]. intros d. destruct t; split; try done; by left. Qed.

Lemma run_hi1_step_goes e h : hi1_wf h → step_ok e → ∃ h', goes (run_hi1_step e h) h h' h'.
Proof.
  intros Hh (Hn & Hu & Ht & He). unfold run_hi1_step. cbv zeta. destruct (st_event e) as [t| | | |c|new conf changed dropped].
  - pose proof (timer_fired_moves h t Hh) as M0. pose proof (proj1 (proj2 M0)) as W0.
    edestruct (announce_moves (st_now e) (st_usec e) Hn Hu _ (st_target e)
       (match t with PROV_EPOLL_INTERCEPT_START => HI1_LI_ACTIVATED | PROV_EPOLL_INTERCEPT_HALT => HI1_LI_DEACTIVATED end) W0 Ht)
      as (r & h1 & _ & M1); [by destruct t|]. exists h1. eapply moves_goes; [|done..].
    unfold send_intercept_hi1. eapply moves_after; [exact M0|]. eapply moves_bind.
    { eapply moves_bind; [exact M1|]. cbn beta iota. apply moves_ret. by eapply moves_wf. }
    apply moves_ret. by eapply moves_wf.
  - destruct (announce_hi1_moves (st_now e) (st_usec e) Hn Hu h (st_target e) HI1_LI_ACTIVATED) as (h1 & M); [done..|].
    exists h1. by eapply moves_goes.
  - destruct (announce_hi1_moves (st_now e) (st_usec e) Hn Hu h (st_target e) HI1_LI_MODIFIED) as (h1 & M); [done..|].
    exists h1. by eapply moves_goes.
  - destruct (announce_hi1_moves (st_now e) (st_usec e) Hn Hu h (st_target e) HI1_LI_DEACTIVATED) as (h1 & M); [done..|].
    exists h1. by eapply moves_goes.
  - set (h0 := set_hc_common (set_ic_hi1_seqno (hi1_next h) c) h).
    assert (W0 : hi1_wf h0). { destruct Hh as (Hc & d & Hd & Hf). split; [|by exists d]. cbn. apply seqno_ok; [done|apply Hc]. }
    destruct (reset_moves (st_now e) (st_usec e) Hn Hu (st_target e) h0 W0 Ht) as (r & h1 & M). exists h1.
    eapply (moves_goes _ h h0); [|done..]. eapply moves_bind; [exact M|]. cbn beta iota. apply moves_ret. by eapply moves_wf.
  - destruct He as [Hc Hl].
    destruct (update_reconfigured_moves (st_now e) (st_usec e) Hn Hu h new conf changed dropped (st_target e) (st_target e))
      as (h1 & M); [done..|]. exists h1. destruct (continues_state h new Hl) as [E1 E2].
    eapply (moves_goes _ h (continues h new)); [|done..]. eapply moves_bind; [exact M|]. cbn beta iota.
    apply moves_ret. by eapply moves_wf.
Qed.
Lemma run_hi1_goes es h : hi1_wf h → Forall step_ok es → ∃ h', goes (run_hi1 es h) h h' h'.
Proof.
  revert h. induction es as [|e es IH]; intros h Hh Hes; [exists h; by apply goes_ret|].
  apply Forall_cons in Hes as [He Hes]. destruct (run_hi1_step_goes e h Hh He) as (h1 & G1).
  destruct (IH h1) as (h2 & G2); [by eapply goes_wf|done|]. exists h2. by eapply goes_bind.
Qed.

(** C16: Whatever happens to an intercept — its timers fire in any order, it is added,
    modified, withdrawn, its start and end times are changed through the REST interface or
    by a reload that keeps its agency — the notifications that every connected mediator is
    sent are a legal stream: activation and deactivation alternate, modifications are
    reported only while the intercept is active, and the notifications are numbered without
    gaps (modulo 2^32). *)
Theorem hi1_stream_legal es h :
  hi1_wf h → Forall step_ok es →
  ∃ notes h', says (run_hi1 es h) [] (notes_wire notes) h' ∧
    hi1_stream (hi1_active h) (hi1_next h) notes (hi1_active h') (hi1_next h').
Proof.
  intros Hh Hes. destruct (run_hi1_goes es h Hh Hes) as (h' & notes & S & M & _). by exists notes, h'.
Qed.

(** ** A new agency *)

Lemma says_cease key liid len :
  c_str liid = Ok key → cease_mediation_format.(wm_ok) liid → len = str_len liid →
  says (remove_liid_mapping realloc_ok epoll_mod liid len false) []
    (wire_frame OPENLI_PROTO_CEASE_MEDIATION 0 (wire_body (cease_mediation_format.(wm_fields) liid))) 0.
Proof.
  intros Hk Hok ->. unfold remove_liid_mapping.
  eapply says_quiet; [by apply says_lift|]. eapply says_quiet; [|eapply says_then; [|apply says_ret]].
  - intros n k s _ _ Hs. eexists. split; [done|]. split; [|exact Hs]. split_and!; [apply all_told_nil..|done].
  - by apply (says_format_mediators realloc_ok noret Hnoret epoll_mod cease_mediation_format).
Qed.
Lemma says_mapping liid agency :
  liid_mapping_format.(wm_ok) (Some agency, Some liid) →
  says (announce_liidmapping_to_mediators realloc_ok epoll_mod (Some (liid, agency))) []
    (wire_frame OPENLI_PROTO_MEDIATE_INTERCEPT 0 (wire_body (liid_mapping_format.(wm_fields) (Some agency, Some liid)))) 0.
Proof.
  intros Hok. unfold announce_liidmapping_to_mediators. eapply says_then; [|apply says_ret].
  by apply (says_format_mediators realloc_ok noret Hnoret epoll_mod liid_mapping_format (Some agency, Some liid)).
Qed.

Lemma good_str_c_str s : good_str s → c_str s = Ok (str_val s).
Proof. intros (v & -> & Hv & _). cbn. by rewrite until_nul_ok. Qed.
Lemma good_str_Some s : good_str s → good_str (Some (str_val s)).
Proof. intros Hs. by rewrite <- (good_str_some s Hs). Qed.

(** What [add_liid_mapping] makes of the map. *)
Definition map_liid (k a : bytes) (conf : prov_intercept_conf_t) : prov_intercept_conf_t :=
  set_cf_liid_map (match hash_find k conf.(cf_liid_map) with
                   | Some _ => hash_update k a conf.(cf_liid_map)
                   | None => hash_add k a conf.(cf_liid_map)
                   end) conf.
Definition agency_defined (conf : prov_intercept_conf_t) (c : intercept_common_t) : Prop :=
  str_val c.(ic_targetagency) = pcapdisk ∨ is_Some (hash_find (str_val c.(ic_targetagency)) conf.(cf_leas)).
Lemma agency_test conf c :
  agency_defined conf c →
  bool_decide (str_val c.(ic_targetagency) ≠ pcapdisk) &&
  bool_decide (hash_find (str_val c.(ic_targetagency)) conf.(cf_leas) = None) = false.
Proof.
  intros [-> |[x ->]]; [by rewrite bool_decide_false by tauto|].
  by rewrite (bool_decide_false (Some x = None)), andb_false_r.
Qed.
Lemma add_liid_mapping_ok conf c :
  hi1_common_ok c → agency_defined conf c →
  add_liid_mapping conf c.(ic_liid) c.(ic_targetagency) =
  Ok (Some (str_val c.(ic_liid), str_val c.(ic_targetagency)),
      map_liid (str_val c.(ic_liid)) (str_val c.(ic_targetagency)) conf).
Proof.
  intros [] Ha. unfold add_liid_mapping. rewrite (good_str_c_str (ic_targetagency c)) by done. cbn [mbind outcome_bind].
  rewrite agency_test by done. by rewrite (good_str_c_str (ic_liid c)).
Qed.

(** C35: When a reload gives a running intercept to another agency, the mediators are told
    that it ended for the old agency, and that the LIID belongs to the new one, but no
    activation is ever sent: the flag that one was sent is copied from the old intercept
    first.  Afterwards the intercept counts as active, with no notification numbered yet. *)
Theorem agency_change_hides_activation now usec old new conf changed old_targets new_targets :
  let c := old.(hc_common) in
  let c' := new.(hc_common) in
  0 ≤ now < 2 ^ 64 → 0 ≤ usec < 2 ^ 32 →
  hi1_wf old → hi1_active old = true → hi1_common_ok c' → is_Some new.(hc_local) →
  c'.(ic_tostart_time) ≤ now → c'.(ic_toend_time) = 0 → agency_defined conf c' →
  target_ok old_targets → target_ok new_targets →
  c.(ic_liid_len) = str_len c.(ic_liid) → str_val c.(ic_liid) ≠ [] → str_val c'.(ic_liid) ≠ [] →
  ∃ old' new' conf',
    says (update_reconfigured_intercept realloc_ok epoll_mod epoll_del epoll_add_timer now usec
            old new conf changed true false old_targets new_targets) []
      (notes_wire [hi1_data now usec HI1_LI_DEACTIVATED c old_targets] ++
       wire_frame OPENLI_PROTO_CEASE_MEDIATION 0 (wire_body (cease_mediation_format.(wm_fields) c.(ic_liid))) ++
       wire_frame OPENLI_PROTO_MEDIATE_INTERCEPT 0
         (wire_body (liid_mapping_format.(wm_fields) (Some (str_val c'.(ic_targetagency)), Some (str_val c'.(ic_liid))))))
      (0, old', new', conf') ∧
    hi1_active new' = true ∧ hi1_next new' = 0.
Proof.
  cbv zeta. intros Hn Hu (Hc & d & Hd & Hf) Hact Hc' [d' Hd'] Hst Hend Hag Ht Ht' Hlen Hne Hne'.
  unfold hi1_active, flag in Hact. rewrite Hd in Hact. destruct d as [ts te st en]. cbn in Hact, Hf. subst st.
  destruct en; [done|]. clear Hf. destruct d' as [ts' te' st' en'].
  set (new1 := Mkhi1_cept (set_ic_hi1_seqno 0 new.(hc_common)) (Some (Mkprov_intercept_data_t ts' te' true false))).
  set (new2 := Mkhi1_cept (set_ic_hi1_seqno 0 new.(hc_common))
     (Some (Mkprov_intercept_data_t (halt_intercept_timer epoll_del ts') (halt_intercept_timer epoll_del te') true false))).
  eexists _, new2, _. split; [|done]. unfold update_reconfigured_intercept.
  eapply says_quiet; [apply says_lift; by rewrite Hd'|]. eapply says_quiet; [apply says_lift; by rewrite Hd|].
  cbv zeta. cbn [negb andb].
  eapply (says_bind realloc_ok epoll_mod _ _ [] [] _ _
    (Mkhi1_cept (set_ic_hi1_seqno (u32 (old.(hc_common).(ic_hi1_seqno) + 1)) old.(hc_common)) (Some (Mkprov_intercept_data_t ts te false true)), new1)).
  { eapply says_then.
    - unfold announce_hi1_notification_to_mediators. rewrite Hd. cbn [hi1_decide pd_end_hi1_sent pd_start_hi1_sent negb].
      eapply says_then; [by apply (says_note now usec)|apply says_ret].
    - cbn beta iota. eapply says_quiet with (a := (0, new1)); [|apply says_ret].
      unfold announce_hi1_notification_to_mediators. cbn [hc_local hi1_decide pd_start_hi1_sent set_hc_common set_pd_end_hi1_sent set_pd_start_hi1_sent].
      apply says_ret. }
  cbn beta iota.
  eapply says_quiet with (a := (1, new2)).
  { unfold reset_intercept_timers. cbn [hc_local new1 hc_common]. cbn [ic_toend_time set_ic_hi1_seqno].
    rewrite Hend. cbn [Z.ltb Z.compare andb]. rewrite andb_false_r. cbn [andb].
    eapply says_quiet with (a := (0, new2)).
    { unfold reset_start. cbn [hc_common set_hc_local ic_tostart_time set_ic_hi1_seqno].
      rewrite (proj2 (Z.ltb_ge now _)), andb_false_r by done. cbn [flag hc_local set_hc_local pd_start_hi1_sent negb set_pd_end_timer set_pd_start_timer].
      rewrite andb_false_r. apply says_ret. }
    cbn beta iota. cbn [Z.ltb Z.compare]. eapply says_quiet with (a := (0, new2)); [|apply says_ret].
    assert (E0 : ic_toend_time (hc_common new2) = 0) by exact Hend.
    assert (E1 : flag pd_end_hi1_sent new2 = false) by done.
    unfold reset_end. cbv zeta. rewrite E0, E1. cbn [Z.ltb Z.compare andb Z.eqb].
    eapply says_quiet; [apply says_ret|]. apply says_ret. }
  cbn beta iota. cbn [free_prov_intercept_data set_hc_local hc_common].
  change (ic_liid (set_ic_hi1_seqno ?n ?x)) with (ic_liid x). change (ic_liid_len (set_ic_hi1_seqno ?n ?x)) with (ic_liid_len x).
  eapply (says_bind realloc_ok epoll_mod _ _ [] []).
  { apply (says_cease (str_val (ic_liid (hc_common old)))); [|split|done]; [apply good_str_c_str| |done]; apply Hc. }
  cbn [new2 hc_common]. change (ic_liid (set_ic_hi1_seqno ?n ?x)) with (ic_liid x).
  change (ic_targetagency (set_ic_hi1_seqno ?n ?x)) with (ic_targetagency x).
  eapply says_quiet; [apply says_lift; by apply add_liid_mapping_ok|]. cbn beta iota.
  eapply says_then with (a := 0); [|apply says_ret]. apply says_mapping.
  split; [apply good_str_Some, Hc'|]. split; [apply good_str_Some, Hc'|done].
Qed.
End hi1.

(** ** Examples *)

(** A client that is connected and trusted, with an empty buffer. *)
Definition sample_client (role : prov_role) : prov_client_t :=
  Mkprov_client_t (Some (Mkprov_comm_t 7 false)) false false false
    (Some (Mkprov_sock_state_t true false role (Some (create_net_buffer NETBUF_RECV 7 false))
             (Some (create_net_buffer NETBUF_SEND 7 false)))).
Definition sample_mediator_entry : Z * prov_mediator_t :=
  (6001, Mkprov_mediator_t (Some (sample_client PROV_EPOLL_MEDIATOR)) sample_mediator).
Definition empty_conf : prov_intercept_conf_t :=
  Mkprov_intercept_conf_t [] [] [] [] [] [] [] [] [] [] [] [] 0.
Definition sample_clients : provision_state_t :=
  Mkprovision_state_t [(of_string "192.0.2.9-4000", Some (sample_client PROV_EPOLL_COLLECTOR))]
    [sample_mediator_entry] empty_conf 0 [] [].

(** The content of the buffers of the mediators. *)
Definition mediator_buffers (s : provision_state_t) : list bytes :=
  omap (λ e, nb_content ∘ snd <$> hears e.2.(pm_client)) s.(ps_mediators).
Definition yes (_ : Z) : bool := true.
Definition timer_fds (secs : Z) : Z := 100 + secs.

Definition fresh_local : prov_intercept_data_t := Mkprov_intercept_data_t None None false false.
Definition sample_hi1 : hi1_cept := Mkhi1_cept sample_common (Some fresh_local).
Lemma sample_hi1_common_ok : hi1_common_ok sample_common.
Proof. split; first [solve_good_str|done]. Defined.
Lemma sample_hi1_wf : hi1_wf sample_hi1.
Proof. split; [apply sample_hi1_common_ok|]. by eexists. Defined.

(** The intercept is added before it starts, its timer fires, it is modified, its end is
    moved to the past, and it is withdrawn. *)
Definition sample_hi1_steps : list hi1_step :=
  [Mkhi1_step 1600000000 0 (str "alice") Hi1_added;
   Mkhi1_step 1700000000 5 (str "alice") (Hi1_timer PROV_EPOLL_INTERCEPT_START);
   Mkhi1_step 1700000010 7 (str "alice") Hi1_modified;
   Mkhi1_step 1750000000 0 (str "alice") (Hi1_changed (set_ic_toend_time 1740000000 sample_common));
   Mkhi1_step 1750000001 0 (str "alice") Hi1_withdrawn].
Lemma sample_hi1_steps_ok : Forall step_ok sample_hi1_steps.
Proof.
  repeat (apply Forall_cons; split;
    [split; [done|]; split; [done|]; split; [right; split; [solve_good_str|done]|first [exact I|split; first [solve_good_str|done]]]|]).
  by apply Forall_nil.
Defined.

(** Three notifications are sent: 1, 3 and 2, with the numbers 0, 1 and 2. *)
Example sample_hi1_run :
  (λ r, (mediator_buffers r.2, hi1_active r.1)) <$>
    run_hi1 yes yes yes timer_fds sample_hi1_steps sample_hi1 sample_clients =
  Ok ([notes_wire
         [hi1_data 1700000000 5 HI1_LI_ACTIVATED sample_common (str "alice");
          hi1_data 1700000010 7 HI1_LI_MODIFIED (set_ic_hi1_seqno 1 sample_common) (str "alice");
          hi1_data 1750000000 0 HI1_LI_DEACTIVATED (set_ic_hi1_seqno 2 sample_common) (str "alice")]], false).
Proof. vm_compute. reflexivity. Qed.

Lemma hi1_stream_legal_witness :
  ∃ notes h', says yes yes (run_hi1 yes yes yes timer_fds sample_hi1_steps sample_hi1) [] (notes_wire notes) h' ∧
    hi1_stream false 0 notes (hi1_active h') (hi1_next h').
Proof.
  apply (hi1_stream_legal yes 0 ltac:(done) yes yes timer_fds sample_hi1_steps sample_hi1).
  - apply sample_hi1_wf.
  - apply sample_hi1_steps_ok.
Defined.

(** A running intercept without an end goes from one agency to another. *)
Definition endless (agency : string) : intercept_common_t :=
  set_ic_toend_time 0 (set_ic_targetagency (str agency) sample_common).
Definition running : hi1_cept :=
  Mkhi1_cept (set_ic_hi1_seqno 1 (endless "police")) (Some (Mkprov_intercept_data_t None None true false)).
Definition two_agencies : prov_intercept_conf_t :=
  set_cf_leas [(of_string "police", Mkprov_agency_t sample_lea 0);
               (of_string "customs", Mkprov_agency_t (set_lea_agencyid (str "customs") sample_lea) 0)] empty_conf.
Lemma agency_change_hides_activation_witness :
  ∃ old' new' conf',
    says yes yes (update_reconfigured_intercept yes yes yes timer_fds 1750000000 0
            running (Mkhi1_cept (endless "customs") (Some fresh_local)) two_agencies false true false (str "alice") (str "alice")) []
      (notes_wire [hi1_data 1750000000 0 HI1_LI_DEACTIVATED running.(hc_common) (str "alice")] ++
       wire_frame OPENLI_PROTO_CEASE_MEDIATION 0 (wire_body (cease_mediation_format.(wm_fields) (str "LIID001"))) ++
       wire_frame OPENLI_PROTO_MEDIATE_INTERCEPT 0
         (wire_body (liid_mapping_format.(wm_fields) (str "customs", str "LIID001"))))
      (0, old', new', conf') ∧
    hi1_active new' = true ∧ hi1_next new' = 0.
Proof.
  apply (agency_change_hides_activation yes 0 ltac:(done) yes yes timer_fds 1750000000 0 running
           (Mkhi1_cept (endless "customs") (Some fresh_local)) two_agencies false (str "alice") (str "alice")); try done.
  - split; [split; first [solve_good_str|done]|]. by eexists.
  - split; first [solve_good_str|done].
  - right. by eexists.
  - right. split; [solve_good_str|done].
  - right. split; [solve_good_str|done].
Defined.
