(* ===== verification/ProvFaults.v ===== *)
(** * Faults of a reload

    When a reload finds that an intercept was withdrawn, the text about its targets is
    freed by [remove_withdrawn_intercept] and again by its caller, or, for IP intercepts,
    when the old configuration is freed. *)

From stdpp Require Import gmap.
From S2P Require Import Prelude Protocol Intercept NetBuffer NetPush Publish Radius HashTable SyncSessions SyncIntercepts NetSamples Provisioner ProvReload ProvProps ProvHi1.

(** The operation never comes to an end that the language defines. *)
Definition never_ok {S A} (m : ST S A) (s : S) : Prop := ∀ r, m s ≠ Ok r.

Lemma never_ok_bind {S A B} (m : ST S A) (f : A → ST S B) s :
  (∀ a s', m s = Ok (a, s') → never_ok (f a) s') → never_ok (m ≫= f) s.
Proof.
  unfold never_ok, mbind, ST_bind. intros H r. destruct (m s) as [[a s']| |] eqn:E; [|done..]. by eapply H.
Qed.
Lemma never_ok_lift {S A B} (m : outcome A) (f : A → ST S B) s :
  (∀ a, m = Ok a → never_ok (f a) s) → never_ok (lift m ≫= f) s.
Proof.
  intros H. apply never_ok_bind. intros a s'. unfold lift. destruct m eqn:E; [|done..]. intros [= -> ->]. by apply H.
Qed.
Lemma bound_ok {S A B} (m : ST S A) (f : A → ST S B) s r s' :
  (m ≫= f) s = Ok (r, s') → ∃ a s1, m s = Ok (a, s1) ∧ f a s1 = Ok (r, s').
Proof. unfold mbind, ST_bind. destruct (m s) as [[a s1]| |]; [|done..]. by exists a, s1. Qed.

Lemma listed_targets maxchars l space : l ≠ [] ∨ is_Some space → is_Some (list_targets maxchars l space).
Proof.
  revert space. induction l as [|t l IH]; intros space [H|H]; try done; cbn [list_targets];
    (destruct t as [text|]; [case_match; [by eexists|]|]; apply IH; right; by eexists).
Qed.
Lemma email_targets_listed m n : m.(em_targets) ≠ [] → is_Some (list_email_targets m n).
Proof. intros H. apply listed_targets. left. by destruct (em_targets m). Qed.
Lemma sip_targets_listed v n : v.(vi_targets) ≠ [] → is_Some (list_sip_targets v n).
Proof. intros H. apply listed_targets. left. by destruct (vi_targets v). Qed.

Lemma freed_name l k p :
  (k, p) ∈ l → is_Some p.(pt_cept).(ip_username) → p.(pt_name_freed) = true → free_all_ipintercepts l ≠ Ok tt.
Proof.
  intros Hin Hu Hf. induction l as [|[k' q] l IH]; [by apply elem_of_nil in Hin|]. cbn [free_all_ipintercepts].
  apply elem_of_cons in Hin as [[= <- <-]|Hin].
  - destruct Hu as [u Hu]. by rewrite Hu, Hf.
  - destruct (free_string _ _); cbn; [by apply IH|done..].
Qed.

Section faults.
Context (realloc_ok : Z → bool) (noret : Z).
Context (epoll_mod epoll_del : Z → bool) (epoll_add_timer : Z → Z).
Context (now usec : Z).
Abbreviation withdraw := (remove_withdrawn_intercept realloc_ok epoll_mod now usec).

Lemma withdrawn_freed h t s h' freed s' :
  is_Some t → withdraw h t false s = Ok ((h', freed), s') → freed = true.
Proof.
  intros Ht H. unfold remove_withdrawn_intercept in H. apply bound_ok in H as (r & s1 & _ & H).
  apply bound_ok in H as ([r2 h2] & s2 & _ & H). unfold mret, ST_ret in H. injection H as _ <- _.
  by apply bool_decide_eq_true.
Qed.
Lemma freed_twice {A} h t s (f : A → ST provision_state_t A) (a : hi1_cept → A) :
  is_Some t → never_ok ('(h', freed) ← withdraw h t false; _ ← lift (free_string t freed); f (a h')) s.
Proof.
  intros Ht. apply never_ok_bind. intros [h' freed] s' E. apply withdrawn_freed in E as ->; [|done].
  apply never_ok_lift. intros []. by destruct Ht as [? ->].
Qed.

(** C36: An email or VoIP intercept with targets that is no longer in the configuration
    makes a reload undefined, unless the mediators were disconnected, too; and after one
    of an IP intercept with a user name the old configuration cannot be freed. *)
Theorem withdrawn_targets_freed_twice droppedcols s :
  (∀ k p new conf,
     (∀ key, string_key p.(pt_cept).(em_common).(ic_liid) p.(pt_cept).(em_common).(ic_liid_len) = Ok key →
        hash_find key new = None) → p.(pt_cept).(em_targets) ≠ [] →
     never_ok (reload_old_email realloc_ok noret epoll_mod epoll_del epoll_add_timer now usec
                 droppedcols false (k, p) (new, conf)) s) ∧
  (∀ k p new conf,
     (∀ key, string_key p.(pt_cept).(vi_common).(ic_liid) p.(pt_cept).(vi_common).(ic_liid_len) = Ok key →
        hash_find key new = None) → p.(pt_cept).(vi_targets) ≠ [] →
     never_ok (reload_old_voip realloc_ok noret epoll_mod epoll_del epoll_add_timer now usec
                 droppedcols false (k, p) (new, conf)) s) ∧
  (∀ k p new conf r e st s' old,
     (∀ key, cept_key p.(pt_cept) = Ok key → hash_find key new = None) → is_Some p.(pt_cept).(ip_username) →
     reload_old_ip realloc_ok noret epoll_mod epoll_del epoll_add_timer now usec
       droppedcols false (k, p) (new, conf) s = Ok (r, e, st, s') →
     e ∈ old.(cf_ipintercepts) → clear_intercept_state old ≠ Ok tt).
Proof.
  split; [|split].
  - intros k p new conf Hf Ht. unfold reload_old_email. apply never_ok_lift. intros key Hk. rewrite (Hf key Hk).
    apply never_ok_bind. intros _ s1 _.
    apply (freed_twice _ _ _ mret (λ h, (0, (k, put_email_hc h p), (new, conf)))). by apply email_targets_listed.
  - intros k p new conf Hf Ht. unfold reload_old_voip. apply never_ok_lift. intros key Hk.
    apply never_ok_bind. intros ignore s0 _. rewrite (Hf key Hk). apply never_ok_bind. intros _ s1 _.
    apply (freed_twice _ _ _ mret (λ h, (0, (k, put_voip_hc h p), (new, conf)))). by apply sip_targets_listed.
  - intros k p new conf r e st s' old Hf Hu H Hin. unfold reload_old_ip in H.
    apply bound_ok in H as (key & s1 & Hk & H).
    assert (Hkey : cept_key p.(pt_cept) = Ok key).
    { unfold lift in Hk. destruct (cept_key _); [|done..]. congruence. }
    rewrite (Hf key Hkey) in H. apply bound_ok in H as (r1 & s2 & _ & H).
    apply bound_ok in H as ([h freed] & s3 & Hw & H). apply withdrawn_freed in Hw as ->; [|done].
    unfold mret, ST_ret in H. injection H as _ <- _ _. by eapply freed_name.
Qed.
End faults.

(** ** An example *)

Definition sample_mail : emailintercept_t :=
  set_em_targets [Mkemail_target_t (str "carol@example.org") 0] (Mkemailintercept_t sample_common [] 0 1).
Definition withdrawn_mail : prov_cept emailintercept_t := Mkprov_cept sample_mail (Some fresh_local) false.
Lemma withdrawn_targets_freed_twice_witness :
  never_ok (reload_old_email yes 0 yes yes timer_fds 1750000000 0 false false
              (of_string "LIID001", withdrawn_mail) ([], empty_conf)) sample_clients.
Proof.
  apply (withdrawn_targets_freed_twice yes 0 yes yes timer_fds 1750000000 0 false sample_clients); done.
Defined.
(** Undefined, to be exact. *)
Example withdrawn_mail_run :
  reload_old_email yes 0 yes yes timer_fds 1750000000 0 false false
    (of_string "LIID001", withdrawn_mail) ([], empty_conf) sample_clients = Undef.
Proof. vm_compute. reflexivity. Qed.
