(* ===== verification/ProvReloadProps.v ===== *)
(** * A reload of the configuration, as collectors see it

    What a reload says about IP intercepts is a list of messages that have a meaning in
    the specification of the collector's synchronisation thread (SyncConfig).  Run there,
    they take a collector that has the old configuration to the new one
    ([ip_reload_reaches_collectors]); so both sides of the protocol are put together. *)

From stdpp Require Import gmap.
From S2P Require Import Prelude ByteOrder Protocol Intercept NetBuffer NetPush NetDecode NetFormat NetMessages Publish AccessSession Radius HashTable IpSession TimedIntercept ThreadTables SyncSessions SyncProps SyncIntercepts SyncProvisioner SyncProvProps SyncConfig SyncRefine SyncClaims NetSamples Provisioner ProvReload ProvAuth ProvProps ProvHi1.

(** ** Ranges as a map *)

Definition range_cins (l : list static_ipranges_t) : gmap bytes Z :=
  list_to_map ((λ r, (range_name r, r.(sr_cin))) <$> l).
Definition named (l : list static_ipranges_t) : Prop := Forall (λ r, is_Some r.(sr_rangestr)) l.

Lemma range_cins_cons r l : range_cins (r :: l) = <[range_name r := r.(sr_cin)]> (range_cins l).
Proof. done. Qed.
Lemma range_test name r :
  is_Some r.(sr_rangestr) → until_nul <$> r.(sr_rangestr) = Some name ↔ range_name r = name.
Proof. intros [v E]. unfold range_name. rewrite E. cbn. unfold id. naive_solver. Qed.

Lemma find_static_cin name i :
  named i.(ip_statics) → sr_cin <$> find_static name i = range_cins i.(ip_statics) !! name.
Proof.
  unfold find_static. induction (ip_statics i) as [|r l IH]; [done|]. intros [Hr Hl]%Forall_cons.
  rewrite filter_cons, range_cins_cons. pose proof (range_test name r Hr) as Ht.
  destruct (decide (until_nul <$> sr_rangestr r = Some name)) as [E|E].
  - apply Ht in E as <-. by rewrite lookup_insert_eq.
  - rewrite lookup_insert_ne by (intros Hx; apply E, Ht; congruence). by apply IH.
Qed.
Lemma range_cins_delete name i :
  named i.(ip_statics) → range_cins (delete_static name i).(ip_statics) = delete name (range_cins i.(ip_statics)).
Proof.
  unfold delete_static. cbn [ip_statics set_ip_statics]. induction (ip_statics i) as [|r l IH]; [rewrite filter_nil; unfold range_cins; cbn; by rewrite delete_empty|].
  intros [Hr Hl]%Forall_cons. rewrite filter_cons, range_cins_cons. pose proof (range_test name r Hr) as Ht.
  destruct (decide (until_nul <$> sr_rangestr r ≠ Some name)) as [E|E].
  - rewrite range_cins_cons, IH by done. rewrite delete_insert_ne by (intros Hx; apply E, Ht; congruence). done.
  - assert (range_name r = name) as -> by (apply Ht; by destruct (decide (until_nul <$> sr_rangestr r = Some name))).
    rewrite delete_insert_eq. by apply IH.
Qed.
Lemma range_cins_map f l :
  (∀ r, range_name (f r) = range_name r ∧ (f r).(sr_cin) = r.(sr_cin)) → range_cins (map f l) = range_cins l.
Proof.
  intros Hf. induction l as [|r l IH]; [done|]. cbn [map]. rewrite !range_cins_cons, IH. by destruct (Hf r) as [-> ->].
Qed.
Lemma range_cins_snoc l r :
  range_cins l !! range_name r = None → range_cins (l ++ [r]) = <[range_name r := r.(sr_cin)]> (range_cins l).
Proof.
  induction l as [|x l IH]; [done|]. cbn [app]. rewrite !range_cins_cons.
  destruct (decide (range_name x = range_name r)) as [E|E]; [by rewrite E, lookup_insert_eq|].
  rewrite lookup_insert_ne by done. intros Hn. by rewrite IH, insert_insert_ne.
Qed.
Lemma range_cins_lookup l name c :
  NoDup (range_name <$> l) → range_cins l !! name = Some c ↔ ∃ r, r ∈ l ∧ range_name r = name ∧ r.(sr_cin) = c.
Proof.
  intros Hd. unfold range_cins. rewrite <- elem_of_list_to_map.
  - rewrite list_elem_of_fmap. split; [intros (r & [= -> ->] & ?); eauto|intros (r & ? & <- & <-); eauto].
  - by rewrite <- list_fmap_compose.
Qed.

Lemma cept_named k i : cept_ok k i → named i.(ip_statics).
Proof. intros Hi. eapply Forall_impl; [exact (co_ranges k i Hi)|]. by intros r []. Qed.

(** The effect of the messages about ranges. *)
Lemma confirm_range_cins k r i :
  cept_ok k i → range_ok k r →
  range_cins (confirm_range r i).(ip_statics) =
  match range_cins i.(ip_statics) !! range_name r with
  | Some _ => range_cins i.(ip_statics)
  | None => <[range_name r := r.(sr_cin)]> (range_cins i.(ip_statics))
  end.
Proof.
  intros Hi Hr. pose proof (find_static_cin (range_name r) i (cept_named k i Hi)) as Hf. unfold confirm_range.
  destruct (find_static _ _); cbn in Hf; rewrite <- Hf.
  - unfold update_static. cbn [ip_statics set_ip_statics]. apply range_cins_map. intros x. by destruct (decide _).
  - apply range_cins_snoc. by rewrite <- Hf.
Qed.

(** ** Agreement of a collector's intercept with the configuration *)

Record agrees (m i : ipintercept_t) : Prop := {
  ag_authcc : i.(ip_common).(ic_authcc) = m.(ip_common).(ic_authcc);
  ag_delivcc : i.(ip_common).(ic_delivcc) = m.(ip_common).(ic_delivcc);
  ag_start : i.(ip_common).(ic_tostart_time) = m.(ip_common).(ic_tostart_time);
  ag_end : i.(ip_common).(ic_toend_time) = m.(ip_common).(ic_toend_time);
  ag_mediate : i.(ip_common).(ic_tomediate) = m.(ip_common).(ic_tomediate);
  ag_encrypt : i.(ip_common).(ic_encrypt) = m.(ip_common).(ic_encrypt);
  ag_key : i.(ip_common).(ic_encryptkey) = m.(ip_common).(ic_encryptkey);
  ag_vendmirror : i.(ip_vendmirrorid) = m.(ip_vendmirrorid);
  ag_username : i.(ip_username) = m.(ip_username);
  ag_ranges : range_cins i.(ip_statics) = range_cins m.(ip_statics);
}.

(** What makes an intercept of the configuration one that can be sent and handled. *)
Record sendable (k : bytes) (m : ipintercept_t) : Prop := {
  sn_ok : ip_ok m;
  sn_liid : m.(ip_common).(ic_liid) = Some k;
  sn_plain : plain k;
  sn_authcc : str_val m.(ip_common).(ic_authcc) ≠ [];
  sn_times : times_ok m.(ip_common);
  sn_seqno : 0 ≤ m.(ip_common).(ic_hi1_seqno) < 2 ^ 32;
  sn_target : target_ok m.(ip_username);
  sn_statics : Forall (static_ok m) m.(ip_statics);
  sn_distinct : NoDup (range_name <$> m.(ip_statics));
}.

(** A good string is one with its length for the collector. *)
Lemma good_str_plain s len : good_str s → len = str_len s → SyncProvProps.cstr_ok s len.
Proof. intros (v & -> & Hv & _) ->. split; [by apply until_nul_ok|done]. Qed.
Lemma target_user s len :
  target_ok s → len = str_len s → match s with None => len = 0 | Some u => plain u ∧ len = zlen u end.
Proof.
  intros [->|[(v & -> & Hv & _) Hne]] ->; [done|]. split; [|done]. split; [by apply until_nul_ok|done].
Qed.
Lemma target_view m :
  target_ok m.(ip_username) → m.(ip_username_len) = str_len m.(ip_username) →
  (if m.(ip_username_len) =? 0 then None else m.(ip_username)) = m.(ip_username).
Proof.
  intros Ht ->. destruct Ht as [->|[(v & -> & _) Hne]]; [done|]. unfold str_len, str_val in *. cbn in *.
  destruct (Z.eqb_spec (zlen v) 0) as [E|]; [|done]. destruct v; [done|]. unfold zlen in E. cbn in E. lia.
Qed.

Lemma sendable_view k m : sendable k m → cept_ok k (ip_view m no_intercept).
Proof.
  intros [[Hc Hu Hul _ _ _] Hl Hp _ Ht _ Htg _ _]. destruct Hc. split; try done; cbn.
  - rewrite ic_ok_liid_len, Hl. done.
  - by apply good_str_plain.
  - by apply good_str_plain.
  - destruct (ic_encryptkey (ip_common m)) as [v|] eqn:E; [|done].
    destruct ic_ok_key as [|(w & [= ->] & Hw & _)]; [done|by apply until_nul_ok].
  - rewrite target_view by done. by apply target_user.
  - constructor.
Qed.
Lemma view_agrees m r :
  target_ok m.(ip_username) → m.(ip_username_len) = str_len m.(ip_username) →
  range_cins r = range_cins m.(ip_statics) →
  agrees m (set_ip_statics r (ip_view m no_intercept)).
Proof. intros. split; try done. by apply target_view. Qed.

(** ** Messages about one intercept *)

Definition with_cepts (C : gmap bytes ipintercept_t) (S : prov_spec) : prov_spec :=
  Mkprov_spec C S.(sp_servers) S.(sp_radius).
Lemma with_cepts_same S : with_cepts S.(sp_cepts) S = S.
Proof. by destruct S. Qed.

(** The messages [ops] are acceptable and take what is known under [k] from [o] to [o'];
    nothing else changes. *)
Definition cept_run (n : Z) (k : bytes) (ops : list prov_op) (o o' : option ipintercept_t) : Prop :=
  ∀ S, S.(sp_cepts) !! k = o →
    ops_ok n S ops ∧ spec_run n S ops = with_cepts (partial_alter (λ _, o') k S.(sp_cepts)) S.

Lemma cept_run_nil n k o : cept_run n k [] o o.
Proof.
  intros S <-. split; [done|]. unfold with_cepts. rewrite partial_alter_id by done. by destruct S.
Qed.
Lemma cept_run_app n k ops ops' o o1 o2 :
  cept_run n k ops o o1 → cept_run n k ops' o1 o2 → cept_run n k (ops ++ ops') o o2.
Proof.
  intros H1 H2 S HS. destruct (H1 S HS) as [Ok1 E1].
  destruct (H2 (with_cepts (partial_alter (λ _, o1) k S.(sp_cepts)) S)) as [Ok2 E2]; [by apply lookup_partial_alter_eq|].
  split; [apply ops_ok_app; by rewrite E1|]. unfold spec_run in *. rewrite foldl_app, E1, E2.
  unfold with_cepts. cbn. f_equal. apply map_eq. intros k'. destruct (decide (k' = k)) as [->|].
  - by rewrite !lookup_partial_alter_eq.
  - by rewrite !lookup_partial_alter_ne.
Qed.
Lemma cept_run_one n k op o o' :
  (∀ S, S.(sp_cepts) !! k = o → op_ok S op ∧
     spec_step n S op = with_cepts (partial_alter (λ _, o') k S.(sp_cepts)) S) →
  cept_run n k [op] o o'.
Proof. intros H S HS. destruct (H S HS) as [? E]. split; [done|]. exact E. Qed.

Lemma step_cepts n S op C :
  (spec_cepts n S.(sp_cepts) op).1 = C → spec_servers S.(sp_servers) op = S.(sp_servers) →
  spec_radius S.(sp_radius) op = S.(sp_radius) → spec_step n S op = with_cepts C S.
Proof. unfold spec_step. by intros -> -> ->. Qed.

Lemma run_halt n k i : cept_run n k [P_halt k] (Some i) None.
Proof.
  apply cept_run_one. intros S HS. split; [done|]. apply step_cepts; [|done..]. cbn. by rewrite HS.
Qed.
Lemma run_start n k m :
  sendable k m →
  cept_run n k [P_start k (ip_view m no_intercept)] None
    (Some (entered (tracker n (ip_view m no_intercept)) (ip_view m no_intercept))).
Proof.
  intros Hm. apply cept_run_one. intros S HS. split.
  - split; [by apply sendable_view|]. intros old Hold. by rewrite HS in Hold.
  - apply step_cepts; [|done..]. cbn. by rewrite HS.
Qed.
Lemma run_modify n k m i :
  sendable k m → is_Some i.(ip_username) → i.(ip_username) = m.(ip_username) →
  cept_run n k [P_modify k (ip_view m no_intercept)] (Some i) (Some (merged i (ip_view m no_intercept))).
Proof.
  intros Hm Hu Hun. pose proof Hm as [[_ _ Hul _ _ _] _ _ _ _ _ Htg _ _].
  apply cept_run_one. intros S HS. split.
  - split; [by apply sendable_view|]. rewrite HS. intros old [= <-]. split; [done|]. cbn. by rewrite target_view.
  - apply step_cepts; [|done..]. cbn. by rewrite HS.
Qed.
Lemma run_add_range n k r i :
  plain k → range_ok k r → cept_run n k [P_add_range k r] (Some i) (Some (confirm_range r i)).
Proof.
  intros Hk Hr. apply cept_run_one. intros S HS. split; [done|]. apply step_cepts; [|done..]. cbn. by rewrite HS.
Qed.
Lemma run_remove_range n k r i :
  plain k → range_ok k r → cept_run n k [P_remove_range k r] (Some i) (Some (delete_static (range_name r) i)).
Proof.
  intros Hk Hr. apply cept_run_one. intros S HS. split; [done|]. apply step_cepts; [|done..]. cbn. by rewrite HS.
Qed.

(** A range as the collector decodes it. *)
Definition sent_range (m : ipintercept_t) (r : static_ipranges_t) : static_ipranges_t :=
  Mkstatic_ipranges_t r.(sr_rangestr) m.(ip_common).(ic_liid) r.(sr_cin) 0.
Lemma sent_range_ok k m r : sendable k m → static_ok m r → range_ok k (sent_range m r).
Proof.
  intros Hm [Hr _ _ _]. split; [apply (sn_liid k m Hm)|]. destruct Hr as (v & E & _). cbn. rewrite E. by eexists.
Qed.

(** Removal and addition of several ranges. *)
Lemma run_remove_ranges n k m l i :
  sendable k m → Forall (static_ok m) l → cept_ok k i →
  ∃ i', cept_run n k ((λ r, P_remove_range k (sent_range m r)) <$> l) (Some i) (Some i') ∧ cept_ok k i' ∧
    i' = set_ip_statics i'.(ip_statics) i ∧
    ∀ name, range_cins i'.(ip_statics) !! name =
      if decide (name ∈ range_name <$> l) then None else range_cins i.(ip_statics) !! name.
Proof.
  intros Hm. revert i. induction l as [|r l IH]; intros i Hl Hi.
  { exists i. split; [apply cept_run_nil|]. split; [done|]. split; [by destruct i|]. done. }
  apply Forall_cons in Hl as [Hr Hl].
  assert (Hi1 : cept_ok k (delete_static (range_name (sent_range m r)) i)).
  { rewrite delete_static_eq. by apply without_ranges_ok. }
  destruct (IH _ Hl Hi1) as (i' & Hrun & Hok & E & Hn). exists i'. split; [|split; [done|split]].
  - cbn [fmap list_fmap]. eapply (cept_run_app n k [_]); [|exact Hrun]. apply run_remove_range; [apply Hm|].
    by apply sent_range_ok.
  - by rewrite E.
  - intros name. rewrite Hn, range_cins_delete by (by eapply cept_named). cbn [fmap list_fmap].
    change (range_name (sent_range m r)) with (range_name r).
    destruct (decide (name ∈ range_name <$> l)) as [Hin|Hin].
    + rewrite decide_True; [done|]. by apply list_elem_of_further.
    + destruct (decide (name = range_name r)) as [->|Hne].
      * rewrite lookup_delete_eq, decide_True; [done|apply list_elem_of_here].
      * rewrite lookup_delete_ne by done. rewrite decide_False; [done|]. by intros [|]%elem_of_cons.
Qed.
Lemma run_add_ranges n k m l i :
  sendable k m → Forall (static_ok m) l → NoDup (range_name <$> l) → cept_ok k i →
  (∀ r, r ∈ l → range_cins i.(ip_statics) !! range_name r = None) →
  ∃ i', cept_run n k ((λ r, P_add_range k (sent_range m r)) <$> l) (Some i) (Some i') ∧ cept_ok k i' ∧
    i' = set_ip_statics i'.(ip_statics) i ∧
    range_cins i'.(ip_statics) = range_cins l ∪ range_cins i.(ip_statics).
Proof.
  intros Hm. revert i. induction l as [|r l IH]; intros i Hl Hd Hi Hnew.
  { exists i. split; [apply cept_run_nil|]. split; [done|]. split; [by destruct i|]. unfold range_cins at 2. cbn.
    by rewrite (left_id_L ∅ (∪)). }
  apply Forall_cons in Hl as [Hr Hl]. cbn [fmap list_fmap] in Hd. apply NoDup_cons in Hd as [Hrn Hd].
  pose proof (sent_range_ok k m r Hm Hr) as Hsr.
  pose proof (confirm_range_cins k (sent_range m r) i Hi Hsr) as Hc.
  change (range_name (sent_range m r)) with (range_name r) in Hc. rewrite (Hnew r) in Hc by apply list_elem_of_here.
  change (sr_cin (sent_range m r)) with (sr_cin r) in Hc.
  destruct (IH (confirm_range (sent_range m r) i)) as (i' & Hrun & Hok & E & Hn); [done|done|by apply confirm_range_ok| |].
  { intros r' Hr'. rewrite Hc, lookup_insert_ne; [apply Hnew; by apply list_elem_of_further|].
    intros Heq. apply Hrn. rewrite Heq. by apply list_elem_of_fmap_2. }
  exists i'. split; [|split; [done|split]].
  - cbn [fmap list_fmap]. eapply (cept_run_app n k [_]); [|exact Hrun]. apply run_add_range; [apply Hm|done].
  - rewrite E. unfold confirm_range. by destruct (find_static _ _).
  - rewrite Hn, Hc, range_cins_cons. apply map_eq. intros name.
    assert (range_cins l !! range_name r = None).
    { destruct (range_cins l !! range_name r) as [c|] eqn:Ec; [|done]. apply range_cins_lookup in Ec as (r' & Hr' & En & _); [|done].
      destruct Hrn. rewrite <- En. by apply list_elem_of_fmap_2. }
    rewrite !lookup_union. destruct (decide (name = range_name r)) as [->|].
    + rewrite !lookup_insert_eq, H, (Hnew r); [done|apply list_elem_of_here].
    + by rewrite !lookup_insert_ne.
Qed.

(** ** What the provisioner says *)

(** Messages on the wire, and as inputs of the collector. *)
Definition frame : Type := openli_proto_msgtype_t * bytes.
Definition frames_wire (fs : list frame) : bytes :=
  concat ((λ f, wire_frame (msgtype_code f.1) 0 f.2) <$> fs).
Definition input_of (f : frame) : prov_input := In_message f.1 f.2 (zlen f.2).
Lemma frames_wire_app fs fs' : frames_wire (fs ++ fs') = frames_wire fs ++ frames_wire fs'.
Proof. unfold frames_wire. by rewrite fmap_app, concat_app. Qed.
Lemma frames_wire_one t body : frames_wire [(t, body)] = wire_frame (msgtype_code t) 0 body.
Proof. unfold frames_wire. cbn. by rewrite app_nil_r. Qed.

(** What a decoder makes of the body of a message alone. *)
Lemma format_decode {A B} (F : wire_format A B) a b :
  F.(wm_ok) a → F.(wm_decode) (wire_body (F.(wm_fields) a)) (zlen (wire_body (F.(wm_fields) a))) b = Ok (0, F.(wm_view) a b).
Proof. intros Ha. rewrite <- (F.(wm_decode_law) a b [] Ha) at 1. by rewrite app_nil_r. Qed.

Definition start_frame (m : ipintercept_t) : frame := (OPENLI_PROTO_START_IPINTERCEPT, wire_body (ip_fields m)).
Definition modify_frame (m : ipintercept_t) : frame := (OPENLI_PROTO_MODIFY_IPINTERCEPT, wire_body (ip_fields m)).
Definition halt_frame (m : ipintercept_t) : frame :=
  (OPENLI_PROTO_HALT_IPINTERCEPT, wire_body (halt_fields m.(ip_common))).
Definition add_frame (m : ipintercept_t) (r : static_ipranges_t) : frame :=
  (OPENLI_PROTO_ADD_STATICIPS, wire_body (static_fields m r)).
Definition remove_frame (m : ipintercept_t) (r : static_ipranges_t) : frame :=
  (OPENLI_PROTO_REMOVE_STATICIPS, wire_body (static_fields m r)).

Lemma sendable_key k m : sendable k m → cept_key (ip_view m no_intercept) = Ok k.
Proof. intros Hm. eapply cept_key_ok. by apply sendable_view. Qed.
Lemma start_means k m : sendable k m → means (input_of (start_frame m)) (P_start k (ip_view m no_intercept)).
Proof.
  intros Hm. apply means_start; [|by apply sendable_key].
  pose proof (ip_decode m no_intercept [] (sn_ok k m Hm)) as H. by rewrite app_nil_r in H.
Qed.
Lemma modify_means k m : sendable k m → means (input_of (modify_frame m)) (P_modify k (ip_view m no_intercept)).
Proof.
  intros Hm. apply means_modify; [|by apply sendable_key].
  exact (format_decode ip_modify_format m no_intercept (sn_ok k m Hm)).
Qed.
Lemma halt_sendable k m : sendable k m → halt_ok m.(ip_common).
Proof. intros Hm. pose proof (sn_ok k m Hm) as [[] _ _ _ _ _]. split; [done..|apply (sn_authcc k m Hm)]. Qed.
Lemma halt_means k m : sendable k m → means (input_of (halt_frame m)) (P_halt k).
Proof.
  intros Hm. pose proof (halt_sendable k m Hm) as Hh.
  eapply (means_halt _ _ k (wm_view ip_halt_format m no_intercept)).
  - exact (format_decode ip_halt_format m no_intercept Hh).
  - pose proof (sn_ok k m Hm) as [[] _ _ _ _ _]. unfold cept_key. cbn. rewrite (sn_liid k m Hm).
    apply string_key_ok. apply (sn_plain k m Hm).
Qed.
Lemma plain_c_str k : plain k → c_str (Some k) = Ok k.
Proof. intros [E _]. cbn. by rewrite E. Qed.
Lemma add_means k m r :
  sendable k m → static_ok m r → means (input_of (add_frame m r)) (P_add_range k (sent_range m r)).
Proof.
  intros Hm Hr. apply means_add_range; [exact (format_decode (static_format StaticAdd) (m, r) no_static Hr)|].
  cbn. rewrite (sn_liid k m Hm). apply plain_c_str, Hm.
Qed.
Lemma remove_means k m r :
  sendable k m → static_ok m r → means (input_of (remove_frame m r)) (P_remove_range k (sent_range m r)).
Proof.
  intros Hm Hr. apply means_remove_range; [exact (format_decode (static_format StaticRemove) (m, r) no_static Hr)|].
  cbn. rewrite (sn_liid k m Hm). apply plain_c_str, Hm.
Qed.

(** An intercept is announced with its ranges. *)
Definition start_frames (m : ipintercept_t) : list frame := start_frame m :: (add_frame m <$> m.(ip_statics)).
Definition start_ops (k : bytes) (m : ipintercept_t) : list prov_op :=
  P_start k (ip_view m no_intercept) :: ((λ r, P_add_range k (sent_range m r)) <$> m.(ip_statics)).
Lemma start_frames_wire m :
  frames_wire (start_frames m) =
  wire_frame OPENLI_PROTO_START_IPINTERCEPT 0 (wire_body (ip_fields m)) ++
  concat (static_frame OPENLI_PROTO_ADD_STATICIPS m <$> m.(ip_statics)).
Proof. unfold frames_wire, start_frames. cbn [fmap list_fmap concat]. f_equal. by rewrite <- list_fmap_compose. Qed.
Lemma start_frames_mean k m : sendable k m → Forall2 means (input_of <$> start_frames m) (start_ops k m).
Proof.
  intros Hm. unfold start_frames, start_ops. cbn [fmap list_fmap]. constructor; [by apply start_means|].
  pose proof (sn_statics k m Hm) as Hs. revert Hs. induction (ip_statics m) as [|r l IH]; intros Hs; [constructor|].
  apply Forall_cons in Hs as [Hr Hl]. cbn. constructor; [by apply add_means|by apply IH].
Qed.

(** ** Ranges that are marked as confirmed *)

Definition kept (q : ipintercept_t) (r : static_ipranges_t) : Prop :=
  range_cins q.(ip_statics) !! range_name r = Some r.(sr_cin).
#[global] Instance kept_dec q r : Decision (kept q r) := ltac:(unfold kept; apply _).
Definition mark (ks : list bytes) (r : static_ipranges_t) : static_ipranges_t :=
  if decide (range_name r ∈ ks) then set_sr_awaitingconfirm 0 r else r.
Lemma mark_name ks r : range_name (mark ks r) = range_name r ∧ (mark ks r).(sr_cin) = r.(sr_cin).
Proof. unfold mark. by destruct (decide _). Qed.
Lemma mark_cons name ks r : mark ks (mark [name] r) = mark (name :: ks) r.
Proof.
  unfold mark at 1. rewrite (proj1 (mark_name [name] r)). unfold mark.
  destruct (decide (range_name r ∈ ks)) as [H1|H1], (decide (range_name r ∈ [name])) as [H2|H2],
    (decide (range_name r ∈ name :: ks)) as [H3|H3]; try done; set_solver.
Qed.
Lemma mark_nil l : map (mark []) l = l.
Proof.
  induction l as [|r l IH]; [done|]. cbn. rewrite IH. unfold mark. rewrite decide_False; [done|apply not_elem_of_nil].
Qed.
Lemma mark_cins ks l : range_cins (map (mark ks) l) = range_cins l.
Proof. apply range_cins_map. intros r. apply mark_name. Qed.
Lemma mark_named ks l : named l → named (map (mark ks) l).
Proof. intros Hl. apply Forall_map. eapply Forall_impl; [exact Hl|]. intros r Hr. cbn. unfold mark. by destruct (decide _). Qed.

Lemma update_static_mark name q :
  named q.(ip_statics) → update_static name (set_sr_awaitingconfirm 0) q = set_ip_statics (map (mark [name]) q.(ip_statics)) q.
Proof.
  intros Hn. unfold update_static. f_equal. induction Hn as [|r l Hr _ IH]; [done|]. cbn. rewrite IH. f_equal.
  unfold mark. pose proof (range_test name r Hr) as Ht.
  destruct (decide (until_nul <$> sr_rangestr r = Some name)), (decide (range_name r ∈ [name])); try done;
    rewrite list_elem_of_singleton in *; tauto.
Qed.
Lemma good_range_c_str m r : static_ok m r → c_str r.(sr_rangestr) = Ok (range_name r).
Proof. intros [(v & E & _) _ _ _]. unfold range_name. by rewrite E. Qed.

Section informs.
Context (realloc_ok : Z → bool) (noret : Z) (Hnoret : noret ≠ -1).
Context (epoll_mod epoll_del : Z → bool) (epoll_add_timer : Z → Z).
Abbreviation says := (says realloc_ok epoll_mod).

(** The operation tells collectors [ops], and mediators something. *)
Definition informs {A} (m : ST provision_state_t A) (a : A) (ops : list prov_op) : Prop :=
  ∃ fs meds, says m (frames_wire fs) meds a ∧ Forall2 means (input_of <$> fs) ops.

Lemma informs_bind {A B} (m : ST provision_state_t A) (f : A → ST provision_state_t B) a b ops ops' :
  informs m a ops → informs (f a) b ops' → informs (m ≫= f) b (ops ++ ops').
Proof.
  intros (fs & meds & S & M) (fs' & meds' & S' & M'). exists (fs ++ fs'), (meds ++ meds').
  rewrite frames_wire_app, fmap_app. split; [by eapply says_bind|by apply Forall2_app].
Qed.
Lemma informs_quiet {A} (m : ST provision_state_t A) meds a : says m [] meds a → informs m a [].
Proof. intros S. exists [], meds. by split. Qed.
Lemma informs_ret {A} (a : A) : informs (mret a) a [].
Proof. eapply informs_quiet, says_ret. Qed.
Lemma informs_lift {A} (o : outcome A) a : o = Ok a → informs (lift o) a [].
Proof. intros. eapply informs_quiet. by apply says_lift. Qed.
Lemma informs_moves {A} (m : ST provision_state_t A) h a h' : moves realloc_ok epoll_mod m h a h' → informs m a [].
Proof. intros (l & S & _). by eapply informs_quiet. Qed.
Lemma informs_then {A B} (m : ST provision_state_t A) (f : A → ST provision_state_t B) a b ops :
  informs m a [] → informs (f a) b ops → informs (m ≫= f) b ops.
Proof. exact (informs_bind m f a b [] ops). Qed.
Lemma informs_last {A B} (m : ST provision_state_t A) (f : A → ST provision_state_t B) a b ops :
  informs m a ops → informs (f a) b [] → informs (m ≫= f) b ops.
Proof. intros Hm Hf. rewrite <- (app_nil_r ops). by eapply informs_bind. Qed.
Lemma informs_eq {A} (m : ST provision_state_t A) a ops ops' : informs m a ops → ops = ops' → informs m a ops'.
Proof. by intros ? <-. Qed.

Lemma informs_collectors push failed fs r ops :
  appends realloc_ok push (frames_wire fs) r → r ≠ -1 → failed r = false → Forall2 means (input_of <$> fs) ops →
  informs (send_all_collectors epoll_mod push failed) tt ops.
Proof. intros. exists fs, []. split; [by eapply says_collectors|done]. Qed.

(** *** Single messages *)

Lemma informs_remove_range k m r :
  sendable k m → static_ok m r →
  informs (remove_existing_staticip_range realloc_ok epoll_mod m r) tt [P_remove_range k (sent_range m r)].
Proof.
  intros Hm Hr. eapply (informs_collectors _ _ [remove_frame m r]).
  - unfold remove_frame. rewrite frames_wire_one. by apply (appends_static realloc_ok m r OPENLI_PROTO_REMOVE_STATICIPS).
  - done.
  - done.
  - constructor; [by apply remove_means|constructor].
Qed.
Lemma informs_add_range k m r :
  sendable k m → static_ok m r →
  informs (add_new_staticip_range realloc_ok epoll_mod m r) tt [P_add_range k (sent_range m r)].
Proof.
  intros Hm Hr. eapply (informs_collectors _ _ [add_frame m r]).
  - unfold add_frame. rewrite frames_wire_one. by apply (appends_static realloc_ok m r OPENLI_PROTO_ADD_STATICIPS).
  - done.
  - done.
  - constructor; [by apply add_means|constructor].
Qed.
Lemma informs_halt k m :
  sendable k m →
  informs (halt_existing_intercept realloc_ok epoll_mod (DataIp m) OPENLI_PROTO_HALT_IPINTERCEPT) 0 [P_halt k].
Proof.
  intros Hm. destruct (wm_push_law ip_halt_format realloc_ok noret m Hnoret (halt_sendable k m Hm)) as (r & Hr & Hp).
  eapply informs_last; [|apply informs_ret]. eapply (informs_collectors _ _ [halt_frame m]).
  - unfold halt_frame. rewrite frames_wire_one. exact Hp.
  - done.
  - by apply Z.eqb_neq.
  - constructor; [by apply halt_means|constructor].
Qed.
Lemma informs_modify k m :
  sendable k m →
  informs (modify_existing_intercept_options realloc_ok noret epoll_mod (DataIp m) OPENLI_PROTO_MODIFY_IPINTERCEPT) 0
    [P_modify k (ip_view m no_intercept)].
Proof.
  intros Hm. destruct (wm_push_law ip_modify_format realloc_ok noret m Hnoret (sn_ok k m Hm)) as (r & Hr & Hp).
  eapply informs_last; [|apply informs_ret]. eapply (informs_collectors _ _ [modify_frame m]).
  - unfold modify_frame. rewrite frames_wire_one. exact Hp.
  - done.
  - by apply Z.eqb_neq.
  - constructor; [by apply modify_means|constructor].
Qed.
Lemma informs_start k m :
  sendable k m →
  informs (announce_single_intercept epoll_mod (push_ipintercept_onto_net_buffer realloc_ok noret m)) 0 (start_ops k m).
Proof.
  intros Hm. pose proof (ip_fields_len m (sn_ok k m Hm)) as [_ Hlen].
  eapply informs_last; [|apply informs_ret]. eapply (informs_collectors _ _ (start_frames m)).
  - rewrite start_frames_wire. apply appends_ipintercept; [done|apply (sn_ok k m Hm)|apply (sn_statics k m Hm)].
  - lia.
  - apply Z.eqb_neq. lia.
  - by apply start_frames_mean.
Qed.

(** *** Static ranges *)

Lemma informs_withdraw k m l changed q :
  sendable k m → Forall (static_ok m) l → named q.(ip_statics) →
  ∃ changed', informs (withdraw_ranges realloc_ok epoll_mod m l changed q)
    (changed', set_ip_statics (map (mark (range_name <$> filter (kept q) l)) q.(ip_statics)) q)
    ((λ r, P_remove_range k (sent_range m r)) <$> filter (λ r, ¬ kept q r) l).
Proof.
  intros Hm. revert changed q. induction l as [|r l IH]; intros changed q Hl Hq.
  { exists changed. cbn. rewrite mark_nil. replace (set_ip_statics _ q) with q by (by destruct q). apply informs_ret. }
  apply Forall_cons in Hl as [Hr Hl]. cbn [withdraw_ranges].
  assert (Hgone : ¬ kept q r → ∃ changed', informs (_ ← remove_existing_staticip_range realloc_ok epoll_mod m r;
       withdraw_ranges realloc_ok epoll_mod m l true q)
    (changed', set_ip_statics (map (mark (range_name <$> filter (kept q) (r :: l))) q.(ip_statics)) q)
    ((λ r, P_remove_range k (sent_range m r)) <$> filter (λ r, ¬ kept q r) (r :: l))).
  { intros Hk. rewrite !filter_cons, decide_False, decide_True by done. destruct (IH true q Hl Hq) as (c' & H).
    exists c'. cbn [fmap list_fmap]. eapply (informs_bind _ _ tt _ [_]); [by apply informs_remove_range|exact H]. }
  pose proof (find_static_cin (range_name r) q Hq) as Hf.
  assert (Hrun : ∀ c ops f, informs (f (range_name r)) c ops →
     informs (key ← lift (c_str (sr_rangestr r)); f key) (c : bool * ipintercept_t) ops).
  { intros c ops f Hrun. eapply informs_then; [apply informs_lift; by eapply good_range_c_str|exact Hrun]. }
  destruct (find_static (range_name r) q) as [found|] eqn:E; cbn in Hf.
  - destruct (Z.eqb_spec (sr_cin found) (sr_cin r)) as [Ec|Ec].
    + assert (Hk : kept q r) by (unfold kept; by rewrite <- Hf, Ec).
      destruct (IH changed (set_ip_statics (map (mark [range_name r]) q.(ip_statics)) q) Hl) as (c' & H); [by apply mark_named|].
      exists c'. apply Hrun. rewrite E, (proj2 (Z.eqb_eq _ _) Ec), update_static_mark by done.
      rewrite !filter_cons, decide_True, decide_False by tauto. cbn [fmap list_fmap].
      set (q1 := set_ip_statics (map (mark [range_name r]) q.(ip_statics)) q) in *.
      assert (Hc1 : range_cins q1.(ip_statics) = range_cins q.(ip_statics)) by apply mark_cins.
      assert (E1 : filter (kept q1) l = filter (kept q) l) by (apply filter_agree; intros x _; unfold kept; by rewrite Hc1).
      assert (E2 : filter (λ r, ¬ kept q1 r) l = filter (λ r, ¬ kept q r) l)
        by (apply filter_agree; intros x _; unfold kept; by rewrite Hc1).
      rewrite E1, E2 in H. cbn [q1 ip_statics set_ip_statics] in H. rewrite map_map in H.
      rewrite (map_ext _ _ (mark_cons (range_name r) (range_name <$> filter (kept q) l))) in H. exact H.
    + destruct Hgone as (c' & H). { unfold kept. rewrite <- Hf. congruence. }
      exists c'. apply Hrun. by rewrite E, (proj2 (Z.eqb_neq _ _) Ec).
  - destruct Hgone as (c' & H). { unfold kept. by rewrite <- Hf. }
    exists c'. apply Hrun. by rewrite E.
Qed.

Lemma informs_announce k m l changed :
  sendable k m → Forall (static_ok m) l →
  ∃ changed', informs (announce_ranges realloc_ok epoll_mod m l changed) changed'
    ((λ r, P_add_range k (sent_range m r)) <$> filter (λ r, r.(sr_awaitingconfirm) ≠ 0) l).
Proof.
  intros Hm. revert changed. induction l as [|r l IH]; intros changed Hl; [exists changed; apply informs_ret|].
  apply Forall_cons in Hl as [Hr Hl]. cbn [announce_ranges]. rewrite filter_cons.
  destruct (Z.eqb_spec (sr_awaitingconfirm r) 0) as [E|E].
  - rewrite decide_False by tauto. by apply IH.
  - rewrite decide_True by done. destruct (IH true Hl) as (c' & H). exists c'. cbn [fmap list_fmap].
    eapply (informs_bind _ _ tt _ [_]); [by apply informs_add_range|exact H].
Qed.

Lemma static_ok_same k m q r : sendable k m → static_ok q r → static_ok m r.
Proof. intros Hm []. pose proof (sn_ok k m Hm) as [[] _ _ _ _ _]. by split. Qed.

(** The ranges that were not confirmed, as a map. *)
Definition fresh_ranges (q : ipintercept_t) : Prop := Forall (λ r, r.(sr_awaitingconfirm) ≠ 0) q.(ip_statics).
Lemma sendable_named k q : sendable k q → named q.(ip_statics).
Proof.
  intros Hq. eapply Forall_impl; [exact (sn_statics k q Hq)|]. intros r [(v & E & _) _ _ _]. rewrite E. by eexists.
Qed.
Lemma added_lookup ks q name :
  fresh_ranges q → NoDup (range_name <$> q.(ip_statics)) →
  range_cins (filter (λ r, r.(sr_awaitingconfirm) ≠ 0) (map (mark ks) q.(ip_statics))) !! name =
  if decide (name ∈ ks) then None else range_cins q.(ip_statics) !! name.
Proof.
  unfold fresh_ranges. induction (ip_statics q) as [|r l IH]; intros Hf Hd; [by destruct (decide _)|].
  apply Forall_cons in Hf as [Hr Hl]. cbn [fmap list_fmap] in Hd. apply NoDup_cons in Hd as [_ Hd].
  cbn [map]. rewrite filter_cons, range_cins_cons. destruct (decide (range_name r ∈ ks)) as [Hin|Hin].
  - assert (Em : mark ks r = set_sr_awaitingconfirm 0 r) by (unfold mark; by rewrite decide_True).
    rewrite Em, decide_False by (cbn; tauto). rewrite IH by done. destruct (decide (name ∈ ks)); [done|].
    rewrite lookup_insert_ne; [done|]. intros Hx. destruct n. by rewrite <- Hx.
  - assert (Em : mark ks r = r) by (unfold mark; by rewrite decide_False).
    rewrite Em, decide_True by done. rewrite range_cins_cons. destruct (decide (name = range_name r)) as [->|Hne].
    + by rewrite !lookup_insert_eq, decide_False.
    + by rewrite !lookup_insert_ne, IH.
Qed.
Lemma added_names ks l :
  NoDup (range_name <$> l) → NoDup (range_name <$> filter (λ r, r.(sr_awaitingconfirm) ≠ 0) (map (mark ks) l)).
Proof.
  intros Hd. apply NoDup_map_filter. rewrite map_map. erewrite map_ext; [exact Hd|]. intros r. apply mark_name.
Qed.
Lemma mark_static_ok m ks l : Forall (static_ok m) l → Forall (static_ok m) (map (mark ks) l).
Proof. intros Hl. apply Forall_map. eapply Forall_impl; [exact Hl|]. intros r []. unfold mark. by destruct (decide _). Qed.

Lemma informs_staticips k m q :
  sendable k m → sendable k q → fresh_ranges q →
  ∃ changed ks ops,
    informs (reload_staticips realloc_ok epoll_mod m q) (changed, set_ip_statics (map (mark ks) q.(ip_statics)) q) ops ∧
    ∀ n i, cept_ok k i → range_cins i.(ip_statics) = range_cins m.(ip_statics) →
      ∃ i', cept_run n k ops (Some i) (Some i') ∧ cept_ok k i' ∧ i' = set_ip_statics i'.(ip_statics) i ∧
        range_cins i'.(ip_statics) = range_cins q.(ip_statics).
Proof.
  intros Hm Hq Hfresh. pose proof (sn_statics k m Hm) as Hms. pose proof (sendable_named k q Hq) as Hqn.
  destruct (informs_withdraw k m m.(ip_statics) false q Hm Hms Hqn) as (c1 & H1).
  set (ks := range_name <$> filter (kept q) m.(ip_statics)) in *.
  set (q' := set_ip_statics (map (mark ks) q.(ip_statics)) q) in *.
  set (added := filter (λ r, r.(sr_awaitingconfirm) ≠ 0) q'.(ip_statics)).
  assert (Hq's : Forall (static_ok m) q'.(ip_statics)).
  { apply mark_static_ok. eapply Forall_impl; [exact (sn_statics k q Hq)|]. intros r. by apply (static_ok_same k). }
  destruct (informs_announce k m q'.(ip_statics) c1 Hm Hq's) as (c2 & H2).
  exists c2, ks, (((λ r, P_remove_range k (sent_range m r)) <$> filter (λ r, ¬ kept q r) m.(ip_statics)) ++
                  ((λ r, P_add_range k (sent_range m r)) <$> added)). split.
  { unfold reload_staticips. eapply informs_bind; [exact H1|]. cbn beta iota. eapply informs_last; [exact H2|apply informs_ret]. }
  intros n i Hi Hri.
  destruct (run_remove_ranges n k m (filter (λ r, ¬ kept q r) m.(ip_statics)) i) as (i1 & Hr1 & Hok1 & E1 & L1);
    [done|by apply Forall_filter|done|].
  assert (Hadd : ∀ name, range_cins added !! name = if decide (name ∈ ks) then None else range_cins q.(ip_statics) !! name).
  { intros name. apply added_lookup; [done|apply (sn_distinct k q Hq)]. }
  assert (Hgone : ∀ name, name ∉ ks → range_cins i1.(ip_statics) !! name = None).
  { intros name Hn. rewrite L1, Hri. destruct (decide _) as [|Hnot]; [done|].
    destruct (range_cins m.(ip_statics) !! name) as [c|] eqn:Ec; [|done]. exfalso.
    apply range_cins_lookup in Ec as (r & Hin & <- & <-); [|apply (sn_distinct k m Hm)].
    destruct (decide (kept q r)) as [Hk|Hk].
    - apply Hn, list_elem_of_fmap. exists r. split; [done|]. by apply list_elem_of_filter.
    - apply Hnot, list_elem_of_fmap. exists r. split; [done|]. by apply list_elem_of_filter. }
  assert (Hsame : ∀ name, name ∈ ks → range_cins i1.(ip_statics) !! name = range_cins q.(ip_statics) !! name).
  { intros name (r & -> & [Hk Hin]%list_elem_of_filter)%list_elem_of_fmap. rewrite L1, Hri.
    assert (Hrm : range_cins m.(ip_statics) !! range_name r = Some (sr_cin r)).
    { apply range_cins_lookup; [apply (sn_distinct k m Hm)|]. by exists r. }
    rewrite decide_False; [by rewrite Hrm, Hk|]. intros (r' & En & [Hnk Hin']%list_elem_of_filter)%list_elem_of_fmap.
    assert (Hrm' : range_cins m.(ip_statics) !! range_name r' = Some (sr_cin r')).
    { apply range_cins_lookup; [apply (sn_distinct k m Hm)|]. by exists r'. }
    apply Hnk. unfold kept in *. rewrite <- En in *. congruence. }
  destruct (run_add_ranges n k m added i1) as (i2 & Hr2 & Hok2 & E2 & L2); [done| | |done| |].
  { by apply Forall_filter. }
  { apply added_names, (sn_distinct k q Hq). }
  { intros r Hr. apply Hgone. intros Hin.
    assert (Hl : is_Some (range_cins added !! range_name r)).
    { exists (sr_cin r). apply range_cins_lookup; [apply added_names, (sn_distinct k q Hq)|]. by exists r. }
    rewrite Hadd, decide_True in Hl by done. by destruct Hl. }
  exists i2. split; [by eapply cept_run_app|]. split; [done|]. split; [by rewrite E2, E1|].
  rewrite L2. apply map_eq. intros name. rewrite lookup_union, Hadd. destruct (decide (name ∈ ks)) as [Hin|Hin].
  - rewrite (Hsame name Hin). by destruct (range_cins q.(ip_statics) !! name).
  - rewrite (Hgone name Hin). by destruct (range_cins q.(ip_statics) !! name).
Qed.

(** *** Comparisons *)

Lemma str_differ_good a b : good_str a → good_str b → str_differ a b = Ok (bool_decide (a ≠ b)).
Proof.
  intros Ha Hb. unfold str_differ. rewrite (good_str_c_str a), (good_str_c_str b) by done. run_outcome.
  f_equal. apply bool_decide_ext. split; intros Hne E; apply Hne; [by rewrite E|].
  rewrite (good_str_some a Ha), E. symmetry. by apply good_str_some.
Qed.
Lemma same_then_good a b k : good_str a → good_str b → same_then a b k = if decide (a = b) then k else Ok false.
Proof.
  intros Ha Hb. unfold same_then. rewrite str_differ_good by done. run_outcome.
  destruct (decide (a = b)); [rewrite bool_decide_false by tauto|rewrite bool_decide_true by done]; done.
Qed.

Record same_details (m q : intercept_common_t) : Prop := {
  sd_authcc : m.(ic_authcc) = q.(ic_authcc);
  sd_delivcc : m.(ic_delivcc) = q.(ic_delivcc);
  sd_start : m.(ic_tostart_time) = q.(ic_tostart_time);
  sd_end : m.(ic_toend_time) = q.(ic_toend_time);
  sd_encrypt : m.(ic_encrypt) = q.(ic_encrypt);
  sd_mediate : m.(ic_tomediate) = q.(ic_tomediate);
  sd_key : m.(ic_encryptkey) = q.(ic_encryptkey);
}.
Ltac no_equal := exists false; split; [reflexivity|discriminate].
Ltac compare_next :=
  lazymatch goal with
  | |- ∃ b, same_then ?x ?y ?k = Ok b ∧ _ => rewrite (same_then_good x y k) by done; case_decide
  | |- ∃ b, same_num ?x ?y _ = Ok b ∧ _ => unfold same_num at 1; destruct (Z.eqb_spec x y)
  end; [|no_equal].
Lemma common_equal_ok m q :
  common_ok m → common_ok q → ∃ b, common_intercept_equal m q = Ok b ∧ (b = true → same_details m q).
Proof.
  intros [] []. unfold common_intercept_equal. do 8 compare_next.
  destruct (ic_encryptkey m) as [km|] eqn:Em, (ic_encryptkey q) as [kq|] eqn:Eq; try no_equal.
  - destruct ic_ok_key as [|Hm]; [done|]. destruct ic_ok_key0 as [|Hq]; [done|]. compare_next.
    exists true. split; [done|]. intros _. split; try done. by rewrite Em, Eq.
  - exists true. split; [done|]. intros _. split; try done. by rewrite Em, Eq.
Qed.
Lemma ip_equal_ok k m q :
  sendable k m → sendable k q →
  ∃ b, ip_intercept_equal m q = Ok b ∧
    (b = true → same_details m.(ip_common) q.(ip_common) ∧ m.(ip_vendmirrorid) = q.(ip_vendmirrorid)).
Proof.
  intros Hm Hq. pose proof (sn_ok k m Hm) as [Hmc Hmu _ _ _ _]. pose proof (sn_ok k q Hq) as [Hqc Hqu _ _ _ _].
  destruct (common_equal_ok _ _ Hmc Hqc) as (b & E & Hb). unfold ip_intercept_equal. rewrite E. run_outcome.
  destruct b; cbn [negb]; [|no_equal]. specialize (Hb eq_refl).
  assert (Hrest : ∃ b, same_num m.(ip_vendmirrorid) q.(ip_vendmirrorid) (same_num m.(ip_accesstype) q.(ip_accesstype) (Ok true)) = Ok b ∧
    (b = true → same_details m.(ip_common) q.(ip_common) ∧ m.(ip_vendmirrorid) = q.(ip_vendmirrorid))).
  { compare_next. compare_next. by exists true. }
  destruct (ip_username m) as [um|] eqn:Em, (ip_username q) as [uq|] eqn:Eq; try done.
  destruct Hmu as [|Hmu]; [done|]. destruct Hqu as [|Hqu]; [done|].
  rewrite same_then_good by done. by destruct (decide _); [|no_equal].
Qed.

(** *** Intercepts *)

Lemma sendable_hi1 k m : sendable k m → hi1_common_ok m.(ip_common).
Proof. intros Hm. pose proof (sn_ok k m Hm) as [[] _ _ _ _ _]. split; try done. apply Hm. Qed.

(** The same intercept with another number for the next notification, other flags, and
    ranges that are marked. *)
Definition relabel (s aw : Z) (ks : list bytes) (q : ipintercept_t) : ipintercept_t :=
  set_ip_common (set_ic_hi1_seqno s q.(ip_common))
    (set_ip_awaitingconfirm aw (set_ip_statics (map (mark ks) q.(ip_statics)) q)).
Lemma relabel_sendable k s aw ks q : sendable k q → 0 ≤ s < 2 ^ 32 → sendable k (relabel s aw ks q).
Proof.
  intros [[[] ? ? ? ? ?] ? ? ? ? ? ? Hs ?] Hsq. split; try done.
  - apply (mark_static_ok _ ks) in Hs. eapply Forall_impl; [exact Hs|]. by intros r [].
  - cbn. rewrite <- list_fmap_compose. erewrite list_fmap_ext; [done|]. intros j r _. apply mark_name.
Qed.
Lemma relabel_view s aw ks q : ip_view (relabel s aw ks q) no_intercept = ip_view q no_intercept.
Proof. done. Qed.

Section now.
Context (now usec : Z) (Hnow : 0 ≤ now < 2 ^ 64) (Husec : 0 ≤ usec < 2 ^ 32).
Abbreviation update := (update_reconfigured_intercept realloc_ok epoll_mod epoll_del epoll_add_timer now usec).

Lemma cease_informs droppedmeds c :
  common_ok c → str_val c.(ic_liid) ≠ [] →
  informs (remove_liid_mapping realloc_ok epoll_mod c.(ic_liid) c.(ic_liid_len) droppedmeds) 0 [].
Proof.
  intros Hc Hne. destruct droppedmeds; [apply informs_ret|]. eapply informs_quiet.
  eapply (says_cease realloc_ok noret Hnoret epoll_mod (str_val c.(ic_liid))); [apply good_str_c_str, Hc|split; [apply Hc|done]|apply Hc].
Qed.
Lemma mapping_informs c :
  common_ok c → str_val c.(ic_liid) ≠ [] →
  informs (announce_liidmapping_to_mediators realloc_ok epoll_mod (Some (str_val c.(ic_liid), str_val c.(ic_targetagency)))) 0 [].
Proof.
  intros Hc Hne. eapply informs_quiet, (says_mapping realloc_ok noret Hnoret).
  split; [apply good_str_Some, Hc|]. split; [apply good_str_Some, Hc|done].
Qed.

Lemma update_informs old new conf changed agency dropped told_old told_new :
  hi1_wf old → common_ok old.(hc_common) → str_val old.(hc_common).(ic_liid) ≠ [] →
  hi1_common_ok new.(hc_common) → common_ok new.(hc_common) → str_val new.(hc_common).(ic_liid) ≠ [] →
  is_Some new.(hc_local) → target_ok told_old → target_ok told_new → agency_defined conf new.(hc_common) →
  ∃ old' new' conf', informs (update old new conf changed agency dropped told_old told_new) (0, old', new', conf') [] ∧
    hi1_wf new' ∧ new'.(hc_common) = set_ic_hi1_seqno (hi1_next new') new.(hc_common) ∧
    conf'.(cf_leas) = conf.(cf_leas).
Proof.
  intros Ho Hoc Hon Hn Hnc Hnn Hl Hto Htn Hag. destruct agency.
  2:{ destruct (update_reconfigured_moves realloc_ok noret Hnoret epoll_mod epoll_del epoll_add_timer now usec Hnow Husec
        old new conf changed dropped told_old told_new) as (h' & M); [done..|].
      exists (free_prov_intercept_data old), h', conf. split; [by eapply informs_moves|].
      destruct M as (l & _ & _ & W & C). split; [done|]. split; [by rewrite C|done]. }
  pose proof Ho as (_ & d & Hd & _). destruct Hl as [d' Hd'].
  assert (W : hi1_wf (continues old new)) by (apply continues_wf; [done|done|by exists d']).
  set (c := continues old new) in *.
  assert (∃ old1 new1, informs (if negb dropped && true then
       '(_, old) ← announce_hi1_notification_to_mediators realloc_ok epoll_mod now usec old told_old HI1_LI_DEACTIVATED;
       '(_, new) ← announce_hi1_notification_to_mediators realloc_ok epoll_mod now usec
            (set_hc_common (set_ic_hi1_seqno 0 c.(hc_common)) c) told_new HI1_LI_ACTIVATED;
       mret (old, new)
     else if negb dropped && changed then
       '(_, new) ← announce_hi1_notification_to_mediators realloc_ok epoll_mod now usec c told_new HI1_LI_MODIFIED; mret (old, new)
     else mret (old, c)) (old1, new1) [] ∧ hi1_wf new1 ∧
     (∃ n, new1.(hc_common) = set_ic_hi1_seqno n new.(hc_common)) ∧ ∃ n, old1.(hc_common) = set_ic_hi1_seqno n old.(hc_common))
    as (old1 & new1 & H1 & W1 & [n1 E1] & [m1 F1]).
  { destruct dropped; cbn [negb andb].
    - exists old, c. split; [apply informs_ret|]. split; [done|]. split; [by eexists|].
      exists (ic_hi1_seqno (hc_common old)). by rewrite set_seqno_same.
    - destruct (announce_moves realloc_ok noret Hnoret epoll_mod now usec Hnow Husec old told_old HI1_LI_DEACTIVATED)
        as (r1 & old1 & _ & M1); [done..|].
      set (c0 := set_hc_common (set_ic_hi1_seqno 0 c.(hc_common)) c).
      assert (W0 : hi1_wf c0).
      { destruct W as (Hc & dd & Hdd & Hf). split; [|by exists dd]. cbn. by apply seqno_ok. }
      destruct (announce_moves realloc_ok noret Hnoret epoll_mod now usec Hnow Husec c0 told_new HI1_LI_ACTIVATED)
        as (r2 & new1 & _ & M2); [done..|].
      exists old1, new1. split; [|split; [by eapply moves_wf|split]].
      + eapply informs_then; [by eapply informs_moves|]. cbn beta iota.
        eapply informs_then; [by eapply informs_moves|]. apply informs_ret.
      + destruct M2 as (l2 & _ & _ & _ & C2). exists (hi1_next new1). by rewrite C2.
      + destruct M1 as (l1 & _ & _ & _ & C1). by exists (hi1_next old1). }
  destruct (reset_moves realloc_ok noret Hnoret epoll_mod epoll_del epoll_add_timer now usec Hnow Husec told_new new1)
    as (r & new2 & M2); [done..|].
  pose proof (moves_wf _ _ _ _ _ _ M2) as W2. destruct (moves_common _ _ _ _ _ _ M2) as [n2 E2].
  assert (E3 : new2.(hc_common) = set_ic_hi1_seqno n2 new.(hc_common)) by (by rewrite E2, E1).
  exists (free_prov_intercept_data old1), new2,
    (map_liid (str_val (ic_liid (hc_common new))) (str_val (ic_targetagency (hc_common new))) conf).
  split; [|split; [done|split; [by unfold hi1_next; rewrite E3|done]]].
  unfold update_reconfigured_intercept.
  eapply informs_then; [apply informs_lift; by rewrite Hd'|]. eapply informs_then; [apply informs_lift; by rewrite Hd|].
  cbv zeta. assert (Ec : Mkhi1_cept (set_ic_hi1_seqno (ic_hi1_seqno (hc_common old)) (hc_common new))
      (Some (set_pd_end_hi1_sent (pd_end_hi1_sent d) (set_pd_start_hi1_sent (pd_start_hi1_sent d) d'))) = c).
  { unfold c, continues, flag. by rewrite Hd, Hd'. }
  rewrite Ec. eapply informs_then; [exact H1|]. cbn beta iota.
  eapply informs_then; [by eapply informs_moves|]. cbn beta iota.
  eapply informs_then. { apply cease_informs; cbn; rewrite F1; [by destruct Hoc|done]. }
  cbn beta iota. rewrite E3. change (ic_liid (set_ic_hi1_seqno ?n ?x)) with (ic_liid x).
  change (ic_targetagency (set_ic_hi1_seqno ?n ?x)) with (ic_targetagency x).
  eapply informs_then; [apply informs_lift; by apply add_liid_mapping_ok|]. cbn beta iota.
  destruct dropped; [apply informs_ret|].
  eapply informs_then; [by apply mapping_informs|]. apply informs_ret.
Qed.

(** An entry of a table as the parser makes it, or as it is while the provisioner runs. *)
Record entry_ok (k : bytes) (p : prov_cept ipintercept_t) : Prop := {
  en_sendable : sendable k p.(pt_cept);
  en_hi1 : hi1_wf (ip_hc p);
}.
Lemma plain_nonempty k m : sendable k m → str_val m.(ip_common).(ic_liid) ≠ [].
Proof. intros Hm. rewrite (sn_liid k m Hm). apply (sn_plain k m Hm). Qed.
Lemma provisioner_key k m : sendable k m → cept_key m = Ok k.
Proof.
  intros Hm. unfold cept_key. pose proof (sn_ok k m Hm) as [[] _ _ _ _ _]. rewrite ic_ok_liid_len, (sn_liid k m Hm).
  apply string_key_ok, (sn_plain k m Hm).
Qed.

Abbreviation old_ip := (reload_old_ip realloc_ok noret epoll_mod epoll_del epoll_add_timer now usec false).
Abbreviation new_ip := (reload_new_ip realloc_ok noret epoll_mod epoll_add_timer now usec false).

Lemma old_withdrawn dropped k p new conf :
  entry_ok k p → hash_find k new = None →
  ∃ p', informs (old_ip dropped (k, p) (new, conf)) (0, (k, p'), (new, conf)) [P_halt k].
Proof.
  intros [Hm Hh] Hf. pose proof (sn_ok k _ Hm) as [Hc _ _ _ _ _].
  assert (∃ h freed, informs (remove_withdrawn_intercept realloc_ok epoll_mod now usec (ip_hc p)
             p.(pt_cept).(ip_username) dropped) (h, freed) []) as (h & freed & H1).
  { unfold remove_withdrawn_intercept.
    pose proof (cease_informs dropped _ Hc (plain_nonempty k _ Hm)) as Hcease. destruct dropped.
    - exists (ip_hc p), false. eapply informs_then; [exact Hcease|]. apply informs_ret.
    - destruct (announce_moves realloc_ok noret Hnoret epoll_mod now usec Hnow Husec (ip_hc p)
        p.(pt_cept).(ip_username) HI1_LI_DEACTIVATED) as (r & h & _ & M); [done|apply (sn_target k _ Hm)|done|].
      exists h, (bool_decide (is_Some p.(pt_cept).(ip_username))). eapply informs_then; [exact Hcease|]. cbn beta iota.
      eapply informs_then; [by eapply informs_moves|]. apply informs_ret. }
  eexists. unfold reload_old_ip. eapply informs_then; [apply informs_lift; by apply provisioner_key|].
  cbn beta iota. rewrite Hf. eapply informs_last; [by apply informs_halt|].
  cbn beta iota. eapply informs_then; [exact H1|]. apply informs_ret.
Qed.

(** Where the comparison finds no difference a modification would change nothing. *)
Lemma agrees_kept k m q i l :
  sendable k m → sendable k q → same_details m.(ip_common) q.(ip_common) → m.(ip_vendmirrorid) = q.(ip_vendmirrorid) →
  m.(ip_username) = q.(ip_username) → agrees m i → range_cins l = range_cins q.(ip_statics) →
  agrees q (set_ip_statics l i).
Proof. intros Hm Hq [] Hv Hu [] Hr. split; cbn [ip_common ip_vendmirrorid ip_username ip_statics set_ip_statics]; congruence. Qed.
Lemma agrees_modified k q i :
  sendable k q → i.(ip_username) = q.(ip_username) → range_cins i.(ip_statics) = range_cins q.(ip_statics) →
  agrees q (merged i (ip_view q no_intercept)).
Proof. intros Hq Hu Hr. by split. Qed.
Lemma merged_ok k q i : sendable k q → cept_ok k i → cept_ok k (merged i (ip_view q no_intercept)).
Proof.
  intros Hq Hi. unfold merged. apply (updated_ok k (set_ip_vendmirrorid _ i)); [by apply set_mirror_ok|by apply sendable_view].
Qed.

Lemma old_kept dropped k p q new conf :
  entry_ok k p → entry_ok k q → hash_find k new = Some q → fresh_ranges q.(pt_cept) →
  is_Some p.(pt_cept).(ip_username) → p.(pt_cept).(ip_username) = q.(pt_cept).(ip_username) →
  agency_defined conf q.(pt_cept).(ip_common) →
  ∃ p' q' conf' ops,
    informs (old_ip dropped (k, p) (new, conf)) (0, (k, p'), (hash_update k q' new, conf')) ops ∧
    conf'.(cf_leas) = conf.(cf_leas) ∧ q'.(pt_cept).(ip_awaitingconfirm) = 0 ∧
    (∀ n i, cept_ok k i → agrees p.(pt_cept) i →
       ∃ i', cept_run n k ops (Some i) (Some i') ∧ cept_ok k i' ∧ agrees q.(pt_cept) i').
Proof.
  intros [Hm Hh] [Hq Hqh] Hf Hfresh Hus Hu Hag. set (m := p.(pt_cept)) in *. set (mq := q.(pt_cept)) in *.
  destruct (informs_staticips k m mq Hm Hq Hfresh) as (changed & ks & ops & H1 & Hrun).
  set (mq1 := set_ip_statics (map (mark ks) mq.(ip_statics)) mq) in *.
  destruct (ip_equal_ok k m mq Hm Hq) as (same & Hsame & Hdet).
  assert (Hsame1 : ip_intercept_equal m mq1 = Ok same) by exact Hsame.
  pose proof (sn_ok k _ Hm) as [Hmc _ _ _ _ _]. pose proof (sn_ok k _ Hq) as [Hqc _ _ _ _ _].
  assert (Hdiff : str_differ m.(ip_common).(ic_targetagency) mq1.(ip_common).(ic_targetagency) =
      Ok (bool_decide (m.(ip_common).(ic_targetagency) ≠ mq.(ip_common).(ic_targetagency))))
    by (apply str_differ_good; [apply Hmc|apply Hqc]).
  set (agency := bool_decide _) in Hdiff.
  set (q1 := put_cept (set_ip_awaitingconfirm 0 mq1) q).
  destruct (update_informs (ip_hc p) (ip_hc q1) conf (negb same || changed) agency dropped m.(ip_username) mq.(ip_username))
    as (oldh & newh & conf' & H2 & W2 & E2 & L2); try done.
  { by apply (plain_nonempty k). }
  { apply (sendable_hi1 k mq Hq). }
  { by apply (plain_nonempty k mq). }
  { destruct Hqh as (_ & d & Hd & _). by exists d. }
  { apply (sn_target k m Hm). }
  { apply (sn_target k mq Hq). }
  set (q2 := put_ip_hc newh q1). set (seq := hi1_next newh) in *.
  assert (Eq2 : q2.(pt_cept) = relabel seq 0 ks mq) by (unfold q2, put_ip_hc, relabel; cbn; by rewrite E2).
  assert (Hq2 : sendable k q2.(pt_cept)).
  { rewrite Eq2. apply relabel_sendable; [done|]. apply W2. }
  exists (put_ip_hc oldh p), q2, conf', (ops ++ if same then [] else [P_modify k (ip_view mq no_intercept)]).
  split; [|split; [done|split; [by rewrite Eq2|]]].
  - unfold reload_old_ip. eapply informs_then; [apply informs_lift; by apply provisioner_key|].
    cbn beta iota. rewrite Hf. eapply informs_bind; [exact H1|]. cbn beta iota.
    eapply informs_then; [apply informs_lift; exact Hsame1|]. eapply informs_then; [apply informs_lift; exact Hdiff|].
    cbn beta zeta. eapply informs_then; [exact H2|]. cbn beta iota zeta. cbn [Z.ltb Z.compare].
    fold q1. fold q2. destruct same; cbn [negb andb].
    + eapply informs_then; [apply informs_ret|]. apply informs_ret.
    + eapply informs_last; [|apply informs_ret]. pose proof (informs_modify k q2.(pt_cept) Hq2) as H3.
      rewrite Eq2, relabel_view in H3. rewrite <- Eq2 in H3. exact H3.
  - intros n i Hi Hagr. destruct (Hrun n i Hi) as (i1 & Hr1 & Hok1 & E1 & Hc1); [apply Hagr|].
    pose proof (ag_username m i Hagr) as Hiu.
    assert (Hi1u : i1.(ip_username) = m.(ip_username)) by (by rewrite E1).
    destruct same.
    + rewrite app_nil_r. exists i1. split; [done|]. split; [done|]. rewrite E1. destruct (Hdet eq_refl).
      by eapply (agrees_kept k m mq).
    + exists (merged i1 (ip_view mq no_intercept)). split; [|split; [by apply merged_ok|]].
      * eapply cept_run_app; [exact Hr1|]. apply run_modify; [done|by rewrite Hi1u|by rewrite Hi1u].
      * apply (agrees_modified k); [done|by rewrite Hi1u|done].
Qed.

(** *** New intercepts *)

Lemma timers_moves (Htimers : ∀ t, epoll_add_timer t ≠ -1) tssec t h :
  hi1_wf h → ∃ r h', timer_on epoll_add_timer now tssec t h = (r, h') ∧ 0 ≤ r ∧ hi1_moves h [] h'.
Proof.
  intros Hh. destruct (timer_on epoll_add_timer now tssec t h) as [r h'] eqn:E. exists r, h'. split; [done|].
  split; [|by eapply timer_on_moves]. unfold timer_on in E. pose proof Hh as (_ & d & Hd & _). rewrite Hd in E.
  unfold add_intercept_timer in E. destruct (_ || _); [by injection E as <- _|].
  rewrite (proj2 (Z.eqb_neq _ _) (Htimers _)) in E. by injection E as <- _.
Qed.

Lemma enable_informs (Htimers : ∀ t, epoll_add_timer t ≠ -1) dropped k p conf :
  entry_ok k p → agency_defined conf p.(pt_cept).(ip_common) →
  ∃ h conf', informs (enable_new_intercept realloc_ok epoll_mod epoll_add_timer now usec (ip_hc p) conf
                        p.(pt_cept).(ip_username) dropped) (1, h, conf') [] ∧
    hi1_wf h ∧ h.(hc_common) = set_ic_hi1_seqno (hi1_next h) p.(pt_cept).(ip_common) ∧
    conf'.(cf_leas) = conf.(cf_leas).
Proof.
  intros [Hm Hh] Hag. set (c := p.(pt_cept).(ip_common)) in *. pose proof (sn_ok k _ Hm) as [Hc _ _ _ _ _].
  pose proof (sendable_hi1 k _ Hm) as Hc1. fold c in Hc, Hc1.
  set (mid := if (0 <? ic_tostart_time c) || (0 <? ic_toend_time c) then
       let '(r1, h1) := timer_on epoll_add_timer now c.(ic_tostart_time) PROV_EPOLL_INTERCEPT_START (ip_hc p) in
       if r1 <? 0 then mret (-1, h1) else
       let '(r2, h2) := timer_on epoll_add_timer now c.(ic_toend_time) PROV_EPOLL_INTERCEPT_HALT h1 in
       mret (if r2 <? 0 then -1 else 0, h2)
     else mret (0, ip_hc p) : ST provision_state_t (Z * hi1_cept)).
  assert (∃ h1, moves realloc_ok epoll_mod mid (ip_hc p) (0, h1) h1) as (h1 & M1).
  { unfold mid. destruct (_ || _); [|exists (ip_hc p); by apply moves_ret].
    destruct (timers_moves Htimers c.(ic_tostart_time) PROV_EPOLL_INTERCEPT_START (ip_hc p)) as (r1 & h1 & -> & Hr1 & M1); [done|].
    rewrite (proj2 (Z.ltb_ge _ _)) by done.
    destruct (timers_moves Htimers c.(ic_toend_time) PROV_EPOLL_INTERCEPT_HALT h1) as (r2 & h2 & -> & Hr2 & M2); [apply M1|].
    rewrite (proj2 (Z.ltb_ge _ _)) by done. exists h2.
    eapply moves_after; [exact M1|]. eapply moves_after; [exact M2|]. apply moves_ret. apply M2. }
  set (conf1 := map_liid (str_val (ic_liid c)) (str_val (ic_targetagency c)) conf).
  assert (Hmap : add_liid_mapping conf c.(ic_liid) c.(ic_targetagency) =
     Ok (Some (str_val c.(ic_liid), str_val c.(ic_targetagency)), conf1)) by (by apply add_liid_mapping_ok).
  assert (Hstart : ∀ r h' , informs (if dropped then mret (1, h1, conf1) else
        '(r, h) ← announce_hi1_notification_to_mediators realloc_ok epoll_mod now usec h1 p.(pt_cept).(ip_username) HI1_LI_ACTIVATED;
        if r =? -1 then mret (-1, h, conf1) else
        r ← announce_liidmapping_to_mediators realloc_ok epoll_mod (Some (str_val c.(ic_liid), str_val c.(ic_targetagency)));
        mret (if r =? -1 then -1 else 1, h, conf1)) (r, h', conf1) [] →
     informs (enable_new_intercept realloc_ok epoll_mod epoll_add_timer now usec (ip_hc p) conf
                        p.(pt_cept).(ip_username) dropped) (r, h', conf1) []).
  { intros r h' H. unfold enable_new_intercept. cbv zeta. change (hc_common (ip_hc p)) with c.
    eapply informs_then; [apply informs_lift; apply good_str_c_str, Hc|]. cbn beta.
    rewrite agency_test by done. eapply informs_then; [by eapply informs_moves|]. cbn beta iota. cbn [Z.ltb Z.compare].
    eapply informs_then; [apply informs_lift; exact Hmap|]. cbn beta iota. exact H. }
  pose proof (moves_wf _ _ _ _ _ _ M1) as W1. destruct M1 as (l1 & _ & _ & _ & C1).
  destruct dropped.
  - exists h1, conf1. split; [apply Hstart, informs_ret|]. done.
  - destruct (announce_moves realloc_ok noret Hnoret epoll_mod now usec Hnow Husec h1 p.(pt_cept).(ip_username) HI1_LI_ACTIVATED)
      as (r & h2 & Hr & M2); [done|apply (sn_target k _ Hm)|done|].
    exists h2, conf1. split; [|split; [by eapply moves_wf|split; [|done]]].
    + apply Hstart. eapply informs_then; [by eapply informs_moves|]. cbn beta iota.
      rewrite (proj2 (Z.eqb_neq r (-1))) by lia.
      eapply informs_then; [apply mapping_informs; [done|by apply (plain_nonempty k)]|]. apply informs_ret.
    + destruct M2 as (l2 & _ & _ & _ & C2). by rewrite C2, C1.
Qed.

Lemma new_started (Htimers : ∀ t, epoll_add_timer t ≠ -1) dropped k p conf :
  entry_ok k p → agency_defined conf p.(pt_cept).(ip_common) → p.(pt_cept).(ip_awaitingconfirm) ≠ 0 →
  ∃ p' conf' ops, informs (new_ip dropped (k, p) conf) (0, (k, p'), conf') ops ∧
    conf'.(cf_leas) = conf.(cf_leas) ∧
    ∀ n, ∃ i', cept_run n k ops None (Some i') ∧ cept_ok k i' ∧ agrees p.(pt_cept) i'.
Proof.
  intros Hp Hag Haw. pose proof Hp as [Hm Hh]. set (m := p.(pt_cept)) in *.
  destruct (enable_informs Htimers dropped k p conf Hp Hag) as (h & conf' & H1 & W1 & C1 & L1). fold m in H1, C1.
  set (p' := put_ip_hc h p). set (m' := set_ip_common (set_ic_hi1_seqno (hi1_next h) m.(ip_common)) m).
  assert (Ep : p'.(pt_cept) = m') by (unfold p', put_ip_hc, m'; cbn; by rewrite C1).
  assert (Hm' : sendable k m').
  { replace m' with (relabel (hi1_next h) m.(ip_awaitingconfirm) [] m).
    - apply relabel_sendable; [done|apply W1].
    - unfold relabel, m'. rewrite mark_nil. by destruct m. }
  pose proof (informs_start k m' Hm') as H2.
  exists p', conf', (start_ops k m').
  split; [|split; [done|]].
  - unfold reload_new_ip. fold m. rewrite (proj2 (Z.eqb_neq _ _)) by done.
    eapply informs_then; [exact H1|]. cbn beta iota zeta. cbn [Z.ltb Z.compare Z.eqb orb]. fold p'. rewrite Ep.
    eapply informs_last; [exact H2|]. apply informs_ret.
  - intros n. set (i0 := entered (tracker n (ip_view m' no_intercept)) (ip_view m' no_intercept)).
    assert (Hi0 : cept_ok k i0) by (apply entered_ok; by apply sendable_view).
    destruct (run_add_ranges n k m' m'.(ip_statics) i0) as (i' & Hrun & Hok & Ei & Hc);
      [done|apply (sn_statics k _ Hm')|apply (sn_distinct k _ Hm')|done|done|].
    exists i'. split; [eapply (cept_run_app n k [_]); [by apply run_start|exact Hrun]|]. split; [done|].
    rewrite Ei. pose proof (sn_ok k m Hm) as [_ _ Hul _ _ _].
    assert (Hranges : range_cins i'.(ip_statics) = range_cins m.(ip_statics)).
    { rewrite Hc. cbn. by rewrite (right_id_L ∅ (∪)). }
    split; try done. cbn. apply target_view; [apply (sn_target k m Hm)|done].
Qed.
Lemma new_confirmed dropped k p conf :
  p.(pt_cept).(ip_awaitingconfirm) = 0 → informs (new_ip dropped (k, p) conf) (0, (k, p), conf) [].
Proof. intros E. unfold reload_new_ip. rewrite E. apply informs_ret. Qed.
(** *** The two loops *)

(** Messages that take the intercepts of the specification from [C] to [C']. *)
Definition cepts_run (n : Z) (ops : list prov_op) (C C' : gmap bytes ipintercept_t) : Prop :=
  ∀ S, S.(sp_cepts) = C → ops_ok n S ops ∧ spec_run n S ops = with_cepts C' S.
Lemma cepts_run_nil n C : cepts_run n [] C C.
Proof. intros S <-. split; [done|]. by rewrite with_cepts_same. Qed.
Lemma cepts_run_app n ops ops' C C1 C2 :
  cepts_run n ops C C1 → cepts_run n ops' C1 C2 → cepts_run n (ops ++ ops') C C2.
Proof.
  intros H1 H2 S HS. destruct (H1 S HS) as [Ok1 E1]. destruct (H2 (with_cepts C1 S) eq_refl) as [Ok2 E2].
  split; [apply ops_ok_app; by rewrite E1|]. unfold spec_run in *. by rewrite foldl_app, E1, E2.
Qed.
Lemma cept_run_cepts n k ops o' C :
  cept_run n k ops (C !! k) o' → cepts_run n ops C (partial_alter (λ _, o') k C).
Proof. intros H S <-. by apply H. Qed.

(** An intercept of the specification is the one of the table, as the collector has it. *)
Definition described (k : bytes) (p : option (prov_cept ipintercept_t)) (i : option ipintercept_t) : Prop :=
  match p, i with
  | None, None => True
  | Some p, Some i => cept_ok k i ∧ agrees p.(pt_cept) i
  | _, _ => False
  end.
(** Nothing of [q], an entry of the new table, is left to announce in [q']. *)
Definition settled (q q' : option (prov_cept ipintercept_t)) : Prop :=
  (λ q, q.(pt_cept).(ip_awaitingconfirm)) <$> q' = (λ _, 0) <$> q.

(** An entry of the old table that is in the new one, too. *)
Definition compatible (conf : prov_intercept_conf_t) (k : bytes) (p q : prov_cept ipintercept_t) : Prop :=
  entry_ok k q ∧ fresh_ranges q.(pt_cept) ∧ is_Some p.(pt_cept).(ip_username) ∧
  p.(pt_cept).(ip_username) = q.(pt_cept).(ip_username) ∧ agency_defined conf q.(pt_cept).(ip_common).
Lemma agency_defined_leas conf conf' c :
  conf'.(cf_leas) = conf.(cf_leas) → agency_defined conf c → agency_defined conf' c.
Proof. unfold agency_defined. by intros ->. Qed.
Lemma compatible_leas conf conf' k p q :
  conf'.(cf_leas) = conf.(cf_leas) → compatible conf k p q → compatible conf' k p q.
Proof. intros E (? & ? & ? & ? & ?). split_and!; try done. by eapply agency_defined_leas. Qed.

(** One entry of the old table.  The messages do not depend on what a collector knows. *)
Lemma old_step dropped k p new conf :
  entry_ok k p → (∀ q, hash_find k new = Some q → compatible conf k p q) →
  ∃ p' new' conf' ops,
    informs (old_ip dropped (k, p) (new, conf)) (0, (k, p'), (new', conf')) ops ∧
    conf'.(cf_leas) = conf.(cf_leas) ∧ new'.*1 = new.*1 ∧
    (∀ k', k' ≠ k → hash_find k' new' = hash_find k' new) ∧
    settled (hash_find k new) (hash_find k new') ∧
    (∀ n C, described k (Some p) (C !! k) →
       ∃ i', cepts_run n ops C (partial_alter (λ _, i') k C) ∧ described k (hash_find k new) i').
Proof.
  intros Hp Hq. destruct (hash_find k new) as [q|] eqn:E.
  - destruct (Hq q eq_refl) as (Hqe & Hf & Hus & Hu & Had).
    destruct (old_kept dropped k p q new conf) as (p' & q' & conf' & ops & H1 & L & A & Hrun); [done..|].
    exists p', (hash_update k q' new), conf', ops. split; [done|]. split; [done|]. split; [apply hash_update_keys|]. split; [|split].
    + intros k' Hne. rewrite (hash_find_update _ _ _ _ _ E). by rewrite decide_False.
    + rewrite (hash_find_update _ _ _ _ _ E), decide_True by done. unfold settled. cbn. by rewrite A.
    + intros n C Hd. destruct (C !! k) as [i|] eqn:Ei; [|done]. destruct Hd as [Hi Hag].
      destruct (Hrun n i Hi Hag) as (i' & Hr & Hok & Hag'). exists (Some i'). split; [apply cept_run_cepts; by rewrite Ei|done].
  - destruct (old_withdrawn dropped k p new conf Hp E) as (p' & H1).
    exists p', new, conf, [P_halt k]. split_and!; [done..|by rewrite E|]. intros n C Hd. exists None. split; [|done].
    destruct (C !! k) as [i|] eqn:Ei; [|done]. apply cept_run_cepts. rewrite Ei. apply run_halt.
Qed.

Lemma old_loop dropped l new conf :
  NoDup l.*1 →
  (∀ k p, (k, p) ∈ l → entry_ok k p ∧ ∀ q, hash_find k new = Some q → compatible conf k p q) →
  ∃ l' new' conf' ops,
    informs (fold_until (old_ip dropped) l (new, conf)) (0, l', (new', conf')) ops ∧
    conf'.(cf_leas) = conf.(cf_leas) ∧ new'.*1 = new.*1 ∧
    (∀ k, if decide (k ∈ l.*1) then settled (hash_find k new) (hash_find k new') else hash_find k new' = hash_find k new) ∧
    (∀ n C, (∀ k p, (k, p) ∈ l → described k (Some p) (C !! k)) →
       ∃ C', cepts_run n ops C C' ∧ (∀ k, k ∉ l.*1 → C' !! k = C !! k) ∧
         (∀ k, k ∈ l.*1 → described k (hash_find k new) (C' !! k))).
Proof.
  revert new conf. induction l as [|[k p] l IH]; intros new conf Hd Hl.
  { exists [], new, conf, []. split; [apply informs_ret|]. split_and!; try done. intros n C _.
    exists C. split; [apply cepts_run_nil|]. split; [done|]. by intros k ?%elem_of_nil. }
  cbn [fmap list_fmap fst] in Hd. apply NoDup_cons in Hd as [Hk Hd].
  assert (Hother : ∀ k' p'', (k', p'') ∈ l → k' ≠ k).
  { intros k' p'' Hin ->. apply Hk, list_elem_of_fmap. by exists (k, p''). }
  destruct (Hl k p) as (Hp & Hq); [apply list_elem_of_here|].
  destruct (old_step dropped k p new conf Hp Hq) as (p' & new1 & conf1 & ops1 & H1 & L1 & K1 & N1 & S1 & F1).
  destruct (IH new1 conf1 Hd) as (l' & new2 & conf2 & ops2 & H2 & L2 & K2 & N2 & F2).
  { intros k' p'' Hin. destruct (Hl k' p'') as (? & Hcomp); [by apply list_elem_of_further|].
    split; [done|]. rewrite N1 by (by eapply Hother). intros q Hq'. eapply compatible_leas; [exact L1|by apply Hcomp]. }
  exists ((k, p') :: l'), new2, conf2, (ops1 ++ ops2).
  split; [|split; [congruence|split; [congruence|split]]].
  - cbn [fold_until]. eapply informs_bind; [exact H1|]. cbn beta iota. cbn [Z.ltb Z.compare].
    eapply informs_last; [exact H2|]. apply informs_ret.
  - intros k'. cbn [fmap list_fmap fst]. specialize (N2 k'). destruct (decide (k' = k)) as [->|Hne].
    + rewrite decide_False in N2 by done. rewrite decide_True by apply list_elem_of_here. by rewrite N2.
    + rewrite N1 in N2 by done. destruct (decide (k' ∈ l.*1)) as [Hin|Hn].
      * by rewrite decide_True by (by apply list_elem_of_further).
      * rewrite decide_False; [done|]. by intros [|]%elem_of_cons.
  - intros n C Hdesc. destruct (F1 n C) as (i' & R1 & G1); [apply Hdesc, list_elem_of_here|].
    destruct (F2 n (partial_alter (λ _, i') k C)) as (C2 & R2 & G2 & G3).
    { intros k' p'' Hin. rewrite lookup_partial_alter_ne by (apply not_eq_sym; by eapply Hother).
      by apply Hdesc, list_elem_of_further. }
    exists C2. split; [by eapply cepts_run_app|]. split.
    + intros k' Hn. cbn [fmap list_fmap fst] in Hn. apply not_elem_of_cons in Hn as [Hne Hn].
      by rewrite G2, lookup_partial_alter_ne.
    + intros k' Hin. cbn [fmap list_fmap fst] in Hin. destruct (decide (k' = k)) as [->|Hne].
      * by rewrite G2, lookup_partial_alter_eq.
      * apply elem_of_cons in Hin as [|Hin]; [done|]. rewrite <- N1 by done. by apply G3.
Qed.

Lemma new_loop (Htimers : ∀ t, epoll_add_timer t ≠ -1) dropped l conf :
  NoDup l.*1 →
  (∀ k p, (k, p) ∈ l → p.(pt_cept).(ip_awaitingconfirm) ≠ 0 →
     entry_ok k p ∧ agency_defined conf p.(pt_cept).(ip_common)) →
  ∃ l' conf' ops,
    informs (fold_until (new_ip dropped) l conf) (0, l', conf') ops ∧
    ∀ n C, (∀ k p, (k, p) ∈ l → p.(pt_cept).(ip_awaitingconfirm) ≠ 0 → C !! k = None) →
    ∃ C', cepts_run n ops C C' ∧ (∀ k, k ∉ l.*1 → C' !! k = C !! k) ∧
      (∀ k p, (k, p) ∈ l → if decide (p.(pt_cept).(ip_awaitingconfirm) = 0) then C' !! k = C !! k
                           else described k (Some p) (C' !! k)).
Proof.
  revert conf. induction l as [|[k p] l IH]; intros conf Hd Hl.
  { exists [], conf, []. split; [apply informs_ret|]. intros n C _. exists C. split; [apply cepts_run_nil|].
    split; [done|]. by intros k p ?%elem_of_nil. }
  cbn [fmap list_fmap fst] in Hd. apply NoDup_cons in Hd as [Hk Hd].
  assert (Hother : ∀ k' p'', (k', p'') ∈ l → k ≠ k').
  { intros k' p'' Hin ->. apply Hk, list_elem_of_fmap. by exists (k', p''). }
  set (aw := p.(pt_cept).(ip_awaitingconfirm)).
  assert (∃ p' conf1 ops1, informs (new_ip dropped (k, p) conf) (0, (k, p'), conf1) ops1 ∧ conf1.(cf_leas) = conf.(cf_leas) ∧
    ∀ n (C : gmap bytes ipintercept_t), (aw ≠ 0 → C !! k = None) → ∃ i', cept_run n k ops1 (C !! k) i' ∧
      if decide (aw = 0) then i' = C !! k else described k (Some p) i') as (p' & conf1 & ops1 & H1 & L1 & F1).
  { destruct (decide (aw = 0)) as [E|E].
    - exists p, conf, []. split; [by apply new_confirmed|]. split; [done|]. intros n C _. exists (C !! k).
      split; [apply cept_run_nil|done].
    - destruct (Hl k p) as (He & Ha); [apply list_elem_of_here|done|].
      destruct (new_started Htimers dropped k p conf He Ha E) as (p' & conf1 & ops1 & ? & ? & Hrun).
      exists p', conf1, ops1. split; [done|]. split; [done|]. intros n C Hc. destruct (Hrun n) as (i' & ? & ? & ?).
      exists (Some i'). by rewrite Hc. }
  destruct (IH conf1 Hd) as (l' & conf2 & ops2 & H2 & F2).
  { intros k' p'' Hin Haw. destruct (Hl k' p'') as (? & ?); [by apply list_elem_of_further|done|].
    split; [done|]. by eapply agency_defined_leas. }
  exists ((k, p') :: l'), conf2, (ops1 ++ ops2). split.
  - cbn [fold_until]. eapply informs_bind; [exact H1|]. cbn beta iota. cbn [Z.ltb Z.compare].
    eapply informs_last; [exact H2|]. apply informs_ret.
  - intros n C HC. destruct (F1 n C) as (i' & R1%cept_run_cepts & G1); [apply HC, list_elem_of_here|].
    destruct (F2 n (partial_alter (λ _, i') k C)) as (C2 & R2 & N2 & G2).
    { intros k' p'' Hin Haw. rewrite lookup_partial_alter_ne by (by eapply Hother).
      eapply HC; [by apply list_elem_of_further|done]. }
    exists C2. split; [by eapply cepts_run_app|]. split.
    + intros k' Hn. cbn [fmap list_fmap fst] in Hn. apply not_elem_of_cons in Hn as [Hne Hn].
      by rewrite N2, lookup_partial_alter_ne.
    + intros k' p'' [[= -> ->]|Hin]%elem_of_cons.
      * rewrite N2, lookup_partial_alter_eq by done. exact G1.
      * specialize (G2 k' p'' Hin). rewrite lookup_partial_alter_ne in G2; [done|]. by eapply Hother.
Qed.

(** ** The whole reload *)

(** The intercepts of a specification are those of a table of the provisioner. *)
Definition describes (C : gmap bytes ipintercept_t) (t : list (bytes * prov_cept ipintercept_t)) : Prop :=
  ∀ k, described k (hash_find k t) (C !! k).

(** What is asked of the two tables: the entries are as the parser makes them, the
    agencies of the new ones are configured, and an intercept that stays keeps its user. *)
Record reloadable (curr new : list (bytes * prov_cept ipintercept_t)) (conf : prov_intercept_conf_t) : Prop := {
  rl_curr_keys : table_ok curr;
  rl_new_keys : table_ok new;
  rl_curr : ∀ k p, (k, p) ∈ curr → entry_ok k p;
  rl_new : ∀ k q, (k, q) ∈ new → entry_ok k q ∧ fresh_ranges q.(pt_cept) ∧ q.(pt_cept).(ip_awaitingconfirm) ≠ 0 ∧
             agency_defined conf q.(pt_cept).(ip_common);
  rl_user : ∀ k p q, (k, p) ∈ curr → (k, q) ∈ new →
              is_Some p.(pt_cept).(ip_username) ∧ p.(pt_cept).(ip_username) = q.(pt_cept).(ip_username);
}.

Lemma reload_informs (Htimers : ∀ t, epoll_add_timer t ≠ -1) curr new conf dropped :
  reloadable curr new conf →
  ∃ curr' new' conf' ops,
    informs (reload_ipintercepts realloc_ok noret epoll_mod epoll_del epoll_add_timer now usec curr new conf false dropped)
      (0, curr', new', conf') ops ∧
    ∀ n C, describes C curr → ∃ C', cepts_run n ops C C' ∧ describes C' new.
Proof.
  intros [Hck Hnk Hc Hn Hu].
  destruct (old_loop dropped curr new conf Hck) as (curr' & new1 & conf1 & ops1 & H1 & L1 & K1 & N1 & F1).
  { intros k p Hin. split; [by apply Hc|]. intros q Hq%hash_find_In. destruct (Hn k q Hq) as (? & ? & ? & ?).
    destruct (Hu k p q) as [? ?]; [done..|]. by split_and!. }
  assert (Hfind : ∀ k q, (k, q) ∈ new1 → hash_find k new1 = Some q).
  { intros k q. apply In_hash_find. unfold table_ok. by rewrite K1. }
  (* an entry that is still to be announced is one of the new table that is not in the old one *)
  assert (Hstill : ∀ k q, (k, q) ∈ new1 → q.(pt_cept).(ip_awaitingconfirm) ≠ 0 → ¬ (k ∈ curr.*1) ∧ (k, q) ∈ new).
  { intros k q Hin%Hfind Haw. specialize (N1 k). destruct (decide (k ∈ curr.*1)) as [Hk|Hk].
    - unfold settled in N1. rewrite Hin in N1. destruct (hash_find k new); cbn in N1; congruence.
    - split; [done|]. apply hash_find_In. by rewrite <- N1. }
  destruct (new_loop Htimers dropped new1 conf1) as (new2 & conf2 & ops2 & H2 & F2).
  { by rewrite K1. }
  { intros k q Hin Haw. destruct (Hstill k q Hin Haw) as [_ Hq]. destruct (Hn k q Hq) as (? & ? & ? & ?).
    split; [done|]. by eapply agency_defined_leas. }
  exists curr', new2, conf2, (ops1 ++ ops2). split.
  { unfold reload_ipintercepts. eapply informs_bind; [exact H1|]. cbn beta iota. cbn [Z.ltb Z.compare].
    eapply informs_last; [exact H2|apply informs_ret]. }
  intros n C Hd. destruct (F1 n C) as (C1 & R1 & G1 & D1).
  { intros k p Hin%(In_hash_find _ _ _ Hck). specialize (Hd k). by rewrite Hin in Hd. }
  assert (Hout : ∀ k, k ∉ curr.*1 → C1 !! k = None).
  { intros k Hk. rewrite G1 by done. specialize (Hd k). rewrite (proj2 (hash_find_None k curr) Hk) in Hd.
    by destruct (C !! k). }
  destruct (F2 n C1) as (C2 & R2 & G2 & D2).
  { intros k q Hin Haw. apply Hout. by eapply Hstill. }
  exists C2. split; [by eapply cepts_run_app|]. intros k.
  destruct (hash_find k new1) as [q|] eqn:E; [|].
  - specialize (D2 k q (hash_find_In _ _ _ E)). pose proof (N1 k) as Nk. rewrite E in Nk.
    destruct (decide (q.(pt_cept).(ip_awaitingconfirm) = 0)) as [Ha|Ha].
    + rewrite D2. destruct (decide (k ∈ curr.*1)) as [Hk|Hk]; [by apply D1|].
      symmetry in Nk. destruct (Hn k q (hash_find_In _ _ _ Nk)) as (_ & _ & ? & _). done.
    + destruct (Hstill k q (hash_find_In _ _ _ E) Ha) as [_ Hq]. by rewrite (In_hash_find _ _ _ Hnk Hq).
  - assert (Hk1 : k ∉ new1.*1) by (by apply hash_find_None).
    rewrite (proj2 (hash_find_None k new)) by (by rewrite <- K1). rewrite (G2 k Hk1).
    destruct (decide (k ∈ curr.*1)) as [Hk|Hk].
    + specialize (D1 k Hk). by rewrite (proj2 (hash_find_None k new)) in D1 by (by rewrite <- K1).
    + by rewrite Hout.
Qed.

(** A collector's synchronisation thread that knows the intercepts of a table, and of other
    things what [S] says. *)
Definition follows {G Pkt} (p : access_plugin G Pkt) (t : Z) (s : collector_sync_t G) (S : prov_spec)
    (curr : list (bytes * prov_cept ipintercept_t)) : Prop :=
  refines t s S ∧ sessions_ready p s ∧ describes S.(sp_cepts) curr.

(** C4: A reload that keeps the collectors connected, in which every IP intercept that stays
    has a user and keeps it and every intercept of the new configuration belongs to an
    agency that is defined ([reloadable]), succeeds and sends all collectors the same
    messages.  A collector's synchronisation thread that knew exactly the intercepts of the
    old configuration handles them without faults, whenever they arrive, and then knows
    exactly those of the new one, with the country codes, times, mediator, encryption,
    vendor mirror, user and static ranges that they have there ([agrees]; the
    collector takes neither the access type nor the options from a modification, so these
    are not claimed).  The servers and the default RADIUS users that the thread knows
    stay as they were. *)
Theorem ip_reload_reaches_collectors curr new conf dropped :
  (∀ t, epoll_add_timer t ≠ -1) → reloadable curr new conf →
  ∃ fs meds curr' new' conf',
    says (reload_ipintercepts realloc_ok noret epoll_mod epoll_del epoll_add_timer now usec curr new conf false dropped)
      (frames_wire fs) meds (0, curr', new', conf') ∧
    ∀ (G Pkt : Type) (p : access_plugin G Pkt) ascii2prefix t0 l (s : collector_sync_t G) S,
      follows p t0 s S curr → 0 < t0 → times_from t0 l → l.*2 = input_of <$> fs →
      ∃ rs s' S', run_inputs p ascii2prefix l s = Ok (rs, s') ∧ follows p (last_time t0 l) s' S' new ∧
        tables_view s'.(sy_prov) = S' ∧ S'.(sp_servers) = S.(sp_servers) ∧ S'.(sp_radius) = S.(sp_radius).
Proof.
  intros Htimers Hr. destruct (reload_informs Htimers curr new conf dropped Hr)
    as (curr' & new' & conf' & ops & (fs & meds & Hsays & Hmeans) & Hops).
  exists fs, meds, curr', new', conf'. split; [done|]. intros G Pkt p ascii2prefix t0 l s S (Href & Hready & Hd) Ht0 Htimes El.
  destruct (Hops s.(sy_conn).(pn_pubsockcount) S.(sp_cepts) Hd) as (C' & Hrun & Hd'). destruct (Hrun S eq_refl) as [Hok E].
  destruct (run_inputs_refine p ascii2prefix t0 l ops s S) as (s' & Es & R & Henv); [done..|by rewrite El|done|].
  rewrite E in R. exists (spec_returns s.(sy_conn).(pn_pubsockcount) S ops), s', (with_cepts C' S).
  split; [done|]. split; [|split; [by eapply refines_view|done]].
  split; [done|]. split; [by eapply same_env_ready|done].
Qed.
End now.
End informs.

(** ** An example *)

Definition one_fd (secs : Z) : Z := 9.
(** Intercepts of alice with ranges. *)
Definition sample_range (range : string) (cin : Z) : static_ipranges_t :=
  Mkstatic_ipranges_t (str range) (str "LIID001") cin 1.
Definition sample_cept (liid agency : string) (ranges : list static_ipranges_t) : prov_cept ipintercept_t :=
  Mkprov_cept
    (Mkipintercept_t
       (set_ic_targetagency (str agency) (set_ic_liid_len 7 (set_ic_liid (str liid) sample_common)))
       (str "alice") 5 3 77 ranges 1 0)
    (Some fresh_local) false.
(** LIID001 goes to another agency, loses one range, keeps one and gets one with another CIN;
    LIID002 is withdrawn, LIID003 is new. *)
Definition old_cepts : list (bytes * prov_cept ipintercept_t) :=
  [(of_string "LIID001", sample_cept "LIID001" "police"
      [sample_range "192.0.2.0/24" 1; sample_range "198.51.100.0/24" 2; sample_range "203.0.113.0/24" 3]);
   (of_string "LIID002", sample_cept "LIID002" "police" [])].
Definition new_cepts : list (bytes * prov_cept ipintercept_t) :=
  [(of_string "LIID001", sample_cept "LIID001" "customs"
      [sample_range "192.0.2.0/24" 1; sample_range "203.0.113.0/24" 4]);
   (of_string "LIID003", sample_cept "LIID003" "police" [sample_range "192.0.2.128/25" 1])].

Lemma sample_entry_ok liid agency ranges :
  good_str (str liid) → 7 = zlen (of_string liid) → plain (of_string liid) → good_str (str agency) →
  Forall (λ r, good_str r.(sr_rangestr) ∧ 0 ≤ r.(sr_cin) < 2 ^ 32) ranges → NoDup (range_name <$> ranges) →
  entry_ok (of_string liid) (sample_cept liid agency ranges).
Proof.
  intros Hl Hn Hp Ha Hr Hd. pose proof sample_common_ok as Hc. pose proof sample_ip_ok as Hi. split.
  - split; try done.
    + split; [|apply (ip_ok_user _ Hi)|done..]. destruct Hc. by split.
    + right. split; [by destruct (ip_ok_user _ Hi)|done].
    + eapply Forall_impl; [exact Hr|]. intros r []. by split.
  - split; [|by eexists]. destruct Hc. by split.
Defined.
Ltac sample_entry :=
  eapply sample_entry_ok;
  [solve_good_str|reflexivity|apply (bool_decide_unpack _); vm_compute; exact I|solve_good_str
  |repeat (apply Forall_cons; split; [split; [solve_good_str|done]|]); apply Forall_nil_2
  |apply (bool_decide_unpack _); vm_compute; exact I].
Lemma old_cepts_ok : Forall (λ e, entry_ok e.1 e.2) old_cepts.
Proof. repeat (apply Forall_cons; split; [sample_entry|]). apply Forall_nil_2. Defined.
Lemma new_cepts_ok : Forall (λ e, entry_ok e.1 e.2) new_cepts.
Proof. repeat (apply Forall_cons; split; [sample_entry|]). apply Forall_nil_2. Defined.
Lemma sample_reloadable : reloadable old_cepts new_cepts two_agencies.
Proof.
  split.
  - apply (bool_decide_unpack _). vm_compute. exact I.
  - apply (bool_decide_unpack _). vm_compute. exact I.
  - intros k p. exact (proj1 (Forall_forall _ _) old_cepts_ok (k, p)).
  - intros k q Hin. split; [exact (proj1 (Forall_forall _ _) new_cepts_ok (k, q) Hin)|].
    apply elem_of_cons in Hin as [[= -> ->]|[[= -> ->]|[]%elem_of_nil]%elem_of_cons];
      (split; [repeat (apply Forall_cons; split; [done|]); apply Forall_nil_2|split; [done|right; by eexists]]).
  - intros k p q Hp Hq.
    assert (Hu : Forall (λ e, e.2.(pt_cept).(ip_username) = str "alice") (old_cepts ++ new_cepts)).
    { repeat (apply Forall_cons; split; [reflexivity|]). apply Forall_nil_2. }
    rewrite Forall_forall in Hu.
    pose proof (Hu (k, p) ltac:(apply elem_of_app; tauto)) as Ep. pose proof (Hu (k, q) ltac:(apply elem_of_app; tauto)) as Eq.
    cbn in Ep, Eq. rewrite Ep, Eq. split; [by eexists|done].
Defined.

(** What the collector is sent. *)
Example sample_reload_run :
  (λ r, (r.1.1.1.1, omap (λ e, nb_content ∘ snd <$> hears e.2) r.2.(ps_collectors))) <$>
    reload_ipintercepts yes 0 yes yes one_fd 1750000000 0 old_cepts new_cepts two_agencies false false sample_clients =
  let m := (sample_cept "LIID001" "police" []).(pt_cept) in
  let m2 := (sample_cept "LIID002" "police" []).(pt_cept) in
  let m3 := (sample_cept "LIID003" "police" []).(pt_cept) in
  Ok (0, [frames_wire
    [remove_frame m (sample_range "198.51.100.0/24" 2); remove_frame m (sample_range "203.0.113.0/24" 3);
     add_frame m (sample_range "203.0.113.0/24" 4); modify_frame (sample_cept "LIID001" "customs" []).(pt_cept);
     halt_frame m2; start_frame m3; add_frame m3 (sample_range "192.0.2.128/25" 1)]]).
Proof. vm_compute. reflexivity. Qed.

Lemma sample_first : reloadable [] old_cepts two_agencies.
Proof.
  destruct sample_reloadable as [Ho _ Hok _ _]. split; [constructor|done|by intros ? ? ?%elem_of_nil| |by intros ? ? ? ?%elem_of_nil].
  intros k q Hin. split; [by apply Hok|].
  apply elem_of_cons in Hin as [[= -> ->]|[[= -> ->]|[]%elem_of_nil]%elem_of_cons];
    (split; [repeat (apply Forall_cons; split; [done|]); apply Forall_nil_2|split; [done|right; by eexists]]).
Qed.
Lemma at_once_times t (l : list frame) : times_from t ((λ f, (t, input_of f)) <$> l).
Proof. induction l; [done|]. by split. Qed.
Lemma at_once_inputs (t : Z) (l : list frame) : ((λ f, (t, input_of f)) <$> l).*2 = input_of <$> l.
Proof. by rewrite <- list_fmap_compose. Qed.
Lemma at_once_last t (l : list frame) : last_time t ((λ f, (t, input_of f)) <$> l) = t.
Proof. by induction l. Qed.

(** A collector that has just started hears the old configuration as that of a provisioner
    that had none, and then the reload. *)
Lemma ip_reload_reaches_collectors_witness :
  let handled (fs : list frame) s s' rs := run_inputs radius_plugin some_prefix ((λ f, (1, input_of f)) <$> fs) s = Ok (rs, s') in
  ∃ fs fs' meds curr' new' conf' rs rs' s s' S',
    says yes yes (reload_ipintercepts yes 0 yes yes one_fd 1750000000 0 old_cepts new_cepts two_agencies false false)
      (frames_wire fs') meds (0, curr', new', conf') ∧
    handled fs no_config_sync s rs ∧ handled fs' s s' rs' ∧
    follows radius_plugin 1 s' S' new_cepts ∧ tables_view s'.(sy_prov) = S'.
Proof.
  intros handled.
  destruct (ip_reload_reaches_collectors yes 0 ltac:(done) yes yes one_fd 1750000000 0 ltac:(done) ltac:(done)
    [] old_cepts two_agencies false) as (fs & meds0 & ? & ? & ? & _ & H0); [done|apply sample_first|].
  destruct (ip_reload_reaches_collectors yes 0 ltac:(done) yes yes one_fd 1750000000 0 ltac:(done) ltac:(done)
    old_cepts new_cepts two_agencies false) as (fs' & meds & curr' & new' & conf' & H & H1); [done|apply sample_reloadable|].
  destruct (H0 _ _ radius_plugin some_prefix 1 ((λ f, (1, input_of f)) <$> fs) no_config_sync no_spec)
    as (rs & s & S & E & F & _); [|done|apply at_once_times|apply at_once_inputs|].
  { split; [apply fresh_refines, no_config_fresh|]. split; [apply no_config_ready|]. by intros k. }
  rewrite at_once_last in F.
  destruct (H1 _ _ radius_plugin some_prefix 1 ((λ f, (1, input_of f)) <$> fs') s S F)
    as (rs' & s' & S' & E' & F' & V & _); [done|apply at_once_times|apply at_once_inputs|].
  rewrite at_once_last in F'. by exists fs, fs', meds, curr', new', conf', rs, rs', s, s', S'.
Defined.
