(* ===== verification/ProvAuthProps.v ===== *)
(** * A collector connects

    What the provisioner sends a collector that has authenticated, and what the
    synchronisation thread of a collector that was connected before makes of it: the
    messages confirm what is still configured, and the last one removes the rest
    ([auth_restores_collector]). *)

From stdpp Require Import gmap.
From S2P Require Import Prelude ByteOrder Protocol Intercept NetBuffer NetPush NetDecode NetFormat NetMessages Publish AccessSession Radius HashTable IpSession TimedIntercept ThreadTables SyncSessions SyncProps SyncIntercepts SyncProvisioner SyncProvProps SyncConfig SyncRefine SyncClaims NetSamples Provisioner ProvReload ProvAuth ProvProps ProvHi1 ProvReloadProps.

(** ** Pushes that fail with -1 only *)

Definition nonneg (m : pusher) : Prop := ∀ nb r nb', m nb = Ok (r, nb') → -1 ≤ r.

Lemma nonneg_return r : -1 ≤ r → nonneg (push_return r).
Proof. intros Hr nb r' nb' [= <- _]. done. Qed.
Lemma nonneg_then m k : nonneg k → nonneg (m ;;? k)%openli.
Proof.
  intros Hk nb r nb'. unfold push_then. destruct (m nb) as [[r1 nb1]| |]; [|done..]. cbn.
  destruct (r1 =? -1); [by intros [= <- _]|apply Hk].
Qed.
Lemma nonneg_bind {A} (x : outcome A) (k : A → pusher) : (∀ a, nonneg (k a)) → nonneg (λ nb, a ← x; k a nb).
Proof. intros Hk nb r nb'. destruct x; [|done..]. apply Hk. Qed.
Lemma nonneg_if (b : bool) (m k : pusher) : nonneg m → nonneg k → nonneg (if b then m else k).
Proof. by destruct b. Qed.
Lemma nonneg_guard (b : bool) (m : pusher) : nonneg m → nonneg (λ nb, if b then Ok (-1, nb) else m nb).
Proof. intros Hm nb r nb'. destruct b; [by intros [= <- _]|apply Hm]. Qed.
Lemma nonneg_decide P `{!Decision P} (m : pusher) : nonneg m → nonneg (λ nb, if decide P then Ok (-1, nb) else m nb).
Proof. intros Hm nb r nb'. destruct (decide P); [by intros [= <- _]|apply Hm]. Qed.
Lemma nonneg_header ra t l i : nonneg (push_header ra t l i).
Proof.
  intros nb r nb'. unfold push_header, push_generic_onto_net_buffer. destruct (sizeof_ii_header_t =? 0); [by intros [= <- _]|].
  destruct (make_room ra 2 nb sizeof_ii_header_t) as [[[r1 nb1]|]| |]; cbn; [|done..].
  destruct (r1 =? -1); [by intros [= <- _]|]. destruct (read_bytes _ _); cbn; [|done..]. by intros [= <- _].
Qed.

Ltac solve_nonneg :=
  repeat first
    [ apply nonneg_then | apply nonneg_header
    | apply nonneg_return; first [done | apply Z.le_trans with 0; [done|apply u16_range]]
    | apply nonneg_guard | apply nonneg_decide
    | apply nonneg_bind; intros ?
    | match goal with |- nonneg (match ?x with _ => _ end) => destruct x end ].

Section nonneg.
Context (ra : Z → bool) (noret : Z).
Lemma nonneg_mediator med : nonneg (push_mediator_onto_net_buffer ra med).
Proof. unfold push_mediator_onto_net_buffer, push_mediator_msg_onto_net_buffer. solve_nonneg. Qed.
Lemma nonneg_radius d : nonneg (push_default_radius_onto_net_buffer ra d).
Proof. unfold push_default_radius_onto_net_buffer, push_default_radius_msg_onto_net_buffer. solve_nonneg. Qed.
Lemma nonneg_compression c : nonneg (push_default_email_compression_onto_net_buffer ra c).
Proof. unfold push_default_email_compression_onto_net_buffer. solve_nonneg. Qed.
Lemma nonneg_coreserver cs t : nonneg (push_coreserver_onto_net_buffer ra cs t).
Proof. unfold push_coreserver_onto_net_buffer, push_coreserver_msg_onto_net_buffer. solve_nonneg. Qed.
Lemma nonneg_voip v : nonneg (push_voipintercept_onto_net_buffer ra noret v).
Proof. unfold push_voipintercept_onto_net_buffer. solve_nonneg. Qed.
Lemma nonneg_email m : nonneg (push_emailintercept_onto_net_buffer ra noret m).
Proof. unfold push_emailintercept_onto_net_buffer. solve_nonneg. Qed.
Lemma nonneg_sip s v : nonneg (push_sip_target_onto_net_buffer ra s v).
Proof. unfold push_sip_target_onto_net_buffer, push_sip_target_onto_net_buffer_generic. solve_nonneg. Qed.
Lemma nonneg_email_target t m : nonneg (push_email_target_onto_net_buffer ra t m).
Proof. unfold push_email_target_onto_net_buffer, push_email_target_onto_net_buffer_generic. solve_nonneg. Qed.
End nonneg.

(** ** What a push says *)

(** Messages that the synchronisation thread of IP intercepts passes on to others. *)
Definition passed_on (inp : prov_input) : Prop :=
  match inp with
  | In_message t mem len =>
      (∃ b, read_bytes len mem = Ok b) ∧ (voip_message (msgtype_code t) || email_message (msgtype_code t) = true) ∨
      t = OPENLI_PROTO_ANNOUNCE_MEDIATOR ∧ ∃ med, decode_mediator_announcement mem len no_mediator = Ok (0, med)
  | In_disconnect _ => False
  end.
Definition reads (inp : prov_input) (o : option prov_op) : Prop :=
  match o with Some op => means inp op | None => passed_on inp end.

Section speaks.
Context (realloc_ok : Z → bool) (noret : Z) (Hnoret : noret ≠ -1).

(** [m] pushes messages that mean [ops]; those without a meaning for the specification are
    [None]. *)
Definition speaks (m : pusher) (ops : list (option prov_op)) : Prop :=
  ∃ fs r, 0 ≤ r ∧ appends realloc_ok m (frames_wire fs) r ∧ Forall2 reads (input_of <$> fs) ops.

Lemma speaks_ext m m' ops : (∀ nb, nb_wf nb → m nb = m' nb) → speaks m ops → speaks m' ops.
Proof.
  intros E (fs & r & Hr & Hm & Hf). exists fs, r. split; [done|]. split; [|done].
  intros nb Hwf. rewrite <- E by done. by apply Hm.
Qed.
Lemma speaks_eq m ops ops' : speaks m ops → ops = ops' → speaks m ops'.
Proof. by intros ? <-. Qed.
Lemma speaks_nothing r : 0 ≤ r → speaks (push_return r) [].
Proof. intros Hr. exists [], r. split; [done|]. split; [apply appends_return|constructor]. Qed.
Lemma speaks_then m k ops ops' : speaks m ops → speaks k ops' → speaks (m ;;? k)%openli (ops ++ ops').
Proof.
  intros (fs & r & Hr & Hm & Hf) (fs' & r' & Hr' & Hk & Hf'). exists (fs ++ fs'), r'. split; [done|]. split.
  - rewrite frames_wire_app. eapply appends_then; [|exact Hm|exact Hk]. lia.
  - rewrite fmap_app. by apply Forall2_app.
Qed.
(** Code that tests for a negative result. *)
Definition checked (m k : pusher) : pusher := λ nb, '(r, nb') ← m nb; if r <? 0 then Ok (-1, nb') else k nb'.
Lemma checked_then (m k : pusher) bs r nb :
  0 ≤ r → appends realloc_ok m bs r → nb_wf nb → push_then m k nb = checked m k nb.
Proof.
  intros Hr Hm Hwf. unfold push_then, checked. destruct (Hm nb Hwf) as [_ H].
  destruct (m nb) as [[r' nb']| |]; [|done..]. cbn.
  destruct (H r' nb' eq_refl) as (_ & _ & [(-> & _)|(-> & _)]); [|done].
  by rewrite (proj2 (Z.ltb_ge r 0) Hr), (proj2 (Z.eqb_neq r (-1))) by lia.
Qed.
Lemma speaks_checked (m k : pusher) ops ops' : speaks m ops → speaks k ops' → speaks (checked m k) (ops ++ ops').
Proof.
  intros Hm Hk. eapply speaks_ext; [|by apply (speaks_then m k)]. destruct Hm as (fs & r & Hr & Hm & _).
  intros nb Hwf. by eapply checked_then.
Qed.
Lemma speaks_list {A} (push : A → pusher) (f : A → list (option prov_op)) l :
  Forall (λ x, speaks (push x) (f x)) l → speaks (push_list push l) (concat (f <$> l)).
Proof.
  induction 1 as [|x l Hx _ IH]; [by apply (speaks_nothing 0)|]. cbn [fmap list_fmap concat].
  by apply (speaks_checked (push x) (push_list push l)).
Qed.

(** A message of a format. *)
Lemma speaks_format {A B} (F : wire_format A B) (t : openli_proto_msgtype_t) a o :
  F.(wm_ok) a → F.(wm_type) = t → nonneg (F.(wm_push) realloc_ok noret a) →
  (let body := wire_body (F.(wm_fields) a) in reads (In_message t body (zlen body)) o) →
  speaks (F.(wm_push) realloc_ok noret a) [o].
Proof.
  intros Hok Ht Hn Hr. destruct (wm_push_law F realloc_ok noret a Hnoret Hok) as (r & Hr1 & Hp).
  set (fs := [(t, wire_body (wm_fields F a))] : list frame).
  assert (Hf : Forall2 reads (input_of <$> fs) [o]) by (constructor; [exact Hr|constructor]).
  assert (Hw : appends realloc_ok (wm_push F realloc_ok noret a) (frames_wire fs) r).
  { unfold fs. rewrite frames_wire_one, <- Ht. exact Hp. }
  destruct (Z.le_gt_cases 0 r) as [|Hneg]; [by exists fs, r|].
  (* a push that fails with -1 only does not return another negative number *)
  exists fs, 0. split; [done|]. split; [|done]. intros nb Hwf. destruct (Hw nb Hwf) as [H1 H2].
  assert (Hno : ∀ r' nb', wm_push F realloc_ok noret a nb = Ok (r', nb') → r' ≠ r).
  { intros r' nb' E ->. specialize (Hn _ _ _ E). lia. }
  split.
  - intros Hc. destruct (H1 Hc) as [nb' E]. by destruct (Hno _ _ E).
  - intros r' nb' E. destruct (H2 _ _ E) as (? & ? & [(-> & _)|?]); [by destruct (Hno _ _ E)|]. split_and!; [done..|by right].
Qed.
Lemma read_whole (b : bytes) : ∃ b', read_bytes (zlen b) b = Ok b'.
Proof. exists b. pose proof (read_bytes_app (zlen b) b []) as H. rewrite app_nil_r in H. by apply H. Qed.

Lemma speaks_mediator med : mediator_ok med → speaks (push_mediator_onto_net_buffer realloc_ok med) [None].
Proof.
  intros Hok. apply (speaks_format (mediator_format false) OPENLI_PROTO_ANNOUNCE_MEDIATOR med); [done|done|apply nonneg_mediator|].
  right. split; [done|]. exists med. exact (format_decode (mediator_format false) med no_mediator Hok).
Qed.
Lemma speaks_compression c :
  0 ≤ c < 256 → speaks (push_default_email_compression realloc_ok c) [None].
Proof.
  intros Hok. unfold push_default_email_compression.
  apply (speaks_ext (checked (push_default_email_compression_onto_net_buffer realloc_ok c) (push_return 0))).
  { intros nb _. unfold checked, push_return.
    destruct (push_default_email_compression_onto_net_buffer realloc_ok c nb) as [[r nb']| |]; [|done..]. cbn.
    by destruct (r <? 0). }
  apply (speaks_checked _ _ [None] []); [|by apply speaks_nothing].
  apply (speaks_format email_compression_format OPENLI_PROTO_ANNOUNCE_DEFAULT_EMAIL_COMPRESSION c); [done|done|apply nonneg_compression|].
  left. split; [apply read_whole|done].
Qed.
Lemma speaks_radius d :
  radius_ok d → speaks (push_default_radius_onto_net_buffer realloc_ok d)
    [Some (P_radius (str_val d.(dr_name)) (set_dr_awaitingconfirm 0 d))].
Proof.
  intros Hok. apply (speaks_format (radius_format false) OPENLI_PROTO_ANNOUNCE_DEFAULT_RADIUS d); [done|done|apply nonneg_radius|].
  apply means_radius; [exact (format_decode (radius_format false) d no_default_radius Hok)|].
  destruct Hok as [(v & E & Hv & _) Hl Hne]. cbn. rewrite Hl. unfold str_len, str_val. rewrite E. cbn.
  apply string_key_ok. split; [by apply until_nul_ok|]. unfold str_val in *. by rewrite E in *.
Qed.

Lemma until_nul_take n v : until_nul v = v → until_nul (ztake n v) = ztake n v.
Proof.
  unfold ztake. generalize (Z.to_nat n). clear n. induction v as [|b v IH]; intros n E; [by rewrite take_nil|].
  destruct n as [|n]; [done|]. cbn in *. destruct (decide (b = 0)); [done|]. injection E as E. by rewrite IH.
Qed.
Lemma until_nul_app a b : until_nul a = a → until_nul b = b → until_nul (a ++ b) = a ++ b.
Proof.
  induction a as [|x a IH]; [done|]. cbn. destruct (decide (x = 0)); [done|]. intros [= Ha] Hb. by rewrite IH.
Qed.
Lemma until_nul_again v : until_nul (until_nul v) = until_nul v.
Proof. induction v as [|b v IH]; [done|]. cbn. destruct (decide (b = 0)) eqn:E; [done|]. cbn. by rewrite E, IH. Qed.
Lemma server_type_text t : until_nul (coreserver_type_to_string t) = coreserver_type_to_string t.
Proof. unfold coreserver_type_to_string. by repeat case_match. Qed.
Definition wire_server_key (cs : coreserver_t) (t : Z) : bytes :=
  str_val (coreserver_view cs t no_coreserver).(cs_serverkey).
Lemma wire_server_key_ok cs t : coreserver_ok cs t → server_ok (wire_server_key cs t) (coreserver_view cs t no_coreserver).
Proof.
  intros [_ (ip & Hip & _) _]. unfold wire_server_key, coreserver_view, construct_coreserver_key. cbn [cs_ipstr]. rewrite Hip.
  split; [|split; [done|by eexists]]. cbn [str_val default cs_serverkey set_cs_serverkey cs_portstr cs_servertype].
  apply until_nul_take. destruct (cs_portstr cs) as [port|];
    repeat first [apply until_nul_app | apply until_nul_again | apply server_type_text | done].
Qed.
Lemma speaks_coreserver cs t :
  coreserver_ok cs t →
  speaks (push_coreserver_onto_net_buffer realloc_ok cs t)
    [Some (P_server (wire_server_key cs t) (coreserver_view cs t no_coreserver))].
Proof.
  intros Hok. apply (speaks_format (coreserver_format false) OPENLI_PROTO_ANNOUNCE_CORESERVER (cs, t)); [done|done|apply nonneg_coreserver|].
  eapply means_server; [exact (format_decode (coreserver_format false) (cs, t) no_coreserver Hok)|by apply wire_server_key_ok].
Qed.

Lemma speaks_voip v : voip_ok v → speaks (push_voipintercept_onto_net_buffer realloc_ok noret v) [None].
Proof.
  intros Hok. apply (speaks_format (voip_format false) OPENLI_PROTO_START_VOIPINTERCEPT v); [done|done|apply nonneg_voip|].
  left. split; [apply read_whole|done].
Qed.
Lemma speaks_email m : email_ok m → speaks (push_emailintercept_onto_net_buffer realloc_ok noret m) [None].
Proof.
  intros Hok. apply (speaks_format (email_format false) OPENLI_PROTO_START_EMAILINTERCEPT m); [done|done|apply nonneg_email|].
  left. split; [apply read_whole|done].
Qed.
Lemma speaks_sip n s v : sip_ok n s v.(vi_common) → speaks (push_sip_target_onto_net_buffer realloc_ok s v) [None].
Proof.
  intros Hok. apply (speaks_format (sip_format n false) OPENLI_PROTO_ANNOUNCE_SIP_TARGET (s, v)); [done|done|apply nonneg_sip|].
  left. split; [apply read_whole|done].
Qed.
Lemma speaks_email_target n t m :
  email_target_ok n t m.(em_common) → speaks (push_email_target_onto_net_buffer realloc_ok t m) [None].
Proof.
  intros Hok. apply (speaks_format (email_target_format n false) OPENLI_PROTO_ANNOUNCE_EMAIL_TARGET (t, m)); [done|done|apply nonneg_email_target|].
  left. split; [apply read_whole|done].
Qed.
Lemma speaks_nomore : speaks (push_nomore_intercepts realloc_ok) [Some P_nomore].
Proof.
  exists [(OPENLI_PROTO_NOMORE_INTERCEPTS, [])], 16. split; [done|]. split.
  - rewrite frames_wire_one. unfold wire_frame, push_nomore_intercepts. rewrite app_nil_r. change (zlen []) with 0. apply appends_header; [split; [discriminate|reflexivity]|lia|lia].
  - constructor; [|constructor]. by apply (means_nomore [] 0 []).
Qed.
(** An IP intercept with its ranges. *)
Lemma reads_means l ops : Forall2 means l ops → Forall2 reads l (Some <$> ops).
Proof. induction 1; by constructor. Qed.
Lemma speaks_ipintercept k m :
  sendable k m → speaks (push_ipintercept_onto_net_buffer realloc_ok noret m) (Some <$> start_ops k m).
Proof.
  intros Hm. pose proof (ip_fields_len m (sn_ok k m Hm)) as [_ Hlen].
  exists (start_frames m), (fields_len (ip_fields m)). split; [lia|]. split.
  - rewrite start_frames_wire. apply appends_ipintercept; [done|apply (sn_ok k m Hm)|apply (sn_statics k m Hm)].
  - by apply reads_means, start_frames_mean.
Qed.
End speaks.

(** ** What a collector is sent when it connects *)

Section auth.
Context (realloc_ok : Z → bool) (noret : Z) (Hnoret : noret ≠ -1).
Abbreviation speaks := (speaks realloc_ok).

#[local] Instance agency_defined_dec conf c : Decision (agency_defined conf c) := ltac:(unfold agency_defined; apply _).
Lemma agency_known_ok conf c :
  good_str c.(ic_targetagency) → agency_known conf.(cf_leas) c = Ok (bool_decide (agency_defined conf c)).
Proof.
  intros Hc. unfold agency_known. rewrite (good_str_c_str _ Hc). run_outcome. f_equal. unfold agency_defined.
  do 3 case_bool_decide; naive_solver.
Qed.

(** The servers of a configuration, with the type under which they are announced. *)
Definition servers_as (t : core_server_type) (l : list (bytes * coreserver_t)) : list (coreserver_t * Z) :=
  (λ e, (e.2, core_server_code t)) <$> l.
Definition all_servers (conf : prov_intercept_conf_t) : list (coreserver_t * Z) :=
  servers_as OPENLI_CORE_SERVER_RADIUS conf.(cf_radiusservers) ++ servers_as OPENLI_CORE_SERVER_GTP conf.(cf_gtpservers) ++
  servers_as OPENLI_CORE_SERVER_SIP conf.(cf_sipservers) ++ servers_as OPENLI_CORE_SERVER_SMTP conf.(cf_smtpservers) ++
  servers_as OPENLI_CORE_SERVER_IMAP conf.(cf_imapservers) ++ servers_as OPENLI_CORE_SERVER_POP3 conf.(cf_pop3servers).
(** The users that have a name. *)
Definition named_users (conf : prov_intercept_conf_t) : list default_radius_user_t :=
  filter (λ d, is_Some d.(dr_name)) (snd <$> conf.(cf_defradusers)).
(** The intercepts whose agency is defined. *)
Definition announced_cepts (conf : prov_intercept_conf_t) : list (bytes * prov_cept ipintercept_t) :=
  filter (λ e, agency_defined conf e.2.(pt_cept).(ip_common)) conf.(cf_ipintercepts).

(** A configuration whose parts can be sent. *)
Record conf_sendable (s : provision_state_t) : Prop := {
  cs_mediators : Forall (λ e, mediator_ok e.2.(pm_details)) s.(ps_mediators);
  cs_users : Forall radius_ok (named_users s.(ps_interceptconf));
  cs_compress : 0 ≤ s.(ps_interceptconf).(cf_default_email_deliver_compress) < 256;
  cs_servers : Forall (λ e, coreserver_ok e.1 e.2) (all_servers s.(ps_interceptconf));
  cs_cepts : Forall (λ e, sendable e.1 e.2.(pt_cept)) s.(ps_interceptconf).(cf_ipintercepts);
  cs_voip : Forall (λ e, common_ok e.2.(pt_cept).(vi_common) ∧
              Forall (λ t, sip_ok 256 t e.2.(pt_cept).(vi_common)) e.2.(pt_cept).(vi_targets))
              s.(ps_interceptconf).(cf_voipintercepts);
  cs_email : Forall (λ e, email_ok e.2.(pt_cept) ∧
              Forall (λ t, email_target_ok 256 t e.2.(pt_cept).(em_common)) e.2.(pt_cept).(em_targets))
              s.(ps_interceptconf).(cf_emailintercepts);
}.

(** Messages without a meaning for the specification. *)
Definition silent (ops : list (option prov_op)) : Prop := omap id ops = [].
Lemma silent_app ops ops' : silent ops → silent ops' → silent (ops ++ ops').
Proof. unfold silent. by rewrite omap_app; intros -> ->. Qed.
Definition speaks_silently (m : pusher) : Prop := ∃ ops, speaks m ops ∧ silent ops.
Lemma silently_then m k : speaks_silently m → speaks_silently k → speaks_silently (checked m k).
Proof.
  intros (o & Hm & H) (o' & Hk & H'). exists (o ++ o'). split; [by apply speaks_checked|by apply silent_app].
Qed.
Lemma silently_list {A} (push : A → pusher) l :
  Forall (λ x, speaks_silently (push x)) l → speaks_silently (push_list push l).
Proof.
  induction 1 as [|x l Hx _ IH].
  - exists []. split; [by apply (speaks_nothing realloc_ok 0)|done].
  - by apply (silently_then (push x) (push_list push l)).
Qed.
Lemma silently_one m : speaks m [None] → speaks_silently m.
Proof. intros Hm. by exists [None]. Qed.
Lemma silently_known conf c m :
  good_str c.(ic_targetagency) → speaks_silently m →
  speaks_silently (λ nb, known ← agency_known conf.(cf_leas) c; if negb known then Ok (0, nb) else m nb).
Proof.
  intros Hc Hm. rewrite (agency_known_ok conf c Hc). case_bool_decide; [exact Hm|].
  exists []. split; [by apply (speaks_nothing realloc_ok 0)|done].
Qed.

(** The loop over the VoIP intercepts without its effect on the table. *)
Definition voip_push (ignore : Z) (conf : prov_intercept_conf_t) (e : bytes * prov_cept voipintercept_t) : pusher :=
  let v := auth_options ignore e.2.(pt_cept) in λ nb,
  known ← (if e.2.(pt_cept).(vi_active) =? 0 then Ok false
           else agency_known conf.(cf_leas) e.2.(pt_cept).(vi_common));
  if negb known then Ok (0, nb)
  else checked (push_voipintercept_onto_net_buffer realloc_ok noret v) (push_all_sip_targets realloc_ok v.(vi_targets) v) nb.
Lemma voip_push_eq ignore conf k p nb :
  voip_push ignore conf (k, p) nb =
  (known ← (if p.(pt_cept).(vi_active) =? 0 then Ok false else agency_known conf.(cf_leas) p.(pt_cept).(vi_common));
   if negb known then Ok (0, nb) else
   checked (push_voipintercept_onto_net_buffer realloc_ok noret (auth_options ignore p.(pt_cept)))
     (push_all_sip_targets realloc_ok (auth_options ignore p.(pt_cept)).(vi_targets) (auth_options ignore p.(pt_cept))) nb).
Proof. done. Qed.
Lemma voip_loop ignore conf l nb r nb' :
  push_list (voip_push ignore conf) l nb = Ok (r, nb') → r ≠ -1 →
  ∃ l', push_all_voipintercepts realloc_ok noret ignore l conf.(cf_leas) nb = Ok (r, nb', l').
Proof.
  revert nb. induction l as [|[k p] l IH]; intros nb; [intros [= <- <-] _; by eexists|].
  change (push_list (voip_push ignore conf) ((k, p) :: l) nb)
    with (checked (voip_push ignore conf (k, p)) (push_list (voip_push ignore conf) l) nb).
  unfold checked at 1. rewrite voip_push_eq. cbn [push_all_voipintercepts]. cbv zeta. intros H Hr. revert H.
  destruct (if vi_active (pt_cept p) =? 0 then Ok false else agency_known (cf_leas conf) (vi_common (pt_cept p)))
    as [known| |]; cbn [mbind outcome_bind]; [|done..].
  destruct known; cbn [negb].
  - unfold checked. destruct (push_voipintercept_onto_net_buffer _ _ _ nb) as [[r1 nb1]| |]; cbn [mbind outcome_bind]; [|done..].
    destruct (r1 <? 0); [by intros [= <- <-]|].
    destruct (push_all_sip_targets _ _ _ nb1) as [[r2 nb2]| |]; cbn [mbind outcome_bind]; [|done..].
    destruct (r2 <? 0); [by intros [= <- <-]|]. intros H. destruct (IH _ H Hr) as [l' ->]. by eexists.
  - intros H. destruct (IH _ H Hr) as [l' ->]. by eexists.
Qed.

Lemma voip_unloop ignore conf l nb r nb' l' :
  push_all_voipintercepts realloc_ok noret ignore l conf.(cf_leas) nb = Ok (r, nb', l') →
  push_list (voip_push ignore conf) l nb = Ok (r, nb').
Proof.
  revert nb l'. induction l as [|[k p] l IH]; intros nb l'; [by intros [= <- <- _]|].
  change (push_list (voip_push ignore conf) ((k, p) :: l) nb)
    with (checked (voip_push ignore conf (k, p)) (push_list (voip_push ignore conf) l) nb).
  unfold checked at 1. rewrite voip_push_eq. cbn [push_all_voipintercepts]. cbv zeta.
  destruct (if vi_active (pt_cept p) =? 0 then Ok false else agency_known (cf_leas conf) (vi_common (pt_cept p)))
    as [known| |]; cbn [mbind outcome_bind]; [|done..].
  assert (Hrest : ∀ nb1 p', ('(r, nb, l'') ← push_all_voipintercepts realloc_ok noret ignore l conf.(cf_leas) nb1;
      Ok (r, nb, (k, p') :: l'')) = Ok (r, nb', l') →
    push_list (voip_push ignore conf) l nb1 = Ok (r, nb')).
  { intros nb1 p'. destruct (push_all_voipintercepts _ _ _ l _ nb1) as [[[r1 nb2] l1]| |] eqn:E; cbn [mbind outcome_bind]; [|done..].
    intros [= <- <- _]. by eapply IH. }
  destruct known; cbn [negb].
  - unfold checked. destruct (push_voipintercept_onto_net_buffer _ _ _ nb) as [[r1 nb1]| |]; cbn [mbind outcome_bind]; [|done..].
    destruct (r1 <? 0) eqn:L1; [by intros [= <- <- _]|].
    destruct (push_all_sip_targets _ _ _ nb1) as [[r2 nb2]| |]; cbn [mbind outcome_bind]; [|done..].
    destruct (r2 <? 0) eqn:L2; [by intros [= <- <- _]|]. apply Hrest.
  - apply Hrest.
Qed.

Lemma silently_voip ignore conf l :
  Forall (λ e, common_ok e.2.(pt_cept).(vi_common) ∧
    Forall (λ t, sip_ok 256 t e.2.(pt_cept).(vi_common)) e.2.(pt_cept).(vi_targets)) l →
  speaks_silently (push_list (voip_push ignore conf) l).
Proof.
  intros Hl. apply silently_list. eapply Forall_impl; [exact Hl|]. intros [k p] [Hc Ht]. cbn [snd] in *. unfold voip_push. cbn [snd].
  destruct (vi_active _ =? 0).
  { exists []. split; [by apply (speaks_nothing realloc_ok 0)|done]. }
  apply (silently_known conf _ (checked _ _)); [apply Hc|]. apply silently_then.
  - apply silently_one, speaks_voip; [done|]. split; [done|]. unfold auth_options. cbn. by destruct (_ =? 1).
  - apply silently_list. eapply Forall_impl; [exact Ht|]. intros t H. eapply silently_one, speaks_sip; [done|exact H].
Qed.
Lemma silently_email conf l :
  Forall (λ e, email_ok e.2.(pt_cept) ∧
    Forall (λ t, email_target_ok 256 t e.2.(pt_cept).(em_common)) e.2.(pt_cept).(em_targets)) l →
  speaks_silently (push_all_emailintercepts realloc_ok noret l conf.(cf_leas)).
Proof.
  intros Hl. apply silently_list. eapply Forall_impl; [exact Hl|]. intros [k p] [Hc Ht]. cbn [snd] in *.
  apply (silently_known conf _ (checked _ _)); [apply Hc|]. apply silently_then.
  - by apply silently_one, speaks_email.
  - apply silently_list. eapply Forall_impl; [exact Ht|]. intros t H. eapply silently_one, speaks_email_target; [done|exact H].
Qed.
Lemma silently_mediators l :
  Forall (λ e : Z * prov_mediator_t, mediator_ok e.2.(pm_details)) l → speaks_silently (push_all_mediators realloc_ok l).
Proof. intros Hl. apply silently_list. eapply Forall_impl; [exact Hl|]. intros e H. by apply silently_one, (speaks_mediator realloc_ok noret). Qed.

(** What the whole response means. *)
Definition auth_ops (conf : prov_intercept_conf_t) : list prov_op :=
  ((λ d, P_radius (str_val d.(dr_name)) (set_dr_awaitingconfirm 0 d)) <$> named_users conf) ++
  ((λ e, P_server (wire_server_key e.1 e.2) (coreserver_view e.1 e.2 no_coreserver)) <$> all_servers conf) ++
  concat ((λ e, start_ops e.1 e.2.(pt_cept)) <$> announced_cepts conf) ++ [P_nomore].

(** [m] pushes messages with the meaning [ops], among others. *)
Definition speaks_all (m : pusher) (ops : list prov_op) : Prop := ∃ l, speaks m l ∧ omap id l = ops.
Lemma all_then m k ops ops' : speaks_all m ops → speaks_all k ops' → speaks_all (m ;;? k)%openli (ops ++ ops').
Proof.
  intros (l & Hm & <-) (l' & Hk & <-). exists (l ++ l'). split; [by apply speaks_then|apply omap_app].
Qed.
Lemma all_silent m : speaks_silently m → speaks_all m [].
Proof. done. Qed.
Lemma all_one m op : speaks m [Some op] → speaks_all m [op].
Proof. by exists [Some op]. Qed.
Lemma all_list {A} (push : A → pusher) (f : A → list prov_op) l :
  Forall (λ x, speaks_all (push x) (f x)) l → speaks_all (push_list push l) (concat (f <$> l)).
Proof.
  induction 1 as [|x l (lx & Hx & Ex) _ (ll & Hl & El)].
  - exists []. split; [by apply (speaks_nothing realloc_ok 0)|done].
  - exists (lx ++ ll). split; [by apply (speaks_checked _ (push x) (push_list push l))|]. by rewrite omap_app, Ex, El.
Qed.
Lemma all_eq m ops ops' : speaks_all m ops → ops = ops' → speaks_all m ops'.
Proof. by intros ? <-. Qed.
Lemma omap_somes {A} (l : list A) : omap id (Some <$> l) = l.
Proof. induction l as [|x l IH]; [done|]. cbn. by rewrite IH. Qed.

Lemma all_users (l : list (bytes * default_radius_user_t)) :
  Forall radius_ok (filter (λ d, is_Some d.(dr_name)) (snd <$> l)) →
  speaks_all (push_all_default_radius realloc_ok l)
    ((λ d, P_radius (str_val d.(dr_name)) (set_dr_awaitingconfirm 0 d)) <$> filter (λ d, is_Some d.(dr_name)) (snd <$> l)).
Proof.
  intros Hl.
  assert (E : ((λ d, P_radius (str_val d.(dr_name)) (set_dr_awaitingconfirm 0 d)) <$> filter (λ d, is_Some d.(dr_name)) (snd <$> l)) =
    concat ((λ e, match e.2.(dr_name) with
                  | None => [] | Some _ => [P_radius (str_val e.2.(dr_name)) (set_dr_awaitingconfirm 0 e.2)] end) <$> l)).
  { clear Hl. induction l as [|[k d] l IH]; [done|]. cbn [fmap list_fmap snd concat]. rewrite filter_cons.
    destruct (dr_name d) eqn:Ed; [rewrite decide_True by (by eexists)|rewrite decide_False by (by intros [])]; cbn [fmap list_fmap app]; [|exact IH].
    by rewrite Ed, IH. }
  rewrite E. clear E. apply all_list. induction l as [|[k d] l IH]; [constructor|].
  cbn [fmap list_fmap snd] in Hl. rewrite filter_cons in Hl. constructor; [|apply IH; destruct (decide _); [by apply Forall_cons in Hl as [_ Hl]|done]].
  cbn [snd]. destruct (dr_name d) eqn:Ed.
  - rewrite decide_True in Hl by (by eexists). apply Forall_cons in Hl as [Hd _]. rewrite <- Ed.
    by apply all_one, (speaks_radius realloc_ok noret).
  - apply all_silent. exists []. split; [by apply (speaks_nothing realloc_ok 0)|done].
Qed.
Lemma all_servers_as t l :
  Forall (λ e, coreserver_ok e.1 e.2) (servers_as t l) →
  speaks_all (push_coreservers realloc_ok l (core_server_code t))
    ((λ e, P_server (wire_server_key e.1 e.2) (coreserver_view e.1 e.2 no_coreserver)) <$> servers_as t l).
Proof.
  intros Hl. eapply all_eq.
  - apply (all_list _ (λ e : bytes * coreserver_t, [P_server (wire_server_key e.2 (core_server_code t)) (coreserver_view e.2 (core_server_code t) no_coreserver)])).
    induction l as [|e l IH]; [constructor|]. apply Forall_cons in Hl as [He Hl]. constructor; [|by apply IH].
    by apply all_one, (speaks_coreserver realloc_ok noret).
  - clear Hl. induction l as [|e l IH]; [done|]. exact (f_equal (cons _) IH).
Qed.
Lemma all_cepts conf l :
  Forall (λ e, sendable e.1 e.2.(pt_cept)) l →
  speaks_all (push_all_ipintercepts realloc_ok noret l conf.(cf_leas))
    (concat ((λ e, start_ops e.1 e.2.(pt_cept)) <$> filter (λ e, agency_defined conf e.2.(pt_cept).(ip_common)) l)).
Proof.
  intros Hl. eapply all_eq.
  - apply (all_list _ (λ e, if decide (agency_defined conf e.2.(pt_cept).(ip_common)) then start_ops e.1 e.2.(pt_cept) else [])).
    eapply Forall_impl; [exact Hl|]. intros [k p] Hm. cbn [fst snd] in *. pose proof (sn_ok k _ Hm) as [Hc _ _ _ _ _].
    rewrite (agency_known_ok conf _ (ic_ok_agency _ Hc)). case_bool_decide as Hd.
    + rewrite decide_True by done. exists (Some <$> start_ops k p.(pt_cept)). split; [by apply speaks_ipintercept|apply omap_somes].
    + rewrite decide_False by done. apply all_silent. exists []. split; [by apply (speaks_nothing realloc_ok 0)|done].
  - clear Hl. induction l as [|[k p] l IH]; [done|]. cbn [fmap list_fmap concat fst snd]. rewrite filter_cons. cbn [snd].
    destruct (decide _); cbn [fmap list_fmap concat fst snd]; by rewrite IH.
Qed.

(** The response without the table of VoIP intercepts. *)
Definition auth_push (s : provision_state_t) : pusher :=
  let c := s.(ps_interceptconf) in
  (push_first_half realloc_ok noret s ;;? push_list (voip_push s.(ps_ignorertpcomfort) c) c.(cf_voipintercepts) ;;?
   push_all_emailintercepts realloc_ok noret c.(cf_emailintercepts) c.(cf_leas) ;;? push_nomore_intercepts realloc_ok)%openli.
Lemma push_first_half_all s :
  conf_sendable s → speaks_all (push_first_half realloc_ok noret s)
    (((λ d, P_radius (str_val d.(dr_name)) (set_dr_awaitingconfirm 0 d)) <$> named_users s.(ps_interceptconf)) ++
     ((λ e, P_server (wire_server_key e.1 e.2) (coreserver_view e.1 e.2 no_coreserver)) <$> all_servers s.(ps_interceptconf)) ++
     concat ((λ e, start_ops e.1 e.2.(pt_cept)) <$> announced_cepts s.(ps_interceptconf))).
Proof.
  intros [Hm Hu Hc Hs Hi _ _]. unfold all_servers in Hs. rewrite !Forall_app in Hs. destruct Hs as (H1 & H2 & H3 & H4 & H5 & H6).
  eapply all_eq.
  - unfold push_first_half. apply all_then; [by apply all_silent, silently_mediators|].
    apply all_then; [by apply all_users|].
    apply all_then; [by apply all_silent, silently_one, (speaks_compression realloc_ok noret)|].
    do 6 (apply all_then; [by apply all_servers_as|]). by apply all_cepts.
  - unfold all_servers. rewrite !fmap_app, <- !app_assoc. done.
Qed.
Lemma auth_push_all s : conf_sendable s → speaks_all (auth_push s) (auth_ops s.(ps_interceptconf)).
Proof.
  intros Hs. eapply all_eq.
  - unfold auth_push. apply all_then; [by apply push_first_half_all|].
    apply all_then; [apply all_silent, silently_voip, (cs_voip s Hs)|].
    apply all_then; [apply all_silent, silently_email, (cs_email s Hs)|apply all_one, speaks_nomore].
  - unfold auth_ops. by rewrite <- !app_assoc.
Qed.

Context (epoll_mod : Z → bool).
Lemma push_then_ok (m k : pusher) nb r nb' :
  push_then m k nb = Ok (r, nb') → r ≠ -1 → ∃ r1 nb1, m nb = Ok (r1, nb1) ∧ r1 ≠ -1 ∧ k nb1 = Ok (r, nb').
Proof.
  unfold push_then. destruct (m nb) as [[r1 nb1]| |]; [|done..]. cbn. destruct (Z.eqb_spec r1 (-1)); [by intros [= <- _]|].
  intros. by exists r1, nb1.
Qed.
Lemma respond_ok fd s nb r nb' :
  nothing_to_say s = false → auth_push s nb = Ok (r, nb') → 0 ≤ r → enable_epoll_write epoll_mod fd = 0 →
  ∃ s', respond_collector_auth realloc_ok noret epoll_mod fd nb s = Ok (0, nb', s').
Proof.
  intros Hn H Hr He. unfold auth_push in H.
  apply push_then_ok in H as (r1 & nb1 & E1 & N1 & H); [|lia].
  apply push_then_ok in H as (r2 & nb2 & E2 & N2 & H); [|lia]. apply voip_loop in E2 as [l E2]; [|done].
  apply push_then_ok in H as (r3 & nb3 & E3 & N3 & E4); [|lia].
  unfold respond_collector_auth. rewrite Hn, E1. cbn [mbind outcome_bind]. rewrite (proj2 (Z.eqb_neq _ _) N1).
  cbv zeta. rewrite E2. cbn [mbind outcome_bind]. rewrite (proj2 (Z.eqb_neq _ _) N2), E3. cbn [mbind outcome_bind].
  rewrite (proj2 (Z.eqb_neq _ _) N3), E4. cbn [mbind outcome_bind]. rewrite (proj2 (Z.ltb_ge r 0) Hr), He. by eexists.
Qed.
Lemma respond_done fd s nb nb' s' :
  nothing_to_say s = false → respond_collector_auth realloc_ok noret epoll_mod fd nb s = Ok (0, nb', s') →
  ∃ r, 0 ≤ r ∧ auth_push s nb = Ok (r, nb').
Proof.
  unfold respond_collector_auth. intros ->. unfold auth_push, push_then.
  destruct (push_first_half _ _ s nb) as [[r1 nb1]| |]; cbn [mbind outcome_bind]; [|done..].
  destruct (r1 =? -1); [done|]. cbv zeta.
  destruct (push_all_voipintercepts _ _ _ _ _ nb1) as [[[r2 nb2] l]| |] eqn:E2; cbn [mbind outcome_bind]; [|done..].
  rewrite (voip_unloop _ _ _ _ _ _ _ E2). cbn [mbind outcome_bind]. destruct (r2 =? -1); [done|].
  destruct (push_all_emailintercepts _ _ _ _ nb2) as [[r3 nb3]| |]; cbn [mbind outcome_bind]; [|done..].
  destruct (r3 =? -1); [done|].
  destruct (push_nomore_intercepts _ nb3) as [[r4 nb4]| |]; cbn [mbind outcome_bind]; [|done..].
  destruct (Z.ltb_spec r4 0); [done|]. intros H'. exists r4. split; [done|]. by injection H' as _ <- _.
Qed.
End auth.

(** ** What the synchronisation thread makes of it *)

Section hears.
Context {G Pkt : Type} (p : access_plugin G Pkt) (ascii2prefix : bytes → option prefix_t).
Implicit Types (s : collector_sync_t G) (S : prov_spec).

Lemma passed_on_quiet now inp s : passed_on inp → quiet (run_input p ascii2prefix now inp) s.
Proof.
  destruct inp as [t mem len|]; [|done]. intros [[[b Hb] Ht]|[-> [med Hm]]].
  - cbn [run_input]. unfold provmsg_handler.
    destruct t; cbn in Ht; try discriminate Ht; cbn [msgtype_code Z.eqb Pos.eqb voip_message email_message orb];
      first [by eapply quiet_voipsync | by eapply quiet_email].
  - cbn [run_input]. unfold provmsg_handler. cbn [msgtype_code Z.eqb Pos.eqb]. unfold new_mediator. rewrite Hm.
    eapply quiet_ok; [by apply lift_ok|]. cbn. apply quiet_bind; [apply quiet_forwarders|]. intros. apply quiet_ret.
Qed.

(** [run_inputs_refine] for inputs of which some have no meaning. *)
Lemma run_mixed now l ops s S :
  let n := s.(sy_conn).(pn_pubsockcount) in
  refines now s S → sessions_ready p s → 0 < now → times_from now l →
  Forall2 reads l.*2 ops → ops_ok n S (omap id ops) →
  ∃ rs s', run_inputs p ascii2prefix l s = Ok (rs, s') ∧
    refines (last_time now l) s' (spec_run n S (omap id ops)) ∧ same_env s s'.
Proof.
  intros n. subst n. revert now ops s S. induction l as [|[t inp] l IH]; intros now ops s S Href Hr Hn Ht Hm Hok.
  { apply Forall2_nil_inv_l in Hm as ->. exists [], s. split; [done|]. split; [done|]. by split_and!. }
  cbn [fmap list_fmap snd] in Hm. apply Forall2_cons_inv_l in Hm as (o & ops' & Ho & Hm & ->). destruct Ht as [Hle Ht].
  assert (∃ r s1, run_input p ascii2prefix t inp s = Ok (r, s1) ∧ same_env s s1 ∧
     let S1 := match o with Some op => spec_step s.(sy_conn).(pn_pubsockcount) S op | None => S end in
     refines t s1 S1 ∧ ops_ok s.(sy_conn).(pn_pubsockcount) S1 (omap id ops')) as (r & s1 & E1 & Hs1 & R1 & Hoks).
  { destruct o as [op|].
    - destruct Hok as [Hok Hoks].
      destruct (input_ok p ascii2prefix t inp op s S) as (s1 & E1 & R1 & Hs1); [by eapply refines_later|done|lia|done..|].
      by eexists _, s1.
    - destruct (passed_on_quiet t inp s Ho) as (r & s1 & E1 & Ha). exists r, s1. split; [done|]. split; [by eapply after_same|].
      split; [|exact Hok]. eapply refines_quiet; [|exact Ha]. by eapply refines_later. }
  pose proof Hs1 as (? & ? & ? & ? & Hnn). cbn [run_inputs].
  destruct (IH t ops' s1 (match o with Some op => spec_step s.(sy_conn).(pn_pubsockcount) S op | None => S end))
    as (rs & s2 & E2 & R2 & Hs2); [done| |lia|done..|by rewrite Hnn|].
  { by apply (same_env_ready p s). }
  exists (r :: rs), s2. rewrite (ST_bind_ok _ _ _ _ _ E1), (ST_bind_ok _ _ _ _ _ E2). split; [done|].
  split; [|by eapply same_env_trans]. rewrite Hnn in R2. destruct o; exact R2.
Qed.
End hears.

(** Messages that take the intercepts from [C] to [C'], whatever they do to servers. *)
Definition cepts_reach (n : Z) (ops : list prov_op) (C C' : gmap bytes ipintercept_t) : Prop :=
  ∀ S, S.(sp_cepts) = C → ops_ok n S ops ∧ (spec_run n S ops).(sp_cepts) = C'.
Lemma reach_app n ops ops' C C1 C2 :
  cepts_reach n ops C C1 → cepts_reach n ops' C1 C2 → cepts_reach n (ops ++ ops') C C2.
Proof.
  intros H1 H2 S HS. destruct (H1 S HS) as [Ok1 E1]. destruct (H2 (spec_run n S ops) E1) as [Ok2 E2].
  split; [by apply ops_ok_app|]. unfold spec_run in *. by rewrite foldl_app.
Qed.
Lemma reach_run n ops C C' : cepts_run n ops C C' → cepts_reach n ops C C'.
Proof. intros H S HS. destruct (H S HS) as [Hok ->]. done. Qed.
(** Servers and users do not concern intercepts. *)
Lemma reach_others n ops C :
  Forall (λ op, match op with P_server _ _ | P_radius _ _ => True | _ => False end) ops → cepts_reach n ops C C.
Proof.
  intros Hops. induction Hops as [|op ops Hop _ IH]; [by intros S <-|].
  intros S HS. assert (HS1 : (spec_step n S op).(sp_cepts) = C) by (by destruct op).
  destruct (IH _ HS1) as [Hok E]. split; [|exact E]. split; [by destruct op|exact Hok].
Qed.

(** *** One intercept that is announced again *)

Definition confirmed_cins (i : ipintercept_t) : gmap bytes Z :=
  range_cins (filter (λ r, r.(sr_awaitingconfirm) = 0) i.(ip_statics)).
Definition settled_cept (i : ipintercept_t) : ipintercept_t :=
  set_ip_statics (filter (λ r, r.(sr_awaitingconfirm) = 0) i.(ip_statics)) i.
Lemma settled_ok k i : cept_ok k i → cept_ok k (settled_cept i).
Proof.
  intros []. split; try done; cbn.
  - by apply Forall_filter.
  - by apply NoDup_map_filter.
Qed.

Lemma range_cins_None l name : range_cins l !! name = None ↔ name ∉ range_name <$> l.
Proof.
  unfold range_cins. symmetry. rewrite <- not_elem_of_list_to_map. by rewrite <- list_fmap_compose.
Qed.
Lemma marked_confirmed name l nm :
  range_cins (filter (λ r, r.(sr_awaitingconfirm) = 0) (map (mark [name]) l)) !! nm =
  if decide (nm = name) then range_cins l !! name
  else range_cins (filter (λ r, r.(sr_awaitingconfirm) = 0) l) !! nm.
Proof.
  induction l as [|r l IH]; [by destruct (decide _)|]. cbn [map]. rewrite !filter_cons, range_cins_cons.
  destruct (decide (range_name r = name)) as [E|E].
  - assert (Em : mark [name] r = set_sr_awaitingconfirm 0 r) by (unfold mark; rewrite decide_True; [done|by apply list_elem_of_singleton]).
    rewrite Em, decide_True, range_cins_cons by done. change (range_name (set_sr_awaitingconfirm 0 r)) with (range_name r).
    rewrite E. destruct (decide (nm = name)) as [->|Hne].
    + by rewrite !lookup_insert_eq.
    + rewrite lookup_insert_ne, IH by done. destruct (decide (sr_awaitingconfirm r = 0)); [|done].
      by rewrite range_cins_cons, E, lookup_insert_ne by done.
  - assert (Em : mark [name] r = r) by (unfold mark; rewrite decide_False; [done|by rewrite list_elem_of_singleton]).
    rewrite Em, lookup_insert_ne by done. destruct (decide (sr_awaitingconfirm r = 0)); [|exact IH].
    rewrite !range_cins_cons. destruct (decide (nm = range_name r)) as [->|Hne].
    + by rewrite !lookup_insert_eq, decide_False.
    + by rewrite !lookup_insert_ne, IH.
Qed.

(** A range is announced that is new, or that has the CIN it is known with. *)
Lemma confirm_confirmed k r i :
  cept_ok k i → range_ok k r → r.(sr_awaitingconfirm) = 0 →
  (∀ c, range_cins i.(ip_statics) !! range_name r = Some c → c = r.(sr_cin)) →
  confirmed_cins (confirm_range r i) = <[range_name r := r.(sr_cin)]> (confirmed_cins i) ∧
  (∀ name c, range_cins (confirm_range r i).(ip_statics) !! name = Some c →
     range_cins i.(ip_statics) !! name = Some c ∨ name = range_name r ∧ c = r.(sr_cin)).
Proof.
  intros Hi Hr Ha Hc. pose proof (find_static_cin (range_name r) i (cept_named k i Hi)) as Hf.
  pose proof (confirm_range_cins k r i Hi Hr) as Hcins. unfold confirmed_cins, confirm_range in *.
  destruct (find_static _ _) as [x|] eqn:E; cbn in Hf; rewrite <- Hf in Hcins.
  - rewrite (update_static_mark (range_name r) i (cept_named k i Hi)) in Hcins |- *. cbn [ip_statics set_ip_statics] in *. split.
    + apply map_eq. intros nm. rewrite marked_confirmed. destruct (decide (nm = range_name r)) as [->|Hne].
      * rewrite lookup_insert_eq, <- Hf. f_equal. by apply Hc.
      * by rewrite lookup_insert_ne.
    + intros name c. rewrite Hcins. by left.
  - cbn [ip_statics set_ip_statics] in *. split.
    + rewrite filter_app, filter_cons, filter_nil, decide_True by done. apply range_cins_snoc.
      apply range_cins_None. symmetry in Hf. rewrite range_cins_None in Hf. contradict Hf.
      apply list_elem_of_fmap in Hf as (y & Ey & [_ Hy]%list_elem_of_filter). rewrite Ey. by apply list_elem_of_fmap_2.
    + intros name c. rewrite Hcins. destruct (decide (name = range_name r)) as [->|Hne].
      * rewrite lookup_insert_eq. intros [= <-]. by right.
      * rewrite lookup_insert_ne by done. by left.
Qed.

Lemma run_confirm_ranges n k m l i :
  sendable k m → Forall (static_ok m) l → NoDup (range_name <$> l) → cept_ok k i →
  (∀ r c, r ∈ l → range_cins i.(ip_statics) !! range_name r = Some c → c = r.(sr_cin)) →
  ∃ i', cept_run n k ((λ r, P_add_range k (sent_range m r)) <$> l) (Some i) (Some i') ∧ cept_ok k i' ∧
    i' = set_ip_statics i'.(ip_statics) i ∧ confirmed_cins i' = range_cins l ∪ confirmed_cins i.
Proof.
  intros Hm. revert i. induction l as [|r l IH]; intros i Hl Hd Hi Hold.
  { exists i. split; [apply cept_run_nil|]. split; [done|]. split; [by destruct i|]. unfold range_cins. cbn. by rewrite (left_id_L ∅ (∪)). }
  apply Forall_cons in Hl as [Hr Hl]. cbn [fmap list_fmap] in Hd. apply NoDup_cons in Hd as [Hrn Hd].
  pose proof (sent_range_ok k m r Hm Hr) as Hsr.
  destruct (confirm_confirmed k (sent_range m r) i Hi Hsr eq_refl) as [Hc Hcins].
  { intros c. apply (Hold r), list_elem_of_here. }
  change (range_name (sent_range m r)) with (range_name r) in *. change (sr_cin (sent_range m r)) with (sr_cin r) in *.
  destruct (IH (confirm_range (sent_range m r) i)) as (i' & Hrun & Hok & E & Hn); [done|done|by apply confirm_range_ok| |].
  { intros r' c Hr' [H|[Heq _]]%Hcins; [by apply (Hold r'); [apply list_elem_of_further|]|].
    destruct Hrn. rewrite <- Heq. by apply list_elem_of_fmap_2. }
  exists i'. split; [|split; [done|split]].
  - cbn [fmap list_fmap]. eapply (cept_run_app n k [_]); [|exact Hrun]. apply run_add_range; [apply Hm|done].
  - rewrite E. unfold confirm_range. by destruct (find_static _ _).
  - rewrite Hn, Hc, range_cins_cons. rewrite <- insert_union_l, <- insert_union_r; [done|].
    apply range_cins_None. done.
Qed.

(** What may be left of an intercept after the connection was lost. *)
Definition left_over (k : bytes) (q : ipintercept_t) (i : ipintercept_t) : Prop :=
  cept_ok k i ∧ Forall (λ r, r.(sr_awaitingconfirm) ≠ 0) i.(ip_statics) ∧
  is_Some i.(ip_username) ∧ i.(ip_username) = q.(ip_username) ∧
  ∀ name c c', range_cins i.(ip_statics) !! name = Some c → range_cins q.(ip_statics) !! name = Some c' → c = c'.
Definition announced_again (k : bytes) (q i : ipintercept_t) : Prop :=
  i.(ip_awaitingconfirm) = 0 ∧ cept_ok k i ∧ agrees q (settled_cept i).
Lemma unconfirmed_cins i : Forall (λ r, r.(sr_awaitingconfirm) ≠ 0) i.(ip_statics) → confirmed_cins i = ∅.
Proof.
  intros Hi. unfold confirmed_cins. assert (E : filter (λ r, sr_awaitingconfirm r = 0) (ip_statics i) = []); [|by rewrite E].
  induction Hi as [|r l Hr _ IH]; [done|]. by rewrite filter_cons, decide_False.
Qed.
Lemma run_announce_again n k q o :
  sendable k q → (∀ i, o = Some i → left_over k q i) →
  ∃ i', cept_run n k (start_ops k q) o (Some i') ∧ announced_again k q i'.
Proof.
  intros Hq Ho. set (v := ip_view q no_intercept). pose proof (sendable_view k q Hq) as Hv. fold v in Hv.
  pose proof (sn_ok k q Hq) as [_ _ Hul _ _ _].
  assert (∃ i0, cept_run n k [P_start k v] o (Some i0) ∧ i0.(ip_awaitingconfirm) = 0 ∧ cept_ok k i0 ∧ confirmed_cins i0 = ∅ ∧
    (∀ name c c', range_cins i0.(ip_statics) !! name = Some c → range_cins q.(ip_statics) !! name = Some c' → c = c') ∧
    (∀ l, range_cins l = range_cins q.(ip_statics) → agrees q (set_ip_statics l i0))) as (i0 & H0 & A0 & K0 & C0 & R0 & G0).
  { destruct o as [i|].
    - destruct (Ho i eq_refl) as (Hi & Hf & Hu & Eu & Hc). exists (merged (confirmed v i) v). split; [|split; [done|split; [|split; [|split]]]].
      + apply cept_run_one. intros S HS. split.
        * split; [done|]. rewrite HS. intros old [= <-]. split; [done|]. cbn. by rewrite target_view by (apply Hq || done).
        * apply step_cepts; [|done..]. cbn. by rewrite HS.
      + apply merged_ok; [done|]. destruct Hi. by split.
      + by apply unconfirmed_cins.
      + exact Hc.
      + intros l Hl. by split.
    - exists (entered (tracker n v) v). split; [by apply run_start|]. split; [done|]. split; [by apply entered_ok|]. split; [done|].
      split; [by intros name c c'; cbn|]. intros l Hl. split; try done. cbn. apply target_view; [apply (sn_target k q Hq)|done]. }
  destruct (run_confirm_ranges n k q q.(ip_statics) i0) as (i' & Hrun & Hok & E & Hc);
    [done|apply (sn_statics k q Hq)|apply (sn_distinct k q Hq)|done| |].
  { intros r c Hr Hl. eapply R0; [exact Hl|]. apply range_cins_lookup; [apply (sn_distinct k q Hq)|]. by exists r. }
  exists i'. split; [eapply (cept_run_app n k [_]); [exact H0|exact Hrun]|]. split; [by rewrite E|]. split; [done|].
  unfold settled_cept. rewrite E at 2. apply (G0 (filter _ _)). unfold confirmed_cins in Hc. rewrite Hc. fold (confirmed_cins i0).
  rewrite C0. apply (right_id_L ∅ (∪)).
Qed.

Lemma announce_loop n l C :
  NoDup l.*1 →
  (∀ k (q : prov_cept ipintercept_t), (k, q) ∈ l → sendable k q.(pt_cept) ∧ ∀ i, C !! k = Some i → left_over k q.(pt_cept) i) →
  ∃ C', cepts_run n (concat ((λ e, start_ops e.1 e.2.(pt_cept)) <$> l)) C C' ∧ (∀ k, k ∉ l.*1 → C' !! k = C !! k) ∧
    ∀ k q, (k, q) ∈ l → ∃ i, C' !! k = Some i ∧ announced_again k q.(pt_cept) i.
Proof.
  revert C. induction l as [|[k q] l IH]; intros C Hd Hl.
  { exists C. split; [apply cepts_run_nil|]. split; [done|]. by intros k q ?%elem_of_nil. }
  cbn [fmap list_fmap fst] in Hd. apply NoDup_cons in Hd as [Hk Hd].
  assert (Hother : ∀ k' q', (k', q') ∈ l → k ≠ k').
  { intros k' q' Hin ->. apply Hk, list_elem_of_fmap. by exists (k', q'). }
  destruct (Hl k q) as [Hq Ho]; [apply list_elem_of_here|].
  destruct (run_announce_again n k q.(pt_cept) (C !! k) Hq Ho) as (i & R1%cept_run_cepts & A1).
  destruct (IH (partial_alter (λ _, Some i) k C) Hd) as (C2 & R2 & N2 & G2).
  { intros k' q' Hin. destruct (Hl k' q') as [? ?]; [by apply list_elem_of_further|]. split; [done|].
    by rewrite lookup_partial_alter_ne by (by eapply Hother). }
  exists C2. split; [by eapply cepts_run_app|]. split.
  - intros k' Hn. cbn [fmap list_fmap fst] in Hn. apply not_elem_of_cons in Hn as [Hne Hn].
    by rewrite N2, lookup_partial_alter_ne.
  - intros k' q' [[= -> ->]|Hin]%elem_of_cons; [|by apply G2].
    exists i. by rewrite N2, lookup_partial_alter_eq.
Qed.

(** An intercept that stays keeps its user and the CINs of the ranges that stay. *)
Definition survivable (curr new : list (bytes * prov_cept ipintercept_t)) : Prop :=
  ∀ k p q, (k, p) ∈ curr → (k, q) ∈ new →
    is_Some p.(pt_cept).(ip_username) ∧ p.(pt_cept).(ip_username) = q.(pt_cept).(ip_username) ∧
    ∀ name c c', range_cins p.(pt_cept).(ip_statics) !! name = Some c →
      range_cins q.(pt_cept).(ip_statics) !! name = Some c' → c = c'.
Lemma touched_left_over k p q i :
  cept_ok k i → agrees p i → is_Some p.(ip_username) → p.(ip_username) = q.(ip_username) →
  (∀ name c c', range_cins p.(ip_statics) !! name = Some c → range_cins q.(ip_statics) !! name = Some c' → c = c') →
  left_over k q (touch_intercept i).
Proof.
  intros Hi Hag Hu Eu Hc. pose proof (ag_username p i Hag) as Eiu. split; [|split; [|split; [|split]]].
  - destruct Hi. split; try done; cbn.
    + apply Forall_fmap. eapply Forall_impl; [exact co_ranges|]. by intros r [].
    + rewrite map_map. exact co_distinct.
  - cbn. apply Forall_fmap, Forall_forall. done.
  - cbn. by rewrite Eiu.
  - cbn. by rewrite Eiu.
  - assert (Ht : range_cins (touch_intercept i).(ip_statics) = range_cins p.(ip_statics)).
    { rewrite <- (ag_ranges p i Hag). by apply (range_cins_map (set_sr_awaitingconfirm 1)). }
    rewrite Ht. exact Hc.
Qed.

Lemma auth_cepts n curr conf S :
  table_ok conf.(cf_ipintercepts) → Forall (λ e, sendable e.1 e.2.(pt_cept)) conf.(cf_ipintercepts) →
  describes S.(sp_cepts) curr → survivable curr (announced_cepts conf) →
  let S1 := spec_step n S P_disconnect in
  ops_ok n S1 (auth_ops conf) ∧ describes (spec_run n S1 (auth_ops conf)).(sp_cepts) (announced_cepts conf).
Proof.
  intros Ht Hs Hd Hsv S1. set (new := announced_cepts conf) in *.
  assert (Hnew : table_ok new) by (apply NoDup_map_filter; exact Ht).
  assert (Hns : ∀ k q, (k, q) ∈ new → sendable k q.(pt_cept)).
  { intros k q [_ Hin]%list_elem_of_filter. exact (proj1 (Forall_forall _ _) Hs _ Hin). }
  set (C0 := touch_intercept <$> S.(sp_cepts)).
  destruct (announce_loop n new C0 Hnew) as (C1 & R1 & N1 & G1).
  { intros k q Hin. split; [by apply Hns|]. intros i. unfold C0. rewrite lookup_fmap. specialize (Hd k).
    destruct (S.(sp_cepts) !! k) as [i0|]; [|done]. cbn. intros [= <-].
    destruct (hash_find k curr) as [p|] eqn:E; [|done]. destruct Hd as [Hi Hag].
    destruct (Hsv k p q (hash_find_In _ _ _ E) Hin) as (? & ? & ?). by eapply touched_left_over. }
  assert (R : cepts_reach n (auth_ops conf) C0 (omap settle C1)).
  { unfold auth_ops. eapply reach_app; [apply reach_others, Forall_fmap, Forall_forall; done|].
    eapply reach_app; [apply reach_others, Forall_fmap, Forall_forall; done|].
    eapply reach_app; [by apply reach_run|]. intros S' <-. done. }
  destruct (R S1 eq_refl) as [Hok E]. split; [done|]. rewrite E. clear R Hok E. intros k. rewrite lookup_omap.
  destruct (hash_find k new) as [q|] eqn:Eq.
  - apply hash_find_In in Eq. destruct (G1 k q Eq) as (i & -> & Ha & Hi & Hag). cbn. unfold settle. rewrite Ha. cbn.
    split; [by apply (settled_ok k)|exact Hag].
  - apply hash_find_None in Eq. rewrite (N1 k Eq). unfold C0. rewrite lookup_fmap. by destruct (S.(sp_cepts) !! k).
Qed.

(** *** Servers and users *)

Definition server_keys (ops : list prov_op) : list bytes := omap (λ op, match op with P_server k _ => Some k | _ => None end) ops.
Definition user_keys (ops : list prov_op) : list bytes := omap (λ op, match op with P_radius k _ => Some k | _ => None end) ops.
Definition announcing (op : prov_op) : Prop :=
  match op with
  | P_server _ cs => cs.(cs_awaitingconfirm) = 0
  | P_radius _ d => d.(dr_awaitingconfirm) = 0
  | P_start _ _ | P_add_range _ _ => True
  | _ => False
  end.
Lemma announced_keys n ops S :
  Forall announcing ops →
  dom (filter (λ e, e.2.(cs_awaitingconfirm) = 0) (spec_run n S ops).(sp_servers)) =
    list_to_set (server_keys ops) ∪ dom (filter (λ e, e.2.(cs_awaitingconfirm) = 0) S.(sp_servers)) ∧
  dom (filter (λ e, e.2.(dr_awaitingconfirm) = 0) (spec_run n S ops).(sp_radius)) =
    list_to_set (user_keys ops) ∪ dom (filter (λ e, e.2.(dr_awaitingconfirm) = 0) S.(sp_radius)).
Proof.
  intros Hops. revert S. induction Hops as [|op ops Hop _ IH]; intros S; [cbn; set_solver|].
  change (spec_run n S (op :: ops)) with (spec_run n (spec_step n S op) ops).
  destruct (IH (spec_step n S op)) as [-> ->]. clear IH. split.
  - destruct op; try done. cbn [spec_step sp_servers spec_servers server_keys omap list_omap list_to_set].
    destruct (S.(sp_servers) !! key) as [found|] eqn:E; rewrite map_filter_insert_True by done; set_solver.
  - destruct op; try done. cbn [spec_step sp_radius spec_radius user_keys omap list_omap list_to_set].
    destruct (S.(sp_radius) !! name) as [found|] eqn:E; rewrite map_filter_insert_True by done; set_solver.
Qed.

Lemma auth_lists n conf S :
  let S' := spec_run n (spec_step n S P_disconnect) (auth_ops conf) in
  dom S'.(sp_servers) = list_to_set ((λ e, wire_server_key e.1 e.2) <$> all_servers conf) ∧
  dom S'.(sp_radius) = list_to_set ((λ d, str_val d.(dr_name)) <$> named_users conf).
Proof.
  intros S'. set (S1 := spec_step n S P_disconnect) in *.
  set (pre := ((λ d, P_radius (str_val d.(dr_name)) (set_dr_awaitingconfirm 0 d)) <$> named_users conf) ++
    ((λ e, P_server (wire_server_key e.1 e.2) (coreserver_view e.1 e.2 no_coreserver)) <$> all_servers conf) ++
    concat ((λ e, start_ops e.1 e.2.(pt_cept)) <$> announced_cepts conf)).
  assert (E : S' = spec_step n (spec_run n S1 pre) P_nomore).
  { unfold S', auth_ops, spec_run. rewrite app_assoc, app_assoc, foldl_app. unfold pre. by rewrite app_assoc. }
  assert (Hstart : Forall announcing (concat ((λ e, start_ops e.1 e.2.(pt_cept)) <$> announced_cepts conf))).
  { apply Forall_concat, Forall_fmap, Forall_forall. intros e _. constructor; [done|]. by apply Forall_fmap, Forall_forall. }
  destruct (announced_keys n pre S1) as [Hs Hr].
  { unfold pre. apply Forall_app. split; [by apply Forall_fmap, Forall_forall|]. apply Forall_app. split; [|done].
    apply Forall_fmap, Forall_forall. intros e _. cbn. unfold coreserver_view, construct_coreserver_key. by case_match. }
  assert (Hno : ∀ l : list prov_op, Forall announcing l →
    Forall (λ op, match op with P_start _ _ | P_add_range _ _ => True | _ => False end) l → server_keys l = [] ∧ user_keys l = []).
  { intros l _. induction 1 as [|op l Hop _ [IH1 IH2]]; [done|]. unfold server_keys, user_keys in *. cbn. by destruct op. }
  destruct (Hno _ Hstart) as [N1 N2].
  { apply Forall_concat, Forall_fmap, Forall_forall. intros e _. constructor; [done|]. by apply Forall_fmap, Forall_forall. }
  assert (Es : server_keys pre = (λ e, wire_server_key e.1 e.2) <$> all_servers conf).
  { unfold pre, server_keys in *. rewrite !omap_app, N1, app_nil_r. clear.
    induction (named_users conf); [|done]. cbn [fmap list_fmap omap list_omap app].
    induction (all_servers conf) as [|e l IH]; [done|]. exact (f_equal (cons _) IH). }
  assert (Er : user_keys pre = (λ d, str_val d.(dr_name)) <$> named_users conf).
  { unfold pre, user_keys in *. rewrite !omap_app, N2, app_nil_r. clear.
    assert (E0 : omap (λ op, match op with P_radius k _ => Some k | _ => None end)
      ((λ e, P_server (wire_server_key e.1 e.2) (coreserver_view e.1 e.2 no_coreserver)) <$> all_servers conf) = []).
    { by induction (all_servers conf). }
    rewrite E0, app_nil_r. induction (named_users conf) as [|d l IH]; [done|]. exact (f_equal (cons _) IH). }
  rewrite E. cbn [spec_step sp_servers sp_radius spec_servers spec_radius]. rewrite Hs, Hr, Es, Er. unfold S1.
  cbn [spec_step sp_servers sp_radius spec_servers spec_radius].
  assert (F1 : filter (λ e, e.2.(cs_awaitingconfirm) = 0) (set_cs_awaitingconfirm 1 <$> S.(sp_servers)) = ∅).
  { apply map_empty. intros k. apply map_lookup_filter_None. right. intros cs. rewrite lookup_fmap. by destruct (_ !! k); intros [= <-]. }
  assert (F2 : filter (λ e, e.2.(dr_awaitingconfirm) = 0) (set_dr_awaitingconfirm 1 <$> S.(sp_radius)) = ∅).
  { apply map_empty. intros k. apply map_lookup_filter_None. right. intros d. rewrite lookup_fmap. by destruct (_ !! k); intros [= <-]. }
  rewrite F1, F2, !dom_empty_L, !(right_id_L ∅ (∪)). done.
Qed.

Section claim.
Context (realloc_ok : Z → bool) (noret : Z) (Hnoret : noret ≠ -1).
Context (epoll_mod : Z → bool).

(** C5: A collector that authenticates, while there is something in the configuration that
    counts ([nothing_to_say]), is sent the configuration in one go, all of it whenever the
    response succeeds, which it does if the buffer has room.  Its synchronisation thread had
    lost the connection and knew the intercepts of an older configuration.  If each of those
    that is still configured has a user and keeps it, and the CINs of its ranges are the same
    ([survivable]; otherwise the source reads a freed user name, or keeps the old CIN), the
    thread then knows exactly the intercepts whose agency is defined, with their country
    codes, times, mediator, encryption, vendor mirror, user and static ranges ([agrees]), and
    exactly the servers and default RADIUS users of the configuration: what was confirmed
    stays, what was not goes. *)
Theorem auth_restores_collector s fd :
  let conf := s.(ps_interceptconf) in
  nothing_to_say s = false → conf_sendable s → table_ok conf.(cf_ipintercepts) →
  enable_epoll_write epoll_mod fd = 0 →
  ∃ fs,
    (∀ nb, nb_wf nb → can_hold realloc_ok nb (zlen (frames_wire fs)) →
       ∃ nb' s', respond_collector_auth realloc_ok noret epoll_mod fd nb s = Ok (0, nb', s') ∧
         nb_content nb' = nb_content nb ++ frames_wire fs) ∧
    (∀ nb nb' s', nb_wf nb → respond_collector_auth realloc_ok noret epoll_mod fd nb s = Ok (0, nb', s') →
       nb_content nb' = nb_content nb ++ frames_wire fs) ∧
    ∀ (G Pkt : Type) (p : access_plugin G Pkt) ascii2prefix t0 l (c : collector_sync_t G) S curr dropmeds,
      follows p t0 c S curr → survivable curr (announced_cepts conf) → 0 < t0 → times_from t0 l →
      l.*2 = In_disconnect dropmeds :: (input_of <$> fs) →
      ∃ rs c' S', run_inputs p ascii2prefix l c = Ok (rs, c') ∧
        follows p (last_time t0 l) c' S' (announced_cepts conf) ∧ tables_view c'.(sy_prov) = S' ∧
        dom S'.(sp_servers) = list_to_set ((λ e, wire_server_key e.1 e.2) <$> all_servers conf) ∧
        dom S'.(sp_radius) = list_to_set ((λ d, str_val d.(dr_name)) <$> named_users conf).
Proof.
  intros conf Hn Hs Ht He.
  destruct (auth_push_all realloc_ok noret Hnoret s Hs) as (ops & (fs & r & Hr & Happ & Hreads) & Eops).
  exists fs. split; [|split].
  - intros nb Hwf Hc. destruct (Happ nb Hwf) as [H1 H2]. destruct (H1 Hc) as [nb' E].
    destruct (respond_ok realloc_ok noret epoll_mod fd s nb r nb' Hn E Hr He) as [s' Hresp].
    exists nb', s'. split; [done|]. destruct (H2 _ _ E) as (_ & _ & [(_ & Hcont & _)|[-> _]]); [done|lia].
  - intros nb nb' s' Hwf (r' & Hr' & E)%respond_done; [|done]. destruct (Happ nb Hwf) as [_ H2].
    destruct (H2 _ _ E) as (_ & _ & [(_ & Hcont & _)|[-> _]]); [done|lia].
  - intros G Pkt p ascii2prefix t0 l c S curr dropmeds (Href & Hready & Hd) Hsv Ht0 Htimes El.
    set (n := c.(sy_conn).(pn_pubsockcount)).
    destruct (auth_cepts n curr conf S Ht (cs_cepts s Hs) Hd Hsv) as [Hok Hd'].
    destruct (auth_lists n conf S) as [Hserv Hrad].
    destruct (run_mixed p ascii2prefix t0 l (Some P_disconnect :: ops) c S) as (rs & c' & E & R & Henv); [done|done|done|done| | |].
    { rewrite El. constructor; [apply means_disconnect|exact Hreads]. }
    { cbn [omap list_omap id]. fold n. rewrite Eops. split; [done|exact Hok]. }
    cbn [omap list_omap id] in R. fold n in R. rewrite Eops in R.
    exists rs, c', (spec_run n (spec_step n S P_disconnect) (auth_ops conf)). split; [done|].
    split; [|split; [by eapply refines_view|by split]]. split; [exact R|]. split; [by eapply same_env_ready|exact Hd'].
Qed.
End claim.

(** ** An example *)

(** The first configuration of the example of a reload, and one without LIID002 and without
    one of the ranges, where LIID004 goes to an agency that is not defined; both with two
    servers and a default RADIUS user. *)
Definition later_cepts : list (bytes * prov_cept ipintercept_t) :=
  [(of_string "LIID001", sample_cept "LIID001" "police" [sample_range "192.0.2.0/24" 1; sample_range "203.0.113.0/24" 3]);
   (of_string "LIID003", sample_cept "LIID003" "customs" [sample_range "192.0.2.128/25" 1]);
   (of_string "LIID004", sample_cept "LIID004" "nobody" [])].
Definition sample_server (ip : string) (port : cstring) : bytes * coreserver_t :=
  (of_string ip, Mkcoreserver_t (str ip) 0 (str ip) port None 0 0).
Definition connecting (l : list (bytes * prov_cept ipintercept_t)) : provision_state_t :=
  set_ps_interceptconf
    (Mkprov_intercept_conf_t [sample_server "192.0.2.50" (str "1813")] [] [sample_server "192.0.2.60" None] [] [] [] [] l []
       two_agencies.(cf_leas) [] [(of_string "guest", Mkdefault_radius_user_t (str "guest") 5 0)] 1)
    sample_clients.

Lemma later_cepts_ok : Forall (λ e, entry_ok e.1 e.2) later_cepts.
Proof. repeat (apply Forall_cons; split; [sample_entry|]). apply Forall_nil_2. Defined.
Lemma connecting_sendable l : Forall (λ e, entry_ok e.1 e.2) l → conf_sendable (connecting l).
Proof.
  intros Hl. split.
  - apply Forall_cons. split; [|by apply Forall_nil]. split; first [solve_good_str|done].
  - apply Forall_cons. split; [|by apply Forall_nil]. split; first [solve_good_str|done].
  - done.
  - repeat (apply Forall_cons; split; [split; [done|solve_good_str|first [by left|right; split; [solve_good_str|done]]]|]).
    by apply Forall_nil.
  - eapply Forall_impl; [exact Hl|]. intros e He. apply He.
  - by apply Forall_nil.
  - by apply Forall_nil.
Defined.
Lemma later_survivable : survivable (announced_cepts (connecting old_cepts).(ps_interceptconf))
  (announced_cepts (connecting later_cepts).(ps_interceptconf)).
Proof.
  assert (H : Forall (λ a, Forall (λ b, a.1 = b.1 → a.2.(pt_cept).(ip_username) = str "alice" ∧
      b.2.(pt_cept).(ip_username) = str "alice" ∧
      map_Forall (λ name c, range_cins a.2.(pt_cept).(ip_statics) !! name = Some c) (range_cins b.2.(pt_cept).(ip_statics)))
      later_cepts) old_cepts) by (apply (bool_decide_unpack _); vm_compute; exact I).
  rewrite Forall_forall in H. intros k p q [_ Hp]%list_elem_of_filter [_ Hq]%list_elem_of_filter.
  specialize (H _ Hp). rewrite Forall_forall in H. destruct (H _ Hq eq_refl) as (Ep & Eq & Hc). cbn [snd] in *.
  split; [rewrite Ep; by eexists|]. split; [by rewrite Ep, Eq|].
  intros name c c' E E'%Hc. congruence.
Qed.

(** A collector that has just started hears the first configuration, loses the connection
    and hears the later one. *)
Lemma auth_restores_collector_witness :
  let handled (fs : list frame) s s' rs :=
    run_inputs radius_plugin some_prefix ((1, In_disconnect false) :: ((λ f, (1, input_of f)) <$> fs)) s = Ok (rs, s') in
  ∃ fs fs' rs rs' s s' S',
    (∃ nb' t, respond_collector_auth yes 0 yes 7 (create_net_buffer NETBUF_SEND 7 false) (connecting later_cepts) = Ok (0, nb', t) ∧
       nb_content nb' = frames_wire fs') ∧
    handled fs no_config_sync s rs ∧ handled fs' s s' rs' ∧
    follows radius_plugin 1 s' S' (announced_cepts (connecting later_cepts).(ps_interceptconf)) ∧
    (announced_cepts (connecting later_cepts).(ps_interceptconf)).*1 = [of_string "LIID001"; of_string "LIID003"] ∧
    dom S'.(sp_servers) = {[of_string "192.0.2.50-1813-RADIUS"; of_string "192.0.2.60-default-SIP"]} ∧
    dom S'.(sp_radius) = {[of_string "guest"]}.
Proof.
  intros handled.
  destruct (auth_restores_collector yes 0 ltac:(done) yes (connecting old_cepts) 7) as (fs & _ & _ & H0);
    [done|apply connecting_sendable, old_cepts_ok|apply (bool_decide_unpack _); vm_compute; exact I|done|].
  destruct (auth_restores_collector yes 0 ltac:(done) yes (connecting later_cepts) 7) as (fs' & _ & Hpush & H1);
    [done|apply connecting_sendable, later_cepts_ok|apply (bool_decide_unpack _); vm_compute; exact I|done|].
  destruct (H0 _ _ radius_plugin some_prefix 1 ((1, In_disconnect false) :: ((λ f, (1, input_of f)) <$> fs))
    no_config_sync no_spec [] false) as (rs & s & S & E & F & _).
  { split; [apply fresh_refines, no_config_fresh|]. split; [apply no_config_ready|]. by intros k. }
  { by intros k p q Hin%elem_of_nil. }
  { done. }
  { split; [done|apply at_once_times]. }
  { cbn [fmap list_fmap snd]. f_equal. apply at_once_inputs. }
  replace (last_time _ _) with 1 in F by (symmetry; apply at_once_last).
  destruct (H1 _ _ radius_plugin some_prefix 1 ((1, In_disconnect false) :: ((λ f, (1, input_of f)) <$> fs'))
    s S (announced_cepts (connecting old_cepts).(ps_interceptconf)) false F later_survivable)
    as (rs' & s' & S' & E' & F' & _ & Hd & Hr).
  { done. }
  { split; [done|apply at_once_times]. }
  { cbn [fmap list_fmap snd]. f_equal. apply at_once_inputs. }
  replace (last_time _ _) with 1 in F' by (symmetry; apply at_once_last).
  exists fs, fs', rs, rs', s, s', S'. split_and!; [|done..| | |].
  - assert (E0 : fst ∘ fst <$> respond_collector_auth yes 0 yes 7 (create_net_buffer NETBUF_SEND 7 false) (connecting later_cepts) = Ok 0)
      by (vm_compute; reflexivity).
    destruct (respond_collector_auth _ _ _ _ _ _) as [[[r nb'] t]| |] eqn:Er; [|done..].
    injection E0 as E0. cbn in E0. subst r. exists nb', t. split; [done|]. exact (Hpush _ _ _ (create_net_buffer_wf _ _ _) Er).
  - vm_compute. reflexivity.
  - rewrite Hd. apply (bool_decide_unpack _). vm_compute. exact I.
  - rewrite Hr. apply (bool_decide_unpack _). vm_compute. exact I.
Defined.
