(* ===== verification/MedHandover.v ===== *)
(** * Handovers of the mediator
      (src/src/mediator/handover.c, liidmapping.c, med_epoll.c, mediator_rmq.c)

    The mediator keeps the records that collectors send in queues of a local RabbitMQ
    broker, one for the IRIs and one for the CCs of each intercept.  A handover is a
    connection to an agency, with a connection to the broker as a consumer of the queues
    of the agency's intercepts and an export buffer between the two.

    An operation runs on one handover and says what it did to the outside: what it sent,
    what it asked the broker and what it took from it.  The answers of the kernel and of
    the broker are given by the environment of the event that is being handled, [med_env].
    The encoder of keepalives and the decoder of their responses (libwandder) are
    arguments.  Only calls that can be made twice on different channels within an event
    have an answer that depends on their arguments. *)

From stdpp Require Import gmap.
From S2P Require Import Prelude Libraries ByteOrder Protocol Intercept NetBuffer ExportBuffer Publish Radius HashTable.

(** ** State and output *)

Definition MW (S W A : Type) : Type := S → outcome (A * S * list W).
#[global] Instance MW_ret S W : MRet (MW S W) := λ A a s, Ok (a, s, []).
#[global] Instance MW_bind S W : MBind (MW S W) := λ A B f m s,
  match m s with
  | Ok (a, s, w) => match f a s with Ok (b, s, w') => Ok (b, s, w ++ w') | Abort => Abort | Undef => Undef end
  | Abort => Abort
  | Undef => Undef
  end.
Section state.
Context {S W : Type}.
Definition mget : MW S W S := λ s, Ok (s, s, []).
Definition mput (s : S) : MW S W unit := λ _, Ok (tt, s, []).
Definition mmodify (f : S → S) : MW S W unit := λ s, Ok (tt, f s, []).
Definition mtell (w : W) : MW S W unit := λ s, Ok (tt, s, [w]).
Definition mlift {A} (m : outcome A) : MW S W A := λ s,
  match m with Ok a => Ok (a, s, []) | Abort => Abort | Undef => Undef end.
End state.

Lemma runs_bind {S W A B} (m : MW S W A) (f : A → MW S W B) s a s1 w1 b s2 w2 :
  m s = Ok (a, s1, w1) → f a s1 = Ok (b, s2, w2) → (m ≫= f) s = Ok (b, s2, w1 ++ w2).
Proof. intros Em Ef. unfold mbind, MW_bind. by rewrite Em, Ef. Qed.
(** A step without output. *)
Lemma runs_then {S W A B} (m : MW S W A) (f : A → MW S W B) s a s1 r :
  m s = Ok (a, s1, []) → f a s1 = r → (m ≫= f) s = r.
Proof. intros Em <-. unfold mbind, MW_bind. rewrite Em. by destruct (f a s1) as [[[??]?]| |]. Qed.
(** What a run is made of. *)
Lemma bind_runs {S W A B} (m : MW S W A) (f : A → MW S W B) s b s2 w :
  (m ≫= f) s = Ok (b, s2, w) →
  ∃ a s1 w1 w2, m s = Ok (a, s1, w1) ∧ f a s1 = Ok (b, s2, w2) ∧ w = w1 ++ w2.
Proof.
  unfold mbind, MW_bind. destruct (m s) as [[[a s1] w1]| |]; [|done..].
  destruct (f a s1) as [[[b' s2'] w2]| |] eqn:E; [|done..]. intros [= <- <- <-].
  by exists a, s1, w1, w2.
Qed.

(** ** The LIIDs of an agency *)

Record liid_map_entry_t : Type := Mkliid_map_entry_t {
  lm_liid : bytes;
  lm_unconfirmed : bool;
  lm_withdrawn : bool;
  lm_ccqueue_deleted : bool;
  lm_iriqueue_deleted : bool;
}.
#[global] Instance liid_map_entry_eq_dec : EqDecision liid_map_entry_t.
Proof. solve_decision. Defined.
(** The JudySL array of a [liid_map_t]: its entries in the order of their keys. *)
Abbreviation liid_map_t := (list (bytes * liid_map_entry_t)).

Definition set_lm_unconfirmed (v : bool) (m : liid_map_entry_t) : liid_map_entry_t :=
  Mkliid_map_entry_t m.(lm_liid) v m.(lm_withdrawn) m.(lm_ccqueue_deleted) m.(lm_iriqueue_deleted).
Definition set_lm_withdrawn (v : bool) (m : liid_map_entry_t) : liid_map_entry_t :=
  Mkliid_map_entry_t m.(lm_liid) m.(lm_unconfirmed) v m.(lm_ccqueue_deleted) m.(lm_iriqueue_deleted).
Definition set_lm_ccqueue_deleted (v : bool) (m : liid_map_entry_t) : liid_map_entry_t :=
  Mkliid_map_entry_t m.(lm_liid) m.(lm_unconfirmed) m.(lm_withdrawn) v m.(lm_iriqueue_deleted).
Definition set_lm_iriqueue_deleted (v : bool) (m : liid_map_entry_t) : liid_map_entry_t :=
  Mkliid_map_entry_t m.(lm_liid) m.(lm_unconfirmed) m.(lm_withdrawn) m.(lm_ccqueue_deleted) v.

(** [strcmp(a, b) < 0] *)
Fixpoint str_before (a b : bytes) : bool :=
  match a, b with
  | _, [] => false
  | [], _ :: _ => true
  | x :: a, y :: b => (x <? y) || (x =? y) && str_before a b
  end.
(** [JSLI] of a key that is not there. *)
Fixpoint jsl_insert {V} (k : bytes) (v : V) (l : list (bytes * V)) : list (bytes * V) :=
  match l with
  | [] => [(k, v)]
  | (k', v') :: l => if str_before k k' then (k, v) :: (k', v') :: l else (k', v') :: jsl_insert k v l
  end.

Definition lookup_liid_agency_mapping (map : liid_map_t) (liidstr : bytes) : option liid_map_entry_t :=
  hash_find liidstr map.
Definition remove_liid_agency_mapping (m : liid_map_entry_t) (map : liid_map_t) : liid_map_t :=
  hash_delete m.(lm_liid) map.
Definition withdraw_liid_agency_mapping (liidstr : bytes) (map : liid_map_t) : liid_map_t :=
  match hash_find liidstr map with
  | None => map
  | Some m => hash_update liidstr (set_lm_withdrawn true m) map
  end.
Definition add_liid_agency_mapping (liidstr : bytes) (map : liid_map_t) : Z * liid_map_t :=
  match hash_find liidstr map with
  | Some m =>
      (if m.(lm_withdrawn) then 1 else 0,
       hash_update liidstr (Mkliid_map_entry_t m.(lm_liid) false false false false) map)
  | None => (1, jsl_insert liidstr (Mkliid_map_entry_t liidstr false false false false) map)
  end.
Definition set_liid_as_unconfirmed (m : liid_map_entry_t) : liid_map_entry_t := set_lm_unconfirmed true m.

(** [foreach_liid_agency_mapping]: [torun] gives its result and the entry it was called
    with.  The key is copied to an array of 1024 bytes. *)
Fixpoint foreach_loop {S W} (torun : liid_map_entry_t → MW S W (Z * liid_map_entry_t)) (map : liid_map_t)
    : MW S W (bool * liid_map_t) :=
  match map with
  | [] => mret (false, [])
  | (k, m) :: map =>
      if 1024 <=? zlen k then mlift Undef else
      '(r, m') ← torun m;
      '(err, map') ← foreach_loop torun map;
      mret ((r =? -1) || err, if r =? 1 then map' else (k, m') :: map')
  end.
Definition foreach_liid_agency_mapping {S W} (torun : liid_map_entry_t → MW S W (Z * liid_map_entry_t))
    (map : liid_map_t) : MW S W (Z * liid_map_t) :=
  '(err, map') ← foreach_loop torun map;
  mret (if err : bool then -1 else 0, map').

(** ** The environment of an event *)

(** What is asked of the broker, with the channel. *)
Inductive amqp_call : Type :=
  | Amqp_declare (channel : Z) (queue : bytes)
  | Amqp_consume (channel : Z) (queue : bytes)
  | Amqp_cancel (channel : Z) (queue : bytes)
  | Amqp_ack (channel : Z) (tag : Z)       (* of all messages up to the tag *)
  | Amqp_reject (channel : Z) (tag : Z).

(** The answers of [amqp_consume_message]. *)
Inductive consume_answer : Type :=
  | Consumed (channel : Z) (tag : Z) (body : bytes)
  | Consume_timeout
  | Consume_heartbeat_timeout
  | Consume_unexpected_state (f : rmq_frame)
  | Consume_failed.

Inductive handover_type_t : Type := HANDOVER_HI2 | HANDOVER_HI3.
#[global] Instance handover_type_eq_dec : EqDecision handover_type_t.
Proof. solve_decision. Defined.

(** The answers to the calls that are made while an event is handled: the descriptor of a
    new timer (-1 if there is none), whether a descriptor can be removed from and added to
    the epoll set, the time of day, the socket of a new connection (0 to try again, -1 for
    an error), what is sent of a keepalive or of records of which so many bytes are offered,
    what is received, whether the broker can be joined, what it says to a call, how many
    messages a queue has, and what it delivers. *)
Record med_env : Type := Mkmed_env {
  en_add_timer : Z → Z;
  en_epoll_del : Z → bool;
  en_epoll_add : Z → bool;
  en_now : Z;
  en_connect : cstring → cstring → Z;
  en_send_ka : Z → send_result;
  en_send : Z → send_result;
  en_recv : recv_result;
  en_join : handover_type_t → bool;
  en_amqp : handover_type_t → amqp_call → bool;
  en_count : handover_type_t → bytes → option Z;
  en_deliver : handover_type_t → list consume_answer;
}.

(** ** Timers *)

(** The epoll event of a timer: its descriptor, -1 when it is not running. *)
Definition start_mediator_timer (e : med_env) (timerev : option Z) (timeoutval : Z) : Z * option Z :=
  match timerev with
  | None => (0, None)
  | Some fd =>
      if timeoutval =? 0 then (0, Some fd) else
      let sock := e.(en_add_timer) timeoutval in
      if sock =? -1 then (-1, Some fd) else (0, Some sock)
  end.
Definition halt_mediator_timer (e : med_env) (timerev : option Z) : Z * option Z :=
  match timerev with
  | None => (0, None)
  | Some fd =>
      if fd =? -1 then (0, Some fd) else
      if e.(en_epoll_del) fd then (0, Some (-1)) else (-1, Some fd)
  end.
(** [create_mediator_timer] with a duration. *)
Definition create_mediator_timer (e : med_env) (duration : Z) : option Z :=
  if 0 <? duration then
    let sock := e.(en_add_timer) duration in if sock =? -1 then None else Some sock
  else Some (-1).
(** [create_mediator_fdevent] *)
Definition create_mediator_fdevent (e : med_env) (fd : Z) : option Z :=
  if e.(en_epoll_add) fd then Some fd else None.

(** ** Handovers *)

(** [handover_t] with its [per_handover_state_t]; encoder, decoder and lock are left out. *)
Record handover_t : Type := Mkhandover_t {
  ho_ipstr : cstring;
  ho_portstr : cstring;
  ho_type : handover_type_t;
  ho_rmq_consumer : bool;
  ho_rmq_registered : bool;
  ho_outev : option Z;
  ho_aliveev : option Z;
  ho_aliverespev : option Z;
  ho_disconnect_msg : bool;
  hs_buf : export_buffer_t;
  hs_incoming : option bytes;
  hs_katimer_setsec : Z;
  hs_pending_ka : option bytes;
  hs_lastkaseq : Z;
  hs_kafreq : Z;
  hs_kawait : Z;
  hs_next_rmq_ack : Z;
  hs_valid_rmq_ack : bool;
}.

(** What an operation on a handover does to the outside: the connection to the agency is
    made, carries bytes and is closed; the broker is joined, asked and left, and hands over
    a message, which goes to the buffer; so does a notification of the provisioner. *)
Inductive ho_event : Type :=
  | Ho_connected (fd : Z)
  | Ho_sent (bs : bytes)
  | Ho_closed
  | Ho_joined
  | Ho_asked (c : amqp_call) (ok : bool)
  | Ho_left
  | Ho_delivered (tag : Z) (body : bytes)
  | Ho_notified (body : bytes).
Abbreviation H := (MW handover_t ho_event).

Section setters.
Context (ho : handover_t).
Definition set_ho_address (ip port : cstring) : handover_t :=
  let '(Mkhandover_t _ _ t c r o a p d b i k ka s f w n v) := ho in
  Mkhandover_t ip port t c r o a p d b i k ka s f w n v.
Definition set_ho_rmq_consumer (c : bool) : handover_t :=
  let '(Mkhandover_t ip port t _ r o a p d b i k ka s f w n v) := ho in
  Mkhandover_t ip port t c r o a p d b i k ka s f w n v.
Definition set_ho_rmq_registered (r : bool) : handover_t :=
  let '(Mkhandover_t ip port t c _ o a p d b i k ka s f w n v) := ho in
  Mkhandover_t ip port t c r o a p d b i k ka s f w n v.
Definition set_ho_outev (o : option Z) : handover_t :=
  let '(Mkhandover_t ip port t c r _ a p d b i k ka s f w n v) := ho in
  Mkhandover_t ip port t c r o a p d b i k ka s f w n v.
Definition set_ho_aliveev (a : option Z) : handover_t :=
  let '(Mkhandover_t ip port t c r o _ p d b i k ka s f w n v) := ho in
  Mkhandover_t ip port t c r o a p d b i k ka s f w n v.
Definition set_ho_aliverespev (p : option Z) : handover_t :=
  let '(Mkhandover_t ip port t c r o a _ d b i k ka s f w n v) := ho in
  Mkhandover_t ip port t c r o a p d b i k ka s f w n v.
Definition set_ho_disconnect_msg (d : bool) : handover_t :=
  let '(Mkhandover_t ip port t c r o a p _ b i k ka s f w n v) := ho in
  Mkhandover_t ip port t c r o a p d b i k ka s f w n v.
Definition set_hs_buf (b : export_buffer_t) : handover_t :=
  let '(Mkhandover_t ip port t c r o a p d _ i k ka s f w n v) := ho in
  Mkhandover_t ip port t c r o a p d b i k ka s f w n v.
Definition set_hs_incoming (i : option bytes) : handover_t :=
  let '(Mkhandover_t ip port t c r o a p d b _ k ka s f w n v) := ho in
  Mkhandover_t ip port t c r o a p d b i k ka s f w n v.
Definition set_hs_katimer_setsec (k : Z) : handover_t :=
  let '(Mkhandover_t ip port t c r o a p d b i _ ka s f w n v) := ho in
  Mkhandover_t ip port t c r o a p d b i k ka s f w n v.
Definition set_hs_pending_ka (ka : option bytes) : handover_t :=
  let '(Mkhandover_t ip port t c r o a p d b i k _ s f w n v) := ho in
  Mkhandover_t ip port t c r o a p d b i k ka s f w n v.
Definition set_hs_lastkaseq (s : Z) : handover_t :=
  let '(Mkhandover_t ip port t c r o a p d b i k ka _ f w n v) := ho in
  Mkhandover_t ip port t c r o a p d b i k ka s f w n v.
Definition set_hs_keepalive (f w : Z) : handover_t :=
  let '(Mkhandover_t ip port t c r o a p d b i k ka s _ _ n v) := ho in
  Mkhandover_t ip port t c r o a p d b i k ka s f w n v.
Definition set_hs_next_rmq_ack (n : Z) : handover_t :=
  let '(Mkhandover_t ip port t c r o a p d b i k ka s f w _ v) := ho in
  Mkhandover_t ip port t c r o a p d b i k ka s f w n v.
Definition set_hs_valid_rmq_ack (v : bool) : handover_t :=
  let '(Mkhandover_t ip port t c r o a p d b i k ka s f w n _) := ho in
  Mkhandover_t ip port t c r o a p d b i k ka s f w n v.
End setters.

(** A timer of the handover is changed; the result is that of the change. *)
Definition with_timer (f : option Z → Z * option Z) (timer : handover_t → option Z)
    (put : handover_t → option Z → handover_t) : H Z :=
  ho ← mget; let '(r, t) := f (timer ho) in _ ← mput (put ho t); mret r.

Section handover.
Context {J : Judy1} (realloc_ok : Z → bool).
Context (encode_keepalive : Z → cstring → Z → option bytes).
Context (pdu_length : bytes → Z) (is_keepalive_response : bytes → bool) (sequence_number : bytes → Z).
Context (e : med_env).

Definition aliveev_do (f : option Z → Z * option Z) : H Z := with_timer f ho_aliveev set_ho_aliveev.
Definition aliverespev_do (f : option Z → Z * option Z) : H Z := with_timer f ho_aliverespev set_ho_aliverespev.

(** ** The broker (mediator_rmq.c) *)

Definition queue_name (liid : bytes) (kind : string) : bytes := snprintf 1024 (liid ++ of_string "-" ++ of_string kind).

(** A call, with whether the broker answered normally. *)
Definition ask (c : amqp_call) : H bool :=
  ho ← mget;
  let ok := e.(en_amqp) ho.(ho_type) c in _ ← mtell (Ho_asked c ok); mret ok.

Definition declare_RMQ_queue (queueid : bytes) (channel : Z) : H Z :=
  ok ← ask (Amqp_declare channel queueid); mret (if ok : bool then 0 else -1).
Definition register_RMQ_consumer (queueid : bytes) (channel : Z) : H Z :=
  ok ← ask (Amqp_consume channel queueid); mret (if ok : bool then 0 else -1).
Definition cancel_RMQ_consumer (queueid : bytes) (channel : Z) : H Z :=
  ho ← mget;
  if negb ho.(ho_rmq_consumer) then mret 0 else
  ok ← ask (Amqp_cancel channel queueid); mret (if ok : bool then 0 else -1).
Definition is_RMQ_queue_empty (queueid : bytes) (channel : Z) : H Z :=
  ho ← mget;
  mret (match e.(en_count) ho.(ho_type) queueid with
        | None => -1
        | Some n => if n =? 0 then 1 else 0
        end).

(** [register_mediator_iri_RMQ_consumer] and [register_mediator_cc_RMQ_consumer], and the
    other functions that are there for each kind of queue. *)
Definition register_mediator_RMQ_consumer (kind : string) (channel : Z) (liid : bytes) : H Z :=
  ho ← mget;
  if negb ho.(ho_rmq_consumer) then mret 0 else
  let q := queue_name liid kind in
  r ← declare_RMQ_queue q channel;
  if r <? 0 then mret (-1) else
  r ← register_RMQ_consumer q channel;
  mret (if r <? 0 then -2 else 1).
Definition register_mediator_iri_RMQ_consumer : bytes → H Z := register_mediator_RMQ_consumer "iri" 2.
Definition register_mediator_cc_RMQ_consumer : bytes → H Z := register_mediator_RMQ_consumer "cc" 3.
Definition deregister_mediator_iri_RMQ_consumer (liid : bytes) : H Z := cancel_RMQ_consumer (queue_name liid "iri") 2.
Definition deregister_mediator_cc_RMQ_consumer (liid : bytes) : H Z := cancel_RMQ_consumer (queue_name liid "cc") 3.
Definition check_empty_mediator_RMQ (kind : string) (channel : Z) (liid : bytes) : H Z :=
  ho ← mget;
  if negb ho.(ho_rmq_consumer) then mret 0 else is_RMQ_queue_empty (queue_name liid kind) channel.
Definition check_empty_mediator_iri_RMQ : bytes → H Z := check_empty_mediator_RMQ "iri" 2.
Definition check_empty_mediator_cc_RMQ : bytes → H Z := check_empty_mediator_RMQ "cc" 3.

(** [consume_other_frame] *)
Definition consume_other_frame (f : rmq_frame) : Z :=
  match f with
  | FrameWaitFailed | FrameBasicAck => 0
  | FrameBasicReturn read_ok => if read_ok then 0 else -1
  | FrameNotMethod | FrameChannelClose | FrameConnectionClose | FrameOtherMethod => -1
  end.

Definition MAX_CONSUMER_REJECTIONS : Z := 10.

(** [append_etsipdu_to_buffer] on the buffer of the handover. *)
Definition append_pdu (pdu : bytes) : H Z :=
  ho ← mget;
  '(r, b) ← mlift (append_etsipdu_to_buffer realloc_ok pdu (zlen pdu) 0 ho.(hs_buf));
  _ ← mput (set_hs_buf ho b); mret r.

Definition b2z (b : bool) : Z := if b then 1 else 0.
(** The loop of [consume_mediator_liid_messages]; no more answers are no more messages. *)
Fixpoint consume_loop (maxread channel msgread rejects : Z) (answers : list consume_answer) : H Z :=
  if maxread <=? msgread then mret 1 else
  match answers with
  | [] => mret (b2z (0 <? msgread))
  | Consume_timeout :: _ => mret (b2z (0 <? msgread))
  | Consume_heartbeat_timeout :: _ => mret (-2)
  | Consume_failed :: _ => mret (-1)
  | Consume_unexpected_state f :: answers =>
      if consume_other_frame f <? 0 then mret (-1) else consume_loop maxread channel msgread rejects answers
  | Consumed ch tag body :: answers =>
      if ch =? 0 then consume_loop maxread channel msgread rejects answers
      else if negb (ch =? channel) then
        ok ← ask (Amqp_reject ch tag);
        if negb ok then mret (-1)
        else if MAX_CONSUMER_REJECTIONS <=? rejects + 1 then mret (b2z (0 <? msgread))
        else consume_loop maxread channel msgread (rejects + 1) answers
      else
        r ← append_pdu body;
        if r =? 0 then mret (-1) else
        _ ← mmodify (λ ho, set_hs_next_rmq_ack ho tag);
        _ ← mtell (Ho_delivered tag body);
        consume_loop maxread channel (msgread + 1) rejects answers
  end.
Definition consume_mediator_liid_messages (maxread channel : Z) : H Z :=
  ho ← mget;
  if negb ho.(ho_rmq_consumer) then mret 0
  else consume_loop maxread channel 0 0 (e.(en_deliver) ho.(ho_type)).
Definition consume_mediator_iri_messages (maxread : Z) : H Z := consume_mediator_liid_messages maxread 2.
Definition consume_mediator_cc_messages (maxread : Z) : H Z := consume_mediator_liid_messages maxread 3.

Definition ack_mediator_liid_messages (deliv_tag channel : Z) : H Z :=
  ho ← mget;
  if negb ho.(ho_rmq_consumer) then mret 0 else
  ok ← ask (Amqp_ack channel deliv_tag); mret (if ok : bool then 0 else -1).
Definition ack_mediator_iri_messages (deliv_tag : Z) : H Z := ack_mediator_liid_messages deliv_tag 2.
Definition ack_mediator_cc_messages (deliv_tag : Z) : H Z := ack_mediator_liid_messages deliv_tag 3.

(** ** Handovers (handover.c) *)

Definition reset_handover_rmq : H unit :=
  ho ← mget;
  _ ← (if ho.(ho_rmq_consumer) then mtell Ho_left else mret tt);
  mput (set_hs_valid_rmq_ack (set_ho_rmq_registered (set_ho_rmq_consumer ho false) false) false).

Definition disconnect_handover : H unit :=
  ho ← mget;
  _ ← (match ho.(ho_outev) with Some _ => mtell Ho_closed | None => mret tt end);
  _ ← mmodify (λ ho, set_ho_outev ho None);
  _ ← aliveev_do (halt_mediator_timer e);
  _ ← aliverespev_do (halt_mediator_timer e);
  _ ← mmodify (λ ho, set_hs_incoming (set_hs_pending_ka ho None) None);
  _ ← mmodify (λ ho, set_hs_buf ho (reset_export_buffer ho.(hs_buf)));
  _ ← reset_handover_rmq;
  mmodify (λ ho, set_ho_disconnect_msg ho true).

(** [send] answers with what it took; 0 and errors are the same to the caller. *)
Definition xmit_handover_keepalive : H Z :=
  ho ← mget;
  match ho.(hs_pending_ka) with
  | None => mret 0
  | Some ka =>
      _ ← mlift (deref ho.(ho_outev));
      match e.(en_send_ka) (zlen ka) with
      | SendWouldBlock | SendError => mret (-1)
      | Sent n =>
          if n =? 0 then mret (-1) else
          if zlen ka <? n then mlift Undef else
          _ ← mtell (Ho_sent (ztake n ka));
          if n =? zlen ka then
            _ ← mmodify (λ ho, set_hs_pending_ka ho None);
            _ ← aliverespev_do (halt_mediator_timer e);
            r ← aliverespev_do (λ t, start_mediator_timer e t ho.(hs_kawait));
            if r =? -1 then mret (-1) else
            _ ← mmodify (λ ho, match ho.(ho_aliverespev) with
                               | None => set_ho_disconnect_msg ho false | Some _ => ho end);
            mret 0
          else _ ← mmodify (λ ho, set_hs_pending_ka ho (Some (zdrop n ka))); mret 0
      end
  end.

Definition xmit_handover_records (maxsend : Z) : H Z :=
  ho ← mget;
  _ ← mlift (deref ho.(ho_outev));
  '(offered, _) ← mlift (transmit_amount maxsend ho.(hs_buf));
  '(ret, b, out) ← mlift (transmit_buffered_records realloc_ok maxsend (e.(en_send) offered) ho.(hs_buf));
  _ ← mput (set_hs_buf ho b);
  _ ← mtell (Ho_sent out);
  if ret =? -1 then mret (-1) else
  if ret =? 0 then mret 0 else
  if negb (bool_decide (ho.(ho_aliveev) = None)) && negb (ho.(hs_kafreq) =? 0) && (ho.(hs_katimer_setsec) <? e.(en_now)) then
    _ ← aliveev_do (halt_mediator_timer e);
    r ← aliveev_do (λ t, start_mediator_timer e t ho.(hs_kafreq));
    if r =? -1 then mret (-1) else
    _ ← mmodify (λ ho, set_hs_katimer_setsec ho (u32 e.(en_now))); mret 0
  else mret 0.

Definition restart_handover_keepalive : H Z :=
  ho ← mget;
  _ ← aliveev_do (halt_mediator_timer e);
  r ← aliveev_do (λ t, start_mediator_timer e t ho.(hs_kafreq));
  mret (if r =? -1 then -1 else 0).

Definition trigger_handover_ka_failure : H unit :=
  _ ← aliverespev_do (halt_mediator_timer e); disconnect_handover.

Definition trigger_handover_keepalive (mediator_id : Z) (operator_id : cstring) : H Z :=
  ho ← mget;
  match ho.(ho_outev) with
  | None => mret 0
  | Some _ =>
      idle ← (match ho.(hs_pending_ka) with
              | Some _ => mret false
              | None => fd ← mlift (deref ho.(ho_aliverespev));
                        mret ((fd =? -1) && (get_buffered_amount ho.(hs_buf) =? 0))
              end);
      if idle : bool then
        match encode_keepalive mediator_id operator_id (ho.(hs_lastkaseq) + 1) with
        | None => mret (-1)
        | Some kamsg =>
            _ ← mput (set_hs_lastkaseq (set_hs_pending_ka ho (Some kamsg)) (ho.(hs_lastkaseq) + 1));
            restart_handover_keepalive
        end
      else restart_handover_keepalive
  end.

(** The loop of [receive_handover] over the messages that are there; [None]: no more
    whole message.  Each round takes at least one byte. *)
Fixpoint receive_loop (fuel : nat) : H Z :=
  match fuel with
  | O => mlift Undef
  | S fuel =>
      ho ← mget;
      ptr ← mlift (deref ho.(hs_incoming));
      let available := zlen ptr in
      if available =? 0 then mret 0 else
      let reclen := pdu_length ptr in
      if reclen =? 0 then mret 0 else
      if available <? reclen then mret 0 else
      if is_keepalive_response ptr then
        if negb (sequence_number ptr =? ho.(hs_lastkaseq)) then mret (-1) else
        _ ← aliverespev_do (halt_mediator_timer e);
        _ ← mmodify (λ ho, set_ho_disconnect_msg (set_hs_incoming ho (Some (zdrop reclen ptr))) false);
        receive_loop fuel
      else mret (-1)
  end.
Definition receive_handover : H Z :=
  ho ← mget;
  inc ← mlift (deref ho.(hs_incoming));
  _ ← mlift (deref ho.(ho_outev));
  match e.(en_recv) with
  | RecvWouldBlock => mret 0
  | RecvError | RecvClosed => mret (-1)
  | Received bs =>
      _ ← mmodify (λ ho, set_hs_incoming ho (Some (inc ++ bs)));
      receive_loop (S (length (inc ++ bs)))
  end.

(** The flag of a queue of an LIID is cleared unless the queue could not be declared; the
    result is always 0. *)
Definition register_known_liid_consumers (m : liid_map_entry_t) : H (Z * liid_map_entry_t) :=
  ho ← mget;
  match ho.(ho_type) with
  | HANDOVER_HI2 =>
      r ← register_mediator_iri_RMQ_consumer m.(lm_liid);
      mret (0, if r =? -1 then m else set_lm_iriqueue_deleted false m)
  | HANDOVER_HI3 =>
      r ← register_mediator_cc_RMQ_consumer m.(lm_liid);
      mret (0, if r =? -1 then m else set_lm_ccqueue_deleted false m)
  end.

(** [join_mediator_RMQ_as_consumer] *)
Definition join_mediator_RMQ_as_consumer : H unit :=
  ho ← mget;
  if e.(en_join) ho.(ho_type) then _ ← mtell Ho_joined; mmodify (λ ho, set_ho_rmq_consumer ho true)
  else mret tt.

Definition register_handover_RMQ_all (liidmap : liid_map_t) : H (Z * liid_map_t) :=
  ho ← mget;
  _ ← (if ho.(ho_rmq_consumer) then mret tt else join_mediator_RMQ_as_consumer);
  if ho.(ho_rmq_registered) then mret (1, liidmap) else
  '(r, liidmap) ← foreach_liid_agency_mapping register_known_liid_consumers liidmap;
  if r <? 0 then _ ← reset_handover_rmq; mret (-1, liidmap) else
  _ ← mmodify (λ ho, set_ho_rmq_registered ho true);
  mret (1, liidmap).

(** [connect_mediator_handover]; [connect_socket] gives -1 without an address. *)
Definition connect_mediator_handover : H Z :=
  ho ← mget;
  match ho.(ho_outev) with
  | Some _ => mret 0
  | None =>
      let outsock := match ho.(ho_ipstr), ho.(ho_portstr) with
                     | Some _, Some _ => e.(en_connect) ho.(ho_ipstr) ho.(ho_portstr)
                     | _, _ => -1
                     end in
      if outsock =? -1 then mret (-1) else
      if outsock =? 0 then _ ← mmodify (λ ho, set_ho_disconnect_msg ho true); mret 0 else
      _ ← mmodify (λ ho, match ho.(hs_incoming) with None => set_hs_incoming ho (Some []) | Some _ => ho end);
      match create_mediator_fdevent e outsock with
      | None => _ ← mmodify (λ ho, set_ho_disconnect_msg ho true); mret 0
      | Some fd =>
          _ ← mmodify (λ ho, set_ho_outev ho (Some fd));
          _ ← mtell (Ho_connected fd);
          _ ← aliveev_do (halt_mediator_timer e);
          _ ← aliveev_do (λ t, start_mediator_timer e t ho.(hs_kafreq));
          mret 1
      end
  end.

Definition create_new_handover (ipstr portstr : cstring) (handover_type : handover_type_t) (kafreq kawait : Z) : handover_t :=
  Mkhandover_t ipstr portstr handover_type false false None (create_mediator_timer e 0) (create_mediator_timer e 0)
    false init_export_buffer None 0 None 0 kafreq kawait 0 false.

Definition check_handover_rmq_status : H Z :=
  ho ← mget;
  r ← (match ho.(ho_type) with
       | HANDOVER_HI2 => consume_mediator_iri_messages 1
       | HANDOVER_HI3 => consume_mediator_cc_messages 1
       end);
  if (r =? -2) || (r =? -1) then _ ← reset_handover_rmq; mret (-1) else mret 0.
End handover.
