(* ===== verification/MedAgency.v ===== *)
(** * The threads that send to agencies (src/src/mediator/lea_send_thread.c)

    The mediator has a thread for each agency.  It gets messages from the main thread
    through a queue (which intercepts are the agency's, where the agency is, notifications
    for it), and events of its epoll loop: its handovers can be written or read, timers
    have expired.  [thread_step] is one round of [run_agency_thread] up to the epoll loop,
    or one event in that loop.

    [encode_etsi_hi1_notification] is an argument. *)

From stdpp Require Import gmap.
From S2P Require Import Prelude Libraries ByteOrder Protocol Intercept NetBuffer ExportBuffer Publish Radius HashTable MedHandover.

(** ** Data *)

(** [mediator_lea_config_t] with the members of the RMQ configuration that are used. *)
Record mediator_lea_config_t : Type := Mkmediator_lea_config_t {
  mc_mediatorid : Z;
  mc_operatorid : cstring;
  mc_shortoperatorid : cstring;
  mc_pcap_compress_level : Z;
  mc_pcap_outtemplate : cstring;
  mc_pcap_dir : cstring;
  mc_pcap_rotate_frequency : Z;
  mc_internalpass : cstring;
  mc_heartbeatFreq : Z;
}.

(** The messages, with their [data]. *)
Inductive lea_thread_msg_t : Type :=
  | MED_LEA_MESSAGE_RECONNECT
  | MED_LEA_MESSAGE_DISCONNECT
  | MED_LEA_MESSAGE_HALT
  | MED_LEA_MESSAGE_UPDATE_AGENCY (lea : liagency_t)
  | MED_LEA_MESSAGE_REMOVE_LIID (liid : bytes)
  | MED_LEA_MESSAGE_ADD_LIID (liid agencyid : bytes)
  | MED_LEA_MESSAGE_RELOAD_CONFIG
  | MED_LEA_MESSAGE_SEND_HI1_NOTIFICATION (ndata : option hi1_notify_data_t)
  | MED_LEA_MESSAGE_SHUTDOWN_TIMER (timeout : Z).

(** [lea_thread_state_t] with its [mediator_agency_t]; the local copy of the
    configuration is a record of its own. *)
Record lea_thread_state_t : Type := Mklea_thread_state_t {
  lt_agencyid : bytes;
  lt_hi2 : handover_t;
  lt_hi3 : handover_t;
  lt_disabled : bool;
  lt_active_liids : liid_map_t;
  lt_config : mediator_lea_config_t;
  lt_in_main : list lea_thread_msg_t;
  lt_shutdown_wait : option Z;
  lt_timerev : option Z;
  lt_rmqhb : option Z;
  lt_cleanse_liids : option Z;
}.

Section setters.
Context (s : lea_thread_state_t).
Definition set_lt_hi2 (x : handover_t) : lea_thread_state_t :=
  let '(Mklea_thread_state_t i _ b d l c m w t r n) := s in Mklea_thread_state_t i x b d l c m w t r n.
Definition set_lt_hi3 (x : handover_t) : lea_thread_state_t :=
  let '(Mklea_thread_state_t i a _ d l c m w t r n) := s in Mklea_thread_state_t i a x d l c m w t r n.
Definition set_lt_disabled (x : bool) : lea_thread_state_t :=
  let '(Mklea_thread_state_t i a b _ l c m w t r n) := s in Mklea_thread_state_t i a b x l c m w t r n.
Definition set_lt_active_liids (x : liid_map_t) : lea_thread_state_t :=
  let '(Mklea_thread_state_t i a b d _ c m w t r n) := s in Mklea_thread_state_t i a b d x c m w t r n.
Definition set_lt_config (x : mediator_lea_config_t) : lea_thread_state_t :=
  let '(Mklea_thread_state_t i a b d l _ m w t r n) := s in Mklea_thread_state_t i a b d l x m w t r n.
Definition set_lt_in_main (x : list lea_thread_msg_t) : lea_thread_state_t :=
  let '(Mklea_thread_state_t i a b d l c _ w t r n) := s in Mklea_thread_state_t i a b d l c x w t r n.
Definition set_lt_shutdown_wait (x : option Z) : lea_thread_state_t :=
  let '(Mklea_thread_state_t i a b d l c m _ t r n) := s in Mklea_thread_state_t i a b d l c m x t r n.
Definition set_lt_timerev (x : option Z) : lea_thread_state_t :=
  let '(Mklea_thread_state_t i a b d l c m w _ r n) := s in Mklea_thread_state_t i a b d l c m w x r n.
Definition set_lt_rmqhb (x : option Z) : lea_thread_state_t :=
  let '(Mklea_thread_state_t i a b d l c m w t _ n) := s in Mklea_thread_state_t i a b d l c m w t x n.
Definition set_lt_cleanse_liids (x : option Z) : lea_thread_state_t :=
  let '(Mklea_thread_state_t i a b d l c m w t r _) := s in Mklea_thread_state_t i a b d l c m w t r x.
End setters.

Definition lt_ho (h : handover_type_t) (s : lea_thread_state_t) : handover_t :=
  match h with HANDOVER_HI2 => s.(lt_hi2) | HANDOVER_HI3 => s.(lt_hi3) end.
Definition set_lt_ho (h : handover_type_t) (s : lea_thread_state_t) (x : handover_t) : lea_thread_state_t :=
  match h with HANDOVER_HI2 => set_lt_hi2 s x | HANDOVER_HI3 => set_lt_hi3 s x end.

(** What a thread does to the outside is what its handovers do. *)
Abbreviation lea_event := (handover_type_t * ho_event)%type.
Abbreviation T := (MW lea_thread_state_t lea_event).

(** An operation on a handover of the agency. *)
Definition on_ho {A} (h : handover_type_t) (m : H A) : T A := λ s,
  match m (lt_ho h s) with
  | Ok (a, ho, w) => Ok (a, set_lt_ho h s ho, pair h <$> w)
  | Abort => Abort
  | Undef => Undef
  end.
Definition timer_do (f : option Z → Z * option Z) (timer : lea_thread_state_t → option Z)
    (put : lea_thread_state_t → option Z → lea_thread_state_t) : T Z :=
  s ← mget; let '(r, t) := f (timer s) in _ ← mput (put s t); mret r.

(** The events of the epoll loop; a connection can be closed by the other side, read or
    written. *)
Inductive lea_epoll_event : Type :=
  | Ev_sigcheck (epollin : bool)
  | Ev_rmqcheck
  | Ev_shutdown
  | Ev_cease_liid
  | Ev_ka_timer (h : handover_type_t)
  | Ev_ka_response_timer (h : handover_type_t)
  | Ev_lea (h : handover_type_t) (rdhup epollin epollout : bool).

Section agency.
Context {J : Judy1} (realloc_ok : Z → bool).
Context (encode_keepalive : Z → cstring → Z → option bytes).
Context (encode_hi1 : hi1_notify_data_t → cstring → cstring → option bytes).
Context (pdu_length : bytes → Z) (is_keepalive_response : bytes → bool) (sequence_number : bytes → Z).

Section event.
Context (e : med_env).

Definition shutdown_do (f : option Z → Z * option Z) : T Z := timer_do f lt_shutdown_wait set_lt_shutdown_wait.
Definition timerev_do (f : option Z → Z * option Z) : T Z := timer_do f lt_timerev set_lt_timerev.
Definition rmqhb_do (f : option Z → Z * option Z) : T Z := timer_do f lt_rmqhb set_lt_rmqhb.
Definition cleanse_do (f : option Z → Z * option Z) : T Z := timer_do f lt_cleanse_liids set_lt_cleanse_liids.
Definition halt : option Z → Z * option Z := halt_mediator_timer e.
Definition start_for (secs : Z) (t : option Z) : Z * option Z := start_mediator_timer e t secs.

(** [foreach_liid_agency_mapping] over the LIIDs of the thread. *)
Definition foreach_active_liid (torun : liid_map_entry_t → T (Z * liid_map_entry_t)) : T Z :=
  s ← mget;
  '(r, map) ← foreach_liid_agency_mapping torun s.(lt_active_liids);
  _ ← mmodify (λ s, set_lt_active_liids s map);
  mret r.

Definition start_shutdown_timer (timeout : Z) : T unit :=
  _ ← cleanse_do halt;
  _ ← shutdown_do halt;
  _ ← shutdown_do (start_for timeout);
  _ ← foreach_active_liid (λ m, mret (0, set_liid_as_unconfirmed m));
  mret tt.

Definition purge_empty_withdrawn_liid_queues (m : liid_map_entry_t) : T (Z * liid_map_entry_t) :=
  if negb m.(lm_withdrawn) then mret (0, m) else
  m ← (if m.(lm_iriqueue_deleted) then mret m else
       r ← on_ho HANDOVER_HI2 (check_empty_mediator_iri_RMQ e m.(lm_liid));
       mret (if 0 <? r then set_lm_iriqueue_deleted true m else m));
  m ← (if m.(lm_ccqueue_deleted) then mret m else
       r ← on_ho HANDOVER_HI3 (check_empty_mediator_cc_RMQ e m.(lm_liid));
       mret (if 0 <? r then set_lm_ccqueue_deleted true m else m));
  mret (if m.(lm_ccqueue_deleted) && m.(lm_iriqueue_deleted) then 1 else 0, m).

(** A handover with the address of a new announcement, if that is another. *)
Definition update_handover (h : handover_type_t) (ip port : cstring) : T unit :=
  s ← mget;
  let ho := lt_ho h s in
  match ho.(ho_ipstr), ho.(ho_portstr) with
  | Some oldip, Some oldport =>
      ip' ← mlift (c_str ip);
      differ ← (if bool_decide (ip' ≠ until_nul oldip) then mret true else
                port' ← mlift (c_str port); mret (bool_decide (port' ≠ until_nul oldport)));
      if differ : bool then
        _ ← on_ho h (disconnect_handover e);
        on_ho h (mmodify (λ ho, set_ho_address ho ip port))
      else mret tt
  | _, _ =>
      (* the new handover points to strings that are freed at the end *)
      mlift Undef
  end.
Definition update_agency_handovers (newag : liagency_t) : T unit :=
  _ ← update_handover HANDOVER_HI2 newag.(lea_hi2_ipstr) newag.(lea_hi2_portstr);
  _ ← update_handover HANDOVER_HI3 newag.(lea_hi3_ipstr) newag.(lea_hi3_portstr);
  let keep ho := set_hs_keepalive ho newag.(lea_keepalivefreq) newag.(lea_keepalivewait) in
  _ ← on_ho HANDOVER_HI2 (mmodify keep);
  on_ho HANDOVER_HI3 (mmodify keep).

(** ** Sending records *)

Definition MAX_SEND : Z := 1024 * 1024 * 16.

Definition send_available_rmq_records : H Z :=
  ho ← mget;
  if get_buffered_amount ho.(hs_buf) =? 0 then mret 0 else
  r ← xmit_handover_records realloc_ok e MAX_SEND;
  if r <? 0 then mret (-1) else
  ho ← mget;
  if (get_buffered_amount ho.(hs_buf) =? 0) && ho.(hs_valid_rmq_ack) then
    r ← (match ho.(ho_type) with
         | HANDOVER_HI2 => ack_mediator_iri_messages e ho.(hs_next_rmq_ack)
         | HANDOVER_HI3 => ack_mediator_cc_messages e ho.(hs_next_rmq_ack)
         end);
    if negb (r =? 0) then mret (-2) else
    _ ← mmodify (λ ho, set_hs_valid_rmq_ack ho false); mret 1
  else mret 1.

Definition connection_good : H unit := mmodify (λ ho, set_ho_disconnect_msg ho false).

Definition consume_available_rmq_records (h : handover_type_t) : T Z :=
  s ← mget;
  if negb (lt_ho h s).(ho_rmq_registered) then mret 0 else
  r ← on_ho h send_available_rmq_records;
  if r =? 1 then _ ← on_ho h connection_good; mret 0
  else if r =? -2 then _ ← on_ho h reset_handover_rmq; mret 0
  else if r =? -1 then mret (-1) else
  r ← on_ho h (match h with
               | HANDOVER_HI3 => consume_mediator_cc_messages realloc_ok e 32
               | HANDOVER_HI2 => consume_mediator_iri_messages realloc_ok e 32
               end);
  if r <? 0 then _ ← on_ho h reset_handover_rmq; mret 0 else
  _ ← (if 0 <? r then on_ho h (mmodify (λ ho, set_hs_valid_rmq_ack ho true)) else mret tt);
  s ← mget;
  _ ← (if (lt_ho h s).(ho_rmq_consumer) then
         _ ← rmqhb_do halt; rmqhb_do (start_for s.(lt_config).(mc_heartbeatFreq))
       else mret 0);
  r ← on_ho h send_available_rmq_records;
  if 0 <? r then _ ← on_ho h connection_good; mret 0
  else if r =? -2 then _ ← on_ho h reset_handover_rmq; mret 0
  else mret r.

Definition set_unconfirmed_liid_as_withdrawn (m : liid_map_entry_t) : T (Z * liid_map_entry_t) :=
  if negb m.(lm_unconfirmed) then mret (0, m) else
  _ ← on_ho HANDOVER_HI2 (deregister_mediator_iri_RMQ_consumer e m.(lm_liid));
  _ ← on_ho HANDOVER_HI3 (deregister_mediator_cc_RMQ_consumer e m.(lm_liid));
  mret (0, set_lm_withdrawn true m).

Definition agency_thread_action_rmqcheck_timer : T Z :=
  _ ← rmqhb_do halt;
  _ ← on_ho HANDOVER_HI2 (check_handover_rmq_status realloc_ok e);
  _ ← on_ho HANDOVER_HI3 (check_handover_rmq_status realloc_ok e);
  _ ← foreach_active_liid purge_empty_withdrawn_liid_queues;
  s ← mget;
  r ← rmqhb_do (start_for s.(lt_config).(mc_heartbeatFreq));
  mret (if r <? 0 then 0 else 1).

Definition agency_thread_action_cease_liid_timer : T Z :=
  _ ← cleanse_do halt;
  _ ← foreach_active_liid set_unconfirmed_liid_as_withdrawn;
  mret 0.

(** [agency_thread_epoll_event] *)
Definition agency_thread_epoll_event (ev : lea_epoll_event) : T Z :=
  match ev with
  | Ev_sigcheck epollin => mret (b2z epollin)
  | Ev_rmqcheck => agency_thread_action_rmqcheck_timer
  | Ev_shutdown => mret (-1)
  | Ev_cease_liid => agency_thread_action_cease_liid_timer
  | Ev_ka_timer h =>
      s ← mget;
      _ ← on_ho h (trigger_handover_keepalive encode_keepalive e s.(lt_config).(mc_mediatorid) s.(lt_config).(mc_operatorid));
      mret 0
  | Ev_ka_response_timer h =>
      _ ← on_ho h (aliverespev_do halt);
      _ ← on_ho h (trigger_handover_ka_failure e);
      mret 1
  | Ev_lea h rdhup epollin epollout =>
      ret ← (if rdhup then mret (-1)
             else if epollin then on_ho h (receive_handover pdu_length is_keepalive_response sequence_number e)
             else if epollout then
               ret ← on_ho h (xmit_handover_keepalive e);
               s ← mget;
               if negb (ret =? -1) && negb (bool_decide (default (-1) (lt_ho h s).(ho_aliverespev) = -1)) then mret 0
               else consume_available_rmq_records h
             else mret (-1));
      if ret =? -1 then _ ← on_ho h (disconnect_handover e); mret 0 else mret ret
  end.

(** ** LIIDs *)

Definition purge_lea_liid_mapping (liid : bytes) : T Z :=
  s ← mget;
  match lookup_liid_agency_mapping s.(lt_active_liids) liid with
  | None => mret 0
  | Some m =>
      r ← on_ho HANDOVER_HI2 (deregister_mediator_iri_RMQ_consumer e liid);
      _ ← (if r <? 0 then mret r else on_ho HANDOVER_HI3 (deregister_mediator_cc_RMQ_consumer e liid));
      _ ← mmodify (λ s, set_lt_active_liids s (remove_liid_agency_mapping m s.(lt_active_liids)));
      mret 1
  end.
Definition insert_lea_liid_mapping (liid : bytes) : T Z :=
  s ← mget;
  let '(r, map) := add_liid_agency_mapping liid s.(lt_active_liids) in
  _ ← mput (set_lt_active_liids s map);
  if r =? 0 then mret 0 else
  r ← on_ho HANDOVER_HI2 (register_mediator_iri_RMQ_consumer e liid);
  _ ← (if r <? 0 then mret r else on_ho HANDOVER_HI3 (register_mediator_cc_RMQ_consumer e liid));
  mret 1.

(** ** Configuration and messages *)

(** [read_parent_config]: 1 if the password for the broker has changed. *)
Definition read_parent_config (parent : mediator_lea_config_t) : T Z :=
  s ← mget;
  changed ← mlift (match s.(lt_config).(mc_internalpass) with
                   | None => Ok false
                   | Some old => Ok (match parent.(mc_internalpass) with
                                     | None => true
                                     | Some new => bool_decide (until_nul new ≠ until_nul old)
                                     end)
                   end);
  _ ← mput (set_lt_config s parent);
  mret (b2z changed).

(** [create_agency_thread_timers] *)
Definition create_agency_thread_timers : T Z :=
  _ ← mmodify (λ s, set_lt_timerev (set_lt_cleanse_liids (set_lt_shutdown_wait s
        (create_mediator_timer e 0)) (create_mediator_timer e 0)) (create_mediator_timer e 0));
  _ ← mmodify (λ s, set_lt_rmqhb s (create_mediator_timer e 0));
  s ← mget;
  r ← rmqhb_do (start_for s.(lt_config).(mc_heartbeatFreq));
  mret (if r <? 0 then -1 else 1).

Definition publish_hi1_notification (ndata : option hi1_notify_data_t) : T unit :=
  match ndata with
  | None => mret tt
  | Some nd =>
      s ← mget;
      match encode_hi1 nd s.(lt_config).(mc_operatorid) s.(lt_config).(mc_shortoperatorid) with
      | None => mret tt
      | Some encoded =>
          on_ho HANDOVER_HI2 (r ← append_pdu realloc_ok encoded;
                              if r =? 0 then mret tt else mtell (Ho_notified encoded))
      end
  end.

(** The message is handled; whether the thread shall halt. *)
Definition handle_agency_message (parent : mediator_lea_config_t) (msg : lea_thread_msg_t) : T bool :=
  match msg with
  | MED_LEA_MESSAGE_HALT => mret true
  | MED_LEA_MESSAGE_SHUTDOWN_TIMER timeout => _ ← start_shutdown_timer timeout; mret false
  | MED_LEA_MESSAGE_RECONNECT =>
      _ ← on_ho HANDOVER_HI2 (disconnect_handover e);
      _ ← on_ho HANDOVER_HI3 (disconnect_handover e);
      _ ← mmodify (λ s, set_lt_disabled s false); mret false
  | MED_LEA_MESSAGE_DISCONNECT =>
      _ ← on_ho HANDOVER_HI2 (disconnect_handover e);
      _ ← on_ho HANDOVER_HI3 (disconnect_handover e);
      _ ← mmodify (λ s, set_lt_disabled s true); mret false
  | MED_LEA_MESSAGE_RELOAD_CONFIG =>
      r ← read_parent_config parent;
      _ ← (if r =? 1 then _ ← on_ho HANDOVER_HI2 reset_handover_rmq; on_ho HANDOVER_HI3 reset_handover_rmq
           else mret tt);
      mret false
  | MED_LEA_MESSAGE_UPDATE_AGENCY lea =>
      _ ← shutdown_do halt;
      _ ← update_agency_handovers lea;
      _ ← cleanse_do halt;
      _ ← cleanse_do (start_for 30);
      mret false
  | MED_LEA_MESSAGE_REMOVE_LIID liid =>
      _ ← on_ho HANDOVER_HI2 (deregister_mediator_iri_RMQ_consumer e liid);
      _ ← on_ho HANDOVER_HI3 (deregister_mediator_cc_RMQ_consumer e liid);
      _ ← mmodify (λ s, set_lt_active_liids s (withdraw_liid_agency_mapping liid s.(lt_active_liids)));
      mret false
  | MED_LEA_MESSAGE_ADD_LIID liid agencyid =>
      s ← mget;
      _ ← (if bool_decide (agencyid ≠ s.(lt_agencyid)) then purge_lea_liid_mapping liid
           else insert_lea_liid_mapping liid);
      mret false
  | MED_LEA_MESSAGE_SEND_HI1_NOTIFICATION ndata => _ ← publish_hi1_notification ndata; mret false
  end.

(** [process_agency_messages]: the messages that are in the queue, up to one that halts. *)
Fixpoint process_messages (parent : mediator_lea_config_t) (msgs : list lea_thread_msg_t) : T Z :=
  match msgs with
  | [] => mret 0
  | msg :: msgs =>
      _ ← mmodify (λ s, set_lt_in_main s msgs);
      halted ← handle_agency_message parent msg;
      if halted : bool then mret 1 else process_messages parent msgs
  end.
Definition process_agency_messages (parent : mediator_lea_config_t) : T Z :=
  s ← mget; process_messages parent s.(lt_in_main).

(** ** The thread *)

Inductive thread_phase : Type := At_top | In_epoll | Ended.

(** [destroy_agency] and [destroy_agency_thread_state] *)
Definition destroy_agency_thread_state : T unit :=
  _ ← on_ho HANDOVER_HI2 (disconnect_handover e);
  _ ← on_ho HANDOVER_HI3 (disconnect_handover e);
  mmodify (λ s, set_lt_active_liids s []).

Definition register_handover (h : handover_type_t) : T unit :=
  s ← mget;
  let ho := lt_ho h s in
  if negb ho.(ho_rmq_registered) && negb (bool_decide (ho.(ho_outev) = None)) then
    '(_, map) ← on_ho h (register_handover_RMQ_all e s.(lt_active_liids));
    mmodify (λ s, set_lt_active_liids s map)
  else mret tt.

(** The body of the loop of [run_agency_thread] up to the epoll loop. *)
Definition agency_thread_top (parent : mediator_lea_config_t) : T thread_phase :=
  s ← mget;
  let connected := negb (bool_decide (s.(lt_hi2).(ho_outev) = None)) && negb (bool_decide (s.(lt_hi3).(ho_outev) = None)) in
  failed ← (if negb connected && negb s.(lt_disabled) then
              r2 ← on_ho HANDOVER_HI2 (connect_mediator_handover e);
              r3 ← on_ho HANDOVER_HI3 (connect_mediator_handover e);
              mret ((r2 <? 0) || (r3 <? 0))
            else mret false);
  if failed : bool then _ ← destroy_agency_thread_state; mret Ended else
  r ← process_agency_messages parent;
  if negb (r =? 0) then _ ← destroy_agency_thread_state; mret Ended else
  s ← mget;
  _ ← (if s.(lt_disabled) then mret tt else _ ← register_handover HANDOVER_HI2; register_handover HANDOVER_HI3);
  r ← timerev_do (start_for 1);
  if r <? 0 then _ ← destroy_agency_thread_state; mret Ended else mret In_epoll.

(** One event; those of a connection come while it is there. *)
Definition agency_thread_event (ev : lea_epoll_event) : T thread_phase :=
  s ← mget;
  let there := match ev with
               | Ev_lea h _ _ _ => negb (bool_decide ((lt_ho h s).(ho_outev) = None))
               | _ => true
               end in
  if negb there then mret In_epoll else
  r ← agency_thread_epoll_event ev;
  if r =? -1 then _ ← timerev_do halt; _ ← destroy_agency_thread_state; mret Ended
  else if r =? 0 then mret In_epoll
  else _ ← timerev_do halt; mret At_top.
End event.

(** What the thread is given in a step: the answers of the outside, the configuration of
    the main thread, and an event if it waits for one. *)
Record thread_input : Type := Mkthread_input {
  ti_env : med_env;
  ti_parent : mediator_lea_config_t;
  ti_event : lea_epoll_event;
  ti_queued : list lea_thread_msg_t;    (* put into the queue before the step *)
}.

Definition thread_step (i : thread_input) (ph : thread_phase) : T thread_phase :=
  _ ← mmodify (λ s, set_lt_in_main s (s.(lt_in_main) ++ i.(ti_queued)));
  match ph with
  | At_top => agency_thread_top i.(ti_env) i.(ti_parent)
  | In_epoll => agency_thread_event i.(ti_env) i.(ti_event)
  | Ended => mret Ended
  end.
Fixpoint run_thread (l : list thread_input) (ph : thread_phase) : T thread_phase :=
  match l with
  | [] => mret ph
  | i :: l => ph ← thread_step i ph; run_thread l ph
  end.

(** [init_mediator_agency] and what [mediator_start_agency_thread] does to the new state;
    then the beginning of [run_agency_thread]. *)
Definition new_agency_thread (e : med_env) (lea : liagency_t) (agencyid : bytes) : lea_thread_state_t :=
  Mklea_thread_state_t agencyid
    (create_new_handover e lea.(lea_hi2_ipstr) lea.(lea_hi2_portstr) HANDOVER_HI2 lea.(lea_keepalivefreq) lea.(lea_keepalivewait))
    (create_new_handover e lea.(lea_hi3_ipstr) lea.(lea_hi3_portstr) HANDOVER_HI3 lea.(lea_keepalivefreq) lea.(lea_keepalivewait))
    false [] (Mkmediator_lea_config_t 0 None None 0 None None 0 None 0) [] None None None None.
Definition start_agency_thread (e : med_env) (parent : mediator_lea_config_t) : T thread_phase :=
  _ ← read_parent_config parent;
  r ← create_agency_thread_timers e;
  if r <? 0 then _ ← destroy_agency_thread_state e; mret Ended else mret At_top.
End agency.
