(* ===== verification/MedMain.v ===== *)
(** * The main thread of the mediator (src/src/mediator/mediator.c, lea_send_thread.c)

    The main thread hears the provisioner and passes on what it is told to the threads of
    the agencies, which it keeps in a table.  [mediator_step] is a step of the whole: a
    message, the loss of the connection, a new one, a new configuration, or a step of one
    of the threads.

    A thread that has ended by itself stays in the table, but has freed its key; a table
    with such a key has no meaning for a search that comes upon it. *)

From stdpp Require Import gmap.
From S2P Require Import Prelude Libraries ByteOrder Protocol Intercept NetBuffer NetDecode ExportBuffer Publish Radius HashTable MedHandover MedAgency.

Record mediator_thread_t : Type := Mkmediator_thread_t {
  mt_state : lea_thread_state_t;
  mt_phase : thread_phase;
}.
(** [mediator_state_t], as far as it concerns the agencies. *)
Record mediator_state_t : Type := Mkmediator_state_t {
  ms_threads : list (bytes * mediator_thread_t);
  ms_config : mediator_lea_config_t;
  ms_halt : bool;
}.
Definition set_ms_threads (l : list (bytes * mediator_thread_t)) (s : mediator_state_t) : mediator_state_t :=
  Mkmediator_state_t l s.(ms_config) s.(ms_halt).
Definition set_ms_config (c : mediator_lea_config_t) (s : mediator_state_t) : mediator_state_t :=
  Mkmediator_state_t s.(ms_threads) c s.(ms_halt).
Definition set_ms_halt (b : bool) (s : mediator_state_t) : mediator_state_t :=
  Mkmediator_state_t s.(ms_threads) s.(ms_config) b.

Definition mt_ended (t : mediator_thread_t) : bool := match t.(mt_phase) with Ended => true | _ => false end.

(** [libtrace_message_queue_put] *)
Definition put_message (msg : lea_thread_msg_t) (t : mediator_thread_t) : mediator_thread_t :=
  Mkmediator_thread_t (set_lt_in_main t.(mt_state) (t.(mt_state).(lt_in_main) ++ [msg])) t.(mt_phase).
Definition put_all (msg : lea_thread_msg_t) (s : mediator_state_t) : mediator_state_t :=
  set_ms_threads (prod_map id (put_message msg) <$> s.(ms_threads)) s.

(** [HASH_FIND] in the table of threads. *)
Definition find_thread (agencyid : bytes) (s : mediator_state_t) : outcome (option mediator_thread_t) :=
  match hash_find agencyid s.(ms_threads) with
  | None => Ok None
  | Some t => if mt_ended t then Undef else Ok (Some t)
  end.

(** What [calloc] gives. *)
Definition zero_liagency : liagency_t := Mkliagency_t None None None None None 0 0.
Definition zero_hi1_notify_data : hi1_notify_data_t := Mkhi1_notify_data_t 0 None None None None 0 0 0 None.

Section main.
Context {J : Judy1} (realloc_ok : Z → bool).
Context (encode_keepalive : Z → cstring → Z → option bytes).
Context (encode_hi1 : hi1_notify_data_t → cstring → cstring → option bytes).
Context (pdu_length : bytes → Z) (is_keepalive_response : bytes → bool) (sequence_number : bytes → Z).

Abbreviation med_event := (bytes * lea_event)%type.
Abbreviation MM := (MW mediator_state_t med_event).

(** ** The threads *)

Definition mediator_update_agency_thread (agencyid : bytes) (t : mediator_thread_t) (lea : liagency_t)
    (s : mediator_state_t) : mediator_state_t :=
  set_ms_threads (hash_update agencyid (put_message (MED_LEA_MESSAGE_UPDATE_AGENCY lea) t) s.(ms_threads)) s.

(** [mediator_start_agency_thread] with the beginning of the new thread. *)
Definition mediator_start_agency_thread (e : med_env) (lea : liagency_t) (agencyid : bytes) : MM Z :=
  if bool_decide (agencyid = of_string "pcapdisk") then mret (-1) else
  s ← mget;
  '(ph, st, w) ← mlift (start_agency_thread e s.(ms_config) (new_agency_thread e lea agencyid));
  _ ← mput (set_ms_threads (hash_add agencyid (Mkmediator_thread_t st ph) s.(ms_threads)) s);
  mret 1.

(** [mediator_halt_agency_thread]: the thread is told and waited for. *)
Definition mediator_halt_agency_thread (agencyid : bytes) : MM unit :=
  if bool_decide (agencyid = of_string "pcapdisk") then mret tt else
  s ← mget;
  t ← mlift (find_thread agencyid s);
  match t with
  | None => mret tt
  | Some _ => mput (set_ms_threads (hash_delete agencyid s.(ms_threads)) s)
  end.

Definition trigger_lea_thread_shutdown_timers (timeout : Z) : MM unit :=
  mmodify (put_all (MED_LEA_MESSAGE_SHUTDOWN_TIMER timeout)).
(** [drop_provisioner], for the agencies. *)
Definition drop_provisioner : MM unit := trigger_lea_thread_shutdown_timers 1800.

(** ** A new configuration *)

(** [update_med_agency_config]: the strings are copied with [strdup], which needs them. *)
Definition update_med_agency_config (config : mediator_lea_config_t) : outcome mediator_lea_config_t :=
  _ ← deref config.(mc_operatorid);
  _ ← deref config.(mc_shortoperatorid);
  _ ← deref config.(mc_pcap_dir);
  _ ← deref config.(mc_pcap_outtemplate);
  Ok config.
(** [update_lea_thread_config] *)
Definition update_lea_thread_config (config : mediator_lea_config_t) : MM unit :=
  config ← mlift (update_med_agency_config config);
  mmodify (λ s, put_all MED_LEA_MESSAGE_RELOAD_CONFIG (set_ms_config config s)).

Definition str_changed (cur new : cstring) : outcome bool :=
  x ← c_str new; y ← c_str cur; Ok (bool_decide (x ≠ y)).
(** A string of [reload_pcap_config]: whether it has changed.  One that is no longer there
    is freed, and once more with the temporary state that gets it. *)
Definition pcap_changed (cur new : cstring) : outcome bool :=
  match cur, new with
  | Some _, None => Undef
  | None, Some _ => Ok true
  | None, None => Ok false
  | Some _, Some _ => str_changed cur new
  end.
Definition reload_pcap_config (cur new : mediator_lea_config_t) : outcome bool :=
  d ← pcap_changed cur.(mc_pcap_dir) new.(mc_pcap_dir);
  f ← pcap_changed cur.(mc_pcap_outtemplate) new.(mc_pcap_outtemplate);
  Ok (d || f || negb (cur.(mc_pcap_compress_level) =? new.(mc_pcap_compress_level)) ||
      negb (cur.(mc_pcap_rotate_frequency) =? new.(mc_pcap_rotate_frequency))).

(** What [reload_mediator_config] does about the agencies. *)
Definition reload_mediator_config (new : mediator_lea_config_t) : MM unit :=
  s ← mget;
  let cur := s.(ms_config) in
  opid ← mlift (str_changed cur.(mc_operatorid) new.(mc_operatorid));
  shortop ← mlift (str_changed cur.(mc_shortoperatorid) new.(mc_shortoperatorid));
  rmq ← mlift (str_changed cur.(mc_internalpass) new.(mc_internalpass));
  pcap ← mlift (reload_pcap_config cur new);
  if negb (cur.(mc_mediatorid) =? new.(mc_mediatorid)) || opid || shortop || rmq ||
     negb (cur.(mc_heartbeatFreq) =? new.(mc_heartbeatFreq)) || pcap
  then update_lea_thread_config new else mret tt.

(** ** What the provisioner says *)

Definition receive_lea_withdrawal (msgbody : bytes) (msglen : Z) : MM Z :=
  '(r, lea) ← mlift (decode_lea_withdrawal msgbody msglen zero_liagency);
  if r =? -1 then mret (-1) else
  agencyid ← mlift (c_str lea.(lea_agencyid));
  _ ← mediator_halt_agency_thread agencyid;
  mret 0.

Definition receive_lea_announce (e : med_env) (msgbody : bytes) (msglen : Z) : MM Z :=
  '(r, lea) ← mlift (decode_lea_announcement msgbody msglen zero_liagency);
  if r =? -1 then mret (-1) else
  agencyid ← mlift (c_str lea.(lea_agencyid));
  s ← mget;
  existing ← mlift (find_thread agencyid s);
  match existing with
  | None => mediator_start_agency_thread e lea agencyid
  | Some t => _ ← mput (mediator_update_agency_thread agencyid t lea s); mret 0
  end.

Definition receive_hi1_notification (msgbody : bytes) (msglen : Z) : MM Z :=
  '(r, ndata) ← mlift (decode_hi1_notification msgbody msglen zero_hi1_notify_data);
  if r =? -1 then mret (-1) else
  if (ndata.(nd_notify_type) <? 0) || (4 <? ndata.(nd_notify_type)) then mret (-1) else
  agencyid ← mlift (c_str ndata.(nd_agencyid));
  s ← mget;
  t ← mlift (find_thread agencyid s);
  match t with
  | None => mret (-1)
  | Some t =>
      _ ← mput (set_ms_threads (hash_update agencyid
                  (put_message (MED_LEA_MESSAGE_SEND_HI1_NOTIFICATION (Some ndata)) t) s.(ms_threads)) s);
      mret 0
  end.

Definition receive_cease (msgbody : bytes) (msglen : Z) : MM Z :=
  '(r, liid) ← mlift (decode_cease_mediation msgbody msglen None);
  if r =? -1 then mret (-1) else
  match liid with
  | None => mret (-1)
  | Some liid => _ ← mmodify (put_all (MED_LEA_MESSAGE_REMOVE_LIID (until_nul liid))); mret 0
  end.

Definition receive_liid_mapping (msgbody : bytes) (msglen : Z) : MM Z :=
  '(r, (agencyid, liid)) ← mlift (decode_liid_mapping msgbody msglen None None);
  if r =? -1 then mret (-1) else
  match agencyid, liid with
  | Some agencyid, Some liid =>
      s ← mget;
      if existsb (λ t, mt_ended t.2) s.(ms_threads) then mlift Undef else
      let agencyid := until_nul agencyid in
      _ ← mput (put_all (MED_LEA_MESSAGE_ADD_LIID (until_nul liid) agencyid) s);
      mret (if bool_decide (agencyid ∈ s.(ms_threads).*1) then 0 else -1)
  | _, _ => mret (-1)
  end.

(** The body of the loop of [receive_provisioner] for a message that was received. *)
Definition handle_provisioner_message (e : med_env) (msgtype : openli_proto_msgtype_t) (msgbody : bytes) (msglen : Z) : MM Z :=
  match msgtype with
  | OPENLI_PROTO_NO_MESSAGE => mret 0
  | OPENLI_PROTO_SSL_REQUIRED => _ ← mmodify (set_ms_halt true); mret (-1)
  | OPENLI_PROTO_ANNOUNCE_LEA => receive_lea_announce e msgbody msglen
  | OPENLI_PROTO_WITHDRAW_LEA => receive_lea_withdrawal msgbody msglen
  | OPENLI_PROTO_MEDIATE_INTERCEPT => receive_liid_mapping msgbody msglen
  | OPENLI_PROTO_CEASE_MEDIATION => receive_cease msgbody msglen
  | OPENLI_PROTO_HI1_NOTIFICATION => receive_hi1_notification msgbody msglen
  | _ => mret (-1)
  end.

(** ** The whole *)

Inductive med_input : Type :=
  | Med_message (e : med_env) (msgtype : openli_proto_msgtype_t) (msgbody : bytes) (msglen : Z)
  | Med_disconnect
  | Med_connected
  | Med_reload (new : mediator_lea_config_t)
  | Med_thread (agencyid : bytes) (e : med_env) (ev : lea_epoll_event).

(** A step of a thread; the handovers of a thread that has ended are gone. *)
Definition step_thread (agencyid : bytes) (e : med_env) (ev : lea_epoll_event) : MM unit := λ s,
  match hash_find agencyid s.(ms_threads) with
  | None => Ok (tt, s, [])
  | Some t =>
      match thread_step realloc_ok encode_keepalive encode_hi1 pdu_length is_keepalive_response sequence_number
              (Mkthread_input e s.(ms_config) ev []) t.(mt_phase) t.(mt_state) with
      | Ok (ph, st, w) =>
          Ok (tt, set_ms_threads (hash_update agencyid (Mkmediator_thread_t st ph) s.(ms_threads)) s, pair agencyid <$> w)
      | Abort => Abort
      | Undef => Undef
      end
  end.

Definition mediator_step (i : med_input) : MM unit :=
  match i with
  | Med_message e t body len =>
      r ← handle_provisioner_message e t body len;
      if r =? -1 then drop_provisioner else mret tt
  | Med_disconnect => drop_provisioner
  | Med_connected => trigger_lea_thread_shutdown_timers 60
  | Med_reload new => reload_mediator_config new
  | Med_thread agencyid e ev => step_thread agencyid e ev
  end.
Fixpoint run_mediator (l : list med_input) : MM unit :=
  match l with
  | [] => mret tt
  | i :: l => _ ← mediator_step i; run_mediator l
  end.
End main.
