(* ===== verification/MedCollector.v ===== *)
(** * The threads that receive from collectors
      (src/src/mediator/coll_recv_thread.c, mediator_rmq.c, util.c)

    The mediator has a thread for each collector that has connected.  It reads records and
    puts each into the queue of the local broker for its LIID and kind.  A record is
    preceded by the LIID and its length.

    What the thread does to the outside is what it asks the broker.  The calls of the
    broker are answered by the environment of the event.  The TLS handshake is left out: the
    connection of a collector is there or not. *)

From stdpp Require Import gmap.
From S2P Require Import Prelude ByteOrder Protocol Intercept NetBuffer NetDecode NetStream Publish Radius HashTable MedHandover.

Definition MAX_COLL_RECV : Z := 10 * 1024 * 1024.
Definition LIID_QUEUE_EXPIRY_THRESH : Z := 10 * 60.

(** [col_known_liid_t]; the key of the table is the string. *)
Record col_known_liid_t : Type := Mkcol_known_liid_t {
  kn_liid : bytes;
  kn_liidlen : Z;
  kn_lastseen : Z;
}.
(** [coll_recv_t], as far as it concerns the records. *)
Record coll_recv_t : Type := Mkcoll_recv_t {
  cr_colev : bool;
  cr_rmq_colev : bool;
  cr_rmqenabled : bool;
  cr_was_dropped : bool;
  cr_amqp_producer_state : bool;
  cr_incoming : option net_buffer_t;
  cr_incoming_rmq : option net_buffer_t;
  cr_known_liids : list (bytes * col_known_liid_t);
}.

Section setters.
Context (c : coll_recv_t).
Definition set_cr_colev (x : bool) : coll_recv_t :=
  Mkcoll_recv_t x c.(cr_rmq_colev) c.(cr_rmqenabled) c.(cr_was_dropped) c.(cr_amqp_producer_state)
    c.(cr_incoming) c.(cr_incoming_rmq) c.(cr_known_liids).
Definition set_cr_rmq_colev (x : bool) : coll_recv_t :=
  Mkcoll_recv_t c.(cr_colev) x c.(cr_rmqenabled) c.(cr_was_dropped) c.(cr_amqp_producer_state)
    c.(cr_incoming) c.(cr_incoming_rmq) c.(cr_known_liids).
Definition set_cr_was_dropped (x : bool) : coll_recv_t :=
  Mkcoll_recv_t c.(cr_colev) c.(cr_rmq_colev) c.(cr_rmqenabled) x c.(cr_amqp_producer_state)
    c.(cr_incoming) c.(cr_incoming_rmq) c.(cr_known_liids).
Definition set_cr_amqp_producer_state (x : bool) : coll_recv_t :=
  Mkcoll_recv_t c.(cr_colev) c.(cr_rmq_colev) c.(cr_rmqenabled) c.(cr_was_dropped) x
    c.(cr_incoming) c.(cr_incoming_rmq) c.(cr_known_liids).
Definition set_cr_incoming (x : option net_buffer_t) : coll_recv_t :=
  Mkcoll_recv_t c.(cr_colev) c.(cr_rmq_colev) c.(cr_rmqenabled) c.(cr_was_dropped) c.(cr_amqp_producer_state)
    x c.(cr_incoming_rmq) c.(cr_known_liids).
Definition set_cr_incoming_rmq (x : option net_buffer_t) : coll_recv_t :=
  Mkcoll_recv_t c.(cr_colev) c.(cr_rmq_colev) c.(cr_rmqenabled) c.(cr_was_dropped) c.(cr_amqp_producer_state)
    c.(cr_incoming) x c.(cr_known_liids).
Definition set_cr_known_liids (x : list (bytes * col_known_liid_t)) : coll_recv_t :=
  Mkcoll_recv_t c.(cr_colev) c.(cr_rmq_colev) c.(cr_rmqenabled) c.(cr_was_dropped) c.(cr_amqp_producer_state)
    c.(cr_incoming) c.(cr_incoming_rmq) x.
End setters.

Inductive producer_call : Type :=
  | Prod_declare (channel : Z) (queue : bytes)
  | Prod_publish (channel : Z) (queue : bytes) (body : bytes).
Abbreviation producer_event := (producer_call * bool)%type.
Abbreviation C := (MW coll_recv_t producer_event).

(** The answers while an event is handled: the time of day, what is received (nothing more
    when they are used up), and what the broker says to the calls. *)
Record coll_env : Type := Mkcoll_env {
  ce_now : Z;
  ce_recv : list recv_result;
  ce_consume : list (rmq_reply * bytes);
  ce_amqp : producer_call → bool;
}.

(** [extract_liid_from_exported_msg]: what is copied to [space] before the final NUL, and
    the value of [*liidlen]. *)
Definition extract_liid_from_exported_msg (etsimsg : bytes) (msglen maxspace : Z) : outcome (bytes * Z) :=
  l ← read_le 2 etsimsg;
  let liidlen := ntohs l in
  let liidlen := if msglen - 2 <? liidlen then u16 (msglen - 2) else liidlen in
  let liidlen := if maxspace - 1 <? liidlen then u16 (maxspace - 1) else liidlen in
  liid ← read_bytes liidlen (zdrop 2 etsimsg);
  Ok (liid, u16 (liidlen + 2)).

Section coll.
Context (realloc_ok : Z → bool) (e : coll_env).

Definition ask_producer (c : producer_call) : C bool :=
  let ok := e.(ce_amqp) c in _ ← mtell (c, ok); mret ok.

(** [declare_mediator_liid_RMQ_queue] and [declare_mediator_rawip_RMQ_queue] *)
Definition declare_mediator_liid_RMQ_queue (liid : bytes) : C Z :=
  ok ← ask_producer (Prod_declare 2 (queue_name liid "iri"));
  if negb ok then mret (-1) else
  ok ← ask_producer (Prod_declare 3 (queue_name liid "cc"));
  mret (if ok : bool then 0 else -1).
Definition declare_mediator_rawip_RMQ_queue (liid : bytes) : C Z :=
  ok ← ask_producer (Prod_declare 4 (queue_name liid "rawip")); mret (if ok : bool then 0 else -1).

(** [produce_mediator_RMQ]; the flag for the expiration is never set in the properties of
    the message. *)
Definition produce_mediator_RMQ (msg : bytes) (msglen : Z) (liid : bytes) (channel : Z) (queuetype : string) : C Z :=
  body ← mlift (read_bytes msglen msg);
  ok ← ask_producer (Prod_publish channel (queue_name liid queuetype) body); mret (if ok : bool then 1 else 0).
Definition publish_iri_on_mediator_liid_RMQ_queue (msg : bytes) (msglen : Z) (liid : bytes) : C Z :=
  produce_mediator_RMQ msg msglen liid 2 "iri".
Definition publish_cc_on_mediator_liid_RMQ_queue (msg : bytes) (msglen : Z) (liid : bytes) : C Z :=
  produce_mediator_RMQ msg msglen liid 3 "cc".
Definition publish_rawip_on_mediator_liid_RMQ_queue (msg : bytes) (msglen : Z) (liid : bytes) : C Z :=
  produce_mediator_RMQ msg msglen liid 4 "rawip".

(** [remove_expired_liid_queues]; the answers to the declarations are not looked at. *)
Fixpoint expire_liids (l : list (bytes * col_known_liid_t)) : C (list (bytes * col_known_liid_t)) :=
  match l with
  | [] => mret []
  | (k, known) :: l =>
      if u64 (e.(ce_now) - known.(kn_lastseen)) <? LIID_QUEUE_EXPIRY_THRESH then
        _ ← declare_mediator_liid_RMQ_queue known.(kn_liid);
        l' ← expire_liids l; mret ((k, known) :: l')
      else expire_liids l
  end.
Definition remove_expired_liid_queues : C unit :=
  c ← mget; l ← expire_liids c.(cr_known_liids); mmodify (λ c, set_cr_known_liids c l).

(** [process_received_data].  The new LIID stays in the table when its queues cannot be
    declared. *)
Definition process_received_data (msgbody : bytes) (msglen : Z) (msgtype : openli_proto_msgtype_t) : C Z :=
  '(liidstr, liidlen) ← mlift (extract_liid_from_exported_msg msgbody msglen 65536);
  if liidlen <=? 2 then mret 0 else
  let liidlen := liidlen - 2 in
  c ← mget;
  known ← (match hash_find liidstr c.(cr_known_liids) with
           | Some found => mret (Some found)
           | None =>
               let liid := until_nul liidstr in
               let found := Mkcol_known_liid_t liid (zlen liid) 0 in
               _ ← mmodify (λ c, set_cr_known_liids c (hash_add liid found c.(cr_known_liids)));
               r ← declare_mediator_liid_RMQ_queue liid;
               mret (if r <? 0 then None else Some found)
           end);
  match known with
  | None => mret (-1)
  | Some found =>
      let liid := found.(kn_liid) in
      _ ← mmodify (λ c, set_cr_known_liids c
                          (hash_update liid (Mkcol_known_liid_t liid found.(kn_liidlen) (u64 e.(ce_now))) c.(cr_known_liids)));
      let rest := zdrop (liidlen + 2) msgbody in
      let restlen := u16 (msglen - (liidlen + 2)) in
      match msgtype with
      | OPENLI_PROTO_ETSI_CC => publish_cc_on_mediator_liid_RMQ_queue rest restlen liid
      | OPENLI_PROTO_ETSI_IRI => publish_iri_on_mediator_liid_RMQ_queue rest restlen liid
      | OPENLI_PROTO_RAWIP_SYNC =>
          _ ← declare_mediator_rawip_RMQ_queue liid;
          publish_rawip_on_mediator_liid_RMQ_queue msgbody msglen liid
      | _ => mret 1
      end
  end.

(** The body of the loop of [receive_collector] for what was received: whether it ends
    with an error. *)
Definition handle_collector_message (t : Z) (msg : option received_t) : C bool :=
  if t <? 0 then mret true else
  if t =? OPENLI_PROTO_DISCONNECT then mret true else
  let process mt := match msg with
                    | None => mlift Undef
                    | Some m => r ← process_received_data m.(rm_mem) m.(rm_len) mt; mret (r <? 0)
                    end in
  if t =? OPENLI_PROTO_RAWIP_SYNC then process OPENLI_PROTO_RAWIP_SYNC
  else if t =? OPENLI_PROTO_ETSI_CC then process OPENLI_PROTO_ETSI_CC
  else if t =? OPENLI_PROTO_ETSI_IRI then process OPENLI_PROTO_ETSI_IRI
  else mret false.

(** [receive_collector] for the socket.  [total_recvd] counts the length of the last
    message again when there is none. *)
Fixpoint receive_collector (fuel : nat) (results : list recv_result) (msglen total_recvd : Z) : C Z :=
  match fuel with
  | O => mlift Undef
  | S fuel =>
      c ← mget;
      '(t, msg, nb, asked) ←
        mlift (receive_net_buffer realloc_ok c.(cr_incoming) (default RecvWouldBlock (head results)));
      _ ← mmodify (λ c, set_cr_incoming c nb);
      let msglen := match msg with Some m => m.(rm_len) | None => msglen end in
      failed ← handle_collector_message t msg;
      if failed : bool then mret (-1) else
      let total_recvd := total_recvd + msglen in
      if negb (t =? OPENLI_PROTO_NO_MESSAGE) && (total_recvd <? MAX_COLL_RECV)
      then receive_collector fuel (if asked : bool then tail results else results) msglen total_recvd
      else mret 0
  end.

(** The same for the queue on the collector; each call gets an answer of the broker, and
    when they are used up there is no message. *)
Fixpoint receive_collector_rmq (fuel : nat) (results : list (rmq_reply * bytes)) (msglen total_recvd : Z) : C Z :=
  match fuel with
  | O => mlift Undef
  | S fuel =>
      c ← mget;
      let '(reply, body) := default (RmqOtherFailure, []) (head results) in
      '(t, msg, nb) ← mlift (receive_RMQ_buffer realloc_ok c.(cr_incoming_rmq) reply body);
      _ ← mmodify (λ c, set_cr_incoming_rmq c nb);
      let msglen := match msg with Some m => m.(rm_len) | None => msglen end in
      failed ← handle_collector_message t msg;
      if failed : bool then mret (-1) else
      let total_recvd := total_recvd + msglen in
      if negb (t =? OPENLI_PROTO_NO_MESSAGE) && (total_recvd <? MAX_COLL_RECV)
      then receive_collector_rmq fuel (tail results) msglen total_recvd
      else mret 0
  end.

(** What [start_collector_thread] does after an error of an event: the connections are
    closed, and the thread waits for a message that the collector is back. *)
Definition collector_inactive : C unit :=
  mmodify (λ c, set_cr_was_dropped (set_cr_rmq_colev (set_cr_colev c false) false) true).
End coll.
