(* ===== verification/MedCollectorProps.v ===== *)
(** * Records reach the queues of the mediator

    Whatever the pieces in which the stream of a collector arrives, its thread asks the
    broker to publish every record once, in the order of the stream, in the queue of its
    LIID and kind ([collector_records_queued]). *)

From stdpp Require Import gmap.
From S2P Require Import Prelude ByteOrder Protocol Intercept NetBuffer NetDecode NetFormat NetStream Publish Radius HashTable SyncProvProps MedHandover MedCollector.

(** ** The stream of a collector *)

Inductive record_kind : Type := Kind_cc | Kind_iri | Kind_rawip.
Inductive coll_item : Type :=
  | Item_record (kind : record_kind) (intid : Z) (liid content : bytes)
  | Item_heartbeat (intid : Z).

Definition kind_msgtype (k : record_kind) : openli_proto_msgtype_t :=
  match k with Kind_cc => OPENLI_PROTO_ETSI_CC | Kind_iri => OPENLI_PROTO_ETSI_IRI | Kind_rawip => OPENLI_PROTO_RAWIP_SYNC end.
Definition record_body (liid content : bytes) : bytes := le_bytes 2 (htons (zlen liid)) ++ liid ++ content.
Definition item_frame (i : coll_item) : frame :=
  match i with
  | Item_record k intid liid content => Mkframe (msgtype_code (kind_msgtype k)) intid (record_body liid content)
  | Item_heartbeat intid => Mkframe (msgtype_code OPENLI_PROTO_HEARTBEAT) intid []
  end.
Definition item_ok (i : coll_item) : Prop :=
  match i with
  | Item_record _ intid liid content =>
      0 ≤ intid < 2 ^ 64 ∧ liid ≠ [] ∧ until_nul liid = liid ∧ zlen (record_body liid content) < 65536
  | Item_heartbeat intid => 0 ≤ intid < 2 ^ 64
  end.
(** Where an item goes. *)
Definition queued_as (i : coll_item) : list (Z * bytes * bytes) :=
  match i with
  | Item_record Kind_cc _ liid content => [(3, queue_name liid "cc", content)]
  | Item_record Kind_iri _ liid content => [(2, queue_name liid "iri", content)]
  | Item_record Kind_rawip _ liid content => [(4, queue_name liid "rawip", record_body liid content)]
  | Item_heartbeat _ => []
  end.
Definition publication (w : producer_event) : option (Z * bytes * bytes) :=
  match w.1 with Prod_publish channel queue body => Some (channel, queue, body) | Prod_declare _ _ => None end.

Lemma item_frame_ok i : item_ok i → frame_ok (item_frame i).
Proof.
  destruct i as [k intid liid content|intid]; cbn.
  - intros (Hi & _ & _ & Hl). split; cbn [fr_type fr_intid fr_body]; [by destruct k|by destruct k|done|done].
  - intros Hi. by split.
Qed.

(** ** One record *)

Lemma extract_liid_ok liid content rest :
  liid ≠ [] → zlen (record_body liid content) < 65536 →
  extract_liid_from_exported_msg (record_body liid content ++ rest) (zlen (record_body liid content)) 65536 =
  Ok (liid, zlen liid + 2).
Proof.
  intros Hne Hlen. unfold record_body in *. rewrite !zlen_app, zlen_le_bytes in Hlen.
  destruct (htons_reverses (zlen liid)) as (_ & Hinv & Hr); [zlen_pose; lia|].
  unfold extract_liid_from_exported_msg. rewrite <- !app_assoc, read_le_bytes by done. run_outcome. cbv zeta.
  change (ntohs (htons ?x)) with (htons (htons x)). rewrite Hinv.
  rewrite !zlen_app, zlen_le_bytes. zlen_pose.
  rewrite (proj2 (Z.ltb_ge _ (zlen liid))), (proj2 (Z.ltb_ge _ (zlen liid))) by lia.
  rewrite (zdrop_app 2) by by rewrite zlen_le_bytes. rewrite read_bytes_app by done. run_outcome.
  by rewrite u16_id by lia.
Qed.
Lemma record_rest liid content rest :
  zdrop (zlen liid + 2) (record_body liid content ++ rest) = content ++ rest.
Proof. unfold record_body. rewrite <- !app_assoc, app_assoc. apply zdrop_app. rewrite zlen_app, zlen_le_bytes. lia. Qed.

(** The entries of the table are under their own strings. *)
Definition known_ok (l : list (bytes * col_known_liid_t)) : Prop := Forall (λ e, e.2.(kn_liid) = e.1) l.
Lemma known_update liid known l :
  known.(kn_liid) = liid → known_ok l → known_ok (hash_update liid known l).
Proof.
  intros Hk Hl. unfold known_ok, hash_update. apply Forall_map. eapply Forall_impl; [exact Hl|].
  intros e He. by destruct (decide _).
Qed.

(** What happens to the state while records are handled. *)
Definition same_conns (c c' : coll_recv_t) : Prop :=
  c'.(cr_incoming) = c.(cr_incoming) ∧ c'.(cr_incoming_rmq) = c.(cr_incoming_rmq) ∧
  c'.(cr_colev) = c.(cr_colev) ∧ c'.(cr_amqp_producer_state) = c.(cr_amqp_producer_state) ∧
  (known_ok c.(cr_known_liids) → known_ok c'.(cr_known_liids)).
Lemma same_conns_refl c : same_conns c c.
Proof. by split_and!. Qed.
Lemma same_conns_trans c1 c2 c3 : same_conns c1 c2 → same_conns c2 c3 → same_conns c1 c3.
Proof. intros (? & ? & ? & ? & ?) (? & ? & ? & ? & ?). split_and!; [congruence..|auto]. Qed.

Section handled.
Context (realloc_ok : Z → bool) (e : coll_env).
Hypothesis declares : ∀ channel queue, e.(ce_amqp) (Prod_declare channel queue) = true.

Lemma ask_ok call c : ask_producer e call c = Ok (e.(ce_amqp) call, c, [(call, e.(ce_amqp) call)]).
Proof. done. Qed.
Lemma declare_liid_ok liid c :
  ∃ w, declare_mediator_liid_RMQ_queue e liid c = Ok (0, c, w) ∧ omap publication w = [].
Proof.
  unfold declare_mediator_liid_RMQ_queue. eexists. split.
  - eapply runs_bind; [apply ask_ok|]. rewrite declares. cbn [negb]. eapply runs_bind; [apply ask_ok|]. by rewrite declares.
  - done.
Qed.
Lemma produce_ok msg rest liid channel kind c :
  ∃ r w, 0 ≤ r ∧ produce_mediator_RMQ e (msg ++ rest) (zlen msg) liid channel kind c = Ok (r, c, w) ∧
    omap publication w = [(channel, queue_name liid kind, msg)].
Proof.
  eexists _, _. split; [|split].
  2: { unfold produce_mediator_RMQ. eapply runs_then; [unfold mlift; by rewrite read_bytes_app|].
       eapply runs_bind; [apply ask_ok|]. done. }
  - by destruct (e.(ce_amqp) _).
  - done.
Qed.

Lemma process_record_ok kind liid content rest c :
  item_ok (Item_record kind 0 liid content) → known_ok c.(cr_known_liids) →
  ∃ r c' w, 0 ≤ r ∧
    process_received_data e (record_body liid content ++ rest) (zlen (record_body liid content)) (kind_msgtype kind) c = Ok (r, c', w) ∧
    omap publication w = queued_as (Item_record kind 0 liid content) ∧ same_conns c c'.
Proof.
  intros (_ & Hne & Hnul & Hlen) Hk. unfold process_received_data.
  assert (Hz : 0 < zlen liid) by (destruct liid; [done|rewrite zlen_cons; zlen_pose; lia]).
  set (found := Mkcol_known_liid_t liid (zlen liid) 0).
  (* the LIID is known in the end *)
  assert (∃ known c1 w1, (match hash_find liid c.(cr_known_liids) with
           | Some found => mret (Some found)
           | None =>
               let liid := until_nul liid in
               let found := Mkcol_known_liid_t liid (zlen liid) 0 in
               _ ← mmodify (λ c, set_cr_known_liids c (hash_add liid found c.(cr_known_liids)));
               r ← declare_mediator_liid_RMQ_queue e liid;
               mret (if r <? 0 then None else Some found)
           end) c = Ok (Some known, c1, w1) ∧ omap publication w1 = [] ∧ known.(kn_liid) = liid ∧ same_conns c c1)
    as (known & c1 & w1 & E1 & W1 & K1 & S1).
  { destruct (hash_find liid c.(cr_known_liids)) as [known|] eqn:E.
    - exists known, c, []. split; [done|]. split; [done|]. split; [|apply same_conns_refl].
      apply hash_find_In in E. exact (proj1 (Forall_forall _ _) Hk _ E).
    - cbv zeta. rewrite Hnul. fold found. destruct (declare_liid_ok liid (set_cr_known_liids c (hash_add liid found c.(cr_known_liids)))) as (w & Ew & Hw).
      eexists found, _, w. split; [eapply runs_then; [done|]; replace w with (w ++ []) by apply app_nil_r; eapply runs_bind; [exact Ew|done]|].
      split; [done|]. split; [done|]. split_and!; try done. intros Hl. apply Forall_app. by split; [|repeat constructor]. }
  assert (S2 : ∀ known', known'.(kn_liid) = liid →
    same_conns c (set_cr_known_liids c1 (hash_update liid known' c1.(cr_known_liids)))).
  { intros known' Hkn. eapply same_conns_trans; [exact S1|]. split_and!; try done. intros. by apply known_update. }
  set (c2 := set_cr_known_liids c1 (hash_update liid (Mkcol_known_liid_t liid known.(kn_liidlen) (u64 e.(ce_now))) c1.(cr_known_liids))).
  specialize (S2 (Mkcol_known_liid_t liid known.(kn_liidlen) (u64 e.(ce_now))) eq_refl). fold c2 in S2.
  assert (Hu : u16 (zlen (record_body liid content) - (zlen liid + 2)) = zlen content).
  { unfold record_body in *. rewrite !zlen_app, zlen_le_bytes in *. rewrite u16_id; zlen_pose; lia. }
  enough (∃ r w2, 0 ≤ r ∧ (match kind_msgtype kind with
      | OPENLI_PROTO_ETSI_CC => publish_cc_on_mediator_liid_RMQ_queue e (content ++ rest) (zlen content) liid
      | OPENLI_PROTO_ETSI_IRI => publish_iri_on_mediator_liid_RMQ_queue e (content ++ rest) (zlen content) liid
      | OPENLI_PROTO_RAWIP_SYNC =>
          _ ← declare_mediator_rawip_RMQ_queue e liid;
          publish_rawip_on_mediator_liid_RMQ_queue e (record_body liid content ++ rest) (zlen (record_body liid content)) liid
      | _ => mret 1
      end) c2 = Ok (r, c2, w2) ∧ omap publication w2 = queued_as (Item_record kind 0 liid content)) as (r & w2 & Hr & E2 & W2).
  { exists r, c2, (w1 ++ w2). split; [done|]. split; [|split; [by rewrite omap_app, W1, W2|done]].
    eapply runs_then; [unfold mlift; by rewrite extract_liid_ok|]. cbv beta iota.
    rewrite (proj2 (Z.leb_gt _ _)) by lia. cbv zeta. replace (zlen liid + 2 - 2) with (zlen liid) by lia.
    eapply runs_then; [done|]. eapply runs_bind; [exact E1|]. cbv beta iota zeta. rewrite K1. eapply runs_then; [done|].
    rewrite record_rest, Hu. exact E2. }
  destruct kind; cbn [kind_msgtype queued_as].
  - apply produce_ok.
  - apply produce_ok.
  - destruct (produce_ok (record_body liid content) rest liid 4 "rawip" c2) as (r & w & Hr & E & W).
    exists r. eexists. split; [done|]. split; [eapply runs_bind; [unfold declare_mediator_rawip_RMQ_queue; eapply runs_bind; [apply ask_ok|done]|exact E]|].
    by rewrite omap_app, W.
Qed.

(** ** The stream *)

Lemma handle_item_ok i rest c :
  item_ok i → known_ok c.(cr_known_liids) →
  ∃ c' w, handle_collector_message e (item_frame i).(fr_type) (Some (frame_message (item_frame i) rest)) c = Ok (false, c', w) ∧
    omap publication w = queued_as i ∧ same_conns c c'.
Proof.
  intros Hi Hk. destruct i as [k intid liid content|intid]; [|by exists c, []; split_and!; [|..|apply same_conns_refl]].
  destruct (process_record_ok k liid content rest c) as (r & c' & w & Hr & E & W & S); [by destruct Hi|done|].
  exists c', (w ++ []). split; [|by rewrite app_nil_r].
  assert (Hp : (r ← process_received_data e (record_body liid content ++ rest) (zlen (record_body liid content)) (kind_msgtype k);
      mret (r <? 0)) c = Ok (false, c', w ++ [])).
  { eapply runs_bind; [exact E|]. by rewrite (proj2 (Z.ltb_ge _ _) Hr). }
  destruct k; exact Hp.
Qed.

Definition items_size (l : list coll_item) : Z := foldr (λ i n, zlen (item_frame i).(fr_body) + n) 0 l.

(** A thread whose buffer holds [p]. *)
Definition coll_holds (p : bytes) (c : coll_recv_t) : Prop :=
  (∃ nb, c.(cr_incoming) = Some nb ∧ recv_state p nb) ∧ known_ok c.(cr_known_liids).
Lemma coll_holds_same p c c' : coll_holds p c → same_conns c c' → coll_holds p c'.
Proof. intros [(nb & E & Hs) Hk] (E' & _ & _ & _ & Hk'). split; [exists nb; by rewrite E'|auto]. Qed.

Hypothesis grants : ∀ n, n ≤ 5 * NETBUF_ALLOC_SIZE → realloc_ok n = true.

(** What a run of [receive_collector] leaves. *)
Definition records_handled (items : list coll_item) (chunks : list bytes) (future : bytes) (total : Z)
    (w : list producer_event) (c' : coll_recv_t) : Prop :=
  ∃ now later p' rest, items = now ++ later ∧ omap publication w = concat (queued_as <$> now) ∧
    coll_holds p' c' ∧ rest `suffix_of` chunks ∧ p' ++ concat rest ++ future = stream_bytes (item_frame <$> later) ∧
    (waiting p' ∨ MAX_COLL_RECV ≤ total + items_size now).

Lemma receive_collector_ok fuel : ∀ items chunks p future c msglen total,
  coll_holds p c → Forall item_ok items → Forall chunk_ok chunks →
  p ++ concat chunks ++ future = stream_bytes (item_frame <$> items) → (length items < fuel)%nat →
  ∃ c' w, receive_collector realloc_ok e fuel (Received <$> chunks) msglen total c = Ok (0, c', w) ∧
    records_handled items chunks future total w c'.
Proof.
  induction fuel as [|fuel IH]; intros items chunks p future c msglen total Hc Hitems Hch Heq Hfuel; [lia|].
  destruct Hc as [(nb & Enb & Hs) Hk].
  (* a frame has been read *)
  assert (Hframe : ∀ i items' p' asked nb' chunks' msg, items = i :: items' →
    receive_net_buffer realloc_ok (Some nb) (default RecvWouldBlock (head (Received <$> chunks))) =
      Ok ((item_frame i).(fr_type), Some (frame_message (item_frame i) msg), Some nb', asked) →
    recv_state p' nb' → (if asked then tail chunks else chunks) = chunks' →
    p' ++ concat chunks' ++ future = stream_bytes (item_frame <$> items') →
    ∃ c' w, receive_collector realloc_ok e (S fuel) (Received <$> chunks) msglen total c = Ok (0, c', w) ∧ records_handled items chunks future total w c').
  { intros i items' p' asked nb' chunks' msg -> Er Hs' Ech Heq'. apply Forall_cons in Hitems as [Hi Hitems'].
    set (c1 := set_cr_incoming c (Some nb')).
    assert (H1 : coll_holds p' c1) by (split; [by exists nb'|exact Hk]).
    destruct (handle_item_ok i msg c1 Hi Hk) as (c2 & w2 & E2 & W2 & S2).
    assert (H2 : coll_holds p' c2) by by eapply coll_holds_same.
    assert (Hsuf : chunks' `suffix_of` chunks) by (subst chunks'; destruct asked, chunks; try done; by apply suffix_cons_r).
    assert (Hty : negb ((item_frame i).(fr_type) =? OPENLI_PROTO_NO_MESSAGE) = true).
    { apply negb_true_iff, Z.eqb_neq. apply (fr_ok_message _ (item_frame_ok i Hi)). }
    set (len := zlen (item_frame i).(fr_body)).
    destruct (total + len <? MAX_COLL_RECV) eqn:Hmax.
    - destruct (IH items' chunks' p' future c2 len (total + len)) as (c3 & w3 & E3 & now & later & p3 & rest & -> & W3 & H3 & Hsuf3 & Heq3 & Hend);
        [done|done|subst chunks'; destruct asked; [by apply Forall_tail|done]|done|simpl in Hfuel; lia|].
      exists c3, (w2 ++ w3). split.
      + cbn [receive_collector]. eapply runs_then; [done|]. rewrite Enb. eapply runs_then; [unfold mlift; by rewrite Er|].
        eapply runs_then; [done|]. cbv zeta. eapply runs_bind; [exact E2|]. cbn [frame_message rm_len]. fold len.
        rewrite Hty, Hmax. cbn [andb].
        replace (if asked then tail (Received <$> chunks) else Received <$> chunks) with (Received <$> chunks')
          by (subst chunks'; by destruct asked, chunks). exact E3.
      + exists (i :: now), later, p3, rest. split; [done|]. split; [by rewrite omap_app, W2, W3|]. split; [done|].
        split; [by etrans|]. split; [done|]. destruct Hend as [|Hend]; [by left|right]. cbn [items_size foldr]. fold (items_size now) len. lia.
    - exists c2, (w2 ++ []). split.
      + cbn [receive_collector]. eapply runs_then; [done|]. rewrite Enb. eapply runs_then; [unfold mlift; by rewrite Er|].
        eapply runs_then; [done|]. cbv zeta. eapply runs_bind; [exact E2|]. cbn [frame_message rm_len]. fold len.
        rewrite Hty, Hmax. done.
      + exists [i], items', p', chunks'. split; [done|]. split; [rewrite app_nil_r, W2; simpl; by rewrite app_nil_r|].
        split; [done|]. split; [done|]. split; [done|]. right. cbn [items_size foldr]. fold len. apply Z.ltb_ge in Hmax. lia. }
  (* there is no more *)
  assert (Hnone : ∀ p' asked nb' chunks',
    receive_net_buffer realloc_ok (Some nb) (default RecvWouldBlock (head (Received <$> chunks))) =
      Ok (msgtype_code OPENLI_PROTO_NO_MESSAGE, None, Some nb', asked) →
    recv_state p' nb' → (if asked then tail chunks else chunks) = chunks' → waiting p' →
    p' ++ concat chunks' ++ future = stream_bytes (item_frame <$> items) →
    ∃ c' w, receive_collector realloc_ok e (S fuel) (Received <$> chunks) msglen total c = Ok (0, c', w) ∧ records_handled items chunks future total w c').
  { intros p' asked nb' chunks' Er Hs' Ech Hw Heq'. exists (set_cr_incoming c (Some nb')), []. split.
    - cbn [receive_collector]. eapply runs_then; [done|]. rewrite Enb. eapply runs_then; [unfold mlift; by rewrite Er|].
      eapply runs_then; [done|]. cbv zeta. eapply runs_then; [by unfold handle_collector_message|]. done.
    - exists [], items, p', chunks'. split; [done|]. split; [done|]. split; [split; [by exists nb'|done]|].
      split; [subst chunks'; destruct asked, chunks; try done; by apply suffix_cons_r|]. split; [done|by left]. }
  destruct (stream_split _ _ _ Heq) as [(Hnil & -> & Hq)|(f & fs' & Hf & Hcase)].
  - apply app_nil in Hq as [Hcat ->]. destruct chunks as [|ch cs].
    2: { exfalso. apply Forall_cons in Hch as [[H0 _] _]. apply app_nil in Hcat as [-> _]. done. }
    destruct (receive_reads realloc_ok grants [] nb RecvWouldBlock Hs) as (nb2 & Hs2 & _ & Er); [by left|].
    by eapply (Hnone [] true nb2 []); [exact Er|done|done|left|].
  - destruct items as [|i items]; [done|]. rewrite fmap_cons in Hf. injection Hf as <- <-.
    assert (Hi : item_ok i) by by apply Forall_cons in Hitems as [? _]. pose proof (item_frame_ok i Hi) as Hfok.
    destruct Hcase as [(p' & -> & Hp')|[Hpre Hlt]].
    + destruct (receive_buffered realloc_ok nb (item_frame i) p' (default RecvWouldBlock (head (Received <$> chunks))) Hs Hfok) as (nb' & Er & Hs').
      by eapply (Hframe i items p' false nb' chunks p').
    + assert (Hwait : waiting p) by (right; by exists (item_frame i)).
      destruct chunks as [|ch cs].
      { destruct (receive_reads realloc_ok grants p nb RecvWouldBlock Hs Hwait) as (nb2 & Hs2 & _ & Er).
        by eapply (Hnone p true nb2 []). }
      apply Forall_cons in Hch as [[Hc0 Hc1] Hch'].
      destruct (receive_reads realloc_ok grants p nb (Received ch) Hs Hwait) as (nb2 & Hs2 & Hsp & Er).
      rewrite (proj2 (Z.ltb_ge _ _)) in Er by lia. pose proof (read_state p ch nb2 Hs2 ltac:(lia)) as Hs3.
      cbn [concat] in Heq. rewrite <- app_assoc, app_assoc in Heq.
      destruct (stream_split _ _ _ Heq) as [(? & _)|(g & gs & Hg & Hcase)]; [done|].
      rewrite fmap_cons in Hg. injection Hg as <- <-. destruct Hcase as [(p' & Hp & Hp')|[Hpre' Hlt']].
      * rewrite Hp in Hs3. destruct (parse_state _ (item_frame i) p' Hs3 Hfok) as (nb' & Ep & Hs'). rewrite Ep in Er.
        by eapply (Hframe i items p' true nb' cs p').
      * assert (Hwait' : waiting (p ++ ch)) by (right; by exists (item_frame i)).
        rewrite (parse_waiting _ _ Hs3 Hwait') in Er. eapply (Hnone (p ++ ch) true _ cs); [exact Er|done|done|done|].
        by rewrite fmap_cons.
Qed.
End handled.

(** * Theorems *)

(** C9: One call of [receive_collector], however the stream of the collector is cut into
    pieces, handles a beginning of it: the broker is asked to publish each of its records
    exactly once, in order, in the queue of its LIID and kind and without the LIID, whether
    it accepts them or not.  The rest of the stream is still in the buffer or in the
    socket, and the call ends only at its limit of bytes or when the buffer holds no whole
    record. *)
Theorem collector_records_queued realloc_ok e items chunks future p c fuel :
  (∀ n, n ≤ 5 * NETBUF_ALLOC_SIZE → realloc_ok n = true) →
  (∀ channel queue, e.(ce_amqp) (Prod_declare channel queue) = true) →
  coll_holds p c → Forall item_ok items → Forall chunk_ok chunks →
  p ++ concat chunks ++ future = stream_bytes (item_frame <$> items) → (length items < fuel)%nat →
  ∃ c' w, receive_collector realloc_ok e fuel (Received <$> chunks) 0 0 c = Ok (0, c', w) ∧
    ∃ now later p' rest, items = now ++ later ∧ omap publication w = concat (queued_as <$> now) ∧
      coll_holds p' c' ∧ rest `suffix_of` chunks ∧ p' ++ concat rest ++ future = stream_bytes (item_frame <$> later) ∧
      (waiting p' ∨ MAX_COLL_RECV ≤ items_size now).
Proof. intros Hg Hd. by apply receive_collector_ok. Qed.

(** A refused declaration: the record is dropped and the collector with it, but the LIID
    counts as known, so its queues are not declared for the next record either. *)
Lemma refused_queue_never_declared e kind liid content rest c :
  item_ok (Item_record kind 0 liid content) → hash_find liid c.(cr_known_liids) = None →
  e.(ce_amqp) (Prod_declare 2 (queue_name liid "iri")) = false →
  let known := Mkcol_known_liid_t liid (zlen liid) 0 in
  process_received_data e (record_body liid content ++ rest) (zlen (record_body liid content)) (kind_msgtype kind) c =
  Ok (-1, set_cr_known_liids c (hash_add liid known c.(cr_known_liids)), [(Prod_declare 2 (queue_name liid "iri"), false)]).
Proof.
  intros (_ & Hne & Hnul & Hlen) Hnew Href known. unfold process_received_data.
  eapply runs_then; [unfold mlift; by rewrite extract_liid_ok|]. cbv beta iota.
  assert (0 < zlen liid) by (destruct liid; [done|rewrite zlen_cons; zlen_pose; lia]).
  rewrite (proj2 (Z.leb_gt _ _)) by lia. cbv zeta. eapply runs_then; [done|]. rewrite Hnew, Hnul. fold known.
  unfold declare_mediator_liid_RMQ_queue, ask_producer, mbind, MW_bind, mmodify, mtell, mret, MW_ret. cbv beta iota zeta.
  rewrite Href. done.
Qed.

(** * An example *)

Definition sample_items : list coll_item :=
  [Item_record Kind_cc 7 (of_string "LIID001") (of_string "content"); Item_heartbeat 0;
   Item_record Kind_iri 8 (of_string "LIID002") (of_string "report")].
Definition sample_coll : coll_recv_t :=
  Mkcoll_recv_t true false false false true (Some (create_net_buffer NETBUF_RECV 7 false)) None [].
Definition accepting : coll_env := Mkcoll_env 1750000000 [] [] (λ _, true).
Definition sample_stream : bytes := stream_bytes (item_frame <$> sample_items).
(** The stream in two pieces and what is still to come. *)
Definition sample_chunks : list bytes := [ztake 20 sample_stream; ztake 50 (zdrop 20 sample_stream)].
Lemma collector_records_queued_witness :
  ∃ c' w, receive_collector (λ _, true) accepting 4 (Received <$> sample_chunks) 0 0 sample_coll = Ok (0, c', w) ∧
    ∃ now later p' rest, sample_items = now ++ later ∧ omap publication w = concat (queued_as <$> now) ∧
      coll_holds p' c' ∧ rest `suffix_of` sample_chunks ∧
      p' ++ concat rest ++ zdrop 70 sample_stream = stream_bytes (item_frame <$> later) ∧
      (waiting p' ∨ MAX_COLL_RECV ≤ items_size now).
Proof.
  apply (collector_records_queued (λ _, true) accepting sample_items sample_chunks (zdrop 70 sample_stream) [] sample_coll 4).
  - done.
  - done.
  - split; [exists (create_net_buffer NETBUF_RECV 7 false); split; [done|apply create_recv_state]|apply Forall_nil; exact I].
  - repeat (apply Forall_cons; split; [by vm_compute|]). by apply Forall_nil.
  - repeat (apply Forall_cons; split; [by vm_compute|]). by apply Forall_nil.
  - vm_compute. reflexivity.
  - apply (bool_decide_unpack _). vm_compute. exact I.
Defined.
(** The whole stream in one piece. *)
Example sample_records_run :
  (λ r : Z * coll_recv_t * list producer_event, omap publication r.2) <$>
    receive_collector (λ _, true) accepting 4 [Received sample_stream] 0 0 sample_coll =
  Ok [(3, of_string "LIID001-cc", of_string "content"); (2, of_string "LIID002-iri", of_string "report")].
Proof. vm_compute. reflexivity. Qed.
