(* ===== verification/MedOutlet.v ===== *)
(** * What a handover does to the outside

    The specification of a handover is an outlet: a queue of items to be sent, of which the
    first few are a batch of which a part has been sent.  When the connection is lost the
    batch is sent again.  The broker may only be told that messages have arrived when the
    queue is empty.

    The events of a handover determine what each connection carried and what the broker
    has delivered.  In any run of an outlet each connection carries whole items, apart from
    its end, and before an acknowledgement all messages that were delivered since the
    broker was last left were sent whole ([outlet_connections], [outlet_acknowledged]). *)

From stdpp Require Import gmap.
From S2P Require Import Prelude Libraries ByteOrder Protocol Intercept NetBuffer ExportBuffer Publish Radius HashTable MedHandover.

(** ** Labelled runs *)

Inductive runs {G W : Type} (step : G → W → G → Prop) : G → list W → G → Prop :=
  | runs_nil g : runs step g [] g
  | runs_cons g w g' l g'' : step g w g' → runs step g' l g'' → runs step g (w :: l) g''.
Lemma runs_app {G W} (step : G → W → G → Prop) g l g' l' g'' :
  runs step g l g' → runs step g' l' g'' → runs step g (l ++ l') g''.
Proof. induction 1; [done|]. intros. eapply runs_cons; eauto. Qed.
Lemma runs_app_inv {G W} (step : G → W → G → Prop) l l' g g'' :
  runs step g (l ++ l') g'' → ∃ g', runs step g l g' ∧ runs step g' l' g''.
Proof.
  revert g. induction l as [|w l IH]; intros g; [by exists g; split; [constructor|]|].
  inversion 1 as [|? ? g' ? ? Hs Hr]; subst. destruct (IH _ Hr) as (g2 & ? & ?). exists g2.
  split; [by eapply runs_cons|done].
Qed.
Lemma runs_one {G W} (step : G → W → G → Prop) g w g' : step g w g' → runs step g [w] g'.
Proof. intros. eapply runs_cons; [done|constructor]. Qed.

(** ** Outlets *)

Record outlet : Type := Mkoutlet {
  ou_open : bool;
  ou_batch : list bytes;
  ou_off : Z;               (* how much of the batch has been sent *)
  ou_rest : list bytes;
  ou_last : option Z;       (* the last message since the broker was left *)
}.
(** A new batch is all that is there. *)
Definition begin_batch (batch rest : list bytes) : list bytes * list bytes :=
  match batch with [] => (rest, []) | _ => (batch, rest) end.
Definition is_ack (c : amqp_call) : Prop := match c with Amqp_ack _ _ => True | _ => False end.

Section outlet.
(** What can be sent between items. *)
Context (is_keepalive : bytes → Prop).

Inductive outlet_step : outlet → ho_event → outlet → Prop :=
  | Out_connected fd rest last :
      outlet_step (Mkoutlet false [] 0 rest last) (Ho_connected fd) (Mkoutlet true [] 0 rest last)
  | Out_closed batch off rest last :
      outlet_step (Mkoutlet true batch off rest last) Ho_closed (Mkoutlet false [] 0 (batch ++ rest) last)
  | Out_keepalive batch rest last ka :
      is_keepalive ka →
      outlet_step (Mkoutlet true batch 0 rest last) (Ho_sent ka) (Mkoutlet true batch 0 rest last)
  | Out_part batch off rest last q later out more :
      begin_batch batch rest = (q, later) → out ++ more = zdrop off (concat q) →
      outlet_step (Mkoutlet true batch off rest last) (Ho_sent out) (Mkoutlet true q (off + zlen out) later last)
  | Out_whole batch off rest last q later out :
      begin_batch batch rest = (q, later) → out = zdrop off (concat q) →
      outlet_step (Mkoutlet true batch off rest last) (Ho_sent out) (Mkoutlet true [] 0 later last)
  | Out_joined open batch off rest last :
      outlet_step (Mkoutlet open batch off rest last) Ho_joined (Mkoutlet open batch off rest last)
  | Out_left open batch off rest last :
      outlet_step (Mkoutlet open batch off rest last) Ho_left (Mkoutlet open batch off rest None)
  | Out_delivered open batch off rest last tag body :
      outlet_step (Mkoutlet open batch off rest last) (Ho_delivered tag body) (Mkoutlet open batch off (rest ++ [body]) (Some tag))
  | Out_notified open batch off rest last body :
      outlet_step (Mkoutlet open batch off rest last) (Ho_notified body) (Mkoutlet open batch off (rest ++ [body]) last)
  | Out_acknowledged open channel tag ok :
      outlet_step (Mkoutlet open [] 0 [] (Some tag)) (Ho_asked (Amqp_ack channel tag) ok) (Mkoutlet open [] 0 [] (Some tag))
  | Out_asked o c ok : ¬ is_ack c → outlet_step o (Ho_asked c ok) o.
End outlet.

(** ** What the events say *)

(** What the connections carried, the last one first. *)
Definition connection_event (ev : ho_event) (l : list bytes) : list bytes :=
  match ev with
  | Ho_connected _ => [] :: l
  | Ho_sent bs => match l with c :: l => (c ++ bs) :: l | [] => [bs] end
  | _ => l
  end.
Definition connections (w : list ho_event) : list bytes := foldl (flip connection_event) [] w.
(** The messages that were delivered since the connection to the broker was last left, with the
    last tag. *)
Definition delivery_event (ev : ho_event) (d : list bytes * option Z) : list bytes * option Z :=
  match ev with
  | Ho_left => ([], None)
  | Ho_delivered tag body => (d.1 ++ [body], Some tag)
  | _ => d
  end.
Definition deliveries (w : list ho_event) : list bytes * option Z := foldl (flip delivery_event) ([], None) w.
(** The items that were to be sent. *)
Definition item_event (ev : ho_event) : list bytes :=
  match ev with Ho_delivered _ body | Ho_notified body => [body] | _ => [] end.
Definition items (w : list ho_event) : list bytes := w ≫= item_event.

(** A connection that carried [sent] and then perhaps a part of further items. *)
Definition carried (P : bytes → Prop) (c : bytes) (sent : list bytes) : Prop :=
  ∃ part more, c = concat sent ++ part ∧ part `prefix_of` concat more ∧ Forall P (sent ++ more).

Lemma connections_snoc w ev : connections (w ++ [ev]) = connection_event ev (connections w).
Proof. unfold connections. by rewrite foldl_app. Qed.
Lemma deliveries_snoc w ev : deliveries (w ++ [ev]) = delivery_event ev (deliveries w).
Proof. unfold deliveries. by rewrite foldl_app. Qed.
Lemma items_snoc w ev : items (w ++ [ev]) = items w ++ item_event ev.
Proof. unfold items. rewrite bind_app. cbn. by rewrite app_nil_r. Qed.

Lemma Forall_sublist {A} (P : A → Prop) l k : l `sublist_of` k → Forall P k → Forall P l.
Proof. induction 1; rewrite ?Forall_cons; naive_solver. Qed.

(** ** Outlets send what is delivered *)

Section runs.
Context (is_keepalive : bytes → Prop).
Definition sendable (w : list ho_event) (x : bytes) : Prop := is_keepalive x ∨ x ∈ items w.
Definition fresh_outlet : outlet := Mkoutlet false [] 0 [] None.

(** What an outlet is after the events [w]: the connections carried [sent], the last one
    first; what was delivered since the join is in these and in the queue. *)
Record outlet_after (w : list ho_event) (o : outlet) (sent : list (list bytes)) : Prop := {
  oa_past : Forall2 (carried (sendable w)) (connections w) sent;
  oa_open : o.(ou_open) = true → ∃ c past s spast,
    connections w = c :: past ∧ sent = s :: spast ∧
    c = concat s ++ ztake o.(ou_off) (concat o.(ou_batch));
  oa_queue : Forall (λ x, x ∈ items w) (o.(ou_batch) ++ o.(ou_rest));
  oa_sent : ∃ d1 d2, (deliveries w).1 = d1 ++ d2 ∧ d1 `sublist_of` concat (rev sent) ∧
    d2 `sublist_of` o.(ou_batch) ++ o.(ou_rest);
  oa_last : o.(ou_last) = (deliveries w).2;
  oa_idle : o.(ou_batch) = [] → o.(ou_off) = 0;
  oa_off : 0 ≤ o.(ou_off);
}.

Lemma carried_mono (P Q : bytes → Prop) c s : (∀ x, P x → Q x) → carried P c s → carried Q c s.
Proof. intros HPQ (part & more & -> & Hp & HP). exists part, more. split_and!; [done..|]. by eapply Forall_impl. Qed.
Lemma sendable_snoc w ev x : sendable w x → sendable (w ++ [ev]) x.
Proof. unfold sendable. rewrite items_snoc, elem_of_app. tauto. Qed.
Lemma past_snoc w ev l s :
  Forall2 (carried (sendable w)) l s → Forall2 (carried (sendable (w ++ [ev]))) l s.
Proof. intros H. eapply Forall2_impl; [exact H|]. intros c x. apply carried_mono. intros y. apply sendable_snoc. Qed.
Lemma queue_snoc w ev l : Forall (λ x, x ∈ items w) l → Forall (λ x, x ∈ items (w ++ [ev])) l.
Proof. intros H. eapply Forall_impl; [exact H|]. intros x. cbv beta. rewrite items_snoc, elem_of_app. tauto. Qed.

Lemma begin_batch_app batch rest q later : begin_batch batch rest = (q, later) → batch ++ rest = q ++ later.
Proof. destruct batch; cbn; intros [= <- <-]; [by rewrite app_nil_r|done]. Qed.
Lemma begin_batch_ztake batch rest q later off :
  begin_batch batch rest = (q, later) → (batch = [] → off = 0) → ztake off (concat batch) = ztake off (concat q).
Proof. destruct batch; cbn; intros [= <- <-] H; [by rewrite H|done]. Qed.
Lemma ztake_prefix {A} n (l : list A) : ztake n l `prefix_of` l.
Proof. exists (zdrop n l). by rewrite ztake_zdrop. Qed.
Lemma sendable_queue w l : Forall (λ x, x ∈ items w) l → Forall (sendable w) l.
Proof. intros H. eapply Forall_impl; [exact H|]. by right. Qed.
(** The last connection has carried more. *)
Lemma carried_now w batch off sent : Forall (λ x, x ∈ items w) batch → Forall (sendable w) sent →
  carried (sendable w) (concat sent ++ ztake off (concat batch)) sent.
Proof.
  intros Hb Hs. exists (ztake off (concat batch)), batch. split; [done|]. split; [apply ztake_prefix|].
  apply Forall_app. split; [done|]. by apply sendable_queue.
Qed.
Lemma carried_sent P c sent : carried P c sent → Forall P sent.
Proof. intros (? & ? & _ & _ & H). by apply Forall_app in H as [? _]. Qed.
End runs.

Section steps.
Context (is_keepalive : bytes → Prop).
Abbreviation after := (outlet_after is_keepalive).

Lemma fresh_after : after [] fresh_outlet [].
Proof. split; try done. exists [], []. by split_and!. Qed.

(** Events that concern neither the connection nor the queue. *)
Lemma after_other w o sent ev d :
  after w o sent → connection_event ev (connections w) = connections w → item_event ev = [] →
  deliveries (w ++ [ev]) = d → d = deliveries w ∨ d = ([], None) →
  after (w ++ [ev]) (Mkoutlet o.(ou_open) o.(ou_batch) o.(ou_off) o.(ou_rest) d.2) sent.
Proof.
  intros [Hp Ho Hq Hs Hl Hi H0] Hc Hit Hd Hcase. split; cbn [ou_open ou_batch ou_off ou_rest ou_last].
  - rewrite connections_snoc, Hc. by apply past_snoc.
  - by rewrite connections_snoc, Hc.
  - by apply queue_snoc.
  - rewrite Hd. destruct Hcase as [-> | ->]; [done|]. exists [], []. by split_and!; [|apply sublist_nil_l..].
  - by rewrite Hd.
  - done.
  - done.
Qed.
(** An item that joins the queue. *)
Lemma after_queued w o sent ev body :
  after w o sent → item_event ev = [body] → connection_event ev (connections w) = connections w →
  deliveries (w ++ [ev]) = deliveries w ∨ (∃ tag, deliveries (w ++ [ev]) = ((deliveries w).1 ++ [body], Some tag)) →
  after (w ++ [ev]) (Mkoutlet o.(ou_open) o.(ou_batch) o.(ou_off) (o.(ou_rest) ++ [body]) (deliveries (w ++ [ev])).2) sent.
Proof.
  intros [Hp Ho Hq (d1 & d2 & Ed & Hd1 & Hd2) Hl Hi H0] Hit Hc Hcase. split; cbn [ou_open ou_batch ou_off ou_rest ou_last].
  - rewrite connections_snoc, Hc. by apply past_snoc.
  - by rewrite connections_snoc, Hc.
  - rewrite app_assoc. apply Forall_app. split; [by apply queue_snoc|]. repeat constructor.
    rewrite items_snoc, Hit. set_solver.
  - rewrite app_assoc. destruct Hcase as [-> | (tag & ->)].
    + exists d1, d2. split_and!; [done..|]. rewrite Hd2. by apply sublist_inserts_r.
    + exists d1, (d2 ++ [body]). cbn [fst]. rewrite Ed, app_assoc. split_and!; [done..|]. by apply sublist_app.
  - done.
  - done.
  - done.
Qed.
(** The connection carries [out]; then what it has carried as a whole is [s ++ more]. *)
Lemma after_sent w batch off rest last sent out q later moved o' :
  after w (Mkoutlet true batch off rest last) sent →
  begin_batch batch rest = (q, later) →
  Forall (sendable is_keepalive w) moved →
  (∀ c s, c = concat s ++ ztake off (concat q) →
     c ++ out = concat (s ++ moved) ++ ztake o'.(ou_off) (concat o'.(ou_batch))) →
  o'.(ou_open) = true → o'.(ou_last) = last → (o'.(ou_batch) = [] → o'.(ou_off) = 0) → 0 ≤ o'.(ou_off) →
  o'.(ou_batch) ++ o'.(ou_rest) `sublist_of` q ++ later →
  (∀ d2, d2 `sublist_of` q ++ later → ∃ d d', d2 = d ++ d' ∧ d `sublist_of` moved ∧ d' `sublist_of` o'.(ou_batch) ++ o'.(ou_rest)) →
  ∃ sent', after (w ++ [Ho_sent out]) o' sent'.
Proof.
  intros [Hp Ho Hq (d1 & d2 & Ed & Hd1 & Hd2) Hl Hi H0] Hb Hm Hc Hopen Hlast Hidle Hoff Hsub Hsplit.
  cbn [ou_open ou_batch ou_off ou_rest ou_last] in *. destruct (Ho eq_refl) as (c & past & s & spast & Ec & -> & Es).
  rewrite (begin_batch_ztake _ _ _ _ _ Hb Hi) in Es. specialize (Hc c s Es).
  rewrite Ec in Hp. apply Forall2_cons in Hp as [Hcc Hpast].
  assert (Hq' : Forall (λ x, x ∈ items (w ++ [Ho_sent out])) (o'.(ou_batch) ++ o'.(ou_rest))).
  { eapply Forall_sublist; [exact Hsub|]. rewrite <- (begin_batch_app _ _ _ _ Hb). by apply queue_snoc. }
  assert (Hconn : connections (w ++ [Ho_sent out]) = (c ++ out) :: past) by by rewrite connections_snoc, Ec.
  exists ((s ++ moved) :: spast). split.
  - rewrite Hconn. apply Forall2_cons. split; [|by apply past_snoc]. rewrite Hc. apply carried_now.
    + by apply Forall_app in Hq' as [? _].
    + apply Forall_app. split; [apply carried_sent in Hcc|]; (eapply Forall_impl; [eassumption|]; intros; by apply sendable_snoc).
  - intros _. exists (c ++ out), past, (s ++ moved), spast. by split_and!.
  - done.
  - rewrite deliveries_snoc. cbn [delivery_event].
    destruct (Hsplit d2) as (d & d' & -> & Hd & Hd'); [by rewrite <- (begin_batch_app _ _ _ _ Hb)|].
    exists (d1 ++ d), d'. rewrite Ed, app_assoc. split_and!; [done| |done].
    cbn [rev] in *. rewrite concat_app in *. cbn [concat] in *. rewrite app_nil_r in *.
    rewrite app_assoc. by apply sublist_app.
  - rewrite deliveries_snoc, Hlast. done.
  - done.
  - done.
Qed.

Lemma after_asked w o sent c ok : after w o sent → after (w ++ [Ho_asked c ok]) o sent.
Proof.
  intros H. pose proof (oa_last _ _ _ _ H) as Hl.
  pose proof (after_other w o sent (Ho_asked c ok) (deliveries w) H eq_refl eq_refl) as Ha.
  rewrite <- Hl in Ha. destruct o. apply Ha; [by rewrite deliveries_snoc|by left].
Qed.

Lemma after_opened w fd rest last sent :
  after w (Mkoutlet false [] 0 rest last) sent → ∃ sent', after (w ++ [Ho_connected fd]) (Mkoutlet true [] 0 rest last) sent'.
Proof.
  intros Hw.
  destruct Hw as [Hp Ho Hq (d1 & d2 & Ed & Hd1 & Hd2) Hl Hi H0]. exists ([] :: sent).
  split; cbn [ou_open ou_batch ou_off ou_rest ou_last]; rewrite ?connections_snoc, ?deliveries_snoc; cbn [connection_event delivery_event].
  - apply Forall2_cons. split; [|by apply past_snoc]. by exists [], [].
  - intros _. by exists [], (connections w), [], sent.
  - by apply queue_snoc.
  - exists d1, d2. split_and!; [done| |done]. cbn [rev]. rewrite concat_app. cbn. by rewrite !app_nil_r.
  - done.
  - done.
  - done.
Qed.
Lemma after_closed w batch off rest last sent :
  after w (Mkoutlet true batch off rest last) sent → ∃ sent', after (w ++ [Ho_closed]) (Mkoutlet false [] 0 (batch ++ rest) last) sent'.
Proof.
  intros Hw.
  destruct Hw as [Hp Ho Hq (d1 & d2 & Ed & Hd1 & Hd2) Hl Hi H0]. exists sent.
  split; cbn [ou_open ou_batch ou_off ou_rest ou_last] in *; rewrite ?connections_snoc, ?deliveries_snoc; cbn [connection_event delivery_event app] in *.
  - by apply past_snoc.
  - done.
  - by apply queue_snoc.
  - by exists d1, d2.
  - done.
  - done.
  - done.
Qed.
Lemma after_keepalive w batch rest last ka sent :
  after w (Mkoutlet true batch 0 rest last) sent → is_keepalive ka →
  ∃ sent', after (w ++ [Ho_sent ka]) (Mkoutlet true batch 0 rest last) sent'.
Proof.
  intros Hw Hka.
  pose proof (oa_queue _ _ _ _ Hw) as Hq. pose proof (oa_idle _ _ _ _ Hw) as Hi.
  destruct (begin_batch batch rest) as [q later] eqn:Hb. eapply (after_sent w batch 0 rest last sent ka q later [ka]).
  1: exact Hw. 1: exact Hb.
  - apply Forall_singleton. by left.
  - cbn [ou_off ou_batch]. intros c s ->. rewrite (concat_app s [ka]). cbn [concat]. by rewrite !app_nil_r.
  - done.
  - done.
  - done.
  - done.
  - cbn [ou_batch ou_rest]. by rewrite (begin_batch_app _ _ _ _ Hb).
  - cbn [ou_batch ou_rest]. intros d2 Hd2. exists [], d2. split_and!; [done|apply sublist_nil_l|]. by rewrite (begin_batch_app _ _ _ _ Hb).
Qed.
Lemma after_part w batch off rest last q later out more sent :
  after w (Mkoutlet true batch off rest last) sent →
  begin_batch batch rest = (q, later) → out ++ more = zdrop off (concat q) →
  ∃ sent', after (w ++ [Ho_sent out]) (Mkoutlet true q (off + zlen out) later last) sent'.
Proof.
  intros Hw Hb Hout.
  pose proof (oa_idle _ _ _ _ Hw) as Hi. pose proof (oa_off _ _ _ _ Hw) as H0. cbn [ou_batch ou_off] in *.
  eapply (after_sent w batch off rest last sent out q later []); cbn [ou_open ou_batch ou_off ou_rest ou_last].
  1: exact Hw. 1: exact Hb.
  - done.
  - intros c s ->. rewrite app_nil_r, <- app_assoc. f_equal.
    assert (concat q = ztake off (concat q) ++ out ++ more) as E by by rewrite Hout, ztake_zdrop.
    destruct (Z.le_gt_cases off (zlen (concat q))) as [Hle|Hgt].
    + rewrite E at 2. rewrite app_assoc. symmetry. apply ztake_app. rewrite zlen_app, zlen_ztake by lia. done.
    + unfold zdrop in Hout. rewrite drop_ge in Hout by (unfold zlen in *; lia). apply app_nil in Hout as [-> ->]. rewrite zlen_nil, Z.add_0_r. by rewrite app_nil_r.
  - done.
  - done.
  - intros ->. assert (Hbn : batch = []) by (destruct batch; cbn in Hb; congruence). rewrite (Hi Hbn) in *.
    cbn in Hout. apply app_nil in Hout as [-> ->]. done.
  - zlen_pose. lia.
  - done.
  - intros d2 Hd2. exists [], d2. split_and!; [done|apply sublist_nil_l|done].
Qed.
Lemma after_whole w batch off rest last q later out sent :
  after w (Mkoutlet true batch off rest last) sent →
  begin_batch batch rest = (q, later) → out = zdrop off (concat q) →
  ∃ sent', after (w ++ [Ho_sent out]) (Mkoutlet true [] 0 later last) sent'.
Proof.
  intros Hw Hb Hout.
  pose proof (oa_queue _ _ _ _ Hw) as Hq. cbn [ou_batch ou_rest] in Hq.
  eapply (after_sent w batch off rest last sent out q later q); cbn [ou_open ou_batch ou_off ou_rest ou_last].
  1: exact Hw. 1: exact Hb.
  - rewrite (begin_batch_app _ _ _ _ Hb) in Hq. apply Forall_app in Hq as [Hq _]. by apply sendable_queue.
  - intros c s ->. change (ztake 0 ?l) with (@nil Z). rewrite app_nil_r, concat_app, <- app_assoc. f_equal.
    by rewrite Hout, ztake_zdrop.
  - done.
  - done.
  - done.
  - done.
  - by apply sublist_inserts_l.
  - intros d2 Hd2. apply sublist_app_r in Hd2 as (d & d' & -> & ? & ?). by exists d, d'.
Qed.

Lemma step_after w o sent ev o' :
  after w o sent → outlet_step is_keepalive o ev o' → ∃ sent', after (w ++ [ev]) o' sent'.
Proof.
  intros Hw Hstep. destruct Hstep as [fd rest last|batch off rest last|batch rest last ka Hka|batch off rest last q later out more Hb Hout
    |batch off rest last q later out Hb Hout|open batch off rest last|open batch off rest last|open batch off rest last tag body
    |open batch off rest last body|open channel tag ok|o c ok _].
  - by eapply after_opened.
  - by eapply after_closed.
  - by eapply after_keepalive.
  - by eapply after_part.
  - by eapply after_whole.
  - exists sent. pose proof (after_other w _ sent Ho_joined (deliveries w) Hw eq_refl eq_refl (deliveries_snoc w _) (or_introl eq_refl)) as Ha.
    pose proof (oa_last _ _ _ _ Hw) as Hl. rewrite <- Hl in Ha. exact Ha.
  - exists sent. by apply (after_other w _ sent Ho_left ([], None) Hw eq_refl eq_refl (deliveries_snoc w _) (or_intror eq_refl)).
  - exists sent. pose proof (after_queued w _ sent (Ho_delivered tag body) body Hw eq_refl eq_refl) as Ha.
    rewrite deliveries_snoc in Ha. apply Ha. right. by exists tag.
  - exists sent. pose proof (after_queued w _ sent (Ho_notified body) body Hw eq_refl eq_refl) as Ha.
    pose proof (oa_last _ _ _ _ Hw) as Hl. rewrite deliveries_snoc in Ha. cbn [delivery_event] in Ha. rewrite <- Hl in Ha. apply Ha. by left.
  - exists sent. by apply after_asked.
  - exists sent. by apply after_asked.
Qed.
Lemma runs_after w w' o sent o' :
  after w o sent → runs (outlet_step is_keepalive) o w' o' → ∃ sent', after (w ++ w') o' sent'.
Proof.
  intros Hw Hr. revert w sent Hw. induction Hr as [o|o ev o1 w' o' Hs _ IH]; intros w sent Hw.
  - exists sent. by rewrite app_nil_r.
  - destruct (step_after _ _ _ _ _ Hw Hs) as (sent1 & H1). rewrite (cons_middle ev w w'), (app_assoc w [ev] w'). by apply (IH _ sent1).
Qed.

(** Each connection carried whole items, and perhaps a part of further ones at its end. *)
Lemma outlet_connections w o :
  runs (outlet_step is_keepalive) fresh_outlet w o →
  ∃ sent, Forall2 (carried (sendable is_keepalive w)) (connections w) sent.
Proof. intros Hr. destruct (runs_after [] w _ [] o fresh_after Hr) as (sent & H). exists sent. apply H. Qed.
(** Before an acknowledgement all messages that were delivered since the broker was last left
    were sent whole, in their order; it names the last of them. *)
Lemma outlet_acknowledged w1 channel tag ok w2 o :
  runs (outlet_step is_keepalive) fresh_outlet (w1 ++ Ho_asked (Amqp_ack channel tag) ok :: w2) o →
  ∃ sent, Forall2 (carried (sendable is_keepalive w1)) (connections w1) sent ∧
    (deliveries w1).1 `sublist_of` concat (rev sent) ∧ (deliveries w1).2 = Some tag.
Proof.
  intros (o1 & H1 & H2)%runs_app_inv. destruct (runs_after [] w1 _ [] o1 fresh_after H1) as (sent & H).
  inversion H2 as [|? ? o2 ? ? Hs _]; subst. cbn [app] in H. exists sent. split; [apply H|].
  inversion Hs as [| | | | | | | | |?? ?? |? ? ? Hn]; subst; [|by destruct (Hn I)].
  destruct (oa_sent _ _ _ _ H) as (d1 & d2 & -> & Hd1 & ->%sublist_nil_r). rewrite app_nil_r.
  split; [done|]. symmetry. apply (oa_last _ _ _ _ H).
Qed.
End steps.
