(* ===== verification/MedDelivery.v ===== *)
(** * Handovers send what is delivered to them

    Each operation on a handover is a run of its outlet: this relates the buffer, the
    connection and the broker of [handover_t] to the queue of an [outlet].  Operations are
    total where the buffer has room. *)

From stdpp Require Import gmap.
From S2P Require Import Prelude Libraries ByteOrder Protocol Intercept NetBuffer ExportBuffer Publish Radius HashTable MedHandover MedAgency MedOutlet.

(** ** The buffer of a handover *)

(** A record is at most this long. *)
Definition RECORD_MAX : Z := 65536.

(** What memory there is. *)
Class Allocator (realloc_ok : Z → bool) : Prop := {
  realloc_grants n : n < 2 ^ 32 → realloc_ok n = true;
  realloc_bound n : realloc_ok n = true → n < 2 ^ 32;
}.

Section buffer.
Context {J : Judy1} (realloc_ok : Z → bool) `{!Allocator realloc_ok}.
Lemma realloc_mono m n : m ≤ n → realloc_ok n = true → realloc_ok m = true.
Proof. intros ? Hn%realloc_bound. apply realloc_grants. lia. Qed.

(** The buffer holds the items of an outlet.  It is at most [k] records larger than the
    sizes given. *)
Record buf_holds (k : Z) (b : export_buffer_t) (batch rest : list bytes) (off : Z) : Prop := {
  bh_wf : eb_wf realloc_ok b;
  bh_content : eb_content b = concat (batch ++ rest);
  bh_off : b.(eb_partialfront) = off;
  bh_batch : 0 < b.(eb_partialrem) → off + b.(eb_partialrem) = zlen (concat batch);
  bh_idle : b.(eb_partialrem) = 0 → batch = [] ∧ off = 0;
  bh_items : Forall (λ x, x ≠ []) (batch ++ rest);
  bh_small : zlen (eb_content b) ≤ 8 * 1024 * 1024 + k * RECORD_MAX;
  bh_data : zlen b.(eb_data) ≤ 2 ^ 30 + k * RECORD_MAX;
}.

Lemma holds_weaken k k' b batch rest off : k ≤ k' → buf_holds k b batch rest off → buf_holds k' b batch rest off.
Proof. intros Hk []. unfold RECORD_MAX in *. split; try done; unfold RECORD_MAX; lia. Qed.
Lemma holds_amount k b batch rest off :
  buf_holds k b batch rest off → get_buffered_amount b = zlen (concat (batch ++ rest)).
Proof.
  intros [Hwf Hc _ _ _ _ _ _]. pose proof (ebw_small realloc_ok realloc_bound b Hwf) as Hsm. destruct Hwf as [[Hf Ha] _ _ _].
  rewrite <- Hc. rewrite zlen_eb_content by by split. unfold get_buffered_amount. rewrite u64_id; [done|lia].
Qed.
Lemma concat_empty (l : list bytes) : Forall (λ x, x ≠ []) l → zlen (concat l) = 0 → l = [].
Proof.
  destruct l as [|x l]; [done|]. rewrite Forall_cons. intros [Hx _]. cbn. rewrite zlen_app. destruct x; [done|].
  rewrite zlen_cons. zlen_pose. lia.
Qed.
(** An empty buffer is an empty queue. *)
Lemma holds_empty k b batch rest off :
  buf_holds k b batch rest off → get_buffered_amount b = 0 → batch = [] ∧ rest = [] ∧ off = 0.
Proof.
  intros H E. rewrite (holds_amount _ _ _ _ _ H) in E. apply concat_empty in E; [|apply H].
  apply app_nil in E as [-> ->]. split_and!; [done..|].
  pose proof (ebw_partial _ _ (bh_wf _ _ _ _ _ H)) as Hp. pose proof (bh_batch _ _ _ _ _ H) as Hb. pose proof (bh_off _ _ _ _ _ H) as Ho.
  pose proof (bh_idle _ _ _ _ _ H) as Hi. change (zlen (concat [])) with 0 in Hb.
  destruct (Z.eq_dec b.(eb_partialrem) 0) as [E|]; [by apply Hi|]. lia.
Qed.
Lemma holds_fits k b batch rest off n :
  buf_holds k b batch rest off → 0 ≤ k ≤ 2000 → n ≤ RECORD_MAX → realloc_ok (zlen b.(eb_data) + n + BUFFER_ALLOC_SIZE) = true.
Proof. intros [] Hk Hn. unfold RECORD_MAX, BUFFER_ALLOC_SIZE in *. apply realloc_grants. lia. Qed.
Lemma holds_append k b batch rest off pdu :
  buf_holds k b batch rest off → 0 ≤ k ≤ 2000 → 0 < zlen pdu ≤ RECORD_MAX →
  ∃ n b', append_etsipdu_to_buffer realloc_ok pdu (zlen pdu) 0 b = Ok (n, b') ∧ 0 < n ∧
    buf_holds (k + 1) b' batch (rest ++ [pdu]) off.
Proof.
  intros Hb Hk [Hp Hl]. pose proof (holds_fits k b batch rest off (zlen pdu) Hb Hk Hl) as Hr. destruct Hb as [Hwf Hc Ho Hba Hid Hit Hs Hd].
  destruct (append_bytes_spec realloc_ok realloc_mono pdu (zlen pdu) (zlen pdu) b) as (b' & E & Hwf' & Hc' & Hpf & Hpr & Hn);
    [done|done|unfold RECORD_MAX in *; lia|done|].
  exists (zlen b'.(eb_data)), b'. split.
  { unfold append_etsipdu_to_buffer. rewrite <- (app_nil_r pdu) at 2. rewrite read_bytes_app by done. run_outcome. exact E. }
  split; [lia|]. split.
  - done.
  - rewrite Hc', Hc, app_assoc, (concat_app (_ ++ _)). cbn [concat]. by rewrite app_nil_r.
  - by rewrite Hpf.
  - by rewrite Hpr.
  - by rewrite Hpr.
  - rewrite app_assoc. apply Forall_app. split; [done|]. apply Forall_singleton. by intros ->.
  - rewrite Hc', zlen_app. unfold RECORD_MAX in *. lia.
  - unfold RECORD_MAX in *. lia.
Qed.
Lemma holds_reset k b batch rest off :
  buf_holds k b batch rest off → buf_holds k (reset_export_buffer b) [] (batch ++ rest) 0.
Proof.
  intros [[Hb Ha Hp Hi] Hc Ho Hba Hid Hit Hs Hd]. split; try done.
  - destruct Hb. split; [by split|done|cbn; unfold INT_MAX; lia|done].
Qed.

(** [post_transmit] ends the batch and adds nothing. *)
Lemma post_transmit_idle b b' :
  0 ≤ b.(eb_deadfront) ≤ zlen b.(eb_data) → post_transmit realloc_ok b = Ok b' →
  b'.(eb_partialfront) = 0 ∧ b'.(eb_partialrem) = 0 ∧ zlen b'.(eb_data) ≤ zlen b.(eb_data).
Proof.
  intros Hd. unfold post_transmit. rewrite (proj2 (Z.leb_le b.(eb_deadfront) (zlen b.(eb_data)))) by lia. cbn [c_assert]. run_outcome.
  assert (Hz : ∀ x : export_buffer_t, zlen (ztake (zlen b.(eb_data) - b.(eb_deadfront)) x.(eb_data)) ≤ zlen b.(eb_data)).
  { intros x. unfold ztake, zlen in *. rewrite length_take. lia. }
  destruct (_ && _); [destruct (realloc_ok _)|destruct (_ && _); [destruct (c_assert _)|]];
    run_outcome; try done; intros [= <-]; cbn; (split_and!; [done|done|]); [apply Hz|apply Hz|lia].
Qed.

(** What is offered to the connection: the batch, which is new when there is none. *)
Lemma holds_offer k b batch rest off :
  buf_holds k b batch rest off → 0 ≤ k ≤ 128 →
  ∃ n q later, begin_batch batch rest = (q, later) ∧ off + n = zlen (concat q) ∧ 0 ≤ off ∧ 0 ≤ n ≤ INT_MAX ∧
    (n = 0 → q = [] ∧ off = 0) ∧
    transmit_amount MAX_SEND b = Ok (n, set_eb_partial off n b).
Proof.
  intros [Hwf Hc Ho Hba Hid Hit Hs Hd] Hk. pose proof (ebw_small realloc_ok realloc_bound b Hwf) as Hsm.
  pose proof (zlen_eb_content b (ebw_bounds _ _ Hwf)) as Hlen. destruct Hwf as [[Hf Ha] Hal Hp _]. unfold transmit_amount, RECORD_MAX in *.
  destruct (Z.ltb_spec 0 b.(eb_partialrem)) as [Hpr|Hpr].
  - exists b.(eb_partialrem), batch, rest. specialize (Hba Hpr). split_and!; try lia.
    + destruct batch; [|done]. change (zlen (concat [])) with 0 in Hba. lia.
    + rewrite <- Ho. by destruct b.
  - destruct Hid as [-> ->]; [lia|]. exists (zlen (concat rest)), rest, []. cbn [app] in *. rewrite Hc in Hlen, Hs. zlen_pose.
    rewrite Ho, Z.add_0_r, u64_id by lia. rewrite Hlen in *. unfold INT_MAX.
    rewrite (proj2 (Z.ltb_ge MAX_SEND _)) by (unfold MAX_SEND; lia). run_outcome. split_and!; try lia; [done| |].
    + rewrite <- Hlen. intros E. split; [by apply concat_empty|done].
    + rewrite u32_id by lia. done.
Qed.

Lemma holds_transmit k b batch rest off last send is_keepalive :
  buf_holds k b batch rest off → 0 ≤ k ≤ 128 → (∀ n m, 0 ≤ n → send n = Sent m → 0 ≤ m ≤ n) →
  ∃ offered b0 rc b' out batch' rest' off',
    transmit_amount MAX_SEND b = Ok (offered, b0) ∧
    transmit_buffered_records realloc_ok MAX_SEND (send offered) b = Ok (rc, b', out) ∧
    outlet_step is_keepalive (Mkoutlet true batch off rest last) (Ho_sent out) (Mkoutlet true batch' off' rest' last) ∧
    buf_holds k b' batch' rest' off' ∧
    ((∀ n m, send n ≠ Sent m) → off = 0 → off' = 0).
Proof.
  intros Hb Hk Hsend. destruct (holds_offer _ _ _ _ _ Hb Hk) as (n & q & later & Hq & Hn & H0 & Hni & Hnil & Ht).
  destruct Hb as [Hwf Hc Ho Hba Hid Hit Hs Hd]. rewrite (begin_batch_app _ _ _ _ Hq) in Hc, Hit.
  pose proof (ebw_small realloc_ok realloc_bound b Hwf) as Hsm.
  pose proof (zlen_eb_content b (ebw_bounds _ _ Hwf)) as Hlen. destruct Hwf as [Hbd Hal Hp Hidle]. destruct (Hbd) as [Hf Ha].
  rewrite Hc, concat_app, zlen_app in Hlen. zlen_pose.
  assert (Hu : zdrop (b.(eb_deadfront) + off) b.(eb_data) = zdrop off (concat q) ++ concat later).
  { rewrite <- zdrop_zdrop by lia. fold (eb_content b). rewrite Hc, concat_app. by apply zdrop_app_le; lia. }
  exists n, (set_eb_partial off n b). unfold transmit_buffered_records. rewrite Ht. run_outcome. cbn [eb_deadfront eb_partialfront eb_data set_eb_partial eb_partialrem].
  destruct (Z.eqb_spec n 0) as [->|Hne].
  { destruct (Hnil eq_refl) as [-> ->]. destruct (post_transmit_spec realloc_ok realloc_mono (set_eb_partial 0 0 b)) as (b' & E & Hwf' & Hc' & _ & _); [done|done|].
    destruct (post_transmit_idle (set_eb_partial 0 0 b) b' ltac:(done) E) as (Hpf & Hpr & Hda). rewrite E. run_outcome.
    eexists _, b', [], [], later, 0. split; [done|]. split; [done|]. split; [by eapply Out_whole|]. split; [|done].
    split; [done|by rewrite Hc'|done|by rewrite Hpr|done|done|by rewrite Hc'|by etrans]. }
  rewrite (proj2 (Z.ltb_ge INT_MAX n)), (proj2 (Z.ltb_ge _ (b.(eb_deadfront) + off + n))) by lia. cbn [orb].
  assert (Hlz : zlen (zdrop off (concat q)) = n) by (rewrite zlen_zdrop; lia).
  (* nothing is sent *)
  assert (Hnone : ∃ b0' batch' rest' off', b0' = set_eb_partial off n b ∧
    outlet_step is_keepalive (Mkoutlet true batch off rest last) (Ho_sent []) (Mkoutlet true batch' off' rest' last) ∧
    buf_holds k b0' batch' rest' off' ∧ off' = off).
  { exists (set_eb_partial off n b), q, later, (off + zlen (@nil Z)). split; [done|]. rewrite zlen_nil, Z.add_0_r. split; [|split; [|done]].
    - pose proof (Out_part is_keepalive batch off rest last q later [] _ Hq eq_refl) as Hst. by rewrite zlen_nil, Z.add_0_r in Hst.
    - split; [split; [done|done|cbn; lia|cbn; lia]|done|done|cbn; lia|cbn; lia|done|done|done]. }
  destruct (send n) as [m| |] eqn:Es; [|destruct Hnone as (? & batch' & rest' & off' & -> & ? & ? & ->); eexists _, _, [], batch', rest', off; (split; [done|split; [done|split; [done|split; [done|by intros _]]]])..].
  clear Hnone. destruct (Hsend n m (proj1 Hni) Es) as [Hm0 Hmn]. assert (Hno : (∀ n m, send n ≠ Sent m) → False) by (intros Hno; by destruct (Hno n m)).
  destruct (Z.ltb_spec m n) as [Hlt|Hge].
  - assert (Hout : ztake m (zdrop (b.(eb_deadfront) + off) b.(eb_data)) = ztake m (zdrop off (concat q))).
    { rewrite Hu. apply take_app_le. unfold zlen in *. lia. }
    rewrite Hout. unfold INT_MAX in *. rewrite (u32_id (off + m)), (u32_id (n - m)) by lia.
    eexists _, _, _, q, later, (off + m). split; [done|]. split; [done|]. split; [|split; [|intros ?; by destruct Hno]].
    + pose proof (Out_part is_keepalive batch off rest last q later _ _ Hq (ztake_zdrop m (zdrop off (concat q)))) as Hst.
      by rewrite zlen_ztake in Hst by lia.
    + split; [split; [done|done|cbn; unfold INT_MAX; lia|cbn; lia]|done|done|cbn; lia|cbn; lia|done|done|done].
  - assert (m = n) as -> by lia.
    assert (Hout : ztake n (zdrop (b.(eb_deadfront) + off) b.(eb_data)) = zdrop off (concat q)).
    { rewrite Hu. apply ztake_app. lia. }
    rewrite Hout. rewrite (u32_id (n + off)) by (unfold INT_MAX in *; lia). rewrite u32_id by lia.
    set (b1 := set_eb_deadfront _ _).
    destruct (post_transmit_spec realloc_ok realloc_mono b1) as (b' & E & Hwf' & Hc' & _ & _); [split; cbn; lia|done|].
    destruct (post_transmit_idle b1 b') as (Hpf & Hpr & Hda); [cbn; lia|done|]. rewrite E. run_outcome.
    assert (Hcl : eb_content b' = concat later).
    { rewrite Hc'. unfold eb_content, b1. cbn [eb_deadfront eb_data set_eb_deadfront set_eb_partial].
      replace (b.(eb_deadfront) + (n + off)) with (b.(eb_deadfront) + off + n) by lia. rewrite <- zdrop_zdrop by lia. rewrite Hu. apply zdrop_app. lia. }
    eexists _, b', _, [], later, 0. split; [done|]. split; [done|]. split; [by eapply Out_whole|]. split; [|intros ?; by destruct Hno].
    apply Forall_app in Hit as [_ Hit].
    split; [done|done|done|by rewrite Hpr|done|done| |by etrans]. rewrite Hcl. rewrite Hc, concat_app, zlen_app in Hs. lia.
Qed.
End buffer.

(** ** Programs and ghost states *)

(** The program succeeds; what it does is a run of the ghost state [g], and then [Q]. *)
Section gwp.
Context {S W G : Type} (step : G → W → G → Prop).
Definition gwp {A} (m : MW S W A) (Q : A → S → G → Prop) (s : S) (g : G) : Prop :=
  ∃ a s' w g', m s = Ok (a, s', w) ∧ runs step g w g' ∧ Q a s' g'.
Lemma gwp_ret {A} (a : A) Q s g : Q a s g → gwp (mret a) Q s g.
Proof. intros HQ. exists a, s, [], g. split; [done|]. split; [constructor|done]. Qed.
Lemma gwp_bind {A B} (m : MW S W A) (f : A → MW S W B) Q s g :
  gwp m (λ a s' g', gwp (f a) Q s' g') s g → gwp (m ≫= f) Q s g.
Proof.
  intros (a & s1 & w1 & g1 & Em & H1 & b & s2 & w2 & g2 & Ef & H2 & HQ).
  exists b, s2, (w1 ++ w2), g2. split; [by eapply runs_bind|]. split; [by eapply runs_app|done].
Qed.
Lemma gwp_mono {A} (m : MW S W A) (Q Q' : A → S → G → Prop) s g :
  gwp m Q s g → (∀ a s' g', Q a s' g' → Q' a s' g') → gwp m Q' s g.
Proof. intros (a & s1 & w1 & g1 & Em & H1 & HQ) HQQ. exists a, s1, w1, g1. auto. Qed.
Lemma gwp_get Q s g : Q s s g → gwp mget Q s g.
Proof. intros HQ. exists s, s, [], g. split; [done|]. split; [constructor|done]. Qed.
Lemma gwp_put (x : S) Q s g : Q tt x g → gwp (mput x) Q s g.
Proof. intros HQ. exists tt, x, [], g. split; [done|]. split; [constructor|done]. Qed.
Lemma gwp_modify (f : S → S) Q s g : Q tt (f s) g → gwp (mmodify f) Q s g.
Proof. intros HQ. exists tt, (f s), [], g. split; [done|]. split; [constructor|done]. Qed.
Lemma gwp_tell (w : W) Q s g g' : step g w g' → Q tt s g' → gwp (mtell w) Q s g.
Proof. intros Hs HQ. exists tt, s, [w], g'. split; [done|]. split; [by apply runs_one|done]. Qed.
Lemma gwp_lift {A} (m : outcome A) a Q s g : m = Ok a → Q a s g → gwp (mlift m) Q s g.
Proof. intros -> HQ. exists a, s, [], g. split; [done|]. split; [constructor|done]. Qed.

(** The keys fit into the array of [foreach_liid_agency_mapping]. *)
Definition liids_ok (map : liid_map_t) : Prop := Forall (λ e, zlen e.1 < 1024) map.
Lemma gwp_foreach (I : S → G → Prop) (torun : liid_map_entry_t → MW S W (Z * liid_map_entry_t)) map s g :
  (∀ m s g, I s g → gwp (torun m) (λ _ s' g', I s' g') s g) → liids_ok map → I s g →
  gwp (foreach_liid_agency_mapping torun map) (λ r s' g', I s' g' ∧ liids_ok r.2) s g.
Proof.
  intros Hrun Hmap Hs. unfold foreach_liid_agency_mapping. apply gwp_bind.
  apply gwp_mono with (Q := λ r s' g', I s' g' ∧ liids_ok r.2); [|by intros [err map'] s' g' [? ?]; apply gwp_ret].
  revert s g Hs. induction Hmap as [|[key m] map Hk Hmap IH]; intros s g Hs; cbn [foreach_loop]; [by apply gwp_ret; split; [|constructor]|].
  cbn in Hk. rewrite (proj2 (Z.leb_gt _ _)) by done. apply gwp_bind. eapply gwp_mono; [by apply Hrun|]. intros [r m'] s1 g1 H1. cbv beta iota.
  apply gwp_bind. eapply gwp_mono; [by apply IH|]. intros [err map'] s2 g2 [H2 Hm2]. apply gwp_ret. split; [done|]. cbn [snd] in *.
  destruct (r =? 1); [done|]. by constructor.
Qed.
End gwp.

(** ** The invariant of a handover *)

Section handover.
Context {J : Judy1} (realloc_ok : Z → bool) `{!Allocator realloc_ok}.
Context (encode_keepalive : Z → cstring → Z → option bytes).
Context (pdu_length : bytes → Z) (is_keepalive_response : bytes → bool) (sequence_number : bytes → Z).

Definition is_keepalive (ka : bytes) : Prop := ∃ mid op seq, encode_keepalive mid op seq = Some ka.
Abbreviation hwp := (gwp (outlet_step is_keepalive)).

Definition message_ok (a : consume_answer) : Prop :=
  match a with Consumed _ _ body => 0 < zlen body ≤ RECORD_MAX | _ => True end.
(** What the outside can answer.  A keepalive is sent whole, or nothing is sent in the event
    at all. *)
Record env_ok (e : med_env) : Prop := {
  eo_deliver h : Forall message_ok (e.(en_deliver) h);
  eo_send n m : 0 ≤ n → e.(en_send) n = Sent m → 0 ≤ m ≤ n;
  eo_ka : (∀ n, 0 < n → e.(en_send_ka) n = Sent n) ∨
          ((∀ n m, e.(en_send_ka) n ≠ Sent m) ∧ (∀ n m, e.(en_send) n ≠ Sent m));
}.
Hypothesis keepalive_bytes : ∀ mid op seq ka, encode_keepalive mid op seq = Some ka → ka ≠ [].
Hypothesis pdu_length_nonneg : ∀ x, 0 ≤ pdu_length x.

Record ho_inv (k : Z) (ho : handover_t) (o : outlet) : Prop := {
  hv_buf : buf_holds realloc_ok k ho.(hs_buf) o.(ou_batch) o.(ou_rest) o.(ou_off);
  hv_open : o.(ou_open) = bool_decide (ho.(ho_outev) ≠ None);
  hv_closed : ho.(ho_outev) = None → o.(ou_batch) = [] ∧ o.(ou_off) = 0;
  hv_ka : ∀ ka, ho.(hs_pending_ka) = Some ka → is_keepalive ka ∧ o.(ou_off) = 0;
  hv_last : ho.(hs_valid_rmq_ack) = true → o.(ou_last) = Some ho.(hs_next_rmq_ack);
  hv_aliveev : ho.(ho_aliveev) ≠ None;
  hv_aliverespev : ho.(ho_aliverespev) ≠ None;
  hv_incoming : ho.(ho_outev) ≠ None → ho.(hs_incoming) ≠ None;
  hv_address : ho.(ho_ipstr) ≠ None ∧ ho.(ho_portstr) ≠ None;
}.

Lemma ho_inv_weaken k k' ho o : k ≤ k' → ho_inv k ho o → ho_inv k' ho o.
Proof. intros Hk []. split; try done. by eapply holds_weaken. Qed.

(** What [Q] must hold for after an operation that keeps the invariant and the connection. *)
Definition stays {A} (k : Z) (ho : handover_t) (Q : A → handover_t → outlet → Prop) : Prop :=
  ∀ a ho' o', ho_inv k ho' o' → ho'.(ho_outev) = ho.(ho_outev) → Q a ho' o'.

(** *** Timers *)

Lemma timer_some e (f : option Z → Z * option Z) :
  f = halt_mediator_timer e ∨ (∃ v, f = λ t, start_mediator_timer e t v) → ∀ t, t ≠ None → (f t).2 ≠ None.
Proof.
  intros Hf [fd|] Hn; [clear Hn|done]. destruct Hf as [-> | (v & ->)]; cbn.
  - destruct (fd =? -1); [done|]. by destruct (en_epoll_del e fd).
  - destruct (v =? 0); [done|]. by destruct (_ =? -1).
Qed.
Lemma hwp_timer k e f timer put Q ho o :
  f = halt_mediator_timer e ∨ (∃ v, f = λ t, start_mediator_timer e t v) →
  (timer = ho_aliveev ∧ put = set_ho_aliveev) ∨ (timer = ho_aliverespev ∧ put = set_ho_aliverespev) →
  ho_inv k ho o →
  (∀ r ho', ho_inv k ho' o → ho'.(ho_outev) = ho.(ho_outev) → ho'.(hs_pending_ka) = ho.(hs_pending_ka) → Q r ho' o) →
  hwp (with_timer f timer put) Q ho o.
Proof.
  intros Hf Ht Hi HQ. pose proof (timer_some e f Hf (timer ho)) as Hn.
  assert (timer ho ≠ None) as Hn'%Hn by (destruct Ht as [[-> _] | [-> _]]; apply Hi).
  unfold with_timer. apply gwp_bind, gwp_get. destruct (f (timer ho)) as [r t] eqn:E. cbn in Hn'.
  apply gwp_bind, gwp_put, gwp_ret. destruct Ht as [[-> ->] | [-> ->]]; destruct ho; (apply HQ; [destruct Hi; by split|done..]).
Qed.
Lemma hwp_resp k e f Q ho o :
  f = halt_mediator_timer e ∨ (∃ v, f = λ t, start_mediator_timer e t v) → ho_inv k ho o →
  (∀ r ho', ho_inv k ho' o → ho'.(ho_outev) = ho.(ho_outev) → ho'.(hs_pending_ka) = ho.(hs_pending_ka) → Q r ho' o) →
  hwp (aliverespev_do f) Q ho o.
Proof. intros Hf. apply (hwp_timer k e f); [done|by right]. Qed.
Lemma hwp_alive_halt k e Q ho o : ho_inv k ho o → stays k ho Q → hwp (aliveev_do (halt_mediator_timer e)) Q ho o.
Proof. intros Hi HQ. apply (hwp_timer k e); [by left|by left|done|]. intros. by apply HQ. Qed.
Lemma hwp_alive_start k e v Q ho o :
  ho_inv k ho o → stays k ho Q → hwp (aliveev_do (λ t, start_mediator_timer e t v)) Q ho o.
Proof. intros Hi HQ. apply (hwp_timer k e); [right; by exists v|by left|done|]. intros. by apply HQ. Qed.
Lemma hwp_resp_halt k e Q ho o : ho_inv k ho o → stays k ho Q → hwp (aliverespev_do (halt_mediator_timer e)) Q ho o.
Proof. intros Hi HQ. apply (hwp_resp k e); [by left|done|]. intros. by apply HQ. Qed.

(** *** The broker *)

(** What is asked apart from acknowledgements changes nothing here. *)
Lemma hwp_ask e c Q ho o : ¬ is_ack c → (∀ ok, Q ok ho o) → hwp (ask e c) Q ho o.
Proof.
  intros Hc HQ. unfold ask. apply gwp_bind, gwp_get. cbv zeta. apply gwp_bind.
  eapply gwp_tell; [by apply Out_asked|]. by apply gwp_ret.
Qed.
Lemma hwp_cancel e q ch Q ho o : (∀ r, Q r ho o) → hwp (cancel_RMQ_consumer e q ch) Q ho o.
Proof.
  intros HQ. unfold cancel_RMQ_consumer. apply gwp_bind, gwp_get. destruct (negb _); [by apply gwp_ret|].
  apply gwp_bind, hwp_ask; [by intros []|]. intros ok. by apply gwp_ret.
Qed.
Lemma hwp_register e kind ch liid Q ho o : (∀ r, Q r ho o) → hwp (register_mediator_RMQ_consumer e kind ch liid) Q ho o.
Proof.
  intros HQ. unfold register_mediator_RMQ_consumer, declare_RMQ_queue, register_RMQ_consumer.
  apply gwp_bind, gwp_get. destruct (negb _); [by apply gwp_ret|]. cbv zeta.
  apply gwp_bind, gwp_bind, hwp_ask; [by intros []|]. intros ok. apply gwp_ret. destruct (_ <? 0); [by apply gwp_ret|].
  apply gwp_bind, gwp_bind, hwp_ask; [by intros []|]. intros ok'. by apply gwp_ret, gwp_ret.
Qed.
Lemma hwp_check_empty e kind ch liid Q ho o : (∀ r, Q r ho o) → hwp (check_empty_mediator_RMQ e kind ch liid) Q ho o.
Proof.
  intros HQ. unfold check_empty_mediator_RMQ, is_RMQ_queue_empty. apply gwp_bind, gwp_get. destruct (negb _); [by apply gwp_ret|].
  apply gwp_bind, gwp_get. by apply gwp_ret.
Qed.

Lemma hwp_reset_rmq k Q ho o : ho_inv k ho o → stays k ho Q → hwp reset_handover_rmq Q ho o.
Proof.
  intros Hi HQ. unfold reset_handover_rmq. apply gwp_bind, gwp_get. apply gwp_bind.
  assert (Hend : ∀ o', ho_inv k ho o' → hwp (mput (set_hs_valid_rmq_ack (set_ho_rmq_registered (set_ho_rmq_consumer ho false) false) false)) Q ho o').
  { intros o' Hi'. apply gwp_put. apply HQ; [|by destruct ho]. destruct ho, Hi'. by split. }
  destruct (ho_rmq_consumer ho); [|by apply gwp_ret, Hend].
  destruct o as [op batch off rest last]. eapply gwp_tell; [apply Out_left|].
  (* the messages that were not acknowledged will be delivered again *)
  apply gwp_put. apply HQ; [|by destruct ho]. destruct ho, Hi. by split.
Qed.

Lemma disconnect_run e ho :
  disconnect_handover e ho =
  Ok (tt, Mkhandover_t ho.(ho_ipstr) ho.(ho_portstr) ho.(ho_type) false false None
            (halt_mediator_timer e ho.(ho_aliveev)).2 (halt_mediator_timer e ho.(ho_aliverespev)).2 true
            (reset_export_buffer ho.(hs_buf)) None ho.(hs_katimer_setsec) None ho.(hs_lastkaseq) ho.(hs_kafreq) ho.(hs_kawait)
            ho.(hs_next_rmq_ack) false,
      (if decide (ho.(ho_outev) = None) then [] else [Ho_closed]) ++ (if ho.(ho_rmq_consumer) then [Ho_left] else [])).
Proof.
  destruct ho as [ip port t c r o a p d b i ks ka s f w n v]. unfold disconnect_handover.
  generalize (halt_mediator_timer e) as h. intros h.
  destruct o, c; cbv; destruct (h a) as [? ?], (h p) as [? ?]; reflexivity.
Qed.
Lemma hwp_disconnect k e Q ho o :
  ho_inv k ho o → (∀ ho' o', ho_inv k ho' o' → ho'.(ho_outev) = None → Q tt ho' o') → hwp (disconnect_handover e) Q ho o.
Proof.
  intros Hi HQ. pose proof (disconnect_run e ho) as E. destruct o as [op batch off rest last].
  assert (∃ last', runs (outlet_step is_keepalive) (Mkoutlet op batch off rest last)
    ((if decide (ho.(ho_outev) = None) then [] else [Ho_closed]) ++ (if ho.(ho_rmq_consumer) then [Ho_left] else []))
    (Mkoutlet false [] 0 (batch ++ rest) last')) as (last' & Hr).
  { assert (Hl : ∃ last', runs (outlet_step is_keepalive) (Mkoutlet false [] 0 (batch ++ rest) last)
      (if ho.(ho_rmq_consumer) then [Ho_left] else []) (Mkoutlet false [] 0 (batch ++ rest) last')).
    { destruct (ho_rmq_consumer ho); [exists None; apply runs_one, Out_left|exists last; constructor]. }
    destruct Hl as (last' & Hl). exists last'. eapply runs_app; [|exact Hl].
    pose proof (hv_open _ _ _ Hi) as Ho. pose proof (hv_closed _ _ _ Hi) as Hc. cbn [ou_open ou_batch ou_off] in Ho, Hc.
    destruct (decide (ho_outev ho = None)) as [Eo|Eo].
    - rewrite Eo in Ho, Hc. cbn in Ho. subst. destruct Hc as [-> ->]; [done|]. constructor.
    - rewrite bool_decide_true in Ho by done. subst. apply runs_one, Out_closed. }
  eexists tt, _, _, _. split; [exact E|]. split; [exact Hr|]. apply HQ; [|done].
  destruct Hi as [Hb ? ? ? ? Ha Hp ? ?]. split; try done.
  - by apply holds_reset in Hb.
  - cbn. by apply (timer_some e _ (or_introl eq_refl)).
  - cbn. by apply (timer_some e _ (or_introl eq_refl)).
Qed.

(** *** Records *)

(** The connection and the keepalive for it are the same. *)
Definition same_connection (ho ho' : handover_t) : Prop :=
  ho'.(ho_outev) = ho.(ho_outev) ∧ ho'.(hs_pending_ka) = ho.(hs_pending_ka).

(** An item goes to the buffer, with the event that says so. *)
Lemma append_run k ho o pdu :
  ho_inv k ho o → 0 ≤ k ≤ 2000 → 0 < zlen pdu ≤ RECORD_MAX →
  ∃ n b', append_pdu realloc_ok pdu ho = Ok (n, set_hs_buf ho b', []) ∧ 0 < n ∧
    buf_holds realloc_ok (k + 1) b' o.(ou_batch) (o.(ou_rest) ++ [pdu]) o.(ou_off).
Proof.
  intros Hi Hk Hp. destruct (holds_append realloc_ok _ _ _ _ _ pdu (hv_buf _ _ _ Hi) Hk Hp) as (n & b' & E & Hn & Hb).
  exists n, b'. split; [|done]. unfold append_pdu, mbind, MW_bind, mget, mlift, mput. by rewrite E.
Qed.
Lemma hwp_notify k pdu Q ho o :
  ho_inv k ho o → 0 ≤ k ≤ 2000 → 0 < zlen pdu ≤ RECORD_MAX → stays (k + 1) ho Q →
  hwp (r ← append_pdu realloc_ok pdu; if r =? 0 then mret tt else mtell (Ho_notified pdu)) Q ho o.
Proof.
  intros Hi Hk Hp HQ. destruct (append_run _ _ _ _ Hi Hk Hp) as (n & b' & E & Hn & Hb). apply gwp_bind.
  eexists n, _, [], o. split; [exact E|]. split; [constructor|]. rewrite (proj2 (Z.eqb_neq n 0)) by lia.
  destruct o as [op batch off rest last]. eapply gwp_tell; [apply Out_notified|]. apply HQ; [|by destruct ho].
  destruct ho, Hi. by split.
Qed.

(** A message of the broker; [last] is the tag of the last one if there was any. *)
Lemma hwp_deliver k tag pdu {A} (m : MW handover_t ho_event A) Q ho o :
  ho_inv k ho o → 0 ≤ k ≤ 2000 → 0 < zlen pdu ≤ RECORD_MAX →
  (∀ ho' o', ho_inv (k + 1) ho' o' → same_connection ho ho' → o'.(ou_last) = Some ho'.(hs_next_rmq_ack) → hwp m Q ho' o') →
  ∀ fail : MW handover_t ho_event A,
  hwp (r ← append_pdu realloc_ok pdu;
       if r =? 0 then fail else
       _ ← mmodify (λ ho, set_hs_next_rmq_ack ho tag);
       _ ← mtell (Ho_delivered tag pdu); m) Q ho o.
Proof.
  intros Hi Hk Hp HQ fail. destruct (append_run _ _ _ _ Hi Hk Hp) as (n & b' & E & Hn & Hb). apply gwp_bind.
  eexists n, _, [], o. split; [exact E|]. split; [constructor|]. rewrite (proj2 (Z.eqb_neq n 0)) by lia.
  apply gwp_bind, gwp_modify, gwp_bind. destruct o as [op batch off rest last]. eapply gwp_tell; [apply Out_delivered|].
  destruct ho, Hi. apply HQ; [by split|done|done].
Qed.

(** After some messages the last of them has the tag to be acknowledged. *)
Definition consumed (K : Z) (ho : handover_t) (Q : Z → handover_t → outlet → Prop) : Prop :=
  ∀ r ho' o', ho_inv K ho' o' → same_connection ho ho' →
    (0 < r → o'.(ou_last) = Some ho'.(hs_next_rmq_ack)) → Q r ho' o'.
Lemma hwp_consume_loop e maxread channel K Q : ∀ answers k msgread rejects ho o,
  Forall message_ok answers → ho_inv k ho o → 0 ≤ k → 0 < maxread → 0 ≤ msgread ≤ maxread → k + (maxread - msgread) = K → K ≤ 2000 →
  (0 < msgread → o.(ou_last) = Some ho.(hs_next_rmq_ack)) → consumed K ho Q →
  hwp (consume_loop realloc_ok e maxread channel msgread rejects answers) Q ho o.
Proof.
  induction answers as [|a answers IH]; intros k msgread rejects ho o Hans Hi Hk H0 Hm HK Hk2 Hlast HQ; cbn [consume_loop].
  all: assert (Hret : ∀ x, (0 < x → 0 < msgread) → hwp (mret x) Q ho o) by
    (intros x Hx; apply gwp_ret, HQ; [by eapply (ho_inv_weaken k); [lia|]|done|auto]).
  all: assert (Hb : hwp (mret (b2z (0 <? msgread))) Q ho o) by
    (apply Hret; unfold b2z; destruct (Z.ltb_spec 0 msgread); lia).
  all: destruct (Z.leb_spec maxread msgread); [apply Hret; lia|].
  { exact Hb. }
  apply Forall_cons in Hans as [Ha Hans].
  assert (Hgo : ∀ rejects, hwp (consume_loop realloc_ok e maxread channel msgread rejects answers) Q ho o) by (intros ?; by apply (IH k)).
  destruct a as [ch tag body| | |f|]; [|done|by apply Hret|destruct (_ <? 0); [by apply Hret|done]|by apply Hret].
  destruct (ch =? 0); [done|]. destruct (negb _).
  - apply gwp_bind, hwp_ask; [by intros []|]. intros ok. destruct (negb ok); [by apply Hret|]. by destruct (_ <=? _).
  - apply (hwp_deliver k); [done|lia|done|]. intros ho' o' Hi' Ho' Hl'. apply (IH (k + 1)); try done; [lia..|].
    intros r ho2 o2 Hi2 [Ho2 Hp2] Hr. destruct Ho'. apply HQ; [done|split; congruence|done].
Qed.
Lemma hwp_consume e maxread channel k Q ho o :
  env_ok e → ho_inv k ho o → 0 ≤ k → 0 < maxread → k + maxread ≤ 2000 → consumed (k + maxread) ho Q →
  hwp (consume_mediator_liid_messages realloc_ok e maxread channel) Q ho o.
Proof.
  intros He Hi Hk H0 Hk2 HQ. unfold consume_mediator_liid_messages. apply gwp_bind, gwp_get.
  destruct (negb _); [apply gwp_ret, HQ; [by eapply (ho_inv_weaken k); [lia|]|done|done]|].
  apply (hwp_consume_loop e maxread channel (k + maxread) Q _ k); try done; [apply He|lia|lia].
Qed.

(** *** Sending *)

(** The buffer is empty: what was delivered can be acknowledged. *)
Lemma hwp_ack e channel Q ho o :
  o.(ou_batch) = [] → o.(ou_rest) = [] → o.(ou_off) = 0 → o.(ou_last) = Some ho.(hs_next_rmq_ack) →
  (∀ r, Q r ho o) → hwp (ack_mediator_liid_messages e ho.(hs_next_rmq_ack) channel) Q ho o.
Proof.
  intros Hb Hr Ho Hl HQ. unfold ack_mediator_liid_messages. apply gwp_bind, gwp_get. destruct (negb _); [by apply gwp_ret|].
  apply gwp_bind. unfold ask. apply gwp_bind, gwp_get. cbv zeta. apply gwp_bind. destruct o as [op batch off rest last]. cbn in *. subst.
  eapply gwp_tell; [apply Out_acknowledged|]. apply gwp_ret. by apply gwp_ret.
Qed.

(** With a keepalive that is still to be sent nothing is sent at all in this event. *)
Definition ka_first (e : med_env) (ho : handover_t) : Prop :=
  ho.(hs_pending_ka) = None ∨ (∀ n m, e.(en_send) n ≠ Sent m).

Lemma hwp_xmit_records k e Q ho o :
  env_ok e → ka_first e ho → ho_inv k ho o → ho.(ho_outev) ≠ None → 0 ≤ k ≤ 128 → stays k ho Q →
  hwp (xmit_handover_records realloc_ok e MAX_SEND) Q ho o.
Proof.
  intros He Hka Hi Hout Hk HQ. unfold xmit_handover_records. apply gwp_bind, gwp_get.
  destruct (ho_outev ho) as [fd|] eqn:Eo; [|done]. apply gwp_bind. eapply gwp_lift; [done|]. destruct o as [op batch off rest last].
  pose proof (hv_open _ _ _ Hi) as Hop. rewrite Eo in Hop. cbn in Hop. subst op.
  destruct (holds_transmit realloc_ok k _ batch rest off last e.(en_send) is_keepalive (hv_buf _ _ _ Hi) Hk (eo_send e He))
    as (offered & b0 & rc & b' & out & batch' & rest' & off' & E1 & E2 & Hs & Hb & Hoff).
  apply gwp_bind. eapply gwp_lift; [exact E1|]. cbv beta iota. apply gwp_bind. eapply gwp_lift; [exact E2|]. cbv beta iota.
  apply gwp_bind, gwp_put, gwp_bind. eapply gwp_tell; [exact Hs|].
  assert (Hi' : ho_inv k (set_hs_buf ho b') (Mkoutlet true batch' off' rest' last)).
  { destruct ho, Hi. split; try done; cbn in *.
    - by rewrite Eo.
    - intros ka Hp. destruct (hv_ka0 ka Hp) as [Hk0 H0]. split; [done|]. apply Hoff; [|done]. destruct Hka as [Hn|]; [|done]. cbn in Hn. congruence. }
  assert (Hsame : (set_hs_buf ho b').(ho_outev) = ho.(ho_outev)) by by destruct ho.
  assert (HQ' : stays k (set_hs_buf ho b') Q) by (intros a ho' o' Hi2 Ho2; apply HQ; congruence).
  destruct (rc =? -1); [by apply gwp_ret, HQ'|]. destruct (rc =? 0); [by apply gwp_ret, HQ'|].
  destruct (_ && _); [|by apply gwp_ret, HQ'].
  apply gwp_bind, (hwp_alive_halt k); [done|]. intros r1 ho1 o1 Hi1 Ho1.
  apply gwp_bind, (hwp_alive_start k); [done|]. intros r2 ho2 o2 Hi2 Ho2.
  destruct (r2 =? -1); [apply gwp_ret, HQ'; [done|congruence]|]. apply gwp_bind, gwp_modify, gwp_ret, HQ'.
  - destruct ho2, Hi2. by split.
  - transitivity (ho_outev ho2); [by destruct ho2|congruence].
Qed.

Lemma ho_inv_unack k ho o : ho_inv k ho o → ho_inv k (set_hs_valid_rmq_ack ho false) o.
Proof. intros Hi. destruct ho, Hi. by split. Qed.
Lemma hwp_send_available k e Q ho o :
  env_ok e → ka_first e ho → ho_inv k ho o → ho.(ho_outev) ≠ None → 0 ≤ k ≤ 128 →
  (∀ r ho' o', ho_inv k ho' o' → ho'.(ho_outev) = ho.(ho_outev) →
     (r = 0 ∧ ho' = ho ∨ r = 1 ∨ r = -1 ∨ r = -2) → Q r ho' o') →
  hwp (send_available_rmq_records realloc_ok e) Q ho o.
Proof.
  intros He Hka Hi Hout Hk HQ. unfold send_available_rmq_records. apply gwp_bind, gwp_get.
  destruct (_ =? 0); [apply gwp_ret, HQ; auto|]. apply gwp_bind, (hwp_xmit_records k); try done. intros r ho1 o1 Hi1 Ho1.
  destruct (r <? 0); [apply gwp_ret, HQ; auto|]. apply gwp_bind, gwp_get.
  destruct (Z.eqb_spec (get_buffered_amount ho1.(hs_buf)) 0) as [E|]; cbn [andb]; [|apply gwp_ret, HQ; auto].
  destruct (hs_valid_rmq_ack ho1) eqn:Ev; [|apply gwp_ret, HQ; auto].
  destruct (holds_empty realloc_ok _ _ _ _ _ (hv_buf _ _ _ Hi1) E) as (Hb & Hr & Ho).
  apply gwp_bind.
  assert (Hend : ∀ r, hwp (if negb (r =? 0) then mret (-2) else _ ← mmodify (λ ho, set_hs_valid_rmq_ack ho false); mret 1) Q ho1 o1).
  { intros x. destruct (negb _); [apply gwp_ret, HQ; auto|]. apply gwp_bind, gwp_modify, gwp_ret, HQ; [by apply ho_inv_unack| |auto].
    rewrite <- Ho1. by destruct ho1. }
  by destruct (ho_type ho1); apply hwp_ack; try done; apply Hi1.
Qed.

(** *** Keepalives *)

Lemma hwp_xmit_keepalive k e Q ho o :
  env_ok e → ho_inv k ho o → ho.(ho_outev) ≠ None →
  (∀ r ho' o', ho_inv k ho' o' → ho'.(ho_outev) = ho.(ho_outev) → ka_first e ho' → Q r ho' o') →
  hwp (xmit_handover_keepalive e) Q ho o.
Proof.
  intros He Hi Hout HQ. unfold xmit_handover_keepalive. apply gwp_bind, gwp_get.
  destruct (hs_pending_ka ho) as [ka|] eqn:Ek; [|apply gwp_ret, HQ; [done|done|by left]].
  destruct (ho_outev ho) as [fd|] eqn:Eo; [|done]. apply gwp_bind. eapply gwp_lift; [done|].
  destruct (hv_ka _ _ _ Hi ka Ek) as [(mid & op & seq & Henc) Hoff].
  assert (Hlen : 0 < zlen ka).
  { pose proof (keepalive_bytes _ _ _ _ Henc). destruct ka; [done|]. rewrite zlen_cons. zlen_pose. lia. }
  destruct (eo_ka e He) as [Hw|[Hn1 Hn2]].
  2: { destruct (en_send_ka e (zlen ka)) eqn:E; [by destruct (Hn1 _ _ E)|apply gwp_ret, HQ; [done..|by right]|apply gwp_ret, HQ; [done..|by right]]. }
  rewrite (Hw _ Hlen), (proj2 (Z.eqb_neq _ 0)), (proj2 (Z.ltb_ge _ _)), Z.eqb_refl by lia.
  apply gwp_bind. destruct o as [o1 batch off rest last]. cbn [ou_off] in Hoff. subst off.
  pose proof (hv_open _ _ _ Hi) as Hop. rewrite Eo in Hop. cbn in Hop. subst o1.
  assert (ztake (zlen ka) ka = ka) as -> by (unfold ztake; apply take_ge; unfold zlen; lia).
  eapply gwp_tell; [apply Out_keepalive; by exists mid, op, seq|].
  apply gwp_bind, gwp_modify.
  set (ho1 := set_hs_pending_ka ho None). assert (Hi1 : ho_inv k ho1 (Mkoutlet true batch 0 rest last)) by (destruct ho, Hi; by split).
  assert (Ho1 : ho_outev ho1 = ho_outev ho) by by destruct ho. assert (Hk1 : ho1.(hs_pending_ka) = None) by by destruct ho.
  clearbody ho1.
  apply gwp_bind, (hwp_resp k e); [by left|done|]. intros r2 ho2 Hi2 Ho2 Hk2.
  apply gwp_bind, (hwp_resp k e); [right; by exists ho.(hs_kawait)|done|]. intros r3 ho3 Hi3 Ho3 Hk3.
  destruct (r3 =? -1); [apply gwp_ret, HQ; [done|congruence|left; congruence]|].
  apply gwp_bind, gwp_modify, gwp_ret. destruct (ho_aliverespev ho3); (apply HQ; [|destruct ho3; cbn in *; congruence|left; destruct ho3; cbn in *; congruence]).
  - done.
  - destruct ho3, Hi3. by split.
Qed.

Lemma hwp_restart_keepalive k e Q ho o : ho_inv k ho o → stays k ho Q → hwp (restart_handover_keepalive e) Q ho o.
Proof.
  intros Hi HQ. unfold restart_handover_keepalive. apply gwp_bind, gwp_get. apply gwp_bind, (hwp_alive_halt k); [done|].
  intros r1 ho1 o1 Hi1 Ho1. apply gwp_bind, (hwp_alive_start k); [done|]. intros r2 ho2 o2 Hi2 Ho2.
  apply gwp_ret, HQ; [done|congruence].
Qed.
Lemma hwp_trigger_keepalive k e mid op Q ho o :
  ho_inv k ho o → stays k ho Q → hwp (trigger_handover_keepalive encode_keepalive e mid op) Q ho o.
Proof.
  intros Hi HQ. unfold trigger_handover_keepalive. apply gwp_bind, gwp_get. destruct (ho_outev ho) as [fd|] eqn:Eo; [|by apply gwp_ret, HQ].
  apply gwp_bind. assert (Hre : hwp (restart_handover_keepalive e) Q ho o) by by apply (hwp_restart_keepalive k).
  destruct (hs_pending_ka ho) as [ka|] eqn:Ek; [by apply gwp_ret|].
  destruct (ho_aliverespev ho) as [t|] eqn:Er; [|by destruct (hv_aliverespev _ _ _ Hi)].
  apply gwp_bind. eapply gwp_lift; [done|]. apply gwp_ret.
  destruct (t =? -1); cbn [andb]; [|done]. destruct (Z.eqb_spec (get_buffered_amount ho.(hs_buf)) 0) as [E|]; [|done].
  destruct (holds_empty realloc_ok _ _ _ _ _ (hv_buf _ _ _ Hi) E) as (Hb & Hr & Ho).
  destruct (encode_keepalive _ _ _) as [ka|] eqn:Eenc; [|by apply gwp_ret, HQ].
  apply gwp_bind, gwp_put, (hwp_restart_keepalive k).
  - destruct ho, Hi. split; try done. cbn. intros ka' [= <-]. split; [by eexists _, _, _|done].
  - intros a ho' o' Hi' Ho'. apply HQ; [done|]. rewrite Ho'. by destruct ho.
Qed.

(** *** Responses *)

Lemma hwp_receive_loop k e Q : ∀ fuel ho o ptr,
  ho_inv k ho o → ho.(hs_incoming) = Some ptr → (length ptr < fuel)%nat → stays k ho Q →
  hwp (receive_loop pdu_length is_keepalive_response sequence_number e fuel) Q ho o.
Proof.
  induction fuel as [|fuel IH]; intros ho o ptr Hi Hp Hf HQ; [lia|]. cbn [receive_loop].
  apply gwp_bind, gwp_get, gwp_bind. rewrite Hp. eapply gwp_lift; [done|]. cbv zeta.
  destruct (Z.eqb_spec (zlen ptr) 0); [by apply gwp_ret, HQ|]. destruct (Z.eqb_spec (pdu_length ptr) 0); [by apply gwp_ret, HQ|].
  destruct (Z.ltb_spec (zlen ptr) (pdu_length ptr)); [by apply gwp_ret, HQ|].
  destruct (is_keepalive_response ptr); [|by apply gwp_ret, HQ]. destruct (negb _); [by apply gwp_ret, HQ|].
  apply gwp_bind, (hwp_resp_halt k); [done|]. intros r1 ho1 o1 Hi1 Ho1. apply gwp_bind, gwp_modify.
  apply (IH _ _ (zdrop (pdu_length ptr) ptr)).
  - destruct ho1, Hi1. by split.
  - by destruct ho1.
  - pose proof (pdu_length_nonneg ptr). unfold zdrop, zlen in *. rewrite length_drop. lia.
  - intros a ho' o' Hi' Ho'. apply HQ; [done|]. rewrite Ho', <- Ho1. by destruct ho1.
Qed.
Lemma hwp_receive k e Q ho o :
  ho_inv k ho o → ho.(ho_outev) ≠ None → stays k ho Q →
  hwp (receive_handover pdu_length is_keepalive_response sequence_number e) Q ho o.
Proof.
  intros Hi Hout HQ. unfold receive_handover. apply gwp_bind, gwp_get.
  destruct (hs_incoming ho) as [inc|] eqn:Ei; [|by destruct (hv_incoming _ _ _ Hi Hout)].
  apply gwp_bind. eapply gwp_lift; [done|]. apply gwp_bind. destruct (ho_outev ho) as [fd|] eqn:Eo; [|done]. eapply gwp_lift; [done|].
  destruct (en_recv e) as [bs| | |]; [|by apply gwp_ret, HQ..].
  apply gwp_bind, gwp_modify. eapply (hwp_receive_loop k).
  - destruct ho, Hi. by split.
  - by destruct ho.
  - lia.
  - intros a ho' o' Hi' Ho'. apply HQ; [done|]. rewrite Ho'. by destruct ho.
Qed.

(** *** Connections *)

Lemma hwp_connect k e Q ho o :
  ho_inv k ho o → (∀ r ho' o', ho_inv k ho' o' → Q r ho' o') → hwp (connect_mediator_handover e) Q ho o.
Proof.
  intros Hi HQ. unfold connect_mediator_handover. apply gwp_bind, gwp_get. destruct (ho_outev ho) as [fd|] eqn:Eo; [by apply gwp_ret, HQ|].
  assert (Hmsg : ∀ ho1, ho_inv k ho1 o → ho_inv k (set_ho_disconnect_msg ho1 true) o) by (intros ho1 H1; destruct ho1, H1; by split).
  cbv zeta. destruct (_ =? -1); [by apply gwp_ret, HQ|]. destruct (_ =? 0); [by apply gwp_bind, gwp_modify, gwp_ret, HQ, Hmsg|].
  destruct o as [op batch off rest last]. pose proof (hv_open _ _ _ Hi) as Hop. destruct (hv_closed _ _ _ Hi Eo) as [Hb H0].
  rewrite Eo in Hop. cbn in Hop, Hb, H0. subst.
  apply gwp_bind, gwp_modify. match goal with |- gwp _ _ _ ?h _ => set (ho1 := h) end.
  assert (ho_inv k ho1 (Mkoutlet false [] 0 rest last) ∧ ho1.(hs_incoming) ≠ None ∧ ho1.(ho_outev) = None) as (Hi1 & Hn & Eo1).
  { unfold ho1. destruct (hs_incoming ho) eqn:Ei; [by rewrite Ei|]. destruct ho, Hi. cbn in *. (split_and!; [by split|done..]). }
  clearbody ho1. unfold create_mediator_fdevent. destruct (en_epoll_add e _); [|apply gwp_bind, gwp_modify, gwp_ret, HQ, Hmsg, Hi1].
  apply gwp_bind, gwp_modify, gwp_bind. eapply gwp_tell; [apply Out_connected|].
  apply gwp_bind, (hwp_alive_halt k).
  { destruct ho1, Hi1. by split. }
  intros r2 ho2 o2 Hi2 Ho2. apply gwp_bind, (hwp_alive_start k); [done|]. intros r3 ho3 o3 Hi3 Ho3. by apply gwp_ret, HQ.
Qed.

Lemma hwp_register_all k e map Q ho o :
  ho_inv k ho o → liids_ok map → (∀ r map' ho' o', ho_inv k ho' o' → liids_ok map' → Q (r, map') ho' o') →
  hwp (register_handover_RMQ_all e map) Q ho o.
Proof.
  intros Hi Hm HQ. unfold register_handover_RMQ_all. apply gwp_bind, gwp_get, gwp_bind.
  assert (Hrest : ∀ ho1 o1, ho_inv k ho1 o1 → hwp (if ho.(ho_rmq_registered) then mret (1, map) else
    '(r, liidmap) ← foreach_liid_agency_mapping (register_known_liid_consumers e) map;
    if r <? 0 then _ ← reset_handover_rmq; mret (-1, liidmap) else
    _ ← mmodify (λ ho, set_ho_rmq_registered ho true); mret (1, liidmap)) Q ho1 o1).
  { intros ho1 o1 H1. destruct (ho_rmq_registered ho); [by apply gwp_ret, HQ|]. apply gwp_bind.
    eapply gwp_mono; [apply (gwp_foreach _ (ho_inv k)); [|done|done]|].
    - intros m s g Hs. unfold register_known_liid_consumers. apply gwp_bind, gwp_get.
      destruct (ho_type s); apply gwp_bind, hwp_register; intros r; by apply gwp_ret.
    - intros [r map'] ho2 o2 [H2 Hm2]. cbv beta iota. destruct (r <? 0).
      + apply gwp_bind, (hwp_reset_rmq k); [done|]. intros a ho3 o3 H3 _. by apply gwp_ret, HQ.
      + apply gwp_bind, gwp_modify, gwp_ret, HQ; [|done]. destruct ho2, H2. by split. }
  destruct (ho_rmq_consumer ho); [by apply gwp_ret, Hrest|]. unfold join_mediator_RMQ_as_consumer.
  apply gwp_bind, gwp_get. destruct (en_join e _); [|by apply gwp_ret, Hrest].
  apply gwp_bind. destruct o as [op batch off rest last]. eapply gwp_tell; [apply Out_joined|]. apply gwp_modify, Hrest.
  destruct ho, Hi. by split.
Qed.

Lemma hwp_check_status k e Q ho o :
  env_ok e → ho_inv k ho o → 0 ≤ k ≤ 1999 → stays (k + 1) ho Q → hwp (check_handover_rmq_status realloc_ok e) Q ho o.
Proof.
  intros He Hi Hk HQ. unfold check_handover_rmq_status. apply gwp_bind, gwp_get, gwp_bind.
  assert (Hend : ∀ r ho1 o1, ho_inv (k + 1) ho1 o1 → ho_outev ho1 = ho_outev ho →
    hwp (if (r =? -2) || (r =? -1) then _ ← reset_handover_rmq; mret (-1) else mret 0) Q ho1 o1).
  { intros r ho1 o1 H1 Ho1. destruct (_ || _); [|by apply gwp_ret, HQ]. apply gwp_bind, (hwp_reset_rmq (k + 1)); [done|].
    intros a ho2 o2 H2 Ho2. apply gwp_ret, HQ; [done|congruence]. }
  destruct (ho_type ho); (apply (hwp_consume e 1 _ k); [done|done|lia|done|lia|]; intros r ho1 o1 H1 [Ho1 _] _; by apply Hend).
Qed.
End handover.
