(* ===== verification/MedAgencyProps.v ===== *)
(** * What agencies get

    A thread of an agency runs the outlets of its two handovers, whatever events and
    messages it gets.  So each connection carries whole records, notifications and
    keepalives, apart from its end, and the broker is told that messages have arrived only
    when all those it has delivered were sent as a whole ([acknowledged_records_sent]). *)

From stdpp Require Import gmap.
From S2P Require Import Prelude Libraries ByteOrder Protocol Intercept NetBuffer ExportBuffer Publish Radius HashTable MedHandover MedAgency MedOutlet MedDelivery.

(** ** The outlets of an agency *)

Abbreviation outlets := (outlet * outlet)%type.
Definition outlet_of (h : handover_type_t) (g : outlets) : outlet :=
  match h with HANDOVER_HI2 => g.1 | HANDOVER_HI3 => g.2 end.
Definition set_outlet (h : handover_type_t) (g : outlets) (o : outlet) : outlets :=
  match h with HANDOVER_HI2 => (o, g.2) | HANDOVER_HI3 => (g.1, o) end.
Inductive lea_step (is_keepalive : bytes → Prop) : outlets → lea_event → outlets → Prop :=
  | Lea_step h g ev o :
      outlet_step is_keepalive (outlet_of h g) ev o → lea_step is_keepalive g (h, ev) (set_outlet h g o).
(** The events of a handover. *)
Definition events_of (h : handover_type_t) (w : list lea_event) : list ho_event :=
  omap (λ e, if decide (e.1 = h) then Some e.2 else None) w.

Lemma outlet_set h g o : outlet_of h (set_outlet h g o) = o.
Proof. by destruct h. Qed.
Lemma set_outlet_twice h g o o' : set_outlet h (set_outlet h g o) o' = set_outlet h g o'.
Proof. by destruct h. Qed.
Lemma set_outlet_id h g : set_outlet h g (outlet_of h g) = g.
Proof. by destruct g, h. Qed.
Lemma lt_ho_set h s ho : lt_ho h (set_lt_ho h s ho) = ho.
Proof. by destruct h, s. Qed.

Lemma lea_runs P h g w o :
  runs (outlet_step P) (outlet_of h g) w o → runs (lea_step P) g (pair h <$> w) (set_outlet h g o).
Proof.
  intros Hr. remember (outlet_of h g) as o0 eqn:E. revert g E. induction Hr as [o|o ev o1 w o2 Hs _ IH]; intros g ->.
  - rewrite set_outlet_id. constructor.
  - eapply runs_cons; [by constructor|]. rewrite <- (set_outlet_twice h g o1 o2). apply IH. by rewrite outlet_set.
Qed.
(** The events of a handover are a run of its outlet. *)
Lemma events_run P h g w g' :
  runs (lea_step P) g w g' → runs (outlet_step P) (outlet_of h g) (events_of h w) (outlet_of h g').
Proof.
  induction 1 as [g|g ev g1 w g2 Hs _ IH]; [constructor|]. destruct Hs as [h' g ev o Hs]. unfold events_of in *. cbn [omap list_omap fst snd].
  destruct (decide (h' = h)) as [->|Hn].
  - eapply runs_cons; [exact Hs|]. by rewrite outlet_set in IH.
  - replace (outlet_of h g) with (outlet_of h (set_outlet h' g o)); [done|]. by destruct h, h'.
Qed.

(** ** The invariant of a thread *)

(** What the main thread puts into the queue. *)
Definition address_ok (lea : liagency_t) : Prop :=
  lea.(lea_hi2_ipstr) ≠ None ∧ lea.(lea_hi2_portstr) ≠ None ∧ lea.(lea_hi3_ipstr) ≠ None ∧ lea.(lea_hi3_portstr) ≠ None.
Definition msg_ok (msg : lea_thread_msg_t) : Prop :=
  match msg with
  | MED_LEA_MESSAGE_UPDATE_AGENCY lea => address_ok lea
  | MED_LEA_MESSAGE_ADD_LIID liid _ => zlen liid < 1024
  | _ => True
  end.

Section agency.
Context {J : Judy1} (realloc_ok : Z → bool) `{!Allocator realloc_ok}.
Context (encode_keepalive : Z → cstring → Z → option bytes).
Context (encode_hi1 : hi1_notify_data_t → cstring → cstring → option bytes).
Context (pdu_length : bytes → Z) (is_keepalive_response : bytes → bool) (sequence_number : bytes → Z).
Hypothesis keepalive_bytes : ∀ mid op seq ka, encode_keepalive mid op seq = Some ka → ka ≠ [].
Hypothesis hi1_bytes : ∀ nd op sop pdu, encode_hi1 nd op sop = Some pdu → 0 < zlen pdu ≤ RECORD_MAX.
Hypothesis pdu_length_nonneg : ∀ x, 0 ≤ pdu_length x.

Abbreviation ka := (is_keepalive encode_keepalive).
Abbreviation hinv := (ho_inv realloc_ok encode_keepalive).
Abbreviation hwp := (gwp (outlet_step ka)).
Abbreviation twp := (gwp (lea_step ka)).

Record lt_inv (k : Z) (s : lea_thread_state_t) (g : outlets) : Prop := {
  li_ho h : hinv k (lt_ho h s) (outlet_of h g);
  li_liids : liids_ok s.(lt_active_liids);
  li_main : Forall msg_ok s.(lt_in_main);
}.
Definition holds {A} (k : Z) (Q : A → lea_thread_state_t → outlets → Prop) : Prop := ∀ a s g, lt_inv k s g → Q a s g.

Lemma lt_inv_weaken k k' s g : k ≤ k' → lt_inv k s g → lt_inv k' s g.
Proof. intros Hk []. split; try done. intros h. by eapply ho_inv_weaken. Qed.
(** A handover changes. *)
Lemma lt_inv_set k h s ho g o : lt_inv k s g → hinv k ho o → lt_inv k (set_lt_ho h s ho) (set_outlet h g o).
Proof. intros [Hh Hl Hm] Ho. pose proof (Hh HANDOVER_HI2). pose proof (Hh HANDOVER_HI3). destruct s, h; (split; [intros []|..]); done. Qed.

Lemma gwp_on_ho {A} h (m : H A) Q s g :
  hwp m (λ a ho o, Q a (set_lt_ho h s ho) (set_outlet h g o)) (lt_ho h s) (outlet_of h g) → twp (on_ho h m) Q s g.
Proof.
  intros (a & ho & w & o & E & Hr & HQ). exists a, (set_lt_ho h s ho), (pair h <$> w), (set_outlet h g o).
  split; [|by split; [apply lea_runs|]]. unfold on_ho. by rewrite E.
Qed.
(** An operation on a handover that keeps its invariant. *)
Lemma twp_on_ho {A} k k' h (m : H A) Q s g :
  lt_inv k s g → k ≤ k' → (∀ Q', stays realloc_ok encode_keepalive k' (lt_ho h s) Q' → hwp m Q' (lt_ho h s) (outlet_of h g)) →
  holds k' Q → twp (on_ho h m) Q s g.
Proof.
  intros Hi Hk Hm HQ. apply gwp_on_ho, Hm. intros a ho o Ho _. apply HQ, lt_inv_set; [by eapply lt_inv_weaken|done].
Qed.
Lemma twp_on_ho_same {A} k h (m : H A) Q s g :
  lt_inv k s g → (∀ Q', (∀ r, Q' r (lt_ho h s) (outlet_of h g)) → hwp m Q' (lt_ho h s) (outlet_of h g)) →
  holds k Q → twp (on_ho h m) Q s g.
Proof. intros Hi Hm HQ. apply (twp_on_ho k k); [done|done| |done]. intros Q' HQ'. apply Hm. intros r. apply HQ'; [apply Hi|done]. Qed.
Lemma twp_modify k (f : handover_t → handover_t) h Q s g :
  lt_inv k s g → (∀ ho o, hinv k ho o → hinv k (f ho) o) → holds k Q → twp (on_ho h (mmodify f)) Q s g.
Proof. intros Hi Hf HQ. apply gwp_on_ho, gwp_modify, HQ, lt_inv_set; [done|]. apply Hf, Hi. Qed.
Lemma twp_timer k f timer put Q s g :
  lt_inv k s g → (∀ s t, lt_inv k s g → lt_inv k (put s t) g) → holds k Q → twp (timer_do f timer put) Q s g.
Proof.
  intros Hi Hp HQ. unfold timer_do. apply gwp_bind, gwp_get. destruct (f (timer s)) as [r t]. apply gwp_bind, gwp_put, gwp_ret. by apply HQ, Hp.
Qed.
Lemma twp_disconnect k e h Q s g : lt_inv k s g → holds k Q → twp (on_ho h (disconnect_handover e)) Q s g.
Proof.
  intros Hi HQ. apply gwp_on_ho, (hwp_disconnect realloc_ok encode_keepalive k); [apply Hi|]. intros ho o Ho _. by apply HQ, lt_inv_set.
Qed.
Lemma twp_reset k h Q s g : lt_inv k s g → holds k Q → twp (on_ho h reset_handover_rmq) Q s g.
Proof. intros Hi. apply (twp_on_ho k k); [done|done|]. intros Q'. apply hwp_reset_rmq, Hi. Qed.
Lemma twp_foreach k torun Q s g :
  lt_inv k s g → (∀ m s g, lt_inv k s g → twp (torun m) (λ _, lt_inv k) s g) → holds k Q → twp (foreach_active_liid torun) Q s g.
Proof.
  intros Hi Hrun HQ. unfold foreach_active_liid. apply gwp_bind, gwp_get, gwp_bind.
  eapply gwp_mono; [apply (gwp_foreach _ (lt_inv k)); [done|apply Hi|done]|]. intros [r map] s1 g1 [H1 Hm]. cbn [snd] in Hm.
  apply gwp_bind, gwp_modify, gwp_ret, HQ. destruct H1 as [Hh Hl Hms]. destruct s1. split; [intros h; by apply (Hh h)|done|done].
Qed.

(** *** Timers and LIIDs *)

Ltac thread_timer := eapply twp_timer; [eassumption|intros [] t [Hh ? ?]; split; [intros h; by apply (Hh h)|done|done]|].
Lemma twp_shutdown k f Q s g : lt_inv k s g → holds k Q → twp (shutdown_do f) Q s g.
Proof. intros Hi HQ. unfold shutdown_do. by thread_timer. Qed.
Lemma twp_timerev k f Q s g : lt_inv k s g → holds k Q → twp (timerev_do f) Q s g.
Proof. intros Hi HQ. unfold timerev_do. by thread_timer. Qed.
Lemma twp_rmqhb k f Q s g : lt_inv k s g → holds k Q → twp (rmqhb_do f) Q s g.
Proof. intros Hi HQ. unfold rmqhb_do. by thread_timer. Qed.
Lemma twp_cleanse k f Q s g : lt_inv k s g → holds k Q → twp (cleanse_do f) Q s g.
Proof. intros Hi HQ. unfold cleanse_do. by thread_timer. Qed.
Lemma lt_inv_liids k s g map : lt_inv k s g → liids_ok map → lt_inv k (set_lt_active_liids s map) g.
Proof. intros [Hh Hl Hm] Hmap. destruct s. split; [intros h; by apply (Hh h)|done|done]. Qed.

Lemma twp_iri_off k e liid Q s g : lt_inv k s g → holds k Q → twp (on_ho HANDOVER_HI2 (deregister_mediator_iri_RMQ_consumer e liid)) Q s g.
Proof. intros Hi. apply (twp_on_ho_same k); [done|]. intros Q'. apply hwp_cancel. Qed.
Lemma twp_cc_off k e liid Q s g : lt_inv k s g → holds k Q → twp (on_ho HANDOVER_HI3 (deregister_mediator_cc_RMQ_consumer e liid)) Q s g.
Proof. intros Hi. apply (twp_on_ho_same k); [done|]. intros Q'. apply hwp_cancel. Qed.

Lemma twp_start_shutdown k e timeout Q s g : lt_inv k s g → holds k Q → twp (start_shutdown_timer e timeout) Q s g.
Proof.
  intros Hi HQ. unfold start_shutdown_timer. apply gwp_bind, (twp_cleanse k); [done|]. intros _ s1 g1 H1.
  apply gwp_bind, (twp_shutdown k); [done|]. intros _ s2 g2 H2. apply gwp_bind, (twp_shutdown k); [done|]. intros _ s3 g3 H3.
  apply gwp_bind, (twp_foreach k); [done| |].
  - intros m s4 g4 H4. by apply gwp_ret.
  - intros _ s4 g4 H4. by apply gwp_ret, HQ.
Qed.
Lemma twp_purge_empty k e m s g : lt_inv k s g → twp (purge_empty_withdrawn_liid_queues e m) (λ _, lt_inv k) s g.
Proof.
  intros Hi. unfold purge_empty_withdrawn_liid_queues. destruct (negb _); [by apply gwp_ret|].
  assert (Hcc : ∀ m s g, lt_inv k s g → twp (m ← (if m.(lm_ccqueue_deleted) then mret m else
       r ← on_ho HANDOVER_HI3 (check_empty_mediator_cc_RMQ e m.(lm_liid));
       mret (if 0 <? r then set_lm_ccqueue_deleted true m else m));
     mret (if m.(lm_ccqueue_deleted) && m.(lm_iriqueue_deleted) then 1 else 0, m)) (λ _, lt_inv k) s g).
  { intros m1 s1 g1 H1. apply gwp_bind. destruct (lm_ccqueue_deleted m1); [by apply gwp_ret, gwp_ret|].
    apply gwp_bind, (twp_on_ho_same k); [done|intros Q'; apply hwp_check_empty|]. intros r s2 g2 H2. by apply gwp_ret, gwp_ret. }
  apply gwp_bind. destruct (lm_iriqueue_deleted m); [by apply gwp_ret, Hcc|].
  apply gwp_bind, (twp_on_ho_same k); [done|intros Q'; apply hwp_check_empty|]. intros r s2 g2 H2. by apply gwp_ret, Hcc.
Qed.
Lemma twp_unconfirmed k e m s g : lt_inv k s g → twp (set_unconfirmed_liid_as_withdrawn e m) (λ _, lt_inv k) s g.
Proof.
  intros Hi. unfold set_unconfirmed_liid_as_withdrawn. destruct (negb _); [by apply gwp_ret|].
  apply gwp_bind, (twp_iri_off k); [done|]. intros _ s1 g1 H1. apply gwp_bind, (twp_cc_off k); [done|]. intros _ s2 g2 H2. by apply gwp_ret.
Qed.

Lemma jsl_insert_Forall {V} (P : bytes * V → Prop) key v l : P (key, v) → Forall P l → Forall P (jsl_insert key v l).
Proof. intros Hv. induction 1 as [|[k' v'] l H Hl IH]; cbn [jsl_insert]; [by repeat constructor|]. destruct (str_before _ _); by repeat constructor. Qed.
Lemma update_liids key m map : liids_ok map → liids_ok (hash_update key m map).
Proof. intros H. unfold liids_ok, hash_update. apply Forall_map. eapply Forall_impl; [exact H|]. intros x Hx. by destruct (decide _) as [<-|]. Qed.
Lemma remove_liids key (map : liid_map_t) : liids_ok map → liids_ok (hash_delete key map).
Proof. apply Forall_filter. Qed.

Lemma twp_purge_mapping k e liid Q s g : lt_inv k s g → holds k Q → twp (purge_lea_liid_mapping e liid) Q s g.
Proof.
  intros Hi HQ. unfold purge_lea_liid_mapping. apply gwp_bind, gwp_get. destruct (lookup_liid_agency_mapping _ _) as [m|]; [|by apply gwp_ret, HQ].
  assert (Hend : ∀ s g, lt_inv k s g → twp (_ ← mmodify (λ s, set_lt_active_liids s (remove_liid_agency_mapping m s.(lt_active_liids))); mret 1) Q s g).
  { intros s1 g1 H1. apply gwp_bind, gwp_modify, gwp_ret, HQ, lt_inv_liids; [done|]. apply remove_liids, H1. }
  apply gwp_bind, (twp_iri_off k); [done|]. intros r s1 g1 H1. apply gwp_bind. destruct (r <? 0); [by apply gwp_ret, Hend|].
  apply (twp_cc_off k); [done|]. intros _ s2 g2 H2. by apply Hend.
Qed.
Lemma twp_insert_mapping k e liid Q s g :
  zlen liid < 1024 → lt_inv k s g → holds k Q → twp (insert_lea_liid_mapping e liid) Q s g.
Proof.
  intros Hl Hi HQ. unfold insert_lea_liid_mapping. apply gwp_bind, gwp_get.
  destruct (add_liid_agency_mapping liid _) as [r map] eqn:E. cbv beta iota.
  assert (Hm : liids_ok map).
  { pose proof (li_liids _ _ _ Hi) as Hm. unfold add_liid_agency_mapping in E. destruct (hash_find _ _); injection E as _ <-.
    - by apply update_liids. - by apply jsl_insert_Forall. }
  apply gwp_bind, gwp_put. pose proof (lt_inv_liids _ _ _ _ Hi Hm) as H0. destruct (r =? 0); [by apply gwp_ret, HQ|].
  apply gwp_bind, (twp_on_ho_same k); [done|intros Q'; apply hwp_register|]. intros r1 s1 g1 H1.
  apply gwp_bind. destruct (r1 <? 0); [by apply gwp_ret, gwp_ret, HQ|].
  apply (twp_on_ho_same k); [done|intros Q'; apply hwp_register|]. intros r2 s2 g2 H2. by apply gwp_ret, HQ.
Qed.

(** *** A new announcement *)

Lemma twp_update_handover k e h ip port Q s g :
  ip ≠ None → port ≠ None → lt_inv k s g → holds k Q → twp (update_handover e h ip port) Q s g.
Proof.
  intros Hip Hport Hi HQ. unfold update_handover. apply gwp_bind, gwp_get. cbv zeta.
  destruct (hv_address _ _ _ _ _ (li_ho _ _ _ Hi h)) as [Hoi Hop].
  destruct (ho_ipstr (lt_ho h s)) as [oldip|]; [|done]. destruct (ho_portstr (lt_ho h s)) as [oldport|]; [|done].
  destruct ip as [ip|]; [|done]. destruct port as [port|]; [|done].
  apply gwp_bind. eapply gwp_lift; [done|]. apply gwp_bind.
  assert (Hend : ∀ differ : bool, twp (if differ then _ ← on_ho h (disconnect_handover e);
     on_ho h (mmodify (λ ho, set_ho_address ho (Some ip) (Some port))) else mret tt) Q s g).
  { intros []; [|by apply gwp_ret, HQ]. apply gwp_bind, (twp_disconnect k); [done|]. intros _ s1 g1 H1.
    apply (twp_modify k); [done| |done]. intros ho o Ho. destruct ho, Ho. by split. }
  destruct (bool_decide _); [by apply gwp_ret, (Hend true)|]. apply gwp_bind. eapply gwp_lift; [done|]. apply gwp_ret, (Hend (bool_decide _)).
Qed.
Lemma twp_update_agency k e lea Q s g :
  address_ok lea → lt_inv k s g → holds k Q → twp (update_agency_handovers e lea) Q s g.
Proof.
  intros (Ha & Hb & Hc & Hd) Hi HQ. unfold update_agency_handovers. apply gwp_bind, (twp_update_handover k); [done..|]. intros _ s1 g1 H1.
  apply gwp_bind, (twp_update_handover k); [done..|]. intros _ s2 g2 H2. cbv zeta.
  assert (Hk : ∀ ho o, hinv k ho o → hinv k (set_hs_keepalive ho lea.(lea_keepalivefreq) lea.(lea_keepalivewait)) o).
  { intros ho o Ho. destruct ho, Ho. by split. }
  apply gwp_bind, (twp_modify k); [done..|]. intros _ s3 g3 H3. by apply (twp_modify k).
Qed.

(** *** Records *)

Lemma connection_good_inv k ho o : hinv k ho o → hinv k (set_ho_disconnect_msg ho false) o.
Proof. intros Ho. destruct ho, Ho. by split. Qed.
Lemma ho_set_id h s : set_lt_ho h s (lt_ho h s) = s.
Proof. by destruct s, h. Qed.

(** Records are taken from the broker and sent. *)
Definition consume_some (e : med_env) (h : handover_type_t) : H Z :=
  match h with
  | HANDOVER_HI3 => consume_mediator_cc_messages realloc_ok e 32
  | HANDOVER_HI2 => consume_mediator_iri_messages realloc_ok e 32
  end.
Lemma hwp_consume_some e h Q ho o : env_ok e → hinv 0 ho o → consumed realloc_ok encode_keepalive 32 ho Q → hwp (consume_some e h) Q ho o.
Proof. intros He Hi HQ. destruct h; (apply (hwp_consume realloc_ok encode_keepalive e 32 _ 0); [done|done|done|done|done|done]). Qed.

Lemma ka_first_same e ho ho' : same_connection ho ho' → ka_first e ho → ka_first e ho'.
Proof. intros [_ Hp] [H|H]; [left; congruence|by right]. Qed.
Lemma lt_ho_timer h s t : lt_ho h (set_lt_rmqhb s t) = lt_ho h s.
Proof. by destruct h, s. Qed.
Lemma lt_inv_rmqhb k s t g : lt_inv k s g → lt_inv k (set_lt_rmqhb s t) g.
Proof. intros [Hh ? ?]. split; [intros h; rewrite lt_ho_timer; apply Hh|by destruct s|by destruct s]. Qed.

Lemma twp_consume_available e h Q s g :
  env_ok e → ka_first e (lt_ho h s) → lt_inv 0 s g → (lt_ho h s).(ho_outev) ≠ None → holds 32 Q →
  twp (consume_available_rmq_records realloc_ok e h) Q s g.
Proof.
  intros He Hka Hi Hout HQ. unfold consume_available_rmq_records. apply gwp_bind, gwp_get.
  assert (HQ0 : ∀ r k s g, k ≤ 32 → lt_inv k s g → twp (mret r) Q s g).
  { intros r k s1 g1 Hk H1. apply gwp_ret, HQ. by eapply lt_inv_weaken. }
  assert (Hgood : ∀ k s g, k ≤ 32 → lt_inv k s g → twp (_ ← on_ho h connection_good; mret 0) Q s g).
  { intros k s1 g1 Hk H1. apply gwp_bind, (twp_modify k); [done|by apply connection_good_inv|]. intros _ s2 g2 H2. by apply (HQ0 0 k). }
  assert (Hreset : ∀ k s g, k ≤ 32 → lt_inv k s g → twp (_ ← on_ho h reset_handover_rmq; mret 0) Q s g).
  { intros k s1 g1 Hk H1. apply gwp_bind, (twp_reset k); [done|]. intros _ s2 g2 H2. by apply (HQ0 0 k). }
  destruct (negb _); [by apply (HQ0 0 0)|].
  apply gwp_bind, gwp_on_ho, (hwp_send_available realloc_ok encode_keepalive 0); [done|done|apply Hi|done|lia|].
  intros r ho1 o1 Hi1 Ho1 Hr. pose proof (lt_inv_set 0 h s ho1 g o1 Hi Hi1) as H1.
  destruct Hr as [[-> ->]|[->|[->| ->]]]; cbn; [|by apply (Hgood 0)|by apply (HQ0 _ 0)|by apply (Hreset 0)].
  clear H1 Ho1. set (s0 := set_lt_ho h s (lt_ho h s)). set (g0 := set_outlet h g o1).
  assert (E0 : s0 = s) by apply ho_set_id. clearbody s0. subst s0. pose proof (lt_inv_set 0 h s (lt_ho h s) g o1 Hi Hi1) as H0.
  rewrite ho_set_id in H0. fold g0 in H0. clearbody g0. clear Hi Hi1 o1 g.
  (* the last part *)
  assert (Hlast : ∀ s g, lt_inv 32 s g → ka_first e (lt_ho h s) → (lt_ho h s).(ho_outev) ≠ None →
    twp (r ← on_ho h (send_available_rmq_records realloc_ok e);
         if 0 <? r then _ ← on_ho h connection_good; mret 0
         else if r =? -2 then _ ← on_ho h reset_handover_rmq; mret 0
         else mret r) Q s g).
  { intros s1 g1 H1 Hka1 Hout1. apply gwp_bind, gwp_on_ho, (hwp_send_available realloc_ok encode_keepalive 32); [done|done|apply H1|done|lia|].
    intros r ho2 o2 Hi2 _ _. pose proof (lt_inv_set 32 h s1 ho2 g1 o2 H1 Hi2) as H2.
    destruct (0 <? r); [by apply (Hgood 32)|]. destruct (r =? -2); [by apply (Hreset 32)|]. by apply (HQ0 _ 32). }
  apply gwp_bind, gwp_on_ho, (hwp_consume_some e h); [done|apply H0|]. intros r ho1 o1 Hi1 Hsame Hl.
  pose proof (lt_inv_set 32 h s ho1 g0 o1 (lt_inv_weaken 0 32 _ _ ltac:(lia) H0) Hi1) as H1.
  destruct (r <? 0); [by apply (Hreset 32)|].
  set (R := λ s g, lt_inv 32 s g ∧ ka_first e (lt_ho h s) ∧ (lt_ho h s).(ho_outev) ≠ None).
  assert (Hmid : ∀ s g, R s g → twp (s ← mget;
    _ ← (if (lt_ho h s).(ho_rmq_consumer) then
           _ ← rmqhb_do (halt e); rmqhb_do (start_for e s.(lt_config).(mc_heartbeatFreq)) else mret 0);
    r ← on_ho h (send_available_rmq_records realloc_ok e);
    if 0 <? r then _ ← on_ho h connection_good; mret 0
    else if r =? -2 then _ ← on_ho h reset_handover_rmq; mret 0
    else mret r) Q s g).
  { intros s1 g1 (Hi2 & Hk2 & Ho2). apply gwp_bind, gwp_get, gwp_bind. destruct (ho_rmq_consumer _); [|by apply gwp_ret, Hlast].
    unfold rmqhb_do, timer_do. apply gwp_bind, gwp_bind, gwp_get. destruct (halt e _) as [r1 t1]. apply gwp_bind, gwp_put, gwp_ret.
    apply gwp_bind, gwp_get. destruct (start_for e _ _) as [r2 t2]. apply gwp_bind, gwp_put, gwp_ret.
    apply Hlast; rewrite ?lt_ho_timer; [by apply lt_inv_rmqhb, lt_inv_rmqhb|done|done]. }
  assert (HR : R (set_lt_ho h s ho1) (set_outlet h g0 o1)).
  { unfold R. rewrite lt_ho_set. split; [done|]. split; [by eapply ka_first_same|]. destruct Hsame as [-> _]. done. }
  apply gwp_bind. destruct (Z.ltb_spec 0 r) as [Hr|Hr]; [|by apply gwp_ret, Hmid].
  apply gwp_on_ho, gwp_modify, Hmid. unfold R. rewrite !lt_ho_set. destruct Hsame as [Hso Hsp]. split; [|split].
  - apply lt_inv_set; [done|]. rewrite outlet_set. specialize (Hl Hr). destruct ho1, Hi1. by split.
  - apply (ka_first_same e (lt_ho h s)); [|done]. by destruct ho1.
  - by destruct ho1; cbn in *; rewrite Hso.
Qed.

(** *** Events *)

Lemma twp_rmqcheck e Q s g :
  env_ok e → lt_inv 0 s g → holds 1 Q → twp (agency_thread_action_rmqcheck_timer realloc_ok e) Q s g.
Proof.
  intros He Hi HQ. unfold agency_thread_action_rmqcheck_timer. apply gwp_bind, (twp_rmqhb 0); [done|]. intros _ s1 g1 H1.
  assert (Hend : ∀ s g, lt_inv 1 s g → twp (_ ← foreach_active_liid (purge_empty_withdrawn_liid_queues e);
    s ← mget; r ← rmqhb_do (start_for e s.(lt_config).(mc_heartbeatFreq)); mret (if r <? 0 then 0 else 1)) Q s g).
  { intros s2 g2 H2. apply gwp_bind, (twp_foreach 1); [done|intros; by apply twp_purge_empty|]. intros _ s3 g3 H3.
    apply gwp_bind, gwp_get, gwp_bind, (twp_rmqhb 1); [done|]. intros r s4 g4 H4. by apply gwp_ret, HQ. }
  apply gwp_bind, gwp_on_ho, (hwp_check_status realloc_ok encode_keepalive 0); [done|apply H1|lia|]. intros _ ho2 o2 H2 _.
  pose proof (li_ho _ _ _ H1 HANDOVER_HI3) as H3. destruct s1 as [i a b d l c m w t r n], g1 as [p q]. cbn in H3.
  apply gwp_bind, gwp_on_ho. cbn [lt_ho outlet_of set_lt_ho set_outlet set_lt_hi2 fst snd].
  apply (hwp_check_status realloc_ok encode_keepalive 0); [done|exact H3|lia|]. intros _ ho3 o3 Ho3 _. apply Hend.
  split; [intros []; done|apply (li_liids _ _ _ H1)|apply (li_main _ _ _ H1)].
Qed.

(** The handover of the event is connected. *)
Definition event_there (ev : lea_epoll_event) (s : lea_thread_state_t) : Prop :=
  match ev with Ev_lea h _ _ _ => (lt_ho h s).(ho_outev) ≠ None | _ => True end.
Lemma twp_event e ev Q s g :
  env_ok e → lt_inv 0 s g → event_there ev s → holds 32 Q →
  twp (agency_thread_epoll_event realloc_ok encode_keepalive pdu_length is_keepalive_response sequence_number e ev) Q s g.
Proof.
  intros He Hi Hev HQ.
  assert (HQ0 : ∀ r k s g, k ≤ 32 → lt_inv k s g → twp (mret r) Q s g).
  { intros r k s1 g1 Hk H1. apply gwp_ret, HQ. by eapply lt_inv_weaken. }
  destruct ev as [epollin| | | |h|h|h rdhup epollin epollout]; cbn [agency_thread_epoll_event].
  - by apply (HQ0 _ 0).
  - apply twp_rmqcheck; [done..|]. intros r s1 g1 H1. apply HQ. by apply (lt_inv_weaken 1).
  - by apply (HQ0 _ 0).
  - unfold agency_thread_action_cease_liid_timer. apply gwp_bind, (twp_cleanse 0); [done|]. intros _ s1 g1 H1.
    apply gwp_bind, (twp_foreach 0); [done|intros; by apply twp_unconfirmed|]. intros _ s2 g2 H2. by apply (HQ0 _ 0).
  - apply gwp_bind, gwp_get, gwp_bind, (twp_on_ho 0 0); [done|done| |].
    + intros Q' HQ'. apply (hwp_trigger_keepalive realloc_ok encode_keepalive 0); [apply Hi|done].
    + intros _ s1 g1 H1. by apply (HQ0 _ 0).
  - apply gwp_bind, (twp_on_ho 0 0); [done|done| |].
    + intros Q' HQ'. apply (hwp_resp_halt realloc_ok encode_keepalive 0); [apply Hi|done].
    + intros _ s1 g1 H1. unfold trigger_handover_ka_failure. apply gwp_bind, gwp_on_ho.
      apply gwp_bind, (hwp_resp_halt realloc_ok encode_keepalive 0); [apply H1|]. intros _ ho2 o2 Ho2 _.
      apply (hwp_disconnect realloc_ok encode_keepalive 0); [done|]. intros ho3 o3 Ho3 _. by apply (HQ0 _ 0), lt_inv_set.
  - cbn in Hev.
    assert (Hend : ∀ r s g, lt_inv 32 s g → twp (if r =? -1 then _ ← on_ho h (disconnect_handover e); mret 0 else mret r) Q s g).
    { intros r s1 g1 H1. destruct (r =? -1); [|by apply (HQ0 _ 32)]. apply gwp_bind, (twp_disconnect 32); [done|]. intros _ s2 g2 H2. by apply (HQ0 _ 32). }
    assert (Hi32 : lt_inv 32 s g) by by eapply (lt_inv_weaken 0).
    apply gwp_bind. destruct rdhup; [by apply gwp_ret, (Hend (-1))|]. destruct epollin; [|destruct epollout; [|by apply gwp_ret, (Hend (-1))]].
    + apply gwp_on_ho, (hwp_receive realloc_ok encode_keepalive pdu_length is_keepalive_response sequence_number pdu_length_nonneg 0); [apply Hi|done|].
      intros r ho1 o1 Hi1 Ho1. apply Hend, lt_inv_set; [done|]. by apply (ho_inv_weaken _ _ 0).
    + apply gwp_bind, gwp_on_ho, (hwp_xmit_keepalive realloc_ok encode_keepalive keepalive_bytes 0); [done|apply Hi|done|].
      intros r ho1 o1 Hi1 Ho1 Hka1. pose proof (lt_inv_set 0 h s ho1 g o1 Hi Hi1) as H1. apply gwp_bind, gwp_get.
      destruct (_ && _); [apply gwp_ret, (Hend 0); by eapply (lt_inv_weaken 0)|].
      apply twp_consume_available; rewrite ?lt_ho_set; [done|done|done|congruence|]. intros r2 s2 g2 H2. by apply Hend.
Qed.

(** *** Messages *)

Lemma twp_read_config k parent Q s g : lt_inv k s g → holds k Q → twp (read_parent_config parent) Q s g.
Proof.
  intros Hi HQ. unfold read_parent_config. apply gwp_bind, gwp_get, gwp_bind.
  assert (Hend : ∀ changed, twp (_ ← mput (set_lt_config s parent); mret (b2z changed)) Q s g).
  { intros b. apply gwp_bind, gwp_put, gwp_ret, HQ. destruct s, Hi as [Hh Hl Hm]. split; [intros h; by apply (Hh h)|done|done]. }
  by destruct (mc_internalpass _); (eapply gwp_lift; [done|]).
Qed.
Lemma twp_publish_hi1 k ndata Q s g :
  lt_inv k s g → 0 ≤ k ≤ 1999 → holds (k + 1) Q → twp (publish_hi1_notification realloc_ok encode_hi1 ndata) Q s g.
Proof.
  intros Hi Hk HQ. assert (HQ0 : twp (mret tt) Q s g) by (apply gwp_ret, HQ; by apply (lt_inv_weaken k); [lia|]).
  unfold publish_hi1_notification. destruct ndata as [nd|]; [|done]. apply gwp_bind, gwp_get.
  destruct (encode_hi1 _ _ _) as [pdu|] eqn:E; [|done]. apply hi1_bytes in E.
  apply gwp_on_ho, (hwp_notify realloc_ok encode_keepalive k); [apply Hi|lia|done|]. intros r ho o Ho _.
  apply HQ, lt_inv_set; [|done]. by apply (lt_inv_weaken k); [lia|].
Qed.

Lemma twp_disconnect_both k e Q s g :
  lt_inv k s g → holds k Q →
  twp (_ ← on_ho HANDOVER_HI2 (disconnect_handover e); on_ho HANDOVER_HI3 (disconnect_handover e)) Q s g.
Proof. intros Hi HQ. apply gwp_bind, (twp_disconnect k); [done|]. intros _ s1 g1 H1. by apply (twp_disconnect k). Qed.
Lemma twp_reconnect k e b Q s g :
  lt_inv k s g → holds k Q →
  twp (_ ← on_ho HANDOVER_HI2 (disconnect_handover e); _ ← on_ho HANDOVER_HI3 (disconnect_handover e);
       _ ← mmodify (λ s, set_lt_disabled s b); mret false) Q s g.
Proof.
  intros Hi HQ. apply gwp_bind, (twp_disconnect k); [done|]. intros _ s1 g1 H1. apply gwp_bind, (twp_disconnect k); [done|].
  intros _ s2 g2 [Hh Hl Hm]. apply gwp_bind, gwp_modify, gwp_ret, HQ. destruct s2. split; [intros h; by apply (Hh h)|done|done].
Qed.

Lemma twp_message k e parent msg Q s g :
  msg_ok msg → lt_inv k s g → 0 ≤ k ≤ 1999 → holds (k + 1) Q → twp (handle_agency_message realloc_ok encode_hi1 e parent msg) Q s g.
Proof.
  intros Hmsg Hi Hk HQ.
  assert (HQ0 : ∀ b s g, lt_inv k s g → twp (mret b) Q s g).
  { intros b s1 g1 H1. apply gwp_ret, HQ. by apply (lt_inv_weaken k); [lia|]. }
  assert (HQk : holds k Q) by (intros b s1 g1 H1; apply HQ; by apply (lt_inv_weaken k); [lia|]).
  destruct msg as [| | |lea|liid|liid agencyid| |ndata|timeout]; cbn [handle_agency_message msg_ok] in *.
  - by apply (twp_reconnect k).
  - by apply (twp_reconnect k).
  - by apply HQ0.
  - apply gwp_bind, (twp_shutdown k); [done|]. intros _ s1 g1 H1. apply gwp_bind, (twp_update_agency k); [done..|]. intros _ s2 g2 H2.
    apply gwp_bind, (twp_cleanse k); [done|]. intros _ s3 g3 H3. apply gwp_bind, (twp_cleanse k); [done|]. intros _ s4 g4 H4. by apply HQ0.
  - apply gwp_bind, (twp_iri_off k); [done|]. intros _ s1 g1 H1. apply gwp_bind, (twp_cc_off k); [done|]. intros _ s2 g2 H2.
    apply gwp_bind, gwp_modify, HQ0, lt_inv_liids; [done|]. unfold withdraw_liid_agency_mapping.
    destruct (hash_find _ _); [by apply update_liids, H2|by apply H2].
  - apply gwp_bind, gwp_get, gwp_bind. destruct (bool_decide _).
    + apply (twp_purge_mapping k); [done|]. intros _ s1 g1 H1. by apply HQ0.
    + apply (twp_insert_mapping k); [done..|]. intros _ s1 g1 H1. by apply HQ0.
  - apply gwp_bind, (twp_read_config k); [done|]. intros r s1 g1 H1. apply gwp_bind. destruct (r =? 1); [|by apply gwp_ret, HQ0].
    apply gwp_bind, (twp_reset k); [done|]. intros _ s2 g2 H2. apply (twp_reset k); [done|]. intros _ s3 g3 H3. by apply HQ0.
  - apply gwp_bind, (twp_publish_hi1 k); [done|done|]. intros _ s1 g1 H1. by apply gwp_ret, HQ.
  - apply gwp_bind, (twp_start_shutdown k); [done|]. intros _ s1 g1 H1. by apply HQ0.
Qed.

Lemma lt_inv_main k s g msgs : Forall msg_ok msgs → lt_inv k s g → lt_inv k (set_lt_in_main s msgs) g.
Proof. intros Hms [Hh Hl Hm]. destruct s. split; [intros h; by apply (Hh h)|done|done]. Qed.
Lemma twp_messages e parent Q : ∀ msgs k s g,
  Forall msg_ok msgs → lt_inv k s g → 0 ≤ k → k + zlen msgs ≤ 1999 → holds (k + zlen msgs) Q →
  twp (process_messages realloc_ok encode_hi1 e parent msgs) Q s g.
Proof.
  induction msgs as [|msg msgs IH]; intros k s g Hms Hi Hk Hl HQ; cbn [process_messages].
  { apply gwp_ret, HQ. by apply (lt_inv_weaken k); [rewrite zlen_nil; lia|]. }
  apply Forall_cons in Hms as [Hm Hms]. rewrite zlen_cons in *. zlen_pose. apply gwp_bind, gwp_modify, gwp_bind.
  apply (twp_message k); [done|by apply lt_inv_main|lia|]. intros halted s1 g1 H1. destruct halted.
  - apply gwp_ret, HQ. by apply (lt_inv_weaken (k + 1)); [lia|].
  - apply (IH (k + 1)); [done|done|lia|lia|]. intros r s2 g2 H2. apply HQ. by apply (lt_inv_weaken (k + 1 + zlen msgs)); [lia|].
Qed.

(** *** The thread *)

Lemma twp_destroy k e Q s g : lt_inv k s g → holds k Q → twp (destroy_agency_thread_state e) Q s g.
Proof.
  intros Hi HQ. unfold destroy_agency_thread_state. apply gwp_bind, (twp_disconnect k); [done|]. intros _ s1 g1 H1.
  apply gwp_bind, (twp_disconnect k); [done|]. intros _ s2 g2 H2. apply gwp_modify, HQ, lt_inv_liids; [done|]. by constructor.
Qed.
Lemma twp_register_handover k e h Q s g : lt_inv k s g → holds k Q → twp (register_handover e h) Q s g.
Proof.
  intros Hi HQ. unfold register_handover. apply gwp_bind, gwp_get. cbv zeta. destruct (_ && _); [|by apply gwp_ret, HQ].
  apply gwp_bind, gwp_on_ho, (hwp_register_all realloc_ok encode_keepalive k); [apply Hi|apply Hi|]. intros r map ho o Ho Hm.
  apply gwp_modify, HQ, lt_inv_liids; [|done]. by apply lt_inv_set.
Qed.
Lemma twp_ended k e (ph : thread_phase) Q s g : lt_inv k s g → holds k Q → twp (_ ← destroy_agency_thread_state e; mret ph) Q s g.
Proof. intros Hi HQ. apply gwp_bind, (twp_destroy k); [done|]. intros _ s1 g1 H1. by apply gwp_ret, HQ. Qed.

Lemma twp_top e parent Q s g :
  lt_inv 0 s g → zlen s.(lt_in_main) ≤ 1000 → holds 1000 Q → twp (agency_thread_top realloc_ok encode_hi1 e parent) Q s g.
Proof.
  intros Hi Hl HQ. unfold agency_thread_top. apply gwp_bind, gwp_get. cbv zeta. apply gwp_bind.
  assert (HQ0 : holds 0 Q) by (intros a s1 g1 H1; apply HQ; by apply (lt_inv_weaken 0)).
  assert (Hend : ∀ (failed : bool) s g, lt_inv 0 s g → zlen s.(lt_in_main) ≤ 1000 →
    twp (if failed then _ ← destroy_agency_thread_state e; mret Ended else
      r ← process_agency_messages realloc_ok encode_hi1 e parent;
      if negb (r =? 0) then _ ← destroy_agency_thread_state e; mret Ended else
      s ← mget;
      _ ← (if s.(lt_disabled) then mret tt else _ ← register_handover e HANDOVER_HI2; register_handover e HANDOVER_HI3);
      r ← timerev_do (start_for e 1);
      if r <? 0 then _ ← destroy_agency_thread_state e; mret Ended else mret In_epoll) Q s g).
  { intros [] s1 g1 H1 Hl1; [by apply (twp_ended 0)|]. apply gwp_bind. unfold process_agency_messages. apply gwp_bind, gwp_get.
    apply (twp_messages _ _ _ _ 0); [apply H1|done|lia|lia|]. intros r s2 g2 H2. apply (lt_inv_weaken _ 1000) in H2; [|lia].
    destruct (negb _); [by apply (twp_ended 1000)|]. apply gwp_bind, gwp_get, gwp_bind.
    assert (Hlast : ∀ s g, lt_inv 1000 s g → twp (r ← timerev_do (start_for e 1);
      if r <? 0 then _ ← destroy_agency_thread_state e; mret Ended else mret In_epoll) Q s g).
    { intros s3 g3 H3. apply gwp_bind, (twp_timerev 1000); [done|]. intros r3 s4 g4 H4. destruct (r3 <? 0); [by apply (twp_ended 1000)|by apply gwp_ret, HQ]. }
    destruct (lt_disabled s2); [by apply gwp_ret, Hlast|]. apply gwp_bind, (twp_register_handover 1000); [done|]. intros _ s3 g3 H3.
    apply (twp_register_handover 1000); [done|]. intros _ s4 g4 H4. by apply Hlast. }
  destruct (_ && _); [|by apply gwp_ret, (Hend false)].
  apply gwp_bind, gwp_on_ho, (hwp_connect realloc_ok encode_keepalive 0); [apply Hi|]. intros r2 ho2 o2 Hi2.
  pose proof (lt_inv_set 0 HANDOVER_HI2 _ _ _ _ Hi Hi2) as H2.
  apply gwp_bind, gwp_on_ho, (hwp_connect realloc_ok encode_keepalive 0); [apply H2|]. intros r3 ho3 o3 Hi3.
  pose proof (lt_inv_set 0 HANDOVER_HI3 _ _ _ _ H2 Hi3) as H3.
  apply gwp_ret, (Hend ((r2 <? 0) || (r3 <? 0))); [done|]. by destruct s.
Qed.

Lemma twp_thread_event e ev Q s g :
  env_ok e → lt_inv 0 s g → holds 1000 Q →
  twp (agency_thread_event realloc_ok encode_keepalive pdu_length is_keepalive_response sequence_number e ev) Q s g.
Proof.
  intros He Hi HQ. unfold agency_thread_event. apply gwp_bind, gwp_get. cbv zeta.
  assert (HQ1 : ∀ k ph s g, k ≤ 1000 → lt_inv k s g → twp (mret ph) Q s g) by (intros k ph s1 g1 Hk H1; apply gwp_ret, HQ; by apply (lt_inv_weaken k)).
  assert (Hgo : event_there ev s → twp (r ← agency_thread_epoll_event realloc_ok encode_keepalive pdu_length is_keepalive_response sequence_number e ev;
    if r =? -1 then _ ← timerev_do (halt e); _ ← destroy_agency_thread_state e; mret Ended
    else if r =? 0 then mret In_epoll else _ ← timerev_do (halt e); mret At_top) Q s g).
  { intros Hev. apply gwp_bind, twp_event; [done..|]. intros r s1 g1 H1. destruct (r =? -1); [|destruct (r =? 0); [by apply (HQ1 32)|]].
    - apply gwp_bind, (twp_timerev 32); [done|]. intros _ s2 g2 H2. apply (twp_ended 32); [done|]. intros ph s3 g3 H3. apply HQ. by apply (lt_inv_weaken 32).
    - apply gwp_bind, (twp_timerev 32); [done|]. intros _ s2 g2 H2. by apply (HQ1 32). }
  destruct ev; try (by apply Hgo). cbn [negb]. destruct (bool_decide _) eqn:Eb; cbn [negb]; [by apply (HQ1 0)|].
  apply bool_decide_eq_false in Eb. by apply Hgo.
Qed.

(** *** Runs *)

(** The buffers have room, and there are not too many messages. *)
Definition roomy (i : thread_input) (s : lea_thread_state_t) : Prop :=
  (∀ h, zlen (eb_content (lt_ho h s).(hs_buf)) ≤ 8 * 1024 * 1024 ∧ zlen (lt_ho h s).(hs_buf).(eb_data) ≤ 2 ^ 30) ∧
  zlen (s.(lt_in_main) ++ i.(ti_queued)) ≤ 1000.
Definition input_ok (i : thread_input) : Prop := env_ok i.(ti_env) ∧ Forall msg_ok i.(ti_queued).

Lemma lt_inv_room k i s g : roomy i s → lt_inv k s g → lt_inv 0 s g.
Proof.
  intros [Hr _] [Hh Hl Hm]. split; [|done|done]. intros h. destruct (Hr h) as [Hc Hd]. destruct (Hh h) as [[] ? ? ? ? ? ? ? ?].
  by split.
Qed.
Lemma twp_step i ph k s g :
  input_ok i → roomy i s → lt_inv k s g →
  twp (thread_step realloc_ok encode_keepalive encode_hi1 pdu_length is_keepalive_response sequence_number i ph)
    (λ _, lt_inv 1000) s g.
Proof.
  intros [He Hq] Hr Hi%(lt_inv_room k i); [|done]. unfold thread_step. apply gwp_bind, gwp_modify.
  assert (H1 : lt_inv 0 (set_lt_in_main s (s.(lt_in_main) ++ i.(ti_queued))) g).
  { apply lt_inv_main; [|done]. apply Forall_app. split; [apply Hi|done]. }
  destruct ph.
  - apply twp_top; [done| |by intros a s1 g1 H2]. destruct s. apply Hr.
  - apply twp_thread_event; [done|done|by intros a s1 g1 H2].
  - apply gwp_ret. by apply (lt_inv_weaken 0).
Qed.

(** The thread of a new agency, and what it does with the inputs [l]. *)
Definition agency_run (e : med_env) (parent : mediator_lea_config_t) (lea : liagency_t) (agencyid : bytes) (l : list thread_input)
    : outcome (thread_phase * lea_thread_state_t * list lea_event) :=
  (ph ← start_agency_thread e parent;
   run_thread realloc_ok encode_keepalive encode_hi1 pdu_length is_keepalive_response sequence_number l ph)
    (new_agency_thread e lea agencyid).

Lemma twp_start e parent lea agencyid :
  address_ok lea →
  twp (start_agency_thread e parent) (λ _, lt_inv 0) (new_agency_thread e lea agencyid) (fresh_outlet, fresh_outlet).
Proof.
  intros (H1 & H2 & H3 & H4).
  assert (Hbuf : buf_holds realloc_ok 0 init_export_buffer [] [] 0).
  { split; try done. apply init_export_buffer_wf. }
  assert (Hi : lt_inv 0 (new_agency_thread e lea agencyid) (fresh_outlet, fresh_outlet)).
  { split; [|by constructor|by constructor]. intros []; split; done. }
  unfold start_agency_thread. apply gwp_bind, (twp_read_config 0); [done|]. intros _ s1 g1 Hi1.
  apply gwp_bind. unfold create_agency_thread_timers. apply gwp_bind, gwp_modify, gwp_bind, gwp_modify, gwp_bind, gwp_get, gwp_bind.
  apply (twp_rmqhb 0).
  { destruct s1, Hi1 as [Hh ? ?]. split; [intros h; by apply (Hh h)|done|done]. }
  intros r s2 g2 Hi2. apply gwp_ret. destruct (_ <? 0); [|by apply gwp_ret]. apply (twp_ended 0); [done|by intros a s3 g3 H].
Qed.

Lemma run_thread_snoc l i ph s :
  run_thread realloc_ok encode_keepalive encode_hi1 pdu_length is_keepalive_response sequence_number (l ++ [i]) ph s =
  (ph ← run_thread realloc_ok encode_keepalive encode_hi1 pdu_length is_keepalive_response sequence_number l ph;
   thread_step realloc_ok encode_keepalive encode_hi1 pdu_length is_keepalive_response sequence_number i ph) s.
Proof.
  revert ph s. induction l as [|j l IH]; intros ph s; cbn [app run_thread].
  - unfold mbind, MW_bind, mret, MW_ret.
    destruct (thread_step _ _ _ _ _ _ i ph s) as [[[a s'] w]| |]; [|done..]. by rewrite app_nil_r.
  - unfold mbind, MW_bind in *. destruct (thread_step _ _ _ _ _ _ j ph s) as [[[a s'] w]| |]; [|done..]. rewrite IH.
    destruct (run_thread _ _ _ _ _ _ l a s') as [[[a1 s1] w1]| |]; [|done..].
    destruct (thread_step _ _ _ _ _ _ i a1 s1) as [[[a2 s2] w2]| |]; [|done..]. by rewrite app_assoc.
Qed.
Lemma agency_run_snoc e parent lea agencyid l i ph s w :
  agency_run e parent lea agencyid l = Ok (ph, s, w) →
  agency_run e parent lea agencyid (l ++ [i]) =
  match thread_step realloc_ok encode_keepalive encode_hi1 pdu_length is_keepalive_response sequence_number i ph s with
  | Ok (ph', s', w') => Ok (ph', s', w ++ w') | Abort => Abort | Undef => Undef
  end.
Proof.
  unfold agency_run, mbind, MW_bind. destruct (start_agency_thread _ _ _) as [[[a s0] w0]| |]; [|done..]. rewrite run_thread_snoc.
  unfold mbind, MW_bind. destruct (run_thread _ _ _ _ _ _ l a s0) as [[[a1 s1] w1]| |]; [|done..]. intros [= -> -> <-].
  destruct (thread_step _ _ _ _ _ _ i ph s) as [[[a2 s2] w2]| |]; [|done..]. by rewrite app_assoc.
Qed.

(** In every run the handovers are runs of their outlets. *)
Lemma agency_outlets e parent lea agencyid l :
  address_ok lea → Forall input_ok l →
  (∀ l1 i l2 ph s w, l = l1 ++ i :: l2 → agency_run e parent lea agencyid l1 = Ok (ph, s, w) → roomy i s) →
  ∃ ph s w g k, agency_run e parent lea agencyid l = Ok (ph, s, w) ∧
    runs (lea_step ka) (fresh_outlet, fresh_outlet) w g ∧ lt_inv k s g.
Proof.
  intros Ha. induction l as [|i l IH] using rev_ind; intros Hl Hroom.
  - destruct (twp_start e parent lea agencyid Ha) as (ph & s & w & g & E & Hr & Hi).
    exists ph, s, w, g, 0. split; [|done]. unfold agency_run, mbind, MW_bind. rewrite E. cbn [run_thread]. unfold mret, MW_ret. by rewrite app_nil_r.
  - apply Forall_app in Hl as [Hl [Hin _]%Forall_cons].
    destruct IH as (ph & s & w & g & k & E & Hr & Hi); [done| |].
    { intros l1 j l2 ph s w ->. apply Hroom with (l2 ++ [i]). by rewrite <- app_assoc. }
    destruct (twp_step i ph k s g Hin (Hroom l i [] ph s w eq_refl E) Hi) as (ph' & s' & w' & g' & E' & Hr' & Hi').
    exists ph', s', (w ++ w'), g', 1000. rewrite (agency_run_snoc _ _ _ _ _ _ _ _ _ E), E'. split; [done|]. split; [|done]. by eapply runs_app.
Qed.
End agency.

(** ** The theorem *)

(** C10: Whatever events, messages and announcements the thread of an agency gets, it goes on
    without faults.  Each connection to the agency carries whole records, notifications and
    keepalives, one after the other, except for its end.  Before the broker is told that
    messages have arrived, all those that it delivered since the connection with it was made
    were sent whole and in their order, and the last of them is the one that is named.
    What is asked of the outside ([input_ok]): records and notifications have 1 to 65536
    bytes, announced agencies have addresses, LIIDs are shorter than 1024 bytes, and a
    keepalive is sent whole or nothing at all is sent in the event ([torn_keepalive] shows
    what happens otherwise).  Memory is granted below 4 GiB, and when a step begins at most 8
    MiB are waiting in each buffer and at most 1000 messages in the queue ([roomy]). *)
Theorem acknowledged_records_sent {J : Judy1} (realloc_ok : Z → bool) (Hal : Allocator realloc_ok)
    (encode_keepalive : Z → cstring → Z → option bytes) (encode_hi1 : hi1_notify_data_t → cstring → cstring → option bytes)
    (pdu_length : bytes → Z) (is_keepalive_response : bytes → bool) (sequence_number : bytes → Z)
    (e : med_env) (parent : mediator_lea_config_t) (lea : liagency_t) (agencyid : bytes) (l : list thread_input)
    (Hka : ∀ mid op seq ka, encode_keepalive mid op seq = Some ka → ka ≠ [])
    (Hhi1 : ∀ nd op sop pdu, encode_hi1 nd op sop = Some pdu → 0 < zlen pdu ≤ RECORD_MAX)
    (Hlen : ∀ x, 0 ≤ pdu_length x) (Hlea : address_ok lea) (Hl : Forall input_ok l) :
  let run := agency_run realloc_ok encode_keepalive encode_hi1 pdu_length is_keepalive_response sequence_number e parent lea agencyid in
  (∀ l1 i l2 ph s w, l = l1 ++ i :: l2 → run l1 = Ok (ph, s, w) → roomy i s) →
  ∃ ph s w, run l = Ok (ph, s, w) ∧
    ∀ h, let events := events_of h w in
      (∃ sent, Forall2 (carried (sendable (is_keepalive encode_keepalive) events)) (connections events) sent) ∧
      (∀ w1 channel tag ok w2, events = w1 ++ Ho_asked (Amqp_ack channel tag) ok :: w2 →
         ∃ sent, Forall2 (carried (sendable (is_keepalive encode_keepalive) w1)) (connections w1) sent ∧
           (deliveries w1).1 `sublist_of` concat (rev sent) ∧ (deliveries w1).2 = Some tag).
Proof.
  intros run Hroom.
  destruct (agency_outlets realloc_ok encode_keepalive encode_hi1 pdu_length is_keepalive_response sequence_number Hka Hhi1 Hlen
    e parent lea agencyid l Hlea Hl Hroom) as (ph & s & w & g & k & E & Hr & _).
  exists ph, s, w. split; [exact E|]. intros h events. apply (events_run _ h) in Hr.
  replace (outlet_of h (fresh_outlet, fresh_outlet)) with fresh_outlet in Hr by by destruct h.
  split; [by eapply outlet_connections|]. intros w1 channel tag ok w2 Ew. unfold events in Ew. rewrite Ew in Hr.
  by eapply outlet_acknowledged.
Qed.

(** * Examples *)

#[local] Existing Instance set_judy1.

#[global] Instance grant_4GiB_allocator : Allocator grant_4GiB.
Proof. split; intros n; unfold grant_4GiB; [by apply Z.ltb_lt|by intros ?%Z.ltb_lt]. Qed.
Definition sample_lea : liagency_t :=
  Mkliagency_t (Some (of_string "10.0.0.1")) (Some (of_string "7001"))
    (Some (of_string "10.0.0.1")) (Some (of_string "7002")) (Some (of_string "agency")) 0 0.
Definition sample_config : mediator_lea_config_t := Mkmediator_lea_config_t 1 None None 0 None None 0 None 0.
(** Everything is sent and accepted; the IRI queue has a record. *)
Definition sample_env : med_env :=
  Mkmed_env (λ _, 9) (λ _, true) (λ _, true) 0 (λ _ _, 7) (λ n, Sent n) (λ n, Sent n) RecvWouldBlock (λ _, true) (λ _ _, true)
    (λ _ _, Some 0) (λ h, match h with HANDOVER_HI2 => [Consumed 2 41 (of_string "record")] | HANDOVER_HI3 => [] end).
Definition sample_inputs : list thread_input :=
  [Mkthread_input sample_env sample_config Ev_rmqcheck [MED_LEA_MESSAGE_ADD_LIID (of_string "LIID001") (of_string "agency")];
   Mkthread_input sample_env sample_config (Ev_lea HANDOVER_HI2 false false true) []].
Definition no_keepalive : Z → cstring → Z → option bytes := λ _ _ _, None.
Definition no_hi1 : hi1_notify_data_t → cstring → cstring → option bytes := λ _ _ _, None.
Abbreviation sample_run := (agency_run grant_4GiB no_keepalive no_hi1 (λ _, 0) (λ _, false) (λ _, 0) sample_env sample_config sample_lea (of_string "agency")).

Example sample_events :
  (λ r : thread_phase * lea_thread_state_t * list lea_event, events_of HANDOVER_HI2 r.2) <$> sample_run sample_inputs =
  Ok [Ho_connected 7; Ho_joined; Ho_asked (Amqp_declare 2 (of_string "LIID001-iri")) true;
      Ho_asked (Amqp_consume 2 (of_string "LIID001-iri")) true;
      Ho_delivered 41 (of_string "record"); Ho_sent (of_string "record"); Ho_asked (Amqp_ack 2 41) true].
Proof. vm_compute. reflexivity. Qed.

(** A keepalive that is sent in two pieces: the record goes between them. *)
Definition torn_env (piece : Z) : med_env :=
  Mkmed_env (λ _, 9) (λ _, true) (λ _, true) 0 (λ _ _, 7) (λ _, Sent piece) (λ n, Sent n) RecvWouldBlock (λ _, true) (λ _ _, true)
    (λ _ _, Some 0) (λ h, match h with HANDOVER_HI2 => [Consumed 2 41 (of_string "record")] | HANDOVER_HI3 => [] end).
Example torn_keepalive :
  (λ r : thread_phase * lea_thread_state_t * list lea_event, connections (events_of HANDOVER_HI2 r.2)) <$>
  agency_run grant_4GiB (λ _ _ _, Some (of_string "keepalive")) no_hi1 (λ _, 0) (λ _, false) (λ _, 0) sample_env sample_config
    sample_lea (of_string "agency")
    [Mkthread_input (torn_env 4) sample_config Ev_rmqcheck [];
     Mkthread_input (torn_env 4) sample_config (Ev_ka_timer HANDOVER_HI2) [];
     Mkthread_input (torn_env 4) sample_config (Ev_lea HANDOVER_HI2 false false true) [];
     Mkthread_input (torn_env 5) sample_config (Ev_lea HANDOVER_HI2 false false true) []] =
  Ok [of_string "keeprecordaliverecord"].
Proof. vm_compute. reflexivity. Qed.

Lemma sample_roomy l1 i l2 ph s w : sample_inputs = l1 ++ i :: l2 → sample_run l1 = Ok (ph, s, w) → roomy i s.
Proof.
  intros Hl Hr. destruct l1 as [|i1 [|i2 [|i3 l1]]]; [| |done..]; injection Hl as; subst; vm_compute in Hr;
    injection Hr as; subst; (split; [intros []; split|]); apply (bool_decide_unpack _); vm_compute; exact I.
Qed.
Lemma sample_env_ok : env_ok sample_env.
Proof.
  split.
  - intros []; [|constructor]. apply Forall_singleton. split; [|unfold RECORD_MAX]; apply (bool_decide_unpack _); vm_compute; exact I.
  - intros n m Hn [= <-]. lia.
  - by left.
Qed.
(** In the sample an acknowledgement is asked for, and what was delivered before was sent. *)
Lemma acknowledged_records_sent_witness :
  ∃ ph s w, sample_run sample_inputs = Ok (ph, s, w) ∧
    let events := events_of HANDOVER_HI2 w in
    (∃ w1 w2, events = w1 ++ Ho_asked (Amqp_ack 2 41) true :: w2 ∧ deliveries w1 = ([of_string "record"], Some 41) ∧
       ∃ sent, Forall2 (carried (sendable (is_keepalive no_keepalive) w1)) (connections w1) sent ∧
         [of_string "record"] `sublist_of` concat (rev sent)).
Proof.
  destruct (acknowledged_records_sent grant_4GiB grant_4GiB_allocator no_keepalive no_hi1 (λ _, 0) (λ _, false) (λ _, 0)
    sample_env sample_config sample_lea (of_string "agency") sample_inputs) as (ph & s & w & E & Hall).
  - intros mid op seq ka. discriminate.
  - intros nd op sop pdu. discriminate.
  - intros _. lia.
  - repeat split; discriminate.
  - repeat (apply Forall_cons; split; [split; [apply sample_env_ok|]|]); [|apply Forall_nil; exact I..].
    apply Forall_singleton. apply (bool_decide_unpack _). vm_compute. exact I.
  - intros l1 i l2 ph s w. apply sample_roomy.
  - exists ph, s, w. split; [exact E|]. destruct (Hall HANDOVER_HI2) as [_ Hack]. clear Hall.
    pose proof sample_events as Ev. rewrite E in Ev. cbn [fmap outcome_fmap] in Ev. injection Ev as Ev. cbn [snd] in Ev.
    set (w1 := [Ho_connected 7; Ho_joined; Ho_asked (Amqp_declare 2 (of_string "LIID001-iri")) true;
      Ho_asked (Amqp_consume 2 (of_string "LIID001-iri")) true; Ho_delivered 41 (of_string "record"); Ho_sent (of_string "record")]).
    exists w1, []. split; [exact Ev|]. split; [vm_compute; reflexivity|].
    destruct (Hack w1 2 41 true [] Ev) as (sent & H1 & H2 & _). exists sent. split; [exact H1|exact H2].
Defined.
